(* ===== verification/_CoqProject ===== *)
-Q . S2P
Prelude.v
Crypto.v
Block.v
Transactions.v
Mempool.v
Votes.v
Account.v
Fees.v
Stake.v
Pool.v
PoolInvariant.v
PoolRun.v
Delegation.v
Rewards.v
Validators.v
StakingV2.v
Economics.v
Rent.v
Transfers.v
Restrictions.v
Governed.v
Moss.v
MossInvariant.v
MossRun.v
RewardPlan.v
Allocation.v
EquivocationSlash.v
Settlement.v
Slashing.v
Staking.v
StakingLedger.v
Engine.v
Protocol.v
Power.v
Refinement.v
Network.v
Commit.v
Certificate.v
Wal.v
Finality.v
Scenario.v
Safety.v
Liveness.v
Accountability.v
Recovery.v
SlashInstruction.v
MossInstructions.v
Processor.v
Dispatch.v
BlockValue.v
GovernanceActions.v
Governance.v
GovernanceEffects.v
GovernanceRun.v
GovernanceSafety.v
Oracle.v
ContractLife.v
UpgradeSafety.v
Runtime.v
ContractCalls.v
CallStore.v
CallValue.v
Token.v
TokenLedger.v
CallFlaws.v
Swap.v
SwapPool.v
SwapSafety.v
