(* ===== verification/Prelude.v ===== *)
(** * Lichen: a verification library

    Lichen is a proof-of-stake blockchain node written in Rust.  This library models its
    consensus core, its staking and liquid staking, its transaction processor, its governance
    and its contract runtime as executable definitions, translated function by function from
    the sources under [src/], and proves what makes them correct.

    ** The program and how its parts interact

    The validator process ([validator/src/main.rs]) drives one pure state machine per height,
    the BFT engine ([validator/src/consensus.rs]).  A handler of the engine takes a proposal, a
    vote or a timeout and returns actions: messages to broadcast, timeouts to schedule, a block
    to commit.  The engine reads the validator set and the stake pool ([core/src/consensus.rs])
    through a power snapshot frozen for the height, signs with the node's post-quantum key
    ([core/src/account.rs], [core/src/signing.rs]), and records what it signs in a write-ahead
    log ([validator/src/wal.rs]) from which it is rebuilt after a crash.  A committed block
    carries the precommit signatures; other nodes check them with [Block::verify_commit]
    ([core/src/block.rs]), and the next block embeds them as a canonical commit certificate.
    Conflicting votes become slashing evidence.

    Transactions wait in the mempool ([core/src/mempool.rs]).  The processor
    ([core/src/processor/]) admits a transaction of a block, charges fees and rent, and runs its
    instructions on a batch that is committed or dropped as a whole.  The instructions of the
    system program move native coins, stake and liquid stake ([core/src/mossstake.rs]), advance
    nonces, slash, attest prices, and propose and approve governance actions
    ([core/src/governance.rs], [core/src/multisig.rs], [core/src/processor/governance_lifecycle.rs]).
    Restrictions ([core/src/restrictions.rs]) that governance creates stand in the path of
    transfers and contract calls.  The contract program deploys, upgrades, closes and calls
    contracts: the runtime ([core/src/contract.rs]) executes a contract with host functions
    through which it reads and writes storage, calls other contracts and moves value, and
    returns what the processor then writes to the batch.

    ** Files

    Foundations:
    - [Prelude]: machine integers, results, byte encodings, sums, stable sorting, bounded loops;
      the rewrite database [blen] (lengths of byte strings) and the hint database [lichen].
    - [Crypto]: hashes, keys, signatures, the signing envelope; the primitives are the class
      [Crypto] with the laws [CryptoLaws], [Toy] is an instance.
    - [Account]: accounts and their balance operations.

    Blocks and transactions:
    - [Block]: transactions, headers, blocks, Merkle roots and proofs.
    - [Transactions]: required signers, signatures, structural limits, the wire format.
    - [Mempool]: the mempool, refined to a priority order over a set of transactions.
    - [Fees], [Rent], [Economics]: fees and their split, rent, issuance and vesting.
    - [Transfers]: native transfers, account creation, durable nonces.

    Staking:
    - [Stake], [Pool], [PoolInvariant], [PoolRun], [Delegation], [Rewards]: stake records and
      the stake pool, its validation as an invariant of every run, delegation limits, rewards.
    - [Validators]: validator sets, eligibility, weighted leader selection.
    - [StakingV2], [RewardPlan], [Allocation], [Settlement]: epochs, stake-time accounting,
      commissions, the reward plan and its settlement.
    - [Slashing], [EquivocationSlash], [SlashInstruction]: offenses, evidence, the tracker, the
      slash of an equivocation on the pool, and the slashing instruction.
    - [Staking], [StakingLedger]: staking instructions, and that accounts and pool agree.
    - [Moss], [MossInvariant], [MossRun], [MossInstructions]: the liquid staking pool, its
      accounting over runs, and its instructions.

    Consensus:
    - [Votes]: proposals, prevotes, precommits and their signed bytes.
    - [Engine]: the consensus engine, every handler.
    - [Protocol]: the abstract specification, a locking protocol for one height over any
      weighted electorate, with agreement proved for it.
    - [Power]: the power snapshot is an electorate and the cached tallies are exact.
    - [Refinement]: every handler of the engine is a sequence of protocol steps (a forward
      simulation with the invariant [EInv]).
    - [Network]: all correct engines with an adversarial network.
    - [Commit], [Certificate]: commit verification, block time, certificates, and that the
      engine's commits pass them.
    - [Wal]: the log file with torn writes, slashing protection, recovery.
    - [Finality]: vote authority, vote aggregation, finality tracker, fork choice.
    - [Scenario]: executable runs of a network of four validators.
    - [Safety], [Liveness], [Accountability], [Recovery]: the theorems about the whole.

    Processor:
    - [Processor], [Dispatch]: a transaction and a block of transactions, and the dispatch of
      the system program to its handlers.
    - [BlockValue]: value over a whole block.

    Governance:
    - [Restrictions]: restriction records, their store with its indexes, and the queries.
    - [Governed]: governed wallets and their transfer proposals.
    - [GovernanceActions], [Governance]: actions, their parser and builders, policies,
      authorities and the life of a proposal.
    - [GovernanceEffects], [GovernanceRun], [GovernanceSafety]: effects of one operation, runs,
      and what holds over all runs.
    - [Oracle]: price attestations, the stake-weighted median and its quorum.

    Contracts:
    - [ContractLife], [UpgradeSafety]: deployment, upgrades with their delay, closing, symbols;
      the abstract life of a contract that the stored records follow.
    - [Runtime]: host functions, frames, roll-backs, metering, execution to any depth.
    - [ContractCalls]: the call instruction, its context and what its result writes.
    - [CallStore], [CallValue]: storage against one shared store, and native value.
    - [Token], [TokenLedger]: the MT-20 token with the contract SDK, refined to a ledger.
    - [CallFlaws]: where contract calls differ from executions on one shared store.
    - [Swap], [SwapPool], [SwapSafety]: the LichenSwap exchange on the SDK's liquidity pool, the
      invariant of its books, and its executions on the runtime.

    State is a record per component with one setter per field ([setter]); operations are
    functions to [result], whose error type lists the source's error returns; plain arithmetic
    wraps at its width, as in the release profile, and checked or saturating arithmetic is
    written as in the code.  Hash maps and B-trees are finite maps; [btree] lists a map in the
    order of its keys.  Libraries (signatures, serializers, JSON, the WebAssembly engine) are
    classes, with laws where a theorem needs them.

    ** What the theorems show

    - Consensus: agreement for any network of engines with less than a third of faulty stake
      ([engine_agreement]), by refinement of the locking protocol; no equivocation; committed
      blocks verify; precommits of two thirds of the stake commit; evidence convicts no correct
      validator, except in two cases that are shown ([nil_vote_convicts],
      [reproposal_convicts]); a restarted engine signs above its log; reopening the
      log yields its entries and drops a torn tail, behind which later votes can be lost
      ([wal_torn_tail_hides_votes]); finality slots grow under every interleaving.
    - Processor: value is conserved over a block of system instructions, no transaction takes
      effect twice, and the outcomes of a transaction are characterised.
    - Staking: the pool passes its own validation after every run, accounts and pool agree,
      slashes conserve value and equal their proportional reference, the search for a
      delegation limit ends with the limit; the same for the liquid staking pool.
    - Governance: the restriction store answers as a map of records; terminations are
      permanent; the incident guardian stays within its limits; proposals and governed
      transfers execute once, after their delay, with the approvals they need; prices come from
      a quorum.
    - Contracts: the code of a contract changes only as its owner decided and as long before as
      the delay says; calls that respect an order on contracts have the effects of an execution
      on one shared store; calls conserve native value; the token is a ledger; no execution of
      an export of the exchange lowers what a share of liquidity is worth on its books, while a
      re-entered flash loan drains it ([reentrant_loan_drains]).
    - Theorems of kind error show where the code does not do what it means to; the manifest's
      findings explain them.

    ** Bounds and fuel

    - Rounds: a vote for round [u32::MAX] makes the round wrap ([round_skip_wraps]); the
      theorems about agreement and evidence assume rounds up to [ROUND_CAP], two hundred below
      the end of the range.
    - [catch_up] has fuel 100, the code's own limit; [extension_chain] has the code's limit of
      64 links and one call that reports it; calls nest at most to the code's depth of 8.
    - [merkle_loop], [decode_entries_loop] and [strip] have the length of their input as fuel,
      which each step shortens; [iter_until] runs the binary search over 64 bits and the square
      root of the pool to their end, with lemmas that they have ended.
    - The token's theorem takes 20,000 compute units and room for ten host calls, more than any
      of its operations uses.

    ** Not modelled

    The event loop, block production, synchronisation and the updater (asynchronous I/O around
    the engine), the peer-to-peer network (it is the adversary of the engine's theorems), the
    store over RocksDB and its archive, except for the tables that the theorems are about, the
    RPC server, except for a builder of governance transactions, the command-line client, the
    custody service and the genesis builder.  The WebAssembly engine is a parameter: a contract
    is the tree of host calls that it makes.  The EVM, shielded transactions, the parallel
    scheduler of the processor, and the contracts other than the token and the exchange are not
    modelled; neither are log lines and the secondary indexes that only queries of clients read. *)

From stdpp Require Import base tactics numbers list gmap sorting strings.
From Stdlib Require Import ZArith Lia.

Local Open Scope Z_scope.

(** ** Machine integers

    A [w]-bit unsigned integer is a [Z]; the source's wrapping, saturating and
    checked operations are written out.  The release profile of the workspace
    does not turn overflow checks on, so a plain [+] or [*] wraps. *)

Definition wrap (w z : Z) : Z := z mod 2 ^ w.
Abbreviation wrap32 := (wrap 32).
Abbreviation wrap64 := (wrap 64).
Abbreviation wrap128 := (wrap 128).

Definition u32_max : Z := 2 ^ 32 - 1.
Definition u64_max : Z := 2 ^ 64 - 1.
Definition u128_max : Z := 2 ^ 128 - 1.

Definition is_u32 (z : Z) : Prop := 0 <= z < 2 ^ 32.
Definition is_u64 (z : Z) : Prop := 0 <= z < 2 ^ 64.
Definition is_u256 (z : Z) : Prop := 0 <= z < 2 ^ 256.

Definition sat_add64 (a b : Z) : Z := Z.min (a + b) u64_max.
Definition sat_sub (a b : Z) : Z := Z.max (a - b) 0.
Definition sat_mul64 (a b : Z) : Z := Z.min (a * b) u64_max.
Definition sat_add128 (a b : Z) : Z := Z.min (a + b) u128_max.
Definition sat_mul128 (a b : Z) : Z := Z.min (a * b) u128_max.
Definition checked_add64 (a b : Z) : option Z :=
  if a + b <=? u64_max then Some (a + b) else None.
Definition checked_sub (a b : Z) : option Z :=
  if b <=? a then Some (a - b) else None.

(** [x as i32] for a [u32] and [i64::from_le_bytes] for eight bytes. *)
Definition as_i32 (z : Z) : Z := if z <? 2 ^ 31 then z else z - 2 ^ 32.
Definition as_i64 (z : Z) : Z := if z <? 2 ^ 63 then z else z - 2 ^ 64.

Ltac unfold_ints :=
  unfold is_u32, is_u64, is_u256, sat_add64, sat_sub, sat_mul64, sat_add128,
    sat_mul128, u32_max, u64_max, u128_max in *.

(** [lia] with quotients and remainders by numerals. *)
Ltac divlia := Z.to_euclidean_division_equations; lia.

Lemma wrap_small w z : 0 <= z < 2 ^ w -> wrap w z = z.
Proof. apply Z.mod_small. Qed.

Lemma wrap_range w z : 0 <= w -> 0 <= wrap w z < 2 ^ w.
Proof. intros Hw. apply Z.mod_pos_bound. lia. Qed.

Lemma checked_add64_Some a b c :
  checked_add64 a b = Some c <-> c = a + b /\ a + b <= u64_max.
Proof.
  unfold checked_add64. destruct (Z.leb_spec (a + b) u64_max);
    split; intros; destruct_and?; simplify_eq; try done; lia.
Qed.

Lemma checked_sub_Some a b c :
  checked_sub a b = Some c <-> c = a - b /\ b <= a.
Proof.
  unfold checked_sub. destruct (Z.leb_spec b a);
    split; intros; destruct_and?; simplify_eq; try done; lia.
Qed.

(** ** Results

    [Result<A, E>]: the error type of a component carries the arguments of the
    source's format string. *)

Inductive result (A E : Type) : Type :=
| Ok (a : A)
| Err (e : E).
Arguments Ok {A E} a.
Arguments Err {A E} e.

Definition is_ok {A E} (r : result A E) : bool :=
  match r with Ok _ => true | Err _ => false end.

(** [o.ok_or_else(|| e)?] followed by the rest of the function. *)
Definition or_err {A B E} (o : option A) (e : E) (k : A -> result B E) : result B E :=
  match o with Some a => k a | None => Err e end.

(** [r?] followed by the rest of the function. *)
Definition and_then {A B E} (r : result A E) (k : A -> result B E) : result B E :=
  match r with Ok a => k a | Err e => Err e end.

Declare Scope rust_scope.
Delimit Scope rust_scope with rust.

(** [let x = r?; k] *)
Notation "'let?' x ':=' r 'in' k" := (and_then r (fun x => k))
  (at level 200, x binder, r at level 100, k at level 200, right associativity) : rust_scope.

Lemma Ok_inj {A E} (a b : A) : @Ok A E a = Ok b -> a = b.
Proof. congruence. Qed.

Lemma and_then_Ok {A B E} (r : result A E) (k : A -> result B E) b :
  and_then r k = Ok b <-> exists a, r = Ok a /\ k a = Ok b.
Proof. destruct r as [a|e]; simpl; split; [by eauto|by intros (? & [= ->] & ?)|done|by intros (? & ? & _)]. Qed.

Lemma or_err_Ok {A B E} (o : option A) (e : E) (k : A -> result B E) b :
  or_err o e k = Ok b <-> exists a, o = Some a /\ k a = Ok b.
Proof. destruct o; simpl; split; [by eauto|by intros (? & [= ->] & ?)|done|by intros (? & ? & _)]. Qed.

(** [if b { return Err(e) } rest] succeeds exactly when the guard is off. *)
Lemma guard_Ok {A E} (b : bool) (e : E) (r : result A E) a :
  (if b then Err e else r) = Ok a <-> b = false /\ r = Ok a.
Proof. destruct b; split; intros; destruct_and?; done. Qed.

Lemma checked_add64_Ok {E} a b (e : E) c :
  or_err (checked_add64 a b) e Ok = Ok c <-> c = a + b /\ c <= u64_max.
Proof.
  rewrite or_err_Ok. setoid_rewrite checked_add64_Some.
  split; [intros (? & [-> ?] & [= <-])|intros [-> ?]]; eauto.
Qed.

(** [for x in l { acc = step(acc, x)? }] *)
Fixpoint try_fold {S A E} (step : S -> A -> result S E) (acc : S) (l : list A) : result S E :=
  match l with
  | [] => Ok acc
  | x :: l => and_then (step acc x) (fun acc => try_fold step acc l)
  end.

Lemma try_fold_app {S A E} (step : S -> A -> result S E) acc l k :
  try_fold step acc (l ++ k) = and_then (try_fold step acc l) (fun acc => try_fold step acc k).
Proof. revert acc. induction l as [|x l IH]; intros acc; simpl; [done|]. destruct (step acc x); simpl; auto. Qed.

(** [for (index, x) in l.enumerate()] where only [index + 1 == l.len()] is asked. *)
Fixpoint try_fold_last {S A E} (step : bool -> S -> A -> result S E) (acc : S) (l : list A) : result S E :=
  match l with
  | [] => Ok acc
  | x :: l =>
      and_then (step (match l with [] => true | _ => false end) acc x)
        (fun acc => try_fold_last step acc l)
  end.

(** ** Record setters

    [setter eta p] is the function that replaces field [p] of a record; [eta]
    rebuilds the record from its projections. *)

Ltac setter eta p :=
  lazymatch type of p with
  | ?R -> ?E =>
      let v := fresh "v" in let r := fresh "r" in
      refine (fun (v : E) (r : R) => _);
      let b := eval cbv beta delta [eta] in (eta r) in
      let f := lazymatch eval pattern (p r) in b with ?f _ => f end in
      let t := eval cbv beta in (f v) in
      exact t
  end.

(** ** Bytes

    A byte is a [Z] in [0, 256); a 32-byte array ([Hash], [Pubkey], a seed) is
    the 256-bit integer it spells most significant byte first, so that the
    lexicographic order of arrays is the order of integers. *)

Abbreviation bytes := (list Z).

Fixpoint le_bytes (n : nat) (z : Z) : bytes :=
  match n with
  | O => []
  | S n => z mod 256 :: le_bytes n (z / 256)
  end.

Fixpoint le_value (l : bytes) : Z :=
  match l with
  | [] => 0
  | b :: l => b + 256 * le_value l
  end.

Definition be_bytes (n : nat) (z : Z) : bytes := reverse (le_bytes n z).

(** [s.as_bytes()] for a string literal of the source. *)
Fixpoint str_bytes (s : string) : bytes :=
  match s with
  | EmptyString => []
  | String a s => Z.of_N (Ascii.N_of_ascii a) :: str_bytes s
  end.

Definition is_byte (b : Z) : Prop := 0 <= b < 256.

Lemma le_bytes_length n z : length (le_bytes n z) = n.
Proof. revert z. induction n; intros z; simpl; auto. Qed.

Lemma be_bytes_length n z : length (be_bytes n z) = n.
Proof. unfold be_bytes. by rewrite length_reverse, le_bytes_length. Qed.

(** Lengths of byte strings: [blen] computes them from the parts; [split_bytes]
    splits an equation between two concatenations whose first parts have the
    same length. *)
Create HintDb blen.
#[export] Hint Rewrite le_bytes_length be_bytes_length @length_app : blen.
Ltac blen := autorewrite with blen; simpl; first [done | lia].
Tactic Notation "split_bytes" ident(H) "as" simple_intropattern(H1) simple_intropattern(H2) :=
  apply app_inj_1 in H as [H1 H2]; [|blen].

Lemma le_bytes_are_bytes n z : Forall is_byte (le_bytes n z).
Proof.
  revert z. induction n; intros z; simpl; constructor; auto.
  apply Z.mod_pos_bound. lia.
Qed.

Lemma le_value_le_bytes n z : le_value (le_bytes n z) = z mod 256 ^ Z.of_nat n.
Proof.
  revert z. induction n as [|n IH]; intros z.
  - simpl. by rewrite Z.mod_1_r.
  - cbn [le_bytes le_value]. rewrite IH, Nat2Z.inj_succ, Z.pow_succ_r by lia.
    by rewrite Z.rem_mul_r by lia.
Qed.

Lemma le_bytes_le_value l : Forall is_byte l -> le_bytes (length l) (le_value l) = l.
Proof.
  unfold is_byte. induction 1 as [|b l Hb _ IH]; [done|]. cbn [length le_bytes le_value].
  rewrite (Z.mul_comm 256), Z.mod_add, Z.div_add by lia.
  by rewrite Z.mod_small, Z.div_small, Z.add_0_l, IH by lia.
Qed.

Lemma le_bytes_inj n a b :
  0 <= a < 256 ^ Z.of_nat n -> 0 <= b < 256 ^ Z.of_nat n ->
  le_bytes n a = le_bytes n b -> a = b.
Proof.
  intros Ha Hb Heq. apply (f_equal le_value) in Heq.
  rewrite !le_value_le_bytes in Heq. by rewrite !Z.mod_small in Heq.
Qed.

Lemma be_bytes_inj n a b :
  0 <= a < 256 ^ Z.of_nat n -> 0 <= b < 256 ^ Z.of_nat n ->
  be_bytes n a = be_bytes n b -> a = b.
Proof. intros Ha Hb Heq%(inj reverse). by apply (le_bytes_inj n). Qed.

(** [le_bytes] at the widths of the source. *)
Lemma le_bytes4_inj a b : is_u32 a -> is_u32 b -> le_bytes 4 a = le_bytes 4 b -> a = b.
Proof. apply (le_bytes_inj 4). Qed.
Lemma le_bytes8_inj a b : is_u64 a -> is_u64 b -> le_bytes 8 a = le_bytes 8 b -> a = b.
Proof. apply (le_bytes_inj 8). Qed.
Lemma be_bytes32_inj a b : is_u256 a -> is_u256 b -> be_bytes 32 a = be_bytes 32 b -> a = b.
Proof. apply (be_bytes_inj 32). Qed.

(** Injectivity of the fixed-width encodings. *)
Create HintDb lichen.
#[export] Hint Resolve le_bytes4_inj le_bytes8_inj be_bytes32_inj : lichen.

(** [i32::to_le_bytes]: two's complement. *)
Definition i32_le_bytes (z : Z) : bytes := le_bytes 4 (z mod 2 ^ 32).

(** ** Sums *)

Definition sumZ {A} (f : A -> Z) (l : list A) : Z := foldr (fun x acc => f x + acc) 0 l.

Section sums.
Context {A : Type} (f : A -> Z).
Implicit Types l : list A.

Lemma sumZ_cons x l : sumZ f (x :: l) = f x + sumZ f l.
Proof. done. Qed.

Lemma sumZ_app l k : sumZ f (l ++ k) = sumZ f l + sumZ f k.
Proof. induction l as [|x l IH]; [done|]. cbn [app]. rewrite !sumZ_cons, IH. lia. Qed.

#[global] Instance sumZ_perm : Proper (Permutation ==> eq) (sumZ f).
Proof. induction 1; rewrite ?sumZ_cons in *; lia. Qed.

Lemma sumZ_nonneg l : (forall x, x ∈ l -> 0 <= f x) -> 0 <= sumZ f l.
Proof.
  induction l as [|x l IH]; intros Hf; [done|]. rewrite sumZ_cons.
  assert (0 <= f x) by (apply Hf; left). assert (0 <= sumZ f l); [|lia].
  apply IH. intros y Hy. apply Hf. by right.
Qed.

Lemma sumZ_filter_split (P : A -> Prop) `{!forall x, Decision (P x)} l :
  sumZ f l = sumZ f (filter P l) + sumZ f (filter (fun x => ~ P x) l).
Proof.
  induction l as [|x l IH]; [done|]. rewrite !filter_cons, sumZ_cons, IH.
  repeat case_decide; rewrite ?sumZ_cons; try lia; done.
Qed.

Lemma sumZ_subset l k :
  (forall x, x ∈ k -> 0 <= f x) -> NoDup l -> (forall x, x ∈ l -> x ∈ k) ->
  sumZ f l <= sumZ f k.
Proof.
  intros Hf Hl Hlk.
  destruct (submseteq_Permutation l k) as [k' Hk]; [by apply NoDup_submseteq|].
  rewrite Hk, sumZ_app. assert (0 <= sumZ f k'); [|lia].
  apply sumZ_nonneg. intros x Hx. apply Hf. rewrite Hk, elem_of_app. by right.
Qed.

Lemma sumZ_zero l : (forall x, x ∈ l -> f x = 0) -> sumZ f l = 0.
Proof.
  induction l as [|x l IH]; intros H; [done|]. rewrite sumZ_cons, IH, (H x); [lia|left|].
  intros y Hy. apply H. by right.
Qed.

Lemma sumZ_bound l c : (forall x, x ∈ l -> f x <= c) -> sumZ f l <= c * Z.of_nat (length l).
Proof.
  induction l as [|x l IH]; intros H; [simpl; lia|]. rewrite sumZ_cons. cbn [length].
  assert (f x <= c) by (apply H; left).
  assert (sumZ f l <= c * Z.of_nat (length l)); [|lia].
  apply IH. intros y Hy. apply H. by right.
Qed.
End sums.

Lemma sumZ_ext {A} (f g : A -> Z) l :
  (forall x, x ∈ l -> f x = g x) -> sumZ f l = sumZ g l.
Proof.
  induction l as [|x l IH]; intros H; [done|]. rewrite !sumZ_cons, IH, (H x); [done|left|].
  intros y Hy. apply H. by right.
Qed.

Lemma sumZ_add {A} (f g : A -> Z) l : sumZ (fun x => f x + g x) l = sumZ f l + sumZ g l.
Proof. induction l as [|x l IH]; [done|]. rewrite !sumZ_cons, IH. lia. Qed.

Lemma sumZ_le {A} (f g : A -> Z) l : (forall x, x ∈ l -> f x <= g x) -> sumZ f l <= sumZ g l.
Proof.
  induction l as [|x l IH]; intros Hfg; [done|]. rewrite !sumZ_cons.
  assert (f x <= g x) by (apply Hfg; left). assert (sumZ f l <= sumZ g l); [|lia].
  apply IH. intros y Hy. apply Hfg. by right.
Qed.

Lemma sumZ_map {A B} (g : A -> B) (f : B -> Z) l : sumZ f (map g l) = sumZ (fun x => f (g x)) l.
Proof. induction l as [|x l IH]; [done|]. cbn [map]. by rewrite !sumZ_cons, IH. Qed.

(** [iter().filter_map(f).map(u128::from).sum()] is a sum of defaults. *)
Lemma sumZ_omap {A} (f : A -> option Z) l :
  sumZ id (omap f l) = sumZ (fun x => default 0 (f x)) l.
Proof.
  induction l as [|x l IH]; [done|]. rewrite sumZ_cons.
  change (omap f (x :: l)) with (match f x with Some y => y :: omap f l | None => omap f l end).
  destruct (f x); rewrite ?sumZ_cons, IH; done.
Qed.

Lemma sumZ_omap_with {A B} (f : A -> option B) (g : B -> Z) l :
  sumZ g (omap f l) = sumZ (fun x => from_option g 0 (f x)) l.
Proof.
  induction l as [|x l IH]; [done|]. rewrite sumZ_cons.
  change (omap f (x :: l)) with (match f x with Some y => y :: omap f l | None => omap f l end).
  destruct (f x); rewrite ?sumZ_cons, IH; done.
Qed.

Lemma sumZ_fmap {A B} (g : A -> B) (f : B -> Z) l : sumZ f (g <$> l) = sumZ (fun x => f (g x)) l.
Proof. apply sumZ_map. Qed.

(** Two sub-multisets of a weighted universe overlap in at least the excess of
    their weights over the weight of the universe. *)
Lemma sumZ_overlap {A} `{EqDecision A} (w : A -> Z) (U Q1 Q2 : list A) :
  (forall x, x ∈ U -> 0 <= w x) -> NoDup Q1 -> NoDup Q2 ->
  (forall x, x ∈ Q1 -> x ∈ U) -> (forall x, x ∈ Q2 -> x ∈ U) ->
  sumZ w Q1 + sumZ w Q2 <= sumZ w U + sumZ w (filter (fun x => x ∈ Q2) Q1).
Proof.
  intros Hw HQ1 HQ2 H1 H2.
  rewrite (sumZ_filter_split w (fun x => x ∈ Q2) Q1).
  assert (sumZ w (filter (fun x => x ∉ Q2) Q1 ++ Q2) <= sumZ w U) as Hle.
  { apply sumZ_subset; [done| |].
    - apply NoDup_app; split_and!; [by apply NoDup_filter| |done].
      intros x [? _]%list_elem_of_filter. done.
    - intros x [[_ ?]%list_elem_of_filter|?]%elem_of_app; auto. }
  rewrite sumZ_app in Hle. lia.
Qed.

(** ** Stable sorting

    [sort_by_key] of the source is stable: elements with equal keys keep their
    order.  Insertion sort from the right is the reference definition. *)

Section sort.
Context {A : Type} (key : A -> Z).

Fixpoint insert_by_key (x : A) (l : list A) : list A :=
  match l with
  | [] => [x]
  | y :: l' => if key x <=? key y then x :: y :: l' else y :: insert_by_key x l'
  end.

Definition sort_by_key (l : list A) : list A := foldr insert_by_key [] l.

Definition sorted_by_key (l : list A) : Prop :=
  StronglySorted (fun x y => key x <= key y) l.

Lemma insert_by_key_perm x l : insert_by_key x l ≡ₚ x :: l.
Proof.
  induction l as [|y l IH]; simpl; [done|]. case_match; [done|].
  rewrite IH. constructor.
Qed.

Lemma sort_by_key_perm l : sort_by_key l ≡ₚ l.
Proof.
  induction l as [|x l IH]; [done|]. change (insert_by_key x (sort_by_key l) ≡ₚ x :: l).
  by rewrite insert_by_key_perm, IH.
Qed.

Lemma insert_by_key_sorted x l : sorted_by_key l -> sorted_by_key (insert_by_key x l).
Proof.
  unfold sorted_by_key. induction 1 as [|y l Hl IH Hy]; simpl; [by repeat constructor|].
  destruct (Z.leb_spec (key x) (key y)).
  - constructor; [by constructor|]. constructor; [lia|].
    eapply Forall_impl; [done|]. simpl. lia.
  - constructor; [done|]. rewrite insert_by_key_perm. constructor; [lia|done].
Qed.

Lemma sort_by_key_sorted l : sorted_by_key (sort_by_key l).
Proof. induction l as [|x l IH]; [constructor|]. by apply insert_by_key_sorted. Qed.

Lemma insert_by_key_stable x l k :
  filter (fun y => key y = k) (insert_by_key x l) = filter (fun y => key y = k) (x :: l).
Proof.
  induction l as [|y l IH]; simpl; [done|].
  destruct (Z.leb_spec (key x) (key y)); [done|].
  rewrite !filter_cons in *. rewrite IH. repeat case_decide; try done. lia.
Qed.

Lemma sort_by_key_stable l k :
  filter (fun y => key y = k) (sort_by_key l) = filter (fun y => key y = k) l.
Proof.
  induction l as [|x l IH]; [done|].
  change (sort_by_key (x :: l)) with (insert_by_key x (sort_by_key l)).
  by rewrite insert_by_key_stable, !filter_cons, IH.
Qed.

Lemma sort_by_key_length l : length (sort_by_key l) = length l.
Proof. by rewrite sort_by_key_perm. Qed.

Lemma elem_of_sort_by_key x l : x ∈ sort_by_key l <-> x ∈ l.
Proof. by rewrite sort_by_key_perm. Qed.
End sort.

(** ** Maps *)

Lemma elem_of_keys {K A} `{Countable K} (m : gmap K A) k :
  k ∈ (map_to_list m).*1 <-> is_Some (m !! k).
Proof.
  rewrite list_elem_of_fmap. split.
  - intros ([j w] & -> & Hj). apply elem_of_map_to_list in Hj. by exists w.
  - intros [w Hw]. exists (k, w). split; [done|]. by apply elem_of_map_to_list.
Qed.

(** The sum of [f] over the values of a map. *)
Definition map_sum {K A} `{Countable K} (f : A -> Z) (m : gmap K A) : Z :=
  sumZ (fun kv => f kv.2) (map_to_list m).

Section map_sum.
Context {K A : Type} `{Countable K} (f : A -> Z).
Implicit Types m : gmap K A.

Lemma map_sum_empty : map_sum f (∅ : gmap K A) = 0.
Proof. unfold map_sum. by rewrite map_to_list_empty. Qed.

Lemma map_sum_insert_new m k v : m !! k = None -> map_sum f (<[k := v]> m) = f v + map_sum f m.
Proof. intros Hk. unfold map_sum. by rewrite map_to_list_insert. Qed.

Lemma map_sum_delete m k v : m !! k = Some v -> map_sum f (delete k m) = map_sum f m - f v.
Proof. intros Hk. unfold map_sum. rewrite <- (map_to_list_delete m k v Hk), sumZ_cons. simpl. lia. Qed.

Lemma map_sum_insert m k v v' :
  m !! k = Some v -> map_sum f (<[k := v']> m) = map_sum f m - f v + f v'.
Proof.
  intros Hk. rewrite <- insert_delete_eq, map_sum_insert_new by apply lookup_delete_eq.
  rewrite (map_sum_delete m k v Hk). lia.
Qed.

(** The same without a case on whether the key is present. *)
Lemma map_sum_put m k v :
  map_sum f (<[k := v]> m) = map_sum f m - from_option f 0 (m !! k) + f v.
Proof.
  destruct (m !! k) eqn:Hk; simpl; [by apply map_sum_insert|]. rewrite map_sum_insert_new by done. lia.
Qed.

Lemma map_sum_drop m k : map_sum f (delete k m) = map_sum f m - from_option f 0 (m !! k).
Proof.
  destruct (m !! k) eqn:Hk; simpl; [by apply map_sum_delete|]. rewrite delete_id by done. lia.
Qed.

Lemma map_sum_nonneg m : (forall k v, m !! k = Some v -> 0 <= f v) -> 0 <= map_sum f m.
Proof. intros Hf. apply sumZ_nonneg. intros [k v] Hk%elem_of_map_to_list. by apply (Hf k). Qed.

Lemma map_sum_lookup m k v :
  (forall k v, m !! k = Some v -> 0 <= f v) -> m !! k = Some v -> f v <= map_sum f m.
Proof.
  intros Hf Hk. pose proof (map_sum_delete m k v Hk) as Hd.
  assert (0 <= map_sum f (delete k m)); [|lia]. apply map_sum_nonneg.
  intros j w [_ Hj]%lookup_delete_Some. by apply (Hf j).
Qed.

(** The sum depends on the values only, a missing key counting as nothing. *)
Lemma map_sum_ext_default m m' :
  (forall k, from_option f 0 (m !! k) = from_option f 0 (m' !! k)) -> map_sum f m = map_sum f m'.
Proof.
  revert m'. induction m as [|k v m Hk IH] using map_ind; intros m' He.
  - induction m' as [|k v m Hk IH] using map_ind; [done|].
    pose proof (He k) as Hv. rewrite lookup_empty, lookup_insert_eq in Hv. simpl in Hv.
    rewrite map_sum_insert_new, <- Hv, Z.add_0_l by done. apply IH. intros j. rewrite lookup_empty.
    destruct (decide (j = k)) as [->|Hne]; [by rewrite Hk|].
    pose proof (He j) as Hj. by rewrite lookup_empty, lookup_insert_ne in Hj.
  - rewrite map_sum_insert_new by done. pose proof (He k) as Hv. rewrite lookup_insert_eq in Hv. simpl in Hv.
    rewrite Hv, (IH (delete k m')), map_sum_drop; [lia|]. intros j.
    destruct (decide (j = k)) as [->|Hne]; [by rewrite Hk, lookup_delete_eq|].
    pose proof (He j) as Hj. by rewrite lookup_insert_ne in Hj; [rewrite lookup_delete_ne|].
Qed.
End map_sum.

Lemma Forall_map_to_list {K A} `{Countable K} (P : K -> A -> Prop) (m : gmap K A) :
  Forall (fun kv => P kv.1 kv.2) (map_to_list m) <-> map_Forall P m.
Proof.
  rewrite Forall_forall. split.
  - intros HP k v Hk. apply (HP (k, v)). by apply elem_of_map_to_list.
  - intros HP [k v] Hk%elem_of_map_to_list. by apply HP.
Qed.

Lemma map_sum_keys {K A} `{Countable K} (f : A -> Z) (m : gmap K A) :
  map_sum f m = sumZ (fun k => from_option f 0 (m !! k)) (map_to_list m).*1.
Proof.
  unfold map_sum. change ((map_to_list m).*1) with (map fst (map_to_list m)). rewrite sumZ_map.
  apply sumZ_ext. intros [k v] Hk%elem_of_map_to_list. simpl. by rewrite Hk.
Qed.

Lemma try_fold_unit {A E} (step : unit -> A -> result unit E) (ok : A -> Prop) l :
  (forall x, x ∈ l -> step tt x = Ok tt <-> ok x) ->
  try_fold step tt l = Ok tt <-> Forall ok l.
Proof.
  induction l as [|x l IH]; intros Hs; cbn [try_fold]; [by split|].
  rewrite and_then_Ok, Forall_cons, <- (Hs x) by left. rewrite <- IH.
  - split; [by intros ([] & ? & ?)|]. intros [??]. by exists tt.
  - intros y Hy. apply Hs. by right.
Qed.

(** A checked running total: the fold succeeds exactly when every element is
    acceptable and the total fits. *)
Lemma try_fold_total {A E} (step : Z -> A -> result Z E) (ok : A -> Prop) (f : A -> Z) l acc total :
  (forall a x b, x ∈ l -> 0 <= a -> step a x = Ok b <-> ok x /\ b = a + f x /\ b <= u64_max) ->
  (forall x, ok x -> 0 <= f x) -> 0 <= acc <= u64_max ->
  try_fold step acc l = Ok total
  <-> Forall ok l /\ total = acc + sumZ f l /\ total <= u64_max.
Proof.
  intros Hstep Hf. revert acc. induction l as [|x l IH]; intros acc Hacc; cbn [try_fold].
  - unfold sumZ. simpl. split; [intros [= <-]; split_and!; [constructor|lia|lia]|intros (_ & -> & _); f_equal; lia].
  - rewrite and_then_Ok, Forall_cons, sumZ_cons.
    assert (forall a y b, y ∈ l -> 0 <= a -> step a y = Ok b <-> ok y /\ b = a + f y /\ b <= u64_max)
      as Hl' by (intros; apply Hstep; [by right|done]).
    specialize (IH Hl'). split.
    + intros (b & Hb & Ht). apply Hstep in Hb as (Hx & -> & Hm); [|left|lia].
      specialize (Hf x Hx). apply IH in Ht as (? & -> & ?); [|lia]. split_and!; try done; lia.
    + intros ([Hx Hl] & -> & Hm). pose proof (Hf x Hx).
      assert (0 <= sumZ f l).
      { apply sumZ_nonneg. intros y Hy. rewrite Forall_forall in Hl. by apply Hf, Hl. }
      exists (acc + f x). split; [apply Hstep; [left|lia|split_and!; try done; lia]|].
      apply IH; [lia|]. split_and!; try done; lia.
Qed.

(** ** Loops

    [while !done(s) { s = step(s) }] with a binary bound on the iterations, so
    that a bound of 2^64 costs 64 levels. *)

Section loops.
Context {S : Type} (done_ : S -> bool) (step : S -> S).

Fixpoint iter_until (p : positive) (s : S) : S :=
  if done_ s then s
  else match p with
       | xH => step s
       | xO p => iter_until p (iter_until p s)
       | xI p => iter_until p (iter_until p (step s))
       end.

(** An invariant with a measure that drops below the bound is established at
    the exit together with the exit condition. *)
Context (inv : S -> Prop) (measure : S -> Z).
Hypothesis step_inv : forall s, inv s -> done_ s = false -> inv (step s).
Hypothesis measure_nonneg : forall s, inv s -> 0 <= measure s.
Hypothesis step_measure :
  forall s, inv s -> done_ s = false -> measure (step s) < measure s.

Lemma iter_until_progress p s :
  inv s ->
  inv (iter_until p s)
  /\ (done_ (iter_until p s) = true \/ measure (iter_until p s) + Zpos p <= measure s).
Proof.
  revert s. induction p as [p IH|p IH|]; intros s Hs; cbn [iter_until];
    destruct (done_ s) eqn:Hd; try (split; [done|by left]).
  - destruct (IH (step s)) as [Hi [Hd1|Hm1]]; [by apply step_inv| |].
    + set (s1 := iter_until p (step s)) in *.
      assert (iter_until p s1 = s1) as ->; [|by auto].
      destruct p; cbn [iter_until]; by rewrite Hd1.
    + destruct (IH (iter_until p (step s)) Hi) as [Hi2 [Hd2|Hm2]]; [by auto|].
      split; [done|]. right. pose proof (step_measure s Hs Hd). lia.
  - destruct (IH s Hs) as [Hi [Hd1|Hm1]].
    + set (s1 := iter_until p s) in *.
      assert (iter_until p s1 = s1) as ->; [|by auto].
      destruct p; cbn [iter_until]; by rewrite Hd1.
    + destruct (IH (iter_until p s) Hi) as [Hi2 [Hd2|Hm2]]; [by auto|].
      split; [done|]. right. lia.
  - split; [by apply step_inv|]. right. pose proof (step_measure s Hs Hd). lia.
Qed.

Lemma iter_until_done p s :
  inv s -> measure s < Zpos p -> inv (iter_until p s) /\ done_ (iter_until p s) = true.
Proof.
  intros Hs Hm. destruct (iter_until_progress p s Hs) as [Hi [Hd|Hle]]; [done|].
  pose proof (measure_nonneg _ Hi). lia.
Qed.
End loops.
