(* ===== verification/Crypto.v ===== *)
(** * Keys, signatures and signing domains

    Models [core/src/account.rs] (post-quantum public keys, signatures,
    [Keypair::sign] and [Keypair::verify]), [core/src/hash.rs] and
    [core/src/signing.rs] (the versioned signing envelope).

    The ML-DSA, SLH-DSA and SHA-256 primitives are third-party crates: they are
    the operations of the class [Crypto], and what the code relies on is the
    class [CryptoLaws].  [Toy.crypto] is a concrete instance of both. *)

From S2P Require Import Prelude.
From stdpp Require Import base tactics numbers list strings.
From Stdlib Require Import ZArith Lia.

Local Open Scope Z_scope.

Abbreviation Hash := Z (only parsing).
Abbreviation Pubkey := Z (only parsing).

(** [Hash::default()], thirty-two zero bytes. *)
Definition zero_hash : Hash := 0.

(** Third-party primitives: [sha2::Sha256], [ml_dsa::MlDsa65],
    [dilithium::DilithiumKeyPair::verify] and [slh_dsa::Shake128f].  A verifier
    rejects what it cannot decode. *)
Class Crypto := {
  sha256 : bytes -> Z;
  ml_dsa_public_key : Z -> bytes;
  ml_dsa_sign : Z -> bytes -> bytes;
  ml_dsa_verify : bytes -> bytes -> bytes -> bool;
  fips204_ml_dsa65_verify : bytes -> bytes -> bytes -> bool;
  slh_dsa_128f_verify : bytes -> bytes -> bytes -> bool;
}.

Definition PQ_SCHEME_ML_DSA_65 : Z := 1.
Definition PQ_SCHEME_SLH_DSA_128F : Z := 2.
Definition ML_DSA_65_PUBLIC_KEY_BYTES : nat := 1952.
Definition ML_DSA_65_SIGNATURE_BYTES : nat := 3309.
Definition SLH_DSA_128F_PUBLIC_KEY_BYTES : nat := 32.
Definition SLH_DSA_128F_SIGNATURE_BYTES : nat := 17088.

(** What the code relies on: a digest has 256 bits, encoded keys and signatures
    have the sizes of FIPS 204, and a signature verifies under its own key. *)
Class CryptoLaws (C : Crypto) : Prop := {
  sha256_range : forall m, is_u256 (sha256 m);
  ml_dsa_public_key_length :
    forall seed, length (ml_dsa_public_key seed) = ML_DSA_65_PUBLIC_KEY_BYTES;
  ml_dsa_sign_length :
    forall seed m, length (ml_dsa_sign seed m) = ML_DSA_65_SIGNATURE_BYTES;
  ml_dsa_sign_verify :
    forall seed m, ml_dsa_verify (ml_dsa_public_key seed) m (ml_dsa_sign seed m) = true;
}.

(** [Hash::hash] and [Hash::hash_two_parts]. *)
Definition Hash_hash `{Crypto} (data : bytes) : Hash := sha256 data.
Definition Hash_hash_two_parts `{Crypto} (part_a part_b : bytes) : Hash :=
  sha256 (part_a ++ part_b).

Record PqPublicKey := mkPqPublicKey {
  pk_scheme_version : Z;
  pk_bytes : bytes;
}.

Record PqSignature := mkPqSignature {
  sig_scheme_version : Z;
  sig_public_key : PqPublicKey;
  sig_sig : bytes;
}.

#[global] Instance PqPublicKey_eq_dec : EqDecision PqPublicKey.
Proof. solve_decision. Defined.
#[global] Instance PqSignature_eq_dec : EqDecision PqSignature.
Proof. solve_decision. Defined.

Inductive PqError :=
| UnsupportedPublicKeyScheme (scheme : Z)
| InvalidPublicKeyLength (scheme : Z) (len expected : nat)
| SchemeMismatch (signature_scheme key_scheme : Z)
| UnsupportedSignatureScheme (scheme : Z)
| InvalidSignatureLength (scheme : Z) (len expected : nat).

Definition PqPublicKey_validate (k : PqPublicKey) : result unit PqError :=
  let check expected :=
    if decide (length (pk_bytes k) = expected) then Ok tt
    else Err (InvalidPublicKeyLength (pk_scheme_version k) (length (pk_bytes k)) expected) in
  if pk_scheme_version k =? PQ_SCHEME_ML_DSA_65 then check ML_DSA_65_PUBLIC_KEY_BYTES
  else if pk_scheme_version k =? PQ_SCHEME_SLH_DSA_128F then check SLH_DSA_128F_PUBLIC_KEY_BYTES
  else Err (UnsupportedPublicKeyScheme (pk_scheme_version k)).

(** [address[0] = scheme_version; address[1..] = digest[..31]]. *)
Definition PqPublicKey_address `{Crypto} (k : PqPublicKey) : Pubkey :=
  Z.shiftl (pk_scheme_version k) 248 + Z.shiftr (sha256 (pk_bytes k)) 8.

Definition PqSignature_validate (s : PqSignature) : result unit PqError :=
  and_then (PqPublicKey_validate (sig_public_key s)) (fun _ =>
  if negb (pk_scheme_version (sig_public_key s) =? sig_scheme_version s) then
    Err (SchemeMismatch (sig_scheme_version s) (pk_scheme_version (sig_public_key s)))
  else
    let check expected :=
      if decide (length (sig_sig s) = expected) then Ok tt
      else Err (InvalidSignatureLength (sig_scheme_version s) (length (sig_sig s)) expected) in
    if sig_scheme_version s =? PQ_SCHEME_ML_DSA_65 then check ML_DSA_65_SIGNATURE_BYTES
    else if sig_scheme_version s =? PQ_SCHEME_SLH_DSA_128F then check SLH_DSA_128F_SIGNATURE_BYTES
    else Err (UnsupportedSignatureScheme (sig_scheme_version s))).

Definition PqSignature_new (scheme : Z) (k : PqPublicKey) (sg : bytes)
  : result PqSignature PqError :=
  let s := mkPqSignature scheme k sg in
  and_then (PqSignature_validate s) (fun _ => Ok s).

Definition PqSignature_signer_address `{Crypto} (s : PqSignature) : Pubkey :=
  PqPublicKey_address (sig_public_key s).

(** A key pair is determined by its 32-byte seed. *)
Record Keypair := mkKeypair { kp_seed : Z }.

Definition Keypair_public_key `{Crypto} (kp : Keypair) : PqPublicKey :=
  mkPqPublicKey PQ_SCHEME_ML_DSA_65 (ml_dsa_public_key (kp_seed kp)).

Definition Keypair_pubkey `{Crypto} (kp : Keypair) : Pubkey :=
  PqPublicKey_address (Keypair_public_key kp).

(** [PqSignature::new(...).expect(...)]: under [CryptoLaws] the validation
    succeeds ([Keypair_sign_valid]), so the panic is unreachable. *)
Definition Keypair_sign `{Crypto} (kp : Keypair) (message : bytes) : PqSignature :=
  mkPqSignature PQ_SCHEME_ML_DSA_65 (Keypair_public_key kp) (ml_dsa_sign (kp_seed kp) message).

Definition Keypair_verify `{Crypto} (address : Pubkey) (message : bytes) (s : PqSignature)
  : bool :=
  if negb (is_ok (PqSignature_validate s)) then false
  else if negb (PqSignature_signer_address s =? address) then false
  else if sig_scheme_version s =? PQ_SCHEME_ML_DSA_65 then
    ml_dsa_verify (pk_bytes (sig_public_key s)) message (sig_sig s)
    || fips204_ml_dsa65_verify (pk_bytes (sig_public_key s)) message (sig_sig s)
  else if sig_scheme_version s =? PQ_SCHEME_SLH_DSA_128F then
    slh_dsa_128f_verify (pk_bytes (sig_public_key s)) message (sig_sig s)
  else false.

Section keypair.
Context `{CL : CryptoLaws}.

(** The [expect] in [Keypair::sign] cannot fail. *)
Lemma Keypair_sign_valid kp m :
  PqSignature_new PQ_SCHEME_ML_DSA_65 (Keypair_public_key kp) (ml_dsa_sign (kp_seed kp) m)
  = Ok (Keypair_sign kp m).
Proof.
  unfold PqSignature_new, PqSignature_validate, PqPublicKey_validate. simpl.
  rewrite ml_dsa_public_key_length, ml_dsa_sign_length. by rewrite !decide_True by done.
Qed.

Lemma Keypair_sign_validate kp m : PqSignature_validate (Keypair_sign kp m) = Ok tt.
Proof.
  unfold PqSignature_validate, PqPublicKey_validate. simpl.
  rewrite ml_dsa_public_key_length, ml_dsa_sign_length. by rewrite !decide_True by done.
Qed.

Lemma Keypair_verify_sign kp m :
  Keypair_verify (Keypair_pubkey kp) m (Keypair_sign kp m) = true.
Proof.
  unfold Keypair_verify. rewrite Keypair_sign_validate. cbn [is_ok negb].
  change (PqSignature_signer_address (Keypair_sign kp m)) with (Keypair_pubkey kp).
  rewrite Z.eqb_refl. simpl. by rewrite ml_dsa_sign_verify.
Qed.
End keypair.

(** A verified signature names its signer: one signature verifies under at most
    one address. *)
Lemma Keypair_verify_address `{Crypto} a m s :
  Keypair_verify a m s = true -> a = PqSignature_signer_address s.
Proof.
  unfold Keypair_verify. destruct (is_ok _); [|done]. simpl.
  destruct (Z.eqb_spec (PqSignature_signer_address s) a); done.
Qed.

(** ** Signing envelopes, [core/src/signing.rs] *)

Definition SIGNING_ENVELOPE_MAGIC : bytes := str_bytes "LICHEN-SIG".
Definition SIGNING_ENVELOPE_VERSION : Z := 1.
Definition DOMAIN_NATIVE_TX : bytes := str_bytes "native-tx".
Definition DOMAIN_BLOCK : bytes := str_bytes "block".
Definition DOMAIN_PROPOSAL : bytes := str_bytes "proposal".
Definition DOMAIN_PREVOTE : bytes := str_bytes "prevote".
Definition DOMAIN_PRECOMMIT : bytes := str_bytes "precommit".

Definition len_u16 (l : bytes) : bytes := le_bytes 2 (Z.of_nat (length l)).
Definition len_u64 (l : bytes) : bytes := le_bytes 8 (Z.of_nat (length l)).

(** The source panics ([u16::try_from(..).expect(..)]) on a domain or chain id
    of more than 65535 bytes; [signable_len] is the condition under which it
    returns. *)
Definition signable_len (l : bytes) : Prop := Z.of_nat (length l) < 2 ^ 16.

Definition versioned_signing_bytes (domain chain_id payload : bytes) : bytes :=
  SIGNING_ENVELOPE_MAGIC ++ [SIGNING_ENVELOPE_VERSION]
  ++ len_u16 domain ++ domain
  ++ len_u16 chain_id ++ chain_id
  ++ len_u64 payload ++ payload.

Definition maybe_versioned_signing_bytes (domain chain_id payload : bytes) : bytes :=
  if decide (chain_id = []) then payload
  else versioned_signing_bytes domain chain_id payload.

Lemma len_prefixed_inj n (l k l' k' : bytes) :
  Z.of_nat (length l) < 256 ^ Z.of_nat n -> Z.of_nat (length k) < 256 ^ Z.of_nat n ->
  le_bytes n (Z.of_nat (length l)) ++ l ++ l' = le_bytes n (Z.of_nat (length k)) ++ k ++ k' ->
  l = k /\ l' = k'.
Proof.
  intros Hl Hk Heq.
  split_bytes Heq as Hlen Heq.
  apply le_bytes_inj in Hlen; [|lia..]. apply Nat2Z.inj in Hlen.
  by apply app_inj_1.
Qed.

(** The envelope determines the domain, the chain and the payload. *)
Lemma versioned_signing_bytes_inj d1 c1 p1 d2 c2 p2 :
  signable_len d1 -> signable_len d2 -> signable_len c1 -> signable_len c2 ->
  Z.of_nat (length p1) < 2 ^ 64 -> Z.of_nat (length p2) < 2 ^ 64 ->
  versioned_signing_bytes d1 c1 p1 = versioned_signing_bytes d2 c2 p2 ->
  d1 = d2 /\ c1 = c2 /\ p1 = p2.
Proof.
  unfold signable_len, versioned_signing_bytes, len_u16, len_u64. intros Hd1 Hd2 Hc1 Hc2 Hp1 Hp2 Heq.
  apply app_inv_head in Heq. apply app_inv_head in Heq.
  apply len_prefixed_inj in Heq as [-> Heq]; [|done..].
  apply len_prefixed_inj in Heq as [-> Heq]; [|done..].
  destruct (len_prefixed_inj 8 p1 p2 [] []) as [-> _]; rewrite ?app_nil_r; done.
Qed.

Lemma maybe_versioned_inj d c p1 p2 :
  signable_len d -> signable_len c ->
  Z.of_nat (length p1) < 2 ^ 64 -> Z.of_nat (length p2) < 2 ^ 64 ->
  maybe_versioned_signing_bytes d c p1 = maybe_versioned_signing_bytes d c p2 -> p1 = p2.
Proof.
  unfold maybe_versioned_signing_bytes. intros Hd Hc Hp1 Hp2. case_decide; [done|].
  by intros (_ & _ & ?)%versioned_signing_bytes_inj.
Qed.

Lemma maybe_versioned_length d c p :
  length (maybe_versioned_signing_bytes d c p) =
  if decide (c = []) then length p
  else (23 + length d + length c + length p)%nat.
Proof.
  unfold maybe_versioned_signing_bytes, versioned_signing_bytes, len_u16, len_u64.
  case_decide; [done|blen].
Qed.

(** ** A concrete instance

    A signature spells the signer's seed and the message; it exists to show that
    the hypotheses of the theorems can hold and to run the model. *)

Module Toy.
Definition pad (n : nat) (l : bytes) : bytes := take n (l ++ replicate n 0).

Definition public_key (seed : Z) : bytes := pad ML_DSA_65_PUBLIC_KEY_BYTES (le_bytes 8 seed).
Definition sign (seed : Z) (m : bytes) : bytes :=
  pad ML_DSA_65_SIGNATURE_BYTES (le_bytes 8 seed ++ m).
Definition verify (pk m sg : bytes) : bool :=
  bool_decide (take (8 + length m) sg = take (8 + length m) (pad ML_DSA_65_SIGNATURE_BYTES (take 8 pk ++ m))).

Definition crypto : Crypto := {|
  sha256 m := foldl (fun acc b => Z.land (acc * 517 + b + 1) (2 ^ 24 - 1)) 1 (take 256 m);
  ml_dsa_public_key := public_key;
  ml_dsa_sign := sign;
  ml_dsa_verify := verify;
  fips204_ml_dsa65_verify _ _ _ := false;
  slh_dsa_128f_verify _ _ _ := false;
|}.

Lemma pad_length n l : length (pad n l) = n.
Proof. unfold pad. rewrite length_take, length_app, length_replicate. lia. Qed.

Lemma take_pad k n l : (k <= n)%nat -> length l = k -> take k (pad n l) = l.
Proof.
  intros Hk <-. unfold pad. rewrite take_take, Nat.min_l by lia.
  by rewrite take_app_length.
Qed.

Lemma crypto_laws : CryptoLaws crypto.
Proof.
  split; cbn [sha256 ml_dsa_public_key ml_dsa_sign ml_dsa_verify crypto].
  - intros m. generalize (take 256 m). intros l. unfold is_u256.
    assert (forall acc, 0 <= acc < 2 ^ 24 ->
      0 <= foldl (fun acc b => Z.land (acc * 517 + b + 1) (2 ^ 24 - 1)) acc l < 2 ^ 24) as Hl.
    { induction l as [|b l IH]; intros acc Ha; simpl; [done|]. apply IH.
      change (2 ^ 24 - 1) with (Z.ones 24). rewrite Z.land_ones by lia. by apply Z.mod_pos_bound. }
    specialize (Hl 1 ltac:(lia)). lia.
  - intros seed. apply pad_length.
  - intros seed m. apply pad_length.
  - intros seed m. unfold verify, sign, public_key.
    rewrite (take_pad 8); [by apply bool_decide_eq_true_2| |by rewrite le_bytes_length].
    unfold ML_DSA_65_PUBLIC_KEY_BYTES. lia.
Qed.
End Toy.
