(* ===== verification/Block.v ===== *)
(** * Transactions, blocks and Merkle proofs

    Models the data of [core/src/transaction.rs], the header, block, producer
    signature and Merkle tree of [core/src/block.rs].  The bincode encoding of a
    transaction is a third-party serializer: the class [Bincode]. *)

From S2P Require Import Prelude Crypto.
From stdpp Require Import base tactics numbers list strings.
From Stdlib Require Import ZArith Lia.

Local Open Scope Z_scope.

(** ** Transactions *)

Record Instruction := mkInstruction {
  ix_program_id : Pubkey;
  ix_accounts : list Pubkey;
  ix_data : bytes;
}.

(** [SYSTEM_PROGRAM_ID] of [core/src/processor.rs]: thirty-two zero bytes. *)
Definition SYSTEM_PROGRAM_ID : Pubkey := 0.

Definition DEFAULT_COMPUTE_BUDGET : Z := 200000.
Definition MAX_COMPUTE_BUDGET : Z := 1400000.

Record Message := mkMessage {
  msg_instructions : list Instruction;
  msg_recent_blockhash : Hash;
  msg_compute_budget : option Z;
  msg_compute_unit_price : option Z;
}.

Definition Message_new (instructions : list Instruction) (recent_blockhash : Hash) : Message :=
  mkMessage instructions recent_blockhash None None.

Definition Message_effective_compute_budget (m : Message) : Z :=
  match msg_compute_budget m with
  | Some b => if 0 <? b then Z.min b MAX_COMPUTE_BUDGET else DEFAULT_COMPUTE_BUDGET
  | None => DEFAULT_COMPUTE_BUDGET
  end.

Definition Message_effective_compute_unit_price (m : Message) : Z :=
  default 0 (msg_compute_unit_price m).

Inductive TransactionType := Native | Evm | Consensus.

Record Transaction := mkTransaction {
  tx_signatures : list PqSignature;
  tx_message : Message;
  tx_type : TransactionType;
}.

#[global] Instance TransactionType_eq_dec : EqDecision TransactionType.
Proof. solve_decision. Defined.
#[global] Instance Instruction_eq_dec : EqDecision Instruction.
Proof. solve_decision. Defined.
#[global] Instance Message_eq_dec : EqDecision Message.
Proof. solve_decision. Defined.
#[global] Instance Transaction_eq_dec : EqDecision Transaction.
Proof. solve_decision. Defined.

(** [serialize_legacy_bincode(tx)], third-party. *)
Class Bincode := { transaction_bytes : Transaction -> bytes }.

Definition Transaction_hash `{Crypto, Bincode} (tx : Transaction) : Hash :=
  Hash_hash (transaction_bytes tx).

(** ** Blocks *)

Record CommitSignature := mkCommitSignature {
  cs_validator : Pubkey;
  cs_signature : PqSignature;
  cs_timestamp : Z;
}.

Record BlockHeader := mkBlockHeader {
  hdr_slot : Z;
  hdr_parent_hash : Hash;
  hdr_state_root : Hash;
  hdr_tx_root : Hash;
  hdr_timestamp : Z;
  hdr_validators_hash : Hash;
  hdr_validator : Pubkey;
  hdr_signature : option PqSignature;
}.

Record Block := mkBlock {
  blk_header : BlockHeader;
  blk_transactions : list Transaction;
  blk_tx_fees_paid : list Z;
  blk_oracle_prices : list (bytes * Z);
  blk_commit_round : Z;
  blk_commit_signatures : list CommitSignature;
}.

#[global] Instance CommitSignature_eq_dec : EqDecision CommitSignature.
Proof. solve_decision. Defined.
#[global] Instance BlockHeader_eq_dec : EqDecision BlockHeader.
Proof. solve_decision. Defined.
#[global] Instance Block_eq_dec : EqDecision Block.
Proof. solve_decision. Defined.

Section blocks.
Context `{Crypto}.

Definition header_bytes (h : BlockHeader) : bytes :=
  le_bytes 8 (hdr_slot h) ++ be_bytes 32 (hdr_parent_hash h)
  ++ be_bytes 32 (hdr_state_root h) ++ be_bytes 32 (hdr_tx_root h)
  ++ le_bytes 8 (hdr_timestamp h) ++ be_bytes 32 (hdr_validators_hash h)
  ++ be_bytes 32 (hdr_validator h).

Definition BlockHeader_signable_hash (h : BlockHeader) : Hash := Hash_hash (header_bytes h).

Definition BlockHeader_verify_signature_with_chain_id (chain_id : bytes) (h : BlockHeader)
  : bool :=
  let signable :=
    maybe_versioned_signing_bytes DOMAIN_BLOCK chain_id
      (be_bytes 32 (BlockHeader_signable_hash h)) in
  match hdr_signature h with
  | Some signature => Keypair_verify (hdr_validator h) signable signature
  | None => false
  end.

Definition Block_signable_hash (b : Block) : Hash := BlockHeader_signable_hash (blk_header b).

(** [Block::hash]: the signature, the commit round and the commit certificate
    are not part of the hash. *)
Definition Block_hash (b : Block) : Hash := Block_signable_hash b.

Definition with_header_signature (s : PqSignature) (b : Block) : Block :=
  mkBlock
    (mkBlockHeader (hdr_slot (blk_header b)) (hdr_parent_hash (blk_header b))
       (hdr_state_root (blk_header b)) (hdr_tx_root (blk_header b))
       (hdr_timestamp (blk_header b)) (hdr_validators_hash (blk_header b))
       (hdr_validator (blk_header b)) (Some s))
    (blk_transactions b) (blk_tx_fees_paid b) (blk_oracle_prices b)
    (blk_commit_round b) (blk_commit_signatures b).

Definition Block_sign (kp : Keypair) (b : Block) : Block :=
  with_header_signature (Keypair_sign kp (be_bytes 32 (Block_signable_hash b))) b.

Definition Block_sign_with_chain_id (kp : Keypair) (chain_id : bytes) (b : Block) : Block :=
  let hash := Block_signable_hash b in
  let signable := maybe_versioned_signing_bytes DOMAIN_BLOCK chain_id (be_bytes 32 hash) in
  with_header_signature (Keypair_sign kp signable) b.

Definition Block_verify_signature (b : Block) : bool :=
  match hdr_signature (blk_header b) with
  | Some signature =>
      Keypair_verify (hdr_validator (blk_header b))
        (be_bytes 32 (Block_signable_hash b)) signature
  | None => hdr_slot (blk_header b) =? 0
  end.

Definition Block_verify_signature_with_chain_id (chain_id : bytes) (b : Block) : bool :=
  (hdr_slot (blk_header b) =? 0)
  || BlockHeader_verify_signature_with_chain_id chain_id (blk_header b).

Definition Block_verify_historical_signature_with_chain_id
  (chain_id : bytes) (activation_slot : Z) (b : Block) : bool :=
  Block_verify_signature_with_chain_id chain_id b
  || ((hdr_slot (blk_header b) <? activation_slot) && Block_verify_signature b).

(** Signing a block does not change its hash. *)
Lemma Block_hash_sign kp c b : Block_hash (Block_sign_with_chain_id kp c b) = Block_hash b.
Proof. done. Qed.

Lemma BlockHeader_sign_verify `{!CryptoLaws _} kp c b :
  hdr_validator (blk_header b) = Keypair_pubkey kp ->
  BlockHeader_verify_signature_with_chain_id c (blk_header (Block_sign_with_chain_id kp c b)) = true.
Proof.
  intros Hv. unfold BlockHeader_verify_signature_with_chain_id.
  etransitivity; [|apply (Keypair_verify_sign kp)]. by rewrite <- Hv.
Qed.

Lemma Block_sign_verify `{!CryptoLaws _} kp c b :
  hdr_validator (blk_header b) = Keypair_pubkey kp ->
  Block_verify_signature_with_chain_id c (Block_sign_with_chain_id kp c b) = true.
Proof. intros Hv. apply orb_true_intro. right. by apply BlockHeader_sign_verify. Qed.

Definition header_wf (h : BlockHeader) : Prop :=
  is_u64 (hdr_slot h) /\ is_u256 (hdr_parent_hash h) /\ is_u256 (hdr_state_root h)
  /\ is_u256 (hdr_tx_root h) /\ is_u64 (hdr_timestamp h)
  /\ is_u256 (hdr_validators_hash h) /\ is_u256 (hdr_validator h).

(** The hashed bytes determine every producer-signed field. *)
Lemma header_bytes_inj h1 h2 :
  header_wf h1 -> header_wf h2 -> header_bytes h1 = header_bytes h2 ->
  hdr_slot h1 = hdr_slot h2 /\ hdr_parent_hash h1 = hdr_parent_hash h2
  /\ hdr_state_root h1 = hdr_state_root h2 /\ hdr_tx_root h1 = hdr_tx_root h2
  /\ hdr_timestamp h1 = hdr_timestamp h2
  /\ hdr_validators_hash h1 = hdr_validators_hash h2
  /\ hdr_validator h1 = hdr_validator h2.
Proof.
  unfold header_wf, header_bytes. intros (?&?&?&?&?&?&?) (?&?&?&?&?&?&?) Heq.
  repeat (apply app_inj_1 in Heq as [?Hp Heq];
          [|blen]).
  split_and!; first [by apply be_bytes32_inj | by apply le_bytes8_inj].
Qed.
End blocks.

(** ** The transaction Merkle tree *)

Section merkle.
Context `{Crypto}.

Definition merkle_leaf (tx_hash : Hash) : Hash := Hash_hash (0 :: be_bytes 32 tx_hash).

Definition merkle_node (left right : Hash) : Hash :=
  Hash_hash (1 :: be_bytes 32 left ++ be_bytes 32 right).

(** [if level.len() % 2 == 1 { level.push(last) }] *)
Definition merkle_pad (level : list Hash) : list Hash :=
  if Nat.odd (length level) then level ++ [default 0 (last level)] else level.

(** [level.chunks(2).map(|pair| merkle_node(&pair[0], &pair[1]))] on a padded level. *)
Fixpoint merkle_pairs (level : list Hash) : list Hash :=
  match level with
  | a :: b :: l => merkle_node a b :: merkle_pairs l
  | _ => []
  end.

(** The [while level.len() > 1] loop; [fuel] bounds its iterations and the
    length of the level is enough ([merkle_loop_single]). *)
Fixpoint merkle_loop (fuel : nat) (level : list Hash) : list Hash :=
  match fuel with
  | O => level
  | S fuel =>
      if (1 <? length level)%nat then merkle_loop fuel (merkle_pairs (merkle_pad level))
      else level
  end.

Definition merkle_tx_root_from_hashes (tx_hashes : list Hash) : Hash :=
  if decide (tx_hashes = []) then zero_hash
  else
    let level := map merkle_leaf tx_hashes in
    default 0 (head (merkle_loop (length level) level)).

Definition compute_tx_root `{Bincode} (transactions : list Transaction) : Hash :=
  if decide (transactions = []) then zero_hash
  else
    let level := map (fun tx => merkle_leaf (Transaction_hash tx)) transactions in
    default 0 (head (merkle_loop (length level) level)).

(** One iteration: the sibling of [idx] in the padded level and its side. *)
Definition merkle_sibling (level : list Hash) (idx : nat) : Hash * bool :=
  let sibling_idx := Nat.lxor idx 1 in
  (default 0 (level !! sibling_idx), (sibling_idx <? idx)%nat).

Fixpoint merkle_proof_loop (fuel : nat) (level : list Hash) (idx : nat)
  : list (Hash * bool) :=
  match fuel with
  | O => []
  | S fuel =>
      if (1 <? length level)%nat then
        let level := merkle_pad level in
        merkle_sibling level idx
        :: merkle_proof_loop fuel (merkle_pairs level) (idx / 2)
      else []
  end.

Definition merkle_tx_proof `{Bincode} (transactions : list Transaction) (index : nat)
  : option (list (Hash * bool)) :=
  if decide (transactions = []) then None
  else if (length transactions <=? index)%nat then None
  else
    let level := map (fun tx => merkle_leaf (Transaction_hash tx)) transactions in
    Some (merkle_proof_loop (length level) level index).

Definition merkle_fold (current : Hash) (proof : list (Hash * bool)) : Hash :=
  foldl (fun current '(sibling, is_left) =>
           if is_left : bool then merkle_node sibling current else merkle_node current sibling)
    current proof.

Definition verify_merkle_tx_proof (root tx_hash : Hash) (proof : list (Hash * bool)) : bool :=
  merkle_fold (merkle_leaf tx_hash) proof =? root.

(** *** Shape of the levels *)

Lemma merkle_pad_even level : Nat.even (length (merkle_pad level)) = true.
Proof.
  unfold merkle_pad. destruct (Nat.odd (length level)) eqn:Ho.
  - rewrite length_app. simpl. rewrite Nat.add_1_r, Nat.even_succ. done.
  - by rewrite <- Nat.negb_odd, Ho.
Qed.

Lemma merkle_pad_length level :
  length (merkle_pad level) = (if Nat.odd (length level) then S (length level) else length level).
Proof. unfold merkle_pad. case_match; [|done]. rewrite length_app. simpl. lia. Qed.

Lemma merkle_pad_lookup level i : (i < length level)%nat -> merkle_pad level !! i = level !! i.
Proof. intros Hi. unfold merkle_pad. case_match; [|done]. by apply lookup_app_l. Qed.

Lemma merkle_pairs_length level k :
  length level = (2 * k)%nat -> length (merkle_pairs level) = k.
Proof.
  revert level. induction k as [|k IH]; intros [|a [|b l]] Hl; simpl in *; try lia.
  f_equal. apply IH. lia.
Qed.

Lemma merkle_pairs_lookup level k i :
  length level = (2 * k)%nat -> (i < k)%nat ->
  exists a b, level !! (2 * i)%nat = Some a /\ level !! (2 * i + 1)%nat = Some b
    /\ merkle_pairs level !! i = Some (merkle_node a b).
Proof.
  revert level i. induction k as [|k IH]; intros [|a [|b l]] i Hl Hi; simpl in *; try lia.
  destruct i as [|i]; [by exists a, b|].
  destruct (IH l i) as (x & y & Hx & Hy & Hxy); [lia..|]. exists x, y.
  replace (2 * S i)%nat with (S (S (2 * i))) by lia.
  replace (2 * S i + 1)%nat with (S (S (2 * i + 1))) by lia.
  replace (S i + (S i + 0))%nat with (S (S (2 * i))) by lia.
  replace (S (S (2 * i)) + 1)%nat with (S (S (2 * i + 1))) by lia. done.
Qed.

Lemma merkle_step_half level :
  (1 < length level)%nat ->
  exists k, length (merkle_pad level) = (2 * k)%nat
    /\ (0 < k < length level)%nat /\ length (merkle_pairs (merkle_pad level)) = k.
Proof.
  intros Hl. destruct (proj1 (Nat.even_spec _) (merkle_pad_even level)) as [k Hk].
  exists k. rewrite (merkle_pairs_length _ k Hk). rewrite merkle_pad_length in Hk.
  rewrite merkle_pad_length. case_match; lia.
Qed.

(** Enough fuel: the loop ends with the root alone. *)
Lemma merkle_loop_single fuel level :
  (0 < length level <= S fuel)%nat -> exists root, merkle_loop fuel level = [root].
Proof.
  revert level. induction fuel as [|fuel IH]; intros level Hl; simpl.
  - destruct level as [|x [|]]; simpl in *; try lia. by exists x.
  - destruct (Nat.ltb_spec 1 (length level)) as [Hlt|Hge].
    + destruct (merkle_step_half level Hlt) as (k & _ & ? & ?). apply IH. lia.
    + destruct level as [|x [|]]; simpl in *; try lia. by exists x.
Qed.

Lemma lxor_1_double k : Nat.lxor (2 * k) 1 = (2 * k + 1)%nat.
Proof.
  apply Nat.bits_inj. intros [|n]; rewrite Nat.lxor_spec.
  - by rewrite Nat.testbit_even_0, Nat.testbit_odd_0.
  - rewrite Nat.testbit_even_succ, Nat.testbit_odd_succ by lia.
    change (Nat.testbit 1 (S n)) with (Nat.testbit 0 n). by rewrite Nat.bits_0, xorb_false_r.
Qed.

Lemma lxor_1_double_succ k : Nat.lxor (2 * k + 1) 1 = (2 * k)%nat.
Proof. by rewrite <- lxor_1_double, Nat.lxor_assoc, Nat.lxor_nilpotent, Nat.lxor_0_r. Qed.

(** One iteration of proof checking climbs one level. *)
Lemma merkle_climb level idx x :
  (1 < length level)%nat -> level !! idx = Some x ->
  let '(sibling, is_left) := merkle_sibling (merkle_pad level) idx in
  merkle_pairs (merkle_pad level) !! (idx / 2)%nat =
    Some (if is_left : bool then merkle_node sibling x else merkle_node x sibling).
Proof.
  intros Hl Hx. destruct (merkle_step_half level Hl) as (k & Hk & Hkl & _).
  pose proof (lookup_lt_Some _ _ _ Hx) as Hlt.
  assert (merkle_pad level !! idx = Some x) as Hpx by (by rewrite merkle_pad_lookup).
  pose proof (lookup_lt_Some _ _ _ Hpx) as Hplt. rewrite Hk in Hplt.
  destruct (Nat.Even_or_Odd idx) as [[i ->]|[i ->]]; unfold merkle_sibling.
  - rewrite lxor_1_double, (Nat.mul_comm 2 i), Nat.div_mul, (Nat.mul_comm i 2) by lia.
    destruct (merkle_pairs_lookup _ k i Hk) as (a & b & Ha & Hb & ->); [lia|].
    rewrite Hb. replace (2 * i + 1 <? 2 * i)%nat with false by (symmetry; apply Nat.ltb_ge; lia).
    simpl. congruence.
  - rewrite lxor_1_double_succ. replace ((2 * i + 1) / 2)%nat with i
      by (rewrite (Nat.mul_comm 2 i), Nat.div_add_l by lia; simpl; lia).
    destruct (merkle_pairs_lookup _ k i Hk) as (a & b & Ha & Hb & ->); [lia|].
    rewrite Ha. replace (2 * i <? 2 * i + 1)%nat with true by (symmetry; apply Nat.ltb_lt; lia).
    simpl. congruence.
Qed.

Lemma merkle_proof_loop_complete fuel level idx x :
  (length level <= S fuel)%nat -> level !! idx = Some x ->
  merkle_loop fuel level = [merkle_fold x (merkle_proof_loop fuel level idx)].
Proof.
  revert level idx x. induction fuel as [|fuel IH]; intros level idx x Hf Hx;
    pose proof (lookup_lt_Some _ _ _ Hx) as Hlt; cbn [merkle_loop merkle_proof_loop].
  - destruct level as [|y [|]]; simpl in *; try lia. destruct idx; [|lia]. by simplify_eq/=.
  - destruct (Nat.ltb_spec 1 (length level)) as [Hl|Hl].
    + pose proof (merkle_climb level idx x Hl Hx) as Hc.
      destruct (merkle_sibling (merkle_pad level) idx) as [sib left].
      destruct (merkle_step_half level Hl) as (k & _ & ? & ?).
      apply (IH (merkle_pairs (merkle_pad level)) (idx / 2)%nat); [lia|done].
    + destruct level as [|y [|]]; simpl in *; try lia. destruct idx; [|lia]. by simplify_eq/=.
Qed.

(** *** Binding *)

Definition collision : Prop := exists a b : bytes, a <> b /\ sha256 a = sha256 b.

Lemma merkle_node_bind `{!CryptoLaws _} a b c d :
  is_u256 a -> is_u256 b -> is_u256 c -> is_u256 d ->
  merkle_node a b = merkle_node c d -> (a = c /\ b = d) \/ collision.
Proof.
  intros Ha Hb Hc Hd Heq.
  destruct (decide (1 :: be_bytes 32 a ++ be_bytes 32 b = 1 :: be_bytes 32 c ++ be_bytes 32 d))
    as [He|Hne]; [left|by right; eexists _, _].
  apply (f_equal tail) in He. cbn [tail] in He. split_bytes He as He1 He2.
  split; by apply be_bytes32_inj.
Qed.

Lemma merkle_leaf_bind a b :
  is_u256 a -> is_u256 b -> merkle_leaf a = merkle_leaf b -> a = b \/ collision.
Proof.
  intros Ha Hb Heq. destruct (decide (0 :: be_bytes 32 a = 0 :: be_bytes 32 b)) as [He|Hne];
    [left|by right; eexists _, _].
  apply (f_equal tail) in He. cbn [tail] in He. by apply be_bytes32_inj.
Qed.

Lemma merkle_node_range `{!CryptoLaws _} a b : is_u256 (merkle_node a b).
Proof. apply sha256_range. Qed.

Lemma merkle_fold_bind `{!CryptoLaws _} p1 p2 a b :
  is_u256 a -> is_u256 b -> Forall (fun x => is_u256 x.1) p1 -> Forall (fun x => is_u256 x.1) p2 ->
  p1.*2 = p2.*2 -> merkle_fold a p1 = merkle_fold b p2 -> a = b \/ collision.
Proof.
  revert p2 a b. induction p1 as [|[s l] p1 IH]; intros [|[s' l'] p2] a b Ha Hb H1 H2 Hs Heq;
    simplify_eq/=; [by left|].
  apply Forall_cons in H1 as [Hs1 H1]. apply Forall_cons in H2 as [Hs2 H2].
  destruct l'.
  - destruct (IH p2 (merkle_node s a) (merkle_node s' b)) as [Hn|]; auto using merkle_node_range.
    destruct (merkle_node_bind s a s' b) as [[_ ?]|]; auto.
  - destruct (IH p2 (merkle_node a s) (merkle_node b s')) as [Hn|]; auto using merkle_node_range.
    destruct (merkle_node_bind a s b s') as [[? _]|]; auto.
Qed.
End merkle.

Section merkle_theorems.
Context `{CL : CryptoLaws} `{Bincode}.

(** Both root computations agree. *)
Lemma compute_tx_root_hashes txs :
  compute_tx_root txs = merkle_tx_root_from_hashes (map Transaction_hash txs).
Proof.
  unfold compute_tx_root, merkle_tx_root_from_hashes.
  destruct txs as [|tx txs]; [done|]. by rewrite !decide_False, map_map by done.
Qed.

(** Inclusion proofs are complete: for every position of a transaction
    list [merkle_tx_proof] returns a proof, and [verify_merkle_tx_proof] accepts
    it against the root of the list. *)
Theorem merkle_proof_complete txs index tx :
  txs !! index = Some tx ->
  exists proof, merkle_tx_proof txs index = Some proof
    /\ verify_merkle_tx_proof (compute_tx_root txs) (Transaction_hash tx) proof = true.
Proof.
  intros Htx. pose proof (lookup_lt_Some _ _ _ Htx) as Hlt.
  assert (txs <> []) as Hne by (by intros ->).
  unfold merkle_tx_proof, compute_tx_root, verify_merkle_tx_proof.
  rewrite !decide_False by done. rewrite (proj2 (Nat.leb_gt _ _)) by done.
  eexists; split; [done|]. apply Z.eqb_eq.
  set (level := map _ txs).
  assert (level !! index = Some (merkle_leaf (Transaction_hash tx))) as Hl.
  { unfold level. change (map ?f txs) with (f <$> txs). by rewrite list_lookup_fmap, Htx. }
  by rewrite (merkle_proof_loop_complete _ _ _ _ (Nat.le_succ_diag_r _) Hl).
Qed.

(** Inclusion proofs are sound: if two proofs with the same left/right
    path verify against one root, they prove the same transaction hash, unless
    two different byte strings with the same digest are at hand. *)
Theorem merkle_proof_sound root h1 h2 p1 p2 :
  is_u256 h1 -> is_u256 h2 ->
  Forall (fun x => is_u256 x.1) p1 -> Forall (fun x => is_u256 x.1) p2 -> p1.*2 = p2.*2 ->
  verify_merkle_tx_proof root h1 p1 = true -> verify_merkle_tx_proof root h2 p2 = true ->
  h1 = h2 \/ collision.
Proof using CL.
  unfold verify_merkle_tx_proof. intros Hh1 Hh2 Hp1 Hp2 Hd Hv1%Z.eqb_eq Hv2%Z.eqb_eq.
  destruct (merkle_fold_bind p1 p2 (merkle_leaf h1) (merkle_leaf h2)) as [Heq|]; try done;
    [apply sha256_range..|congruence| |by right]. by apply merkle_leaf_bind.
Qed.

(** More fuel than the level needs changes nothing. *)
Lemma merkle_loop_fuel f1 f2 level :
  (length level <= S f1)%nat -> (length level <= S f2)%nat ->
  merkle_loop f1 level = merkle_loop f2 level.
Proof using.
  revert f2 level. induction f1 as [|f1 IH]; intros [|f2] level H1 H2; simpl; try done.
  - by rewrite (proj2 (Nat.ltb_ge 1 _)).
  - by rewrite (proj2 (Nat.ltb_ge 1 _)).
  - destruct (Nat.ltb_spec 1 (length level)) as [Hlt|]; [|done].
    destruct (merkle_step_half level Hlt) as (k & _ & ? & ?). apply IH; lia.
Qed.

Lemma merkle_loop_step f g level :
  (1 < length level)%nat -> (length level <= S f)%nat -> (length level <= S (S g))%nat ->
  merkle_loop f level = merkle_loop g (merkle_pairs (merkle_pad level)).
Proof using.
  intros Hl Hf Hg. rewrite (merkle_loop_fuel f (S g)) by lia. simpl.
  by rewrite (proj2 (Nat.ltb_lt 1 _)).
Qed.

Lemma merkle_pad_snoc_twice (l : list Hash) x :
  Nat.odd (length (l ++ [x])) = true -> merkle_pad (l ++ [x]) = merkle_pad (l ++ [x; x]).
Proof using.
  intros Ho. unfold merkle_pad. rewrite Ho.
  replace (length (l ++ [x; x])) with (S (length (l ++ [x]))) by (rewrite !length_app; simpl; lia).
  rewrite Nat.odd_succ, <- Nat.negb_odd, Ho. simpl. by rewrite last_snoc, <- app_assoc.
Qed.

(** The root does not determine the list: repeating the last transaction
    of a list of odd length of at least three gives the same root. *)
Theorem tx_root_duplicate_last txs tx :
  Nat.odd (length (txs ++ [tx])) = true -> (3 <= length (txs ++ [tx]))%nat ->
  compute_tx_root (txs ++ [tx; tx]) = compute_tx_root (txs ++ [tx]).
Proof using.
  intros Ho Hl. rewrite !compute_tx_root_hashes. unfold merkle_tx_root_from_hashes.
  rewrite !length_map, !map_app, !length_app in *. simpl in *.
  rewrite !decide_False by (by destruct txs). f_equal. f_equal.
  set (l := map merkle_leaf (map Transaction_hash txs)).
  assert (length l = length txs) as Hll by (unfold l; by rewrite !length_map).
  rewrite (merkle_loop_step _ (length txs + 2) (l ++ [merkle_leaf (Transaction_hash tx)])),
    (merkle_loop_step _ (length txs + 2) (l ++ [_; _])), <- (merkle_pad_snoc_twice l);
    rewrite ?length_app, ?Hll; simpl; try done; lia.
Qed.
End merkle_theorems.

(** The block hash binds the header: two blocks with the same hash agree on
    every field the producer signs, unless two different byte strings with the
    same digest are at hand; signing a block does not change its hash and the
    signature verifies. *)
Theorem block_hash_binds_header `{CL : CryptoLaws} b1 b2 kp c :
  header_wf (blk_header b1) -> header_wf (blk_header b2) -> Block_hash b1 = Block_hash b2 ->
  hdr_validator (blk_header b1) = Keypair_pubkey kp ->
  ((hdr_slot (blk_header b1) = hdr_slot (blk_header b2)
    /\ hdr_parent_hash (blk_header b1) = hdr_parent_hash (blk_header b2)
    /\ hdr_state_root (blk_header b1) = hdr_state_root (blk_header b2)
    /\ hdr_tx_root (blk_header b1) = hdr_tx_root (blk_header b2)
    /\ hdr_timestamp (blk_header b1) = hdr_timestamp (blk_header b2)
    /\ hdr_validators_hash (blk_header b1) = hdr_validators_hash (blk_header b2)
    /\ hdr_validator (blk_header b1) = hdr_validator (blk_header b2)) \/ collision)
  /\ Block_hash (Block_sign_with_chain_id kp c b1) = Block_hash b2
  /\ Block_verify_signature_with_chain_id c (Block_sign_with_chain_id kp c b1) = true.
Proof.
  intros Hw1 Hw2 Heq Hk. split_and!.
  - destruct (decide (header_bytes (blk_header b1) = header_bytes (blk_header b2))) as [He|Hne].
    + left. by apply header_bytes_inj.
    + right. by exists (header_bytes (blk_header b1)), (header_bytes (blk_header b2)).
  - by rewrite Block_hash_sign.
  - by apply Block_sign_verify.
Qed.

(** ** A concrete block *)

Module ToyBlock.
#[export] Existing Instance Toy.crypto.
#[export] Existing Instance Toy.crypto_laws.

(** A serializer that spells the recent block hash of a transaction. *)
#[export] Instance bincode : Bincode := {|
  transaction_bytes tx := be_bytes 32 (msg_recent_blockhash (tx_message tx));
|}.

Definition tx (n : Z) : Transaction := mkTransaction [] (Message_new [] n) Native.

Lemma merkle_proof_complete_witness :
  exists proof, merkle_tx_proof [tx 1; tx 2; tx 3] 1 = Some proof
    /\ verify_merkle_tx_proof (compute_tx_root [tx 1; tx 2; tx 3]) (Transaction_hash (tx 2)) proof = true.
Proof. exact (merkle_proof_complete [tx 1; tx 2; tx 3] 1 (tx 2) eq_refl). Defined.

Definition proof_2 : list (Hash * bool) := default [] (merkle_tx_proof [tx 1; tx 2; tx 3] 1).

Lemma merkle_proof_sound_witness :
  proof_2 <> [] /\ (Transaction_hash (tx 2) = Transaction_hash (tx 2) \/ collision).
Proof.
  assert (Forall (fun x => is_u256 x.1) proof_2) as Hp.
  { let p := eval vm_compute in proof_2 in change proof_2 with p.
    repeat constructor; simpl; unfold is_u256; lia. }
  assert (verify_merkle_tx_proof (compute_tx_root [tx 1; tx 2; tx 3]) (Transaction_hash (tx 2)) proof_2
          = true) as Hv by (vm_compute; reflexivity).
  split; [vm_compute; discriminate|].
  exact (merkle_proof_sound (compute_tx_root [tx 1; tx 2; tx 3]) (Transaction_hash (tx 2))
           (Transaction_hash (tx 2)) proof_2 proof_2 (sha256_range _) (sha256_range _) Hp Hp eq_refl Hv Hv).
Defined.

Lemma tx_root_duplicate_last_witness :
  compute_tx_root [tx 1; tx 2; tx 3; tx 3] = compute_tx_root [tx 1; tx 2; tx 3].
Proof. exact (tx_root_duplicate_last [tx 1; tx 2] (tx 3) eq_refl ltac:(simpl; lia)). Defined.

Definition header (slot : Z) : BlockHeader :=
  mkBlockHeader slot 1 2 3 4 5 (Keypair_pubkey (mkKeypair 6)) None.
Definition block : Block := mkBlock (header 9) [] [] [] 0 [].

Lemma header_in_range : header_wf (header 9).
Proof. unfold header_wf, is_u64, is_u256. repeat split; vm_compute; discriminate || reflexivity. Qed.

Lemma block_hash_binds_header_witness :
  Block_hash (Block_sign_with_chain_id (mkKeypair 6) [1] block) = Block_hash block
  /\ Block_verify_signature_with_chain_id [1] (Block_sign_with_chain_id (mkKeypair 6) [1] block) = true.
Proof.
  exact (proj2 (block_hash_binds_header block block (mkKeypair 6) [1] header_in_range header_in_range
                  eq_refl eq_refl)).
Defined.
End ToyBlock.
