(* ===== verification/Transactions.v ===== *)
(** * Signing, structure and wire format of transactions

    Models the rest of [core/src/transaction.rs]: who must sign a transaction and in which
    order, the verification of its signatures, the structural limits, and the versioned wire
    envelope.  The serializer [bincode] is a library: [message_bytes] and
    [decode_transaction] are the class [TxCodec], with the round trip as its law. *)

From S2P Require Import Prelude Crypto Block.
From stdpp Require Import base tactics numbers list gmap strings.
From Stdlib Require Import ZArith Lia.

Local Open Scope Z_scope.
Local Open Scope rust_scope.

Class TxCodec := {
  message_bytes : Message -> bytes;
  decode_transaction : bytes -> option Transaction;
}.

Class TxCodecLaws `{Bincode} `{TxCodec} : Prop := {
  decode_transaction_bytes tx : decode_transaction (transaction_bytes tx) = Some tx;
}.

(** ** Kinds and identity *)

(** [Hash([0xEE; 32])], the replay sentinel of EVM transactions. *)
Definition EVM_SENTINEL : Hash := le_value (replicate 32 238).

Definition Transaction_is_evm (tx : Transaction) : bool :=
  bool_decide (tx_type tx = Evm) || (msg_recent_blockhash (tx_message tx) =? EVM_SENTINEL).

Definition Transaction_is_consensus (tx : Transaction) : bool := bool_decide (tx_type tx = Consensus).

(** [self.message.instructions[0].accounts[0]]: [None] where the source panics. *)
Definition Transaction_sender (tx : Transaction) : option Pubkey :=
  match msg_instructions (tx_message tx) with
  | ix :: _ => head (ix_accounts ix)
  | [] => None
  end.

Definition Message_signing_bytes_for_chain_id `{TxCodec} (chain_id : bytes) (m : Message) : bytes :=
  versioned_signing_bytes DOMAIN_NATIVE_TX chain_id (message_bytes m).

(** ** Required signers *)

Inductive TxError :=
| NoInstructions
| InstructionHasNoAccounts
| NoSignatures
| SignatureCountMismatch (got need : nat)
| InvalidSignature (index : nat) (e : PqError)
| WrongSigner (index : nat) (signer expected : Pubkey)
| SignatureRejected (signer : Pubkey)
| DuplicateSignature (signer : Pubkey)
| ChainIdRequired
| ConsensusWithSignatures
| TooManySignatures (got : nat)
| TooManyInstructions (got : nat)
| InstructionDataTooLarge (index got limit : nat)
| IxHasNoAccounts (index : nat)
| IxTooManyAccounts (index got : nat)
| SerializedTooLarge (size : nat)
| WirePayloadTooLarge (size : nat)
| MissingEnvelope
| UnsupportedWireVersion (version : Z)
| UnknownTypeByte (byte : Z)
| BincodeError.

Fixpoint collect_signers (required : list Pubkey) (ixs : list Instruction)
  : result (list Pubkey) TxError :=
  match ixs with
  | [] => Ok required
  | ix :: ixs =>
      or_err (head (ix_accounts ix)) InstructionHasNoAccounts (fun first_account =>
      collect_signers
        (if decide (first_account ∈ required) then required else required ++ [first_account]) ixs)
  end.

Definition Transaction_required_signers_ordered (tx : Transaction)
  : result (list Pubkey) TxError :=
  match msg_instructions (tx_message tx) with
  | [] => Err NoInstructions
  | ixs => collect_signers [] ixs
  end.

Definition Transaction_required_signers (tx : Transaction) : result (gset Pubkey) TxError :=
  let? signers := Transaction_required_signers_ordered tx in Ok (list_to_set signers).

(** ** Signatures *)

(** The loop over the zipped signatures and signers, from position [index]. *)
Fixpoint verify_each `{Crypto} (message : bytes) (index : nat) (verified : gset Pubkey)
  (pairs : list (PqSignature * Pubkey)) : result (gset Pubkey) TxError :=
  match pairs with
  | [] => Ok verified
  | (signature, expected_signer) :: pairs =>
      match PqSignature_validate signature with
      | Err e => Err (InvalidSignature index e)
      | Ok _ =>
          let signer := PqSignature_signer_address signature in
          if negb (signer =? expected_signer) then Err (WrongSigner index signer expected_signer)
          else if negb (Keypair_verify expected_signer message signature)
          then Err (SignatureRejected expected_signer)
          else if bool_decide (signer ∈ verified) then Err (DuplicateSignature signer)
          else verify_each message (S index) ({[signer]} ∪ verified) pairs
      end
  end.

Definition Transaction_verify_required_signatures_against `{Crypto} (message : bytes)
  (tx : Transaction) : result (gset Pubkey) TxError :=
  if bool_decide (tx_signatures tx = []) then Err NoSignatures
  else
    let? required_signers := Transaction_required_signers_ordered tx in
    if negb (Nat.eqb (length (tx_signatures tx)) (length required_signers))
    then Err (SignatureCountMismatch (length (tx_signatures tx)) (length required_signers))
    else verify_each message 0 ∅ (zip (tx_signatures tx) required_signers).

Definition Transaction_verify_required_signatures `{Crypto, TxCodec} (tx : Transaction)
  : result (gset Pubkey) TxError :=
  Transaction_verify_required_signatures_against (message_bytes (tx_message tx)) tx.

Definition Transaction_verify_required_signatures_with_chain_id `{Crypto, TxCodec}
  (chain_id : bytes) (tx : Transaction) : result (gset Pubkey) TxError :=
  if bool_decide (chain_id = []) then Err ChainIdRequired
  else Transaction_verify_required_signatures_against
         (Message_signing_bytes_for_chain_id chain_id (tx_message tx)) tx.

(** ** Structure *)

Definition MAX_INSTRUCTIONS_PER_TX : nat := 64.
Definition MAX_SIGNATURES_PER_TX : nat := MAX_INSTRUCTIONS_PER_TX.
Definition MAX_INSTRUCTION_DATA : Z := 204800.
Definition MAX_DEPLOY_INSTRUCTION_DATA : Z := 4194304.
Definition MAX_TRANSACTION_SERIALIZED_SIZE : Z := 5 * 1024 * 1024.
Definition MAX_TRANSACTION_WIRE_SIZE : Z := MAX_TRANSACTION_SERIALIZED_SIZE + 4.
Definition MAX_ACCOUNTS_PER_IX : nat := 64.

(** [Pubkey([0xFF; 32])]. *)
Definition CONTRACT_PROGRAM_ID : Pubkey := 2 ^ 256 - 1.

(** The bytes of an opening brace and the quoted word [Deploy]. *)
Definition DEPLOY_PREFIX : bytes := [123; 34] ++ str_bytes "Deploy" ++ [34].

Definition starts_with (prefix data : bytes) : bool :=
  bool_decide (take (length prefix) data = prefix).

Definition data_limit (consensus : bool) (ix : Instruction) : Z :=
  let is_system_deploy :=
    (ix_program_id ix =? SYSTEM_PROGRAM_ID) && bool_decide (head (ix_data ix) = Some 17) in
  let is_contract_deploy :=
    (ix_program_id ix =? CONTRACT_PROGRAM_ID) && starts_with DEPLOY_PREFIX (ix_data ix) in
  if is_system_deploy || is_contract_deploy || consensus
  then MAX_DEPLOY_INSTRUCTION_DATA else MAX_INSTRUCTION_DATA.

Fixpoint check_instructions (consensus : bool) (i : nat) (ixs : list Instruction)
  : result unit TxError :=
  match ixs with
  | [] => Ok tt
  | ix :: ixs =>
      let limit := data_limit consensus ix in
      if limit <? Z.of_nat (length (ix_data ix))
      then Err (InstructionDataTooLarge i (length (ix_data ix)) (Z.to_nat limit))
      else if bool_decide (ix_accounts ix = []) then Err (IxHasNoAccounts i)
      else if Nat.ltb MAX_ACCOUNTS_PER_IX (length (ix_accounts ix))
      then Err (IxTooManyAccounts i (length (ix_accounts ix)))
      else check_instructions consensus (S i) ixs
  end.

(** [serialized_size_legacy_bincode] is the length of the serialization; a transaction
    always serializes. *)
Definition Transaction_validate_structure `{Bincode} (tx : Transaction) : result unit TxError :=
  let ixs := msg_instructions (tx_message tx) in
  if Transaction_is_consensus tx && negb (bool_decide (tx_signatures tx = []))
  then Err ConsensusWithSignatures
  else if Nat.ltb MAX_SIGNATURES_PER_TX (length (tx_signatures tx))
  then Err (TooManySignatures (length (tx_signatures tx)))
  else if bool_decide (ixs = []) then Err NoInstructions
  else if Nat.ltb MAX_INSTRUCTIONS_PER_TX (length ixs)
  then Err (TooManyInstructions (length ixs))
  else
    let? _ := check_instructions (Transaction_is_consensus tx) 0 ixs in
    if MAX_TRANSACTION_SERIALIZED_SIZE <? Z.of_nat (length (transaction_bytes tx))
    then Err (SerializedTooLarge (length (transaction_bytes tx)))
    else Ok tt.

(** ** Wire envelope *)

Definition TX_WIRE_MAGIC : bytes := [77; 84].
Definition TX_WIRE_VERSION : Z := 1.

Definition TransactionType_as_u8 (t : TransactionType) : Z :=
  match t with Native => 0 | Evm => 1 | Consensus => 2 end.

Definition set_tx_type (t : TransactionType) (tx : Transaction) : Transaction :=
  mkTransaction (tx_signatures tx) (tx_message tx) t.

Definition Transaction_to_wire `{Bincode} (tx : Transaction) : bytes :=
  TX_WIRE_MAGIC ++ [TX_WIRE_VERSION; TransactionType_as_u8 (tx_type tx)] ++ transaction_bytes tx.

(** The strict decoder refuses input above its limit, then decodes all of it. *)
Definition bounded_bincode_deser `{TxCodec} (payload : bytes) (limit : Z)
  : result Transaction TxError :=
  if limit <? Z.of_nat (length payload) then Err BincodeError
  else or_err (decode_transaction payload) BincodeError Ok.

Definition Transaction_from_wire `{TxCodec} (data : bytes) (max_wire_bytes : Z)
  : result Transaction TxError :=
  if max_wire_bytes <? Z.of_nat (length data) then Err (WirePayloadTooLarge (length data))
  else
    match data with
    | m0 :: m1 :: version :: type_byte :: payload =>
        if negb (bool_decide ([m0; m1] = TX_WIRE_MAGIC)) then Err MissingEnvelope
        else if negb (version =? TX_WIRE_VERSION) then Err (UnsupportedWireVersion version)
        else
          let? type :=
            if type_byte =? 0 then Ok Native
            else if type_byte =? 1 then Ok Evm
            else Err (UnknownTypeByte type_byte) in
          let? tx := bounded_bincode_deser payload (sat_sub max_wire_bytes 4) in
          Ok (set_tx_type type tx)
    | _ => Err MissingEnvelope
    end.

(** ** Who must sign *)

(** The first accounts of the instructions, each kept at its first occurrence. *)
Definition first_accounts (ixs : list Instruction) : list Pubkey :=
  omap (fun ix => head (ix_accounts ix)) ixs.
Definition first_occurrences (l : list Pubkey) : list Pubkey := reverse (remove_dups (reverse l)).

Lemma first_occurrences_snoc l x :
  first_occurrences (l ++ [x])
  = if decide (x ∈ first_occurrences l) then first_occurrences l else first_occurrences l ++ [x].
Proof.
  unfold first_occurrences. rewrite reverse_app, reverse_singleton. cbn [app remove_dups].
  assert (x ∈ reverse l <-> x ∈ reverse (remove_dups (reverse l))) as Hx
    by by rewrite (elem_of_reverse x (remove_dups _)), elem_of_remove_dups.
  destruct (decide_rel elem_of x (reverse l)) as [Hin|Hin];
    destruct (decide (x ∈ reverse (remove_dups (reverse l)))); try tauto.
  by rewrite reverse_cons.
Qed.

Lemma first_occurrences_NoDup l : NoDup (first_occurrences l).
Proof. unfold first_occurrences. rewrite reverse_Permutation. apply NoDup_remove_dups. Qed.

Lemma elem_of_first_occurrences x l : x ∈ first_occurrences l <-> x ∈ l.
Proof. unfold first_occurrences. by rewrite elem_of_reverse, elem_of_remove_dups, elem_of_reverse. Qed.

Lemma collect_signers_spec seen ixs required :
  collect_signers (first_occurrences seen) ixs = Ok required
  <-> Forall (fun ix => ix_accounts ix <> []) ixs
      /\ required = first_occurrences (seen ++ first_accounts ixs).
Proof.
  revert seen. induction ixs as [|ix ixs IH]; intros seen; cbn [collect_signers].
  - unfold first_accounts. simpl. rewrite app_nil_r. split; [intros [= <-]|intros [_ ->]]; auto.
  - rewrite Forall_cons. unfold first_accounts. cbn [omap list_omap].
    destruct (ix_accounts ix) as [|x accounts]; simpl.
    { split; [done|]. by intros [[? _] _]. }
    rewrite <- first_occurrences_snoc, IH, <- app_assoc. simpl. naive_solver.
Qed.

Lemma required_signers_spec tx required :
  Transaction_required_signers_ordered tx = Ok required
  <-> msg_instructions (tx_message tx) <> []
      /\ Forall (fun ix => ix_accounts ix <> []) (msg_instructions (tx_message tx))
      /\ required = first_occurrences (first_accounts (msg_instructions (tx_message tx))).
Proof.
  unfold Transaction_required_signers_ordered.
  destruct (msg_instructions (tx_message tx)) as [|ix ixs].
  { split; [done|]. by intros [? _]. }
  rewrite (collect_signers_spec [] (ix :: ixs)). naive_solver.
Qed.

(** ** What a verified signature list is *)

Lemma Keypair_verify_valid `{Crypto} a m s :
  Keypair_verify a m s = true -> PqSignature_validate s = Ok tt.
Proof. unfold Keypair_verify. by destruct (PqSignature_validate s) as [[]|]. Qed.

Lemma verify_each_spec `{Crypto} m i verified pairs out :
  verify_each m i verified pairs = Ok out
  <-> Forall (fun p => Keypair_verify p.2 m p.1 = true) pairs
      /\ NoDup pairs.*2 /\ (forall k, k ∈ pairs.*2 -> k ∉ verified)
      /\ out = list_to_set pairs.*2 ∪ verified.
Proof.
  revert i verified. induction pairs as [|[s k] pairs IH]; intros i verified; cbn [verify_each].
  { rewrite !fmap_nil. split.
    - intros [= <-]. split_and!; [done|constructor|by intros ? ?%elem_of_nil|set_solver].
    - intros (_ & _ & _ & ->). f_equal. set_solver. }
  rewrite Forall_cons. cbn [fst snd]. rewrite fmap_cons. cbn [snd]. rewrite NoDup_cons.
  destruct (Keypair_verify k m s) eqn:Hv.
  - rewrite (Keypair_verify_valid _ _ _ Hv), <- (Keypair_verify_address _ _ _ Hv), Z.eqb_refl.
    cbn [negb]. case_bool_decide as Hin.
    { split; [done|]. intros (_ & _ & Hd & _). exfalso. apply (Hd k); [left|done]. }
    rewrite IH. setoid_rewrite elem_of_cons. setoid_rewrite elem_of_union.
    setoid_rewrite elem_of_singleton. cbn [list_to_set]. split.
    + intros (Hf & Hn & Hd & ->). split_and!; try done; [|naive_solver|set_solver].
      intros Hk. apply (Hd k Hk). by left.
    + intros ([_ Hf] & [Hk Hn] & Hd & ->). split_and!; try done; [|set_solver].
      intros x Hx [->|Hx']; [done|]. apply (Hd x); auto.
  - split; [|intros [[? _] _]; done].
    destruct (PqSignature_validate s); [|done]. destruct (_ =? k); done.
Qed.

Lemma zip_verified {A B} (P : B -> A -> Prop) (l : list A) (k : list B) :
  length l = length k -> Forall (fun p => P p.2 p.1) (zip l k) <-> Forall2 (fun a b => P b a) l k.
Proof.
  revert k. induction l as [|a l IH]; intros [|b k]; simpl; intros Hl; try done.
  rewrite Forall_cons, Forall2_cons, IH by lia. done.
Qed.

(** ** Properties *)

(** A transaction's signatures are accepted for a chain exactly when every instruction
    names an account and the signatures are, one for one and in this order, valid signatures
    of the instructions' first accounts (each at its first occurrence) over the message in
    the chain's envelope; the signers returned are those accounts.  So no instruction runs
    without the signature of its first account, and no signature can be added, repeated or
    moved. *)
Theorem signatures_exact `{Crypto, TxCodec} chain_id tx signers :
  let ixs := msg_instructions (tx_message tx) in
  let required := first_occurrences (first_accounts ixs) in
  Transaction_verify_required_signatures_with_chain_id chain_id tx = Ok signers
  <-> chain_id <> [] /\ ixs <> [] /\ Forall (fun ix => ix_accounts ix <> []) ixs
      /\ Forall2 (fun s k => Keypair_verify k
                     (Message_signing_bytes_for_chain_id chain_id (tx_message tx)) s = true)
           (tx_signatures tx) required
      /\ signers = list_to_set (first_accounts ixs).
Proof.
  intros ixs required. unfold Transaction_verify_required_signatures_with_chain_id.
  case_bool_decide as Hc; [by split; [|intros [? _]]|].
  unfold Transaction_verify_required_signatures_against.
  set (msg := Message_signing_bytes_for_chain_id chain_id (tx_message tx)).
  assert (list_to_set required =@{gset Pubkey} list_to_set (first_accounts ixs)) as Hset.
  { apply set_eq. intros x. rewrite !elem_of_list_to_set. apply elem_of_first_occurrences. }
  assert (length (tx_signatures tx) = length required ->
    verify_each msg 0 ∅ (zip (tx_signatures tx) required) = Ok signers
    <-> Forall2 (fun s k => Keypair_verify k msg s = true) (tx_signatures tx) required
        /\ signers = list_to_set (first_accounts ixs)) as Hverify.
  { intros Hlen. rewrite verify_each_spec, snd_zip by lia.
    rewrite (zip_verified (fun k s => Keypair_verify k msg s = true)) by done.
    rewrite <- Hset, union_empty_r_L. split; [intros (? & _ & _ & ->); done|].
    intros [? ->]. split_and!; [done|apply first_occurrences_NoDup|set_solver|done]. }
  case_bool_decide as Hs.
  { split; [done|]. intros (_ & Hi & Hf & H2 & _). rewrite Hs in H2.
    apply Forall2_nil_inv_l in H2 as Hn. clear H2 Hverify Hset. subst required.
    destruct ixs as [|ix ixs'] eqn:E; [done|]. inversion Hf as [|? ? Ha _]; subst.
    destruct (ix_accounts ix) as [|x l] eqn:Ex; [done|].
    exfalso. apply (elem_of_nil x). rewrite <- Hn. apply elem_of_first_occurrences. unfold first_accounts. cbn [omap list_omap]. rewrite Ex. left. }
  rewrite and_then_Ok. setoid_rewrite required_signers_spec. fold ixs. split.
  - intros (? & (Hi & Hf & ->) & Hv). fold required in Hv. apply guard_Ok in Hv as [Hl Hv].
    apply negb_false_iff, Nat.eqb_eq in Hl. apply Hverify in Hv as [? ->]; auto.
  - intros (_ & Hi & Hf & H2 & ->). exists required. split; [done|].
    pose proof (Forall2_length _ _ _ H2) as Hl. rewrite Hl, Nat.eqb_refl. cbn [negb]. by apply Hverify.
Qed.

(** A native or EVM transaction survives the wire unchanged within the size limit, while
    a consensus transaction, whoever encodes it, is refused: nothing read from the wire is a
    consensus transaction. *)
Theorem wire_roundtrip `{TxCodecLaws} tx limit :
  Z.of_nat (length (Transaction_to_wire tx)) <= limit ->
  Transaction_from_wire (Transaction_to_wire tx) limit
  = (if Transaction_is_consensus tx then Err (UnknownTypeByte 2) else Ok tx)
  /\ (forall data limit' tx', Transaction_from_wire data limit' = Ok tx' ->
        Transaction_is_consensus tx' = false /\ Z.of_nat (length data) <= limit').
Proof.
  intros Hlen. split.
  - unfold Transaction_from_wire. destruct (Z.ltb_spec limit (Z.of_nat (length (Transaction_to_wire tx))));
      [lia|]. unfold Transaction_to_wire in *. revert Hlen. rewrite length_app. simpl. intros Hlen.
    assert (bounded_bincode_deser (transaction_bytes tx) (sat_sub limit 4) = Ok tx) as Hd.
    { unfold bounded_bincode_deser. destruct (Z.ltb_spec (sat_sub limit 4) (Z.of_nat (length (transaction_bytes tx))));
        [unfold sat_sub in *; lia|]. by rewrite decode_transaction_bytes. }
    unfold Transaction_is_consensus.
    destruct tx as [sigs m []]; cbn in Hd |- *; rewrite ?Hd; done.
  - intros data limit' tx'. unfold Transaction_from_wire.
    destruct (Z.ltb_spec limit' (Z.of_nat (length data))); [done|].
    destruct data as [|m0 [|m1 [|v [|t payload]]]]; try done.
    rewrite !guard_Ok, and_then_Ok. intros (_ & _ & ty & Hty & Htx).
    apply and_then_Ok in Htx as (tx0 & _ & [= <-]). split; [|done].
    unfold Transaction_is_consensus. cbn. revert Hty.
    destruct (t =? 0); [intros [= <-]; done|]. destruct (t =? 1); [intros [= <-]; done|done].
Qed.

(** ** A concrete codec *)

Module ToyTx.
#[export] Existing Instance Toy.crypto.
#[export] Existing Instance Toy.crypto_laws.

#[export] Instance PqPublicKey_countable : Countable PqPublicKey.
Proof.
  by refine (inj_countable' (fun k => (pk_scheme_version k, pk_bytes k))
               (fun p => mkPqPublicKey p.1 p.2) _); intros [].
Defined.
#[export] Instance PqSignature_countable : Countable PqSignature.
Proof.
  by refine (inj_countable' (fun s => (sig_scheme_version s, sig_public_key s, sig_sig s))
               (fun p => mkPqSignature p.1.1 p.1.2 p.2) _); intros [].
Defined.
#[export] Instance Instruction_countable : Countable Instruction.
Proof.
  by refine (inj_countable' (fun i => (ix_program_id i, ix_accounts i, ix_data i))
               (fun p => mkInstruction p.1.1 p.1.2 p.2) _); intros [].
Defined.
#[export] Instance Message_countable : Countable Message.
Proof.
  by refine (inj_countable'
    (fun m => (msg_instructions m, msg_recent_blockhash m, msg_compute_budget m, msg_compute_unit_price m))
    (fun p => mkMessage p.1.1.1 p.1.1.2 p.1.2 p.2) _); intros [].
Defined.
#[export] Instance TransactionType_countable : Countable TransactionType.
Proof.
  by refine (inj_countable' TransactionType_as_u8
    (fun z => if z =? 0 then Native else if z =? 1 then Evm else Consensus) _); intros [].
Defined.
#[export] Instance Transaction_countable : Countable Transaction.
Proof.
  by refine (inj_countable' (fun t => (tx_signatures t, tx_message t, tx_type t))
               (fun p => mkTransaction p.1.1 p.1.2 p.2) _); intros [].
Defined.

(** The bytes of the number that codes a value. *)
Definition spell (p : positive) : bytes := le_bytes (Z.to_nat (Z.log2 (Z.pos p) / 8 + 1)) (Z.pos p).

Lemma spell_value p : Z.to_pos (le_value (spell p)) = p.
Proof.
  unfold spell. rewrite le_value_le_bytes, Z.mod_small; [done|]. split; [done|].
  change 256 with (2 ^ 8). rewrite <- Z.pow_mul_r by lia.
  apply Z.log2_lt_pow2; [done|]. pose proof (Z.log2_nonneg (Z.pos p)).
  rewrite Z2Nat.id by divlia. divlia.
Qed.

#[export] Instance bincode : Bincode := {| transaction_bytes tx := spell (encode tx) |}.
#[export] Instance codec : TxCodec := {|
  message_bytes m := spell (encode m);
  decode_transaction l := decode (Z.to_pos (le_value l));
|}.
#[export] Instance codec_laws : TxCodecLaws.
Proof. split. intros tx. simpl. by rewrite spell_value, decode_encode. Qed.

Definition keys : list Keypair := map mkKeypair [1; 2].
Definition account (n : nat) : Pubkey := default 0 (Keypair_pubkey <$> keys !! n).
Definition chain : bytes := str_bytes "lichen".

(** Three instructions of two signers. *)
Definition message : Message :=
  Message_new [mkInstruction 0 [account 0; account 1] [0]; mkInstruction 0 [account 1] [9];
               mkInstruction 0 [account 0] [10]] 7.
Definition signed : Transaction :=
  mkTransaction (map (fun kp => Keypair_sign kp (Message_signing_bytes_for_chain_id chain message)) keys)
    message Native.
Definition unsigned : Transaction := mkTransaction [] (Message_new [mkInstruction 0 [5] [0]] 7) Evm.

Lemma wire_roundtrip_witness :
  Transaction_from_wire (Transaction_to_wire unsigned) MAX_TRANSACTION_WIRE_SIZE = Ok unsigned.
Proof.
  refine (proj1 (wire_roundtrip unsigned MAX_TRANSACTION_WIRE_SIZE _)). by vm_compute.
Defined.

Lemma required_are_keys :
  first_occurrences (first_accounts (msg_instructions message)) = map Keypair_pubkey keys.
Proof. by vm_compute. Qed.

Lemma signatures_exact_witness :
  Transaction_verify_required_signatures_with_chain_id chain signed
  = Ok (list_to_set (first_accounts (msg_instructions message))).
Proof.
  apply (signatures_exact chain signed). split_and!; [done|done| | |done].
  - by repeat constructor.
  - change (tx_message signed) with message. rewrite required_are_keys. cbn [signed tx_signatures].
    generalize (Message_signing_bytes_for_chain_id chain message). intros bytes.
    generalize keys. intros l. induction l as [|kp l IH]; cbn [map]; constructor; [|done].
    apply Keypair_verify_sign.
Defined.
End ToyTx.
