(* ===== verification/Mempool.v ===== *)
(** * The mempool

    Models [core/src/mempool.rs]: the priority queue of pending transactions with its
    deduplication map and its per-sender limit.

    - the queue is the standard library's [BinaryHeap], whose order among equal elements is
      not documented: the class [MaxHeap] states what the documentation promises, and the
      theorems hold for every implementation of it;
    - the wall clock is an argument;
    - the predicate of [remove_transactions_matching] is a function of the transaction. *)

From S2P Require Import Prelude Crypto Block Transactions.
From stdpp Require Import base tactics numbers list gmap sorting.
From Stdlib Require Import ZArith Lia.

Local Open Scope Z_scope.
Local Open Scope rust_scope.

Definition MAX_PENDING_PER_SENDER : nat := 100.

Record PrioritizedTransaction := mkPrioritizedTransaction {
  ptx_transaction : Transaction;
  ptx_fee : Z;
  ptx_effective_cu_price : Z;
  ptx_timestamp : Z;
  ptx_hash : Hash;
}.

(** [impl Ord]: price, then fee, then the older time stamp. *)
Definition ptx_cmp (a b : PrioritizedTransaction) : comparison :=
  match ptx_effective_cu_price a ?= ptx_effective_cu_price b with
  | Eq =>
      match ptx_fee a ?= ptx_fee b with
      | Eq => ptx_timestamp b ?= ptx_timestamp a
      | ord => ord
      end
  | ord => ord
  end.

Definition ptx_le (a b : PrioritizedTransaction) : Prop := ptx_cmp a b <> Gt.

Definition compute_effective_cu_price (fee : Z) (tx : Transaction) : Z :=
  let budget := Message_effective_compute_budget (tx_message tx) in
  if budget =? 0 then fee else Z.min (fee * 1000000 / budget) u64_max.

(** ** The standard library's heap *)

Class MaxHeap (Q : Type) := {
  heap_items : Q -> list PrioritizedTransaction;
  heap_new : Q;
  heap_push : PrioritizedTransaction -> Q -> Q;
  heap_pop : Q -> option (PrioritizedTransaction * Q);
  heap_drain : Q -> list PrioritizedTransaction;
  heap_collect : list PrioritizedTransaction -> Q;
}.

Class MaxHeapLaws (Q : Type) `{MaxHeap Q} : Prop := {
  heap_items_new : heap_items heap_new = [];
  heap_items_push x q : heap_items (heap_push x q) ≡ₚ x :: heap_items q;
  heap_items_collect l : heap_items (heap_collect l) ≡ₚ l;
  heap_drain_items q : heap_drain q ≡ₚ heap_items q;
  heap_pop_None q : heap_pop q = None -> heap_items q = [];
  heap_pop_Some q x q' : heap_pop q = Some (x, q') ->
    heap_items q ≡ₚ x :: heap_items q' /\ forall y, y ∈ heap_items q' -> ptx_le y x;
}.

(** ** The mempool *)

Record Mempool (Q : Type) := mkMempool {
  mem_queue : Q;
  mem_transactions : gmap Hash Transaction;
  mem_sender_counts : gmap Pubkey nat;
  mem_max_size : nat;
  mem_expiration_time : Z;
}.
Arguments mkMempool {Q}.
Arguments mem_queue {Q}.
Arguments mem_transactions {Q}.
Arguments mem_sender_counts {Q}.
Arguments mem_max_size {Q}.
Arguments mem_expiration_time {Q}.

Inductive MempoolError :=
| BadStructure (e : TxError)
| AlreadyInMempool
| MempoolFull
| SenderLimit (sender : Pubkey) (count : nat).

Section mempool.
Context {Q : Type} `{MaxHeap Q} `{Crypto, Bincode}.
Implicit Types m : Mempool Q.

Definition set_mem_queue (q : Q) m : Mempool Q :=
  mkMempool q (mem_transactions m) (mem_sender_counts m) (mem_max_size m) (mem_expiration_time m).

Definition Mempool_new (max_size : nat) (expiration_time : Z) : Mempool Q :=
  mkMempool heap_new ∅ ∅ max_size expiration_time.

(** [transaction.sender()]; a transaction without accounts would panic, and
    [validate_structure] has refused it ([validated_sender]). *)
Definition sender_of (tx : Transaction) : Pubkey := default 0 (Transaction_sender tx).

Definition Mempool_add_transaction (transaction : Transaction) (fee now : Z) m
  : result unit MempoolError * Mempool Q :=
  match Transaction_validate_structure transaction with
  | Err e => (Err (BadStructure e), m)
  | Ok _ =>
      let tx_hash := Transaction_hash transaction in
      if decide (is_Some (mem_transactions m !! tx_hash)) then (Err AlreadyInMempool, m)
      else if Nat.leb (mem_max_size m) (size (mem_transactions m)) then (Err MempoolFull, m)
      else
        let sender := sender_of transaction in
        let sender_count := default 0%nat (mem_sender_counts m !! sender) in
        if Nat.leb MAX_PENDING_PER_SENDER sender_count
        then (Err (SenderLimit sender sender_count), m)
        else
          let prioritized :=
            mkPrioritizedTransaction transaction fee
              (compute_effective_cu_price fee transaction) now tx_hash in
          (Ok tt,
           mkMempool (heap_push prioritized (mem_queue m))
             (<[tx_hash := transaction]> (mem_transactions m))
             (<[sender := S sender_count]> (mem_sender_counts m))
             (mem_max_size m) (mem_expiration_time m))
  end.

(** The loops of [get_top_transactions]: pop until [count] transactions are taken or the
    queue is empty, then push them back. *)
Fixpoint pop_top (count : nat) (q : Q) : list PrioritizedTransaction * Q :=
  match count with
  | O => ([], q)
  | S count =>
      match heap_pop q with
      | Some (ptx, q) => let '(temp, q) := pop_top count q in (ptx :: temp, q)
      | None => ([], q)
      end
  end.

Definition Mempool_get_top_transactions (count : nat) m : list Transaction * Mempool Q :=
  let '(temp, q) := pop_top count (mem_queue m) in
  (map ptx_transaction temp, set_mem_queue (foldl (fun q ptx => heap_push ptx q) q temp) m).

(** The block every removal repeats: drop the hash from the map and lower its sender's
    count, removing a count of zero. *)
Definition forget (tx_hash : Hash) m : Mempool Q :=
  match mem_transactions m !! tx_hash with
  | Some tx =>
      let sender := sender_of tx in
      let counts :=
        match mem_sender_counts m !! sender with
        | Some count =>
            let count := Nat.pred count in
            if Nat.eqb count 0 then delete sender (mem_sender_counts m)
            else <[sender := count]> (mem_sender_counts m)
        | None => mem_sender_counts m
        end in
      mkMempool (mem_queue m) (delete tx_hash (mem_transactions m)) counts
        (mem_max_size m) (mem_expiration_time m)
  | None => m
  end.

Definition forget_all (hashes : list Hash) m : Mempool Q := foldl (fun m h => forget h m) m hashes.

(** Rebuild the queue from its items that pass [keep]. *)
Definition retain (keep : PrioritizedTransaction -> bool) m : Mempool Q :=
  set_mem_queue (heap_collect (filter (fun ptx => keep ptx = true) (heap_drain (mem_queue m)))) m.

Definition Mempool_remove_transaction (tx_hash : Hash) m : Mempool Q :=
  if decide (is_Some (mem_transactions m !! tx_hash))
  then retain (fun ptx => negb (ptx_hash ptx =? tx_hash)) (forget tx_hash m)
  else m.

Definition Mempool_remove_transactions_bulk (tx_hashes : list Hash) m : Mempool Q :=
  let any_removed :=
    existsb (fun h => bool_decide (is_Some (mem_transactions m !! h))) tx_hashes in
  let m := forget_all tx_hashes m in
  if any_removed then retain (fun ptx => negb (bool_decide (ptx_hash ptx ∈ tx_hashes))) m else m.

Definition Mempool_cleanup_expired (now : Z) m : Mempool Q :=
  let fresh ptx := sat_sub now (ptx_timestamp ptx) <? mem_expiration_time m in
  let transactions := heap_drain (mem_queue m) in
  let valid := filter (fun ptx => fresh ptx = true) transactions in
  let expired := filter (fun ptx => fresh ptx = false) transactions in
  set_mem_queue (heap_collect valid) (forget_all (map ptx_hash expired) m).

Definition Mempool_remove_transactions_matching (predicate : Transaction -> bool) m
  : nat * Mempool Q :=
  let remove_hashes : gset Hash :=
    dom (filter (fun e => predicate e.2 = true) (mem_transactions m)) in
  if bool_decide (remove_hashes = ∅) then (0%nat, m)
  else
    (size remove_hashes,
     retain (fun ptx => negb (bool_decide (ptx_hash ptx ∈ remove_hashes)))
       (forget_all (elements remove_hashes) m)).

Definition Mempool_prune_stale_blockhashes (valid_blockhashes : gset Hash) m : nat * Mempool Q :=
  let current ptx :=
    bool_decide (msg_recent_blockhash (tx_message (ptx_transaction ptx)) ∈ valid_blockhashes) in
  let before := size (mem_transactions m) in
  let items := heap_drain (mem_queue m) in
  let valid := filter (fun ptx => current ptx = true) items in
  let stale := filter (fun ptx => current ptx = false) items in
  let m := set_mem_queue (heap_collect valid) (forget_all (map ptx_hash stale) m) in
  ((before - size (mem_transactions m))%nat, m).

Definition Mempool_size m : nat := size (mem_transactions m).
Definition Mempool_contains (tx_hash : Hash) m : bool :=
  bool_decide (is_Some (mem_transactions m !! tx_hash)).
Definition Mempool_get (tx_hash : Hash) m : option Transaction := mem_transactions m !! tx_hash.

Definition Mempool_clear m : Mempool Q :=
  mkMempool heap_new ∅ ∅ (mem_max_size m) (mem_expiration_time m).
End mempool.

(** ** Specification

    The abstract mempool is a finite map from transaction hashes to entries: no queue, no
    counts. *)

Abbreviation Pending := (gmap Hash PrioritizedTransaction).

Inductive MempoolOp :=
| AddTransaction (tx : Transaction) (fee now : Z)
| RemoveTransaction (h : Hash)
| RemoveBulk (hs : list Hash)
| CleanupExpired (now : Z)
| RemoveMatching (predicate : Transaction -> bool)
| PruneStale (valid : gset Hash)
| GetTop (count : nat)
| ClearAll.

Inductive MempoolOut :=
| Added (r : result unit MempoolError)
| Removed (n : nat)
| Top (l : list Transaction)
| Done.

Definition pending (sender : Pubkey) (s : Pending) : nat :=
  size (filter (fun e => sender_of (ptx_transaction e.2) = sender) s).

Section spec.
Context `{Crypto, Bincode} (max_size : nat) (expiration_time : Z).
Implicit Types s : Pending.

Definition spec_add (tx : Transaction) (fee now : Z) s : result unit MempoolError * Pending :=
  match Transaction_validate_structure tx with
  | Err e => (Err (BadStructure e), s)
  | Ok _ =>
      let h := Transaction_hash tx in
      if decide (h ∈ dom s) then (Err AlreadyInMempool, s)
      else if Nat.leb max_size (size s) then (Err MempoolFull, s)
      else if Nat.leb MAX_PENDING_PER_SENDER (pending (sender_of tx) s)
      then (Err (SenderLimit (sender_of tx) (pending (sender_of tx) s)), s)
      else (Ok tt,
            <[h := mkPrioritizedTransaction tx fee (compute_effective_cu_price fee tx) now h]> s)
  end.

(** What the [count] best entries are: in descending order, without repetition, as many as
    asked for or all there are, and no entry left out beats one taken. *)
Definition best (count : nat) s (l : list Transaction) : Prop :=
  exists taken left,
    l = map ptx_transaction taken /\ (map_to_list s).*2 ≡ₚ taken ++ left
    /\ length taken = Nat.min count (size s)
    /\ StronglySorted (fun a b => ptx_le b a) taken
    /\ forall a b, a ∈ taken -> b ∈ left -> ptx_le b a.

(** One operation of the specification: the output it may have and the state after it. *)
Definition spec_step s (op : MempoolOp) (out : MempoolOut) (s' : Pending) : Prop :=
  match op with
  | AddTransaction tx fee now => out = Added (spec_add tx fee now s).1 /\ s' = (spec_add tx fee now s).2
  | RemoveTransaction h => out = Done /\ s' = delete h s
  | RemoveBulk hs => out = Done /\ s' = filter (fun e => e.1 ∉ hs) s
  | CleanupExpired now =>
      out = Done /\ s' = filter (fun e => sat_sub now (ptx_timestamp e.2) < expiration_time) s
  | RemoveMatching predicate =>
      s' = filter (fun e => predicate (ptx_transaction e.2) = false) s
      /\ out = Removed (size s - size s')
  | PruneStale valid =>
      s' = filter (fun e => msg_recent_blockhash (tx_message (ptx_transaction e.2)) ∈ valid) s
      /\ out = Removed (size s - size s')
  | GetTop count => s' = s /\ exists l, out = Top l /\ best count s l
  | ClearAll => out = Done /\ s' = ∅
  end.

Inductive spec_run : Pending -> list MempoolOp -> list MempoolOut -> Pending -> Prop :=
| spec_run_nil s : spec_run s [] [] s
| spec_run_cons s op ops out outs s1 s2 :
    spec_step s op out s1 -> spec_run s1 ops outs s2 ->
    spec_run s (op :: ops) (out :: outs) s2.

(** What every abstract state satisfies. *)
Record pending_ok s : Prop := {
  po_keyed h p : s !! h = Some p ->
    ptx_hash p = h /\ Transaction_hash (ptx_transaction p) = h
    /\ Transaction_validate_structure (ptx_transaction p) = Ok tt
    /\ ptx_effective_cu_price p = compute_effective_cu_price (ptx_fee p) (ptx_transaction p);
  po_size : (size s <= max_size)%nat;
  po_senders k : (pending k s <= MAX_PENDING_PER_SENDER)%nat;
}.
End spec.

(** The operations of the implementation, with their outputs. *)
Definition mempool_step {Q} `{MaxHeap Q} `{Crypto, Bincode} (m : Mempool Q) (op : MempoolOp)
  : MempoolOut * Mempool Q :=
  match op with
  | AddTransaction tx fee now => let '(r, m) := Mempool_add_transaction tx fee now m in (Added r, m)
  | RemoveTransaction h => (Done, Mempool_remove_transaction h m)
  | RemoveBulk hs => (Done, Mempool_remove_transactions_bulk hs m)
  | CleanupExpired now => (Done, Mempool_cleanup_expired now m)
  | RemoveMatching predicate =>
      let '(n, m) := Mempool_remove_transactions_matching predicate m in (Removed n, m)
  | PruneStale valid => let '(n, m) := Mempool_prune_stale_blockhashes valid m in (Removed n, m)
  | GetTop count => let '(l, m) := Mempool_get_top_transactions count m in (Top l, m)
  | ClearAll => (Done, Mempool_clear m)
  end.

Fixpoint mempool_run {Q} `{MaxHeap Q} `{Crypto, Bincode} (m : Mempool Q) (ops : list MempoolOp)
  : list MempoolOut * Mempool Q :=
  match ops with
  | [] => ([], m)
  | op :: ops =>
      let '(out, m) := mempool_step m op in
      let '(outs, m) := mempool_run m ops in (out :: outs, m)
  end.

(** ** Counting the entries of a sender *)

Lemma pending_insert k h p (s : Pending) :
  s !! h = None ->
  pending k (<[h := p]> s)
  = if decide (sender_of (ptx_transaction p) = k) then S (pending k s) else pending k s.
Proof.
  intros Hh. unfold pending. rewrite map_filter_insert. cbn [snd].
  destruct (decide (sender_of (ptx_transaction p) = k)); [|by rewrite delete_id].
  apply map_size_insert_None, map_lookup_filter_None. by left.
Qed.

Lemma pending_delete k h p (s : Pending) :
  s !! h = Some p ->
  pending k s
  = if decide (sender_of (ptx_transaction p) = k) then S (pending k (delete h s))
    else pending k (delete h s).
Proof.
  intros Hh. rewrite <- (pending_insert k h p (delete h s)) by apply lookup_delete_eq.
  by rewrite insert_delete_id.
Qed.

Lemma pending_subseteq k (s s' : Pending) : s' ⊆ s -> (pending k s' <= pending k s)%nat.
Proof. intros Hs. by apply map_subseteq_size, map_filter_subseteq_mono. Qed.

(** The values of a filtered map are the filtered values. *)
Lemma values_filter (P : Hash * PrioritizedTransaction -> Prop) `{forall e, Decision (P e)}
  (f : PrioritizedTransaction -> Prop) `{forall p, Decision (f p)} (s : Pending) :
  (forall h p, s !! h = Some p -> P (h, p) <-> f p) ->
  filter f (map_to_list s).*2 ≡ₚ (map_to_list (filter P s)).*2.
Proof.
  induction s as [|h p s Hh IH] using map_ind; intros Hf; [done|].
  assert (forall h' p', s !! h' = Some p' -> P (h', p') <-> f p') as Hf'.
  { intros h' p' Hs. apply Hf. rewrite lookup_insert_ne; [done|]. intros ->. congruence. }
  specialize (Hf h p (lookup_insert_eq _ _ _)).
  rewrite (map_to_list_insert s) by done. rewrite fmap_cons, filter_cons. cbn [snd].
  rewrite map_filter_insert. destruct (decide (f p)), (decide (P (h, p))); try tauto.
  - rewrite map_to_list_insert by (apply map_lookup_filter_None; by left).
    rewrite fmap_cons. cbn [snd]. by rewrite IH.
  - rewrite delete_id by done. by apply IH.
Qed.

Lemma validated_sender `{Bincode} tx :
  Transaction_validate_structure tx = Ok tt -> Transaction_sender tx = Some (sender_of tx).
Proof.
  unfold Transaction_validate_structure. rewrite !guard_Ok, and_then_Ok.
  intros (_ & _ & Hi & _ & [] & Hc & _). unfold sender_of, Transaction_sender.
  destruct (msg_instructions (tx_message tx)) as [|ix ixs]; [done|].
  cbn [check_instructions] in Hc. rewrite !guard_Ok in Hc. destruct Hc as (_ & Ha & _).
  by destruct (ix_accounts ix).
Qed.

(** ** Refinement *)

Section refinement.
Context {Q : Type} `{MaxHeapLaws Q} `{Crypto, Bincode}.
Implicit Types m : Mempool Q.
Implicit Types s : Pending.

(** The map and the counts of the implementation, as functions of the abstract state. *)
Record tracks m s : Prop := {
  tr_transactions : mem_transactions m = ptx_transaction <$> s;
  tr_counts k : mem_sender_counts m !! k
                = if decide (pending k s = 0%nat) then None else Some (pending k s);
}.

Record refines m s : Prop := {
  rf_tracks : tracks m s;
  rf_queue : heap_items (mem_queue m) ≡ₚ (map_to_list s).*2;
  rf_ok : pending_ok (mem_max_size m) s;
}.

Definition same_config m m' : Prop :=
  mem_max_size m' = mem_max_size m /\ mem_expiration_time m' = mem_expiration_time m.

Lemma tracks_lookup m s h : tracks m s -> is_Some (mem_transactions m !! h) <-> h ∈ dom s.
Proof. intros [-> _]. by rewrite lookup_fmap, fmap_is_Some, elem_of_dom. Qed.

Lemma tracks_size m s : tracks m s -> size (mem_transactions m) = size s.
Proof. intros [-> _]. apply map_size_fmap. Qed.

Lemma tracks_count m s k : tracks m s -> default 0%nat (mem_sender_counts m !! k) = pending k s.
Proof. intros [_ ->]. by case_decide. Qed.

Lemma forget_tracks h m s : tracks m s -> tracks (forget h m) (delete h s).
Proof.
  intros Hm. pose proof Hm as [Ht Hc]. unfold forget. rewrite Ht at 1. rewrite lookup_fmap.
  destruct (s !! h) as [p|] eqn:Hh; simpl; [|by rewrite delete_id].
  set (sender := sender_of (ptx_transaction p)).
  assert (mem_sender_counts m !! sender = Some (S (pending sender (delete h s)))) as Hsend.
  { rewrite Hc, (pending_delete sender h p s Hh). by destruct (decide (_ = sender)). }
  split; simpl; [by rewrite Ht, fmap_delete|]. intros k. rewrite Hsend. cbn [Nat.pred].
  pose proof (pending_delete k h p s Hh) as Hk. specialize (Hc k).
  fold sender in Hk. destruct (Nat.eqb_spec (pending sender (delete h s)) 0) as [E|E].
  - destruct (decide (sender = k)) as [<-|Hne].
    + rewrite lookup_delete_eq. by rewrite decide_True.
    + rewrite lookup_delete_ne by done. by rewrite Hc, Hk.
  - destruct (decide (sender = k)) as [<-|Hne].
    + rewrite lookup_insert_eq. by rewrite decide_False.
    + rewrite lookup_insert_ne by done. by rewrite Hc, Hk.
Qed.

Lemma forget_frame h m : mem_queue (forget h m) = mem_queue m /\ same_config m (forget h m).
Proof. unfold forget, same_config. by destruct (mem_transactions m !! h). Qed.

Lemma forget_all_spec hs m s :
  tracks m s ->
  tracks (forget_all hs m) (filter (fun e => e.1 ∉ hs) s)
  /\ mem_queue (forget_all hs m) = mem_queue m /\ same_config m (forget_all hs m).
Proof.
  revert m s. induction hs as [|h hs IH]; intros m s Hm; simpl.
  - split; [|done]. rewrite map_filter_id; [done|]. intros i x _. apply not_elem_of_nil.
  - destruct (IH (forget h m) (delete h s) (forget_tracks h m s Hm)) as (Ht & Hq & Hmax & Hexp).
    destruct (forget_frame h m) as [Hq0 [Hmax0 Hexp0]].
    split; [|unfold same_config; rewrite Hq, Hq0, Hmax, Hexp, Hmax0, Hexp0; done].
    replace (filter (fun e => e.1 ∉ h :: hs) s) with (filter (fun e => e.1 ∉ hs) (delete h s)); [done|].
    apply map_eq. intros i. apply option_eq. intros p.
    rewrite !map_lookup_filter_Some, lookup_delete_Some, not_elem_of_cons. cbn [fst]. naive_solver.
Qed.

(** Removing the entries a predicate rejects: the common end of every removal. *)
Lemma pending_ok_filter max s s' : s' ⊆ s -> pending_ok max s -> pending_ok max s'.
Proof.
  intros Hs [Hk Hsize Hsend]. split.
  - intros h p Hp. apply Hk. by eapply lookup_weaken.
  - etrans; [by apply map_subseteq_size|done].
  - intros k. etrans; [by apply pending_subseteq|done].
Qed.

Lemma removed_refines (P : Hash * PrioritizedTransaction -> Prop) `{!forall e, Decision (P e)}
  (keep : PrioritizedTransaction -> bool) m m' s hs l :
  refines m s -> l ≡ₚ heap_items (mem_queue m) ->
  (forall h p, s !! h = Some p -> P (h, p) <-> keep p = true) ->
  (forall h p, s !! h = Some p -> h ∉ hs <-> P (h, p)) ->
  m' = set_mem_queue (heap_collect (filter (fun p => keep p = true) l)) (forget_all hs m) ->
  refines m' (filter P s) /\ same_config m m'.
Proof.
  intros [Ht Hq Hok] Hl Hkeep Hhs ->.
  destruct (forget_all_spec hs m s Ht) as (Ht' & Hq' & Hmax & Hexp).
  assert (filter (fun e => e.1 ∉ hs) s = filter P s) as Heq.
  { apply map_filter_ext. intros h p Hp. simpl. by apply Hhs. }
  split; [|by split]. split; simpl.
  - rewrite Heq in Ht'. destruct Ht' as [Htx Hct]. by split.
  - rewrite heap_items_collect, Hl, Hq. by apply values_filter.
  - rewrite Hmax. eapply pending_ok_filter; [apply map_filter_subseteq|done].
Qed.

Lemma tracks_queue q m s : tracks m s -> tracks (set_mem_queue q m) s.
Proof. intros [Htx Hct]. by split. Qed.

Lemma add_refines tx fee now m s :
  refines m s ->
  let '(r, m') := Mempool_add_transaction tx fee now m in
  r = (spec_add (mem_max_size m) tx fee now s).1
  /\ refines m' (spec_add (mem_max_size m) tx fee now s).2 /\ same_config m m'.
Proof.
  intros Hr. pose proof Hr as [Ht Hq Hok]. unfold Mempool_add_transaction, spec_add.
  destruct (Transaction_validate_structure tx) as [[]|e] eqn:Hv; [|done].
  pose proof (tracks_lookup m s (Transaction_hash tx) Ht) as Hdom.
  destruct (decide (is_Some _)) as [Hin|Hin];
    destruct (decide (Transaction_hash tx ∈ dom s)) as [Hd|Hd]; try tauto; [done|].
  rewrite (tracks_size m s Ht). destruct (Nat.leb_spec (mem_max_size m) (size s)) as [|Hsize]; [done|].
  rewrite (tracks_count m s _ Ht).
  destruct (Nat.leb_spec MAX_PENDING_PER_SENDER (pending (sender_of tx) s)) as [|Hs]; [done|].
  split; [done|]. split; [|done]. apply not_elem_of_dom in Hd. destruct Ht as [Htx Hct]. cbn [snd].
  split; [split| |]; simpl.
  - by rewrite Htx, fmap_insert.
  - intros k. rewrite pending_insert by done. cbn [ptx_transaction].
    destruct (decide (sender_of tx = k)) as [<-|Hne]; [by rewrite lookup_insert_eq|].
    by rewrite lookup_insert_ne.
  - rewrite heap_items_push, Hq, map_to_list_insert by done. done.
  - destruct Hok as [Hk Hmax Hsend]. split.
    + intros h p. rewrite lookup_insert_Some. intros [[<- <-]|[_ Hp]]; [done|by apply Hk].
    + rewrite map_size_insert_None by done. lia.
    + intros k. rewrite pending_insert by done. cbn [ptx_transaction].
      case_decide as Hsk; [subst k; lia|apply Hsend].
Qed.

Lemma pop_top_spec count q :
  let '(temp, q') := pop_top count q in
  heap_items q ≡ₚ temp ++ heap_items q'
  /\ length temp = Nat.min count (length (heap_items q))
  /\ StronglySorted (fun a b => ptx_le b a) temp
  /\ forall a b, a ∈ temp -> b ∈ heap_items q' -> ptx_le b a.
Proof.
  revert q. induction count as [|count IH]; intros q; simpl.
  { split_and!; [done|done|constructor|by intros ? ? ?%elem_of_nil]. }
  destruct (heap_pop q) as [[x q1]|] eqn:Hp.
  - apply heap_pop_Some in Hp as [Hq Hmax]. specialize (IH q1).
    destruct (pop_top count q1) as [temp q'] eqn:Hpop. destruct IH as (Hperm & Hlen & Hsort & Hrest).
    rewrite Hq. cbn [length app]. split_and!.
    + by rewrite Hperm.
    + lia.
    + constructor; [done|]. apply Forall_forall. intros y Hy. apply Hmax. rewrite Hperm.
      apply elem_of_app. by left.
    + intros a b [->|Ha]%elem_of_cons Hb; [|by apply Hrest]. apply Hmax. rewrite Hperm.
      apply elem_of_app. by right.
  - apply heap_pop_None in Hp. rewrite Hp.
    split_and!; [done|done|constructor|by intros ? ? ?%elem_of_nil].
Qed.

Lemma push_back_items temp q :
  heap_items (foldl (fun q ptx => heap_push ptx q) q temp) ≡ₚ temp ++ heap_items q.
Proof.
  revert q. induction temp as [|x temp IH]; intros q; simpl; [done|].
  by rewrite IH, heap_items_push, Permutation_middle.
Qed.

Lemma top_refines count m s :
  refines m s ->
  let '(l, m') := Mempool_get_top_transactions count m in
  best count s l /\ refines m' s /\ same_config m m'.
Proof.
  intros [Ht Hq Hok]. unfold Mempool_get_top_transactions.
  pose proof (pop_top_spec count (mem_queue m)) as Hpop.
  destruct (pop_top count (mem_queue m)) as [temp q]. destruct Hpop as (Hperm & Hlen & Hsort & Hrest).
  split; [|split; [|done]].
  - exists temp, (heap_items q). split_and!; try done; [by rewrite <- Hq|].
    by rewrite Hlen, Hq, length_fmap, length_map_to_list.
  - split; [by apply tracks_queue| |done]. simpl. by rewrite push_back_items, <- Hperm.
Qed.

(** An entry of the queue is an entry of the map under its own hash. *)
Lemma queue_entry m s p :
  refines m s -> p ∈ heap_items (mem_queue m) <-> s !! ptx_hash p = Some p.
Proof.
  intros [_ Hq Hok]. rewrite Hq, list_elem_of_fmap. split.
  - intros ([h p'] & -> & Hin%elem_of_map_to_list). cbn [snd].
    destruct (po_keyed _ _ Hok h p' Hin) as [-> _]. done.
  - intros Hs. exists (ptx_hash p, p). split; [done|]. by apply elem_of_map_to_list.
Qed.

Lemma partition_refines (keep : PrioritizedTransaction -> bool)
  (P : Hash * PrioritizedTransaction -> Prop) `{!forall e, Decision (P e)} m s :
  refines m s -> (forall h p, s !! h = Some p -> P (h, p) <-> keep p = true) ->
  let l := heap_drain (mem_queue m) in
  let m' := set_mem_queue (heap_collect (filter (fun p => keep p = true) l))
              (forget_all (map ptx_hash (filter (fun p => keep p = false) l)) m) in
  refines m' (filter P s) /\ same_config m m'.
Proof.
  intros Hr Hkeep l m'. eapply (removed_refines P keep m m' s _ l); try done; [apply heap_drain_items|].
  intros h p Hp. rewrite (Hkeep h p Hp). destruct (po_keyed _ _ (rf_ok _ _ Hr) h p Hp) as [Hh _].
  split.
  - intros Hn. destruct (keep p) eqn:Hk; [done|]. exfalso. apply Hn, list_elem_of_In, in_map_iff.
    exists p. split; [done|]. apply list_elem_of_In, list_elem_of_filter. split; [done|].
    unfold l. rewrite heap_drain_items. apply (queue_entry m s p Hr). by rewrite Hh.
  - intros Hk [p' [Hh' Hp']]%list_elem_of_In%in_map_iff.
    apply list_elem_of_In, list_elem_of_filter in Hp' as [Hk' Hin].
    unfold l in Hin. rewrite heap_drain_items in Hin. apply (queue_entry m s p' Hr) in Hin. congruence.
Qed.

Lemma retain_refines (P : Hash * PrioritizedTransaction -> Prop) `{!forall e, Decision (P e)}
  (keep : PrioritizedTransaction -> bool) m s hs :
  refines m s ->
  (forall h p, s !! h = Some p -> h ∉ hs <-> P (h, p)) ->
  (forall p, keep p = true <-> ptx_hash p ∉ hs) ->
  refines (retain keep (forget_all hs m)) (filter P s) /\ same_config m (retain keep (forget_all hs m)).
Proof.
  intros Hr Hhs Hkeep. destruct (forget_all_spec hs m s (rf_tracks _ _ Hr)) as (_ & Hq & _).
  eapply (removed_refines P keep m _ s hs (heap_drain (mem_queue (forget_all hs m)))); try done.
  - by rewrite heap_drain_items, Hq.
  - intros h p Hp. rewrite Hkeep. destruct (po_keyed _ _ (rf_ok _ _ Hr) h p Hp) as [-> _].
    symmetry. by apply Hhs.
Qed.

Lemma refines_size m s m' s' :
  refines m s -> refines m' s' ->
  (size (mem_transactions m) - size (mem_transactions m') = size s - size s')%nat.
Proof. intros [Ht _ _] [Ht' _ _]. by rewrite (tracks_size _ _ Ht), (tracks_size _ _ Ht'). Qed.

Lemma remove_refines h m s :
  refines m s ->
  refines (Mempool_remove_transaction h m) (delete h s)
  /\ same_config m (Mempool_remove_transaction h m).
Proof.
  intros Hr. unfold Mempool_remove_transaction.
  pose proof (tracks_lookup m s h (rf_tracks _ _ Hr)) as Hdom.
  case_decide as Hin; [|by rewrite delete_id by (apply not_elem_of_dom; tauto)].
  replace (delete h s) with (filter (fun e => e.1 <> h) s).
  - apply (retain_refines (fun e => e.1 <> h) _ m s [h] Hr).
    + intros h' p _. by rewrite list_elem_of_singleton.
    + intros p. rewrite list_elem_of_singleton. destruct (Z.eqb_spec (ptx_hash p) h); naive_solver.
  - apply map_eq. intros i. apply option_eq. intros p.
    rewrite map_lookup_filter_Some, lookup_delete_Some. naive_solver.
Qed.

Lemma bulk_refines hs m s :
  refines m s ->
  refines (Mempool_remove_transactions_bulk hs m) (filter (fun e => e.1 ∉ hs) s)
  /\ same_config m (Mempool_remove_transactions_bulk hs m).
Proof.
  intros Hr. unfold Mempool_remove_transactions_bulk.
  destruct (existsb _ hs) eqn:Hex.
  - apply (retain_refines (fun e => e.1 ∉ hs) _ m s hs Hr); [done|].
    intros p. by rewrite negb_true_iff, bool_decide_eq_false.
  - destruct (forget_all_spec hs m s (rf_tracks _ _ Hr)) as (Ht & Hq & Hc).
    assert (filter (fun e => e.1 ∉ hs) s = s) as Heq.
    { apply map_filter_id. intros h p Hp Hin. cbn [fst] in Hin.
      assert (existsb (fun h => bool_decide (is_Some (mem_transactions m !! h))) hs = true); [|congruence].
      apply existsb_exists. exists h. split; [by apply list_elem_of_In|].
      apply bool_decide_eq_true, (tracks_lookup m s h (rf_tracks _ _ Hr)), elem_of_dom. eauto. }
    rewrite Heq in *. split; [|done]. destruct Hr as [_ Hqueue Hok], Hc as [Hmax _].
    split; [done|by rewrite Hq|by rewrite Hmax].
Qed.

Lemma matching_refines predicate m s :
  refines m s ->
  let s' := filter (fun e => predicate (ptx_transaction e.2) = false) s in
  let '(n, m') := Mempool_remove_transactions_matching predicate m in
  n = (size s - size s')%nat /\ refines m' s' /\ same_config m m'.
Proof.
  intros Hr s'. unfold Mempool_remove_transactions_matching.
  set (hashes := dom (filter (fun e => predicate e.2 = true) (mem_transactions m)) : gset Hash).
  assert (forall h p, s !! h = Some p ->
            h ∈ hashes <-> predicate (ptx_transaction p) = true) as Hhash.
  { intros h p Hp. unfold hashes. rewrite (tr_transactions _ _ (rf_tracks _ _ Hr)), elem_of_dom.
    split.
    - intros [tx [Htx Hpred]%map_lookup_filter_Some]. rewrite lookup_fmap, Hp in Htx.
      simpl in Htx. by simplify_eq.
    - intros Hpred. exists (ptx_transaction p). apply map_lookup_filter_Some.
      by rewrite lookup_fmap, Hp. }
  case_bool_decide as Hempty.
  - assert (s' = s) as ->; [|split_and!; [lia|done|done]].
    apply map_filter_id. intros h p Hp. cbn [snd]. destruct (predicate _) eqn:E; [|done].
    apply (Hhash h p Hp) in E. rewrite Hempty in E. set_solver.
  - destruct (retain_refines (fun e => predicate (ptx_transaction e.2) = false)
      (fun ptx => negb (bool_decide (ptx_hash ptx ∈ hashes))) m s (elements hashes) Hr) as [Hr' Hc].
    + intros h p Hp. cbn [snd]. rewrite elem_of_elements, (Hhash h p Hp). by rewrite not_true_iff_false.
    + intros p. by rewrite negb_true_iff, bool_decide_eq_false, elem_of_elements.
    + split; [|done].
      assert (hashes = dom (filter (fun e => ~ predicate (ptx_transaction e.2) = false) s)) as ->.
      { apply set_eq. intros h. rewrite elem_of_dom. unfold hashes.
        rewrite (tr_transactions _ _ (rf_tracks _ _ Hr)), elem_of_dom. unfold is_Some.
        setoid_rewrite map_lookup_filter_Some. setoid_rewrite lookup_fmap_Some. cbn [snd].
        setoid_rewrite not_false_iff_true. naive_solver. }
      rewrite size_dom. rewrite <- (map_filter_union_complement
        (fun e => predicate (ptx_transaction e.2) = false) s) at 2.
      rewrite map_size_disj_union by apply map_disjoint_filter_complement. unfold s'. lia.
Qed.

Lemma clear_refines m : refines (Mempool_clear m) ∅.
Proof.
  split; [split| |]; simpl.
  - by rewrite fmap_empty.
  - done.
  - by rewrite heap_items_new, map_to_list_empty.
  - split; [by intros h p ?%lookup_empty_Some|rewrite map_size_empty; lia|].
    intros k. unfold pending. rewrite map_filter_empty, map_size_empty. lia.
Qed.

Lemma step_refines op m s :
  refines m s ->
  exists s', spec_step (mem_max_size m) (mem_expiration_time m) s op (mempool_step m op).1 s'
    /\ refines (mempool_step m op).2 s' /\ same_config m (mempool_step m op).2.
Proof.
  intros Hr. destruct op as [tx fee now|h|hs|now|predicate|valid|count|]; cbn [spec_step mempool_step].
  - pose proof (add_refines tx fee now m s Hr) as Ha.
    destruct (Mempool_add_transaction tx fee now m) as [r m']. destruct Ha as (-> & Ha & Hc). eauto.
  - eexists; split; [done|]. by apply remove_refines.
  - eexists; split; [done|]. by apply bulk_refines.
  - eexists; split; [done|]. unfold Mempool_cleanup_expired. cbn [snd].
    apply (partition_refines (fun ptx => sat_sub now (ptx_timestamp ptx) <? mem_expiration_time m)); [done|].
    intros h p _. symmetry. apply Z.ltb_lt.
  - pose proof (matching_refines predicate m s Hr) as Hm.
    destruct (Mempool_remove_transactions_matching predicate m) as [n m']. destruct Hm as (-> & Hm & Hc).
    eauto.
  - unfold Mempool_prune_stale_blockhashes. cbn zeta. cbn [fst snd].
    edestruct (partition_refines
      (fun ptx => bool_decide (msg_recent_blockhash (tx_message (ptx_transaction ptx)) ∈ valid))
      (fun e => msg_recent_blockhash (tx_message (ptx_transaction e.2)) ∈ valid) m s Hr) as [Hr' Hc].
    { intros h p _. symmetry. apply bool_decide_eq_true. }
    eexists; split; [split; [done|]|by split]. f_equal. by apply refines_size.
  - pose proof (top_refines count m s Hr) as Ht.
    destruct (Mempool_get_top_transactions count m) as [l m']. destruct Ht as (Hb & Ht & Hc). eauto 10.
  - exists ∅. split_and!; [done|done|apply clear_refines|done..].
Qed.

Lemma run_refines ops m s :
  refines m s ->
  exists s', spec_run (mem_max_size m) (mem_expiration_time m) s ops (mempool_run m ops).1 s'
    /\ refines (mempool_run m ops).2 s' /\ mem_max_size (mempool_run m ops).2 = mem_max_size m.
Proof.
  revert m s. induction ops as [|op ops IH]; intros m s Hr; cbn [mempool_run].
  { exists s. split_and!; [constructor|done|done]. }
  destruct (step_refines op m s Hr) as (s1 & Hstep & Hr1 & Hmax & Hexp).
  destruct (mempool_step m op) as [out m1]. cbn [fst snd] in *.
  destruct (IH m1 s1 Hr1) as (s2 & Hrun & Hr2 & Hmax2). rewrite Hmax, Hexp in Hrun.
  destruct (mempool_run m1 ops) as [outs m2]. cbn [fst snd] in *.
  exists s2. split_and!; [by econstructor|done|congruence].
Qed.
End refinement.

(** ** Properties *)

(** C40.  The mempool, with its priority queue, deduplication map and per-sender counts kept in
    step by hand, implements the abstract finite map: after any sequence of operations every
    output (admission or its error, number of removals, the best transactions in order) is
    one the specification gives, the queue holds exactly the entries of the map, the counts
    are the numbers of entries per sender, no sender holds more than 100 entries, the size
    limit holds, and every entry is a well-formed transaction under its own hash. *)
Theorem mempool_refines {Q} `{MaxHeapLaws Q} `{Crypto, Bincode} max_size expiration_time ops :
  let '(outs, m) := mempool_run (Mempool_new (Q := Q) max_size expiration_time) ops in
  exists s,
    spec_run max_size expiration_time ∅ ops outs s
    /\ pending_ok max_size s
    /\ mem_transactions m = ptx_transaction <$> s
    /\ heap_items (mem_queue m) ≡ₚ (map_to_list s).*2
    /\ (forall k, default 0%nat (mem_sender_counts m !! k) = pending k s
                  /\ mem_sender_counts m !! k <> Some 0%nat).
Proof.
  set (m0 := Mempool_new (Q := Q) max_size expiration_time).
  destruct (run_refines ops m0 ∅ (clear_refines m0)) as (s & Hrun & [Ht Hq Hok] & Hmax).
  destruct (mempool_run m0 ops) as [outs m]. cbn [fst snd] in *. rewrite Hmax in Hok.
  exists s. split_and!; [done|done|apply Ht|done|]. intros k.
  split; [by apply tracks_count|]. rewrite (tr_counts _ _ Ht). case_decide; congruence.
Qed.

(** ** A heap *)

(** A list whose first maximal element is popped. *)
Module ListHeap.
#[export] Existing Instance Toy.crypto.
#[export] Existing Instance ToyBlock.bincode.

Definition ptx_leb (a b : PrioritizedTransaction) : bool :=
  match ptx_cmp a b with Gt => false | _ => true end.

(** The first element that is not below the others, and the rest. *)
Fixpoint pop (l : list PrioritizedTransaction)
  : option (PrioritizedTransaction * list PrioritizedTransaction) :=
  match l with
  | [] => None
  | x :: l =>
      match pop l with
      | None => Some (x, [])
      | Some (y, l') => if ptx_leb y x then Some (x, l) else Some (y, x :: l')
      end
  end.

#[export] Instance heap : MaxHeap (list PrioritizedTransaction) := {|
  heap_items l := l;
  heap_new := [];
  heap_push := cons;
  heap_pop := pop;
  heap_drain l := l;
  heap_collect l := l;
|}.

Lemma ptx_le_alt a b :
  ptx_le a b <->
  ptx_effective_cu_price a < ptx_effective_cu_price b
  \/ ptx_effective_cu_price a = ptx_effective_cu_price b
     /\ (ptx_fee a < ptx_fee b \/ ptx_fee a = ptx_fee b /\ ptx_timestamp b <= ptx_timestamp a).
Proof.
  unfold ptx_le, ptx_cmp.
  destruct (Z.compare_spec (ptx_effective_cu_price a) (ptx_effective_cu_price b));
    [destruct (Z.compare_spec (ptx_fee a) (ptx_fee b));
     [destruct (Z.compare_spec (ptx_timestamp b) (ptx_timestamp a))|..]|..];
    split; intros; first [done | lia | exfalso; lia].
Qed.

Lemma ptx_leb_spec a b : reflect (ptx_le a b) (ptx_leb a b).
Proof. unfold ptx_leb, ptx_le. destruct (ptx_cmp a b); constructor; congruence. Qed.

Lemma ptx_le_trans a b c : ptx_le a b -> ptx_le b c -> ptx_le a c.
Proof. rewrite !ptx_le_alt. lia. Qed.

Lemma pop_spec l x l' :
  pop l = Some (x, l') -> l ≡ₚ x :: l' /\ forall y, y ∈ l' -> ptx_le y x.
Proof.
  revert x l'. induction l as [|z l IH]; intros x l'; simpl; [done|].
  destruct (pop l) as [[y l1]|] eqn:Hp.
  - destruct (IH y l1 eq_refl) as [Hperm Hmax].
    destruct (ptx_leb_spec y z) as [Hle|Hgt]; intros [= <- <-].
    + split; [done|]. intros w. rewrite Hperm. intros [->|Hw]%elem_of_cons; [done|].
      apply (ptx_le_trans _ y); auto.
    + split; [by rewrite Hperm, Permutation_swap|]. intros w [->|Hw]%elem_of_cons; [|auto].
      rewrite ptx_le_alt in *. lia.
  - intros [= <- <-]. assert (l = []) as ->; [|split; [done|by intros ? ?%elem_of_nil]].
    destruct l as [|w l2]; [done|]. simpl in Hp. destruct (pop l2) as [[? ?]|]; [|done].
    by destruct (ptx_leb _ _).
Qed.

#[export] Instance heap_laws : MaxHeapLaws (list PrioritizedTransaction).
Proof.
  split; cbn [heap_items heap_new heap_push heap_pop heap_drain heap_collect heap]; try done.
  - intros [|x l]; [done|]. simpl. destruct (pop l) as [[? ?]|]; [|done]. by destruct (ptx_leb _ _).
  - apply pop_spec.
Qed.

Definition tx (price nonce : Z) : Transaction :=
  mkTransaction [] (mkMessage [mkInstruction 0 [7] [nonce]] nonce None (Some price)) Native.

(** Three transactions of one sender; the one with the highest fee comes first. *)
Definition ops : list MempoolOp :=
  [AddTransaction (tx 0 1) 1000 10; AddTransaction (tx 0 2) 3000 11; AddTransaction (tx 0 2) 3000 12;
   AddTransaction (tx 0 3) 2000 13; GetTop 2; RemoveTransaction 0; PruneStale {[1; 3]}].

Lemma mempool_refines_witness :
  exists s outs, spec_run 10 60 ∅ ops outs s /\ pending 7 s = 2%nat
    /\ outs = [Added (Ok tt); Added (Ok tt); Added (Err AlreadyInMempool); Added (Ok tt);
               Top [tx 0 2; tx 0 3]; Done; Removed 1].
Proof.
  pose proof (mempool_refines (Q := list PrioritizedTransaction) 10 60 ops) as Hr.
  destruct (mempool_run (Mempool_new 10 60) ops) as [outs m] eqn:Hm.
  vm_compute in Hm. injection Hm as <- <-.
  destruct Hr as (s & Hrun & _ & _ & _ & Hc). exists s. eexists. split_and!; [exact Hrun| |done].
  destruct (Hc 7) as [<- _]. by vm_compute.
Defined.
End ListHeap.
