(* ===== verification/Votes.v ===== *)
(** * Proposals, prevotes and precommits

    Models the BFT messages of [core/src/consensus.rs] ([RoundStep],
    [Proposal], [Prevote], [Precommit] and the legacy [Vote]): their fields, the
    bytes that are signed, and their verification.  The lemmas say which
    messages can share a signature. *)

From S2P Require Import Prelude Crypto Block.
From stdpp Require Import base tactics numbers list strings.
From Stdlib Require Import ZArith Lia.

Local Open Scope Z_scope.

Inductive RoundStep := Propose | Prevote_ | Precommit_ | Commit_.

#[global] Instance RoundStep_eq_dec : EqDecision RoundStep.
Proof. solve_decision. Defined.

Record Proposal := mkProposal {
  pr_height : Z;
  pr_round : Z;
  pr_block : Block;
  pr_valid_round : Z;
  pr_proposer : Pubkey;
  pr_signature : PqSignature;
}.

Record Prevote := mkPrevote {
  pv_height : Z;
  pv_round : Z;
  pv_block_hash : option Hash;
  pv_validator : Pubkey;
  pv_signature : PqSignature;
}.

Record Precommit := mkPrecommit {
  pc_height : Z;
  pc_round : Z;
  pc_block_hash : option Hash;
  pc_validator : Pubkey;
  pc_signature : PqSignature;
  pc_timestamp : Z;
}.

(** The legacy per-slot vote. *)
Record Vote := mkVote {
  vote_slot : Z;
  vote_block_hash : Hash;
  vote_validator : Pubkey;
  vote_signature : PqSignature;
  vote_timestamp : Z;
}.

#[global] Instance Proposal_eq_dec : EqDecision Proposal.
Proof. solve_decision. Defined.
#[global] Instance Prevote_eq_dec : EqDecision Prevote.
Proof. solve_decision. Defined.
#[global] Instance Precommit_eq_dec : EqDecision Precommit.
Proof. solve_decision. Defined.
#[global] Instance Vote_eq_dec : EqDecision Vote.
Proof. solve_decision. Defined.

(** [match block_hash { Some(h) => h.0, None => [0u8; 32] }] *)
Definition hash_or_nil (block_hash : option Hash) : Hash :=
  match block_hash with Some h => h | None => zero_hash end.

Definition Proposal_signable_bytes_static (height round : Z) (block_hash : Hash) (valid_round : Z)
  : bytes :=
  le_bytes 8 height ++ le_bytes 4 round ++ be_bytes 32 block_hash ++ i32_le_bytes valid_round.

Definition Proposal_signing_bytes_static_for_chain_id
  (chain_id : bytes) (height round : Z) (block_hash : Hash) (valid_round : Z) : bytes :=
  maybe_versioned_signing_bytes DOMAIN_PROPOSAL chain_id
    (Proposal_signable_bytes_static height round block_hash valid_round).

Definition Prevote_signable_bytes (height round : Z) (block_hash : option Hash) : bytes :=
  1 :: le_bytes 8 height ++ le_bytes 4 round ++ be_bytes 32 (hash_or_nil block_hash).

Definition Prevote_signing_bytes_for_chain_id
  (chain_id : bytes) (height round : Z) (block_hash : option Hash) : bytes :=
  maybe_versioned_signing_bytes DOMAIN_PREVOTE chain_id
    (Prevote_signable_bytes height round block_hash).

Definition Precommit_signable_bytes
  (height round : Z) (block_hash : option Hash) (timestamp : Z) : bytes :=
  2 :: le_bytes 8 height ++ le_bytes 4 round ++ be_bytes 32 (hash_or_nil block_hash)
    ++ le_bytes 8 timestamp.

Definition Precommit_signing_bytes_for_chain_id
  (chain_id : bytes) (height round : Z) (block_hash : option Hash) (timestamp : Z) : bytes :=
  maybe_versioned_signing_bytes DOMAIN_PRECOMMIT chain_id
    (Precommit_signable_bytes height round block_hash timestamp).

Section verification.
Context `{Crypto}.

Definition Proposal_signable_bytes (p : Proposal) : bytes :=
  Proposal_signable_bytes_static (pr_height p) (pr_round p) (Block_hash (pr_block p))
    (pr_valid_round p).

Definition Proposal_signing_bytes_for_chain_id (chain_id : bytes) (p : Proposal) : bytes :=
  maybe_versioned_signing_bytes DOMAIN_PROPOSAL chain_id (Proposal_signable_bytes p).

Definition Proposal_verify_signature_with_chain_id (chain_id : bytes) (p : Proposal) : bool :=
  Keypair_verify (pr_proposer p) (Proposal_signing_bytes_for_chain_id chain_id p)
    (pr_signature p).

Definition Prevote_verify_signature_with_chain_id (chain_id : bytes) (v : Prevote) : bool :=
  Keypair_verify (pv_validator v)
    (Prevote_signing_bytes_for_chain_id chain_id (pv_height v) (pv_round v) (pv_block_hash v))
    (pv_signature v).

Definition Precommit_verify_signature_with_chain_id (chain_id : bytes) (v : Precommit) : bool :=
  Keypair_verify (pc_validator v)
    (Precommit_signing_bytes_for_chain_id chain_id (pc_height v) (pc_round v)
       (pc_block_hash v) (pc_timestamp v))
    (pc_signature v).

Definition vote_message (slot : Z) (block_hash : Hash) : bytes :=
  le_bytes 8 slot ++ be_bytes 32 block_hash.

Definition Vote_verify (v : Vote) : bool :=
  Keypair_verify (vote_validator v) (vote_message (vote_slot v) (vote_block_hash v))
    (vote_signature v).
End verification.

(** ** Which messages share their signed bytes *)

Definition opt_u256 (x : option Hash) : Prop := forall h, x = Some h -> is_u256 h.

Lemma hash_or_nil_u256 x : opt_u256 x -> is_u256 (hash_or_nil x).
Proof. unfold is_u256. destruct x as [h|]; intros Hx; [by apply Hx|]. simpl. unfold zero_hash. lia. Qed.

Lemma Prevote_signable_bytes_length h r x : length (Prevote_signable_bytes h r x) = 45%nat.
Proof. unfold Prevote_signable_bytes. blen. Qed.

Lemma Precommit_signable_bytes_length h r x t :
  length (Precommit_signable_bytes h r x t) = 53%nat.
Proof. unfold Precommit_signable_bytes. blen. Qed.

Lemma Proposal_signable_bytes_length h r b v :
  length (Proposal_signable_bytes_static h r b v) = 48%nat.
Proof. unfold Proposal_signable_bytes_static, i32_le_bytes. blen. Qed.

#[export] Hint Rewrite maybe_versioned_length Prevote_signable_bytes_length
  Precommit_signable_bytes_length Proposal_signable_bytes_length : blen.

Lemma Prevote_signable_bytes_inj h1 r1 x1 h2 r2 x2 :
  is_u64 h1 -> is_u64 h2 -> is_u32 r1 -> is_u32 r2 -> opt_u256 x1 -> opt_u256 x2 ->
  Prevote_signable_bytes h1 r1 x1 = Prevote_signable_bytes h2 r2 x2 ->
  h1 = h2 /\ r1 = r2 /\ hash_or_nil x1 = hash_or_nil x2.
Proof.
  unfold Prevote_signable_bytes. intros ?? ?? ?%hash_or_nil_u256 ?%hash_or_nil_u256 Heq.
  apply (f_equal tail) in Heq. cbn [tail] in Heq.
  split_bytes Heq as Hh Heq.
  split_bytes Heq as Hr Hx.
  auto with lichen.
Qed.

Lemma Precommit_signable_bytes_inj h1 r1 x1 t1 h2 r2 x2 t2 :
  is_u64 h1 -> is_u64 h2 -> is_u32 r1 -> is_u32 r2 -> opt_u256 x1 -> opt_u256 x2 ->
  is_u64 t1 -> is_u64 t2 ->
  Precommit_signable_bytes h1 r1 x1 t1 = Precommit_signable_bytes h2 r2 x2 t2 ->
  h1 = h2 /\ r1 = r2 /\ hash_or_nil x1 = hash_or_nil x2 /\ t1 = t2.
Proof.
  unfold Precommit_signable_bytes. intros ?? ?? ?%hash_or_nil_u256 ?%hash_or_nil_u256 ?? Heq.
  apply (f_equal tail) in Heq. cbn [tail] in Heq.
  split_bytes Heq as Hh Heq.
  split_bytes Heq as Hr Heq.
  split_bytes Heq as Hx Ht.
  auto with lichen.
Qed.

Lemma Prevote_signing_bytes_inj c h1 r1 x1 h2 r2 x2 :
  signable_len c ->
  is_u64 h1 -> is_u64 h2 -> is_u32 r1 -> is_u32 r2 -> opt_u256 x1 -> opt_u256 x2 ->
  Prevote_signing_bytes_for_chain_id c h1 r1 x1 = Prevote_signing_bytes_for_chain_id c h2 r2 x2 ->
  h1 = h2 /\ r1 = r2 /\ hash_or_nil x1 = hash_or_nil x2.
Proof.
  intros Hc ?????? Heq%maybe_versioned_inj; try done; [|blen..].
  by apply Prevote_signable_bytes_inj.
Qed.

Lemma Precommit_signing_bytes_inj c h1 r1 x1 t1 h2 r2 x2 t2 :
  signable_len c ->
  is_u64 h1 -> is_u64 h2 -> is_u32 r1 -> is_u32 r2 -> opt_u256 x1 -> opt_u256 x2 ->
  is_u64 t1 -> is_u64 t2 ->
  Precommit_signing_bytes_for_chain_id c h1 r1 x1 t1
  = Precommit_signing_bytes_for_chain_id c h2 r2 x2 t2 ->
  h1 = h2 /\ r1 = r2 /\ hash_or_nil x1 = hash_or_nil x2 /\ t1 = t2.
Proof.
  intros Hc ???????? Heq%maybe_versioned_inj; try done;
    [|blen..].
  by apply Precommit_signable_bytes_inj.
Qed.

Lemma Prevote_Precommit_bytes_ne c h1 r1 x1 h2 r2 x2 t2 :
  Prevote_signing_bytes_for_chain_id c h1 r1 x1
  <> Precommit_signing_bytes_for_chain_id c h2 r2 x2 t2.
Proof.
  intros Heq%(f_equal length). revert Heq.
  unfold Prevote_signing_bytes_for_chain_id, Precommit_signing_bytes_for_chain_id.
  autorewrite with blen. case_decide; simpl; lia.
Qed.

Lemma Prevote_Proposal_bytes_ne c h1 r1 x1 h2 r2 x2 v2 :
  Prevote_signing_bytes_for_chain_id c h1 r1 x1
  <> Proposal_signing_bytes_static_for_chain_id c h2 r2 x2 v2.
Proof.
  intros Heq%(f_equal length). revert Heq.
  unfold Prevote_signing_bytes_for_chain_id, Proposal_signing_bytes_static_for_chain_id.
  autorewrite with blen. case_decide; simpl; lia.
Qed.

Lemma Precommit_Proposal_bytes_ne c h1 r1 x1 t1 h2 r2 x2 v2 :
  Precommit_signing_bytes_for_chain_id c h1 r1 x1 t1
  <> Proposal_signing_bytes_static_for_chain_id c h2 r2 x2 v2.
Proof.
  intros Heq%(f_equal length). revert Heq.
  unfold Precommit_signing_bytes_for_chain_id, Proposal_signing_bytes_static_for_chain_id.
  autorewrite with blen. case_decide; simpl; lia.
Qed.

(** A nil vote and a vote for the all-zero hash are the same signed bytes. *)
Lemma Prevote_nil_zero_bytes c h r :
  Prevote_signing_bytes_for_chain_id c h r None
  = Prevote_signing_bytes_for_chain_id c h r (Some zero_hash).
Proof. done. Qed.

Lemma Precommit_nil_zero_bytes c h r t :
  Precommit_signing_bytes_for_chain_id c h r None t
  = Precommit_signing_bytes_for_chain_id c h r (Some zero_hash) t.
Proof. done. Qed.

(** Signed consensus messages are separate: under one chain id (and the
    ranges of the Rust types) the signed bytes of a prevote or a precommit
    determine its height, round, timestamp and block hash up to the encoding of
    nil as the zero hash, and no prevote, precommit and proposal have the same
    signed bytes. *)
Theorem vote_bytes_separate c h1 r1 x1 t1 h2 r2 x2 t2 bh v :
  signable_len c -> is_u64 h1 -> is_u64 h2 -> is_u32 r1 -> is_u32 r2 -> opt_u256 x1 -> opt_u256 x2 ->
  is_u64 t1 -> is_u64 t2 ->
  (Prevote_signing_bytes_for_chain_id c h1 r1 x1 = Prevote_signing_bytes_for_chain_id c h2 r2 x2 <->
   h1 = h2 /\ r1 = r2 /\ hash_or_nil x1 = hash_or_nil x2)
  /\ (Precommit_signing_bytes_for_chain_id c h1 r1 x1 t1
      = Precommit_signing_bytes_for_chain_id c h2 r2 x2 t2 <->
      h1 = h2 /\ r1 = r2 /\ hash_or_nil x1 = hash_or_nil x2 /\ t1 = t2)
  /\ Prevote_signing_bytes_for_chain_id c h1 r1 x1
     <> Precommit_signing_bytes_for_chain_id c h2 r2 x2 t2
  /\ Prevote_signing_bytes_for_chain_id c h1 r1 x1
     <> Proposal_signing_bytes_static_for_chain_id c h2 r2 bh v
  /\ Precommit_signing_bytes_for_chain_id c h1 r1 x1 t1
     <> Proposal_signing_bytes_static_for_chain_id c h2 r2 bh v.
Proof.
  intros Hc Hh1 Hh2 Hr1 Hr2 Hx1 Hx2 Ht1 Ht2. split_and!;
    [split|split|apply Prevote_Precommit_bytes_ne|apply Prevote_Proposal_bytes_ne
    |apply Precommit_Proposal_bytes_ne].
  - by apply Prevote_signing_bytes_inj.
  - intros (-> & -> & Hx). unfold Prevote_signing_bytes_for_chain_id, Prevote_signable_bytes.
    by rewrite Hx.
  - by apply Precommit_signing_bytes_inj.
  - intros (-> & -> & Hx & ->). unfold Precommit_signing_bytes_for_chain_id, Precommit_signable_bytes.
    by rewrite Hx.
Qed.

Lemma vote_bytes_separate_witness :
  Prevote_signing_bytes_for_chain_id [7] 1 0 None <> Precommit_signing_bytes_for_chain_id [7] 1 0 (Some 5) 9
  /\ (Prevote_signing_bytes_for_chain_id [7] 1 0 None = Prevote_signing_bytes_for_chain_id [7] 1 0 (Some 5)
      <-> 1 = 1 /\ 0 = 0 /\ hash_or_nil None = hash_or_nil (Some 5)).
Proof.
  assert (opt_u256 None /\ opt_u256 (Some 5)) as [Hn Hs].
  { split; intros h [= <-]. unfold is_u256. lia. }
  destruct (vote_bytes_separate [7] 1 0 None 9 1 0 (Some 5) 9 5 0) as (H1 & _ & H2 & _);
    [done..|]. exact (conj H2 H1).
Defined.
