(* ===== verification/Account.v ===== *)
(** * Accounts

    Models [Account] of [core/src/account.rs]: a balance split into spendable,
    staked and locked parts, and the operations that move value between the
    parts or in and out of the account.  The moves check the split after they
    have written the fields, so an operation returns its result and the account
    it leaves behind. *)

From S2P Require Import Prelude Crypto.
From stdpp Require Import base tactics numbers list gmap.
From Stdlib Require Import ZArith Lia.

Local Open Scope Z_scope.

Record Account := mkAccount {
  ac_spores : Z;
  ac_spendable : Z;
  ac_staked : Z;
  ac_locked : Z;
  ac_data : bytes;
  ac_public_key : option PqPublicKey;
  ac_owner : Pubkey;
  ac_executable : bool;
  ac_rent_epoch : Z;
  ac_dormant : bool;
  ac_missed_rent_epochs : Z;
}.

Definition eta_Account (a : Account) : Account :=
  mkAccount (ac_spores a) (ac_spendable a) (ac_staked a) (ac_locked a) (ac_data a)
    (ac_public_key a) (ac_owner a) (ac_executable a) (ac_rent_epoch a) (ac_dormant a)
    (ac_missed_rent_epochs a).

Definition set_ac_spores : Z -> Account -> Account := ltac:(setter eta_Account ac_spores).
Definition set_ac_spendable : Z -> Account -> Account := ltac:(setter eta_Account ac_spendable).
Definition set_ac_staked : Z -> Account -> Account := ltac:(setter eta_Account ac_staked).
Definition set_ac_locked : Z -> Account -> Account := ltac:(setter eta_Account ac_locked).

Inductive AccountError :=
| InsufficientSpendable (have requested : Z)
| InsufficientStaked (have requested : Z)
| InsufficientLocked (have requested : Z)
| BalanceOverflow (amount balance : Z)
| SporesUnderflow (amount balance : Z)
| InvariantViolated.

(** An operation on an account: its result and the account after it. *)
Abbreviation AccountOp := (Account -> result unit AccountError * Account).

(** ** Operations *)

Definition Account_fixup_legacy (a : Account) : Account :=
  if (0 <? ac_spores a) && (ac_spendable a =? 0) && (ac_staked a =? 0) && (ac_locked a =? 0)
  then set_ac_spendable (ac_spores a) a else a.

Definition Account_licn_to_spores (licn : Z) : Z := sat_mul64 licn 1000000000.
Definition Account_spores_to_licn (spores : Z) : Z := spores / 1000000000.

Definition Account_new (licn : Z) (owner : Pubkey) : Account :=
  let spores := Account_licn_to_spores licn in
  mkAccount spores spores 0 0 [] None owner false 0 false 0.

(** [if self.spores != self.spendable + self.staked + self.locked]: the sum wraps. *)
Definition check_split (a : Account) : result unit AccountError * Account :=
  if negb (ac_spores a
           =? wrap64 (wrap64 (ac_spendable a + ac_staked a) + ac_locked a))
  then (Err InvariantViolated, a) else (Ok tt, a).

Definition Account_stake (amount : Z) : AccountOp := fun a =>
  if amount =? 0 then (Ok tt, a)
  else match checked_sub (ac_spendable a) amount with
       | None => (Err (InsufficientSpendable (ac_spendable a) amount), a)
       | Some new_spendable =>
           match checked_add64 (ac_staked a) amount with
           | None => (Err (BalanceOverflow amount (ac_staked a)), a)
           | Some new_staked => check_split (set_ac_staked new_staked (set_ac_spendable new_spendable a))
           end
       end.

Definition Account_unstake (amount : Z) : AccountOp := fun a =>
  if amount =? 0 then (Ok tt, a)
  else match checked_sub (ac_staked a) amount with
       | None => (Err (InsufficientStaked (ac_staked a) amount), a)
       | Some new_staked =>
           match checked_add64 (ac_spendable a) amount with
           | None => (Err (BalanceOverflow amount (ac_spendable a)), a)
           | Some new_spendable =>
               check_split (set_ac_spendable new_spendable (set_ac_staked new_staked a))
           end
       end.

Definition Account_lock (amount : Z) : AccountOp := fun a =>
  if amount =? 0 then (Ok tt, a)
  else match checked_sub (ac_spendable a) amount with
       | None => (Err (InsufficientSpendable (ac_spendable a) amount), a)
       | Some new_spendable =>
           match checked_add64 (ac_locked a) amount with
           | None => (Err (BalanceOverflow amount (ac_locked a)), a)
           | Some new_locked => check_split (set_ac_locked new_locked (set_ac_spendable new_spendable a))
           end
       end.

Definition Account_unlock (amount : Z) : AccountOp := fun a =>
  if amount =? 0 then (Ok tt, a)
  else match checked_sub (ac_locked a) amount with
       | None => (Err (InsufficientLocked (ac_locked a) amount), a)
       | Some new_locked =>
           match checked_add64 (ac_spendable a) amount with
           | None => (Err (BalanceOverflow amount (ac_spendable a)), a)
           | Some new_spendable =>
               check_split (set_ac_spendable new_spendable (set_ac_locked new_locked a))
           end
       end.

Definition Account_add_spendable (amount : Z) : AccountOp := fun a =>
  match checked_add64 (ac_spores a) amount with
  | None => (Err (BalanceOverflow amount (ac_spores a)), a)
  | Some new_spores =>
      match checked_add64 (ac_spendable a) amount with
      | None => (Err (BalanceOverflow amount (ac_spendable a)), a)
      | Some new_spendable => (Ok tt, set_ac_spendable new_spendable (set_ac_spores new_spores a))
      end
  end.

Definition Account_deduct_spendable (amount : Z) : AccountOp := fun a =>
  match checked_sub (ac_spendable a) amount with
  | None => (Err (InsufficientSpendable (ac_spendable a) amount), a)
  | Some new_spendable =>
      match checked_sub (ac_spores a) amount with
      | None => (Err (SporesUnderflow amount (ac_spores a)), a)
      | Some new_spores => (Ok tt, set_ac_spores new_spores (set_ac_spendable new_spendable a))
      end
  end.

Definition Account_deduct_locked (amount : Z) : AccountOp := fun a =>
  match checked_sub (ac_locked a) amount with
  | None => (Err (InsufficientLocked (ac_locked a) amount), a)
  | Some new_locked =>
      match checked_sub (ac_spores a) amount with
      | None => (Err (SporesUnderflow amount (ac_spores a)), a)
      | Some new_spores => check_split (set_ac_spores new_spores (set_ac_locked new_locked a))
      end
  end.

(** ** The balance invariant *)

(** The parts are unsigned and sum to the 64-bit total. *)
Record account_wf (a : Account) : Prop := {
  awf_spendable : 0 <= ac_spendable a;
  awf_staked : 0 <= ac_staked a;
  awf_locked : 0 <= ac_locked a;
  awf_split : ac_spores a = ac_spendable a + ac_staked a + ac_locked a;
  awf_spores : ac_spores a <= u64_max;
}.

(** The fields an operation moves value between. *)
Inductive Part := Spendable | Staked | Locked.
Definition part (x : Part) : Account -> Z :=
  match x with Spendable => ac_spendable | Staked => ac_staked | Locked => ac_locked end.

#[global] Instance Part_eq_dec : EqDecision Part.
Proof. solve_decision. Defined.

Lemma check_split_wf a : account_wf a -> check_split a = (Ok tt, a).
Proof.
  intros [Hs Ht Hl Hp Hm]. unfold check_split, u64_max in *.
  rewrite !(wrap_small 64) by (rewrite ?wrap_small; lia). by rewrite Hp, Z.eqb_refl.
Qed.

Ltac account_op :=
  repeat match goal with
  | |- context [checked_sub ?a ?b] =>
      let H := fresh "Hc" in destruct (checked_sub a b) eqn:H;
      [apply checked_sub_Some in H|unfold checked_sub in H; destruct (Z.leb_spec b a); [done|]]
  | |- context [checked_add64 ?a ?b] =>
      let H := fresh "Hc" in destruct (checked_add64 a b) eqn:H;
      [apply checked_add64_Some in H|unfold checked_add64 in H; destruct (Z.leb_spec (a + b) u64_max); [done|]]
  end; destruct_and?; subst.

Inductive BalanceOp := OpStake | OpUnstake | OpLock | OpUnlock | OpAdd | OpDeduct | OpDeductLocked.

Definition balance_op (o : BalanceOp) (amount : Z) : AccountOp :=
  match o with
  | OpStake => Account_stake amount
  | OpUnstake => Account_unstake amount
  | OpLock => Account_lock amount
  | OpUnlock => Account_unlock amount
  | OpAdd => Account_add_spendable amount
  | OpDeduct => Account_deduct_spendable amount
  | OpDeductLocked => Account_deduct_locked amount
  end.

(** The part an operation takes from and the part it gives to; [None] is outside
    the account. *)
Definition op_flow (o : BalanceOp) : option Part * option Part :=
  match o with
  | OpStake => (Some Spendable, Some Staked)
  | OpUnstake => (Some Staked, Some Spendable)
  | OpLock => (Some Spendable, Some Locked)
  | OpUnlock => (Some Locked, Some Spendable)
  | OpAdd => (None, Some Spendable)
  | OpDeduct => (Some Spendable, None)
  | OpDeductLocked => (Some Locked, None)
  end.

(** What the operation needs: the amount in its source, or room for it. *)
Definition funded (o : BalanceOp) (amount : Z) (a : Account) : Prop :=
  match (op_flow o).1 with
  | Some x => amount <= part x a
  | None => ac_spores a + amount <= u64_max
  end.

Definition flow (o : BalanceOp) (amount : Z) (x : Part) : Z :=
  (if decide ((op_flow o).2 = Some x) then amount else 0)
  - (if decide ((op_flow o).1 = Some x) then amount else 0).

(** On an account whose parts sum to its total, an operation succeeds exactly when
    its source holds the amount (for a deposit: when the total does not overflow);
    it then moves the amount and nothing else, and otherwise leaves the account as
    it was.  The parts sum to the total in both cases, so the check the code makes
    after its writes never fires. *)
Lemma balance_op_spec o amount a :
  account_wf a -> 0 <= amount ->
  let '(r, a') := balance_op o amount a in
  account_wf a' /\ (r = Ok tt <-> funded o amount a)
  /\ (r <> Ok tt -> a' = a)
  /\ (r = Ok tt -> forall x, part x a' = part x a + flow o amount x).
Proof.
  intros Ha Hamt. pose proof Ha as [Hs Ht Hl Hp Hm].
  destruct o; unfold balance_op, Account_stake, Account_unstake, Account_lock, Account_unlock,
    Account_add_spendable, Account_deduct_spendable, Account_deduct_locked, funded, flow; simpl;
    try (destruct (Z.eqb_spec amount 0) as [->|]); account_op;
    rewrite ?check_split_wf by (split; simpl; lia);
    split_and!; try done; try (split; simpl; lia); try (split; [done|lia]);
    try (intros _ []; simpl; repeat case_decide; (done || lia)).
Qed.

(** ** Sequences of operations *)

(** The account after a sequence of operations, and the ones that succeeded. *)
Fixpoint balance_run (ops : list (BalanceOp * Z)) (a : Account) : list (BalanceOp * Z) * Account :=
  match ops with
  | [] => ([], a)
  | (o, amount) :: ops =>
      let '(r, a) := balance_op o amount a in
      let '(applied, a) := balance_run ops a in
      (if is_ok r then (o, amount) :: applied else applied, a)
  end.

Definition net_flow (ops : list (BalanceOp * Z)) (x : Part) : Z := sumZ (fun oa => flow oa.1 oa.2 x) ops.

Lemma balance_run_spec ops a :
  account_wf a -> Forall (fun oa => 0 <= oa.2) ops ->
  let '(applied, a') := balance_run ops a in
  account_wf a' /\ forall x, part x a' = part x a + net_flow applied x.
Proof.
  intros Ha Hops. revert a Ha. induction Hops as [|[o amount] ops Ho _ IH]; intros a Ha; cbn [balance_run].
  { split; [done|]. intros x. unfold net_flow, sumZ. simpl. lia. }
  pose proof (balance_op_spec o amount a Ha Ho) as Hs.
  destruct (balance_op o amount a) as [r a1]. destruct Hs as (H1 & _ & Hno & Hyes).
  specialize (IH a1 H1). destruct (balance_run ops a1) as [applied a2]. destruct IH as [H2 IH].
  split; [done|]. intros x. rewrite IH. destruct r as [[]|e]; cbn [is_ok].
  - unfold net_flow. rewrite sumZ_cons, Hyes by done. simpl. lia.
  - by rewrite Hno.
Qed.

(** C36.  Account balances: after any sequence of operations, failed ones included,
    the spendable, staked and locked parts are non-negative, sum to the total, and
    each has changed by exactly the net flow of the operations that succeeded; an
    operation succeeds exactly when its source holds the amount. *)
Theorem balance_ops_exact ops o amount a :
  account_wf a -> Forall (fun oa => 0 <= oa.2) ops -> 0 <= amount ->
  let '(applied, a') := balance_run ops a in
  account_wf a' /\ (forall x, part x a' = part x a + net_flow applied x)
  /\ ((balance_op o amount a').1 = Ok tt <-> funded o amount a').
Proof.
  intros Ha Hops Hamt. pose proof (balance_run_spec ops a Ha Hops) as Hr.
  destruct (balance_run ops a) as [applied a']. destruct Hr as [Ha' Hx]. split_and!; try done.
  all: pose proof (balance_op_spec o amount a' Ha' Hamt) as Hs;
    destruct (balance_op o amount a') as [r a2]; apply Hs.
Qed.

Lemma balance_ops_exact_witness :
  let '(applied, a') :=
    balance_run [(OpStake, 2000000000); (OpLock, 9000000000); (OpLock, 1000000000)] (Account_new 5 9) in
  account_wf a' /\ ac_spendable a' = 2000000000 /\ ac_locked a' = 1000000000 /\ length applied = 2%nat.
Proof.
  assert (account_wf (Account_new 5 9)) as Ha by (split; vm_compute; try discriminate; reflexivity).
  pose proof (balance_ops_exact
    [(OpStake, 2000000000); (OpLock, 9000000000); (OpLock, 1000000000)] OpStake 0 (Account_new 5 9) Ha
    ltac:(repeat constructor; discriminate) ltac:(lia)) as Hc.
  destruct (balance_run _ _) as [applied a'] eqn:Hr. destruct Hc as (Hwf & Hx & _).
  split; [exact Hwf|]. assert (applied = [(OpStake, 2000000000); (OpLock, 1000000000)]) as Hap.
  { vm_compute in Hr. injection Hr as <- _. reflexivity. }
  rewrite Hap in Hx. split; [exact (Hx Spendable)|]. split; [exact (Hx Locked)|]. rewrite Hap. reflexivity.
Defined.
