(* ===== verification/Fees.v ===== *)
(** * Transaction fees

    Models [core/src/processor/fees.rs] and [FeeConfig] of [core/src/processor.rs]: what a
    transaction pays, how a charge is divided between burning and the treasury, and the two
    ways the processor charges it, directly on the store and on the batch of a speculative
    block.

    - the balances and the burned total are the record [Books];
    - the JSON decoder of contract instructions and the EVM transaction decoder are
      libraries: [decode_contract] and [evm_estimate] are parameters. *)

From S2P Require Import Prelude Crypto Block Account Transactions.
From stdpp Require Import base tactics numbers list gmap strings.
From Stdlib Require Import ZArith Lia.

Local Open Scope Z_scope.
Local Open Scope rust_scope.

(** ** Configuration *)

Record FeeConfig := mkFeeConfig {
  fc_base_fee : Z;
  fc_contract_deploy_fee : Z;
  fc_contract_upgrade_fee : Z;
  fc_nft_mint_fee : Z;
  fc_nft_collection_fee : Z;
  fc_fee_burn_percent : Z;
  fc_fee_producer_percent : Z;
  fc_fee_voters_percent : Z;
  fc_fee_treasury_percent : Z;
  fc_fee_community_percent : Z;
  fc_fee_exempt_contracts : list Pubkey;
}.

Definition BASE_FEE : Z := 1000000.
Definition CONTRACT_DEPLOY_FEE : Z := 25000000000.
Definition CONTRACT_UPGRADE_FEE : Z := 10000000000.
Definition NFT_MINT_FEE : Z := 500000000.
Definition NFT_COLLECTION_FEE : Z := 1000000000000.

Definition FeeConfig_default_from_constants : FeeConfig :=
  mkFeeConfig BASE_FEE CONTRACT_DEPLOY_FEE CONTRACT_UPGRADE_FEE NFT_MINT_FEE NFT_COLLECTION_FEE
    40 30 10 10 10 [].

Inductive FeeConfigError := PercentOutOfRange (value : Z) | PercentSum (total : Z).

Definition FeeConfig_validate_distribution (c : FeeConfig) : result unit FeeConfigError :=
  let percents := [fc_fee_burn_percent c; fc_fee_producer_percent c; fc_fee_voters_percent c;
                   fc_fee_treasury_percent c; fc_fee_community_percent c] in
  let? _ := try_fold (fun _ value => if 100 <? value then Err (PercentOutOfRange value) else Ok tt)
              tt percents in
  let total :=
    sat_add64 (sat_add64 (sat_add64 (sat_add64 (fc_fee_burn_percent c) (fc_fee_producer_percent c))
      (fc_fee_voters_percent c)) (fc_fee_treasury_percent c)) (fc_fee_community_percent c) in
  if negb (total =? 100) then Err (PercentSum total) else Ok tt.

(** ** What a transaction pays *)

Definition EVM_PROGRAM_ID : Pubkey := le_value (replicate 32 238).

(** The constructors of [ContractInstruction] the fees distinguish. *)
Inductive ContractKind := KindDeploy | KindCall | KindUpgrade | KindExecuteUpgrade | KindOther.
#[global] Instance ContractKind_eq_dec : EqDecision ContractKind.
Proof. solve_decision. Defined.

Definition SHIELD_COMPUTE_UNITS : Z := 100000.
Definition UNSHIELD_COMPUTE_UNITS : Z := 150000.
Definition TRANSFER_COMPUTE_UNITS : Z := 200000.

Definition UPGRADE_PREFIX : bytes := [123; 34] ++ str_bytes "Upgrade" ++ [34].

(** [std::str::from_utf8(data).is_ok()]: well-formed byte sequences of the Unicode standard. *)
Fixpoint is_utf8 (l : bytes) : bool :=
  let cont b := (128 <=? b) && (b <=? 191) in
  let within lo hi b := (lo <=? b) && (b <=? hi) in
  match l with
  | [] => true
  | a :: l1 =>
      if a <=? 127 then is_utf8 l1
      else
        match l1 with
        | [] => false
        | b :: l2 =>
            if within 194 223 a then cont b && is_utf8 l2
            else
              match l2 with
              | [] => false
              | c :: l3 =>
                  if within 224 239 a then
                    (if a =? 224 then within 160 191 b
                     else if a =? 237 then within 128 159 b else cont b) && cont c && is_utf8 l3
                  else
                    match l3 with
                    | [] => false
                    | d :: l4 =>
                        within 240 244 a
                        && (if a =? 240 then within 144 191 b
                            else if a =? 244 then within 128 143 b else cont b)
                        && cont c && cont d && is_utf8 l4
                    end
              end
        end
  end.

Section fees.
Variable decode_contract : bytes -> option ContractKind.
Variable evm_estimate : bytes -> option Z.

Definition is_contract (kinds : list ContractKind) (ix : Instruction) : bool :=
  match decode_contract (ix_data ix) with
  | Some k => bool_decide (k ∈ kinds)
  | None => false
  end.

(** The opcodes whose transactions are free when they come first. *)
Definition free_opcode (data : bytes) : bool :=
  match head data with
  | Some kind =>
      let legacy_or_grant_validator_registration :=
        (kind =? 26) && (default 0 (data !! 33%nat) =? 0) in
      ((2 <=? kind) && (kind <=? 5)) || (kind =? 19) || (kind =? 27) || (kind =? 30)
      || (kind =? 31) || legacy_or_grant_validator_registration
  | None => false
  end.

Definition exempt_call (config : FeeConfig) (ix : Instruction) : bool :=
  (ix_program_id ix =? CONTRACT_PROGRAM_ID) && is_contract [KindCall] ix
  && match ix_accounts ix with
     | _ :: contract :: _ => bool_decide (contract ∈ fc_fee_exempt_contracts config)
     | _ => false
     end.

(** One turn of the loop over the instructions. *)
Definition add_premium (config : FeeConfig) (total : Z) (ix : Instruction) : Z :=
  let total :=
    if ix_program_id ix =? SYSTEM_PROGRAM_ID then
      match head (ix_data ix) with
      | Some kind =>
          if kind =? 6 then sat_add64 total (fc_nft_collection_fee config)
          else if kind =? 7 then sat_add64 total (fc_nft_mint_fee config)
          else if kind =? 17 then sat_add64 total (fc_contract_deploy_fee config)
          else if kind =? 23 then sat_add64 total SHIELD_COMPUTE_UNITS
          else if kind =? 24 then sat_add64 total UNSHIELD_COMPUTE_UNITS
          else if kind =? 25 then sat_add64 total TRANSFER_COMPUTE_UNITS
          else total
      | None => total
      end
    else total in
  if ix_program_id ix =? CONTRACT_PROGRAM_ID then
    if is_contract [KindDeploy] ix then sat_add64 total (fc_contract_deploy_fee config)
    else if is_contract [KindUpgrade; KindExecuteUpgrade] ix
    then sat_add64 total (fc_contract_upgrade_fee config)
    else total
  else total.

Definition compute_base_fee (tx : Transaction) (config : FeeConfig) : Z :=
  let ixs := msg_instructions (tx_message tx) in
  let rest :=
    if negb (bool_decide (fc_fee_exempt_contracts config = [])) && negb (bool_decide (ixs = []))
       && forallb (exempt_call config) ixs
    then 0
    else foldl (add_premium config) (fc_base_fee config) ixs in
  match ixs with
  | first_ix :: _ =>
      if (ix_program_id first_ix =? SYSTEM_PROGRAM_ID) && free_opcode (ix_data first_ix) then 0
      else if ix_program_id first_ix =? EVM_PROGRAM_ID then
        match evm_estimate (ix_data first_ix) with
        | Some estimated => if 0 <? estimated then estimated else fc_base_fee config
        | None => fc_base_fee config
        end
      else rest
  | [] => rest
  end.

Definition compute_priority_fee (tx : Transaction) : Z :=
  let cu_price := Message_effective_compute_unit_price (tx_message tx) in
  if cu_price =? 0 then 0
  else Z.min (Message_effective_compute_budget (tx_message tx) * cu_price / 1000000) u64_max.

Definition compute_transaction_fee (tx : Transaction) (config : FeeConfig) : Z :=
  sat_add64 (compute_base_fee tx config) (compute_priority_fee tx).

(** The premium a failed transaction gets back, recognised by the text of the data. *)
Definition premium_of (config : FeeConfig) (premium : Z) (ix : Instruction) : Z :=
  let premium :=
    if ix_program_id ix =? SYSTEM_PROGRAM_ID then
      match head (ix_data ix) with
      | Some kind =>
          if kind =? 6 then sat_add64 premium (fc_nft_collection_fee config)
          else if kind =? 7 then sat_add64 premium (fc_nft_mint_fee config)
          else if kind =? 17 then sat_add64 premium (fc_contract_deploy_fee config)
          else premium
      | None => premium
      end
    else premium in
  if ix_program_id ix =? CONTRACT_PROGRAM_ID then
    let data_str := if is_utf8 (ix_data ix) then ix_data ix else [] in
    if starts_with DEPLOY_PREFIX data_str then sat_add64 premium (fc_contract_deploy_fee config)
    else if starts_with UPGRADE_PREFIX data_str
    then sat_add64 premium (fc_contract_upgrade_fee config)
    else premium
  else premium.

Definition compute_premium_fee (tx : Transaction) (config : FeeConfig) : Z :=
  foldl (premium_of config) 0 (msg_instructions (tx_message tx)).
End fees.

(** ** Charging *)

Record Books := mkBooks {
  bk_accounts : gmap Pubkey Account;
  bk_burned : Z;
}.

Inductive FeeError :=
| PayerNotFound
| FeeAccount (e : AccountError)
| FeeTreasuryNotSet
| RefundPayerNotFound.

Definition fee_account (r : result unit AccountError * Account) : result Account FeeError :=
  match r with (Ok _, a) => Ok a | (Err e, _) => Err (FeeAccount e) end.

(** The division both charging functions compute: the amount burned and the amount for the
    treasury. *)
Definition split_fee (config : FeeConfig) (total_fee priority_fee : Z) : Z * Z :=
  let base_portion := sat_sub total_fee priority_fee in
  let share percent := wrap64 (base_portion * percent / 100) in
  let base_burn := share (fc_fee_burn_percent config) in
  let base_producer := share (fc_fee_producer_percent config) in
  let base_voters := share (fc_fee_voters_percent config) in
  let base_community := share (fc_fee_community_percent config) in
  let base_allocated :=
    sat_add64 (sat_add64 (sat_add64 base_burn base_producer) base_voters) base_community in
  let base_treasury := sat_sub base_portion base_allocated in
  let priority_burn := priority_fee / 2 in
  let priority_producer := sat_sub priority_fee priority_burn in
  let burn_amount := sat_add64 base_burn priority_burn in
  let total_to_treasury :=
    sat_add64 (sat_add64 (sat_add64 (sat_add64 base_treasury base_producer) base_voters)
      base_community) priority_producer in
  (burn_amount, Z.min total_to_treasury (sat_sub total_fee burn_amount)).

Section charging.
Variable config : FeeConfig.
Variable treasury : option Pubkey.

(** The treasury's account, [Account::new(0, treasury)] when it does not exist. *)
Definition treasury_account (key : Pubkey) (accounts : gmap Pubkey Account) : Account :=
  default (Account_new 0 key) (accounts !! key).

(** On the store: the payer and the treasury are read before either is written. *)
Definition charge_fee_with_priority (payer : Pubkey) (total_fee priority_fee : Z) (b : Books)
  : result Books FeeError :=
  or_err (bk_accounts b !! payer) PayerNotFound (fun payer_account =>
  let? payer_account := fee_account (Account_deduct_spendable total_fee payer_account) in
  let '(burn_amount, capped_to_treasury) := split_fee config total_fee priority_fee in
  let? accounts :=
    if 0 <? capped_to_treasury then
      or_err treasury FeeTreasuryNotSet (fun key =>
      let? t := fee_account
        (Account_add_spendable capped_to_treasury (treasury_account key (bk_accounts b))) in
      Ok (<[key := t]> (<[payer := payer_account]> (bk_accounts b))))
    else Ok (<[payer := payer_account]> (bk_accounts b)) in
  Ok (mkBooks accounts (sat_add64 (bk_burned b) burn_amount))).

Definition charge_fee_direct (payer : Pubkey) (fee : Z) (b : Books) : result Books FeeError :=
  charge_fee_with_priority payer fee 0 b.

(** In a batch: the payer is written before the treasury is read. *)
Definition charge_fee_with_priority_in_batch (payer : Pubkey) (total_fee priority_fee : Z)
  (b : Books) : result Books FeeError :=
  or_err (bk_accounts b !! payer) PayerNotFound (fun payer_account =>
  let? payer_account := fee_account (Account_deduct_spendable total_fee payer_account) in
  let '(burn_amount, capped_to_treasury) := split_fee config total_fee priority_fee in
  let accounts := <[payer := payer_account]> (bk_accounts b) in
  let? accounts :=
    if 0 <? capped_to_treasury then
      or_err treasury FeeTreasuryNotSet (fun key =>
      let? t := fee_account
        (Account_add_spendable capped_to_treasury (treasury_account key accounts)) in
      Ok (<[key := t]> accounts))
    else Ok accounts in
  Ok (mkBooks accounts (sat_add64 (bk_burned b) burn_amount))).

Definition refund_premium (payer : Pubkey) (amount : Z) (b : Books) : result Books FeeError :=
  or_err (bk_accounts b !! payer) RefundPayerNotFound (fun payer_account =>
  let? payer_account := fee_account (Account_add_spendable amount payer_account) in
  Ok (mkBooks (<[payer := payer_account]> (bk_accounts b)) (bk_burned b))).
End charging.

(** ** Books *)

Definition spores_total (m : gmap Pubkey Account) : Z := map_sum ac_spores m.
Definition books_total (b : Books) : Z := spores_total (bk_accounts b) + bk_burned b.

(** What an account holds, nothing when it does not exist. *)
Definition held (x : Part) (k : Pubkey) (m : gmap Pubkey Account) : Z :=
  from_option (part x) 0 (m !! k).

Definition accounts_ok (m : gmap Pubkey Account) : Prop := map_Forall (fun _ a => account_wf a) m.

Record books_ok (b : Books) : Prop := {
  bo_accounts : accounts_ok (bk_accounts b);
  bo_burned : 0 <= bk_burned b;
  bo_total : books_total b <= u64_max;
}.

(** The account an operation starts from: the stored one, or a new empty one. *)
Definition account_or_new (k : Pubkey) (m : gmap Pubkey Account) : Account :=
  default (Account_new 0 k) (m !! k).

Lemma account_or_new_wf k m : accounts_ok m -> account_wf (account_or_new k m).
Proof.
  intros Hm. unfold account_or_new. destruct (m !! k) as [a|] eqn:Hk; simpl; [by apply (Hm k)|].
  split; vm_compute; congruence.
Qed.

Lemma account_or_new_held x k m : part x (account_or_new k m) = held x k m.
Proof. unfold account_or_new, held. destruct (m !! k); [done|]. by destruct x. Qed.

Lemma account_or_new_spores k m : from_option ac_spores 0 (m !! k) = ac_spores (account_or_new k m).
Proof. unfold account_or_new. by destruct (m !! k). Qed.

Lemma accounts_ok_total m : accounts_ok m -> 0 <= spores_total m.
Proof. intros Hm. apply map_sum_nonneg. intros k a Hk. destruct (Hm k a Hk). lia. Qed.

(** What an operation moves into the account. *)
Definition inflow (o : BalanceOp) (amount : Z) : Z :=
  flow o amount Spendable + flow o amount Staked + flow o amount Locked.

(** An operation on the account of [k], written back. *)
Lemma put_op o amount m k a' :
  accounts_ok m -> 0 <= amount -> balance_op o amount (account_or_new k m) = (Ok tt, a') ->
  let m' := <[k := a']> m in
  accounts_ok m' /\ funded o amount (account_or_new k m)
  /\ (forall x j, held x j m' = held x j m + (if decide (j = k) then flow o amount x else 0))
  /\ spores_total m' = spores_total m + inflow o amount.
Proof.
  intros Hm H0 Hop m'. pose proof (account_or_new_wf k m Hm) as Ha.
  pose proof (balance_op_spec o amount (account_or_new k m) Ha H0) as Hs. rewrite Hop in Hs.
  destruct Hs as (Ha' & [Hf _] & _ & Hx). specialize (Hx eq_refl). split_and!.
  - by apply map_Forall_insert_2.
  - by apply Hf.
  - intros x j. unfold held, m'. destruct (decide (j = k)) as [->|Hne].
    + rewrite lookup_insert_eq. simpl. rewrite Hx. by rewrite account_or_new_held.
    + rewrite lookup_insert_ne by done. lia.
  - unfold spores_total, m'. rewrite map_sum_put, account_or_new_spores.
    rewrite (awf_split _ Ha'), (awf_split _ Ha).
    pose proof (Hx Spendable) as H1. pose proof (Hx Staked) as H2. pose proof (Hx Locked) as H3.
    unfold inflow. simpl in H1, H2, H3. lia.
Qed.

(** No staked or locked balance changes. *)
Definition same_bonds (m m' : gmap Pubkey Account) : Prop :=
  forall x k, x <> Spendable -> held x k m' = held x k m.

#[global] Instance same_bonds_refl : Reflexive same_bonds.
Proof. by intros m. Qed.
#[global] Instance same_bonds_trans : Transitive same_bonds.
Proof. intros m1 m2 m3 H12 H23 x k Hx. by rewrite H23, H12. Qed.

Lemma same_bonds_total x m m' :
  same_bonds m m' -> x <> Spendable -> map_sum (part x) m' = map_sum (part x) m.
Proof. intros Hb Hx. apply map_sum_ext_default. intros k. by apply (Hb x k). Qed.

Lemma put_op_bonds o amount m k a' :
  (o = OpAdd \/ o = OpDeduct) -> accounts_ok m -> 0 <= amount ->
  balance_op o amount (account_or_new k m) = (Ok tt, a') -> same_bonds m (<[k := a']> m).
Proof.
  intros Ho Hm H0 Hop x j Hx. destruct (put_op o amount m k a' Hm H0 Hop) as (_ & _ & Hh & _).
  rewrite Hh. destruct Ho as [-> | ->], x; unfold flow; simpl; repeat case_decide; done || lia.
Qed.

Lemma fee_account_Ok r a : fee_account r = Ok a <-> r = (Ok tt, a).
Proof.
  destruct r as [[[]|e] a0]; simpl; split; try done; by intros [= ->].
Qed.

(** An operation that succeeds is one with its funds. *)
Lemma op_succeeds o amount a :
  account_wf a -> 0 <= amount -> funded o amount a -> exists a', balance_op o amount a = (Ok tt, a').
Proof.
  intros Ha H0 Hf. pose proof (balance_op_spec o amount a Ha H0) as Hs.
  destruct (balance_op o amount a) as [r a']. destruct Hs as (_ & [_ Hok] & _). rewrite Hok by done. eauto.
Qed.

Lemma sat_add64_small a b : a + b <= u64_max -> sat_add64 a b = a + b.
Proof. apply Z.min_l. Qed.

(** ** The division of a fee *)

(** The distribution does not hand out more than it has; [validate_distribution] enforces
    more, that the five percentages sum to one hundred. *)
Record fee_config_ok (c : FeeConfig) : Prop := {
  fco_burn : 0 <= fc_fee_burn_percent c;
  fco_producer : 0 <= fc_fee_producer_percent c;
  fco_voters : 0 <= fc_fee_voters_percent c;
  fco_community : 0 <= fc_fee_community_percent c;
  fco_sum : fc_fee_burn_percent c + fc_fee_producer_percent c + fc_fee_voters_percent c
            + fc_fee_community_percent c <= 100;
}.

Lemma validated_config_ok c :
  0 <= fc_fee_burn_percent c -> 0 <= fc_fee_producer_percent c -> 0 <= fc_fee_voters_percent c ->
  0 <= fc_fee_treasury_percent c -> 0 <= fc_fee_community_percent c ->
  FeeConfig_validate_distribution c = Ok tt -> fee_config_ok c.
Proof.
  intros H1 H2 H3 H4 H5. unfold FeeConfig_validate_distribution. rewrite and_then_Ok.
  intros ([] & _ & Ht). apply guard_Ok in Ht as [Ht _]. apply negb_false_iff, Z.eqb_eq in Ht.
  unfold sat_add64, u64_max in Ht. split; try done; lia.
Qed.

(** What is burned of a fee. *)
Definition burned_part (c : FeeConfig) (total priority : Z) : Z :=
  (total - priority) * fc_fee_burn_percent c / 100 + priority / 2.

Lemma split_fee_exact c total priority :
  fee_config_ok c -> 0 <= priority <= total -> total <= u64_max ->
  split_fee c total priority = (burned_part c total priority, total - burned_part c total priority)
  /\ 0 <= burned_part c total priority <= total.
Proof.
  intros [Hb Hp Hv Hc Hs] Hpr Ht. unfold split_fee, burned_part.
  replace (sat_sub total priority) with (total - priority) by (unfold sat_sub; lia).
  set (base := total - priority) in *. assert (0 <= base) by lia. unfold u64_max in Ht.
  assert (base * fc_fee_burn_percent c + base * fc_fee_producer_percent c
          + base * fc_fee_voters_percent c + base * fc_fee_community_percent c <= base * 100) as Hsum by nia.
  assert (0 <= base * fc_fee_burn_percent c /\ 0 <= base * fc_fee_producer_percent c
          /\ 0 <= base * fc_fee_voters_percent c /\ 0 <= base * fc_fee_community_percent c) as Hpos by nia.
  assert (forall x, 0 <= x -> 0 <= x / 100 /\ 100 * (x / 100) <= x) as Hdiv by (intros; divlia).
  assert (0 <= priority / 2 <= priority) as Hhalf by divlia.
  destruct Hpos as (Hpb & Hpp & Hpv & Hpc). apply Hdiv in Hpb, Hpp, Hpv, Hpc. clear Hdiv.
  revert Hsum Hpb Hpp Hpv Hpc Hhalf.
  generalize (base * fc_fee_burn_percent c) (base * fc_fee_producer_percent c)
    (base * fc_fee_voters_percent c) (base * fc_fee_community_percent c). intros xb xp xv xc.
  generalize (xb / 100) (xp / 100) (xv / 100) (xc / 100) (priority / 2). intros qb qp qv qc h Hsum Hpb Hpp Hpv Hpc Hh.
  rewrite !wrap_small by lia. unfold sat_sub.
  rewrite (sat_add64_small qb qp), (sat_add64_small (qb + qp) qv), (sat_add64_small (qb + qp + qv) qc),
    (sat_add64_small qb h), (Z.max_l (base - (qb + qp + qv + qc))), (Z.max_l (priority - h))
    by (unfold u64_max; lia).
  set (rest := base - (qb + qp + qv + qc)).
  rewrite (sat_add64_small rest qp), (sat_add64_small (rest + qp) qv), (sat_add64_small (rest + qp + qv) qc),
    (sat_add64_small _ (priority - h)), Z.max_l by (unfold u64_max; lia).
  split; [f_equal|]; lia.
Qed.

(** ** Charging conserves *)

Lemma held_le_total x k m : accounts_ok m -> held x k m <= spores_total m.
Proof.
  intros Hm. unfold held. destruct (m !! k) as [a|] eqn:Hk; simpl; [|by apply accounts_ok_total].
  assert (ac_spores a <= spores_total m) as Ha.
  { apply (map_sum_lookup ac_spores m k a); [|done]. intros j c Hj. destruct (Hm j c Hj). lia. }
  destruct (Hm k a Hk). destruct x; simpl; lia.
Qed.

Lemma spores_le_total k m : accounts_ok m -> ac_spores (account_or_new k m) <= spores_total m.
Proof.
  intros Hm. rewrite <- account_or_new_spores. destruct (m !! k) as [a|] eqn:Hk; simpl;
    [|by apply accounts_ok_total].
  apply (map_sum_lookup ac_spores m k a); [|done]. intros j c Hj. destruct (Hm j c Hj). lia.
Qed.

Lemma inflow_add amount : inflow OpAdd amount = amount.
Proof. unfold inflow, flow. simpl. repeat case_decide; done || lia. Qed.
Lemma inflow_deduct amount : inflow OpDeduct amount = - amount.
Proof. unfold inflow, flow. simpl. repeat case_decide; done || lia. Qed.

(** The change of a balance by a fee. *)
Definition fee_change (treasury : option Pubkey) (payer : Pubkey) (total to_treasury : Z)
  (x : Part) (k : Pubkey) : Z :=
  match x with
  | Spendable =>
      (if decide (treasury = Some k) then to_treasury else 0) - (if decide (k = payer) then total else 0)
  | _ => 0
  end.

Section charge.
Context (config : FeeConfig) (treasury : option Pubkey) (payer : Pubkey) (total priority : Z) (b : Books).
Hypothesis Hconfig : fee_config_ok config.
Hypothesis Hb : books_ok b.
Hypothesis Hp : 0 <= priority <= total.
Hypothesis Ht : total <= u64_max.

(** The payer is debited. *)
Lemma debit_payer a a' :
  bk_accounts b !! payer = Some a -> fee_account (Account_deduct_spendable total a) = Ok a' ->
  let m := <[payer := a']> (bk_accounts b) in
  accounts_ok m /\ total <= held Spendable payer (bk_accounts b)
  /\ (forall x k, held x k m = held x k (bk_accounts b)
                   + match x with Spendable => if decide (k = payer) then - total else 0 | _ => 0 end)
  /\ spores_total m = spores_total (bk_accounts b) - total.
Proof using Hb Hp.
  intros Ha Hd%fee_account_Ok. pose proof Hb as [Hm _ _].
  assert (account_or_new payer (bk_accounts b) = a) as Hor by (unfold account_or_new; by rewrite Ha).
  destruct (put_op OpDeduct total (bk_accounts b) payer a') as (Hok & Hf & Hheld & Hsum);
    [done|lia|by rewrite Hor|].
  split_and!; [done| | |rewrite Hsum, inflow_deduct; lia].
  - rewrite <- account_or_new_held. exact Hf.
  - intros x k. rewrite Hheld. destruct x; unfold flow; simpl; repeat case_decide; done || lia.
Qed.

Lemma deduct_refused amount a e :
  account_wf a -> fee_account (Account_deduct_spendable amount a) = Err e ->
  bk_accounts b !! payer = Some a ->
  (exists h, e = FeeAccount (InsufficientSpendable h amount))
  /\ held Spendable payer (bk_accounts b) < amount.
Proof using Type.
  intros [] Hd Ha. unfold held. rewrite Ha. cbn [from_option part].
  unfold fee_account, Account_deduct_spendable, checked_sub in Hd.
  destruct (Z.leb_spec amount (ac_spendable a)) as [Hle|Hlt].
  - destruct (Z.leb_spec amount (ac_spores a)); [discriminate Hd|lia].
  - injection Hd as <-. eauto.
Qed.

Lemma charge_batch_spec :
  let burn := burned_part config total priority in
  match charge_fee_with_priority_in_batch config treasury payer total priority b with
  | Ok b' =>
      books_ok b' /\ books_total b' = books_total b /\ bk_burned b' = bk_burned b + burn
      /\ total <= held Spendable payer (bk_accounts b)
      /\ forall x k, held x k (bk_accounts b')
                      = held x k (bk_accounts b) + fee_change treasury payer total (total - burn) x k
  | Err e =>
      e = PayerNotFound /\ bk_accounts b !! payer = None
      \/ (exists h, e = FeeAccount (InsufficientSpendable h total)) /\ held Spendable payer (bk_accounts b) < total
      \/ e = FeeTreasuryNotSet /\ treasury = None /\ burn < total
  end.
Proof using Hconfig Hb Hp Ht.
  intros burn. destruct (split_fee_exact config total priority Hconfig Hp Ht) as [Hsplit Hburn]. fold burn in Hsplit, Hburn.
  pose proof Hb as [Hm Hbd Htot]. unfold books_total in Htot.
  unfold charge_fee_with_priority_in_batch.
  destruct (bk_accounts b !! payer) as [a|] eqn:Ha; cbn [or_err]; [|by left].
  destruct (fee_account (Account_deduct_spendable total a)) as [a'|e] eqn:Hd; cbn [and_then].
  2:{ right; left. exact (deduct_refused total a e (Hm payer a Ha) Hd Ha). }
  destruct (debit_payer a a' Ha Hd) as (Hok1 & Hfund & Hheld1 & Hsum1). rewrite Hsplit.
  set (m := <[payer := a']> (bk_accounts b)) in *.
  assert (sat_add64 (bk_burned b) burn = bk_burned b + burn) as Hsat.
  { apply sat_add64_small. pose proof (accounts_ok_total m Hok1). lia. }
  destruct (Z.ltb_spec 0 (total - burn)) as [Hpos|Hz].
  - destruct treasury as [key|]; cbn [or_err]; [|right; right; split_and!; done || lia].
    destruct (op_succeeds OpAdd (total - burn) (account_or_new key m)) as [t Hop];
      [by apply account_or_new_wf|lia| |].
    { unfold funded. simpl. pose proof (spores_le_total key m Hok1). unfold u64_max in *. lia. }
    change (treasury_account key m) with (account_or_new key m).
    change (Account_add_spendable (total - burn)) with (balance_op OpAdd (total - burn)). rewrite Hop. simpl.
    destruct (put_op OpAdd (total - burn) m key t Hok1 ltac:(lia) Hop) as (Hok2 & _ & Hheld2 & Hsum2).
    rewrite inflow_add in Hsum2. rewrite Hsat.
    assert (books_total (mkBooks (<[key := t]> m) (bk_burned b + burn)) = books_total b) as Heq.
    { unfold books_total. simpl. lia. }
    split_and!; [split; [done|simpl; lia|rewrite Heq; exact Htot]|done|done|done|].
    intros x k. simpl. rewrite Hheld2, Hheld1. unfold fee_change, flow.
    destruct x; simpl; repeat case_decide; simplify_eq; done || lia.
  - cbn [and_then]. rewrite Hsat.
    assert (books_total (mkBooks m (bk_burned b + burn)) = books_total b) as Heq.
    { unfold books_total. simpl. lia. }
    split_and!; [split; [done|simpl; lia|rewrite Heq; exact Htot]|done|done|done|].
    intros x k. simpl. rewrite Hheld1. unfold fee_change.
    destruct x; repeat case_decide; simplify_eq; done || lia.
Qed.
End charge.

(** When the treasury does not pay, the order of reads and writes does not matter. *)
Lemma charge_paths_agree config treasury payer total priority b :
  treasury <> Some payer ->
  charge_fee_with_priority config treasury payer total priority b
  = charge_fee_with_priority_in_batch config treasury payer total priority b.
Proof.
  intros Hne. unfold charge_fee_with_priority, charge_fee_with_priority_in_batch.
  destruct (bk_accounts b !! payer) as [a|]; [|done]. cbn [or_err].
  destruct (fee_account _) as [a'|]; [|done]. cbn [and_then].
  destruct (split_fee config total priority) as [burn to]. destruct (0 <? to); [|done].
  destruct treasury as [key|]; [|done]. cbn [or_err]. unfold treasury_account.
  rewrite lookup_insert_ne by congruence. done.
Qed.

(** Charging a fee in a block's batch: it succeeds exactly when the payer can pay it and a
    treasury exists for its share; it then debits the payer the whole fee, burns the
    configured percentage of the base part and half of the priority part, credits the
    treasury with all the rest, touches no other balance, and conserves balances plus burned
    supply.  Charging on the store gives the same books whenever the payer is not the
    treasury. *)
Theorem fee_charge_exact config treasury payer total priority b :
  fee_config_ok config -> books_ok b -> 0 <= priority <= total -> total <= u64_max ->
  let burn := burned_part config total priority in
  let r := charge_fee_with_priority_in_batch config treasury payer total priority b in
  ((exists b', r = Ok b')
   <-> is_Some (bk_accounts b !! payer) /\ total <= held Spendable payer (bk_accounts b)
       /\ (burn < total -> is_Some treasury))
  /\ (forall b', r = Ok b' ->
        books_ok b' /\ books_total b' = books_total b /\ bk_burned b' = bk_burned b + burn
        /\ forall x k, held x k (bk_accounts b')
                        = held x k (bk_accounts b) + fee_change treasury payer total (total - burn) x k)
  /\ (treasury <> Some payer ->
      charge_fee_with_priority config treasury payer total priority b = r).
Proof.
  intros Hc Hb Hp Ht burn r.
  pose proof (charge_batch_spec config treasury payer total priority b Hc Hb Hp Ht) as Hs. fold r burn in Hs.
  split_and!; [| |intros Hne; by apply charge_paths_agree].
  - split.
    + intros [b' Hr]. rewrite Hr in Hs. destruct Hs as (_ & _ & _ & Hf & _).
      unfold r, charge_fee_with_priority_in_batch in Hr. apply or_err_Ok in Hr as (a & Ha & Hr).
      split_and!; [eauto|done|]. intros Hlt. apply and_then_Ok in Hr as (a' & _ & Hr).
      destruct (split_fee_exact config total priority Hc Hp Ht) as [Hsplit _]. rewrite Hsplit in Hr.
      fold burn in Hr. destruct (Z.ltb_spec 0 (total - burn)); [|lia].
      apply and_then_Ok in Hr as (m & Hm & _). apply or_err_Ok in Hm as (key & -> & _). eauto.
    + intros ([a Ha] & Hf & Htr). destruct r as [b'|e]; [eauto|]. exfalso.
      destruct Hs as [[_ Hn]|[[_ Hlt]|(_ & -> & Hlt)]]; [congruence|lia|]. by destruct (Htr Hlt).
  - intros b' Hr. rewrite Hr in Hs. destruct Hs as (? & ? & ? & _ & ?). done.
Qed.

(** When the treasury itself pays a fee on the store, its account is read twice before it
    is written, and the credit overwrites the debit: the payment leaves the treasury richer
    and the books grow by the whole fee, where the batch conserves them. *)
Theorem direct_charge_mints config payer total priority b b' :
  fee_config_ok config -> books_ok b -> 0 <= priority <= total -> total <= u64_max ->
  burned_part config total priority < total ->
  charge_fee_with_priority config (Some payer) payer total priority b = Ok b' ->
  books_total b' = books_total b + total
  /\ exists b'', charge_fee_with_priority_in_batch config (Some payer) payer total priority b = Ok b''
       /\ books_total b'' = books_total b /\ b'' <> b'.
Proof.
  intros Hc Hb Hp Ht Hlt Hr. unfold charge_fee_with_priority in Hr. pose proof Hb as [Hm Hbd Htot].
  apply or_err_Ok in Hr as (a & Ha & Hr). apply and_then_Ok in Hr as (a' & Hd & Hr).
  destruct (split_fee_exact config total priority Hc Hp Ht) as [Hsplit Hburn]. rewrite Hsplit in Hr.
  set (burn := burned_part config total priority) in *.
  destruct (Z.ltb_spec 0 (total - burn)); [|lia]. apply and_then_Ok in Hr as (m & Hmm & Hr).
  cbn [or_err] in Hmm. apply and_then_Ok in Hmm as (t & Hop & Hmm). injection Hmm as <-. injection Hr as <-.
  apply fee_account_Ok in Hop.
  destruct (debit_payer payer total priority b Hb Hp a a' Ha Hd) as (Hok1 & Hfund & _ & _).
  destruct (put_op OpAdd (total - burn) (bk_accounts b) payer t Hm ltac:(lia) Hop) as (Hok & _ & _ & Hsum).
  rewrite inflow_add in Hsum.
  assert (books_total (mkBooks (<[payer := t]> (<[payer := a']> (bk_accounts b)))
            (sat_add64 (bk_burned b) burn)) = books_total b + total) as Heq.
  { unfold books_total in *. simpl. rewrite insert_insert_eq.
    rewrite sat_add64_small; [lia|]. pose proof (held_le_total Spendable payer _ Hm). lia. }
  split; [exact Heq|].
  pose proof (charge_batch_spec config (Some payer) payer total priority b Hc Hb Hp Ht) as Hs.
  destruct (charge_fee_with_priority_in_batch config (Some payer) payer total priority b) as [b''|e].
  - exists b''. destruct Hs as (_ & Hcons & _). split_and!; [done|done|]. intros ->.
    rewrite Heq in Hcons. pose proof (Z.le_lt_trans 0 burn total (proj1 Hburn) Hlt). lia.
  - exfalso. destruct Hs as [[_ Hn]|[[_ Hn]|(_ & Hn & _)]]; [congruence|lia|done].
Qed.

(** ** Sample books *)

Module SampleFees.
Definition books : Books := mkBooks {[1 := Account_new 5 1; 2 := Account_new 7 2]} 100.
Definition config : FeeConfig := FeeConfig_default_from_constants.

Lemma books_are_ok : books_ok books.
Proof.
  split; [|vm_compute; congruence..].
  apply map_Forall_insert_2; [split; vm_compute; congruence|].
  apply map_Forall_insert_2; [split; vm_compute; congruence|]. apply map_Forall_empty.
Qed.

Lemma config_is_ok : fee_config_ok config.
Proof. split; vm_compute; congruence. Qed.

Definition charged : Books :=
  match charge_fee_with_priority_in_batch config (Some 2) 1 1500000 500000 books with
  | Ok b => b | Err _ => books
  end.

Lemma fee_charge_exact_witness :
  books_total charged = books_total books /\ bk_burned charged = 650100
  /\ held Spendable 2 (bk_accounts charged) = 7000850000.
Proof.
  destruct (fee_charge_exact config (Some 2) 1 1500000 500000 books config_is_ok books_are_ok
    ltac:(lia) ltac:(vm_compute; congruence)) as (_ & Hok & _).
  destruct (Hok charged ltac:(vm_compute; reflexivity)) as (_ & Ht & Hb & Hh).
  split_and!; [exact Ht|rewrite Hb; vm_compute; reflexivity|rewrite Hh; vm_compute; reflexivity].
Defined.

Definition treasury_pays : Books :=
  match charge_fee_with_priority config (Some 2) 2 1000000 0 books with
  | Ok b => b | Err _ => books
  end.

Lemma direct_charge_mints_witness : books_total treasury_pays = books_total books + 1000000.
Proof.
  apply (direct_charge_mints config 2 1000000 0 books treasury_pays config_is_ok books_are_ok);
    [lia|vm_compute; congruence|vm_compute; reflexivity|vm_compute; reflexivity].
Defined.
End SampleFees.
