(* ===== verification/Stake.v ===== *)
(** * Stakes

    Models the stake records of [core/src/consensus.rs]: [StakeInfo] with its
    bootstrap-debt accounting, the [StakePool] record, and the pool operations
    the consensus engine and the slashing code call. *)

From S2P Require Import Prelude Crypto.
From stdpp Require Import base tactics numbers list gmap.
From Stdlib Require Import ZArith Lia.

Local Open Scope Z_scope.

Definition MIN_VALIDATOR_STAKE : Z := 75000 * 1000000000.
Definition BOOTSTRAP_GRANT_AMOUNT : Z := 100000 * 1000000000.
Definition MAX_VALIDATOR_STAKE : Z := 1000000 * 1000000000.
Definition MAX_BOOTSTRAP_VALIDATORS : Z := 200.
Definition MAX_BOOTSTRAP_SLOTS : Z := 547 * 216000.
Definition UPTIME_BONUS_THRESHOLD_BPS : Z := 9500.
Definition PERFORMANCE_BONUS_BPS : Z := 15000.
Definition UNSTAKE_COOLDOWN_SLOTS : Z := 1512000.

Inductive BootstrapStatus := Bootstrapping | FullyVested.

#[global] Instance BootstrapStatus_eq_dec : EqDecision BootstrapStatus.
Proof. solve_decision. Defined.

Record UnstakeRequest := mkUnstakeRequest {
  ur_validator : Pubkey;
  ur_staker : Pubkey;
  ur_amount : Z;
  ur_unlock_slot : Z;
}.

Record StakeInfo := mkStakeInfo {
  si_validator : Pubkey;
  si_amount : Z;
  si_earned_amount : Z;
  si_bootstrap_debt : Z;
  si_locked_until : Z;
  si_is_active : bool;
  si_delegated_amount : Z;
  si_rewards_earned : Z;
  si_last_reward_slot : Z;
  si_status : BootstrapStatus;
  si_blocks_produced : Z;
  si_graduation_slot : option Z;
  si_total_claimed : Z;
  si_total_debt_repaid : Z;
  si_machine_fingerprint : Z;
  si_start_slot : Z;
  si_bootstrap_index : Z;
  si_last_migration_slot : Z;
  si_penalty_boost_until : Z;
}.

(** Staking V2 epoch accounting, frozen at an epoch boundary. *)
Record EpochStakeAccumulator := mkEpochStakeAccumulator {
  acc_amount : Z;
  acc_weighted_slot_spores : Z;
  acc_last_checkpoint_slot : Z;
}.

Record ValidatorEpochAccounting := mkValidatorEpochAccounting {
  vea_validator : Pubkey;
  vea_self_bond : EpochStakeAccumulator;
  vea_delegations : gmap Pubkey EpochStakeAccumulator;
  vea_production_baseline : Z;
  vea_consensus_power : Z;
  vea_leader_weight : Z;
  vea_commission_bps : Z;
}.

Record PendingValidatorCommission := mkPendingValidatorCommission {
  pvc_commission_bps : Z;
  pvc_activation_epoch : Z;
}.

Record ValidatorCommissionState := mkValidatorCommissionState {
  vcs_current_bps : Z;
  vcs_pending : option PendingValidatorCommission;
  vcs_last_activated_epoch : Z;
}.

Record ValidatorSlashExposure := mkValidatorSlashExposure {
  vse_self_bond : Z;
  vse_delegations : gmap Pubkey Z;
}.

Record EpochSlashExposureSnapshot := mkEpochSlashExposureSnapshot {
  ess_epoch : Z;
  ess_start_slot : Z;
  ess_validators : gmap Pubkey ValidatorSlashExposure;
}.

Record StakingV2EpochState := mkStakingV2EpochState {
  v2_version : Z;
  v2_activation_slot : Z;
  v2_current_epoch : Z;
  v2_epoch_start_slot : Z;
  v2_validators : gmap Pubkey ValidatorEpochAccounting;
  v2_commissions : gmap Pubkey ValidatorCommissionState;
  v2_last_settled_epoch : option Z;
  v2_slash_exposure_snapshots : gmap Z EpochSlashExposureSnapshot;
}.

Record StakePool := mkStakePool {
  sp_stakes : gmap Pubkey StakeInfo;
  sp_total_staked : Z;
  sp_total_slashed : Z;
  sp_unstake_requests : gmap (Pubkey * Pubkey) UnstakeRequest;
  sp_delegations : gmap Pubkey (gmap Pubkey Z);
  sp_fingerprint_registry : gmap Z Pubkey;
  sp_bootstrap_grants_issued : Z;
  sp_staking_v2_state : option StakingV2EpochState;
}.

Definition eta_StakeInfo (r : StakeInfo) : StakeInfo :=
  mkStakeInfo (si_validator r) (si_amount r) (si_earned_amount r) (si_bootstrap_debt r)
    (si_locked_until r) (si_is_active r) (si_delegated_amount r) (si_rewards_earned r)
    (si_last_reward_slot r) (si_status r) (si_blocks_produced r) (si_graduation_slot r)
    (si_total_claimed r) (si_total_debt_repaid r) (si_machine_fingerprint r) (si_start_slot r)
    (si_bootstrap_index r) (si_last_migration_slot r) (si_penalty_boost_until r).

Definition eta_StakePool (r : StakePool) : StakePool :=
  mkStakePool (sp_stakes r) (sp_total_staked r) (sp_total_slashed r) (sp_unstake_requests r)
    (sp_delegations r) (sp_fingerprint_registry r) (sp_bootstrap_grants_issued r)
    (sp_staking_v2_state r).

Definition set_si_amount : Z -> StakeInfo -> StakeInfo := ltac:(setter eta_StakeInfo si_amount).
Definition set_si_earned_amount : Z -> StakeInfo -> StakeInfo := ltac:(setter eta_StakeInfo si_earned_amount).
Definition set_si_bootstrap_debt : Z -> StakeInfo -> StakeInfo := ltac:(setter eta_StakeInfo si_bootstrap_debt).
Definition set_si_is_active : bool -> StakeInfo -> StakeInfo := ltac:(setter eta_StakeInfo si_is_active).
Definition set_si_rewards_earned : Z -> StakeInfo -> StakeInfo := ltac:(setter eta_StakeInfo si_rewards_earned).
Definition set_si_last_reward_slot : Z -> StakeInfo -> StakeInfo :=
  ltac:(setter eta_StakeInfo si_last_reward_slot).
Definition set_si_status : BootstrapStatus -> StakeInfo -> StakeInfo := ltac:(setter eta_StakeInfo si_status).
Definition set_si_graduation_slot : option Z -> StakeInfo -> StakeInfo :=
  ltac:(setter eta_StakeInfo si_graduation_slot).
Definition set_si_total_claimed : Z -> StakeInfo -> StakeInfo := ltac:(setter eta_StakeInfo si_total_claimed).
Definition set_si_total_debt_repaid : Z -> StakeInfo -> StakeInfo :=
  ltac:(setter eta_StakeInfo si_total_debt_repaid).
Definition set_si_penalty_boost_until : Z -> StakeInfo -> StakeInfo :=
  ltac:(setter eta_StakeInfo si_penalty_boost_until).
Definition set_sp_stakes : gmap Pubkey StakeInfo -> StakePool -> StakePool :=
  ltac:(setter eta_StakePool sp_stakes).
Definition set_sp_total_staked : Z -> StakePool -> StakePool := ltac:(setter eta_StakePool sp_total_staked).
Definition set_sp_total_slashed : Z -> StakePool -> StakePool := ltac:(setter eta_StakePool sp_total_slashed).

(** ** One validator's stake *)

Definition StakeInfo_with_bootstrap_index
  (validator : Pubkey) (amount current_slot bootstrap_index : Z) : StakeInfo :=
  let is_bootstrap :=
    (bootstrap_index <? MAX_BOOTSTRAP_VALIDATORS) && (amount =? BOOTSTRAP_GRANT_AMOUNT) in
  let bootstrap_debt := if is_bootstrap then amount else 0 in
  {| si_validator := validator;
     si_amount := amount;
     si_earned_amount := 0;
     si_bootstrap_debt := bootstrap_debt;
     si_locked_until := wrap64 (current_slot + 1000);
     si_is_active := MIN_VALIDATOR_STAKE <=? amount;
     si_delegated_amount := 0;
     si_rewards_earned := 0;
     si_last_reward_slot := current_slot;
     si_status := if 0 <? bootstrap_debt then Bootstrapping else FullyVested;
     si_blocks_produced := 0;
     si_graduation_slot := None;
     si_total_claimed := 0;
     si_total_debt_repaid := 0;
     si_machine_fingerprint := 0;
     si_start_slot := current_slot;
     si_bootstrap_index := bootstrap_index;
     si_last_migration_slot := 0;
     si_penalty_boost_until := 0 |}.

Definition StakeInfo_new (validator : Pubkey) (amount current_slot : Z) : StakeInfo :=
  StakeInfo_with_bootstrap_index validator amount current_slot u64_max.

Definition StakeInfo_total_stake (s : StakeInfo) : Z :=
  sat_add64 (si_amount s) (si_delegated_amount s).

Definition StakeInfo_meets_minimum (s : StakeInfo) : bool :=
  MIN_VALIDATOR_STAKE <=? StakeInfo_total_stake s.

Definition StakeInfo_slash (amount : Z) (s : StakeInfo) : Z * StakeInfo :=
  let slashed := Z.min amount (si_amount s) in
  if (slashed =? 0) || (si_amount s =? 0) then (0, s)
  else
    let new_amount := sat_sub (si_amount s) slashed in
    let s := set_si_earned_amount
               (wrap64 (si_earned_amount s * new_amount / si_amount s)) s in
    let s := set_si_amount new_amount s in
    let s := set_si_is_active (StakeInfo_meets_minimum s) s in
    (slashed, s).

Definition StakeInfo_add_reward (reward slot : Z) (s : StakeInfo) : StakeInfo :=
  let s := set_si_rewards_earned (sat_add64 (si_rewards_earned s) reward) s in
  set_si_last_reward_slot slot s.

Definition StakeInfo_uptime_bps (current_slot num_validators : Z) (s : StakeInfo) : Z :=
  let slots_active := sat_sub current_slot (si_start_slot s) in
  if slots_active =? 0 then 0
  else
    let num_val := Z.max num_validators 1 in
    let expected_blocks := slots_active / num_val in
    if expected_blocks =? 0 then (if 0 <? si_blocks_produced s then 10000 else 0)
    else Z.min (sat_mul64 (si_blocks_produced s) 10000 / expected_blocks) 10000.

(** The share of a reward that repays bootstrap debt, and the stake record after
    an expired penalty boost is cleared. *)
Definition StakeInfo_debt_fraction (total_reward current_slot num_validators : Z) (s : StakeInfo)
  : Z * StakeInfo :=
  if (0 <? si_penalty_boost_until s) && (current_slot <? si_penalty_boost_until s) then
    (wrap64 (total_reward * 90 / 100), s)
  else
    let s :=
      if (0 <? si_penalty_boost_until s) && (si_penalty_boost_until s <=? current_slot)
      then set_si_penalty_boost_until 0 s else s in
    if UPTIME_BONUS_THRESHOLD_BPS <=? StakeInfo_uptime_bps current_slot num_validators s then
      let base_half := total_reward / 2 in
      (wrap64 (base_half * PERFORMANCE_BONUS_BPS / 10000), s)
    else (total_reward / 2, s).

(** Returns (liquid amount, debt payment). *)
Definition StakeInfo_claim_rewards (current_slot num_validators : Z) (s : StakeInfo)
  : (Z * Z) * StakeInfo :=
  let total_reward := si_rewards_earned s in
  let s := set_si_rewards_earned 0 s in
  if 0 <? si_bootstrap_debt s then
    if sat_add64 (si_start_slot s) MAX_BOOTSTRAP_SLOTS <=? current_slot then
      let s := set_si_bootstrap_debt 0 s in
      let s := set_si_status FullyVested s in
      let s := set_si_graduation_slot (Some current_slot) s in
      let s := set_si_penalty_boost_until 0 s in
      let s := set_si_total_claimed (sat_add64 (si_total_claimed s) total_reward) s in
      ((total_reward, 0), s)
    else
      let '(debt_fraction, s) :=
        StakeInfo_debt_fraction total_reward current_slot num_validators s in
      let paid := Z.min debt_fraction (si_bootstrap_debt s) in
      let s := set_si_bootstrap_debt (wrap64 (si_bootstrap_debt s - paid)) s in
      let s := set_si_earned_amount (sat_add64 (si_earned_amount s) paid) s in
      let s := set_si_total_debt_repaid (sat_add64 (si_total_debt_repaid s) paid) s in
      let liquid := wrap64 (total_reward - paid) in
      let s := set_si_total_claimed (sat_add64 (si_total_claimed s) total_reward) s in
      let s :=
        if si_bootstrap_debt s =? 0 then
          set_si_penalty_boost_until 0
            (set_si_graduation_slot (Some current_slot) (set_si_status FullyVested s))
        else s in
      ((liquid, paid), s)
  else
    let s := set_si_total_claimed (sat_add64 (si_total_claimed s) total_reward) s in
    ((total_reward, 0), s).

Definition StakeInfo_is_fully_vested (s : StakeInfo) : bool :=
  bool_decide (si_status s = FullyVested).

Definition StakeInfo_vesting_progress (s : StakeInfo) : Z :=
  if (si_earned_amount s =? 0) && (si_bootstrap_debt s =? 0) then 100
  else
    let total_bootstrap := wrap64 (si_earned_amount s + si_bootstrap_debt s) in
    if total_bootstrap =? 0 then 100
    else wrap64 (si_earned_amount s * 100 / total_bootstrap).

Inductive StakeError :=
| MustBeVestedToAdd
| MustBeVestedToUnstake
| ExceedsMaximumStake
| TopUpZero
| InvalidUnstakeAmount
| UnstakeDeadlineOverflow.

Definition StakeInfo_add_stake (additional : Z) (s : StakeInfo) : result StakeInfo StakeError :=
  if negb (StakeInfo_is_fully_vested s) then Err MustBeVestedToAdd
  else if sat_sub MAX_VALIDATOR_STAKE (si_amount s) <? additional then Err ExceedsMaximumStake
  else Ok (set_si_amount (sat_add64 (si_amount s) additional) s).

Definition StakeInfo_top_up_stake (additional : Z) (s : StakeInfo)
  : result (Z * StakeInfo) StakeError :=
  if additional =? 0 then Err TopUpZero
  else if sat_sub MAX_VALIDATOR_STAKE (si_amount s) <? additional then Err ExceedsMaximumStake
  else
    let s := set_si_amount (sat_add64 (si_amount s) additional) s in
    let s := set_si_is_active (StakeInfo_meets_minimum s) s in
    Ok (si_amount s, s).

Definition StakeInfo_request_unstake (amount current_slot : Z) (staker : Pubkey) (s : StakeInfo)
  : result UnstakeRequest StakeError :=
  if negb (StakeInfo_is_fully_vested s) then Err MustBeVestedToUnstake
  else if (amount =? 0) || (si_amount s <? amount) then Err InvalidUnstakeAmount
  else
    or_err (checked_add64 current_slot UNSTAKE_COOLDOWN_SLOTS) UnstakeDeadlineOverflow
      (fun unlock_slot => Ok (mkUnstakeRequest (si_validator s) staker amount unlock_slot)).

(** ** The pool *)

Definition StakePool_new : StakePool := mkStakePool ∅ 0 0 ∅ ∅ ∅ 0 None.

Definition StakePool_get_stake (p : StakePool) (validator : Pubkey) : option StakeInfo :=
  sp_stakes p !! validator.

Definition StakePool_staking_v2_leader_weight (p : StakePool) (validator : Pubkey) : option Z :=
  match sp_staking_v2_state p with
  | None => None
  | Some st => vea_leader_weight <$> v2_validators st !! validator
  end.

Definition StakePool_staking_v2_consensus_power (p : StakePool) (validator : Pubkey) : option Z :=
  match sp_staking_v2_state p with
  | None => None
  | Some st => vea_consensus_power <$> v2_validators st !! validator
  end.

Definition StakePool_slash_validator (validator : Pubkey) (amount : Z) (p : StakePool)
  : Z * StakePool :=
  match sp_stakes p !! validator with
  | Some stake_info =>
      let '(slashed, stake_info) := StakeInfo_slash amount stake_info in
      let p := set_sp_stakes (<[validator := stake_info]> (sp_stakes p)) p in
      let p := set_sp_total_staked (sat_sub (sp_total_staked p) slashed) p in
      let p := set_sp_total_slashed (sat_add64 (sp_total_slashed p) slashed) p in
      (slashed, p)
  | None => (0, p)
  end.

(** ** Accounting lemmas *)

(** The amounts of a stake record are 64-bit. *)
Record StakeInfo_wf (s : StakeInfo) : Prop := {
  wf_amount : is_u64 (si_amount s);
  wf_earned : is_u64 (si_earned_amount s);
  wf_debt : is_u64 (si_bootstrap_debt s);
  wf_delegated : is_u64 (si_delegated_amount s);
  wf_rewards : is_u64 (si_rewards_earned s);
  wf_claimed : is_u64 (si_total_claimed s);
  wf_repaid : is_u64 (si_total_debt_repaid s);
}.

Lemma StakeInfo_debt_fraction_bound R c n s :
  is_u64 R -> 0 <= (StakeInfo_debt_fraction R c n s).1 <= R.
Proof.
  unfold is_u64. intros HR. unfold StakeInfo_debt_fraction, PERFORMANCE_BONUS_BPS.
  assert (0 <= R * 90 / 100 <= R) by divlia.
  assert (0 <= R / 2 <= R) by divlia.
  assert (0 <= R / 2 * 15000 / 10000 <= R) by divlia.
  repeat case_match; simpl; rewrite ?wrap_small by lia; lia.
Qed.

Lemma StakeInfo_debt_fraction_frame R c n s :
  let s' := (StakeInfo_debt_fraction R c n s).2 in
  si_bootstrap_debt s' = si_bootstrap_debt s /\ si_earned_amount s' = si_earned_amount s
  /\ si_amount s' = si_amount s /\ si_rewards_earned s' = si_rewards_earned s
  /\ si_total_claimed s' = si_total_claimed s /\ si_total_debt_repaid s' = si_total_debt_repaid s
  /\ si_delegated_amount s' = si_delegated_amount s /\ si_status s' = si_status s.
Proof. unfold StakeInfo_debt_fraction. repeat case_match; done. Qed.

Lemma sat_add64_u64 a b : is_u64 a -> 0 <= b -> is_u64 (sat_add64 a b).
Proof. unfold_ints. lia. Qed.

(** Claiming rewards conserves them: the liquid payout and the debt payment
    sum to the pending rewards, the payment reduces the bootstrap debt and is
    credited to the earned amount and the repaid total, the self-bond does not
    change, and a validator whose debt is cleared, by payment or because the
    bootstrap period is over, graduates at the current slot. *)
Lemma claim_rewards_conserves s c n :
  StakeInfo_wf s ->
  let '((liquid, paid), s') := StakeInfo_claim_rewards c n s in
  liquid + paid = si_rewards_earned s /\ 0 <= liquid /\ 0 <= paid <= si_bootstrap_debt s
  /\ si_rewards_earned s' = 0
  /\ si_earned_amount s' = sat_add64 (si_earned_amount s) paid
  /\ si_total_debt_repaid s' = sat_add64 (si_total_debt_repaid s) paid
  /\ si_total_claimed s' = sat_add64 (si_total_claimed s) (si_rewards_earned s)
  /\ si_amount s' = si_amount s
  /\ (si_bootstrap_debt s' = si_bootstrap_debt s - paid
      \/ (paid = 0 /\ si_bootstrap_debt s' = 0
          /\ sat_add64 (si_start_slot s) MAX_BOOTSTRAP_SLOTS <= c))
  /\ (0 < si_bootstrap_debt s -> si_bootstrap_debt s' = 0 ->
      si_status s' = FullyVested /\ si_graduation_slot s' = Some c)
  /\ (0 < si_bootstrap_debt s' -> si_status s' = si_status s).
Proof.
  intros [Ha He Hd Hdel Hr Hc Hrep]. unfold StakeInfo_claim_rewards.
  assert (forall x, is_u64 x -> sat_add64 x 0 = x) as Hadd0 by (unfold_ints; lia).
  destruct (Z.ltb_spec 0 (si_bootstrap_debt (set_si_rewards_earned 0 s))) as [Hpos|Hpos]; simpl in *.
  - destruct (Z.leb_spec (sat_add64 (si_start_slot s) MAX_BOOTSTRAP_SLOTS) c) as [Hcap|Hcap]; simpl.
    { rewrite !Hadd0 by done.
      split_and!; try done; unfold is_u64 in *; lia. }
    set (s1 := set_si_rewards_earned 0 s).
    pose proof (StakeInfo_debt_fraction_bound (si_rewards_earned s) c n s1 Hr) as Hb.
    pose proof (StakeInfo_debt_fraction_frame (si_rewards_earned s) c n s1) as Hf.
    destruct (StakeInfo_debt_fraction (si_rewards_earned s) c n s1) as [f s2]. simpl in *.
    destruct Hf as (Hfd & Hfe & Hfa & Hfr & Hfc & Hfp & _ & Hfs).
    assert (wrap64 (si_bootstrap_debt s2 - Z.min f (si_bootstrap_debt s2))
            = si_bootstrap_debt s - Z.min f (si_bootstrap_debt s)) as Hw1.
    { rewrite Hfd. apply wrap_small. unfold is_u64 in *. lia. }
    rewrite Hw1, Hfd, Hfe, Hfp, Hfc.
    rewrite (wrap_small 64 (si_rewards_earned s - _)) by (unfold is_u64 in *; lia).
    unfold is_u64 in *.
    destruct (Z.eqb_spec (si_bootstrap_debt s - Z.min f (si_bootstrap_debt s)) 0); simpl;
      split_and!; try done; lia.
  - rewrite !Hadd0 by done. split_and!; try done; unfold is_u64 in *; lia.
Qed.

Lemma StakeInfo_slash_spec amount s :
  StakeInfo_wf s -> 0 <= amount ->
  let '(slashed, s') := StakeInfo_slash amount s in
  slashed = Z.min amount (si_amount s) /\ si_amount s' = si_amount s - slashed
  /\ si_delegated_amount s' = si_delegated_amount s
  /\ si_bootstrap_debt s' = si_bootstrap_debt s
  /\ (si_earned_amount s <= si_amount s -> si_earned_amount s' <= si_amount s')
  /\ si_validator s' = si_validator s /\ si_machine_fingerprint s' = si_machine_fingerprint s
  /\ (0 < slashed -> si_is_active s' = StakeInfo_meets_minimum s')
  /\ (slashed = 0 -> s' = s).
Proof.
  intros [Ha He Hd Hdel Hr Hc Hrep] Ham. unfold StakeInfo_slash, is_u64 in *.
  destruct ((Z.min amount (si_amount s) =? 0) || (si_amount s =? 0)) eqn:Hz.
  { split_and!; try done; lia. }
  cbn [fst snd]. set (new := sat_sub (si_amount s) (Z.min amount (si_amount s))).
  assert (new = si_amount s - Z.min amount (si_amount s)) as Hnew by (unfold new, sat_sub; lia).
  simpl. split_and!; try done; [|lia].
  intros Hle. rewrite Hnew. etrans; [apply Z.mod_le; [|done]|].
  - apply Z.div_pos; nia.
  - apply Z.div_le_upper_bound; nia.
Qed.
