(* ===== verification/Pool.v ===== *)
(** * The stake pool

    Models the operations of [StakePool] in [core/src/consensus.rs]: staking,
    delegation with the Staking V2 saturation bound, unstaking with its cooldown,
    rewards, bootstrap grants, machine fingerprints and the structural check
    [validate_invariants].

    - an operation that can fail returns the pool only on success: every error
      of the source is returned before the pool is changed, or after the change
      is rolled back;
    - a machine fingerprint is the number its 32 bytes spell, [0] when not set;
    - a loop over a [HashMap] follows [map_to_list]: it decides which of several
      errors is reported, not whether there is one. *)

From S2P Require Import Prelude Crypto Stake.
From stdpp Require Import base tactics numbers list gmap.
From Stdlib Require Import ZArith Lia.

Local Open Scope Z_scope.
Local Open Scope rust_scope.

(** ** Errors and setters *)

Inductive PoolError :=
| StakeKeyMismatch (key embedded : Pubkey)
| SelfBondAboveMaximum (validator : Pubkey) (amount : Z)
| EffectiveStakeOverflow (validator : Pubkey)
| ActiveBelowMinimum (validator : Pubkey) (total : Z)
| NetworkTotalOverflow
| EmptyDelegationMap (validator : Pubkey)
| SelfBondDuplicated (validator : Pubkey)
| ZeroDelegation (validator delegator : Pubkey)
| DelegationTotalOverflow (validator : Pubkey)
| DelegatedStakeMismatch (validator : Pubkey) (entries recorded : Z)
| FingerprintNotOwned (validator : Pubkey)
| DelegationsUnknownValidator (validator : Pubkey)
| PoolTotalMismatch (entries recorded : Z)
| UnstakeKeyMismatch (validator staker : Pubkey)
| UnstakeZeroAmount (validator staker : Pubkey)
| ZeroFingerprintRegistered
| RegistryUnknownValidator (validator : Pubkey)
| RegistryDiffers (validator : Pubkey)
| StakeBelowMinimum (amount : Z)
| StakeAboveMaximum (amount : Z)
| ValidatorNotFound
| ProductionCounterOverflow (validator : Pubkey)
| ZeroAmount
| StillBootstrapping
| DelegationAboveCap (amount resulting cap : Z)
| DelegationAboveSaturation (amount capacity : Z)
| InsufficientDelegation (have requested : Z)
| UnstakeInProgress
| NoUnstakeRequest
| CooldownNotComplete (remaining : Z)
| CooldownOverflow
| FingerprintTaken (owner : Pubkey)
| EmptyFingerprint
| MigrationCooldown (remaining : Z)
| AlreadyBootstrap
| NotBootstrapAmount
| BootstrapComplete
| NotActiveInEpoch (validator : Pubkey)
| SaturationWithoutValidators
| CeilingDivisionError
| AboveSaturation (validator : Pubkey)
| RewardStakeOverflow
| FromStake (e : StakeError).

Definition lift_stake {A} (r : result A StakeError) : result A PoolError :=
  match r with Ok a => Ok a | Err e => Err (FromStake e) end.

Definition set_si_delegated_amount : Z -> StakeInfo -> StakeInfo :=
  ltac:(setter eta_StakeInfo si_delegated_amount).
Definition set_si_blocks_produced : Z -> StakeInfo -> StakeInfo :=
  ltac:(setter eta_StakeInfo si_blocks_produced).
Definition set_si_machine_fingerprint : Z -> StakeInfo -> StakeInfo :=
  ltac:(setter eta_StakeInfo si_machine_fingerprint).
Definition set_si_start_slot : Z -> StakeInfo -> StakeInfo :=
  ltac:(setter eta_StakeInfo si_start_slot).
Definition set_si_bootstrap_index : Z -> StakeInfo -> StakeInfo :=
  ltac:(setter eta_StakeInfo si_bootstrap_index).
Definition set_si_last_migration_slot : Z -> StakeInfo -> StakeInfo :=
  ltac:(setter eta_StakeInfo si_last_migration_slot).
Definition set_sp_unstake_requests : gmap (Pubkey * Pubkey) UnstakeRequest -> StakePool -> StakePool :=
  ltac:(setter eta_StakePool sp_unstake_requests).
Definition set_sp_delegations : gmap Pubkey (gmap Pubkey Z) -> StakePool -> StakePool :=
  ltac:(setter eta_StakePool sp_delegations).
Definition set_sp_fingerprint_registry : gmap Z Pubkey -> StakePool -> StakePool :=
  ltac:(setter eta_StakePool sp_fingerprint_registry).
Definition set_sp_bootstrap_grants_issued : Z -> StakePool -> StakePool :=
  ltac:(setter eta_StakePool sp_bootstrap_grants_issued).

(** [self.stakes.get_mut(validator)] followed by a write. *)
Definition put_stake (validator : Pubkey) (s : StakeInfo) (p : StakePool) : StakePool :=
  set_sp_stakes (<[validator := s]> (sp_stakes p)) p.

(** [info.is_active = info.meets_minimum()] *)
Definition refresh_active (s : StakeInfo) : StakeInfo :=
  set_si_is_active (StakeInfo_meets_minimum s) s.

(** ** The structural check *)

Definition validate_delegation_entry (validator : Pubkey) (total : Z) (entry : Pubkey * Z)
  : result Z PoolError :=
  let '(delegator, amount) := entry in
  if delegator =? validator then Err (SelfBondDuplicated validator)
  else if amount =? 0 then Err (ZeroDelegation validator delegator)
  else or_err (checked_add64 total amount) (DelegationTotalOverflow validator) Ok.

Definition delegated_total (p : StakePool) (validator : Pubkey) : result Z PoolError :=
  match sp_delegations p !! validator with
  | Some entries =>
      if bool_decide (entries = ∅) then Err (EmptyDelegationMap validator)
      else try_fold (validate_delegation_entry validator) 0 (map_to_list entries)
  | None => Ok 0
  end.

Definition validate_stake_entry (p : StakePool) (computed_total : Z) (entry : Pubkey * StakeInfo)
  : result Z PoolError :=
  let '(validator, info) := entry in
  if negb (si_validator info =? validator) then Err (StakeKeyMismatch validator (si_validator info))
  else if MAX_VALIDATOR_STAKE <? si_amount info
  then Err (SelfBondAboveMaximum validator (si_amount info))
  else
    or_err (checked_add64 (si_amount info) (si_delegated_amount info))
      (EffectiveStakeOverflow validator) (fun total =>
    if si_is_active info && (total <? MIN_VALIDATOR_STAKE)
    then Err (ActiveBelowMinimum validator total)
    else
      or_err (checked_add64 computed_total total) NetworkTotalOverflow (fun computed_total =>
      let? delegated_total := delegated_total p validator in
      if negb (delegated_total =? si_delegated_amount info)
      then Err (DelegatedStakeMismatch validator delegated_total (si_delegated_amount info))
      else if negb (si_machine_fingerprint info =? 0)
              && bool_decide (sp_fingerprint_registry p !! si_machine_fingerprint info
                              <> Some validator)
      then Err (FingerprintNotOwned validator)
      else Ok computed_total)).

Definition validate_unstake_entry (_ : unit) (entry : (Pubkey * Pubkey) * UnstakeRequest)
  : result unit PoolError :=
  let '((validator, staker), request) := entry in
  if negb (ur_validator request =? validator) || negb (ur_staker request =? staker)
  then Err (UnstakeKeyMismatch validator staker)
  else if ur_amount request =? 0 then Err (UnstakeZeroAmount validator staker)
  else Ok tt.

Definition validate_fingerprint_entry (p : StakePool) (_ : unit) (entry : Z * Pubkey)
  : result unit PoolError :=
  let '(fingerprint, validator) := entry in
  if fingerprint =? 0 then Err ZeroFingerprintRegistered
  else or_err (sp_stakes p !! validator) (RegistryUnknownValidator validator) (fun info =>
    if negb (si_machine_fingerprint info =? fingerprint) then Err (RegistryDiffers validator)
    else Ok tt).

Definition StakePool_validate_invariants (p : StakePool) : result unit PoolError :=
  let? computed_total := try_fold (validate_stake_entry p) 0 (map_to_list (sp_stakes p)) in
  let? _ := try_fold (fun _ validator =>
                        or_err (sp_stakes p !! validator) (DelegationsUnknownValidator validator)
                          (fun _ => Ok tt))
              tt (map_to_list (sp_delegations p)).*1 in
  if negb (computed_total =? sp_total_staked p)
  then Err (PoolTotalMismatch computed_total (sp_total_staked p))
  else
    let? _ := try_fold validate_unstake_entry tt (map_to_list (sp_unstake_requests p)) in
    try_fold (validate_fingerprint_entry p) tt (map_to_list (sp_fingerprint_registry p)).

(** ** Self-bonds *)

(** The cap check that [stake] and [stake_with_index] share. *)
Definition stake_cap (validator : Pubkey) (amount : Z) (p : StakePool) : option PoolError :=
  match sp_stakes p !! validator with
  | Some existing =>
      let new_total := sat_add64 (si_amount existing) amount in
      if MAX_VALIDATOR_STAKE <? new_total then Some (StakeAboveMaximum new_total) else None
  | None => if MAX_VALIDATOR_STAKE <? amount then Some (StakeAboveMaximum amount) else None
  end.

Definition StakePool_stake_with_index (validator : Pubkey) (amount current_slot bootstrap_index : Z)
  (p : StakePool) : result StakePool PoolError :=
  if amount <? MIN_VALIDATOR_STAKE then Err (StakeBelowMinimum amount)
  else match stake_cap validator amount p with
       | Some e => Err e
       | None =>
           let p :=
             match sp_stakes p !! validator with
             | Some stake_info =>
                 put_stake validator
                   (refresh_active (set_si_amount (sat_add64 (si_amount stake_info) amount) stake_info)) p
             | None =>
                 put_stake validator
                   (StakeInfo_with_bootstrap_index validator amount current_slot bootstrap_index) p
             end in
           Ok (set_sp_total_staked (sat_add64 (sp_total_staked p) amount) p)
       end.

(** [stake] is the same text with [StakeInfo::new], which passes [u64::MAX]. *)
Definition StakePool_stake (validator : Pubkey) (amount current_slot : Z) (p : StakePool)
  : result StakePool PoolError :=
  StakePool_stake_with_index validator amount current_slot u64_max p.

Definition StakePool_upsert_stake (validator : Pubkey) (amount current_slot : Z) (p : StakePool)
  : StakePool :=
  match sp_stakes p !! validator with
  | Some stake_info =>
      let old_amount := si_amount stake_info in
      let p :=
        if old_amount <? amount
        then set_sp_total_staked (sat_add64 (sp_total_staked p) (amount - old_amount)) p
        else set_sp_total_staked (sat_sub (sp_total_staked p) (old_amount - amount)) p in
      put_stake validator (refresh_active (set_si_amount amount stake_info)) p
  | None =>
      let p := set_sp_total_staked (sat_add64 (sp_total_staked p) amount) p in
      put_stake validator (StakeInfo_new validator amount current_slot) p
  end.

Definition StakePool_top_up_stake (validator : Pubkey) (amount : Z) (p : StakePool)
  : result (Z * StakePool) PoolError :=
  or_err (sp_stakes p !! validator) ValidatorNotFound (fun stake_info =>
    let? r := lift_stake (StakeInfo_top_up_stake amount stake_info) in
    let '(new_total, stake_info) := r in
    Ok (new_total,
        set_sp_total_staked (sat_add64 (sp_total_staked p) amount) (put_stake validator stake_info p))).

Definition StakePool_add_validator_stake (validator : Pubkey) (additional : Z) (p : StakePool)
  : result StakePool PoolError :=
  or_err (sp_stakes p !! validator) ValidatorNotFound (fun stake_info =>
    let? stake_info := lift_stake (StakeInfo_add_stake additional stake_info) in
    Ok (set_sp_total_staked (sat_add64 (sp_total_staked p) additional)
          (put_stake validator stake_info p))).

(** The owner of a fingerprint when it is another validator. *)
Definition other_owner (fingerprint : Z) (validator : Pubkey) (p : StakePool) : option Pubkey :=
  match sp_fingerprint_registry p !! fingerprint with
  | Some existing => if existing =? validator then None else Some existing
  | None => None
  end.

(** The merge of one remote record into the local one; the registry check of the
    fingerprint needs the pool. *)
Definition merge_progress (entry local : StakeInfo) : StakeInfo :=
  let local :=
    if si_amount local <? si_amount entry then set_si_amount (si_amount entry) local else local in
  let local :=
    if si_total_debt_repaid local <? si_total_debt_repaid entry then
      let local := set_si_bootstrap_debt (si_bootstrap_debt entry) local in
      let local := set_si_total_debt_repaid (si_total_debt_repaid entry) local in
      let local := set_si_earned_amount (si_earned_amount entry) local in
      let local := set_si_status (si_status entry) local in
      set_si_graduation_slot (si_graduation_slot entry) local
    else local in
  if (si_bootstrap_index local =? u64_max) && negb (si_bootstrap_index entry =? u64_max) then
    let local := set_si_bootstrap_index (si_bootstrap_index entry) local in
    if (si_bootstrap_debt local =? 0) && (0 <? si_bootstrap_debt entry)
    then set_si_status (si_status entry) (set_si_bootstrap_debt (si_bootstrap_debt entry) local)
    else local
  else local.

Definition merge_counters (entry local : StakeInfo) : StakeInfo :=
  let local :=
    if si_blocks_produced local <? si_blocks_produced entry
    then set_si_blocks_produced (si_blocks_produced entry) local else local in
  let local :=
    if si_penalty_boost_until local <? si_penalty_boost_until entry
    then set_si_penalty_boost_until (si_penalty_boost_until entry) local else local in
  refresh_active local.

Definition StakePool_upsert_stake_full (entry : StakeInfo) (p : StakePool) : StakePool :=
  let validator := si_validator entry in
  match sp_stakes p !! validator with
  | Some local =>
      let old_amount := si_amount local in
      let p :=
        if old_amount <? si_amount entry
        then set_sp_total_staked (sat_add64 (sp_total_staked p) (si_amount entry - old_amount)) p
        else p in
      let local := merge_progress entry local in
      let '(local, p) :=
        if (si_machine_fingerprint local =? 0) && negb (si_machine_fingerprint entry =? 0) then
          match other_owner (si_machine_fingerprint entry) validator p with
          | Some _ => (local, p)
          | None =>
              (set_si_machine_fingerprint (si_machine_fingerprint entry) local,
               set_sp_fingerprint_registry
                 (<[si_machine_fingerprint entry := validator]> (sp_fingerprint_registry p)) p)
          end
        else (local, p) in
      put_stake validator (merge_counters entry local) p
  | None =>
      let p := set_sp_total_staked (sat_add64 (sp_total_staked p) (si_amount entry)) p in
      let p :=
        if negb (si_machine_fingerprint entry =? 0)
        then set_sp_fingerprint_registry
               (<[si_machine_fingerprint entry := validator]> (sp_fingerprint_registry p)) p
        else p in
      let p :=
        if negb (si_bootstrap_index entry =? u64_max)
           && (sp_bootstrap_grants_issued p <=? si_bootstrap_index entry)
        then set_sp_bootstrap_grants_issued (wrap64 (si_bootstrap_index entry + 1)) p else p in
      put_stake validator entry p
  end.

(** ** Removal of ghost validators *)

Definition is_ghost (current_slot grace_slots : Z) (info : StakeInfo) : bool :=
  negb (si_is_active info) && (si_amount info =? 0)
  && (grace_slots <? sat_sub current_slot (si_last_reward_slot info)).

Definition remove_validator (p : StakePool) (pk : Pubkey) : StakePool :=
  match sp_stakes p !! pk with
  | Some info =>
      let p := set_sp_stakes (delete pk (sp_stakes p)) p in
      let p := set_sp_total_staked (sat_sub (sp_total_staked p) (si_amount info)) p in
      if negb (si_machine_fingerprint info =? 0)
      then set_sp_fingerprint_registry
             (delete (si_machine_fingerprint info) (sp_fingerprint_registry p)) p
      else p
  | None => p
  end.

Definition StakePool_remove_ghost_validators (current_slot grace_slots : Z) (p : StakePool)
  : list Pubkey * StakePool :=
  let to_remove :=
    omap (fun '(pk, info) => if is_ghost current_slot grace_slots info then Some pk else None)
      (map_to_list (sp_stakes p)) in
  (to_remove, foldl remove_validator p to_remove).

(** ** Reads and rewards *)

Definition StakePool_active_stake (p : StakePool) : Z := sp_total_staked p.

Definition is_reward_eligible (info : StakeInfo) : bool :=
  si_is_active info && StakeInfo_meets_minimum info.

Definition StakePool_reward_eligible_stake (p : StakePool) : result Z PoolError :=
  try_fold (fun total info => or_err (checked_add64 total (StakeInfo_total_stake info)) RewardStakeOverflow Ok)
    0 (List.filter is_reward_eligible (map_to_list (sp_stakes p)).*2).

Definition StakePool_pending_unstake_total (p : StakePool) : Z :=
  wrap64 (map_sum ur_amount (sp_unstake_requests p)).

Definition StakePool_active_validators (p : StakePool) : list Pubkey :=
  (List.filter (fun kv => is_reward_eligible kv.2) (map_to_list (sp_stakes p))).*1.

Definition StakePool_voting_power (p : StakePool) (validator : Pubkey) : Z :=
  let active := StakePool_active_stake p in
  if active =? 0 then 0
  else match sp_stakes p !! validator with
       | Some s => if si_is_active s then wrap64 (StakeInfo_total_stake s * 10000 / active) else 0
       | None => 0
       end.

Definition StakePool_distribute_block_reward (validator : Pubkey) (slot : Z) (p : StakePool)
  : Z * StakePool :=
  match sp_stakes p !! validator with
  | Some s => if si_is_active s then (0, put_stake validator (set_si_last_reward_slot slot s) p) else (0, p)
  | None => (0, p)
  end.

(** Proportional shares of an epoch's reward pool, sorted by validator. *)
Definition StakePool_distribute_epoch_rewards (epoch_reward_pool : Z) (p : StakePool)
  : list (Pubkey * Z) :=
  let total_stake := StakePool_active_stake p in
  if (total_stake =? 0) || (epoch_reward_pool =? 0) then []
  else
    sort_by_key fst
      (omap (fun info =>
               if negb (si_is_active info) then None
               else
                 let validator_share :=
                   epoch_reward_pool * StakeInfo_total_stake info / total_stake in
                 if 0 <? validator_share then Some (si_validator info, wrap64 validator_share)
                 else None)
         (map_to_list (sp_stakes p)).*2).

Definition num_active (p : StakePool) : Z :=
  Z.max (Z.of_nat (length (List.filter si_is_active (map_to_list (sp_stakes p)).*2))) 1.

(** One validator's share goes through [add_reward] and [claim_rewards]. *)
Definition settle_share (epoch_start n : Z)
  (acc : Z * list (Pubkey * Z * Z * Z) * StakePool) (share : Pubkey * Z)
  : Z * list (Pubkey * Z * Z * Z) * StakePool :=
  let '(total_minted, results, p) := acc in
  let '(validator, reward) := share in
  match sp_stakes p !! validator with
  | Some s =>
      let s := StakeInfo_add_reward reward epoch_start s in
      let '((liquid, debt_payment), s) := StakeInfo_claim_rewards epoch_start n s in
      (sat_add64 total_minted liquid, results ++ [(validator, reward, liquid, debt_payment)],
       put_stake validator s p)
  | None => (total_minted, results, p)
  end.

Definition StakePool_distribute_epoch_staker_rewards_from_pool
  (epoch_reward_pool epoch_start : Z) (p : StakePool)
  : Z * list (Pubkey * Z * Z * Z) * StakePool :=
  if epoch_reward_pool =? 0 then (0, [], p)
  else
    let distributions := StakePool_distribute_epoch_rewards epoch_reward_pool p in
    let n := num_active p in
    let '(total_minted, results, p) :=
      foldl (settle_share epoch_start n) (0, [], p) distributions in
    (total_minted, sort_by_key (fun r => r.1.1.1) results, p).

Definition StakePool_distribute_fees (validator : Pubkey) (fees slot : Z) (p : StakePool) : StakePool :=
  match sp_stakes p !! validator with
  | Some s => if si_is_active s then put_stake validator (StakeInfo_add_reward fees slot s) p else p
  | None => p
  end.

Definition StakePool_claim_rewards (validator : Pubkey) (current_slot : Z) (p : StakePool)
  : (Z * Z) * StakePool :=
  match sp_stakes p !! validator with
  | Some s =>
      let '(r, s) := StakeInfo_claim_rewards current_slot (num_active p) s in
      (r, put_stake validator s p)
  | None => ((0, 0), p)
  end.

Definition StakePool_record_block_produced (validator : Pubkey) (p : StakePool)
  : result StakePool PoolError :=
  match sp_stakes p !! validator with
  | Some s =>
      or_err (checked_add64 (si_blocks_produced s) 1) (ProductionCounterOverflow validator)
        (fun n => Ok (put_stake validator (set_si_blocks_produced n s) p))
  | None => Ok p
  end.

(** ** Saturation *)

Definition MAX_VALIDATOR_EFFECTIVE_STAKE_MULTIPLIER : Z := 5.
Definition MATURE_VALIDATOR_SATURATION_BPS : Z := 500.

Definition checked_mul64 (a b : Z) : option Z := if a * b <=? u64_max then Some (a * b) else None.

(** [a.div_ceil(b)] *)
Definition div_ceil (a b : Z) : Z := (a + b - 1) / b.

(** The interpolation cannot overflow: [remaining] is at most 20. *)
Definition validator_saturation_cap_bps (active_validators : Z) : result Z PoolError :=
  if active_validators =? 0 then Err SaturationWithoutValidators
  else if 20 <=? active_validators then Ok MATURE_VALIDATOR_SATURATION_BPS
  else
    let remaining := sat_sub 20 active_validators in
    let linear := MATURE_VALIDATOR_SATURATION_BPS + 9500 * remaining / 19 in
    let equal_share := div_ceil 10000 active_validators in
    Ok (Z.min (Z.max linear equal_share) 10000).

Definition mul_div_ceil_u64 (left right denominator : Z) : result Z PoolError :=
  if denominator =? 0 then Err CeilingDivisionError
  else
    let quotient := div_ceil (left * right) denominator in
    if quotient <=? u64_max then Ok quotient else Err CeilingDivisionError.

(** The closure [accepts] of [staking_v2_delegation_capacity]. *)
Definition accepts (current active_effective_stake saturation_bps additional : Z)
  : result bool PoolError :=
  or_err (checked_add64 current additional) NetworkTotalOverflow (fun final_validator_stake =>
  or_err (checked_add64 active_effective_stake additional) NetworkTotalOverflow (fun final_active_stake =>
  let? network_limit := mul_div_ceil_u64 final_active_stake saturation_bps 10000 in
  Ok (final_validator_stake <=? network_limit))).

(** One iteration of [while low < high]; an error ends the loop. *)
Definition capacity_done {E} (s : result (Z * Z) E) : bool :=
  match s with Ok (low, high) => high <=? low | Err _ => true end.

Definition capacity_step {E} (ok : Z -> result bool E) (s : result (Z * Z) E)
  : result (Z * Z) E :=
  let? b := s in
  let '(low, high) := b in
  let middle := low + div_ceil (high - low) 2 in
  let? yes := ok middle in
  if (yes : bool) then Ok (middle, high) else Ok (low, middle - 1).

Definition effective_stake_of (p : StakePool) (total : Z) (active : Pubkey) : result Z PoolError :=
  or_err (sp_stakes p !! active) (NotActiveInEpoch active) (fun stake =>
  or_err (checked_add64 total (StakeInfo_total_stake stake)) RewardStakeOverflow Ok).

Definition StakePool_staking_v2_delegation_capacity (p : StakePool) (validator : Pubkey)
  : result (option Z) PoolError :=
  match sp_staking_v2_state p with
  | None => Ok None
  | Some state =>
      or_err (v2_validators state !! validator) (NotActiveInEpoch validator) (fun _ =>
      or_err (sp_stakes p !! validator) ValidatorNotFound (fun info =>
      let current := StakeInfo_total_stake info in
      or_err (checked_mul64 (si_amount info) MAX_VALIDATOR_EFFECTIVE_STAKE_MULTIPLIER)
        (EffectiveStakeOverflow validator) (fun self_bond_limit =>
      let maximum_addition := sat_sub self_bond_limit current in
      if maximum_addition =? 0 then Ok (Some 0)
      else
        let? active_effective_stake :=
          try_fold (effective_stake_of p) 0 (map_to_list (v2_validators state)).*1 in
        let? saturation_bps :=
          validator_saturation_cap_bps (Z.of_nat (size (v2_validators state))) in
        let ok := accepts current active_effective_stake saturation_bps in
        let? yes := ok 0 in
        if negb yes then Err (AboveSaturation validator)
        else
          let? b := iter_until capacity_done (capacity_step ok) (2 ^ 64) (Ok (0, maximum_addition)) in
          Ok (Some b.1))))
  end.

(** ** Delegation *)

Definition delegation (p : StakePool) (validator delegator : Pubkey) : Z :=
  default 0 (sp_delegations p !! validator ≫= (.!! delegator)).

Definition StakePool_delegate (delegator validator : Pubkey) (amount : Z) (p : StakePool)
  : result StakePool PoolError :=
  if amount =? 0 then Err ZeroAmount
  else
    or_err (sp_stakes p !! validator) ValidatorNotFound (fun stake_info =>
    if negb (StakeInfo_is_fully_vested stake_info) then Err StillBootstrapping
    else
      or_err (checked_mul64 (si_amount stake_info) MAX_VALIDATOR_EFFECTIVE_STAKE_MULTIPLIER)
        (EffectiveStakeOverflow validator) (fun maximum_effective_stake =>
      or_err (checked_add64 (StakeInfo_total_stake stake_info) amount)
        (EffectiveStakeOverflow validator) (fun new_effective_stake =>
      if maximum_effective_stake <? new_effective_stake
      then Err (DelegationAboveCap amount new_effective_stake maximum_effective_stake)
      else
        let? capacity := StakePool_staking_v2_delegation_capacity p validator in
        match (match capacity with
               | Some c => if c <? amount then Some (DelegationAboveSaturation amount c) else None
               | None => None
               end) with
        | Some e => Err e
        | None =>
            or_err (checked_add64 (sp_total_staked p) amount) NetworkTotalOverflow (fun new_total_staked =>
            or_err (checked_add64 (delegation p validator delegator) amount)
              (DelegationTotalOverflow validator) (fun new_delegation =>
            or_err (checked_add64 (si_delegated_amount stake_info) amount)
              (DelegationTotalOverflow validator) (fun new_delegated =>
            let p := put_stake validator
                       (refresh_active (set_si_delegated_amount new_delegated stake_info)) p in
            let p := set_sp_total_staked new_total_staked p in
            let entries := default ∅ (sp_delegations p !! validator) in
            Ok (set_sp_delegations
                  (<[validator := <[delegator := new_delegation]> entries]> (sp_delegations p)) p))))
        end))).

(** [*entry -= amount]: an entry that reaches zero and an empty map are removed. *)
Definition reduce_delegation (validator delegator : Pubkey) (amount : Z)
  (delegations : gmap Pubkey (gmap Pubkey Z)) : gmap Pubkey (gmap Pubkey Z) :=
  match delegations !! validator with
  | Some entries =>
      let entries :=
        match entries !! delegator with
        | Some entry =>
            let entry := wrap64 (entry - amount) in
            if entry =? 0 then delete delegator entries else <[delegator := entry]> entries
        | None => entries
        end in
      if bool_decide (entries = ∅) then delete validator delegations
      else <[validator := entries]> delegations
  | None => delegations
  end.

Definition StakePool_undelegate (delegator validator : Pubkey) (amount : Z) (p : StakePool)
  : result StakePool PoolError :=
  if amount =? 0 then Err ZeroAmount
  else
    let delegated := delegation p validator delegator in
    if delegated <? amount then Err (InsufficientDelegation delegated amount)
    else
      or_err (sp_stakes p !! validator) ValidatorNotFound (fun stake_info =>
      if si_delegated_amount stake_info <? amount
      then Err (InsufficientDelegation (si_delegated_amount stake_info) amount)
      else
        let stake_info :=
          refresh_active (set_si_delegated_amount (si_delegated_amount stake_info - amount) stake_info) in
        let p := put_stake validator stake_info p in
        let p := set_sp_total_staked (sat_sub (sp_total_staked p) amount) p in
        Ok (set_sp_delegations (reduce_delegation validator delegator amount (sp_delegations p)) p)).

Definition StakePool_request_delegation_unstake (delegator validator : Pubkey)
  (amount current_slot : Z) (p : StakePool) : result (UnstakeRequest * StakePool) PoolError :=
  if amount =? 0 then Err ZeroAmount
  else
    let unstake_key := (validator, delegator) in
    if bool_decide (is_Some (sp_unstake_requests p !! unstake_key)) then Err UnstakeInProgress
    else
      let delegated := delegation p validator delegator in
      if delegated <? amount then Err (InsufficientDelegation delegated amount)
      else
        or_err (checked_add64 current_slot UNSTAKE_COOLDOWN_SLOTS) CooldownOverflow (fun unlock_slot =>
        let request := mkUnstakeRequest validator delegator amount unlock_slot in
        let? p := StakePool_undelegate delegator validator amount p in
        Ok (request,
            set_sp_unstake_requests (<[unstake_key := request]> (sp_unstake_requests p)) p)).

(** ** Unstaking *)

Definition StakePool_request_unstake (validator : Pubkey) (amount current_slot : Z) (staker : Pubkey)
  (p : StakePool) : result (UnstakeRequest * StakePool) PoolError :=
  or_err (sp_stakes p !! validator) ValidatorNotFound (fun stake_info =>
  let unstake_key := (validator, staker) in
  if bool_decide (is_Some (sp_unstake_requests p !! unstake_key)) then Err UnstakeInProgress
  else
    let? request := lift_stake (StakeInfo_request_unstake amount current_slot staker stake_info) in
    let p := set_sp_unstake_requests (<[unstake_key := request]> (sp_unstake_requests p)) p in
    let p := put_stake validator
               (refresh_active (set_si_amount (sat_sub (si_amount stake_info) (ur_amount request))
                                  stake_info)) p in
    Ok (request, set_sp_total_staked (sat_sub (sp_total_staked p) (ur_amount request)) p)).

Definition StakePool_claim_unstake (validator : Pubkey) (current_slot : Z) (staker : Pubkey)
  (p : StakePool) : result (Z * StakePool) PoolError :=
  let unstake_key := (validator, staker) in
  or_err (sp_unstake_requests p !! unstake_key) NoUnstakeRequest (fun request =>
  if current_slot <? ur_unlock_slot request
  then Err (CooldownNotComplete (ur_unlock_slot request - current_slot))
  else Ok (ur_amount request,
           set_sp_unstake_requests (delete unstake_key (sp_unstake_requests p)) p)).

(** ** Bootstrap grants and machine fingerprints *)

Definition MIGRATION_COOLDOWN_SLOTS : Z := 432000.

Definition StakePool_next_bootstrap_index (p : StakePool) : option Z * StakePool :=
  if sp_bootstrap_grants_issued p <? MAX_BOOTSTRAP_VALIDATORS then
    let index := sp_bootstrap_grants_issued p in
    (Some index, set_sp_bootstrap_grants_issued (sp_bootstrap_grants_issued p + 1) p)
  else (None, p).

Definition StakePool_register_fingerprint (validator : Pubkey) (fingerprint : Z) (p : StakePool)
  : result StakePool PoolError :=
  if fingerprint =? 0 then Ok p
  else match sp_fingerprint_registry p !! fingerprint with
       | Some existing => if existing =? validator then Ok p else Err (FingerprintTaken existing)
       | None =>
           let p := set_sp_fingerprint_registry
                      (<[fingerprint := validator]> (sp_fingerprint_registry p)) p in
           Ok (match sp_stakes p !! validator with
               | Some s => put_stake validator (set_si_machine_fingerprint fingerprint s) p
               | None => p
               end)
       end.

Definition StakePool_migrate_fingerprint (validator : Pubkey) (new_fingerprint current_slot : Z)
  (p : StakePool) : result StakePool PoolError :=
  if new_fingerprint =? 0 then Err EmptyFingerprint
  else match other_owner new_fingerprint validator p with
       | Some existing => Err (FingerprintTaken existing)
       | None =>
           or_err (sp_stakes p !! validator) ValidatorNotFound (fun s =>
           let free_slot := wrap64 (si_last_migration_slot s + MIGRATION_COOLDOWN_SLOTS) in
           if (0 <? si_last_migration_slot s) && (current_slot <? free_slot)
           then Err (MigrationCooldown (free_slot - current_slot))
           else
             let old_fingerprint := si_machine_fingerprint s in
             let registry :=
               if negb (old_fingerprint =? 0)
               then delete old_fingerprint (sp_fingerprint_registry p)
               else sp_fingerprint_registry p in
             let p := set_sp_fingerprint_registry (<[new_fingerprint := validator]> registry) p in
             Ok (put_stake validator
                   (set_si_last_migration_slot current_slot
                      (set_si_machine_fingerprint new_fingerprint s)) p))
       end.

(** Returns the bootstrap index and whether the entry is new.  The registration
    after a top-up cannot fail: the owner of the fingerprint was checked. *)
Definition StakePool_try_bootstrap_with_fingerprint (validator : Pubkey)
  (amount current_slot fingerprint : Z) (p : StakePool)
  : result (Z * bool * StakePool) PoolError :=
  match (if negb (fingerprint =? 0) then other_owner fingerprint validator p else None) with
  | Some existing => Err (FingerprintTaken existing)
  | None =>
      match sp_stakes p !! validator with
      | Some stake_info =>
          if amount <=? si_amount stake_info then
            let? p := StakePool_register_fingerprint validator fingerprint p in
            Ok (si_bootstrap_index stake_info, false, p)
          else if MAX_VALIDATOR_STAKE <? amount then Err (StakeAboveMaximum amount)
          else
            let deficit := amount - si_amount stake_info in
            let p := put_stake validator (refresh_active (set_si_amount amount stake_info)) p in
            let p := set_sp_total_staked (sat_add64 (sp_total_staked p) deficit) p in
            let? p := StakePool_register_fingerprint validator fingerprint p in
            Ok (si_bootstrap_index stake_info, false, p)
      | None =>
          let '(index, p') := StakePool_next_bootstrap_index p in
          let bootstrap_index := default u64_max index in
          if amount <? MIN_VALIDATOR_STAKE then Err (StakeBelowMinimum amount)
          else
            let stake_info :=
              StakeInfo_with_bootstrap_index validator amount current_slot bootstrap_index in
            let p := put_stake validator stake_info p' in
            let p := set_sp_total_staked (sat_add64 (sp_total_staked p) amount) p in
            let p :=
              if negb (fingerprint =? 0) then
                put_stake validator (set_si_machine_fingerprint fingerprint stake_info)
                  (set_sp_fingerprint_registry
                     (<[fingerprint := validator]> (sp_fingerprint_registry p)) p)
              else p in
            Ok (bootstrap_index, true, p)
      end
  end.

Definition StakePool_reclassify_self_funded_as_bootstrap (validator : Pubkey) (current_slot : Z)
  (p : StakePool) : result (Z * StakePool) PoolError :=
  or_err (sp_stakes p !! validator) ValidatorNotFound (fun s =>
  if negb (si_bootstrap_index s =? u64_max) || (0 <? si_bootstrap_debt s)
     || (0 <? si_earned_amount s) || (0 <? si_total_debt_repaid s)
     || bool_decide (is_Some (si_graduation_slot s))
  then Err AlreadyBootstrap
  else if negb (si_amount s =? BOOTSTRAP_GRANT_AMOUNT) then Err NotBootstrapAmount
  else if MAX_BOOTSTRAP_VALIDATORS <=? sp_bootstrap_grants_issued p then Err BootstrapComplete
  else
    let bootstrap_index := sp_bootstrap_grants_issued p in
    let p := set_sp_bootstrap_grants_issued (sp_bootstrap_grants_issued p + 1) p in
    let s := set_si_bootstrap_index bootstrap_index s in
    let s := set_si_bootstrap_debt BOOTSTRAP_GRANT_AMOUNT s in
    let s := set_si_status Bootstrapping s in
    let s := if si_start_slot s =? 0 then set_si_start_slot current_slot s else s in
    let s := set_si_graduation_slot None s in
    let s := set_si_penalty_boost_until 0 s in
    Ok (bootstrap_index, put_stake validator (refresh_active s) p)).

(** ** Delegation rewards

    The validator's commission first, then each delegator's share. *)

Definition StakePool_distribute_delegation_rewards (validator : Pubkey)
  (total_reward commission_bps : Z) (p : StakePool) : list (Pubkey * Z) :=
  match sp_stakes p !! validator with
  | None => []
  | Some stake_info =>
      let delegated := si_delegated_amount stake_info in
      if (delegated =? 0) || (total_reward =? 0) then []
      else
        let total_stake := StakeInfo_total_stake stake_info in
        if total_stake =? 0 then []
        else
          let delegation_share := wrap64 (total_reward * delegated / total_stake) in
          let commission := wrap64 (delegation_share * commission_bps / 10000) in
          let distributable := sat_sub delegation_share commission in
          match sp_delegations p !! validator with
          | None => []
          | Some delegator_map =>
              (if 0 <? commission then [(validator, commission)] else [])
              ++ omap (fun '(delegator, amount) =>
                         let share := wrap64 (distributable * amount / delegated) in
                         if 0 <? share then Some (delegator, share) else None)
                   (map_to_list delegator_map)
          end
  end.
