(* ===== verification/PoolInvariant.v ===== *)
(** * The stake pool keeps its invariants

    [StakePool::validate_invariants] is called on a pool decoded from a snapshot
    and before Staking V2 is activated.  The declarative invariant [pool_inv] is
    what the check decides; the lemmas of the section [invariant_facts] say how the
    record of one validator can change without breaking it. *)

From S2P Require Import Prelude Crypto Stake Pool.
From stdpp Require Import base tactics numbers list gmap.
From Stdlib Require Import ZArith Lia.

Local Open Scope Z_scope.
Local Open Scope rust_scope.

(** ** The invariant *)

Definition effective (s : StakeInfo) : Z := si_amount s + si_delegated_amount s.

Definition delegated_to (p : StakePool) (v : Pubkey) : Z :=
  map_sum id (default ∅ (sp_delegations p !! v)).

Record entry_inv (p : StakePool) (v : Pubkey) (s : StakeInfo) : Prop := {
  ei_key : si_validator s = v;
  ei_amount : 0 <= si_amount s <= MAX_VALIDATOR_STAKE;
  ei_delegated : si_delegated_amount s = delegated_to p v;
  ei_active : si_is_active s = true -> MIN_VALIDATOR_STAKE <= effective s;
  ei_fingerprint : si_machine_fingerprint s <> 0 ->
    sp_fingerprint_registry p !! si_machine_fingerprint s = Some v;
}.

Record delegations_inv (v : Pubkey) (entries : gmap Pubkey Z) : Prop := {
  di_nonempty : entries <> ∅;
  di_entries : map_Forall (fun d a => d <> v /\ 0 < a) entries;
}.

Record pool_inv (p : StakePool) : Prop := {
  pi_stakes : map_Forall (entry_inv p) (sp_stakes p);
  pi_total : sp_total_staked p = map_sum effective (sp_stakes p);
  pi_total_max : sp_total_staked p <= u64_max;
  pi_delegations : map_Forall delegations_inv (sp_delegations p);
  pi_delegated_known : map_Forall (fun v _ => is_Some (sp_stakes p !! v)) (sp_delegations p);
  pi_requests : map_Forall (fun k r => (ur_validator r, ur_staker r) = k /\ 0 < ur_amount r)
                  (sp_unstake_requests p);
  pi_registry : map_Forall (fun f v => f <> 0 /\
                  exists s, sp_stakes p !! v = Some s /\ si_machine_fingerprint s = f)
                  (sp_fingerprint_registry p);
}.

(** What the types of the source give: the amounts are unsigned. *)
Record pool_unsigned (p : StakePool) : Prop := {
  pu_stakes : map_Forall (fun _ s => 0 <= si_amount s /\ 0 <= si_delegated_amount s) (sp_stakes p);
  pu_delegations : map_Forall (fun _ m => map_Forall (fun _ a => 0 <= a) m) (sp_delegations p);
  pu_requests : map_Forall (fun _ r => 0 <= ur_amount r) (sp_unstake_requests p);
}.

(** The same as a decision procedure, for concrete pools. *)
Definition map_forallb {K A} `{Countable K} (f : A -> bool) (m : gmap K A) : bool :=
  forallb (fun kv => f kv.2) (map_to_list m).

Lemma map_forallb_spec {K A} `{Countable K} (f : A -> bool) (m : gmap K A) (P : K -> A -> Prop) :
  (forall k x, f x = true -> P k x) -> map_forallb f m = true -> map_Forall P m.
Proof.
  intros Hf Hm k x Hk. apply Hf. unfold map_forallb in Hm. rewrite forallb_forall in Hm.
  apply (Hm (k, x)). by apply list_elem_of_In, elem_of_map_to_list.
Qed.

Definition unsignedb (p : StakePool) : bool :=
  map_forallb (fun s => (0 <=? si_amount s) && (0 <=? si_delegated_amount s)) (sp_stakes p)
  && map_forallb (map_forallb (Z.leb 0)) (sp_delegations p)
  && map_forallb (fun r => 0 <=? ur_amount r) (sp_unstake_requests p).

Lemma unsignedb_spec p : unsignedb p = true -> pool_unsigned p.
Proof.
  unfold unsignedb. rewrite !andb_true_iff. intros [[Hs Hd] Hr]. split.
  - eapply map_forallb_spec; [|exact Hs]. simpl. lia.
  - eapply map_forallb_spec; [|exact Hd]. intros _ m Hm.
    eapply map_forallb_spec; [|exact Hm]. simpl. lia.
  - eapply map_forallb_spec; [|exact Hr]. simpl. lia.
Qed.

(** ** The check decides the invariant *)

Lemma delegated_total_Ok p v t :
  pool_unsigned p ->
  delegated_total p v = Ok t
  <-> (forall m, sp_delegations p !! v = Some m -> delegations_inv v m)
      /\ t = delegated_to p v /\ t <= u64_max.
Proof.
  intros Hu. unfold delegated_total, delegated_to.
  destruct (sp_delegations p !! v) as [m|] eqn:Hm; simpl.
  2:{ rewrite map_sum_empty. split; [intros [= <-]; unfold u64_max; split_and!; [done|done|lia]|by intros (_ & -> & _)]. }
  pose proof (pu_delegations p Hu v m Hm) as Hnn.
  rewrite guard_Ok, bool_decide_eq_false.
  rewrite (try_fold_total _ (fun kv => kv.1 <> v /\ 0 < kv.2) snd);
    [|intros a [d x] b Hx%elem_of_map_to_list Ha|intros [d x]; simpl; lia|unfold u64_max; lia].
  - rewrite (Forall_map_to_list (fun d a => d <> v /\ 0 < a) m). unfold map_sum, id. simpl.
    split; [intros (? & ? & -> & ?)|intros (Hd & -> & ?); specialize (Hd m eq_refl) as [??]].
    + split_and!; try done. by intros ? [= <-].
    + split_and!; done.
  - apply Hnn in Hx. unfold validate_delegation_entry. simpl.
    rewrite !guard_Ok, checked_add64_Ok. rewrite !Z.eqb_neq. intuition lia.
Qed.

Lemma validate_stake_entry_Ok p a v s b :
  pool_unsigned p -> 0 <= si_amount s -> 0 <= si_delegated_amount s -> 0 <= a ->
  validate_stake_entry p a (v, s) = Ok b
  <-> (entry_inv p v s /\ (forall m, sp_delegations p !! v = Some m -> delegations_inv v m))
      /\ b = a + effective s /\ b <= u64_max.
Proof.
  intros Hu Ham Hdel Ha. unfold validate_stake_entry, effective.
  rewrite !guard_Ok, or_err_Ok. setoid_rewrite checked_add64_Some. setoid_rewrite guard_Ok.
  setoid_rewrite or_err_Ok. setoid_rewrite checked_add64_Some.
  setoid_rewrite and_then_Ok. setoid_rewrite guard_Ok. setoid_rewrite guard_Ok.
  setoid_rewrite delegated_total_Ok; [|done..].
  rewrite negb_false_iff, Z.eqb_eq, Z.ltb_ge.
  setoid_rewrite negb_false_iff. setoid_rewrite Z.eqb_eq.
  setoid_rewrite andb_false_iff. setoid_rewrite negb_false_iff. setoid_rewrite Z.eqb_eq.
  setoid_rewrite Z.ltb_ge. setoid_rewrite bool_decide_eq_false.
  split.
  - intros (Hk & Hmax & t & [-> Ht] & Hact & c & [-> Hc] & d & (Hd & -> & ?) & He & Hfp & [= <-]).
    split_and!; [constructor|done|lia|lia]; try done; unfold effective.
    + destruct Hact as [->|?]; [done|lia].
    + intros Hne. destruct Hfp as [?|Hfp]; [done|]. by apply dec_stable in Hfp.
  - intros ([[Hk Hmax Hde Hact Hfp] Hd] & -> & Hb). split_and!; [done|lia|].
    eexists. split; [split; [reflexivity|lia]|]. split.
    { destruct (si_is_active s); [right; by apply Hact|by left]. }
    eexists. split; [split; [reflexivity|lia]|].
    eexists. split; [split_and!; [exact Hd|reflexivity|lia]|]. split_and!; [done| |by f_equal; lia].
    destruct (decide (si_machine_fingerprint s = 0)) as [|Hne]; [by left|right].
    intros Hn. by apply Hn, Hfp.
Qed.

Lemma delegated_to_nonneg p v :
  (forall m, sp_delegations p !! v = Some m -> delegations_inv v m) -> 0 <= delegated_to p v.
Proof.
  intros Hm. unfold delegated_to.
  destruct (sp_delegations p !! v) as [m|]; simpl; [|by rewrite map_sum_empty].
  apply map_sum_nonneg. intros d x Hx. apply (di_entries v m (Hm m eq_refl)) in Hx. unfold id. lia.
Qed.

Lemma stakes_loop_Ok p t :
  pool_unsigned p ->
  try_fold (validate_stake_entry p) 0 (map_to_list (sp_stakes p)) = Ok t
  <-> (map_Forall (fun v s => entry_inv p v s
          /\ (forall m, sp_delegations p !! v = Some m -> delegations_inv v m)) (sp_stakes p))
      /\ t = map_sum effective (sp_stakes p) /\ t <= u64_max.
Proof.
  intros Hu. rewrite <- Forall_map_to_list. unfold map_sum.
  apply (try_fold_total _ (fun vs => entry_inv p vs.1 vs.2 /\ _) (fun vs => effective vs.2)).
  - intros a [v s] b [Ham Hdel]%elem_of_map_to_list%(pu_stakes p Hu) Ha.
    by apply validate_stake_entry_Ok.
  - intros [v s] [[? [??] Hd ??] Hm]. simpl in *. apply delegated_to_nonneg in Hm.
    unfold effective. lia.
  - unfold u64_max. lia.
Qed.

Lemma delegations_loop_Ok p :
  try_fold (fun _ validator =>
              or_err (sp_stakes p !! validator) (DelegationsUnknownValidator validator)
                (fun _ => Ok tt)) tt (map_to_list (sp_delegations p)).*1 = Ok tt
  <-> map_Forall (fun v _ => is_Some (sp_stakes p !! v)) (sp_delegations p).
Proof.
  rewrite (try_fold_unit _ (fun v => is_Some (sp_stakes p !! v))).
  - rewrite Forall_fmap. apply (Forall_map_to_list (fun v _ => is_Some (sp_stakes p !! v))).
  - intros v _. rewrite or_err_Ok. split; [intros (s & ? & _); by exists s|intros [s ?]; by exists s].
Qed.

Lemma requests_loop_Ok p :
  pool_unsigned p ->
  try_fold validate_unstake_entry tt (map_to_list (sp_unstake_requests p)) = Ok tt
  <-> map_Forall (fun k r => (ur_validator r, ur_staker r) = k /\ 0 < ur_amount r)
        (sp_unstake_requests p).
Proof.
  intros Hu. rewrite <- Forall_map_to_list. apply try_fold_unit.
  intros [[v st] r] Hr%elem_of_map_to_list%(pu_requests p Hu). simpl.
  rewrite !guard_Ok, orb_false_iff, !negb_false_iff, !Z.eqb_eq, Z.eqb_neq.
  split; [intros ([-> ->] & ? & _); split; [done|lia]|]. intros [[= -> ->] ?]. split_and!; done || lia.
Qed.

Lemma registry_loop_Ok p :
  try_fold (validate_fingerprint_entry p) tt (map_to_list (sp_fingerprint_registry p)) = Ok tt
  <-> map_Forall (fun f v => f <> 0 /\
        exists s, sp_stakes p !! v = Some s /\ si_machine_fingerprint s = f)
        (sp_fingerprint_registry p).
Proof.
  rewrite <- Forall_map_to_list. apply try_fold_unit. intros [f v] _. simpl.
  rewrite guard_Ok, or_err_Ok, Z.eqb_neq. setoid_rewrite guard_Ok.
  setoid_rewrite negb_false_iff. setoid_rewrite Z.eqb_eq. naive_solver.
Qed.

(** [validate_invariants] accepts exactly the pools that satisfy the
    declarative invariant: matching keys, self-bonds within the maximum, active
    validators above the minimum, delegated amounts equal to the recorded
    delegations, a total equal to the sum of the stakes, known delegation targets,
    non-empty unstake requests and a fingerprint registry that mirrors the stake
    records. *)
Lemma validate_invariants_iff p :
  pool_unsigned p -> StakePool_validate_invariants p = Ok tt <-> pool_inv p.
Proof.
  intros Hu. unfold StakePool_validate_invariants. rewrite and_then_Ok. split.
  - intros (t & (Hs & -> & Ht)%stakes_loop_Ok & H); [|done].
    apply and_then_Ok in H as ([] & Hk%delegations_loop_Ok & H).
    apply guard_Ok in H as [He%negb_false_iff%Z.eqb_eq H].
    apply and_then_Ok in H as ([] & Hr%requests_loop_Ok & Hg%registry_loop_Ok); [|done].
    split; try done; [|lia|].
    + intros v s Hv. by apply Hs.
    + intros v m Hm. destruct (Hk v m Hm) as [s Hv]. by apply (Hs v s Hv).
  - intros [Hs Ht Hm Hd Hk Hr Hg]. exists (map_sum effective (sp_stakes p)). split.
    + apply stakes_loop_Ok; [done|]. split_and!; [|done|lia].
      intros v s Hv. split; [by apply Hs|]. intros m Hvm. by apply Hd.
    + apply and_then_Ok. exists tt. split; [by apply delegations_loop_Ok|].
      rewrite Ht, Z.eqb_refl. simpl. apply and_then_Ok. exists tt.
      split; [by apply requests_loop_Ok|by apply registry_loop_Ok].
Qed.

(** ** One validator's record changes

    [pool_update p v s' p'] says that [p'] is [p] with the record of [v] replaced
    by [s'], the delegations and fingerprints of the other validators as they
    were.  Every operation on a single validator is an instance. *)

Record pool_update (p : StakePool) (v : Pubkey) (s' : StakeInfo) (p' : StakePool) : Prop := {
  up_stakes : sp_stakes p' = <[v := s']> (sp_stakes p);
  up_total : sp_total_staked p'
             = sp_total_staked p - from_option effective 0 (sp_stakes p !! v) + effective s';
  up_total_max : sp_total_staked p' <= u64_max;
  up_delegations : forall w, w <> v -> sp_delegations p' !! w = sp_delegations p !! w;
  up_delegations_inv : forall m, sp_delegations p' !! v = Some m -> delegations_inv v m;
  up_requests : sp_unstake_requests p' = sp_unstake_requests p;
  up_entry : entry_inv p' v s';
  up_registry : forall f w, w <> v ->
    sp_fingerprint_registry p' !! f = Some w <-> sp_fingerprint_registry p !! f = Some w;
  up_registered : forall f, sp_fingerprint_registry p' !! f = Some v ->
    f <> 0 /\ si_machine_fingerprint s' = f;
}.

Lemma delegated_to_eq p p' v :
  sp_delegations p' !! v = sp_delegations p !! v -> delegated_to p' v = delegated_to p v.
Proof. unfold delegated_to. by intros ->. Qed.

Lemma pool_update_inv p v s' p' : pool_inv p -> pool_update p v s' p' -> pool_inv p'.
Proof.
  intros [Hs Ht Hm Hd Hk Hr Hg] [Us Ut Um Ud Udi Ur Ue Ug Uv]. split; [| | done | | | by rewrite Ur |].
  - rewrite Us. intros w s [[-> <-]|[Hne Hw]]%lookup_insert_Some; [done|].
    destruct (Hs w s Hw) as [? ? Hdel ? Hfp]. split; try done.
    + rewrite Hdel. symmetry. apply delegated_to_eq, Ud. done.
    + intros Hf. by apply Ug, Hfp.
  - rewrite Us, Ut, Ht. destruct (sp_stakes p !! v) as [s|] eqn:Hv; simpl.
    + by rewrite (map_sum_insert effective _ v s s').
    + rewrite (map_sum_insert_new effective) by done. lia.
  - intros w m Hw. destruct (decide (w = v)) as [->|Hne]; [by apply Udi|].
    rewrite Ud in Hw by done. by apply Hd.
  - intros w m Hw. rewrite Us. destruct (decide (w = v)) as [->|Hne].
    + rewrite lookup_insert_eq. by eexists.
    + rewrite lookup_insert_ne by done. rewrite Ud in Hw by done. by apply (Hk w m).
  - intros f w Hf. rewrite Us. destruct (decide (w = v)) as [->|Hne].
    + rewrite lookup_insert_eq. destruct (Uv f Hf). eauto.
    + rewrite lookup_insert_ne by done. apply (Hg f w). by apply Ug.
Qed.

(** The self-bond of a known validator changes; [same_owner] is what the rest of
    its record keeps. *)
Definition same_owner (s s' : StakeInfo) : Prop :=
  si_validator s' = si_validator s /\ si_delegated_amount s' = si_delegated_amount s
  /\ si_machine_fingerprint s' = si_machine_fingerprint s.

Definition active_above_minimum (s : StakeInfo) : Prop :=
  si_is_active s = true -> MIN_VALIDATOR_STAKE <= effective s.

Section invariant_facts.
Context (p : StakePool) (Hp : pool_inv p).

Lemma inv_delegations_of v m : sp_delegations p !! v = Some m -> delegations_inv v m.
Proof. apply (pi_delegations p Hp). Qed.

Lemma inv_delegated_nonneg v s : sp_stakes p !! v = Some s -> 0 <= si_delegated_amount s.
Proof.
  intros Hv. rewrite (ei_delegated _ _ _ (pi_stakes p Hp v s Hv)).
  apply delegated_to_nonneg, inv_delegations_of.
Qed.

Lemma inv_effective_nonneg v s : sp_stakes p !! v = Some s -> 0 <= effective s.
Proof.
  intros Hv. pose proof (inv_delegated_nonneg v s Hv).
  destruct (ei_amount _ _ _ (pi_stakes p Hp v s Hv)). unfold effective. lia.
Qed.

Lemma inv_effective_le v s : sp_stakes p !! v = Some s -> effective s <= sp_total_staked p.
Proof.
  intros Hv. rewrite (pi_total p Hp).
  apply (map_sum_lookup effective _ v); [|done]. apply inv_effective_nonneg.
Qed.

Lemma inv_total_stake v s : sp_stakes p !! v = Some s -> StakeInfo_total_stake s = effective s.
Proof.
  intros Hv. pose proof (inv_effective_le v s Hv). pose proof (pi_total_max p Hp).
  unfold StakeInfo_total_stake, sat_add64, effective in *. lia.
Qed.

Lemma inv_unknown v : sp_stakes p !! v = None -> sp_delegations p !! v = None.
Proof.
  intros Hv. destruct (sp_delegations p !! v) as [m|] eqn:Hm; [|done].
  destruct (pi_delegated_known p Hp v m Hm). congruence.
Qed.

Lemma inv_unregistered v f : sp_stakes p !! v = None -> sp_fingerprint_registry p !! f <> Some v.
Proof. intros Hv Hf. destruct (pi_registry p Hp f v Hf) as (_ & s & Hs & _). congruence. Qed.

Lemma inv_registered v s f :
  sp_stakes p !! v = Some s -> sp_fingerprint_registry p !! f = Some v ->
  f <> 0 /\ si_machine_fingerprint s = f.
Proof. intros Hv Hf. destruct (pi_registry p Hp f v Hf) as (? & s' & Hs' & ?). by simplify_eq. Qed.

Lemma inv_unsigned : pool_unsigned p.
Proof.
  split.
  - intros v s Hv. split; [apply (ei_amount _ _ _ (pi_stakes p Hp v s Hv))|by eapply inv_delegated_nonneg].
  - intros v m Hm d a Ha. destruct (di_entries v m (inv_delegations_of v m Hm) d a Ha). lia.
  - intros k r Hr. destruct (pi_requests p Hp k r Hr). lia.
Qed.

Lemma inv_put v s s' t :
  sp_stakes p !! v = Some s -> same_owner s s' ->
  0 <= si_amount s' <= MAX_VALIDATOR_STAKE -> active_above_minimum s' ->
  t = sp_total_staked p - si_amount s + si_amount s' -> t <= u64_max ->
  pool_inv (set_sp_total_staked t (put_stake v s' p)).
Proof.
  intros Hv (Hval & Hdel & Hfp) Ham Hact -> Hmax. apply (pool_update_inv p v s'); [done|].
  destruct (pi_stakes p Hp v s Hv) as [Hk _ Hd _ Hf].
  split; simpl; try done.
  - rewrite Hv. simpl. unfold effective. lia.
  - apply inv_delegations_of.
  - split; simpl; try done; [congruence| |by rewrite Hfp].
    rewrite Hdel, Hd. by apply delegated_to_eq.
  - intros f Hr. rewrite Hfp. by eapply inv_registered.
Qed.

Lemma inv_put_new v s' t :
  sp_stakes p !! v = None -> si_validator s' = v -> si_delegated_amount s' = 0 ->
  si_machine_fingerprint s' = 0 ->
  0 <= si_amount s' <= MAX_VALIDATOR_STAKE -> active_above_minimum s' ->
  t = sp_total_staked p + si_amount s' -> t <= u64_max ->
  pool_inv (set_sp_total_staked t (put_stake v s' p)).
Proof.
  intros Hv Hval Hdel Hfp Ham Hact -> Hmax. apply (pool_update_inv p v s'); [done|].
  split; simpl; try done.
  - rewrite Hv. simpl. unfold effective. lia.
  - apply inv_delegations_of.
  - split; simpl; try done. rewrite Hdel. unfold delegated_to. simpl.
    rewrite (inv_unknown v Hv). simpl. by rewrite map_sum_empty.
  - intros f Hr. by apply inv_unregistered in Hr.
Qed.

(** The machine of a known validator changes to a free fingerprint, or to its own. *)
Lemma inv_set_fingerprint v s s' f :
  sp_stakes p !! v = Some s ->
  si_validator s' = si_validator s -> si_delegated_amount s' = si_delegated_amount s ->
  si_amount s' = si_amount s -> si_is_active s' = si_is_active s ->
  si_machine_fingerprint s' = f -> f <> 0 ->
  sp_fingerprint_registry p !! f = None \/ sp_fingerprint_registry p !! f = Some v ->
  let registry :=
    if negb (si_machine_fingerprint s =? 0)
    then delete (si_machine_fingerprint s) (sp_fingerprint_registry p)
    else sp_fingerprint_registry p in
  pool_inv (put_stake v s' (set_sp_fingerprint_registry (<[f := v]> registry) p)).
Proof.
  intros Hv Hval Hdel Ham Hact Hfp Hf Hfree registry. apply (pool_update_inv p v s'); [done|].
  destruct (pi_stakes p Hp v s Hv) as [Hk ? Hd Ha Hown].
  assert (effective s' = effective s) as Heff by (unfold effective; lia).
  assert (forall g w, registry !! g = Some w ->
            sp_fingerprint_registry p !! g = Some w /\ g <> si_machine_fingerprint s) as Hreg.
  { unfold registry. intros g w. destruct (Z.eqb_spec (si_machine_fingerprint s) 0) as [H0|H0]; simpl.
    - intros Hg. split; [done|]. intros ->. by destruct (pi_registry p Hp _ _ Hg).
    - intros [??]%lookup_delete_Some. done. }
  split; simpl; try done.
  - rewrite Hv. simpl. lia.
  - apply (pi_total_max p Hp).
  - apply inv_delegations_of.
  - split; simpl; [congruence|by rewrite Ham| |rewrite Hact, Heff; exact Ha|].
    + rewrite Hdel, Hd. by apply delegated_to_eq.
    + rewrite Hfp. by rewrite lookup_insert_eq.
  - intros g w Hw. rewrite lookup_insert_Some. split.
    + intros [[_ ?]|[_ Hg]]; [congruence|]. by apply Hreg.
    + intros Hg. right. assert (f <> g) as Hfg by (intros <-; destruct Hfree; congruence).
      split; [done|]. unfold registry.
      destruct (Z.eqb_spec (si_machine_fingerprint s) 0) as [H0|H0]; simpl; [done|].
      rewrite lookup_delete_ne; [done|]. intros <-. rewrite Hown in Hg by done. congruence.
  - intros g [[<- _]|[Hne Hg]]%lookup_insert_Some; [done|].
    apply Hreg in Hg as [Hg Hgne]. by destruct (inv_registered v s g Hv Hg).
Qed.

(** The delegations to a known validator change to [m]. *)
Lemma inv_set_delegations v s s' t m :
  sp_stakes p !! v = Some s ->
  si_validator s' = si_validator s -> si_machine_fingerprint s' = si_machine_fingerprint s ->
  si_amount s' = si_amount s -> active_above_minimum s' ->
  map_Forall (fun d a => d <> v /\ 0 < a) m -> si_delegated_amount s' = map_sum id m ->
  t = sp_total_staked p - si_delegated_amount s + si_delegated_amount s' -> t <= u64_max ->
  pool_inv (set_sp_delegations
              (if bool_decide (m = ∅) then delete v (sp_delegations p)
               else <[v := m]> (sp_delegations p))
              (set_sp_total_staked t (put_stake v s' p))).
Proof.
  intros Hv Hval Hfp Ham Hact Hm Hdel -> Hmax. apply (pool_update_inv p v s'); [done|].
  destruct (pi_stakes p Hp v s Hv) as [Hk ? Hd _ Hown].
  split; simpl; try done.
  - rewrite Hv. simpl. unfold effective. lia.
  - intros w Hw. case_bool_decide; [by rewrite lookup_delete_ne|by rewrite lookup_insert_ne].
  - intros m'. case_bool_decide; [by rewrite lookup_delete_eq|]. rewrite lookup_insert_eq.
    intros [= <-]. by split.
  - split; simpl; [congruence|by rewrite Ham| |done|by rewrite Hfp].
    rewrite Hdel. unfold delegated_to. simpl. case_bool_decide as He.
    + rewrite lookup_delete_eq. simpl. by rewrite He, map_sum_empty.
    + by rewrite lookup_insert_eq.
  - intros f Hr. rewrite Hfp. by eapply inv_registered.
Qed.

(** A validator without delegations is removed. *)
Lemma inv_remove v s :
  sp_stakes p !! v = Some s -> si_delegated_amount s = 0 -> pool_inv (remove_validator p v).
Proof.
  intros Hv Hdel. pose proof (inv_effective_le v s Hv) as Hle.
  destruct (pi_stakes p Hp v s Hv) as [Hk [Ham0 Ham] Hd _ Hown].
  assert (sp_delegations p !! v = None) as Hnd.
  { destruct (sp_delegations p !! v) as [m|] eqn:Hm; [exfalso|done].
    destruct (inv_delegations_of v m Hm) as [Hne Hpos].
    destruct (map_choose m Hne) as (d & a & Ha).
    assert (a <= map_sum id m) as Hs.
    { apply (map_sum_lookup id m d a); [|done]. intros d' a' [_ ?]%Hpos. unfold id. lia. }
    apply Hpos in Ha as [_ Ha]. unfold delegated_to in Hd. rewrite Hm in Hd. simpl in Hd. lia. }
  assert (forall q, sp_stakes q = delete v (sp_stakes p) ->
    sp_total_staked q = sp_total_staked p - si_amount s -> sp_delegations q = sp_delegations p ->
    sp_unstake_requests q = sp_unstake_requests p ->
    (forall f w, sp_fingerprint_registry q !! f = Some w
                 <-> sp_fingerprint_registry p !! f = Some w /\ w <> v) -> pool_inv q) as Hgen.
  { intros q Qs Qt Qd Qr Qg. split; rewrite ?Qs, ?Qd, ?Qr.
    - intros w s' [Hne Hw]%lookup_delete_Some. destruct (pi_stakes p Hp w s' Hw) as [? ? Hd' ? Hf].
      split; try done; [|intros; apply Qg; auto].
      rewrite Hd'. symmetry. apply delegated_to_eq. by rewrite Qd.
    - rewrite Qt, (pi_total p Hp), (map_sum_delete effective _ v s Hv). unfold effective. lia.
    - pose proof (pi_total_max p Hp). lia.
    - apply (pi_delegations p Hp).
    - intros w m Hw. rewrite lookup_delete_ne by congruence. by apply (pi_delegated_known p Hp w m).
    - apply (pi_requests p Hp).
    - intros f w [Hf Hne]%Qg. rewrite lookup_delete_ne by congruence. by apply (pi_registry p Hp). }
  unfold remove_validator. rewrite Hv. unfold effective in Hle.
  destruct (Z.eqb_spec (si_machine_fingerprint s) 0) as [H0|H0]; simpl; apply Hgen; simpl; try done;
    try (unfold sat_sub; lia).
  - intros f w. split; [|tauto]. intros Hf. split; [done|]. intros ->.
    by destruct (inv_registered v s f Hv Hf) as [? <-].
  - intros f w. rewrite lookup_delete_Some. split; [intros [Hne Hf]|intros [Hf Hne]].
    + split; [done|]. intros ->. by destruct (inv_registered v s f Hv Hf) as [? <-].
    + split; [|done]. intros <-. rewrite Hown in Hf by done. congruence.
Qed.

Lemma inv_set_requests r :
  map_Forall (fun k r => (ur_validator r, ur_staker r) = k /\ 0 < ur_amount r) r ->
  pool_inv (set_sp_unstake_requests r p).
Proof.
  intros Hr. destruct Hp as [Hs Ht Hm Hd Hk _ Hg]. split; try done.
  intros v s Hv. destruct (Hs v s Hv). by split.
Qed.
End invariant_facts.

(** ** What an accepted delegation does *)

Definition with_delegation (d v : Pubkey) (a : Z) (s : StakeInfo) (p : StakePool) : StakePool :=
  set_sp_delegations
    (<[v := <[d := delegation p v d + a]> (default ∅ (sp_delegations p !! v))]> (sp_delegations p))
    (set_sp_total_staked (sp_total_staked p + a)
       (put_stake v (refresh_active (set_si_delegated_amount (si_delegated_amount s + a) s)) p)).

Lemma delegation_lookup p v d :
  delegation p v d = default 0 (default ∅ (sp_delegations p !! v) !! d).
Proof.
  unfold delegation. destruct (sp_delegations p !! v); simpl; [done|]. by rewrite lookup_empty.
Qed.

Lemma delegate_Ok d v a p p' :
  StakePool_delegate d v a p = Ok p' ->
  exists s, sp_stakes p !! v = Some s /\ a <> 0 /\ sp_total_staked p + a <= u64_max
            /\ p' = with_delegation d v a s p.
Proof.
  unfold StakePool_delegate. intros [H0%Z.eqb_neq H]%guard_Ok.
  apply or_err_Ok in H as (s & Hv & H). apply guard_Ok in H as [_ H].
  apply or_err_Ok in H as (cap & _ & H). apply or_err_Ok in H as (eff & _ & H).
  apply guard_Ok in H as [_ H]. apply and_then_Ok in H as (c & _ & H). case_match; [done|].
  apply or_err_Ok in H as (t & [-> Ht]%checked_add64_Some & H).
  apply or_err_Ok in H as (nd & [-> _]%checked_add64_Some & H).
  apply or_err_Ok in H as (ns & [-> _]%checked_add64_Some & [= <-]). by exists s.
Qed.
