(* ===== verification/PoolRun.v ===== *)
(** * Runs of the stake pool

    Every operation of the pool preserves the invariant, so a run of admissible
    operations from the empty pool passes [validate_invariants] at every point. *)

From S2P Require Import Prelude Crypto Stake Pool PoolInvariant.
From stdpp Require Import base tactics numbers list gmap.
From Stdlib Require Import ZArith Lia.

Local Open Scope Z_scope.
Local Open Scope rust_scope.

(** ** Operations *)

Inductive PoolOp :=
| OpStake (validator : Pubkey) (amount slot : Z)
| OpStakeWithIndex (validator : Pubkey) (amount slot index : Z)
| OpUpsertStake (validator : Pubkey) (amount slot : Z)
| OpUpsertStakeFull (entry : StakeInfo)
| OpTopUpStake (validator : Pubkey) (amount : Z)
| OpAddValidatorStake (validator : Pubkey) (amount : Z)
| OpRemoveGhosts (slot grace : Z)
| OpSlash (validator : Pubkey) (amount : Z)
| OpBlockReward (validator : Pubkey) (slot : Z)
| OpEpochRewards (pool start : Z)
| OpFees (validator : Pubkey) (fees slot : Z)
| OpClaimRewards (validator : Pubkey) (slot : Z)
| OpRecordBlock (validator : Pubkey)
| OpDelegate (delegator validator : Pubkey) (amount : Z)
| OpUndelegate (delegator validator : Pubkey) (amount : Z)
| OpRequestDelegationUnstake (delegator validator : Pubkey) (amount slot : Z)
| OpRequestUnstake (validator : Pubkey) (amount slot : Z) (staker : Pubkey)
| OpClaimUnstake (validator : Pubkey) (slot : Z) (staker : Pubkey)
| OpNextBootstrapIndex
| OpRegisterFingerprint (validator : Pubkey) (fingerprint : Z)
| OpMigrateFingerprint (validator : Pubkey) (fingerprint slot : Z)
| OpBootstrap (validator : Pubkey) (amount slot fingerprint : Z)
| OpReclassify (validator : Pubkey) (slot : Z).

(** The pool after a call; an error leaves it as it was. *)
Definition after {A} (pool : A -> StakePool) (p : StakePool) (r : result A PoolError) : StakePool :=
  match r with Ok a => pool a | Err _ => p end.

Definition pool_step (op : PoolOp) (p : StakePool) : StakePool :=
  match op with
  | OpStake v a c => after id p (StakePool_stake v a c p)
  | OpStakeWithIndex v a c i => after id p (StakePool_stake_with_index v a c i p)
  | OpUpsertStake v a c => StakePool_upsert_stake v a c p
  | OpUpsertStakeFull e => StakePool_upsert_stake_full e p
  | OpTopUpStake v a => after snd p (StakePool_top_up_stake v a p)
  | OpAddValidatorStake v a => after id p (StakePool_add_validator_stake v a p)
  | OpRemoveGhosts c g => (StakePool_remove_ghost_validators c g p).2
  | OpSlash v a => (StakePool_slash_validator v a p).2
  | OpBlockReward v c => (StakePool_distribute_block_reward v c p).2
  | OpEpochRewards r c => (StakePool_distribute_epoch_staker_rewards_from_pool r c p).2
  | OpFees v f c => StakePool_distribute_fees v f c p
  | OpClaimRewards v c => (StakePool_claim_rewards v c p).2
  | OpRecordBlock v => after id p (StakePool_record_block_produced v p)
  | OpDelegate d v a => after id p (StakePool_delegate d v a p)
  | OpUndelegate d v a => after id p (StakePool_undelegate d v a p)
  | OpRequestDelegationUnstake d v a c =>
      after snd p (StakePool_request_delegation_unstake d v a c p)
  | OpRequestUnstake v a c st => after snd p (StakePool_request_unstake v a c st p)
  | OpClaimUnstake v c st => after snd p (StakePool_claim_unstake v c st p)
  | OpNextBootstrapIndex => (StakePool_next_bootstrap_index p).2
  | OpRegisterFingerprint v f => after id p (StakePool_register_fingerprint v f p)
  | OpMigrateFingerprint v f c => after id p (StakePool_migrate_fingerprint v f c p)
  | OpBootstrap v a c f => after snd p (StakePool_try_bootstrap_with_fingerprint v a c f p)
  | OpReclassify v c => after snd p (StakePool_reclassify_self_funded_as_bootstrap v c p)
  end.

(** ** Side conditions

    [headroom]: the pool's total does not saturate; the token supply is far below
    [u64::MAX].  The other conditions are obligations of the callers, which the
    operations do not check. *)

Definition headroom (p : StakePool) (amount : Z) : Prop :=
  0 <= amount /\ sp_total_staked p + amount <= u64_max.

(** A fingerprint is registered for a known validator that has none. *)
Definition registrable (p : StakePool) (v : Pubkey) (f : Z) : Prop :=
  f <> 0 -> sp_fingerprint_registry p !! f = None ->
  exists s, sp_stakes p !! v = Some s /\ si_machine_fingerprint s = 0.

Record importable (p : StakePool) (e : StakeInfo) : Prop := {
  im_amount : si_amount e <= MAX_VALIDATOR_STAKE;
  im_headroom : headroom p (si_amount e);
  im_new : sp_stakes p !! si_validator e = None ->
    si_delegated_amount e = 0 /\ active_above_minimum e
    /\ (si_machine_fingerprint e <> 0 -> sp_fingerprint_registry p !! si_machine_fingerprint e = None);
}.

Definition admissible (op : PoolOp) (p : StakePool) : Prop :=
  match op with
  | OpStake _ a _ | OpStakeWithIndex _ a _ _ | OpTopUpStake _ a | OpAddValidatorStake _ a =>
      headroom p a
  | OpUpsertStake _ a _ => headroom p a /\ a <= MAX_VALIDATOR_STAKE
  | OpUpsertStakeFull e => importable p e
  | OpRemoveGhosts c g =>
      map_Forall (fun _ s => is_ghost c g s = true -> si_delegated_amount s = 0) (sp_stakes p)
  | OpDelegate d v a => 0 <= a /\ d <> v
  | OpSlash _ a | OpUndelegate _ _ a | OpRequestDelegationUnstake _ _ a _
  | OpRequestUnstake _ a _ _ => 0 <= a
  | OpRegisterFingerprint v f => registrable p v f
  | OpBootstrap v a _ f =>
      headroom p a /\ a <= MAX_VALIDATOR_STAKE
      /\ (is_Some (sp_stakes p !! v) -> registrable p v f)
  | _ => True
  end.

(** ** Preservation *)

Lemma refresh_active_above s : active_above_minimum (refresh_active s).
Proof.
  unfold active_above_minimum, refresh_active, StakeInfo_meets_minimum, StakeInfo_total_stake.
  simpl. intros H%Z.leb_le. unfold effective, sat_add64 in *. simpl. lia.
Qed.
#[export] Hint Resolve refresh_active_above : lichen.

(** The slashing total, the number of grants and the Staking V2 state are not part
    of the invariant. *)
Lemma inv_frame p slashed grants v2 :
  pool_inv p ->
  pool_inv (mkStakePool (sp_stakes p) (sp_total_staked p) slashed (sp_unstake_requests p)
              (sp_delegations p) (sp_fingerprint_registry p) grants v2).
Proof. intros [Qs Qt Qm Qd Qk Qr Qg]. split; try done. intros w s Hw. destruct (Qs w s Hw). by split. Qed.

(** [set_sp_total_staked] with the old total is the identity. *)
Lemma inv_put_same p v s s' :
  pool_inv p -> sp_stakes p !! v = Some s -> same_owner s s' -> si_amount s' = si_amount s ->
  si_is_active s' = si_is_active s -> pool_inv (put_stake v s' p).
Proof.
  intros Hp Hv Hs Ham Hact.
  destruct (pi_stakes p Hp v s Hv) as [_ ? _ Ha _]. destruct Hs as (? & ? & ?).
  apply (inv_put p Hp v s s' (sp_total_staked p)); try done; [by rewrite Ham| |lia|apply (pi_total_max p Hp)].
  intros H'. rewrite Hact in H'. apply Ha in H'. unfold effective in *. lia.
Qed.

(** Closes the side conditions of [inv_put] for the old record [s]. *)
Ltac inv_put s :=
  lazymatch goal with Hp : pool_inv ?p, Hv : sp_stakes ?p !! ?v = Some s |- _ =>
    apply (inv_put p Hp v s);
    [done|by repeat split|simpl|auto with lichen|simpl|simpl];
    unfold sat_add64, sat_sub, MAX_VALIDATOR_STAKE, u64_max in *; lia
  end.

Section preserve.
Context (p : StakePool) (Hp : pool_inv p).

Lemma stake_with_index_inv v a c i p' :
  headroom p a -> StakePool_stake_with_index v a c i p = Ok p' -> pool_inv p'.
Proof.
  intros [Ha Hmax]. unfold StakePool_stake_with_index, stake_cap.
  rewrite guard_Ok. intros [Hmin%Z.ltb_ge H].
  destruct (sp_stakes p !! v) as [s|] eqn:Hv.
  - destruct (Z.ltb_spec MAX_VALIDATOR_STAKE (sat_add64 (si_amount s) a)) as [|Hcap]; [done|].
    injection H as <-. destruct (ei_amount _ _ _ (pi_stakes p Hp v s Hv)) as [Hs0 HsM].
    inv_put s.
  - destruct (Z.ltb_spec MAX_VALIDATOR_STAKE a) as [|Hcap]; [done|].
    injection H as <-.
    apply (inv_put_new p Hp v); simpl; try done; unfold sat_add64; try lia.
    unfold active_above_minimum, effective. simpl. intros ?%Z.leb_le. lia.
Qed.

Lemma upsert_stake_inv v a c :
  headroom p a -> a <= MAX_VALIDATOR_STAKE -> pool_inv (StakePool_upsert_stake v a c p).
Proof.
  intros [Ha Hmax] Hcap. unfold StakePool_upsert_stake.
  destruct (sp_stakes p !! v) as [s|] eqn:Hv.
  - pose proof (inv_effective_le p Hp v s Hv) as Hle.
    pose proof (inv_delegated_nonneg p Hp v s Hv) as Hd. unfold effective in Hle.
    destruct (ei_amount _ _ _ (pi_stakes p Hp v s Hv)) as [Hs0 HsM].
    destruct (Z.ltb_spec (si_amount s) a).
    + change (pool_inv (set_sp_total_staked (sat_add64 (sp_total_staked p) (a - si_amount s))
        (put_stake v (refresh_active (set_si_amount a s)) p))). inv_put s.
    + pose proof (pi_total_max p Hp).
      change (pool_inv (set_sp_total_staked (sat_sub (sp_total_staked p) (si_amount s - a))
        (put_stake v (refresh_active (set_si_amount a s)) p))). inv_put s.
  - change (pool_inv (set_sp_total_staked (sat_add64 (sp_total_staked p) a)
      (put_stake v (StakeInfo_new v a c) p))).
    apply (inv_put_new p Hp v); simpl; try done; unfold sat_add64; try lia.
    unfold active_above_minimum, effective. simpl. intros ?%Z.leb_le. lia.
Qed.

Lemma top_up_stake_inv v a r :
  headroom p a -> StakePool_top_up_stake v a p = Ok r -> pool_inv r.2.
Proof.
  intros [Ha Hmax]. unfold StakePool_top_up_stake, StakeInfo_top_up_stake.
  intros (s & Hv & H)%or_err_Ok. destruct (ei_amount _ _ _ (pi_stakes p Hp v s Hv)) as [Hs0 HsM].
  destruct (a =? 0); [done|].
  destruct (Z.ltb_spec (sat_sub MAX_VALIDATOR_STAKE (si_amount s)) a); [done|].
  injection H as <-. simpl.
  change (pool_inv (set_sp_total_staked (sat_add64 (sp_total_staked p) a)
    (put_stake v (refresh_active (set_si_amount (sat_add64 (si_amount s) a) s)) p))). inv_put s.
Qed.

Lemma add_validator_stake_inv v a p' :
  headroom p a -> StakePool_add_validator_stake v a p = Ok p' -> pool_inv p'.
Proof.
  intros [Ha Hmax]. unfold StakePool_add_validator_stake, StakeInfo_add_stake.
  intros (s & Hv & H)%or_err_Ok. destruct (pi_stakes p Hp v s Hv) as [_ [Hs0 HsM] _ Hact _].
  destruct (StakeInfo_is_fully_vested s); [|done]. simpl in H.
  destruct (Z.ltb_spec (sat_sub MAX_VALIDATOR_STAKE (si_amount s)) a); [done|].
  injection H as <-.
  assert (active_above_minimum (set_si_amount (sat_add64 (si_amount s) a) s)).
  { unfold active_above_minimum, effective in *. simpl. intros ?%Hact.
    unfold sat_add64, sat_sub, MAX_VALIDATOR_STAKE, u64_max in *. lia. }
  inv_put s.
Qed.

Lemma slash_validator_inv v a : 0 <= a -> pool_inv (StakePool_slash_validator v a p).2.
Proof.
  intros Ha. unfold StakePool_slash_validator, StakeInfo_slash.
  destruct (sp_stakes p !! v) as [s|] eqn:Hv; [|done].
  pose proof (inv_effective_le p Hp v s Hv) as Hle. pose proof (pi_total_max p Hp) as Hmax.
  pose proof (inv_delegated_nonneg p Hp v s Hv) as Hd. unfold effective in Hle.
  destruct (ei_amount _ _ _ (pi_stakes p Hp v s Hv)) as [Hs0 HsM].
  destruct ((Z.min a (si_amount s) =? 0) || (si_amount s =? 0)); cbn [fst snd]; apply inv_frame.
  - apply (inv_put p Hp v s s); [done|by repeat split|done| |simpl; unfold sat_sub; lia|simpl; unfold sat_sub; lia].
    exact (ei_active _ _ _ (pi_stakes p Hp v s Hv)).
  - match goal with |- context [<[v := set_si_is_active _ ?s']> _] =>
      change (pool_inv (set_sp_total_staked (sat_sub (sp_total_staked p) (Z.min a (si_amount s)))
                          (put_stake v (refresh_active s') p))) end.
    inv_put s.
Qed.

Lemma claim_same_owner c n s :
  let s' := (StakeInfo_claim_rewards c n s).2 in
  same_owner s s' /\ si_amount s' = si_amount s /\ si_is_active s' = si_is_active s
  /\ si_blocks_produced s' = si_blocks_produced s.
Proof.
  unfold StakeInfo_claim_rewards, StakeInfo_debt_fraction, same_owner.
  repeat case_match; simplify_eq; done.
Qed.

Lemma block_reward_inv v c : pool_inv (StakePool_distribute_block_reward v c p).2.
Proof.
  unfold StakePool_distribute_block_reward. destruct (sp_stakes p !! v) as [s|] eqn:Hv; [|done].
  case_match; [|done]. by apply (inv_put_same p v s).
Qed.

Lemma fees_inv v f c : pool_inv (StakePool_distribute_fees v f c p).
Proof.
  unfold StakePool_distribute_fees. destruct (sp_stakes p !! v) as [s|] eqn:Hv; [|done].
  case_match; [|done]. by apply (inv_put_same p v s).
Qed.

Lemma claim_rewards_inv v c : pool_inv (StakePool_claim_rewards v c p).2.
Proof.
  unfold StakePool_claim_rewards. destruct (sp_stakes p !! v) as [s|] eqn:Hv; [|done].
  pose proof (claim_same_owner c (num_active p) s) as Hc.
  destruct (StakeInfo_claim_rewards c (num_active p) s) as [r s']. destruct Hc as (? & ? & ? & _).
  by apply (inv_put_same p v s).
Qed.

Lemma settle_share_inv c n m l share : pool_inv (settle_share c n (m, l, p) share).2.
Proof.
  destruct share as [v r]. unfold settle_share. destruct (sp_stakes p !! v) as [s|] eqn:Hv; [|done].
  pose proof (claim_same_owner c n (StakeInfo_add_reward r c s)) as Hc.
  destruct (StakeInfo_claim_rewards c n (StakeInfo_add_reward r c s)) as [[? ?] s'].
  destruct Hc as (? & ? & ? & _). by apply (inv_put_same p v s).
Qed.

Lemma record_block_inv v p' : StakePool_record_block_produced v p = Ok p' -> pool_inv p'.
Proof.
  unfold StakePool_record_block_produced. destruct (sp_stakes p !! v) as [s|] eqn:Hv; [|by intros [= <-]].
  intros (n & _ & [= <-])%or_err_Ok. by apply (inv_put_same p v s).
Qed.

Lemma reclassify_inv v c r : StakePool_reclassify_self_funded_as_bootstrap v c p = Ok r -> pool_inv r.2.
Proof.
  unfold StakePool_reclassify_self_funded_as_bootstrap. intros (s & Hv & H)%or_err_Ok.
  do 3 (apply guard_Ok in H as [_ H]). injection H as <-. simpl.
  destruct (ei_amount _ _ _ (pi_stakes p Hp v s Hv)) as [Hs0 HsM].
  pose proof (pi_total_max p Hp).
  match goal with |- pool_inv (put_stake v (refresh_active ?s') _) =>
    assert (pool_inv (set_sp_total_staked (sp_total_staked p) (put_stake v (refresh_active s') p))) as Hq end.
  - apply (inv_put p Hp v s); auto with lichen; try (case_match; done || (simpl; lia)).
  - exact (inv_frame _ _ _ _ Hq).
Qed.

Lemma claim_unstake_inv v c st r : StakePool_claim_unstake v c st p = Ok r -> pool_inv r.2.
Proof.
  intros (q & Hq & H)%or_err_Ok. apply guard_Ok in H as [_ [= <-]].
  apply inv_set_requests; [done|]. apply map_Forall_delete, (pi_requests p Hp).
Qed.

Lemma request_unstake_inv v a c st r :
  0 <= a -> StakePool_request_unstake v a c st p = Ok r -> pool_inv r.2.
Proof.
  intros Ha (s & Hv & H)%or_err_Ok. apply guard_Ok in H as [_ H].
  unfold StakeInfo_request_unstake in H. destruct (StakeInfo_is_fully_vested s); [|done].
  destruct ((a =? 0) || (si_amount s <? a)) eqn:Hg; [done|]. simpl in H.
  apply orb_false_iff in Hg as [Ha0%Z.eqb_neq Ham%Z.ltb_ge].
  destruct (checked_add64 c UNSTAKE_COOLDOWN_SLOTS) as [u|]; [|done]. injection H as <-.
  pose proof (inv_effective_le p Hp v s Hv) as Hle. pose proof (pi_total_max p Hp) as Hmax.
  pose proof (inv_delegated_nonneg p Hp v s Hv) as Hd. unfold effective in Hle.
  destruct (pi_stakes p Hp v s Hv) as [Hk [Hs0 HsM] _ _ _].
  match goal with |- pool_inv (_, set_sp_total_staked ?t (put_stake v ?s' (set_sp_unstake_requests ?r _))).2 =>
    change (pool_inv (set_sp_unstake_requests r (set_sp_total_staked t (put_stake v s' p)))) end.
  apply inv_set_requests; [inv_put s|].
  apply map_Forall_insert_2; [|apply (pi_requests p Hp)]. simpl. split; [by rewrite Hk|lia].
Qed.

Lemma register_fingerprint_inv v f p' :
  registrable p v f -> StakePool_register_fingerprint v f p = Ok p' -> pool_inv p'.
Proof.
  intros Hreg. unfold StakePool_register_fingerprint.
  destruct (Z.eqb_spec f 0) as [|Hf]; [by intros [= <-]|].
  destruct (sp_fingerprint_registry p !! f) as [o|] eqn:Ho; [case_match; [by intros [= <-]|done]|].
  destruct (Hreg Hf Ho) as (s & Hv & H0). simpl. rewrite Hv. intros [= <-].
  pose proof (inv_set_fingerprint p Hp v s (set_si_machine_fingerprint f s) f Hv) as Hi.
  rewrite H0 in Hi. apply Hi; auto.
Qed.

Lemma other_owner_None f v :
  other_owner f v p = None ->
  sp_fingerprint_registry p !! f = None \/ sp_fingerprint_registry p !! f = Some v.
Proof.
  unfold other_owner. destruct (sp_fingerprint_registry p !! f) as [o|]; [|by left].
  destruct (Z.eqb_spec o v) as [->|]; [by right|done].
Qed.

Lemma migrate_fingerprint_inv v f c p' :
  StakePool_migrate_fingerprint v f c p = Ok p' -> pool_inv p'.
Proof.
  unfold StakePool_migrate_fingerprint. intros [Hf%Z.eqb_neq H]%guard_Ok.
  destruct (other_owner f v p) eqn:Ho; [done|]. apply other_owner_None in Ho.
  apply or_err_Ok in H as (s & Hv & H). apply guard_Ok in H as [_ [= <-]].
  by apply (inv_set_fingerprint p Hp v s).
Qed.

Lemma delegate_inv d v a p' :
  0 <= a -> d <> v -> StakePool_delegate d v a p = Ok p' -> pool_inv p'.
Proof.
  intros Ha Hdv (s & Hv & H0 & Ht & ->)%delegate_Ok.
  unfold with_delegation. set (m := default ∅ (sp_delegations p !! v)).
  set (m' := <[d := delegation p v d + a]> m).
  pose proof (inv_set_delegations p Hp v s
    (refresh_active (set_si_delegated_amount (si_delegated_amount s + a) s))
    (sp_total_staked p + a) m' Hv) as Hi.
  assert (m' <> ∅) as Hne by apply insert_non_empty.
  rewrite bool_decide_eq_false_2 in Hi by done.
  assert (map_Forall (fun d a => d <> v /\ 0 < a) m) as Hm.
  { unfold m. destruct (sp_delegations p !! v) as [m0|] eqn:Hm0; simpl; [|apply map_Forall_empty].
    apply (di_entries v m0), (inv_delegations_of p Hp v m0 Hm0). }
  assert (0 <= delegation p v d /\ map_sum id m' = map_sum id m + a) as [Hd0 Hsum].
  { unfold m'. rewrite delegation_lookup. fold m.
    destruct (m !! d) as [x|] eqn:Hx; simpl.
    - apply Hm in Hx as Hx'. rewrite (map_sum_insert id m d x) by done. unfold id. lia.
    - rewrite map_sum_insert_new by done. unfold id. lia. }
  apply Hi; auto with lichen; simpl; [|rewrite Hsum; f_equal|lia].
  - apply map_Forall_insert_2; [split; [done|lia]|done].
  - apply (ei_delegated _ _ _ (pi_stakes p Hp v s Hv)).
Qed.

(** The entries of a validator after a reduction. *)
Definition reduced (m : gmap Pubkey Z) (d : Pubkey) (x a : Z) : gmap Pubkey Z :=
  if x - a =? 0 then delete d m else <[d := x - a]> m.

Lemma reduced_spec v m d x a :
  m !! d = Some x -> a <= x -> map_Forall (fun d a => d <> v /\ 0 < a) m ->
  map_Forall (fun d a => d <> v /\ 0 < a) (reduced m d x a)
  /\ map_sum id (reduced m d x a) = map_sum id m - a.
Proof.
  intros Hx Ha Hm. unfold reduced. destruct (Z.eqb_spec (x - a) 0).
  - split; [by apply map_Forall_delete|]. rewrite (map_sum_delete id m d x) by done. unfold id. lia.
  - split; [apply map_Forall_insert_2; [|done]; apply Hm in Hx; simpl in *; lia|].
    rewrite (map_sum_insert id m d x) by done. unfold id. lia.
Qed.

Lemma delegation_entry v d x :
  delegation p v d = x -> 0 < x ->
  exists m, sp_delegations p !! v = Some m /\ m !! d = Some x
            /\ map_Forall (fun d a => d <> v /\ 0 < a) m.
Proof.
  unfold delegation. destruct (sp_delegations p !! v) as [m|] eqn:Hm; simpl; [|lia].
  destruct (m !! d) eqn:Hd; simpl; [intros -> _|lia]. exists m. split_and!; try done.
  apply (di_entries v m), (inv_delegations_of p Hp v m Hm).
Qed.

Lemma undelegate_inv d v a p' :
  0 <= a -> StakePool_undelegate d v a p = Ok p' -> pool_inv p'.
Proof.
  intros Ha. unfold StakePool_undelegate. intros [H0%Z.eqb_neq H]%guard_Ok.
  apply guard_Ok in H as [Hle%Z.ltb_ge H].
  apply or_err_Ok in H as (s & Hv & H). apply guard_Ok in H as [Hs%Z.ltb_ge [= <-]]. simpl.
  pose proof (inv_effective_le p Hp v s Hv) as Ht. pose proof (pi_total_max p Hp) as Hmax.
  destruct (pi_stakes p Hp v s Hv) as [Hk [Hs0 HsM] Hdel _ _]. unfold effective in Ht.
  destruct (delegation_entry v d _ eq_refl) as (m & Hm & Hx & Hpos); [lia|].
  destruct (reduced_spec v m d _ a Hx Hle Hpos) as [Hpos' Hsum].
  unfold delegated_to in Hdel. rewrite Hm in Hdel. simpl in Hdel.
  assert (delegation p v d <= map_sum id m) as Hdm.
  { apply (map_sum_lookup id m d); [|done]. intros ? ? [_ ?]%Hpos. unfold id. lia. }
  pose proof (inv_set_delegations p Hp v s
    (refresh_active (set_si_delegated_amount (si_delegated_amount s - a) s))
    (sat_sub (sp_total_staked p) a) (reduced m d (delegation p v d) a) Hv) as Hi.
  unfold reduce_delegation. rewrite Hm, Hx, wrap_small by (unfold u64_max in *; lia).
  apply Hi; auto with lichen; simpl; unfold sat_sub; lia.
Qed.

Lemma request_delegation_unstake_inv d v a c r :
  0 <= a -> StakePool_request_delegation_unstake d v a c p = Ok r -> pool_inv r.2.
Proof.
  intros Ha. unfold StakePool_request_delegation_unstake. intros [H0%Z.eqb_neq H]%guard_Ok.
  apply guard_Ok in H as [_ H]. apply guard_Ok in H as [_ H].
  apply or_err_Ok in H as (u & _ & H). apply and_then_Ok in H as (q & Hq & [= <-]).
  assert (pool_inv q) as Hqi by by eapply undelegate_inv. simpl.
  apply inv_set_requests; [done|].
  apply map_Forall_insert_2; [simpl; split; [done|lia]|apply (pi_requests q Hqi)].
Qed.

Lemma next_bootstrap_index_inv : pool_inv (StakePool_next_bootstrap_index p).2.
Proof. unfold StakePool_next_bootstrap_index. case_match; [by apply inv_frame|done]. Qed.
End preserve.

Lemma epoch_rewards_inv p r c :
  pool_inv p -> pool_inv (StakePool_distribute_epoch_staker_rewards_from_pool r c p).2.
Proof.
  intros Hp. unfold StakePool_distribute_epoch_staker_rewards_from_pool. case_match; [done|].
  assert (forall n l acc, pool_inv acc.2 -> pool_inv (foldl (settle_share c n) acc l).2) as Hf.
  { intros n l. induction l as [|x l IH]; intros acc Hacc; simpl; [done|].
    apply IH. destruct acc as [[? ?] ?]. by apply settle_share_inv. }
  specialize (Hf (num_active p) (StakePool_distribute_epoch_rewards r p) (0, [], p) Hp).
  by destruct (foldl _ _ _) as [[? ?] ?].
Qed.

Lemma remove_validator_other p v w :
  v <> w -> sp_stakes (remove_validator p v) !! w = sp_stakes p !! w.
Proof.
  intros Hne. unfold remove_validator. repeat case_match; simpl; by rewrite ?lookup_delete_ne.
Qed.

Lemma remove_validators_inv l p :
  pool_inv p -> NoDup l ->
  (forall v, v ∈ l -> exists s, sp_stakes p !! v = Some s /\ si_delegated_amount s = 0) ->
  pool_inv (foldl remove_validator p l).
Proof.
  revert p. induction l as [|v l IH]; intros p Hp Hnd Hs; simpl; [done|].
  apply NoDup_cons in Hnd as [Hv Hl].
  destruct (Hs v) as (s & Hvs & Hd); [left|]. apply IH; [by apply (inv_remove p Hp v s)|done|].
  intros w Hw. rewrite remove_validator_other by set_solver. apply Hs. by right.
Qed.

Lemma remove_ghosts_inv p c g :
  pool_inv p ->
  (forall v s, sp_stakes p !! v = Some s -> is_ghost c g s = true -> si_delegated_amount s = 0) ->
  pool_inv (StakePool_remove_ghost_validators c g p).2.
Proof.
  intros Hp Hg. unfold StakePool_remove_ghost_validators. simpl.
  set (f := fun '(pk, info) => if is_ghost c g info then Some pk else None).
  apply remove_validators_inv; [done| |].
  - assert (forall l : list (Pubkey * StakeInfo), NoDup l.*1 -> NoDup (omap f l)) as Hnd;
      [|apply Hnd, NoDup_fst_map_to_list].
    induction l as [|[v s] l IH]; simpl; [constructor|]. intros [Hv Hl]%NoDup_cons.
    destruct (is_ghost c g s); [|by apply IH]. apply NoDup_cons. split; [|by apply IH].
    intros ([w s'] & Hw & Hf)%list_elem_of_omap. apply Hv. unfold f in Hf.
    destruct (is_ghost c g s'); [injection Hf as ->|done]. apply list_elem_of_fmap. by exists (v, s').
  - intros v ([w s] & Hw%elem_of_map_to_list & Hf)%list_elem_of_omap. unfold f in Hf.
    case_match; simplify_eq. eauto.
Qed.

Lemma merge_spec e s :
  same_owner s (merge_progress e s)
  /\ si_amount (merge_progress e s) = Z.max (si_amount s) (si_amount e).
Proof.
  unfold merge_progress, same_owner.
  destruct (Z.ltb_spec (si_amount s) (si_amount e)); repeat case_match; simpl; split_and!; done || lia.
Qed.

Lemma merge_counters_spec e s :
  same_owner s (merge_counters e s) /\ si_amount (merge_counters e s) = si_amount s
  /\ active_above_minimum (merge_counters e s).
Proof.
  unfold merge_counters. split_and!; [|by repeat case_match|apply refresh_active_above].
  unfold same_owner. by repeat case_match.
Qed.

Lemma upsert_stake_full_inv p e :
  pool_inv p -> importable p e -> pool_inv (StakePool_upsert_stake_full e p).
Proof.
  intros Hp [Hmax [Ham0 Hhead] Hnew]. unfold StakePool_upsert_stake_full.
  destruct (sp_stakes p !! si_validator e) as [s|] eqn:Hv.
  - set (v := si_validator e) in *. set (s1 := merge_counters e (merge_progress e s)).
    destruct (merge_spec e s) as [(M1 & M2 & M3) Mam].
    destruct (merge_counters_spec e (merge_progress e s)) as ((C1 & C2 & C3) & Cam & Cact).
    destruct (ei_amount _ _ _ (pi_stakes p Hp v s Hv)) as [Hs0 HsM].
    pose proof (pi_total_max p Hp) as Htm.
    set (t := sp_total_staked p - si_amount s + si_amount s1).
    assert (pool_inv (set_sp_total_staked t (put_stake v s1 p))) as H1.
    { apply (inv_put p Hp v s); [done|unfold same_owner, s1; split_and!; congruence|unfold s1; lia|done|done|unfold t, s1; lia]. }
    match goal with |- context [if si_amount s <? _ then ?q else p] =>
      assert ((if si_amount s <? si_amount e then q else p) = set_sp_total_staked t p) as -> end.
    { unfold t, s1. rewrite Cam, Mam. unfold sat_add64.
      destruct (Z.ltb_spec (si_amount s) (si_amount e)).
      - f_equal. lia.
      - destruct p. unfold set_sp_total_staked. simpl in *. f_equal. lia. }
    destruct ((si_machine_fingerprint (merge_progress e s) =? 0)
              && negb (si_machine_fingerprint e =? 0)) eqn:Hf; [|exact H1].
    destruct (other_owner _ _ _) eqn:Ho; [exact H1|].
    apply andb_true_iff in Hf as [Hf0%Z.eqb_eq Hf%negb_true_iff%Z.eqb_neq].
    apply (other_owner_None _ _ v) in Ho.
    pose proof (inv_set_fingerprint _ H1 v s1
      (merge_counters e (set_si_machine_fingerprint (si_machine_fingerprint e) (merge_progress e s)))
      (si_machine_fingerprint e)) as Hi.
    assert (si_machine_fingerprint s1 = 0) as H10 by (unfold s1; congruence). rewrite H10 in Hi.
    unfold put_stake in *. simpl in *. rewrite insert_insert_eq in Hi.
    apply Hi; try done; [apply lookup_insert_eq|unfold s1, merge_counters; by repeat case_match..].
  - destruct (Hnew eq_refl) as (Hd & Hact & Hfp).
    set (v := si_validator e) in *.
    assert (pool_inv (set_sp_total_staked (sat_add64 (sp_total_staked p) (si_amount e))
                        (put_stake v (set_si_machine_fingerprint 0 e) p))) as H1.
    { apply (inv_put_new p Hp); try done; unfold sat_add64; simpl; lia. }
    set (registry := if negb (si_machine_fingerprint e =? 0)
                     then <[si_machine_fingerprint e := v]> (sp_fingerprint_registry p)
                     else sp_fingerprint_registry p).
    assert (pool_inv (put_stake v e (set_sp_fingerprint_registry registry
              (set_sp_total_staked (sat_add64 (sp_total_staked p) (si_amount e)) p)))) as H2.
    { unfold registry. destruct (Z.eqb_spec (si_machine_fingerprint e) 0) as [H0|H0]; simpl.
      - assert (set_si_machine_fingerprint 0 e = e) as He by (destruct e; simpl in *; by subst).
        rewrite He in H1. exact H1.
      - pose proof (inv_set_fingerprint _ H1 v _ e (si_machine_fingerprint e)
                      (lookup_insert_eq _ _ _)) as Hi.
        unfold put_stake in *. simpl in *. rewrite insert_insert_eq in Hi. apply Hi; auto. }
    unfold registry in H2. destruct (negb (si_machine_fingerprint e =? 0));
      (destruct (_ && _); [exact (inv_frame _ _ _ _ H2)|exact H2]).
Qed.

Lemma bootstrap_inv p v a c f r :
  pool_inv p -> headroom p a -> a <= MAX_VALIDATOR_STAKE ->
  (is_Some (sp_stakes p !! v) -> registrable p v f) ->
  StakePool_try_bootstrap_with_fingerprint v a c f p = Ok r -> pool_inv r.2.
Proof.
  intros Hp [Ha Hhead] Hmax Hreg. unfold StakePool_try_bootstrap_with_fingerprint.
  destruct (if negb (f =? 0) then other_owner f v p else None) eqn:Ho; [done|].
  destruct (sp_stakes p !! v) as [s|] eqn:Hv.
  - specialize (Hreg ltac:(by eexists)).
    destruct (ei_amount _ _ _ (pi_stakes p Hp v s Hv)) as [Hs0 HsM].
    destruct (Z.leb_spec a (si_amount s)) as [Hle|Hgt].
    { intros (q & Hq & [= <-])%and_then_Ok. by eapply register_fingerprint_inv. }
    intros [_ H]%guard_Ok. apply and_then_Ok in H as (q & Hq & [= <-]).
    eapply register_fingerprint_inv; [| |exact Hq].
    + inv_put s.
    + intros Hf Hn. destruct (Hreg Hf Hn) as (s0 & Hs & H0). simplify_eq.
      eexists. split; [apply lookup_insert_eq|done].
  - destruct (StakePool_next_bootstrap_index p) as [i p1] eqn:Hi.
    assert (pool_inv p1 /\ sp_stakes p1 = sp_stakes p /\ sp_total_staked p1 = sp_total_staked p
            /\ sp_fingerprint_registry p1 = sp_fingerprint_registry p) as (H1 & Es & Et & Eg).
    { pose proof (next_bootstrap_index_inv p Hp) as H1. rewrite Hi in H1. simpl in H1. split; [done|].
      unfold StakePool_next_bootstrap_index in Hi. case_match; by simplify_eq. }
    intros [Hmin H]%guard_Ok. rewrite <- Es in Hv.
    set (s := StakeInfo_with_bootstrap_index v a c (default u64_max i)) in *.
    assert (pool_inv (set_sp_total_staked (sat_add64 (sp_total_staked p1) a) (put_stake v s p1))) as H2.
    { apply (inv_put_new p1 H1); try done; simpl; unfold sat_add64; rewrite ?Et; try lia.
      unfold active_above_minimum, effective. simpl. intros ?%Z.leb_le. lia. }
    injection H as <-. simpl. destruct (Z.eqb_spec f 0) as [|Hf]; [exact H2|]. simpl in *.
    apply (inv_set_fingerprint _ H2 v s); try done; [apply lookup_insert_eq|].
    apply (other_owner_None p) in Ho. simpl. by rewrite Eg.
Qed.

Lemma after_inv {A} (pool : A -> StakePool) p r :
  pool_inv p -> (forall a, r = Ok a -> pool_inv (pool a)) -> pool_inv (after pool p r).
Proof. intros Hp Hr. destruct r; simpl; [by apply Hr|done]. Qed.

Lemma pool_step_inv op p : pool_inv p -> admissible op p -> pool_inv (pool_step op p).
Proof.
  intros Hp. destruct op; simpl; intros Ha; destruct_and?;
    try (apply after_inv; [done|]; intros r Hr).
  - by apply (stake_with_index_inv p Hp _ _ _ _ _ Ha Hr).
  - by apply (stake_with_index_inv p Hp _ _ _ _ _ Ha Hr).
  - by apply upsert_stake_inv.
  - by apply upsert_stake_full_inv.
  - by apply (top_up_stake_inv p Hp _ _ _ Ha Hr).
  - by apply (add_validator_stake_inv p Hp _ _ _ Ha Hr).
  - by apply remove_ghosts_inv.
  - by apply slash_validator_inv.
  - by apply block_reward_inv.
  - by apply epoch_rewards_inv.
  - by apply fees_inv.
  - by apply claim_rewards_inv.
  - by apply (record_block_inv p Hp _ _ Hr).
  - by eapply delegate_inv.
  - by eapply undelegate_inv.
  - by eapply request_delegation_unstake_inv.
  - by eapply request_unstake_inv.
  - by eapply claim_unstake_inv.
  - by apply next_bootstrap_index_inv.
  - by eapply register_fingerprint_inv.
  - by eapply migrate_fingerprint_inv.
  - by eapply bootstrap_inv.
  - by eapply reclassify_inv.
Qed.

(** ** Runs *)

Definition pool_run (ops : list PoolOp) (p : StakePool) : StakePool :=
  foldl (fun p op => pool_step op p) p ops.

Fixpoint admissible_run (ops : list PoolOp) (p : StakePool) : Prop :=
  match ops with
  | [] => True
  | op :: ops => admissible op p /\ admissible_run ops (pool_step op p)
  end.

Lemma pool_new_inv : pool_inv StakePool_new.
Proof.
  split; [|reflexivity|unfold u64_max; simpl; lia|..]; apply map_Forall_empty.
Qed.

Lemma pool_run_inv ops p : pool_inv p -> admissible_run ops p -> pool_inv (pool_run ops p).
Proof.
  revert p. induction ops as [|op ops IH]; intros p Hp; simpl; [done|].
  intros [Hop Hops]. apply IH; [by apply pool_step_inv|done].
Qed.

(** C33.  Every pool reached from the empty one by admissible operations, failed ones
    included, passes [validate_invariants]: stakes, delegations, unstake requests,
    rewards, slashes, imports, removals and fingerprints, in any order. *)
Theorem pool_run_validates ops :
  admissible_run ops StakePool_new ->
  StakePool_validate_invariants (pool_run ops StakePool_new) = Ok tt.
Proof.
  intros Hops. pose proof (pool_run_inv ops _ pool_new_inv Hops) as Hi.
  by apply validate_invariants_iff; [apply inv_unsigned|].
Qed.

(** Two validators stake, a third is bootstrapped with a machine; a delegation is
    made, partly withdrawn and claimed; one validator is slashed and another
    removed after it left. *)
Definition sample_run : list PoolOp :=
  [ OpStake 1 (2 * MIN_VALIDATOR_STAKE) 10;
    OpStake 2 MIN_VALIDATOR_STAKE 10;
    OpBootstrap 3 BOOTSTRAP_GRANT_AMOUNT 10 77;
    OpDelegate 50 1 1000;
    OpRequestDelegationUnstake 50 1 400 20;
    OpClaimUnstake 1 (20 + UNSTAKE_COOLDOWN_SLOTS) 50;
    OpSlash 1 MIN_VALIDATOR_STAKE;
    OpRequestUnstake 2 MIN_VALIDATOR_STAKE 30 2;
    OpRemoveGhosts 1000 100;
    OpMigrateFingerprint 3 78 500;
    OpEpochRewards 1000000 600 ].

Lemma pool_run_validates_witness :
  StakePool_validate_invariants (pool_run sample_run StakePool_new) = Ok tt
  /\ sp_total_staked (pool_run sample_run StakePool_new)
     = MIN_VALIDATOR_STAKE + 600 + BOOTSTRAP_GRANT_AMOUNT.
Proof.
  split; [|vm_compute; reflexivity].
  apply (pool_run_validates sample_run).
  unfold sample_run. cbn [admissible_run admissible].
  repeat match goal with
  | |- True => exact I
  | |- _ /\ _ => split
  | |- headroom _ _ => split; [vm_compute; discriminate|vm_compute; discriminate]
  | |- is_Some _ -> _ => let H := fresh in intros H; vm_compute in H; by destruct H
  | |- map_Forall _ _ =>
      apply Forall_map_to_list;
      match goal with |- Forall _ ?l =>
        let l' := eval vm_compute in l in replace l with l' by (vm_compute; reflexivity) end;
      repeat constructor; vm_compute; done
  | |- _ <= _ => vm_compute; discriminate
  | |- _ <> _ => discriminate
  end.
Defined.

(** ** Outside the side conditions *)

Lemma register_second p v s f :
  pool_inv p -> sp_stakes p !! v = Some s -> f <> 0 -> sp_fingerprint_registry p !! f = None ->
  StakePool_register_fingerprint v f p
  = Ok (put_stake v (set_si_machine_fingerprint f s)
          (set_sp_fingerprint_registry (<[f := v]> (sp_fingerprint_registry p)) p)).
Proof.
  intros Hp Hv Hf Hn. unfold StakePool_register_fingerprint.
  destruct (Z.eqb_spec f 0); [done|]. rewrite Hn. simpl. by rewrite Hv.
Qed.

(** [register_fingerprint] accepts a second machine for a validator that has one and
    leaves the first in the registry, so the pool no longer passes
    [validate_invariants]. *)
Lemma second_fingerprint_breaks p v s f :
  pool_inv p -> sp_stakes p !! v = Some s -> si_machine_fingerprint s <> 0 ->
  f <> 0 -> sp_fingerprint_registry p !! f = None ->
  exists p', StakePool_register_fingerprint v f p = Ok p'
             /\ is_ok (StakePool_validate_invariants p') = false.
Proof.
  intros Hp Hv Hs Hf Hn. eexists. split; [by apply (register_second p v s)|].
  match goal with |- context [StakePool_validate_invariants ?q] =>
    destruct (StakePool_validate_invariants q) as [[]|e] eqn:Hc; [exfalso|done] end.
  apply validate_invariants_iff in Hc.
  - assert (sp_fingerprint_registry p !! si_machine_fingerprint s = Some v) as Hold
      by by apply (ei_fingerprint _ _ _ (pi_stakes p Hp v s Hv)).
    destruct (pi_registry _ Hc (si_machine_fingerprint s) v) as (_ & s' & Hs' & Heq).
    + simpl. rewrite lookup_insert_ne by congruence. done.
    + simpl in Hs'. rewrite lookup_insert_eq in Hs'. injection Hs' as <-. simpl in Heq. congruence.
  - destruct (inv_unsigned p Hp) as [Us Ud Ur]. split; simpl; try done.
    apply map_Forall_insert_2; [|done]. by apply (Us v s).
Qed.
