(* ===== verification/Delegation.v ===== *)
(** * Delegation limits

    [StakePool::delegate] accepts a delegation under two bounds: five times the
    self-bond, and the network saturation limit, whose largest admissible addition
    [staking_v2_delegation_capacity] finds by binary search.  The search returns the
    greatest addition below the limit, so the decision is the declarative one. *)

From S2P Require Import Prelude Crypto Stake Pool PoolInvariant.
From stdpp Require Import base tactics numbers list gmap.
From Stdlib Require Import ZArith Lia.

Local Open Scope Z_scope.
Local Open Scope rust_scope.

(** ** Saturation *)

Lemma div_ceil_spec a b : 0 < b -> b * (div_ceil a b) - b < a <= b * div_ceil a b.
Proof. intros Hb. unfold div_ceil. pose proof (Z.div_mod (a + b - 1) b). pose proof (Z.mod_pos_bound (a + b - 1) b). lia. Qed.

Lemma saturation_bps_range n bps :
  validator_saturation_cap_bps n = Ok bps -> 0 < n -> 0 < bps <= 10000.
Proof.
  unfold validator_saturation_cap_bps, MATURE_VALIDATOR_SATURATION_BPS, sat_sub. intros H Hn.
  apply guard_Ok in H as [_ H]. destruct (Z.leb_spec 20 n); [injection H as <-; lia|].
  injection H as <-.
  assert (0 <= 9500 * Z.max (20 - n) 0 / 19) by (apply Z.div_pos; lia). lia.
Qed.

(** The bound the closure [accepts] decides. *)
Definition below_saturation (current active bps a : Z) : Prop :=
  current + a <= div_ceil ((active + a) * bps) 10000.

#[global] Instance below_saturation_dec c t b a : Decision (below_saturation c t b a).
Proof. unfold below_saturation. apply _. Defined.

Section search.
Context (current active bps : Z).
Hypothesis Hcurrent : 0 <= current <= active.
Hypothesis Hbps : 0 < bps <= 10000.

Lemma below_saturation_antitone a a' :
  a' <= a -> below_saturation current active bps a -> below_saturation current active bps a'.
Proof.
  unfold below_saturation. intros Ha H.
  pose proof (div_ceil_spec ((active + a) * bps) 10000 ltac:(lia)).
  pose proof (div_ceil_spec ((active + a') * bps) 10000 ltac:(lia)).
  assert ((active + a) * bps - (active + a') * bps <= (a - a') * 10000) by nia. lia.
Qed.

Lemma accepts_spec a :
  0 <= a -> active + a <= u64_max ->
  accepts current active bps a = Ok (bool_decide (below_saturation current active bps a)).
Proof.
  intros Ha Hmax. unfold accepts.
  rewrite (proj2 (checked_add64_Some current a (current + a))) by lia. simpl.
  rewrite (proj2 (checked_add64_Some active a (active + a))) by lia. simpl.
  unfold mul_div_ceil_u64. simpl.
  pose proof (div_ceil_spec ((active + a) * bps) 10000 ltac:(lia)).
  assert (div_ceil ((active + a) * bps) 10000 <= u64_max) by nia.
  destruct (Z.leb_spec (div_ceil ((active + a) * bps) 10000) u64_max); [|lia]. simpl. f_equal.
  unfold below_saturation. case_bool_decide; [by apply Z.leb_le|by apply Z.leb_gt, Z.nle_gt].
Qed.

(** The loop invariant of the search over [0, maximum]. *)
Definition search_inv (maximum : Z) (s : result (Z * Z) PoolError) : Prop :=
  match s with
  | Ok (low, high) =>
      0 <= low <= high /\ high <= maximum /\ below_saturation current active bps low
      /\ (forall a, high < a <= maximum -> ~ below_saturation current active bps a)
  | Err _ => False
  end.

Definition search_measure (s : result (Z * Z) PoolError) : Z :=
  match s with Ok (low, high) => high - low | Err _ => 0 end.

Lemma search_step maximum s :
  active + maximum <= u64_max -> search_inv maximum s -> capacity_done s = false ->
  search_inv maximum (capacity_step (accepts current active bps) s)
  /\ search_measure (capacity_step (accepts current active bps) s) < search_measure s.
Proof.
  intros Hmax. destruct s as [[low high]|e]; [|done]. cbn [search_inv capacity_done].
  intros (Hlh & Hhm & Hlow & Hhigh) Hd%Z.leb_gt. cbn [capacity_step and_then].
  pose proof (div_ceil_spec (high - low) 2 ltac:(lia)).
  set (middle := low + div_ceil (high - low) 2).
  assert (low < middle <= high) by (unfold middle; lia).
  rewrite accepts_spec by lia. cbn [and_then]. case_bool_decide as Hm.
  - split; [|simpl; lia]. cbn [search_inv]. split_and!; try done; lia.
  - split; [|simpl; lia]. cbn [search_inv]. split_and!; try done; try lia.
    intros a Ha Hs. apply Hm. apply (below_saturation_antitone a); [lia|done].
Qed.

Lemma search_result maximum :
  0 <= maximum -> active + maximum <= u64_max -> below_saturation current active bps 0 ->
  exists c, iter_until capacity_done (capacity_step (accepts current active bps)) (2 ^ 64)
              (Ok (0, maximum)) = Ok (c, c)
            /\ 0 <= c <= maximum
            /\ forall a, 0 <= a <= maximum -> below_saturation current active bps a <-> a <= c.
Proof.
  intros H0 Hmax Hz.
  destruct (iter_until_done capacity_done (capacity_step (accepts current active bps))
              (search_inv maximum) search_measure) with (p := (2 ^ 64)%positive)
              (s := Ok (0, maximum) : result (Z * Z) PoolError) as [Hi Hd].
  - intros s Hs Hd. by apply search_step.
  - intros [[low high]|e]; simpl; lia.
  - intros s Hs Hd. by apply (search_step maximum).
  - simpl. split_and!; try done; lia.
  - simpl. unfold u64_max in Hmax. lia.
  - destruct (iter_until _ _ _ _) as [[low high]|e]; [|done].
    destruct Hi as (Hlh & Hhm & Hlow & Hhigh). apply Z.leb_le in Hd.
    assert (high = low) as -> by lia. exists low. split_and!; try done; try lia.
    intros a Ha. split.
    + intros Hb. destruct (Z.le_gt_cases a low); [done|]. by destruct (Hhigh a ltac:(lia)).
    + intros Hle. by apply (below_saturation_antitone low).
Qed.
End search.

(** ** The pool's decision *)

(** The effective stake of the validators of the current epoch. *)
Definition stake_of (p : StakePool) (v : Pubkey) : Z := from_option effective 0 (sp_stakes p !! v).

Definition epoch_stake (p : StakePool) (st : StakingV2EpochState) : Z :=
  sumZ (stake_of p) (map_to_list (v2_validators st)).*1.

Definition epoch_known (p : StakePool) (st : StakingV2EpochState) : Prop :=
  map_Forall (fun v _ => is_Some (sp_stakes p !! v)) (v2_validators st).

Section capacity.
Context (p : StakePool) (st : StakingV2EpochState).
Hypothesis Hp : pool_inv p.
Hypothesis Hst : sp_staking_v2_state p = Some st.
Hypothesis Hknown : epoch_known p st.

Lemma stake_of_nonneg v : 0 <= stake_of p v.
Proof.
  unfold stake_of. destruct (sp_stakes p !! v) as [s|] eqn:Hv; simpl; [|lia].
  by apply (inv_effective_nonneg p Hp v).
Qed.

Lemma epoch_stake_le : epoch_stake p st <= sp_total_staked p.
Proof.
  rewrite (pi_total p Hp), map_sum_keys. unfold epoch_stake. apply sumZ_subset.
  - intros v _. apply stake_of_nonneg.
  - apply NoDup_fst_map_to_list.
  - intros v [e Hv]%elem_of_keys. apply elem_of_keys. by apply (Hknown v e).
Qed.

Lemma epoch_member_le v : is_Some (v2_validators st !! v) -> stake_of p v <= epoch_stake p st.
Proof.
  intros Hv. etrans; [|apply (sumZ_subset (stake_of p) [v])].
  - rewrite sumZ_cons. unfold sumZ. simpl. lia.
  - intros x _. apply stake_of_nonneg.
  - apply NoDup_singleton.
  - intros x ->%list_elem_of_singleton. by apply elem_of_keys.
Qed.

Lemma epoch_stake_fold :
  try_fold (effective_stake_of p) 0 (map_to_list (v2_validators st)).*1 = Ok (epoch_stake p st).
Proof.
  apply (try_fold_total _ (fun v => is_Some (sp_stakes p !! v)) (stake_of p)).
  - intros a v b _ Ha. unfold effective_stake_of. rewrite or_err_Ok. setoid_rewrite checked_add64_Ok.
    unfold stake_of. split.
    + intros (s & Hv & -> & Hm). rewrite Hv, (inv_total_stake p Hp v s Hv) in *. simpl. eauto.
    + intros ([s Hv] & -> & Hm). exists s. rewrite Hv in *. simpl in *.
      by rewrite (inv_total_stake p Hp v s Hv).
  - intros v _. apply stake_of_nonneg.
  - unfold u64_max. lia.
  - split_and!; [|done|pose proof epoch_stake_le; pose proof (pi_total_max p Hp); lia].
    apply Forall_forall. intros v [e Hv]%elem_of_keys. by apply (Hknown v e).
Qed.

Context (v : Pubkey) (s : StakeInfo).
Hypothesis Hv : sp_stakes p !! v = Some s.
Hypothesis Hmember : is_Some (v2_validators st !! v).
(** Room for five maximal self-bonds: far above the token supply. *)
Hypothesis Hroom : sp_total_staked p + 5 * MAX_VALIDATOR_STAKE <= u64_max.

(** [a] more keeps [v] at or below its share of the epoch's effective stake. *)
Definition within_saturation (a : Z) : Prop :=
  exists bps, validator_saturation_cap_bps (Z.of_nat (size (v2_validators st))) = Ok bps
              /\ below_saturation (effective s) (epoch_stake p st) bps a.

Lemma saturation_known :
  exists bps, validator_saturation_cap_bps (Z.of_nat (size (v2_validators st))) = Ok bps
              /\ 0 < bps <= 10000.
Proof.
  assert (0 < Z.of_nat (size (v2_validators st))) as Hn.
  { destruct Hmember as [e He]. assert (size (v2_validators st) <> 0%nat); [|lia].
    intros H0%map_size_empty_inv. rewrite H0, lookup_empty in He. done. }
  destruct (validator_saturation_cap_bps _) as [bps|e] eqn:Hb.
  - exists bps. split; [done|]. by eapply saturation_bps_range.
  - unfold validator_saturation_cap_bps in Hb. repeat case_match; try done. lia.
Qed.

Lemma delegation_capacity_spec :
  let maximum := Z.max (5 * si_amount s - effective s) 0 in
  (exists c, StakePool_staking_v2_delegation_capacity p v = Ok (Some c)
             /\ 0 <= c <= maximum
             /\ forall a, 0 < a <= maximum -> within_saturation a <-> a <= c)
  \/ (StakePool_staking_v2_delegation_capacity p v = Err (AboveSaturation v)
      /\ forall a, 0 <= a -> ~ within_saturation a).
Proof.
  intros maximum. destruct (ei_amount _ _ _ (pi_stakes p Hp v s Hv)) as [Hs0 HsM].
  pose proof (inv_effective_le p Hp v s Hv) as Htot. pose proof epoch_stake_le as Hel.
  pose proof (inv_effective_nonneg p Hp v s Hv) as Heff0.
  pose proof (epoch_member_le v Hmember) as Hem. unfold stake_of in Hem. rewrite Hv in Hem. simpl in Hem.
  destruct saturation_known as (bps & Hbps & Hrange).
  assert (forall a, within_saturation a <-> below_saturation (effective s) (epoch_stake p st) bps a) as Hw.
  { intros a. unfold within_saturation. rewrite Hbps. split; [by intros (? & [= <-] & ?)|eauto]. }
  unfold StakePool_staking_v2_delegation_capacity. rewrite Hst.
  destruct Hmember as [e He]. rewrite He. cbn [or_err]. rewrite Hv. cbn [or_err].
  unfold checked_mul64, MAX_VALIDATOR_EFFECTIVE_STAKE_MULTIPLIER.
  unfold MAX_VALIDATOR_STAKE, u64_max in *.
  destruct (Z.leb_spec (si_amount s * 5) (2 ^ 64 - 1)); [|lia]. cbn [or_err].
  rewrite (inv_total_stake p Hp v s Hv).
  assert (sat_sub (si_amount s * 5) (effective s) = maximum) as -> by (unfold sat_sub, maximum; lia).
  destruct (Z.eqb_spec maximum 0) as [H0|H0].
  { left. exists 0. split_and!; [done|lia|lia|]. intros a. lia. }
  rewrite epoch_stake_fold. cbn [and_then]. rewrite Hbps. cbn [and_then].
  rewrite accepts_spec by (unfold u64_max; lia). cbn [and_then].
  case_bool_decide as Hz; cbn [negb].
  - left. destruct (search_result (effective s) (epoch_stake p st) bps ltac:(lia) Hrange maximum)
      as (c & -> & Hc & Hiff); [lia|unfold u64_max; lia|done|].
    exists c. split_and!; [done|lia|lia|]. intros a Ha. rewrite Hw. apply Hiff. lia.
  - right. split; [done|]. intros a Ha. rewrite Hw. intros Hb. apply Hz.
    apply (below_saturation_antitone (effective s) (epoch_stake p st) bps Hrange a); [lia|done].
Qed.
End capacity.

Section decision.
Context (p : StakePool) (st : StakingV2EpochState) (v : Pubkey) (s : StakeInfo).

(** The pool has entered Staking V2 and [v] is a validator of the epoch. *)
Record epoch_validator : Prop := {
  ev_inv : pool_inv p;
  ev_state : sp_staking_v2_state p = Some st;
  ev_known : epoch_known p st;
  ev_stake : sp_stakes p !! v = Some s;
  ev_member : is_Some (v2_validators st !! v);
  ev_room : sp_total_staked p + 5 * MAX_VALIDATOR_STAKE <= u64_max;
}.

Lemma delegation_le (Hp : pool_inv p) d :
  sp_stakes p !! v = Some s -> 0 <= delegation p v d <= si_delegated_amount s.
Proof.
  intros Hv. rewrite (ei_delegated _ _ _ (pi_stakes p Hp v s Hv)).
  unfold delegation, delegated_to. pose proof (delegated_to_nonneg p v (inv_delegations_of p Hp v)) as Hn.
  unfold delegated_to in Hn.
  destruct (sp_delegations p !! v) as [m|] eqn:Hm; simpl in *; [|lia].
  destruct (inv_delegations_of p Hp v m Hm) as [_ Hpos].
  destruct (m !! d) as [x|] eqn:Hx; simpl; [|lia].
  split; [apply Hpos in Hx; lia|]. apply (map_sum_lookup id m d x); [|done].
  intros d' x' [_ ?]%Hpos. unfold id. lia.
Qed.

(** C35.  In a Staking V2 epoch a delegation to a validator of the epoch is accepted
    exactly when it is positive, the validator has no bootstrap debt left, its
    effective stake stays within five times its self-bond, and its share of the
    epoch's effective stake stays at or below the saturation limit: the binary
    search for the capacity terminates and decides that limit exactly. *)
Theorem delegate_accepts_iff d a :
  epoch_validator -> 0 <= a ->
  is_ok (StakePool_delegate d v a p) = true
  <-> 0 < a /\ StakeInfo_is_fully_vested s = true /\ effective s + a <= 5 * si_amount s
      /\ within_saturation p st s a.
Proof.
  intros [Hp Hst Hknown Hv Hmember Hroom] Ha.
  pose proof (delegation_capacity_spec p st Hp Hst Hknown v s Hv Hmember Hroom) as Hcap.
  destruct (ei_amount _ _ _ (pi_stakes p Hp v s Hv)) as [Hs0 HsM].
  pose proof (inv_effective_le p Hp v s Hv) as Htot. pose proof (inv_delegated_nonneg p Hp v s Hv).
  pose proof (delegation_le Hp d Hv) as Hdel. pose proof (pi_total_max p Hp).
  unfold StakePool_delegate. rewrite Hv. cbn [or_err]. rewrite (inv_total_stake p Hp v s Hv).
  unfold effective, checked_mul64, checked_add64, MAX_VALIDATOR_EFFECTIVE_STAKE_MULTIPLIER in *.
  unfold MAX_VALIDATOR_STAKE, u64_max in *. cbn [or_err].
  destruct (Z.eqb_spec a 0) as [|Ha0]; [simpl; split; [done|lia]|].
  destruct (StakeInfo_is_fully_vested s); [|simpl; split; [done|by intros (? & ? & _)]]. cbn [negb].
  destruct (Z.leb_spec (si_amount s * 5) (2 ^ 64 - 1)); [|lia]. cbn [or_err].
  destruct (Z.leb_spec (si_amount s + si_delegated_amount s + a) (2 ^ 64 - 1));
    [|simpl; split; [done|lia]]. cbn [or_err].
  destruct (Z.ltb_spec (si_amount s * 5) (si_amount s + si_delegated_amount s + a)) as [|Hbond];
    [simpl; split; [done|lia]|].
  destruct Hcap as [(c & -> & Hc & Hiff)|[-> Hno]]; cbn [and_then].
  2:{ simpl. split; [done|]. intros (_ & _ & _ & Hw). by destruct (Hno a Ha). }
  specialize (Hiff a ltac:(lia)). rewrite Hiff.
  destruct (Z.ltb_spec c a); [simpl; split; [done|lia]|].
  destruct (Z.leb_spec (sp_total_staked p + a) (2 ^ 64 - 1)); [|lia]. cbn [or_err].
  destruct (Z.leb_spec (delegation p v d + a) (2 ^ 64 - 1)); [|lia]. cbn [or_err].
  destruct (Z.leb_spec (si_delegated_amount s + a) (2 ^ 64 - 1)); [|lia]. simpl.
  split; [|done]. intros _. split_and!; done || lia.
Qed.
End decision.

(** Three validators of one epoch, the first with twice the minimum bond. *)
Definition sample_epoch : StakingV2EpochState :=
  let acc v := mkValidatorEpochAccounting v (mkEpochStakeAccumulator 0 0 0) ∅ 0 0 0 0 in
  mkStakingV2EpochState 2 0 0 0
    (list_to_map [(1, acc 1); (2, acc 2); (3, acc 3)]) ∅ None ∅.

Definition sample_pool : StakePool :=
  let bond v a p := match StakePool_stake v a 0 p with Ok p => p | Err _ => p end in
  let p := bond 3 MIN_VALIDATOR_STAKE (bond 2 MIN_VALIDATOR_STAKE
             (bond 1 (2 * MIN_VALIDATOR_STAKE) StakePool_new)) in
  mkStakePool (sp_stakes p) (sp_total_staked p) 0 ∅ ∅ ∅ 0 (Some sample_epoch).

Lemma sample_pool_inv : pool_inv sample_pool.
Proof.
  apply validate_invariants_iff; [|vm_compute; reflexivity].
  apply unsignedb_spec. vm_compute. reflexivity.
Qed.

Lemma delegate_accepts_iff_witness :
  is_ok (StakePool_delegate 50 1 (8 * MIN_VALIDATOR_STAKE) sample_pool) = true
  /\ is_ok (StakePool_delegate 50 1 (8 * MIN_VALIDATOR_STAKE + 1) sample_pool) = false.
Proof.
  destruct (sp_stakes sample_pool !! 1) as [s|] eqn:Hs; [|vm_compute in Hs; discriminate].
  assert (epoch_validator sample_pool sample_epoch 1 s) as He.
  { split; [exact sample_pool_inv|reflexivity| |exact Hs|vm_compute; by eexists|vm_compute; discriminate].
    apply Forall_map_to_list. vm_compute. repeat constructor; by eexists. }
  vm_compute in Hs. injection Hs as <-. split.
  - apply (delegate_accepts_iff sample_pool sample_epoch 1 _ 50 (8 * MIN_VALIDATOR_STAKE) He);
      [vm_compute; discriminate|].
    split; [reflexivity|]. split; [reflexivity|]. split; [vm_compute; discriminate|].
    exists 9000. split; [vm_compute; reflexivity|vm_compute; discriminate].
  - destruct (is_ok _) eqn:Hok; [exfalso|reflexivity].
    apply (delegate_accepts_iff sample_pool sample_epoch 1 _ 50 (8 * MIN_VALIDATOR_STAKE + 1) He) in Hok;
      [|vm_compute; discriminate].
    destruct Hok as (_ & _ & Hb & _). vm_compute in Hb. by apply Hb.
Defined.

(** ** Withdrawal *)

Lemma reduce_undoes D v d a :
  (forall m, D !! v = Some m -> delegations_inv v m) ->
  let m := default ∅ (D !! v) in
  let x := default 0 (m !! d) in
  0 < a -> 0 <= x -> x + a <= u64_max ->
  reduce_delegation v d a (<[v := <[d := x + a]> m]> D) = D.
Proof.
  intros Hinv m x Ha Hx Hmax. unfold reduce_delegation. rewrite !lookup_insert_eq.
  replace (x + a - a) with x by lia. rewrite wrap_small by (unfold u64_max in *; lia).
  assert ((if x =? 0 then delete d (<[d := x + a]> m) else <[d := x]> (<[d := x + a]> m)) = m) as ->.
  { unfold x. destruct (m !! d) as [y|] eqn:Hy; simpl.
    - assert (0 < y).
      { unfold m in Hy. destruct (D !! v) as [m0|] eqn:Hm0; [|simpl in Hy; by rewrite lookup_empty in Hy].
        by apply (di_entries v m0 (Hinv m0 eq_refl)) in Hy as [_ ?]. }
      destruct (Z.eqb_spec y 0); [lia|]. rewrite insert_insert_eq. by apply insert_id.
    - by apply delete_insert_id. }
  rewrite insert_insert_eq, delete_insert_eq. unfold m.
  destruct (D !! v) as [m0|] eqn:Hm0; simpl.
  - destruct (Hinv m0 eq_refl) as [Hne _]. rewrite bool_decide_eq_false_2 by done. by apply insert_id.
  - by apply delete_id.
Qed.

(** A delegation that is withdrawn in full leaves the pool as it was: the stakes,
    the total, and the delegation maps, in which an entry that reaches zero and a
    map that becomes empty are removed. *)
Theorem delegate_undelegate_roundtrip p p1 d v s a :
  pool_inv p -> sp_stakes p !! v = Some s ->
  si_is_active s = StakeInfo_meets_minimum s ->
  0 <= a -> StakePool_delegate d v a p = Ok p1 ->
  StakePool_undelegate d v a p1 = Ok p.
Proof.
  intros Hp Hv Hact Ha (s' & Hs' & H0 & Ht & ->)%delegate_Ok. simplify_eq.
  pose proof (delegation_le p v s Hp d Hv) as Hd. pose proof (inv_effective_le p Hp v s Hv).
  destruct (ei_amount _ _ _ (pi_stakes p Hp v s Hv)) as [Ham _]. unfold effective in *.
  assert (delegation (with_delegation d v a s p) v d = delegation p v d + a) as Hnew.
  { unfold with_delegation. rewrite (delegation_lookup (set_sp_delegations _ _)). simpl.
    by rewrite lookup_insert_eq; simpl; rewrite lookup_insert_eq. }
  unfold StakePool_undelegate. rewrite Hnew. unfold with_delegation at 1. simpl.
  rewrite lookup_insert_eq. simpl.
  destruct (Z.eqb_spec a 0); [done|]. destruct (Z.ltb_spec (delegation p v d + a) a); [lia|].
  destruct (Z.ltb_spec (si_delegated_amount s + a) a); [lia|]. f_equal.
  unfold with_delegation. simpl. rewrite delegation_lookup, reduce_undoes; [|apply inv_delegations_of, Hp|lia|..];
    [|rewrite <- delegation_lookup; lia..].
  unfold put_stake. simpl. rewrite insert_insert_eq, insert_id.
  - destruct p. unfold set_sp_delegations, set_sp_total_staked, set_sp_stakes, sat_sub. simpl in *.
    f_equal. lia.
  - rewrite Hv. f_equal. destruct s. unfold refresh_active, set_si_is_active, StakeInfo_meets_minimum,
      StakeInfo_total_stake, set_si_delegated_amount in *. simpl in *.
    replace (si_delegated_amount + a - a) with si_delegated_amount by lia. by rewrite <- Hact.
Qed.

Lemma delegate_undelegate_roundtrip_witness :
  exists p1, StakePool_delegate 50 1 1000 sample_pool = Ok p1
             /\ sp_total_staked p1 = sp_total_staked sample_pool + 1000
             /\ StakePool_undelegate 50 1 1000 p1 = Ok sample_pool.
Proof.
  destruct (sp_stakes sample_pool !! 1) as [s|] eqn:Hs; [|vm_compute in Hs; discriminate].
  destruct (StakePool_delegate 50 1 1000 sample_pool) as [p1|e] eqn:H1; [|vm_compute in H1; discriminate].
  exists p1. split; [reflexivity|]. split.
  - vm_compute in H1. injection H1 as <-. vm_compute. reflexivity.
  - apply (delegate_undelegate_roundtrip sample_pool p1 50 1 s 1000);
      [exact sample_pool_inv|exact Hs| |lia|exact H1].
    vm_compute in Hs. injection Hs as <-. vm_compute. reflexivity.
Defined.
