(* ===== verification/Rewards.v ===== *)
(** * Epoch rewards

    [distribute_epoch_rewards] splits an epoch's reward pool in proportion to the
    effective stakes; [distribute_epoch_staker_rewards_from_pool] credits each
    share and claims it, which repays bootstrap debt first. *)

From S2P Require Import Prelude Crypto Stake Pool PoolInvariant.
From stdpp Require Import base tactics numbers list gmap.
From Stdlib Require Import ZArith Lia.

Local Open Scope Z_scope.

(** ** Proportional shares *)

(** The share of one validator; zero shares are not listed. *)
Definition epoch_share (R total : Z) (s : StakeInfo) : Z :=
  if si_is_active s then R * effective s / total else 0.

Lemma sumZ_floor {A} (f : A -> Z) R T l :
  0 <= R -> 0 < T -> (forall x, x ∈ l -> 0 <= f x) -> sumZ (fun x => R * f x / T) l <= R * sumZ f l / T.
Proof.
  intros HR HT. induction l as [|x l IH]; intros Hf.
  - unfold sumZ. simpl. by rewrite Z.mul_0_r, Z.div_0_l by lia.
  - rewrite !sumZ_cons, Z.mul_add_distr_l.
    assert (sumZ (fun x => R * f x / T) l <= R * sumZ f l / T) by (apply IH; intros; apply Hf; by right).
    pose proof (Z.div_add_l (R * f x / T) T (R * sumZ f l) ltac:(lia)) as Hadd.
    assert (R * f x / T * T <= R * f x) as Hx by (rewrite Z.mul_comm; apply Z.mul_div_le; lia).
    etrans; [|apply Z.div_le_mono; [lia|]; apply Z.add_le_mono_r, Hx]. lia.
Qed.

Section shares.
Context (p : StakePool) (R : Z).
Hypothesis Hp : pool_inv p.
Hypothesis HR : is_u64 R.

Lemma epoch_share_le v s :
  sp_stakes p !! v = Some s -> sp_total_staked p <> 0 ->
  0 <= epoch_share R (sp_total_staked p) s <= R.
Proof.
  intros Hv HT. unfold epoch_share, is_u64 in *.
  pose proof (inv_effective_le p Hp v s Hv). pose proof (inv_effective_nonneg p Hp v s Hv).
  destruct (si_is_active s); [|lia]. split; [apply Z.div_pos; nia|].
  apply Z.div_le_upper_bound; nia.
Qed.

(** The listed shares, as pairs of the source. *)
Lemma epoch_shares_listed v r :
  (v, r) ∈ StakePool_distribute_epoch_rewards R p ->
  exists s, sp_stakes p !! v = Some s /\ r = epoch_share R (sp_total_staked p) s /\ 0 < r.
Proof.
  unfold StakePool_distribute_epoch_rewards, StakePool_active_stake.
  destruct ((sp_total_staked p =? 0) || (R =? 0)) eqn:Hz; [by intros ?%elem_of_nil|].
  apply orb_false_iff in Hz as [HT%Z.eqb_neq _].
  rewrite elem_of_sort_by_key. intros (s & Hs & H)%list_elem_of_omap.
  apply list_elem_of_fmap in Hs as ([w s'] & -> & Hw%elem_of_map_to_list). simpl in *.
  pose proof (epoch_share_le w s' Hw HT) as Hle. unfold epoch_share, is_u64 in *.
  rewrite (inv_total_stake p Hp w s' Hw) in H.
  destruct (si_is_active s') eqn:Hact; [|done]. simpl in H.
  destruct (Z.ltb_spec 0 (R * effective s' / sp_total_staked p)); [|done]. injection H as <- <-.
  rewrite (ei_key _ _ _ (pi_stakes p Hp w s' Hw)), wrap_small by lia. exists s'. by rewrite Hact.
Qed.

Lemma epoch_shares_sum :
  0 <= sumZ snd (StakePool_distribute_epoch_rewards R p) <= R.
Proof.
  split.
  { apply sumZ_nonneg. intros [v r] Hr%epoch_shares_listed. destruct Hr as (_ & _ & _ & ?). simpl. lia. }
  unfold StakePool_distribute_epoch_rewards, StakePool_active_stake. unfold is_u64 in HR.
  destruct ((sp_total_staked p =? 0) || (R =? 0)) eqn:Hz; [unfold sumZ; simpl; lia|].
  apply orb_false_iff in Hz as [HT%Z.eqb_neq _].
  assert (0 <= sp_total_staked p) as HT0.
  { rewrite (pi_total p Hp). apply map_sum_nonneg. apply (inv_effective_nonneg p Hp). }
  rewrite (sumZ_perm _ _ _ (sort_by_key_perm _ _)), sumZ_omap_with.
  transitivity (R * map_sum effective (sp_stakes p) / sp_total_staked p);
    [|rewrite <- (pi_total p Hp); apply Z.div_le_upper_bound; nia].
  etrans; [|apply sumZ_floor; [lia|lia|]].
  - rewrite sumZ_fmap. apply sumZ_le. intros [v s] Hs%elem_of_map_to_list. simpl.
    pose proof (epoch_share_le v s Hs HT) as Hle. unfold epoch_share in Hle.
    pose proof (inv_effective_le p Hp v s Hs). pose proof (inv_effective_nonneg p Hp v s Hs).
    assert (0 <= R * effective s / sp_total_staked p) by (apply Z.div_pos; nia).
    rewrite (inv_total_stake p Hp v s Hs). destruct (si_is_active s); simpl; [|lia].
    case_match; simpl; [|lia]. rewrite wrap_small by lia. lia.
  - intros [v s] Hs%elem_of_map_to_list. by apply (inv_effective_nonneg p Hp v).
Qed.

Lemma epoch_shares_nodup : NoDup (StakePool_distribute_epoch_rewards R p).*1.
Proof.
  unfold StakePool_distribute_epoch_rewards. case_match; [constructor|].
  rewrite sort_by_key_perm.
  assert (forall l, NoDup l.*1 -> (forall v s, (v, s) ∈ l -> si_validator s = v) ->
    NoDup (omap (fun info =>
      if negb (si_is_active info) then None
      else if 0 <? R * StakeInfo_total_stake info / StakePool_active_stake p
           then Some (si_validator info, wrap64 (R * StakeInfo_total_stake info / StakePool_active_stake p))
           else None) l.*2).*1) as Hgen.
  { induction l as [|[v s] l IH]; intros Hnd Hk; simpl; [constructor|].
    apply NoDup_cons in Hnd as [Hv Hnd]. specialize (IH Hnd ltac:(intros; apply Hk; by right)).
    destruct (negb (si_is_active s)); [done|]. destruct (0 <? _); [|done].
    cbn [fmap list_fmap fst]. constructor; [|done]. rewrite (Hk v s) by left.
    intros Hin. apply Hv. apply list_elem_of_fmap in Hin as ([w r] & Hw & Hin). simpl in Hw. subst w.
    apply list_elem_of_omap in Hin as (s' & Hs' & Hf).
    apply list_elem_of_fmap in Hs' as ([w s''] & -> & Hws). simpl in Hf.
    destruct (negb (si_is_active s'')); [done|]. destruct (0 <? _); [|done]. injection Hf as Hf _.
    rewrite (Hk w s'') in Hf by (by right). subst w. apply list_elem_of_fmap. by exists (v, s''). }
  apply Hgen; [apply NoDup_fst_map_to_list|].
  intros v s Hs%elem_of_map_to_list. apply (ei_key _ _ _ (pi_stakes p Hp v s Hs)).
Qed.
End shares.

(** ** Settlement *)

Definition result_validator (r : Pubkey * Z * Z * Z) : Pubkey := r.1.1.1.
Definition result_reward (r : Pubkey * Z * Z * Z) : Z := r.1.1.2.
Definition result_liquid (r : Pubkey * Z * Z * Z) : Z := r.1.2.
Definition result_debt (r : Pubkey * Z * Z * Z) : Z := r.2.

(** Rewards credited earlier, from fees, and not claimed yet. *)
Definition pending_of (p : StakePool) (v : Pubkey) : Z :=
  from_option si_rewards_earned 0 (sp_stakes p !! v).

Definition stakes_wf (p : StakePool) : Prop := map_Forall (fun _ s => StakeInfo_wf s) (sp_stakes p).

Lemma add_reward_wf r c s :
  StakeInfo_wf s -> 0 <= r -> StakeInfo_wf (StakeInfo_add_reward r c s).
Proof. intros [] Hr. split; try done. by apply sat_add64_u64. Qed.

(** One share: what is claimed is the share and what was pending. *)
Lemma settle_one c n m res p v r s :
  sp_stakes p !! v = Some s -> StakeInfo_wf s -> 0 <= r -> r + si_rewards_earned s <= u64_max ->
  exists liquid debt s',
    settle_share c n (m, res, p) (v, r)
    = (sat_add64 m liquid, res ++ [(v, r, liquid, debt)], put_stake v s' p)
    /\ 0 <= liquid /\ 0 <= debt /\ liquid + debt = r + pending_of p v
    /\ si_rewards_earned s' = 0.
Proof.
  intros Hv Hwf Hr Hmax. unfold settle_share, pending_of. rewrite Hv. simpl.
  pose proof (claim_rewards_conserves _ c n (add_reward_wf r c s Hwf Hr)) as Hc.
  destruct (StakeInfo_claim_rewards c n (StakeInfo_add_reward r c s)) as [[l d] s'].
  destruct Hc as (Hsum & Hl & Hd & Hz & _). exists l, d, s'.
  assert (si_rewards_earned (StakeInfo_add_reward r c s) = r + si_rewards_earned s) as Hre.
  { simpl. unfold sat_add64. lia. }
  split_and!; try done; lia.
Qed.

(** The loop over the shares. *)
Lemma settle_all c n l :
  forall m res p, NoDup l.*1 -> 0 <= m ->
  (forall v r, (v, r) ∈ l -> 0 <= r /\ exists s, sp_stakes p !! v = Some s /\ StakeInfo_wf s) ->
  m + sumZ (fun vr => vr.2 + pending_of p vr.1) l <= u64_max ->
  exists new m' p', foldl (settle_share c n) (m, res, p) l = (m', res ++ new, p')
    /\ m' = m + sumZ result_liquid new
    /\ (forall x, x ∈ new -> 0 <= result_liquid x /\ 0 <= result_debt x)
    /\ sumZ result_liquid new + sumZ result_debt new = sumZ (fun vr => vr.2 + pending_of p vr.1) l
    /\ map (fun x => (result_validator x, result_reward x)) new = l
    /\ (forall v, v ∈ l.*1 -> pending_of p' v = 0)
    /\ (forall v, v ∉ l.*1 -> sp_stakes p' !! v = sp_stakes p !! v).
Proof.
  induction l as [|[v r] l IH]; intros m res p Hnd Hm Hl Hmax.
  { exists [], m, p. rewrite app_nil_r. split_and!; try done; [unfold sumZ; simpl; lia|..];
      by intros ? ?%elem_of_nil. }
  cbn [fmap list_fmap fst] in Hnd. apply NoDup_cons in Hnd as [Hv Hnd].
  destruct (Hl v r) as (Hr & s & Hs & Hwf); [left|].
  rewrite sumZ_cons in Hmax. cbn [fst snd] in Hmax.
  assert (0 <= pending_of p v) as Hpv.
  { unfold pending_of. rewrite Hs. simpl. apply Hwf. }
  assert (forall w, w ∈ l.*1 -> forall s' q, sp_stakes (put_stake v s' q) !! w = sp_stakes q !! w) as Hne.
  { intros w Hw s' q. simpl. apply lookup_insert_ne. intros <-. done. }
  assert (forall vr s', vr ∈ l -> vr.2 + pending_of (put_stake v s' p) vr.1 = vr.2 + pending_of p vr.1)
    as Hpend.
  { intros [w x] s' Hw. unfold pending_of. simpl fst. rewrite Hne; [done|].
    apply list_elem_of_fmap. by exists (w, x). }
  assert (0 <= sumZ (fun vr => vr.2 + pending_of p vr.1) l) as Hsl.
  { apply sumZ_nonneg. intros [w x] Hw. destruct (Hl w x) as (Hx & s2 & Hs2 & Hwf2); [by right|].
    unfold pending_of. simpl. rewrite Hs2. simpl. pose proof (wf_rewards _ Hwf2). unfold is_u64 in *. lia. }
  destruct (settle_one c n m res p v r s) as (li & de & s' & Heq & Hli & Hde & Hsum & Hz); try done.
  { unfold pending_of in *. rewrite Hs in *. simpl in *. lia. }
  cbn [foldl]. rewrite Heq.
  assert (sat_add64 m li = m + li) as -> by (unfold sat_add64; lia).
  destruct (IH (m + li) (res ++ [(v, r, li, de)]) (put_stake v s' p))
    as (new & m' & p' & -> & -> & Hpos & Htot & Hmap & Hpaid & Hother); [done|lia| | |].
  { intros w x Hw. destruct (Hl w x) as (Hx & s2 & Hs2 & Hwf2); [by right|]. split; [done|].
    exists s2. rewrite Hne; [done|]. apply list_elem_of_fmap. by exists (w, x). }
  { rewrite (sumZ_ext _ (fun vr => vr.2 + pending_of p vr.1)) by (intros; by apply Hpend). lia. }
  rewrite (sumZ_ext _ (fun vr => vr.2 + pending_of p vr.1)) in Htot by (intros; by apply Hpend).
  exists ((v, r, li, de) :: new), (m + li + sumZ result_liquid new), p'.
  rewrite <- app_assoc. rewrite !sumZ_cons. cbn [fst snd].
  unfold result_liquid at 3, result_debt at 3. cbn [fst snd].
  split_and!; try done; try (unfold result_liquid, result_debt in *; simpl; lia).
  - intros x [->|Hx]%elem_of_cons; [simpl; unfold result_liquid, result_debt; simpl; lia|by apply Hpos].
  - simpl. rewrite Hmap. done.
  - intros w [->|Hw]%elem_of_cons; [|by apply Hpaid]. unfold pending_of. rewrite Hother by done.
    simpl. by rewrite lookup_insert_eq.
  - intros w Hw. apply not_elem_of_cons in Hw as [Hwv Hw]. rewrite Hother by done. simpl.
    by apply lookup_insert_ne.
Qed.

(** The settlement of an epoch conserves its reward pool: the shares are the
    proportional floors and sum to at most the pool, each validator is paid once,
    what is minted plus what repays bootstrap debt is exactly the shares plus the
    rewards that were pending, and nothing is left pending for a paid validator. *)
Theorem epoch_rewards_conserve p R c :
  pool_inv p -> stakes_wf p -> is_u64 R ->
  R + map_sum si_rewards_earned (sp_stakes p) <= u64_max ->
  let '(minted, results, p') := StakePool_distribute_epoch_staker_rewards_from_pool R c p in
  NoDup (map result_validator results) /\ sorted_by_key result_validator results
  /\ minted = sumZ result_liquid results
  /\ minted + sumZ result_debt results
     = sumZ result_reward results + sumZ (fun x => pending_of p (result_validator x)) results
  /\ sumZ result_reward results <= R
  /\ Forall (fun x => 0 <= result_liquid x /\ 0 <= result_debt x
                      /\ pending_of p' (result_validator x) = 0
                      /\ exists s, sp_stakes p !! result_validator x = Some s
                                   /\ result_reward x = epoch_share R (sp_total_staked p) s) results.
Proof.
  intros Hp Hwf HR Hmax. unfold StakePool_distribute_epoch_staker_rewards_from_pool.
  destruct (Z.eqb_spec R 0) as [->|HR0].
  { split_and!; try done; constructor. }
  set (l := StakePool_distribute_epoch_rewards R p).
  pose proof (epoch_shares_sum p R Hp HR) as Hsum. pose proof (epoch_shares_nodup p R Hp) as Hnd.
  fold l in Hsum, Hnd.
  assert (forall v r, (v, r) ∈ l -> 0 <= r /\ exists s, sp_stakes p !! v = Some s /\ StakeInfo_wf s) as Hl.
  { intros v r Hr. destruct (epoch_shares_listed p R Hp HR v r Hr) as (s & Hs & _ & ?).
    split; [lia|]. exists s. split; [done|]. by apply (Hwf v s). }
  assert (sumZ (fun vr => pending_of p vr.1) l <= map_sum si_rewards_earned (sp_stakes p)) as Hpend.
  { rewrite map_sum_keys. rewrite <- (sumZ_fmap fst (pending_of p)).
    apply sumZ_subset; [|done|].
    - intros v [s Hs]%elem_of_keys. rewrite Hs. simpl. apply (wf_rewards _ (Hwf v s Hs)).
    - intros v ([w r] & -> & Hr)%list_elem_of_fmap. apply elem_of_keys.
      destruct (Hl w r Hr) as (_ & s & Hs & _). by exists s. }
  destruct (settle_all c (num_active p) l 0 [] p Hnd) as
    (new & m' & p' & -> & -> & Hpos & Htot & Hmap & Hpaid & _); [lia|done| |].
  { rewrite sumZ_add. lia. }
  assert (forall f, sumZ f (sort_by_key result_validator new) = sumZ f new) as Hsort.
  { intros f. apply sumZ_perm, sort_by_key_perm. }
  simpl app. cbv beta iota. change (fun r => r.1.1.1) with result_validator. rewrite !Hsort.
  assert (forall f : Pubkey * Z -> Z, sumZ f l
            = sumZ (fun x => f (result_validator x, result_reward x)) new) as Hnew.
  { intros f. rewrite <- Hmap. apply sumZ_map. }
  rewrite !Hnew in *. rewrite sumZ_add in Htot. simpl in *.
  change (fun x => result_reward x) with result_reward in *.
  split_and!; try done; try lia.
  - rewrite (sort_by_key_perm result_validator new).
    replace (map result_validator new) with l.*1; [done|].
    rewrite <- Hmap. change (map fst (map (fun x => (result_validator x, result_reward x)) new)
                             = map result_validator new). by rewrite map_map.
  - apply sort_by_key_sorted.
  - apply Forall_forall. intros x Hx%elem_of_sort_by_key.
    assert ((result_validator x, result_reward x) ∈ l) as Hin.
    { rewrite <- Hmap. apply list_elem_of_fmap. by exists x. }
    destruct (epoch_shares_listed p R Hp HR _ _ Hin) as (s & Hs & He & _).
    destruct (Hpos x Hx). split_and!; try done; [|by exists s].
    apply Hpaid. apply list_elem_of_fmap. by exists (result_validator x, result_reward x).
Qed.

(** A vested and a bootstrapping validator share a pool. *)
Definition reward_pool : StakePool :=
  let bond v a i p := match StakePool_stake_with_index v a 0 i p with Ok p => p | Err _ => p end in
  bond 2 BOOTSTRAP_GRANT_AMOUNT 0 (bond 1 (2 * MIN_VALIDATOR_STAKE) u64_max StakePool_new).

Lemma epoch_rewards_conserve_witness :
  let '(minted, results, _) :=
    StakePool_distribute_epoch_staker_rewards_from_pool 1000001 100 reward_pool in
  results = [(1, 600000, 600000, 0); (2, 400000, 200000, 200000)] /\ minted = 800000
  /\ sumZ result_reward results <= 1000001.
Proof.
  assert (pool_inv reward_pool) as Hp.
  { apply validate_invariants_iff; [|vm_compute; reflexivity].
    apply unsignedb_spec. vm_compute. reflexivity. }
  assert (stakes_wf reward_pool) as Hw.
  { apply Forall_map_to_list. vm_compute. repeat constructor; discriminate. }
  pose proof (epoch_rewards_conserve reward_pool 1000001 100 Hp Hw) as Hc.
  specialize (Hc ltac:(split; vm_compute; reflexivity || discriminate) ltac:(vm_compute; discriminate)).
  assert (exists q, StakePool_distribute_epoch_staker_rewards_from_pool 1000001 100 reward_pool
    = (800000, [(1, 600000, 600000, 0); (2, 400000, 200000, 200000)], q)) as [q Hq]
    by (vm_compute; eexists; reflexivity).
  rewrite Hq in Hc. rewrite Hq. split; [reflexivity|]. split; [reflexivity|].
  destruct Hc as (_ & _ & _ & _ & Hle & _). exact Hle.
Defined.
