(* ===== verification/Validators.v ===== *)
(** * Validators and leader selection

    Models [ValidatorInfo], [ValidatorSet], [integer_sqrt],
    [governance_voting_power], [eligible_validator_stake] and the weighted
    round-robin leader selection of [core/src/consensus.rs]. *)

From S2P Require Import Prelude Crypto Stake.
From stdpp Require Import base tactics numbers list gmap sorting.
From Stdlib Require Import ZArith Lia.

Local Open Scope Z_scope.

Record ValidatorInfo := mkValidatorInfo {
  vi_pubkey : Pubkey;
  vi_reputation : Z;
  vi_blocks_proposed : Z;
  vi_votes_cast : Z;
  vi_correct_votes : Z;
  vi_stake : Z;
  vi_joined_slot : Z;
  vi_last_active_slot : Z;
  vi_last_observed_at_ms : Z;
  vi_last_observed_block_at_ms : Z;
  vi_last_observed_block_slot : Z;
  vi_commission_rate : Z;
  vi_transactions_processed : Z;
  vi_pending_activation : bool;
}.

Record ValidatorSet := mkValidatorSet {
  vs_validators : list ValidatorInfo;
  vs_frozen_epoch : Z;
}.

Definition eta_ValidatorInfo (r : ValidatorInfo) : ValidatorInfo :=
  mkValidatorInfo (vi_pubkey r) (vi_reputation r) (vi_blocks_proposed r) (vi_votes_cast r)
    (vi_correct_votes r) (vi_stake r) (vi_joined_slot r) (vi_last_active_slot r)
    (vi_last_observed_at_ms r) (vi_last_observed_block_at_ms r) (vi_last_observed_block_slot r)
    (vi_commission_rate r) (vi_transactions_processed r) (vi_pending_activation r).

Definition set_vi_reputation : Z -> ValidatorInfo -> ValidatorInfo := ltac:(setter eta_ValidatorInfo vi_reputation).
Definition set_vi_votes_cast : Z -> ValidatorInfo -> ValidatorInfo := ltac:(setter eta_ValidatorInfo vi_votes_cast).
Definition set_vi_last_active_slot : Z -> ValidatorInfo -> ValidatorInfo :=
  ltac:(setter eta_ValidatorInfo vi_last_active_slot).
Definition set_vi_last_observed_at_ms : Z -> ValidatorInfo -> ValidatorInfo :=
  ltac:(setter eta_ValidatorInfo vi_last_observed_at_ms).
Definition set_vi_last_observed_block_at_ms : Z -> ValidatorInfo -> ValidatorInfo :=
  ltac:(setter eta_ValidatorInfo vi_last_observed_block_at_ms).
Definition set_vi_last_observed_block_slot : Z -> ValidatorInfo -> ValidatorInfo :=
  ltac:(setter eta_ValidatorInfo vi_last_observed_block_slot).
Definition set_vi_pending_activation : bool -> ValidatorInfo -> ValidatorInfo :=
  ltac:(setter eta_ValidatorInfo vi_pending_activation).

#[global] Instance ValidatorInfo_eq_dec : EqDecision ValidatorInfo.
Proof. solve_decision. Defined.

(** ** One validator *)

Definition ValidatorInfo_new (pubkey : Pubkey) (joined_slot : Z) : ValidatorInfo :=
  {| vi_pubkey := pubkey; vi_reputation := 100; vi_blocks_proposed := 0; vi_votes_cast := 0;
     vi_correct_votes := 0; vi_stake := 0; vi_joined_slot := joined_slot;
     vi_last_active_slot := joined_slot; vi_last_observed_at_ms := 0;
     vi_last_observed_block_at_ms := 0; vi_last_observed_block_slot := 0;
     vi_commission_rate := 500; vi_transactions_processed := 0;
     vi_pending_activation := false |}.

Definition ValidatorInfo_note_activity (slot observed_at_ms : Z) (count_vote : bool)
  (v : ValidatorInfo) : ValidatorInfo :=
  let v := if vi_last_active_slot v <? slot then set_vi_last_active_slot slot v else v in
  let v := if vi_last_observed_at_ms v <? observed_at_ms
           then set_vi_last_observed_at_ms observed_at_ms v else v in
  let v := if vi_last_observed_block_slot v <=? slot
           then set_vi_last_observed_block_at_ms observed_at_ms
                  (set_vi_last_observed_block_slot slot v)
           else v in
  if count_vote then set_vi_votes_cast (sat_add64 (vi_votes_cast v) 1) v else v.

Definition ValidatorInfo_note_block_observation (slot observed_at_ms : Z) (v : ValidatorInfo)
  : ValidatorInfo :=
  let v := ValidatorInfo_note_activity slot observed_at_ms false v in
  if vi_last_observed_block_slot v <=? slot
  then set_vi_last_observed_block_at_ms observed_at_ms (set_vi_last_observed_block_slot slot v)
  else v.

Definition ValidatorInfo_update_reputation (correct : bool) (v : ValidatorInfo) : ValidatorInfo :=
  if correct then set_vi_reputation (Z.min (wrap64 (vi_reputation v + 10)) 1000) v
  else set_vi_reputation (Z.max (sat_sub (vi_reputation v) 50) 50) v.

Definition ValidatorInfo_voting_weight (v : ValidatorInfo) : Z := vi_reputation v.

(** ** The set *)

Definition ValidatorSet_new : ValidatorSet := mkValidatorSet [] 0.

Definition ValidatorSet_set_frozen_epoch (epoch : Z) (vs : ValidatorSet) : ValidatorSet :=
  mkValidatorSet (vs_validators vs) epoch.

Definition ValidatorSet_consensus_set (vs : ValidatorSet) : ValidatorSet :=
  mkValidatorSet (filter (fun v => vi_pending_activation v = false) (vs_validators vs))
    (vs_frozen_epoch vs).

Definition ValidatorSet_pending_count (vs : ValidatorSet) : nat :=
  length (filter (fun v => vi_pending_activation v = true) (vs_validators vs)).

Definition ValidatorSet_activate_pending_validators (vs : ValidatorSet)
  : list Pubkey * ValidatorSet :=
  (map vi_pubkey (filter (fun v => vi_pending_activation v = true) (vs_validators vs)),
   mkValidatorSet (map (set_vi_pending_activation false) (vs_validators vs))
     (vs_frozen_epoch vs)).

Definition ValidatorSet_add_validator (info : ValidatorInfo) (vs : ValidatorSet) : ValidatorSet :=
  if existsb (fun v => vi_pubkey v =? vi_pubkey info) (vs_validators vs) then vs
  else mkValidatorSet (vs_validators vs ++ [info]) (vs_frozen_epoch vs).

Definition ValidatorSet_remove_validator (pubkey : Pubkey) (vs : ValidatorSet) : ValidatorSet :=
  mkValidatorSet (filter (fun v => vi_pubkey v <> pubkey) (vs_validators vs)) (vs_frozen_epoch vs).

Definition ValidatorSet_get_validator (vs : ValidatorSet) (pubkey : Pubkey)
  : option ValidatorInfo :=
  List.find (fun v => vi_pubkey v =? pubkey) (vs_validators vs).

Definition ValidatorSet_sorted_validators (vs : ValidatorSet) : list ValidatorInfo :=
  sort_by_key vi_pubkey (vs_validators vs).

(** [.sum()] of [u64] wraps in a release build. *)
Definition ValidatorSet_total_voting_weight (vs : ValidatorSet) : Z :=
  wrap64 (sumZ ValidatorInfo_voting_weight (vs_validators vs)).

Definition ValidatorSet_select_leader_round_robin (slot : Z) (vs : ValidatorSet) : option Pubkey :=
  match vs_validators vs with
  | [] => None
  | _ =>
      let sorted := ValidatorSet_sorted_validators vs in
      let index := slot mod Z.of_nat (length sorted) in
      vi_pubkey <$> sorted !! Z.to_nat index
  end.

Definition ValidatorSet_select_leader (slot : Z) (vs : ValidatorSet) : option Pubkey :=
  ValidatorSet_select_leader_round_robin slot vs.

(** ** Integer square root *)

(** The state of Newton's loop is [(x, y)]. *)
Definition isqrt_step (value : Z) (xy : Z * Z) : Z * Z :=
  let x := xy.2 in (x, wrap64 (x + value / x) / 2).

Definition integer_sqrt (value : Z) : Z :=
  if value =? 0 then 0
  else (iter_until (fun xy => xy.1 <=? xy.2) (isqrt_step value) (Z.to_pos value)
          (value, (value + 1) / 2)).1.

Definition governance_voting_power (tokens_held reputation : Z) : Z :=
  let base := integer_sqrt tokens_held in
  let multiplier_x1000 := wrap64 (1000 + Z.min reputation 2000) in
  let capped := Z.min multiplier_x1000 3000 in
  wrap64 (base * capped / 1000).

(** ** Leader selection *)

Section leader.
Context `{Crypto}.

(** [eligible]: not pending, and in the V2 epoch set or above the minimum. *)
Definition leader_eligible (stake_pool : StakePool) (min_validator_stake : Z) (v : ValidatorInfo)
  : bool :=
  if vi_pending_activation v then false
  else match sp_staking_v2_state stake_pool with
       | Some _ => bool_decide (is_Some (StakePool_staking_v2_leader_weight stake_pool (vi_pubkey v)))
       | None =>
           let stake := match StakePool_get_stake stake_pool (vi_pubkey v) with
                        | Some s => StakeInfo_total_stake s
                        | None => 0
                        end in
           min_validator_stake <=? stake
       end.

Definition leader_weight (stake_pool : StakePool) (v : ValidatorInfo) : Z :=
  match StakePool_staking_v2_leader_weight stake_pool (vi_pubkey v) with
  | Some weight => weight
  | None =>
      let stake := match StakePool_get_stake stake_pool (vi_pubkey v) with
                   | Some s => Z.min (StakeInfo_total_stake s) MAX_VALIDATOR_STAKE
                   | None => Z.min (vi_stake v) MAX_VALIDATOR_STAKE
                   end in
      integer_sqrt (Z.max stake 1) + 1
  end.

(** The seeded starting priority of the [i]-th eligible validator. *)
Definition initial_priority (randomness_seed : bytes) (total_weight : Z) (i : nat) : Z :=
  if decide (randomness_seed = []) then 0
  else
    let pre := randomness_seed ++ le_bytes 8 (Z.of_nat i) in
    let raw := as_i64 (le_value (take 8 (be_bytes 32 (Hash_hash pre)))) in
    Z.rem raw (Z.quot total_weight 2 + 1).

(** First index of a maximal priority. *)
Fixpoint argmax_from (i best : nat) (best_priority : Z) (l : list Z) : nat :=
  match l with
  | [] => best
  | p :: l =>
      if best_priority <? p then argmax_from (S i) i p l
      else argmax_from (S i) best best_priority l
  end.

Definition argmax (l : list Z) : nat :=
  match l with [] => O | p :: l => argmax_from 1 0 p l end.

(** One simulated round: credit every weight, debit the proposer. *)
Definition rotation_round (weights : list Z) (total_weight : Z) (priorities : list Z)
  : nat * list Z :=
  let priorities := zip_with Z.add priorities weights in
  let proposer_idx := argmax priorities in
  (proposer_idx, alter (fun p => p - total_weight) proposer_idx priorities).

Fixpoint rotation (rounds : nat) (weights : list Z) (total_weight : Z) (priorities : list Z)
  : nat :=
  let '(proposer_idx, priorities) := rotation_round weights total_weight priorities in
  match rounds with
  | O => proposer_idx
  | S rounds => rotation rounds weights total_weight priorities
  end.

Definition ValidatorSet_select_leader_weighted (vs : ValidatorSet) (slot : Z)
  (stake_pool : StakePool) (randomness_seed : bytes) (min_validator_stake : Z)
  : option Pubkey :=
  match vs_validators vs with
  | [] => None
  | _ =>
      let eligible :=
        List.filter (leader_eligible stake_pool min_validator_stake)
          (ValidatorSet_sorted_validators vs) in
      match eligible with
      | [] => None
      | [v] => Some (vi_pubkey v)
      | _ =>
          let n := length eligible in
          let weights := map (leader_weight stake_pool) eligible in
          let total_weight := sumZ id weights in
          if total_weight =? 0 then ValidatorSet_select_leader slot vs
          else
            let epoch_len := wrap64 (Z.of_nat n * 4) in
            let effective_rounds := Z.to_nat (slot mod Z.max epoch_len 1) in
            let priorities := map (initial_priority randomness_seed total_weight) (seq 0 n) in
            let proposer_idx := rotation effective_rounds weights total_weight priorities in
            vi_pubkey <$> eligible !! proposer_idx
      end
  end.
End leader.

(** ** Eligible voting stake *)

Definition eligible_validator_stake (vs : ValidatorSet) (stake_pool : StakePool)
  (min_validator_stake : Z) (validator : Pubkey) : option Z :=
  match ValidatorSet_get_validator vs validator with
  | None => None
  | Some info =>
      if vi_pending_activation info then None
      else match sp_staking_v2_state stake_pool with
           | Some _ => StakePool_staking_v2_consensus_power stake_pool validator
           | None =>
               match StakePool_get_stake stake_pool validator with
               | None => None
               | Some s =>
                   let stake := StakeInfo_total_stake s in
                   if stake <? min_validator_stake then None else Some stake
               end
           end
  end.

(** The sum is of [u128]s; it is exact below 2^64 validators. *)
Definition total_eligible_validator_stake (vs : ValidatorSet) (stake_pool : StakePool)
  (min_validator_stake : Z) : Z :=
  sumZ id (omap (fun v => eligible_validator_stake vs stake_pool min_validator_stake (vi_pubkey v))
             (vs_validators vs)).

(** ** Lemmas *)

Definition pubkeys (vs : ValidatorSet) : list Pubkey := map vi_pubkey (vs_validators vs).

(** The invariant [add_validator] maintains: one entry per key. *)
Definition ValidatorSet_wf (vs : ValidatorSet) : Prop := NoDup (pubkeys vs).

Lemma add_validator_wf info vs :
  ValidatorSet_wf vs -> ValidatorSet_wf (ValidatorSet_add_validator info vs).
Proof.
  unfold ValidatorSet_wf, pubkeys, ValidatorSet_add_validator. intros Hwf.
  destruct (existsb _ _) eqn:He; [done|]. simpl. rewrite map_app. apply NoDup_app.
  split_and!; [done| |apply NoDup_singleton].
  intros k Hk Hk'. apply list_elem_of_singleton in Hk'. subst k.
  apply (list_elem_of_fmap_1 vi_pubkey) in Hk as (v & Hv & Hin).
  enough (existsb (fun v => vi_pubkey v =? vi_pubkey info) (vs_validators vs) = true) by congruence.
  apply existsb_exists. exists v. split; [by apply list_elem_of_In|]. by apply Z.eqb_eq.
Qed.

Lemma remove_validator_wf k vs :
  ValidatorSet_wf vs -> ValidatorSet_wf (ValidatorSet_remove_validator k vs).
Proof.
  unfold ValidatorSet_wf, pubkeys, ValidatorSet_remove_validator. simpl. intros Hwf.
  eapply sublist_NoDup; [done|]. apply (fmap_sublist vi_pubkey), sublist_filter.
Qed.

Lemma get_validator_Some vs k v :
  ValidatorSet_wf vs ->
  ValidatorSet_get_validator vs k = Some v <-> v ∈ vs_validators vs /\ vi_pubkey v = k.
Proof.
  unfold ValidatorSet_wf, pubkeys, ValidatorSet_get_validator.
  generalize (vs_validators vs) as l. clear vs.
  induction l as [|u l IH]; intros Hwf; cbn [List.find].
  - split; [done|]. by intros [?%not_elem_of_nil _].
  - cbn [map] in Hwf. apply NoDup_cons in Hwf as [Hnin Hwf].
    destruct (Z.eqb_spec (vi_pubkey u) k) as [Hk|Hk].
    + split; [intros [= ->]; split; [left|done]|].
      intros [[->|Hv]%elem_of_cons Hvk]; [done|]. exfalso. apply Hnin. rewrite Hk, <- Hvk.
      by apply (list_elem_of_fmap_2 vi_pubkey).
    + rewrite IH by done. split; intros [Hv Hvk]; (split; [|done]); [by right|].
      apply elem_of_cons in Hv as [->|?]; done.
Qed.

Lemma sorted_validators_perm vs : ValidatorSet_sorted_validators vs ≡ₚ vs_validators vs.
Proof. apply sort_by_key_perm. Qed.

(** Sorting by a key that identifies the elements forgets the original order. *)
Lemma sort_by_key_unique {A} (key : A -> Z) l1 l2 :
  NoDup (map key l1) -> l1 ≡ₚ l2 -> sort_by_key key l1 = sort_by_key key l2.
Proof.
  intros Hnd Hp. apply (StronglySorted_unique_strong (fun x y => key x <= key y)).
  - intros x y Hx Hy H1 H2. rewrite elem_of_sort_by_key in Hx, Hy. rewrite <- Hp in Hy.
    apply list_elem_of_lookup in Hx as [i Hi]. apply list_elem_of_lookup in Hy as [j Hj].
    assert (i = j) as ->; [|congruence].
    eapply (NoDup_lookup (map key l1)); [done| |].
    + change (map key l1) with (key <$> l1). rewrite list_lookup_fmap, Hi. done.
    + change (map key l1) with (key <$> l1). rewrite list_lookup_fmap, Hj. simpl. f_equal. lia.
  - apply sort_by_key_sorted.
  - apply sort_by_key_sorted.
  - by rewrite !sort_by_key_perm.
Qed.

(** *** The square root *)

(** [Z.sqrt_spec] without its [let]. *)
Lemma sqrt_bounds v : 0 <= v -> Z.sqrt v * Z.sqrt v <= v < (Z.sqrt v + 1) * (Z.sqrt v + 1).
Proof. apply Z.sqrt_spec. Qed.

Section isqrt.
Context (v : Z) (Hv : 0 < v < 2 ^ 64).

Lemma newton_lower x : 0 < x -> Z.sqrt v <= (x + v / x) / 2.
Proof.
  intros Hx. pose proof (sqrt_bounds v ltac:(lia)) as Hs.
  assert (2 * Z.sqrt v - x <= v / x); [|divlia].
  apply Z.div_le_lower_bound; [done|].
  pose proof (Z.square_nonneg (x - Z.sqrt v)). lia.
Qed.

Lemma newton_small x : Z.sqrt v <= x -> 0 < x -> x <= 2 ^ 63 -> 0 <= x + v / x < 2 ^ 64.
Proof.
  intros Hs Hx Hx63. assert (0 <= v / x) by (apply Z.div_pos; lia). split; [lia|].
  destruct (decide (x = 1)) as [->|]; [|].
  - pose proof (sqrt_bounds v ltac:(lia)). rewrite Z.div_1_r. nia.
  - assert (v / x <= v / 2) by (apply Z.div_le_compat_l; lia).
    assert (v / 2 < 2 ^ 63) by divlia. lia.
Qed.

(** Above the root, the next iterate is no smaller than the root; below or at
    it, the loop stops. *)
Definition isqrt_inv (xy : Z * Z) : Prop :=
  let '(x, y) := xy in
  0 < x /\ Z.sqrt v <= x /\ 0 < y <= 2 ^ 63 /\ Z.sqrt v <= y /\ (x <= y -> x <= Z.sqrt v).

Lemma isqrt_inv_init : isqrt_inv (v, (v + 1) / 2).
Proof.
  unfold isqrt_inv. pose proof (sqrt_bounds v ltac:(lia)). pose proof (Z.sqrt_nonneg v).
  assert (Z.sqrt v <= v) by nia.
  split_and!; try lia; try divlia.
  - assert (2 * Z.sqrt v <= v + 1); [nia|divlia].
  - intros Hle. assert (v = 1) as -> by divlia. reflexivity.
Qed.

Lemma isqrt_inv_step xy :
  isqrt_inv xy -> (xy.1 <=? xy.2) = false -> isqrt_inv (isqrt_step v xy).
Proof.
  destruct xy as [x y]. unfold isqrt_inv, isqrt_step. simpl.
  intros (Hx & Hxs & Hy & Hys & _) Hlt%Z.leb_gt.
  pose proof (newton_small y Hys ltac:(lia) ltac:(lia)) as Hsm.
  rewrite wrap_small by done. pose proof (newton_lower y ltac:(lia)) as Hlo.
  pose proof (Z.sqrt_pos v) as Hpos.
  split_and!; try lia; [divlia..|].
  intros Hle. assert (y <= v / y) by divlia.
  apply Z.sqrt_le_square; [lia..|]. pose proof (Z.mul_div_le v y). nia.
Qed.
End isqrt.

Lemma integer_sqrt_spec v : is_u64 v -> integer_sqrt v = Z.sqrt v.
Proof.
  unfold is_u64, integer_sqrt. intros Hv. destruct (Z.eqb_spec v 0) as [->|]; [done|].
  assert (0 < v < 2 ^ 64) as Hv' by lia.
  destruct (iter_until_done (fun xy => xy.1 <=? xy.2) (isqrt_step v) (isqrt_inv v)
              (fun xy => Z.max 0 (xy.1 - 1)) (fun xy Hi Hd => isqrt_inv_step v Hv' xy Hi Hd))
    with (p := Z.to_pos v) (s := (v, (v + 1) / 2)) as [Hi Hd].
  - intros; simpl; lia.
  - intros [x y] (? & _ & ? & _) Hlt%Z.leb_gt. simpl in *. lia.
  - by apply isqrt_inv_init.
  - simpl. rewrite Z2Pos.id by lia. lia.
  - destruct (iter_until _ _ _ _) as [x y]. simpl in *. apply Z.leb_le in Hd.
    destruct Hi as (_ & ? & _ & _ & Hle). specialize (Hle Hd). lia.
Qed.

(** *** The selected leader *)

Lemma argmax_from_bound i best b l : (best < i)%nat -> (argmax_from i best b l < i + length l)%nat.
Proof.
  revert i best b. induction l as [|p l IH]; intros i best b Hb; simpl; [lia|].
  case_match.
  - eapply Nat.lt_le_trans; [apply IH; lia|lia].
  - eapply Nat.lt_le_trans; [apply IH; lia|lia].
Qed.

Lemma argmax_bound l : l <> [] -> (argmax l < length l)%nat.
Proof. destruct l as [|p l]; [done|]. intros _. apply (argmax_from_bound 1 0). lia. Qed.

Lemma rotation_bound rounds ws T ps :
  length ps = length ws -> ws <> [] -> (rotation rounds ws T ps < length ws)%nat.
Proof.
  revert ps. induction rounds as [|k IH]; intros ps Hl Hne; simpl.
  - assert (zip_with Z.add ps ws <> []) as Hz by (by destruct ps, ws).
    pose proof (argmax_bound _ Hz) as Hb. rewrite length_zip_with in Hb. lia.
  - apply IH; [|done]. rewrite length_alter, length_zip_with. lia.
Qed.

Lemma leader_weight_pos `{Crypto} sp v :
  sp_staking_v2_state sp = None -> 0 < leader_weight sp v.
Proof.
  intros Hv2. unfold leader_weight, StakePool_staking_v2_leader_weight. rewrite Hv2.
  set (s := Z.max _ 1).
  assert (is_u64 s) as Hs.
  { unfold s, StakeInfo_total_stake, is_u64, MAX_VALIDATOR_STAKE.
    destruct (StakePool_get_stake sp (vi_pubkey v)); lia. }
  rewrite integer_sqrt_spec by done. pose proof (Z.sqrt_nonneg s). lia.
Qed.

Section leader_theorems.
Context `{Crypto} (sp : StakePool) (seed : bytes) (m : Z).

Abbreviation eligible vs :=
  (List.filter (leader_eligible sp m) (ValidatorSet_sorted_validators vs)).

Lemma elem_of_eligible vs v :
  v ∈ eligible vs <-> v ∈ vs_validators vs /\ leader_eligible sp m v = true.
Proof.
  rewrite list_elem_of_In, filter_In, <- list_elem_of_In.
  unfold ValidatorSet_sorted_validators. by rewrite elem_of_sort_by_key.
Qed.

Lemma select_leader_eligible vs slot k :
  sp_staking_v2_state sp = None ->
  ValidatorSet_select_leader_weighted vs slot sp seed m = Some k ->
  exists v, v ∈ vs_validators vs /\ leader_eligible sp m v = true /\ vi_pubkey v = k.
Proof.
  intros Hv2. unfold ValidatorSet_select_leader_weighted.
  destruct (vs_validators vs) as [|x l] eqn:Hvs; [done|]. rewrite <- Hvs.
  destruct (eligible vs) as [|u [|u' l']] eqn:He; [done|..].
  - intros [= <-]. exists u. assert (u ∈ eligible vs) by (rewrite He; left).
    by apply elem_of_eligible in H0 as [].
  - rewrite <- He. case_match eqn:HT.
    + exfalso. apply Z.eqb_eq in HT. rewrite sumZ_map, He, !sumZ_cons in HT.
      pose proof (leader_weight_pos sp u Hv2). pose proof (leader_weight_pos sp u' Hv2).
      assert (0 <= sumZ (fun x => leader_weight sp x) l') by
        (apply sumZ_nonneg; intros z _; pose proof (leader_weight_pos sp z Hv2); lia).
      unfold id in HT. lia.
    + intros (v & Hv & ->)%fmap_Some. apply list_elem_of_lookup_2 in Hv.
      apply elem_of_eligible in Hv as []. by exists v.
Qed.

Lemma select_leader_exists vs slot v :
  sp_staking_v2_state sp = None -> v ∈ vs_validators vs -> leader_eligible sp m v = true ->
  is_Some (ValidatorSet_select_leader_weighted vs slot sp seed m).
Proof.
  intros Hv2 Hv Hel. unfold ValidatorSet_select_leader_weighted.
  destruct (vs_validators vs) as [|x l] eqn:Hvs; [by apply not_elem_of_nil in Hv|].
  assert (v ∈ eligible vs) as Hin by (apply elem_of_eligible; by rewrite Hvs).
  destruct (eligible vs) as [|u [|u' l']] eqn:He; [by apply not_elem_of_nil in Hin|done|].
  rewrite <- He. case_match.
  - unfold ValidatorSet_select_leader, ValidatorSet_select_leader_round_robin. rewrite Hvs.
    set (sorted := ValidatorSet_sorted_validators vs).
    assert (length sorted = length (vs_validators vs)) as Hlen
      by (unfold sorted; by rewrite sorted_validators_perm).
    rewrite Hvs in Hlen. apply fmap_is_Some, lookup_lt_is_Some. simpl in Hlen.
    pose proof (Z.mod_pos_bound slot (Z.of_nat (length sorted))). lia.
  - apply fmap_is_Some, lookup_lt_is_Some.
    rewrite <- (length_map (leader_weight sp) (eligible vs)).
    apply rotation_bound; [by rewrite !length_map, length_seq|by rewrite He].
Qed.

Lemma select_leader_perm l1 l2 e1 e2 slot :
  NoDup (map vi_pubkey l1) -> l1 ≡ₚ l2 ->
  ValidatorSet_select_leader_weighted (mkValidatorSet l1 e1) slot sp seed m
  = ValidatorSet_select_leader_weighted (mkValidatorSet l2 e2) slot sp seed m.
Proof.
  intros Hnd Hp. unfold ValidatorSet_select_leader_weighted, ValidatorSet_select_leader,
    ValidatorSet_select_leader_round_robin, ValidatorSet_sorted_validators. simpl.
  rewrite (sort_by_key_unique vi_pubkey l1 l2) by done.
  destruct l1, l2; try done. by apply Permutation_nil_cons in Hp.
Qed.
End leader_theorems.

(** *** Voting stake *)

Lemma eligible_validator_stake_range vs sp m k x :
  (forall u s, sp_stakes sp !! u = Some s -> is_u64 (si_amount s) /\ is_u64 (si_delegated_amount s)) ->
  sp_staking_v2_state sp = None -> 0 <= m ->
  eligible_validator_stake vs sp m k = Some x -> m <= x <= u64_max.
Proof.
  intros Hsp Hv2 Hm. unfold eligible_validator_stake. rewrite Hv2.
  destruct (ValidatorSet_get_validator vs k) as [info|]; [|done].
  destruct (vi_pending_activation info); [done|].
  unfold StakePool_get_stake. destruct (sp_stakes sp !! k) as [s|] eqn:Hs; [|done].
  destruct (Z.ltb_spec (StakeInfo_total_stake s) m) as [|Hge]; [done|]. intros [= <-].
  destruct (Hsp _ _ Hs). unfold StakeInfo_total_stake, sat_add64 in *. lia.
Qed.

(** Sum over the set of a function of the key. *)
Lemma total_eligible_sum vs sp m :
  total_eligible_validator_stake vs sp m
  = sumZ (fun k => default 0 (eligible_validator_stake vs sp m k)) (pubkeys vs).
Proof. unfold total_eligible_validator_stake, pubkeys. by rewrite sumZ_omap, sumZ_map. Qed.

(** ** Theorems *)

(** The validator set holds one record per key: adding, removing and
    activating validators keep it so; a validator that was not in the set can be
    looked up after it is added, a removed one cannot. *)
Theorem validator_set_unique info k vs :
  ValidatorSet_wf vs ->
  ValidatorSet_wf (ValidatorSet_add_validator info vs)
  /\ ValidatorSet_wf (ValidatorSet_remove_validator k vs)
  /\ ValidatorSet_wf (ValidatorSet_activate_pending_validators vs).2
  /\ ValidatorSet_wf (ValidatorSet_consensus_set vs)
  /\ ValidatorSet_get_validator (ValidatorSet_add_validator info vs) (vi_pubkey info)
     = Some (default info (ValidatorSet_get_validator vs (vi_pubkey info)))
  /\ ValidatorSet_get_validator (ValidatorSet_remove_validator k vs) k = None.
Proof.
  intros Hwf. pose proof (add_validator_wf info vs Hwf) as Ha.
  pose proof (remove_validator_wf k vs Hwf) as Hr. split_and!; [done|done|..].
  - unfold ValidatorSet_wf, pubkeys, ValidatorSet_activate_pending_validators. simpl.
    by rewrite map_map.
  - unfold ValidatorSet_wf, pubkeys, ValidatorSet_consensus_set in *. simpl.
    eapply sublist_NoDup; [exact Hwf|]. apply (fmap_sublist vi_pubkey), sublist_filter.
  - destruct (ValidatorSet_get_validator vs (vi_pubkey info)) as [v|] eqn:Hv; simpl.
    + apply get_validator_Some in Hv as [Hin Hk]; [|done]. apply get_validator_Some; [done|].
      split; [|done]. unfold ValidatorSet_add_validator. case_match; [done|]. simpl.
      apply elem_of_app. by left.
    + apply get_validator_Some; [done|]. split; [|done]. unfold ValidatorSet_add_validator.
      destruct (existsb _ _) eqn:He.
      * apply existsb_exists in He as (u & Hu & Hk%Z.eqb_eq).
        unfold ValidatorSet_get_validator in Hv. eapply find_none in Hv; [|exact Hu]. lia.
      * simpl. apply elem_of_app. right. by apply list_elem_of_singleton.
  - destruct (ValidatorSet_get_validator _ k) as [v|] eqn:Hv; [|done].
    apply get_validator_Some in Hv as [Hin Hk]; [|done].
    by apply list_elem_of_filter in Hin as [? _].
Qed.

(** [integer_sqrt] terminates with the floor of the square root of every
    64-bit value, without wrap-around in the Newton iteration. *)
Theorem integer_sqrt_floor v :
  is_u64 v -> integer_sqrt v * integer_sqrt v <= v < (integer_sqrt v + 1) * (integer_sqrt v + 1).
Proof. intros Hv. rewrite integer_sqrt_spec by done. apply sqrt_bounds. apply Hv. Qed.

(** Leader selection before Staking V2: the selected leader is an active
    validator of the set with at least the minimum stake, there is one whenever
    the set has such a validator, and the choice does not depend on the order in
    which the set stores its validators nor on the frozen epoch. *)
Theorem leader_selection_sound `{Crypto} sp seed m vs slot :
  sp_staking_v2_state sp = None -> ValidatorSet_wf vs ->
  (forall k, ValidatorSet_select_leader_weighted vs slot sp seed m = Some k ->
     exists v, v ∈ vs_validators vs /\ vi_pubkey v = k /\ vi_pending_activation v = false
       /\ m <= match StakePool_get_stake sp k with Some s => StakeInfo_total_stake s | None => 0 end)
  /\ ((exists v, v ∈ vs_validators vs /\ leader_eligible sp m v = true) ->
      is_Some (ValidatorSet_select_leader_weighted vs slot sp seed m))
  /\ (forall l epoch, vs_validators vs ≡ₚ l ->
      ValidatorSet_select_leader_weighted (mkValidatorSet l epoch) slot sp seed m
      = ValidatorSet_select_leader_weighted vs slot sp seed m).
Proof.
  intros Hv2 Hwf. split_and!.
  - intros k Hk. destruct (select_leader_eligible sp seed m vs slot k Hv2 Hk) as (v & Hv & He & <-).
    exists v. unfold leader_eligible in He. rewrite Hv2 in He.
    destruct (vi_pending_activation v); [done|]. apply Z.leb_le in He. done.
  - intros (v & Hv & He). by eapply select_leader_exists.
  - intros l epoch Hp. destruct vs as [l0 e0]. symmetry. by apply select_leader_perm.
Qed.

Section witnesses.
#[local] Existing Instance Toy.crypto.

Definition two_validators : ValidatorSet :=
  mkValidatorSet [ValidatorInfo_new 8 0; ValidatorInfo_new 3 0] 0.
Definition two_stakes : StakePool :=
  set_sp_stakes {[ 8 := StakeInfo_new 8 MIN_VALIDATOR_STAKE 0;
                   3 := StakeInfo_new 3 (2 * MIN_VALIDATOR_STAKE) 0 ]} StakePool_new.

Lemma two_validators_wf : ValidatorSet_wf two_validators.
Proof. apply (bool_decide_unpack _). vm_compute. exact I. Qed.

Lemma validator_set_unique_witness :
  ValidatorSet_get_validator (ValidatorSet_add_validator (ValidatorInfo_new 5 0) two_validators) 5
  = Some (ValidatorInfo_new 5 0)
  /\ ValidatorSet_get_validator (ValidatorSet_remove_validator 8 two_validators) 8 = None.
Proof.
  exact (proj2 (proj2 (proj2 (proj2 (validator_set_unique (ValidatorInfo_new 5 0) 8 two_validators
           two_validators_wf))))).
Defined.

Lemma integer_sqrt_floor_witness :
  integer_sqrt 99 = 9 /\ integer_sqrt 99 * integer_sqrt 99 <= 99 < (integer_sqrt 99 + 1) * (integer_sqrt 99 + 1).
Proof. split; [vm_compute; reflexivity|]. apply (integer_sqrt_floor 99). unfold is_u64. lia. Defined.

Lemma leader_selection_sound_witness :
  is_Some (ValidatorSet_select_leader_weighted two_validators 5 two_stakes [1] MIN_VALIDATOR_STAKE).
Proof.
  apply (proj1 (proj2 (leader_selection_sound two_stakes [1] MIN_VALIDATOR_STAKE two_validators 5
                         eq_refl two_validators_wf))).
  exists (ValidatorInfo_new 8 0). split; [left|vm_compute; reflexivity].
Defined.
End witnesses.
