(* ===== verification/StakingV2.v ===== *)
(** * Staking V2: epoch accounting

    Models the Staking V2 part of [StakePool] in [core/src/consensus.rs]: the
    stake-time accumulators, the commission schedules, the frozen slash exposures,
    the checks of [validate_v2_invariants], the start, the checkpoints and the end
    of an epoch, and the inputs of its reward settlement.

    - a [BTreeMap] is a [gmap]; where the source iterates in key order and the order
      matters, the model uses [btree];
    - the pool an operation returns is the new pool; the callers work on a copy that
      they drop when the operation fails;
    - a product of two 64-bit numbers fits in 128 bits, so [saturating_mul] and
      [checked_mul] on [u128] are exact. *)

From S2P Require Import Prelude Crypto Stake Pool Validators.
From stdpp Require Import base tactics numbers list gmap.
From Stdlib Require Import ZArith Lia.

Local Open Scope Z_scope.
Local Open Scope rust_scope.

(** ** Constants and errors *)

Definition SLOTS_PER_EPOCH : Z := 432000.
Definition DEFAULT_VALIDATOR_COMMISSION_BPS : Z := 500.
Definition MAX_VALIDATOR_COMMISSION_BPS : Z := 1000.
Definition MAX_VALIDATOR_COMMISSION_CHANGE_BPS_PER_EPOCH : Z := 100.
Definition VALIDATOR_COMMISSION_CHANGE_DELAY_EPOCHS : Z := 2.
Definition STAKING_V2_STATE_VERSION : Z := 2.
Definition SLASHING_V2_EVIDENCE_WINDOW_EPOCHS : Z := 2.

Definition slot_to_epoch (slot : Z) : Z := slot / SLOTS_PER_EPOCH.
Definition epoch_start_slot (epoch : Z) : Z := wrap64 (epoch * SLOTS_PER_EPOCH).
Definition is_epoch_boundary (slot : Z) : bool := (0 <? slot) && (slot mod SLOTS_PER_EPOCH =? 0).

Inductive V2Error :=
| FromPool (e : PoolError)
| CheckpointBackwards (last slot : Z)
| AccumulatorOverflow
| IntervalBackwards
| IntervalEmpty
| AverageAboveU64
| CommissionAboveMaximum (bps : Z)
| PendingCommissionNotFuture
| PendingCommissionStep
| ExposureOverflow
| EffectiveAboveCap (validator : Pubkey)
| UnsupportedVersion (version : Z)
| NotEpochBoundary
| EpochStartMismatch
| ActivationAfterEpoch
| SettledInFuture
| TooManySnapshots
| SnapshotMissing
| SnapshotKeyMismatch (epoch : Z)
| SnapshotStartMismatch (epoch : Z)
| SnapshotOutOfRange (epoch : Z)
| ZeroSelfBondExposure (validator : Pubkey)
| InvalidDelegatedExposure (validator : Pubkey)
| ExposureSetMismatch
| AccountingKeyMismatch (validator : Pubkey)
| ZeroLeaderWeight (validator : Pubkey)
| ZeroConsensusPower (validator : Pubkey)
| ExposureMissing (validator : Pubkey)
| ExposureDiffers (validator : Pubkey)
| CheckpointPredatesEpoch (validator : Pubkey)
| AboveSaturationLimit (validator : Pubkey)
| SelfBondMismatch (validator : Pubkey)
| ProductionBaselineAbove (validator : Pubkey)
| NoCommissionSchedule (validator : Pubkey)
| CommissionDiffers (validator : Pubkey)
| DuplicatedSelfBond (validator : Pubkey)
| DelegationMismatch (validator delegator : Pubkey)
| DelegationAbsent (validator delegator : Pubkey)
| NotRewardEligible (validator : Pubkey)
| UnknownValidator (validator : Pubkey)
| AlreadyInitialized
| NotInitialized
| DuplicateValidator (validator : Pubkey)
| NoActiveValidators
| CheckpointPredatesCurrent
| WrongEpochEnd (expected : Z)
| EpochOverflow
| WeightOverflow
| ZeroLeaderWeights
| ProductionRegressed (validator : Pubkey)
| BlocksNotCovered
| PendingCommissionExists
| CommissionStepTooLarge
| UnsettledEpoch (epoch : Z).

Definition lift_pool {A} (r : result A PoolError) : result A V2Error :=
  match r with Ok a => Ok a | Err e => Err (FromPool e) end.

(** A [BTreeMap] in key order. *)
Definition btree {A} (m : gmap Pubkey A) : list (Pubkey * A) := sort_by_key fst (map_to_list m).

(** [if cond { return Err(e) }] followed by the rest of the function. *)
Notation "'reject' c 'with' e ; k" := (if c then Err e else k)
  (at level 200, c at level 100, e at level 100, k at level 200, right associativity) : rust_scope.

(** ** Stake-time accumulators *)

Definition EpochStakeAccumulator_new (amount epoch_start_slot : Z) : EpochStakeAccumulator :=
  mkEpochStakeAccumulator amount 0 epoch_start_slot.

Definition EpochStakeAccumulator_checkpoint (slot : Z) (a : EpochStakeAccumulator)
  : result EpochStakeAccumulator V2Error :=
  or_err (checked_sub slot (acc_last_checkpoint_slot a))
    (CheckpointBackwards (acc_last_checkpoint_slot a) slot) (fun elapsed =>
  let weighted := acc_weighted_slot_spores a + acc_amount a * elapsed in
  reject u128_max <? weighted with AccumulatorOverflow;
  Ok (mkEpochStakeAccumulator (acc_amount a) weighted slot)).

Definition EpochStakeAccumulator_set_amount (slot amount : Z) (a : EpochStakeAccumulator)
  : result EpochStakeAccumulator V2Error :=
  let? a := EpochStakeAccumulator_checkpoint slot a in
  Ok (mkEpochStakeAccumulator amount (acc_weighted_slot_spores a) (acc_last_checkpoint_slot a)).

Definition EpochStakeAccumulator_average_amount (epoch_end_slot epoch_start_slot : Z)
  (a : EpochStakeAccumulator) : result Z V2Error :=
  or_err (checked_sub epoch_end_slot epoch_start_slot) IntervalBackwards (fun duration =>
  reject duration =? 0 with IntervalEmpty;
  let? closed := EpochStakeAccumulator_checkpoint epoch_end_slot a in
  let average := acc_weighted_slot_spores closed / duration in
  reject u64_max <? average with AverageAboveU64;
  Ok average).

(** ** Commission schedules and exposures *)

Definition abs_diff (a b : Z) : Z := Z.abs (a - b).

Definition ValidatorCommissionState_new (current_epoch : Z) : ValidatorCommissionState :=
  mkValidatorCommissionState DEFAULT_VALIDATOR_COMMISSION_BPS None current_epoch.

Definition ValidatorCommissionState_validate (c : ValidatorCommissionState) : result unit V2Error :=
  reject MAX_VALIDATOR_COMMISSION_BPS <? vcs_current_bps c with CommissionAboveMaximum (vcs_current_bps c);
  match vcs_pending c with
  | Some pending =>
      reject MAX_VALIDATOR_COMMISSION_BPS <? pvc_commission_bps pending
        with CommissionAboveMaximum (pvc_commission_bps pending);
      reject pvc_activation_epoch pending <=? vcs_last_activated_epoch c with PendingCommissionNotFuture;
      reject MAX_VALIDATOR_COMMISSION_CHANGE_BPS_PER_EPOCH
             <? abs_diff (vcs_current_bps c) (pvc_commission_bps pending) with PendingCommissionStep;
      Ok tt
  | None => Ok tt
  end.

Definition ValidatorSlashExposure_total (e : ValidatorSlashExposure) : result Z V2Error :=
  try_fold (fun total amount => or_err (checked_add64 total amount) ExposureOverflow Ok)
    (vse_self_bond e) (map_to_list (vse_delegations e)).*2.

(** ** The checks *)

(** One retained snapshot. *)
Definition validate_exposure (_ : unit) (entry : Pubkey * ValidatorSlashExposure) : result unit V2Error :=
  let '(validator, exposure) := entry in
  reject vse_self_bond exposure =? 0 with ZeroSelfBondExposure validator;
  reject existsb (fun '(delegator, amount) => (delegator =? validator) || (amount =? 0))
           (map_to_list (vse_delegations exposure)) with InvalidDelegatedExposure validator;
  let? _ := ValidatorSlashExposure_total exposure in
  Ok tt.

Definition validate_snapshot (st : StakingV2EpochState) (_ : unit)
  (entry : Z * EpochSlashExposureSnapshot) : result unit V2Error :=
  let '(epoch, snapshot) := entry in
  let oldest_retained := sat_sub (v2_current_epoch st) SLASHING_V2_EVIDENCE_WINDOW_EPOCHS in
  reject negb (ess_epoch snapshot =? epoch) with SnapshotKeyMismatch epoch;
  reject negb (ess_start_slot snapshot =? epoch_start_slot epoch) with SnapshotStartMismatch epoch;
  reject (epoch <? oldest_retained) || (v2_current_epoch st <? epoch) with SnapshotOutOfRange epoch;
  try_fold validate_exposure tt (map_to_list (ess_validators snapshot)).

(** The accounting of one delegation against the pool. *)
Definition validate_accumulator (st : StakingV2EpochState) (validator : Pubkey)
  (current_delegations : option (gmap Pubkey Z)) (_ : unit)
  (entry : Pubkey * EpochStakeAccumulator) : result unit V2Error :=
  let '(delegator, accumulator) := entry in
  reject delegator =? validator with DuplicatedSelfBond validator;
  reject acc_last_checkpoint_slot accumulator <? v2_epoch_start_slot st
    with CheckpointPredatesEpoch validator;
  let current := default 0 (current_delegations ≫= (.!! delegator)) in
  reject negb (acc_amount accumulator =? current) with DelegationMismatch validator delegator;
  Ok tt.

Definition validate_accounting (p : StakePool) (st : StakingV2EpochState)
  (current_exposure : EpochSlashExposureSnapshot) (saturation_limit : Z) (_ : unit)
  (entry : Pubkey * ValidatorEpochAccounting) : result unit V2Error :=
  let '(validator, accounting) := entry in
  reject negb (vea_validator accounting =? validator) with AccountingKeyMismatch validator;
  reject vea_leader_weight accounting =? 0 with ZeroLeaderWeight validator;
  reject vea_consensus_power accounting =? 0 with ZeroConsensusPower validator;
  or_err (ess_validators current_exposure !! validator) (ExposureMissing validator) (fun exposure =>
  let? exposed := ValidatorSlashExposure_total exposure in
  reject negb (exposed =? vea_consensus_power accounting) with ExposureDiffers validator;
  reject acc_last_checkpoint_slot (vea_self_bond accounting) <? v2_epoch_start_slot st
    with CheckpointPredatesEpoch validator;
  or_err (sp_stakes p !! validator) (UnknownValidator validator) (fun stake =>
  reject saturation_limit <? StakeInfo_total_stake stake with AboveSaturationLimit validator;
  reject negb (acc_amount (vea_self_bond accounting) =? si_amount stake) with SelfBondMismatch validator;
  reject si_blocks_produced stake <? vea_production_baseline accounting
    with ProductionBaselineAbove validator;
  or_err (v2_commissions st !! validator) (NoCommissionSchedule validator) (fun commission =>
  reject negb (vea_commission_bps accounting =? vcs_current_bps commission)
    with CommissionDiffers validator;
  let current_delegations := sp_delegations p !! validator in
  let? _ := try_fold (validate_accumulator st validator current_delegations) tt
              (map_to_list (vea_delegations accounting)) in
  try_fold (fun _ '(delegator, amount) =>
              reject bool_decide ((acc_amount <$> vea_delegations accounting !! delegator) <> Some amount)
                with DelegationAbsent validator delegator;
              Ok tt)
    tt (map_to_list (default ∅ current_delegations))))).

Definition StakePool_validate_staking_v2_state (p : StakePool) (st : StakingV2EpochState)
  : result unit V2Error :=
  reject negb (v2_version st =? STAKING_V2_STATE_VERSION) with UnsupportedVersion (v2_version st);
  reject negb (v2_activation_slot st mod SLOTS_PER_EPOCH =? 0) with NotEpochBoundary;
  reject negb (v2_epoch_start_slot st =? epoch_start_slot (v2_current_epoch st)) with EpochStartMismatch;
  reject v2_epoch_start_slot st <? v2_activation_slot st with ActivationAfterEpoch;
  reject match v2_last_settled_epoch st with
         | Some epoch => v2_current_epoch st <? epoch
         | None => false
         end with SettledInFuture;
  let? _ := try_fold (fun _ c => ValidatorCommissionState_validate c) tt
              (map_to_list (v2_commissions st)).*2 in
  reject SLASHING_V2_EVIDENCE_WINDOW_EPOCHS + 1 <? Z.of_nat (size (v2_slash_exposure_snapshots st))
    with TooManySnapshots;
  or_err (v2_slash_exposure_snapshots st !! v2_current_epoch st) SnapshotMissing (fun current_exposure =>
  let? _ := try_fold (validate_snapshot st) tt (map_to_list (v2_slash_exposure_snapshots st)) in
  reject negb (Z.of_nat (size (ess_validators current_exposure))
               =? Z.of_nat (size (v2_validators st))) with ExposureSetMismatch;
  let? active_effective_stake :=
    lift_pool (try_fold (effective_stake_of p) 0 (map_to_list (v2_validators st)).*1) in
  let? saturation_bps :=
    lift_pool (validator_saturation_cap_bps (Z.of_nat (size (v2_validators st)))) in
  let? saturation_limit := lift_pool (mul_div_ceil_u64 active_effective_stake saturation_bps 10000) in
  try_fold (validate_accounting p st current_exposure saturation_limit) tt
    (map_to_list (v2_validators st))).

Definition validate_concentration (_ : unit) (entry : Pubkey * StakeInfo) : result unit V2Error :=
  let '(validator, info) := entry in
  if negb (si_is_active info) then Ok tt
  else
    or_err (checked_mul64 (si_amount info) MAX_VALIDATOR_EFFECTIVE_STAKE_MULTIPLIER)
      (EffectiveAboveCap validator) (fun maximum =>
    reject maximum <? StakeInfo_total_stake info with EffectiveAboveCap validator;
    Ok tt).

Definition StakePool_validate_v2_invariants (p : StakePool) : result unit V2Error :=
  let? _ := lift_pool (StakePool_validate_invariants p) in
  let? _ := try_fold validate_concentration tt (map_to_list (sp_stakes p)) in
  match sp_staking_v2_state p with
  | Some st => StakePool_validate_staking_v2_state p st
  | None => Ok tt
  end.

(** ** Epoch boundaries and checkpoints *)

Definition set_sp_staking_v2_state : option StakingV2EpochState -> StakePool -> StakePool :=
  ltac:(setter eta_StakePool sp_staking_v2_state).

Definition eta_StakingV2EpochState (r : StakingV2EpochState) : StakingV2EpochState :=
  mkStakingV2EpochState (v2_version r) (v2_activation_slot r) (v2_current_epoch r)
    (v2_epoch_start_slot r) (v2_validators r) (v2_commissions r) (v2_last_settled_epoch r)
    (v2_slash_exposure_snapshots r).
Definition set_v2_validators : gmap Pubkey ValidatorEpochAccounting -> StakingV2EpochState -> StakingV2EpochState :=
  ltac:(setter eta_StakingV2EpochState v2_validators).
Definition set_v2_commissions : gmap Pubkey ValidatorCommissionState -> StakingV2EpochState -> StakingV2EpochState :=
  ltac:(setter eta_StakingV2EpochState v2_commissions).
Definition set_v2_last_settled_epoch : option Z -> StakingV2EpochState -> StakingV2EpochState :=
  ltac:(setter eta_StakingV2EpochState v2_last_settled_epoch).

Definition StakePool_build_epoch_accounting (p : StakePool) (validator : Pubkey)
  (epoch_start commission_bps : Z) : result ValidatorEpochAccounting V2Error :=
  or_err (sp_stakes p !! validator) (UnknownValidator validator) (fun stake =>
  reject negb (si_is_active stake) || negb (StakeInfo_meets_minimum stake)
    with NotRewardEligible validator;
  let delegations :=
    (fun amount => EpochStakeAccumulator_new amount epoch_start)
      <$> default ∅ (sp_delegations p !! validator) in
  or_err (checked_add64 (integer_sqrt (Z.min (StakeInfo_total_stake stake) MAX_VALIDATOR_STAKE)) 1)
    WeightOverflow (fun leader_weight =>
  Ok {| vea_validator := validator;
        vea_self_bond := EpochStakeAccumulator_new (si_amount stake) epoch_start;
        vea_delegations := delegations;
        vea_production_baseline := si_blocks_produced stake;
        vea_consensus_power := StakeInfo_total_stake stake;
        vea_leader_weight := leader_weight;
        vea_commission_bps := commission_bps |})).

(** The non-zero owners of one validator's stake. *)
Definition exposure_of (accounting : ValidatorEpochAccounting) : ValidatorSlashExposure :=
  mkValidatorSlashExposure (acc_amount (vea_self_bond accounting))
    (omap (fun accumulator =>
             if 0 <? acc_amount accumulator then Some (acc_amount accumulator) else None)
       (vea_delegations accounting)).

Definition add_exposure (exposures : gmap Pubkey ValidatorSlashExposure)
  (entry : Pubkey * ValidatorEpochAccounting)
  : result (gmap Pubkey ValidatorSlashExposure) V2Error :=
  let '(validator, accounting) := entry in
  let exposure := exposure_of accounting in
  let? total := ValidatorSlashExposure_total exposure in
  reject negb (total =? vea_consensus_power accounting) with ExposureDiffers validator;
  Ok (<[validator := exposure]> exposures).

Definition StakePool_build_slash_exposure_snapshot (epoch start_slot : Z)
  (validators : gmap Pubkey ValidatorEpochAccounting) : result EpochSlashExposureSnapshot V2Error :=
  let? exposures := try_fold add_exposure ∅ (map_to_list validators) in
  Ok (mkEpochSlashExposureSnapshot epoch start_slot exposures).

(** One validator of the next active set: its accounting, and a default schedule
    when it has none. *)
Definition enter_epoch (p : StakePool) (epoch start_slot : Z)
  (acc : gmap Pubkey ValidatorEpochAccounting * gmap Pubkey ValidatorCommissionState)
  (validator : Pubkey)
  : result (gmap Pubkey ValidatorEpochAccounting * gmap Pubkey ValidatorCommissionState) V2Error :=
  let '(validators, commissions) := acc in
  reject bool_decide (is_Some (validators !! validator)) with DuplicateValidator validator;
  let schedule := default (ValidatorCommissionState_new epoch) (commissions !! validator) in
  let? accounting :=
    StakePool_build_epoch_accounting p validator start_slot (vcs_current_bps schedule) in
  Ok (<[validator := accounting]> validators, <[validator := schedule]> commissions).

Definition StakePool_initialize_staking_v2 (activation_slot : Z) (active_validators : list Pubkey)
  (p : StakePool) : result StakePool V2Error :=
  reject bool_decide (is_Some (sp_staking_v2_state p)) with AlreadyInitialized;
  reject negb (activation_slot mod SLOTS_PER_EPOCH =? 0) with NotEpochBoundary;
  let? _ := StakePool_validate_v2_invariants p in
  let current_epoch := slot_to_epoch activation_slot in
  let? sets := try_fold (enter_epoch p current_epoch activation_slot) (∅, ∅) active_validators in
  let '(validators, commissions) := sets in
  reject bool_decide (validators = ∅) with NoActiveValidators;
  let? current_exposure :=
    StakePool_build_slash_exposure_snapshot current_epoch activation_slot validators in
  let p := set_sp_staking_v2_state (Some
    {| v2_version := STAKING_V2_STATE_VERSION;
       v2_activation_slot := activation_slot;
       v2_current_epoch := current_epoch;
       v2_epoch_start_slot := activation_slot;
       v2_validators := validators;
       v2_commissions := commissions;
       v2_last_settled_epoch := checked_sub current_epoch 1;
       v2_slash_exposure_snapshots := {[ current_epoch := current_exposure ]} |}) p in
  let? _ := StakePool_validate_v2_invariants p in
  Ok p.

(** [entry(delegator).or_insert_with(..).set_amount(..)] for one owner. *)
Definition checkpoint_owner (st : StakingV2EpochState) (execution_slot : Z)
  (current_delegations : gmap Pubkey Z) (delegations : gmap Pubkey EpochStakeAccumulator)
  (delegator : Pubkey) : result (gmap Pubkey EpochStakeAccumulator) V2Error :=
  let amount := default 0 (current_delegations !! delegator) in
  let entry := default (EpochStakeAccumulator_new 0 (v2_epoch_start_slot st)) (delegations !! delegator) in
  let? entry := EpochStakeAccumulator_set_amount execution_slot amount entry in
  Ok (<[delegator := entry]> delegations).

Definition StakePool_checkpoint_staking_v2_validator_inner (validator : Pubkey) (execution_slot : Z)
  (p : StakePool) : result StakePool V2Error :=
  match sp_staking_v2_state p with
  | None => Ok p
  | Some st =>
      reject execution_slot <? v2_epoch_start_slot st with CheckpointPredatesCurrent;
      or_err (v2_validators st !! validator) (NotRewardEligible validator) (fun accounting =>
      or_err (sp_stakes p !! validator) (UnknownValidator validator) (fun stake =>
      let current_delegations := default ∅ (sp_delegations p !! validator) in
      let? self_bond :=
        EpochStakeAccumulator_set_amount execution_slot (si_amount stake) (vea_self_bond accounting) in
      let owners :=
        elements (dom (vea_delegations accounting) ∪ dom current_delegations : gset Pubkey) in
      let? delegations :=
        try_fold (checkpoint_owner st execution_slot current_delegations)
          (vea_delegations accounting) owners in
      let accounting :=
        mkValidatorEpochAccounting (vea_validator accounting) self_bond delegations
          (vea_production_baseline accounting) (vea_consensus_power accounting)
          (vea_leader_weight accounting) (vea_commission_bps accounting) in
      Ok (set_sp_staking_v2_state
            (Some (set_v2_validators (<[validator := accounting]> (v2_validators st)) st)) p)))
  end.

Definition StakePool_checkpoint_staking_v2_validator (validator : Pubkey) (execution_slot : Z)
  (p : StakePool) : result StakePool V2Error :=
  let? p := StakePool_checkpoint_staking_v2_validator_inner validator execution_slot p in
  let? _ := StakePool_validate_v2_invariants p in
  Ok p.

Definition StakePool_request_staking_v2_commission_change (validator : Pubkey) (commission_bps : Z)
  (p : StakePool) : result (PendingValidatorCommission * StakePool) V2Error :=
  or_err (sp_staking_v2_state p) NotInitialized (fun st =>
  or_err (v2_commissions st !! validator) (NoCommissionSchedule validator) (fun schedule =>
  reject bool_decide (is_Some (vcs_pending schedule)) with PendingCommissionExists;
  reject MAX_VALIDATOR_COMMISSION_BPS <? commission_bps with CommissionAboveMaximum commission_bps;
  reject MAX_VALIDATOR_COMMISSION_CHANGE_BPS_PER_EPOCH
         <? abs_diff (vcs_current_bps schedule) commission_bps with CommissionStepTooLarge;
  or_err (checked_add64 (v2_current_epoch st) VALIDATOR_COMMISSION_CHANGE_DELAY_EPOCHS)
    EpochOverflow (fun activation_epoch =>
  let pending := mkPendingValidatorCommission commission_bps activation_epoch in
  let schedule :=
    mkValidatorCommissionState (vcs_current_bps schedule) (Some pending)
      (vcs_last_activated_epoch schedule) in
  let p := set_sp_staking_v2_state
             (Some (set_v2_commissions (<[validator := schedule]> (v2_commissions st)) st)) p in
  let? _ := StakePool_validate_v2_invariants p in
  Ok (pending, p)))).

(** The pending change of a schedule takes effect at its activation epoch. *)
Definition activate_commission (next_epoch : Z) (schedule : ValidatorCommissionState)
  : ValidatorCommissionState :=
  match vcs_pending schedule with
  | Some pending =>
      if pvc_activation_epoch pending <=? next_epoch
      then mkValidatorCommissionState (pvc_commission_bps pending) None next_epoch
      else schedule
  | None => schedule
  end.

Definition StakePool_advance_staking_v2_epoch (epoch_end_slot : Z) (active_validators : list Pubkey)
  (p : StakePool) : result StakePool V2Error :=
  let? _ := StakePool_validate_v2_invariants p in
  or_err (sp_staking_v2_state p) NotInitialized (fun previous =>
  reject bool_decide (v2_last_settled_epoch previous <> Some (v2_current_epoch previous))
    with UnsettledEpoch (v2_current_epoch previous);
  or_err (checked_add64 (v2_epoch_start_slot previous) SLOTS_PER_EPOCH) EpochOverflow (fun expected_end =>
  reject negb (epoch_end_slot =? expected_end) with WrongEpochEnd expected_end;
  or_err (checked_add64 (v2_current_epoch previous) 1) EpochOverflow (fun next_epoch =>
  let commissions := activate_commission next_epoch <$> v2_commissions previous in
  let? sets := try_fold (enter_epoch p next_epoch epoch_end_slot) (∅, commissions) active_validators in
  let '(validators, commissions) := sets in
  reject bool_decide (validators = ∅) with NoActiveValidators;
  let? current_exposure :=
    StakePool_build_slash_exposure_snapshot next_epoch epoch_end_slot validators in
  let oldest_retained := sat_sub next_epoch SLASHING_V2_EVIDENCE_WINDOW_EPOCHS in
  let snapshots :=
    filter (fun kv => oldest_retained <= kv.1)
      (<[next_epoch := current_exposure]> (v2_slash_exposure_snapshots previous)) in
  let p := set_sp_staking_v2_state (Some
    {| v2_version := STAKING_V2_STATE_VERSION;
       v2_activation_slot := v2_activation_slot previous;
       v2_current_epoch := next_epoch;
       v2_epoch_start_slot := epoch_end_slot;
       v2_validators := validators;
       v2_commissions := commissions;
       v2_last_settled_epoch := Some (v2_current_epoch previous);
       v2_slash_exposure_snapshots := snapshots |}) p in
  let? _ := StakePool_validate_v2_invariants p in
  Ok p))).

(** ** What a checkpoint leaves alone *)

Definition same_epoch (o o' : option StakingV2EpochState) : Prop :=
  match o, o' with
  | Some st, Some st' =>
      dom (v2_validators st') = dom (v2_validators st)
      /\ v2_slash_exposure_snapshots st' = v2_slash_exposure_snapshots st
  | None, None => True
  | _, _ => False
  end.

#[global] Instance same_epoch_refl : Reflexive same_epoch.
Proof. by intros [st|]. Qed.
#[global] Instance same_epoch_trans : Transitive same_epoch.
Proof. intros [a|] [b|] [c|]; simpl; try done. intros [-> ->] [-> ->]. done. Qed.

(** A checkpoint writes the accounting of a validator of the epoch only. *)
Lemma checkpoint_inner_frame v slot p p' :
  StakePool_checkpoint_staking_v2_validator_inner v slot p = Ok p' ->
  exists st, p' = set_sp_staking_v2_state st p /\ same_epoch (sp_staking_v2_state p) st.
Proof.
  unfold StakePool_checkpoint_staking_v2_validator_inner. intros Hq.
  destruct (sp_staking_v2_state p) as [st|] eqn:Hst.
  2: { injection Hq as <-. exists None. split; [destruct p; simpl in *; by subst|done]. }
  apply guard_Ok in Hq as [_ Hq]. apply or_err_Ok in Hq as (acc & Hacc & Hq).
  apply or_err_Ok in Hq as (s & _ & Hq). apply and_then_Ok in Hq as (b & _ & Hq).
  apply and_then_Ok in Hq as (ds & _ & [= <-]). eexists. split; [done|]. simpl. split; [|done].
  rewrite dom_insert_L. apply elem_of_dom_2 in Hacc. set_solver.
Qed.

(** ** Stake-time is the sum over slots

    The reference: the amount in force at every slot of the epoch, summed slot by
    slot.  The accumulator is touched only when the amount changes. *)

(** The changes of one owner's stake in an epoch, in slot order. *)
Fixpoint set_amounts (changes : list (Z * Z)) (a : EpochStakeAccumulator)
  : result EpochStakeAccumulator V2Error :=
  match changes with
  | [] => Ok a
  | (slot, amount) :: changes =>
      let? a := EpochStakeAccumulator_set_amount slot amount a in
      set_amounts changes a
  end.

Fixpoint amount_at (amount : Z) (changes : list (Z * Z)) (slot : Z) : Z :=
  match changes with
  | [] => amount
  | (t, x) :: changes => if t <=? slot then amount_at x changes slot else amount
  end.

(** Slots from [last] to [end_slot] in order, amounts 64-bit. *)
Fixpoint changes_ok (last end_slot : Z) (changes : list (Z * Z)) : Prop :=
  match changes with
  | [] => last <= end_slot
  | (t, x) :: changes => last <= t /\ 0 <= x <= u64_max /\ changes_ok t end_slot changes
  end.

Lemma changes_ok_le last end_slot changes : changes_ok last end_slot changes -> last <= end_slot.
Proof.
  revert last. induction changes as [|[t x] changes IH]; intros last; simpl; [done|].
  intros (? & _ & ?%IH). lia.
Qed.

Lemma sum_constant a n c (f : Z -> Z) :
  0 <= n -> (forall s, a <= s < a + n -> f s = c) -> sumZ f (seqZ a n) = c * n.
Proof.
  intros Hn Hf. rewrite (sumZ_ext _ (fun _ => c)).
  - assert (forall l : list Z, sumZ (fun _ => c) l = c * Z.of_nat (length l)) as ->.
    { induction l as [|x l IH]; [unfold sumZ; simpl; lia|]. rewrite sumZ_cons, IH. simpl length. lia. }
    by rewrite length_seqZ, Z2Nat.id by lia.
  - intros s Hs%elem_of_seqZ. apply Hf. lia.
Qed.

Lemma seqZ_split a b c : a <= b <= c -> seqZ a (c - a) = seqZ a (b - a) ++ seqZ b (c - b).
Proof.
  intros H. replace (c - a) with ((b - a) + (c - b)) by lia. rewrite seqZ_app by lia.
  by replace (a + (b - a)) with b by lia.
Qed.

Lemma amount_at_range amount changes last end_slot slot :
  0 <= amount <= u64_max -> changes_ok last end_slot changes -> 0 <= amount_at amount changes slot <= u64_max.
Proof.
  revert amount last. induction changes as [|[t x] changes IH]; intros amount last Ha; simpl; [done|].
  intros (? & ? & Hc). case_match; [|done]. by apply (IH x t).
Qed.

Definition stake_time (amount : Z) (changes : list (Z * Z)) (from to : Z) : Z :=
  sumZ (amount_at amount changes) (seqZ from (to - from)).

Lemma stake_time_cons amount t x changes from to :
  from <= t -> changes_ok t to changes ->
  stake_time amount ((t, x) :: changes) from to = amount * (t - from) + stake_time x changes t to.
Proof.
  intros Hft Hc. pose proof (changes_ok_le _ _ _ Hc). unfold stake_time.
  rewrite (seqZ_split from t to), sumZ_app by lia. f_equal.
  - apply sum_constant; [lia|]. intros s Hs. simpl. destruct (Z.leb_spec t s); [lia|done].
  - apply sumZ_ext. intros s Hs%elem_of_seqZ. simpl. destruct (Z.leb_spec t s); [done|lia].
Qed.

Lemma stake_time_bound amount changes from to :
  0 <= amount <= u64_max -> changes_ok from to changes ->
  0 <= stake_time amount changes from to <= u64_max * (to - from).
Proof.
  intros Ha Hc. pose proof (changes_ok_le _ _ _ Hc). unfold stake_time. split.
  - apply sumZ_nonneg. intros s _. by apply (amount_at_range _ _ from to).
  - etrans; [apply (sumZ_bound _ _ u64_max)|].
    + intros s _. by apply (amount_at_range _ _ from to).
    + by rewrite length_seqZ, Z2Nat.id by lia.
Qed.

(** The accumulator never holds more than the full stake for all slots so far. *)
Record acc_ok (a : EpochStakeAccumulator) : Prop := {
  ao_amount : 0 <= acc_amount a <= u64_max;
  ao_weighted : 0 <= acc_weighted_slot_spores a <= u64_max * acc_last_checkpoint_slot a;
}.

Lemma checkpoint_Ok a slot :
  acc_ok a -> acc_last_checkpoint_slot a <= slot <= u64_max ->
  EpochStakeAccumulator_checkpoint slot a
  = Ok (mkEpochStakeAccumulator (acc_amount a)
          (acc_weighted_slot_spores a + acc_amount a * (slot - acc_last_checkpoint_slot a)) slot)
  /\ acc_weighted_slot_spores a + acc_amount a * (slot - acc_last_checkpoint_slot a) <= u64_max * slot.
Proof.
  intros [Ha Hw] Hs. unfold EpochStakeAccumulator_checkpoint, checked_sub.
  destruct (Z.leb_spec (acc_last_checkpoint_slot a) slot); [|lia]. cbn [or_err].
  assert (acc_weighted_slot_spores a + acc_amount a * (slot - acc_last_checkpoint_slot a)
          <= u64_max * slot) as Hb by nia.
  assert (u64_max * slot <= u128_max) by (unfold u64_max, u128_max in *; nia).
  destruct (Z.ltb_spec u128_max (acc_weighted_slot_spores a
    + acc_amount a * (slot - acc_last_checkpoint_slot a))); [lia|done].
Qed.

Lemma accumulator_run changes a end_slot :
  acc_ok a -> end_slot <= u64_max -> changes_ok (acc_last_checkpoint_slot a) end_slot changes ->
  exists a', set_amounts changes a = Ok a' /\ acc_ok a'
    /\ acc_last_checkpoint_slot a' <= end_slot
    /\ acc_weighted_slot_spores a' + acc_amount a' * (end_slot - acc_last_checkpoint_slot a')
       = acc_weighted_slot_spores a
         + stake_time (acc_amount a) changes (acc_last_checkpoint_slot a) end_slot.
Proof.
  revert a. induction changes as [|[t x] changes IH]; intros a Ha He Hc.
  { exists a. split_and!; [done|done|by apply changes_ok_le in Hc|]. f_equal. unfold stake_time. simpl.
    symmetry. apply sum_constant; [apply changes_ok_le in Hc; lia|done]. }
  simpl in Hc. destruct Hc as (Hlt & Hx & Hc). pose proof (changes_ok_le _ _ _ Hc).
  cbn [set_amounts]. unfold EpochStakeAccumulator_set_amount.
  destruct (checkpoint_Ok a t Ha ltac:(lia)) as [-> Hb]. cbn [and_then acc_weighted_slot_spores acc_last_checkpoint_slot].
  destruct (IH (mkEpochStakeAccumulator x (acc_weighted_slot_spores a
    + acc_amount a * (t - acc_last_checkpoint_slot a)) t)) as (a' & -> & Ha' & Hl & Hw); [|done|done|].
  { split; simpl; [done|]. destruct Ha as [??]. nia. }
  exists a'. split_and!; try done. rewrite Hw. simpl. rewrite stake_time_cons by done. lia.
Qed.

(** The stake-time accumulator of an owner, updated only when its stake changes,
    gives the average over the slots of the epoch: after any changes in slot order
    the average is the floor of the slot-by-slot sum of the amounts in force,
    divided by the length of the epoch.  None of the checked operations fails. *)
Theorem accumulator_averages_slots amount start end_slot changes :
  0 <= amount <= u64_max -> 0 <= start < end_slot -> end_slot <= u64_max ->
  changes_ok start end_slot changes ->
  exists a, set_amounts changes (EpochStakeAccumulator_new amount start) = Ok a
    /\ EpochStakeAccumulator_average_amount end_slot start a
       = Ok (sumZ (amount_at amount changes) (seqZ start (end_slot - start)) / (end_slot - start)).
Proof.
  intros Ha Hs He Hc.
  destruct (accumulator_run changes (EpochStakeAccumulator_new amount start) end_slot)
    as (a & Hset & Hok & Hl & Hw); [split; simpl; unfold u64_max in *; lia|done|done|].
  simpl in Hw. exists a. split; [done|]. unfold EpochStakeAccumulator_average_amount, checked_sub.
  destruct (Z.leb_spec start end_slot); [|lia]. cbn [or_err].
  destruct (Z.eqb_spec (end_slot - start) 0); [lia|].
  destruct (checkpoint_Ok a end_slot Hok) as [-> _]; [lia|]. cbn [and_then acc_weighted_slot_spores].
  rewrite Hw, ?Z.add_0_l. fold (stake_time amount changes start end_slot).
  pose proof (stake_time_bound amount changes start end_slot Ha Hc).
  assert (stake_time amount changes start end_slot / (end_slot - start) <= u64_max)
    by (apply Z.div_le_upper_bound; lia).
  destruct (Z.ltb_spec u64_max (stake_time amount changes start end_slot / (end_slot - start))); [lia|done].
Qed.

Lemma accumulator_averages_slots_witness :
  exists a, set_amounts [(105, 40); (110, 0)] (EpochStakeAccumulator_new 10 100) = Ok a
    /\ EpochStakeAccumulator_average_amount 120 100 a = Ok 12.
Proof.
  exact (accumulator_averages_slots 10 100 120 [(105, 40); (110, 0)]
           ltac:(split; [lia|unfold u64_max; lia]) ltac:(lia) ltac:(unfold u64_max; lia)
           ltac:(simpl; unfold u64_max; lia)).
Defined.
