(* ===== verification/Economics.v ===== *)
(** * Issuance and vesting

    Models the supply policy of [core/src/consensus.rs]: the decaying inflation rate, the
    mint of an epoch, the security budget that scales with the bonded stake, the split of a
    budget between stake classes, and the vesting of the founding allocation. *)

From S2P Require Import Prelude Stake Pool StakingV2.
From stdpp Require Import base tactics numbers list.
From Stdlib Require Import ZArith Lia.

Local Open Scope Z_scope.
Local Open Scope rust_scope.

(** ** The inflation curve *)

Definition INITIAL_INFLATION_RATE_BPS : Z := 400.
Definition INFLATION_DECAY_RATE_BPS : Z := 1500.
Definition TERMINAL_INFLATION_RATE_BPS : Z := 15.
Definition TARGET_BONDED_STAKE_BPS : Z := 6700.
Definition SLOTS_PER_YEAR : Z := 78840000.
Definition MOSSSTAKE_BLOCK_SHARE_BPS : Z := 1000.

(** The loop over the years, with its early return at the floor. *)
Fixpoint decayed_rate (years : nat) (rate : Z) : Z :=
  match years with
  | O => wrap64 (rate / 10000)
  | S years =>
      let rate := rate * (10000 - INFLATION_DECAY_RATE_BPS) / 10000 in
      if rate <? TERMINAL_INFLATION_RATE_BPS * 10000 then TERMINAL_INFLATION_RATE_BPS
      else decayed_rate years rate
  end.

Definition inflation_rate_bps (current_slot : Z) : Z :=
  let years := current_slot / SLOTS_PER_YEAR in
  decayed_rate (Z.to_nat (Z.min years 200)) (INITIAL_INFLATION_RATE_BPS * 10000).

Definition compute_block_reward (current_slot total_supply : Z) : Z :=
  wrap64 (wrap128 (total_supply * inflation_rate_bps current_slot) / (10000 * SLOTS_PER_YEAR)).

Definition compute_epoch_mint (epoch_start_slot total_supply : Z) : Z :=
  wrap64 (wrap128 (total_supply * inflation_rate_bps epoch_start_slot * SLOTS_PER_EPOCH)
            / (10000 * SLOTS_PER_YEAR)).

(** ** The security budget *)

Definition target_bonded_stake (total_supply : Z) : Z :=
  if total_supply =? 0 then 0
  else Z.min (sat_add128 (sat_mul128 total_supply TARGET_BONDED_STAKE_BPS) 9999 / 10000) u64_max.

Inductive EconomicsError :=
| StakeAboveSupply (effective_stake total_supply : Z)
| StakeClassOverflow.

Definition compute_epoch_security_budget (epoch_start_slot total_supply effective_stake : Z)
  : result Z EconomicsError :=
  if total_supply <? effective_stake then Err (StakeAboveSupply effective_stake total_supply)
  else
    let ceiling := compute_epoch_mint epoch_start_slot total_supply in
    if (ceiling =? 0) || (effective_stake =? 0) then Ok 0
    else
      let target := target_bonded_stake total_supply in
      if (target =? 0) || (target <=? effective_stake) then Ok ceiling
      else Ok (Z.min (sat_mul128 ceiling effective_stake / target) u64_max).

Definition split_reward_budget_by_stake (reward_budget first_stake second_stake : Z)
  : result (Z * Z) EconomicsError :=
  or_err (checked_add64 first_stake second_stake) StakeClassOverflow (fun total_stake =>
  if (reward_budget =? 0) || (total_stake =? 0) then Ok (0, 0)
  else
    let second_reward := Z.min (sat_mul128 reward_budget second_stake / total_stake) u64_max in
    Ok (sat_sub reward_budget second_reward, second_reward)).

(** The fixed split of the epochs before Staking V2. *)
Definition split_epoch_mint (epoch_start_slot total_supply : Z) : Z * Z :=
  let epoch_mint := compute_epoch_mint epoch_start_slot total_supply in
  if epoch_mint =? 0 then (0, 0)
  else
    let mossstake_reward_pool := wrap64 (epoch_mint * MOSSSTAKE_BLOCK_SHARE_BPS / 10000) in
    (sat_sub epoch_mint mossstake_reward_pool, mossstake_reward_pool).

(** ** Founding vesting *)

Definition FOUNDING_CLIFF_SECONDS : Z := 6 * 30 * 24 * 3600.
Definition FOUNDING_VEST_TOTAL_SECONDS : Z := 24 * 30 * 24 * 3600.

Definition founding_vesting_unlocked (total_amount cliff_end vest_end current_time : Z) : Z :=
  if current_time <? cliff_end then 0
  else if vest_end <=? current_time then total_amount
  else
    let linear_period := wrap64 (vest_end - cliff_end) in
    if linear_period =? 0 then total_amount
    else
      let elapsed := wrap64 (current_time - cliff_end) in
      wrap64 (wrap128 (total_amount * elapsed) / linear_period).

(** ** The rate *)

Lemma decayed_rate_range n rate :
  150000 <= rate <= 4000000 -> 15 <= decayed_rate n rate <= 400.
Proof.
  revert rate. induction n as [|n IH]; intros rate Hr; simpl.
  - rewrite wrap_small by divlia. divlia.
  - unfold INFLATION_DECAY_RATE_BPS, TERMINAL_INFLATION_RATE_BPS.
    destruct (Z.ltb_spec (rate * (10000 - 1500) / 10000) (15 * 10000)); [lia|].
    apply IH. divlia.
Qed.

Lemma decayed_rate_step n rate :
  150000 <= rate <= 4000000 -> decayed_rate (S n) rate <= decayed_rate n rate.
Proof.
  revert rate. induction n as [|n IH]; intros rate Hr.
  - simpl. unfold INFLATION_DECAY_RATE_BPS, TERMINAL_INFLATION_RATE_BPS.
    rewrite !wrap_small by divlia.
    destruct (Z.ltb_spec (rate * (10000 - 1500) / 10000) (15 * 10000)); divlia.
  - cbn [decayed_rate]. unfold INFLATION_DECAY_RATE_BPS, TERMINAL_INFLATION_RATE_BPS.
    destruct (Z.ltb_spec (rate * (10000 - 1500) / 10000) (15 * 10000)); [lia|].
    apply IH. divlia.
Qed.

Lemma decayed_rate_antitone m n rate :
  150000 <= rate <= 4000000 -> (m <= n)%nat -> decayed_rate n rate <= decayed_rate m rate.
Proof.
  intros Hr. induction 1 as [|n _ IH]; [done|]. etrans; [by apply decayed_rate_step|done].
Qed.

Lemma inflation_rate_range slot : 15 <= inflation_rate_bps slot <= 400.
Proof. apply decayed_rate_range. unfold INITIAL_INFLATION_RATE_BPS. lia. Qed.

(** ** The ceiling *)

Lemma compute_epoch_mint_exact slot supply :
  is_u64 supply ->
  compute_epoch_mint slot supply
    = supply * inflation_rate_bps slot * SLOTS_PER_EPOCH / (10000 * SLOTS_PER_YEAR)
  /\ 0 <= compute_epoch_mint slot supply <= supply.
Proof.
  unfold is_u64, compute_epoch_mint, SLOTS_PER_EPOCH, SLOTS_PER_YEAR. intros Hs.
  pose proof (inflation_rate_range slot) as Hr.
  assert (0 <= supply * inflation_rate_bps slot <= supply * 400) as Hm by nia.
  rewrite (wrap_small 128) by lia.
  assert (0 <= supply * inflation_rate_bps slot * 432000 / (10000 * 78840000) <= supply) by divlia.
  rewrite wrap_small by lia. done.
Qed.

Lemma target_bonded_stake_ceil supply :
  is_u64 supply -> target_bonded_stake supply = (supply * 6700 + 9999) / 10000.
Proof.
  unfold is_u64, target_bonded_stake, TARGET_BONDED_STAKE_BPS. intros Hs.
  destruct (Z.eqb_spec supply 0); [by subst|]. unfold sat_add128, sat_mul128, u128_max, u64_max.
  rewrite !Z.min_l; divlia.
Qed.

(** Reaching the rounded-up target is reaching 67% of the supply. *)
Lemma target_reached supply stake :
  is_u64 supply -> target_bonded_stake supply <= stake <-> supply * 6700 <= stake * 10000.
Proof. intros Hs. rewrite target_bonded_stake_ceil by done. unfold is_u64 in Hs. divlia. Qed.

(** The budget in one formula. *)
Lemma security_budget_formula slot supply stake :
  is_u64 supply -> 0 <= stake <= supply ->
  compute_epoch_security_budget slot supply stake
  = Ok (if target_bonded_stake supply <=? stake then compute_epoch_mint slot supply
        else compute_epoch_mint slot supply * stake / target_bonded_stake supply).
Proof.
  intros Hs Hst. pose proof (compute_epoch_mint_exact slot supply Hs) as [_ Hm].
  pose proof (target_bonded_stake_ceil supply Hs) as Ht.
  unfold compute_epoch_security_budget. unfold is_u64 in Hs.
  destruct (Z.ltb_spec supply stake); [lia|].
  set (ceiling := compute_epoch_mint slot supply) in *. set (target := target_bonded_stake supply) in *.
  assert (0 <= target) by divlia.
  destruct (Z.eqb_spec ceiling 0) as [->|Hc]; simpl.
  { by destruct (target <=? stake). }
  destruct (Z.eqb_spec stake 0) as [->|Hs0].
  { destruct (Z.leb_spec target 0); [|by rewrite Z.mul_0_r].
    assert (supply = 0) as -> by divlia. done. }
  destruct (Z.eqb_spec target 0) as [->|Ht0]; simpl.
  { by destruct (Z.leb_spec 0 stake); [|lia]. }
  destruct (Z.leb_spec target stake); [done|]. f_equal. unfold sat_mul128, u128_max, u64_max.
  assert (ceiling * stake <= 2 ^ 64 * 2 ^ 64) by nia.
  assert (ceiling * stake <= (2 ^ 64 - 1) * (2 ^ 64 - 1)) by nia.
  rewrite (Z.min_l (ceiling * stake)) by lia. apply Z.min_l.
  assert (ceiling * stake / target <= ceiling) by (apply Z.div_le_upper_bound; nia). lia.
Qed.

Lemma security_budget_le slot supply stake b :
  is_u64 supply -> 0 <= stake <= supply ->
  compute_epoch_security_budget slot supply stake = Ok b ->
  0 <= b <= compute_epoch_mint slot supply
  /\ (stake = 0 -> 0 < supply -> b = 0)
  /\ (b = compute_epoch_mint slot supply
      <-> compute_epoch_mint slot supply = 0 \/ supply * 6700 <= stake * 10000).
Proof.
  intros Hs Hst. rewrite security_budget_formula by done. intros [= <-].
  pose proof (compute_epoch_mint_exact slot supply Hs) as [_ Hm].
  rewrite <- target_reached by done.
  pose proof (target_bonded_stake_ceil supply Hs) as Ht.
  set (ceiling := compute_epoch_mint slot supply) in *. set (target := target_bonded_stake supply) in *.
  unfold is_u64 in Hs. destruct (Z.leb_spec target stake) as [Hle|Hlt].
  { split_and!; [lia|lia| |tauto]. intros -> ?. divlia. }
  assert (0 < target) by lia.
  assert (0 <= ceiling * stake / target) by (apply Z.div_pos; nia).
  assert (ceiling * stake / target <= ceiling) by (apply Z.div_le_upper_bound; nia).
  split_and!; [lia|lia|intros -> _; by rewrite Z.mul_0_r|].
  split; [intros Heq|intros [->|?]; [done|lia]].
  destruct (Z.eq_dec ceiling 0); [by left|].
  assert (ceiling * stake / target < ceiling) by (apply Z.div_lt_upper_bound; nia). lia.
Qed.

Lemma security_budget_mono slot supply stake stake' b :
  is_u64 supply -> 0 <= stake <= stake' -> stake' <= supply ->
  compute_epoch_security_budget slot supply stake = Ok b ->
  exists b', compute_epoch_security_budget slot supply stake' = Ok b' /\ b <= b'.
Proof.
  intros Hs Hst Hst' Hb.
  assert (0 <= stake <= supply) as Hr by lia.
  pose proof (security_budget_le slot supply stake b Hs Hr Hb) as ((_ & Hc) & _).
  revert Hb. rewrite !security_budget_formula by (done || lia). intros [= Hb].
  eexists; split; [done|]. destruct (Z.leb_spec (target_bonded_stake supply) stake') as [|Hlt]; [done|].
  pose proof (compute_epoch_mint_exact slot supply Hs) as [_ Hm].
  destruct (Z.leb_spec (target_bonded_stake supply) stake); [lia|]. subst b.
  apply Z.div_le_mono; [lia|nia].
Qed.

(** The split of a budget: exact, and floor-proportional for the second class. *)
Lemma split_exact budget first second :
  is_u64 budget -> 0 <= first -> 0 <= second -> first + second <= u64_max ->
  (first + second = 0 -> budget = 0) ->
  exists r1 r2, split_reward_budget_by_stake budget first second = Ok (r1, r2)
    /\ r1 + r2 = budget /\ 0 <= r1 /\ 0 <= r2
    /\ (0 < first + second -> r2 = budget * second / (first + second)).
Proof.
  unfold is_u64. intros Hb H1 H2 Hu H0. unfold split_reward_budget_by_stake.
  rewrite (proj2 (checked_add64_Some first second _)) by done. cbn [or_err].
  set (total := first + second) in *.
  destruct (Z.eqb_spec total 0) as [Ht|Ht].
  { rewrite orb_true_r. exists 0, 0. specialize (H0 Ht). split_and!; try lia. done. }
  destruct (Z.eqb_spec budget 0) as [->|Hb0]; simpl.
  { exists 0, 0. split_and!; done. }
  assert (budget * second <= (2 ^ 64 - 1) * (2 ^ 64 - 1)) by (unfold u64_max in Hu; nia).
  assert (0 <= budget * second / total) by (apply Z.div_pos; nia).
  assert (budget * second / total <= budget) by (apply Z.div_le_upper_bound; nia).
  unfold sat_mul128, sat_sub, u128_max, u64_max. rewrite (Z.min_l (budget * second)) by lia. rewrite Z.min_l by lia.
  eexists _, _. split; [done|]. split_and!; lia.
Qed.

(** ** Properties *)

(** The inflation rate falls with the slot, starts at 4.00%, never leaves the band from
    0.15% to 4.00%, and is exactly the floor from year 21 on, so that the cap of 200 rounds on
    the loop never decides the rate. *)
Theorem inflation_schedule s t :
  0 <= s <= t ->
  15 <= inflation_rate_bps t <= inflation_rate_bps s
  /\ inflation_rate_bps s <= 400
  /\ (s < SLOTS_PER_YEAR -> inflation_rate_bps s = 400)
  /\ (21 * SLOTS_PER_YEAR <= s -> inflation_rate_bps s = 15).
Proof.
  intros Hst. pose proof (inflation_rate_range s). pose proof (inflation_rate_range t).
  split_and!; [lia| |lia| |]; unfold inflation_rate_bps, SLOTS_PER_YEAR, INITIAL_INFLATION_RATE_BPS.
  - apply decayed_rate_antitone; [lia|]. divlia.
  - intros Hs. rewrite Z.div_small by lia. done.
  - intros Hs. apply Z.le_antisymm; [|apply decayed_rate_range; lia].
    transitivity (decayed_rate 21 (400 * 10000)); [apply decayed_rate_antitone; [lia|divlia]|].
    by vm_compute.
Qed.

Lemma inflation_schedule_witness :
  inflation_rate_bps (30 * SLOTS_PER_YEAR) <= inflation_rate_bps (10 * SLOTS_PER_YEAR)
  /\ inflation_rate_bps (10 * SLOTS_PER_YEAR) = 78.
Proof.
  split; [apply (inflation_schedule (10 * SLOTS_PER_YEAR) (30 * SLOTS_PER_YEAR))|];
    vm_compute; [split|]; congruence.
Defined.

(** For any supply and two stake classes bonded out of it, the epoch's security budget
    exists, is at most the inflation ceiling, grows with the stake, and equals a positive
    ceiling exactly when 67% of the supply is bonded; the split between the classes hands out
    the budget to the last spore and gives each class its proportional share up to one
    spore. *)
Theorem issuance_bounded slot supply first second :
  is_u64 supply -> 0 <= first -> 0 <= second -> first + second <= supply ->
  exists budget r1 r2,
    compute_epoch_security_budget slot supply (first + second) = Ok budget
    /\ split_reward_budget_by_stake budget first second = Ok (r1, r2)
    /\ 0 <= budget <= compute_epoch_mint slot supply
    /\ compute_epoch_mint slot supply * 4562 <= supply
    /\ (budget = compute_epoch_mint slot supply
        <-> compute_epoch_mint slot supply = 0 \/ supply * 6700 <= (first + second) * 10000)
    /\ (forall stake', first + second <= stake' <= supply ->
        exists budget', compute_epoch_security_budget slot supply stake' = Ok budget'
                        /\ budget <= budget')
    /\ r1 + r2 = budget
    /\ (0 < first + second ->
        r2 * (first + second) <= budget * second < (r2 + 1) * (first + second)
        /\ (r1 - 1) * (first + second) < budget * first <= r1 * (first + second)).
Proof.
  intros Hs H1 H2 Hle. assert (0 <= first + second <= supply) as Hst by lia.
  destruct (compute_epoch_security_budget slot supply (first + second)) as [budget|] eqn:Hb;
    [|by rewrite security_budget_formula in Hb by done].
  destruct (security_budget_le _ _ _ _ Hs Hst Hb) as (Hr & H0 & Hfull).
  destruct (compute_epoch_mint_exact slot supply Hs) as [Hm Hms].
  destruct (split_exact budget first second) as (r1 & r2 & Hsplit & Hsum & ? & ? & Hshare).
  { unfold is_u64 in *. lia. } { done. } { done. } { unfold is_u64 in *. unfold u64_max. lia. }
  { intros Ht. destruct (Z.eq_dec supply 0); [lia|]. apply H0; lia. }
  exists budget, r1, r2. split_and!; try done; [lia..| | |].
  - rewrite Hm. pose proof (inflation_rate_range slot). unfold SLOTS_PER_EPOCH, SLOTS_PER_YEAR.
    unfold is_u64 in Hs. assert (supply * inflation_rate_bps slot <= supply * 400) by nia. divlia.
  - intros stake' Hst'. apply (security_budget_mono slot supply (first + second)); try done; lia.
  - intros Hp. specialize (Hshare Hp).
    pose proof (Z.div_mod (budget * second) (first + second) ltac:(lia)) as Hd.
    pose proof (Z.mod_pos_bound (budget * second) (first + second) Hp) as Hmod.
    rewrite <- Hshare in Hd. nia.
Qed.

Lemma issuance_bounded_witness :
  exists budget r1 r2,
    compute_epoch_security_budget 0 500000000000000000 100000000000000000 = Ok budget
    /\ split_reward_budget_by_stake budget 75000000000000000 25000000000000000 = Ok (r1, r2)
    /\ r1 + r2 = budget /\ 0 < r2.
Proof.
  destruct (issuance_bounded 0 500000000000000000 75000000000000000 25000000000000000)
    as (b & r1 & r2 & Hb & Hs & _ & _ & _ & _ & Hsum & _); [by vm_compute|lia..|].
  exists b, r1, r2. split_and!; [done|done|done|].
  vm_compute in Hb. injection Hb as <-. vm_compute in Hs. injection Hs as <- <-. lia.
Defined.

Lemma vested_between total cliff vest now :
  is_u64 total -> is_u64 cliff -> is_u64 vest -> cliff <= now < vest ->
  founding_vesting_unlocked total cliff vest now = total * (now - cliff) / (vest - cliff).
Proof.
  unfold is_u64. intros Ht Hc Hv Hn. unfold founding_vesting_unlocked.
  destruct (Z.ltb_spec now cliff); [lia|]. destruct (Z.leb_spec vest now); [lia|].
  rewrite !(wrap_small 64 (_ - _)) by lia. destruct (Z.eqb_spec (vest - cliff) 0); [lia|].
  assert (total * (now - cliff) <= (2 ^ 64 - 1) * (2 ^ 64 - 1)) by nia.
  rewrite (wrap_small 128) by nia. apply wrap_small.
  assert (0 <= total * (now - cliff) / (vest - cliff)) by (apply Z.div_pos; nia).
  assert (total * (now - cliff) / (vest - cliff) <= total) by (apply Z.div_le_upper_bound; nia).
  lia.
Qed.

(** The vested amount never falls as time passes, is nothing before the cliff, at most the
    allocation, and all of it at the end. *)
Lemma founding_vesting_monotone total cliff vest s t :
  is_u64 total -> is_u64 cliff -> is_u64 vest -> cliff <= vest -> s <= t ->
  0 <= founding_vesting_unlocked total cliff vest s <= founding_vesting_unlocked total cliff vest t
  /\ founding_vesting_unlocked total cliff vest t <= total
  /\ (t < cliff -> founding_vesting_unlocked total cliff vest t = 0)
  /\ (vest <= t -> founding_vesting_unlocked total cliff vest t = total).
Proof.
  intros Ht Hc Hv Hcv Hst.
  assert (forall n, vest <= n -> founding_vesting_unlocked total cliff vest n = total) as Hfull.
  { intros n Hn. unfold founding_vesting_unlocked.
    destruct (Z.ltb_spec n cliff); [lia|]. by destruct (Z.leb_spec vest n); [|lia]. }
  assert (forall n, n < cliff -> founding_vesting_unlocked total cliff vest n = 0) as Hnone.
  { intros n Hn. unfold founding_vesting_unlocked. by destruct (Z.ltb_spec n cliff); [|lia]. }
  assert (forall n, 0 <= founding_vesting_unlocked total cliff vest n <= total) as Hrange.
  { intros n. unfold is_u64 in *. destruct (Z.lt_ge_cases n cliff); [rewrite Hnone; lia|].
    destruct (Z.lt_ge_cases n vest); [|rewrite Hfull; lia]. rewrite vested_between by done.
    split; [apply Z.div_pos; nia|apply Z.div_le_upper_bound; nia]. }
  split_and!; [apply Hrange| |apply Hrange|apply Hnone|apply Hfull].
  destruct (Z.lt_ge_cases s cliff); [rewrite (Hnone s) by done; apply Hrange|].
  destruct (Z.lt_ge_cases t vest); [|rewrite (Hfull t) by done; apply Hrange].
  rewrite !vested_between by (done || lia). apply Z.div_le_mono; [lia|].
  unfold is_u64 in Ht. nia.
Qed.
