(* ===== verification/Rent.v ===== *)
(** * Rent

    Models [core/src/processor/rent_collection.rs] and [compute_graduated_rent] of
    [core/src/processor.rs]: the storage rent charged to the accounts a transaction names.
    The source walks a [HashSet], whose order differs between processes: the order is an
    argument, and the theorem shows that it does not matter. *)

From S2P Require Import Prelude Crypto Block Account Stake Pool StakingV2 Transactions Fees.
From stdpp Require Import base tactics numbers list gmap.
From Stdlib Require Import ZArith Lia.

Local Open Scope Z_scope.
Local Open Scope rust_scope.

Definition SLOTS_PER_MONTH : Z := 216000 * 30.
Definition RENT_FREE_BYTES : Z := 2048.
Definition DORMANCY_THRESHOLD_EPOCHS : Z := 2.

Definition compute_graduated_rent (data_len rate_per_kb_per_epoch : Z) : Z :=
  if data_len <=? RENT_FREE_BYTES then 0
  else
    let billable := data_len - RENT_FREE_BYTES in
    let tier1_cap := 8 * 1024 in
    let tier2_cap := 98 * 1024 in
    let tier1_bytes := Z.min billable tier1_cap in
    let tier2_bytes := Z.min (sat_sub billable tier1_cap) (tier2_cap - tier1_cap) in
    let tier3_bytes := sat_sub billable tier2_cap in
    let tier1_kb := div_ceil tier1_bytes 1024 in
    let tier2_kb := div_ceil tier2_bytes 1024 in
    let tier3_kb := div_ceil tier3_bytes 1024 in
    sat_add64 (sat_add64 (sat_mul64 tier1_kb rate_per_kb_per_epoch)
      (sat_mul64 tier2_kb (sat_mul64 rate_per_kb_per_epoch 2)))
      (sat_mul64 tier3_kb (sat_mul64 rate_per_kb_per_epoch 4)).

Definition set_ac_rent_epoch : Z -> Account -> Account := ltac:(setter eta_Account ac_rent_epoch).
Definition set_ac_missed_rent_epochs : Z -> Account -> Account :=
  ltac:(setter eta_Account ac_missed_rent_epochs).
Definition set_ac_dormant : bool -> Account -> Account := ltac:(setter eta_Account ac_dormant).

Inductive RentError := RentDeduction (e : AccountError) | RentTreasuryNotSet | RentCredit (e : AccountError).

Section rent.
Variables (current_slot rent_rate : Z).

Definition rent_rate_per_epoch : Z := sat_mul64 rent_rate SLOTS_PER_EPOCH / SLOTS_PER_MONTH.

(** The body of the loop for one existing account: the account to write back and the rent
    collected from it. *)
Definition rent_account (account : Account) : result (Account * Z) RentError :=
  let current_epoch := slot_to_epoch current_slot in
  if ac_rent_epoch account =? 0 then Ok (set_ac_rent_epoch current_slot account, 0)
  else
    let last_rent_epoch := slot_to_epoch (ac_rent_epoch account) in
    if current_epoch <=? last_rent_epoch then Ok (account, 0)
    else
      let epochs_elapsed := current_epoch - last_rent_epoch in
      let data_len := Z.of_nat (length (ac_data account)) in
      if data_len <=? RENT_FREE_BYTES then
        Ok (set_ac_missed_rent_epochs 0 (set_ac_rent_epoch current_slot account), 0)
      else if (ac_spores account =? 0) && (data_len =? 0) then
        Ok (set_ac_rent_epoch current_slot account, 0)
      else
        let rent_per_epoch := compute_graduated_rent data_len rent_rate_per_epoch in
        let rent_due := sat_mul64 epochs_elapsed rent_per_epoch in
        if 0 <? rent_due then
          let actual_rent := Z.min rent_due (ac_spendable account) in
          let? account :=
            if 0 <? actual_rent then
              match Account_deduct_spendable actual_rent account with
              | (Ok _, account) => Ok account
              | (Err e, _) => Err (RentDeduction e)
              end
            else Ok account in
          let account :=
            if actual_rent <? rent_due then
              let missed := sat_add64 (ac_missed_rent_epochs account) epochs_elapsed in
              let account := set_ac_missed_rent_epochs missed account in
              if DORMANCY_THRESHOLD_EPOCHS <=? missed then set_ac_dormant true account else account
            else set_ac_missed_rent_epochs 0 account in
          Ok (set_ac_rent_epoch current_slot account, actual_rent)
        else Ok (set_ac_rent_epoch current_slot account, 0).

(** One turn of the loop: a missing account is skipped. *)
Definition rent_step (acc : gmap Pubkey Account * Z) (pubkey : Pubkey)
  : result (gmap Pubkey Account * Z) RentError :=
  let '(accounts, total) := acc in
  match accounts !! pubkey with
  | None => Ok acc
  | Some account =>
      let? '(account, rent) := rent_account account in
      Ok (<[pubkey := account]> accounts, sat_add64 total rent)
  end.

(** The keys of the transaction, in the order the set yields them. *)
Definition tx_keys (tx : Transaction) : gset Pubkey :=
  list_to_set (concat (map ix_accounts (msg_instructions (tx_message tx)))).

Definition apply_rent (treasury : option Pubkey) (keys : list Pubkey) (b : Books)
  : result Books RentError :=
  if current_slot =? 0 then Ok b
  else
    let? '(accounts, total_rent_collected) := try_fold rent_step (bk_accounts b, 0) keys in
    if 0 <? total_rent_collected then
      or_err treasury RentTreasuryNotSet (fun key =>
      match Account_add_spendable total_rent_collected (treasury_account key accounts) with
      | (Ok _, t) => Ok (mkBooks (<[key := t]> accounts) (bk_burned b))
      | (Err e, _) => Err (RentCredit e)
      end)
    else Ok (mkBooks accounts (bk_burned b)).
End rent.

(** ** One account *)

Section rent_proofs.
Variables (current_slot rent_rate : Z).

(** What [rent_account] leaves of an account and takes from it. *)
Definition rented (a : Account) : Account :=
  match rent_account current_slot rent_rate a with Ok (a', _) => a' | Err _ => a end.
Definition rent_of (a : Account) : Z :=
  match rent_account current_slot rent_rate a with Ok (_, r) => r | Err _ => 0 end.

(** The fields rent does not read leave the balances alone. *)
Definition same_balances (a a' : Account) : Prop :=
  ac_spores a' = ac_spores a /\ ac_spendable a' = ac_spendable a
  /\ ac_staked a' = ac_staked a /\ ac_locked a' = ac_locked a.

Lemma same_balances_wf a a' : same_balances a a' -> account_wf a -> account_wf a'.
Proof using Type. intros (E1 & E2 & E3 & E4) []. split; lia. Qed.

Lemma rent_account_ok a :
  account_wf a ->
  rent_account current_slot rent_rate a = Ok (rented a, rent_of a)
  /\ account_wf (rented a) /\ 0 <= rent_of a <= ac_spendable a
  /\ ac_spores (rented a) = ac_spores a - rent_of a
  /\ ac_spendable (rented a) = ac_spendable a - rent_of a
  /\ ac_staked (rented a) = ac_staked a /\ ac_locked (rented a) = ac_locked a
  /\ (Z.of_nat (length (ac_data a)) <= RENT_FREE_BYTES -> rent_of a = 0).
Proof using Type.
  intros Ha. unfold rented, rent_of.
  enough (exists a' r, rent_account current_slot rent_rate a = Ok (a', r)
    /\ 0 <= r <= ac_spendable a /\ same_balances (set_ac_spores (ac_spores a - r)
         (set_ac_spendable (ac_spendable a - r) a)) a'
    /\ (Z.of_nat (length (ac_data a)) <= RENT_FREE_BYTES -> r = 0)) as (a' & r & -> & Hr & Hb & Hfree).
  { split; [done|]. destruct Hb as (E1 & E2 & E3 & E4). simpl in *. destruct Ha.
    split_and!; try done; try lia. split; lia. }
  assert (forall a', same_balances a a' -> 0 <= 0 <= ac_spendable a
    /\ same_balances (set_ac_spores (ac_spores a - 0) (set_ac_spendable (ac_spendable a - 0) a)) a'
    /\ (Z.of_nat (length (ac_data a)) <= RENT_FREE_BYTES -> 0 = 0)) as Hzero.
  { intros a' (E1 & E2 & E3 & E4). destruct Ha. split_and!; try done || lia.
    unfold same_balances. simpl. split_and!; lia. }
  unfold rent_account.
  destruct (_ =? 0); [eexists _, 0; split; [done|by apply Hzero]|].
  destruct (_ <=? slot_to_epoch (ac_rent_epoch a)); [eexists _, 0; split; [done|by apply Hzero]|].
  destruct (Z.leb_spec (Z.of_nat (length (ac_data a))) RENT_FREE_BYTES) as [|Hlen];
    [eexists _, 0; split; [done|by apply Hzero]|].
  destruct ((ac_spores a =? 0) && _); [eexists _, 0; split; [done|by apply Hzero]|].
  set (due := sat_mul64 _ _). destruct (Z.ltb_spec 0 due) as [Hdue|];
    [|eexists _, 0; split; [done|by apply Hzero]].
  pose proof Ha as [Hs Hst Hlk Hsplit _].
  set (r := Z.min due (ac_spendable a)). assert (0 <= r <= ac_spendable a) as Hr by (unfold r; lia).
  assert (exists a1, (if 0 <? r then match Account_deduct_spendable r a with
      | (Ok _, account) => Ok account | (Err e, _) => Err (RentDeduction e) end else Ok a) = Ok a1
    /\ same_balances (set_ac_spores (ac_spores a - r) (set_ac_spendable (ac_spendable a - r) a)) a1)
    as (a1 & -> & Hb1).
  { destruct (Z.ltb_spec 0 r).
    - unfold Account_deduct_spendable, checked_sub.
      destruct (Z.leb_spec r (ac_spendable a)); [|lia]. destruct (Z.leb_spec r (ac_spores a)); [|lia].
      eexists; split; [done|]. done.
    - exists a. split; [done|]. unfold same_balances. simpl. split_and!; lia. }
  cbn [and_then]. eexists _, r. split; [done|]. split; [done|]. split; [|lia].
  destruct Hb1 as (E1 & E2 & E3 & E4). unfold same_balances.
  destruct (r <? due); [destruct (_ <=? sat_add64 _ _)|]; simpl in *; done.
Qed.

(** ** The loop *)

(** Every named account after its rent, the others as they were. *)
Definition collect (keys : list Pubkey) (m : gmap Pubkey Account) : gmap Pubkey Account :=
  map_imap (fun k a => Some (if decide (k ∈ keys) then rented a else a)) m.
Definition rents (keys : list Pubkey) (m : gmap Pubkey Account) : Z :=
  sumZ (fun k => from_option rent_of 0 (m !! k)) keys.

Lemma collect_perm keys keys' m : keys ≡ₚ keys' -> collect keys m = collect keys' m.
Proof using Type.
  intros Hp. apply map_eq. intros k. unfold collect. rewrite !map_lookup_imap.
  destruct (m !! k) as [a|]; simpl; [|done]. f_equal.
  destruct (decide (k ∈ keys)) as [H|H], (decide (k ∈ keys')) as [H'|H']; try done;
    rewrite Hp in H; done.
Qed.

Lemma collect_cons_None k keys m : m !! k = None -> collect (k :: keys) m = collect keys m.
Proof using Type.
  intros Hk. apply map_eq. intros j. unfold collect. rewrite !map_lookup_imap.
  destruct (m !! j) as [a|] eqn:Hj; simpl; [|done]. f_equal.
  assert (j <> k) by congruence.
  destruct (decide (j ∈ k :: keys)) as [[?|?]%elem_of_cons|Hnot%not_elem_of_cons]; destruct (decide (j ∈ keys));
    done || tauto.
Qed.

Lemma collect_cons_Some k keys m a :
  k ∉ keys -> m !! k = Some a -> collect (k :: keys) m = collect keys (<[k := rented a]> m).
Proof using Type.
  intros Hn Hk. apply map_eq. intros j. unfold collect. rewrite !map_lookup_imap.
  destruct (decide (j = k)) as [->|Hne].
  - rewrite Hk, lookup_insert_eq. simpl. rewrite decide_True by left. by rewrite decide_False.
  - rewrite lookup_insert_ne by done. destruct (m !! j); simpl; [|done]. f_equal.
    destruct (decide (j ∈ k :: keys)) as [[?|?]%elem_of_cons|Hnot%not_elem_of_cons];
      destruct (decide (j ∈ keys)); done || tauto.
Qed.

Lemma rents_insert k a keys m : k ∉ keys -> rents keys (<[k := a]> m) = rents keys m.
Proof using Type.
  intros Hn. apply sumZ_ext. intros j Hj. rewrite lookup_insert_ne; [done|]. by intros ->.
Qed.

Lemma rent_loop keys m t :
  NoDup keys -> accounts_ok m -> 0 <= t -> t + spores_total m <= u64_max ->
  try_fold (rent_step current_slot rent_rate) (m, t) keys = Ok (collect keys m, t + rents keys m)
  /\ accounts_ok (collect keys m) /\ 0 <= rents keys m
  /\ spores_total (collect keys m) = spores_total m - rents keys m.
Proof using Type.
  intros Hnd. revert m t. induction Hnd as [|k keys Hn Hnd IH]; intros m t Hm H0 Hmax.
  { simpl. replace (collect [] m) with m.
    - unfold rents, sumZ. simpl. rewrite Z.add_0_r. split_and!; done || lia.
    - apply map_eq. intros k. unfold collect. rewrite map_lookup_imap. by destruct (m !! k). }
  cbn [try_fold]. unfold rent_step at 1. unfold rents. rewrite sumZ_cons. fold (rents keys m).
  destruct (m !! k) as [a|] eqn:Hk; simpl.
  - destruct (rent_account_ok a (Hm k a Hk)) as (-> & Ha' & Hr & Hsp & _). cbn [and_then].
    rewrite (collect_cons_Some k keys m a Hn Hk).
    assert (accounts_ok (<[k := rented a]> m)) as Hm' by by apply map_Forall_insert_2.
    assert (spores_total (<[k := rented a]> m) = spores_total m - rent_of a) as Hs'.
    { unfold spores_total. rewrite (map_sum_insert _ _ _ a) by done. lia. }
    assert (rent_of a <= spores_total m) as Hle.
    { pose proof (held_le_total Spendable k m Hm) as Hl. unfold held in Hl. rewrite Hk in Hl. simpl in Hl. lia. }
    rewrite sat_add64_small by (pose proof (accounts_ok_total m Hm); lia).
    destruct (IH (<[k := rented a]> m) (t + rent_of a) Hm' ltac:(lia) ltac:(lia)) as (-> & Hok & Hpos & Hsum).
    rewrite rents_insert in * by done. split_and!; [f_equal; f_equal; lia|done|lia|lia].
  - rewrite (collect_cons_None k keys m Hk). destruct (IH m t Hm H0 Hmax) as (-> & ?). done.
Qed.

Lemma collect_bonds keys m : accounts_ok m -> same_bonds m (collect keys m).
Proof using Type.
  intros Hm x k Hx. unfold held, collect. rewrite map_lookup_imap.
  destruct (m !! k) as [a|] eqn:Hk; simpl; [|done]. destruct (decide (k ∈ keys)); [|done].
  destruct (rent_account_ok a (Hm k a Hk)) as (_ & _ & _ & _ & _ & Es & El & _). by destruct x.
Qed.

(** Rent moves spendable balances to the treasury and nothing else. *)
Lemma apply_rent_ok treasury keys b b' :
  NoDup keys -> books_ok b -> apply_rent current_slot rent_rate treasury keys b = Ok b' ->
  books_ok b' /\ books_total b' = books_total b /\ same_bonds (bk_accounts b) (bk_accounts b').
Proof using Type.
  intros Hnd Hb. pose proof Hb as [Hm Hbd Htot]. unfold apply_rent. destruct (_ =? 0); [by intros [= <-]|].
  unfold books_total in Htot.
  destruct (rent_loop keys (bk_accounts b) 0 Hnd Hm) as (-> & Hok & Hr & Hsum); [lia..|].
  assert (forall m, accounts_ok m -> spores_total m = spores_total (bk_accounts b) ->
    books_ok (mkBooks m (bk_burned b)) /\ books_total (mkBooks m (bk_burned b)) = books_total b) as Hbooks.
  { intros m Hm' Hs. split; [split; [done|done|]|]; unfold books_total; simpl; lia. }
  cbn [and_then]. destruct (Z.ltb_spec 0 (0 + rents keys (bk_accounts b))) as [Hpos|Hz].
  - rewrite or_err_Ok. intros (key & _ & H). set (r := 0 + rents keys (bk_accounts b)) in *.
    change (treasury_account key) with (account_or_new key) in H.
    destruct (Account_add_spendable r _) as [[[]|e] t] eqn:Hop; [|done]. injection H as <-.
    destruct (put_op OpAdd r _ key t Hok ltac:(lia) Hop) as (Hok2 & _ & _ & Hsum2). rewrite inflow_add in Hsum2.
    destruct (Hbooks _ Hok2) as [? ?]; [lia|]. split_and!; [done|done|].
    etrans; [by apply (collect_bonds keys)|]. apply (put_op_bonds OpAdd r); [by left|done|lia|done].
  - intros [= <-]. destruct (Hbooks _ Hok) as [? ?]; [lia|]. split_and!; [done|done|by apply collect_bonds].
Qed.
(** What the collection leaves of an account. *)
Lemma collect_held keys m k a :
  accounts_ok m -> m !! k = Some a ->
  exists r, held Spendable k (collect keys m) = ac_spendable a - r
    /\ held Staked k (collect keys m) = ac_staked a /\ held Locked k (collect keys m) = ac_locked a
    /\ 0 <= r <= ac_spendable a
    /\ (Z.of_nat (length (ac_data a)) <= RENT_FREE_BYTES \/ k ∉ keys -> r = 0).
Proof using Type.
  intros Hm Hk. unfold held, collect. rewrite map_lookup_imap, Hk. simpl.
  pose proof (Hm k a Hk) as []. destruct (decide (k ∈ keys)) as [Hin|Hnin].
  - destruct (rent_account_ok a (Hm k a Hk)) as (_ & _ & Hra & _ & E1 & E2 & E3 & Hfree).
    exists (rent_of a). split_and!; try done; try lia. intros [?|?]; [by apply Hfree|done].
  - exists 0. split_and!; try done; lia.
Qed.
End rent_proofs.

(** ** Properties *)

(** Rent does not depend on the order in which the set of accounts is walked, so all
    validators compute the same state; on well-formed books it can fail only when rent is
    due and no treasury is set, it takes from an account at most what is spendable and
    nothing when its data fits the free tier, it credits the treasury with exactly what it
    took, and it conserves the total. *)
Theorem rent_deterministic slot rate treasury keys keys' b :
  NoDup keys -> keys ≡ₚ keys' -> books_ok b ->
  apply_rent slot rate treasury keys b = apply_rent slot rate treasury keys' b
  /\ match apply_rent slot rate treasury keys b with
     | Ok b' =>
         books_ok b' /\ books_total b' = books_total b /\ bk_burned b' = bk_burned b
         /\ forall k a, bk_accounts b !! k = Some a -> treasury <> Some k ->
              exists r, held Spendable k (bk_accounts b') = ac_spendable a - r
                /\ held Staked k (bk_accounts b') = ac_staked a
                /\ held Locked k (bk_accounts b') = ac_locked a
                /\ 0 <= r <= ac_spendable a
                /\ (Z.of_nat (length (ac_data a)) <= RENT_FREE_BYTES \/ k ∉ keys -> r = 0)
     | Err e => e = RentTreasuryNotSet /\ treasury = None
     end.
Proof.
  intros Hnd Hperm Hb. pose proof Hb as [Hm Hbd Htot]. unfold books_total in Htot.
  pose proof (accounts_ok_total _ Hm) as Hpos.
  destruct (rent_loop slot rate keys (bk_accounts b) 0 Hnd Hm ltac:(lia) ltac:(lia)) as (Hl & Hok & Hr & Hsum).
  destruct (rent_loop slot rate keys' (bk_accounts b) 0) as (Hl' & _); [by rewrite <- Hperm|done|lia|lia|].
  rewrite <- (collect_perm _ _ keys keys') in Hl' by done.
  assert (rents slot rate keys' (bk_accounts b) = rents slot rate keys (bk_accounts b)) as Hrents
    by (unfold rents; by rewrite Hperm).
  rewrite Hrents in Hl'. rewrite Z.add_0_l in Hl, Hl'.
  set (m := collect slot rate keys (bk_accounts b)) in *. set (r := rents slot rate keys (bk_accounts b)) in *.
  pose proof (fun k a => collect_held slot rate keys (bk_accounts b) k a Hm) as Hheld. fold m in Hheld.
  unfold apply_rent. rewrite Hl, Hl'. split; [done|].
  destruct (Z.eqb_spec slot 0).
  { split_and!; try done. intros k a Hk _. exists 0. unfold held. rewrite Hk. simpl.
    destruct (Hm k a Hk). split_and!; done || lia. }
  cbn [and_then]. destruct (Z.ltb_spec 0 r) as [Hdue|Hz].
  - destruct treasury as [key|]; cbn [or_err]; [|done].
    destruct (op_succeeds OpAdd r (account_or_new key m)) as [t Hop]; [by apply account_or_new_wf|lia| |].
    { unfold funded. simpl. pose proof (spores_le_total key m Hok). lia. }
    change (treasury_account key m) with (account_or_new key m).
    change (Account_add_spendable r) with (balance_op OpAdd r). rewrite Hop.
    destruct (put_op OpAdd r m key t Hok ltac:(lia) Hop) as (Hok2 & _ & Hheld2 & Hsum2).
    rewrite inflow_add in Hsum2.
    assert (books_total (mkBooks (<[key := t]> m) (bk_burned b)) = books_total b) as Heq
      by (unfold books_total; simpl; lia).
    split_and!; [split; [done|done|rewrite Heq; exact Htot]|done|done|].
    intros k a Hk Hne. destruct (Hheld k a Hk) as (q & E1 & E2 & E3 & Hq). exists q. simpl.
    rewrite !Hheld2, !decide_False by congruence. rewrite E1, E2, E3, !Z.add_0_r. done.
  - assert (books_total (mkBooks m (bk_burned b)) = books_total b) as Heq
      by (unfold books_total; simpl; lia).
    split_and!; [split; [done|done|rewrite Heq; exact Htot]|done|done|].
    intros k a Hk _. by apply Hheld.
Qed.

Module SampleRent.
Definition store : Account :=
  mkAccount 5000000 5000000 0 0 (replicate 3000 0) None 1 false 1 false 0.
Definition books : Books := mkBooks {[1 := store; 2 := Account_new 7 2]} 0.
Definition slot : Z := 3 * SLOTS_PER_EPOCH + 5.

Lemma rent_books_are_ok : books_ok books.
Proof.
  split; [|vm_compute; congruence..].
  apply map_Forall_insert_2; [split; vm_compute; congruence|].
  apply map_Forall_insert_2; [split; vm_compute; congruence|]. apply map_Forall_empty.
Qed.

Definition after : Books :=
  match apply_rent slot 1000 (Some 2) [2; 1] books with Ok b => b | Err _ => books end.

Lemma rent_deterministic_witness :
  apply_rent slot 1000 (Some 2) [1; 2] books = Ok after
  /\ books_total after = books_total books /\ held Spendable 1 (bk_accounts after) < 5000000.
Proof.
  assert (NoDup [1; 2]) as Hnd by by apply (bool_decide_eq_true_1 (NoDup [1; 2])).
  destruct (rent_deterministic slot 1000 (Some 2) [1; 2] [2; 1] books Hnd
    ltac:(apply Permutation_swap) rent_books_are_ok) as [Heq Hok].
  assert (apply_rent slot 1000 (Some 2) [1; 2] books = Ok after) as Hr by by vm_compute.
  rewrite Hr in Hok. destruct Hok as (_ & Ht & _). split_and!; [exact Hr|exact Ht|by vm_compute].
Defined.
End SampleRent.
