(* ===== verification/Transfers.v ===== *)
(** * Transfers, account creation and durable nonces

    Models [StateBatch::transfer] of [core/src/state/batch_state.rs], [system_transfer] and
    [system_create_account] of [core/src/processor/system_basics.rs], and the durable nonce
    instructions of [core/src/processor/nonce_handlers.rs] with [check_durable_nonce] of
    [core/src/processor.rs].

    - transfer restrictions and the registry of governed wallets belong to other components:
      [blocked] and [governed] are parameters, and the theorems hold for every choice;
    - [bincode] is a library: the encoding of a nonce state is the class [NonceCodec]. *)

From S2P Require Import Prelude Crypto Block Account Transactions Fees Rent.
From stdpp Require Import base tactics numbers list gmap.
From Stdlib Require Import ZArith Lia.

Local Open Scope Z_scope.
Local Open Scope rust_scope.

Inductive TransferError :=
| SenderNotFound
| SenderRestricted
| RecipientRestricted
| InsufficientBalance
| TransferAccount (e : AccountError)
| TransferAccounts
| TransferData
| GovernedWallet (wallet : Pubkey)
| ZeroAmount
| TreasuryOnly (opcode : Z)
| AccountExists
| NonceAccounts
| NonceData
| NonceUnknownOp (sub : Z)
| NonceExists
| FunderNotFound
| FunderTooPoor
| NonceSerialize
| NonceVanished
| NonceNotFound
| NotNonceAccount
| InvalidNonceState
| NotNonceAuthority
| NonceUnchanged
| AuthorityRestricted
| ZeroAuthority.

Inductive TransferDirection := OutgoingTransfer | IncomingTransfer.

Record NonceState := mkNonceState {
  ns_authority : Pubkey;
  ns_blockhash : Hash;
  ns_fee_per_signature : Z;
}.

Definition NONCE_ACCOUNT_MIN_BALANCE : Z := 10000000.
Definition NONCE_ACCOUNT_MARKER : Z := 218.

Class NonceCodec := {
  nonce_bytes : NonceState -> option bytes;
  nonce_of_bytes : bytes -> option NonceState;
}.

Class NonceCodecLaws `{NonceCodec} : Prop := {
  nonce_of_nonce_bytes s l : nonce_bytes s = Some l -> nonce_of_bytes l = Some s;
}.

Definition set_ac_data : bytes -> Account -> Account := ltac:(setter eta_Account ac_data).
Definition set_ac_owner : Pubkey -> Account -> Account := ltac:(setter eta_Account ac_owner).

Abbreviation Accounts := (gmap Pubkey Account).

Section transfers.
(** Whether a restriction in force stops [account] from moving [amount], given what it can
    spend. *)
Variable blocked : Pubkey -> TransferDirection -> Z -> Z -> bool.
Variable governed : Pubkey -> bool.
Variable treasury : option Pubkey.

Definition transfer (from to : Pubkey) (spores : Z) (m : Accounts) : result Accounts TransferError :=
  if from =? to then Ok m
  else
    or_err (m !! from) SenderNotFound (fun from_account =>
    if blocked from OutgoingTransfer spores (ac_spendable from_account) then Err SenderRestricted
    else if blocked to IncomingTransfer spores 0 then Err RecipientRestricted
    else
      match Account_deduct_spendable spores from_account with
      | (Err _, _) => Err InsufficientBalance
      | (Ok _, from_account) =>
          match Account_add_spendable spores (account_or_new to m) with
          | (Err e, _) => Err (TransferAccount e)
          | (Ok _, to_account) =>
              let to_account :=
                if ac_dormant to_account
                then set_ac_missed_rent_epochs 0 (set_ac_dormant false to_account) else to_account in
              Ok (<[to := to_account]> (<[from := from_account]> m))
          end
      end).

(** [u64::from_le_bytes(data[at..at + 8])] and the 32-byte key at [at]. *)
Definition u64_at (data : bytes) (at_ : nat) : Z := le_value (take 8 (drop at_ data)).
Definition key_at (data : bytes) (at_ : nat) : Pubkey := le_value (reverse (take 32 (drop at_ data))).

Definition system_transfer (ix : Instruction) (m : Accounts) : result Accounts TransferError :=
  match ix_accounts ix with
  | from :: to :: _ =>
      if (length (ix_data ix) <? 9)%nat then Err TransferData
      else if governed from && negb (bool_decide (treasury = Some from)) then Err (GovernedWallet from)
      else
        let amount := u64_at (ix_data ix) 1 in
        if amount =? 0 then Err ZeroAmount else transfer from to amount m
  | _ => Err TransferAccounts
  end.

(** Opcodes 2 to 5: a transfer reserved to the treasury. *)
Definition treasury_transfer (opcode : Z) (ix : Instruction) (m : Accounts) : result Accounts TransferError :=
  match ix_accounts ix with
  | sender :: _ =>
      if negb (bool_decide (treasury = Some sender)) then Err (TreasuryOnly opcode)
      else system_transfer ix m
  | [] => system_transfer ix m
  end.

Definition system_create_account (ix : Instruction) (m : Accounts) : result Accounts TransferError :=
  or_err (head (ix_accounts ix)) TransferAccounts (fun pubkey =>
  if bool_decide (is_Some (m !! pubkey)) then Err AccountExists
  else Ok (<[pubkey := Account_new 0 pubkey]> m)).

(** ** Durable nonces *)

Section nonce.
Context `{NonceCodec}.
(** The hash of the block at the last slot, the zero hash when there is none. *)
Variable last_blockhash : Hash.

Definition decode_nonce_state (data : bytes) : result NonceState TransferError :=
  match data with
  | marker :: payload =>
      if marker =? NONCE_ACCOUNT_MARKER then or_err (nonce_of_bytes payload) InvalidNonceState Ok
      else Err NotNonceAccount
  | [] => Err NotNonceAccount
  end.

Definition encode_nonce_state (s : NonceState) : result bytes TransferError :=
  or_err (nonce_bytes s) NonceSerialize (fun l => Ok (NONCE_ACCOUNT_MARKER :: l)).

Definition nonce_initialize (ix : Instruction) (m : Accounts) : result Accounts TransferError :=
  match ix_accounts ix with
  | funder :: nonce_pk :: _ =>
      if (length (ix_data ix) <? 34)%nat then Err NonceData
      else
        let authority := key_at (ix_data ix) 2 in
        if bool_decide (is_Some (m !! nonce_pk)) then Err NonceExists
        else
          or_err (m !! funder) FunderNotFound (fun funder_account =>
          if ac_spendable funder_account <? NONCE_ACCOUNT_MIN_BALANCE then Err FunderTooPoor
          else
            let nonce_state := mkNonceState authority last_blockhash BASE_FEE in
            let? nonce_data := encode_nonce_state nonce_state in
            let? m := transfer funder nonce_pk NONCE_ACCOUNT_MIN_BALANCE m in
            or_err (m !! nonce_pk) NonceVanished (fun nonce_account =>
            Ok (<[nonce_pk := set_ac_owner SYSTEM_PROGRAM_ID (set_ac_data nonce_data nonce_account)]> m)))
  | _ => Err NonceAccounts
  end.

(** The nonce account of an authority's instruction, with its decoded state. *)
Definition nonce_of (authority nonce_pk : Pubkey) (m : Accounts)
  : result (Account * NonceState) TransferError :=
  or_err (m !! nonce_pk) NonceNotFound (fun nonce_account =>
  let? nonce_state := decode_nonce_state (ac_data nonce_account) in
  if negb (authority =? ns_authority nonce_state) then Err NotNonceAuthority
  else Ok (nonce_account, nonce_state)).

Definition nonce_advance (ix : Instruction) (m : Accounts) : result Accounts TransferError :=
  match ix_accounts ix with
  | authority :: nonce_pk :: _ =>
      let? '(nonce_account, nonce_state) := nonce_of authority nonce_pk m in
      if last_blockhash =? ns_blockhash nonce_state then Err NonceUnchanged
      else
        let? data := encode_nonce_state
          (mkNonceState (ns_authority nonce_state) last_blockhash BASE_FEE) in
        Ok (<[nonce_pk := set_ac_data data nonce_account]> m)
  | _ => Err NonceAccounts
  end.

Definition nonce_withdraw (ix : Instruction) (m : Accounts) : result Accounts TransferError :=
  match ix_accounts ix with
  | authority :: nonce_pk :: recipient :: _ =>
      if (length (ix_data ix) <? 10)%nat then Err NonceData
      else
        let? '(nonce_account, nonce_state) := nonce_of authority nonce_pk m in
        let amount := u64_at (ix_data ix) 2 in
        if amount =? 0 then Err ZeroAmount
        else
          let value_exit_amount := Z.min amount (ac_spores nonce_account) in
          if blocked authority OutgoingTransfer value_exit_amount
               (from_option ac_spendable 0 (m !! authority)) then Err AuthorityRestricted
          else if ac_spores nonce_account <=? amount then
            let? m := transfer nonce_pk recipient (ac_spores nonce_account) m in
            Ok (<[nonce_pk := set_ac_data [] (account_or_new nonce_pk m)]> m)
          else transfer nonce_pk recipient amount m
  | _ => Err NonceAccounts
  end.

Definition nonce_authorize (ix : Instruction) (m : Accounts) : result Accounts TransferError :=
  match ix_accounts ix with
  | authority :: nonce_pk :: _ =>
      if (length (ix_data ix) <? 34)%nat then Err NonceData
      else
        let? '(nonce_account, nonce_state) := nonce_of authority nonce_pk m in
        let new_authority := key_at (ix_data ix) 2 in
        if new_authority =? 0 then Err ZeroAuthority
        else
          let? data := encode_nonce_state
            (mkNonceState new_authority (ns_blockhash nonce_state) (ns_fee_per_signature nonce_state)) in
          Ok (<[nonce_pk := set_ac_data data nonce_account]> m)
  | _ => Err NonceAccounts
  end.

Definition system_nonce (ix : Instruction) (m : Accounts) : result Accounts TransferError :=
  match ix_data ix with
  | _ :: sub :: _ =>
      if sub =? 0 then nonce_initialize ix m
      else if sub =? 1 then nonce_advance ix m
      else if sub =? 2 then nonce_withdraw ix m
      else if sub =? 3 then nonce_authorize ix m
      else Err (NonceUnknownOp sub)
  | _ => Err NonceData
  end.

Definition check_durable_nonce (tx : Transaction) (m : Accounts) : bool :=
  match msg_instructions (tx_message tx) with
  | first_ix :: _ =>
      (ix_program_id first_ix =? SYSTEM_PROGRAM_ID)
      && bool_decide (take 2 (ix_data first_ix) = [28; 1])
      && match ix_accounts first_ix !! 1%nat with
         | None => false
         | Some nonce_pk =>
             match m !! nonce_pk with
             | None => false
             | Some nonce_account =>
                 match decode_nonce_state (ac_data nonce_account) with
                 | Ok nonce_state => ns_blockhash nonce_state =? msg_recent_blockhash (tx_message tx)
                 | Err _ => false
                 end
             end
         end
  | [] => false
  end.
End nonce.
End transfers.

(** ** Value *)

(** What the native instructions keep: well-formed accounts, the total, and every staked or
    locked balance. *)
Definition keeps_value (m m' : Accounts) : Prop :=
  accounts_ok m' /\ spores_total m' = spores_total m /\ same_bonds m m'.

#[global] Instance keeps_value_trans : Transitive keeps_value.
Proof.
  intros m1 m2 m3 (_ & E12 & B12) (H3 & E23 & B23). split_and!; [done|congruence|by etrans].
Qed.

(** The data of every existing account is kept. *)
Definition keeps_data (m m' : Accounts) : Prop :=
  forall k a, m !! k = Some a -> exists a', m' !! k = Some a' /\ ac_data a' = ac_data a.

#[global] Instance keeps_data_refl : Reflexive keeps_data.
Proof. intros m k a Hk. eauto. Qed.
#[global] Instance keeps_data_trans : Transitive keeps_data.
Proof.
  intros m1 m2 m3 H12 H23 k a Hk. destruct (H12 k a Hk) as (a2 & H2 & E2).
  destruct (H23 k a2 H2) as (a3 & H3 & E3). exists a3. split; [done|congruence].
Qed.

Lemma keeps_data_insert m k a' :
  (forall a, m !! k = Some a -> ac_data a' = ac_data a) -> keeps_data m (<[k := a']> m).
Proof.
  intros Hd j a Hj. destruct (decide (j = k)) as [->|Hne].
  - exists a'. split; [by rewrite lookup_insert_eq|by apply Hd].
  - exists a. split; [by rewrite lookup_insert_ne|done].
Qed.

(** Replacing an account by one with the same balances. *)
Lemma put_same_balances m k a a' :
  accounts_ok m -> account_or_new k m = a -> same_balances a a' -> keeps_value m (<[k := a']> m).
Proof.
  intros Hm Ha Hs. pose proof (account_or_new_wf k m Hm) as Hwf. rewrite Ha in Hwf. split_and!.
  - apply map_Forall_insert_2; [by apply (same_balances_wf a a')|done].
  - unfold spores_total. rewrite map_sum_put, account_or_new_spores, Ha. destruct Hs as [-> _]. lia.
  - intros x j Hx. destruct (decide (j = k)) as [->|Hne]; [|unfold held; by rewrite lookup_insert_ne].
    rewrite <- (account_or_new_held x k m), Ha. unfold held. rewrite lookup_insert_eq.
    destruct Hs as (_ & _ & Es & El). by destruct x.
Qed.

Lemma deduct_data amount a a' : Account_deduct_spendable amount a = (Ok tt, a') -> ac_data a' = ac_data a.
Proof.
  unfold Account_deduct_spendable. destruct (checked_sub _ _); [|done].
  by destruct (checked_sub _ _); [|done]; intros [= <-].
Qed.

Lemma add_data amount a a' : Account_add_spendable amount a = (Ok tt, a') -> ac_data a' = ac_data a.
Proof.
  unfold Account_add_spendable. destruct (checked_add64 _ _); [|done].
  by destruct (checked_add64 _ _); [|done]; intros [= <-].
Qed.

Section native.
Variable blocked : Pubkey -> TransferDirection -> Z -> Z -> bool.

Lemma transfer_ok from to amount m m' :
  accounts_ok m -> 0 <= amount -> transfer blocked from to amount m = Ok m' ->
  keeps_value m m' /\ keeps_data m m'.
Proof using Type.
  intros Hm H0. unfold transfer. destruct (Z.eqb_spec from to) as [_|Hne]; [by intros [= <-]|].
  rewrite or_err_Ok. intros (a & Ha & H). apply guard_Ok in H as [_ H]. apply guard_Ok in H as [_ H].
  destruct (Account_deduct_spendable amount a) as [[[]|e] a1] eqn:Hd; [|done].
  destruct (Account_add_spendable amount (account_or_new to m)) as [[[]|e] b] eqn:Hadd; [|done].
  injection H as <-.
  assert (account_or_new from m = a) as Hor by (unfold account_or_new; by rewrite Ha).
  destruct (put_op OpDeduct amount m from a1 Hm H0) as (Hm1 & _ & _ & Hs1); [by rewrite Hor|].
  assert (account_or_new to (<[from := a1]> m) = account_or_new to m) as Hto.
  { unfold account_or_new. by rewrite lookup_insert_ne. }
  destruct (put_op OpAdd amount (<[from := a1]> m) to b Hm1 H0) as (Hm2 & _ & _ & Hs2); [by rewrite Hto|].
  rewrite inflow_deduct in Hs1. rewrite inflow_add in Hs2.
  set (c := if ac_dormant b then _ else b).
  assert (same_balances b c) as Hsame by (unfold c; by destruct (ac_dormant b)).
  assert (ac_data c = ac_data b) as Hdc by (unfold c; by destruct (ac_dormant b)).
  split.
  - destruct (put_same_balances (<[to := b]> (<[from := a1]> m)) to b c Hm2) as (Hok & Hsum & Hbonds);
      [unfold account_or_new; by rewrite lookup_insert_eq|done|].
    rewrite insert_insert_eq in Hok, Hsum, Hbonds. split_and!; [done|lia|].
    etrans; [apply (put_op_bonds OpDeduct amount m from a1); [by right|done|done|by rewrite Hor]|].
    etrans; [apply (put_op_bonds OpAdd amount _ to b); [by left|done|done|by rewrite Hto]|exact Hbonds].
  - etrans; [apply (keeps_data_insert m from a1)|apply (keeps_data_insert _ to c)].
    + intros a0 Ha0. rewrite Ha in Ha0. injection Ha0 as <-. by eapply deduct_data.
    + intros a0. rewrite lookup_insert_ne by done. intros Ht. rewrite Hdc, (add_data _ _ _ Hadd).
      unfold account_or_new. by rewrite Ht.
Qed.

(** What a successful transfer moves, and the restrictions that let it pass. *)
Lemma transfer_moves from to amount m m' :
  accounts_ok m -> 0 <= amount -> transfer blocked from to amount m = Ok m' ->
  (from = to /\ m' = m)
  \/ from <> to
     /\ (exists a, m !! from = Some a /\ blocked from OutgoingTransfer amount (ac_spendable a) = false
           /\ amount <= ac_spendable a)
     /\ blocked to IncomingTransfer amount 0 = false
     /\ forall k, held Spendable k m'
          = held Spendable k m - (if decide (k = from) then amount else 0)
            + (if decide (k = to) then amount else 0).
Proof using Type.
  intros Hm H0. unfold transfer. destruct (Z.eqb_spec from to) as [->|Hne]; [intros [= <-]; by left|].
  rewrite or_err_Ok. intros (a & Ha & H). apply guard_Ok in H as [Hb1 H]. apply guard_Ok in H as [Hb2 H].
  destruct (Account_deduct_spendable amount a) as [[[]|e] a1] eqn:Hd; [|done].
  destruct (Account_add_spendable amount (account_or_new to m)) as [[[]|e] b] eqn:Hadd; [|done].
  injection H as <-. right.
  assert (account_or_new from m = a) as Hor by (unfold account_or_new; by rewrite Ha).
  destruct (put_op OpDeduct amount m from a1 Hm H0) as (Hm1 & Hf1 & Hh1 & _); [by rewrite Hor|].
  rewrite Hor in Hf1.
  assert (account_or_new to (<[from := a1]> m) = account_or_new to m) as Hto.
  { unfold account_or_new. by rewrite lookup_insert_ne. }
  destruct (put_op OpAdd amount (<[from := a1]> m) to b Hm1 H0) as (Hm2 & _ & Hh2 & _); [by rewrite Hto|].
  split_and!; [done|exists a; by split_and!|done|]. intros k.
  transitivity (held Spendable k (<[to := b]> (<[from := a1]> m))).
  { unfold held. destruct (decide (k = to)) as [->|Hk]; [|by rewrite !(lookup_insert_ne _ to)].
    rewrite !lookup_insert_eq. simpl. by destruct (ac_dormant b). }
  rewrite Hh2, Hh1. change (flow OpAdd amount Spendable) with (amount - 0).
  change (flow OpDeduct amount Spendable) with (0 - amount). destruct (decide (k = from)), (decide (k = to)); lia.
Qed.

Lemma u64_at_nonneg data n : Forall is_byte data -> 0 <= u64_at data n.
Proof using Type.
  intros Hd. unfold u64_at.
  assert (Forall is_byte (take 8 (drop n data))) as Hl by by apply Forall_take, Forall_drop.
  revert Hl. generalize (take 8 (drop n data)). unfold is_byte. induction 1; simpl; lia.
Qed.

Variable governed : Pubkey -> bool.
Variable treasury : option Pubkey.
Context `{NonceCodec}.
Variable last_blockhash : Hash.

(** The native instructions of this file. *)
Inductive NativeOp := NTransfer | NTreasuryTransfer (opcode : Z) | NCreate | NNonce.

Definition native_op (op : NativeOp) (ix : Instruction) (m : Accounts) : result Accounts TransferError :=
  match op with
  | NTransfer => system_transfer blocked governed treasury ix m
  | NTreasuryTransfer opcode => treasury_transfer blocked governed treasury opcode ix m
  | NCreate => system_create_account ix m
  | NNonce => system_nonce blocked last_blockhash ix m
  end.

Lemma nonce_of_Ok authority k m a st :
  nonce_of authority k m = Ok (a, st) <->
  m !! k = Some a /\ decode_nonce_state (ac_data a) = Ok st /\ authority = ns_authority st.
Proof using Type.
  unfold nonce_of. rewrite or_err_Ok. split.
  - intros (b & Hb & Hr). apply and_then_Ok in Hr as (s & Hs & Hr). apply guard_Ok in Hr as [Ha [= -> ->]].
    apply negb_false_iff, Z.eqb_eq in Ha. done.
  - intros (Ha & Hs & ->). exists a. split; [done|]. rewrite Hs. cbn [and_then]. by rewrite Z.eqb_refl.
Qed.

Lemma system_transfer_ok ix m m' :
  Forall is_byte (ix_data ix) -> accounts_ok m ->
  system_transfer blocked governed treasury ix m = Ok m' -> keeps_value m m' /\ keeps_data m m'.
Proof using Type.
  intros Hd Hm. unfold system_transfer. destruct (ix_accounts ix) as [|from [|to rest]]; [done..|].
  rewrite !guard_Ok. intros (_ & _ & _ & Ht). by apply (transfer_ok from to _ m m' Hm (u64_at_nonneg _ 1 Hd)).
Qed.

Lemma set_data_value m k data a :
  accounts_ok m -> m !! k = Some a -> keeps_value m (<[k := set_ac_data data a]> m).
Proof using Type.
  intros Hm Ha. apply (put_same_balances m k a); [done|unfold account_or_new; by rewrite Ha|done].
Qed.

(** Every native instruction keeps the accounts well formed and their total. *)
Lemma native_op_value op ix m m' :
  Forall is_byte (ix_data ix) -> accounts_ok m -> native_op op ix m = Ok m' -> keeps_value m m'.
Proof using Type.
  intros Hd Hm. destruct op as [|opcode| |]; cbn [native_op].
  - intros Ht. by apply (system_transfer_ok ix m m').
  - unfold treasury_transfer. destruct (ix_accounts ix) as [|sender rest] eqn:E.
    + intros Ht. by apply (system_transfer_ok ix m m').
    + intros [_ Ht]%guard_Ok. by apply (system_transfer_ok ix m m').
  - unfold system_create_account. rewrite or_err_Ok. intros (k & _ & Hr).
    apply guard_Ok in Hr as [Hk [= <-]]. apply bool_decide_eq_false in Hk.
    apply eq_None_not_Some in Hk.
    apply (put_same_balances m k (account_or_new k m)); [done|done|].
    unfold account_or_new. by rewrite Hk.
  - unfold system_nonce. destruct (ix_data ix) as [|o [|sub data]] eqn:Hdata; [done..|].
    rewrite <- Hdata in Hd. destruct (sub =? 0); [|destruct (sub =? 1); [|destruct (sub =? 2); [|destruct (sub =? 3); [|done]]]].
    + unfold nonce_initialize. destruct (ix_accounts ix) as [|f [|k rest]]; [done..|].
      rewrite guard_Ok, guard_Ok, or_err_Ok. intros (_ & _ & fa & _ & Hr). apply guard_Ok in Hr as [_ Hr].
      apply and_then_Ok in Hr as (nd & _ & Hr). apply and_then_Ok in Hr as (m1 & Ht & Hr).
      apply or_err_Ok in Hr as (a & Ha & [= <-]).
      destruct (transfer_ok f k NONCE_ACCOUNT_MIN_BALANCE m m1 Hm ltac:(done) Ht) as [Hv1 _].
      etrans; [exact Hv1|]. destruct Hv1 as (Hm1 & _).
      apply (put_same_balances m1 k a); [done|unfold account_or_new; by rewrite Ha|done].
    + unfold nonce_advance. destruct (ix_accounts ix) as [|au [|k rest]]; [done..|].
      rewrite and_then_Ok. intros ([a st] & Hn & Hr). apply nonce_of_Ok in Hn as (Ha & _).
      apply guard_Ok in Hr as [_ Hr]. apply and_then_Ok in Hr as (nd & _ & [= <-]). by apply set_data_value.
    + unfold nonce_withdraw. destruct (ix_accounts ix) as [|au [|k [|r rest]]]; [done..|].
      rewrite guard_Ok, and_then_Ok. intros (_ & [a st] & Hn & Hr). apply nonce_of_Ok in Hn as (Ha & _).
      apply guard_Ok in Hr as [_ Hr]. apply guard_Ok in Hr as [_ Hr].
      destruct (ac_spores a <=? _).
      * apply and_then_Ok in Hr as (m1 & Ht & [= <-]).
        destruct (transfer_ok k r (ac_spores a) m m1 Hm) as [Hv1 _]; [destruct (Hm k a Ha); lia|done|].
        etrans; [exact Hv1|]. destruct Hv1 as (Hm1 & _). by eapply put_same_balances.
      * by apply (transfer_ok k r _ m m' Hm (u64_at_nonneg _ 2 Hd)).
    + unfold nonce_authorize. destruct (ix_accounts ix) as [|au [|k rest]]; [done..|].
      rewrite guard_Ok, and_then_Ok. intros (_ & [a st] & Hn & Hr). apply nonce_of_Ok in Hn as (Ha & _).
      apply guard_Ok in Hr as [_ Hr]. apply and_then_Ok in Hr as (nd & _ & [= <-]). by apply set_data_value.
Qed.

(** ** A nonce is used once *)

Context {codec_ok : NonceCodecLaws}.

(** The account of [k] holds no nonce older than the last block. *)
Definition spent (k : Pubkey) (m : Accounts) : Prop :=
  exists a, m !! k = Some a
    /\ forall st, decode_nonce_state (ac_data a) = Ok st -> ns_blockhash st = last_blockhash.

Lemma decode_encode_nonce s data : encode_nonce_state s = Ok data -> decode_nonce_state data = Ok s.
Proof using codec_ok.
  unfold encode_nonce_state. rewrite or_err_Ok. intros (l & Hl & [= <-]).
  cbn [decode_nonce_state]. by rewrite Z.eqb_refl, (nonce_of_nonce_bytes s l Hl).
Qed.

Lemma spent_data k m m' : keeps_data m m' -> spent k m -> spent k m'.
Proof using Type.
  intros Hd (a & Ha & Hs). destruct (Hd k a Ha) as (a' & Ha' & E). exists a'. split; [done|].
  by rewrite E.
Qed.

Lemma spent_insert k j a m :
  (j = k -> forall st, decode_nonce_state (ac_data a) = Ok st -> ns_blockhash st = last_blockhash) ->
  spent k m -> spent k (<[j := a]> m).
Proof using Type.
  intros Hj (b & Hb & Hs). destruct (decide (j = k)) as [->|Hne].
  - exists a. rewrite lookup_insert_eq. auto.
  - exists b. by rewrite lookup_insert_ne.
Qed.

Lemma native_op_spent k op ix m m' :
  Forall is_byte (ix_data ix) -> accounts_ok m -> spent k m ->
  native_op op ix m = Ok m' -> spent k m'.
Proof using codec_ok.
  intros Hd Hm Hk. destruct op as [|opcode| |]; cbn [native_op].
  - intros Ht. by apply (spent_data k m m'); [apply (system_transfer_ok ix m m')|].
  - unfold treasury_transfer. destruct (ix_accounts ix) as [|sender rest] eqn:E.
    + intros Ht. by apply (spent_data k m m'); [apply (system_transfer_ok ix m m')|].
    + intros [_ Ht]%guard_Ok. by apply (spent_data k m m'); [apply (system_transfer_ok ix m m')|].
  - unfold system_create_account. rewrite or_err_Ok. intros (j & _ & Hr).
    apply guard_Ok in Hr as [_ [= <-]]. by apply spent_insert.
  - unfold system_nonce. destruct (ix_data ix) as [|o [|sub data]] eqn:Hdata; [done..|].
    rewrite <- Hdata in Hd. destruct (sub =? 0); [|destruct (sub =? 1); [|destruct (sub =? 2); [|destruct (sub =? 3); [|done]]]].
    + unfold nonce_initialize. destruct (ix_accounts ix) as [|f [|j rest]]; [done..|].
      rewrite guard_Ok, guard_Ok, or_err_Ok. intros (_ & Hj & fa & _ & Hr). apply guard_Ok in Hr as [_ Hr].
      apply and_then_Ok in Hr as (nd & _ & Hr). apply and_then_Ok in Hr as (m1 & Ht & Hr).
      apply or_err_Ok in Hr as (a & Ha & [= <-]). apply bool_decide_eq_false in Hj.
      apply spent_insert; [|by eapply (spent_data k m m1); [eapply (transfer_ok f j NONCE_ACCOUNT_MIN_BALANCE)|]].
      intros ->. destruct Hk as (b & Hb & _). by destruct Hj.
    + unfold nonce_advance. destruct (ix_accounts ix) as [|au [|j rest]]; [done..|].
      rewrite and_then_Ok. intros ([a st] & Hn & Hr). apply guard_Ok in Hr as [_ Hr].
      apply and_then_Ok in Hr as (nd & He & [= <-]). apply spent_insert; [|done].
      intros _ st'. simpl. rewrite (decode_encode_nonce _ _ He). by intros [= <-].
    + unfold nonce_withdraw. destruct (ix_accounts ix) as [|au [|j [|r rest]]]; [done..|].
      rewrite guard_Ok, and_then_Ok. intros (_ & [a st] & Hn & Hr). apply nonce_of_Ok in Hn as (Ha & _).
      apply guard_Ok in Hr as [_ Hr]. apply guard_Ok in Hr as [_ Hr].
      destruct (ac_spores a <=? _).
      * apply and_then_Ok in Hr as (m1 & Ht & [= <-]). apply spent_insert; [by intros _ st'|].
        eapply (spent_data k m m1); [|done]. eapply (transfer_ok j r (ac_spores a)); [done|destruct (Hm j a Ha); lia|done].
      * eapply (spent_data k m m'); [|done]. eapply (transfer_ok j r _ m m' Hm (u64_at_nonneg _ 2 Hd)). done.
    + unfold nonce_authorize. destruct (ix_accounts ix) as [|au [|j rest]]; [done..|].
      rewrite guard_Ok, and_then_Ok. intros (_ & [a st] & Hn & Hr). apply nonce_of_Ok in Hn as (Ha & Hst & _).
      apply guard_Ok in Hr as [_ Hr]. apply and_then_Ok in Hr as (nd & He & [= <-]).
      apply spent_insert; [|done]. intros -> st'. simpl. rewrite (decode_encode_nonce _ _ He).
      intros [= <-]. simpl. destruct Hk as (b & Hb & Hs). apply Hs. congruence.
Qed.

(** A sequence of native instructions; one that fails changes nothing. *)
Definition native_run (ops : list (NativeOp * Instruction)) (m : Accounts) : Accounts :=
  foldl (fun m op => match native_op op.1 op.2 m with Ok m' => m' | Err _ => m end) m ops.

Lemma native_run_spent k ops m :
  Forall (fun op => Forall is_byte (ix_data op.2)) ops -> accounts_ok m -> spent k m ->
  accounts_ok (native_run ops m) /\ spent k (native_run ops m).
Proof using codec_ok.
  intros Hops. revert m. induction Hops as [|[op ix] ops Hd _ IH]; intros m Hm Hk; [done|].
  cbn [native_run foldl fst snd]. destruct (native_op op ix m) as [m1|e] eqn:Hop; [|by apply IH].
  apply IH; [by apply (native_op_value op ix m m1)|by apply (native_op_spent k op ix m m1)].
Qed.

(** An advance sets the stored hash, and fails on a spent nonce. *)
Lemma advance_spends authority k rest data m m' :
  nonce_advance last_blockhash (mkInstruction SYSTEM_PROGRAM_ID (authority :: k :: rest) data) m = Ok m' ->
  spent k m' /\ exists a st, m !! k = Some a /\ decode_nonce_state (ac_data a) = Ok st
                            /\ ns_blockhash st <> last_blockhash.
Proof using codec_ok.
  unfold nonce_advance. cbn [ix_accounts]. rewrite and_then_Ok. intros ([a st] & Hn & Hr).
  apply nonce_of_Ok in Hn as (Ha & Hst & _). apply guard_Ok in Hr as [Hne Hr].
  apply and_then_Ok in Hr as (nd & He & [= <-]). apply Z.eqb_neq in Hne. split.
  - exists (set_ac_data nd a). rewrite lookup_insert_eq. split; [done|]. intros st'. simpl.
    rewrite (decode_encode_nonce _ _ He). by intros [= <-].
  - exists a, st. auto.
Qed.

Lemma spent_stops authority k rest data m :
  spent k m ->
  is_ok (nonce_advance last_blockhash (mkInstruction SYSTEM_PROGRAM_ID (authority :: k :: rest) data) m) = false.
Proof using Type.
  intros (a & Ha & Hs). unfold nonce_advance. cbn [ix_accounts].
  destruct (nonce_of authority k m) as [[b st]|e] eqn:Hn; [|done]. cbn [and_then].
  apply nonce_of_Ok in Hn as (Hb & Hst & _). rewrite Ha in Hb. injection Hb as <-.
  by rewrite (Hs st Hst), Z.eqb_refl.
Qed.
End native.

(** ** Properties *)

(** A durable nonce is used once.  After an advance of a nonce, whatever transfers,
    account creations and nonce instructions follow in the block (failed ones included), no
    further advance of that nonce succeeds, so a second transaction of the block that names
    it fails at its first instruction; and the transaction that was admitted by the stored
    hash is not admitted again. *)
Theorem nonce_single_use `{NonceCodecLaws} blocked governed treasury last_blockhash
  authority k rest data m m1 ops tx :
  accounts_ok m -> Forall is_byte data ->
  Forall (fun op => Forall is_byte (ix_data op.2)) ops ->
  nonce_advance last_blockhash (mkInstruction SYSTEM_PROGRAM_ID (authority :: k :: rest) data) m = Ok m1 ->
  let m2 := native_run blocked governed treasury last_blockhash ops m1 in
  accounts_ok m2
  /\ (forall authority' rest' data',
        is_ok (nonce_advance last_blockhash
                 (mkInstruction SYSTEM_PROGRAM_ID (authority' :: k :: rest') data') m2) = false)
  /\ (head (msg_instructions (tx_message tx))
        = Some (mkInstruction SYSTEM_PROGRAM_ID (authority :: k :: rest) data) ->
      check_durable_nonce tx m = true -> check_durable_nonce tx m2 = false).
Proof.
  intros Hm Hdata Hops Hadv m2.
  assert (accounts_ok m1) as Hm1.
  { unfold nonce_advance in Hadv. cbn [ix_accounts] in Hadv. apply and_then_Ok in Hadv as ([a st] & Hn & Hr).
    apply nonce_of_Ok in Hn as (Ha & _). apply guard_Ok in Hr as [_ Hr].
    apply and_then_Ok in Hr as (nd & _ & [= <-]). by apply set_data_value. }
  destruct (advance_spends last_blockhash _ _ _ _ _ _ Hadv) as (Hsp & a & st & Ha & Hst & Hne).
  destruct (native_run_spent blocked governed treasury last_blockhash k ops m1 Hops Hm1 Hsp) as [Hok Hsp2].
  split_and!; [done|intros; by apply spent_stops|]. intros Hhead Hcheck.
  unfold check_durable_nonce in *.
  destruct (msg_instructions (tx_message tx)) as [|ix ixs]; [done|]. injection Hhead as ->.
  cbn [ix_program_id ix_data ix_accounts] in *. apply andb_true_iff in Hcheck as [Hg Hcheck].
  rewrite Hg. cbn [andb lookup list_lookup] in *. destruct Hsp2 as (a2 & Ha2 & Hs2). fold m2 in Ha2.
  rewrite Ha, Hst in Hcheck. apply Z.eqb_eq in Hcheck. rewrite Ha2.
  destruct (decode_nonce_state (ac_data a2)) as [st2|] eqn:Hd2; [|done].
  apply Z.eqb_neq. rewrite (Hs2 st2 eq_refl). congruence.
Qed.

(** A serializer that spells the authority and the hash. *)
Module ToyNonce.
#[export] Instance codec : NonceCodec := {|
  nonce_bytes s := Some [ns_authority s; ns_blockhash s; ns_fee_per_signature s];
  nonce_of_bytes l := match l with [a; h; f] => Some (mkNonceState a h f) | _ => None end;
|}.
#[export] Instance codec_laws : NonceCodecLaws.
Proof. split. intros [a h f] l [= <-]. done. Qed.

Definition free (_ : Pubkey) (_ : TransferDirection) (_ _ : Z) : bool := false.
Definition none (_ : Pubkey) : bool := false.
Definition advance : Instruction := mkInstruction SYSTEM_PROGRAM_ID [5; 6] [28; 1].
Definition nonce_account : Account :=
  mkAccount 10000000 10000000 0 0 [218; 5; 77; 1000000] None 0 false 0 false 0.
Definition accounts : Accounts := {[5 := Account_new 3 5; 6 := nonce_account]}.
Definition durable : Transaction := mkTransaction [] (Message_new [advance] 77) Native.
(** A change of authority and a second advance follow. *)
Definition ops : list (NativeOp * Instruction) :=
  [(NNonce, mkInstruction SYSTEM_PROGRAM_ID [5; 6] ([28; 3] ++ replicate 31 0 ++ [9])); (NNonce, advance)].
Definition advanced : Accounts :=
  match nonce_advance 88 advance accounts with Ok m => m | Err _ => accounts end.

Lemma nonce_single_use_witness :
  check_durable_nonce durable accounts = true
  /\ check_durable_nonce durable (native_run free none None 88 ops advanced) = false.
Proof.
  split; [by vm_compute|].
  refine (proj2 (proj2 (nonce_single_use free none None 88 5 6 [] [28; 1] accounts advanced ops durable
    _ _ _ _)) _ _); try (by vm_compute).
  - apply map_Forall_insert_2; [split; vm_compute; congruence|].
    apply map_Forall_insert_2; [split; vm_compute; congruence|]. apply map_Forall_empty.
  - repeat constructor; unfold is_byte; lia.
  - repeat constructor; unfold is_byte; simpl; lia.
Defined.
End ToyNonce.
