(* ===== verification/Restrictions.v ===== *)
(** * Restrictions

    Models [core/src/restrictions.rs], the restriction tables of
    [core/src/state/restriction_state.rs] and the checks of
    [core/src/state/batch_state.rs] and [core/src/processor/system_extended.rs] that read
    them: freezes of accounts, assets, contracts, code, bridge routes and protocol modules.

    - the three RocksDB column families are a map of records and two sets of index keys; a
      scan visits the keys of a set in lexicographic order from a given key, as the
      documentation of the store's iterator says;
    - a block executes on a batch: overlays over the tables, written to them by the commit;
    - a [BTreeSet<u64>] is a [gset Z] visited in ascending order; a string is its bytes. *)

From S2P Require Import Prelude Crypto Block Account Transactions Fees Transfers StakingV2.
From stdpp Require Import base tactics numbers list gmap sorting strings.
From Stdlib Require Import ZArith Lia.

Local Open Scope Z_scope.
Local Open Scope rust_scope.

(** ** Data *)

Definition GUARDIAN_RESTRICTION_MAX_SLOTS : Z := 648000.
Definition MAX_BRIDGE_ROUTE_COMPONENT_LEN : Z := 256.

(** The bytes of [LICN_NATIVE_ASSET_ID_V1], padded with zeros. *)
Definition NATIVE_LICN_ASSET_ID : Pubkey :=
  le_value (reverse (str_bytes "LICN_NATIVE_ASSET_ID_V1" ++ replicate 9 0)).

Inductive ProtocolModuleId :=
| ModNative | ModGovernance | ModStaking | ModMossStake | ModShielded | ModContracts | ModTokens
| ModDex | ModLending | ModMarketplace | ModBridge | ModCustody | ModOracle | ModValidator | ModMempool.

#[global] Instance ProtocolModuleId_eq_dec : EqDecision ProtocolModuleId.
Proof. solve_decision. Defined.

Definition ProtocolModuleId_from_u8 (value : Z) : option ProtocolModuleId :=
  match value with
  | 0 => Some ModNative | 1 => Some ModGovernance | 2 => Some ModStaking | 3 => Some ModMossStake
  | 4 => Some ModShielded | 5 => Some ModContracts | 6 => Some ModTokens | 7 => Some ModDex
  | 8 => Some ModLending | 9 => Some ModMarketplace | 10 => Some ModBridge | 11 => Some ModCustody
  | 12 => Some ModOracle | 13 => Some ModValidator | 14 => Some ModMempool
  | _ => None
  end.

Definition ProtocolModuleId_as_u8 (m : ProtocolModuleId) : Z :=
  match m with
  | ModNative => 0 | ModGovernance => 1 | ModStaking => 2 | ModMossStake => 3 | ModShielded => 4
  | ModContracts => 5 | ModTokens => 6 | ModDex => 7 | ModLending => 8 | ModMarketplace => 9
  | ModBridge => 10 | ModCustody => 11 | ModOracle => 12 | ModValidator => 13 | ModMempool => 14
  end.

Inductive RestrictionTarget :=
| TAccount (account : Pubkey)
| TAccountAsset (account asset : Pubkey)
| TAsset (asset : Pubkey)
| TContract (contract : Pubkey)
| TCodeHash (hash : Hash)
| TBridgeRoute (chain_id asset : bytes)
| TProtocolModule (module : ProtocolModuleId).

#[global] Instance RestrictionTarget_eq_dec : EqDecision RestrictionTarget.
Proof. solve_decision. Defined.

Definition target_type_id (t : RestrictionTarget) : Z :=
  match t with
  | TAccount _ => 0 | TAccountAsset _ _ => 1 | TAsset _ => 2 | TContract _ => 3
  | TCodeHash _ => 4 | TBridgeRoute _ _ => 5 | TProtocolModule _ => 6
  end.

(** [(s.len() as u16).to_be_bytes()] followed by the bytes of [s]. *)
Definition sized (s : bytes) : bytes := be_bytes 2 (Z.of_nat (length s)) ++ s.

Definition canonical_key (t : RestrictionTarget) : bytes :=
  target_type_id t ::
  match t with
  | TAccount k | TAsset k | TContract k | TCodeHash k => be_bytes 32 k
  | TAccountAsset account asset => be_bytes 32 account ++ be_bytes 32 asset
  | TBridgeRoute chain_id asset => sized chain_id ++ sized asset
  | TProtocolModule module => [ProtocolModuleId_as_u8 module]
  end.

Definition target_code_hash (t : RestrictionTarget) : option Hash :=
  match t with TCodeHash h => Some h | _ => None end.

Inductive RestrictionMode :=
| OutgoingOnly | IncomingOnly | Bidirectional | FrozenAmount (amount : Z) | AssetPaused
| ExecuteBlocked | StateChangingBlocked | Quarantined | DeployBlocked | RoutePaused
| ProtocolPaused | Terminated.

#[global] Instance RestrictionMode_eq_dec : EqDecision RestrictionMode.
Proof. solve_decision. Defined.

Definition RestrictionMode_from_u8 (value : Z) (frozen_amount : option Z) : option RestrictionMode :=
  match value with
  | 0 => Some OutgoingOnly | 1 => Some IncomingOnly | 2 => Some Bidirectional
  | 3 => FrozenAmount <$> frozen_amount
  | 4 => Some AssetPaused | 5 => Some ExecuteBlocked | 6 => Some StateChangingBlocked
  | 7 => Some Quarantined | 8 => Some DeployBlocked | 9 => Some RoutePaused
  | 10 => Some ProtocolPaused | 11 => Some Terminated
  | _ => None
  end.

Inductive RestrictionStatus := SActive | SExpired | SLifted | SSuperseded.

#[global] Instance RestrictionStatus_eq_dec : EqDecision RestrictionStatus.
Proof. solve_decision. Defined.

Inductive RestrictionReason :=
| ExploitActive | StolenFunds | BridgeCompromise | OracleCompromise | ScamContract
| MaliciousCodeHash | SanctionsOrLegalOrder | PhishingOrImpersonation | CustodyIncident
| ProtocolBug | GovernanceErrorCorrection | FalsePositiveLift | TestnetDrill.

Definition RestrictionReason_from_u8 (value : Z) : option RestrictionReason :=
  match value with
  | 0 => Some ExploitActive | 1 => Some StolenFunds | 2 => Some BridgeCompromise
  | 3 => Some OracleCompromise | 4 => Some ScamContract | 5 => Some MaliciousCodeHash
  | 6 => Some SanctionsOrLegalOrder | 7 => Some PhishingOrImpersonation | 8 => Some CustodyIncident
  | 9 => Some ProtocolBug | 10 => Some GovernanceErrorCorrection | 11 => Some FalsePositiveLift
  | 12 => Some TestnetDrill
  | _ => None
  end.

Definition requires_evidence (r : RestrictionReason) : bool :=
  match r with TestnetDrill => false | _ => true end.

Inductive RestrictionLiftReason :=
| IncidentResolved | FalsePositive | EvidenceRejected | GovernanceOverride | ExpiredCleanup
| TestnetDrillComplete.

Definition RestrictionLiftReason_from_u8 (value : Z) : option RestrictionLiftReason :=
  match value with
  | 0 => Some IncidentResolved | 1 => Some FalsePositive | 2 => Some EvidenceRejected
  | 3 => Some GovernanceOverride | 4 => Some ExpiredCleanup | 5 => Some TestnetDrillComplete
  | _ => None
  end.

Record RestrictionRecord := mkRestrictionRecord {
  rr_id : Z;
  rr_target : RestrictionTarget;
  rr_mode : RestrictionMode;
  rr_status : RestrictionStatus;
  rr_reason : RestrictionReason;
  rr_evidence_hash : option Hash;
  rr_evidence_uri_hash : option Hash;
  rr_proposer : Pubkey;
  rr_authority : Pubkey;
  rr_approval_authority : option Pubkey;
  rr_created_slot : Z;
  rr_created_epoch : Z;
  rr_expires_at_slot : option Z;
  rr_supersedes : option Z;
  rr_lifted_by : option Pubkey;
  rr_lifted_slot : option Z;
  rr_lift_reason : option RestrictionLiftReason;
}.

Definition eta_RestrictionRecord (r : RestrictionRecord) : RestrictionRecord :=
  mkRestrictionRecord (rr_id r) (rr_target r) (rr_mode r) (rr_status r) (rr_reason r)
    (rr_evidence_hash r) (rr_evidence_uri_hash r) (rr_proposer r) (rr_authority r)
    (rr_approval_authority r) (rr_created_slot r) (rr_created_epoch r) (rr_expires_at_slot r)
    (rr_supersedes r) (rr_lifted_by r) (rr_lifted_slot r) (rr_lift_reason r).
Definition set_rr_status : RestrictionStatus -> RestrictionRecord -> RestrictionRecord :=
  ltac:(setter eta_RestrictionRecord rr_status).
Definition set_rr_lifted_by : option Pubkey -> RestrictionRecord -> RestrictionRecord :=
  ltac:(setter eta_RestrictionRecord rr_lifted_by).
Definition set_rr_lifted_slot : option Z -> RestrictionRecord -> RestrictionRecord :=
  ltac:(setter eta_RestrictionRecord rr_lifted_slot).
Definition set_rr_lift_reason : option RestrictionLiftReason -> RestrictionRecord -> RestrictionRecord :=
  ltac:(setter eta_RestrictionRecord rr_lift_reason).

(** ** Validation *)

Inductive RestrictionError :=
| RouteEmpty
| RouteTooLong (len : Z)
| FrozenZero
| ModeForTarget (mode : RestrictionMode) (target : RestrictionTarget)
| IdZero
| EvidenceRequired (reason : RestrictionReason)
| ExpiryNotAfterCreation
| UnexpectedLiftMetadata (status : RestrictionStatus)
| LiftMetadataRequired
| LiftBeforeCreation
| TargetChanged (id : Z)
| RestrictionCounterOverflow.

Definition zlen (s : bytes) : Z := Z.of_nat (length s).

Definition target_validate (t : RestrictionTarget) : result unit RestrictionError :=
  match t with
  | TBridgeRoute chain_id asset =>
      if zlen chain_id =? 0 then Err RouteEmpty
      else if zlen asset =? 0 then Err RouteEmpty
      else if MAX_BRIDGE_ROUTE_COMPONENT_LEN <? zlen chain_id then Err (RouteTooLong (zlen chain_id))
      else if MAX_BRIDGE_ROUTE_COMPONENT_LEN <? zlen asset then Err (RouteTooLong (zlen asset))
      else Ok tt
  | _ => Ok tt
  end.

Definition mode_validate (m : RestrictionMode) : result unit RestrictionError :=
  match m with
  | FrozenAmount amount => if amount =? 0 then Err FrozenZero else Ok tt
  | _ => Ok tt
  end.

Definition target_mode_valid (t : RestrictionTarget) (m : RestrictionMode) : bool :=
  match t, m with
  | TAccount _, (OutgoingOnly | IncomingOnly | Bidirectional)
  | TAccountAsset _ _, (OutgoingOnly | IncomingOnly | Bidirectional | FrozenAmount _)
  | TAsset _, AssetPaused
  | TContract _, (ExecuteBlocked | StateChangingBlocked | Quarantined | Terminated)
  | TCodeHash _, DeployBlocked
  | TBridgeRoute _ _, RoutePaused
  | TProtocolModule _, ProtocolPaused => true
  | _, _ => false
  end.

Definition validate_target_mode (t : RestrictionTarget) (m : RestrictionMode)
  : result unit RestrictionError :=
  if target_mode_valid t m then Ok tt else Err (ModeForTarget m t).

Definition is_some {A} (o : option A) : bool := match o with Some _ => true | None => false end.

Definition RestrictionRecord_validate (r : RestrictionRecord) : result unit RestrictionError :=
  if rr_id r =? 0 then Err IdZero
  else
    let? _ := target_validate (rr_target r) in
    let? _ := mode_validate (rr_mode r) in
    let? _ := validate_target_mode (rr_target r) (rr_mode r) in
    if requires_evidence (rr_reason r) && negb (is_some (rr_evidence_hash r))
       && negb (is_some (rr_evidence_uri_hash r))
    then Err (EvidenceRequired (rr_reason r))
    else if match rr_expires_at_slot r with Some e => e <=? rr_created_slot r | None => false end
    then Err ExpiryNotAfterCreation
    else
      match rr_status r with
      | SActive | SExpired | SSuperseded =>
          if is_some (rr_lifted_by r) || is_some (rr_lifted_slot r) || is_some (rr_lift_reason r)
          then Err (UnexpectedLiftMetadata (rr_status r)) else Ok tt
      | SLifted =>
          if negb (is_some (rr_lifted_by r)) || negb (is_some (rr_lifted_slot r))
             || negb (is_some (rr_lift_reason r))
          then Err LiftMetadataRequired
          else if default 0 (rr_lifted_slot r) <? rr_created_slot r then Err LiftBeforeCreation
          else Ok tt
      end.

Definition effective_status (slot : Z) (r : RestrictionRecord) : RestrictionStatus :=
  match rr_status r, rr_expires_at_slot r with
  | SActive, Some expires => if expires <=? slot then SExpired else SActive
  | s, _ => s
  end.

Definition is_effectively_active (slot : Z) (r : RestrictionRecord) : bool :=
  bool_decide (effective_status slot r = SActive).

Inductive ContractRestrictionAccess := ReadOnly | StateChanging.

Definition transferable_after_frozen_amount (spendable frozen_amount : Z) : Z :=
  sat_sub spendable frozen_amount.

Definition restriction_mode_blocks_transfer (mode : RestrictionMode) (direction : TransferDirection)
  (amount spendable : Z) : bool :=
  match mode, direction with
  | OutgoingOnly, OutgoingTransfer | IncomingOnly, IncomingTransfer | Bidirectional, _ => true
  | FrozenAmount frozen, OutgoingTransfer => transferable_after_frozen_amount spendable frozen <? amount
  | _, _ => false
  end.

Definition contract_record_blocks (access : ContractRestrictionAccess) (r : RestrictionRecord) : bool :=
  match rr_mode r, access with
  | (ExecuteBlocked | Quarantined | Terminated), _ | StateChangingBlocked, StateChanging => true
  | _, _ => false
  end.

(** ** Tables

    [CF_RESTRICTIONS], [CF_RESTRICTION_INDEX_TARGET], [CF_RESTRICTION_INDEX_CODE_HASH] and
    the counter of [CF_STATS]. *)

Record RestrictionDb := mkRestrictionDb {
  db_records : gmap Z RestrictionRecord;
  db_target_index : gset bytes;
  db_code_index : gset bytes;
  db_counter : Z;
}.

Definition index_key (prefix : bytes) (id : Z) : bytes := prefix ++ be_bytes 8 id.

Definition restriction_id_from_key (key : bytes) : Z := le_value (reverse key).

(** The order of the keys of a column family. *)
Fixpoint lex_leb (a b : bytes) : bool :=
  match a, b with
  | [], _ => true
  | _ :: _, [] => false
  | x :: a, y :: b => if x <? y then true else if y <? x then false else lex_leb a b
  end.
Definition lex_le (a b : bytes) : Prop := lex_leb a b = true.

#[global] Instance lex_le_dec a b : Decision (lex_le a b).
Proof. unfold lex_le. apply _. Defined.

(** [db.iterator_cf(cf, IteratorMode::From(prefix, Direction::Forward))] *)
Definition iterator_from (index : gset bytes) (prefix : bytes) : list bytes :=
  filter (lex_le prefix) (merge_sort lex_le (elements index)).

Fixpoint ids_loop (prefix : bytes) (keys : list bytes) (ids : gset Z) : gset Z :=
  match keys with
  | [] => ids
  | key :: keys =>
      if negb (starts_with prefix key) then ids
      else
        ids_loop prefix keys
          (if (length key =? length prefix + 8)%nat
           then {[restriction_id_from_key (drop (length prefix) key)]} ∪ ids else ids)
  end.

Definition ids_from_index (index : gset bytes) (prefix : bytes) : gset Z :=
  ids_loop prefix (iterator_from index prefix) ∅.

Definition target_ids_from_db (db : RestrictionDb) (t : RestrictionTarget) : gset Z :=
  ids_from_index (db_target_index db) (canonical_key t).
Definition code_hash_ids_from_db (db : RestrictionDb) (h : Hash) : gset Z :=
  ids_from_index (db_code_index db) (be_bytes 32 h).

(** ** Batches

    The writes a batch collects, in order, and the overlays that make them visible to the
    rest of the block. *)

Inductive RestrictionWrite :=
| PutRecord (id : Z) (r : RestrictionRecord)
| PutTargetKey (key : bytes)
| PutCodeKey (key : bytes)
| PutCounter (next : Z).

Record RestrictionBatch := mkRestrictionBatch {
  rb_db : RestrictionDb;
  rb_writes : list RestrictionWrite;
  rb_overlay : gmap Z RestrictionRecord;
  rb_target_overlay : gmap bytes (gset Z);
  rb_code_overlay : gmap Hash (gset Z);
  rb_counter : option Z;
}.

Definition apply_write (db : RestrictionDb) (w : RestrictionWrite) : RestrictionDb :=
  match w with
  | PutRecord id r =>
      mkRestrictionDb (<[id := r]> (db_records db)) (db_target_index db) (db_code_index db) (db_counter db)
  | PutTargetKey key =>
      mkRestrictionDb (db_records db) ({[key]} ∪ db_target_index db) (db_code_index db) (db_counter db)
  | PutCodeKey key =>
      mkRestrictionDb (db_records db) (db_target_index db) ({[key]} ∪ db_code_index db) (db_counter db)
  | PutCounter next =>
      mkRestrictionDb (db_records db) (db_target_index db) (db_code_index db) next
  end.

Definition begin_batch (db : RestrictionDb) : RestrictionBatch := mkRestrictionBatch db [] ∅ ∅ ∅ None.
Definition commit_batch (b : RestrictionBatch) : RestrictionDb := foldl apply_write (rb_db b) (rb_writes b).

(** [entry(key).or_default().insert(id)] *)
Definition add_id {K} `{Countable K} (key : K) (id : Z) (m : gmap K (gset Z)) : gmap K (gset Z) :=
  <[key := {[id]} ∪ default ∅ (m !! key)]> m.

Definition get_restriction (b : RestrictionBatch) (id : Z) : option RestrictionRecord :=
  match rb_overlay b !! id with
  | Some r => Some r
  | None => db_records (rb_db b) !! id
  end.

Definition next_restriction_id (b : RestrictionBatch) : result (Z * RestrictionBatch) RestrictionError :=
  let current := default (db_counter (rb_db b)) (rb_counter b) in
  or_err (checked_add64 current 1) RestrictionCounterOverflow (fun next =>
  Ok (next, mkRestrictionBatch (rb_db b) (rb_writes b ++ [PutCounter next]) (rb_overlay b)
              (rb_target_overlay b) (rb_code_overlay b) (Some next))).

Definition validate_same_target_on_update (existing : option RestrictionRecord) (r : RestrictionRecord)
  : result unit RestrictionError :=
  match existing with
  | Some e => if bool_decide (rr_target e = rr_target r) then Ok tt else Err (TargetChanged (rr_id r))
  | None => Ok tt
  end.

(** [StateBatch::put_restriction] *)
Definition put_restriction (r : RestrictionRecord) (b : RestrictionBatch)
  : result RestrictionBatch RestrictionError :=
  let? _ := RestrictionRecord_validate r in
  let? _ := validate_same_target_on_update (get_restriction b (rr_id r)) r in
  let target_key := canonical_key (rr_target r) in
  let code := target_code_hash (rr_target r) in
  Ok (mkRestrictionBatch (rb_db b)
        (rb_writes b ++ [PutRecord (rr_id r) r; PutTargetKey (index_key target_key (rr_id r))]
         ++ match code with Some h => [PutCodeKey (index_key (be_bytes 32 h) (rr_id r))] | None => [] end)
        (<[rr_id r := r]> (rb_overlay b))
        (add_id target_key (rr_id r) (rb_target_overlay b))
        (match code with Some h => add_id h (rr_id r) (rb_code_overlay b) | None => rb_code_overlay b end)
        (rb_counter b)).

(** [StateStore::put_restriction] *)
Definition store_put_restriction (r : RestrictionRecord) (db : RestrictionDb)
  : result RestrictionDb RestrictionError :=
  let? _ := RestrictionRecord_validate r in
  let? _ := validate_same_target_on_update (db_records db !! rr_id r) r in
  Ok (mkRestrictionDb (<[rr_id r := r]> (db_records db))
        ({[index_key (canonical_key (rr_target r)) (rr_id r)]} ∪ db_target_index db)
        (match target_code_hash (rr_target r) with
         | Some h => {[index_key (be_bytes 32 h) (rr_id r)]} ∪ db_code_index db
         | None => db_code_index db
         end)
        (db_counter db)).

(** ** Queries

    The store and a batch answer the same queries; what differs is how they look up a record
    and the identifiers of a target. *)

Record RestrictionView := mkRestrictionView {
  view_get : Z -> option RestrictionRecord;
  view_target_ids : RestrictionTarget -> gset Z;
  view_code_ids : Hash -> gset Z;
}.

Definition store_view (db : RestrictionDb) : RestrictionView :=
  mkRestrictionView (fun id => db_records db !! id) (target_ids_from_db db) (code_hash_ids_from_db db).

Definition batch_view (b : RestrictionBatch) : RestrictionView :=
  mkRestrictionView (get_restriction b)
    (fun t => target_ids_from_db (rb_db b) t ∪ default ∅ (rb_target_overlay b !! canonical_key t))
    (fun h => code_hash_ids_from_db (rb_db b) h ∪ default ∅ (rb_code_overlay b !! h)).

Definition ascending (ids : gset Z) : list Z := merge_sort Z.le (elements ids).

(** The loop of [active_effective_records_for_ids], [n] the records found so far. *)
Fixpoint active_loop (get_record : Z -> option RestrictionRecord) (slot : Z) (limit n : nat)
  (ids : list Z) : list RestrictionRecord :=
  match ids with
  | [] => []
  | id :: ids =>
      match get_record id with
      | Some r =>
          if is_effectively_active slot r
          then r :: if (0 <? limit)%nat && (limit <=? S n)%nat then []
                    else active_loop get_record slot limit (S n) ids
          else active_loop get_record slot limit n ids
      | None => active_loop get_record slot limit n ids
      end
  end.

Definition active_effective_records_for_ids (get_record : Z -> option RestrictionRecord)
  (ids : gset Z) (slot : Z) (limit : nat) : list RestrictionRecord :=
  active_loop get_record slot limit 0 (ascending ids).

Section queries.
Variable v : RestrictionView.

Definition get_active_restrictions_for_target (t : RestrictionTarget) (slot : Z) (limit : nat)
  : list RestrictionRecord :=
  active_effective_records_for_ids (view_get v) (view_target_ids v t) slot limit.

Definition is_asset_restricted (asset : Pubkey) (slot : Z) : bool :=
  existsb (fun r => bool_decide (rr_mode r = AssetPaused))
    (get_active_restrictions_for_target (TAsset asset) slot 1).

Definition account_record_blocks (direction : TransferDirection) (amount spendable : Z)
  (r : RestrictionRecord) : bool :=
  restriction_mode_blocks_transfer (rr_mode r) direction amount spendable.

Definition is_account_restricted (account : Pubkey) (direction : TransferDirection)
  (asset : option Pubkey) (amount spendable slot : Z) : bool :=
  existsb (account_record_blocks direction amount spendable)
    (get_active_restrictions_for_target (TAccount account) slot 0)
  || match asset with
     | Some asset =>
         existsb (account_record_blocks direction amount spendable)
           (get_active_restrictions_for_target (TAccountAsset account asset) slot 0)
         || is_asset_restricted asset slot
     | None => false
     end.

Definition is_contract_restricted (contract : Pubkey) (access : ContractRestrictionAccess) (slot : Z) : bool :=
  existsb (contract_record_blocks access) (get_active_restrictions_for_target (TContract contract) slot 0).

Definition is_code_hash_blocked (code_hash : Hash) (slot : Z) : bool :=
  match active_effective_records_for_ids (view_get v) (view_code_ids v code_hash) slot 1 with
  | [] => false
  | _ => true
  end.

Definition is_bridge_route_paused (chain_id asset : bytes) (slot : Z) : bool :=
  existsb (fun r => bool_decide (rr_mode r = RoutePaused))
    (get_active_restrictions_for_target (TBridgeRoute chain_id asset) slot 1).

Definition is_protocol_module_paused (module : ProtocolModuleId) (slot : Z) : bool :=
  existsb (fun r => bool_decide (rr_mode r = ProtocolPaused))
    (get_active_restrictions_for_target (TProtocolModule module) slot 1).

(** [ensure_account_direction_not_restricted] and, for the native asset,
    [ensure_native_transfer_not_restricted]: whether the movement is refused. *)
Definition account_direction_blocked (slot : Z) (account : Pubkey) (direction : TransferDirection)
  (amount spendable : Z) : bool :=
  existsb (fun r => restriction_mode_blocks_transfer (rr_mode r) direction amount spendable)
    (get_active_restrictions_for_target (TAccount account) slot 0).

Definition native_transfer_blocked (slot : Z) (account : Pubkey) (direction : TransferDirection)
  (amount spendable : Z) : bool :=
  account_direction_blocked slot account direction amount spendable
  || existsb (fun r => restriction_mode_blocks_transfer (rr_mode r) direction amount spendable)
       (get_active_restrictions_for_target (TAccountAsset account NATIVE_LICN_ASSET_ID) slot 0).

(** [ensure_protocol_module_not_paused]: whether the operation is refused. *)
Definition protocol_module_blocked (slot : Z) (module : ProtocolModuleId) : bool :=
  existsb (fun r => bool_decide (rr_mode r = ProtocolPaused))
    (get_active_restrictions_for_target (TProtocolModule module) slot 0).
End queries.

(** ** The index scan *)

Lemma starts_with_prefix p k : starts_with p k = true <-> p `prefix_of` k.
Proof.
  unfold starts_with. rewrite bool_decide_eq_true. split.
  - intros H. exists (drop (length p) k). by rewrite <- H at 1; rewrite take_drop.
  - intros [s ->]. by rewrite take_app_length.
Qed.

#[global] Instance lex_le_trans : Transitive lex_le.
Proof.
  unfold lex_le. intros a b c. revert b c. induction a as [|x a IH]; intros [|y b] [|z c]; simpl; try done.
  destruct (Z.ltb_spec x y), (Z.ltb_spec y x), (Z.ltb_spec y z), (Z.ltb_spec z y); try done; try lia;
    intros Hab Hbc; destruct (Z.ltb_spec x z), (Z.ltb_spec z x); try done; try lia. by apply (IH b).
Qed.

#[global] Instance lex_le_total : Total lex_le.
Proof.
  unfold lex_le. intros a. induction a as [|x a IH]; intros [|y b]; simpl; [by left|by left|by right|].
  destruct (Z.ltb_spec x y), (Z.ltb_spec y x); try lia; auto.
Qed.

Lemma prefix_lex_le p k : p `prefix_of` k -> lex_le p k.
Proof. intros [s ->]. unfold lex_le. induction p as [|x p IH]; simpl; [done|]. by rewrite Z.ltb_irrefl. Qed.

(** Keys with a prefix are contiguous: between two of them there is no other key. *)
Lemma lex_between p a b : lex_le p a -> lex_le a b -> p `prefix_of` b -> p `prefix_of` a.
Proof.
  unfold lex_le. revert a b. induction p as [|x p IH]; intros [|y a] [|z b]; simpl; try done;
    try (intros; by apply prefix_nil).
  intros Hp Hab Hb. pose proof (prefix_cons_inv_1 _ _ _ _ Hb) as ->. apply prefix_cons_inv_2 in Hb.
  destruct (Z.ltb_spec z y), (Z.ltb_spec y z); try done; try lia.
  assert (z = y) as -> by lia. by apply prefix_cons, (IH a b).
Qed.

Lemma iterator_from_spec index p :
  StronglySorted lex_le (iterator_from index p)
  /\ forall k, k ∈ iterator_from index p <-> k ∈ index /\ lex_le p k.
Proof.
  unfold iterator_from. split.
  - assert (forall l, StronglySorted lex_le l -> StronglySorted lex_le (filter (lex_le p) l)) as Hf.
    { induction 1 as [|x l Hl IH Hx]; [constructor|]. rewrite filter_cons. destruct (decide _); [|done].
      constructor; [done|]. rewrite Forall_forall in *. intros y [_ Hy]%list_elem_of_filter. by apply Hx. }
    apply Hf, StronglySorted_merge_sort; apply _.
  - intros k. rewrite list_elem_of_filter, merge_sort_Permutation, elem_of_elements. tauto.
Qed.

Lemma ids_loop_spec p keys ids id :
  StronglySorted lex_le keys -> Forall (lex_le p) keys ->
  id ∈ ids_loop p keys ids <->
    id ∈ ids \/ exists k, k ∈ keys /\ p `prefix_of` k /\ length k = (length p + 8)%nat
                       /\ id = restriction_id_from_key (drop (length p) k).
Proof.
  intros Hs. revert ids. induction Hs as [|x l Hl IH Hx]; intros ids Hp; simpl.
  { split; [by left|]. intros [?|(k & Hk & _)]; [done|]. by apply not_elem_of_nil in Hk. }
  apply Forall_cons in Hp as [Hpx Hpl]. destruct (starts_with p x) eqn:Hsw; simpl.
  - apply starts_with_prefix in Hsw. rewrite (IH _ Hpl). setoid_rewrite elem_of_cons.
    destruct (Nat.eqb_spec (length x) (length p + 8)).
    + rewrite elem_of_union, elem_of_singleton. split.
      * intros [[->|?]|(k & ? & ? & ? & ->)]; [right; exists x; auto|by left|right; exists k; auto].
      * intros [?|(k & [->|Hk] & ? & ? & ->)]; [by left; right|by left; left|right; exists k; auto].
    + split; (intros [?|(k & Hk & ? & ? & ->)]; [by left|]).
      * right. exists k. auto.
      * destruct Hk as [->|Hk]; [done|]. right. exists k. auto.
  - split; [by left|]. intros [?|(k & Hk & Hpk & _)]; [done|].
    assert (p `prefix_of` x) as Hpx'.
    { apply elem_of_cons in Hk as [->|Hk]; [done|]. apply (lex_between p x k); [done| |done].
      rewrite Forall_forall in Hx. by apply Hx. }
    apply starts_with_prefix in Hpx'. congruence.
Qed.

Lemma ids_from_index_spec index p id :
  id ∈ ids_from_index index p <->
    exists k, k ∈ index /\ p `prefix_of` k /\ length k = (length p + 8)%nat
           /\ id = restriction_id_from_key (drop (length p) k).
Proof.
  unfold ids_from_index. destruct (iterator_from_spec index p) as [Hs Hk].
  rewrite ids_loop_spec; [|done|apply Forall_forall; intros k; rewrite Hk; tauto].
  setoid_rewrite Hk. split.
  - intros [[]%not_elem_of_empty|(k & [? _] & ? & ? & ->)]. exists k. auto.
  - intros (k & ? & ? & ? & ->). right. exists k. auto using prefix_lex_le.
Qed.

Lemma restriction_id_roundtrip id : is_u64 id -> restriction_id_from_key (be_bytes 8 id) = id.
Proof.
  intros Hid. unfold restriction_id_from_key, be_bytes. rewrite reverse_involutive, le_value_le_bytes.
  apply Z.mod_small. unfold is_u64 in Hid. lia.
Qed.

(** An index whose keys are those of a relation answers with the identifiers related to the
    prefix. *)
Lemma ids_from_index_exact (index : gset bytes) (R : bytes -> Z -> Prop) p id :
  (forall k, k ∈ index <-> exists q i, R q i /\ k = index_key q i) ->
  (forall q i, R q i -> is_u64 i) ->
  id ∈ ids_from_index index p <-> R p id.
Proof.
  intros Hidx Hty. rewrite ids_from_index_spec. split.
  - intros (k & Hk & Hpre & Hlen & ->). apply Hidx in Hk as (q & i & HR & ->).
    unfold index_key in *. rewrite length_app, be_bytes_length in Hlen.
    destruct Hpre as [s Hs]. apply app_inj_1 in Hs as [-> _]; [|lia].
    rewrite drop_app_length, restriction_id_roundtrip by eauto. done.
  - intros HR. exists (index_key p id). split; [apply Hidx; eauto|]. unfold index_key.
    split; [by eexists|]. rewrite length_app, be_bytes_length, drop_app_length.
    split; [done|]. by rewrite restriction_id_roundtrip by eauto.
Qed.

(** ** Canonical keys *)

Definition target_typed (t : RestrictionTarget) : Prop :=
  match t with
  | TAccount k | TAsset k | TContract k | TCodeHash k => is_u256 k
  | TAccountAsset account asset => is_u256 account /\ is_u256 asset
  | _ => True
  end.

Lemma sized_inj a b x y :
  zlen a < 2 ^ 16 -> zlen b < 2 ^ 16 -> sized a ++ x = sized b ++ y -> a = b /\ x = y.
Proof.
  unfold sized, zlen. intros Ha Hb. rewrite <- !(assoc_L (++)). intros [Hl H]%app_inj_1; [|blen].
  apply be_bytes_inj in Hl; [|change (256 ^ Z.of_nat 2) with (2 ^ 16); lia..].
  apply app_inj_1; [lia|done].
Qed.

Lemma module_id_inj m m' : ProtocolModuleId_as_u8 m = ProtocolModuleId_as_u8 m' -> m = m'.
Proof. by destruct m, m'. Qed.

Lemma canonical_key_inj t t' :
  target_typed t -> target_typed t' -> target_validate t = Ok tt ->
  canonical_key t = canonical_key t' -> t = t'.
Proof.
  intros Ht Ht' Hv H. pose proof (f_equal head H) as Htag. apply (f_equal tail) in H.
  unfold canonical_key in H. cbn [tail] in H.
  destruct t, t'; cbn in Htag; try discriminate; cbn [target_typed target_validate] in *;
    try (apply be_bytes32_inj in H; [by subst|done..]).
  - destruct Ht, Ht'. apply app_inj_1 in H as [->%be_bytes32_inj ->%be_bytes32_inj]; [done..|blen].
  - assert (zlen chain_id <= 256 /\ zlen asset <= 256) as [Hc Ha].
    { unfold MAX_BRIDGE_ROUTE_COMPONENT_LEN in Hv.
      repeat match type of Hv with (if ?b then _ else _) = _ => destruct b eqn:?; [done|] end. lia. }
    pose proof (f_equal length H) as Hlen. unfold sized at 1 2 3 4 in Hlen. unfold zlen in *.
    rewrite !length_app, !be_bytes_length in Hlen.
    apply sized_inj in H as [-> H]; [|unfold zlen; lia..].
    rewrite <- (app_nil_r (sized asset)), <- (app_nil_r (sized asset0)) in H.
    apply sized_inj in H as [-> _]; [done|unfold zlen; lia..].
  - injection H as H. apply module_id_inj in H. by subst.
Qed.

(** ** What a view answers

    A view shows the records [m] when it finds each of them by its identifier and by its
    target. *)

Record view_ok (v : RestrictionView) (m : gmap Z RestrictionRecord) : Prop := {
  vo_get id : view_get v id = m !! id;
  vo_target t id :
    target_typed t -> id ∈ view_target_ids v t <-> exists r, m !! id = Some r /\ rr_target r = t;
  vo_code h id :
    is_u256 h -> id ∈ view_code_ids v h <-> exists r, m !! id = Some r /\ rr_target r = TCodeHash h;
  vo_valid id r : m !! id = Some r -> RestrictionRecord_validate r = Ok tt;
}.

(** A record of [m] on the target [t] is in force at [slot]. *)
Definition in_force (m : gmap Z RestrictionRecord) (slot : Z) (t : RestrictionTarget)
  (r : RestrictionRecord) : Prop :=
  exists id, m !! id = Some r /\ rr_target r = t /\ effective_status slot r = SActive.

Lemma active_loop_limit get slot limit n ids :
  (n < limit)%nat -> active_loop get slot limit n ids = take (limit - n) (active_loop get slot 0 n ids).
Proof.
  revert n. induction ids as [|id ids IH]; intros n Hn; simpl; [by rewrite take_nil|].
  destruct (get id) as [r|]; [|by apply IH]. destruct (is_effectively_active slot r); [|by apply IH].
  replace (limit - n)%nat with (S (limit - S n)) by lia. simpl. f_equal.
  rewrite (proj2 (Nat.ltb_lt 0 limit)) by lia. simpl. destruct (Nat.leb_spec limit (S n)).
  - replace (limit - S n)%nat with 0%nat by lia. done.
  - by apply IH.
Qed.

Lemma elem_of_active_loop get slot n ids r :
  r ∈ active_loop get slot 0 n ids <-> exists id, id ∈ ids /\ get id = Some r /\ effective_status slot r = SActive.
Proof.
  revert n. induction ids as [|id ids IH]; intros n; simpl.
  { split; [by intros ?%not_elem_of_nil|by intros (? & ?%not_elem_of_nil & _)]. }
  setoid_rewrite elem_of_cons. destruct (get id) as [r'|] eqn:Hr'; [unfold is_effectively_active; case_bool_decide|].
  - rewrite elem_of_cons, IH. split.
    + intros [->|(i & ? & ? & ?)]; [by exists id; auto|exists i; auto].
    + intros (i & [->|?] & ? & ?); [left; congruence|right; exists i; auto].
  - rewrite IH. split; [intros (i & ? & ? & ?); exists i; auto|].
    intros (i & [->|?] & ? & ?); [congruence|exists i; auto].
  - rewrite IH. split; [intros (i & ? & ? & ?); exists i; auto|].
    intros (i & [->|?] & ? & ?); [congruence|exists i; auto].
Qed.

Lemma existsb_elem {A} (f : A -> bool) l : existsb f l = true <-> exists x, x ∈ l /\ f x = true.
Proof. rewrite existsb_exists. by setoid_rewrite <- list_elem_of_In. Qed.

(** Asking for one record is enough when all of them have the property. *)
Lemma existsb_take_1 {A} (f : A -> bool) l :
  (forall x, x ∈ l -> f x = true) -> existsb f (take 1 l) = true <-> exists x, x ∈ l.
Proof.
  intros Hf. destruct l as [|x l]; simpl.
  - split; [done|by intros (? & ?%not_elem_of_nil)].
  - rewrite (Hf x) by constructor. split; [intros _; exists x; constructor|done].
Qed.

Section view.
Context (v : RestrictionView) (m : gmap Z RestrictionRecord) (Hv : view_ok v m).

Lemma elem_of_ascending ids id : id ∈ ascending ids <-> id ∈ ids.
Proof using Type. unfold ascending. by rewrite merge_sort_Permutation, elem_of_elements. Qed.

Lemma active_for_target_spec t slot r :
  target_typed t -> r ∈ get_active_restrictions_for_target v t slot 0 <-> in_force m slot t r.
Proof using Hv.
  intros Ht. unfold get_active_restrictions_for_target, active_effective_records_for_ids, in_force.
  rewrite elem_of_active_loop. setoid_rewrite elem_of_ascending. setoid_rewrite (vo_get v m Hv).
  split.
  - intros (id & Hid & Hr & Ha). exists id. apply (vo_target v m Hv) in Hid as (r' & Hr' & Htr); [|done].
    split_and!; congruence.
  - intros (id & Hr & Htr & Ha). exists id. rewrite (vo_target v m Hv) by done. eauto.
Qed.

Lemma blocked_spec f t slot :
  target_typed t ->
  existsb f (get_active_restrictions_for_target v t slot 0) = true
  <-> exists r, in_force m slot t r /\ f r = true.
Proof using Hv. intros Ht. rewrite existsb_elem. setoid_rewrite active_for_target_spec; done. Qed.

Lemma in_force_mode slot t r : in_force m slot t r -> target_mode_valid t (rr_mode r) = true.
Proof using Hv.
  intros (id & Hr & <- & _). apply (vo_valid v m Hv) in Hr. unfold RestrictionRecord_validate in Hr.
  apply guard_Ok in Hr as [_ Hr]. apply and_then_Ok in Hr as (_ & _ & Hr).
  apply and_then_Ok in Hr as (_ & _ & Hr). apply and_then_Ok in Hr as (? & Hm & _).
  unfold validate_target_mode in Hm. by destruct (target_mode_valid _ _).
Qed.

(** With one record allowed per query: the mode is determined by the target. *)
Lemma paused_spec mode t slot :
  target_typed t -> (forall md, target_mode_valid t md = true -> md = mode) ->
  existsb (fun r => bool_decide (rr_mode r = mode)) (get_active_restrictions_for_target v t slot 1) = true
  <-> exists r, in_force m slot t r.
Proof using Hv.
  intros Ht Hmode. unfold get_active_restrictions_for_target, active_effective_records_for_ids.
  rewrite active_loop_limit by lia. simpl (1 - 0)%nat.
  change (active_loop (view_get v) slot 0 0 (ascending (view_target_ids v t)))
    with (get_active_restrictions_for_target v t slot 0).
  rewrite existsb_take_1; [by setoid_rewrite active_for_target_spec|].
  intros r Hr. rewrite bool_decide_eq_true. apply Hmode. apply active_for_target_spec in Hr; [|done].
  by apply in_force_mode in Hr.
Qed.

Lemma code_blocked_spec h slot :
  is_u256 h -> is_code_hash_blocked v h slot = true <-> exists r, in_force m slot (TCodeHash h) r.
Proof using Hv.
  intros Hh. unfold is_code_hash_blocked, active_effective_records_for_ids. rewrite active_loop_limit by lia.
  simpl (1 - 0)%nat. set (l := active_loop _ _ _ _ _).
  assert (forall r, r ∈ l <-> in_force m slot (TCodeHash h) r) as Hl.
  { intros r. unfold l. rewrite elem_of_active_loop. setoid_rewrite elem_of_ascending.
    setoid_rewrite (vo_get v m Hv). unfold in_force. split.
    - intros (id & Hid & Hr & Ha). exists id. apply (vo_code v m Hv) in Hid as (r' & Hr' & Htr); [|done].
      split_and!; congruence.
    - intros (id & Hr & Htr & Ha). exists id. rewrite (vo_code v m Hv) by done. eauto. }
  setoid_rewrite <- Hl. destruct l as [|r l']; simpl.
  - split; [done|by intros (? & ?%not_elem_of_nil)].
  - split; [intros _; exists r; constructor|done].
Qed.
End view.

(** ** The tables show their records *)

Definition record_typed (r : RestrictionRecord) : Prop := is_u64 (rr_id r) /\ target_typed (rr_target r).

Definition records_ok (m : gmap Z RestrictionRecord) : Prop :=
  map_Forall (fun id r => rr_id r = id /\ record_typed r /\ RestrictionRecord_validate r = Ok tt) m.

(** The identifiers that the two indexes list under a key. *)
Definition under_target (m : gmap Z RestrictionRecord) (q : bytes) (id : Z) : Prop :=
  exists r, m !! id = Some r /\ q = canonical_key (rr_target r).
Definition under_code (m : gmap Z RestrictionRecord) (q : bytes) (id : Z) : Prop :=
  exists r h, m !! id = Some r /\ rr_target r = TCodeHash h /\ q = be_bytes 32 h.

Definition indexes (index : gset bytes) (R : bytes -> Z -> Prop) : Prop :=
  forall k, k ∈ index <-> exists q i, R q i /\ k = index_key q i.

Record table_ok (db : RestrictionDb) (m : gmap Z RestrictionRecord) : Prop := {
  to_records : db_records db = m;
  to_ok : records_ok m;
  to_target : indexes (db_target_index db) (under_target m);
  to_code : indexes (db_code_index db) (under_code m);
}.

Lemma table_empty : table_ok (mkRestrictionDb ∅ ∅ ∅ 0) ∅.
Proof.
  split; [done|apply map_Forall_empty| |]; intros k; split;
    [by intros ?%not_elem_of_empty|by intros (? & ? & (? & ? & _) & _)
    |by intros ?%not_elem_of_empty|by intros (? & ? & (? & ? & ? & _) & _)].
Qed.

Lemma validate_target r : RestrictionRecord_validate r = Ok tt -> target_validate (rr_target r) = Ok tt.
Proof.
  unfold RestrictionRecord_validate. intros [_ H]%guard_Ok. apply and_then_Ok in H as ([] & H & _). done.
Qed.

Lemma target_ids_spec db m t id :
  table_ok db m -> target_typed t ->
  id ∈ target_ids_from_db db t <-> exists r, m !! id = Some r /\ rr_target r = t.
Proof.
  intros [_ Hok Hi _] Ht. unfold target_ids_from_db.
  rewrite (ids_from_index_exact _ (under_target m)); [|exact Hi|].
  - split; intros (r & Hr & H); exists r; (split; [done|]); [|by rewrite H].
    destruct (Hok id r Hr) as (_ & [_ Htr] & Hval). symmetry in H.
    by apply canonical_key_inj in H; [|done|done|apply validate_target].
  - intros q i (r & Hr & _). destruct (Hok i r Hr) as (<- & [? _] & _). done.
Qed.

Lemma code_ids_spec db m h id :
  table_ok db m -> is_u256 h ->
  id ∈ code_hash_ids_from_db db h <-> exists r, m !! id = Some r /\ rr_target r = TCodeHash h.
Proof.
  intros [_ Hok _ Hi] Hh. unfold code_hash_ids_from_db.
  rewrite (ids_from_index_exact _ (under_code m)); [|exact Hi|].
  - split; [intros (r & h' & Hr & Ht & H); exists r|intros (r & Hr & Ht); exists r, h; done].
    split; [done|]. destruct (Hok id r Hr) as (_ & [_ Htr] & _). rewrite Ht in Htr.
    apply be_bytes32_inj in H; [by subst|done..].
  - intros q i (r & h' & Hr & _). destruct (Hok i r Hr) as (<- & [? _] & _). done.
Qed.

Lemma store_view_ok db m : table_ok db m -> view_ok (store_view db) m.
Proof.
  intros H. split; simpl.
  - intros id. by rewrite (to_records db m H).
  - intros t id Ht. by apply target_ids_spec.
  - intros h id Hh. by apply code_ids_spec.
  - intros id r Hr. by apply (to_ok db m H) in Hr as (_ & _ & ?).
Qed.

(** ** Writing a record *)

Lemma validate_same_target_Ok e r :
  validate_same_target_on_update e r = Ok tt <-> forall r', e = Some r' -> rr_target r' = rr_target r.
Proof.
  unfold validate_same_target_on_update. destruct e as [r'|]; [|done]. case_bool_decide as Hd; split; try done.
  - intros _ ? [= <-]. done.
  - intros H. by destruct Hd; apply H.
Qed.

(** The key of a record that replaces another of the same target is already there or new. *)
Lemma indexes_insert index (R R' : bytes -> Z -> Prop) q0 i0 :
  indexes index R -> (forall q i, R' q i <-> (q = q0 /\ i = i0) \/ R q i) ->
  indexes ({[index_key q0 i0]} ∪ index) R'.
Proof.
  intros Hi HR k. rewrite elem_of_union, elem_of_singleton, (Hi k). split.
  - intros [->|(q & i & ? & ->)]; [exists q0, i0|exists q, i]; (split; [apply HR|done]); auto.
  - intros (q & i & [[-> ->]|?]%HR & ->); [by left|right; eauto].
Qed.

Lemma indexes_same index (R R' : bytes -> Z -> Prop) :
  indexes index R -> (forall q i, R' q i <-> R q i) -> indexes index R'.
Proof. intros Hi HR k. rewrite (Hi k). by setoid_rewrite HR. Qed.

Section put.
Context (m : gmap Z RestrictionRecord) (r : RestrictionRecord).
Hypothesis Hsame : forall r', m !! rr_id r = Some r' -> rr_target r' = rr_target r.

Lemma under_target_insert q i :
  under_target (<[rr_id r := r]> m) q i
  <-> (q = canonical_key (rr_target r) /\ i = rr_id r) \/ under_target m q i.
Proof using Hsame.
  unfold under_target. destruct (decide (i = rr_id r)) as [->|Hne].
  - rewrite lookup_insert_eq. split; [intros (? & [= <-] & ->); by left|].
    intros [[-> _]|(r' & Hr' & ->)]; exists r; [done|]. by rewrite (Hsame r').
  - rewrite lookup_insert_ne by done. split; [by right|]. by intros [[_ ->]|?].
Qed.

Lemma under_code_insert q i :
  under_code (<[rr_id r := r]> m) q i
  <-> (exists h, rr_target r = TCodeHash h /\ q = be_bytes 32 h /\ i = rr_id r) \/ under_code m q i.
Proof using Hsame.
  unfold under_code. destruct (decide (i = rr_id r)) as [->|Hne].
  - rewrite lookup_insert_eq. split; [intros (? & h & [= <-] & ? & ->); left; eauto|].
    intros [(h & ? & -> & _)|(r' & h & Hr' & Ht & ->)]; exists r, h; [done|]. by rewrite <- (Hsame r').
  - rewrite lookup_insert_ne by done. split; [by right|]. by intros [(h & _ & _ & ->)|?].
Qed.

Lemma table_put db :
  table_ok db m -> record_typed r -> RestrictionRecord_validate r = Ok tt ->
  table_ok (mkRestrictionDb (<[rr_id r := r]> (db_records db))
    ({[index_key (canonical_key (rr_target r)) (rr_id r)]} ∪ db_target_index db)
    (match target_code_hash (rr_target r) with
     | Some h => {[index_key (be_bytes 32 h) (rr_id r)]} ∪ db_code_index db
     | None => db_code_index db
     end) (db_counter db)) (<[rr_id r := r]> m).
Proof using Hsame.
  intros [-> Hok Ht Hc] Hty Hval. split; simpl.
  - done.
  - by apply map_Forall_insert_2.
  - eapply indexes_insert; [done|]. apply under_target_insert.
  - pose proof under_code_insert as Hins. destruct (rr_target r) as [| | | |h| |] eqn:Hr; simpl;
      [eapply indexes_same; [done|] ..|eapply indexes_insert; [done|]
      |eapply indexes_same; [done|]|eapply indexes_same; [done|]];
      intros q i; rewrite Hins; naive_solver.
Qed.
End put.

(** ** A batch shows the committed records and its own

    [c] are the committed records, [m] those that the batch shows and that its commit
    leaves. *)

Record batch_ok (b : RestrictionBatch) (c m : gmap Z RestrictionRecord) : Prop := {
  bo_db : table_ok (rb_db b) c;
  bo_commit : table_ok (commit_batch b) m;
  bo_get id : get_restriction b id = m !! id;
  bo_kept id r' : c !! id = Some r' -> exists r, m !! id = Some r /\ rr_target r = rr_target r';
  bo_target k id : id ∈ default ∅ (rb_target_overlay b !! k) -> under_target m k id;
  bo_target_new id r :
    m !! id = Some r -> (exists r', c !! id = Some r' /\ rr_target r' = rr_target r)
    \/ id ∈ default ∅ (rb_target_overlay b !! canonical_key (rr_target r));
  bo_code h id :
    id ∈ default ∅ (rb_code_overlay b !! h) -> exists r, m !! id = Some r /\ rr_target r = TCodeHash h;
  bo_code_new id r h :
    m !! id = Some r -> rr_target r = TCodeHash h ->
    (exists r', c !! id = Some r' /\ rr_target r' = rr_target r) \/ id ∈ default ∅ (rb_code_overlay b !! h);
}.

Lemma begin_batch_ok db c : table_ok db c -> batch_ok (begin_batch db) c c.
Proof.
  intros H. split; simpl; try done; eauto.
  intros id. unfold get_restriction. simpl. rewrite lookup_empty. by rewrite (to_records db c H).
Qed.

Lemma batch_view_ok b c m : batch_ok b c m -> view_ok (batch_view b) m.
Proof.
  intros [Hdb Hcm Hget Hkept Ht Htn Hc Hcn]. pose proof (to_ok _ _ Hcm) as Hok. split; simpl.
  - done.
  - intros t id Hty. rewrite elem_of_union, (target_ids_spec _ c) by done. split.
    + intros [(r' & Hr' & <-)|(r & Hr & Hk)%Ht]; [by apply Hkept|]. exists r. split; [done|].
      destruct (Hok id r Hr) as (_ & [_ ?] & ?%validate_target). symmetry in Hk. by apply canonical_key_inj in Hk.
    + intros (r & Hr & <-). by apply Htn in Hr.
  - intros h id Hh. rewrite elem_of_union, (code_ids_spec _ c) by done. split.
    + intros [(r' & Hr' & E)|?%Hc]; [|done]. destruct (Hkept id r' Hr') as (r & ? & E').
      exists r. by rewrite E'.
    + intros (r & Hr & Ht'). destruct (Hcn id r h Hr Ht') as [(r' & ? & E)|?]; [|by right].
      left. exists r'. by rewrite E.
  - intros id r Hr. by apply Hok in Hr as (_ & _ & ?).
Qed.

Lemma elem_of_add_id {K} `{Countable K} (k k' : K) (i i' : Z) m :
  i' ∈ default ∅ (add_id k i m !! k') <-> (k' = k /\ i' = i) \/ i' ∈ default ∅ (m !! k').
Proof.
  unfold add_id. destruct (decide (k' = k)) as [->|Hne].
  - rewrite lookup_insert_eq. simpl. rewrite elem_of_union, elem_of_singleton. tauto.
  - rewrite lookup_insert_ne by done. naive_solver.
Qed.

(** [in_overlay]: which identifiers a write of [r] adds to the overlay of code hashes. *)
Lemma elem_of_code_overlay (r : RestrictionRecord) m h i :
  i ∈ default ∅ (match target_code_hash (rr_target r) with
                 | Some h => add_id h (rr_id r) m | None => m end !! h)
  <-> (rr_target r = TCodeHash h /\ i = rr_id r) \/ i ∈ default ∅ (m !! h).
Proof. destruct (rr_target r); simpl; rewrite ?elem_of_add_id; naive_solver. Qed.

Lemma commit_put b r :
  commit_batch (mkRestrictionBatch (rb_db b)
    (rb_writes b ++ [PutRecord (rr_id r) r; PutTargetKey (index_key (canonical_key (rr_target r)) (rr_id r))]
     ++ match target_code_hash (rr_target r) with
        | Some h => [PutCodeKey (index_key (be_bytes 32 h) (rr_id r))] | None => [] end)
    (<[rr_id r := r]> (rb_overlay b)) (add_id (canonical_key (rr_target r)) (rr_id r) (rb_target_overlay b))
    (match target_code_hash (rr_target r) with
     | Some h => add_id h (rr_id r) (rb_code_overlay b) | None => rb_code_overlay b end) (rb_counter b))
  = let db := commit_batch b in
    mkRestrictionDb (<[rr_id r := r]> (db_records db))
      ({[index_key (canonical_key (rr_target r)) (rr_id r)]} ∪ db_target_index db)
      (match target_code_hash (rr_target r) with
       | Some h => {[index_key (be_bytes 32 h) (rr_id r)]} ∪ db_code_index db
       | None => db_code_index db
       end) (db_counter db).
Proof. unfold commit_batch. simpl. rewrite foldl_app. by destruct (target_code_hash (rr_target r)). Qed.

Lemma put_restriction_spec b c m r :
  batch_ok b c m -> record_typed r ->
  match put_restriction r b with
  | Ok b' => RestrictionRecord_validate r = Ok tt /\ validate_same_target_on_update (m !! rr_id r) r = Ok tt
             /\ batch_ok b' c (<[rr_id r := r]> m)
  | Err _ => RestrictionRecord_validate r <> Ok tt
             \/ validate_same_target_on_update (m !! rr_id r) r <> Ok tt
  end.
Proof.
  intros [Hdb Hcm Hget Hkept Ht Htn Hc Hcn] Hty. unfold put_restriction. rewrite Hget.
  destruct (RestrictionRecord_validate r) as [[]|e] eqn:Hval; [|by left]. cbn [and_then].
  destruct (validate_same_target_on_update (m !! rr_id r) r) as [[]|e] eqn:Hs; [|by right]. cbn [and_then].
  split_and!; [done|done|]. rewrite validate_same_target_Ok in Hs. split; cbn [rb_db rb_target_overlay rb_code_overlay].
  - done.
  - rewrite commit_put. by apply table_put.
  - intros id. unfold get_restriction. cbn [rb_overlay rb_db]. destruct (decide (id = rr_id r)) as [->|Hne].
    + by rewrite !lookup_insert_eq.
    + rewrite !lookup_insert_ne by done. apply Hget.
  - intros id r' Hr'. destruct (Hkept id r' Hr') as (r0 & Hr0 & E). destruct (decide (id = rr_id r)) as [->|Hne].
    + exists r. rewrite lookup_insert_eq. split; [done|]. rewrite <- E. symmetry. by apply Hs.
    + exists r0. by rewrite lookup_insert_ne.
  - intros k id. rewrite elem_of_add_id, (under_target_insert m r Hs). intros [[-> ->]|?%Ht]; auto.
  - intros id r0. rewrite elem_of_add_id. destruct (decide (id = rr_id r)) as [->|Hne].
    + rewrite lookup_insert_eq. intros [= <-]. auto.
    + rewrite lookup_insert_ne by done. intros [?|?]%Htn; auto.
  - intros h id. rewrite elem_of_code_overlay. intros [[Hh ->]|(r0 & Hr0 & Hh)%Hc].
    + exists r. by rewrite lookup_insert_eq.
    + destruct (decide (id = rr_id r)) as [->|Hne]; [|exists r0; by rewrite lookup_insert_ne].
      exists r. rewrite lookup_insert_eq. split; [done|]. by rewrite <- (Hs r0).
  - intros id r0 h. rewrite elem_of_code_overlay. destruct (decide (id = rr_id r)) as [->|Hne].
    + rewrite lookup_insert_eq. intros [= <-]. auto.
    + rewrite lookup_insert_ne by done. intros Hr0 Hh. destruct (Hcn id r0 h Hr0 Hh); auto.
Qed.

Lemma next_id_ok b c m id b' : batch_ok b c m -> next_restriction_id b = Ok (id, b') -> batch_ok b' c m.
Proof.
  intros [Hdb Hcm Hget Hkept Ht Htn Hc Hcn]. unfold next_restriction_id. rewrite or_err_Ok.
  intros (next & _ & [= <- <-]). split; try done. unfold commit_batch. simpl. rewrite foldl_app. simpl.
  by destruct Hcm.
Qed.

(** ** Runs

    What executing blocks does to the tables: a batch allocates identifiers and writes
    records, and is committed or dropped. *)

Inductive RestrictionOp :=
| RestrictionAllocate
| RestrictionPut (r : RestrictionRecord)
| RestrictionCommit
| RestrictionDrop.

Definition restriction_step (b : RestrictionBatch) (op : RestrictionOp) : RestrictionBatch :=
  match op with
  | RestrictionAllocate => match next_restriction_id b with Ok (_, b') => b' | Err _ => b end
  | RestrictionPut r => match put_restriction r b with Ok b' => b' | Err _ => b end
  | RestrictionCommit => begin_batch (commit_batch b)
  | RestrictionDrop => begin_batch (rb_db b)
  end.

(** The specification: a map of committed records and a map of current ones. *)
Definition restriction_spec_step (s : gmap Z RestrictionRecord * gmap Z RestrictionRecord)
  (op : RestrictionOp) : gmap Z RestrictionRecord * gmap Z RestrictionRecord :=
  let '(committed, current) := s in
  match op with
  | RestrictionAllocate => s
  | RestrictionPut r =>
      if is_ok (RestrictionRecord_validate r) && is_ok (validate_same_target_on_update (current !! rr_id r) r)
      then (committed, <[rr_id r := r]> current) else s
  | RestrictionCommit => (current, current)
  | RestrictionDrop => (committed, committed)
  end.

Definition empty_db : RestrictionDb := mkRestrictionDb ∅ ∅ ∅ 0.
Definition restriction_run (ops : list RestrictionOp) : RestrictionBatch :=
  foldl restriction_step (begin_batch empty_db) ops.
Definition restriction_spec (ops : list RestrictionOp) : gmap Z RestrictionRecord * gmap Z RestrictionRecord :=
  foldl restriction_spec_step (∅, ∅) ops.

Definition op_typed (op : RestrictionOp) : Prop :=
  match op with RestrictionPut r => record_typed r | _ => True end.

Lemma is_ok_unit {E} (r : result unit E) : is_ok r = true <-> r = Ok tt.
Proof. by destruct r as [[]|]. Qed.

Lemma restriction_step_ok b s op :
  batch_ok b s.1 s.2 -> op_typed op ->
  let s' := restriction_spec_step s op in batch_ok (restriction_step b op) s'.1 s'.2.
Proof.
  destruct s as [c m]. intros Hb Hop. destruct op as [|r| |]; simpl in *.
  - destruct (next_restriction_id b) as [[id b']|e] eqn:Hn; [by eapply next_id_ok|done].
  - pose proof (put_restriction_spec b c m r Hb Hop) as Hput.
    destruct (put_restriction r b) as [b'|e].
    + destruct Hput as (-> & -> & Hb'). done.
    + destruct (is_ok _) eqn:Hv; [destruct (is_ok (validate_same_target_on_update _ _)) eqn:Hs|]; try done.
      apply is_ok_unit in Hv, Hs. by destruct Hput.
  - apply begin_batch_ok. by destruct Hb.
  - apply begin_batch_ok. by destruct Hb.
Qed.

Lemma restriction_run_ok ops :
  Forall op_typed ops -> batch_ok (restriction_run ops) (restriction_spec ops).1 (restriction_spec ops).2.
Proof.
  unfold restriction_run, restriction_spec. intros Hops.
  assert (batch_ok (begin_batch empty_db) (∅ : gmap Z RestrictionRecord, ∅ : gmap Z RestrictionRecord).1
            (∅ : gmap Z RestrictionRecord, ∅ : gmap Z RestrictionRecord).2) as H0
    by apply begin_batch_ok, table_empty.
  revert H0. generalize (∅ : gmap Z RestrictionRecord, ∅ : gmap Z RestrictionRecord), (begin_batch empty_db).
  induction Hops as [|op ops Hop Hops IH]; intros s b Hb; simpl; [done|]. by apply IH, restriction_step_ok.
Qed.

(** ** Properties *)

(** The movement of [amount] by [account] is stopped by a record in force. *)
Definition movement_stopped (m : gmap Z RestrictionRecord) (slot : Z) (account : Pubkey)
  (asset : option Pubkey) (direction : TransferDirection) (amount spendable : Z) : Prop :=
  exists r, (in_force m slot (TAccount account) r
             \/ exists a, asset = Some a /\ in_force m slot (TAccountAsset account a) r)
    /\ restriction_mode_blocks_transfer (rr_mode r) direction amount spendable = true.

Definition asset_typed (asset : option Pubkey) : Prop := match asset with Some a => is_u256 a | None => True end.

Lemma native_asset_typed : is_u256 NATIVE_LICN_ASSET_ID.
Proof. split; vm_compute; congruence. Qed.

Lemma native_blocked_spec v m slot account direction amount spendable :
  view_ok v m -> is_u256 account ->
  native_transfer_blocked v slot account direction amount spendable = true
  <-> movement_stopped m slot account (Some NATIVE_LICN_ASSET_ID) direction amount spendable.
Proof.
  intros Hv Ha. pose proof native_asset_typed as Hn. unfold native_transfer_blocked, account_direction_blocked.
  rewrite orb_true_iff, !(blocked_spec v m Hv) by done. unfold movement_stopped. naive_solver.
Qed.

(** C13.  The restriction tables refine a map of records: after any sequence of allocations,
    writes, commits and dropped batches, every query of the executing batch (overlays and
    prefix scans over the byte keys of the indexes) answers exactly as the records in force
    say, and the committed tables show exactly the committed records.  So an account may
    move an asset unless a record in force on the account, on its holding of the asset or on
    the asset stops it, and a contract, code hash, bridge route or protocol module is stopped
    exactly by its own records. *)
Theorem restrictions_refine ops slot :
  Forall op_typed ops ->
  let v := batch_view (restriction_run ops) in
  let m := (restriction_spec ops).2 in
  view_ok (store_view (rb_db (restriction_run ops))) (restriction_spec ops).1
  /\ (forall account direction asset amount spendable, is_u256 account -> asset_typed asset ->
        is_account_restricted v account direction asset amount spendable slot = true
        <-> movement_stopped m slot account asset direction amount spendable
            \/ exists a r, asset = Some a /\ in_force m slot (TAsset a) r)
  /\ (forall contract access, is_u256 contract ->
        is_contract_restricted v contract access slot = true
        <-> exists r, in_force m slot (TContract contract) r /\ contract_record_blocks access r = true)
  /\ (forall h, is_u256 h -> is_code_hash_blocked v h slot = true <-> exists r, in_force m slot (TCodeHash h) r)
  /\ (forall chain_id asset, is_bridge_route_paused v chain_id asset slot = true
        <-> exists r, in_force m slot (TBridgeRoute chain_id asset) r)
  /\ (forall module, is_protocol_module_paused v module slot = true
        <-> exists r, in_force m slot (TProtocolModule module) r).
Proof.
  intros Hops v m. pose proof (restriction_run_ok ops Hops) as Hb.
  pose proof (batch_view_ok _ _ _ Hb) as Hv. fold v m in Hv.
  split; [by apply store_view_ok; destruct Hb|]. split_and!.
  - intros account direction asset amount spendable Ha Has.
    unfold is_account_restricted, account_record_blocks, movement_stopped.
    rewrite orb_true_iff, (blocked_spec v m Hv) by done. destruct asset as [a|]; [|naive_solver].
    unfold is_asset_restricted. rewrite orb_true_iff, (blocked_spec v m Hv) by done.
    rewrite (paused_spec v m Hv AssetPaused) by (done || by intros []). naive_solver.
  - intros contract access Hc. by apply (blocked_spec v m Hv).
  - intros h Hh. by apply (code_blocked_spec v m Hv).
  - intros chain_id asset. apply (paused_spec v m Hv RoutePaused); [done|by intros []].
  - intros module. apply (paused_spec v m Hv ProtocolPaused); [done|by intros []].
Qed.

(** A freeze holds: with the records of the tables in force, a native transfer that
    succeeds leaves every frozen account with at least its frozen amount or with what it
    had, takes nothing from an account whose outgoing side is restricted, and gives nothing
    to an account whose incoming side is. *)
Theorem freeze_holds v m slot from to amount accounts accounts' :
  view_ok v m -> accounts_ok accounts -> 0 <= amount -> is_u256 from -> is_u256 to ->
  transfer (native_transfer_blocked v slot) from to amount accounts = Ok accounts' ->
  forall k r a, accounts !! k = Some a ->
    (in_force m slot (TAccount k) r \/ in_force m slot (TAccountAsset k NATIVE_LICN_ASSET_ID) r) ->
    match rr_mode r with
    | FrozenAmount frozen => Z.min (ac_spendable a) frozen <= held Spendable k accounts'
    | OutgoingOnly => ac_spendable a <= held Spendable k accounts'
    | IncomingOnly => held Spendable k accounts' <= ac_spendable a
    | Bidirectional => held Spendable k accounts' = ac_spendable a
    | _ => True
    end.
Proof.
  intros Hv Hm H0 Hf Ht Htr k r a Hk Hr.
  assert (held Spendable k accounts = ac_spendable a) as Ha by (unfold held; by rewrite Hk).
  pose proof (Hm k a Hk) as Hwf. destruct (transfer_moves _ from to amount _ _ Hm H0 Htr)
    as [[-> ->]|(Hne & (af & Haf & Hout & Hle) & Hin & Hheld)].
  { rewrite Ha. destruct (rr_mode r); lia. }
  assert (k = from -> restriction_mode_blocks_transfer (rr_mode r) OutgoingTransfer amount (ac_spendable a) = false) as Ho.
  { intros ->. rewrite Hk in Haf. injection Haf as <-. apply not_true_is_false. intros Hb.
    apply not_true_iff_false in Hout. apply Hout, (native_blocked_spec v m); [done..|].
    exists r. split; [|done]. destruct Hr; eauto. }
  assert (k = to -> restriction_mode_blocks_transfer (rr_mode r) IncomingTransfer amount 0 = false) as Hi.
  { intros ->. apply not_true_is_false. intros Hb. apply not_true_iff_false in Hin.
    apply Hin, (native_blocked_spec v m); [done..|]. exists r. split; [|done]. destruct Hr; eauto. }
  rewrite (Hheld k), Ha. destruct (decide (k = from)) as [E1|_], (decide (k = to)) as [E2|_];
    try (specialize (Ho E1)); try (specialize (Hi E2)); destruct (rr_mode r); simpl in *;
    try discriminate; try lia.
  apply Z.ltb_ge in Ho. unfold transferable_after_frozen_amount, sat_sub in Ho. lia.
Qed.

(** Pausing the native asset stops nothing: with a pause of the native asset in force,
    the query [is_account_restricted] reports every account as restricted, while a funded
    native transfer between accounts without records of their own still succeeds, because
    the checks of native movements never look at the records of the asset. *)
Theorem native_pause_ineffective v m slot r from to amount a accounts :
  view_ok v m -> in_force m slot (TAsset NATIVE_LICN_ASSET_ID) r ->
  is_u256 from -> is_u256 to -> from <> to ->
  (forall k t r', k = from \/ k = to -> t = TAccount k \/ t = TAccountAsset k NATIVE_LICN_ASSET_ID ->
     ~ in_force m slot t r') ->
  accounts_ok accounts -> accounts !! from = Some a -> 0 <= amount <= ac_spendable a ->
  spores_total accounts + amount <= u64_max ->
  is_account_restricted v from OutgoingTransfer (Some NATIVE_LICN_ASSET_ID) amount (ac_spendable a) slot = true
  /\ is_ok (transfer (native_transfer_blocked v slot) from to amount accounts) = true.
Proof.
  intros Hv Hr Hf Ht Hne Hfree Hm Ha Hamt Htot. split.
  - unfold is_account_restricted. rewrite !orb_true_iff. right. right. unfold is_asset_restricted.
    apply (paused_spec v m Hv AssetPaused); [apply native_asset_typed|by intros []|by exists r].
  - assert (forall k d x y, k = from \/ k = to -> native_transfer_blocked v slot k d x y = false) as Hnb.
    { intros k d x y Hk. apply not_true_is_false. rewrite (native_blocked_spec v m);
        [|done|by destruct Hk; subst].
      intros (r' & [Hi|(? & [= <-] & Hi)] & _); apply (Hfree k _ r') in Hi; auto. }
    unfold transfer. rewrite (proj2 (Z.eqb_neq from to)) by done. rewrite Ha. cbn [or_err].
    rewrite !Hnb by auto.
    destruct (op_succeeds OpDeduct amount a) as [a1 Hd]; [by apply (Hm from)|lia|unfold funded; simpl; lia|].
    change (Account_deduct_spendable amount) with (balance_op OpDeduct amount). rewrite Hd.
    destruct (op_succeeds OpAdd amount (account_or_new to accounts)) as [b Hadd];
      [by apply account_or_new_wf|lia| |].
    { unfold funded. simpl. pose proof (spores_le_total to accounts Hm). lia. }
    change (Account_add_spendable amount) with (balance_op OpAdd amount). by rewrite Hadd.
Qed.

(** ** A small chain *)

Module SampleRestrictions.
Definition record (id : Z) (t : RestrictionTarget) (md : RestrictionMode) (expires : option Z) : RestrictionRecord :=
  mkRestrictionRecord id t md SActive TestnetDrill None None 9 9 None 10 0 expires None None None None.

Definition frozen : RestrictionRecord := record 1 (TAccountAsset 5 NATIVE_LICN_ASSET_ID) (FrozenAmount 60) (Some 100).
Definition pause : RestrictionRecord := record 2 (TAsset NATIVE_LICN_ASSET_ID) AssetPaused None.
Definition route : RestrictionRecord := record 3 (TBridgeRoute (str_bytes "eth") (str_bytes "WETH")) RoutePaused None.
Definition ops : list RestrictionOp :=
  [RestrictionAllocate; RestrictionPut frozen; RestrictionCommit; RestrictionPut pause; RestrictionPut route].
Definition view : RestrictionView := batch_view (restriction_run ops).
Definition accounts : Accounts :=
  {[5 := mkAccount 100 100 0 0 [] None 5 false 0 false 0; 6 := Account_new 0 6; 7 := Account_new 1 7]}.

Lemma ops_typed : Forall op_typed ops.
Proof. repeat constructor; vm_compute; congruence. Qed.
Lemma view_is_ok : view_ok view (restriction_spec ops).2.
Proof. eapply batch_view_ok, restriction_run_ok, ops_typed. Qed.
Lemma restricted_accounts_ok : accounts_ok accounts.
Proof. repeat (apply map_Forall_insert_2; [split; vm_compute; congruence|]). apply map_Forall_empty. Qed.

Lemma restrictions_refine_witness :
  is_bridge_route_paused view (str_bytes "eth") (str_bytes "WETH") 50 = true
  /\ is_bridge_route_paused view (str_bytes "ethW") (str_bytes "ETH") 50 = false
  /\ exists r, in_force (restriction_spec ops).2 50 (TBridgeRoute (str_bytes "eth") (str_bytes "WETH")) r.
Proof.
  destruct (restrictions_refine ops 50 ops_typed) as (_ & _ & _ & _ & Hroute & _).
  assert (is_bridge_route_paused view (str_bytes "eth") (str_bytes "WETH") 50 = true) as Hp by by vm_compute.
  split_and!; [exact Hp|by vm_compute|exact (proj1 (Hroute _ _) Hp)].
Defined.

Lemma freeze_holds_witness :
  exists accounts', transfer (native_transfer_blocked view 50) 5 6 40 accounts = Ok accounts'
    /\ 60 <= held Spendable 5 accounts'
    /\ transfer (native_transfer_blocked view 50) 5 6 41 accounts = Err SenderRestricted.
Proof.
  destruct (transfer (native_transfer_blocked view 50) 5 6 40 accounts) as [accounts'|e] eqn:Htr;
    [|vm_compute in Htr; discriminate Htr].
  exists accounts'. split; [reflexivity|]. split; [|by vm_compute].
  assert (in_force (restriction_spec ops).2 50 (TAccountAsset 5 NATIVE_LICN_ASSET_ID) frozen) as Hin.
  { exists 1. split_and!; vm_compute; reflexivity. }
  pose proof (freeze_holds view (restriction_spec ops).2 50 5 6 40 accounts accounts' view_is_ok
    restricted_accounts_ok ltac:(lia) ltac:(split; vm_compute; congruence)
    ltac:(split; vm_compute; congruence) Htr 5 frozen (mkAccount 100 100 0 0 [] None 5 false 0 false 0)
    ltac:(vm_compute; reflexivity) (or_intror Hin)) as Hfr.
  change (Z.min 100 60 <= held Spendable 5 accounts') in Hfr. lia.
Defined.

(** No record of the sample is on account 6 or 7. *)
Lemma sample_unrestricted :
  map_Forall (fun _ r => rr_target r ∉ [TAccount 6; TAccount 7; TAccountAsset 6 NATIVE_LICN_ASSET_ID;
                                         TAccountAsset 7 NATIVE_LICN_ASSET_ID]) (restriction_spec ops).2.
Proof. apply (bool_decide_eq_true_1 _). vm_compute. reflexivity. Qed.

Lemma native_pause_ineffective_witness :
  is_account_restricted view 7 OutgoingTransfer (Some NATIVE_LICN_ASSET_ID) 1 1000000000 50 = true
  /\ is_ok (transfer (native_transfer_blocked view 50) 7 6 1 accounts) = true.
Proof.
  apply (native_pause_ineffective view (restriction_spec ops).2 50 pause 7 6 1 (Account_new 1 7) accounts
    view_is_ok).
  - exists 2. split_and!; [vm_compute; reflexivity|reflexivity|reflexivity].
  - split; vm_compute; congruence.
  - split; vm_compute; congruence.
  - lia.
  - intros k t r' Hk Ht (id & Hr & Htr & _). apply (sample_unrestricted id r' Hr). rewrite Htr.
    destruct Hk, Ht; subst; set_solver.
  - exact restricted_accounts_ok.
  - vm_compute. reflexivity.
  - split; vm_compute; congruence.
  - vm_compute. congruence.
Defined.
End SampleRestrictions.
