(* ===== verification/Governed.v ===== *)
(** * Governed wallets

    Models the governed-wallet part of [core/src/multisig.rs] and
    [core/src/processor/governed_transfers.rs]: treasuries that spend only through
    proposals, approved by several signers under a velocity policy (a cap per transfer, more
    approvals and a longer timelock for larger amounts, a cap per day), and the four
    instructions that propose, approve, execute and cancel.

    - what a handler reads of the committed store and of the block is the record [GovEnv]:
      the wallet configurations, the last slot and the timestamp of its block, the current
      transaction and the proposal it is linked to;
    - a JSON record of the store is its value; restrictions are the parameter [blocked];
    - a handler that fails leaves the state unchanged: its batch is dropped. *)

From S2P Require Import Prelude Crypto Block Account Transactions Fees Transfers StakingV2.
From stdpp Require Import base tactics numbers list gmap.
From Stdlib Require Import ZArith Lia.

Local Open Scope Z_scope.
Local Open Scope rust_scope.

(** ** Velocity policies *)

Inductive GovernedTransferVelocityTier := TierStandard | TierElevated | TierExtraordinary.

Record GovernedTransferVelocityPolicy := mkVelocityPolicy {
  vp_per_transfer_cap_spores : Z;
  vp_daily_cap_spores : Z;
  vp_elevated_threshold_spores : Z;
  vp_extraordinary_threshold_spores : Z;
  vp_elevated_additional_timelock_epochs : Z;
  vp_extraordinary_additional_timelock_epochs : Z;
}.

Definition SPORES_PER_LICN : Z := 1000000000.

Definition policy_in_licn (per_transfer daily elevated extraordinary epochs1 epochs2 : Z) :=
  mkVelocityPolicy (per_transfer * SPORES_PER_LICN) (daily * SPORES_PER_LICN) (elevated * SPORES_PER_LICN)
    (extraordinary * SPORES_PER_LICN) epochs1 epochs2.
Definition community_treasury_defaults := policy_in_licn 5000000 10000000 1000000 2500000 1 3.
Definition ecosystem_partnerships_defaults := policy_in_licn 1000000 2000000 250000 500000 1 2.
Definition reserve_pool_defaults := policy_in_licn 2000000 4000000 500000 1000000 1 2.
Definition validator_rewards_defaults := policy_in_licn 1000000 3000000 250000 750000 1 3.
Definition builder_grants_defaults := policy_in_licn 750000 2500000 200000 500000 1 2.
Definition founding_symbionts_defaults := policy_in_licn 250000 1000000 100000 250000 2 4.

Definition tier_for_amount (amount : Z) (p : GovernedTransferVelocityPolicy) : GovernedTransferVelocityTier :=
  if (0 <? vp_extraordinary_threshold_spores p) && (vp_extraordinary_threshold_spores p <=? amount)
  then TierExtraordinary
  else if (0 <? vp_elevated_threshold_spores p) && (vp_elevated_threshold_spores p <=? amount)
  then TierElevated
  else TierStandard.

Definition u8_max : Z := 255.

Definition required_threshold (base_threshold : Z) (signer_count : nat) (tier : GovernedTransferVelocityTier) : Z :=
  let max_threshold := Z.min (Z.of_nat signer_count) u8_max in
  let base_threshold := Z.min base_threshold max_threshold in
  match tier with
  | TierStandard => base_threshold
  | TierElevated => Z.min (Z.min (base_threshold + 1) u8_max) max_threshold
  | TierExtraordinary => max_threshold
  end.

Definition additional_timelock_epochs (tier : GovernedTransferVelocityTier) (p : GovernedTransferVelocityPolicy) : Z :=
  match tier with
  | TierStandard => 0
  | TierElevated => vp_elevated_additional_timelock_epochs p
  | TierExtraordinary => vp_extraordinary_additional_timelock_epochs p
  end.

(** ** Wallets and proposals *)

Record GovernedWalletConfig := mkGovernedWalletConfig {
  gw_threshold : Z;
  gw_signers : list Pubkey;
  gw_label : bytes;
  gw_timelock_epochs : Z;
  gw_transfer_velocity_policy : option GovernedTransferVelocityPolicy;
}.

Definition is_authorized (signer : Pubkey) (c : GovernedWalletConfig) : bool :=
  bool_decide (signer ∈ gw_signers c).

Record GovernedProposal := mkGovernedProposal {
  gp_id : Z;
  gp_source : Pubkey;
  gp_recipient : Pubkey;
  gp_amount : Z;
  gp_approvals : list Pubkey;
  gp_threshold : Z;
  gp_execute_after_epoch : Z;
  gp_velocity_tier : GovernedTransferVelocityTier;
  gp_daily_cap_spores : Z;
  gp_executed : bool;
  gp_cancelled : bool;
}.

Definition eta_GovernedProposal (p : GovernedProposal) : GovernedProposal :=
  mkGovernedProposal (gp_id p) (gp_source p) (gp_recipient p) (gp_amount p) (gp_approvals p)
    (gp_threshold p) (gp_execute_after_epoch p) (gp_velocity_tier p) (gp_daily_cap_spores p)
    (gp_executed p) (gp_cancelled p).
Definition set_gp_approvals : list Pubkey -> GovernedProposal -> GovernedProposal :=
  ltac:(setter eta_GovernedProposal gp_approvals).
Definition set_gp_executed : bool -> GovernedProposal -> GovernedProposal :=
  ltac:(setter eta_GovernedProposal gp_executed).
Definition set_gp_cancelled : bool -> GovernedProposal -> GovernedProposal :=
  ltac:(setter eta_GovernedProposal gp_cancelled).

Record ExecutionPolicy := mkExecutionPolicy {
  ep_threshold : Z;
  ep_execute_after_epoch : Z;
  ep_velocity_tier : GovernedTransferVelocityTier;
  ep_daily_cap_spores : Z;
}.

(** The state: balances, proposals, the volume of a wallet per day, the proposals that
    transactions created. *)
Record GovernedState := mkGovernedState {
  gs_accounts : Accounts;
  gs_proposals : gmap Z GovernedProposal;
  gs_counter : Z;
  gs_volumes : gmap (Pubkey * Z) Z;
  gs_links : gmap Hash Z;
}.

Definition eta_GovernedState (s : GovernedState) : GovernedState :=
  mkGovernedState (gs_accounts s) (gs_proposals s) (gs_counter s) (gs_volumes s) (gs_links s).
Definition set_gs_accounts : Accounts -> GovernedState -> GovernedState :=
  ltac:(setter eta_GovernedState gs_accounts).
Definition set_gs_proposals : gmap Z GovernedProposal -> GovernedState -> GovernedState :=
  ltac:(setter eta_GovernedState gs_proposals).
Definition set_gs_counter : Z -> GovernedState -> GovernedState :=
  ltac:(setter eta_GovernedState gs_counter).
Definition set_gs_volumes : gmap (Pubkey * Z) Z -> GovernedState -> GovernedState :=
  ltac:(setter eta_GovernedState gs_volumes).
Definition set_gs_links : gmap Hash Z -> GovernedState -> GovernedState :=
  ltac:(setter eta_GovernedState gs_links).

Record GovEnv := mkGovEnv {
  ge_configs : gmap Pubkey GovernedWalletConfig;
  ge_last_slot : Z;
  ge_block_timestamp : option Z;
  ge_tx_signature : option Hash;
  ge_linked : option Z;
}.

Definition ge_epoch (env : GovEnv) : Z := slot_to_epoch (ge_last_slot env).

Inductive GovernedError :=
| GovAccounts
| GovData
| NotGovernedWallet (wallet : Pubkey)
| NotAuthorized (signer : Pubkey)
| GovAccountNotFound
| GovInsufficient (spendable amount : Z)
| ExceedsTransferCap (amount cap : Z)
| ProposalNotFound (id : Z)
| ProposalExecuted (id : Z)
| ProposalCancelled (id : Z)
| AlreadyApproved (signer : Pubkey) (id : Z)
| NotEnoughApprovals (id approvals threshold : Z)
| Timelocked (id epoch : Z)
| VolumeOverflow (wallet : Pubkey)
| DailyCap (volume amount cap day : Z)
| LinkTaken (existing new : Z)
| GovTransfer (e : TransferError).

Definition map_gov {A} (r : result A TransferError) : result A GovernedError :=
  match r with Ok a => Ok a | Err e => Err (GovTransfer e) end.

(** ** Operations *)

Definition SECONDS_PER_DAY : Z := 86400.

Definition governed_transfer_policy_snapshot_from_parts (threshold timelock_epochs : Z) (signer_count : nat)
  (transfer_velocity_policy : option GovernedTransferVelocityPolicy) (amount current_epoch : Z)
  : result ExecutionPolicy GovernedError :=
  let after := wrap64 (current_epoch + timelock_epochs) in
  match transfer_velocity_policy with
  | None => Ok (mkExecutionPolicy threshold after TierStandard 0)
  | Some policy =>
      if (0 <? vp_per_transfer_cap_spores policy) && (vp_per_transfer_cap_spores policy <? amount)
      then Err (ExceedsTransferCap amount (vp_per_transfer_cap_spores policy))
      else
        let tier := tier_for_amount amount policy in
        Ok (mkExecutionPolicy (required_threshold threshold signer_count tier)
              (wrap64 (after + additional_timelock_epochs tier policy)) tier (vp_daily_cap_spores policy))
  end.

Definition governed_transfer_policy_snapshot (config : GovernedWalletConfig) (amount current_epoch : Z)
  : result ExecutionPolicy GovernedError :=
  governed_transfer_policy_snapshot_from_parts (gw_threshold config) (gw_timelock_epochs config)
    (length (gw_signers config)) (gw_transfer_velocity_policy config) amount current_epoch.

Definition governance_treasury_transfer_policy_snapshot (approval_config source_config : GovernedWalletConfig)
  (amount current_epoch : Z) : result ExecutionPolicy GovernedError :=
  governed_transfer_policy_snapshot_from_parts (gw_threshold approval_config)
    (gw_timelock_epochs approval_config) (length (gw_signers approval_config))
    (gw_transfer_velocity_policy source_config) amount current_epoch.

Definition current_governed_transfer_day_bucket (env : GovEnv) : Z :=
  default (ge_last_slot env) (ge_block_timestamp env) / SECONDS_PER_DAY.

Definition day_volume (source : Pubkey) (day : Z) (s : GovernedState) : Z :=
  default 0 (gs_volumes s !! (source, day)).

Definition consume_governed_transfer_daily_capacity (env : GovEnv) (source : Pubkey)
  (amount daily_cap_spores : Z) (s : GovernedState) : result (bool * GovernedState) GovernedError :=
  if daily_cap_spores =? 0 then Ok (true, s)
  else
    let day := current_governed_transfer_day_bucket env in
    or_err (checked_add64 (day_volume source day s) amount) (VolumeOverflow source) (fun updated =>
    if daily_cap_spores <? updated then Ok (false, s)
    else Ok (true, set_gs_volumes (<[(source, day) := updated]> (gs_volumes s)) s)).

Definition governed_transfer_daily_cap_error (env : GovEnv) (source : Pubkey) (amount cap : Z)
  (s : GovernedState) : GovernedError :=
  let day := current_governed_transfer_day_bucket env in DailyCap (day_volume source day s) amount cap day.

Section handlers.
Variable blocked : GovEnv -> Pubkey -> TransferDirection -> Z -> Z -> bool.

Definition try_execute_governed_proposal (env : GovEnv) (p : GovernedProposal) (s : GovernedState)
  : result (bool * GovernedProposal * GovernedState) GovernedError :=
  if gp_cancelled p || gp_executed p || (Z.of_nat (length (gp_approvals p)) <? gp_threshold p)
     || (ge_epoch env <? gp_execute_after_epoch p)
  then Ok (false, p, s)
  else
    let? '(capacity, s) :=
      consume_governed_transfer_daily_capacity env (gp_source p) (gp_amount p) (gp_daily_cap_spores p) s in
    if negb capacity then Ok (false, p, s)
    else
      let? accounts := map_gov (transfer (blocked env) (gp_source p) (gp_recipient p) (gp_amount p) (gs_accounts s)) in
      Ok (true, set_gp_executed true p, set_gs_accounts accounts s).

Definition next_governed_proposal_id (s : GovernedState) : Z * GovernedState :=
  let next := wrap64 (gs_counter s + 1) in (next, set_gs_counter next s).

Definition set_governed_proposal (p : GovernedProposal) (s : GovernedState) : GovernedState :=
  set_gs_proposals (<[gp_id p := p]> (gs_proposals s)) s.

Definition link_governed_proposal_tx (env : GovEnv) (tx_hash : Hash) (proposal_id : Z) (s : GovernedState)
  : result GovernedState GovernedError :=
  match ge_linked env with
  | Some existing => if existing =? proposal_id then Ok s else Err (LinkTaken existing proposal_id)
  | None => Ok (set_gs_links (<[tx_hash := proposal_id]> (gs_links s)) s)
  end.

(** Opcode 21. *)
Definition system_propose_governed_transfer (env : GovEnv) (ix : Instruction) (s : GovernedState)
  : result GovernedState GovernedError :=
  match ix_accounts ix with
  | proposer :: source :: recipient :: _ =>
      if (length (ix_data ix) <? 9)%nat then Err GovData
      else
        let amount := u64_at (ix_data ix) 1 in
        or_err (ge_configs env !! source) (NotGovernedWallet source) (fun config =>
        if negb (is_authorized proposer config) then Err (NotAuthorized proposer)
        else
          or_err (gs_accounts s !! source) GovAccountNotFound (fun source_acct =>
          if ac_spendable source_acct <? amount then Err (GovInsufficient (ac_spendable source_acct) amount)
          else
            let? policy := governed_transfer_policy_snapshot config amount (ge_epoch env) in
            let '(id, s) := next_governed_proposal_id s in
            let p := mkGovernedProposal id source recipient amount [proposer] (ep_threshold policy)
                       (ep_execute_after_epoch policy) (ep_velocity_tier policy)
                       (ep_daily_cap_spores policy) false false in
            let? '(_, p, s) := try_execute_governed_proposal env p s in
            let s := set_governed_proposal p s in
            match ge_tx_signature env with
            | Some tx_hash => link_governed_proposal_tx env tx_hash id s
            | None => Ok s
            end))
  | _ => Err GovAccounts
  end.

(** The open proposal an instruction names and the configuration of its wallet, with the
    signer authorized. *)
Definition load_open_proposal (env : GovEnv) (ix : Instruction) (s : GovernedState)
  : result (Pubkey * GovernedProposal) GovernedError :=
  match ix_accounts ix with
  | signer :: _ =>
      if (length (ix_data ix) <? 9)%nat then Err GovData
      else
        let id := u64_at (ix_data ix) 1 in
        or_err (gs_proposals s !! id) (ProposalNotFound id) (fun p =>
        if gp_executed p then Err (ProposalExecuted id)
        else if gp_cancelled p then Err (ProposalCancelled id)
        else
          or_err (ge_configs env !! gp_source p) (NotGovernedWallet (gp_source p)) (fun config =>
          if negb (is_authorized signer config) then Err (NotAuthorized signer) else Ok (signer, p)))
  | [] => Err GovAccounts
  end.

(** Opcode 22. *)
Definition system_approve_governed_transfer (env : GovEnv) (ix : Instruction) (s : GovernedState)
  : result GovernedState GovernedError :=
  let? '(approver, p) := load_open_proposal env ix s in
  if bool_decide (approver ∈ gp_approvals p) then Err (AlreadyApproved approver (u64_at (ix_data ix) 1))
  else
    let p := set_gp_approvals (gp_approvals p ++ [approver]) p in
    let? '(_, p, s) := try_execute_governed_proposal env p s in
    Ok (set_governed_proposal p s).

(** Opcode 32. *)
Definition system_execute_governed_transfer (env : GovEnv) (ix : Instruction) (s : GovernedState)
  : result GovernedState GovernedError :=
  let? '(executor, p) := load_open_proposal env ix s in
  let approvals := Z.of_nat (length (gp_approvals p)) in
  if approvals <? gp_threshold p then Err (NotEnoughApprovals (u64_at (ix_data ix) 1) approvals (gp_threshold p))
  else if ge_epoch env <? gp_execute_after_epoch p
  then Err (Timelocked (u64_at (ix_data ix) 1) (gp_execute_after_epoch p))
  else
    let? '(executed, p, s') := try_execute_governed_proposal env p s in
    if negb executed
    then Err (governed_transfer_daily_cap_error env (gp_source p) (gp_amount p) (gp_daily_cap_spores p) s')
    else Ok (set_governed_proposal p s').

(** Opcode 33. *)
Definition system_cancel_governed_transfer (env : GovEnv) (ix : Instruction) (s : GovernedState)
  : result GovernedState GovernedError :=
  let? '(_, p) := load_open_proposal env ix s in
  Ok (set_governed_proposal (set_gp_cancelled true p) s).
End handlers.

(** ** Velocity policies ask more of larger transfers *)

Definition policy_ordered (p : GovernedTransferVelocityPolicy) : Prop :=
  0 < vp_elevated_threshold_spores p <= vp_extraordinary_threshold_spores p
  /\ 0 <= vp_elevated_additional_timelock_epochs p <= vp_extraordinary_additional_timelock_epochs p.

Lemma policy_monotone p threshold signers a b :
  policy_ordered p -> 0 <= threshold -> a <= b ->
  required_threshold threshold signers (tier_for_amount a p)
    <= required_threshold threshold signers (tier_for_amount b p)
  /\ additional_timelock_epochs (tier_for_amount a p) p <= additional_timelock_epochs (tier_for_amount b p) p.
Proof.
  intros [Ht He] H0 Hab. unfold tier_for_amount, required_threshold, additional_timelock_epochs, u8_max.
  repeat match goal with |- context [?x <=? ?y] => destruct (Z.leb_spec x y) end;
    repeat match goal with |- context [?x <? ?y] => destruct (Z.ltb_spec x y) end; simpl; lia.
Qed.

Lemma default_policies_ordered :
  Forall policy_ordered [community_treasury_defaults; ecosystem_partnerships_defaults; reserve_pool_defaults;
    validator_rewards_defaults; builder_grants_defaults; founding_symbionts_defaults].
Proof. repeat constructor; vm_compute; congruence. Qed.

(** ** Runs *)

Inductive GovernedOp :=
| GPropose (ix : Instruction)
| GApprove (ix : Instruction)
| GExecute (ix : Instruction)
| GCancel (ix : Instruction).

Section run.
Variable blocked : GovEnv -> Pubkey -> TransferDirection -> Z -> Z -> bool.

Definition governed_handle (env : GovEnv) (op : GovernedOp) (s : GovernedState)
  : result GovernedState GovernedError :=
  match op with
  | GPropose ix => system_propose_governed_transfer blocked env ix s
  | GApprove ix => system_approve_governed_transfer blocked env ix s
  | GExecute ix => system_execute_governed_transfer blocked env ix s
  | GCancel ix => system_cancel_governed_transfer env ix s
  end.

(** The proposals that [s'] shows as executed and [s] does not. *)
Definition executions (s s' : GovernedState) : list GovernedProposal :=
  filter (fun p => gp_executed p && negb (from_option gp_executed false (gs_proposals s !! gp_id p)) = true)
    (map_to_list (gs_proposals s')).*2.

(** A state with the log of the executions so far. *)
Definition governed_step (c : GovernedState * list (GovEnv * GovernedProposal)) (o : GovEnv * GovernedOp)
  : GovernedState * list (GovEnv * GovernedProposal) :=
  match governed_handle o.1 o.2 c.1 with
  | Ok s' => (s', c.2 ++ map (pair o.1) (executions c.1 s'))
  | Err _ => c
  end.

Definition governed_run (ops : list (GovEnv * GovernedOp)) (m : Accounts)
  : GovernedState * list (GovEnv * GovernedProposal) :=
  foldl governed_step (mkGovernedState m ∅ 0 ∅ ∅, []) ops.
End run.

(** ** What a step does

    [attempt]: the proposal [p] before the attempt to execute it becomes [p'], with the
    balances and volumes it leaves. *)

Section steps.
Variable blocked : GovEnv -> Pubkey -> TransferDirection -> Z -> Z -> bool.

Definition counted (env : GovEnv) (p : GovernedProposal) (s : GovernedState) : gmap (Pubkey * Z) Z :=
  if gp_daily_cap_spores p =? 0 then gs_volumes s
  else
    let day := current_governed_transfer_day_bucket env in
    <[(gp_source p, day) := day_volume (gp_source p) day s + gp_amount p]> (gs_volumes s).

Inductive attempt (env : GovEnv) (p : GovernedProposal) (s : GovernedState)
  : GovernedProposal -> Accounts -> gmap (Pubkey * Z) Z -> Prop :=
| attempt_waits : attempt env p s p (gs_accounts s) (gs_volumes s)
| attempt_executes accounts :
    gp_cancelled p = false -> gp_executed p = false ->
    gp_threshold p <= Z.of_nat (length (gp_approvals p)) -> gp_execute_after_epoch p <= ge_epoch env ->
    (gp_daily_cap_spores p <> 0 ->
       day_volume (gp_source p) (current_governed_transfer_day_bucket env) s + gp_amount p
       <= gp_daily_cap_spores p) ->
    transfer (blocked env) (gp_source p) (gp_recipient p) (gp_amount p) (gs_accounts s) = Ok accounts ->
    attempt env p s (set_gp_executed true p) accounts (counted env p s).

Lemma attempt_counter env p c s p' m v : attempt env p (set_gs_counter c s) p' m v -> attempt env p s p' m v.
Proof using Type.
  remember (set_gs_counter c s) as s0 eqn:E. destruct 1; subst s0;
    [exact (attempt_waits env p s)|by apply (attempt_executes env p s)].
Qed.

Lemma try_execute_attempt env p s b p' s' :
  try_execute_governed_proposal blocked env p s = Ok (b, p', s') ->
  attempt env p s p' (gs_accounts s') (gs_volumes s')
  /\ gs_proposals s' = gs_proposals s /\ gs_counter s' = gs_counter s /\ gp_id p' = gp_id p
  /\ gp_source p' = gp_source p.
Proof using Type.
  unfold try_execute_governed_proposal. destruct (_ || _) eqn:Hg; [intros [= <- <- <-]; by split_and!; [constructor|..]|].
  apply orb_false_iff in Hg as [[[Hc He]%orb_false_iff Ht%Z.ltb_ge]%orb_false_iff Hep%Z.ltb_ge].
  rewrite and_then_Ok. intros ([cap s1] & Hcap & H). unfold consume_governed_transfer_daily_capacity in Hcap.
  destruct (Z.eqb_spec (gp_daily_cap_spores p) 0) as [Hz|Hz].
  - injection Hcap as <- <-. apply and_then_Ok in H as (m & Hm & [= <- <- <-]).
    destruct (transfer _ _ _ _ _) as [m'|] eqn:Htr in Hm; [|done]. injection Hm as ->.
    split_and!; [|done..]. cbn [gs_accounts set_gs_accounts gs_volumes].
    replace (gs_volumes s) with (counted env p s) by (unfold counted; by rewrite Hz). by constructor.
  - apply or_err_Ok in Hcap as (u & [-> Hu]%checked_add64_Some & Hcap).
    destruct (Z.ltb_spec (gp_daily_cap_spores p) (day_volume (gp_source p) (current_governed_transfer_day_bucket env) s + gp_amount p)) as [Hlt|Hle];
      injection Hcap as <- <-.
    + injection H as <- <- <-. split_and!; [constructor|done..].
    + apply and_then_Ok in H as (m & Hm & [= <- <- <-]).
      destruct (transfer _ _ _ _ _) as [m'|] eqn:Htr in Hm; [|done]. injection Hm as ->.
      split_and!; [|done..]. cbn [gs_accounts set_gs_accounts gs_volumes set_gs_volumes].
      match goal with |- attempt _ _ _ _ _ ?v => replace v with (counted env p s) end.
      * by constructor.
      * unfold counted. by rewrite (proj2 (Z.eqb_neq _ _) Hz).
Qed.

(** Where the proposal of a successful step comes from. *)
Inductive origin (env : GovEnv) (s : GovernedState) : GovernedOp -> GovernedProposal -> Z -> Prop :=
| origin_propose ix proposer source recipient rest config policy :
    ix_accounts ix = proposer :: source :: recipient :: rest ->
    ge_configs env !! source = Some config -> is_authorized proposer config = true ->
    governed_transfer_policy_snapshot config (u64_at (ix_data ix) 1) (ge_epoch env) = Ok policy ->
    let id := wrap64 (gs_counter s + 1) in
    origin env s (GPropose ix)
      (mkGovernedProposal id source recipient (u64_at (ix_data ix) 1) [proposer] (ep_threshold policy)
         (ep_execute_after_epoch policy) (ep_velocity_tier policy) (ep_daily_cap_spores policy) false false) id
| origin_approve ix p approver rest config :
    ix_accounts ix = approver :: rest -> gs_proposals s !! u64_at (ix_data ix) 1 = Some p ->
    gp_executed p = false -> gp_cancelled p = false ->
    ge_configs env !! gp_source p = Some config -> is_authorized approver config = true ->
    approver ∉ gp_approvals p ->
    origin env s (GApprove ix) (set_gp_approvals (gp_approvals p ++ [approver]) p) (gs_counter s)
| origin_keep op p id :
    gs_proposals s !! id = Some p -> gp_executed p = false -> gp_cancelled p = false ->
    origin env s op p (gs_counter s)
| origin_cancel ix p id :
    gs_proposals s !! id = Some p -> gp_executed p = false -> gp_cancelled p = false ->
    origin env s (GCancel ix) (set_gp_cancelled true p) (gs_counter s).

Lemma load_open_Ok env ix s signer p :
  load_open_proposal env ix s = Ok (signer, p) ->
  exists rest config, ix_accounts ix = signer :: rest /\ gs_proposals s !! u64_at (ix_data ix) 1 = Some p
    /\ gp_executed p = false /\ gp_cancelled p = false
    /\ ge_configs env !! gp_source p = Some config /\ is_authorized signer config = true.
Proof using Type.
  unfold load_open_proposal. destruct (ix_accounts ix) as [|a rest]; [done|]. intros [_ H]%guard_Ok.
  apply or_err_Ok in H as (q & Hq & H). apply guard_Ok in H as [He H]. apply guard_Ok in H as [Hc H].
  apply or_err_Ok in H as (config & Hcfg & H). apply guard_Ok in H as [Ha%negb_false_iff [= <- <-]].
  exists rest, config. done.
Qed.

Lemma governed_handle_step env op s s' :
  governed_handle blocked env op s = Ok s' ->
  exists p p', origin env s op p (gs_counter s') /\ attempt env p s p' (gs_accounts s') (gs_volumes s')
    /\ gs_proposals s' = <[gp_id p := p']> (gs_proposals s) /\ gp_id p' = gp_id p.
Proof using Type.
  destruct op as [ix|ix|ix|ix]; simpl.
  - unfold system_propose_governed_transfer. destruct (ix_accounts ix) as [|proposer [|source [|recipient rest]]] eqn:Hacc; try done.
    intros [_ H]%guard_Ok. apply or_err_Ok in H as (config & Hcfg & H). apply guard_Ok in H as [Ha%negb_false_iff H].
    apply or_err_Ok in H as (acct & _ & H). apply guard_Ok in H as [_ H]. apply and_then_Ok in H as (policy & Hpol & H).
    unfold next_governed_proposal_id in H. apply and_then_Ok in H as ([[b p'] s1] & Hex & H).
    apply try_execute_attempt in Hex as (Hat & Hprop & Hcnt & Hid & _).
    assert (gs_accounts s' = gs_accounts s1 /\ gs_volumes s' = gs_volumes s1 /\ gs_counter s' = gs_counter s1
      /\ gs_proposals s' = <[gp_id p' := p']> (gs_proposals s1)) as (E1 & E2 & E3 & E4).
    { destruct (ge_tx_signature env); [|by injection H as <-]. unfold link_governed_proposal_tx in H.
      destruct (ge_linked env); [destruct (_ =? _); [|done]|]; by injection H as <-. }
    eexists _, p'. rewrite E1, E2, E3, E4, Hcnt, Hprop, Hid. split; [by eapply origin_propose|].
    split; [by eapply attempt_counter|done].
  - unfold system_approve_governed_transfer. rewrite and_then_Ok. intros ([approver p] & Hl & H).
    apply load_open_Ok in Hl as (rest & config & ? & ? & ? & ? & ? & ?). apply guard_Ok in H as [Hn%bool_decide_eq_false H].
    apply and_then_Ok in H as ([[b p'] s1] & Hex & [= <-]).
    apply try_execute_attempt in Hex as (Hat & Hprop & Hcnt & Hid & _).
    eexists _, p'. cbn [set_governed_proposal set_gs_proposals gs_counter gs_accounts gs_volumes gs_proposals].
    rewrite Hcnt, Hprop, Hid. split_and!; [by eapply origin_approve|done..].
  - unfold system_execute_governed_transfer. rewrite and_then_Ok. intros ([ex p] & Hl & H).
    apply load_open_Ok in Hl as (rest & config & ? & ? & ? & ? & ? & ?).
    apply guard_Ok in H as [_ H]. apply guard_Ok in H as [_ H].
    apply and_then_Ok in H as ([[b p'] s1] & Hex & H). apply guard_Ok in H as [_ [= <-]].
    apply try_execute_attempt in Hex as (Hat & Hprop & Hcnt & Hid & _).
    eexists p, p'. cbn [set_governed_proposal set_gs_proposals gs_counter gs_accounts gs_volumes gs_proposals].
    rewrite Hcnt, Hprop, Hid. split_and!; [by eapply origin_keep|done..].
  - unfold system_cancel_governed_transfer. rewrite and_then_Ok. intros ([c p] & Hl & [= <-]).
    apply load_open_Ok in Hl as (rest & config & ? & ? & ? & ? & ? & ?).
    cbn [set_governed_proposal set_gs_proposals gs_counter gs_accounts gs_volumes gs_proposals].
    eexists _, _. split_and!; [by eapply origin_cancel|exact (attempt_waits env _ s)|done..].
Qed.
End steps.

(** ** The invariant of a run *)

(** The operation [o] records the approval of [p] by [a], a signer of its wallet. *)
Definition approves (o : GovEnv * GovernedOp) (p : GovernedProposal) (a : Pubkey) : Prop :=
  (exists config, ge_configs o.1 !! gp_source p = Some config /\ is_authorized a config = true)
  /\ match o.2 with
     | GPropose ix => (exists rest, ix_accounts ix = a :: gp_source p :: gp_recipient p :: rest)
                      /\ u64_at (ix_data ix) 1 = gp_amount p
     | GApprove ix => head (ix_accounts ix) = Some a /\ u64_at (ix_data ix) 1 = gp_id p
     | _ => False
     end.

(** The threshold, timelock and daily cap of [p] are those the policy of its wallet asked for
    when [o] proposed it. *)
Definition policy_of (o : GovEnv * GovernedOp) (p : GovernedProposal) : Prop :=
  exists config, ge_configs o.1 !! gp_source p = Some config
  /\ governed_transfer_policy_snapshot config (gp_amount p) (ge_epoch o.1)
     = Ok (mkExecutionPolicy (gp_threshold p) (gp_execute_after_epoch p) (gp_velocity_tier p) (gp_daily_cap_spores p)).

Definition backed (ops : list (GovEnv * GovernedOp)) (p : GovernedProposal) : Prop :=
  NoDup (gp_approvals p)
  /\ (forall a, a ∈ gp_approvals p -> exists o, o ∈ ops /\ approves o p a)
  /\ exists o, o ∈ ops /\ policy_of o p.

(** What the executions of [log] moved out of [w] on day [d] under a daily cap. *)
Definition capped_amount (w : Pubkey) (d : Z) (e : GovEnv * GovernedProposal) : Z :=
  if decide (gp_source e.2 = w /\ current_governed_transfer_day_bucket e.1 = d /\ gp_daily_cap_spores e.2 <> 0)
  then gp_amount e.2 else 0.
Definition day_total (log : list (GovEnv * GovernedProposal)) (w : Pubkey) (d : Z) : Z :=
  sumZ (capped_amount w d) log.

(** Every capped execution keeps the day within its cap. *)
Definition within_caps (log : list (GovEnv * GovernedProposal)) : Prop :=
  forall l e l', log = l ++ e :: l' -> gp_daily_cap_spores e.2 <> 0 ->
    day_total (l ++ [e]) (gp_source e.2) (current_governed_transfer_day_bucket e.1) <= gp_daily_cap_spores e.2.

Section invariant.
Variable blocked : GovEnv -> Pubkey -> TransferDirection -> Z -> Z -> bool.

(** The executions of [log], performed one after another. *)
Definition replay_transfers (log : list (GovEnv * GovernedProposal)) (m : Accounts) : result Accounts TransferError :=
  try_fold (fun m e => transfer (blocked e.1) (gp_source e.2) (gp_recipient e.2) (gp_amount e.2) m) m log.

Definition executed_rightly (s : GovernedState) (e : GovEnv * GovernedProposal) : Prop :=
  gs_proposals s !! gp_id e.2 = Some e.2 /\ gp_executed e.2 = true /\ gp_cancelled e.2 = false
  /\ gp_threshold e.2 <= Z.of_nat (length (gp_approvals e.2)) /\ gp_execute_after_epoch e.2 <= ge_epoch e.1.

Record governed_inv (m0 : Accounts) (ops : list (GovEnv * GovernedOp))
  (c : GovernedState * list (GovEnv * GovernedProposal)) : Prop := {
  gi_counter : 0 <= gs_counter c.1 <= Z.of_nat (length ops);
  gi_ids id p : gs_proposals c.1 !! id = Some p -> gp_id p = id /\ 1 <= id <= gs_counter c.1;
  gi_backed id p : gs_proposals c.1 !! id = Some p -> backed ops p;
  gi_logged id p : gs_proposals c.1 !! id = Some p -> gp_executed p = true -> exists env, (env, p) ∈ c.2;
  gi_executed : Forall (executed_rightly c.1) c.2;
  gi_once : NoDup ((fun e => gp_id e.2) <$> c.2);
  gi_volume w d : day_volume w d c.1 = day_total c.2 w d;
  gi_caps : within_caps c.2;
  gi_replay : replay_transfers c.2 m0 = Ok (gs_accounts c.1);
}.

Lemma backed_mono ops o p : backed ops p -> backed (ops ++ [o]) p.
Proof using Type.
  intros (? & Ha & (o' & ? & ?)). split_and!; [done| |exists o'; split; [by apply elem_of_app; left|done]].
  intros a (o1 & ? & ?)%Ha. exists o1. split; [by apply elem_of_app; left|done].
Qed.

(** The proposal a step works on: known to the state as open or new, backed by the
    operations so far, with a known number. *)
Lemma origin_facts m0 ops c env op p n :
  governed_inv m0 ops c -> Z.of_nat (length ops) < u64_max -> origin env c.1 op p n ->
  gp_executed p = false /\ from_option gp_executed false (gs_proposals c.1 !! gp_id p) = false
  /\ 0 <= gs_counter c.1 <= n /\ n <= Z.of_nat (length ops) + 1 /\ 1 <= gp_id p <= n
  /\ backed (ops ++ [(env, op)]) p.
Proof using Type.
  intros [Hcnt Hids Hb _ _ _ _ _ _] Hlen. destruct 1 as
    [ix proposer source recipient rest config policy Hacc Hcfg Hau Hpol id
    |ix p approver rest config Hacc Hp He Hc Hcfg Hau Hn|op p id Hp He Hc|ix p id Hp He Hc].
  - unfold id. rewrite (wrap_small 64) by (unfold u64_max in *; lia). cbn [gp_id gp_executed].
    assert (gs_proposals c.1 !! (gs_counter c.1 + 1) = None) as ->.
    { destruct (gs_proposals c.1 !! _) as [q|] eqn:Hq; [|done]. apply Hids in Hq. lia. }
    split_and!; try done; try lia. split_and!; cbn [gp_approvals].
    + apply NoDup_singleton.
    + intros a ->%list_elem_of_singleton. exists (env, GPropose ix).
      split; [apply elem_of_app; right; constructor|]. split; [by exists config|]. simpl. split; [by exists rest|done].
    + exists (env, GPropose ix). split; [apply elem_of_app; right; constructor|]. exists config.
      split; [done|]. cbn [fst gp_amount gp_threshold gp_execute_after_epoch gp_velocity_tier gp_daily_cap_spores].
      rewrite Hpol. by destruct policy.
  - destruct (Hids _ _ Hp) as [Hid Hr]. destruct (backed_mono _ (env, GApprove ix) p (Hb _ _ Hp)) as (Hnd & Ha & Hpo).
    cbn [gp_id gp_executed set_gp_approvals]. rewrite Hid, Hp. simpl. split_and!; try done; try lia.
    split_and!; cbn [gp_approvals set_gp_approvals].
    + apply NoDup_app. split_and!; [done|intros x Hx ->%list_elem_of_singleton; done|apply NoDup_singleton].
    + intros a [Hin| ->%list_elem_of_singleton]%elem_of_app; [by apply Ha|].
      exists (env, GApprove ix). split; [apply elem_of_app; right; constructor|].
      split; [by exists config|]. simpl. rewrite Hacc, Hid. done.
    + exact Hpo.
  - destruct (Hids _ _ Hp) as [Hid Hr]. rewrite Hid, Hp. simpl. split_and!; try done; try lia.
    by eapply backed_mono, Hb.
  - destruct (Hids _ _ Hp) as [Hid Hr]. cbn [gp_id gp_executed set_gp_cancelled]. rewrite Hid, Hp. simpl.
    split_and!; try done; try lia. exact (backed_mono _ (env, GCancel ix) p (Hb _ _ Hp)).
Qed.

Lemma executions_insert s s' p' :
  map_Forall (fun id p => gp_id p = id) (gs_proposals s) ->
  gs_proposals s' = <[gp_id p' := p']> (gs_proposals s) ->
  from_option gp_executed false (gs_proposals s !! gp_id p') = false ->
  executions s s' = if gp_executed p' then [p'] else [].
Proof using Type.
  intros Hids Hs' Hold. unfold executions. rewrite Hs'.
  assert (forall l, (forall x, x ∈ l -> gs_proposals s !! gp_id x = Some x) ->
    filter (fun p => gp_executed p && negb (from_option gp_executed false (gs_proposals s !! gp_id p)) = true) l = []) as Hrest.
  { induction l as [|x l IH]; intros Hl; [done|]. rewrite filter_cons, (Hl x) by constructor. simpl.
    rewrite andb_negb_r, decide_False by done. apply IH. intros y Hy. apply Hl. by constructor. }
  assert (map_to_list (<[gp_id p' := p']> (gs_proposals s)) ≡ₚ (gp_id p', p') :: map_to_list (delete (gp_id p') (gs_proposals s))) as Hperm.
  { rewrite <- insert_delete_eq. apply map_to_list_insert, lookup_delete_eq. }
  assert (forall l, l ≡ₚ (if gp_executed p' then [p'] else []) -> l = if gp_executed p' then [p'] else []) as Hsing.
  { intros l. destruct (gp_executed p'); [apply Permutation_singleton_r|apply Permutation_nil_r]. }
  apply Hsing. rewrite Hperm. cbn [fmap list_fmap]. rewrite filter_cons. cbn [snd]. rewrite Hold. cbn [negb]. rewrite andb_true_r.
  rewrite Hrest; [by destruct (gp_executed p')|].
  intros x ([id q] & -> & Hq%elem_of_map_to_list)%list_elem_of_fmap. simpl.
  apply lookup_delete_Some in Hq as [_ Hq]. by rewrite (Hids id q Hq).
Qed.
End invariant.

Lemma day_total_snoc log e w d : day_total (log ++ [e]) w d = day_total log w d + capped_amount w d e.
Proof. unfold day_total. rewrite sumZ_app. simpl. lia. Qed.

Lemma counted_volume env p s w d :
  default 0 (counted env p s !! (w, d)) = day_volume w d s + capped_amount w d (env, set_gp_executed true p).
Proof.
  unfold counted, capped_amount, day_volume.
  change (gp_source (env, set_gp_executed true p).2) with (gp_source p).
  change (gp_daily_cap_spores (env, set_gp_executed true p).2) with (gp_daily_cap_spores p).
  change (gp_amount (env, set_gp_executed true p).2) with (gp_amount p). cbn [fst].
  destruct (Z.eqb_spec (gp_daily_cap_spores p) 0) as [Hz|Hz]; [rewrite decide_False by tauto; lia|].
  destruct (decide ((w, d) = (gp_source p, current_governed_transfer_day_bucket env))) as [[= -> ->]|Hne].
  - rewrite lookup_insert_eq, decide_True by done. done.
  - rewrite lookup_insert_ne by done. rewrite decide_False; [lia|]. intros (<- & <- & _). done.
Qed.

Lemma within_caps_snoc log e :
  within_caps log ->
  (gp_daily_cap_spores e.2 <> 0 ->
   day_total (log ++ [e]) (gp_source e.2) (current_governed_transfer_day_bucket e.1) <= gp_daily_cap_spores e.2) ->
  within_caps (log ++ [e]).
Proof.
  intros Hlog He l x l' Heq Hx. destruct l' as [|y l' _] using rev_ind.
  - apply app_inj_tail in Heq as [-> ->]. by apply He.
  - rewrite app_comm_cons, (assoc_L (++)) in Heq. apply app_inj_tail in Heq as [-> _]. by apply (Hlog l x l').
Qed.

Section preservation.
Variable blocked : GovEnv -> Pubkey -> TransferDirection -> Z -> Z -> bool.

(** A step that stores the proposal [p'] at a place where no executed one is. *)
Lemma governed_step_stores m0 ops c o s' p p' :
  governed_inv blocked m0 ops c -> Z.of_nat (length ops) < u64_max ->
  origin o.1 c.1 o.2 p (gs_counter s') ->
  attempt blocked o.1 p c.1 p' (gs_accounts s') (gs_volumes s') ->
  gs_proposals s' = <[gp_id p := p']> (gs_proposals c.1) -> gp_id p' = gp_id p ->
  governed_inv blocked m0 (ops ++ [o]) (s', c.2 ++ map (pair o.1) (executions c.1 s')).
Proof using Type.
  destruct o as [env op]. intros Hinv Hlen Hor Hat Hs' Hid. cbn [fst snd] in *.
  destruct (origin_facts blocked m0 ops c env op p _ Hinv Hlen Hor) as (He & Hold & Hc1 & Hc2 & Hr & Hback).
  destruct Hinv as [Hcnt Hids Hb Hlog Hex Honce Hvol Hcaps Hrep].
  rewrite (executions_insert c.1 s' p'); [|by intros id q Hq; apply Hids in Hq as [? _]|by rewrite Hid|by rewrite Hid].
  assert (backed (ops ++ [(env, op)]) p') as Hback' by by inversion Hat; subst.
  assert (forall e, executed_rightly c.1 e -> executed_rightly s' e) as Hkeep.
  { intros e (Hl & Hex' & Hrest). split; [|done]. rewrite Hs', lookup_insert_ne; [done|]. intros Heq.
    rewrite Heq, Hl in Hold. simpl in Hold. congruence. }
  assert (gp_id p ∉ ((fun e => gp_id e.2) <$> c.2)) as Hfresh.
  { intros (e & Heq & (Hl & Hex' & _)%(proj1 (Forall_forall _ _) Hex))%list_elem_of_fmap.
    rewrite Heq, Hl in Hold. simpl in Hold. congruence. }
  assert (forall id q, gs_proposals s' !! id = Some q ->
    (id = gp_id p /\ q = p') \/ (id <> gp_id p /\ gs_proposals c.1 !! id = Some q)) as Hlook.
  { intros id q. rewrite Hs'. destruct (decide (id = gp_id p)) as [->|Hne].
    - rewrite lookup_insert_eq. intros [= <-]. by left.
    - rewrite lookup_insert_ne by done. by right. }
  split; cbn [fst snd].
  - rewrite length_app. simpl. lia.
  - intros id q [[-> ->]|[_ Hq%Hids]]%Hlook; [by rewrite Hid|]. lia.
  - intros id q [[-> ->]|[_ Hq%Hb]]%Hlook; [done|by apply backed_mono].
  - intros id q [[-> ->]|[_ Hq]]%Hlook Hqe; [rewrite Hqe; exists env; apply elem_of_app; right; constructor|].
    destruct (Hlog id q Hq Hqe) as [env' ?]. exists env'. apply elem_of_app. by left.
  - apply Forall_app. split; [by eapply Forall_impl|]. inversion Hat as [E1 E2 E3|m Hca Hex0 Hth Hep Hcap Htr E1 E2 E3]; subst p'.
    + rewrite He. constructor.
    + cbn [gp_executed set_gp_executed]. constructor; [|constructor]. split; [|done].
      cbn [snd gp_id set_gp_executed]. by rewrite Hs', lookup_insert_eq.
  - rewrite fmap_app. apply NoDup_app. split; [done|]. destruct (gp_executed p'); cbn; [|split; [by intros ? ? ?%not_elem_of_nil|constructor]].
    split; [intros x Hx ->%list_elem_of_singleton; by rewrite Hid in Hx|apply NoDup_singleton].
  - intros w d. inversion Hat as [E1 E2 E3|m Hca Hex0 Hth Hep Hcap Htr E1 E2 E3]; subst p'.
    + rewrite He, app_nil_r, <- Hvol. unfold day_volume. by rewrite E3.
    + cbn [gp_executed set_gp_executed map]. rewrite day_total_snoc, <- Hvol. unfold day_volume at 1.
      rewrite <- E3. apply counted_volume.
  - inversion Hat as [E1 E2 E3|m Hca Hex0 Hth Hep Hcap Htr E1 E2 E3]; subst p'; [by rewrite He, app_nil_r|].
    cbn [gp_executed set_gp_executed map]. apply within_caps_snoc; [done|]. cbn [fst snd]. intros Hz.
    rewrite day_total_snoc, <- Hvol. unfold capped_amount. cbn [fst snd]. rewrite decide_True by done. by apply Hcap.
  - inversion Hat as [E1 E2 E3|m Hca Hex0 Hth Hep Hcap Htr E1 E2 E3]; subst p'.
    + rewrite He, app_nil_r. congruence.
    + cbn [gp_executed set_gp_executed map]. unfold replay_transfers in *. rewrite try_fold_app, Hrep. simpl. by rewrite Htr.
Qed.

Lemma governed_run_inv ops m0 :
  Z.of_nat (length ops) <= u64_max -> governed_inv blocked m0 ops (governed_run blocked ops m0).
Proof using Type.
  unfold governed_run. induction ops as [|o ops IH] using rev_ind; intros Hlen.
  - split; simpl; try done; try constructor. intros [] ? ? ?; discriminate.
  - rewrite length_app in Hlen. simpl in Hlen. rewrite foldl_app. cbn [foldl].
    set (c := foldl _ _ ops) in *. specialize (IH ltac:(lia)). unfold governed_step at 1.
    destruct (governed_handle blocked o.1 o.2 c.1) as [s'|e] eqn:Hh.
    + apply governed_handle_step in Hh as (p & p' & Hor & Hat & Hs' & Hid).
      eapply governed_step_stores; try done. lia.
    + destruct IH as [Hcnt Hids Hb Hlog Hex Honce Hvol Hcaps Hrep]. split; try done.
      * rewrite length_app. simpl. lia.
      * intros id q Hq. by eapply backed_mono, Hb.
Qed.
End preservation.

(** ** Properties *)


(** ** A wallet of three signers *)

Module SampleGoverned.
Definition wallet : GovernedWalletConfig :=
  mkGovernedWalletConfig 2 [11; 12; 13] [] 1 (Some (mkVelocityPolicy 500 600 200 400 1 2)).
Definition env (slot : Z) : GovEnv := mkGovEnv {[7 := wallet]} slot None None None.
Definition ix (accounts : list Pubkey) (n : Z) : Instruction :=
  mkInstruction SYSTEM_PROGRAM_ID accounts (0 :: le_bytes 8 n).
Definition free (_ : GovEnv) (_ : Pubkey) (_ : TransferDirection) (_ _ : Z) : bool := false.
Definition m0 : Accounts := {[7 := mkAccount 2000 2000 0 0 [] None 7 false 0 false 0]}.

(** Three transfers: the second needs a third approval for its size, the third exceeds the
    daily cap on the day of the other two and executes on a later one. *)
Definition late : Z := 3 * SLOTS_PER_EPOCH.
Definition ops : list (GovEnv * GovernedOp) :=
  [(env 10, GPropose (ix [11; 7; 8] 150)); (env 10, GPropose (ix [12; 7; 8] 300));
   (env 10, GPropose (ix [13; 7; 9] 180)); (env 20, GApprove (ix [12] 1)); (env 20, GApprove (ix [12] 1));
   (env 20, GApprove (ix [13] 2)); (env 20, GApprove (ix [11] 3)); (env 30, GExecute (ix [13] 1));
   (env late, GExecute (ix [13] 1)); (env late, GExecute (ix [13] 1)); (env late, GApprove (ix [11] 2));
   (env late, GExecute (ix [12] 3)); (env (late + SLOTS_PER_EPOCH), GExecute (ix [12] 3));
   (env late, GCancel (ix [11] 3))].

End SampleGoverned.
