(* ===== verification/Moss.v ===== *)
(** * The MossStake liquid staking pool

    Models [core/src/mossstake.rs]: the receipt token and its fixed-point rate, lock
    tiers, positions, exits with their cooldown, transfers, reward distribution,
    and the socialized slash of Staking V2, with the operations of the historical
    wall-clock replay ([_at_time]).

    - [positions] is a [BTreeMap]: where its order matters the model uses [btree];
      [unstake_requests] is a [HashMap] whose order never decides a result;
    - an operation that fails leaves the pool as it was, except [claim_unstake],
      which drops matured requests of value zero even then and therefore returns the
      pool beside the result;
    - snapshots, hashes and the yield statistics are not modelled. *)

From S2P Require Import Prelude Crypto Stake Pool StakingV2.
From stdpp Require Import base tactics numbers list gmap.
From Stdlib Require Import ZArith Lia.

Local Open Scope Z_scope.
Local Open Scope rust_scope.

(** ** The receipt token *)

Definition RATE_PRECISION : Z := 1000000000.
Definition SECONDS_PER_DAY : Z := 86400.
Definition MOSSSTAKE_UNSTAKE_COOLDOWN_SECONDS : Z := 7 * SECONDS_PER_DAY.

Record StLicnToken := mkStLicnToken {
  tok_total_supply : Z;
  tok_total_licn_staked : Z;
  tok_exchange_rate_fp : Z;
}.

Definition StLicnToken_new : StLicnToken := mkStLicnToken 0 0 RATE_PRECISION.

Definition StLicnToken_calculate_exchange_rate_fp (t : StLicnToken) : Z :=
  if tok_total_supply t =? 0 then RATE_PRECISION
  else wrap64 (tok_total_licn_staked t * RATE_PRECISION / tok_total_supply t).

Definition StLicnToken_licn_to_st_licn (licn_amount : Z) (t : StLicnToken) : Z :=
  if tok_total_supply t =? 0 then licn_amount
  else wrap64 (licn_amount * RATE_PRECISION / Z.max (tok_exchange_rate_fp t) 1).

Definition StLicnToken_st_licn_to_licn (st_licn_amount : Z) (t : StLicnToken) : Z :=
  wrap64 (st_licn_amount * tok_exchange_rate_fp t / RATE_PRECISION).

(** New totals, with the rate recomputed from them. *)
Definition reprice (supply staked : Z) : StLicnToken :=
  mkStLicnToken supply staked
    (StLicnToken_calculate_exchange_rate_fp (mkStLicnToken supply staked 0)).

(** ** Lock tiers *)

Inductive LockTier := Flexible | Lock30 | Lock180 | Lock365.
#[global] Instance LockTier_eq_dec : EqDecision LockTier.
Proof. solve_decision. Defined.

Definition LockTier_from_u8 (v : Z) : option LockTier :=
  if v =? 0 then Some Flexible else if v =? 1 then Some Lock30
  else if v =? 2 then Some Lock180 else if v =? 3 then Some Lock365 else None.

Definition reward_multiplier_bp (tier : LockTier) : Z :=
  match tier with Flexible => 10000 | Lock30 => 16000 | Lock180 => 24000 | Lock365 => 36000 end.

Definition lock_duration_slots (tier : LockTier) : Z :=
  match tier with
  | Flexible => 0 | Lock30 => 6480000 | Lock180 => 38880000 | Lock365 => 78840000
  end.

Definition lock_duration_seconds (tier : LockTier) : Z :=
  match tier with
  | Flexible => 0 | Lock30 => 30 * SECONDS_PER_DAY | Lock180 => 180 * SECONDS_PER_DAY
  | Lock365 => 365 * SECONDS_PER_DAY
  end.

(** ** Positions, exits and the pool *)

Record StakingPosition := mkStakingPosition {
  pos_owner : Pubkey;
  pos_st_licn_amount : Z;
  pos_licn_deposited : Z;
  pos_deposited_at : Z;
  pos_deposited_at_unix_seconds : Z;
  pos_rewards_earned : Z;
  pos_lock_tier : LockTier;
  pos_lock_until : Z;
  pos_lock_until_unix_seconds : Z;
}.

Definition eta_StakingPosition (p : StakingPosition) : StakingPosition :=
  mkStakingPosition (pos_owner p) (pos_st_licn_amount p) (pos_licn_deposited p) (pos_deposited_at p)
    (pos_deposited_at_unix_seconds p) (pos_rewards_earned p) (pos_lock_tier p) (pos_lock_until p)
    (pos_lock_until_unix_seconds p).
Definition set_pos_st_licn_amount : Z -> StakingPosition -> StakingPosition :=
  ltac:(setter eta_StakingPosition pos_st_licn_amount).
Definition set_pos_licn_deposited : Z -> StakingPosition -> StakingPosition :=
  ltac:(setter eta_StakingPosition pos_licn_deposited).
Definition set_pos_deposited_at_unix_seconds : Z -> StakingPosition -> StakingPosition :=
  ltac:(setter eta_StakingPosition pos_deposited_at_unix_seconds).
Definition set_pos_rewards_earned : Z -> StakingPosition -> StakingPosition :=
  ltac:(setter eta_StakingPosition pos_rewards_earned).
Definition set_pos_lock_until : Z -> StakingPosition -> StakingPosition :=
  ltac:(setter eta_StakingPosition pos_lock_until).
Definition set_pos_lock_until_unix_seconds : Z -> StakingPosition -> StakingPosition :=
  ltac:(setter eta_StakingPosition pos_lock_until_unix_seconds).

(** [UnstakeRequest] of this module, which is not the one of the stake pool. *)
Record MossUnstakeRequest := mkMossUnstakeRequest {
  mur_owner : Pubkey;
  mur_st_licn_amount : Z;
  mur_licn_to_receive : Z;
  mur_requested_at : Z;
  mur_claimable_at : Z;
  mur_requested_at_unix_seconds : Z;
  mur_claimable_at_unix_seconds : Z;
}.

Definition eta_MossUnstakeRequest (r : MossUnstakeRequest) : MossUnstakeRequest :=
  mkMossUnstakeRequest (mur_owner r) (mur_st_licn_amount r) (mur_licn_to_receive r)
    (mur_requested_at r) (mur_claimable_at r) (mur_requested_at_unix_seconds r)
    (mur_claimable_at_unix_seconds r).
Definition set_mur_licn_to_receive : Z -> MossUnstakeRequest -> MossUnstakeRequest :=
  ltac:(setter eta_MossUnstakeRequest mur_licn_to_receive).
Definition set_mur_requested_at_unix_seconds : Z -> MossUnstakeRequest -> MossUnstakeRequest :=
  ltac:(setter eta_MossUnstakeRequest mur_requested_at_unix_seconds).
Definition set_mur_claimable_at_unix_seconds : Z -> MossUnstakeRequest -> MossUnstakeRequest :=
  ltac:(setter eta_MossUnstakeRequest mur_claimable_at_unix_seconds).

Record MossStakeSlashSettlement := mkMossStakeSlashSettlement {
  mss_requested_loss : Z;
  mss_active_backing_loss : Z;
  mss_cooling_down_loss : Z;
}.

Record MossStakePool := mkMossStakePool {
  mp_st_licn_token : StLicnToken;
  mp_positions : gmap Pubkey StakingPosition;
  mp_unstake_requests : gmap Pubkey (list MossUnstakeRequest);
  mp_total_validators : Z;
  mp_average_apy_bp : Z;
}.

Definition eta_MossStakePool (p : MossStakePool) : MossStakePool :=
  mkMossStakePool (mp_st_licn_token p) (mp_positions p) (mp_unstake_requests p)
    (mp_total_validators p) (mp_average_apy_bp p).
Definition set_mp_st_licn_token : StLicnToken -> MossStakePool -> MossStakePool :=
  ltac:(setter eta_MossStakePool mp_st_licn_token).
Definition set_mp_positions : gmap Pubkey StakingPosition -> MossStakePool -> MossStakePool :=
  ltac:(setter eta_MossStakePool mp_positions).
Definition set_mp_unstake_requests
  : gmap Pubkey (list MossUnstakeRequest) -> MossStakePool -> MossStakePool :=
  ltac:(setter eta_MossStakePool mp_unstake_requests).

Definition MossStakePool_new : MossStakePool := mkMossStakePool StLicnToken_new ∅ ∅ 0 0.

(** The totals of the token, as they are read all over the file. *)
Abbreviation supply p := (tok_total_supply (mp_st_licn_token p)).
Abbreviation backing p := (tok_total_licn_staked (mp_st_licn_token p)).

Inductive MossError :=
| PositionKeyMismatch (key embedded : Pubkey)
| PositionWithoutShares (owner : Pubkey)
| ShareTotalOverflow
| PositionValueOverflow (owner : Pubkey)
| ValueTotalOverflow
| ShareMismatch (positions supply : Z)
| BackingMismatch (positions backing : Z)
| RateMismatch (stored expected : Z)
| EmptyRequestBucket (owner : Pubkey)
| RequestKeyMismatch (key embedded : Pubkey)
| RequestWithoutValue (owner : Pubkey)
| RequestDeadlineBeforeRequest (owner : Pubkey)
| MossZeroAmount
| TierChange (current requested : LockTier)
| DepositTooSmall
| SupplyOverflow
| BackingOverflow
| LockDeadlineOverflow
| PositionShareOverflow
| PositionPrincipalOverflow
| CooldownDeadlineOverflow
| NoPosition (owner : Pubkey)
| PositionLocked (until : Z)
| InsufficientShares (have need : Z)
| NoShares
| UnstakeValueOverflow
| SupplyUnderflow
| BackingUnderflow
| NoRequests
| NothingClaimable
| TransferToSelf
| NotTransferable (tier : LockTier)
| NoWeightedPositions
| RewardRemainderUnderflow
| RewardTotalOverflow
| PositionRewardOverflow (owner : Pubkey)
| RewardConservation (distributed expected : Z)
| SlashableExitOverflow
| SlashableValueOverflow
| SlashRemainderUnderflow
| SlashSplitExceedsAvailable
| SlashWithoutPositions
| SlashExceedsPosition (owner : Pubkey)
| SlashExceedsRequest (owner : Pubkey)
| SlashTotalOverflow
| SlashUnderflow
| SlashDisappeared (owner : Pubkey)
| SlashConservation
| LiabilityOverflow.

(** ** The structural check *)

Definition validate_position (acc : Z * Z) (entry : Pubkey * StakingPosition)
  : result (Z * Z) MossError :=
  let '(shares, value) := acc in
  let '(owner, position) := entry in
  reject negb (pos_owner position =? owner) with PositionKeyMismatch owner (pos_owner position);
  reject pos_st_licn_amount position =? 0 with PositionWithoutShares owner;
  or_err (checked_add64 shares (pos_st_licn_amount position)) ShareTotalOverflow (fun shares =>
  or_err (checked_add64 (pos_licn_deposited position) (pos_rewards_earned position))
    (PositionValueOverflow owner) (fun position_value =>
  or_err (checked_add64 value position_value) ValueTotalOverflow (fun value =>
  Ok (shares, value)))).

Definition validate_request (owner : Pubkey) (_ : unit) (request : MossUnstakeRequest)
  : result unit MossError :=
  reject negb (mur_owner request =? owner) with RequestKeyMismatch owner (mur_owner request);
  reject (mur_st_licn_amount request =? 0) || (mur_licn_to_receive request =? 0)
    with RequestWithoutValue owner;
  reject mur_claimable_at request <? mur_requested_at request with RequestDeadlineBeforeRequest owner;
  reject (0 <? mur_claimable_at_unix_seconds request)
         && (mur_claimable_at_unix_seconds request <? mur_requested_at_unix_seconds request)
    with RequestDeadlineBeforeRequest owner;
  Ok tt.

Definition validate_bucket (_ : unit) (entry : Pubkey * list MossUnstakeRequest)
  : result unit MossError :=
  let '(owner, requests) := entry in
  reject bool_decide (requests = []) with EmptyRequestBucket owner;
  try_fold (validate_request owner) tt requests.

Definition MossStakePool_validate_invariants (p : MossStakePool) : result unit MossError :=
  let? totals := try_fold validate_position (0, 0) (btree (mp_positions p)) in
  reject negb (totals.1 =? supply p) with ShareMismatch totals.1 (supply p);
  reject negb (totals.2 =? backing p) with BackingMismatch totals.2 (backing p);
  let expected_rate := StLicnToken_calculate_exchange_rate_fp (mp_st_licn_token p) in
  reject negb (tok_exchange_rate_fp (mp_st_licn_token p) =? expected_rate)
    with RateMismatch (tok_exchange_rate_fp (mp_st_licn_token p)) expected_rate;
  try_fold validate_bucket tt (map_to_list (mp_unstake_requests p)).

(** ** Values of positions *)

Definition MossStakePool_position_value (position : StakingPosition) : Z :=
  sat_add64 (pos_licn_deposited position) (pos_rewards_earned position).

(** Principal, rewards and value of [st_licn_amount] shares of a position. *)
Definition split_position_value_for_unstake (position : StakingPosition) (st_licn_amount : Z)
  : result (Z * Z * Z) MossError :=
  let shares := pos_st_licn_amount position in
  reject shares =? 0 with NoShares;
  reject shares <? st_licn_amount with InsufficientShares shares st_licn_amount;
  if st_licn_amount =? shares then
    or_err (checked_add64 (pos_licn_deposited position) (pos_rewards_earned position))
      (PositionValueOverflow (pos_owner position)) (fun licn_to_receive =>
    Ok (pos_licn_deposited position, pos_rewards_earned position, licn_to_receive))
  else
    let principal_out := wrap64 (st_licn_amount * pos_licn_deposited position / shares) in
    let rewards_out := wrap64 (st_licn_amount * pos_rewards_earned position / shares) in
    or_err (checked_add64 principal_out rewards_out) UnstakeValueOverflow (fun value =>
    Ok (principal_out, rewards_out, value)).

(** ** Wall-clock fields of the historical replay

    The flag both functions return, whether anything changed, is not modelled. *)

Definition MossStakePool_clear_wall_clock_times (p : MossStakePool) : MossStakePool :=
  let clear_position x := set_pos_deposited_at_unix_seconds 0 (set_pos_lock_until_unix_seconds 0 x) in
  let clear_request x :=
    set_mur_requested_at_unix_seconds 0 (set_mur_claimable_at_unix_seconds 0 x) in
  set_mp_positions (clear_position <$> mp_positions p)
    (set_mp_unstake_requests (map clear_request <$> mp_unstake_requests p) p).

(** [if x == 0 { if let Some(ts) = ... { x = ts } }] *)
Definition fill (current : Z) (timestamp : option Z) : Z :=
  if current =? 0 then default current timestamp else current.

Definition backfill_position (timestamp_for_slot : Z -> option Z) (x : StakingPosition)
  : StakingPosition :=
  let x := set_pos_deposited_at_unix_seconds
             (fill (pos_deposited_at_unix_seconds x) (timestamp_for_slot (pos_deposited_at x))) x in
  if (pos_lock_until_unix_seconds x =? 0) && (0 <? pos_lock_until x) then
    let deposit_ts :=
      if 0 <? pos_deposited_at_unix_seconds x then Some (pos_deposited_at_unix_seconds x)
      else timestamp_for_slot (pos_deposited_at x) in
    match deposit_ts with
    | Some ts =>
        set_pos_lock_until_unix_seconds
          (sat_add64 ts (lock_duration_seconds (pos_lock_tier x))) x
    | None => x
    end
  else x.

Definition backfill_request (timestamp_for_slot : Z -> option Z) (x : MossUnstakeRequest)
  : MossUnstakeRequest :=
  let x := set_mur_requested_at_unix_seconds
             (fill (mur_requested_at_unix_seconds x) (timestamp_for_slot (mur_requested_at x))) x in
  if mur_claimable_at_unix_seconds x =? 0 then
    let request_ts :=
      if 0 <? mur_requested_at_unix_seconds x then Some (mur_requested_at_unix_seconds x)
      else timestamp_for_slot (mur_requested_at x) in
    match request_ts with
    | Some ts =>
        set_mur_claimable_at_unix_seconds (sat_add64 ts MOSSSTAKE_UNSTAKE_COOLDOWN_SECONDS) x
    | None => x
    end
  else x.

Definition MossStakePool_backfill_wall_clock_times (timestamp_for_slot : Z -> option Z)
  (p : MossStakePool) : MossStakePool :=
  set_mp_positions (backfill_position timestamp_for_slot <$> mp_positions p)
    (set_mp_unstake_requests
       (map (backfill_request timestamp_for_slot) <$> mp_unstake_requests p) p).

(** ** Deposits *)

(** The checks and amounts both deposit functions start with. *)
Definition deposit_preflight (user : Pubkey) (licn_amount : Z) (tier : LockTier) (p : MossStakePool)
  : result (Z * Z * Z) MossError :=
  reject licn_amount =? 0 with MossZeroAmount;
  reject match mp_positions p !! user with
         | Some position => negb (bool_decide (tier = pos_lock_tier position))
         | None => false
         end
    with TierChange (from_option pos_lock_tier tier (mp_positions p !! user)) tier;
  let st_licn_to_mint := StLicnToken_licn_to_st_licn licn_amount (mp_st_licn_token p) in
  reject st_licn_to_mint =? 0 with DepositTooSmall;
  or_err (checked_add64 (supply p) st_licn_to_mint) SupplyOverflow (fun new_total_supply =>
  or_err (checked_add64 (backing p) licn_amount) BackingOverflow (fun new_total_licn_staked =>
  Ok (st_licn_to_mint, new_total_supply, new_total_licn_staked))).

(** [if duration > 0 { now.checked_add(duration)? } else { 0 }] *)
Definition deadline (now duration : Z) : result Z MossError :=
  if 0 <? duration then or_err (checked_add64 now duration) LockDeadlineOverflow Ok else Ok 0.

(** Shares and principal of an existing position after the deposit. *)
Definition existing_update (user : Pubkey) (minted licn_amount : Z) (p : MossStakePool)
  : result (option (StakingPosition * Z * Z)) MossError :=
  match mp_positions p !! user with
  | None => Ok None
  | Some position =>
      or_err (checked_add64 (pos_st_licn_amount position) minted) PositionShareOverflow (fun shares =>
      or_err (checked_add64 (pos_licn_deposited position) licn_amount) PositionPrincipalOverflow
        (fun principal => Ok (Some (position, shares, principal))))
  end.

Definition MossStakePool_stake_with_tier (user : Pubkey) (licn_amount current_slot : Z)
  (tier : LockTier) (p : MossStakePool) : result (Z * MossStakePool) MossError :=
  let? '(minted, new_supply, new_backing) := deposit_preflight user licn_amount tier p in
  let? lock_until := deadline current_slot (lock_duration_slots tier) in
  let? existing := existing_update user minted licn_amount p in
  let p := set_mp_st_licn_token (reprice new_supply new_backing) p in
  let position :=
    match existing with
    | Some (position, shares, principal) =>
        let position := set_pos_st_licn_amount shares (set_pos_licn_deposited principal position) in
        let position := if pos_lock_until position <? lock_until
                        then set_pos_lock_until lock_until position else position in
        set_pos_deposited_at_unix_seconds 0 (set_pos_lock_until_unix_seconds 0 position)
    | None => mkStakingPosition user minted licn_amount current_slot 0 0 tier lock_until 0
    end in
  Ok (minted, set_mp_positions (<[user := position]> (mp_positions p)) p).

Definition MossStakePool_stake (user : Pubkey) (licn_amount current_slot : Z) (p : MossStakePool)
  : result (Z * MossStakePool) MossError :=
  MossStakePool_stake_with_tier user licn_amount current_slot Flexible p.

Definition MossStakePool_stake_with_tier_at_time (user : Pubkey)
  (licn_amount current_slot current_unix_seconds : Z) (tier : LockTier) (p : MossStakePool)
  : result (Z * MossStakePool) MossError :=
  let? '(minted, new_supply, new_backing) := deposit_preflight user licn_amount tier p in
  let? lock_until := deadline current_slot (lock_duration_slots tier) in
  let? lock_until_unix_seconds := deadline current_unix_seconds (lock_duration_seconds tier) in
  let? existing := existing_update user minted licn_amount p in
  let p := set_mp_st_licn_token (reprice new_supply new_backing) p in
  let position :=
    match existing with
    | Some (position, shares, principal) =>
        let position := set_pos_st_licn_amount shares (set_pos_licn_deposited principal position) in
        let position := if pos_lock_until position <? lock_until
                        then set_pos_lock_until lock_until position else position in
        if pos_lock_until_unix_seconds position <? lock_until_unix_seconds
        then set_pos_lock_until_unix_seconds lock_until_unix_seconds position else position
    | None =>
        mkStakingPosition user minted licn_amount current_slot current_unix_seconds 0 tier
          lock_until lock_until_unix_seconds
    end in
  Ok (minted, set_mp_positions (<[user := position]> (mp_positions p)) p).

(** ** Exits *)

(** [position.remove] when shares, principal and rewards are all zero. *)
Definition put_position (user : Pubkey) (position : StakingPosition)
  (positions : gmap Pubkey StakingPosition) : gmap Pubkey StakingPosition :=
  if (pos_st_licn_amount position =? 0) && (pos_licn_deposited position =? 0)
     && (pos_rewards_earned position =? 0)
  then delete user positions else <[user := position]> positions.

(** Burn shares of a position with the principal and the rewards behind them. *)
Definition burn (shares principal rewards : Z) (position : StakingPosition) : StakingPosition :=
  set_pos_st_licn_amount (pos_st_licn_amount position - shares)
    (set_pos_licn_deposited (sat_sub (pos_licn_deposited position) principal)
       (set_pos_rewards_earned (sat_sub (pos_rewards_earned position) rewards) position)).

(** The part of both exit functions behind the lock check. *)
Definition start_exit (user : Pubkey) (position : StakingPosition) (st_licn_amount : Z)
  (request_for : Z -> MossUnstakeRequest) (p : MossStakePool)
  : result (MossUnstakeRequest * MossStakePool) MossError :=
  reject pos_st_licn_amount position <? st_licn_amount
    with InsufficientShares (pos_st_licn_amount position) st_licn_amount;
  let? '(principal_out, rewards_out, licn_to_receive) :=
    split_position_value_for_unstake position st_licn_amount in
  or_err (checked_sub (supply p) st_licn_amount) SupplyUnderflow (fun new_total_supply =>
  or_err (checked_sub (backing p) licn_to_receive) BackingUnderflow (fun new_total_licn_staked =>
  let request := request_for licn_to_receive in
  let requests := default [] (mp_unstake_requests p !! user) ++ [request] in
  let position := burn st_licn_amount principal_out rewards_out position in
  let p := set_mp_st_licn_token (reprice new_total_supply new_total_licn_staked) p in
  let p := set_mp_unstake_requests (<[user := requests]> (mp_unstake_requests p)) p in
  Ok (request, set_mp_positions (put_position user position (mp_positions p)) p))).

Definition MossStakePool_request_unstake (user : Pubkey) (st_licn_amount current_slot : Z)
  (p : MossStakePool) : result (MossUnstakeRequest * MossStakePool) MossError :=
  reject st_licn_amount =? 0 with MossZeroAmount;
  or_err (checked_add64 current_slot UNSTAKE_COOLDOWN_SLOTS) CooldownDeadlineOverflow (fun claimable_at =>
  or_err (mp_positions p !! user) (NoPosition user) (fun position =>
  reject (0 <? pos_lock_until position) && (current_slot <? pos_lock_until position)
    with PositionLocked (pos_lock_until position);
  start_exit user position st_licn_amount
    (fun licn_to_receive =>
       mkMossUnstakeRequest user st_licn_amount licn_to_receive current_slot claimable_at 0 0) p)).

Definition MossStakePool_request_unstake_at_time (user : Pubkey)
  (st_licn_amount current_slot current_unix_seconds : Z) (p : MossStakePool)
  : result (MossUnstakeRequest * MossStakePool) MossError :=
  reject st_licn_amount =? 0 with MossZeroAmount;
  or_err (checked_add64 current_slot UNSTAKE_COOLDOWN_SLOTS) CooldownDeadlineOverflow (fun claimable_at =>
  or_err (checked_add64 current_unix_seconds MOSSSTAKE_UNSTAKE_COOLDOWN_SECONDS)
    CooldownDeadlineOverflow (fun claimable_at_unix_seconds =>
  or_err (mp_positions p !! user) (NoPosition user) (fun position =>
  reject (0 <? pos_lock_until_unix_seconds position)
         && (current_unix_seconds <? pos_lock_until_unix_seconds position)
    with PositionLocked (pos_lock_until_unix_seconds position);
  reject (0 <? pos_lock_until position) && (current_slot <? pos_lock_until position)
    with PositionLocked (pos_lock_until position);
  start_exit user position st_licn_amount
    (fun licn_to_receive =>
       mkMossUnstakeRequest user st_licn_amount licn_to_receive current_slot claimable_at
         current_unix_seconds claimable_at_unix_seconds) p))).

(** The loop over the drained requests: the wrapping total of the claimable ones
    and the ones that remain. *)
Definition drain (claimable : MossUnstakeRequest -> bool) (requests : list MossUnstakeRequest)
  : Z * list MossUnstakeRequest :=
  foldl (fun '(total, remaining) request =>
           if claimable request then (wrap64 (total + mur_licn_to_receive request), remaining)
           else (total, remaining ++ [request])) (0, []) requests.

Definition claim_where (claimable : MossUnstakeRequest -> bool) (user : Pubkey) (p : MossStakePool)
  : result Z MossError * MossStakePool :=
  match mp_unstake_requests p !! user with
  | None => (Err NoRequests, p)
  | Some requests =>
      let '(total_claimable, remaining) := drain claimable requests in
      if total_claimable =? 0 then
        (Err NothingClaimable,
         set_mp_unstake_requests (<[user := remaining]> (mp_unstake_requests p)) p)
      else
        let requests := if bool_decide (remaining = []) then delete user (mp_unstake_requests p)
                        else <[user := remaining]> (mp_unstake_requests p) in
        (Ok total_claimable,
         set_mp_st_licn_token (reprice (supply p) (backing p)) (set_mp_unstake_requests requests p))
  end.

Definition MossStakePool_claim_unstake (user : Pubkey) (current_slot : Z) (p : MossStakePool)
  : result Z MossError * MossStakePool :=
  claim_where (fun request => mur_claimable_at request <=? current_slot) user p.

Definition MossStakePool_claim_unstake_at_time (user : Pubkey) (current_slot current_unix_seconds : Z)
  (p : MossStakePool) : result Z MossError * MossStakePool :=
  claim_where (fun request =>
    if 0 <? mur_claimable_at_unix_seconds request
    then mur_claimable_at_unix_seconds request <=? current_unix_seconds
    else mur_claimable_at request <=? current_slot) user p.

(** ** Transfers *)

Definition assert_transferable_position (position : StakingPosition) (current_slot : Z)
  : result unit MossError :=
  reject negb (bool_decide (pos_lock_tier position = Flexible)) with NotTransferable (pos_lock_tier position);
  reject current_slot <? pos_lock_until position with PositionLocked (pos_lock_until position);
  Ok tt.

Definition assert_transferable_position_at_time (position : StakingPosition)
  (current_slot current_unix_seconds : Z) : result unit MossError :=
  reject negb (bool_decide (pos_lock_tier position = Flexible)) with NotTransferable (pos_lock_tier position);
  reject current_unix_seconds <? pos_lock_until_unix_seconds position
    with PositionLocked (pos_lock_until_unix_seconds position);
  reject current_slot <? pos_lock_until position with PositionLocked (pos_lock_until position);
  Ok tt.

(** The body both transfer functions share; [movable] is the lock check and
    [deposited_unix] the wall-clock time of a new position. *)
Definition transfer_where (movable : StakingPosition -> result unit MossError)
  (from to : Pubkey) (st_licn_amount current_slot deposited_unix : Z) (p : MossStakePool)
  : result MossStakePool MossError :=
  reject st_licn_amount =? 0 with MossZeroAmount;
  reject from =? to with TransferToSelf;
  or_err (mp_positions p !! from) (NoPosition from) (fun sender =>
  let? _ := movable sender in
  reject pos_st_licn_amount sender <? st_licn_amount
    with InsufficientShares (pos_st_licn_amount sender) st_licn_amount;
  let? _ := match mp_positions p !! to with Some receiver => movable receiver | None => Ok tt end in
  let? '(deposited_transfer, rewards_transfer, _) :=
    split_position_value_for_unstake sender st_licn_amount in
  let positions := put_position from (burn st_licn_amount deposited_transfer rewards_transfer sender)
                     (mp_positions p) in
  let receiver :=
    match positions !! to with
    | Some receiver =>
        set_pos_st_licn_amount (wrap64 (pos_st_licn_amount receiver + st_licn_amount))
          (set_pos_licn_deposited (wrap64 (pos_licn_deposited receiver + deposited_transfer))
             (set_pos_rewards_earned (wrap64 (pos_rewards_earned receiver + rewards_transfer)) receiver))
    | None =>
        mkStakingPosition to st_licn_amount deposited_transfer current_slot deposited_unix
          rewards_transfer Flexible 0 0
    end in
  Ok (set_mp_positions (<[to := receiver]> positions) p)).

Definition MossStakePool_transfer (from to : Pubkey) (st_licn_amount current_slot : Z)
  (p : MossStakePool) : result MossStakePool MossError :=
  transfer_where (fun position => assert_transferable_position position current_slot)
    from to st_licn_amount current_slot 0 p.

Definition MossStakePool_transfer_at_time (from to : Pubkey)
  (st_licn_amount current_slot current_unix_seconds : Z) (p : MossStakePool)
  : result MossStakePool MossError :=
  transfer_where
    (fun position => assert_transferable_position_at_time position current_slot current_unix_seconds)
    from to st_licn_amount current_slot current_unix_seconds p.

(** ** Rewards *)

Definition weighted_shares (position : StakingPosition) : Z :=
  pos_st_licn_amount position * reward_multiplier_bp (pos_lock_tier position) / 10000.

Definition MossStakePool_total_weighted_st_licn (p : MossStakePool) : Z :=
  sumZ (fun entry => weighted_shares entry.2) (btree (mp_positions p)).

Definition reward_update (tier_weighted : bool) (total_rewards total_weighted : Z)
  (last : bool) (acc : Z * list (Pubkey * Z)) (entry : Pubkey * StakingPosition)
  : result (Z * list (Pubkey * Z)) MossError :=
  let '(distributed, updates) := acc in
  let '(owner, position) := entry in
  let weighted := if tier_weighted then weighted_shares position else pos_st_licn_amount position in
  let? reward_share :=
    if last then or_err (checked_sub total_rewards distributed) RewardRemainderUnderflow Ok
    else Ok (wrap64 (weighted * total_rewards / total_weighted)) in
  or_err (checked_add64 distributed reward_share) RewardTotalOverflow (fun distributed =>
  or_err (checked_add64 (pos_rewards_earned position) reward_share) (PositionRewardOverflow owner)
    (fun new_rewards_earned => Ok (distributed, updates ++ [(owner, new_rewards_earned)]))).

(** [self.positions.get_mut(&owner)?.rewards_earned = new_rewards_earned] *)
Definition apply_reward (positions : gmap Pubkey StakingPosition) (update : Pubkey * Z)
  : result (gmap Pubkey StakingPosition) MossError :=
  or_err (positions !! update.1) (NoPosition update.1) (fun position =>
  Ok (<[update.1 := set_pos_rewards_earned update.2 position]> positions)).

Definition distribute_rewards_with_policy (total_rewards : Z) (tier_weighted : bool) (p : MossStakePool)
  : result MossStakePool MossError :=
  if (total_rewards =? 0) || (supply p =? 0) then Ok p
  else
    let total_weighted :=
      if tier_weighted then MossStakePool_total_weighted_st_licn p else supply p in
    reject total_weighted =? 0 with NoWeightedPositions;
    or_err (checked_add64 (backing p) total_rewards) BackingOverflow (fun new_total_licn_staked =>
    let? '(distributed, updates) :=
      try_fold_last (reward_update tier_weighted total_rewards total_weighted) (0, [])
        (btree (mp_positions p)) in
    reject negb (distributed =? total_rewards) with RewardConservation distributed total_rewards;
    let? positions := try_fold apply_reward (mp_positions p) updates in
    Ok (set_mp_st_licn_token (reprice (supply p) new_total_licn_staked)
          (set_mp_positions positions p))).

Definition MossStakePool_distribute_rewards (total_rewards : Z) (p : MossStakePool)
  : result MossStakePool MossError :=
  distribute_rewards_with_policy total_rewards true p.

(** The pool is changed in place, so a failing second check leaves it changed; the
    callers abandon it. *)
Definition MossStakePool_distribute_rewards_v2 (total_rewards : Z) (p : MossStakePool)
  : result MossStakePool MossError :=
  let? _ := MossStakePool_validate_invariants p in
  let? p := distribute_rewards_with_policy total_rewards false p in
  let? _ := MossStakePool_validate_invariants p in
  Ok p.

(** ** The socialized slash *)

(** The exits requested since the offense epoch began: owner, index and value. *)
Definition eligible_of (offense_epoch_start_slot : Z) (entry : Pubkey * list MossUnstakeRequest)
  : list (Pubkey * nat * Z) :=
  omap (fun '(index, request) =>
          if offense_epoch_start_slot <=? mur_requested_at request
          then Some (entry.1, index, mur_licn_to_receive request) else None)
       (zip (seq 0 (length entry.2)) entry.2).

Definition eligible_requests (offense_epoch_start_slot : Z) (p : MossStakePool)
  : list (Pubkey * nat * Z) :=
  map_to_list (mp_unstake_requests p) ≫= eligible_of offense_epoch_start_slot.

(** A loss of [loss] over [total] falls on [value]: the floor of the proportional
    part, or the remainder for the last one.  The source computes it in 128 bits and narrows it
    to 64, which cannot fail: [value] is at most [total], so the part is at most [loss]. *)
Definition loss_share (last : bool) (loss value total distributed : Z) : result Z MossError :=
  if last then or_err (checked_sub loss distributed) SlashRemainderUnderflow Ok
  else Ok (loss * value / total).

Definition positive_positions (p : MossStakePool) : result (list (Pubkey * Z)) MossError :=
  try_fold (fun found entry =>
    or_err (checked_add64 (pos_licn_deposited entry.2) (pos_rewards_earned entry.2))
      (PositionValueOverflow entry.1) (fun value =>
    Ok (if 0 <? value then found ++ [(entry.1, value)] else found))) [] (btree (mp_positions p)).

Definition slash_position (active_backing_loss active_available : Z) (last : bool)
  (acc : Z * gmap Pubkey StakingPosition) (entry : Pubkey * Z)
  : result (Z * gmap Pubkey StakingPosition) MossError :=
  let '(distributed, positions) := acc in
  let '(owner, value) := entry in
  let? loss := loss_share last active_backing_loss value active_available distributed in
  reject value <? loss with SlashExceedsPosition owner;
  or_err (checked_add64 distributed loss) SlashTotalOverflow (fun distributed =>
  or_err (positions !! owner) (SlashDisappeared owner) (fun position =>
  let reward_loss := Z.min loss (pos_rewards_earned position) in
  or_err (checked_sub (pos_rewards_earned position) reward_loss) SlashUnderflow (fun rewards =>
  or_err (checked_sub loss reward_loss) SlashUnderflow (fun principal_loss =>
  or_err (checked_sub (pos_licn_deposited position) principal_loss) SlashUnderflow (fun principal =>
  Ok (distributed,
      <[owner := set_pos_rewards_earned rewards (set_pos_licn_deposited principal position)]>
        positions)))))).

Definition slash_active (active_backing_loss active_available : Z) (p : MossStakePool)
  : result MossStakePool MossError :=
  if 0 <? active_backing_loss then
    let? found := positive_positions p in
    reject bool_decide (found = []) || (active_available =? 0) with SlashWithoutPositions;
    let? '(distributed, positions) :=
      try_fold_last (slash_position active_backing_loss active_available) (0, mp_positions p) found in
    reject negb (distributed =? active_backing_loss) with SlashConservation;
    or_err (checked_sub (backing p) active_backing_loss) SlashUnderflow (fun staked =>
    let token := mp_st_licn_token p in
    Ok (set_mp_st_licn_token
          (mkStLicnToken (tok_total_supply token) staked (tok_exchange_rate_fp token))
          (set_mp_positions positions p)))
  else Ok p.

Definition slash_request (cooling_down_loss cooling_down_available : Z) (last : bool)
  (acc : Z * gmap Pubkey (list MossUnstakeRequest)) (entry : Pubkey * nat * Z)
  : result (Z * gmap Pubkey (list MossUnstakeRequest)) MossError :=
  let '(distributed, requests) := acc in
  let '(owner, request_index, value) := entry in
  let? loss := loss_share last cooling_down_loss value cooling_down_available distributed in
  reject value <? loss with SlashExceedsRequest owner;
  or_err (checked_add64 distributed loss) SlashTotalOverflow (fun distributed =>
  or_err (requests !! owner ≫= (.!! request_index)) (SlashDisappeared owner) (fun request =>
  or_err (checked_sub (mur_licn_to_receive request) loss) SlashUnderflow (fun rest =>
  Ok (distributed,
      alter (<[request_index := set_mur_licn_to_receive rest request]>) owner requests)))).

(** [requests.retain(value > 0)] in every bucket, then drop the empty buckets. *)
Definition retain_requests (requests : gmap Pubkey (list MossUnstakeRequest))
  : gmap Pubkey (list MossUnstakeRequest) :=
  filter (fun entry => entry.2 <> [])
    (filter (fun request => 0 < mur_licn_to_receive request) <$> requests).

Definition slash_cooling (cooling_down_loss cooling_down_available : Z)
  (eligible : list (Pubkey * nat * Z)) (p : MossStakePool) : result MossStakePool MossError :=
  if 0 <? cooling_down_loss then
    (* a stable sort by owner keeps the requests of an owner in index order *)
    let sorted := sort_by_key (fun entry => entry.1.1) eligible in
    let? '(distributed, requests) :=
      try_fold_last (slash_request cooling_down_loss cooling_down_available)
        (0, mp_unstake_requests p) sorted in
    reject negb (distributed =? cooling_down_loss) with SlashConservation;
    Ok (set_mp_unstake_requests (retain_requests requests) p)
  else Ok p.

Definition MossStakePool_apply_staking_v2_slash (requested_loss offense_epoch_start_slot : Z)
  (p : MossStakePool) : result (MossStakeSlashSettlement * MossStakePool) MossError :=
  let? _ := MossStakePool_validate_invariants p in
  if requested_loss =? 0 then Ok (mkMossStakeSlashSettlement requested_loss 0 0, p)
  else
    let eligible := eligible_requests offense_epoch_start_slot p in
    let? cooling_down_available :=
      try_fold (fun total amount => or_err (checked_add64 total amount) SlashableExitOverflow Ok) 0
        (snd <$> eligible) in
    let active_available := backing p in
    or_err (checked_add64 active_available cooling_down_available) SlashableValueOverflow
      (fun total_available =>
    let actual_loss := Z.min requested_loss total_available in
    if actual_loss =? 0 then Ok (mkMossStakeSlashSettlement requested_loss 0 0, p)
    else
      let cooling_down_loss :=
        if cooling_down_available =? 0 then 0
        else actual_loss * cooling_down_available / total_available in
      or_err (checked_sub actual_loss cooling_down_loss) SlashUnderflow (fun active_backing_loss =>
      reject (active_available <? active_backing_loss) || (cooling_down_available <? cooling_down_loss)
        with SlashSplitExceedsAvailable;
      let? updated := slash_active active_backing_loss active_available p in
      let? updated := slash_cooling cooling_down_loss cooling_down_available eligible updated in
      let updated := set_mp_st_licn_token (reprice (supply updated) (backing updated)) updated in
      let? _ := MossStakePool_validate_invariants updated in
      Ok (mkMossStakeSlashSettlement requested_loss active_backing_loss cooling_down_loss, updated))).

Definition MossStakeSlashSettlement_actual_loss (s : MossStakeSlashSettlement) : result Z MossError :=
  or_err (checked_add64 (mss_active_backing_loss s) (mss_cooling_down_loss s)) SlashTotalOverflow Ok.

Definition MossStakePool_pending_unstake_liability_total (p : MossStakePool) : result Z MossError :=
  try_fold (fun total request =>
    or_err (checked_add64 total (mur_licn_to_receive request)) LiabilityOverflow Ok) 0
    (map_to_list (mp_unstake_requests p) ≫= snd).
