(* ===== verification/MossInvariant.v ===== *)
(** * The accounting of MossStake

    The declarative invariant of the liquid staking pool, its equivalence with
    [MossStakePool::validate_invariants], and its preservation by every operation
    together with the exact change of what the pool owes: deposits and rewards
    flow in, claims and slashes flow out, everything else only moves value between
    positions and pending exits. *)

From S2P Require Import Prelude Crypto Stake Pool StakingV2 Moss.
From stdpp Require Import base tactics numbers list gmap.
From Stdlib Require Import ZArith Lia.

Local Open Scope Z_scope.

(** ** The invariant *)

Definition value (x : StakingPosition) : Z := pos_licn_deposited x + pos_rewards_earned x.

(** What the requests of one owner are worth. *)
Definition bucket_value (l : list MossUnstakeRequest) : Z := sumZ mur_licn_to_receive l.

(** Everything the pool owes: the backing of the positions and the exits. *)
Definition owed (p : MossStakePool) : Z := backing p + map_sum bucket_value (mp_unstake_requests p).

Record position_inv (owner : Pubkey) (x : StakingPosition) : Prop := {
  po_owner : pos_owner x = owner;
  po_shares : 0 < pos_st_licn_amount x;
  po_principal : 0 <= pos_licn_deposited x;
  po_rewards : 0 <= pos_rewards_earned x;
}.

Record request_inv (owner : Pubkey) (r : MossUnstakeRequest) : Prop := {
  rq_owner : mur_owner r = owner;
  rq_shares : 0 < mur_st_licn_amount r;
  rq_value : 0 < mur_licn_to_receive r;
  rq_slots : mur_requested_at r <= mur_claimable_at r;
  rq_seconds : 0 < mur_claimable_at_unix_seconds r ->
    mur_requested_at_unix_seconds r <= mur_claimable_at_unix_seconds r;
}.

Definition bucket_inv (owner : Pubkey) (l : list MossUnstakeRequest) : Prop :=
  l <> [] /\ Forall (request_inv owner) l.

Record moss_inv (p : MossStakePool) : Prop := {
  mi_positions : map_Forall position_inv (mp_positions p);
  mi_supply : map_sum pos_st_licn_amount (mp_positions p) = supply p;
  mi_supply_max : supply p <= u64_max;
  mi_backing : map_sum value (mp_positions p) = backing p;
  mi_backing_max : backing p <= u64_max;
  mi_rate : tok_exchange_rate_fp (mp_st_licn_token p)
            = StLicnToken_calculate_exchange_rate_fp (mp_st_licn_token p);
  mi_requests : map_Forall bucket_inv (mp_unstake_requests p);
}.

(** The fields are unsigned. *)
Record moss_unsigned (p : MossStakePool) : Prop := {
  mu_positions : map_Forall (fun _ x =>
    0 <= pos_st_licn_amount x /\ 0 <= pos_licn_deposited x /\ 0 <= pos_rewards_earned x)
    (mp_positions p);
  mu_requests : map_Forall (fun _ l =>
    Forall (fun r => 0 <= mur_st_licn_amount r /\ 0 <= mur_licn_to_receive r) l)
    (mp_unstake_requests p);
}.

(** ** The check *)

Lemma btree_perm {A} (m : gmap Pubkey A) : btree m ≡ₚ map_to_list m.
Proof. apply sort_by_key_perm. Qed.

Lemma elem_of_btree {A} (m : gmap Pubkey A) k x : (k, x) ∈ btree m <-> m !! k = Some x.
Proof. by rewrite btree_perm, elem_of_map_to_list. Qed.

Lemma btree_sum {A} (f : A -> Z) (m : gmap Pubkey A) :
  sumZ (fun kv => f kv.2) (btree m) = map_sum f m.
Proof. unfold map_sum. by rewrite btree_perm. Qed.

Lemma Forall_btree {A} (P : Pubkey -> A -> Prop) (m : gmap Pubkey A) :
  Forall (fun kx => P kx.1 kx.2) (btree m) <-> map_Forall P m.
Proof.
  rewrite Forall_forall. split.
  - intros HP k x Hx. apply (HP (k, x)). by apply elem_of_btree.
  - intros HP [k x] Hx%elem_of_btree. by apply HP.
Qed.

Lemma validate_positions_Ok l a b c d :
  (forall k x, (k, x) ∈ l ->
     0 <= pos_st_licn_amount x /\ 0 <= pos_licn_deposited x /\ 0 <= pos_rewards_earned x) ->
  0 <= a <= u64_max -> 0 <= b <= u64_max ->
  try_fold validate_position (a, b) l = Ok (c, d)
  <-> Forall (fun kx => position_inv kx.1 kx.2) l
      /\ c = a + sumZ (fun kx => pos_st_licn_amount kx.2) l /\ c <= u64_max
      /\ d = b + sumZ (fun kx => value kx.2) l /\ d <= u64_max.
Proof.
  revert a b. induction l as [|[k x] l IH]; intros a b Hu Ha Hb; cbn [try_fold].
  { unfold sumZ. simpl. split; [intros [= <- <-]; split_and!; (constructor || lia)|].
    intros (_ & -> & _ & -> & _). by rewrite !Z.add_0_r. }
  destruct (Hu k x ltac:(left)) as (Hs & Hd & Hr).
  assert (forall k' x', (k', x') ∈ l ->
    0 <= pos_st_licn_amount x' /\ 0 <= pos_licn_deposited x' /\ 0 <= pos_rewards_earned x') as Hl
    by (intros k' x' ?; apply (Hu k'); by right).
  pose proof (sumZ_nonneg (fun kx => pos_st_licn_amount kx.2) l) as H1.
  pose proof (sumZ_nonneg (fun kx => value kx.2) l) as H2.
  assert (0 <= sumZ (fun kx => pos_st_licn_amount kx.2) l) as Hn1
    by (apply H1; intros [k' x'] ?%Hl; simpl; tauto).
  assert (0 <= sumZ (fun kx => value kx.2) l) as Hn2
    by (apply H2; intros [k' x'] ?%Hl; unfold value; simpl; lia).
  rewrite and_then_Ok, Forall_cons, !sumZ_cons. unfold validate_position at 1, value at 1. simpl.
  setoid_rewrite guard_Ok. setoid_rewrite guard_Ok. setoid_rewrite or_err_Ok.
  setoid_rewrite or_err_Ok. setoid_rewrite or_err_Ok. setoid_rewrite checked_add64_Some.
  setoid_rewrite negb_false_iff. setoid_rewrite Z.eqb_eq. setoid_rewrite Z.eqb_neq. split.
  - intros ([a' b'] & (Hk & Hne & ? & [-> ?] & ? & [-> ?] & ? & [-> ?] & [= <- <-]) & Hf).
    apply IH in Hf as (? & -> & ? & -> & ?); [|done|lia|lia].
    split_and!; [by split; simpl; lia|done|lia..].
  - intros ([[Hk Hp ??] Hf] & -> & ? & -> & ?). simpl in *. unfold value in *. simpl in *.
    eexists (_, _). split.
    + split_and!; [done|lia|]. eexists. split; [split; [reflexivity|lia]|].
      eexists. split; [split; [reflexivity|lia]|]. eexists. split; [split; [reflexivity|lia]|done].
    + apply IH; [done|lia|lia|]. split_and!; try done; lia.
Qed.

Lemma validate_bucket_Ok k l :
  Forall (fun r => 0 <= mur_st_licn_amount r /\ 0 <= mur_licn_to_receive r) l ->
  validate_bucket tt (k, l) = Ok tt <-> bucket_inv k l.
Proof.
  intros Hu. unfold validate_bucket, bucket_inv. rewrite guard_Ok, bool_decide_eq_false.
  rewrite (try_fold_unit _ (request_inv k)); [done|].
  intros r Hr. rewrite Forall_forall in Hu. apply Hu in Hr as [H1 H2]. unfold validate_request.
  rewrite !guard_Ok, negb_false_iff, orb_false_iff, andb_false_iff, !Z.eqb_neq, !Z.ltb_ge, Z.eqb_eq.
  split.
  - intros (? & [? ?] & ? & Hs & _). split; try done; lia.
  - intros [? ? ? ? Hs]. split_and!; try done; lia.
Qed.

(** [validate_invariants] decides the invariant. *)
Lemma moss_validate_iff p :
  moss_unsigned p -> MossStakePool_validate_invariants p = Ok tt <-> moss_inv p.
Proof.
  intros [Hup Hur]. unfold MossStakePool_validate_invariants. rewrite and_then_Ok.
  assert (forall t, try_fold validate_position (0, 0) (btree (mp_positions p)) = Ok t
    <-> map_Forall position_inv (mp_positions p)
        /\ t.1 = map_sum pos_st_licn_amount (mp_positions p) /\ t.1 <= u64_max
        /\ t.2 = map_sum value (mp_positions p) /\ t.2 <= u64_max) as Hpos.
  { intros [c d]. pose proof (validate_positions_Ok (btree (mp_positions p)) 0 0 c d) as Hv.
    rewrite Forall_btree, !btree_sum in Hv. apply Hv; [|unfold u64_max; lia..].
    intros k x Hx%elem_of_btree. exact (Hup k x Hx). }
  assert (try_fold validate_bucket tt (map_to_list (mp_unstake_requests p)) = Ok tt
    <-> map_Forall bucket_inv (mp_unstake_requests p)) as Hreq.
  { rewrite <- Forall_map_to_list. apply try_fold_unit. intros [k l] Hl%elem_of_map_to_list.
    apply validate_bucket_Ok. exact (Hur k l Hl). }
  setoid_rewrite Hpos. setoid_rewrite guard_Ok. setoid_rewrite guard_Ok. setoid_rewrite guard_Ok.
  setoid_rewrite negb_false_iff. setoid_rewrite Z.eqb_eq. setoid_rewrite Hreq. split.
  - intros ([c d] & (Hf & Hc & ? & Hd & ?) & Hs & Hb & Hrate & Hr). simpl in *. subst c d. split; try done; lia.
  - intros [Hf Hs ? Hb ? Hrate Hr]. exists (supply p, backing p). by rewrite Hs, Hb; simpl.
Qed.

Lemma moss_inv_unsigned p : moss_inv p -> moss_unsigned p.
Proof.
  intros [Hp _ _ _ _ _ Hr]. split.
  - intros k x [? ? ? ?]%Hp. lia.
  - intros k l [_ Hl]%Hr. eapply Forall_impl; [exact Hl|]. intros r []. simpl. lia.
Qed.

Lemma moss_validates p : moss_inv p -> MossStakePool_validate_invariants p = Ok tt.
Proof. intros Hp. apply moss_validate_iff; [by apply moss_inv_unsigned|done]. Qed.

Lemma moss_new_inv : moss_inv MossStakePool_new.
Proof.
  split; [apply map_Forall_empty|reflexivity|by vm_compute|reflexivity|by vm_compute|reflexivity|].
  apply map_Forall_empty.
Qed.

(** ** Bounds that follow *)

Section bounds.
Context (p : MossStakePool) (Hp : moss_inv p).

Lemma positions_nonneg (f : StakingPosition -> Z) k x :
  (forall k x, position_inv k x -> 0 <= f x) -> mp_positions p !! k = Some x ->
  0 <= f x <= map_sum f (mp_positions p).
Proof using Hp.
  intros Hf Hx. split; [by apply (Hf k), (mi_positions p Hp)|].
  apply (map_sum_lookup f _ k); [|done]. intros j y Hy. by apply (Hf j), (mi_positions p Hp).
Qed.

Lemma position_value_le k x : mp_positions p !! k = Some x -> 0 <= value x <= backing p.
Proof using Hp.
  rewrite <- (mi_backing p Hp). apply positions_nonneg. intros j y [? ? ? ?]. unfold value. lia.
Qed.

Lemma position_shares_le k x :
  mp_positions p !! k = Some x -> 0 < pos_st_licn_amount x <= supply p.
Proof using Hp.
  intros Hx. destruct (mi_positions p Hp k x Hx). split; [done|]. rewrite <- (mi_supply p Hp).
  eapply positions_nonneg; [|done]. intros j y []. lia.
Qed.

Lemma totals_nonneg : 0 <= supply p /\ 0 <= backing p.
Proof using Hp.
  rewrite <- (mi_supply p Hp), <- (mi_backing p Hp).
  split; apply map_sum_nonneg; intros k x [? ? ? ?]%(mi_positions p Hp); unfold value; lia.
Qed.

Lemma requests_nonneg : 0 <= map_sum bucket_value (mp_unstake_requests p).
Proof using Hp.
  apply map_sum_nonneg. intros k l [_ Hl]%(mi_requests p Hp). apply sumZ_nonneg.
  rewrite Forall_forall in Hl. intros r Hr. destruct (Hl r Hr). lia.
Qed.
End bounds.

(** ** Deposits *)

(** A position grows by shares and principal. *)
Record grown (o : option StakingPosition) (user : Pubkey) (shares principal : Z) (x : StakingPosition)
  : Prop := {
  gr_owner : pos_owner x = from_option pos_owner user o;
  gr_shares : pos_st_licn_amount x = from_option pos_st_licn_amount 0 o + shares;
  gr_principal : pos_licn_deposited x = from_option pos_licn_deposited 0 o + principal;
  gr_rewards : pos_rewards_earned x = from_option pos_rewards_earned 0 o;
}.

Lemma grown_inv p user shares principal x :
  moss_inv p -> grown (mp_positions p !! user) user shares principal x ->
  0 < shares -> 0 <= principal -> position_inv user x.
Proof.
  intros Hp [Ho Hs Hd Hr] H1 H2. destruct (mp_positions p !! user) as [x0|] eqn:Hx; simpl in *.
  - destruct (mi_positions p Hp user x0 Hx). split; [congruence|lia..].
  - split; [done|lia..].
Qed.

Definition deposited (user : Pubkey) (x : StakingPosition) (shares amount : Z) (p : MossStakePool)
  : MossStakePool :=
  let p1 := set_mp_st_licn_token (reprice (supply p + shares) (backing p + amount)) p in
  set_mp_positions (<[user := x]> (mp_positions p1)) p1.

Lemma deposited_ok p user x shares amount :
  moss_inv p -> grown (mp_positions p !! user) user shares amount x ->
  0 < shares -> 0 <= amount -> supply p + shares <= u64_max -> backing p + amount <= u64_max ->
  moss_inv (deposited user x shares amount p) /\ owed (deposited user x shares amount p) = owed p + amount.
Proof.
  intros Hp Hg Hs Ha Hsm Hbm. split; [|unfold owed; simpl; lia].
  pose proof (grown_inv p user shares amount x Hp Hg Hs Ha) as Hx.
  destruct Hg as [_ Gs Gd Gr]. destruct Hp as [Hpos Hsup _ Hbk _ _ Hreq].
  split; simpl; try done.
  - by apply map_Forall_insert_2.
  - rewrite map_sum_put, Gs. lia.
  - rewrite map_sum_put, Hbk. unfold value at 2. rewrite Gd, Gr.
    destruct (mp_positions p !! user); unfold value; simpl; lia.
Qed.

Lemma deposit_preflight_Ok user a tier p minted s b :
  0 <= a -> moss_inv p -> deposit_preflight user a tier p = Ok (minted, s, b) ->
  0 < minted /\ s = supply p + minted /\ s <= u64_max /\ b = backing p + a /\ b <= u64_max.
Proof.
  intros Ha Hp. unfold deposit_preflight. rewrite !guard_Ok, or_err_Ok. setoid_rewrite or_err_Ok.
  setoid_rewrite checked_add64_Some. rewrite !Z.eqb_neq.
  intros (Ha0 & _ & Hm & s' & [-> Hs] & b' & [-> Hb] & [= <- <- <-]). split_and!; try done.
  unfold StLicnToken_licn_to_st_licn in *. case_match; [lia|].
  pose proof (wrap_range 64 (a * RATE_PRECISION / (tok_exchange_rate_fp (mp_st_licn_token p) `max` 1))). lia.
Qed.

Lemma existing_update_Ok user minted a p r :
  existing_update user minted a p = Ok r ->
  r = (fun x => (x, pos_st_licn_amount x + minted, pos_licn_deposited x + a)) <$> mp_positions p !! user.
Proof.
  unfold existing_update. destruct (mp_positions p !! user); [|by intros [= <-]].
  rewrite or_err_Ok. setoid_rewrite or_err_Ok. setoid_rewrite checked_add64_Some.
  by intros (? & [-> _] & ? & [-> _] & [= <-]).
Qed.

Lemma stake_with_tier_ok user a slot tier p r :
  moss_inv p -> 0 <= a -> MossStakePool_stake_with_tier user a slot tier p = Ok r ->
  moss_inv r.2 /\ owed r.2 = owed p + a.
Proof.
  intros Hp Ha. unfold MossStakePool_stake_with_tier. rewrite and_then_Ok.
  intros ([[minted s] b] & Hpre & Hrest).
  apply deposit_preflight_Ok in Hpre as (Hm & -> & Hs & -> & Hb); [|done..].
  apply and_then_Ok in Hrest as (lock & _ & Hrest).
  apply and_then_Ok in Hrest as (e & ->%existing_update_Ok & [= <-]). simpl.
  refine (deposited_ok p user _ minted a Hp _ Hm Ha Hs Hb).
  destruct (mp_positions p !! user) as [x|]; simpl; [|by split].
  split; simpl; case_match; done.
Qed.

Lemma stake_with_tier_at_time_ok user a slot secs tier p r :
  moss_inv p -> 0 <= a -> MossStakePool_stake_with_tier_at_time user a slot secs tier p = Ok r ->
  moss_inv r.2 /\ owed r.2 = owed p + a.
Proof.
  intros Hp Ha. unfold MossStakePool_stake_with_tier_at_time. rewrite and_then_Ok.
  intros ([[minted s] b] & Hpre & Hrest).
  apply deposit_preflight_Ok in Hpre as (Hm & -> & Hs & -> & Hb); [|done..].
  apply and_then_Ok in Hrest as (lock & _ & Hrest). apply and_then_Ok in Hrest as (lock' & _ & Hrest).
  apply and_then_Ok in Hrest as (e & ->%existing_update_Ok & [= <-]). simpl.
  refine (deposited_ok p user _ minted a Hp _ Hm Ha Hs Hb).
  destruct (mp_positions p !! user) as [x|]; simpl; [|by split].
  split; simpl; repeat case_match; done.
Qed.

(** ** Shares and the value behind them *)

Lemma floor_part_range s d st : 0 <= s <= st -> 0 < st -> 0 <= d -> 0 <= s * d / st <= d.
Proof.
  intros Hs Hst Hd. split; [apply Z.div_pos; nia|]. apply Z.div_le_upper_bound; nia.
Qed.

(** The value of some shares of a position is at most the position's, part by
    part, and all of it for all shares. *)
Lemma split_position_value_Ok k x s pr rw v :
  position_inv k x -> value x <= u64_max -> 0 <= s ->
  split_position_value_for_unstake x s = Ok (pr, rw, v) ->
  s <= pos_st_licn_amount x /\ v = pr + rw
  /\ 0 <= pr <= pos_licn_deposited x /\ 0 <= rw <= pos_rewards_earned x
  /\ (s = pos_st_licn_amount x -> pr = pos_licn_deposited x /\ rw = pos_rewards_earned x).
Proof.
  intros [Hk Hst Hd Hr] Hv Hs. unfold split_position_value_for_unstake, value in *.
  rewrite !guard_Ok, Z.ltb_ge. intros (_ & Hle & Hrest).
  destruct (Z.eqb_spec s (pos_st_licn_amount x)) as [->|Hne];
    apply or_err_Ok in Hrest as (w & [-> _]%checked_add64_Some & [= <- <- <-]);
    [split_and!; try done; lia|].
  pose proof (floor_part_range s (pos_licn_deposited x) (pos_st_licn_amount x) ltac:(lia) Hst Hd).
  pose proof (floor_part_range s (pos_rewards_earned x) (pos_st_licn_amount x) ltac:(lia) Hst Hr).
  rewrite !wrap_small in * by (unfold u64_max in *; lia). split_and!; try done; lia.
Qed.

(** Taking shares with their value out of a position. *)
Lemma put_burn p user x s pr rw :
  moss_inv p -> mp_positions p !! user = Some x -> 0 < s <= pos_st_licn_amount x ->
  0 <= pr <= pos_licn_deposited x -> 0 <= rw <= pos_rewards_earned x ->
  (s = pos_st_licn_amount x -> pr = pos_licn_deposited x /\ rw = pos_rewards_earned x) ->
  let m := put_position user (burn s pr rw x) (mp_positions p) in
  map_Forall position_inv m
  /\ map_sum pos_st_licn_amount m = supply p - s
  /\ map_sum value m = backing p - (pr + rw)
  /\ (forall k, k <> user -> m !! k = mp_positions p !! k).
Proof.
  intros Hp Hx Hs Hpr Hrw Hall. cbv zeta. destruct (mi_positions p Hp user x Hx) as [Ho Hst Hd Hr].
  rewrite <- (mi_supply p Hp), <- (mi_backing p Hp). unfold put_position, burn. simpl.
  unfold sat_sub. rewrite !Z.max_l by lia.
  destruct (Z.eqb_spec (pos_st_licn_amount x - s) 0) as [He|He]; cbn [andb].
  - destruct (Hall ltac:(lia)) as [-> ->]. rewrite !Z.sub_diag. simpl.
    rewrite !map_sum_drop, Hx. simpl. assert (value x = pos_licn_deposited x + pos_rewards_earned x) as Hv by done.
    split_and!; [|lia|lia|].
    + apply map_Forall_delete, (mi_positions p Hp).
    + intros k Hk. by rewrite lookup_delete_ne.
  - rewrite !map_sum_put, Hx. simpl.
    set (y := set_pos_st_licn_amount _ _).
    assert (value y = value x - (pr + rw)) as Hv by (unfold value, y; simpl; lia).
    assert (pos_st_licn_amount y = pos_st_licn_amount x - s) as Hst' by done.
    split_and!; [|lia|lia|].
    + apply map_Forall_insert_2; [split; simpl; lia|apply (mi_positions p Hp)].
    + intros k Hk. by rewrite lookup_insert_ne.
Qed.

(** ** Exits *)

Definition request_like (user : Pubkey) (s : Z) (request_for : Z -> MossUnstakeRequest) : Prop :=
  forall v, 0 < v -> request_inv user (request_for v) /\ mur_licn_to_receive (request_for v) = v.

Lemma start_exit_ok user x s request_for p r :
  moss_inv p -> mp_positions p !! user = Some x -> 0 < s -> request_like user s request_for ->
  start_exit user x s request_for p = Ok r ->
  exists v, r.1 = request_for v /\ 0 <= v
    /\ (0 < v -> moss_inv r.2 /\ owed r.2 = owed p).
Proof.
  intros Hp Hx Hs Hreq. unfold start_exit. rewrite guard_Ok, and_then_Ok.
  intros (_ & [[pr rw] v] & Hsplit & Hrest). cbv beta iota in Hrest.
  apply or_err_Ok in Hrest as (s' & [-> _]%checked_sub_Some & Hrest).
  apply or_err_Ok in Hrest as (b' & [-> Hb]%checked_sub_Some & [= <-]). simpl.
  pose proof (position_value_le p Hp user x Hx). pose proof (mi_backing_max p Hp).
  apply (split_position_value_Ok user) in Hsplit as (Hle & -> & Hpr & Hrw & Hall);
    [|by apply (mi_positions p Hp)|lia|lia].
  exists (pr + rw). split; [done|]. split; [lia|]. intros Hv. destruct (Hreq _ Hv) as [Hr1 Hr2].
  destruct (put_burn p user x s pr rw Hp Hx ltac:(lia) Hpr Hrw Hall) as (Hf & Hss & Hvv & _).
  pose proof (mi_supply_max p Hp). split.
  - split; simpl; try done; try lia.
    apply map_Forall_insert_2; [|apply (mi_requests p Hp)]. split; [by destruct (default _ _)|].
    apply Forall_app. split; [|by apply Forall_singleton].
    destruct (mp_unstake_requests p !! user) as [l|] eqn:Hl; simpl; [|constructor].
    by apply (mi_requests p Hp user l Hl).
  - unfold owed. simpl. rewrite map_sum_put. unfold bucket_value at 3. rewrite sumZ_app, sumZ_cons, Hr2.
    destruct (mp_unstake_requests p !! user); unfold bucket_value, sumZ; simpl; lia.
Qed.

Lemma request_unstake_ok user s slot p r :
  moss_inv p -> 0 <= s -> MossStakePool_request_unstake user s slot p = Ok r ->
  0 < mur_licn_to_receive r.1 -> moss_inv r.2 /\ owed r.2 = owed p.
Proof.
  intros Hp Hs. unfold MossStakePool_request_unstake. rewrite guard_Ok, Z.eqb_neq, or_err_Ok.
  intros (Hs0 & c & [-> _]%checked_add64_Some & Hrest).
  apply or_err_Ok in Hrest as (x & Hx & Hrest). apply guard_Ok in Hrest as [_ Hrest].
  apply start_exit_ok in Hrest as (v & -> & Hv & Hok); [|done|done|lia|].
  - simpl. exact Hok.
  - intros v Hv. split; [|done]. split; simpl; (done || unfold UNSTAKE_COOLDOWN_SLOTS; lia).
Qed.

Lemma request_unstake_at_time_ok user s slot secs p r :
  moss_inv p -> 0 <= s -> MossStakePool_request_unstake_at_time user s slot secs p = Ok r ->
  0 < mur_licn_to_receive r.1 -> moss_inv r.2 /\ owed r.2 = owed p.
Proof.
  intros Hp Hs. unfold MossStakePool_request_unstake_at_time. rewrite guard_Ok, Z.eqb_neq, or_err_Ok.
  intros (Hs0 & c & [-> _]%checked_add64_Some & Hrest).
  apply or_err_Ok in Hrest as (c' & [-> _]%checked_add64_Some & Hrest).
  apply or_err_Ok in Hrest as (x & Hx & Hrest). apply guard_Ok in Hrest as [_ Hrest].
  apply guard_Ok in Hrest as [_ Hrest].
  apply start_exit_ok in Hrest as (v & -> & Hv & Hok); [|done|done|lia|].
  - simpl. exact Hok.
  - intros v Hv. split; [|done].
    split; simpl; (done || unfold UNSTAKE_COOLDOWN_SLOTS, MOSSSTAKE_UNSTAKE_COOLDOWN_SECONDS, SECONDS_PER_DAY; lia).
Qed.

(** ** Claims *)

Lemma Forall_filter_sub {A} (P Q : A -> Prop) `{!forall x, Decision (Q x)} (l : list A) :
  Forall P l -> Forall P (filter Q l).
Proof. rewrite !Forall_forall. intros Hl x [_ Hx]%list_elem_of_filter. by apply Hl. Qed.

Lemma filter_all {A} (Q : A -> Prop) `{!forall x, Decision (Q x)} (l : list A) :
  Forall Q l -> filter Q l = l.
Proof. induction 1 as [|x l Hx _ IH]; [done|]. rewrite filter_cons, decide_True by done. by rewrite IH. Qed.

(** What a claim takes out of a bucket, without wrap-around. *)
Lemma drain_spec claimable l :
  Forall (fun r => 0 <= mur_licn_to_receive r) l -> bucket_value l <= u64_max ->
  drain claimable l
  = (bucket_value (filter (fun r => claimable r = true) l), filter (fun r => claimable r = false) l).
Proof.
  intros Hl Hmax. unfold drain.
  assert (forall t rest, 0 <= t -> t + bucket_value l <= u64_max ->
    foldl (fun '(total, remaining) r => if claimable r then (wrap64 (total + mur_licn_to_receive r), remaining)
                                        else (total, remaining ++ [r])) (t, rest) l
    = (t + bucket_value (filter (fun r => claimable r = true) l),
       rest ++ filter (fun r => claimable r = false) l)) as Hgen.
  { clear Hmax. induction Hl as [|r l Hr Hl IH]; intros t rest Ht Hmax; simpl.
    { unfold bucket_value, sumZ. simpl. by rewrite Z.add_0_r, app_nil_r. }
    unfold bucket_value in *. rewrite sumZ_cons in Hmax.
    assert (0 <= sumZ mur_licn_to_receive l).
    { apply sumZ_nonneg. by rewrite Forall_forall in Hl. }
    rewrite !filter_cons. destruct (claimable r) eqn:Hc; repeat case_decide; try done.
    - rewrite wrap_small by (unfold u64_max in *; lia). rewrite IH by lia. rewrite sumZ_cons.
      f_equal; lia.
    - rewrite IH by lia. by rewrite <- app_assoc. }
  rewrite Hgen by lia. by rewrite Z.add_0_l, app_nil_l.
Qed.

Lemma filter_split_value claimable l :
  bucket_value l = bucket_value (filter (fun r => claimable r = true) l)
                   + bucket_value (filter (fun r => claimable r = false) l).
Proof.
  unfold bucket_value. induction l as [|r l IH]; [done|]. rewrite !filter_cons, sumZ_cons, IH.
  destruct (claimable r); repeat case_decide; try done; rewrite sumZ_cons; lia.
Qed.

Definition paid {E} (r : result Z E) : Z := match r with Ok v => v | Err _ => 0 end.

(** A claim pays exactly what leaves the pool; a claim that fails changes nothing. *)
Lemma claim_where_ok claimable user p :
  moss_inv p -> owed p <= u64_max ->
  let '(r, p') := claim_where claimable user p in
  moss_inv p' /\ owed p' = owed p - paid r /\ 0 <= paid r /\ (is_ok r = false -> p' = p).
Proof.
  intros Hp Hmax. unfold claim_where.
  destruct (mp_unstake_requests p !! user) as [l|] eqn:Hl; [|simpl; split_and!; done || lia].
  destruct (mi_requests p Hp user l Hl) as [Hne Hall].
  assert (Forall (fun r => 0 < mur_licn_to_receive r) l) as Hpos
    by (eapply Forall_impl; [exact Hall|intros r []; done]).
  assert (bucket_value l <= map_sum bucket_value (mp_unstake_requests p)) as Hle.
  { apply (map_sum_lookup bucket_value _ user); [|done]. intros k l' [_ Hl']%(mi_requests p Hp).
    apply sumZ_nonneg. rewrite Forall_forall in Hl'. intros r Hr. destruct (Hl' r Hr). lia. }
  destruct (totals_nonneg p Hp) as [_ Hb0]. unfold owed in Hmax.
  rewrite drain_spec; [|eapply Forall_impl; [exact Hpos|simpl; lia]|lia].
  pose proof (filter_split_value claimable l) as Hsplit.
  set (out := filter (fun r => claimable r = true) l) in *.
  set (rest := filter (fun r => claimable r = false) l) in *.
  assert (Forall (fun r => 0 < mur_licn_to_receive r) out) as Hout by by apply Forall_filter_sub.
  destruct (Z.eqb_spec (bucket_value out) 0) as [H0|H0].
  - assert (rest = l) as ->.
    { destruct out as [|r out'] eqn:Ho.
      - unfold rest. apply filter_all, Forall_forall. intros r Hr. destruct (claimable r) eqn:Hc; [|done].
        assert (r ∈ out) as Hin by (by apply list_elem_of_filter). unfold out in *. rewrite Ho in Hin.
        by apply not_elem_of_nil in Hin.
      - exfalso. apply Forall_cons in Hout as [Hr Hout]. unfold bucket_value in H0. rewrite sumZ_cons in H0.
        assert (0 <= sumZ mur_licn_to_receive out'); [|lia]. apply sumZ_nonneg.
        rewrite Forall_forall in Hout. intros r' Hr'. specialize (Hout r' Hr'). simpl in Hout. lia. }
    rewrite insert_id by done.
    assert (set_mp_unstake_requests (mp_unstake_requests p) p = p) as -> by (by destruct p).
    cbn [is_ok paid]. split_and!; done || lia.
  - set (reqs := if bool_decide (rest = []) then _ else _).
    assert (map_sum bucket_value reqs = map_sum bucket_value (mp_unstake_requests p) - bucket_value out) as Hsum.
    { unfold reqs. case_bool_decide as He.
      - rewrite map_sum_drop, Hl. simpl. rewrite He in Hsplit. unfold bucket_value in Hsplit at 3.
        unfold sumZ in Hsplit at 1. simpl in Hsplit. lia.
      - rewrite map_sum_put, Hl. simpl. lia. }
    assert (map_Forall bucket_inv reqs) as Hreqs.
    { unfold reqs. case_bool_decide as He; [apply map_Forall_delete, (mi_requests p Hp)|].
      apply map_Forall_insert_2; [|apply (mi_requests p Hp)]. split; [done|by apply Forall_filter_sub]. }
    clearbody reqs. cbn [paid is_ok]. split_and!; [|unfold owed; simpl; lia| |done].
    + destruct Hp. by split.
    + apply sumZ_nonneg. rewrite Forall_forall in Hout. intros r Hr. specialize (Hout r Hr). simpl in Hout. lia.
Qed.

(** ** Transfers *)

Lemma transfer_where_ok movable from to s slot secs p p' :
  moss_inv p -> 0 <= s -> transfer_where movable from to s slot secs p = Ok p' ->
  moss_inv p' /\ owed p' = owed p.
Proof.
  intros Hp Hs0. unfold transfer_where. rewrite !guard_Ok, Z.eqb_neq, Z.eqb_neq, or_err_Ok.
  intros (Hs & Hft & x & Hx & Hrest). apply and_then_Ok in Hrest as (_ & _ & Hrest).
  apply guard_Ok in Hrest as [_ Hrest]. apply and_then_Ok in Hrest as (_ & _ & Hrest).
  apply and_then_Ok in Hrest as ([[pr rw] v] & Hsplit & [= <-]).
  pose proof (position_value_le p Hp from x Hx) as Hvx. pose proof (mi_backing_max p Hp) as Hbm.
  pose proof (mi_supply_max p Hp) as Hsm.
  apply (split_position_value_Ok from) in Hsplit as (Hle & -> & Hpr & Hrw & Hall);
    [|by apply (mi_positions p Hp)|lia|lia].
  destruct (put_burn p from x s pr rw Hp Hx ltac:(lia) Hpr Hrw Hall) as (Hf & Hss & Hvv & Hoth).
  set (m := put_position from (burn s pr rw x) (mp_positions p)) in *. clearbody m.
  set (y := match m !! to with Some _ => _ | None => _ end).
  assert (pos_st_licn_amount y = from_option pos_st_licn_amount 0 (m !! to) + s
    /\ value y = from_option value 0 (m !! to) + (pr + rw) /\ position_inv to y) as (Hy1 & Hy2 & Hy3).
  { unfold y. destruct (m !! to) as [z|] eqn:Hz.
    - destruct (Hf to z Hz) as [Ho H1 H2 H3]. simpl.
      assert (pos_st_licn_amount z <= map_sum pos_st_licn_amount m /\ value z <= map_sum value m) as [Hz1 Hz2].
      { split; (eapply map_sum_lookup; [|exact Hz]); intros j w []%Hf; unfold value; lia. }
      unfold value in *. simpl. rewrite !wrap_small by (unfold u64_max in *; lia).
      split_and!; [done|lia|split; simpl; done || lia].
    - simpl. unfold value. simpl. split_and!; [done|lia|split; simpl; done || lia]. }
  clearbody y. split; [|done]. split; simpl; try done; try apply Hp.
  - by apply map_Forall_insert_2.
  - rewrite map_sum_put. lia.
  - rewrite map_sum_put. lia.
Qed.

(** ** Rewards *)

(** The updates planned for a list of positions: same owners, rewards that only
    grow, by the amount distributed. *)
Lemma reward_updates_ok tw R W l d ups d' ups' :
  0 < W -> 0 <= R -> (forall k x, (k, x) ∈ l -> position_inv k x) ->
  try_fold_last (reward_update tw R W) (d, ups) l = Ok (d', ups') ->
  exists new, ups' = ups ++ new
    /\ Forall2 (fun kx u => kx.1 = u.1 /\ pos_rewards_earned kx.2 <= u.2) l new
    /\ sumZ snd new - sumZ (fun kx => pos_rewards_earned kx.2) l = d' - d.
Proof.
  intros HW HR. revert d ups. induction l as [|[k x] l IH]; intros d ups Hl.
  { intros [= <- <-]. exists []. rewrite app_nil_r. split_and!; [done|constructor|unfold sumZ; simpl; lia]. }
  cbn [try_fold_last]. rewrite and_then_Ok. intros ([d1 ups1] & Hstep & Hrest).
  unfold reward_update in Hstep. apply and_then_Ok in Hstep as (share & Hshare & Hstep).
  apply or_err_Ok in Hstep as (d2 & [-> _]%checked_add64_Some & Hstep).
  apply or_err_Ok in Hstep as (rew & [-> _]%checked_add64_Some & [= <- <-]).
  assert (0 <= share) as Hs0.
  { destruct l; simpl in Hshare.
    - apply or_err_Ok in Hshare as (? & [-> ?]%checked_sub_Some & [= <-]). lia.
    - injection Hshare as <-. by apply wrap_range. }
  apply IH in Hrest as (new & -> & Hf & Hsum); [|intros k' x' ?; apply Hl; by right].
  exists ((k, pos_rewards_earned x + share) :: new). rewrite <- app_assoc. split_and!; [done| |].
  - constructor; [simpl; split; [done|lia]|done].
  - rewrite !sumZ_cons. simpl. lia.
Qed.

Lemma apply_rewards_ok m l ups m' :
  NoDup l.*1 -> (forall k x, (k, x) ∈ l -> m !! k = Some x) ->
  Forall2 (fun kx u => kx.1 = u.1 /\ pos_rewards_earned kx.2 <= u.2) l ups ->
  map_Forall position_inv m -> try_fold apply_reward m ups = Ok m' ->
  map_Forall position_inv m'
  /\ map_sum pos_st_licn_amount m' = map_sum pos_st_licn_amount m
  /\ map_sum value m' = map_sum value m + (sumZ snd ups - sumZ (fun kx => pos_rewards_earned kx.2) l).
Proof.
  intros Hnd Hl Hf. revert m Hnd Hl. induction Hf as [|[k x] [k' u] l ups [Hk Hu] _ IH];
    intros m Hnd Hl Hm; cbn [try_fold].
  { intros [= <-]. unfold sumZ. simpl. split_and!; [done..|lia]. }
  simpl in Hk, Hu. subst k'. rewrite and_then_Ok. intros (m1 & Hap & Hrest).
  apply NoDup_cons in Hnd as [Hk Hnd]. pose proof (Hl k x ltac:(left)) as Hx.
  unfold apply_reward in Hap. cbn [fst snd] in Hap. rewrite Hx in Hap. injection Hap as <-.
  destruct (Hm k x Hx) as [Ho H1 H2 H3].
  destruct (IH (<[k := set_pos_rewards_earned u x]> m)) as (Hf1 & Hs1 & Hv1); try done.
  - intros j y Hy. rewrite lookup_insert_ne; [apply Hl; by right|].
    intros <-. apply Hk. apply list_elem_of_fmap. by exists (k, y).
  - apply map_Forall_insert_2; [|done]. split; simpl; done || lia.
  - split_and!; [done| |].
    + rewrite Hs1, map_sum_put, Hx. simpl. lia.
    + rewrite Hv1, map_sum_put, Hx, !sumZ_cons. unfold value. simpl. lia.
Qed.

Lemma btree_NoDup {A} (m : gmap Pubkey A) : NoDup (btree m).*1.
Proof. rewrite btree_perm. apply NoDup_fst_map_to_list. Qed.

Lemma distribute_rewards_ok R tw p p' :
  moss_inv p -> 0 <= R -> distribute_rewards_with_policy R tw p = Ok p' ->
  moss_inv p' /\ owed p' = owed p + (if supply p =? 0 then 0 else R).
Proof.
  intros Hp HR. unfold distribute_rewards_with_policy.
  destruct (Z.eqb_spec R 0) as [->|HR0]; [intros [= <-]; case_match; split; done || lia|].
  destruct (Z.eqb_spec (supply p) 0) as [Hs|Hs]; [intros [= <-]; split; done || lia|]. simpl.
  set (W := if tw then _ else _). rewrite guard_Ok, Z.eqb_neq. intros [HW Hrest].
  apply or_err_Ok in Hrest as (b & [-> Hb]%checked_add64_Some & Hrest).
  apply and_then_Ok in Hrest as ([d ups] & Hups & Hrest).
  apply guard_Ok in Hrest as [->%negb_false_iff%Z.eqb_eq Hrest].
  apply and_then_Ok in Hrest as (m & Hm & [= <-]).
  assert (0 < W) as HW0.
  { assert (0 <= W); [|lia]. unfold W. destruct tw; [|apply (totals_nonneg p Hp)].
    apply sumZ_nonneg. intros [k x] Hx%elem_of_btree. destruct (mi_positions p Hp k x Hx).
    unfold weighted_shares. simpl. apply Z.div_pos; [|lia]. destruct (pos_lock_tier x); simpl; lia. }
  apply reward_updates_ok in Hups as (new & Hnew & Hf & Hsum); [|done|done|].
  2: { intros k x Hx%elem_of_btree. by apply (mi_positions p Hp). }
  rewrite app_nil_l in Hnew. subst new.
  apply (apply_rewards_ok (mp_positions p) (btree (mp_positions p))) in Hm as (Hm1 & Hm2 & Hm3);
    [|apply btree_NoDup|intros k x; by rewrite elem_of_btree|done|apply Hp].
  rewrite Hsum, (mi_backing p Hp) in Hm3. rewrite (mi_supply p Hp) in Hm2.
  split; [|unfold owed; simpl; lia].
  destruct Hp. split; simpl; try done; lia.
Qed.

Lemma distribute_rewards_v2_ok R p p' :
  moss_inv p -> 0 <= R -> MossStakePool_distribute_rewards_v2 R p = Ok p' ->
  moss_inv p' /\ owed p' = owed p + (if supply p =? 0 then 0 else R).
Proof.
  intros Hp HR. unfold MossStakePool_distribute_rewards_v2. rewrite and_then_Ok.
  intros (_ & _ & Hrest). apply and_then_Ok in Hrest as (p1 & Hd & Hrest).
  apply and_then_Ok in Hrest as (_ & _ & [= <-]). by apply distribute_rewards_ok in Hd.
Qed.

(** ** The slash *)

Lemma try_fold_last_inv {S A E} (step : bool -> S -> A -> result S E) (I : S -> Prop) l s s' :
  (forall b s x s', I s -> step b s x = Ok s' -> I s') ->
  I s -> try_fold_last step s l = Ok s' -> I s'.
Proof.
  intros Hstep. revert s. induction l as [|x l IH]; intros s Hs; cbn [try_fold_last]; [by intros [= <-]|].
  rewrite and_then_Ok. intros (s1 & H1 & H2). exact (IH s1 (Hstep _ _ _ _ Hs H1) H2).
Qed.

Definition unsigned_positions (m : gmap Pubkey StakingPosition) : Prop :=
  map_Forall (fun _ x =>
    0 <= pos_st_licn_amount x /\ 0 <= pos_licn_deposited x /\ 0 <= pos_rewards_earned x) m.

Definition unsigned_requests (m : gmap Pubkey (list MossUnstakeRequest)) : Prop :=
  map_Forall (fun _ l =>
    Forall (fun r => 0 <= mur_st_licn_amount r /\ 0 <= mur_licn_to_receive r) l) m.

Lemma slash_active_ok L A p p' :
  0 <= L -> unsigned_positions (mp_positions p) -> slash_active L A p = Ok p' ->
  unsigned_positions (mp_positions p') /\ mp_unstake_requests p' = mp_unstake_requests p
  /\ backing p' = backing p - L /\ supply p' = supply p.
Proof.
  intros HL Hu. unfold slash_active. destruct (Z.ltb_spec 0 L) as [HL0|HL0].
  2: { intros [= <-]. split_and!; done || lia. }
  rewrite and_then_Ok. intros (found & _ & Hrest). apply guard_Ok in Hrest as [_ Hrest].
  apply and_then_Ok in Hrest as ([d m] & Hm & Hrest). apply guard_Ok in Hrest as [_ Hrest].
  apply or_err_Ok in Hrest as (b & [-> _]%checked_sub_Some & [= <-]). simpl. split_and!; try done.
  refine (try_fold_last_inv _ (fun s => unsigned_positions s.2) _ _ _ _ _ Hm); [|done].
  intros last [d0 m0] [k v] [d1 m1] Hm0. cbn [snd] in *. unfold slash_position.
  rewrite and_then_Ok. intros (loss & _ & Hrest). apply guard_Ok in Hrest as [_ Hrest].
  apply or_err_Ok in Hrest as (d2 & _ & Hrest). apply or_err_Ok in Hrest as (x & Hx & Hrest).
  apply or_err_Ok in Hrest as (rw & [-> ?]%checked_sub_Some & Hrest).
  apply or_err_Ok in Hrest as (pl & [-> ?]%checked_sub_Some & Hrest).
  apply or_err_Ok in Hrest as (pr & [-> ?]%checked_sub_Some & [= _ <-]).
  destruct (Hm0 k x Hx) as (? & ? & ?). apply map_Forall_insert_2; [|done]. simpl. lia.
Qed.

Lemma bucket_value_insert i r r' l :
  l !! i = Some r ->
  bucket_value (<[i := r']> l) = bucket_value l - mur_licn_to_receive r + mur_licn_to_receive r'.
Proof.
  unfold bucket_value. revert i. induction l as [|x l IH]; intros i Hi; [done|].
  destruct i as [|i]; simpl in Hi.
  - simplify_eq. change (<[0%nat := r']> (r :: l)) with (r' :: l). rewrite !sumZ_cons. lia.
  - change (<[S i := r']> (x :: l)) with (x :: <[i := r']> l). rewrite !sumZ_cons, (IH i) by done. lia.
Qed.

Lemma slash_request_step L A last d m k i v d' m' :
  unsigned_requests m -> slash_request L A last (d, m) (k, i, v) = Ok (d', m') ->
  unsigned_requests m' /\ map_sum bucket_value m' + d' = map_sum bucket_value m + d.
Proof.
  intros Hu. unfold slash_request. rewrite and_then_Ok. intros (loss & _ & Hrest).
  apply guard_Ok in Hrest as [_ Hrest].
  apply or_err_Ok in Hrest as (? & [-> _]%checked_add64_Some & Hrest).
  apply or_err_Ok in Hrest as (r & Hr & Hrest).
  apply or_err_Ok in Hrest as (? & [-> Hle]%checked_sub_Some & [= <- <-]).
  destruct (m !! k) as [l|] eqn:Hl; [simpl in Hr|done].
  assert (alter (<[i := set_mur_licn_to_receive (mur_licn_to_receive r - loss) r]>) k m
    = <[k := <[i := set_mur_licn_to_receive (mur_licn_to_receive r - loss) r]> l]> m) as ->.
  { apply map_eq. intros j. rewrite lookup_alter, lookup_insert. case_decide; [subst; by rewrite Hl|done]. }
  split.
  - apply map_Forall_insert_2; [|done]. specialize (Hu k l Hl). apply Forall_insert; [done|].
    assert (0 <= mur_st_licn_amount r) by (by apply (Forall_lookup_1 _ l i r) in Hu as [? _]).
    simpl. lia.
  - rewrite map_sum_put, Hl. simpl. rewrite (bucket_value_insert i r) by done. simpl. lia.
Qed.

Lemma map_sum_fmap_eq {A B} (f : B -> Z) (g : A -> B) (h : A -> Z) (m : gmap Pubkey A) :
  (forall k x, m !! k = Some x -> f (g x) = h x) -> map_sum f (g <$> m) = map_sum h m.
Proof.
  intros Hfg. unfold map_sum. rewrite map_to_list_fmap, sumZ_fmap. apply sumZ_ext.
  intros [k x] Hx%elem_of_map_to_list. simpl. by apply (Hfg k).
Qed.

Lemma map_sum_filter_zero {A} (f : A -> Z) (P : Pubkey * A -> Prop) `{!forall x, Decision (P x)}
  (m : gmap Pubkey A) :
  (forall k x, m !! k = Some x -> ~ P (k, x) -> f x = 0) -> map_sum f (filter P m) = map_sum f m.
Proof.
  induction m as [|k x m Hk IH] using map_ind; intros Hz; [by rewrite map_filter_empty|].
  assert (map_sum f (filter P m) = map_sum f m) as IH'.
  { apply IH. intros j y Hy Hn. apply (Hz j); [|done]. rewrite lookup_insert_ne; [done|congruence]. }
  rewrite map_sum_insert_new by done. destruct (decide (P (k, x))) as [HP|HP].
  - rewrite map_filter_insert_True, map_sum_insert_new, IH' by (done || by rewrite map_lookup_filter, Hk).
    done.
  - rewrite map_filter_insert_False, delete_id, IH' by done.
    rewrite (Hz k x); [lia|by rewrite lookup_insert_eq|done].
Qed.

Lemma retain_requests_ok m :
  unsigned_requests m ->
  unsigned_requests (retain_requests m)
  /\ map_sum bucket_value (retain_requests m) = map_sum bucket_value m.
Proof.
  intros Hu. unfold retain_requests. split.
  - intros k l [Hl _]%map_lookup_filter_Some. apply lookup_fmap_Some in Hl as (l0 & <- & Hl0).
    apply Forall_filter_sub. exact (Hu k l0 Hl0).
  - rewrite map_sum_filter_zero; [|intros k l _ Hn%dec_stable; simpl in Hn; by subst l].
    apply map_sum_fmap_eq. intros k l Hl%Hu. unfold bucket_value.
    rewrite (sumZ_filter_split mur_licn_to_receive (fun r => 0 < mur_licn_to_receive r) l).
    rewrite (sumZ_zero _ (filter (fun x => ~ 0 < mur_licn_to_receive x) l)); [lia|].
    intros r [Hn Hr]%list_elem_of_filter. rewrite Forall_forall in Hl. destruct (Hl r Hr). lia.
Qed.

Lemma slash_cooling_ok L A eligible p p' :
  0 <= L -> unsigned_requests (mp_unstake_requests p) -> slash_cooling L A eligible p = Ok p' ->
  unsigned_requests (mp_unstake_requests p') /\ mp_positions p' = mp_positions p
  /\ mp_st_licn_token p' = mp_st_licn_token p
  /\ map_sum bucket_value (mp_unstake_requests p') = map_sum bucket_value (mp_unstake_requests p) - L.
Proof.
  intros HL Hu. unfold slash_cooling. destruct (Z.ltb_spec 0 L) as [HL0|HL0].
  2: { intros [= <-]. split_and!; done || lia. }
  rewrite and_then_Ok. intros ([d m] & Hm & Hrest).
  apply guard_Ok in Hrest as [->%negb_false_iff%Z.eqb_eq [= <-]]. simpl.
  assert (unsigned_requests m
    /\ map_sum bucket_value m + L = map_sum bucket_value (mp_unstake_requests p) + 0) as [Hum Hsum].
  { refine (try_fold_last_inv _ (fun s => unsigned_requests s.2
      /\ map_sum bucket_value s.2 + s.1 = map_sum bucket_value (mp_unstake_requests p) + 0) _ _ _ _ _ Hm);
      [|done].
    intros last [d0 m0] [[k i] v] [d1 m1] [Hm0 Hs0] Hstep. cbn [fst snd] in *.
    apply slash_request_step in Hstep as [? ?]; [|done]. split; [done|lia]. }
  destruct (retain_requests_ok m Hum) as [? ->]. split_and!; done || lia.
Qed.

(** A slash takes exactly the loss it reports and leaves a valid pool. *)
Lemma apply_slash_ok loss start p r :
  moss_inv p -> 0 <= loss -> MossStakePool_apply_staking_v2_slash loss start p = Ok r ->
  moss_inv r.2 /\ 0 <= mss_active_backing_loss r.1 /\ 0 <= mss_cooling_down_loss r.1
  /\ mss_active_backing_loss r.1 + mss_cooling_down_loss r.1 <= loss
  /\ owed r.2 = owed p - (mss_active_backing_loss r.1 + mss_cooling_down_loss r.1).
Proof.
  intros Hp Hl. unfold MossStakePool_apply_staking_v2_slash. rewrite moss_validates by done. cbn [and_then].
  destruct (Z.eqb_spec loss 0); [intros [= <-]; simpl; split_and!; done || lia|].
  rewrite and_then_Ok. intros (c & Hc & Hrest).
  apply or_err_Ok in Hrest as (t & [-> Ht]%checked_add64_Some & Hrest).
  destruct (moss_inv_unsigned p Hp) as [Hup Hur]. destruct (totals_nonneg p Hp) as [_ Hb0].
  assert (0 <= c) as Hc0.
  { apply (try_fold_total _ (fun x => 0 <= x) id) in Hc as (Hall & -> & _); [| |done|unfold u64_max; lia].
    - rewrite Z.add_0_l. apply sumZ_nonneg. by rewrite Forall_forall in Hall.
    - intros a x b Hx Ha. rewrite checked_add64_Ok. split; [|tauto]. intros [-> ?]. split_and!; try done.
      apply list_elem_of_fmap in Hx as ([[k i] v] & -> & Hx). apply list_elem_of_bind in Hx as ([k' l] & Hx & Hkl).
      apply elem_of_map_to_list in Hkl. unfold eligible_of in Hx.
      apply list_elem_of_omap in Hx as ([j q] & Hq & Hjq). simpl in Hjq. case_match; simplify_eq. simpl.
      apply elem_of_zip_r in Hq. apply Hur in Hkl. rewrite Forall_forall in Hkl.
      by apply Hkl in Hq as [_ ?]. }
  destruct (Z.eqb_spec (Z.min loss (backing p + c)) 0); [injection Hrest as <-; simpl; split_and!; done || lia|].
  set (L := Z.min loss (backing p + c)) in *.
  set (cl := if c =? 0 then 0 else L * c / (backing p + c)) in *.
  apply or_err_Ok in Hrest as (al & [-> Hal]%checked_sub_Some & Hrest).
  apply guard_Ok in Hrest as [_ Hrest].
  assert (0 <= cl) as Hcl.
  { unfold cl. destruct (Z.eqb_spec c 0); [done|]. apply Z.div_pos; nia. }
  apply and_then_Ok in Hrest as (p1 & H1 & Hrest). apply and_then_Ok in Hrest as (p2 & H2 & Hrest).
  apply and_then_Ok in Hrest as ([] & Hval & [= <-]).
  apply slash_active_ok in H1 as (Hu1 & Hr1 & Hb1 & Hs1); [|lia|done].
  apply slash_cooling_ok in H2 as (Hu2 & Hp2 & Ht2 & Hq2); [|done|by rewrite Hr1].
  simpl. split_and!; try lia.
  - apply moss_validate_iff; [|done]. split; simpl; [by rewrite Hp2|done].
  - unfold owed. simpl. rewrite Hq2, Hr1, Ht2. lia.
Qed.

(** ** Clearing wall-clock fields *)

Lemma clear_wall_clock_ok p :
  moss_inv p -> moss_inv (MossStakePool_clear_wall_clock_times p)
  /\ owed (MossStakePool_clear_wall_clock_times p) = owed p.
Proof.
  intros [Hpos Hs Hsm Hb Hbm Hrate Hreq]. unfold MossStakePool_clear_wall_clock_times. cbv zeta. split.
  - split; simpl; try done.
    + intros k x (x0 & <- & Hx)%lookup_fmap_Some. destruct (Hpos k x0 Hx). by split.
    + by rewrite (map_sum_fmap_eq _ _ pos_st_licn_amount).
    + by rewrite (map_sum_fmap_eq _ _ value).
    + intros k l (l0 & <- & Hl)%lookup_fmap_Some. destruct (Hreq k l0 Hl) as [Hne Hall]. split.
      * by destruct l0.
      * apply List.Forall_map. eapply Forall_impl; [exact Hall|]. intros r []. split; simpl; done || lia.
  - unfold owed. simpl. f_equal. apply map_sum_fmap_eq. intros k l _. unfold bucket_value. by rewrite sumZ_map.
Qed.
