(* ===== verification/MossRun.v ===== *)
(** * Runs of the MossStake pool

    Sequences of pool operations, failed ones included: the pool stays valid and
    owes exactly what flowed in minus what flowed out.  And two states the code
    does not handle: an exit worth nothing, which makes the pool fail its own
    check, and a dust position, which makes a slash fail. *)

From S2P Require Import Prelude Crypto Stake Pool StakingV2 Moss MossInvariant.
From stdpp Require Import base tactics numbers list gmap.
From Stdlib Require Import ZArith Lia.

Local Open Scope Z_scope.

(** ** Operations *)

Inductive MossOp :=
| OpDeposit (user : Pubkey) (amount slot : Z) (tier : LockTier)
| OpDepositAt (user : Pubkey) (amount slot secs : Z) (tier : LockTier)
| OpExit (user : Pubkey) (shares slot : Z)
| OpExitAt (user : Pubkey) (shares slot secs : Z)
| OpClaim (user : Pubkey) (slot : Z)
| OpClaimAt (user : Pubkey) (slot secs : Z)
| OpTransfer (from to : Pubkey) (shares slot : Z)
| OpTransferAt (from to : Pubkey) (shares slot secs : Z)
| OpRewards (amount : Z)
| OpRewardsV2 (amount : Z)
| OpSlash (loss start : Z)
| OpClearClocks.

(** What a distribution adds: nothing when there are no shares. *)
Definition reward_flow (amount : Z) (p : MossStakePool) : Z := if supply p =? 0 then 0 else amount.

(** The net amount that flowed into the pool and the pool after the operation; an
    operation that fails leaves the pool it was called on, a claim the pool it
    returns. *)
Definition moss_step (op : MossOp) (p : MossStakePool) : Z * MossStakePool :=
  match op with
  | OpDeposit user amount slot tier =>
      match MossStakePool_stake_with_tier user amount slot tier p with
      | Ok r => (amount, r.2) | Err _ => (0, p) end
  | OpDepositAt user amount slot secs tier =>
      match MossStakePool_stake_with_tier_at_time user amount slot secs tier p with
      | Ok r => (amount, r.2) | Err _ => (0, p) end
  | OpExit user shares slot =>
      match MossStakePool_request_unstake user shares slot p with
      | Ok r => (0, r.2) | Err _ => (0, p) end
  | OpExitAt user shares slot secs =>
      match MossStakePool_request_unstake_at_time user shares slot secs p with
      | Ok r => (0, r.2) | Err _ => (0, p) end
  | OpClaim user slot =>
      let '(r, p) := MossStakePool_claim_unstake user slot p in
      (- paid r, p)
  | OpClaimAt user slot secs =>
      let '(r, p) := MossStakePool_claim_unstake_at_time user slot secs p in
      (- paid r, p)
  | OpTransfer from to shares slot =>
      match MossStakePool_transfer from to shares slot p with
      | Ok p' => (0, p') | Err _ => (0, p) end
  | OpTransferAt from to shares slot secs =>
      match MossStakePool_transfer_at_time from to shares slot secs p with
      | Ok p' => (0, p') | Err _ => (0, p) end
  | OpRewards amount =>
      match MossStakePool_distribute_rewards amount p with
      | Ok p' => (reward_flow amount p, p') | Err _ => (0, p) end
  | OpRewardsV2 amount =>
      match MossStakePool_distribute_rewards_v2 amount p with
      | Ok p' => (reward_flow amount p, p') | Err _ => (0, p) end
  | OpSlash loss start =>
      match MossStakePool_apply_staking_v2_slash loss start p with
      | Ok r => (- (mss_active_backing_loss r.1 + mss_cooling_down_loss r.1), r.2)
      | Err _ => (0, p) end
  | OpClearClocks => (0, MossStakePool_clear_wall_clock_times p)
  end.

Fixpoint moss_run (ops : list MossOp) (p : MossStakePool) : Z * MossStakePool :=
  match ops with
  | [] => (0, p)
  | op :: ops =>
      let '(flow, p) := moss_step op p in
      let '(flows, p) := moss_run ops p in (flow + flows, p)
  end.

(** The most an operation can bring in. *)
Definition inflow (op : MossOp) : Z :=
  match op with
  | OpDeposit _ amount _ _ | OpDepositAt _ amount _ _ _ | OpRewards amount | OpRewardsV2 amount => amount
  | _ => 0
  end.

(** Amounts are unsigned. *)
Definition unsigned_op (op : MossOp) : Prop :=
  match op with
  | OpDeposit _ amount _ _ | OpDepositAt _ amount _ _ _ | OpRewards amount | OpRewardsV2 amount
  | OpExit _ amount _ | OpExitAt _ amount _ _ | OpTransfer _ _ amount _ | OpTransferAt _ _ amount _ _
  | OpSlash amount _ => 0 <= amount
  | _ => True
  end.

(** An exit that is accepted is worth something. *)
Definition redeems (op : MossOp) (p : MossStakePool) : Prop :=
  match op with
  | OpExit user shares slot =>
      forall r, MossStakePool_request_unstake user shares slot p = Ok r -> 0 < mur_licn_to_receive r.1
  | OpExitAt user shares slot secs =>
      forall r, MossStakePool_request_unstake_at_time user shares slot secs p = Ok r ->
        0 < mur_licn_to_receive r.1
  | _ => True
  end.

Fixpoint run_redeems (ops : list MossOp) (p : MossStakePool) : Prop :=
  match ops with
  | [] => True
  | op :: ops => redeems op p /\ run_redeems ops (moss_step op p).2
  end.

(** ** Conservation *)


Lemma moss_step_ok op p :
  moss_inv p -> owed p <= u64_max -> unsigned_op op -> redeems op p ->
  let '(flow, p') := moss_step op p in
  moss_inv p' /\ owed p' = owed p + flow /\ flow <= inflow op.
Proof.
  intros Hp Hmax Hu Hr.
  assert (moss_inv p /\ owed p = owed p + 0 /\ 0 <= 0) as Hsame by (split_and!; done || lia).
  destruct op; unfold moss_step; cbn [unsigned_op redeems inflow] in *;
    lazymatch goal with
    | |- context [MossStakePool_clear_wall_clock_times] =>
        destruct (clear_wall_clock_ok p Hp); split_and!; done || lia
    | |- context [MossStakePool_claim_unstake ?u ?t p] =>
        pose proof (claim_where_ok (fun request => mur_claimable_at request <=? t) u p Hp Hmax) as Hc;
        unfold MossStakePool_claim_unstake; destruct (claim_where _ u p) as [r p'];
        destruct Hc as (? & ? & ? & _); split_and!; done || lia
    | |- context [MossStakePool_claim_unstake_at_time ?u ?t ?c p] =>
        unfold MossStakePool_claim_unstake_at_time;
        match goal with
        | |- context [claim_where ?f u p] =>
            pose proof (claim_where_ok f u p Hp Hmax) as Hc; destruct (claim_where f u p) as [r p']
        end;
        destruct Hc as (? & ? & ? & _); split_and!; done || lia
    | |- context [match ?o with Ok _ => _ | Err _ => _ end] =>
        destruct o as [r|e] eqn:Ho; [|by split_and!; [apply Hsame|apply Hsame|done || lia]]
    end.
  - destruct (stake_with_tier_ok _ _ _ _ _ _ Hp Hu Ho). split_and!; done || lia.
  - destruct (stake_with_tier_at_time_ok _ _ _ _ _ _ _ Hp Hu Ho). split_and!; done || lia.
  - destruct (request_unstake_ok _ _ _ _ _ Hp Hu Ho (Hr r eq_refl)). split_and!; done || lia.
  - destruct (request_unstake_at_time_ok _ _ _ _ _ _ Hp Hu Ho (Hr r eq_refl)). split_and!; done || lia.
  - destruct (transfer_where_ok _ _ _ _ _ _ _ _ Hp Hu Ho). split_and!; done || lia.
  - destruct (transfer_where_ok _ _ _ _ _ _ _ _ Hp Hu Ho). split_and!; done || lia.
  - destruct (distribute_rewards_ok _ _ _ _ Hp Hu Ho) as [? Hf]. unfold reward_flow.
    split_and!; [done|done|case_match; lia].
  - destruct (distribute_rewards_v2_ok _ _ _ Hp Hu Ho) as [? Hf]. unfold reward_flow.
    split_and!; [done|done|case_match; lia].
  - destruct (apply_slash_ok _ _ _ _ Hp Hu Ho) as (? & ? & ? & ? & ?). split_and!; done || lia.
Qed.

Lemma inflow_nonneg op : unsigned_op op -> 0 <= inflow op.
Proof. destruct op; simpl; lia. Qed.

Lemma moss_run_ok ops p :
  moss_inv p -> Forall unsigned_op ops -> run_redeems ops p -> owed p + sumZ inflow ops <= u64_max ->
  let '(flow, p') := moss_run ops p in
  moss_inv p' /\ owed p' = owed p + flow /\ flow <= sumZ inflow ops.
Proof.
  intros Hp Hu. revert p Hp. induction Hu as [|op ops Hop Hops IH]; intros p Hp Hr Hmax; cbn [moss_run].
  { unfold sumZ. simpl. split_and!; done || lia. }
  rewrite sumZ_cons in Hmax |- *. destruct Hr as [Hr Hrs]. pose proof (inflow_nonneg op Hop).
  assert (0 <= sumZ inflow ops) by
    (apply sumZ_nonneg; rewrite Forall_forall in Hops; intros o Ho; by apply inflow_nonneg, Hops).
  pose proof (moss_step_ok op p Hp ltac:(lia) Hop Hr) as Hs. destruct (moss_step op p) as [flow p1].
  destruct Hs as (Hp1 & Ho1 & Hf). specialize (IH p1 Hp1 Hrs ltac:(lia)).
  destruct (moss_run ops p1) as [flows p2]. destruct IH as (? & ? & ?). split_and!; done || lia.
Qed.

(** The exits of a valid pool, summed. *)
Lemma liability_total p :
  moss_inv p -> owed p <= u64_max ->
  MossStakePool_pending_unstake_liability_total p = Ok (owed p - backing p).
Proof.
  intros Hp Hmax. destruct (totals_nonneg p Hp) as [_ Hb].
  assert (forall l, sumZ mur_licn_to_receive (l ≫= snd)
    = sumZ (fun kv : Pubkey * list MossUnstakeRequest => bucket_value kv.2) l) as Hflat.
  { induction l as [|[k q] l IH]; [done|]. rewrite bind_cons, sumZ_app, sumZ_cons, IH. done. }
  unfold MossStakePool_pending_unstake_liability_total.
  apply (try_fold_total _ (fun r => 0 <= mur_licn_to_receive r) mur_licn_to_receive).
  - intros a r b Hr Ha. rewrite checked_add64_Ok. split; [intros [-> ?]|tauto]. split_and!; try done.
    apply list_elem_of_bind in Hr as ([k q] & Hq & Hkq). apply elem_of_map_to_list in Hkq.
    destruct (mi_requests p Hp k q Hkq) as [_ Hall]. rewrite Forall_forall in Hall.
    destruct (Hall r Hq). lia.
  - done.
  - unfold u64_max. lia.
  - rewrite Hflat. unfold owed, map_sum in *. split_and!; [|lia|lia].
    apply Forall_forall. intros r Hr.
    apply list_elem_of_bind in Hr as ([k q] & Hq & Hkq). apply elem_of_map_to_list in Hkq.
    destruct (mi_requests p Hp k q Hkq) as [_ Hall]. rewrite Forall_forall in Hall.
    destruct (Hall r Hq). lia.
Qed.

(** C34.  MossStake is solvent: after any sequence of deposits, exits, claims,
    transfers, reward distributions and slashes, in slot or wall-clock mode, failed
    ones included, in which every accepted exit is worth at least one spore, the
    pool passes [validate_invariants], and the backing of the positions plus the
    pending exits is exactly what deposits and rewards brought in minus what claims
    paid and slashes burned.  The amounts ever brought in fit in 64 bits. *)
Theorem moss_run_conserves ops :
  Forall unsigned_op ops -> run_redeems ops MossStakePool_new -> sumZ inflow ops <= u64_max ->
  let '(flow, p) := moss_run ops MossStakePool_new in
  MossStakePool_validate_invariants p = Ok tt
  /\ MossStakePool_pending_unstake_liability_total p = Ok (flow - backing p).
Proof.
  intros Hu Hr Hmax. pose proof (moss_run_ok ops _ moss_new_inv Hu Hr) as Hok.
  destruct (moss_run ops MossStakePool_new) as [flow p].
  change (owed MossStakePool_new) with 0 in Hok. destruct Hok as (Hp & Ho & Hf); [lia|].
  split; [by apply moss_validates|]. rewrite liability_total; [by rewrite Ho|done|lia].
Qed.

(** Two depositors, one locked for thirty days, earn rewards; shares are
    transferred, withdrawn and claimed, and a slash hits positions and a pending
    exit. *)
Definition sample_ops : list MossOp :=
  [ OpDeposit 1 1000000 10 Flexible; OpDeposit 2 500000 10 Lock30; OpRewards 90000;
    OpTransfer 1 3 250000 20; OpExit 1 100000 30; OpExit 2 1 40; OpRewardsV2 7;
    OpSlash 300000 5; OpClaim 1 2000000; OpDeposit 3 12345 2000001 Flexible ].

(** [redeems], decided along the run. *)
Fixpoint run_redeemsb (ops : list MossOp) (p : MossStakePool) : bool :=
  match ops with
  | [] => true
  | op :: ops =>
      match op with
      | OpExit user shares slot =>
          match MossStakePool_request_unstake user shares slot p with
          | Ok r => 0 <? mur_licn_to_receive r.1 | Err _ => true end
      | OpExitAt user shares slot secs =>
          match MossStakePool_request_unstake_at_time user shares slot secs p with
          | Ok r => 0 <? mur_licn_to_receive r.1 | Err _ => true end
      | _ => true
      end && run_redeemsb ops (moss_step op p).2
  end.

Lemma run_redeemsb_true ops p : run_redeemsb ops p = true -> run_redeems ops p.
Proof.
  revert p. induction ops as [|op ops IH]; intros p; [done|]. cbn [run_redeemsb run_redeems].
  intros [Hop Hops]%andb_true_iff. split; [|by apply IH].
  destruct op; cbn [redeems]; try done; intros r Hr; rewrite Hr in Hop; by apply Z.ltb_lt.
Qed.

Lemma moss_run_conserves_witness :
  let '(flow, p) := moss_run sample_ops MossStakePool_new in
  flow = 1217163 /\ MossStakePool_validate_invariants p = Ok tt
  /\ MossStakePool_pending_unstake_liability_total p = Ok (flow - backing p).
Proof.
  pose proof (moss_run_conserves sample_ops) as H.
  assert ((moss_run sample_ops MossStakePool_new).1 = 1217163) as Hf by (vm_compute; reflexivity).
  destruct (moss_run sample_ops MossStakePool_new) as [flow p]. split; [exact Hf|]. apply H.
  - repeat constructor; vm_compute; discriminate.
  - apply run_redeemsb_true. vm_compute. reflexivity.
  - vm_compute. discriminate.
Defined.

(** ** An exit worth nothing *)

(** A request of value zero is never valid. *)
Lemma zero_request_invalid p k l r :
  moss_unsigned p -> mp_unstake_requests p !! k = Some l -> r ∈ l -> mur_licn_to_receive r = 0 ->
  is_ok (MossStakePool_validate_invariants p) = false.
Proof.
  intros Hu Hl Hr H0. destruct (MossStakePool_validate_invariants p) as [[]|e] eqn:Hv; [|done].
  apply moss_validate_iff in Hv; [|done]. destruct (mi_requests p Hv k l Hl) as [_ Hall].
  rewrite Forall_forall in Hall. destruct (Hall r Hr). lia.
Qed.

(** An exit that rounds down to nothing is accepted and poisons the pool: when
    some shares of an unlocked position are worth less than one spore of principal
    and of rewards (after a slash a share is worth less than a spore), requesting
    their exit succeeds, and the pool it leaves fails its own check, so every later
    Staking V2 reward distribution and every slash is refused until the request is
    removed. *)
Theorem zero_value_exit_poisons p user x shares slot :
  moss_inv p -> mp_positions p !! user = Some x ->
  0 < shares < pos_st_licn_amount x -> slot + UNSTAKE_COOLDOWN_SLOTS <= u64_max ->
  pos_lock_until x <= slot ->
  shares * pos_licn_deposited x < pos_st_licn_amount x ->
  shares * pos_rewards_earned x < pos_st_licn_amount x ->
  exists request p', MossStakePool_request_unstake user shares slot p = Ok (request, p')
    /\ is_ok (MossStakePool_validate_invariants p') = false
    /\ (forall rewards, is_ok (MossStakePool_distribute_rewards_v2 rewards p') = false)
    /\ (forall loss start, is_ok (MossStakePool_apply_staking_v2_slash loss start p') = false).
Proof.
  intros Hp Hx Hs Hslot Hlock Hd Hr. destruct (mi_positions p Hp user x Hx) as [Ho Hst Hd0 Hr0].
  destruct (position_shares_le p Hp user x Hx) as [_ Hsup]. destruct (totals_nonneg p Hp) as [_ Hb].
  unfold MossStakePool_request_unstake. rewrite (proj2 (Z.eqb_neq shares 0)) by lia.
  unfold checked_add64 at 1. rewrite (proj2 (Z.leb_le _ _)) by done. cbn [or_err]. rewrite Hx. cbn [or_err].
  rewrite (proj2 (Z.ltb_ge slot _)) by done. rewrite andb_false_r.
  unfold start_exit, split_position_value_for_unstake.
  rewrite (proj2 (Z.ltb_ge (pos_st_licn_amount x) shares)) by lia.
  rewrite (proj2 (Z.eqb_neq (pos_st_licn_amount x) 0)), (proj2 (Z.eqb_neq shares _)) by lia.
  rewrite !Z.div_small by nia. change (wrap64 0) with 0. change (checked_add64 0 0) with (Some 0).
  cbn [or_err and_then]. unfold checked_sub at 1. rewrite (proj2 (Z.leb_le _ _)) by lia. cbn [or_err].
  unfold checked_sub. rewrite (proj2 (Z.leb_le 0 _)) by done. cbn [or_err].
  eexists _, _. split; [reflexivity|].
  match goal with |- is_ok (_ ?p') = false /\ _ => set (q := p') end.
  assert (is_ok (MossStakePool_validate_invariants q) = false) as Hbad.
  { eapply (zero_request_invalid q user); [|by apply lookup_insert_eq| |].
    - destruct (moss_inv_unsigned p Hp) as [Hup Hur]. split; simpl.
      + unfold put_position, burn. simpl. rewrite (proj2 (Z.eqb_neq (pos_st_licn_amount x - shares) 0)) by lia.
        cbn [andb]. apply map_Forall_insert_2; [|done]. simpl. unfold sat_sub. lia.
      + apply map_Forall_insert_2; [|done]. apply Forall_app. split; [|by apply Forall_singleton; simpl; lia].
        destruct (mp_unstake_requests p !! user) as [l|] eqn:Hl; simpl; [exact (Hur user l Hl)|constructor].
    - apply elem_of_app. right. by apply list_elem_of_singleton.
    - done. }
  clearbody q. unfold MossStakePool_distribute_rewards_v2, MossStakePool_apply_staking_v2_slash.
  by destruct (MossStakePool_validate_invariants q).
Qed.

(** A deposit, and a slash of most of it. *)
Definition slashed_pool : MossStakePool :=
  (moss_run [OpDeposit 1 1000 10 Flexible; OpSlash 900 5] MossStakePool_new).2.

Lemma slashed_pool_inv : moss_inv slashed_pool.
Proof.
  pose proof (moss_run_ok [OpDeposit 1 1000 10 Flexible; OpSlash 900 5] _ moss_new_inv) as H.
  unfold slashed_pool. destruct (moss_run _ _) as [f p] in *. apply H.
  - repeat constructor; vm_compute; discriminate.
  - by apply run_redeemsb_true.
  - vm_compute. discriminate.
Qed.

Lemma zero_value_exit_poisons_witness :
  exists request p', MossStakePool_request_unstake 1 9 20 slashed_pool = Ok (request, p')
    /\ is_ok (MossStakePool_validate_invariants p') = false
    /\ is_ok (MossStakePool_distribute_rewards_v2 5 p') = false.
Proof.
  destruct (zero_value_exit_poisons slashed_pool 1 (mkStakingPosition 1 1000 100 10 0 0 Flexible 0 0) 9 20
    slashed_pool_inv ltac:(vm_compute; reflexivity) ltac:(simpl; lia) ltac:(vm_compute; discriminate)
    ltac:(simpl; lia) ltac:(simpl; lia) ltac:(simpl; lia)) as (r & p' & Ho & Hv & Hd & _).
  exists r, p'. exact (conj Ho (conj Hv (Hd 5))).
Defined.

(** ** A dust position *)

(** When the distribution of an active loss succeeds, the last position covers
    what the floors of the others leave. *)
Lemma slash_positions_remainder L A l k v d m d' m' :
  try_fold_last (slash_position L A) (d, m) (l ++ [(k, v)]) = Ok (d', m') ->
  L - d - sumZ (fun kv => L * kv.2 / A) l <= v.
Proof.
  revert d m. induction l as [|[k0 v0] l IH]; intros d m; cbn [app try_fold_last];
    rewrite and_then_Ok; intros ([d1 m1] & Hstep & Hrest); unfold slash_position in Hstep;
    apply and_then_Ok in Hstep as (loss & Hloss & Hstep); apply guard_Ok in Hstep as [Hle%Z.ltb_ge Hstep];
    apply or_err_Ok in Hstep as (d2 & [-> _]%checked_add64_Some & Hstep);
    repeat (apply or_err_Ok in Hstep as (? & _ & Hstep)); injection Hstep as <- _.
  - apply or_err_Ok in Hloss as (? & [-> _]%checked_sub_Some & [= <-]). unfold sumZ. simpl. lia.
  - apply IH in Hrest. rewrite sumZ_cons. cbn [snd].
    destruct (l ++ [(k, v)]) eqn:Hl; [by destruct l|]. injection Hloss as <-. lia.
Qed.

(** A dust position blocks slashing: the loss is split over the positions in key
    order by floors, and the last position must cover all the rounding.  If it is
    worth less than that remainder, the whole slash is refused, whatever the other
    positions hold, and with it the equivocation slash that asked for it. *)
Theorem dust_position_blocks_slash p loss start others k dust :
  moss_inv p -> eligible_requests start p = [] -> 0 < loss <= backing p ->
  positive_positions p = Ok (others ++ [(k, dust)]) ->
  dust < loss - sumZ (fun kv => loss * kv.2 / backing p) others ->
  is_ok (MossStakePool_apply_staking_v2_slash loss start p) = false.
Proof.
  intros Hp He Hl Hpos Hdust. pose proof (mi_backing_max p Hp) as Hbm.
  unfold MossStakePool_apply_staking_v2_slash. rewrite moss_validates by done. cbn [and_then].
  rewrite (proj2 (Z.eqb_neq loss 0)), He by lia. cbn [fmap list_fmap try_fold and_then].
  unfold checked_add64. rewrite (proj2 (Z.leb_le (backing p + 0) _)) by lia. cbn [or_err].
  rewrite Z.add_0_r, Z.min_l, (proj2 (Z.eqb_neq loss 0)) by lia. change (0 =? 0) with true. cbv iota.
  unfold checked_sub. rewrite (proj2 (Z.leb_le 0 loss)), Z.sub_0_r by lia. cbn [or_err].
  destruct ((_ <? _) || _); [done|]. unfold slash_active.
  rewrite (proj2 (Z.ltb_lt 0 loss)), Hpos by lia. cbn [and_then].
  destruct (bool_decide _ || _); [done|].
  destruct (try_fold_last _ _ _) as [[d m]|e] eqn:Hf; [|done].
  apply slash_positions_remainder in Hf. lia.
Qed.

(** Three positions of 101 spores and one of a single spore, whose owner has the
    last key. *)
Definition dusty_pool : MossStakePool :=
  (moss_run [OpDeposit 1 101 10 Flexible; OpDeposit 2 101 10 Flexible;
             OpDeposit 3 101 10 Flexible; OpDeposit 9 1 10 Flexible] MossStakePool_new).2.

Lemma dusty_pool_inv : moss_inv dusty_pool.
Proof.
  pose proof (moss_run_ok [OpDeposit 1 101 10 Flexible; OpDeposit 2 101 10 Flexible;
             OpDeposit 3 101 10 Flexible; OpDeposit 9 1 10 Flexible] _ moss_new_inv) as H.
  unfold dusty_pool. destruct (moss_run _ _) as [f p] in *. apply H.
  - repeat constructor; vm_compute; discriminate.
  - by apply run_redeemsb_true.
  - vm_compute. discriminate.
Qed.

(** Half of the backing is to be slashed. *)
Lemma dust_position_blocks_slash_witness :
  backing dusty_pool = 304
  /\ is_ok (MossStakePool_apply_staking_v2_slash 152 0 dusty_pool) = false.
Proof.
  split; [vm_compute; reflexivity|].
  apply (dust_position_blocks_slash dusty_pool 152 0 [(1, 101); (2, 101); (3, 101)] 9 1 dusty_pool_inv);
    vm_compute; (split; reflexivity || discriminate) || reflexivity.
Defined.
