(* ===== verification/RewardPlan.v ===== *)
(** * Staking V2: epoch rewards

    Models the reward side of Staking V2 in [core/src/consensus.rs]: the inputs of a
    completed epoch (stake-time averages, production against expectation), the
    reward plan with its remainder rule, and the settlement that applies a plan. *)

From S2P Require Import Prelude Crypto Stake Pool PoolInvariant PoolRun Rewards Validators StakingV2.
From stdpp Require Import base tactics numbers list gmap.
From Stdlib Require Import ZArith Lia.

Local Open Scope Z_scope.
Local Open Scope rust_scope.

(** ** Data *)

Record ValidatorEpochStakeWeight := mkValidatorEpochStakeWeight {
  vsw_validator : Pubkey;
  vsw_average_self_bond : Z;
  vsw_average_delegations : list (Pubkey * Z);
}.

Record EpochStakeWeightSnapshot := mkEpochStakeWeightSnapshot {
  esw_epoch : Z;
  esw_start_slot : Z;
  esw_end_slot : Z;
  esw_validators : list ValidatorEpochStakeWeight;
}.

Record StakingV2EpochRewardInputs := mkStakingV2EpochRewardInputs {
  eri_stake_weights : EpochStakeWeightSnapshot;
  eri_performance_bps : gmap Pubkey Z;
  eri_commission_bps : gmap Pubkey Z;
}.

Record DelegatorEpochReward := mkDelegatorEpochReward {
  der_delegator : Pubkey;
  der_amount : Z;
}.

Record ValidatorEpochRewardPlan := mkValidatorEpochRewardPlan {
  vrp_validator : Pubkey;
  vrp_base_reward : Z;
  vrp_performance_bps : Z;
  vrp_performance_adjusted_reward : Z;
  vrp_self_bond_reward : Z;
  vrp_delegation_gross_reward : Z;
  vrp_commission_reward : Z;
  vrp_delegator_rewards : list DelegatorEpochReward;
}.

Record EpochSecurityRewardPlan := mkEpochSecurityRewardPlan {
  esp_reward_budget : Z;
  esp_assigned_reward : Z;
  esp_performance_unminted : Z;
  esp_validators : list ValidatorEpochRewardPlan;
}.

Record ValidatorEpochRewardSettlement := mkValidatorEpochRewardSettlement {
  vrs_validator : Pubkey;
  vrs_planned_operator_reward : Z;
  vrs_liquid_operator_reward : Z;
  vrs_bootstrap_debt_payment : Z;
  vrs_delegator_rewards : list DelegatorEpochReward;
}.

Record EpochSecurityRewardSettlement := mkEpochSecurityRewardSettlement {
  ess_plan : EpochSecurityRewardPlan;
  ess_total_minted : Z;
  ess_bootstrap_debt_unminted : Z;
  ess_settlements : list ValidatorEpochRewardSettlement;
}.

#[global] Instance ValidatorEpochStakeWeight_eq_dec : EqDecision ValidatorEpochStakeWeight.
Proof. solve_decision. Defined.
#[global] Instance EpochStakeWeightSnapshot_eq_dec : EqDecision EpochStakeWeightSnapshot.
Proof. solve_decision. Defined.

Inductive PlanError :=
| FromV2 (e : V2Error)
| EmptyInterval
| DuplicateWeight (validator : Pubkey)
| UnknownWeight (validator : Pubkey)
| DuplicateDelegation (validator delegator : Pubkey)
| DelegationIsSelfBond (validator : Pubkey)
| ZeroWeightDelegation (validator delegator : Pubkey)
| AverageOverflow
| AverageAboveCap (validator : Pubkey)
| EligibleOverflow
| BaseRemainder
| BaseOverflow
| MissingPerformance (validator : Pubkey)
| PerformanceTooHigh (validator : Pubkey)
| MissingCommission (validator : Pubkey)
| CommissionTooHigh (validator : Pubkey)
| AssignedOverflow
| AverageUnderflow
| SelfBondRewardUnderflow
| DelegatorBudgetUnderflow
| DelegatorRemainder
| DelegatorOverflow
| DelegatorConservation (validator : Pubkey)
| PlanTotalOverflow
| PlanMismatch (validator : Pubkey)
| BaseConservation
| UnmintedUnderflow
| InputsDiffer
| AlreadySettled (epoch : Z)
| WrongEpochStart
| OperatorOverflow
| UnclaimedOverflow (validator : Pubkey)
| MintedOverflow
| SettlementMismatch.

Definition lift_v2 {A} (r : result A V2Error) : result A PlanError :=
  match r with Ok a => Ok a | Err e => Err (FromV2 e) end.

(** A checked running total with a fixed error. *)
Definition checked_total (e : PlanError) (total amount : Z) : result Z PlanError :=
  or_err (checked_add64 total amount) e Ok.

Definition average_effective_stake (w : ValidatorEpochStakeWeight) : result Z PlanError :=
  try_fold (checked_total AverageOverflow) (vsw_average_self_bond w) (vsw_average_delegations w).*2.

(** ** The inputs of a completed epoch *)

(** Expected blocks of the validator at [index] and the running total. *)
Definition expected_blocks (total_leader_weight : Z) (last : bool) (distributed leader_weight : Z)
  : result Z V2Error :=
  if last then or_err (checked_sub SLOTS_PER_EPOCH distributed) BlocksNotCovered Ok
  else Ok (SLOTS_PER_EPOCH * leader_weight / total_leader_weight).

Definition performance_of (produced expected : Z) : Z :=
  if expected =? 0 then 10000 else Z.min (produced * 10000 / expected) 10000.

Definition average_delegation (st : StakingV2EpochState) (epoch_end_slot : Z)
  (acc : list (Pubkey * Z)) (entry : Pubkey * EpochStakeAccumulator) : result (list (Pubkey * Z)) V2Error :=
  let '(delegator, accumulator) := entry in
  let? average :=
    EpochStakeAccumulator_average_amount epoch_end_slot (v2_epoch_start_slot st) accumulator in
  Ok (if 0 <? average then acc ++ [(delegator, average)] else acc).

(** The state of the loop over the validators: blocks distributed, weights,
    performance and commissions so far. *)
Definition inputs_acc : Type :=
  Z * list ValidatorEpochStakeWeight * gmap Pubkey Z * gmap Pubkey Z.

Definition reward_input (p : StakePool) (st : StakingV2EpochState) (epoch_end_slot total_leader_weight : Z)
  (last : bool) (acc : inputs_acc) (entry : Pubkey * ValidatorEpochAccounting)
  : result inputs_acc V2Error :=
  let '(distributed, validators, performance_bps, commission_bps) := acc in
  let '(validator, accounting) := entry in
  let? expected :=
    expected_blocks total_leader_weight last distributed (vea_leader_weight accounting) in
  or_err (checked_add64 distributed expected) BlocksNotCovered (fun distributed =>
  or_err (sp_stakes p !! validator) (UnknownValidator validator) (fun stake =>
  or_err (checked_sub (si_blocks_produced stake) (vea_production_baseline accounting))
    (ProductionRegressed validator) (fun produced =>
  let? average_self_bond :=
    EpochStakeAccumulator_average_amount epoch_end_slot (v2_epoch_start_slot st)
      (vea_self_bond accounting) in
  let? average_delegations :=
    try_fold (average_delegation st epoch_end_slot) [] (btree (vea_delegations accounting)) in
  Ok (distributed,
      validators ++ [mkValidatorEpochStakeWeight validator average_self_bond average_delegations],
      <[validator := performance_of produced expected]> performance_bps,
      <[validator := vea_commission_bps accounting]> commission_bps)))).

Definition StakePool_staking_v2_epoch_reward_inputs (epoch_end_slot : Z) (p : StakePool)
  : result StakingV2EpochRewardInputs V2Error :=
  let? _ := StakePool_validate_v2_invariants p in
  or_err (sp_staking_v2_state p) NotInitialized (fun st =>
  or_err (checked_add64 (v2_epoch_start_slot st) SLOTS_PER_EPOCH) EpochOverflow (fun expected_end =>
  reject negb (epoch_end_slot =? expected_end) with WrongEpochEnd expected_end;
  let? total_leader_weight :=
    try_fold (fun total entry => or_err (checked_add64 total (vea_leader_weight entry)) WeightOverflow Ok)
      0 (btree (v2_validators st)).*2 in
  reject total_leader_weight =? 0 with ZeroLeaderWeights;
  let? acc :=
    try_fold_last (reward_input p st epoch_end_slot total_leader_weight) (0, [], ∅, ∅)
      (btree (v2_validators st)) in
  let '(expected_distributed, validators, performance_bps, commission_bps) := acc in
  reject negb (expected_distributed =? SLOTS_PER_EPOCH) with BlocksNotCovered;
  Ok (mkStakingV2EpochRewardInputs
        (mkEpochStakeWeightSnapshot (v2_current_epoch st) (v2_epoch_start_slot st) epoch_end_slot validators)
        performance_bps commission_bps))).

(** ** The plan *)

(** [windows(2)] of a sorted vector finds two equal keys. *)
Fixpoint adjacent_equal {A} (key : A -> Z) (l : list A) : option A :=
  match l with
  | x :: ((y :: _) as l') => if key x =? key y then Some x else adjacent_equal key l'
  | _ => None
  end.

Definition check_delegation (validator : Pubkey) (_ : unit) (entry : Pubkey * Z)
  : result unit PlanError :=
  let '(delegator, amount) := entry in
  reject delegator =? validator with DelegationIsSelfBond validator;
  reject amount =? 0 with ZeroWeightDelegation validator delegator;
  Ok tt.

(** One iteration of [for entry in &mut eligible]. *)
Definition check_weight (p : StakePool) (acc : Z * list ValidatorEpochStakeWeight)
  (entry : ValidatorEpochStakeWeight) : result (Z * list ValidatorEpochStakeWeight) PlanError :=
  let '(eligible_stake, eligible) := acc in
  let validator := vsw_validator entry in
  reject negb (bool_decide (is_Some (sp_stakes p !! validator))) with UnknownWeight validator;
  let entry :=
    mkValidatorEpochStakeWeight validator (vsw_average_self_bond entry)
      (sort_by_key fst (vsw_average_delegations entry)) in
  match adjacent_equal fst (vsw_average_delegations entry) with
  | Some (delegator, _) => Err (DuplicateDelegation validator delegator)
  | None =>
      let? _ := try_fold (check_delegation validator) tt (vsw_average_delegations entry) in
      let? effective := average_effective_stake entry in
      or_err (checked_mul64 (vsw_average_self_bond entry) MAX_VALIDATOR_EFFECTIVE_STAKE_MULTIPLIER)
        AverageOverflow (fun maximum =>
      reject maximum <? effective with AverageAboveCap validator;
      let? eligible_stake := checked_total EligibleOverflow eligible_stake effective in
      Ok (eligible_stake, eligible ++ [entry]))
  end.

(** The last of the recipients receives the remainder, the others their floor. *)
Definition split_share (budget total : Z) (last : bool) (distributed amount : Z) : option Z :=
  if last then checked_sub budget distributed else Some (budget * amount / total).

Definition plan_delegator (delegator_budget average_delegated : Z) (last : bool)
  (acc : Z * list DelegatorEpochReward) (entry : Pubkey * Z)
  : result (Z * list DelegatorEpochReward) PlanError :=
  let '(distributed, rewards) := acc in
  let '(delegator, amount) := entry in
  or_err (split_share delegator_budget average_delegated last distributed amount)
    DelegatorRemainder (fun reward =>
  let? distributed := checked_total DelegatorOverflow distributed reward in
  Ok (distributed,
      if 0 <? reward then rewards ++ [mkDelegatorEpochReward delegator reward] else rewards)).

Definition plan_delegators (validator : Pubkey) (delegator_budget average_delegated : Z)
  (delegations : list (Pubkey * Z)) : result (list DelegatorEpochReward) PlanError :=
  if 0 <? average_delegated then
    let? acc :=
      try_fold_last (plan_delegator delegator_budget average_delegated) (0, []) delegations in
    reject negb (acc.1 =? delegator_budget) with DelegatorConservation validator;
    Ok acc.2
  else Ok [].

(** The split of one validator's adjusted reward. *)
Definition plan_split (weight : ValidatorEpochStakeWeight) (effective_stake base performance commission : Z)
  : result ValidatorEpochRewardPlan PlanError :=
  let validator := vsw_validator weight in
  let adjusted := base * performance / 10000 in
  or_err (checked_sub effective_stake (vsw_average_self_bond weight)) AverageUnderflow
    (fun average_delegated =>
  let gross :=
    if average_delegated =? 0 then 0 else adjusted * average_delegated / effective_stake in
  or_err (checked_sub adjusted gross) SelfBondRewardUnderflow (fun self_bond_reward =>
  let commission_reward := gross * commission / 10000 in
  or_err (checked_sub gross commission_reward) DelegatorBudgetUnderflow (fun delegator_budget =>
  let? delegator_rewards :=
    plan_delegators validator delegator_budget average_delegated (vsw_average_delegations weight) in
  let? operator := checked_total PlanTotalOverflow self_bond_reward commission_reward in
  let? planned_total :=
    try_fold (checked_total PlanTotalOverflow) operator (der_amount <$> delegator_rewards) in
  reject negb (planned_total =? adjusted) with PlanMismatch validator;
  Ok {| vrp_validator := validator;
        vrp_base_reward := base;
        vrp_performance_bps := performance;
        vrp_performance_adjusted_reward := adjusted;
        vrp_self_bond_reward := self_bond_reward;
        vrp_delegation_gross_reward := gross;
        vrp_commission_reward := commission_reward;
        vrp_delegator_rewards := delegator_rewards |}))).

(** One iteration of the loop over the eligible validators. *)
Definition plan_validator (reward_budget eligible_stake : Z) (performance_bps commission_bps : gmap Pubkey Z)
  (last : bool) (acc : Z * Z * list ValidatorEpochRewardPlan) (weight : ValidatorEpochStakeWeight)
  : result (Z * Z * list ValidatorEpochRewardPlan) PlanError :=
  let '(base_distributed, assigned_reward, validators) := acc in
  let validator := vsw_validator weight in
  let? effective_stake := average_effective_stake weight in
  or_err (split_share reward_budget eligible_stake last base_distributed effective_stake)
    BaseRemainder (fun base_reward =>
  let? base_distributed := checked_total BaseOverflow base_distributed base_reward in
  or_err (performance_bps !! validator) (MissingPerformance validator) (fun performance =>
  reject 10000 <? performance with PerformanceTooHigh validator;
  or_err (commission_bps !! validator) (MissingCommission validator) (fun commission =>
  reject MAX_VALIDATOR_COMMISSION_BPS <? commission with CommissionTooHigh validator;
  let? assigned_reward :=
    checked_total AssignedOverflow assigned_reward (base_reward * performance / 10000) in
  let? plan := plan_split weight effective_stake base_reward performance commission in
  Ok (base_distributed, assigned_reward, validators ++ [plan])))).

Definition StakePool_plan_v2_epoch_rewards_for_weights (reward_budget : Z)
  (stake_weights : EpochStakeWeightSnapshot) (performance_bps commission_bps : gmap Pubkey Z)
  (p : StakePool) : result EpochSecurityRewardPlan PlanError :=
  let? _ := lift_v2 (StakePool_validate_v2_invariants p) in
  reject esw_end_slot stake_weights <=? esw_start_slot stake_weights with EmptyInterval;
  let eligible := sort_by_key vsw_validator (esw_validators stake_weights) in
  match adjacent_equal vsw_validator eligible with
  | Some w => Err (DuplicateWeight (vsw_validator w))
  | None =>
      let? checked := try_fold (check_weight p) (0, []) eligible in
      let '(eligible_stake, eligible) := checked in
      if (reward_budget =? 0) || (eligible_stake =? 0)
      then Ok (mkEpochSecurityRewardPlan reward_budget 0 reward_budget [])
      else
        let? acc :=
          try_fold_last (plan_validator reward_budget eligible_stake performance_bps commission_bps)
            (0, 0, []) eligible in
        let '(base_distributed, assigned_reward, validators) := acc in
        reject negb (base_distributed =? reward_budget) with BaseConservation;
        or_err (checked_sub reward_budget assigned_reward) UnmintedUnderflow (fun performance_unminted =>
        Ok (mkEpochSecurityRewardPlan reward_budget assigned_reward performance_unminted validators))
  end.

(** The weights of the current pool, for a plan without stake-time averages. *)
Definition current_weights (p : StakePool) : EpochStakeWeightSnapshot :=
  mkEpochStakeWeightSnapshot 0 0 1
    (sort_by_key vsw_validator
       (map (fun info =>
               mkValidatorEpochStakeWeight (si_validator info) (si_amount info)
                 (sort_by_key fst
                    (map_to_list (default ∅ (sp_delegations p !! si_validator info)))))
          (List.filter is_reward_eligible (map_to_list (sp_stakes p)).*2))).

Definition StakePool_plan_v2_epoch_rewards (reward_budget : Z)
  (performance_bps commission_bps : gmap Pubkey Z) (p : StakePool)
  : result EpochSecurityRewardPlan PlanError :=
  let? _ := lift_v2 (StakePool_validate_v2_invariants p) in
  StakePool_plan_v2_epoch_rewards_for_weights reward_budget (current_weights p)
    performance_bps commission_bps p.

(** ** The settlement *)

Definition apply_validator (epoch_start n : Z)
  (acc : Z * Z * list ValidatorEpochRewardSettlement * StakePool) (plan : ValidatorEpochRewardPlan)
  : result (Z * Z * list ValidatorEpochRewardSettlement * StakePool) PlanError :=
  let '(total_minted, debt_unminted, settlements, p) := acc in
  let validator := vrp_validator plan in
  let? operator := checked_total OperatorOverflow (vrp_self_bond_reward plan) (vrp_commission_reward plan) in
  or_err (sp_stakes p !! validator) (UnknownWeight validator) (fun stake_info =>
  let? _ := checked_total (UnclaimedOverflow validator) (si_rewards_earned stake_info) operator in
  let stake_info := StakeInfo_add_reward operator epoch_start stake_info in
  let '((liquid, debt), stake_info) := StakeInfo_claim_rewards epoch_start n stake_info in
  let? delegator_total :=
    try_fold (checked_total DelegatorOverflow) 0 (der_amount <$> vrp_delegator_rewards plan) in
  let? total_minted := checked_total MintedOverflow total_minted liquid in
  let? total_minted := checked_total MintedOverflow total_minted delegator_total in
  let? debt_unminted := checked_total MintedOverflow debt_unminted debt in
  Ok (total_minted, debt_unminted,
      settlements ++ [mkValidatorEpochRewardSettlement validator operator liquid debt
                        (vrp_delegator_rewards plan)],
      put_stake validator stake_info p)).

Definition num_reward_eligible (p : StakePool) : Z :=
  Z.max (Z.of_nat (length (List.filter is_reward_eligible (map_to_list (sp_stakes p)).*2))) 1.

Definition StakePool_apply_v2_epoch_reward_plan (plan : EpochSecurityRewardPlan) (epoch_start : Z)
  (p : StakePool) : result (EpochSecurityRewardSettlement * StakePool) PlanError :=
  let? acc :=
    try_fold (apply_validator epoch_start (num_reward_eligible p)) (0, 0, [], p) (esp_validators plan) in
  let '(total_minted, debt_unminted, settlements, updated) := acc in
  let? accounted := checked_total MintedOverflow total_minted debt_unminted in
  reject negb (accounted =? esp_assigned_reward plan) with SettlementMismatch;
  let? _ := lift_v2 (StakePool_validate_v2_invariants updated) in
  Ok (mkEpochSecurityRewardSettlement plan total_minted debt_unminted settlements, updated).

Definition StakePool_settle_v2_epoch_rewards (reward_budget : Z)
  (performance_bps commission_bps : gmap Pubkey Z) (epoch_start : Z) (p : StakePool)
  : result (EpochSecurityRewardSettlement * StakePool) PlanError :=
  let? plan := StakePool_plan_v2_epoch_rewards reward_budget performance_bps commission_bps p in
  StakePool_apply_v2_epoch_reward_plan plan epoch_start p.

Definition StakePool_settle_v2_epoch_rewards_for_weights (reward_budget : Z)
  (stake_weights : EpochStakeWeightSnapshot) (performance_bps commission_bps : gmap Pubkey Z)
  (epoch_start : Z) (p : StakePool) : result (EpochSecurityRewardSettlement * StakePool) PlanError :=
  let? expected :=
    lift_v2 (StakePool_staking_v2_epoch_reward_inputs (esw_end_slot stake_weights) p) in
  reject negb (bool_decide (eri_stake_weights expected = stake_weights))
         || negb (bool_decide (eri_performance_bps expected = performance_bps))
         || negb (bool_decide (eri_commission_bps expected = commission_bps)) with InputsDiffer;
  or_err (sp_staking_v2_state p) (FromV2 NotInitialized) (fun st =>
  reject bool_decide (v2_last_settled_epoch st = Some (v2_current_epoch st))
    with AlreadySettled (v2_current_epoch st);
  reject negb (epoch_start =? esw_start_slot stake_weights) with WrongEpochStart;
  let? plan :=
    StakePool_plan_v2_epoch_rewards_for_weights reward_budget stake_weights performance_bps
      commission_bps p in
  let? applied := StakePool_apply_v2_epoch_reward_plan plan epoch_start p in
  let '(settlement, updated) := applied in
  or_err (sp_staking_v2_state updated) (FromV2 NotInitialized) (fun st =>
  let updated :=
    set_sp_staking_v2_state
      (Some (set_v2_last_settled_epoch (Some (v2_current_epoch st)) st)) updated in
  let? _ := lift_v2 (StakePool_validate_v2_invariants updated) in
  Ok (settlement, updated))).

(** ** Floors and the remainder *)

Section split.
Context {A : Type} (f : A -> Z) (budget total : Z).

Definition floor_share (x : A) : Z := budget * f x / total.

Fixpoint shares (distributed : Z) (l : list A) : list Z :=
  match l with
  | [] => []
  | [x] => [budget - distributed]
  | x :: l => floor_share x :: shares (distributed + floor_share x) l
  end.

Hypothesis Hbudget : 0 <= budget <= u64_max.
Hypothesis Htotal : 0 < total.

Lemma floor_share_nonneg x : 0 <= f x -> 0 <= floor_share x.
Proof. intros Hx. apply Z.div_pos; nia. Qed.

(** The floors leave a non-negative remainder. *)
Lemma floors_le l :
  (forall x, x ∈ l -> 0 <= f x) -> sumZ f l <= total -> sumZ floor_share l <= budget.
Proof.
  intros Hf Hs. etrans; [apply (sumZ_floor f budget total l); [lia|lia|done]|].
  assert (0 <= sumZ f l) by by apply sumZ_nonneg. apply Z.div_le_upper_bound; nia.
Qed.

Lemma shares_spec l distributed :
  (forall x, x ∈ l -> 0 <= f x) -> l <> [] -> distributed + sumZ floor_share l <= budget ->
  0 <= distributed ->
  distributed + sumZ id (shares distributed l) = budget
  /\ Forall2 (fun x r => floor_share x <= r /\ 0 <= r <= budget) l (shares distributed l).
Proof.
  revert distributed. induction l as [|x l IH]; intros d Hf Hne Hd H0; [done|].
  assert (0 <= floor_share x) by (apply floor_share_nonneg, Hf; left).
  rewrite sumZ_cons in Hd.
  assert (0 <= sumZ floor_share l) by (apply sumZ_nonneg; intros; apply floor_share_nonneg, Hf; by right).
  destruct l as [|y l].
  - cbn [shares]. rewrite sumZ_cons. unfold sumZ at 1, id. simpl.
    split; [lia|]. repeat constructor; lia.
  - change (shares d (x :: y :: l)) with (floor_share x :: shares (d + floor_share x) (y :: l)).
    destruct (IH (d + floor_share x)) as [Hs Hall]; [intros; apply Hf; by right|done|lia|lia|].
    rewrite sumZ_cons. unfold id at 1. split; [lia|]. constructor; [lia|done].
Qed.

End split.

(** ** Delegators *)

(** The credits of the plan: positive shares only. *)
Definition listed (l : list (Pubkey * Z)) (rs : list Z) : list DelegatorEpochReward :=
  omap (fun xr => if 0 <? xr.2 then Some (mkDelegatorEpochReward xr.1.1 xr.2) else None) (zip l rs).

Lemma listed_sum l rs :
  Forall2 (fun _ r => 0 <= r) l rs -> sumZ der_amount (listed l rs) = sumZ id rs.
Proof.
  unfold listed. rewrite sumZ_omap_with. induction 1 as [|x r l rs Hr _ IH]; [done|].
  cbn [zip zip_with]. rewrite !sumZ_cons, IH. cbn [fst snd]. unfold id at 2.
  destruct (Z.ltb_spec 0 r); simpl; lia.
Qed.

Section delegators.
Context (budget total : Z).
Hypothesis Hbudget : 0 <= budget <= u64_max.
Hypothesis Htotal : 0 < total.

Lemma plan_delegator_fold l d rewards :
  (forall x, x ∈ l -> 0 <= x.2) -> l <> [] -> 0 <= d ->
  d + sumZ (floor_share snd budget total) l <= budget ->
  try_fold_last (plan_delegator budget total) (d, rewards) l
  = Ok (budget, rewards ++ listed l (shares snd budget total d l)).
Proof.
  revert d rewards. induction l as [|[v x] l IH]; intros d rewards Hf Hne H0 Hd; [done|].
  rewrite sumZ_cons in Hd.
  assert (0 <= floor_share snd budget total (v, x)) by (apply floor_share_nonneg; [lia|lia|apply Hf; left]).
  assert (0 <= sumZ (floor_share snd budget total) l).
  { apply sumZ_nonneg. intros y Hy. apply floor_share_nonneg; [lia|lia|apply Hf; by right]. }
  destruct l as [|y l].
  - cbn [try_fold_last plan_delegator split_share]. unfold checked_sub.
    destruct (Z.leb_spec d budget); [|lia]. cbn [or_err]. unfold checked_total, checked_add64.
    replace (d + (budget - d)) with budget by lia.
    destruct (Z.leb_spec budget u64_max); [|lia]. cbn [or_err and_then].
    unfold listed. simpl. destruct (0 <? budget - d); [done|by rewrite app_nil_r].
  - cbn [try_fold_last plan_delegator split_share or_err].
    change (budget * x / total) with (floor_share (@snd Pubkey Z) budget total (v, x)).
    unfold checked_total, checked_add64.
    destruct (Z.leb_spec (d + floor_share snd budget total (v, x)) u64_max); [|lia].
    cbn [or_err and_then].
    change (try_fold_last (plan_delegator budget total) (d + floor_share snd budget total (v, x),
      if 0 <? floor_share snd budget total (v, x)
      then rewards ++ [mkDelegatorEpochReward v (floor_share snd budget total (v, x))] else rewards) (y :: l)
      = Ok (budget, rewards ++ listed ((v, x) :: y :: l)
              (floor_share snd budget total (v, x)
                 :: shares snd budget total (d + floor_share snd budget total (v, x)) (y :: l)))).
    rewrite IH; [|intros; apply Hf; by right|done|lia|lia].
    unfold listed at 2. cbn [zip zip_with omap list_omap fst snd].
    destruct (0 <? floor_share snd budget total (v, x)); [|done]. by rewrite <- app_assoc.
Qed.

Lemma plan_delegators_Ok validator l :
  (forall x, x ∈ l -> 0 < x.2) -> sumZ snd l = total ->
  plan_delegators validator budget total l = Ok (listed l (shares snd budget total 0 l))
  /\ sumZ der_amount (listed l (shares snd budget total 0 l)) = budget
  /\ Forall2 (fun x r => budget * x.2 / total <= r) l (shares snd budget total 0 l).
Proof.
  intros Hf Hs. assert (l <> []) as Hne by (intros ->; unfold sumZ in Hs; simpl in Hs; lia).
  assert (forall x, x ∈ l -> 0 <= x.2) as Hf0 by (intros x Hx; specialize (Hf x Hx); lia).
  assert (0 + sumZ (floor_share snd budget total) l <= budget) as Hfl.
  { rewrite Z.add_0_l. apply floors_le; [lia|lia|done|lia]. }
  destruct (shares_spec snd budget total Hbudget Htotal l 0 Hf0 Hne Hfl) as [Hsum Hall]; [lia|].
  unfold plan_delegators. destruct (Z.ltb_spec 0 total); [|lia].
  rewrite plan_delegator_fold by (try done; lia). cbn [and_then fst snd app]. rewrite Z.eqb_refl.
  split_and!; [done| |].
  - rewrite listed_sum; [lia|]. eapply Forall2_impl; [done|]. simpl. lia.
  - eapply Forall2_impl; [done|]. simpl. unfold floor_share. lia.
Qed.
End delegators.

(** ** Validators *)

Definition delegated_weight (w : ValidatorEpochStakeWeight) : Z := sumZ snd (vsw_average_delegations w).
Definition weight_of (w : ValidatorEpochStakeWeight) : Z := vsw_average_self_bond w + delegated_weight w.

Record weight_ok (w : ValidatorEpochStakeWeight) : Prop := {
  wo_self : 0 <= vsw_average_self_bond w;
  wo_delegations : Forall (fun x => x.1 <> vsw_validator w /\ 0 < x.2) (vsw_average_delegations w);
  wo_nodup : NoDup (vsw_average_delegations w).*1;
  wo_cap : weight_of w <= 5 * vsw_average_self_bond w <= u64_max;
}.

Lemma delegated_weight_nonneg w : weight_ok w -> 0 <= delegated_weight w.
Proof.
  intros Hw. apply sumZ_nonneg. intros x Hx.
  pose proof (wo_delegations w Hw) as Hd. rewrite Forall_forall in Hd. destruct (Hd x Hx). lia.
Qed.

Lemma weight_of_nonneg w : weight_ok w -> 0 <= weight_of w.
Proof.
  intros Hw. pose proof (delegated_weight_nonneg w Hw). pose proof (wo_self w Hw). unfold weight_of. lia.
Qed.

Lemma checked_sum e acc l total :
  Forall (fun x => 0 <= x) l -> 0 <= acc <= u64_max ->
  try_fold (checked_total e) acc l = Ok total <-> total = acc + sumZ id l /\ total <= u64_max.
Proof.
  intros Hl Hacc. rewrite (try_fold_total _ (fun x => 0 <= x) id); [tauto| |done|done].
  intros a x b Hx Ha. rewrite Forall_forall in Hl. specialize (Hl x Hx). unfold checked_total.
  rewrite checked_add64_Ok. unfold id. tauto.
Qed.

Lemma average_effective_stake_Ok w : weight_ok w -> average_effective_stake w = Ok (weight_of w).
Proof.
  intros Hw. pose proof (wo_self w Hw). pose proof (wo_cap w Hw). pose proof (delegated_weight_nonneg w Hw).
  unfold weight_of in *. apply checked_sum; [|lia|].
  - apply Forall_fmap. eapply Forall_impl; [apply (wo_delegations w Hw)|]. simpl. lia.
  - rewrite sumZ_fmap. split; [done|lia].
Qed.

(** What one validator's plan promises for its base reward. *)
Record plan_ok (w : ValidatorEpochStakeWeight) (performance commission : Z) (plan : ValidatorEpochRewardPlan)
  : Prop := {
  po_validator : vrp_validator plan = vsw_validator w;
  po_adjusted : vrp_performance_adjusted_reward plan = vrp_base_reward plan * performance / 10000;
  po_split : vrp_self_bond_reward plan + vrp_commission_reward plan
             + sumZ der_amount (vrp_delegator_rewards plan) = vrp_performance_adjusted_reward plan;
  po_gross : vrp_delegation_gross_reward plan
             = vrp_performance_adjusted_reward plan * delegated_weight w / weight_of w;
  po_commission : vrp_commission_reward plan = vrp_delegation_gross_reward plan * commission / 10000;
  po_fair : exists rs, vrp_delegator_rewards plan = listed (vsw_average_delegations w) rs
     /\ Forall2 (fun x r => (vrp_delegation_gross_reward plan - vrp_commission_reward plan) * x.2
                            / delegated_weight w <= r) (vsw_average_delegations w) rs;
  po_nonneg : 0 <= vrp_self_bond_reward plan /\ 0 <= vrp_commission_reward plan
              /\ Forall (fun r => 0 < der_amount r) (vrp_delegator_rewards plan);
}.

Lemma listed_positive l rs : Forall (fun r => 0 < der_amount r) (listed l rs).
Proof.
  apply Forall_forall. intros r ([x y] & _ & Hr)%list_elem_of_omap. simpl in Hr.
  destruct (Z.ltb_spec 0 y); simplify_eq. done.
Qed.

Lemma floor_fraction_le a b c : 0 <= a -> 0 <= b <= c -> 0 <= a * b / c <= a.
Proof.
  intros Ha Hb. destruct (decide (c = 0)) as [->|]; [rewrite Z.div_0_r; lia|].
  split; [apply Z.div_pos; nia|]. apply Z.div_le_upper_bound; nia.
Qed.

(** The delegators' part, with or without delegations. *)
Lemma plan_delegators_weight w budget :
  weight_ok w -> 0 <= budget <= u64_max -> (delegated_weight w = 0 -> budget = 0) ->
  exists rs, plan_delegators (vsw_validator w) budget (delegated_weight w)
               (vsw_average_delegations w) = Ok (listed (vsw_average_delegations w) rs)
    /\ sumZ der_amount (listed (vsw_average_delegations w) rs) = budget
    /\ Forall2 (fun x r => budget * x.2 / delegated_weight w <= r) (vsw_average_delegations w) rs.
Proof.
  intros Hw Hb Hzero. pose proof (delegated_weight_nonneg w Hw).
  pose proof (wo_delegations w Hw) as Hd. rewrite Forall_forall in Hd.
  destruct (decide (0 < delegated_weight w)) as [Hpos|Hz].
  - eexists. apply plan_delegators_Ok; [lia|done| |done]. intros x Hx. by apply Hd.
  - assert (delegated_weight w = 0) as Hd0 by lia. rewrite Hd0, (Hzero Hd0).
    assert (vsw_average_delegations w = []) as Hnil.
    { unfold delegated_weight in Hd0. destruct (vsw_average_delegations w) as [|x l]; [done|].
      destruct (Hd x) as [_ Hx]; [left|]. rewrite sumZ_cons in Hd0.
      assert (0 <= sumZ snd l); [|lia]. apply sumZ_nonneg.
      intros y Hy. destruct (Hd y); [by right|lia]. }
    rewrite Hnil. exists []. split_and!; [done|done|constructor].
Qed.

Lemma plan_split_Ok w base performance commission :
  weight_ok w -> 0 <= base <= u64_max -> 0 <= performance <= 10000 -> 0 <= commission <= 1000 ->
  exists plan, plan_split w (weight_of w) base performance commission = Ok plan
               /\ vrp_base_reward plan = base /\ plan_ok w performance commission plan.
Proof.
  intros Hw Hb Hp Hc. pose proof (wo_self w Hw). pose proof (delegated_weight_nonneg w Hw) as Hdw.
  unfold plan_split. set (adjusted := base * performance / 10000).
  assert (0 <= adjusted <= base) by (apply floor_fraction_le; lia).
  unfold checked_sub at 1. unfold weight_of at 1 2.
  destruct (Z.leb_spec (vsw_average_self_bond w) (vsw_average_self_bond w + delegated_weight w)); [|lia].
  cbn [or_err]. replace (vsw_average_self_bond w + delegated_weight w - vsw_average_self_bond w)
    with (delegated_weight w) by lia.
  assert ((if delegated_weight w =? 0 then 0 else adjusted * delegated_weight w / weight_of w)
          = adjusted * delegated_weight w / weight_of w) as ->.
  { destruct (Z.eqb_spec (delegated_weight w) 0) as [->|]; [by rewrite Z.mul_0_r, Zdiv_0_l|done]. }
  set (gross := adjusted * delegated_weight w / weight_of w).
  assert (0 <= gross <= adjusted) by (apply floor_fraction_le; unfold weight_of; lia).
  unfold checked_sub at 1. destruct (Z.leb_spec gross adjusted); [|lia]. cbn [or_err].
  set (com := gross * commission / 10000).
  assert (0 <= com <= gross) by (apply floor_fraction_le; lia).
  unfold checked_sub. destruct (Z.leb_spec com gross); [|lia]. cbn [or_err].
  destruct (plan_delegators_weight w (gross - com) Hw) as (rs & -> & Hsum & Hfair); [lia| |].
  { intros Hd0. unfold com, gross. rewrite Hd0, Z.mul_0_r, Zdiv_0_l. done. }
  cbn [and_then].
  unfold checked_total at 1, checked_add64. destruct (Z.leb_spec (adjusted - gross + com) u64_max); [|lia].
  cbn [or_err and_then].
  assert (try_fold (checked_total PlanTotalOverflow) (adjusted - gross + com)
            (der_amount <$> listed (vsw_average_delegations w) rs) = Ok adjusted) as ->.
  { apply checked_sum; [|lia|].
    - apply Forall_fmap. eapply Forall_impl; [apply listed_positive|]. simpl. lia.
    - rewrite sumZ_fmap. change (fun x => id (der_amount x)) with der_amount. lia. }
  cbn [and_then]. rewrite Z.eqb_refl. cbn [negb]. eexists. split; [reflexivity|]. split; [done|].
  split; simpl; try done; [lia|by exists rs|]. split_and!; [lia|lia|apply listed_positive].
Qed.

(** The performance and the commission of a validator are known and in range. *)
Definition rated (performance_bps commission_bps : gmap Pubkey Z) (w : ValidatorEpochStakeWeight)
  (performance commission : Z) : Prop :=
  performance_bps !! vsw_validator w = Some performance /\ 0 <= performance <= 10000
  /\ commission_bps !! vsw_validator w = Some commission
  /\ 0 <= commission <= MAX_VALIDATOR_COMMISSION_BPS.

Definition planned (performance_bps commission_bps : gmap Pubkey Z) (w : ValidatorEpochStakeWeight)
  (plan : ValidatorEpochRewardPlan) : Prop :=
  exists performance commission,
    rated performance_bps commission_bps w performance commission
    /\ plan_ok w performance commission plan.

Lemma planned_nonneg performance_bps commission_bps w plan :
  planned performance_bps commission_bps w plan -> 0 <= vrp_performance_adjusted_reward plan.
Proof.
  intros (perf & com & _ & Hp). destruct (po_nonneg _ _ _ _ Hp) as (? & ? & Hd).
  rewrite <- (po_split _ _ _ _ Hp).
  assert (0 <= sumZ der_amount (vrp_delegator_rewards plan)); [|lia]. apply sumZ_nonneg.
  intros r Hr. rewrite Forall_forall in Hd. specialize (Hd r Hr). lia.
Qed.

Lemma Forall2_conj {A B} (P Q : A -> B -> Prop) l k :
  Forall2 P l k -> Forall2 Q l k -> Forall2 (fun x y => P x y /\ Q x y) l k.
Proof.
  induction 1 as [|x y l k Hxy _ IH]; intros HQ; [constructor|].
  apply Forall2_cons in HQ as [??]. constructor; auto.
Qed.

Section validators.
Context (budget total : Z) (performance_bps commission_bps : gmap Pubkey Z).
Hypothesis Hbudget : 0 <= budget <= u64_max.
Hypothesis Htotal : 0 < total.

Lemma plan_validator_Ok last d a plans w r :
  weight_ok w -> (exists perf com, rated performance_bps commission_bps w perf com) ->
  split_share budget total last d (weight_of w) = Some r ->
  0 <= r -> d + r <= budget -> 0 <= a <= d ->
  exists plan, plan_validator budget total performance_bps commission_bps last (d, a, plans) w
               = Ok (d + r, a + vrp_performance_adjusted_reward plan, plans ++ [plan])
    /\ vrp_base_reward plan = r /\ planned performance_bps commission_bps w plan
    /\ 0 <= vrp_performance_adjusted_reward plan <= r.
Proof.
  intros Hw (perf & com & Hperf & Hpr & Hcom & Hcr) Hr Hr0 Hdr Ha. unfold MAX_VALIDATOR_COMMISSION_BPS in *.
  unfold plan_validator. rewrite average_effective_stake_Ok by done. cbn [and_then]. rewrite Hr.
  cbn [or_err]. unfold checked_total, checked_add64.
  destruct (Z.leb_spec (d + r) u64_max); [|lia]. cbn [or_err and_then]. rewrite Hperf, Hcom. cbn [or_err].
  destruct (Z.ltb_spec 10000 perf); [lia|]. unfold MAX_VALIDATOR_COMMISSION_BPS.
  destruct (Z.ltb_spec 1000 com); [lia|].
  assert (0 <= r * perf / 10000 <= r) by (apply floor_fraction_le; lia).
  destruct (Z.leb_spec (a + r * perf / 10000) u64_max); [|lia]. cbn [or_err and_then].
  destruct (plan_split_Ok w r perf com Hw) as (plan & -> & Hb & Hp); [lia..|]. cbn [and_then].
  exists plan. rewrite (po_adjusted _ _ _ _ Hp), Hb. split_and!; try done; try lia.
  exists perf, com. done.
Qed.

Lemma plan_validator_fold l d a plans :
  Forall (fun w => weight_ok w /\ exists perf com, rated performance_bps commission_bps w perf com) l ->
  l <> [] -> 0 <= a <= d -> d + sumZ (floor_share weight_of budget total) l <= budget ->
  exists new,
    try_fold_last (plan_validator budget total performance_bps commission_bps) (d, a, plans) l
    = Ok (budget, a + sumZ vrp_performance_adjusted_reward new, plans ++ new)
    /\ map vrp_base_reward new = shares weight_of budget total d l
    /\ Forall2 (planned performance_bps commission_bps) l new
    /\ a + sumZ vrp_performance_adjusted_reward new <= budget.
Proof.
  revert d a plans. induction l as [|w l IH]; intros d a plans Hl Hne Ha Hd; [done|].
  apply Forall_cons in Hl as [[Hw Hrated] Hl]. rewrite sumZ_cons in Hd.
  assert (forall w, weight_ok w -> 0 <= floor_share weight_of budget total w) as Hfl.
  { intros w' Hw'. apply floor_share_nonneg; [lia|lia|]. by apply weight_of_nonneg. }
  pose proof (Hfl w Hw).
  assert (0 <= sumZ (floor_share weight_of budget total) l).
  { apply sumZ_nonneg. intros x Hx. rewrite Forall_forall in Hl. by apply Hfl, Hl. }
  destruct l as [|y l]; cbn [try_fold_last].
  - destruct (plan_validator_Ok true d a plans w (budget - d)) as (plan & -> & Hb & Hp & Hadj);
      try done; try lia.
    { simpl. unfold checked_sub. destruct (Z.leb_spec d budget); [done|lia]. }
    exists [plan]. cbn [and_then]. rewrite sumZ_cons. unfold sumZ. simpl.
    rewrite Z.add_0_r.
    split_and!; [by replace (d + (budget - d)) with budget by lia|by rewrite Hb|by repeat constructor|lia].
  - destruct (plan_validator_Ok false d a plans w (floor_share weight_of budget total w))
      as (plan & -> & Hb & Hp & Hadj); try done; try lia.
    cbn [and_then].
    destruct (IH (d + floor_share weight_of budget total w)
      (a + vrp_performance_adjusted_reward plan) (plans ++ [plan])) as (new & Heq & Hbase & Hall & Hle);
      [done|done|lia|lia|].
    exists (plan :: new). rewrite sumZ_cons. split_and!.
    + etrans; [exact Heq|]. rewrite <- app_assoc, <- Z.add_assoc. done.
    + change (shares weight_of budget total d (w :: y :: l)) with (floor_share weight_of budget total w
        :: shares weight_of budget total (d + floor_share weight_of budget total w) (y :: l)).
      rewrite <- Hbase, <- Hb. done.
    + by constructor.
    + lia.
Qed.
End validators.

(** ** The weights of the snapshot *)

Definition sorted_weight (w : ValidatorEpochStakeWeight) : ValidatorEpochStakeWeight :=
  mkValidatorEpochStakeWeight (vsw_validator w) (vsw_average_self_bond w)
    (sort_by_key fst (vsw_average_delegations w)).

Lemma sorted_weight_of w : weight_of (sorted_weight w) = weight_of w.
Proof. unfold weight_of, delegated_weight. simpl. by rewrite (sumZ_perm _ _ _ (sort_by_key_perm _ _)). Qed.

Lemma sorted_weight_ok w : weight_ok w -> weight_ok (sorted_weight w).
Proof.
  intros [Hs Hd Hn Hc]. split; simpl; [done| | |by rewrite sorted_weight_of].
  - by rewrite sort_by_key_perm.
  - by rewrite sort_by_key_perm.
Qed.

Lemma adjacent_equal_None {A} (key : A -> Z) l : NoDup (map key l) -> adjacent_equal key l = None.
Proof.
  induction l as [|x l IH]; [done|]. cbn [map]. intros [Hx Hl]%NoDup_cons.
  destruct l as [|y l]; [done|]. cbn [adjacent_equal].
  destruct (Z.eqb_spec (key x) (key y)) as [He|]; [|by apply IH].
  exfalso. apply Hx. rewrite He. left.
Qed.

Lemma check_weights_fold p l e out :
  Forall (fun w => weight_ok w /\ is_Some (sp_stakes p !! vsw_validator w)) l ->
  0 <= e -> e + sumZ weight_of l <= u64_max ->
  try_fold (check_weight p) (e, out) l = Ok (e + sumZ weight_of l, out ++ map sorted_weight l).
Proof.
  revert e out. induction l as [|w l IH]; intros e out Hl He Hmax; cbn [try_fold map].
  { rewrite app_nil_r. unfold sumZ. simpl. by rewrite Z.add_0_r. }
  apply Forall_cons in Hl as [[Hw Hk] Hl]. rewrite sumZ_cons in Hmax |- *.
  assert (0 <= sumZ weight_of l).
  { apply sumZ_nonneg. intros x Hx. rewrite Forall_forall in Hl. destruct (Hl x Hx) as [Hx' _].
    by apply weight_of_nonneg. }
  unfold check_weight at 1. rewrite bool_decide_eq_true_2 by done. cbn [negb].
  fold (sorted_weight w). pose proof (sorted_weight_ok w Hw) as Hsw.
  cbn [vsw_average_delegations sorted_weight]. rewrite adjacent_equal_None.
  2:{ apply (wo_nodup _ Hsw). }
  assert (try_fold (check_delegation (vsw_validator w)) tt (sort_by_key fst (vsw_average_delegations w)) = Ok tt)
    as ->.
  { apply (try_fold_unit _ (fun x => x.1 <> vsw_validator w /\ x.2 <> 0)).
    - intros [d a] _. unfold check_delegation. rewrite !guard_Ok, !Z.eqb_neq. simpl. tauto.
    - eapply Forall_impl; [apply (wo_delegations _ Hsw)|]. simpl. intros x [? ?]. split; [done|lia]. }
  cbn [and_then]. rewrite average_effective_stake_Ok by done. cbn [and_then].
  rewrite sorted_weight_of. destruct (wo_cap w Hw) as [Hc Hm].
  unfold checked_mul64, MAX_VALIDATOR_EFFECTIVE_STAKE_MULTIPLIER. cbn [vsw_average_self_bond sorted_weight].
  destruct (Z.leb_spec (vsw_average_self_bond w * 5) u64_max); [|lia]. cbn [or_err].
  destruct (Z.ltb_spec (vsw_average_self_bond w * 5) (weight_of w)); [lia|].
  unfold checked_total, checked_add64.
  pose proof (delegated_weight_nonneg w Hw). pose proof (wo_self w Hw).
  destruct (Z.leb_spec (e + weight_of w) u64_max); [|lia]. cbn [or_err and_then].
  rewrite IH; [|done|unfold weight_of; lia|lia]. by rewrite <- app_assoc, Z.add_assoc.
Qed.

(** ** The plan as a whole *)

(** The inputs the epoch boundary hands to the planner. *)
Record plan_inputs (p : StakePool) (budget : Z) (weights : EpochStakeWeightSnapshot)
  (performance_bps commission_bps : gmap Pubkey Z) : Prop := {
  pn_unsigned : pool_unsigned p;
  pn_valid : StakePool_validate_v2_invariants p = Ok tt;
  pn_budget : 0 <= budget <= u64_max;
  pn_interval : esw_start_slot weights < esw_end_slot weights;
  pn_nodup : NoDup (map vsw_validator (esw_validators weights));
  pn_weights : Forall (fun w => weight_ok w /\ is_Some (sp_stakes p !! vsw_validator w)
      /\ exists perf com, rated performance_bps commission_bps w perf com) (esw_validators weights);
  pn_total : sumZ weight_of (esw_validators weights) <= u64_max;
}.

(** The weights in the order in which the planner pays them. *)
Definition ordered_weights (weights : EpochStakeWeightSnapshot) : list ValidatorEpochStakeWeight :=
  map sorted_weight (sort_by_key vsw_validator (esw_validators weights)).

Lemma ordered_weights_total weights :
  sumZ weight_of (ordered_weights weights) = sumZ weight_of (esw_validators weights).
Proof.
  unfold ordered_weights. rewrite sumZ_map.
  rewrite (sumZ_ext _ weight_of) by (intros; apply sorted_weight_of).
  apply sumZ_perm, sort_by_key_perm.
Qed.

Lemma plan_for_weights p budget weights performance_bps commission_bps :
  plan_inputs p budget weights performance_bps commission_bps ->
  let total := sumZ weight_of (esw_validators weights) in
  StakePool_plan_v2_epoch_rewards_for_weights budget weights performance_bps commission_bps p
  = if (budget =? 0) || (total =? 0) then Ok (mkEpochSecurityRewardPlan budget 0 budget [])
    else
      let? acc := try_fold_last (plan_validator budget total performance_bps commission_bps)
                    (0, 0, []) (ordered_weights weights) in
      let '(base_distributed, assigned_reward, validators) := acc in
      reject negb (base_distributed =? budget) with BaseConservation;
      or_err (checked_sub budget assigned_reward) UnmintedUnderflow (fun unminted =>
      Ok (mkEpochSecurityRewardPlan budget assigned_reward unminted validators)).
Proof.
  intros [_ Hv Hb Hi Hn Hw Ht] total. unfold StakePool_plan_v2_epoch_rewards_for_weights. rewrite Hv.
  cbn [lift_v2 and_then]. destruct (Z.leb_spec (esw_end_slot weights) (esw_start_slot weights)); [lia|].
  rewrite adjacent_equal_None.
  2:{ eapply NoDup_Permutation_proper; [|exact Hn]. apply Permutation_map, sort_by_key_perm. }
  rewrite check_weights_fold; [|..|lia|].
  - cbn [and_then]. rewrite Z.add_0_l. cbn [app].
    rewrite (sumZ_perm _ _ _ (sort_by_key_perm vsw_validator (esw_validators weights))). done.
  - rewrite sort_by_key_perm. eapply Forall_impl; [exact Hw|]. simpl. tauto.
  - by rewrite Z.add_0_l, (sumZ_perm _ _ _ (sort_by_key_perm vsw_validator (esw_validators weights))).
Qed.

(** For well-formed inputs the planner always returns a plan, and the plan
    conserves the budget exactly.  What is assigned plus what stays unminted is the
    budget; with stake to reward, the base rewards of the validators sum to the
    budget, each at least the proportional floor; the adjusted rewards are the base
    rewards scaled by performance and sum to the assigned reward; each is split
    without loss into the self-bond reward, the commission and the delegators'
    rewards, of which each is at least its proportional floor. *)
Lemma reward_plan_conserves p budget weights performance_bps commission_bps :
  plan_inputs p budget weights performance_bps commission_bps ->
  let total := sumZ weight_of (esw_validators weights) in
  exists plan,
    StakePool_plan_v2_epoch_rewards_for_weights budget weights performance_bps commission_bps p = Ok plan
    /\ esp_reward_budget plan = budget
    /\ esp_assigned_reward plan + esp_performance_unminted plan = budget
    /\ 0 <= esp_assigned_reward plan /\ 0 <= esp_performance_unminted plan
    /\ sumZ vrp_performance_adjusted_reward (esp_validators plan) = esp_assigned_reward plan
    /\ (esp_validators plan = []
        \/ Forall2 (planned performance_bps commission_bps) (ordered_weights weights) (esp_validators plan))
    /\ (0 < budget -> 0 < total ->
        sumZ vrp_base_reward (esp_validators plan) = budget
        /\ Forall2 (fun w v => budget * weight_of w / total <= vrp_base_reward v
                               /\ planned performance_bps commission_bps w v)
             (ordered_weights weights) (esp_validators plan)).
Proof.
  intros Hin total. rewrite plan_for_weights by done. fold total.
  destruct Hin as [_ Hv Hb Hi Hn Hw Ht].
  assert (Forall (fun w => weight_ok w /\ exists perf com, rated performance_bps commission_bps w perf com)
            (ordered_weights weights)) as Hord.
  { apply Forall_fmap. rewrite sort_by_key_perm. eapply Forall_impl; [exact Hw|].
    simpl. intros w (Hok & _ & Hr). split; [by apply sorted_weight_ok|done]. }
  assert (forall w, w ∈ ordered_weights weights -> 0 <= weight_of w) as Hpos.
  { intros w Hwin. rewrite Forall_forall in Hord. destruct (Hord w Hwin) as [Hok _].
    by apply weight_of_nonneg. }
  pose proof (ordered_weights_total weights) as Htot. fold total in Htot.
  assert (0 <= total) by (rewrite <- Htot; by apply sumZ_nonneg).
  destruct ((budget =? 0) || (total =? 0)) eqn:Hz.
  { eexists. split; [reflexivity|]. simpl. unfold sumZ. simpl.
    apply orb_true_iff in Hz as [?%Z.eqb_eq|?%Z.eqb_eq]; split_and!; try done; try lia; by left. }
  apply orb_false_iff in Hz as [Hb0%Z.eqb_neq Ht0%Z.eqb_neq].
  assert (ordered_weights weights <> []) as Hne.
  { intros He. rewrite He in Htot. unfold sumZ in Htot. simpl in Htot. lia. }
  assert (0 + sumZ (floor_share weight_of budget total) (ordered_weights weights) <= budget) as Hfl.
  { rewrite Z.add_0_l. apply floors_le; [lia|lia|done|lia]. }
  destruct (plan_validator_fold budget total performance_bps commission_bps Hb ltac:(lia)
              (ordered_weights weights) 0 0 []) as (new & -> & Hbase & Hall & Hle); [done|done|lia|done|].
  destruct (shares_spec weight_of budget total Hb ltac:(lia) (ordered_weights weights) 0)
    as [Hsum Hshare]; [done|done|done|lia|].
  cbn [and_then app]. rewrite Z.eqb_refl, Z.add_0_l in *. cbn [negb].
  unfold checked_sub. destruct (Z.leb_spec (sumZ vrp_performance_adjusted_reward new) budget); [|lia].
  cbn [or_err]. eexists. split; [reflexivity|]. cbn [esp_reward_budget esp_assigned_reward
    esp_performance_unminted esp_validators].
  rewrite <- Hbase in Hsum, Hshare. rewrite sumZ_map in Hsum.
  split_and!; try done; try lia.
  - apply sumZ_nonneg. intros v Hvin. apply list_elem_of_lookup in Hvin as [i Hvin].
    destruct (Forall2_lookup_r _ _ _ _ _ Hall Hvin) as (w & _ & Hp). by eapply planned_nonneg.
  - by right.
  - intros _ _. split; [done|]. apply Forall2_fmap_r in Hshare.
    eapply Forall2_conj; [|exact Hall]. eapply Forall2_impl; [exact Hshare|]. simpl. tauto.
Qed.
