(* ===== verification/Allocation.v ===== *)
(** * Allocation of the MossStake backing

    Models the part of [StakePool] in [core/src/consensus.rs] that spreads the backing
    of the liquid staking pool over the validators: the deterministic plan
    ([plan_mossstake_allocations]: least saturation first, by a binary search over a
    common saturation ratio and a remainder of single spores) and its application
    ([rebalance_mossstake_allocations]).

    The maps [bases] and [limits] of the source are filled and read in the order of the
    sorted, distinct validators; the model keeps them as lists in that order. *)

From S2P Require Import Prelude Crypto Stake Pool PoolInvariant Delegation StakingV2 RewardPlan.
From stdpp Require Import base tactics numbers list gmap.
From Stdlib Require Import ZArith Lia.

Local Open Scope Z_scope.
Local Open Scope rust_scope.

(** The 32 bytes of the protocol's delegator address. *)
Definition MOSSSTAKE_PROTOCOL_DELEGATOR : Pubkey :=
  Eval vm_compute in le_value (reverse
    [0x26; 0x61; 0x36; 0x2e; 0x2a; 0x1d; 0x78; 0xe2; 0x6f; 0x06; 0xe7; 0xdd; 0x9d; 0xa0; 0x74; 0x82;
     0x67; 0xd1; 0xdc; 0xe5; 0x06; 0x13; 0x08; 0x37; 0x83; 0x3f; 0x08; 0x3c; 0x39; 0x75; 0x1d; 0xa5]).

Definition RATIO_SCALE : Z := 1000000000000000000.

Inductive AllocError :=
| AllocFromV2 (e : V2Error)
| AllocFromPool (e : PoolError)
| NoActiveValidators
| DuplicateValidator (validator : Pubkey)
| AllocNoStakeEntry (validator : Pubkey)
| AllocNotEligible (validator : Pubkey)
| AllocUnderflow (validator : Pubkey)
| ActiveBaseOverflow
| FinalStakeOverflow
| CapacityOverflow (validator : Pubkey)
| CapacityTotalOverflow
| BackingAboveCapacity (target capacity : Z)
| RatioOverflow
| PlannedOverflow
| RemainderUnderflow
| RoundingBoundOverflow
| ResidualAboveBound (remaining bound : Z)
| CapacityExhausted
| IncrementOverflow
| DelegationUnderflow
| DelegationOverflow
| NetworkStakeUnderflow
| NetworkStakeOverflow
| AllocationTotalOverflow
| NotReconciled.

Definition alloc_pool {A} (r : result A PoolError) : result A AllocError :=
  match r with Ok a => Ok a | Err e => Err (AllocFromPool e) end.
Definition alloc_v2 {A} (r : result A V2Error) : result A AllocError :=
  match r with Ok a => Ok a | Err e => Err (AllocFromV2 e) end.

Definition StakePool_mossstake_allocations (p : StakePool) : gmap Pubkey Z :=
  omap (.!! MOSSSTAKE_PROTOCOL_DELEGATOR) (sp_delegations p).

Definition StakePool_mossstake_allocation_total (p : StakePool) : result Z AllocError :=
  try_fold (fun total amount => or_err (checked_add64 total amount) AllocationTotalOverflow Ok) 0
    (btree (StakePool_mossstake_allocations p)).*2.

(** ** The plan *)

Record Base := mkBase { ba_validator : Pubkey; ba_base : Z; ba_self_bond : Z }.

Record Limit := mkLimit { li_validator : Pubkey; li_base : Z; li_maximum : Z; li_capacity : Z }.

(** The effective stake of a validator without its MossStake allocation. *)
Definition add_base (p : StakePool) (acc : Z * list Base) (validator : Pubkey)
  : result (Z * list Base) AllocError :=
  let '(active_base_total, bases) := acc in
  or_err (sp_stakes p !! validator) (AllocNoStakeEntry validator) (fun info =>
  reject negb (si_is_active info) || negb (StakeInfo_meets_minimum info) with AllocNotEligible validator;
  let existing_moss := delegation p validator MOSSSTAKE_PROTOCOL_DELEGATOR in
  or_err (checked_sub (StakeInfo_total_stake info) existing_moss) (AllocUnderflow validator) (fun base =>
  or_err (checked_add64 active_base_total base) ActiveBaseOverflow (fun active_base_total =>
  Ok (active_base_total, bases ++ [mkBase validator base (si_amount info)])))).

Definition add_limit (network_limit : Z) (acc : Z * list Limit) (b : Base)
  : result (Z * list Limit) AllocError :=
  let '(total_capacity, limits) := acc in
  or_err (checked_mul64 (ba_self_bond b) MAX_VALIDATOR_EFFECTIVE_STAKE_MULTIPLIER)
    (CapacityOverflow (ba_validator b)) (fun self_bond_limit =>
  let maximum := Z.min self_bond_limit network_limit in
  let capacity := sat_sub maximum (ba_base b) in
  or_err (checked_add64 total_capacity capacity) CapacityTotalOverflow (fun total_capacity =>
  Ok (total_capacity, limits ++ [mkLimit (ba_validator b) (ba_base b) maximum capacity]))).

(** What a validator receives at a saturation ratio. *)
Definition allocation_at (ratio : Z) (l : Limit) : Z :=
  let saturated := wrap64 (sat_mul128 (li_maximum l) ratio / RATIO_SCALE) in
  Z.min (sat_sub saturated (li_base l)) (li_capacity l).

Definition allocation_total_at_ratio (limits : list Limit) (ratio : Z) : result Z AllocError :=
  try_fold (fun total l => or_err (checked_add64 total (allocation_at ratio l)) RatioOverflow Ok) 0 limits.

Definition plan_at (ratio : Z) (acc : Z * gmap Pubkey Z) (l : Limit)
  : result (Z * gmap Pubkey Z) AllocError :=
  let '(allocated, allocations) := acc in
  let allocation := allocation_at ratio l in
  let allocations := if 0 <? allocation then <[li_validator l := allocation]> allocations
                     else allocations in
  or_err (checked_add64 allocated allocation) PlannedOverflow (fun allocated =>
  Ok (allocated, allocations)).

(** A validator with room left: its key, base, maximum and allocation. *)
Definition Candidate : Type := Pubkey * Z * Z * Z.

Definition candidates (limits : list Limit) (allocations : gmap Pubkey Z) : list Candidate :=
  omap (fun l =>
    let allocation := default 0 (allocations !! li_validator l) in
    if allocation <? li_capacity l
    then Some (li_validator l, li_base l, li_maximum l, allocation) else None) limits.

(** The comparison of [candidates.sort_by]: the saturation ratio, then the key. *)
Definition less_saturated (left right : Candidate) : bool :=
  let '(kl, bl, ml, al) := left in
  let '(kr, br, mr, ar) := right in
  let x := sat_mul128 (bl + al) mr in
  let y := sat_mul128 (br + ar) ml in
  if x <? y then true else if y <? x then false else kl <? kr.

(** [candidates.first()] after the sort: the least candidate (the keys are distinct). *)
Definition first_candidate (l : list Candidate) : option Candidate :=
  foldr (fun c best =>
    match best with
    | Some b => if less_saturated b c then Some b else Some c
    | None => Some c
    end) None l.

(** [while remaining > 0]: one spore per iteration. *)
Fixpoint fill_remaining (remaining : nat) (limits : list Limit) (allocations : gmap Pubkey Z)
  : result (gmap Pubkey Z) AllocError :=
  match remaining with
  | O => Ok allocations
  | S remaining =>
      or_err (first_candidate (candidates limits allocations)) CapacityExhausted (fun c =>
      let validator := c.1.1.1 in
      or_err (checked_add64 (default 0 (allocations !! validator)) 1) IncrementOverflow (fun entry =>
      fill_remaining remaining limits (<[validator := entry]> allocations)))
  end.

Definition StakePool_plan_mossstake_allocations (target_backing : Z) (active_validators : list Pubkey)
  (p : StakePool) : result (gmap Pubkey Z) AllocError :=
  reject bool_decide (active_validators = []) with NoActiveValidators;
  let validators := sort_by_key id active_validators in
  match adjacent_equal id validators with
  | Some v => Err (DuplicateValidator v)
  | None =>
      let? '(active_base_total, bases) := try_fold (add_base p) (0, []) validators in
      or_err (checked_add64 active_base_total target_backing) FinalStakeOverflow (fun final_active_stake =>
      let? saturation_bps :=
        alloc_pool (validator_saturation_cap_bps (Z.of_nat (length validators))) in
      let? network_limit := alloc_pool (mul_div_ceil_u64 final_active_stake saturation_bps 10000) in
      let? '(total_capacity, limits) := try_fold (add_limit network_limit) (0, []) bases in
      reject total_capacity <? target_backing with BackingAboveCapacity target_backing total_capacity;
      if target_backing =? 0 then Ok ∅
      else
        let ok ratio :=
          let? total := allocation_total_at_ratio limits ratio in Ok (total <=? target_backing) in
        let? '(low, _) := iter_until capacity_done (capacity_step ok) (2 ^ 64) (Ok (0, RATIO_SCALE)) in
        let? '(allocated, allocations) := try_fold (plan_at low) (0, ∅) limits in
        or_err (checked_sub target_backing allocated) RemainderUnderflow (fun remaining =>
        or_err (checked_mul64 (Z.of_nat (length validators)) 20) RoundingBoundOverflow (fun bound =>
        reject bound <? remaining with ResidualAboveBound remaining bound;
        fill_remaining (Z.to_nat remaining) limits allocations)))
  end.

(** ** Rebalancing *)

(** Remove the protocol's delegation to one validator. *)
Definition remove_allocation (acc : StakePool * list Pubkey) (validator : Pubkey)
  : result (StakePool * list Pubkey) AllocError :=
  let '(p, affected) := acc in
  let entries := default ∅ (sp_delegations p !! validator) in
  let existing := default 0 (entries !! MOSSSTAKE_PROTOCOL_DELEGATOR) in
  let entries := delete MOSSSTAKE_PROTOCOL_DELEGATOR entries in
  let p1 := set_sp_delegations (<[validator := entries]> (sp_delegations p)) p in
  let? '(p2, affected) :=
    if 0 <? existing then
      or_err (sp_stakes p1 !! validator) (AllocNoStakeEntry validator) (fun info =>
      or_err (checked_sub (si_delegated_amount info) existing) DelegationUnderflow (fun delegated =>
      let info := refresh_active (set_si_delegated_amount delegated info) in
      or_err (checked_sub (sp_total_staked p1) existing) NetworkStakeUnderflow (fun total =>
      Ok (set_sp_total_staked total (put_stake validator info p1), validator :: affected))))
    else Ok (p1, affected) in
  Ok (if bool_decide (entries = ∅)
      then set_sp_delegations (delete validator (sp_delegations p2)) p2 else p2, affected).

Definition add_allocation (acc : StakePool * list Pubkey) (entry : Pubkey * Z)
  : result (StakePool * list Pubkey) AllocError :=
  let '(p, affected) := acc in
  let '(validator, amount) := entry in
  or_err (sp_stakes p !! validator) (AllocNoStakeEntry validator) (fun info =>
  or_err (checked_add64 (si_delegated_amount info) amount) DelegationOverflow (fun delegated =>
  let info := refresh_active (set_si_delegated_amount delegated info) in
  or_err (checked_add64 (sp_total_staked p) amount) NetworkStakeOverflow (fun total =>
  let entries := default ∅ (sp_delegations p !! validator) in
  let p := set_sp_total_staked total (put_stake validator info p) in
  Ok (set_sp_delegations
        (<[validator := <[MOSSSTAKE_PROTOCOL_DELEGATOR := amount]> entries]> (sp_delegations p)) p,
      validator :: affected)))).

(** The affected validators are a set; each is checkpointed once, in no order. *)
Definition StakePool_rebalance_mossstake_allocations (target_backing : Z)
  (active_validators : list Pubkey) (execution_slot : Z) (p : StakePool)
  : result (gmap Pubkey Z * StakePool) AllocError :=
  let? allocations := StakePool_plan_mossstake_allocations target_backing active_validators p in
  let? '(updated, affected) := try_fold remove_allocation (p, []) (map_to_list (sp_delegations p)).*1 in
  let? '(updated, affected) := try_fold add_allocation (updated, affected) (btree allocations) in
  let? updated :=
    try_fold (fun q validator =>
      alloc_v2 (StakePool_checkpoint_staking_v2_validator_inner validator execution_slot q))
      updated (elements (list_to_set affected : gset Pubkey)) in
  let? _ := alloc_v2 (StakePool_validate_v2_invariants updated) in
  let? total := StakePool_mossstake_allocation_total updated in
  reject negb (total =? target_backing) with NotReconciled;
  Ok (allocations, updated).

(** ** The plan is exact

    For validators that are reward-eligible the plan exists whenever the target fits
    in their capacity, allocates the target to the spore, and keeps every validator
    within its limits. *)

Section plan.
Context (p : StakePool) (Hp : pool_inv p).

(** Self-bond, and effective stake without the MossStake allocation. *)
Definition self_bond (v : Pubkey) : Z := from_option si_amount 0 (sp_stakes p !! v).
Definition own_stake (v : Pubkey) : Z := stake_of p v - delegation p v MOSSSTAKE_PROTOCOL_DELEGATOR.

Definition eligible (v : Pubkey) : Prop :=
  exists s, sp_stakes p !! v = Some s /\ si_is_active s = true /\ StakeInfo_meets_minimum s = true.

(** The network limit for [target] over the validators [vs]. *)
Definition share_limit (target : Z) (vs : list Pubkey) : Z :=
  match validator_saturation_cap_bps (Z.of_nat (length vs)) with
  | Ok bps => div_ceil ((sumZ own_stake vs + target) * bps) 10000
  | Err _ => 0
  end.

Definition stake_limit (limit : Z) (v : Pubkey) : Z := Z.min (5 * self_bond v) limit.

Definition room (limit : Z) (v : Pubkey) : Z := Z.max (stake_limit limit v - own_stake v) 0.

Lemma eligible_facts v s :
  sp_stakes p !! v = Some s ->
  0 <= own_stake v /\ own_stake v <= stake_of p v /\ 0 <= si_amount s <= MAX_VALIDATOR_STAKE
  /\ StakeInfo_total_stake s = stake_of p v /\ self_bond v = si_amount s /\ si_amount s <= stake_of p v.
Proof using Hp.
  intros Hv. pose proof (delegation_le p v s Hp MOSSSTAKE_PROTOCOL_DELEGATOR Hv) as Hd.
  destruct (ei_amount _ _ _ (pi_stakes p Hp v s Hv)) as [H0 H1].
  pose proof (inv_total_stake p Hp v s Hv) as Ht. unfold own_stake, self_bond, stake_of. rewrite Hv. simpl.
  unfold effective in *. split_and!; try done; lia.
Qed.

Lemma own_total_le vs :
  NoDup vs -> (forall v, v ∈ vs -> eligible v) ->
  0 <= sumZ own_stake vs /\ sumZ own_stake vs <= sp_total_staked p
  /\ sumZ self_bond vs <= sp_total_staked p
  /\ MIN_VALIDATOR_STAKE * Z.of_nat (length vs) <= sp_total_staked p.
Proof using Hp.
  intros Hnd He. assert (sumZ (stake_of p) vs <= sp_total_staked p) as Hs.
  { rewrite (pi_total p Hp), map_sum_keys. apply sumZ_subset; [|done|].
    - intros v _. by apply stake_of_nonneg.
    - intros v Hv. apply elem_of_keys. destruct (He v Hv) as (s & Hs & _). by exists s. }
  assert (forall v, v ∈ vs -> 0 <= own_stake v /\ own_stake v <= stake_of p v /\ self_bond v <= stake_of p v
    /\ MIN_VALIDATOR_STAKE <= stake_of p v) as Hall.
  { intros v (s & Hsv & _ & Hm)%He. destruct (eligible_facts v s Hsv) as (? & ? & ? & Ht & -> & ?).
    unfold StakeInfo_meets_minimum in Hm. rewrite Ht in Hm. apply Z.leb_le in Hm. by split_and!. }
  split_and!.
  - apply sumZ_nonneg. intros v Hv%Hall; tauto.
  - etrans; [|exact Hs]. apply sumZ_le. intros v Hv%Hall; tauto.
  - etrans; [|exact Hs]. apply sumZ_le. intros v Hv%Hall; tauto.
  - etrans; [|exact Hs]. clear Hs Hnd He. induction vs as [|v vs IH]; [simpl; lia|].
    rewrite sumZ_cons. cbn [length]. destruct (Hall v ltac:(left)) as (_ & _ & _ & Hv).
    specialize (IH (fun w Hw => Hall w (proj2 (elem_of_cons vs w v) (or_intror Hw)))). lia.
Qed.

Lemma bases_fold vs acc bases :
  0 <= acc -> acc + sumZ own_stake vs <= u64_max -> (forall v, v ∈ vs -> eligible v) ->
  try_fold (add_base p) (acc, bases) vs
  = Ok (acc + sumZ own_stake vs, bases ++ map (fun v => mkBase v (own_stake v) (self_bond v)) vs).
Proof using Hp.
  revert acc bases. induction vs as [|v vs IH]; intros acc bases Ha Hmax He.
  { unfold sumZ. simpl. by rewrite Z.add_0_r, app_nil_r. }
  rewrite sumZ_cons in Hmax |- *. cbn [try_fold].
  assert (forall w, w ∈ vs -> eligible w) as He' by (intros w Hw; apply He; by right).
  assert (0 <= sumZ own_stake vs).
  { apply sumZ_nonneg. intros w (s & Hw & _)%He'. by destruct (eligible_facts w s Hw). }
  destruct (He v ltac:(left)) as (s & Hv & Hact & Hmin).
  destruct (eligible_facts v s Hv) as (H0 & H1 & H2 & Ht & Hb & H3).
  unfold add_base at 1. rewrite Hv. cbn [or_err]. rewrite Hact, Hmin. cbn [orb negb]. rewrite Ht.
  rewrite (proj2 (checked_sub_Some _ _ (own_stake v))) by (unfold own_stake in *; lia). cbn [or_err].
  rewrite (proj2 (checked_add64_Some _ _ (acc + own_stake v))) by lia. cbn [or_err and_then].
  rewrite IH by (done || lia). rewrite <- app_assoc, <- Hb. simpl. do 2 f_equal. lia.
Qed.

Definition limit_of (limit : Z) (v : Pubkey) : Limit :=
  mkLimit v (own_stake v) (stake_limit limit v) (room limit v).

Lemma limits_fold limit vs acc limits :
  0 <= acc -> acc + sumZ (room limit) vs <= u64_max -> (forall v, v ∈ vs -> eligible v) ->
  try_fold (add_limit limit) (acc, limits) (map (fun v => mkBase v (own_stake v) (self_bond v)) vs)
  = Ok (acc + sumZ (room limit) vs, limits ++ map (limit_of limit) vs).
Proof using Hp.
  revert acc limits. induction vs as [|v vs IH]; intros acc limits Ha Hmax He.
  { unfold sumZ. simpl. by rewrite Z.add_0_r, app_nil_r. }
  rewrite sumZ_cons in Hmax |- *. cbn [try_fold map].
  assert (0 <= sumZ (room limit) vs) by (apply sumZ_nonneg; intros w _; unfold room; lia).
  destruct (He v ltac:(left)) as (s & Hv & _).
  destruct (eligible_facts v s Hv) as (H0 & H1 & H2 & Ht & Hb & H3).
  unfold add_limit at 1, checked_mul64, MAX_VALIDATOR_EFFECTIVE_STAKE_MULTIPLIER. cbn [ba_self_bond ba_base].
  rewrite (proj2 (Z.leb_le (self_bond v * 5) _)) by (rewrite Hb; unfold MAX_VALIDATOR_STAKE, u64_max in *; lia).
  cbn [or_err]. assert (sat_sub (Z.min (self_bond v * 5) limit) (own_stake v) = room limit v) as ->
    by (unfold sat_sub, room, stake_limit; f_equal; lia).
  assert (0 <= room limit v) by (unfold room; lia).
  rewrite (proj2 (checked_add64_Some _ _ (acc + room limit v))) by lia. cbn [or_err and_then].
  rewrite IH; [|lia|lia|intros w Hw; apply He; by right]. rewrite <- app_assoc. simpl.
  rewrite Z.add_assoc, (Z.mul_comm (self_bond v)). reflexivity.
Qed.
End plan.

(** *** The search over the ratio *)

Record limit_wf (l : Limit) : Prop := {
  lw_base : 0 <= li_base l;
  lw_maximum : 0 <= li_maximum l <= RATIO_SCALE;
  lw_capacity : li_capacity l = Z.max (li_maximum l - li_base l) 0;
}.

Lemma allocation_at_eq r l :
  limit_wf l -> 0 <= r <= RATIO_SCALE ->
  allocation_at r l = Z.min (Z.max (li_maximum l * r / RATIO_SCALE - li_base l) 0) (li_capacity l)
  /\ 0 <= li_maximum l * r / RATIO_SCALE <= li_maximum l.
Proof.
  intros [_ Hm _] Hr. assert (0 <= li_maximum l * r / RATIO_SCALE <= li_maximum l) as Hq.
  { unfold RATIO_SCALE in *. split; [apply Z.div_pos; nia|]. apply Z.div_le_upper_bound; nia. }
  split; [|done]. unfold allocation_at, sat_mul128, sat_sub. rewrite (Z.min_l (li_maximum l * r) u128_max), wrap_small; [done|..].
  - unfold RATIO_SCALE in *. lia.
  - unfold RATIO_SCALE, u128_max in *. nia.
Qed.

Lemma allocation_at_range r l :
  limit_wf l -> 0 <= r <= RATIO_SCALE -> 0 <= allocation_at r l <= li_capacity l.
Proof.
  intros Hl Hr. destruct (allocation_at_eq r l Hl Hr) as [-> _]. rewrite (lw_capacity l Hl). lia.
Qed.

Lemma allocation_at_0 l : limit_wf l -> allocation_at 0 l = 0.
Proof.
  intros Hl. destruct (allocation_at_eq 0 l Hl) as [-> _]; [unfold RATIO_SCALE; lia|].
  destruct Hl as [? ? ->]. rewrite Z.mul_0_r. change (0 / RATIO_SCALE) with 0. lia.
Qed.

Lemma allocation_at_full l : limit_wf l -> allocation_at RATIO_SCALE l = li_capacity l.
Proof.
  intros Hl. destruct (allocation_at_eq RATIO_SCALE l Hl) as [-> _]; [unfold RATIO_SCALE; lia|].
  rewrite Z.div_mul by done. destruct Hl as [? ? ->]. lia.
Qed.

Lemma allocation_at_next r l :
  limit_wf l -> 0 <= r < RATIO_SCALE -> allocation_at (r + 1) l <= allocation_at r l + 1.
Proof.
  intros Hl Hr. destruct (allocation_at_eq r l Hl ltac:(lia)) as [-> _].
  destruct (allocation_at_eq (r + 1) l Hl ltac:(lia)) as [-> _]. destruct Hl as [_ Hm _].
  assert (li_maximum l * (r + 1) / RATIO_SCALE <= li_maximum l * r / RATIO_SCALE + 1); [|lia].
  rewrite <- Z.div_add by done. apply Z.div_le_mono; [done|]. lia.
Qed.

Section search.
Context (limits : list Limit) (target : Z).
Hypothesis Hwf : Forall limit_wf limits.
Hypothesis Hcap : sumZ li_capacity limits <= u64_max.
Hypothesis Htarget : 0 <= target <= sumZ li_capacity limits.

Abbreviation total_at r := (sumZ (allocation_at r) limits).

Lemma total_at_range r : 0 <= r <= RATIO_SCALE -> 0 <= total_at r <= sumZ li_capacity limits.
Proof using Hwf.
  intros Hr. rewrite Forall_forall in Hwf. split.
  - apply sumZ_nonneg. intros l Hl. by apply allocation_at_range; [apply Hwf|].
  - apply sumZ_le. intros l Hl. by apply allocation_at_range; [apply Hwf|].
Qed.

Lemma total_at_Ok r :
  0 <= r <= RATIO_SCALE -> allocation_total_at_ratio limits r = Ok (total_at r).
Proof using Hwf Hcap Htarget.
  intros Hr. pose proof (total_at_range r Hr). rewrite Forall_forall in Hwf.
  apply (try_fold_total _ limit_wf (allocation_at r)).
  - intros a l b Hl Ha. rewrite checked_add64_Ok. split; [intros [-> ?]|tauto]. by split_and!; [apply Hwf| |].
  - intros l Hl. by apply allocation_at_range.
  - unfold u64_max. lia.
  - split_and!; [by apply Forall_forall|lia|lia].
Qed.

Definition ratio_ok (ratio : Z) : result bool AllocError :=
  and_then (allocation_total_at_ratio limits ratio) (fun total => Ok (total <=? target)).

Definition ratio_inv (s : result (Z * Z) AllocError) : Prop :=
  match s with
  | Ok (low, high) =>
      0 <= low <= high /\ high <= RATIO_SCALE /\ total_at low <= target
      /\ (high < RATIO_SCALE -> target < total_at (high + 1))
  | Err _ => False
  end.

Definition ratio_measure (s : result (Z * Z) AllocError) : Z :=
  match s with Ok (low, high) => high - low | Err _ => 0 end.

Lemma ratio_step s :
  ratio_inv s -> capacity_done s = false ->
  ratio_inv (capacity_step ratio_ok s) /\ ratio_measure (capacity_step ratio_ok s) < ratio_measure s.
Proof using Hwf Hcap Htarget.
  destruct s as [[low high]|e]; [|done]. cbn [ratio_inv capacity_done].
  intros (Hlh & Hhm & Hlow & Hhigh) Hd%Z.leb_gt. cbn [capacity_step and_then].
  pose proof (div_ceil_spec (high - low) 2 ltac:(lia)).
  set (middle := low + div_ceil (high - low) 2).
  assert (low < middle <= high) by (unfold middle; lia).
  unfold ratio_ok. rewrite total_at_Ok by lia. cbn [and_then].
  destruct (Z.leb_spec (total_at middle) target); (split; [|simpl; lia]); cbn [ratio_inv];
    (split_and!; try done; try lia).
  intros _. by replace (middle - 1 + 1) with middle by lia.
Qed.

(** The search ends at a ratio that stays below the target by less than one spore
    per validator. *)
Lemma ratio_search :
  exists low, iter_until capacity_done (capacity_step ratio_ok) (2 ^ 64) (Ok (0, RATIO_SCALE)) = Ok (low, low)
    /\ 0 <= low <= RATIO_SCALE /\ 0 <= target - total_at low <= Z.of_nat (length limits).
Proof using Hwf Hcap Htarget.
  destruct (iter_until_done capacity_done (capacity_step ratio_ok) ratio_inv ratio_measure)
    with (p := (2 ^ 64)%positive) (s := Ok (0, RATIO_SCALE) : result (Z * Z) AllocError) as [Hi Hd].
  - intros s Hs Hd. by apply ratio_step.
  - intros [[low high]|e]; simpl; lia.
  - intros s Hs Hd. by apply ratio_step.
  - cbn [ratio_inv]. split_and!; try (unfold RATIO_SCALE; lia).
    etrans; [|apply Htarget]. rewrite (sumZ_zero (allocation_at 0)); [done|].
    rewrite Forall_forall in Hwf. intros l Hl. by apply allocation_at_0, Hwf.
  - simpl. unfold RATIO_SCALE. lia.
  - destruct (iter_until _ _ _ _) as [[low high]|e]; [|done].
    destruct Hi as (Hlh & Hhm & Hlow & Hhigh). apply Z.leb_le in Hd. assert (high = low) as -> by lia.
    exists low. split; [done|]. split; [lia|]. split; [lia|].
    destruct (Z.eq_dec low RATIO_SCALE) as [->|Hne].
    + rewrite (sumZ_ext (allocation_at RATIO_SCALE) li_capacity); [lia|].
      rewrite Forall_forall in Hwf. intros l Hl. by apply allocation_at_full, Hwf.
    + assert (total_at (low + 1) <= total_at low + Z.of_nat (length limits)) as Hn; [|specialize (Hhigh ltac:(lia)); lia].
      assert (total_at (low + 1) <= sumZ (fun l => allocation_at low l + 1) limits) as Hle.
      { apply sumZ_le. rewrite Forall_forall in Hwf. intros l Hl.
        apply allocation_at_next; [by apply Hwf|lia]. }
      rewrite sumZ_add in Hle. pose proof (sumZ_bound (fun _ : Limit => 1) limits 1 ltac:(done)). lia.
Qed.
End search.

(** *** Allocations within the limits *)

Section fill.
Context (limits : list Limit).
Hypothesis Hnd : NoDup (map li_validator limits).

(** Allocations go to listed validators and stay within their capacity. *)
Definition within (allocations : gmap Pubkey Z) : Prop :=
  map_Forall (fun v a => 0 < a /\ exists l, l ∈ limits /\ li_validator l = v /\ a <= li_capacity l)
    allocations.

Definition allocated_to (allocations : gmap Pubkey Z) (l : Limit) : Z :=
  default 0 (allocations !! li_validator l).

Lemma limit_unique l l' : l ∈ limits -> l' ∈ limits -> li_validator l = li_validator l' -> l = l'.
Proof using Hnd.
  intros Hl Hl' Heq. clear -Hnd Hl Hl' Heq. induction limits as [|x ls IH]; [by apply not_elem_of_nil in Hl|].
  cbn [map] in Hnd. apply NoDup_cons in Hnd as [Hx Hls].
  apply elem_of_cons in Hl as [->|Hl], Hl' as [->|Hl']; [done|..|by apply IH].
  all: exfalso; apply Hx; apply list_elem_of_fmap; eauto.
Qed.

Lemma within_total allocations :
  within allocations -> sumZ (allocated_to allocations) limits = map_sum id allocations.
Proof using Hnd.
  intros Hw. rewrite map_sum_keys.
  transitivity (sumZ (fun v => default 0 (allocations !! v)) (map li_validator limits));
    [by rewrite sumZ_map|].
  rewrite (sumZ_filter_split _ (fun v => is_Some (allocations !! v)) (map li_validator limits)).
  rewrite (sumZ_zero _ (filter (fun x => ~ is_Some (allocations !! x)) _)), Z.add_0_r.
  2: { intros v [Hn _]%list_elem_of_filter. by rewrite (proj2 (eq_None_not_Some _) Hn). }
  apply sumZ_perm, NoDup_Permutation; [by apply NoDup_filter|apply NoDup_fst_map_to_list|].
  intros v. rewrite list_elem_of_filter, elem_of_keys. split; [tauto|]. intros [a Ha]. split; [by exists a|].
  destruct (Hw v a Ha) as (_ & l & Hl & <- & _). apply list_elem_of_fmap. by exists l.
Qed.

Lemma within_put allocations l a :
  within allocations -> l ∈ limits -> 0 < a <= li_capacity l ->
  within (<[li_validator l := a]> allocations).
Proof using. intros Hw Hl Ha. apply map_Forall_insert_2; [|done]. split; [lia|]. exists l. split_and!; done || lia. Qed.

(** The allocations read off a ratio. *)
Lemma plan_at_fold r ls done_ allocated allocations :
  limits = done_ ++ ls -> (forall l, l ∈ limits -> 0 <= allocation_at r l <= li_capacity l) ->
  within allocations -> (forall l, l ∈ ls -> allocations !! li_validator l = None) ->
  0 <= allocated -> allocated + sumZ (allocation_at r) ls <= u64_max ->
  exists allocations', try_fold (plan_at r) (allocated, allocations) ls
      = Ok (allocated + sumZ (allocation_at r) ls, allocations')
    /\ within allocations'
    /\ map_sum id allocations' = map_sum id allocations + sumZ (allocation_at r) ls.
Proof using Hnd.
  intros Hls Hr. revert done_ Hls allocated allocations.
  induction ls as [|l ls IH]; intros done_ Hls acc m Hw Hfresh Hacc Hmax.
  { exists m. unfold sumZ. simpl. rewrite !Z.add_0_r. done. }
  assert (l ∈ limits) as Hl by (rewrite Hls; apply elem_of_app; right; left).
  assert (0 <= sumZ (allocation_at r) ls) as H0.
  { apply sumZ_nonneg. intros x Hx. apply Hr. rewrite Hls. apply elem_of_app. right. by right. }
  rewrite sumZ_cons in Hmax |- *. pose proof (Hr l Hl) as Hrl. cbn [try_fold]. unfold plan_at at 1.
  rewrite (proj2 (checked_add64_Some _ _ (acc + allocation_at r l))) by lia. cbn [or_err and_then].
  set (m1 := if 0 <? allocation_at r l then _ else m).
  assert (within m1 /\ map_sum id m1 = map_sum id m + allocation_at r l
    /\ forall x, x ∈ ls -> m1 !! li_validator x = None) as (Hw1 & Hs1 & Hf1).
  { unfold m1. destruct (Z.ltb_spec 0 (allocation_at r l)) as [Hpos|Hpos].
    - split_and!; [apply within_put; [done|done|lia]|rewrite map_sum_put, (Hfresh l ltac:(left)); unfold id; simpl; lia|].
      intros x Hx. rewrite lookup_insert_ne; [apply Hfresh; by right|]. intros Heq.
      clear -Hnd Hls Hx Heq. rewrite Hls, map_app in Hnd. apply NoDup_app in Hnd as (_ & _ & Hnd).
      cbn [map] in Hnd. apply NoDup_cons in Hnd as [Hn _]. apply Hn. rewrite Heq. apply list_elem_of_fmap. by exists x.
    - split_and!; [done|lia|]. intros x Hx. apply Hfresh. by right. }
  clearbody m1. destruct (IH (done_ ++ [l])) with (allocated := acc + allocation_at r l) (allocations := m1)
    as (m2 & -> & Hw2 & Hs2); [by rewrite <- app_assoc|done|done|lia|lia|].
  exists m2. split_and!; [do 2 f_equal; lia|done|lia].
Qed.

Lemma first_candidate_elem l c : first_candidate l = Some c -> c ∈ l.
Proof.
  revert c. induction l as [|x l IH]; intros c; [done|]. cbn [first_candidate foldr].
  fold (first_candidate l). destruct (first_candidate l) as [b|].
  - case_match; intros [= <-]; [right; by apply IH|left].
  - intros [= <-]. left.
Qed.

Lemma first_candidate_None l : first_candidate l = None -> l = [].
Proof. destruct l as [|x l]; [done|]. cbn [first_candidate foldr]. by repeat case_match. Qed.

(** While less than the capacity is allocated some validator has room. *)
Lemma candidate_exists allocations :
  within allocations -> map_sum id allocations < sumZ li_capacity limits ->
  exists c l, first_candidate (candidates limits allocations) = Some c /\ l ∈ limits
    /\ c.1.1.1 = li_validator l /\ allocated_to allocations l < li_capacity l.
Proof using Hnd.
  intros Hw Hlt. destruct (first_candidate _) as [c|] eqn:Hc.
  - apply first_candidate_elem, list_elem_of_omap in Hc as (l & Hl & Hx). cbv zeta in Hx.
    destruct (Z.ltb_spec (default 0 (allocations !! li_validator l)) (li_capacity l)); [|done].
    injection Hx as <-. exists (li_validator l, li_base l, li_maximum l, default 0 (allocations !! li_validator l)), l.
    by split_and!.
  - exfalso. apply first_candidate_None in Hc. rewrite <- within_total in Hlt by done.
    assert (sumZ li_capacity limits <= sumZ (allocated_to allocations) limits); [|lia].
    apply sumZ_le. intros l Hl. destruct (Z.le_gt_cases (li_capacity l) (allocated_to allocations l)); [done|].
    exfalso. assert ((li_validator l, li_base l, li_maximum l, allocated_to allocations l)
      ∈ candidates limits allocations) as Hin; [|rewrite Hc in Hin; by apply not_elem_of_nil in Hin].
    apply list_elem_of_omap. exists l. split; [done|]. unfold allocated_to in *. cbv zeta.
    by rewrite (proj2 (Z.ltb_lt _ _)) by lia.
Qed.

Lemma fill_remaining_ok n allocations :
  Forall limit_wf limits -> sumZ li_capacity limits <= u64_max ->
  within allocations -> map_sum id allocations + Z.of_nat n <= sumZ li_capacity limits ->
  exists allocations', fill_remaining n limits allocations = Ok allocations'
    /\ within allocations' /\ map_sum id allocations' = map_sum id allocations + Z.of_nat n.
Proof using Hnd.
  intros Hwf Hmax. revert allocations. induction n as [|n IH]; intros m Hw Hle; cbn [fill_remaining].
  { exists m. split_and!; [done|done|lia]. }
  destruct (candidate_exists m Hw ltac:(lia)) as (c & l & -> & Hl & Hcl & Hroom). cbn [or_err]. rewrite Hcl.
  fold (allocated_to m l).
  assert (0 <= allocated_to m l) as H0.
  { unfold allocated_to. destruct (m !! li_validator l) as [a|] eqn:Ha; simpl; [|lia].
    destruct (Hw _ _ Ha). lia. }
  assert (li_capacity l <= sumZ li_capacity limits) as Hcap.
  { assert (forall x, x ∈ limits -> 0 <= li_capacity x) as Hnn.
    { intros x Hx. rewrite Forall_forall in Hwf. rewrite (lw_capacity x (Hwf x Hx)). lia. }
    rewrite <- (Z.add_0_r (li_capacity l)). change (li_capacity l + 0) with (sumZ li_capacity [l]).
    apply sumZ_subset; [done|by apply NoDup_singleton|by intros x ->%list_elem_of_singleton]. }
  rewrite (proj2 (checked_add64_Some _ _ (allocated_to m l + 1))) by lia. cbn [or_err].
  assert (map_sum id (<[li_validator l := allocated_to m l + 1]> m) = map_sum id m + 1) as Hs.
  { rewrite map_sum_put. unfold allocated_to, id. destruct (m !! li_validator l); simpl; lia. }
  destruct (IH (<[li_validator l := allocated_to m l + 1]> m)) as (m' & -> & Hw' & Hs');
    [apply within_put; [done|done|lia]|lia|].
  exists m'. split_and!; [done|done|lia].
Qed.
End fill.

(** ** Rebalancing moves only the protocol's stake *)

(** The network stake that is not MossStake backing. *)
Definition direct_total (p : StakePool) : Z :=
  sp_total_staked p - map_sum id (StakePool_mossstake_allocations p).

Lemma allocations_lookup p v :
  StakePool_mossstake_allocations p !! v = sp_delegations p !! v ≫= (.!! MOSSSTAKE_PROTOCOL_DELEGATOR).
Proof. apply lookup_omap. Qed.

(** What a step of the rebalancing keeps. *)
Record rebalanced (p q : StakePool) : Prop := {
  rb_direct : direct_total q = direct_total p;
  rb_requests : sp_unstake_requests q = sp_unstake_requests p;
  rb_epoch : same_epoch (sp_staking_v2_state p) (sp_staking_v2_state q);
  rb_unsigned : pool_unsigned p -> pool_unsigned q;
}.

#[global] Instance rebalanced_refl : Reflexive rebalanced.
Proof. intros p. split; [done|done|reflexivity|done]. Qed.
#[global] Instance rebalanced_trans : Transitive rebalanced.
Proof.
  intros p q r [H1 H2 H3 H4] [K1 K2 K3 K4]. split; [congruence|congruence|by etrans|auto].
Qed.

(** The stake record of one validator and the delegations to it are replaced. *)
Lemma unsigned_put p q v :
  pool_unsigned p -> sp_unstake_requests q = sp_unstake_requests p ->
  (forall w, w <> v -> sp_stakes q !! w = sp_stakes p !! w /\ sp_delegations q !! w = sp_delegations p !! w) ->
  (forall s, sp_stakes q !! v = Some s -> 0 <= si_amount s /\ 0 <= si_delegated_amount s) ->
  (forall m, sp_delegations q !! v = Some m -> map_Forall (fun _ a => 0 <= a) m) ->
  pool_unsigned q.
Proof.
  intros [Hs Hd Hr] Hq Hw Hsv Hdv. split; [| |by rewrite Hq].
  - intros w s Hws. destruct (decide (w = v)) as [->|Hne]; [by apply Hsv|].
    rewrite (proj1 (Hw w Hne)) in Hws. by apply (Hs w).
  - intros w m Hwm. destruct (decide (w = v)) as [->|Hne]; [by apply Hdv|].
    rewrite (proj2 (Hw w Hne)) in Hwm. by apply (Hd w).
Qed.

Lemma remove_allocation_ok p l v q l' :
  pool_unsigned p -> is_Some (sp_delegations p !! v) -> remove_allocation (p, l) v = Ok (q, l') ->
  rebalanced p q /\ StakePool_mossstake_allocations q = delete v (StakePool_mossstake_allocations p)
  /\ forall w, w <> v -> sp_delegations q !! w = sp_delegations p !! w.
Proof.
  intros Hu [m Hm]. unfold remove_allocation. rewrite Hm. change (default ∅ (Some m)) with m. intros H.
  set (existing := default 0 (m !! MOSSSTAKE_PROTOCOL_DELEGATOR)) in *.
  set (m' := delete MOSSSTAKE_PROTOCOL_DELEGATOR m) in *.
  apply and_then_Ok in H as ([p2 l2] & Hstep & [= <- <-]).
  assert (map_Forall (fun _ a => 0 <= a) m) as Hmpos by exact (pu_delegations p Hu v m Hm).
  assert (0 <= existing) as Hex.
  { unfold existing. destruct (m !! _) eqn:He; [|simpl; lia]. exact (Hmpos _ _ He). }
  assert (sp_delegations p2 = <[v := m']> (sp_delegations p) /\ sp_total_staked p2 = sp_total_staked p - existing
    /\ sp_unstake_requests p2 = sp_unstake_requests p /\ sp_staking_v2_state p2 = sp_staking_v2_state p
    /\ (forall w, w <> v -> sp_stakes p2 !! w = sp_stakes p !! w)
    /\ (forall s, sp_stakes p2 !! v = Some s -> 0 <= si_amount s /\ 0 <= si_delegated_amount s))
    as (Hd & Ht & Hr & H2 & Hw & Hs).
  { destruct (Z.ltb_spec 0 existing) as [H0|H0].
    - apply or_err_Ok in Hstep as (s & Hs & Hstep). apply or_err_Ok in Hstep as (d & [-> Hdle]%checked_sub_Some & Hstep).
      apply or_err_Ok in Hstep as (t & [-> _]%checked_sub_Some & [= <- <-]). cbn in Hs |- *. split_and!; try done.
      + intros w Hne. by rewrite lookup_insert_ne.
      + intros s'. rewrite lookup_insert_eq. intros [= <-]. simpl. destruct (pu_stakes p Hu v s Hs). lia.
    - injection Hstep as <- <-. cbn. split_and!; try done; [lia|]. apply (pu_stakes p Hu). }
  assert (forall D, (forall w, w <> v -> D !! w = sp_delegations p !! w) ->
    (forall x, D !! v = Some x -> x = m') ->
    let q := set_sp_delegations D p2 in
    rebalanced p q /\ StakePool_mossstake_allocations q = delete v (StakePool_mossstake_allocations p)
    /\ forall w, w <> v -> sp_delegations q !! w = sp_delegations p !! w) as Hgen.
  { intros D HD HDv q. assert (StakePool_mossstake_allocations q = delete v (StakePool_mossstake_allocations p)) as Ha.
    { apply map_eq. intros w. rewrite allocations_lookup. cbn. destruct (decide (w = v)) as [->|Hne].
      - rewrite lookup_delete_eq. destruct (D !! v) as [x|] eqn:Hx; [|done]. rewrite (HDv x eq_refl). cbn. apply lookup_delete_eq.
      - rewrite lookup_delete_ne, allocations_lookup by done. by rewrite HD. }
    split; [|by split]. split; [|done|by rewrite <- H2|].
    - unfold direct_total. rewrite Ha, map_sum_drop, allocations_lookup, Hm. cbn [mbind option_bind]. cbn.
      rewrite Ht. unfold existing. destruct (m !! _); simpl; unfold id; lia.
    - intros _. apply (unsigned_put p q v Hu); [done| |done|].
      + intros w Hne. cbn. split; [by apply Hw|by apply HD].
      + intros x Hx. rewrite (HDv x Hx). by apply map_Forall_delete. }
  case_bool_decide as He.
  - apply Hgen.
    + intros w Hne. rewrite Hd, lookup_delete_ne, lookup_insert_ne by done. done.
    + intros x. by rewrite lookup_delete_eq.
  - assert (p2 = set_sp_delegations (sp_delegations p2) p2) as -> by (by destruct p2). apply Hgen; rewrite Hd.
    + intros w Hne. by rewrite lookup_insert_ne.
    + intros x. rewrite lookup_insert_eq. congruence.
Qed.

(** After the first loop the protocol has no delegation left. *)
Lemma remove_allocations_ok ks p l q l' :
  pool_unsigned p -> NoDup ks -> (forall v, v ∈ ks -> is_Some (sp_delegations p !! v)) ->
  try_fold remove_allocation (p, l) ks = Ok (q, l') ->
  rebalanced p q /\ forall v, StakePool_mossstake_allocations q !! v
    = if decide (v ∈ ks) then None else StakePool_mossstake_allocations p !! v.
Proof.
  revert p l. induction ks as [|k ks IH]; intros p l Hu Hnd Hin H; cbn [try_fold] in H.
  { injection H as <- <-. split; [reflexivity|]. intros v. by rewrite decide_False by apply not_elem_of_nil. }
  apply NoDup_cons in Hnd as [Hk Hnd]. apply and_then_Ok in H as ([p1 l1] & H1 & H).
  apply remove_allocation_ok in H1 as (Hr & Ha & Hd); [|done|apply Hin; left].
  apply IH in H as [Hr' Ha']; [|by apply (rb_unsigned _ _ Hr)|done|].
  - split; [by etrans|]. intros v. rewrite Ha', Ha. destruct (decide (v = k)) as [->|Hne].
    + rewrite (decide_False (P := k ∈ ks)) by done. rewrite lookup_delete_eq, decide_True by left. done.
    + rewrite lookup_delete_ne by done. destruct (decide (v ∈ ks)) as [Hv|Hv].
      * by rewrite decide_True by by right.
      * rewrite decide_False; [done|]. intros [->|?]%elem_of_cons; done.
  - intros v Hv. rewrite Hd by (by intros ->). apply Hin. by right.
Qed.

Lemma add_allocation_ok p l v a q l' :
  pool_unsigned p -> 0 <= a -> StakePool_mossstake_allocations p !! v = None ->
  add_allocation (p, l) (v, a) = Ok (q, l') ->
  rebalanced p q /\ StakePool_mossstake_allocations q = <[v := a]> (StakePool_mossstake_allocations p).
Proof.
  intros Hu Ha0 Hnone. unfold add_allocation. intros (s & Hs & H)%or_err_Ok.
  apply or_err_Ok in H as (d & [-> Hd]%checked_add64_Some & H).
  apply or_err_Ok in H as (t & [-> Ht]%checked_add64_Some & [= <- <-]).
  set (m := default ∅ (sp_delegations p !! v)).
  match goal with |- rebalanced p ?x /\ _ => set (q := x) end.
  assert (StakePool_mossstake_allocations q = <[v := a]> (StakePool_mossstake_allocations p)) as Hal.
  { apply map_eq. intros w. rewrite allocations_lookup. cbn. destruct (decide (w = v)) as [->|Hne].
    - rewrite !lookup_insert_eq. cbn. by rewrite lookup_insert_eq.
    - rewrite !lookup_insert_ne, allocations_lookup by done. done. }
  split; [|done]. split; [|done|reflexivity|].
  - unfold direct_total. rewrite Hal, map_sum_put, Hnone. cbn. unfold id. lia.
  - intros _. apply (unsigned_put p q v Hu); [done| | |]; cbn.
    + intros w Hne. by rewrite !lookup_insert_ne.
    + intros s'. rewrite lookup_insert_eq. intros [= <-]. simpl. destruct (pu_stakes p Hu v s Hs). lia.
    + intros x. rewrite lookup_insert_eq. intros [= <-]. apply map_Forall_insert_2; [done|].
      unfold m. destruct (sp_delegations p !! v) as [m0|] eqn:Hm; [exact (pu_delegations p Hu v m0 Hm)|apply map_Forall_empty].
Qed.

Lemma add_allocations_ok es p l q l' :
  pool_unsigned p -> NoDup es.*1 -> Forall (fun e => 0 <= e.2) es ->
  (forall v, v ∈ es.*1 -> StakePool_mossstake_allocations p !! v = None) ->
  try_fold add_allocation (p, l) es = Ok (q, l') -> rebalanced p q.
Proof.
  revert p l. induction es as [|[v a] es IH]; intros p l Hu Hnd Hpos Hn H; cbn [try_fold] in H.
  { injection H as <- <-. reflexivity. }
  cbn [fmap list_fmap fst] in Hnd, Hn. apply NoDup_cons in Hnd as [Hv Hnd]. apply Forall_cons in Hpos as [Ha Hpos].
  apply and_then_Ok in H as ([p1 l1] & H1 & H). apply add_allocation_ok in H1 as [Hr Hal]; [|done|done|apply Hn; left].
  etrans; [exact Hr|]. eapply IH; [by apply (rb_unsigned _ _ Hr)|done|done| |exact H].
  intros w Hw. rewrite Hal, lookup_insert_ne by (by intros ->). apply Hn. by right.
Qed.

Lemma checkpoint_rebalanced v slot p q :
  StakePool_checkpoint_staking_v2_validator_inner v slot p = Ok q -> rebalanced p q.
Proof.
  intros (st & -> & Hst)%checkpoint_inner_frame. split; [done|done|done|].
  intros [Hs Hd Hr]. by split.
Qed.

Lemma alloc_v2_Ok {A} (r : result A V2Error) a : alloc_v2 r = Ok a <-> r = Ok a.
Proof. destruct r; simpl; split; intros; simplify_eq; done. Qed.

Lemma checkpoints_rebalanced slot vs p q :
  try_fold (fun q v => alloc_v2 (StakePool_checkpoint_staking_v2_validator_inner v slot q)) p vs = Ok q ->
  rebalanced p q.
Proof.
  revert p. induction vs as [|v vs IH]; intros p H; cbn [try_fold] in H; [by injection H as <-|].
  apply and_then_Ok in H as (p1 & H1%alloc_v2_Ok%checkpoint_rebalanced & H). etrans; [done|by apply IH].
Qed.

(** A plan holds positive amounts only. *)
Lemma fill_remaining_positive n limits m m' :
  map_Forall (fun _ a => 0 < a) m -> fill_remaining n limits m = Ok m' -> map_Forall (fun _ a => 0 < a) m'.
Proof.
  revert m. induction n as [|n IH]; intros m Hm H; cbn [fill_remaining] in H; [by injection H as <-|].
  apply or_err_Ok in H as (c & _ & H). apply or_err_Ok in H as (a & [-> _]%checked_add64_Some & H).
  eapply IH; [|exact H]. apply map_Forall_insert_2; [|done].
  destruct (m !! _) as [x|] eqn:Hx; simpl; [specialize (Hm _ _ Hx); simpl in Hm; lia|lia].
Qed.

Lemma plan_at_positive r ls t m t' m' :
  map_Forall (fun _ a => 0 < a) m -> try_fold (plan_at r) (t, m) ls = Ok (t', m') ->
  map_Forall (fun _ a => 0 < a) m'.
Proof.
  revert t m. induction ls as [|l ls IH]; intros t m Hm H; cbn [try_fold] in H; [by injection H as <- <-|].
  apply and_then_Ok in H as ([t1 m1] & H1 & H). apply or_err_Ok in H1 as (a & _ & [= <- <-]).
  eapply IH; [|exact H]. destruct (Z.ltb_spec 0 (allocation_at r l)); [|done]. by apply map_Forall_insert_2.
Qed.

Lemma plan_positive target vs p m :
  StakePool_plan_mossstake_allocations target vs p = Ok m -> map_Forall (fun _ a => 0 < a) m.
Proof.
  unfold StakePool_plan_mossstake_allocations. intros [_ H]%guard_Ok. cbv zeta in H.
  destruct (adjacent_equal _ _); [done|]. apply and_then_Ok in H as ([t bases] & _ & H).
  apply or_err_Ok in H as (f & _ & H). apply and_then_Ok in H as (bps & _ & H).
  apply and_then_Ok in H as (nl & _ & H). apply and_then_Ok in H as ([cap limits] & _ & H).
  apply guard_Ok in H as [_ H]. destruct (target =? 0); [injection H as <-; apply map_Forall_empty|].
  apply and_then_Ok in H as ([low high] & _ & H). apply and_then_Ok in H as ([done_ m0] & Hm & H).
  apply or_err_Ok in H as (rem & _ & H). apply or_err_Ok in H as (b & _ & H). apply guard_Ok in H as [_ H].
  eapply fill_remaining_positive; [|exact H]. eapply plan_at_positive; [apply map_Forall_empty|exact Hm].
Qed.

(** The rebalancing keeps the network stake outside the protocol's allocation, the unstake
    requests, the epoch's validators and exposures, and the pool's invariants. *)
Lemma rebalance_ok target vs slot p m q :
  pool_inv p -> StakePool_rebalance_mossstake_allocations target vs slot p = Ok (m, q) ->
  rebalanced p q /\ pool_inv q.
Proof.
  intros Hp. unfold StakePool_rebalance_mossstake_allocations. intros (m0 & Hplan & H)%and_then_Ok.
  apply and_then_Ok in H as ([p1 l1] & H1 & H). apply and_then_Ok in H as ([p2 l2] & H2 & H).
  apply and_then_Ok in H as (p3 & H3 & H). apply and_then_Ok in H as ([] & Hval%alloc_v2_Ok & H).
  apply and_then_Ok in H as (t & _ & H). apply guard_Ok in H as [_ [= <- <-]].
  pose proof (inv_unsigned p Hp) as Hu.
  apply remove_allocations_ok in H1 as [R1 Ha]; [|done|apply NoDup_fst_map_to_list|].
  2: { intros v Hv. apply list_elem_of_fmap in Hv as ([w x] & -> & Hw). apply elem_of_map_to_list in Hw. by exists x. }
  assert (StakePool_mossstake_allocations p1 = ∅) as Hempty.
  { apply map_eq. intros v. rewrite Ha, lookup_empty. destruct (decide (v ∈ _)) as [|Hn]; [done|].
    rewrite allocations_lookup. destruct (sp_delegations p !! v) as [x|] eqn:Hx; [|done]. exfalso. apply Hn.
    apply list_elem_of_fmap. exists (v, x). split; [done|]. by apply elem_of_map_to_list. }
  apply add_allocations_ok in H2.
  - assert (rebalanced p p3) as R by (etrans; [exact R1|]; etrans; [exact H2|]; by eapply checkpoints_rebalanced).
    split; [done|]. apply and_then_Ok in Hval as ([] & Hval & _).
    apply validate_invariants_iff; [by apply (rb_unsigned _ _ R)|].
    by destruct (StakePool_validate_invariants p3) as [[]|].
  - by apply (rb_unsigned _ _ R1).
  - unfold btree. rewrite sort_by_key_perm. apply NoDup_fst_map_to_list.
  - apply Forall_forall. intros [v a]. unfold btree. rewrite elem_of_sort_by_key, elem_of_map_to_list.
    intros Hva. pose proof (plan_positive _ _ _ _ Hplan v a Hva). simpl in *. lia.
  - intros v _. by rewrite Hempty.
Qed.

(** *** The whole plan *)

Section exact.
Context (p : StakePool) (Hp : pool_inv p).
Context (vs : list Pubkey) (Hnd : NoDup vs) (He : forall v, v ∈ vs -> eligible p v).
Context (limit : Z) (Hlimit : 0 <= limit) (Hsmall : 6 * sp_total_staked p <= u64_max).

Lemma limit_of_wf : Forall limit_wf (map (limit_of p limit) vs).
Proof using Hp He Hlimit.
  apply Forall_forall. intros l (v & -> & Hv)%list_elem_of_fmap.
  destruct (He v Hv) as (s & Hs & _). destruct (eligible_facts p Hp v s Hs) as (H0 & _ & H2 & _ & Hb & _).
  split; cbn [li_base li_maximum li_capacity limit_of]; [done| |done].
  unfold stake_limit. rewrite Hb. unfold MAX_VALIDATOR_STAKE, RATIO_SCALE in *. lia.
Qed.

Lemma room_range :
  0 <= sumZ (room p limit) vs <= 5 * sp_total_staked p.
Proof using Hp Hnd He.
  clear Hlimit Hsmall.
  split; [apply sumZ_nonneg; intros v _; unfold room; lia|].
  destruct (own_total_le p Hp vs Hnd He) as (_ & _ & Hb & _).
  assert (sumZ (room p limit) vs <= sumZ (fun v => self_bond p v + (self_bond p v + (self_bond p v +
    (self_bond p v + self_bond p v)))) vs) as Hr; [|rewrite !sumZ_add in Hr; lia].
  apply sumZ_le. intros v Hv. destruct (He v Hv) as (s & Hs & _).
  destruct (eligible_facts p Hp v s Hs) as (H0 & _ & H2 & _ & Hb' & _). unfold room, stake_limit. lia.
Qed.

(** From the limits to the allocations. *)
Lemma distribute target :
  0 <= target <= sumZ (room p limit) vs ->
  let limits := map (limit_of p limit) vs in
  exists low allocated allocations allocations',
    iter_until capacity_done (capacity_step (ratio_ok limits target)) (2 ^ 64) (Ok (0, RATIO_SCALE)) = Ok (low, low)
    /\ try_fold (plan_at low) (0, ∅) limits = Ok (allocated, allocations)
    /\ 0 <= target - allocated <= Z.of_nat (length vs)
    /\ fill_remaining (Z.to_nat (target - allocated)) limits allocations = Ok allocations'
    /\ map_sum id allocations' = target
    /\ map_Forall (fun v a => v ∈ vs /\ 0 < a <= room p limit v) allocations'.
Proof using Hp Hnd He Hlimit Hsmall.
  intros Ht limits. pose proof room_range as Hr. pose proof limit_of_wf as Hwf. fold limits in Hwf.
  assert (sumZ li_capacity limits = sumZ (room p limit) vs) as Hc by (unfold limits; by rewrite sumZ_map).
  assert (NoDup (map li_validator limits)) as Hn.
  { unfold limits. rewrite map_map. cbn [li_validator limit_of]. by rewrite map_id. }
  destruct (ratio_search limits target) as (low & Hs & Hl & Hrem); [done|lia|lia|].
  pose proof (total_at_range limits Hwf low Hl) as Htl.
  destruct (plan_at_fold limits Hn low limits [] 0 ∅) as (m & Hm & Hw & Hsum); [done| |done|done|done|lia|].
  { intros l Hl'. rewrite Forall_forall in Hwf. by apply allocation_at_range; [apply Hwf|]. }
  rewrite map_sum_empty, Z.add_0_l in Hsum. rewrite Z.add_0_l in Hm.
  destruct (fill_remaining_ok limits Hn (Z.to_nat (target - sumZ (allocation_at low) limits)) m)
    as (m' & Hf & Hw' & Hs'); [done|lia|done|lia|].
  exists low, (sumZ (allocation_at low) limits), m, m'. split_and!; try done; [lia| |lia|].
  { unfold limits in Hrem |- *. rewrite length_map in Hrem. lia. }
  intros v a Ha. destruct (Hw' v a Ha) as (Hpos & l & Hin & <- & Hle).
  apply list_elem_of_fmap in Hin as (w & -> & Hw0). by cbn [limit_of li_validator li_capacity] in *.
Qed.
End exact.

Lemma share_limit_fits p target vs :
  0 <= sumZ (own_stake p) vs + target <= u64_max -> vs <> [] ->
  exists bps, validator_saturation_cap_bps (Z.of_nat (length vs)) = Ok bps
    /\ mul_div_ceil_u64 (sumZ (own_stake p) vs + target) bps 10000 = Ok (share_limit p target vs)
    /\ 0 <= share_limit p target vs.
Proof.
  intros Ht Hne. assert (0 < Z.of_nat (length vs)) by (destruct vs; [done|simpl; lia]).
  destruct (validator_saturation_cap_bps (Z.of_nat (length vs))) as [bps|e] eqn:Hb.
  2: { unfold validator_saturation_cap_bps in Hb. rewrite (proj2 (Z.eqb_neq _ 0)) in Hb by lia. by case_match. }
  exists bps. pose proof (saturation_bps_range _ _ Hb ltac:(done)). unfold share_limit. rewrite Hb.
  unfold mul_div_ceil_u64. cbn [Z.eqb].
  pose proof (div_ceil_spec ((sumZ (own_stake p) vs + target) * bps) 10000 ltac:(lia)).
  split_and!; [done| |nia]. rewrite (proj2 (Z.leb_le _ u64_max)); [done|]. nia.
Qed.

(** The validators the loops run over: the argument in the order of the keys. *)
Lemma sorted_validators p target vs :
  let ws := sort_by_key id vs in
  (forall f, sumZ f ws = sumZ f vs) /\ length ws = length vs /\ share_limit p target ws = share_limit p target vs
  /\ (forall v, v ∈ ws <-> v ∈ vs) /\ (NoDup vs -> NoDup ws /\ adjacent_equal id ws = None).
Proof.
  intros ws. assert (forall f, sumZ f ws = sumZ f vs) as Hs by (intros f; apply sumZ_perm, sort_by_key_perm).
  split_and!; [done|apply sort_by_key_length| |intros v; apply elem_of_sort_by_key|].
  - unfold share_limit. rewrite Hs. unfold ws. by rewrite (sort_by_key_length id).
  - intros Hn. assert (NoDup ws) by (unfold ws; by rewrite sort_by_key_perm). split; [done|].
    apply adjacent_equal_None. by rewrite map_id.
Qed.

(** The backing of the liquid staking pool is spread exactly: for a pool that
    satisfies its invariants and distinct reward-eligible validators, the plan fails only
    when the backing is above the validators' joint room, and then with that error;
    otherwise the allocations add up to the backing to the spore and every one goes to a
    listed validator and leaves it within five times its self-bond and within the
    saturation share of the resulting network stake.  In particular the binary search
    ends, its residual is within the rounding bound, and the remainder loop never runs
    out of candidates. *)
Theorem plan_is_exact p target vs :
  pool_inv p -> vs <> [] -> NoDup vs -> (forall v, v ∈ vs -> eligible p v) ->
  6 * sp_total_staked p <= u64_max -> 0 <= target <= u64_max - sp_total_staked p ->
  let limit := share_limit p target vs in
  match StakePool_plan_mossstake_allocations target vs p with
  | Ok allocations =>
      map_sum id allocations = target
      /\ map_Forall (fun v a => v ∈ vs /\ 0 < a <= room p limit v) allocations
  | Err e => e = BackingAboveCapacity target (sumZ (room p limit) vs) /\ sumZ (room p limit) vs < target
  end.
Proof.
  intros Hp Hne Hnd He Hsmall Ht limit. unfold StakePool_plan_mossstake_allocations.
  rewrite bool_decide_false by done. cbv zeta.
  destruct (sorted_validators p target vs) as (Hsum & Hlen & Hlim & Hin & Hws).
  set (ws := sort_by_key id vs) in *. destruct (Hws Hnd) as [Hndw ->]. clear Hws.
  assert (forall v, v ∈ ws -> eligible p v) as Hew by (intros v Hv%Hin; by apply He).
  destruct (own_total_le p Hp ws Hndw Hew) as (Ho0 & Ho1 & Hb & Hmin).
  assert (ws <> []) as Hnew by (intros ->; destruct vs; done).
  rewrite (bases_fold p Hp) by (done || lia). cbn [and_then]. rewrite Z.add_0_l, app_nil_l.
  rewrite (proj2 (checked_add64_Some _ target (sumZ (own_stake p) ws + target))) by lia. cbn [or_err].
  destruct (share_limit_fits p target ws) as (bps & -> & Hmul & Hl0); [lia|done|].
  cbn [alloc_pool and_then]. rewrite Hmul. cbn [alloc_pool and_then]. rewrite Hlim in *. fold limit in Hl0 |- *.
  pose proof (room_range p Hp ws Hndw Hew limit) as Hroom.
  rewrite (limits_fold p Hp) by (done || lia). cbn [and_then]. rewrite Z.add_0_l, app_nil_l, Hsum in *.
  destruct (Z.ltb_spec (sumZ (room p limit) vs) target) as [|Hcap]; [by split|].
  destruct (Z.eqb_spec target 0) as [->|Hnz]; [by split|].
  destruct (distribute p Hp ws Hndw Hew limit Hl0 Hsmall target)
    as (low & allocated & m & m' & Hs & Hm & Hrem & Hf & Htot & Hall); [by rewrite Hsum; lia|].
  unfold ratio_ok in Hs. rewrite Hs. cbn [and_then]. rewrite Hm. cbn [and_then].
  rewrite (proj2 (checked_sub_Some _ _ (target - allocated))) by lia. cbn [or_err].
  unfold checked_mul64. unfold MIN_VALIDATOR_STAKE in Hmin.
  rewrite (proj2 (Z.leb_le (Z.of_nat (length ws) * 20) _)) by (unfold u64_max in *; lia). cbn [or_err].
  rewrite (proj2 (Z.ltb_ge _ _)) by lia. rewrite Hf. split; [done|].
  intros v a Ha. destruct (Hall v a Ha) as [Hv Hle]. split; [by apply Hin|done].
Qed.

Lemma plan_is_exact_witness :
  exists allocations, StakePool_plan_mossstake_allocations 1000001 [3; 1; 2] sample_pool = Ok allocations
    /\ map_sum id allocations = 1000001
    /\ allocations !! 2 = Some 500001 /\ allocations !! 3 = Some 500000.
Proof.
  pose proof (plan_is_exact sample_pool 1000001 [3; 1; 2] sample_pool_inv) as H.
  destruct (StakePool_plan_mossstake_allocations _ _ _) as [m|e] eqn:Hm; [|vm_compute in Hm; discriminate].
  exists m. split; [reflexivity|]. split.
  - apply H; [discriminate|apply (bool_decide_unpack _); vm_compute; reflexivity| |vm_compute; discriminate
      |vm_compute; split; discriminate].
    intros v Hv. rewrite !elem_of_cons, elem_of_nil in Hv.
    destruct Hv as [->|[->|[->|[]]]]; (eexists; split; [vm_compute; reflexivity|split; reflexivity]).
  - vm_compute in Hm. injection Hm as <-. vm_compute. split; reflexivity.
Defined.
