(* ===== verification/EquivocationSlash.v ===== *)
(** * The equivocation slash of Staking V2

    Models [StakePool::apply_staking_v2_equivocation_slash] of [core/src/consensus.rs]:
    the owners whose stake gave the offender its frozen voting power in the epoch of the
    offense each lose the same fraction, first from an unstake request that is still
    cooling down, then from the active stake.

    - the pool is changed on a copy that replaces it at the end: an error leaves the pool
      as it was;
    - [owners] is a [BTreeMap]: the owners are charged in the order of their keys;
    - a product of two 64-bit numbers fits in 128 bits, so [checked_mul] on [u128] is
      exact. *)

From S2P Require Import Prelude Crypto Stake Pool PoolInvariant PoolRun Delegation.
From S2P Require Import StakingV2 MossInvariant RewardPlan Allocation.
From stdpp Require Import base tactics numbers list gmap.
From Stdlib Require Import ZArith Lia.

Local Open Scope Z_scope.
Local Open Scope rust_scope.

Definition SLASHING_V2_EVIDENCE_WINDOW_SLOTS : Z :=
  SLOTS_PER_EPOCH * SLASHING_V2_EVIDENCE_WINDOW_EPOCHS.

Inductive SlashV2Error :=
| SlashFromV2 (e : V2Error)
| InvalidSlashPercent (percent : Z)
| OffenseInFuture
| OutsideWindow
| SlashNotInitialized
| NoExposureSnapshot (epoch : Z)
| NoFrozenPower (validator : Pubkey)
| SelfBondDuplicated
| ExposureAboveU64
| RequestUnderflow
| CoolingAboveRequested
| OffenderStakeMissing (validator : Pubkey)
| DelegatorStakeMissing
| DelegatorUnderflow
| DelegatedUnderflow
| OwnerLossOverflow
| ActiveTotalOverflow
| NativeTotalOverflow
| ActiveStakeUnderflow
| SlashedTotalOverflow.

Definition slash_v2 {A} (r : result A V2Error) : result A SlashV2Error :=
  match r with Ok a => Ok a | Err e => Err (SlashFromV2 e) end.

Record StakingV2SlashOwnerLoss := mkOwnerLoss {
  ol_owner : Pubkey;
  ol_active_stake : Z;
  ol_cooling_down_stake : Z;
}.

Definition StakingV2SlashOwnerLoss_total (l : StakingV2SlashOwnerLoss) : result Z SlashV2Error :=
  or_err (checked_add64 (ol_active_stake l) (ol_cooling_down_stake l)) OwnerLossOverflow Ok.

Record StakingV2SlashSettlement := mkSlashSettlement {
  sl_validator : Pubkey;
  sl_offense_epoch : Z;
  sl_slash_percent : Z;
  sl_owner_losses : list StakingV2SlashOwnerLoss;
  sl_mossstake_requested_loss : Z;
}.

Definition StakingV2SlashSettlement_native_loss (s : StakingV2SlashSettlement) : result Z SlashV2Error :=
  try_fold (fun total loss =>
    let? t := StakingV2SlashOwnerLoss_total loss in
    or_err (checked_add64 total t) NativeTotalOverflow Ok) 0 (sl_owner_losses s).

(** The local variables of the loop over the owners. *)
Record SlashProgress := mkSlashProgress {
  pr_updated : StakePool;
  pr_owner_losses : list StakingV2SlashOwnerLoss;
  pr_mossstake_requested_loss : Z;
  pr_active_loss_total : Z;
  pr_native_loss_total : Z;
}.

(** What an unstake request of the owner that started in the offense epoch or later
    can pay. *)
Definition slashable_request (snapshot_start_slot requested_loss : Z) (request : option UnstakeRequest) : Z :=
  match request with
  | Some r =>
      match checked_sub (ur_unlock_slot r) UNSTAKE_COOLDOWN_SLOTS with
      | Some requested_at =>
          if snapshot_start_slot <=? requested_at then Z.min (ur_amount r) requested_loss else 0
      | None => 0
      end
  | None => 0
  end.

Definition reduce_request (key : Pubkey * Pubkey) (amount : Z) (p : StakePool)
  : result StakePool SlashV2Error :=
  or_err (sp_unstake_requests p !! key) RequestUnderflow (fun request =>
  or_err (checked_sub (ur_amount request) amount) RequestUnderflow (fun rest =>
  Ok (set_sp_unstake_requests
        (if rest =? 0 then delete key (sp_unstake_requests p)
         else <[key := mkUnstakeRequest (ur_validator request) (ur_staker request) rest
                         (ur_unlock_slot request)]> (sp_unstake_requests p)) p))).

(** The active stake of one owner: the self-bond of the validator, or a delegation. *)
Definition slash_self_bond (validator : Pubkey) (remaining : Z) (p : StakePool)
  : result (Z * StakePool) SlashV2Error :=
  or_err (sp_stakes p !! validator) (OffenderStakeMissing validator) (fun info =>
  let '(slashed, info) := StakeInfo_slash remaining info in
  Ok (slashed, put_stake validator info p)).

Definition slash_delegation (validator owner : Pubkey) (remaining : Z) (p : StakePool)
  : result (Z * StakePool) SlashV2Error :=
  let active_loss := Z.min (delegation p validator owner) remaining in
  if 0 <? active_loss then
    or_err (sp_delegations p !! validator) DelegatorStakeMissing (fun entries =>
    or_err (entries !! owner) DelegatorStakeMissing (fun amount =>
    or_err (checked_sub amount active_loss) DelegatorUnderflow (fun amount =>
    let entries := if amount =? 0 then delete owner entries else <[owner := amount]> entries in
    let p := set_sp_delegations
               (if bool_decide (entries = ∅) then delete validator (sp_delegations p)
                else <[validator := entries]> (sp_delegations p)) p in
    or_err (sp_stakes p !! validator) (OffenderStakeMissing validator) (fun info =>
    or_err (checked_sub (si_delegated_amount info) active_loss) DelegatedUnderflow (fun delegated =>
    Ok (active_loss, put_stake validator (set_si_delegated_amount delegated info) p))))))
  else Ok (active_loss, p).

(** One iteration of [for (owner, owner_exposure) in owners]. *)
Definition slash_owner (validator : Pubkey) (slash_percent snapshot_start_slot : Z)
  (pr : SlashProgress) (entry : Pubkey * Z) : result SlashProgress SlashV2Error :=
  let '(owner, owner_exposure) := entry in
  let requested_loss := owner_exposure * slash_percent / 100 in
  reject u64_max <? requested_loss with ExposureAboveU64;
  if requested_loss =? 0 then Ok pr
  else if owner =? MOSSSTAKE_PROTOCOL_DELEGATOR then
    Ok (mkSlashProgress (pr_updated pr) (pr_owner_losses pr) requested_loss
          (pr_active_loss_total pr) (pr_native_loss_total pr))
  else
    let updated := pr_updated pr in
    let cooling_down_stake :=
      slashable_request snapshot_start_slot requested_loss
        (sp_unstake_requests updated !! (validator, owner)) in
    let? updated :=
      if 0 <? cooling_down_stake then reduce_request (validator, owner) cooling_down_stake updated
      else Ok updated in
    or_err (checked_sub requested_loss cooling_down_stake) CoolingAboveRequested (fun remaining =>
    let? '(active_stake, updated) :=
      if owner =? validator then slash_self_bond validator remaining updated
      else slash_delegation validator owner remaining updated in
    or_err (checked_add64 active_stake cooling_down_stake) OwnerLossOverflow (fun actual_loss =>
    if actual_loss =? 0 then
      Ok (mkSlashProgress updated (pr_owner_losses pr) (pr_mossstake_requested_loss pr)
            (pr_active_loss_total pr) (pr_native_loss_total pr))
    else
      or_err (checked_add64 (pr_active_loss_total pr) active_stake) ActiveTotalOverflow (fun active_total =>
      or_err (checked_add64 (pr_native_loss_total pr) actual_loss) NativeTotalOverflow (fun native_total =>
      Ok (mkSlashProgress updated
            (pr_owner_losses pr ++ [mkOwnerLoss owner active_stake cooling_down_stake])
            (pr_mossstake_requested_loss pr) active_total native_total))))).

(** What follows the loop. *)
Definition finish_slash (validator : Pubkey) (execution_slot : Z) (pr : SlashProgress)
  : result StakePool SlashV2Error :=
  let updated := pr_updated pr in
  or_err (sp_stakes updated !! validator) (OffenderStakeMissing validator) (fun offender =>
  let updated := put_stake validator (set_si_is_active false offender) updated in
  or_err (checked_sub (sp_total_staked updated) (pr_active_loss_total pr)) ActiveStakeUnderflow (fun total =>
  or_err (checked_add64 (sp_total_slashed updated) (pr_native_loss_total pr)) SlashedTotalOverflow
    (fun slashed =>
  let updated := set_sp_total_slashed slashed (set_sp_total_staked total updated) in
  let? updated :=
    match sp_staking_v2_state updated with
    | Some state =>
        if bool_decide (is_Some (v2_validators state !! validator))
        then slash_v2 (StakePool_checkpoint_staking_v2_validator_inner validator execution_slot updated)
        else Ok updated
    | None => Ok updated
    end in
  let? _ := slash_v2 (StakePool_validate_v2_invariants updated) in
  Ok updated))).

(** The owners charged for an offense, by their exposure. *)
Definition exposed_owners (validator : Pubkey) (exposure : ValidatorSlashExposure) : gmap Pubkey Z :=
  <[validator := vse_self_bond exposure]> (vse_delegations exposure).

Definition StakePool_apply_staking_v2_equivocation_slash (validator : Pubkey)
  (offense_slot slash_percent execution_slot : Z) (p : StakePool)
  : result (StakingV2SlashSettlement * StakePool) SlashV2Error :=
  reject (slash_percent =? 0) || (100 <? slash_percent) with InvalidSlashPercent slash_percent;
  reject execution_slot <? offense_slot with OffenseInFuture;
  reject SLASHING_V2_EVIDENCE_WINDOW_SLOTS <? execution_slot - offense_slot with OutsideWindow;
  let? _ := slash_v2 (StakePool_validate_v2_invariants p) in
  let offense_epoch := slot_to_epoch offense_slot in
  or_err (sp_staking_v2_state p) SlashNotInitialized (fun state =>
  or_err (v2_slash_exposure_snapshots state !! offense_epoch) (NoExposureSnapshot offense_epoch)
    (fun snapshot =>
  or_err (ess_validators snapshot !! validator) (NoFrozenPower validator) (fun exposure =>
  reject bool_decide (is_Some (vse_delegations exposure !! validator)) with SelfBondDuplicated;
  let? pr :=
    try_fold (slash_owner validator slash_percent (ess_start_slot snapshot))
      (mkSlashProgress p [] 0 0 0) (btree (exposed_owners validator exposure)) in
  let? updated := finish_slash validator execution_slot pr in
  Ok (mkSlashSettlement validator offense_epoch slash_percent (pr_owner_losses pr)
        (pr_mossstake_requested_loss pr), updated)))).

Definition StakePool_record_staking_v2_external_slash (amount : Z) (p : StakePool)
  : result StakePool SlashV2Error :=
  or_err (checked_add64 (sp_total_slashed p) amount) SlashedTotalOverflow (fun slashed =>
  Ok (set_sp_total_slashed slashed p)).

(** ** What each owner loses

    The reference: computed from the pool before the slash. *)

Definition direct_stake (p : StakePool) (v o : Pubkey) : Z :=
  if o =? v then from_option si_amount 0 (sp_stakes p !! v) else delegation p v o.

Definition requested_loss (percent : Z) (entry : Pubkey * Z) : Z := entry.2 * percent / 100.

Definition cooling_loss (p : StakePool) (v : Pubkey) (percent start : Z) (entry : Pubkey * Z) : Z :=
  slashable_request start (requested_loss percent entry) (sp_unstake_requests p !! (v, entry.1)).

Definition active_loss (p : StakePool) (v : Pubkey) (percent start : Z) (entry : Pubkey * Z) : Z :=
  Z.min (direct_stake p v entry.1) (requested_loss percent entry - cooling_loss p v percent start entry).

Definition owner_loss (p : StakePool) (v : Pubkey) (percent start : Z) (entry : Pubkey * Z)
  : option StakingV2SlashOwnerLoss :=
  if (entry.1 =? MOSSSTAKE_PROTOCOL_DELEGATOR)
     || (active_loss p v percent start entry + cooling_loss p v percent start entry =? 0)
  then None
  else Some (mkOwnerLoss entry.1 (active_loss p v percent start entry)
               (cooling_loss p v percent start entry)).

Definition loss_total (l : StakingV2SlashOwnerLoss) : Z := ol_active_stake l + ol_cooling_down_stake l.

(** ** The pool while the owners are charged *)

(** The pool as [finish_slash] would leave it. *)
Definition settled (v : Pubkey) (active : Z) (q : StakePool) : StakePool :=
  match sp_stakes q !! v with
  | Some s => set_sp_total_staked (sp_total_staked q - active) (put_stake v (set_si_is_active false s) q)
  | None => q
  end.

(** [q] is [p] after the requests of the owners [R] and the active stakes of the owners
    [A] were charged [cooling] and [active]. *)
Record pool_charged (p : StakePool) (v : Pubkey) (R A : list Pubkey) (active cooling : Z) (q : StakePool)
  : Prop := {
  pc_inv : pool_inv (settled v active q);
  pc_known : is_Some (sp_stakes q !! v);
  pc_total : sp_total_staked q = sp_total_staked p;
  pc_slashed : sp_total_slashed q = sp_total_slashed p;
  pc_v2 : sp_staking_v2_state q = sp_staking_v2_state p;
  pc_stakes : forall w, w <> v -> sp_stakes q !! w = sp_stakes p !! w;
  pc_delegations : forall w, w <> v -> sp_delegations q !! w = sp_delegations p !! w;
  pc_requests : forall k, (k.1 = v -> k.2 ∉ R) -> sp_unstake_requests q !! k = sp_unstake_requests p !! k;
  pc_direct : forall o, o ∉ A -> direct_stake q v o = direct_stake p v o;
  pc_pending : map_sum ur_amount (sp_unstake_requests q) = map_sum ur_amount (sp_unstake_requests p) - cooling;
}.

Lemma settled_put v a b s s' q :
  sp_stakes q !! v = Some s ->
  settled v b (put_stake v s' q)
  = set_sp_total_staked (sp_total_staked q - b) (put_stake v (set_si_is_active false s') (settled v a q)).
Proof.
  intros Hs. unfold settled, put_stake. rewrite Hs. simpl. rewrite lookup_insert_eq.
  destruct q. unfold set_sp_total_staked, set_sp_stakes, eta_StakePool. simpl. by rewrite !insert_insert_eq.
Qed.

Lemma slash_fields rem s :
  0 <= si_amount s -> 0 <= rem ->
  exists s', StakeInfo_slash rem s = (Z.min rem (si_amount s), s')
    /\ si_amount s' = si_amount s - Z.min rem (si_amount s)
    /\ si_delegated_amount s' = si_delegated_amount s /\ si_validator s' = si_validator s
    /\ si_machine_fingerprint s' = si_machine_fingerprint s.
Proof.
  intros Ha Hr. unfold StakeInfo_slash.
  destruct ((Z.min rem (si_amount s) =? 0) || (si_amount s =? 0)) eqn:Hz.
  - exists s. split_and!; try done; [f_equal; lia|lia].
  - eexists. split; [reflexivity|]. simpl. unfold sat_sub. split_and!; try done. lia.
Qed.

Section charge.
Context (p : StakePool) (v : Pubkey).

Lemma settled_lookup a q s :
  sp_stakes q !! v = Some s -> sp_stakes (settled v a q) !! v = Some (set_si_is_active false s).
Proof. intros Hs. unfold settled. rewrite Hs. simpl. by rewrite lookup_insert_eq. Qed.

Lemma settled_frame a q :
  sp_delegations (settled v a q) = sp_delegations q
  /\ sp_unstake_requests (settled v a q) = sp_unstake_requests q
  /\ (is_Some (sp_stakes q !! v) -> sp_total_staked (settled v a q) = sp_total_staked q - a).
Proof. unfold settled. destruct (sp_stakes q !! v); split_and!; done. Qed.

(** The bounds of the offender's record. *)
Lemma charged_bounds R A a c q s :
  pool_charged p v R A a c q -> sp_stakes q !! v = Some s ->
  0 <= si_amount s <= MAX_VALIDATOR_STAKE /\ 0 <= si_delegated_amount s
  /\ si_amount s + si_delegated_amount s <= sp_total_staked p - a
  /\ si_delegated_amount s = map_sum id (default ∅ (sp_delegations q !! v)).
Proof.
  intros Hc Hs. pose proof (settled_lookup a q s Hs) as Hl.
  pose proof (inv_effective_le _ (pc_inv _ _ _ _ _ _ _ Hc) v _ Hl) as Hle.
  pose proof (inv_delegated_nonneg _ (pc_inv _ _ _ _ _ _ _ Hc) v _ Hl) as Hd.
  destruct (pi_stakes _ (pc_inv _ _ _ _ _ _ _ Hc) v _ Hl) as [_ Ham Hdel _ _].
  destruct (settled_frame a q) as (Hfd & _ & Hft). rewrite Hft in Hle by by eexists.
  rewrite (pc_total _ _ _ _ _ _ _ Hc) in Hle. unfold delegated_to in Hdel. rewrite Hfd in Hdel.
  unfold effective in Hle. simpl in *. split_and!; try done; lia.
Qed.

Lemma charge_start s :
  pool_inv p -> sp_stakes p !! v = Some s -> pool_charged p v [] [] 0 0 p.
Proof.
  intros Hp Hs. split; try done; [|lia].
  unfold settled. rewrite Hs. pose proof (pi_total_max p Hp).
  destruct (ei_amount _ _ _ (pi_stakes p Hp v s Hs)).
  apply (inv_put p Hp v s); [done|done|done|done|simpl; lia|lia].
Qed.

Lemma slashable_range start req r :
  0 <= req -> 0 <= ur_amount r -> 0 <= slashable_request start req (Some r) <= Z.min (ur_amount r) req.
Proof. intros ? ?. unfold slashable_request. repeat case_match; lia. Qed.

Lemma charge_request R A a c q o start req :
  pool_charged p v R A a c q -> o ∉ R -> 0 <= req ->
  let x := slashable_request start req (sp_unstake_requests p !! (v, o)) in
  0 <= x <= req /\ x <= map_sum ur_amount (sp_unstake_requests p) - c
  /\ slashable_request start req (sp_unstake_requests q !! (v, o)) = x
  /\ exists q', (if 0 <? x then reduce_request (v, o) x q else Ok q) = Ok q'
    /\ pool_charged p v (o :: R) A a (c + x) q'.
Proof.
  intros Hc Ho Hreq x. pose proof (pc_requests _ _ _ _ _ _ _ Hc (v, o) (fun _ => Ho)) as Hr.
  pose proof (pi_requests _ (pc_inv _ _ _ _ _ _ _ Hc)) as Hpos.
  destruct (settled_frame a q) as (_ & Hfr & _). rewrite Hfr in Hpos.
  assert (forall k, (k.1 = v -> k.2 ∉ o :: R) -> k.1 = v -> k.2 ∉ R) as Hmono.
  { intros k Hk Hv. apply Hk in Hv. set_solver. }
  assert (pool_charged p v (o :: R) A a c q) as Hsame.
  { destruct Hc as [? ? ? ? ? ? ? Hq ? ?]. split; try done. intros k Hk. by apply Hq, Hmono. }
  assert (0 <= x <= req) as Hx.
  { unfold x. rewrite <- Hr. destruct (sp_unstake_requests q !! (v, o)) as [r|] eqn:Hro; [|simpl; lia].
    destruct (Hpos _ _ Hro). pose proof (slashable_range start req r). lia. }
  split; [done|]. rewrite Hr. fold x. rewrite <- (pc_pending _ _ _ _ _ _ _ Hc).
  assert (0 <= map_sum ur_amount (sp_unstake_requests q)) as Hnn.
  { apply map_sum_nonneg. intros k r Hk. destruct (Hpos k r Hk). lia. }
  destruct (Z.ltb_spec 0 x) as [Hx0|Hx0].
  2: { split_and!; [lia|done|]. exists q. split; [done|]. by replace (c + x) with c by lia. }
  destruct (sp_unstake_requests q !! (v, o)) as [r|] eqn:Hro; [|unfold x in Hx0; rewrite <- Hr in Hx0; simpl in Hx0; lia].
  destruct (Hpos _ _ Hro) as [Hkey Hamt].
  assert (x <= ur_amount r) as Hxr.
  { unfold x. rewrite <- Hr. pose proof (slashable_range start req r). lia. }
  split; [|split; [done|]].
  { etrans; [exact Hxr|]. apply (map_sum_lookup ur_amount _ (v, o) r); [|done]. intros k y Hk. destruct (Hpos k y Hk). lia. }
  unfold reduce_request. rewrite Hro. cbn [or_err].
  rewrite (proj2 (checked_sub_Some _ _ (ur_amount r - x))) by lia. cbn [or_err].
  eexists. split; [reflexivity|].
  set (m := if ur_amount r - x =? 0 then _ else _).
  assert (map_Forall (fun k r => (ur_validator r, ur_staker r) = k /\ 0 < ur_amount r) m
    /\ map_sum ur_amount m = map_sum ur_amount (sp_unstake_requests q) - x
    /\ forall k, k <> (v, o) -> m !! k = sp_unstake_requests q !! k) as (Hm1 & Hm2 & Hm3).
  { unfold m. destruct (Z.eqb_spec (ur_amount r - x) 0) as [H0|H0].
    - split_and!; [by apply map_Forall_delete|rewrite (map_sum_delete _ _ _ r) by done; lia|].
      intros k Hk. by rewrite lookup_delete_ne.
    - split_and!; [apply map_Forall_insert_2; [simpl; split; [done|lia]|done]
        |rewrite (map_sum_insert _ _ _ r) by done; simpl; lia|].
      intros k Hk. by rewrite lookup_insert_ne. }
  clearbody m. destruct Hc as [Hinv ? ? ? ? ? ? Hq ? Hpend]. split; try done.
  - replace (settled v a (set_sp_unstake_requests m q)) with (set_sp_unstake_requests m (settled v a q)).
    { by apply inv_set_requests. }
    unfold settled. simpl. by destruct (sp_stakes q !! v).
  - intros k Hk. simpl. rewrite Hm3; [by apply Hq, Hmono|]. intros ->. apply Hk; [done|left].
  - simpl. rewrite Hm2, Hpend. lia.
Qed.

Lemma direct_other A q o q' :
  (forall o, o ∉ A -> direct_stake q v o = direct_stake p v o) ->
  (forall w, w <> o -> direct_stake q' v w = direct_stake q v w) ->
  forall w, w ∉ o :: A -> direct_stake q' v w = direct_stake p v w.
Proof. intros Hq Hq' w [? ?]%not_elem_of_cons. rewrite Hq' by done. by apply Hq. Qed.

Lemma charge_self R A a c q rem :
  pool_charged p v R A a c q -> v ∉ A -> 0 <= rem ->
  let x := Z.min (direct_stake p v v) rem in
  0 <= x /\ a + x <= sp_total_staked p
  /\ exists q', slash_self_bond v rem q = Ok (x, q') /\ pool_charged p v R (v :: A) (a + x) c q'.
Proof.
  intros Hc Hv Hrem x. destruct (pc_known _ _ _ _ _ _ _ Hc) as [s Hs].
  destruct (charged_bounds R A a c q s Hc Hs) as (Ham & Hdel & Hle & _).
  assert (direct_stake p v v = si_amount s) as Hd.
  { rewrite <- (pc_direct _ _ _ _ _ _ _ Hc v Hv). unfold direct_stake. by rewrite Z.eqb_refl, Hs. }
  destruct (slash_fields rem s ltac:(lia) Hrem) as (s' & Hsl & H1 & H2 & H3 & H4).
  split; [lia|]. split; [lia|]. unfold slash_self_bond. rewrite Hs. cbn [or_err]. rewrite Hsl.
  assert (Z.min rem (si_amount s) = x) as Hx by lia. rewrite Hx in *.
  exists (put_stake v s' q). split; [done|].
  pose proof (pi_total_max _ (pc_inv _ _ _ _ _ _ _ Hc)) as Hmax.
  rewrite (proj2 (proj2 (settled_frame a q))) in Hmax by by eexists.
  destruct Hc as [Hinv ? Htot ? ? Hst ? ? Hdir ?]. split; try done.
  - rewrite (settled_put v a (a + x) s s' q Hs).
    eapply (inv_put _ Hinv v); [by apply settled_lookup|done|simpl; lia|done| |lia].
    rewrite (proj2 (proj2 (settled_frame a q))) by by eexists. simpl. lia.
  - simpl. rewrite lookup_insert_eq. by eexists.
  - intros w Hw. simpl. rewrite lookup_insert_ne by done. by apply Hst.
  - apply (direct_other A q v); [done|]. intros w Hw. unfold direct_stake.
    rewrite (proj2 (Z.eqb_neq w v)) by done. done.
Qed.

Lemma charge_delegation R A a c q o rem :
  pool_charged p v R A a c q -> o <> v -> o ∉ A -> 0 <= rem ->
  let x := Z.min (direct_stake p v o) rem in
  0 <= x /\ a + x <= sp_total_staked p
  /\ exists q', slash_delegation v o rem q = Ok (x, q') /\ pool_charged p v R (o :: A) (a + x) c q'.
Proof.
  intros Hc Hov Ho Hrem x. destruct (pc_known _ _ _ _ _ _ _ Hc) as [s Hs].
  destruct (charged_bounds R A a c q s Hc Hs) as (Ham & Hdel & Hle & Hsum).
  assert (direct_stake p v o = delegation q v o) as Hd.
  { rewrite <- (pc_direct _ _ _ _ _ _ _ Hc o Ho). unfold direct_stake. by rewrite (proj2 (Z.eqb_neq o v)). }
  pose proof (pc_inv _ _ _ _ _ _ _ Hc) as Hinv. destruct (settled_frame a q) as (Hfd & _ & Hft).
  assert (forall m, sp_delegations q !! v = Some m -> map_Forall (fun d a => d <> v /\ 0 < a) m) as Hent.
  { intros m Hm. apply (di_entries v m), (inv_delegations_of _ Hinv). by rewrite Hfd. }
  unfold slash_delegation. rewrite <- Hd. fold x.
  assert (0 <= direct_stake p v o) as Hnn.
  { rewrite Hd. unfold delegation. destruct (sp_delegations q !! v) as [m|] eqn:Hm; simpl; [|lia].
    destruct (m !! o) as [y|] eqn:Hy; simpl; [|lia]. destruct (Hent m eq_refl o y Hy). lia. }
  split; [lia|]. destruct (Z.ltb_spec 0 x) as [Hx0|Hx0].
  2: { split; [lia|]. exists q. split; [do 2 f_equal|]. replace (a + x) with a by lia.
       destruct Hc as [? ? ? ? ? ? ? ? Hdir ?]. split; try done. intros w [_ Hw]%not_elem_of_cons. by apply Hdir. }
  unfold delegation in Hd. destruct (sp_delegations q !! v) as [m|] eqn:Hm; simpl in Hd; [|lia].
  destruct (m !! o) as [y|] eqn:Hy; simpl in Hd; [|lia]. rewrite Hd in *.
  destruct (reduced_spec v m o y x Hy ltac:(lia) (Hent m eq_refl)) as [Hpos Hred]. simpl in Hsum.
  assert (y <= map_sum id m) as Hym.
  { apply (map_sum_lookup id m o); [|done]. intros ? ? [_ ?]%(Hent m eq_refl). unfold id. lia. }
  split; [lia|]. cbn [or_err]. rewrite Hy. cbn [or_err].
  rewrite (proj2 (checked_sub_Some _ _ (y - x))) by lia. cbn [or_err]. fold (reduced m o y x).
  change (sp_stakes (set_sp_delegations ?D q)) with (sp_stakes q). rewrite Hs. cbn [or_err].
  rewrite (proj2 (checked_sub_Some _ _ (si_delegated_amount s - x))) by lia. cbn [or_err].
  eexists. split; [reflexivity|]. pose proof (pi_total_max _ Hinv) as Hmax. rewrite Hft in Hmax by by eexists.
  set (s' := set_si_delegated_amount (si_delegated_amount s - x) s).
  set (D := if bool_decide (reduced m o y x = ∅) then _ else _).
  assert (forall w, w <> v -> D !! w = sp_delegations q !! w) as HD.
  { intros w Hw. unfold D. case_bool_decide; [by rewrite lookup_delete_ne|by rewrite lookup_insert_ne]. }
  assert (default ∅ (D !! v) = reduced m o y x) as HDv.
  { unfold D. case_bool_decide as He; [by rewrite lookup_delete_eq|by rewrite lookup_insert_eq]. }
  destruct Hc as [_ ? Htot ? ? Hst Hde ? Hdir ?]. split; try done.
  - replace (settled v (a + x) (put_stake v s' (set_sp_delegations D q)))
      with (set_sp_delegations D (set_sp_total_staked (sp_total_staked q - (a + x))
              (put_stake v (set_si_is_active false s') (settled v a q)))).
    2: { rewrite <- (settled_put v a (a + x) s s' q Hs). unfold settled. simpl. by rewrite lookup_insert_eq. }
    unfold D. rewrite <- Hfd.
    eapply (inv_set_delegations _ Hinv v); [by apply settled_lookup|done|done|done|done|exact Hpos| | |lia].
    + simpl. lia.
    + rewrite Hft by by eexists. simpl. lia.
  - simpl. rewrite lookup_insert_eq. by eexists.
  - intros w Hw. simpl. rewrite lookup_insert_ne by done. by apply Hst.
  - intros w Hw. simpl. rewrite HD by done. by apply Hde.
  - apply (direct_other A q o); [done|]. intros w Hw. unfold direct_stake. destruct (w =? v) eqn:Hwv.
    + simpl. by rewrite lookup_insert_eq, Hs.
    + rewrite !delegation_lookup. simpl. rewrite HDv, Hm. simpl. unfold reduced.
      destruct (y - x =? 0); [by rewrite lookup_delete_ne|by rewrite lookup_insert_ne].
Qed.
End charge.

(** *** The loop *)

Record progress (p : StakePool) (v : Pubkey) (charged : list Pubkey)
  (losses : list StakingV2SlashOwnerLoss) (pr : SlashProgress) : Prop := {
  pg_pool : pool_charged p v charged charged (sumZ ol_active_stake losses)
              (sumZ ol_cooling_down_stake losses) (pr_updated pr);
  pg_losses : pr_owner_losses pr = losses;
  pg_active : pr_active_loss_total pr = sumZ ol_active_stake losses;
  pg_native : pr_native_loss_total pr = sumZ loss_total losses;
  pg_nonneg : Forall (fun l => 0 <= ol_active_stake l /\ 0 <= ol_cooling_down_stake l) losses;
}.

Lemma losses_nonneg losses :
  Forall (fun l => 0 <= ol_active_stake l /\ 0 <= ol_cooling_down_stake l) losses ->
  0 <= sumZ ol_active_stake losses /\ 0 <= sumZ ol_cooling_down_stake losses.
Proof. rewrite Forall_forall. intros H. split; apply sumZ_nonneg; intros l Hl%H; tauto. Qed.

Lemma loss_totals losses :
  sumZ loss_total losses = sumZ ol_active_stake losses + sumZ ol_cooling_down_stake losses.
Proof. apply sumZ_add. Qed.

Lemma sumZ_snoc {A} (f : A -> Z) l x : sumZ f (l ++ [x]) = sumZ f l + f x.
Proof. rewrite sumZ_app, sumZ_cons. change (sumZ f []) with 0. lia. Qed.

Section loop.
Context (p : StakePool) (v : Pubkey) (percent start : Z).
Hypothesis Hp : pool_inv p.
Hypothesis Hpercent : 0 < percent <= 100.
Hypothesis Hmax : sp_total_staked p + map_sum ur_amount (sp_unstake_requests p) <= u64_max.

Lemma direct_stake_nonneg o : 0 <= direct_stake p v o.
Proof using Hp.
  unfold direct_stake. destruct (o =? v).
  - destruct (sp_stakes p !! v) as [s|] eqn:Hs; simpl; [|lia]. apply (ei_amount _ _ _ (pi_stakes p Hp v s Hs)).
  - unfold delegation. destruct (sp_delegations p !! v) as [m|] eqn:Hm; simpl; [|lia].
    destruct (m !! o) as [y|] eqn:Hy; simpl; [|lia].
    destruct (di_entries v m (inv_delegations_of p Hp v m Hm) o y Hy). lia.
Qed.

Lemma requested_range e o : 0 <= e -> 0 <= requested_loss percent (o, e) <= e.
Proof using Hpercent.
  intros He. unfold requested_loss. simpl. split; [apply Z.div_pos; nia|apply Z.div_le_upper_bound; nia].
Qed.

Lemma progress_skip o charged losses pr moss :
  progress p v charged losses pr ->
  progress p v (o :: charged) losses
    (mkSlashProgress (pr_updated pr) (pr_owner_losses pr) moss (pr_active_loss_total pr) (pr_native_loss_total pr)).
Proof.
  intros [[? ? ? ? ? ? ? Hr Hd ?] ? ? ? ?]. split; try done. split; try done.
  - intros k Hk. apply Hr. intros Hv. apply Hk in Hv. set_solver.
  - intros w Hw. apply Hd. set_solver.
Qed.

(** One owner is charged what the reference says. *)
Lemma slash_owner_ok pr charged losses o e :
  progress p v charged losses pr -> o ∉ charged -> 0 <= e <= u64_max ->
  exists pr', slash_owner v percent start pr (o, e) = Ok pr'
    /\ progress p v (if o =? MOSSSTAKE_PROTOCOL_DELEGATOR then charged else o :: charged)
         (losses ++ option_list (owner_loss p v percent start (o, e))) pr'
    /\ pr_mossstake_requested_loss pr'
       = (if o =? MOSSSTAKE_PROTOCOL_DELEGATOR
          then if requested_loss percent (o, e) =? 0 then pr_mossstake_requested_loss pr
               else requested_loss percent (o, e)
          else pr_mossstake_requested_loss pr).
Proof using Hp Hpercent Hmax.
  intros Hpr Ho He. pose proof (requested_range e o ltac:(lia)) as Hreq.
  pose proof (direct_stake_nonneg o) as Hdir. destruct pr as [upd out moss act nat_].
  unfold slash_owner. change (e * percent / 100) with (requested_loss percent (o, e)).
  unfold owner_loss. cbn [fst].
  rewrite (proj2 (Z.ltb_ge u64_max _)) by lia.
  destruct (charge_request p v charged charged _ _ upd o start (requested_loss percent (o, e))
    (pg_pool _ _ _ _ _ Hpr) Ho ltac:(lia)) as (Hc1 & Hc2 & Hceq & q & Hq & Hqc).
  set (req := requested_loss percent (o, e)) in *.
  change (slashable_request start req (sp_unstake_requests p !! (v, o)))
    with (cooling_loss p v percent start (o, e)) in *.
  set (c := cooling_loss p v percent start (o, e)) in *. cbn [pr_updated] in Hc1, Hc2, Hceq, Hq.
  destruct (Z.eqb_spec req 0) as [Hz|Hnz].
  { eexists. split; [reflexivity|].
    assert (active_loss p v percent start (o, e) = 0) as ->.
    { change (Z.min (direct_stake p v o) (req - c) = 0). lia. }
    assert (c = 0) as -> by lia. rewrite Z.eqb_refl, orb_true_r. cbn [option_list]. rewrite app_nil_r.
    destruct (o =? _); (split; [|done]); [done|]. exact (progress_skip o _ _ _ moss Hpr). }
  destruct (Z.eqb_spec o MOSSSTAKE_PROTOCOL_DELEGATOR) as [Hm|Hm].
  { eexists. split; [reflexivity|]. cbn [orb option_list]. rewrite app_nil_r. split; [|done].
    by destruct Hpr. }
  cbn [pr_updated orb]. cbv zeta. cbn [pr_updated] in Hceq, Hq. rewrite Hceq, Hq. cbn [and_then].
  rewrite (proj2 (checked_sub_Some req c (req - c))) by lia. cbn [or_err].
  set (x := active_loss p v percent start (o, e)).
  assert (0 <= x /\ sumZ ol_active_stake losses + x <= sp_total_staked p
    /\ exists q', (if o =? v then slash_self_bond v (req - c) q else slash_delegation v o (req - c) q) = Ok (x, q')
       /\ pool_charged p v (o :: charged) (o :: charged) (sumZ ol_active_stake losses + x)
            (sumZ ol_cooling_down_stake losses + c) q') as (Hx & Hxt & q' & -> & Hqc').
  { destruct (Z.eqb_spec o v) as [->|Hne].
    - apply (charge_self p v _ _ _ _ _ _ Hqc); [done|lia].
    - apply (charge_delegation p v _ _ _ _ _ _ _ Hqc); [done|done|lia]. }
  destruct Hpr as [Hpc Hl Ha Hn Hnn]. cbn in Hl, Ha, Hn. pose proof (loss_totals losses) as Hlt.
  destruct (losses_nonneg losses Hnn) as [Hna Hnc]. cbn [and_then].
  rewrite (proj2 (checked_add64_Some x c (x + c))) by lia. cbn [or_err].
  destruct (Z.eqb_spec (x + c) 0) as [Hxc|Hxc].
  { eexists. split; [reflexivity|]. cbn [option_list]. rewrite app_nil_r. split; [|done].
    replace x with 0 in Hqc' by lia. replace c with 0 in Hqc' by lia. rewrite !Z.add_0_r in Hqc'. by split. }
  cbn [pr_active_loss_total pr_native_loss_total pr_owner_losses pr_mossstake_requested_loss].
  rewrite (proj2 (checked_add64_Some act x (act + x))) by lia. cbn [or_err].
  rewrite (proj2 (checked_add64_Some nat_ (x + c) (nat_ + (x + c)))) by lia. cbn [or_err].
  eexists. split; [reflexivity|]. split; [|done].
  change (option_list (Some ?l)) with [l].
  split; [rewrite !sumZ_snoc; exact Hqc'|by cbn; rewrite Hl|rewrite sumZ_snoc; cbn [ol_active_stake pr_active_loss_total]; lia
    |rewrite sumZ_snoc; unfold loss_total at 2; cbn [ol_active_stake ol_cooling_down_stake pr_native_loss_total]; lia|].
  apply Forall_app. split; [done|]. apply Forall_singleton. simpl. lia.
Qed.

Definition moss_request (m : Z) (entry : Pubkey * Z) : Z :=
  if (entry.1 =? MOSSSTAKE_PROTOCOL_DELEGATOR) && negb (requested_loss percent entry =? 0)
  then requested_loss percent entry else m.

Lemma slash_loop l : forall charged losses pr,
  progress p v charged losses pr -> NoDup l.*1 -> (forall o, o ∈ l.*1 -> o ∉ charged) ->
  Forall (fun x => 0 <= x.2 <= u64_max) l -> MOSSSTAKE_PROTOCOL_DELEGATOR ∉ charged ->
  exists charged' pr', try_fold (slash_owner v percent start) pr l = Ok pr'
    /\ progress p v charged' (losses ++ omap (owner_loss p v percent start) l) pr'
    /\ MOSSSTAKE_PROTOCOL_DELEGATOR ∉ charged'
    /\ pr_mossstake_requested_loss pr' = foldl moss_request (pr_mossstake_requested_loss pr) l.
Proof using Hp Hpercent Hmax.
  induction l as [|[o e] l IH]; intros charged losses pr Hpr Hnd Hfresh Hrange Hmoss.
  { exists charged, pr. rewrite app_nil_r. done. }
  cbn [fmap list_fmap fst] in Hnd, Hfresh. apply NoDup_cons in Hnd as [Hol Hnd].
  apply Forall_cons in Hrange as [He Hrange].
  destruct (slash_owner_ok pr charged losses o e Hpr ltac:(apply Hfresh; left) He) as (pr1 & Hpr1 & Hprog & Hm1).
  cbn [try_fold]. rewrite Hpr1. cbn [and_then].
  edestruct IH as (charged' & pr' & Hrun & Hprog' & Hmoss' & Hm'); [exact Hprog|done| |done| |].
  { intros w Hw. destruct (Z.eqb_spec o MOSSSTAKE_PROTOCOL_DELEGATOR); [apply Hfresh; by right|].
    apply not_elem_of_cons. split; [by intros ->|apply Hfresh; by right]. }
  { destruct (Z.eqb_spec o MOSSSTAKE_PROTOCOL_DELEGATOR); [done|]. by apply not_elem_of_cons. }
  exists charged', pr'. split; [done|]. split; [|split; [done|]].
  - rewrite <- app_assoc in Hprog'.
    replace (omap _ ((o, e) :: l)) with (option_list (owner_loss p v percent start (o, e)) ++ omap (owner_loss p v percent start) l); [done|].
    cbn [omap list_omap]. by destruct (owner_loss _ _ _ _ _).
  - rewrite Hm', Hm1. cbn [foldl]. f_equal. unfold moss_request. cbn [fst].
    destruct (o =? _), (requested_loss percent (o, e) =? 0); done.
Qed.

Lemma moss_request_none m l : MOSSSTAKE_PROTOCOL_DELEGATOR ∉ l.*1 -> foldl moss_request m l = m.
Proof.
  revert m. induction l as [|[o e] l IH]; intros m Hn; [done|]. cbn [fmap list_fmap fst] in Hn.
  apply not_elem_of_cons in Hn as [Hne Hn]. cbn [foldl]. rewrite IH by done. unfold moss_request. cbn [fst].
  by rewrite (proj2 (Z.eqb_neq _ _)).
Qed.

Lemma moss_request_exposure m :
  foldl moss_request 0 (btree m)
  = from_option (fun e => requested_loss percent (MOSSSTAKE_PROTOCOL_DELEGATOR, e)) 0
      (m !! MOSSSTAKE_PROTOCOL_DELEGATOR).
Proof.
  assert (NoDup (btree m).*1) as Hnd by (rewrite btree_perm; apply NoDup_fst_map_to_list).
  destruct (m !! MOSSSTAKE_PROTOCOL_DELEGATOR) as [e|] eqn:He; simpl.
  - apply elem_of_btree, list_elem_of_split in He as (l1 & l2 & Hl). rewrite Hl in Hnd |- *.
    rewrite fmap_app in Hnd. apply NoDup_app in Hnd as (_ & Hd & Hnd). cbn [fmap list_fmap fst] in Hnd, Hd.
    apply NoDup_cons in Hnd as [Hn2 _].
    rewrite foldl_app, (moss_request_none 0 l1) by (intros Hin; eapply Hd; [exact Hin|left]).
    cbn [foldl]. rewrite moss_request_none by done. unfold moss_request. cbn [fst]. rewrite Z.eqb_refl. simpl.
    destruct (Z.eqb_spec (requested_loss percent (MOSSSTAKE_PROTOCOL_DELEGATOR, e)) 0); [|done]. simpl. lia.
  - apply moss_request_none. intros ([o e] & Heq & Hin)%list_elem_of_fmap. simpl in Heq. subst o.
    apply elem_of_btree in Hin. congruence.
Qed.
End loop.

(** *** The whole slash *)

Lemma slash_v2_Ok {A} (r : result A V2Error) a : slash_v2 r = Ok a <-> r = Ok a.
Proof. destruct r; simpl; split; intros; simplify_eq; done. Qed.

Lemma finish_slash_Ok v slot pr q :
  finish_slash v slot pr = Ok q ->
  exists st, q = set_sp_staking_v2_state st
    (set_sp_total_slashed (sp_total_slashed (pr_updated pr) + pr_native_loss_total pr)
       (settled v (pr_active_loss_total pr) (pr_updated pr)))
  /\ same_epoch (sp_staking_v2_state (pr_updated pr)) st
  /\ StakePool_validate_v2_invariants q = Ok tt.
Proof.
  unfold finish_slash. intros (s & Hs & H)%or_err_Ok. apply or_err_Ok in H as (t & Ht%checked_sub_Some & H).
  apply or_err_Ok in H as (n & Hn%checked_add64_Some & H). apply and_then_Ok in H as (u & Hu & H).
  apply and_then_Ok in H as ([] & Hval%slash_v2_Ok & [= <-]).
  set (base := set_sp_total_slashed n _) in Hu.
  assert (base = set_sp_total_slashed (sp_total_slashed (pr_updated pr) + pr_native_loss_total pr)
       (settled v (pr_active_loss_total pr) (pr_updated pr))) as Hb.
  { unfold base, settled. rewrite Hs. destruct Ht as [-> _], Hn as [-> _]. done. }
  assert (sp_staking_v2_state base = sp_staking_v2_state (pr_updated pr)) as Hsame by done.
  rewrite <- Hb, <- Hsame. clearbody base. clear Hb Hsame.
  assert (u = base -> exists st, u = set_sp_staking_v2_state st base
    /\ same_epoch (sp_staking_v2_state base) st /\ StakePool_validate_v2_invariants u = Ok tt) as Hid.
  { intros ->. exists (sp_staking_v2_state base). split_and!; [by destruct base|reflexivity|done]. }
  destruct (sp_staking_v2_state base) as [st|] eqn:Hst; [|apply Hid; by injection Hu].
  case_bool_decide; [|apply Hid; by injection Hu].
  apply slash_v2_Ok, checkpoint_inner_frame in Hu as (st' & -> & Hs'). rewrite Hst in Hs'. by exists st'.
Qed.

(** An accepted pool has every validator of the epoch below the saturation limit. *)
Lemma validated_saturation q st w s :
  StakePool_validate_v2_invariants q = Ok tt -> pool_inv q -> sp_staking_v2_state q = Some st ->
  epoch_known q st -> is_Some (v2_validators st !! w) -> sp_stakes q !! w = Some s ->
  exists bps, validator_saturation_cap_bps (Z.of_nat (size (v2_validators st))) = Ok bps
    /\ effective s <= div_ceil (epoch_stake q st * bps) 10000.
Proof.
  intros H Hq Hst Hknown [acc Hacc] Hs. unfold StakePool_validate_v2_invariants in H.
  apply and_then_Ok in H as (_ & _ & H). apply and_then_Ok in H as (_ & _ & H). rewrite Hst in H.
  unfold StakePool_validate_staking_v2_state in H. do 5 apply guard_Ok in H as [_ H].
  apply and_then_Ok in H as (_ & _ & H). apply guard_Ok in H as [_ H]. apply or_err_Ok in H as (cur & _ & H).
  apply and_then_Ok in H as (_ & _ & H). apply guard_Ok in H as [_ H].
  rewrite (epoch_stake_fold q st Hq Hknown) in H. cbn [lift_pool and_then] in H.
  destruct (validator_saturation_cap_bps _) as [bps|e]; [|done]. exists bps. split; [done|].
  cbn [lift_pool and_then] in H. unfold mul_div_ceil_u64 in H. cbn [Z.eqb] in H.
  destruct (_ <=? u64_max); [|done]. cbn [lift_pool and_then] in H.
  apply (try_fold_unit _ (fun x => validate_accounting q st cur (div_ceil (epoch_stake q st * bps) 10000) tt x = Ok tt))
    in H; [|done].
  rewrite Forall_forall in H. specialize (H (w, acc) (proj2 (elem_of_map_to_list _ _ _) Hacc)).
  unfold validate_accounting in H. do 3 apply guard_Ok in H as [_ H]. apply or_err_Ok in H as (ex & _ & H).
  apply and_then_Ok in H as (t & _ & H). do 2 apply guard_Ok in H as [_ H]. apply or_err_Ok in H as (s' & Hs' & H).
  apply guard_Ok in H as [Hl%Z.ltb_ge _]. rewrite Hs in Hs'. injection Hs' as <-. by rewrite (inv_total_stake q Hq w s Hs) in Hl.
Qed.

(** The result of an accepted slash, in terms of the pool before it. *)
Record slashed_exposure (p : StakePool) (v : Pubkey) (percent : Z) (snapshot : EpochSlashExposureSnapshot)
  (exposure : ValidatorSlashExposure) (settlement : StakingV2SlashSettlement) (q : StakePool) : Prop := {
  sx_losses : sl_owner_losses settlement
    = omap (owner_loss p v percent (ess_start_slot snapshot)) (btree (exposed_owners v exposure));
  sx_nonneg : Forall (fun l => 0 <= ol_active_stake l /\ 0 <= ol_cooling_down_stake l) (sl_owner_losses settlement);
  sx_moss : sl_mossstake_requested_loss settlement
    = from_option (fun e => requested_loss percent (MOSSSTAKE_PROTOCOL_DELEGATOR, e)) 0
        (exposed_owners v exposure !! MOSSSTAKE_PROTOCOL_DELEGATOR);
  sx_total : sp_total_staked q = sp_total_staked p - sumZ ol_active_stake (sl_owner_losses settlement);
  sx_pending : map_sum ur_amount (sp_unstake_requests q)
    = map_sum ur_amount (sp_unstake_requests p) - sumZ ol_cooling_down_stake (sl_owner_losses settlement);
  sx_slashed : sp_total_slashed q = sp_total_slashed p + sumZ loss_total (sl_owner_losses settlement);
  sx_others : forall w, w <> v ->
    sp_stakes q !! w = sp_stakes p !! w /\ sp_delegations q !! w = sp_delegations p !! w;
  sx_offender : exists s, sp_stakes q !! v = Some s /\ si_is_active s = false;
  sx_moss_kept : v <> MOSSSTAKE_PROTOCOL_DELEGATOR ->
    delegation q v MOSSSTAKE_PROTOCOL_DELEGATOR = delegation p v MOSSSTAKE_PROTOCOL_DELEGATOR;
  sx_epoch : same_epoch (sp_staking_v2_state p) (sp_staking_v2_state q);
  sx_inv : pool_inv q;
}.

Definition owners_u64 (v : Pubkey) (exposure : ValidatorSlashExposure) : Prop :=
  map_Forall (fun _ e => 0 <= e <= u64_max) (exposed_owners v exposure).

Lemma slash_inversion v offense percent slot p settlement q :
  StakePool_apply_staking_v2_equivocation_slash v offense percent slot p = Ok (settlement, q) ->
  exists st snapshot exposure pr,
    sp_staking_v2_state p = Some st /\ v2_slash_exposure_snapshots st !! slot_to_epoch offense = Some snapshot
    /\ ess_validators snapshot !! v = Some exposure /\ 0 <> percent /\ percent <= 100
    /\ try_fold (slash_owner v percent (ess_start_slot snapshot)) (mkSlashProgress p [] 0 0 0)
         (btree (exposed_owners v exposure)) = Ok pr
    /\ finish_slash v slot pr = Ok q
    /\ settlement = mkSlashSettlement v (slot_to_epoch offense) percent (pr_owner_losses pr)
         (pr_mossstake_requested_loss pr).
Proof.
  unfold StakePool_apply_staking_v2_equivocation_slash. intros [Hpc H]%guard_Ok.
  apply orb_false_iff in Hpc as [H0%Z.eqb_neq H1%Z.ltb_ge]. do 2 apply guard_Ok in H as [_ H].
  apply and_then_Ok in H as (_ & _ & H). apply or_err_Ok in H as (st & Hst & H).
  apply or_err_Ok in H as (snapshot & Hsn & H). apply or_err_Ok in H as (exposure & Hex & H).
  apply guard_Ok in H as [_ H]. apply and_then_Ok in H as (pr & Hpr & H).
  apply and_then_Ok in H as (u & Hu & [= <- <-]). exists st, snapshot, exposure, pr.
  split_and!; done || congruence.
Qed.

(** A slash that is accepted found the offender's stake record. *)
Lemma slash_owner_known v percent start pr x pr' :
  slash_owner v percent start pr x = Ok pr' ->
  is_Some (sp_stakes (pr_updated pr') !! v) -> is_Some (sp_stakes (pr_updated pr) !! v).
Proof.
  destruct x as [o e]. unfold slash_owner. intros [_ H]%guard_Ok.
  destruct (_ =? 0); [by injection H as <-|]. destruct (o =? _); [by injection H as <-|]. cbv zeta in H.
  apply and_then_Ok in H as (q & Hq & H). apply or_err_Ok in H as (rem & _ & H).
  apply and_then_Ok in H as ([act q'] & Hq' & H). apply or_err_Ok in H as (loss & _ & H).
  assert (sp_stakes q = sp_stakes (pr_updated pr)) as Hs.
  { destruct (0 <? _); [|by injection Hq as <-]. apply or_err_Ok in Hq as (r & _ & Hq).
    by apply or_err_Ok in Hq as (t & _ & [= <-]). }
  assert (is_Some (sp_stakes q' !! v) -> is_Some (sp_stakes q !! v)) as Hk.
  { destruct (o =? v).
    - apply or_err_Ok in Hq' as (i & Hi & _). intros _. by exists i.
    - unfold slash_delegation in Hq'. destruct (0 <? Z.min (delegation q v o) rem); [|injection Hq' as _ <-; done].
      apply or_err_Ok in Hq' as (m & _ & Hq'). apply or_err_Ok in Hq' as (a & _ & Hq').
      apply or_err_Ok in Hq' as (b & _ & Hq'). apply or_err_Ok in Hq' as (i & Hi & _). intros _. by exists i. }
  rewrite <- Hs. destruct (loss =? 0); [injection H as <-; exact Hk|].
  apply or_err_Ok in H as (at_ & _ & H). by apply or_err_Ok in H as (nt & _ & [= <-]).
Qed.

Lemma slash_known v offense percent slot p r :
  StakePool_apply_staking_v2_equivocation_slash v offense percent slot p = Ok r -> is_Some (sp_stakes p !! v).
Proof.
  destruct r as [settlement q]. intros (st & sn & ex & pr & _ & _ & _ & _ & _ & Hrun & Hfin & _)%slash_inversion.
  apply or_err_Ok in Hfin as (s & Hs & _).
  assert (forall l a b, try_fold (slash_owner v percent (ess_start_slot sn)) a l = Ok b ->
    is_Some (sp_stakes (pr_updated b) !! v) -> is_Some (sp_stakes (pr_updated a) !! v)) as Hl.
  { induction l as [|x l IH]; intros a b H Hb; cbn [try_fold] in H; [by injection H as <-|].
    apply and_then_Ok in H as (c & Hc & H). eapply slash_owner_known; [exact Hc|]. by eapply IH. }
  apply (Hl _ _ _ Hrun). by exists s.
Qed.

Section slash.
Context (p : StakePool) (v : Pubkey) (offense percent slot : Z).
Hypothesis Hp : pool_inv p.
Hypothesis Hpercent : 0 <= percent.
Hypothesis Hmax : sp_total_staked p + map_sum ur_amount (sp_unstake_requests p) <= u64_max.

Lemma slash_spec settlement q st snapshot exposure :
  sp_staking_v2_state p = Some st -> v2_slash_exposure_snapshots st !! slot_to_epoch offense = Some snapshot ->
  ess_validators snapshot !! v = Some exposure -> owners_u64 v exposure ->
  StakePool_apply_staking_v2_equivocation_slash v offense percent slot p = Ok (settlement, q) ->
  slashed_exposure p v percent snapshot exposure settlement q /\ StakePool_validate_v2_invariants q = Ok tt.
Proof using Hp Hpercent Hmax.
  intros Hst Hsn Hex Hu Hslash. destruct (slash_known _ _ _ _ _ _ Hslash) as [s Hs].
  apply slash_inversion in Hslash as (st' & sn' & ex' & pr & Hst' & Hsn' & Hex' & H0 & H1 & Hrun & Hfin & ->).
  simplify_eq. set (owners := btree (exposed_owners v exposure)) in *.
  destruct (slash_loop p v percent (ess_start_slot snapshot) Hp ltac:(lia) Hmax owners [] []
    (mkSlashProgress p [] 0 0 0)) as (charged & pr' & Hrun' & [Hpool Hl Ha Hn Hnn] & Hmoss & Hm).
  - split; try done. by apply (charge_start p v s).
  - unfold owners. rewrite btree_perm. apply NoDup_fst_map_to_list.
  - intros o _. apply not_elem_of_nil.
  - apply (Forall_btree (fun _ e => 0 <= e <= u64_max)). exact Hu.
  - apply not_elem_of_nil.
  - rewrite Hrun in Hrun'. injection Hrun' as <-. rewrite app_nil_l in *.
    apply finish_slash_Ok in Hfin as (st1 & -> & Hse & Hval). split; [|done].
    destruct Hpool as [Hinv Hk Htot Hsl Hv2 Hso Hde Hrq Hdi Hpe].
    destruct (settled_frame v (pr_active_loss_total pr) (pr_updated pr)) as (Hfd & Hfr & Hft).
    rewrite Ha in *. split; cbn [sl_owner_losses sl_mossstake_requested_loss]; rewrite ?Hl; try done.
    + rewrite Hm. by apply moss_request_exposure.
    + cbn. rewrite Hft by done. by rewrite Htot.
    + cbn. by rewrite Hfr.
    + cbn. by rewrite Hsl, Hn.
    + intros w Hw. cbn. rewrite Hfd. split; [|by apply Hde]. rewrite <- (Hso w Hw). unfold settled.
      destruct Hk as [s' Hs']. rewrite Hs'. cbn. by rewrite lookup_insert_ne.
    + destruct Hk as [s' Hs']. exists (set_si_is_active false s'). split; [|done]. cbn. by apply settled_lookup.
    + intros Hne. specialize (Hdi _ Hmoss). unfold direct_stake in Hdi.
      rewrite (proj2 (Z.eqb_neq MOSSSTAKE_PROTOCOL_DELEGATOR v)) in Hdi by congruence. rewrite <- Hdi.
      unfold delegation. cbn. by rewrite Hfd.
    + cbn. by rewrite <- Hv2.
    + exact (inv_frame _ (sp_total_slashed (pr_updated pr) + pr_native_loss_total pr) _ st1 Hinv).
Qed.
End slash.

(** The epoch's stake after a change of one member's record. *)
Lemma epoch_stake_change p q st st' v :
  dom (v2_validators st') = dom (v2_validators st) -> is_Some (v2_validators st !! v) ->
  (forall w, w <> v -> sp_stakes q !! w = sp_stakes p !! w) ->
  epoch_stake q st' = epoch_stake p st - stake_of p v + stake_of q v.
Proof.
  intros Hd Hv Hw. unfold epoch_stake.
  assert ((map_to_list (v2_validators st')).*1 ≡ₚ (map_to_list (v2_validators st)).*1) as Hperm.
  { apply NoDup_Permutation; [apply NoDup_fst_map_to_list..|]. intros k. rewrite !elem_of_keys, <- !elem_of_dom. by rewrite Hd. }
  rewrite (sumZ_perm _ _ _ Hperm). apply elem_of_keys in Hv. pose proof (NoDup_fst_map_to_list (v2_validators st)) as Hnd.
  apply list_elem_of_split in Hv as (l1 & l2 & Hl). rewrite Hl in Hnd |- *. rewrite !sumZ_app, !sumZ_cons.
  apply NoDup_app in Hnd as (_ & Hn1 & [Hn2 _]%NoDup_cons).
  assert (forall l, v ∉ l -> sumZ (stake_of q) l = sumZ (stake_of p) l) as Hsame.
  { intros l Hn. apply sumZ_ext. intros k Hk. unfold stake_of. rewrite Hw; [done|]. by intros ->. }
  rewrite (Hsame l2 Hn2), (Hsame l1); [lia|]. intros Hin. eapply Hn1; [exact Hin|left].
Qed.

(** The offender's effective stake falls with the pool's total. *)
Lemma offender_stake p q v :
  pool_inv p -> pool_inv q -> is_Some (sp_stakes p !! v) -> is_Some (sp_stakes q !! v) ->
  (forall w, w <> v -> sp_stakes q !! w = sp_stakes p !! w) ->
  stake_of q v = stake_of p v + (sp_total_staked q - sp_total_staked p).
Proof.
  intros Hp Hq [s Hs] [s' Hs'] Hw. rewrite (pi_total p Hp), (pi_total q Hq). unfold stake_of. rewrite Hs, Hs'. simpl.
  assert (sp_stakes q = <[v := s']> (sp_stakes p)) as ->.
  { apply map_eq. intros w. destruct (decide (w = v)) as [->|Hne]; [by rewrite lookup_insert_eq|].
    rewrite lookup_insert_ne by done. by apply Hw. }
  rewrite (map_sum_insert effective _ v s s') by done. lia.
Qed.

(** The protocol's delegations are not charged here. *)
Lemma slash_keeps_allocations p v percent snapshot exposure settlement q :
  pool_inv p -> slashed_exposure p v percent snapshot exposure settlement q ->
  StakePool_mossstake_allocations q = StakePool_mossstake_allocations p.
Proof.
  intros Hp Hs. apply map_eq. intros w. rewrite !allocations_lookup.
  destruct (decide (w = v)) as [->|Hne]; [|by rewrite (proj2 (sx_others _ _ _ _ _ _ _ Hs w Hne))].
  pose proof (sx_moss_kept _ _ _ _ _ _ _ Hs) as Hk. pose proof (sx_inv _ _ _ _ _ _ _ Hs) as Hq.
  assert (forall r, pool_inv r -> match sp_delegations r !! v ≫= (.!! MOSSSTAKE_PROTOCOL_DELEGATOR) with
    | Some a => 0 < a /\ v <> MOSSSTAKE_PROTOCOL_DELEGATOR | None => True end) as Hpos.
  { intros r Hr. destruct (sp_delegations r !! v) as [m|] eqn:Hm; [|done]. cbn.
    destruct (m !! _) as [a|] eqn:Ha; [|done].
    destruct (di_entries v m (inv_delegations_of r Hr v m Hm) _ a Ha). by split. }
  pose proof (Hpos p Hp) as Hpp. pose proof (Hpos q Hq) as Hpq. unfold delegation in Hk.
  destruct (sp_delegations q !! v ≫= _) as [a|], (sp_delegations p !! v ≫= _) as [b|]; cbn in *; try done.
  - f_equal. apply Hk, Hpq.
  - specialize (Hk (proj2 Hpq)). lia.
  - specialize (Hk (proj2 Hpp)). lia.
Qed.

(** C32.  The equivocation slash charges exactly the stake that voted: when it is accepted,
    every owner whose stake was part of the offender's frozen power in the epoch of the
    offense loses the slashed fraction of that exposure, or what it still has there, first
    from its unstake request if that began in the offense epoch or later and then from its
    active stake, computed from the pool before the slash whatever the order of the loop;
    the network total falls by the active losses, the pending requests by the cooling
    ones, the MossStake part is left to the liquid pool, no other validator's stakes or
    delegations change, the offender is deactivated, and the pool keeps its invariants. *)
Theorem equivocation_slash_exact p v offense percent slot settlement q st snapshot exposure :
  pool_inv p -> sp_total_staked p + map_sum ur_amount (sp_unstake_requests p) <= u64_max -> 0 <= percent ->
  sp_staking_v2_state p = Some st -> v2_slash_exposure_snapshots st !! slot_to_epoch offense = Some snapshot ->
  ess_validators snapshot !! v = Some exposure -> owners_u64 v exposure ->
  StakePool_apply_staking_v2_equivocation_slash v offense percent slot p = Ok (settlement, q) ->
  slashed_exposure p v percent snapshot exposure settlement q
  /\ forall l, l ∈ sl_owner_losses settlement ->
       exists e, exposed_owners v exposure !! ol_owner l = Some e /\ loss_total l <= e * percent / 100.
Proof.
  intros Hp Hmax Hpc Hst Hsn Hex Hu H.
  destruct (slash_spec p v offense percent slot Hp Hpc Hmax settlement q st snapshot exposure) as [Hs _]; try done.
  split; [done|]. intros l. rewrite (sx_losses _ _ _ _ _ _ _ Hs).
  intros ([o e] & Hin%elem_of_btree & Hl)%list_elem_of_omap. exists e. unfold owner_loss in Hl.
  destruct (_ || _); [done|]. injection Hl as <-. split; [done|].
  unfold loss_total, active_loss. cbn [ol_active_stake ol_cooling_down_stake fst].
  change (e * percent / 100) with (requested_loss percent (o, e)). lia.
Qed.

(** A saturated validator shields equivocators: the accepted pool must have every
    validator of the epoch within the saturation share of the epoch's remaining stake, so
    the slash of one validator is refused whenever another one would then be above it.
    Twenty validators with equal stakes are each exactly at the mature cap of five
    percent: none of them can be slashed at all. *)
Theorem saturation_blocks_slash p v w offense percent slot st snapshot exposure bps :
  pool_inv p -> sp_total_staked p + map_sum ur_amount (sp_unstake_requests p) <= u64_max -> 0 <= percent ->
  sp_staking_v2_state p = Some st -> epoch_known p st ->
  is_Some (v2_validators st !! v) -> is_Some (v2_validators st !! w) -> w <> v ->
  v2_slash_exposure_snapshots st !! slot_to_epoch offense = Some snapshot ->
  ess_validators snapshot !! v = Some exposure -> owners_u64 v exposure ->
  validator_saturation_cap_bps (Z.of_nat (size (v2_validators st))) = Ok bps ->
  let losses := omap (owner_loss p v percent (ess_start_slot snapshot)) (btree (exposed_owners v exposure)) in
  div_ceil ((epoch_stake p st - sumZ ol_active_stake losses) * bps) 10000 < stake_of p w ->
  exists e, StakePool_apply_staking_v2_equivocation_slash v offense percent slot p = Err e.
Proof.
  intros Hp Hmax Hpc Hst Hknown Hv Hw Hne Hsn Hex Hu Hbps losses Hlt.
  destruct (StakePool_apply_staking_v2_equivocation_slash v offense percent slot p) as [[settlement q]|e] eqn:H;
    [exfalso|by exists e].
  assert (is_Some (sp_stakes p !! v)) as Hk by (destruct Hv as [a Ha]; by apply (Hknown v a)).
  destruct (slash_spec p v offense percent slot Hp Hpc Hmax settlement q st snapshot exposure) as [Hs Hval]; try done.
  destruct Hs as [Hl _ _ Ht _ _ Ho (so & Hso & _) _ He Hq]. rewrite Hst in He.
  destruct (sp_staking_v2_state q) as [st'|] eqn:Hst'; [|done]. destruct He as [Hd _].
  destruct Hw as [aw Hw]. destruct (Hknown w aw Hw) as [sw Hsw].
  assert (epoch_known q st') as Hknown'.
  { intros k a Hka. apply elem_of_dom_2 in Hka. rewrite Hd in Hka. apply elem_of_dom in Hka as [a' Ha'].
    destruct (decide (k = v)) as [->|Hkv]; [by exists so|]. rewrite (proj1 (Ho k Hkv)). by apply (Hknown k a'). }
  destruct (validated_saturation q st' w sw Hval Hq Hst' Hknown') as (bps' & Hbps' & Hle).
  { apply elem_of_dom. rewrite Hd. by eapply elem_of_dom_2. }
  { by rewrite (proj1 (Ho w Hne)). }
  rewrite <- size_dom, Hd, size_dom, Hbps in Hbps'. injection Hbps' as <-.
  assert (forall w, w <> v -> sp_stakes q !! w = sp_stakes p !! w) as Ho' by (intros k Hk'; by apply Ho).
  rewrite (epoch_stake_change p q st st' v Hd Hv Ho') in Hle.
  rewrite (offender_stake p q v Hp Hq Hk ltac:(by exists so) Ho'), Ht, Hl in Hle. fold losses in Hle.
  unfold stake_of in Hlt. rewrite Hsw in Hlt. simpl in Hlt.
  replace (epoch_stake p st - stake_of p v + (stake_of p v + (sp_total_staked p - sumZ ol_active_stake losses - sp_total_staked p)))
    with (epoch_stake p st - sumZ ol_active_stake losses) in Hle by lia.
  lia.
Qed.

(** ** Sample epochs

    Validators with twice the minimum bond and one delegator each. *)

Definition equal_epoch (validators : list Pubkey) : StakePool :=
  let bond p v := match StakePool_stake v (2 * MIN_VALIDATOR_STAKE) 0 p with Ok p => p | Err _ => p end in
  let delegate p v := match StakePool_delegate (100 + v) v 1000 p with Ok p => p | Err _ => p end in
  let p := foldl delegate (foldl bond StakePool_new validators) validators in
  match StakePool_initialize_staking_v2 0 validators p with Ok p => p | Err _ => p end.

Definition three_validators : StakePool := Eval vm_compute in equal_epoch [1; 2; 3].
Definition twenty_validators : StakePool := Eval vm_compute in equal_epoch (Z.of_nat <$> seq 1 20).

Lemma sample_inv p : unsignedb p = true -> StakePool_validate_invariants p = Ok tt -> pool_inv p.
Proof. intros Hu Hv. apply validate_invariants_iff; [by apply unsignedb_spec|done]. Qed.

(** The epoch state, the snapshot of epoch 0 and the exposure of validator 1. *)
Definition epoch_of (p : StakePool) : StakingV2EpochState := default sample_epoch (sp_staking_v2_state p).
Definition snapshot_of (p : StakePool) : EpochSlashExposureSnapshot :=
  default (mkEpochSlashExposureSnapshot 0 0 ∅) (v2_slash_exposure_snapshots (epoch_of p) !! 0).
Definition exposure_at (p : StakePool) : ValidatorSlashExposure :=
  default (mkValidatorSlashExposure 0 ∅) (ess_validators (snapshot_of p) !! 1).

Lemma exposure_u64 p :
  map_forallb (fun e => (0 <=? e) && (e <=? u64_max)) (exposed_owners 1 (exposure_at p)) = true ->
  owners_u64 1 (exposure_at p).
Proof. apply map_forallb_spec. intros ? e He. simpl in He. lia. Qed.

Lemma equivocation_slash_exact_witness :
  exists settlement q,
    StakePool_apply_staking_v2_equivocation_slash 1 5 30 20 three_validators = Ok (settlement, q)
    /\ sl_owner_losses settlement
       = [mkOwnerLoss 1 (30 * (2 * MIN_VALIDATOR_STAKE) / 100) 0; mkOwnerLoss 101 300 0]
    /\ sp_total_staked q
       = sp_total_staked three_validators - sumZ ol_active_stake (sl_owner_losses settlement)
    /\ pool_inv q.
Proof.
  destruct (StakePool_apply_staking_v2_equivocation_slash 1 5 30 20 three_validators) as [[settlement q]|e] eqn:H;
    [|vm_compute in H; discriminate].
  exists settlement, q. split; [reflexivity|].
  destruct (equivocation_slash_exact three_validators 1 5 30 20 settlement q (epoch_of three_validators)
    (snapshot_of three_validators) (exposure_at three_validators)) as [Hs _].
  - apply sample_inv; vm_compute; reflexivity.
  - vm_compute. discriminate.
  - discriminate.
  - vm_compute. reflexivity.
  - vm_compute. reflexivity.
  - vm_compute. reflexivity.
  - apply exposure_u64. vm_compute. reflexivity.
  - exact H.
  - split; [|split; [exact (sx_total _ _ _ _ _ _ _ Hs)|exact (sx_inv _ _ _ _ _ _ _ Hs)]].
    clear -H. vm_compute in H. injection H as <- <-. vm_compute. reflexivity.
Defined.

Lemma saturation_blocks_slash_witness :
  StakePool_validate_v2_invariants twenty_validators = Ok tt
  /\ exists e, StakePool_apply_staking_v2_equivocation_slash 1 5 30 20 twenty_validators = Err e.
Proof.
  split; [vm_compute; reflexivity|].
  apply (saturation_blocks_slash twenty_validators 1 2 5 30 20 (epoch_of twenty_validators)
    (snapshot_of twenty_validators) (exposure_at twenty_validators) 500).
  - apply sample_inv; vm_compute; reflexivity.
  - vm_compute. discriminate.
  - discriminate.
  - vm_compute. reflexivity.
  - unfold epoch_known. apply (bool_decide_unpack _). vm_compute. reflexivity.
  - eexists. vm_compute. reflexivity.
  - eexists. vm_compute. reflexivity.
  - discriminate.
  - vm_compute. reflexivity.
  - vm_compute. reflexivity.
  - apply exposure_u64. vm_compute. reflexivity.
  - vm_compute. reflexivity.
  - vm_compute. reflexivity.
Defined.
