(* ===== verification/Settlement.v ===== *)
(** * Staking V2: settlement of an epoch

    A plan of [plan_v2_epoch_rewards_for_weights] is applied by
    [apply_v2_epoch_reward_plan]: the settlement succeeds, its conservation checks
    hold, and the reward budget is accounted for to the last spore. *)

From S2P Require Import Prelude Crypto Stake Pool PoolInvariant PoolRun Rewards Validators StakingV2 RewardPlan.
From stdpp Require Import base tactics numbers list gmap.
From Stdlib Require Import ZArith Lia.

Local Open Scope Z_scope.
Local Open Scope rust_scope.

(** ** Settlement: the checks that read the pool *)

(** [p'] has the delegations and the Staking V2 state of [p], and its stake records
    differ in reward and debt fields only. *)
Record same_stakes (p p' : StakePool) : Prop := {
  ss_view : forall v,
    (fun s => (si_amount s, si_delegated_amount s, si_blocks_produced s, si_is_active s))
      <$> sp_stakes p' !! v
    = (fun s => (si_amount s, si_delegated_amount s, si_blocks_produced s, si_is_active s))
      <$> sp_stakes p !! v;
  ss_delegations : sp_delegations p' = sp_delegations p;
  ss_state : sp_staking_v2_state p' = sp_staking_v2_state p;
}.

#[global] Instance same_stakes_refl : Reflexive same_stakes.
Proof. by intros p. Qed.

#[global] Instance same_stakes_trans : Transitive same_stakes.
Proof. intros p q r [] []. split; intros; congruence. Qed.

Lemma same_stakes_lookup p p' v :
  same_stakes p p' ->
  match sp_stakes p !! v, sp_stakes p' !! v with
  | Some s, Some s' =>
      si_amount s' = si_amount s /\ si_delegated_amount s' = si_delegated_amount s
      /\ si_blocks_produced s' = si_blocks_produced s /\ si_is_active s' = si_is_active s
  | None, None => True
  | _, _ => False
  end.
Proof.
  intros Hs. pose proof (ss_view _ _ Hs v) as Hv.
  destruct (sp_stakes p !! v), (sp_stakes p' !! v); simpl in Hv; try done. by injection Hv as -> -> -> ->.
Qed.

Lemma try_fold_ext {S A E} (step step' : S -> A -> result S E) acc l :
  (forall a x, x ∈ l -> step a x = step' a x) -> try_fold step acc l = try_fold step' acc l.
Proof.
  revert acc. induction l as [|x l IH]; intros acc Hs; [done|]. cbn [try_fold].
  rewrite (Hs acc x) by left. destruct (step' acc x); [|done]. cbn [and_then].
  apply IH. intros. apply Hs. by right.
Qed.

(** Two functions that differ in their last step only. *)
Lemma guard_ext {A E} (b : bool) (e : E) (k k' : result A E) :
  k = k' -> (if b then Err e else k) = (if b then Err e else k').
Proof. by intros ->. Qed.

Lemma and_then_ext {A B E} (r : result A E) (k k' : A -> result B E) :
  (forall a, k a = k' a) -> and_then r k = and_then r k'.
Proof. intros Hk. by destruct r; simpl. Qed.

Lemma or_err_ext {A B E} (o : option A) (e : E) (k k' : A -> result B E) :
  (forall a, k a = k' a) -> or_err o e k = or_err o e k'.
Proof. intros Hk. by destruct o; simpl. Qed.

Ltac same_step :=
  lazymatch goal with
  | |- (if _ then _ else _) = _ => apply guard_ext
  | |- and_then _ _ = _ => apply and_then_ext; intros ?
  | |- or_err _ _ _ = _ => apply or_err_ext; intros ?
  end.

Lemma concentration_loop_Ok p :
  try_fold validate_concentration tt (map_to_list (sp_stakes p)) = Ok tt
  <-> map_Forall (fun v s => validate_concentration tt (v, s) = Ok tt) (sp_stakes p).
Proof.
  rewrite <- Forall_map_to_list. apply try_fold_unit. by intros [v s] _.
Qed.

Section same_checks.
Context (p p' : StakePool) (Hsame : same_stakes p p').

Lemma effective_stake_of_same total v : effective_stake_of p' total v = effective_stake_of p total v.
Proof.
  unfold effective_stake_of. pose proof (same_stakes_lookup p p' v Hsame) as Hv.
  destruct (sp_stakes p !! v) as [s|], (sp_stakes p' !! v) as [s'|]; try done. cbn [or_err].
  destruct Hv as (Ha & Hd & _). unfold StakeInfo_total_stake. by rewrite Ha, Hd.
Qed.

Lemma validate_accounting_same st e limit x :
  validate_accounting p' st e limit tt x = validate_accounting p st e limit tt x.
Proof.
  destruct x as [v a]. unfold validate_accounting. rewrite (ss_delegations _ _ Hsame).
  pose proof (same_stakes_lookup p p' v Hsame) as Hv.
  destruct (sp_stakes p !! v) as [s|], (sp_stakes p' !! v) as [s'|]; try done. cbn [or_err].
  destruct Hv as (Ha & Hd & Hb & _). unfold StakeInfo_total_stake. by rewrite Ha, Hd, Hb.
Qed.

Lemma validate_state_same st :
  StakePool_validate_staking_v2_state p' st = StakePool_validate_staking_v2_state p st.
Proof.
  unfold StakePool_validate_staking_v2_state.
  rewrite (try_fold_ext (effective_stake_of p') (effective_stake_of p))
    by (intros; apply effective_stake_of_same).
  repeat same_step. apply try_fold_ext. intros [] x _. apply validate_accounting_same.
Qed.

Lemma validate_v2_same :
  pool_inv p' -> StakePool_validate_v2_invariants p = Ok tt -> StakePool_validate_v2_invariants p' = Ok tt.
Proof.
  intros Hp' H. unfold StakePool_validate_v2_invariants in *.
  rewrite (proj2 (validate_invariants_iff p' (inv_unsigned p' Hp')) Hp'). cbn [lift_pool and_then].
  apply and_then_Ok in H as ([] & _ & H). apply and_then_Ok in H as ([] & Hc & H).
  assert (try_fold validate_concentration tt (map_to_list (sp_stakes p')) = Ok tt) as ->.
  { apply concentration_loop_Ok. apply concentration_loop_Ok in Hc. intros v s' Hv'.
    pose proof (same_stakes_lookup p p' v Hsame) as Hs. rewrite Hv' in Hs.
    destruct (sp_stakes p !! v) as [s|] eqn:Hv; [|done]. specialize (Hc v s Hv). simpl in *.
    unfold StakeInfo_total_stake in *. destruct Hs as (-> & -> & _ & ->). done. }
  cbn [and_then]. rewrite (ss_state _ _ Hsame). destruct (sp_staking_v2_state p); [|done].
  by rewrite validate_state_same.
Qed.
End same_checks.

(** ** Settlement: the loop *)

Definition no_pending (p : StakePool) : Prop :=
  map_Forall (fun _ s => si_rewards_earned s = 0) (sp_stakes p).

Definition operator_reward (plan : ValidatorEpochRewardPlan) : Z :=
  vrp_self_bond_reward plan + vrp_commission_reward plan.

Definition delegators_reward (plan : ValidatorEpochRewardPlan) : Z :=
  sumZ der_amount (vrp_delegator_rewards plan).

(** A settlement pays what was planned: the operator's part in liquid rewards and
    bootstrap debt, the delegators' part as it stands in the plan. *)
Record settled (plan : ValidatorEpochRewardPlan) (s : ValidatorEpochRewardSettlement) : Prop := {
  sd_validator : vrs_validator s = vrp_validator plan;
  sd_operator : vrs_planned_operator_reward s = operator_reward plan;
  sd_split : vrs_liquid_operator_reward s + vrs_bootstrap_debt_payment s = operator_reward plan;
  sd_nonneg : 0 <= vrs_liquid_operator_reward s /\ 0 <= vrs_bootstrap_debt_payment s;
  sd_delegators : vrs_delegator_rewards s = vrp_delegator_rewards plan;
}.

Definition payable (plan : ValidatorEpochRewardPlan) : Prop :=
  0 <= vrp_self_bond_reward plan /\ 0 <= vrp_commission_reward plan
  /\ Forall (fun r => 0 < der_amount r) (vrp_delegator_rewards plan)
  /\ operator_reward plan + delegators_reward plan = vrp_performance_adjusted_reward plan.

Lemma delegators_reward_nonneg plan : payable plan -> 0 <= delegators_reward plan.
Proof.
  intros (_ & _ & Hd & _). apply sumZ_nonneg. intros r Hr. rewrite Forall_forall in Hd.
  specialize (Hd r Hr). lia.
Qed.

Lemma put_same_stakes p v s s' :
  sp_stakes p !! v = Some s -> si_amount s' = si_amount s ->
  si_delegated_amount s' = si_delegated_amount s -> si_blocks_produced s' = si_blocks_produced s ->
  si_is_active s' = si_is_active s -> same_stakes p (put_stake v s' p).
Proof.
  intros Hv Ha Hd Hb Hact. split; [|done|done]. intros w. simpl.
  destruct (decide (w = v)) as [->|]; [|by rewrite lookup_insert_ne].
  rewrite lookup_insert_eq, Hv. simpl. congruence.
Qed.

Lemma apply_validator_Ok c n m d ss p plan s :
  pool_inv p -> sp_stakes p !! vrp_validator plan = Some s -> StakeInfo_wf s -> si_rewards_earned s = 0 ->
  payable plan -> 0 <= m -> 0 <= d -> m + d + vrp_performance_adjusted_reward plan <= u64_max ->
  exists x s',
    apply_validator c n (m, d, ss, p) plan
    = Ok (m + vrs_liquid_operator_reward x + delegators_reward plan,
          d + vrs_bootstrap_debt_payment x, ss ++ [x], put_stake (vrp_validator plan) s' p)
    /\ settled plan x /\ si_rewards_earned s' = 0
    /\ pool_inv (put_stake (vrp_validator plan) s' p)
    /\ same_stakes p (put_stake (vrp_validator plan) s' p).
Proof.
  intros Hp Hv Hwf Hz Hpay Hm Hd Hmax. pose proof (delegators_reward_nonneg plan Hpay) as Hdr.
  destruct Hpay as (Hself & Hcom & Hpos & Hsum). unfold operator_reward in Hsum.
  unfold apply_validator, checked_total at 1, checked_add64 at 1.
  destruct (Z.leb_spec (vrp_self_bond_reward plan + vrp_commission_reward plan) u64_max); [|lia].
  cbn [or_err and_then]. rewrite Hv. cbn [or_err]. rewrite Hz.
  fold (operator_reward plan). assert (0 <= operator_reward plan) by (unfold operator_reward; lia).
  unfold checked_total at 1, checked_add64 at 1. rewrite Z.add_0_l.
  destruct (Z.leb_spec (operator_reward plan) u64_max); [|unfold operator_reward in *; lia]. cbn [or_err and_then].
  pose proof (claim_rewards_conserves _ c n (add_reward_wf (operator_reward plan) c s Hwf ltac:(lia))) as Hc.
  pose proof (claim_same_owner c n (StakeInfo_add_reward (operator_reward plan) c s)) as Ho.
  destruct (StakeInfo_claim_rewards c n (StakeInfo_add_reward (operator_reward plan) c s)) as [[l b] s'].
  destruct Hc as (Hlb & Hl & Hb & Hz' & _). destruct Ho as (Ho & Ha & Hact & Hbl).
  assert (si_rewards_earned (StakeInfo_add_reward (operator_reward plan) c s) = operator_reward plan) as Hre.
  { simpl. rewrite Hz. unfold sat_add64. lia. }
  assert (try_fold (checked_total DelegatorOverflow) 0 (der_amount <$> vrp_delegator_rewards plan)
          = Ok (delegators_reward plan)) as ->.
  { apply checked_sum; [|unfold u64_max; lia|].
    - apply Forall_fmap. eapply Forall_impl; [exact Hpos|]. simpl. lia.
    - rewrite sumZ_fmap, Z.add_0_l. change (fun x => id (der_amount x)) with der_amount.
      split; [done|]. unfold operator_reward in *. lia. }
  cbn [and_then]. unfold checked_total, checked_add64. unfold operator_reward in *.
  destruct (Z.leb_spec (m + l) u64_max); [|lia]. cbn [or_err and_then].
  destruct (Z.leb_spec (m + l + delegators_reward plan) u64_max); [|lia]. cbn [or_err and_then].
  destruct (Z.leb_spec (d + b) u64_max); [|lia]. cbn [or_err and_then].
  eexists (mkValidatorEpochRewardSettlement _ _ l b _), s'. split; [reflexivity|].
  split_and!; [split; simpl; try done; unfold operator_reward; lia|done| |].
  - by apply (inv_put_same p _ s).
  - destruct Ho as (_ & ? & _). by apply (put_same_stakes p _ s).
Qed.

Lemma apply_fold c n l :
  forall m d ss p, pool_inv p -> 0 <= m -> 0 <= d -> NoDup (map vrp_validator l) ->
  Forall (fun plan => payable plan /\ exists s, sp_stakes p !! vrp_validator plan = Some s
                      /\ StakeInfo_wf s /\ si_rewards_earned s = 0) l ->
  m + d + sumZ vrp_performance_adjusted_reward l <= u64_max ->
  exists new p',
    try_fold (apply_validator c n) (m, d, ss, p) l
    = Ok (m + sumZ vrs_liquid_operator_reward new + sumZ delegators_reward l,
          d + sumZ vrs_bootstrap_debt_payment new, ss ++ new, p')
    /\ Forall2 settled l new /\ pool_inv p' /\ same_stakes p p'.
Proof.
  induction l as [|plan l IH]; intros m d ss p Hp Hm Hd Hnd Hl Hmax; cbn [try_fold].
  { exists [], p. rewrite app_nil_r. unfold sumZ. simpl. rewrite !Z.add_0_r. by split_and!. }
  apply NoDup_cons in Hnd as [Hv Hnd]. apply Forall_cons in Hl as [[Hpay (s & Hs & Hwf & Hz)] Hl].
  rewrite sumZ_cons in Hmax.
  assert (forall q, payable q -> 0 <= vrp_performance_adjusted_reward q) as Hadj.
  { intros q Hq. pose proof (delegators_reward_nonneg q Hq). destruct Hq as (? & ? & _ & <-).
    unfold operator_reward. lia. }
  assert (0 <= sumZ vrp_performance_adjusted_reward l).
  { apply sumZ_nonneg. intros q Hq. rewrite Forall_forall in Hl. by apply Hadj, Hl. }
  destruct (apply_validator_Ok c n m d ss p plan s) as (x & s' & -> & Hset & _ & Hp' & Hsame); try done; [lia|].
  pose proof (delegators_reward_nonneg plan Hpay). cbn [and_then].
  destruct Hpay as (_ & _ & _ & Hsum). destruct (sd_nonneg _ _ Hset). pose proof (sd_split _ _ Hset).
  destruct (IH (m + vrs_liquid_operator_reward x + delegators_reward plan)
    (d + vrs_bootstrap_debt_payment x) (ss ++ [x]) (put_stake (vrp_validator plan) s' p))
    as (new & p' & -> & Hall & Hpi & Hss); [done|lia|lia|done| |lia|].
  { apply Forall_forall. intros q Hq. rewrite Forall_forall in Hl.
    destruct (Hl q Hq) as [? (s2 & Hs2 & ?)]. split; [done|]. exists s2. split; [|done].
    simpl. rewrite lookup_insert_ne; [done|]. intros He. apply Hv. rewrite He. by apply list_elem_of_fmap_2. }
  exists (x :: new), p'. rewrite !sumZ_cons, <- app_assoc. split_and!; [|by constructor|done|by etrans].
  match goal with |- Ok (?a, ?b, _, _) = Ok (?a', ?b', _, _) =>
    replace a' with a by lia; replace b' with b by lia; done end.
Qed.

Lemma plan_valid_pool p budget weights perf com : plan_inputs p budget weights perf com -> pool_inv p.
Proof.
  intros [Hu Hv _ _ _ _ _]. unfold StakePool_validate_v2_invariants in Hv.
  apply and_then_Ok in Hv as ([] & Hv & _). apply validate_invariants_iff; [done|].
  by destruct (StakePool_validate_invariants p) as [[]|].
Qed.

Lemma planned_payable perf com w plan : planned perf com w plan -> payable plan.
Proof.
  intros (? & ? & _ & Hp). destruct (po_nonneg _ _ _ _ Hp) as (? & ? & ?).
  split_and!; try done. apply (po_split _ _ _ _ Hp).
Qed.

(** The plans of a planner's run can be settled: distinct known validators with
    nothing pending. *)
Lemma plan_payable p budget weights perf com plans :
  plan_inputs p budget weights perf com -> stakes_wf p -> no_pending p ->
  plans = [] \/ Forall2 (planned perf com) (ordered_weights weights) plans ->
  NoDup (map vrp_validator plans)
  /\ Forall (fun plan => payable plan /\ exists s, sp_stakes p !! vrp_validator plan = Some s
                         /\ StakeInfo_wf s /\ si_rewards_earned s = 0) plans.
Proof.
  intros [_ _ _ _ Hn Hw _] Hwf Hnp [->|Hall]; [by split; constructor|].
  assert (map vrp_validator plans = map vsw_validator (ordered_weights weights)) as Heq.
  { clear -Hall. induction Hall as [|w plan ws plans (? & ? & _ & Hp) _ IH]; [done|]. cbn [map].
    by rewrite IH, (po_validator _ _ _ _ Hp). }
  assert (Forall (fun w => is_Some (sp_stakes p !! vsw_validator w)) (ordered_weights weights)) as Hk.
  { apply Forall_fmap. rewrite sort_by_key_perm. eapply Forall_impl; [exact Hw|]. simpl. tauto. }
  split.
  - rewrite Heq. unfold ordered_weights. rewrite map_map.
    eapply NoDup_Permutation_proper; [|exact Hn]. apply Permutation_map, sort_by_key_perm.
  - apply Forall_forall. intros plan Hin. apply list_elem_of_lookup in Hin as [i Hi].
    destruct (Forall2_lookup_r _ _ _ _ _ Hall Hi) as (w & Hiw & Hp).
    split; [by eapply planned_payable|]. rewrite Forall_forall in Hk.
    destruct (Hk w) as [s Hs]; [by eapply list_elem_of_lookup_2|].
    destruct Hp as (? & ? & _ & Hp). rewrite (po_validator _ _ _ _ Hp).
    exists s. split_and!; [done|exact (Hwf _ s Hs)|exact (Hnp _ s Hs)].
Qed.

Lemma settled_sum plans ss :
  Forall2 settled plans ss ->
  sumZ vrs_liquid_operator_reward ss + sumZ vrs_bootstrap_debt_payment ss = sumZ operator_reward plans.
Proof.
  induction 1 as [|plan s plans ss Hs _ IH]; [done|]. rewrite !sumZ_cons.
  pose proof (sd_split _ _ Hs). lia.
Qed.

(** For the well-formed inputs of a completed epoch the settlement succeeds and
    conserves the reward budget exactly: liquid operator rewards and delegator
    rewards are minted, bootstrap debt payments and the performance shortfall stay
    unminted, and the four sum to the budget.  Every validator is settled for its
    plan, and every plan is the proportional one (base rewards at least the
    proportional floor, split without loss between self-bond, commission and
    delegators). *)
Theorem epoch_settlement_conserves p budget weights performance_bps commission_bps start :
  plan_inputs p budget weights performance_bps commission_bps ->
  stakes_wf p -> no_pending p ->
  exists plan settlement p',
    StakePool_plan_v2_epoch_rewards_for_weights budget weights performance_bps commission_bps p = Ok plan
    /\ StakePool_apply_v2_epoch_reward_plan plan start p = Ok (settlement, p')
    /\ ess_total_minted settlement + ess_bootstrap_debt_unminted settlement
       + esp_performance_unminted plan = budget
    /\ ess_total_minted settlement
       = sumZ vrs_liquid_operator_reward (ess_settlements settlement)
         + sumZ delegators_reward (esp_validators plan)
    /\ ess_bootstrap_debt_unminted settlement
       = sumZ vrs_bootstrap_debt_payment (ess_settlements settlement)
    /\ Forall2 settled (esp_validators plan) (ess_settlements settlement)
    /\ same_stakes p p'
    /\ (0 < budget -> 0 < sumZ weight_of (esw_validators weights) ->
        Forall2 (fun w v => budget * weight_of w / sumZ weight_of (esw_validators weights)
                              <= vrp_base_reward v
                            /\ planned performance_bps commission_bps w v)
          (ordered_weights weights) (esp_validators plan)).
Proof.
  intros Hin Hwf Hnp.
  destruct (reward_plan_conserves p budget weights performance_bps commission_bps Hin)
    as (plan & Hplan & _ & Hbud & Ha & Hu & Hadj & Hall & Hpaid).
  pose proof (plan_valid_pool _ _ _ _ _ Hin) as Hp.
  destruct (plan_payable _ _ _ _ _ (esp_validators plan) Hin Hwf Hnp Hall) as [Hnd Hpay].
  pose proof (pn_budget _ _ _ _ _ Hin).
  destruct (apply_fold start (num_reward_eligible p) (esp_validators plan) 0 0 [] p Hp)
    as (new & p' & Hf & Hset & Hp' & Hsame); [lia|lia|done|done|lia|].
  pose proof (settled_sum _ _ Hset) as Hsum.
  assert (sumZ vrp_performance_adjusted_reward (esp_validators plan)
          = sumZ operator_reward (esp_validators plan) + sumZ delegators_reward (esp_validators plan)) as Hsplit.
  { rewrite <- sumZ_add. apply sumZ_ext. intros q Hq. rewrite Forall_forall in Hpay.
    by destruct (Hpay q Hq) as [(_ & _ & _ & ->) _]. }
  set (minted := sumZ vrs_liquid_operator_reward new + sumZ delegators_reward (esp_validators plan)).
  set (debt := sumZ vrs_bootstrap_debt_payment new).
  assert (minted + debt = esp_assigned_reward plan) as Hacc by (unfold minted, debt; lia).
  assert (StakePool_apply_v2_epoch_reward_plan plan start p
          = Ok (mkEpochSecurityRewardSettlement plan minted debt new, p')) as Happ.
  { unfold StakePool_apply_v2_epoch_reward_plan. rewrite Hf. cbn [and_then app]. rewrite !Z.add_0_l.
    fold minted debt. unfold checked_total, checked_add64. rewrite Hacc.
    destruct (Z.leb_spec (esp_assigned_reward plan) u64_max); [|lia]. cbn [or_err and_then].
    rewrite Z.eqb_refl. cbn [negb].
    rewrite (validate_v2_same p p' Hsame Hp' (pn_valid _ _ _ _ _ Hin)). done. }
  eexists _, _, _. split; [exact Hplan|]. split; [exact Happ|].
  cbn [ess_total_minted ess_bootstrap_debt_unminted ess_settlements].
  split_and!; try done; [lia|]. intros Hb Ht. by apply Hpaid.
Qed.

(** ** A sample epoch

    Three validators, one of them repaying a bootstrap grant; one delegation from
    the start of the epoch and one from its middle. *)

Definition get {A E} (d : A) (r : result A E) : A := match r with Ok a => a | Err _ => d end.

Definition epoch_pool : StakePool :=
  let p := StakePool_new in
  let p := get p (StakePool_stake_with_index 1 (2 * MIN_VALIDATOR_STAKE) 0 u64_max p) in
  let p := get p (StakePool_stake_with_index 2 BOOTSTRAP_GRANT_AMOUNT 0 0 p) in
  let p := get p (StakePool_stake_with_index 3 MIN_VALIDATOR_STAKE 0 u64_max p) in
  let p := get p (StakePool_delegate 50 1 (50000 * 1000000000) p) in
  let p := get p (StakePool_initialize_staking_v2 SLOTS_PER_EPOCH [1; 2; 3] p) in
  let p := get p (StakePool_delegate 51 1 (20000 * 1000000000) p) in
  let p := get p (StakePool_checkpoint_staking_v2_validator 1 (SLOTS_PER_EPOCH + 216000) p) in
  let produced v n p :=
    put_stake v (set_si_blocks_produced n (default (StakeInfo_new v 0 0) (sp_stakes p !! v))) p in
  produced 2 60000 (produced 1 200000 p).

Definition epoch_inputs : StakingV2EpochRewardInputs :=
  get (mkStakingV2EpochRewardInputs (mkEpochStakeWeightSnapshot 0 0 0 []) ∅ ∅)
    (StakePool_staking_v2_epoch_reward_inputs (2 * SLOTS_PER_EPOCH) epoch_pool).

Lemma epoch_settlement_conserves_witness :
  exists plan settlement p',
    StakePool_plan_v2_epoch_rewards_for_weights 1000000 (eri_stake_weights epoch_inputs)
      (eri_performance_bps epoch_inputs) (eri_commission_bps epoch_inputs) epoch_pool = Ok plan
    /\ StakePool_apply_v2_epoch_reward_plan plan SLOTS_PER_EPOCH epoch_pool = Ok (settlement, p')
    /\ ess_total_minted settlement + ess_bootstrap_debt_unminted settlement
       + esp_performance_unminted plan = 1000000.
Proof.
  assert (plan_inputs epoch_pool 1000000 (eri_stake_weights epoch_inputs)
            (eri_performance_bps epoch_inputs) (eri_commission_bps epoch_inputs)) as Hin.
  { split; [|vm_compute; reflexivity|unfold u64_max; lia|vm_compute; reflexivity| | |vm_compute; discriminate].
    - apply unsignedb_spec. vm_compute. reflexivity.
    - vm_compute. repeat constructor; set_solver.
    - replace (esw_validators (eri_stake_weights epoch_inputs)) with
        [mkValidatorEpochStakeWeight 1 150000000000000 [(50, 50000000000000); (51, 10000000000000)];
         mkValidatorEpochStakeWeight 2 100000000000000 [];
         mkValidatorEpochStakeWeight 3 75000000000000 []] by (vm_compute; reflexivity).
      repeat (apply Forall_cons; split); [..|constructor].
      all: split; [split; [vm_compute; discriminate| | |split; vm_compute; discriminate]|].
      all: try (split; [vm_compute; by eexists|]; eexists _, 500; split_and!;
                [vm_compute; reflexivity|vm_compute; discriminate|vm_compute; discriminate
                |vm_compute; reflexivity|vm_compute; discriminate|vm_compute; discriminate]).
      all: simpl; repeat (apply Forall_cons; split); try apply Forall_nil_2.
      all: try (vm_compute; split; [discriminate|reflexivity]).
      all: apply (bool_decide_unpack (NoDup _)); vm_compute; exact I.
  }
  assert (stakes_wf epoch_pool) as Hwf.
  { apply Forall_map_to_list. vm_compute. repeat constructor; discriminate. }
  assert (no_pending epoch_pool) as Hnp.
  { apply Forall_map_to_list. vm_compute. repeat constructor. }
  destruct (epoch_settlement_conserves epoch_pool 1000000 (eri_stake_weights epoch_inputs)
    (eri_performance_bps epoch_inputs) (eri_commission_bps epoch_inputs) SLOTS_PER_EPOCH Hin Hwf Hnp)
    as (plan & settlement & p' & Hplan & Happ & Hsum & _).
  exists plan, settlement, p'. split; [exact Hplan|]. split; [exact Happ|exact Hsum].
Defined.
