(* ===== verification/Slashing.v ===== *)
(** * Slashing

    Models the slashing code of [core/src/consensus.rs]: offenses, evidence and
    its two verifiers, the tracker with its tiered downtime penalties, and the
    economic penalty charged to the stake pool.  The slashing percentages are
    the fields of [ConsensusParams] of [core/src/genesis.rs]. *)

From S2P Require Import Prelude Crypto Block Votes Stake.
From stdpp Require Import base tactics numbers list gmap strings.
From Stdlib Require Import ZArith Lia.

Local Open Scope Z_scope.

Inductive SlashingOffense :=
| DoubleBlock (slot : Z) (block_hash_1 block_hash_2 : Hash)
| DoubleVote (slot : Z) (vote_1 vote_2 : Vote)
| Downtime (last_active_slot current_slot missed_slots : Z)
| InvalidStateTransition (slot : Z) (description : bytes)
| Censorship (slot : Z) (censored_tx_count : Z)
| Collusion (slot : Z) (colluding_validators : list Pubkey)
| DoubleBlockV2 (header_1 header_2 : BlockHeader)
| DoublePrevoteV2 (vote_1 vote_2 : Prevote)
| DoublePrecommitV2 (vote_1 vote_2 : Precommit).

#[global] Instance SlashingOffense_eq_dec : EqDecision SlashingOffense.
Proof. solve_decision. Defined.

Record SlashingEvidence := mkSlashingEvidence {
  ev_offense : SlashingOffense;
  ev_validator : Pubkey;
  ev_evidence_slot : Z;
  ev_reporter : Pubkey;
  ev_timestamp : Z;
}.

Definition is_downtime (o : SlashingOffense) : bool :=
  match o with Downtime _ _ _ => true | _ => false end.

(** ** Evidence *)

Section evidence.
Context `{Crypto}.

(** The legacy verifier. *)
Definition SlashingEvidence_verify (ev : SlashingEvidence) : bool :=
  match ev_offense ev with
  | DoubleBlock _ block_hash_1 block_hash_2 => negb (block_hash_1 =? block_hash_2)
  | DoubleVote _ vote_1 vote_2 =>
      (vote_slot vote_1 =? vote_slot vote_2)
      && negb (vote_block_hash vote_1 =? vote_block_hash vote_2)
      && (vote_validator vote_1 =? vote_validator vote_2)
      && (vote_validator vote_1 =? ev_validator ev)
      && Vote_verify vote_1 && Vote_verify vote_2
  | Downtime last_active_slot current_slot missed_slots =>
      (missed_slots =? sat_sub current_slot last_active_slot) && (0 <? missed_slots)
  | InvalidStateTransition _ description => bool_decide (description <> [])
  | Censorship _ censored_tx_count => 0 <? censored_tx_count
  | Collusion _ colluding_validators => (2 <=? length colluding_validators)%nat
  | DoubleBlockV2 _ _ | DoublePrevoteV2 _ _ | DoublePrecommitV2 _ _ => false
  end.

(** The strict verifier of chain-domain-signed evidence. *)
Definition SlashingEvidence_verify_with_chain_id (chain_id : bytes) (ev : SlashingEvidence)
  : bool :=
  match ev_offense ev with
  | DoubleBlockV2 header_1 header_2 =>
      (hdr_slot header_1 =? hdr_slot header_2)
      && (hdr_validator header_1 =? hdr_validator header_2)
      && (hdr_validator header_1 =? ev_validator ev)
      && negb (BlockHeader_signable_hash header_1 =? BlockHeader_signable_hash header_2)
      && BlockHeader_verify_signature_with_chain_id chain_id header_1
      && BlockHeader_verify_signature_with_chain_id chain_id header_2
  | DoublePrevoteV2 vote_1 vote_2 =>
      (pv_height vote_1 =? pv_height vote_2)
      && (pv_round vote_1 =? pv_round vote_2)
      && bool_decide (pv_block_hash vote_1 <> pv_block_hash vote_2)
      && (pv_validator vote_1 =? pv_validator vote_2)
      && (pv_validator vote_1 =? ev_validator ev)
      && Prevote_verify_signature_with_chain_id chain_id vote_1
      && Prevote_verify_signature_with_chain_id chain_id vote_2
  | DoublePrecommitV2 vote_1 vote_2 =>
      (pc_height vote_1 =? pc_height vote_2)
      && (pc_round vote_1 =? pc_round vote_2)
      && bool_decide (pc_block_hash vote_1 <> pc_block_hash vote_2)
      && (pc_validator vote_1 =? pc_validator vote_2)
      && (pc_validator vote_1 =? ev_validator ev)
      && Precommit_verify_signature_with_chain_id chain_id vote_1
      && Precommit_verify_signature_with_chain_id chain_id vote_2
  | _ => false
  end.
End evidence.

Definition SlashingEvidence_offense_slot (ev : SlashingEvidence) : Z :=
  match ev_offense ev with
  | DoubleBlock slot _ _ | DoubleVote slot _ _ | InvalidStateTransition slot _
  | Censorship slot _ | Collusion slot _ => slot
  | Downtime _ current_slot _ => current_slot
  | DoubleBlockV2 header_1 _ => hdr_slot header_1
  | DoublePrevoteV2 vote_1 _ => pv_height vote_1
  | DoublePrecommitV2 vote_1 _ => pc_height vote_1
  end.

Definition SlashingEvidence_severity (ev : SlashingEvidence) : Z :=
  match ev_offense ev with
  | DoubleBlock _ _ _ => 100
  | DoubleVote _ _ _ => 80
  | Downtime _ _ missed_slots => Z.min (10 + Z.min (missed_slots / 10) 40) 50
  | InvalidStateTransition _ _ => 100
  | Censorship _ _ => 70
  | Collusion _ _ => 100
  | DoubleBlockV2 _ _ => 100
  | DoublePrevoteV2 _ _ | DoublePrecommitV2 _ _ => 80
  end.

(** ** The tracker *)

Record SlashingTracker := mkSlashingTracker {
  st_evidence : gmap Pubkey (list SlashingEvidence);
  st_slashed : gset Pubkey;
  st_permanently_banned : gset Pubkey;
  st_downtime_offense_count : gmap Pubkey Z;
  st_last_downtime_offense_slot : gmap Pubkey Z;
  st_penalty_repayment_boost : gmap Pubkey Z;
  st_suspended_until : gmap Pubkey Z;
  st_last_processed_downtime_evidence_count : gmap Pubkey nat;
}.

Definition eta_SlashingTracker (r : SlashingTracker) : SlashingTracker :=
  mkSlashingTracker (st_evidence r) (st_slashed r) (st_permanently_banned r)
    (st_downtime_offense_count r) (st_last_downtime_offense_slot r)
    (st_penalty_repayment_boost r) (st_suspended_until r)
    (st_last_processed_downtime_evidence_count r).

Definition set_st_evidence : gmap Pubkey (list SlashingEvidence) -> SlashingTracker -> SlashingTracker :=
  ltac:(setter eta_SlashingTracker st_evidence).
Definition set_st_slashed : gset Pubkey -> SlashingTracker -> SlashingTracker :=
  ltac:(setter eta_SlashingTracker st_slashed).
Definition set_st_permanently_banned : gset Pubkey -> SlashingTracker -> SlashingTracker :=
  ltac:(setter eta_SlashingTracker st_permanently_banned).
Definition set_st_downtime_offense_count : gmap Pubkey Z -> SlashingTracker -> SlashingTracker :=
  ltac:(setter eta_SlashingTracker st_downtime_offense_count).
Definition set_st_last_downtime_offense_slot : gmap Pubkey Z -> SlashingTracker -> SlashingTracker :=
  ltac:(setter eta_SlashingTracker st_last_downtime_offense_slot).
Definition set_st_penalty_repayment_boost : gmap Pubkey Z -> SlashingTracker -> SlashingTracker :=
  ltac:(setter eta_SlashingTracker st_penalty_repayment_boost).
Definition set_st_suspended_until : gmap Pubkey Z -> SlashingTracker -> SlashingTracker :=
  ltac:(setter eta_SlashingTracker st_suspended_until).
Definition set_st_last_processed_downtime_evidence_count :
  gmap Pubkey nat -> SlashingTracker -> SlashingTracker :=
  ltac:(setter eta_SlashingTracker st_last_processed_downtime_evidence_count).

Definition DOWNTIME_FORGIVENESS_SLOTS : Z := 50000.
Definition DOWNTIME_SUSPENSION_SLOTS : Z := 100.
Definition DOWNTIME_TIER2_SLASH_BPS : Z := 50.
Definition PENALTY_REPAYMENT_BOOST_SLOTS : Z := 216000.

Definition SlashingTracker_new : SlashingTracker := mkSlashingTracker ∅ ∅ ∅ ∅ ∅ ∅ ∅ ∅.

(** The duplicate check: the same kind of offense at the same place. *)
Definition same_offense (e1 e2 : SlashingOffense) : bool :=
  match e1, e2 with
  | DoubleBlock s1 _ _, DoubleBlock s2 _ _ => s1 =? s2
  | DoubleVote _ v1 _, DoubleVote _ v2 _ => vote_slot v1 =? vote_slot v2
  | DoubleBlockV2 h1 _, DoubleBlockV2 h2 _ => hdr_slot h1 =? hdr_slot h2
  | DoublePrevoteV2 v1 _, DoublePrevoteV2 v2 _ =>
      (pv_height v1 =? pv_height v2) && (pv_round v1 =? pv_round v2)
  | DoublePrecommitV2 v1 _, DoublePrecommitV2 v2 _ =>
      (pc_height v1 =? pc_height v2) && (pc_round v1 =? pc_round v2)
  | InvalidStateTransition s1 _, InvalidStateTransition s2 _ => s1 =? s2
  | Censorship s1 _, Censorship s2 _ => s1 =? s2
  | Collusion s1 _, Collusion s2 _ => s1 =? s2
  | Downtime la1 _ _, Downtime la2 _ _ => la1 =? la2
  | _, _ => false
  end.

(** [entry(validator).or_default()] stores an empty list even when the evidence
    is then refused as a duplicate (it cannot be, on an empty list). *)
Definition SlashingTracker_add_verified_evidence (ev : SlashingEvidence) (t : SlashingTracker)
  : bool * SlashingTracker :=
  let validator_evidence := default [] (st_evidence t !! ev_validator ev) in
  if existsb (fun e => same_offense (ev_offense e) (ev_offense ev)) validator_evidence then
    (false, set_st_evidence (<[ev_validator ev := validator_evidence]> (st_evidence t)) t)
  else
    (true, set_st_evidence (<[ev_validator ev := validator_evidence ++ [ev]]> (st_evidence t)) t).

Definition SlashingTracker_add_evidence `{Crypto} (ev : SlashingEvidence) (t : SlashingTracker)
  : bool * SlashingTracker :=
  if negb (SlashingEvidence_verify ev) then (false, t)
  else SlashingTracker_add_verified_evidence ev t.

Definition SlashingTracker_add_evidence_with_chain_id `{Crypto}
  (ev : SlashingEvidence) (chain_id : bytes) (t : SlashingTracker) : bool * SlashingTracker :=
  if negb (SlashingEvidence_verify_with_chain_id chain_id ev) then (false, t)
  else SlashingTracker_add_verified_evidence ev t.

Definition SlashingTracker_evidence_count (t : SlashingTracker) : Z :=
  sumZ (fun kl => Z.of_nat (length kl.2)) (map_to_list (st_evidence t)).

Definition SlashingTracker_get_downtime_offense_tier
  (t : SlashingTracker) (validator : Pubkey) (current_slot : Z) : Z :=
  let raw_count := default 0 (st_downtime_offense_count t !! validator) in
  if raw_count =? 0 then 0
  else match st_last_downtime_offense_slot t !! validator with
       | Some last_slot =>
           if DOWNTIME_FORGIVENESS_SLOTS <=? sat_sub current_slot last_slot then 0 else raw_count
       | None => raw_count
       end.

(** [e.severity() >= 70 && !matches!(e.offense, Downtime { .. })] *)
Definition severe_offense (e : SlashingEvidence) : bool :=
  (70 <=? SlashingEvidence_severity e) && negb (is_downtime (ev_offense e)).

Definition SlashingTracker_should_slash
  (t : SlashingTracker) (validator : Pubkey) (current_slot : Z) : bool :=
  match st_evidence t !! validator with
  | None => false
  | Some evidence_list =>
      if existsb severe_offense evidence_list then true
      else if existsb (fun e => is_downtime (ev_offense e)) evidence_list then
        2 <=? SlashingTracker_get_downtime_offense_tier t validator current_slot
      else false
  end.

Definition SlashingTracker_record_downtime_offense
  (validator : Pubkey) (current_slot : Z) (t : SlashingTracker) : Z * SlashingTracker :=
  let t :=
    match st_last_downtime_offense_slot t !! validator with
    | Some last_slot =>
        if DOWNTIME_FORGIVENESS_SLOTS <=? sat_sub current_slot last_slot
        then set_st_downtime_offense_count (<[validator := 0]> (st_downtime_offense_count t)) t
        else t
    | None => t
    end in
  let count := wrap64 (default 0 (st_downtime_offense_count t !! validator) + 1) in
  let t := set_st_downtime_offense_count (<[validator := count]> (st_downtime_offense_count t)) t in
  let t := set_st_last_downtime_offense_slot
             (<[validator := current_slot]> (st_last_downtime_offense_slot t)) t in
  (count, t).

Definition downtime_evidence_count (t : SlashingTracker) (validator : Pubkey) : nat :=
  match st_evidence t !! validator with
  | Some ev => length (List.filter (fun e => is_downtime (ev_offense e)) ev)
  | None => O
  end.

Definition SlashingTracker_has_new_downtime_evidence (validator : Pubkey) (t : SlashingTracker)
  : bool * SlashingTracker :=
  let current_downtime_count := downtime_evidence_count t validator in
  let last_count := default O (st_last_processed_downtime_evidence_count t !! validator) in
  if (last_count <? current_downtime_count)%nat then
    (true, set_st_last_processed_downtime_evidence_count
             (<[validator := current_downtime_count]>
                (st_last_processed_downtime_evidence_count t)) t)
  else (false, t).

Definition SlashingTracker_is_suspended (t : SlashingTracker) (validator : Pubkey)
  (current_slot : Z) : bool :=
  match st_suspended_until t !! validator with
  | Some suspend_end => current_slot <? suspend_end
  | None => false
  end.

Definition SlashingTracker_suspend_validator (validator : Pubkey) (current_slot : Z)
  (t : SlashingTracker) : SlashingTracker :=
  set_st_suspended_until
    (<[validator := wrap64 (current_slot + DOWNTIME_SUSPENSION_SLOTS)]> (st_suspended_until t)) t.

Definition SlashingTracker_has_penalty_repayment_boost (t : SlashingTracker) (validator : Pubkey)
  (current_slot : Z) : bool :=
  match st_penalty_repayment_boost t !! validator with
  | Some boost_end => current_slot <? boost_end
  | None => false
  end.

Definition SlashingTracker_apply_penalty_repayment_boost (validator : Pubkey) (current_slot : Z)
  (t : SlashingTracker) : SlashingTracker :=
  set_st_penalty_repayment_boost
    (<[validator := wrap64 (current_slot + PENALTY_REPAYMENT_BOOST_SLOTS)]>
       (st_penalty_repayment_boost t)) t.

Definition SlashingTracker_is_slashed (t : SlashingTracker) (validator : Pubkey) : bool :=
  bool_decide (validator ∈ st_slashed t).

Definition SlashingTracker_is_permanently_banned (t : SlashingTracker) (validator : Pubkey)
  : bool := bool_decide (validator ∈ st_permanently_banned t).

Definition SlashingTracker_clear_slashed (validator : Pubkey) (t : SlashingTracker)
  : SlashingTracker :=
  if negb (SlashingTracker_is_permanently_banned t validator)
  then set_st_slashed (st_slashed t ∖ {[validator]}) t else t.

Definition SlashingTracker_cleanup_expired (current_slot : Z) (t : SlashingTracker)
  : SlashingTracker :=
  let t := set_st_suspended_until
             (filter (fun kv => current_slot < kv.2) (st_suspended_until t)) t in
  set_st_penalty_repayment_boost
    (filter (fun kv => current_slot < kv.2) (st_penalty_repayment_boost t)) t.

Definition is_collusion (o : SlashingOffense) : bool :=
  match o with Collusion _ _ => true | _ => false end.

Definition SlashingTracker_slash (validator : Pubkey) (current_slot : Z) (t : SlashingTracker)
  : bool * SlashingTracker :=
  if SlashingTracker_should_slash t validator current_slot then
    let t := set_st_slashed ({[validator]} ∪ st_slashed t) t in
    let t :=
      match st_evidence t !! validator with
      | Some evidence_list =>
          if existsb (fun e => is_collusion (ev_offense e)) evidence_list
          then set_st_permanently_banned ({[validator]} ∪ st_permanently_banned t) t else t
      | None => t
      end in
    (true, t)
  else (false, t).

(** The [u64] sum wraps in a release build. *)
Definition SlashingTracker_calculate_penalty (t : SlashingTracker) (validator : Pubkey) : Z :=
  match st_evidence t !! validator with
  | Some evidence_list => wrap64 (sumZ SlashingEvidence_severity evidence_list)
  | None => 0
  end.

(** ** Economic slashing *)

(** The fields the slashing code reads keep their names, the others have the
    prefix [cp_]. *)
Record ConsensusParams := mkConsensusParams {
  cp_slot_duration_ms : Z;
  cp_propose_timeout_base_ms : Z;
  cp_prevote_timeout_base_ms : Z;
  cp_precommit_timeout_base_ms : Z;
  cp_max_phase_timeout_ms : Z;
  cp_epoch_slots : Z;
  cp_min_validator_stake : Z;
  cp_validator_bootstrap_grants_enabled : bool;
  cp_validator_reward_per_block : Z;
  slashing_percentage_double_sign : Z;
  slashing_downtime_per_100_missed : Z;
  slashing_downtime_max_percent : Z;
  slashing_percentage_invalid_state : Z;
  slashing_percentage_double_vote : Z;
  slashing_percentage_censorship : Z;
  cp_finality_threshold_percent : Z;
}.

Definition DEFAULT_BFT_PROPOSE_TIMEOUT_BASE_MS : Z := 800.
Definition DEFAULT_BFT_PREVOTE_TIMEOUT_BASE_MS : Z := 500.
Definition DEFAULT_BFT_PRECOMMIT_TIMEOUT_BASE_MS : Z := 500.
Definition DEFAULT_BFT_MAX_PHASE_TIMEOUT_MS : Z := 5000.

Definition ConsensusParams_default : ConsensusParams := {|
  cp_slot_duration_ms := 400;
  cp_propose_timeout_base_ms := DEFAULT_BFT_PROPOSE_TIMEOUT_BASE_MS;
  cp_prevote_timeout_base_ms := DEFAULT_BFT_PREVOTE_TIMEOUT_BASE_MS;
  cp_precommit_timeout_base_ms := DEFAULT_BFT_PRECOMMIT_TIMEOUT_BASE_MS;
  cp_max_phase_timeout_ms := DEFAULT_BFT_MAX_PHASE_TIMEOUT_MS;
  cp_epoch_slots := 432000;
  cp_min_validator_stake := 75000000000;
  cp_validator_bootstrap_grants_enabled := false;
  cp_validator_reward_per_block := 20000000;
  slashing_percentage_double_sign := 50;
  slashing_downtime_per_100_missed := 1;
  slashing_downtime_max_percent := 10;
  slashing_percentage_invalid_state := 100;
  slashing_percentage_double_vote := 30;
  slashing_percentage_censorship := 25;
  cp_finality_threshold_percent := 66;
|}.

(** [(stake as u128 * pct as u128 / 100) as u64]: the product of two 64-bit
    numbers fits in 128 bits. *)
Definition percent_of (stake pct : Z) : Z := wrap64 (stake * pct / 100).

Definition worst_downtime_missed (l : list SlashingEvidence) : option Z :=
  foldr (fun e acc =>
           match ev_offense e with
           | Downtime _ _ missed => Some (match acc with Some m => Z.max missed m | None => missed end)
           | _ => acc
           end) None l.

Definition downtime_penalty (params : ConsensusParams) (original_stake offense_tier missed_slots : Z)
  : Z :=
  if (offense_tier =? 0) || (offense_tier =? 1) then 0
  else if offense_tier =? 2 then wrap64 (original_stake * DOWNTIME_TIER2_SLASH_BPS / 10000)
  else
    let dp := Z.min (missed_slots / 100) (slashing_downtime_max_percent params) in
    wrap64 (wrap128 (original_stake * dp * slashing_downtime_per_100_missed params) / 100).

Definition offense_penalty (params : ConsensusParams) (original_stake : Z) (o : SlashingOffense)
  : Z :=
  match o with
  | DoubleBlock _ _ _ => percent_of original_stake (slashing_percentage_double_sign params)
  | DoubleVote _ _ _ => percent_of original_stake (slashing_percentage_double_vote params)
  | Downtime _ _ _ => 0
  | InvalidStateTransition _ _ =>
      percent_of original_stake (slashing_percentage_invalid_state params)
  | Censorship _ _ => percent_of original_stake (slashing_percentage_censorship params)
  | Collusion _ _ => original_stake
  | DoubleBlockV2 _ _ => percent_of original_stake (slashing_percentage_double_sign params)
  | DoublePrevoteV2 _ _ | DoublePrecommitV2 _ _ =>
      percent_of original_stake (slashing_percentage_double_vote params)
  end.

Definition SlashingTracker_apply_economic_slashing_with_params
  (validator : Pubkey) (params : ConsensusParams) (current_slot : Z)
  (t : SlashingTracker) (stake_pool : StakePool) : Z * (SlashingTracker * StakePool) :=
  let original_stake :=
    match StakePool_get_stake stake_pool validator with
    | Some s => StakeInfo_total_stake s
    | None => 0
    end in
  if original_stake =? 0 then (0, (t, stake_pool))
  else
    let offense_tier := SlashingTracker_get_downtime_offense_tier t validator current_slot in
    let has_non_downtime_slash :=
      match st_evidence t !! validator with
      | Some evidence_list => existsb severe_offense evidence_list
      | None => false
      end in
    let has_downtime_slash := 2 <=? offense_tier in
    if negb has_non_downtime_slash && negb has_downtime_slash then (0, (t, stake_pool))
    else
      let total_penalty :=
        match st_evidence t !! validator with
        | Some evidence_list =>
            let downtime :=
              match worst_downtime_missed evidence_list with
              | Some missed_slots =>
                  sat_add64 0 (downtime_penalty params original_stake offense_tier missed_slots)
              | None => 0
              end in
            foldl (fun acc e => sat_add64 acc (offense_penalty params original_stake (ev_offense e)))
              downtime evidence_list
        | None => 0
        end in
      let slash_budget := sat_sub original_stake MIN_VALIDATOR_STAKE in
      let capped_penalty := Z.min total_penalty slash_budget in
      let '(total_slashed, stake_pool) :=
        if 0 <? capped_penalty then StakePool_slash_validator validator capped_penalty stake_pool
        else (0, stake_pool) in
      let t := if 0 <? total_slashed then (SlashingTracker_slash validator current_slot t).2 else t in
      (total_slashed, (t, stake_pool)).

Definition SlashingTracker_apply_economic_slashing (validator : Pubkey)
  (t : SlashingTracker) (stake_pool : StakePool) : Z * (SlashingTracker * StakePool) :=
  SlashingTracker_apply_economic_slashing_with_params validator ConsensusParams_default 0 t
    stake_pool.

Definition SlashingTracker_prune_old_evidence (current_slot keep_slots : Z) (t : SlashingTracker)
  : SlashingTracker :=
  let cutoff_slot := sat_sub current_slot keep_slots in
  let retained :=
    (fun l => filter (fun e => cutoff_slot <= ev_evidence_slot e) l) <$> st_evidence t in
  set_st_evidence (filter (fun kl => kl.2 <> []) retained) t.

(** ** Lemmas *)

Definition pool_wf (p : StakePool) : Prop :=
  forall k s, sp_stakes p !! k = Some s -> StakeInfo_wf s.

Lemma slash_validator_spec k amount p s :
  pool_wf p -> 0 <= amount -> sp_stakes p !! k = Some s ->
  exists s', (StakePool_slash_validator k amount p).1 = Z.min amount (si_amount s)
    /\ sp_stakes (StakePool_slash_validator k amount p).2 = <[k := s']> (sp_stakes p)
    /\ (Z.min amount (si_amount s), s') = StakeInfo_slash amount s.
Proof.
  intros Hwf Ha Hs. unfold StakePool_slash_validator. rewrite Hs.
  pose proof (StakeInfo_slash_spec amount s (Hwf _ _ Hs) Ha) as Hsp.
  destruct (StakeInfo_slash amount s) as [sl s']. destruct Hsp as (-> & _). by exists s'.
Qed.

(** The total penalty of the evidence held against a validator, before the cap. *)
Definition evidence_penalty (params : ConsensusParams) (t : SlashingTracker) (validator : Pubkey)
  (current_slot original_stake : Z) : Z :=
  match st_evidence t !! validator with
  | Some l =>
      foldl (fun acc e => sat_add64 acc (offense_penalty params original_stake (ev_offense e)))
        (match worst_downtime_missed l with
         | Some missed =>
             sat_add64 0 (downtime_penalty params original_stake
                            (SlashingTracker_get_downtime_offense_tier t validator current_slot) missed)
         | None => 0
         end) l
  | None => 0
  end.

Lemma offense_penalty_nonneg params stake o : 0 <= stake -> 0 <= offense_penalty params stake o.
Proof.
  intros. assert (forall a b, 0 <= percent_of a b) by (intros; apply wrap_range; lia).
  destruct o; simpl; auto; lia.
Qed.

Lemma downtime_penalty_nonneg params stake tier missed : 0 <= downtime_penalty params stake tier missed.
Proof. unfold downtime_penalty. repeat case_match; try lia; apply wrap_range; lia. Qed.

Lemma penalty_fold_nonneg params stake l acc :
  0 <= stake -> 0 <= acc ->
  0 <= foldl (fun acc e => sat_add64 acc (offense_penalty params stake (ev_offense e))) acc l.
Proof.
  intros Hs. revert acc. induction l as [|e l IH]; intros acc Ha; simpl; [done|]. apply IH.
  pose proof (offense_penalty_nonneg params stake (ev_offense e) Hs). unfold_ints. lia.
Qed.

Lemma evidence_penalty_nonneg params t k c stake :
  0 <= stake -> 0 <= evidence_penalty params t k c stake.
Proof.
  intros Hs. unfold evidence_penalty. destruct (st_evidence t !! k) as [l|]; [|lia].
  apply penalty_fold_nonneg; [done|]. destruct (worst_downtime_missed l); [|lia].
  pose proof (downtime_penalty_nonneg params stake
                (SlashingTracker_get_downtime_offense_tier t k c) z). unfold_ints. lia.
Qed.

(** What the economic slash takes from a staked validator. *)
Definition slash_due (params : ConsensusParams) (t : SlashingTracker) (validator : Pubkey)
  (current_slot : Z) (s : StakeInfo) : Z :=
  let stake := StakeInfo_total_stake s in
  if existsb severe_offense (default [] (st_evidence t !! validator))
     || (2 <=? SlashingTracker_get_downtime_offense_tier t validator current_slot)
  then Z.min (Z.min (evidence_penalty params t validator current_slot stake)
                (sat_sub stake MIN_VALIDATOR_STAKE)) (si_amount s)
  else 0.

Lemma StakeInfo_slash_min amount s :
  StakeInfo_slash (Z.min amount (si_amount s)) s = StakeInfo_slash amount s.
Proof. unfold StakeInfo_slash. by rewrite <- Z.min_assoc, Z.min_id. Qed.

Lemma slash_due_range params t k c s :
  StakeInfo_wf s -> 0 <= slash_due params t k c s <= si_amount s.
Proof.
  intros [Ha _ _ Hd _ _ _]. unfold slash_due.
  assert (0 <= StakeInfo_total_stake s) by (unfold StakeInfo_total_stake; unfold_ints; lia).
  pose proof (evidence_penalty_nonneg params t k c (StakeInfo_total_stake s) ltac:(done)).
  unfold_ints. case_match; lia.
Qed.

Lemma StakeInfo_slash_zero s : 0 <= si_amount s -> StakeInfo_slash 0 s = (0, s).
Proof. intros. unfold StakeInfo_slash. by rewrite Z.min_l. Qed.

(** The pool after a slash of [amount]. *)
Lemma slash_validator_pool k amount p s :
  pool_wf p -> sp_stakes p !! k = Some s -> 0 <= amount ->
  0 <= sp_total_staked p -> is_u64 (sp_total_slashed p) ->
  let due := Z.min amount (si_amount s) in
  let p' := if 0 <? amount then StakePool_slash_validator k amount p else (0, p) in
  p'.1 = due
  /\ sp_stakes p'.2 = <[k := (StakeInfo_slash due s).2]> (sp_stakes p)
  /\ sp_total_staked p'.2 = sat_sub (sp_total_staked p) due
  /\ sp_total_slashed p'.2 = sat_add64 (sp_total_slashed p) due.
Proof.
  intros Hwf Hs Ha Ht Hsl. pose proof (wf_amount _ (Hwf _ _ Hs)) as Hsa. cbv zeta.
  rewrite StakeInfo_slash_min. destruct (Z.ltb_spec 0 amount) as [|H0]; simpl.
  - unfold StakePool_slash_validator. rewrite Hs.
    pose proof (StakeInfo_slash_spec amount s (Hwf _ _ Hs) Ha) as Hsp.
    destruct (StakeInfo_slash amount s) as [sl s']. by destruct Hsp as (-> & _).
  - assert (amount = 0) as -> by lia. rewrite StakeInfo_slash_zero by apply Hsa. simpl.
    rewrite insert_id by done. unfold_ints. split_and!; try done; lia.
Qed.

Lemma economic_slashing_spec k params c t p s :
  pool_wf p -> sp_stakes p !! k = Some s ->
  0 <= sp_total_staked p -> is_u64 (sp_total_slashed p) ->
  let due := slash_due params t k c s in
  let res := SlashingTracker_apply_economic_slashing_with_params k params c t p in
  res.1 = due
  /\ res.2.1 = (if 0 <? due then (SlashingTracker_slash k c t).2 else t)
  /\ sp_stakes res.2.2 = <[k := (StakeInfo_slash due s).2]> (sp_stakes p)
  /\ sp_total_staked res.2.2 = sat_sub (sp_total_staked p) due
  /\ sp_total_slashed res.2.2 = sat_add64 (sp_total_slashed p) due.
Proof.
  intros Hwf Hs Ht Hsl. pose proof (Hwf _ _ Hs) as Hw. pose proof (wf_amount _ Hw) as Hsa.
  assert (0 <= StakeInfo_total_stake s) as H0.
  { destruct Hw. unfold StakeInfo_total_stake. unfold_ints. lia. }
  assert (forall due, due = 0 ->
    <[k := (StakeInfo_slash due s).2]> (sp_stakes p) = sp_stakes p
    /\ sat_sub (sp_total_staked p) due = sp_total_staked p
    /\ sat_add64 (sp_total_slashed p) due = sp_total_slashed p) as Hnone.
  { intros ? ->. rewrite StakeInfo_slash_zero by apply Hsa. simpl. rewrite insert_id by done.
    unfold_ints. split_and!; [done|lia..]. }
  unfold SlashingTracker_apply_economic_slashing_with_params, StakePool_get_stake. rewrite Hs.
  cbv zeta. destruct (Z.eqb_spec (StakeInfo_total_stake s) 0) as [Hz|Hz].
  { assert (slash_due params t k c s = 0) as ->.
    { unfold slash_due. rewrite Hz. pose proof (evidence_penalty_nonneg params t k c 0 ltac:(lia)).
      unfold MIN_VALIDATOR_STAKE. unfold_ints. case_match; lia. }
    destruct (Hnone 0) as (-> & -> & ->); done. }
  assert (match st_evidence t !! k with Some l => existsb severe_offense l | None => false end
          = existsb severe_offense (default [] (st_evidence t !! k))) as ->.
  { by destruct (st_evidence t !! k). }
  rewrite <- negb_orb. unfold slash_due.
  destruct (existsb severe_offense _ || _); cbn [negb].
  2: { destruct (Hnone 0) as (-> & -> & ->); done. }
  change (match st_evidence t !! k with
          | Some l => foldl _ _ l | None => 0 end)
    with (evidence_penalty params t k c (StakeInfo_total_stake s)).
  set (cap := Z.min _ (sat_sub _ _)).
  pose proof (slash_validator_pool k cap p s Hwf Hs) as Hp. cbv zeta in Hp.
  destruct (if 0 <? cap then _ else _) as [sl p']. cbn [fst snd] in *.
  destruct Hp as (-> & Hst & Htot & Hsla); [|done..|by rewrite Hst, Htot, Hsla].
  unfold cap. pose proof (evidence_penalty_nonneg params t k c _ H0). unfold_ints. lia.
Qed.

(** The cap keeps the validator at the minimum stake. *)
Lemma slash_due_keeps_minimum params t k c s :
  StakeInfo_wf s -> MIN_VALIDATOR_STAKE <= StakeInfo_total_stake s ->
  MIN_VALIDATOR_STAKE <= StakeInfo_total_stake (StakeInfo_slash (slash_due params t k c s) s).2.
Proof.
  intros Hw Hmin. pose proof (slash_due_range params t k c s Hw) as Hr.
  pose proof (StakeInfo_slash_spec _ s Hw (proj1 Hr)) as Hsp.
  assert (slash_due params t k c s <= StakeInfo_total_stake s - MIN_VALIDATOR_STAKE) as Hcap.
  { unfold slash_due, sat_sub. destruct (existsb _ _ || _); lia. }
  destruct (StakeInfo_slash _ s) as [sl s']. destruct Hsp as (-> & Ham & Hdel & _). simpl.
  destruct Hw. unfold StakeInfo_total_stake in *. rewrite Ham, Hdel. unfold_ints. lia.
Qed.

(** First offenses are not charged. *)
Lemma slash_due_first_offense params t k c s :
  (forall l e, st_evidence t !! k = Some l -> e ∈ l -> is_downtime (ev_offense e) = true) ->
  SlashingTracker_get_downtime_offense_tier t k c <= 1 -> slash_due params t k c s = 0.
Proof.
  intros Hev Htier. unfold slash_due.
  assert (existsb severe_offense (default [] (st_evidence t !! k)) = false) as ->.
  { destruct (st_evidence t !! k) as [l|] eqn:Hl; [|done]. simpl.
    apply not_true_iff_false. rewrite existsb_exists. intros (e & Hin & Hsev).
    apply list_elem_of_In in Hin. unfold severe_offense in Hsev.
    rewrite (Hev _ _ eq_refl Hin), andb_comm in Hsev. done. }
  destruct (Z.leb_spec 2 (SlashingTracker_get_downtime_offense_tier t k c)); [lia|done].
Qed.

(** *** Evidence *)

(** The tracker holds one piece of evidence per offense. *)
Definition evidence_distinct (l : list SlashingEvidence) : Prop :=
  ForallOrdPairs (fun e1 e2 => same_offense (ev_offense e1) (ev_offense e2) = false) l.

Definition tracker_wf (t : SlashingTracker) : Prop :=
  forall k l, st_evidence t !! k = Some l ->
  evidence_distinct l /\ forall e, e ∈ l -> ev_validator e = k.

Lemma evidence_distinct_snoc l ev :
  evidence_distinct l ->
  existsb (fun e => same_offense (ev_offense e) (ev_offense ev)) l = false ->
  evidence_distinct (l ++ [ev]).
Proof.
  intros Hd Hex.
  assert (Forall (fun e => same_offense (ev_offense e) (ev_offense ev) = false) l) as Hno.
  { apply Forall_forall. intros e He. apply not_true_iff_false. intros Hs.
    apply (proj2 (not_true_iff_false _) Hex), existsb_exists. exists e. by rewrite <- list_elem_of_In. }
  clear Hex. induction Hd as [|e l Hf Hd IH]; simpl; [repeat constructor|].
  apply Forall_cons in Hno as [He Hno]. constructor; [|by apply IH].
  apply Forall_app. split; [done|by constructor].
Qed.

Lemma evidence_distinct_filter (P : SlashingEvidence -> Prop) `{!forall e, Decision (P e)} l :
  evidence_distinct l -> evidence_distinct (filter P l).
Proof.
  induction 1 as [|e l Hf _ IH]; [constructor|]. rewrite filter_cons. case_decide; [|done].
  constructor; [|done]. rewrite Forall_forall in *. intros x [_ Hx]%list_elem_of_filter. auto.
Qed.

Lemma add_verified_evidence_wf ev t :
  tracker_wf t -> tracker_wf (SlashingTracker_add_verified_evidence ev t).2.
Proof.
  intros Hwf. unfold SlashingTracker_add_verified_evidence.
  assert (let l := default [] (st_evidence t !! ev_validator ev) in
          evidence_distinct l /\ forall e, e ∈ l -> ev_validator e = ev_validator ev) as [Hd Hv].
  { destruct (st_evidence t !! ev_validator ev) as [l|] eqn:Hl; simpl; [by apply Hwf in Hl|].
    split; [constructor|by intros e ?%not_elem_of_nil]. }
  destruct (existsb _ _) eqn:Hex; intros k l; cbn [snd set_st_evidence st_evidence];
    intros [[<- <-]|[_ Hl]]%lookup_insert_Some; eauto.
  split; [by apply evidence_distinct_snoc|].
  intros e [He| ->%list_elem_of_singleton]%elem_of_app; auto.
Qed.

(** ** Theorems *)

(** Economic slashing never takes a validator below the minimum stake: the
    amount returned is what leaves the self-bond and the pool total and enters
    the slashed total, the remaining effective stake is at least the minimum,
    and no other validator is touched. *)
Theorem economic_slashing_keeps_minimum k params c t p s :
  pool_wf p -> sp_stakes p !! k = Some s -> MIN_VALIDATOR_STAKE <= StakeInfo_total_stake s ->
  0 <= sp_total_staked p -> is_u64 (sp_total_slashed p) ->
  let res := SlashingTracker_apply_economic_slashing_with_params k params c t p in
  exists s', sp_stakes res.2.2 = <[k := s']> (sp_stakes p)
    /\ MIN_VALIDATOR_STAKE <= StakeInfo_total_stake s'
    /\ 0 <= res.1 /\ si_amount s' = si_amount s - res.1
    /\ si_delegated_amount s' = si_delegated_amount s
    /\ sp_total_staked res.2.2 = sat_sub (sp_total_staked p) res.1
    /\ sp_total_slashed res.2.2 = sat_add64 (sp_total_slashed p) res.1.
Proof.
  intros Hwf Hs Hmin Ht Hsl. pose proof (Hwf _ _ Hs) as Hw.
  destruct (economic_slashing_spec k params c t p s Hwf Hs Ht Hsl) as (Hr & _ & Hst & Htot & Hsla).
  cbv zeta. rewrite Hr. exists (StakeInfo_slash (slash_due params t k c s) s).2.
  pose proof (slash_due_range params t k c s Hw) as Hrange.
  pose proof (StakeInfo_slash_spec _ s Hw (proj1 Hrange)) as Hsp.
  split; [done|]. split; [by apply slash_due_keeps_minimum|]. split; [lia|].
  destruct (StakeInfo_slash _ s) as [sl s']. destruct Hsp as (-> & Ham & Hdel & _). simpl.
  rewrite Ham, Hdel. split_and!; [lia|done..].
Qed.

(** A first downtime offense costs nothing: while all the evidence against
    a validator is downtime and its offense tier is at most one, economic
    slashing takes nothing and leaves tracker and stakes as they are. *)
Theorem first_downtime_not_charged k params c t p s :
  pool_wf p -> sp_stakes p !! k = Some s -> 0 <= sp_total_staked p -> is_u64 (sp_total_slashed p) ->
  (forall l e, st_evidence t !! k = Some l -> e ∈ l -> is_downtime (ev_offense e) = true) ->
  SlashingTracker_get_downtime_offense_tier t k c <= 1 ->
  let res := SlashingTracker_apply_economic_slashing_with_params k params c t p in
  res.1 = 0 /\ res.2.1 = t /\ sp_stakes res.2.2 = sp_stakes p.
Proof.
  intros Hwf Hs Ht Hsl Hev Htier. pose proof (wf_amount _ (Hwf _ _ Hs)) as [Ha _].
  destruct (economic_slashing_spec k params c t p s Hwf Hs Ht Hsl) as (Hr & Htr & Hst & _).
  rewrite slash_due_first_offense in Hr, Htr, Hst by done.
  rewrite StakeInfo_slash_zero, insert_id in Hst by done. done.
Qed.

(** Downtime offenses escalate and are forgiven: recording an offense
    returns the effective tier plus one; that count is the tier until the
    forgiveness window of 50,000 slots has passed without a new offense, and
    zero from then on. *)
Theorem downtime_tier_escalates k c c' t :
  0 <= SlashingTracker_get_downtime_offense_tier t k c < u64_max ->
  (forall n, st_downtime_offense_count t !! k = Some n ->
     is_Some (st_last_downtime_offense_slot t !! k)) ->
  let res := SlashingTracker_record_downtime_offense k c t in
  res.1 = SlashingTracker_get_downtime_offense_tier t k c + 1
  /\ SlashingTracker_get_downtime_offense_tier res.2 k c'
     = (if DOWNTIME_FORGIVENESS_SLOTS <=? sat_sub c' c then 0 else res.1).
Proof.
  intros Htier Hlast. cbv zeta.
  assert ((SlashingTracker_record_downtime_offense k c t).1
          = SlashingTracker_get_downtime_offense_tier t k c + 1) as Hcount.
  { revert Htier. unfold SlashingTracker_record_downtime_offense, SlashingTracker_get_downtime_offense_tier.
    destruct (st_downtime_offense_count t !! k) as [n|] eqn:Hn; simpl.
    - destruct (Hlast n eq_refl) as [ls ->].
      destruct (DOWNTIME_FORGIVENESS_SLOTS <=? sat_sub c ls); simpl; rewrite ?lookup_insert_eq, ?Hn; simpl.
      + by destruct (n =? 0).
      + destruct (Z.eqb_spec n 0) as [->|]; [done|]. intros. apply wrap_small. unfold u64_max in *. lia.
    - intros _. destruct (st_last_downtime_offense_slot t !! k) as [ls|]; [|by rewrite Hn].
      case_match; simpl; [by rewrite lookup_insert_eq|by rewrite Hn]. }
  split; [done|].
  assert (st_downtime_offense_count (SlashingTracker_record_downtime_offense k c t).2 !! k
          = Some (SlashingTracker_record_downtime_offense k c t).1
          /\ st_last_downtime_offense_slot (SlashingTracker_record_downtime_offense k c t).2 !! k = Some c)
    as [Hc Hl].
  { unfold SlashingTracker_record_downtime_offense. simpl. by rewrite !lookup_insert_eq. }
  rewrite Hcount in *. generalize dependent (SlashingTracker_get_downtime_offense_tier t k c).
  intros tier Htier _ Hc. unfold SlashingTracker_get_downtime_offense_tier. rewrite Hc, Hl. simpl.
  rewrite (proj2 (Z.eqb_neq _ _)) by lia. by case_match.
Qed.

(** The operations that change the evidence. *)
Inductive EvidenceOp :=
| AddEvidence (ev : SlashingEvidence)
| AddEvidenceWithChainId (ev : SlashingEvidence) (chain_id : bytes)
| PruneEvidence (current_slot keep_slots : Z).

Section evidence_runs.
Context `{Crypto}.

Definition evidence_step (t : SlashingTracker) (op : EvidenceOp) : SlashingTracker :=
  match op with
  | AddEvidence ev => (SlashingTracker_add_evidence ev t).2
  | AddEvidenceWithChainId ev chain_id => (SlashingTracker_add_evidence_with_chain_id ev chain_id t).2
  | PruneEvidence c keep => SlashingTracker_prune_old_evidence c keep t
  end.

(** The evidence an operation submits passed its verifier. *)
Definition submitted_verified (ops : list EvidenceOp) (ev : SlashingEvidence) : Prop :=
  (AddEvidence ev ∈ ops /\ SlashingEvidence_verify ev = true)
  \/ (exists chain_id, AddEvidenceWithChainId ev chain_id ∈ ops
        /\ SlashingEvidence_verify_with_chain_id chain_id ev = true).

Definition tracker_holds (t : SlashingTracker) (ev : SlashingEvidence) : Prop :=
  exists k l, st_evidence t !! k = Some l /\ ev ∈ l.

Lemma add_verified_holds ev t e :
  tracker_holds (SlashingTracker_add_verified_evidence ev t).2 e -> tracker_holds t e \/ e = ev.
Proof.
  unfold SlashingTracker_add_verified_evidence.
  assert (forall e, e ∈ default [] (st_evidence t !! ev_validator ev) -> tracker_holds t e) as Hd.
  { intros e' He. destruct (st_evidence t !! ev_validator ev) as [l|] eqn:Hl; [by exists (ev_validator ev), l|].
    by apply not_elem_of_nil in He. }
  destruct (existsb _ _); intros (k & l & Hl & He); cbn [snd set_st_evidence st_evidence] in Hl;
    apply lookup_insert_Some in Hl as [[<- <-]|[_ Hl]].
  - left. auto.
  - left. by exists k, l.
  - apply elem_of_app in He as [He|He]; [left; auto|]. apply list_elem_of_singleton in He. by right.
  - left. by exists k, l.
Qed.

Lemma prune_evidence_lookup c keep t k l :
  st_evidence (SlashingTracker_prune_old_evidence c keep t) !! k = Some l ->
  exists l0, st_evidence t !! k = Some l0
    /\ l = filter (fun e => sat_sub c keep <= ev_evidence_slot e) l0.
Proof.
  unfold SlashingTracker_prune_old_evidence. cbn [st_evidence set_st_evidence].
  intros [Hl _]%map_lookup_filter_Some. apply lookup_fmap_Some in Hl as (l0 & <- & Hl0). eauto.
Qed.

Lemma evidence_step_wf t op : tracker_wf t -> tracker_wf (evidence_step t op).
Proof.
  intros Hwf. destruct op as [ev|ev cid|c keep]; simpl.
  - unfold SlashingTracker_add_evidence. case_match; [done|by apply add_verified_evidence_wf].
  - unfold SlashingTracker_add_evidence_with_chain_id. case_match; [done|by apply add_verified_evidence_wf].
  - intros k l Hl. apply prune_evidence_lookup in Hl as (l0 & Hl0 & ->).
    destruct (Hwf _ _ Hl0) as [Hd Hv]. split; [by apply evidence_distinct_filter|].
    intros e [_ He]%list_elem_of_filter. auto.
Qed.

Lemma evidence_step_holds t op e :
  tracker_holds (evidence_step t op) e -> tracker_holds t e \/ submitted_verified [op] e.
Proof.
  unfold submitted_verified. destruct op as [ev|ev cid|c keep]; simpl.
  - unfold SlashingTracker_add_evidence. destruct (SlashingEvidence_verify ev) eqn:Hv; simpl; [|by left].
    intros [?| ->]%add_verified_holds; [by left|]. right. left. split; [left|done].
  - unfold SlashingTracker_add_evidence_with_chain_id.
    destruct (SlashingEvidence_verify_with_chain_id cid ev) eqn:Hv; simpl; [|by left].
    intros [?| ->]%add_verified_holds; [by left|]. right. right. exists cid. split; [left|done].
  - intros (k & l & Hl & He). apply prune_evidence_lookup in Hl as (l0 & Hl0 & ->).
    apply list_elem_of_filter in He as [_ He]. left. by exists k, l0.
Qed.

(** The tracker holds verified evidence, once: after any sequence of
    submissions and prunings, every piece of evidence held was submitted and
    passed the verifier of its submission, it is filed under the validator it
    accuses, and no two pieces filed under one validator are for the same
    offense. *)
Theorem tracker_evidence_sound ops :
  let t := foldl evidence_step SlashingTracker_new ops in
  tracker_wf t /\ forall e, tracker_holds t e -> submitted_verified ops e.
Proof.
  cbv zeta. induction ops as [|op ops IH] using rev_ind.
  - simpl. split; [intros k l|intros e (k & l & Hl & _); revert Hl];
      cbn [SlashingTracker_new st_evidence]; by rewrite lookup_empty.
  - rewrite foldl_snoc. destruct IH as [Hwf Hs]. split; [by apply evidence_step_wf|].
    unfold submitted_verified in *. intros e [He|He]%evidence_step_holds.
    + destruct (Hs e He) as [[? ?]|(cid & ? & ?)]; [left|right; exists cid]; split; try done;
        apply elem_of_app; by left.
    + destruct He as [[? ?]|(cid & ? & ?)]; [left|right; exists cid]; split; try done;
        apply elem_of_app; by right.
Qed.
End evidence_runs.

(** ** A concrete pool *)

Module ToySlashing.
Definition stake : StakeInfo := StakeInfo_new 7 BOOTSTRAP_GRANT_AMOUNT 0.
Definition pool : StakePool := set_sp_total_staked BOOTSTRAP_GRANT_AMOUNT
  (set_sp_stakes {[ 7 := stake ]} StakePool_new).
Definition downtime : SlashingEvidence := mkSlashingEvidence (Downtime 10 400 390) 7 400 8 0.
Definition double_block : SlashingEvidence := mkSlashingEvidence (DoubleBlock 5 1 2) 7 400 8 0.
Definition tracker (evs : list SlashingEvidence) : SlashingTracker :=
  set_st_evidence {[ 7 := evs ]} SlashingTracker_new.

Lemma pool_ok : pool_wf pool.
Proof.
  intros k s. cbn [pool sp_stakes set_sp_total_staked set_sp_stakes].
  intros [<- <-]%lookup_singleton_Some.
  split; unfold is_u64; vm_compute; split; discriminate || reflexivity.
Qed.

(** A double block costs half the stake, but the cap leaves the minimum. *)
Lemma economic_slashing_keeps_minimum_witness :
  (SlashingTracker_apply_economic_slashing_with_params 7 ConsensusParams_default 0
     (tracker [double_block]) pool).1 = BOOTSTRAP_GRANT_AMOUNT - MIN_VALIDATOR_STAKE
  /\ exists s', sp_stakes (SlashingTracker_apply_economic_slashing_with_params 7
         ConsensusParams_default 0 (tracker [double_block]) pool).2.2 = <[7 := s']> (sp_stakes pool)
     /\ MIN_VALIDATOR_STAKE <= StakeInfo_total_stake s'.
Proof.
  split; [vm_compute; reflexivity|].
  destruct (economic_slashing_keeps_minimum 7 ConsensusParams_default 0 (tracker [double_block]) pool
              stake pool_ok eq_refl ltac:(vm_compute; discriminate) ltac:(vm_compute; discriminate)
              ltac:(unfold is_u64; vm_compute; split; discriminate || reflexivity))
    as (s' & Hs & Hm & _). exists s'. exact (conj Hs Hm).
Defined.

Lemma first_downtime_not_charged_witness :
  let res := SlashingTracker_apply_economic_slashing_with_params 7 ConsensusParams_default 500
               (tracker [downtime]) pool in
  res.1 = 0 /\ res.2.1 = tracker [downtime] /\ sp_stakes res.2.2 = sp_stakes pool.
Proof.
  apply (first_downtime_not_charged 7 ConsensusParams_default 500 (tracker [downtime]) pool stake
           pool_ok eq_refl).
  - vm_compute. discriminate.
  - unfold is_u64. vm_compute. split; discriminate || reflexivity.
  - intros l e. cbn [tracker st_evidence set_st_evidence].
    intros [_ <-]%lookup_singleton_Some ->%list_elem_of_singleton. reflexivity.
  - vm_compute. discriminate.
Defined.

Lemma downtime_tier_escalates_witness :
  let res := SlashingTracker_record_downtime_offense 7 100 SlashingTracker_new in
  res.1 = 1 /\ SlashingTracker_get_downtime_offense_tier res.2 7 60000 = 0.
Proof.
  destruct (downtime_tier_escalates 7 100 60000 SlashingTracker_new) as [H1 H2].
  - vm_compute. split; discriminate || reflexivity.
  - intros n. cbn [SlashingTracker_new st_downtime_offense_count]. by rewrite lookup_empty.
  - split; [exact H1|exact H2].
Defined.
End ToySlashing.
