(* ===== verification/Staking.v ===== *)
(** * Staking instructions

    Models the staking handlers of the transaction processor:
    [core/src/processor/system_extended.rs] (stake, request and claim an unstake) and
    [core/src/processor/validator_lifecycle.rs] (validator registration,
    reclassification, and the equivocation slashing in force before Staking V2).

    - the chain state a handler reads and writes is the record [Chain]; a handler
      that fails leaves it unchanged, because the processor drops its batch;
    - governance pauses and transfer restrictions, which other components decide,
      are the parameters [paused], [blocked] and [blocked_native]: the theorems hold
      for every choice of them;
    - [bincode] is a library: [decode_evidence] is a parameter. *)

From S2P Require Import Prelude Crypto Block Votes Account Stake Pool PoolInvariant PoolRun.
From S2P Require Import Validators StakingV2 Slashing.
From stdpp Require Import base tactics numbers list gmap.
From Stdlib Require Import ZArith Lia.

Local Open Scope Z_scope.
Local Open Scope rust_scope.

(** ** State *)

(** The idempotency markers of the processor: offender, slot and kind. *)
Inductive OffenseKind := MarkDoubleVote | MarkDoubleBlock.
#[global] Instance OffenseKind_eq_dec : EqDecision OffenseKind.
Proof. solve_decision. Defined.

Record Chain := mkChain {
  ch_accounts : gmap Pubkey Account;
  ch_pool : StakePool;
  ch_last_slot : Z;
  ch_staking_v2_activation_slot : option Z;
  ch_treasury : option Pubkey;
  ch_bootstrap_grants_enabled : bool;
  ch_slashed_markers : list (Pubkey * Z * OffenseKind);
}.

Definition eta_Chain (r : Chain) : Chain :=
  mkChain (ch_accounts r) (ch_pool r) (ch_last_slot r) (ch_staking_v2_activation_slot r)
    (ch_treasury r) (ch_bootstrap_grants_enabled r) (ch_slashed_markers r).
Definition set_ch_accounts : gmap Pubkey Account -> Chain -> Chain := ltac:(setter eta_Chain ch_accounts).
Definition set_ch_pool : StakePool -> Chain -> Chain := ltac:(setter eta_Chain ch_pool).
Definition set_ch_slashed_markers : list (Pubkey * Z * OffenseKind) -> Chain -> Chain :=
  ltac:(setter eta_Chain ch_slashed_markers).

Definition put_account (k : Pubkey) (a : Account) (c : Chain) : Chain :=
  set_ch_accounts (<[k := a]> (ch_accounts c)) c.

Inductive Direction := Incoming | Outgoing.

Inductive HandlerError :=
| MissingAccounts
| InvalidData
| Paused
| AccountNotFound (account : Pubkey)
| Restricted (account : Pubkey)
| NotRegistered (validator : Pubkey)
| InsufficientStakedBalance
| InsufficientLockedBalance
| SlotOverflow
| GrantsDisabled
| FingerprintRegistered (owner : Pubkey)
| UnbackedStake
| PartialStake
| GrantsExhausted
| TreasuryNotSet
| GrantOverflow
| GrantInvariant
| ZeroFingerprint
| InvalidMode
| AlreadyRegistered
| WrongStakedBalance
| InvalidEvidence
| EvidenceMismatch
| NotSlashable
| PoolErr (e : PoolError)
| V2Err (e : V2Error)
| AccountErr (e : AccountError).

Definition of_pool {A} (r : result A PoolError) : result A HandlerError :=
  match r with Ok a => Ok a | Err e => Err (PoolErr e) end.
Definition of_v2 {A} (r : result A V2Error) : result A HandlerError :=
  match r with Ok a => Ok a | Err e => Err (V2Err e) end.

(** [account.op(..)?]: the account after a successful operation. *)
Definition of_account (r : result unit AccountError * Account) : result Account HandlerError :=
  match r with (Ok _, a) => Ok a | (Err e, _) => Err (AccountErr e) end.

(** [u64::from_le_bytes(data[from..from + 8])] *)
Definition read_u64 (data : bytes) (from : nat) : Z := le_value (take 8 (drop from data)).

(** A 32-byte array spells its number most significant byte first. *)
Definition read_array32 (data : bytes) (from : nat) : Z := le_value (reverse (take 32 (drop from data))).

Section handlers.
Variable paused : Chain -> bool.
Variable blocked blocked_native : Chain -> Pubkey -> Direction -> Z -> Z -> bool.

Definition staking_v2_execution_slot (c : Chain) : result Z HandlerError :=
  or_err (checked_add64 (ch_last_slot c) 1) SlotOverflow Ok.

Definition staking_v2_active (c : Chain) : result bool HandlerError :=
  match ch_staking_v2_activation_slot c with
  | None => Ok false
  | Some activation_slot =>
      let? execution_slot := staking_v2_execution_slot c in
      Ok (activation_slot <=? execution_slot)
  end.

Definition get_account (k : Pubkey) (c : Chain) {A} (rest : Account -> result A HandlerError)
  : result A HandlerError :=
  or_err (ch_accounts c !! k) (AccountNotFound k) rest.

(** ** Stake, request unstake, claim *)

Definition system_stake (ix : Instruction) (c : Chain) : result Chain HandlerError :=
  match ix_accounts ix with
  | staker :: validator :: _ =>
      reject (length (ix_data ix) <? 9)%nat with InvalidData;
      let amount := read_u64 (ix_data ix) 1 in
      reject paused c with Paused;
      get_account staker c (fun account =>
      reject blocked_native c staker Outgoing amount (ac_spendable account) with Restricted staker;
      let pool := ch_pool c in
      reject negb (bool_decide (is_Some (sp_stakes pool !! validator))) with NotRegistered validator;
      let? staking_v2_active := staking_v2_active c in
      let? pool :=
        if staking_v2_active : bool then
          let? pool :=
            of_pool (if staker =? validator then StakePool_add_validator_stake validator amount pool
                     else StakePool_delegate staker validator amount pool) in
          let? slot := staking_v2_execution_slot c in
          of_v2 (StakePool_checkpoint_staking_v2_validator validator slot pool)
        else of_pool (StakePool_stake validator amount (ch_last_slot c) pool) in
      let? account := of_account (Account_stake amount account) in
      Ok (put_account staker account (set_ch_pool pool c)))
  | _ => Err MissingAccounts
  end.

Definition system_request_unstake (ix : Instruction) (c : Chain) : result Chain HandlerError :=
  match ix_accounts ix with
  | staker :: validator :: _ =>
      reject (length (ix_data ix) <? 9)%nat with InvalidData;
      let amount := read_u64 (ix_data ix) 1 in
      reject paused c with Paused;
      get_account staker c (fun account =>
      reject ac_staked account <? amount with InsufficientStakedBalance;
      reject blocked c staker Outgoing amount (ac_spendable account) with Restricted staker;
      let pool := ch_pool c in
      let? staking_v2_active := staking_v2_active c in
      let? unstake_slot :=
        if staking_v2_active : bool then staking_v2_execution_slot c else Ok (ch_last_slot c) in
      let? r :=
        of_pool (if (staking_v2_active : bool) && negb (staker =? validator)
                 then StakePool_request_delegation_unstake staker validator amount unstake_slot pool
                 else StakePool_request_unstake validator amount unstake_slot staker pool) in
      let? pool :=
        if staking_v2_active : bool
        then of_v2 (StakePool_checkpoint_staking_v2_validator validator unstake_slot r.2) else Ok r.2 in
      let? account := of_account (Account_unstake amount account) in
      let? account := of_account (Account_lock amount account) in
      Ok (put_account staker account (set_ch_pool pool c)))
  | _ => Err MissingAccounts
  end.

Definition system_claim_unstake (ix : Instruction) (c : Chain) : result Chain HandlerError :=
  match ix_accounts ix with
  | staker :: validator :: _ =>
      reject paused c with Paused;
      get_account staker c (fun account =>
      let? r := of_pool (StakePool_claim_unstake validator (ch_last_slot c) staker (ch_pool c)) in
      let '(amount, pool) := r in
      reject blocked_native c staker Incoming amount (ac_spendable account) with Restricted staker;
      reject ac_locked account <? amount with InsufficientLockedBalance;
      let? account := of_account (Account_unlock amount account) in
      Ok (put_account staker account (set_ch_pool pool c)))
  | _ => Err MissingAccounts
  end.

(** ** Registration *)

Inductive ValidatorRegistrationMode := BootstrapGrant | SelfFunded (amount : Z).

Definition decode_validator_registration_mode (data : bytes)
  : result ValidatorRegistrationMode HandlerError :=
  let mode := default 0 (data !! 33%nat) in
  match length data with
  | 33%nat => Ok BootstrapGrant
  | 34%nat => if mode =? 0 then Ok BootstrapGrant else Err InvalidMode
  | 42%nat =>
      if mode =? 1 then
        let amount := read_u64 data 34 in
        reject amount =? 0 with InvalidMode;
        Ok (SelfFunded amount)
      else Err InvalidMode
  | _ => Err InvalidData
  end.

(** The empty account of a validator that receives a grant. *)
Definition grant_account : Account :=
  mkAccount 0 0 0 0 [] None (le_value (repeat 1 32)) false 0 false 0.

(** Credits the grant to the account's stake; the split is checked before the write. *)
Definition credit_grant (amount : Z) (account : Account) : result Account HandlerError :=
  or_err (checked_add64 (ac_spores account) amount) GrantOverflow (fun new_spores =>
  or_err (checked_add64 (ac_staked account) amount) GrantOverflow (fun new_staked =>
  or_err (checked_add64 (ac_spendable account) new_staked) GrantOverflow (fun partial =>
  or_err (checked_add64 partial (ac_locked account)) GrantOverflow (fun classified_total =>
  reject negb (new_spores =? classified_total) with GrantInvariant;
  Ok (set_ac_staked new_staked (set_ac_spores new_spores account)))))).

(** The grant itself, after the checks on an existing registration.  Both accounts
    are read before either is written. *)
Definition pay_grant (validator : Pubkey) (fingerprint : Z) (c : Chain) : result Chain HandlerError :=
  reject MAX_BOOTSTRAP_VALIDATORS <=? sp_bootstrap_grants_issued (ch_pool c) with GrantsExhausted;
  reject paused c with Paused;
  or_err (ch_treasury c) TreasuryNotSet (fun treasury_key =>
  get_account treasury_key c (fun treasury =>
  let grant_amount := BOOTSTRAP_GRANT_AMOUNT in
  reject blocked_native c treasury_key Outgoing grant_amount (ac_spendable treasury)
    with Restricted treasury_key;
  let account := default grant_account (ch_accounts c !! validator) in
  reject blocked_native c validator Incoming grant_amount (ac_spendable account)
    with Restricted validator;
  let? treasury := of_account (Account_deduct_spendable grant_amount treasury) in
  let? account := credit_grant grant_amount account in
  let c' := put_account validator account (put_account treasury_key treasury c) in
  let? r := of_pool (StakePool_try_bootstrap_with_fingerprint validator grant_amount
                       (ch_last_slot c) fingerprint (ch_pool c)) in
  Ok (set_ch_pool r.2 c'))).

Definition system_register_validator_bootstrap_grant (validator : Pubkey) (fingerprint : Z) (c : Chain)
  : result Chain HandlerError :=
  reject negb (ch_bootstrap_grants_enabled c) with GrantsDisabled;
  let pool := ch_pool c in
  match other_owner fingerprint validator pool with
  | Some owner => Err (FingerprintRegistered owner)
  | None =>
      match ch_accounts c !! validator with
      | Some existing =>
          if BOOTSTRAP_GRANT_AMOUNT <=? ac_staked existing then
            match sp_stakes pool !! validator with
            | Some stake =>
                reject negb (BOOTSTRAP_GRANT_AMOUNT <=? StakeInfo_total_stake stake) with UnbackedStake;
                let? pool := of_pool (StakePool_register_fingerprint validator fingerprint pool) in
                Ok (set_ch_pool pool c)
            | None => Err UnbackedStake
            end
          else if 0 <? ac_staked existing then Err PartialStake
          else pay_grant validator fingerprint c
      | None => pay_grant validator fingerprint c
      end
  end.

Definition system_register_validator_self_funded (validator : Pubkey) (fingerprint amount : Z) (c : Chain)
  : result Chain HandlerError :=
  reject paused c with Paused;
  let pool := ch_pool c in
  reject bool_decide (is_Some (sp_stakes pool !! validator)) with AlreadyRegistered;
  match other_owner fingerprint validator pool with
  | Some owner => Err (FingerprintRegistered owner)
  | None =>
      get_account validator c (fun account =>
      reject blocked_native c validator Outgoing amount (ac_spendable account) with Restricted validator;
      let? account := of_account (Account_stake amount account) in
      let? pool := of_pool (StakePool_stake_with_index validator amount (ch_last_slot c) u64_max pool) in
      let? pool := of_pool (StakePool_register_fingerprint validator fingerprint pool) in
      Ok (set_ch_pool pool (put_account validator account c)))
  end.

Definition system_register_validator (ix : Instruction) (c : Chain) : result Chain HandlerError :=
  match ix_accounts ix with
  | [] => Err MissingAccounts
  | validator :: _ =>
      let? mode := decode_validator_registration_mode (ix_data ix) in
      let fingerprint := read_array32 (ix_data ix) 1 in
      reject fingerprint =? 0 with ZeroFingerprint;
      match mode with
      | BootstrapGrant => system_register_validator_bootstrap_grant validator fingerprint c
      | SelfFunded amount => system_register_validator_self_funded validator fingerprint amount c
      end
  end.

Definition system_reclassify_validator_bootstrap (ix : Instruction) (c : Chain)
  : result Chain HandlerError :=
  match ix_accounts ix with
  | [] => Err MissingAccounts
  | validator :: _ =>
      reject negb (length (ix_data ix) =? 1)%nat with InvalidData;
      get_account validator c (fun account =>
      reject negb (ac_staked account =? BOOTSTRAP_GRANT_AMOUNT) with WrongStakedBalance;
      let? r := of_pool (StakePool_reclassify_self_funded_as_bootstrap validator (ch_last_slot c) (ch_pool c)) in
      Ok (set_ch_pool r.2 c))
  end.

(** ** Equivocation slashing before Staking V2 *)

Section slashing.
Context `{Crypto}.
Variable decode_evidence : bytes -> option SlashingEvidence.
Variable speculative : bool.

(** What the legacy handler checks of an offense, and its idempotency marker. *)
Definition legacy_offense (offender : Pubkey) (o : SlashingOffense)
  : result (Z * OffenseKind) HandlerError :=
  match o with
  | DoubleVote slot vote_1 vote_2 =>
      reject negb (vote_validator vote_1 =? offender) || negb (vote_validator vote_2 =? offender)
        with InvalidEvidence;
      reject negb (vote_slot vote_1 =? vote_slot vote_2) with InvalidEvidence;
      reject vote_block_hash vote_1 =? vote_block_hash vote_2 with InvalidEvidence;
      reject negb (Vote_verify vote_1) || negb (Vote_verify vote_2) with InvalidEvidence;
      Ok (slot, MarkDoubleVote)
  | DoubleBlock slot block_hash_1 block_hash_2 =>
      reject block_hash_1 =? block_hash_2 with InvalidEvidence;
      Ok (slot, MarkDoubleBlock)
  | _ => Err NotSlashable
  end.

Definition mark_slashed (key : Pubkey * Z * OffenseKind) (c : Chain) : Chain :=
  if speculative then c else set_ch_slashed_markers (key :: ch_slashed_markers c) c.

(** The debit of the offender's account and the credit of the treasury. *)
Definition move_penalty (offender : Pubkey) (penalty : Z) (c : Chain) : result Chain HandlerError :=
  let c :=
    match ch_accounts c !! offender with
    | Some acct =>
        let debit := Z.min penalty (ac_staked acct) in
        put_account offender
          (set_ac_spores (sat_sub (ac_spores acct) debit)
             (set_ac_staked (sat_sub (ac_staked acct) debit) acct)) c
    | None => c
    end in
  or_err (ch_treasury c) TreasuryNotSet (fun treasury_key =>
  Ok match ch_accounts c !! treasury_key with
     | Some treasury =>
         put_account treasury_key
           (set_ac_spendable (sat_add64 (ac_spendable treasury) penalty)
              (set_ac_spores (sat_add64 (ac_spores treasury) penalty) treasury)) c
     | None => c
     end).

Definition legacy_penalty (kind : OffenseKind) (original_stake : Z) : Z :=
  let slash_percent :=
    match kind with
    | MarkDoubleVote => slashing_percentage_double_vote ConsensusParams_default
    | MarkDoubleBlock => slashing_percentage_double_sign ConsensusParams_default
    end in
  let raw_penalty := percent_of original_stake slash_percent in
  let slash_budget := sat_sub original_stake MIN_VALIDATOR_STAKE in
  Z.min raw_penalty slash_budget.

Definition system_slash_validator_legacy (ix : Instruction) (c : Chain) : result Chain HandlerError :=
  match ix_accounts ix with
  | [] => Err MissingAccounts
  | offender :: _ =>
      reject (length (ix_data ix) <? 2)%nat with InvalidData;
      or_err (decode_evidence (drop 1 (ix_data ix))) InvalidEvidence (fun evidence =>
      reject negb (ev_validator evidence =? offender) with EvidenceMismatch;
      let? offense := legacy_offense offender (ev_offense evidence) in
      let '(slot, kind) := offense in
      if bool_decide ((offender, slot, kind) ∈ ch_slashed_markers c) then Ok c
      else
        let pool := ch_pool c in
        let original_stake := from_option StakeInfo_total_stake 0 (sp_stakes pool !! offender) in
        if original_stake =? 0 then Ok (mark_slashed (offender, slot, kind) c)
        else
          let capped_penalty := legacy_penalty kind original_stake in
          let? c :=
            if 0 <? capped_penalty then
              let pool := (StakePool_slash_validator offender capped_penalty pool).2 in
              let? active := staking_v2_active c in
              let? pool :=
                if active : bool then
                  let? slot := staking_v2_execution_slot c in
                  of_v2 (StakePool_checkpoint_staking_v2_validator offender slot pool)
                else Ok pool in
              move_penalty offender capped_penalty (set_ch_pool pool c)
            else Ok c in
          Ok (mark_slashed (offender, slot, kind) c))
  end.
End slashing.
End handlers.
