(* ===== verification/StakingLedger.v ===== *)
(** * The ledger and the stake pool stay in step

    Theorems about the staking instructions of [Staking]: value is conserved, the
    staked and locked parts of the accounts move with the pool's total and its
    pending requests, and the pool keeps its invariants; and what the handlers in
    force before Staking V2 let through. *)

From S2P Require Import Prelude Crypto Block Votes Account Stake Pool PoolInvariant PoolRun.
From S2P Require Import Validators StakingV2 Slashing Staking.
From stdpp Require Import base tactics numbers list gmap.
From Stdlib Require Import ZArith Lia.

Local Open Scope Z_scope.
Local Open Scope rust_scope.

(** ** Effects of the pool operations on the totals *)

Definition pending_total (p : StakePool) : Z := map_sum ur_amount (sp_unstake_requests p).

Definition moved (p p' : StakePool) (staked pending : Z) : Prop :=
  sp_total_staked p' = sp_total_staked p + staked /\ pending_total p' = pending_total p + pending.

Lemma stake_moved p v a slot i p' :
  headroom p a -> StakePool_stake_with_index v a slot i p = Ok p' -> moved p p' a 0.
Proof.
  intros [Ha Hm]. unfold StakePool_stake_with_index. intros [_ H]%guard_Ok.
  destruct (stake_cap v a p); [done|]. injection H as <-. unfold moved, pending_total, sat_add64.
  destruct (sp_stakes p !! v); simpl; split; lia.
Qed.

Lemma add_validator_stake_moved p v a p' :
  headroom p a -> StakePool_add_validator_stake v a p = Ok p' -> moved p p' a 0.
Proof.
  intros [Ha Hm] (s & _ & H)%or_err_Ok. apply and_then_Ok in H as (s' & _ & [= <-]).
  unfold moved, pending_total, sat_add64. simpl. lia.
Qed.

Lemma delegate_moved p d v a p' : StakePool_delegate d v a p = Ok p' -> moved p p' a 0.
Proof. intros (s & _ & _ & _ & ->)%delegate_Ok. unfold moved, pending_total. simpl. lia. Qed.

Lemma undelegate_moved p d v a p' :
  pool_inv p -> 0 <= a -> StakePool_undelegate d v a p = Ok p' ->
  moved p p' (- a) 0 /\ sp_unstake_requests p' = sp_unstake_requests p.
Proof.
  intros Hp Ha. unfold StakePool_undelegate. intros [_ H]%guard_Ok. apply guard_Ok in H as [_ H].
  apply or_err_Ok in H as (s & Hv & H). apply guard_Ok in H as [Hs%Z.ltb_ge [= <-]].
  pose proof (inv_effective_le p Hp v s Hv) as Hle.
  destruct (ei_amount _ _ _ (pi_stakes p Hp v s Hv)) as [H0 _].
  unfold moved, pending_total, sat_sub, effective in *. simpl. split_and!; try done; lia.
Qed.

Lemma add_request_pending p k r :
  sp_unstake_requests p !! k = None ->
  map_sum ur_amount (<[k := r]> (sp_unstake_requests p)) = pending_total p + ur_amount r.
Proof. intros Hk. unfold pending_total. rewrite map_sum_insert_new by done. lia. Qed.

Lemma request_delegation_unstake_moved p d v a slot r :
  pool_inv p -> 0 <= a -> StakePool_request_delegation_unstake d v a slot p = Ok r -> moved p r.2 (- a) a.
Proof.
  intros Hp Ha. unfold StakePool_request_delegation_unstake. intros [_ H]%guard_Ok.
  apply guard_Ok in H as [Hn%bool_decide_eq_false H]. apply guard_Ok in H as [_ H].
  apply or_err_Ok in H as (u & _ & H). apply and_then_Ok in H as (q & Hq & [= <-]).
  apply undelegate_moved in Hq as [[Ht _] Hr]; [|done|done].
  split; [exact Ht|]. unfold pending_total at 1. simpl. rewrite Hr, add_request_pending; [done|].
  by apply eq_None_not_Some.
Qed.

Lemma request_unstake_moved p v a slot st r :
  pool_inv p -> 0 <= a -> StakePool_request_unstake v a slot st p = Ok r -> moved p r.2 (- a) a.
Proof.
  intros Hp Ha (s & Hv & H)%or_err_Ok. apply guard_Ok in H as [Hn%bool_decide_eq_false H].
  apply and_then_Ok in H as (q & Hq & [= <-]).
  unfold StakeInfo_request_unstake in Hq. destruct (StakeInfo_is_fully_vested s); [|done].
  destruct ((a =? 0) || (si_amount s <? a)) eqn:Hg; [done|]. simpl in Hq.
  apply orb_false_iff in Hg as [_ Ham%Z.ltb_ge].
  destruct (checked_add64 slot UNSTAKE_COOLDOWN_SLOTS) as [u|]; [|done]. injection Hq as <-.
  pose proof (inv_effective_le p Hp v s Hv). pose proof (inv_delegated_nonneg p Hp v s Hv).
  unfold effective in *. split; [simpl; unfold sat_sub; lia|].
  unfold pending_total at 1. simpl. rewrite add_request_pending; [done|]. by apply eq_None_not_Some.
Qed.

Lemma claim_unstake_moved p v slot st r :
  pool_inv p -> StakePool_claim_unstake v slot st p = Ok r ->
  moved p r.2 0 (- r.1) /\ 0 <= r.1.
Proof.
  intros Hp (q & Hq & H)%or_err_Ok. apply guard_Ok in H as [_ [= <-]].
  destruct (pi_requests p Hp _ q Hq) as [_ Hpos]. unfold moved, pending_total. simpl.
  rewrite (map_sum_delete ur_amount _ _ q) by done. lia.
Qed.

(** A checkpoint writes the Staking V2 state only. *)
Lemma checkpoint_frame v slot p p' :
  StakePool_checkpoint_staking_v2_validator v slot p = Ok p' ->
  exists st, p' = set_sp_staking_v2_state st p.
Proof.
  intros (q & Hq & H)%and_then_Ok. apply and_then_Ok in H as (_ & _ & [= <-]).
  apply checkpoint_inner_frame in Hq as (st & -> & _). by exists st.
Qed.

Lemma checkpoint_inv v slot p p' a b q :
  StakePool_checkpoint_staking_v2_validator v slot p = Ok p' ->
  pool_inv p /\ moved q p a b -> pool_inv p' /\ moved q p' a b.
Proof.
  intros [st ->]%checkpoint_frame [Hp Hm]. split; [|done].
  exact (inv_frame p (sp_total_slashed p) (sp_bootstrap_grants_issued p) st Hp).
Qed.

(** ** The accounts as a ledger *)

Definition part_total (x : Part) (c : Chain) : Z := map_sum (part x) (ch_accounts c).
Definition supply (c : Chain) : Z := map_sum ac_spores (ch_accounts c).

Definition accounts_wf (c : Chain) : Prop := map_Forall (fun _ a => account_wf a) (ch_accounts c).

Lemma part_nonneg x a : account_wf a -> 0 <= part x a.
Proof. intros []. by destruct x. Qed.

Lemma supply_parts c :
  accounts_wf c -> supply c = part_total Spendable c + part_total Staked c + part_total Locked c.
Proof.
  intros Hwf. unfold supply, part_total, map_sum. rewrite <- !sumZ_add. apply sumZ_ext.
  intros [k a] Hk%elem_of_map_to_list. simpl. apply (awf_split _ (Hwf k a Hk)).
Qed.

Lemma part_total_nonneg x c : accounts_wf c -> 0 <= part_total x c.
Proof. intros Hwf. apply map_sum_nonneg. intros k a Hk. by apply part_nonneg, (Hwf k). Qed.

Lemma part_le_total x c k a :
  accounts_wf c -> ch_accounts c !! k = Some a -> part x a <= part_total x c.
Proof.
  intros Hwf Hk. apply (map_sum_lookup (part x) _ k a); [|done].
  intros j b Hj. by apply part_nonneg, (Hwf j).
Qed.

(** The account of [k] is replaced. *)
Lemma put_account_totals c k a a' p :
  accounts_wf c -> ch_accounts c !! k = Some a -> account_wf a' ->
  let c' := put_account k a' (set_ch_pool p c) in
  accounts_wf c' /\ (forall x, part_total x c' = part_total x c - part x a + part x a')
  /\ supply c' = supply c - ac_spores a + ac_spores a'.
Proof.
  intros Hwf Hk Ha' c'. split_and!.
  - by apply map_Forall_insert_2.
  - intros x. unfold part_total. simpl. by apply map_sum_insert.
  - unfold supply. simpl. by apply map_sum_insert.
Qed.

Lemma of_account_Ok o amount a a' :
  account_wf a -> 0 <= amount -> of_account (balance_op o amount a) = Ok a' ->
  account_wf a' /\ funded o amount a /\ forall x, part x a' = part x a + flow o amount x.
Proof.
  intros Ha H0 H. pose proof (balance_op_spec o amount a Ha H0) as Hs.
  destruct (balance_op o amount a) as [[[]|e] b]; [|done]. injection H as <-.
  destruct Hs as (? & Hf & _ & Hx). split_and!; [done|by apply Hf|by apply Hx].
Qed.

(** ** Runs of staking instructions *)

(** [protocol] bounds the stake that no account holds, which the liquid staking pool backs. *)
Record chain_ok (protocol : Z) (c : Chain) : Prop := {
  co_accounts : accounts_wf c;
  co_pool : pool_inv (ch_pool c);
  co_supply : supply c + protocol <= u64_max;
  co_staked : sp_total_staked (ch_pool c) <= part_total Staked c + protocol;
  co_pending : pending_total (ch_pool c) <= part_total Locked c;
}.

(** [c'] has the supply of [c], and its staked and locked balances have moved with
    the pool. *)
Record in_step (c c' : Chain) : Prop := {
  is_supply : supply c' = supply c;
  is_staked : part_total Staked c' - sp_total_staked (ch_pool c')
              = part_total Staked c - sp_total_staked (ch_pool c);
  is_locked : part_total Locked c' - pending_total (ch_pool c')
              = part_total Locked c - pending_total (ch_pool c);
}.

#[global] Instance in_step_refl : Reflexive in_step.
Proof. by intros c. Qed.
#[global] Instance in_step_trans : Transitive in_step.
Proof. intros c d e [] []. split; congruence. Qed.

(** The pool moves [staked] and [pending]; the account moves the same amounts. *)
Lemma move_ok protocol c k a a' p staked pending :
  chain_ok protocol c -> ch_accounts c !! k = Some a -> account_wf a' ->
  pool_inv p -> moved (ch_pool c) p staked pending ->
  part Staked a' = part Staked a + staked -> part Locked a' = part Locked a + pending ->
  ac_spores a' = ac_spores a ->
  let c' := put_account k a' (set_ch_pool p c) in chain_ok protocol c' /\ in_step c c'.
Proof.
  intros [Hwf Hp Hs Hst Hl] Hk Ha' Hp' [Hmt Hmp] Es El Esp c'.
  destruct (put_account_totals c k a a' p Hwf Hk Ha') as (Hwf' & Ht & Hsup).
  fold c' in Hwf', Ht, Hsup.
  assert (sp_total_staked (ch_pool c') = sp_total_staked p) as E1 by done.
  assert (pending_total (ch_pool c') = pending_total p) as E2 by done.
  split; split; rewrite ?E1, ?E2, ?Ht, ?Hsup; try done; try lia.
Qed.

Lemma le_value_nonneg l : Forall is_byte l -> 0 <= le_value l.
Proof. unfold is_byte. induction 1; simpl; lia. Qed.

Lemma read_u64_nonneg data n : Forall is_byte data -> 0 <= read_u64 data n.
Proof. intros Hd. by apply le_value_nonneg, Forall_take, Forall_drop. Qed.

Lemma stake_headroom protocol c k a amount :
  chain_ok protocol c -> ch_accounts c !! k = Some a -> 0 <= amount -> amount <= ac_spendable a ->
  headroom (ch_pool c) amount.
Proof.
  intros [Hwf _ Hs Hst _] Hk H0 Ha. split; [done|].
  pose proof (part_le_total Spendable c k a Hwf Hk). simpl in *.
  pose proof (supply_parts c Hwf). pose proof (part_total_nonneg Locked c Hwf). lia.
Qed.

(** The parts of an account before and after: closes the arithmetic of a move. *)
Ltac flows :=
  repeat match goal with
  | H : forall x, part x ?b = part x ?a + flow ?o ?n x |- _ =>
      pose proof (H Spendable); pose proof (H Staked); pose proof (H Locked); clear H
  | H : account_wf ?a |- _ => pose proof (awf_split _ H); clear H
  end;
  unfold flow in *; simpl in *; lia.

Section runs.
Variable paused : Chain -> bool.
Variable blocked blocked_native : Chain -> Pubkey -> Direction -> Z -> Z -> bool.

Inductive StakingOp := Stake | RequestUnstake | ClaimUnstake.

Definition staking_op (op : StakingOp) : Instruction -> Chain -> result Chain HandlerError :=
  match op with
  | Stake => system_stake paused blocked_native
  | RequestUnstake => system_request_unstake paused blocked
  | ClaimUnstake => system_claim_unstake paused blocked_native
  end.

(** An instruction that fails leaves the chain as it was. *)
Definition staking_step (c : Chain) (op : StakingOp * Instruction) : Chain :=
  match staking_op op.1 op.2 c with Ok c' => c' | Err _ => c end.

Lemma of_pool_Ok {A} (r : result A PoolError) a : of_pool r = Ok a <-> r = Ok a.
Proof. destruct r; simpl; split; intros; simplify_eq; done. Qed.
Lemma of_v2_Ok {A} (r : result A V2Error) a : of_v2 r = Ok a <-> r = Ok a.
Proof. destruct r; simpl; split; intros; simplify_eq; done. Qed.

Lemma system_stake_ok protocol ix c c' :
  chain_ok protocol c -> Forall is_byte (ix_data ix) -> system_stake paused blocked_native ix c = Ok c' ->
  chain_ok protocol c' /\ in_step c c'.
Proof.
  intros Hc Hd H. unfold system_stake in H. destruct (ix_accounts ix) as [|staker [|v ?]]; try done.
  apply guard_Ok in H as [_ H]. set (amount := read_u64 (ix_data ix) 1) in *.
  assert (0 <= amount) as H0 by by apply read_u64_nonneg.
  apply guard_Ok in H as [_ H]. apply or_err_Ok in H as (a & Ha & H). apply guard_Ok in H as [_ H].
  apply guard_Ok in H as [_ H]. apply and_then_Ok in H as (active & _ & H).
  apply and_then_Ok in H as (p & Hpool & H). apply and_then_Ok in H as (a' & Ha' & [= <-]).
  assert (account_wf a) as Hwf by exact (co_accounts protocol c Hc staker a Ha). pose proof (co_pool protocol c Hc) as Hp.
  apply (of_account_Ok Account.OpStake amount a a') in Ha' as (Hwf' & Hf & Hx); [|done|done].
  assert (headroom (ch_pool c) amount) as Hroom by by eapply stake_headroom.
  assert (pool_inv p /\ moved (ch_pool c) p amount 0) as [Hp' Hm].
  { destruct active.
    - apply and_then_Ok in Hpool as (q & Hq%of_pool_Ok & Hpool).
      apply and_then_Ok in Hpool as (slot & _ & Hck%of_v2_Ok). eapply checkpoint_inv; [exact Hck|].
      destruct (Z.eqb_spec staker v) as [->|Hne].
      + split; [by eapply add_validator_stake_inv|by eapply add_validator_stake_moved].
      + split; [by eapply delegate_inv|by eapply delegate_moved].
    - apply of_pool_Ok in Hpool. split; [by eapply stake_with_index_inv|by eapply stake_moved]. }
  apply (move_ok protocol c staker a a' p amount 0); try done; flows.
Qed.

Lemma system_request_unstake_ok protocol ix c c' :
  chain_ok protocol c -> Forall is_byte (ix_data ix) -> system_request_unstake paused blocked ix c = Ok c' ->
  chain_ok protocol c' /\ in_step c c'.
Proof.
  intros Hc Hd H. unfold system_request_unstake in H.
  destruct (ix_accounts ix) as [|staker [|v ?]]; try done.
  apply guard_Ok in H as [_ H]. set (amount := read_u64 (ix_data ix) 1) in *.
  assert (0 <= amount) as H0 by by apply read_u64_nonneg.
  apply guard_Ok in H as [_ H]. apply or_err_Ok in H as (a & Ha & H). apply guard_Ok in H as [_ H].
  apply guard_Ok in H as [_ H]. apply and_then_Ok in H as (active & _ & H).
  apply and_then_Ok in H as (slot & _ & H). apply and_then_Ok in H as (r & Hr%of_pool_Ok & H).
  apply and_then_Ok in H as (p & Hpool & H). apply and_then_Ok in H as (a1 & Ha1 & H).
  apply and_then_Ok in H as (a' & Ha' & [= <-]).
  assert (account_wf a) as Hwf by exact (co_accounts protocol c Hc staker a Ha). pose proof (co_pool protocol c Hc) as Hp.
  apply (of_account_Ok OpUnstake amount a a1) in Ha1 as (Hwf1 & _ & Hx1); [|done|done].
  apply (of_account_Ok OpLock amount a1 a') in Ha' as (Hwf' & _ & Hx); [|done|done].
  assert (pool_inv r.2 /\ moved (ch_pool c) r.2 (- amount) amount) as Hr2.
  { destruct (active && negb (staker =? v)).
    - split; [by eapply request_delegation_unstake_inv|by eapply request_delegation_unstake_moved].
    - split; [by eapply request_unstake_inv|by eapply request_unstake_moved]. }
  assert (pool_inv p /\ moved (ch_pool c) p (- amount) amount) as [Hp' Hm].
  { destruct active; [|by injection Hpool as <-]. apply of_v2_Ok in Hpool. by eapply checkpoint_inv. }
  apply (move_ok protocol c staker a a' p (- amount) amount); try done; flows.
Qed.

Lemma system_claim_unstake_ok protocol ix c c' :
  chain_ok protocol c -> system_claim_unstake paused blocked_native ix c = Ok c' ->
  chain_ok protocol c' /\ in_step c c'.
Proof.
  intros Hc H. unfold system_claim_unstake in H. destruct (ix_accounts ix) as [|staker [|v ?]]; try done.
  apply guard_Ok in H as [_ H]. apply or_err_Ok in H as (a & Ha & H).
  apply and_then_Ok in H as ([amount p] & Hr%of_pool_Ok & H). apply guard_Ok in H as [_ H].
  apply guard_Ok in H as [_ H]. apply and_then_Ok in H as (a' & Ha' & [= <-]).
  assert (account_wf a) as Hwf by exact (co_accounts protocol c Hc staker a Ha). pose proof (co_pool protocol c Hc) as Hp.
  pose proof (claim_unstake_inv _ Hp _ _ _ _ Hr) as Hp'.
  apply claim_unstake_moved in Hr as [Hm H0]; [|done]. simpl in Hm, H0, Hp'.
  apply (of_account_Ok OpUnlock amount a a') in Ha' as (Hwf' & _ & Hx); [|done|done].
  apply (move_ok protocol c staker a a' p 0 (- amount)); try done; flows.
Qed.

Lemma staking_step_ok protocol c op :
  chain_ok protocol c -> Forall is_byte (ix_data op.2) ->
  chain_ok protocol (staking_step c op) /\ in_step c (staking_step c op).
Proof.
  intros Hc Hd. unfold staking_step. destruct (staking_op op.1 op.2 c) as [c'|e] eqn:Hop; [|done].
  destruct op as [[] ix]; simpl in *.
  - by apply (system_stake_ok protocol ix).
  - by apply (system_request_unstake_ok protocol ix).
  - by apply (system_claim_unstake_ok protocol ix).
Qed.

(** C30.  Staking instructions keep the ledger and the stake pool in step: through any
    sequence of stake, request and claim instructions, failed ones included, before
    and after Staking V2, with any stake delegated by the protocol itself, and under any
    governance restrictions, the token supply
    does not change, the staked balances of the accounts move exactly with the
    pool's total stake and the locked balances with its pending unstake requests,
    every account's parts keep summing to its total, and the pool keeps its
    invariants. *)
Theorem staking_keeps_ledger_in_step protocol ops c :
  chain_ok protocol c -> Forall (fun op => Forall is_byte (ix_data op.2)) ops ->
  let c' := foldl staking_step c ops in chain_ok protocol c' /\ in_step c c'.
Proof.
  intros Hc Hops. revert c Hc. induction Hops as [|op ops Hop _ IH]; intros c Hc; simpl; [done|].
  destruct (staking_step_ok protocol c op Hc Hop) as [H1 S1]. destruct (IH _ H1) as [H2 S2].
  split; [done|by etrans].
Qed.
End runs.

(** ** A sample chain

    Validator 1 with its own bond, account 50 with 200,000 LICN, a treasury. *)

Definition bonded (amount : Z) : Account := mkAccount amount 0 amount 0 [] None 9 false 0 false 0.

Definition sample_chain : Chain :=
  mkChain {[ 1 := bonded (2 * MIN_VALIDATOR_STAKE); 50 := Account_new 200000 9;
             99 := Account_new 1000000 9 ]}
    (match StakePool_stake 1 (2 * MIN_VALIDATOR_STAKE) 0 StakePool_new with Ok p => p | Err _ => StakePool_new end)
    1000 None (Some 99) true [].

Definition stake_ix (opcode amount : Z) (accounts : list Pubkey) : Instruction :=
  mkInstruction 0 accounts (opcode :: le_bytes 8 amount).

Lemma sample_chain_ok : chain_ok 0 sample_chain.
Proof.
  split; [|..|vm_compute; discriminate|vm_compute; discriminate|vm_compute; discriminate].
  - apply Forall_map_to_list. vm_compute. repeat constructor; discriminate.
  - apply validate_invariants_iff; [|vm_compute; reflexivity]. apply unsignedb_spec. vm_compute. reflexivity.
Qed.

Lemma staking_keeps_ledger_in_step_witness :
  let free _ _ _ _ _ := false in
  let ops := [(Stake, stake_ix 9 MIN_VALIDATOR_STAKE [50; 1]);
              (RequestUnstake, stake_ix 10 MIN_VALIDATOR_STAKE [50; 1]);
              (ClaimUnstake, stake_ix 11 0 [50; 1])] in
  let c' := foldl (staking_step (fun _ => false) free free) sample_chain ops in
  chain_ok 0 c' /\ in_step sample_chain c'
  /\ pending_total (ch_pool c') = MIN_VALIDATOR_STAKE
  /\ part_total Locked c' = MIN_VALIDATOR_STAKE.
Proof.
  intros free ops c'.
  destruct (staking_keeps_ledger_in_step (fun _ => false) free free 0 ops sample_chain sample_chain_ok) as [H1 H2].
  { repeat constructor; vm_compute; discriminate. }
  split; [exact H1|]. split; [exact H2|]. split; vm_compute; reflexivity.
Defined.

(** ** What the legacy handlers let through *)

Section legacy.
Variable paused : Chain -> bool.
Variable blocked blocked_native : Chain -> Pubkey -> Direction -> Z -> Z -> bool.

(** Before Staking V2 an unstake is not tied to where the stake was placed: an
    account that staked anything anywhere can withdraw from the bond of any vested
    validator.  The instruction succeeds, the pool takes the amount from that
    validator's self-bond, and the account gets it as an unstake request. *)
Theorem legacy_unstake_crosses_validators c ix rest staker victim account s amount :
  pool_inv (ch_pool c) -> account_wf account ->
  ch_staking_v2_activation_slot c = None ->
  paused c = false -> blocked c staker Outgoing amount (ac_spendable account) = false ->
  ix_accounts ix = staker :: victim :: rest -> (9 <= length (ix_data ix))%nat ->
  read_u64 (ix_data ix) 1 = amount ->
  ch_accounts c !! staker = Some account -> 0 < amount <= ac_staked account ->
  sp_stakes (ch_pool c) !! victim = Some s -> StakeInfo_is_fully_vested s = true ->
  amount <= si_amount s -> sp_unstake_requests (ch_pool c) !! (victim, staker) = None ->
  0 <= ch_last_slot c -> ch_last_slot c + UNSTAKE_COOLDOWN_SLOTS <= u64_max ->
  exists c' s', system_request_unstake paused blocked ix c = Ok c'
    /\ sp_stakes (ch_pool c') !! victim = Some s' /\ si_amount s' = si_amount s - amount
    /\ sp_unstake_requests (ch_pool c') !! (victim, staker)
       = Some (mkUnstakeRequest victim staker amount (ch_last_slot c + UNSTAKE_COOLDOWN_SLOTS)).
Proof.
  intros Hp Hwf Hv2 Hpause Hblock Hix Hlen Hread Hacc Ham Hs Hvest Hbond Hreq Hslot Hcool.
  unfold system_request_unstake. rewrite Hix, Hread.
  destruct (Nat.ltb_spec (length (ix_data ix)) 9); [lia|]. rewrite Hpause.
  unfold get_account. rewrite Hacc. cbn [or_err].
  destruct (Z.ltb_spec (ac_staked account) amount); [lia|]. rewrite Hblock.
  unfold staking_v2_active. rewrite Hv2. cbn [and_then andb].
  unfold StakePool_request_unstake. rewrite Hs. cbn [or_err].
  rewrite bool_decide_eq_false_2 by (rewrite Hreq; by intros []).
  unfold StakeInfo_request_unstake. rewrite Hvest. cbn [negb].
  destruct (Z.eqb_spec amount 0); [lia|]. destruct (Z.ltb_spec (si_amount s) amount); [lia|]. cbn [orb].
  rewrite (proj2 (checked_add64_Some _ _ _) (conj eq_refl Hcool)). cbn [or_err lift_stake and_then of_pool].
  pose proof (balance_op_spec OpUnstake amount account Hwf ltac:(lia)) as Hu. simpl in Hu.
  destruct (Account_unstake amount account) as [r1 a1]. destruct Hu as (Hwf1 & Hr1 & _ & Hx1).
  assert (r1 = Ok tt) as -> by (apply Hr1; unfold funded; simpl; lia). cbn [of_account and_then].
  pose proof (balance_op_spec OpLock amount a1 Hwf1 ltac:(lia)) as Hl. simpl in Hl.
  destruct (Account_lock amount a1) as [r2 a2]. destruct Hl as (_ & Hr2 & _ & _).
  assert (r2 = Ok tt) as ->.
  { apply Hr2. unfold funded. simpl. pose proof (Hx1 eq_refl Spendable) as Hx.
    pose proof (awf_spendable _ Hwf). unfold flow in Hx. simpl in Hx. lia. }
  cbn [of_account and_then]. eexists _, _. split; [reflexivity|]. simpl.
  rewrite !lookup_insert_eq. split; [reflexivity|].
  rewrite (ei_key _ _ _ (pi_stakes _ Hp victim s Hs)). split; [|done]. simpl. unfold sat_sub. lia.
Qed.

(** [RegisterValidator] of a validator that already holds its bootstrap grant
    accepts a second machine fingerprint and leaves the first one in the registry:
    the instruction succeeds and the pool it stores no longer passes
    [validate_invariants], so a snapshot of it cannot be imported. *)
Theorem reregistration_invalidates_pool c ix rest validator account s :
  pool_inv (ch_pool c) -> ch_bootstrap_grants_enabled c = true ->
  ix_accounts ix = validator :: rest -> length (ix_data ix) = 33%nat ->
  ch_accounts c !! validator = Some account -> BOOTSTRAP_GRANT_AMOUNT <= ac_staked account ->
  sp_stakes (ch_pool c) !! validator = Some s -> BOOTSTRAP_GRANT_AMOUNT <= StakeInfo_total_stake s ->
  si_machine_fingerprint s <> 0 -> read_array32 (ix_data ix) 1 <> 0 ->
  sp_fingerprint_registry (ch_pool c) !! read_array32 (ix_data ix) 1 = None ->
  exists c', system_register_validator paused blocked_native ix c = Ok c'
    /\ is_ok (StakePool_validate_invariants (ch_pool c')) = false.
Proof.
  intros Hp Hen Hix Hlen Hacc Hst Hs Htot Hfp Hnz Hfree.
  unfold system_register_validator. rewrite Hix. unfold decode_validator_registration_mode.
  rewrite Hlen. cbn [and_then]. destruct (Z.eqb_spec (read_array32 (ix_data ix) 1) 0); [done|].
  unfold system_register_validator_bootstrap_grant, other_owner. rewrite Hen, Hfree, Hacc. cbn [negb].
  destruct (Z.leb_spec BOOTSTRAP_GRANT_AMOUNT (ac_staked account)); [|lia]. rewrite Hs.
  destruct (Z.leb_spec BOOTSTRAP_GRANT_AMOUNT (StakeInfo_total_stake s)); [|lia]. cbn [negb].
  destruct (second_fingerprint_breaks (ch_pool c) validator s (read_array32 (ix_data ix) 1) Hp Hs Hfp Hnz Hfree)
    as (p' & -> & Hbad). cbn [of_pool and_then]. by eexists.
Qed.

(** The slashing handler in force before Staking V2 convicts of a double block
    without proof: any evidence that names two different hashes is accepted, no
    header and no signature of the offender is needed.  The offender loses half of
    its stake, down to the minimum, and the treasury is credited the whole penalty
    while the offender's account is debited at most its own staked balance, so the
    supply grows by the difference. *)
Theorem legacy_double_block_unproven `{Crypto} decode speculative c ix rest offender treasury
  evidence slot h1 h2 account t s :
  let penalty := legacy_penalty MarkDoubleBlock (StakeInfo_total_stake s) in
  ch_staking_v2_activation_slot c = None ->
  ix_accounts ix = offender :: rest -> (2 <= length (ix_data ix))%nat ->
  decode (drop 1 (ix_data ix)) = Some evidence ->
  ev_validator evidence = offender -> ev_offense evidence = DoubleBlock slot h1 h2 -> h1 <> h2 ->
  (offender, slot, MarkDoubleBlock) ∉ ch_slashed_markers c ->
  sp_stakes (ch_pool c) !! offender = Some s -> 0 < si_amount s -> 0 < penalty ->
  ch_treasury c = Some treasury -> treasury <> offender ->
  accounts_wf c -> ch_accounts c !! offender = Some account ->
  ch_accounts c !! treasury = Some t -> ac_spores t + penalty <= u64_max ->
  exists c' s',
    system_slash_validator_legacy decode speculative ix c = Ok c'
    /\ sp_stakes (ch_pool c') !! offender = Some s'
    /\ si_amount s' = si_amount s - Z.min penalty (si_amount s)
    /\ supply c' = supply c + (penalty - Z.min penalty (ac_staked account)).
Proof.
  intros penalty Hv2 Hix Hlen Hdec Hval Hoff Hne Hmark Hs Hs0 Hpen Ht Hto Hwf Hacc Htr Hmax.
  unfold system_slash_validator_legacy. rewrite Hix.
  destruct (Nat.ltb_spec (length (ix_data ix)) 2); [lia|]. rewrite Hdec. cbn [or_err].
  rewrite Hval, Z.eqb_refl, Hoff. cbn [negb legacy_offense].
  destruct (Z.eqb_spec h1 h2); [done|]. cbn [and_then]. rewrite bool_decide_eq_false_2 by done.
  rewrite Hs. cbn [from_option]. fold penalty.
  destruct (Z.eqb_spec (StakeInfo_total_stake s) 0) as [Hz|].
  { unfold penalty, legacy_penalty in Hpen. rewrite Hz in Hpen.
    unfold sat_sub, MIN_VALIDATOR_STAKE in Hpen. lia. }
  destruct (Z.ltb_spec 0 penalty); [|lia]. unfold staking_v2_active. rewrite Hv2. cbn [and_then].
  set (p' := (StakePool_slash_validator offender penalty (ch_pool c)).2).
  assert (exists s', sp_stakes p' !! offender = Some s'
            /\ si_amount s' = si_amount s - Z.min penalty (si_amount s)) as (s' & Hs' & Hs'am).
  { unfold p', StakePool_slash_validator, StakeInfo_slash. rewrite Hs.
    destruct (Z.eqb_spec (Z.min penalty (si_amount s)) 0); [lia|].
    destruct (Z.eqb_spec (si_amount s) 0); [lia|]. simpl. rewrite lookup_insert_eq.
    eexists. split; [reflexivity|]. simpl. unfold sat_sub. lia. }
  unfold move_penalty. cbn [set_ch_pool ch_accounts]. rewrite Hacc.
  set (debit := Z.min penalty (ac_staked account)). cbn [put_account set_ch_accounts set_ch_pool ch_treasury ch_accounts].
  rewrite Ht. cbn [or_err and_then]. rewrite lookup_insert_ne by congruence. rewrite Htr.
  eexists _, s'. split; [reflexivity|].
  assert (forall k q, ch_pool (mark_slashed speculative k q) = ch_pool q
            /\ ch_accounts (mark_slashed speculative k q) = ch_accounts q) as Hms.
  { intros k q. unfold mark_slashed. by destruct speculative. }
  rewrite !(proj1 (Hms _ _)). split; [exact Hs'|]. split; [done|].
  unfold supply. rewrite !(proj2 (Hms _ _)). cbn [put_account set_ch_accounts set_ch_pool ch_accounts].
  destruct (Hwf offender account Hacc) as [W1 W2 W3 W4 W5].
  rewrite (map_sum_insert ac_spores _ treasury t) by (by rewrite lookup_insert_ne by congruence).
  rewrite (map_sum_insert ac_spores _ offender account) by done.
  simpl. unfold sat_add64, sat_sub. lia.
Qed.
End legacy.

(** ** Witnesses of the legacy behaviour *)

Definition free (_ : Chain) (_ : Pubkey) (_ : Direction) (_ _ : Z) : bool := false.

(** Account 50 staked with a validator 2, and withdraws from validator 1. *)
Definition crossing_chain : Chain :=
  mkChain (<[50 := bonded MIN_VALIDATOR_STAKE]> (ch_accounts sample_chain))
    (match StakePool_stake 2 MIN_VALIDATOR_STAKE 0 (ch_pool sample_chain) with
     | Ok p => p | Err _ => StakePool_new end)
    1000 None (Some 99) true [].

Lemma legacy_unstake_crosses_validators_witness :
  exists c' s',
    system_request_unstake (fun _ => false) free (stake_ix 10 MIN_VALIDATOR_STAKE [50; 1]) crossing_chain = Ok c'
    /\ sp_stakes (ch_pool c') !! 1 = Some s' /\ si_amount s' = 2 * MIN_VALIDATOR_STAKE - MIN_VALIDATOR_STAKE.
Proof.
  destruct (sp_stakes (ch_pool crossing_chain) !! 1) as [s|] eqn:Hs; [|vm_compute in Hs; discriminate].
  assert (pool_inv (ch_pool crossing_chain)) as Hp.
  { apply validate_invariants_iff; [|vm_compute; reflexivity]. apply unsignedb_spec. vm_compute. reflexivity. }
  assert (account_wf (bonded MIN_VALIDATOR_STAKE)) as Ha by (split; vm_compute; try discriminate; reflexivity).
  destruct (legacy_unstake_crosses_validators (fun _ => false) free crossing_chain
    (stake_ix 10 MIN_VALIDATOR_STAKE [50; 1]) [] 50 1 (bonded MIN_VALIDATOR_STAKE) s MIN_VALIDATOR_STAKE
    Hp Ha eq_refl eq_refl eq_refl eq_refl) as (c' & s' & Hok & Hs' & Ham & _).
  - vm_compute. repeat constructor.
  - vm_compute. reflexivity.
  - reflexivity.
  - vm_compute. split; [reflexivity|discriminate].
  - exact Hs.
  - vm_compute in Hs. injection Hs as <-. reflexivity.
  - vm_compute in Hs. injection Hs as <-. vm_compute. discriminate.
  - reflexivity.
  - vm_compute. discriminate.
  - vm_compute. discriminate.
  - exists c', s'. split; [exact Hok|]. split; [exact Hs'|]. rewrite Ham.
    vm_compute in Hs. injection Hs as <-. reflexivity.
Defined.

(** Validator 7 received its grant with the machine 77 and registers the machine 78. *)
Definition granted_chain : Chain :=
  mkChain {[ 7 := bonded BOOTSTRAP_GRANT_AMOUNT ]}
    (match StakePool_try_bootstrap_with_fingerprint 7 BOOTSTRAP_GRANT_AMOUNT 0 77 StakePool_new with
     | Ok r => r.2 | Err _ => StakePool_new end)
    1000 None (Some 99) true [].

Lemma reregistration_invalidates_pool_witness :
  let ix := mkInstruction 0 [7] (26 :: be_bytes 32 78) in
  exists c', system_register_validator (fun _ => false) free ix granted_chain = Ok c'
    /\ is_ok (StakePool_validate_invariants (ch_pool c')) = false.
Proof.
  intros ix.
  destruct (sp_stakes (ch_pool granted_chain) !! 7) as [s|] eqn:Hs; [|vm_compute in Hs; discriminate].
  assert (pool_inv (ch_pool granted_chain)) as Hp.
  { apply validate_invariants_iff; [|vm_compute; reflexivity]. apply unsignedb_spec. vm_compute. reflexivity. }
  apply (reregistration_invalidates_pool (fun _ => false) free granted_chain ix [] 7
           (bonded BOOTSTRAP_GRANT_AMOUNT) s Hp eq_refl eq_refl eq_refl eq_refl).
  - vm_compute. discriminate.
  - exact Hs.
  - vm_compute in Hs. injection Hs as <-. vm_compute. discriminate.
  - vm_compute in Hs. injection Hs as <-. discriminate.
  - vm_compute. discriminate.
  - vm_compute. reflexivity.
Defined.

(** Validator 1 of the sample chain, accused of two made-up hashes. *)
Definition forged : SlashingEvidence := mkSlashingEvidence (DoubleBlock 5 111 222) 1 5 60 0.

Lemma legacy_double_block_unproven_witness :
  exists c' s',
    system_slash_validator_legacy (H := Toy.crypto) (fun _ => Some forged) false
      (mkInstruction 0 [1] [27; 0]) sample_chain = Ok c'
    /\ sp_stakes (ch_pool c') !! 1 = Some s' /\ si_amount s' = MIN_VALIDATOR_STAKE.
Proof.
  destruct (sp_stakes (ch_pool sample_chain) !! 1) as [s|] eqn:Hs; [|vm_compute in Hs; discriminate].
  assert (s = StakeInfo_new 1 (2 * MIN_VALIDATOR_STAKE) 0) as ->
    by (vm_compute in Hs; injection Hs as <-; reflexivity).
  destruct (legacy_double_block_unproven (H := Toy.crypto) (fun _ => Some forged) false sample_chain
    (mkInstruction 0 [1] [27; 0]) [] 1 99 forged 5 111 222 (bonded (2 * MIN_VALIDATOR_STAKE))
    (Account_new 1000000 9) (StakeInfo_new 1 (2 * MIN_VALIDATOR_STAKE) 0)
    eq_refl eq_refl ltac:(simpl; lia) eq_refl eq_refl eq_refl ltac:(discriminate))
    as (c' & s' & Hok & Hs' & Ham & _).
  - apply not_elem_of_nil.
  - exact Hs.
  - reflexivity.
  - vm_compute. reflexivity.
  - reflexivity.
  - discriminate.
  - exact (co_accounts 0 _ sample_chain_ok).
  - reflexivity.
  - reflexivity.
  - vm_compute. discriminate.
  - exists c', s'. split; [exact Hok|]. split; [exact Hs'|]. rewrite Ham. reflexivity.
Defined.
