(* ===== verification/Engine.v ===== *)
(** * The consensus engine

    Models [ConsensusEngine] of [validator/src/consensus.rs]: the Tendermint
    state machine that proposes, prevotes, precommits and commits blocks.  The
    engine does no I/O: a handler takes the state and a message or timeout and
    returns a [ConsensusAction] and the new state.

    - [HashMap] and [BTreeMap] are [gmap]; a loop over [keys()] follows
      [map_to_list], and the facts proved about the loops do not depend on the
      order;
    - [SystemTime::now()] in seconds is the argument [now];
    - the [u128] vote tallies are exact sums: a term is below 2^64, so a sum
      overflows only with 2^62 validators or more;
    - [round + 1], [height + 10] and [now + 30] wrap at their width;
    - logging, and [missing_vote_validators], which only feeds a log line, have
      no counterpart. *)

From S2P Require Import Prelude Crypto Block Votes Stake Validators Slashing.
From stdpp Require Import base tactics numbers list gmap strings.
From Stdlib Require Import ZArith Lia.

Local Open Scope Z_scope.

(** ** Configuration, actions and the power snapshot *)

Record ConsensusTimeoutConfig := mkConsensusTimeoutConfig {
  propose_timeout_base_ms : Z;
  prevote_timeout_base_ms : Z;
  precommit_timeout_base_ms : Z;
  max_phase_timeout_ms : Z;
}.

Definition ConsensusTimeoutConfig_default : ConsensusTimeoutConfig := {|
  propose_timeout_base_ms := DEFAULT_BFT_PROPOSE_TIMEOUT_BASE_MS;
  prevote_timeout_base_ms := DEFAULT_BFT_PREVOTE_TIMEOUT_BASE_MS;
  precommit_timeout_base_ms := DEFAULT_BFT_PRECOMMIT_TIMEOUT_BASE_MS;
  max_phase_timeout_ms := DEFAULT_BFT_MAX_PHASE_TIMEOUT_MS;
|}.

Definition FUTURE_MSG_BUFFER_HEIGHTS : Z := 10.
Definition LEADER_CACHE_MAX_ENTRIES : nat := 256.

(** A [Duration] is its number of milliseconds. *)
Inductive ConsensusAction :=
| NoAction
| ScheduleTimeout (step : RoundStep) (millis : Z)
| BroadcastProposal (p : Proposal)
| BroadcastPrevote (v : Prevote)
| BroadcastPrecommit (v : Precommit)
| CommitBlock (height round : Z) (block : Block) (block_hash : Hash)
| RequestBlockRange (start_slot end_slot : Z) (block_hash : Hash)
| Multiple (actions : list ConsensusAction)
| EquivocationDetected (height round : Z) (validator : Pubkey) (vote_type : bytes)
    (hash_1 hash_2 : option Hash) (offense : SlashingOffense).

Definition is_NoAction (a : ConsensusAction) : bool :=
  match a with NoAction => true | _ => false end.

(** [if actions.is_empty() { None } else if actions.len() == 1 { actions.remove(0) }
    else { Multiple(actions) }] *)
Definition collect_actions (actions : list ConsensusAction) : ConsensusAction :=
  match actions with
  | [] => NoAction
  | [a] => a
  | _ => Multiple actions
  end.

Record ConsensusPowerSnapshot := mkConsensusPowerSnapshot {
  ps_eligible_power : gmap Pubkey Z;
  ps_total_eligible_stake : Z;
}.

Definition ConsensusPowerSnapshot_build (validator_set : ValidatorSet) (stake_pool : StakePool)
  (min_validator_stake : Z) : ConsensusPowerSnapshot :=
  foldl (fun acc validator =>
           if vi_pending_activation validator then acc
           else match StakePool_get_stake stake_pool (vi_pubkey validator) with
                | None => acc
                | Some s =>
                    let stake := StakeInfo_total_stake s in
                    if stake <? min_validator_stake then acc
                    else mkConsensusPowerSnapshot
                           (<[vi_pubkey validator := stake]> (ps_eligible_power acc))
                           (sat_add128 (ps_total_eligible_stake acc) stake)
                end)
    (mkConsensusPowerSnapshot ∅ 0) (ValidatorSet_sorted_validators validator_set).

Definition ConsensusPowerSnapshot_eligible_stake (s : ConsensusPowerSnapshot) (validator : Pubkey)
  : option Z := ps_eligible_power s !! validator.

(** ** State *)

Record ConsensusEngine := mkConsensusEngine {
  ce_keypair : Keypair;
  ce_validator_pubkey : Pubkey;
  ce_signing_chain_id : bytes;
  ce_min_validator_stake : Z;
  ce_timeouts : ConsensusTimeoutConfig;
  ce_height : Z;
  ce_round : Z;
  ce_step : RoundStep;
  ce_locked_round : option Z;
  ce_locked_value : option Hash;
  ce_valid_round : option Z;
  ce_valid_value : option Block;
  ce_proposals : gmap Z Proposal;
  ce_prevotes : gmap (Z * option Hash) (list Pubkey);
  ce_precommits : gmap (Z * option Hash) (list Pubkey);
  ce_prevote_power : gmap (Z * option Hash) Z;
  ce_precommit_power : gmap (Z * option Hash) Z;
  ce_prevote_any_power : gmap Z Z;
  ce_precommit_any_power : gmap Z Z;
  ce_proposal_blocks : gmap Hash Block;
  ce_seen_prevotes : gmap (Z * Pubkey) (option Hash);
  ce_seen_prevote_messages : gmap (Z * Pubkey) Prevote;
  ce_seen_precommits : gmap (Z * Pubkey) (option Hash);
  ce_seen_precommit_messages : gmap (Z * Pubkey) Precommit;
  ce_precommit_sigs : gmap (Z * Pubkey) (PqSignature * Z);
  ce_signed_prevote_rounds : gmap Z (option Hash);
  ce_signed_precommit_rounds : gmap Z (option Hash);
  ce_last_committed_block_timestamp : option Z;
  ce_future_prevotes : gmap Z (list Prevote);
  ce_future_precommits : gmap Z (list Precommit);
  ce_power_snapshot : option ConsensusPowerSnapshot;
  ce_leader_cache : gmap (Z * Hash) (option Pubkey);
}.

Definition eta_ConsensusEngine (r : ConsensusEngine) : ConsensusEngine :=
  mkConsensusEngine (ce_keypair r) (ce_validator_pubkey r) (ce_signing_chain_id r)
    (ce_min_validator_stake r) (ce_timeouts r) (ce_height r) (ce_round r) (ce_step r)
    (ce_locked_round r) (ce_locked_value r) (ce_valid_round r) (ce_valid_value r)
    (ce_proposals r) (ce_prevotes r) (ce_precommits r) (ce_prevote_power r)
    (ce_precommit_power r) (ce_prevote_any_power r) (ce_precommit_any_power r)
    (ce_proposal_blocks r) (ce_seen_prevotes r) (ce_seen_prevote_messages r)
    (ce_seen_precommits r) (ce_seen_precommit_messages r) (ce_precommit_sigs r)
    (ce_signed_prevote_rounds r) (ce_signed_precommit_rounds r)
    (ce_last_committed_block_timestamp r) (ce_future_prevotes r) (ce_future_precommits r)
    (ce_power_snapshot r) (ce_leader_cache r).

Definition set_ce_height : Z -> ConsensusEngine -> ConsensusEngine :=
  ltac:(setter eta_ConsensusEngine ce_height).
Definition set_ce_round : Z -> ConsensusEngine -> ConsensusEngine :=
  ltac:(setter eta_ConsensusEngine ce_round).
Definition set_ce_step : RoundStep -> ConsensusEngine -> ConsensusEngine :=
  ltac:(setter eta_ConsensusEngine ce_step).
Definition set_ce_locked_round : option Z -> ConsensusEngine -> ConsensusEngine :=
  ltac:(setter eta_ConsensusEngine ce_locked_round).
Definition set_ce_locked_value : option Hash -> ConsensusEngine -> ConsensusEngine :=
  ltac:(setter eta_ConsensusEngine ce_locked_value).
Definition set_ce_valid_round : option Z -> ConsensusEngine -> ConsensusEngine :=
  ltac:(setter eta_ConsensusEngine ce_valid_round).
Definition set_ce_valid_value : option Block -> ConsensusEngine -> ConsensusEngine :=
  ltac:(setter eta_ConsensusEngine ce_valid_value).
Definition set_ce_proposals : gmap Z Proposal -> ConsensusEngine -> ConsensusEngine :=
  ltac:(setter eta_ConsensusEngine ce_proposals).
Definition set_ce_prevotes : gmap (Z * option Hash) (list Pubkey) -> ConsensusEngine -> ConsensusEngine :=
  ltac:(setter eta_ConsensusEngine ce_prevotes).
Definition set_ce_precommits : gmap (Z * option Hash) (list Pubkey) -> ConsensusEngine -> ConsensusEngine :=
  ltac:(setter eta_ConsensusEngine ce_precommits).
Definition set_ce_prevote_power : gmap (Z * option Hash) Z -> ConsensusEngine -> ConsensusEngine :=
  ltac:(setter eta_ConsensusEngine ce_prevote_power).
Definition set_ce_precommit_power : gmap (Z * option Hash) Z -> ConsensusEngine -> ConsensusEngine :=
  ltac:(setter eta_ConsensusEngine ce_precommit_power).
Definition set_ce_prevote_any_power : gmap Z Z -> ConsensusEngine -> ConsensusEngine :=
  ltac:(setter eta_ConsensusEngine ce_prevote_any_power).
Definition set_ce_precommit_any_power : gmap Z Z -> ConsensusEngine -> ConsensusEngine :=
  ltac:(setter eta_ConsensusEngine ce_precommit_any_power).
Definition set_ce_proposal_blocks : gmap Hash Block -> ConsensusEngine -> ConsensusEngine :=
  ltac:(setter eta_ConsensusEngine ce_proposal_blocks).
Definition set_ce_seen_prevotes : gmap (Z * Pubkey) (option Hash) -> ConsensusEngine -> ConsensusEngine :=
  ltac:(setter eta_ConsensusEngine ce_seen_prevotes).
Definition set_ce_seen_prevote_messages : gmap (Z * Pubkey) Prevote -> ConsensusEngine -> ConsensusEngine :=
  ltac:(setter eta_ConsensusEngine ce_seen_prevote_messages).
Definition set_ce_seen_precommits : gmap (Z * Pubkey) (option Hash) -> ConsensusEngine -> ConsensusEngine :=
  ltac:(setter eta_ConsensusEngine ce_seen_precommits).
Definition set_ce_seen_precommit_messages : gmap (Z * Pubkey) Precommit -> ConsensusEngine -> ConsensusEngine :=
  ltac:(setter eta_ConsensusEngine ce_seen_precommit_messages).
Definition set_ce_precommit_sigs : gmap (Z * Pubkey) (PqSignature * Z) -> ConsensusEngine -> ConsensusEngine :=
  ltac:(setter eta_ConsensusEngine ce_precommit_sigs).
Definition set_ce_signed_prevote_rounds : gmap Z (option Hash) -> ConsensusEngine -> ConsensusEngine :=
  ltac:(setter eta_ConsensusEngine ce_signed_prevote_rounds).
Definition set_ce_signed_precommit_rounds : gmap Z (option Hash) -> ConsensusEngine -> ConsensusEngine :=
  ltac:(setter eta_ConsensusEngine ce_signed_precommit_rounds).
Definition set_ce_last_committed_block_timestamp : option Z -> ConsensusEngine -> ConsensusEngine :=
  ltac:(setter eta_ConsensusEngine ce_last_committed_block_timestamp).
Definition set_ce_future_prevotes : gmap Z (list Prevote) -> ConsensusEngine -> ConsensusEngine :=
  ltac:(setter eta_ConsensusEngine ce_future_prevotes).
Definition set_ce_future_precommits : gmap Z (list Precommit) -> ConsensusEngine -> ConsensusEngine :=
  ltac:(setter eta_ConsensusEngine ce_future_precommits).
Definition set_ce_power_snapshot : option ConsensusPowerSnapshot -> ConsensusEngine -> ConsensusEngine :=
  ltac:(setter eta_ConsensusEngine ce_power_snapshot).
Definition set_ce_leader_cache : gmap (Z * Hash) (option Pubkey) -> ConsensusEngine -> ConsensusEngine :=
  ltac:(setter eta_ConsensusEngine ce_leader_cache).

Definition ConsensusEngine_new_with_chain_id_min_stake_and_timeouts
  (keypair : Keypair) (validator_pubkey : Pubkey) (signing_chain_id : bytes)
  (min_validator_stake : Z) (timeouts : ConsensusTimeoutConfig) : ConsensusEngine :=
  mkConsensusEngine keypair validator_pubkey signing_chain_id min_validator_stake timeouts
    0 0 Commit_ None None None None ∅ ∅ ∅ ∅ ∅ ∅ ∅ ∅ ∅ ∅ ∅ ∅ ∅ ∅ ∅ None ∅ ∅ None ∅.

Definition ConsensusEngine_new_with_min_stake_and_timeouts
  (keypair : Keypair) (validator_pubkey : Pubkey) (min_validator_stake : Z)
  (timeouts : ConsensusTimeoutConfig) : ConsensusEngine :=
  ConsensusEngine_new_with_chain_id_min_stake_and_timeouts keypair validator_pubkey []
    min_validator_stake timeouts.

Definition ConsensusEngine_new_with_min_stake (keypair : Keypair) (validator_pubkey : Pubkey)
  (min_validator_stake : Z) : ConsensusEngine :=
  ConsensusEngine_new_with_min_stake_and_timeouts keypair validator_pubkey min_validator_stake
    ConsensusTimeoutConfig_default.

Definition ConsensusEngine_new (keypair : Keypair) (validator_pubkey : Pubkey) : ConsensusEngine :=
  ConsensusEngine_new_with_min_stake keypair validator_pubkey MIN_VALIDATOR_STAKE.

Definition leader_selection_slot (height round : Z) : Z := sat_add64 height round.

(** [start_height]: everything that belongs to a height is cleared. *)
Definition start_height (height : Z) (e : ConsensusEngine) : ConsensusEngine :=
  mkConsensusEngine (ce_keypair e) (ce_validator_pubkey e) (ce_signing_chain_id e)
    (ce_min_validator_stake e) (ce_timeouts e)
    height 0 Propose None None None None ∅ ∅ ∅ ∅ ∅ ∅ ∅ ∅ ∅ ∅ ∅ ∅ ∅ ∅ ∅
    (ce_last_committed_block_timestamp e)
    (filter (fun hv => height <= hv.1) (ce_future_prevotes e))
    (filter (fun hv => height <= hv.1) (ce_future_precommits e))
    None ∅.

(** ** Timeouts *)

Fixpoint backoff (n : nat) (timeout max_timeout_ms : Z) : Z :=
  match n with
  | O => timeout
  | S n => backoff n (Z.min (wrap64 (timeout * 3) / 2) max_timeout_ms) max_timeout_ms
  end.

Definition exponential_timeout (base_ms round max_timeout_ms : Z) : Z :=
  Z.min (backoff (Z.to_nat (Z.min round 20)) base_ms max_timeout_ms) max_timeout_ms.

Definition propose_timeout (e : ConsensusEngine) : Z :=
  exponential_timeout (propose_timeout_base_ms (ce_timeouts e)) (ce_round e)
    (max_phase_timeout_ms (ce_timeouts e)).

Definition prevote_timeout (e : ConsensusEngine) : Z :=
  exponential_timeout (prevote_timeout_base_ms (ce_timeouts e)) (ce_round e)
    (max_phase_timeout_ms (ce_timeouts e)).

Definition precommit_timeout (e : ConsensusEngine) : Z :=
  exponential_timeout (precommit_timeout_base_ms (ce_timeouts e)) (ce_round e)
    (max_phase_timeout_ms (ce_timeouts e)).

Definition start_round (round : Z) (e : ConsensusEngine) : ConsensusAction * ConsensusEngine :=
  let e := set_ce_round round e in
  let e := set_ce_step Propose e in
  (ScheduleTimeout Propose (propose_timeout e), e).

Definition resume_at_round_if_higher (target_round : Z) (e : ConsensusEngine) : ConsensusEngine :=
  if target_round <=? ce_round e then e
  else set_ce_step Propose (set_ce_round target_round e).

Definition resume_after_recovered_round (recovered_round : Z) (e : ConsensusEngine)
  : ConsensusEngine :=
  resume_at_round_if_higher (Z.min (recovered_round + 1) u32_max) e.

Definition valid_transition (old new : RoundStep) : bool :=
  match old, new with
  | Propose, Prevote_ | Prevote_, Precommit_ | Precommit_, Commit_ | Propose, Commit_
  | Prevote_, Commit_ | Prevote_, Prevote_ | Precommit_, Precommit_ => true
  | _, _ => false
  end.

Definition transition_to (new_step : RoundStep) (e : ConsensusEngine) : ConsensusEngine :=
  if valid_transition (ce_step e) new_step then set_ce_step new_step e else e.

(** ** Voting power *)

(** [map.entry(key).or_default().push(v)] and [*map.entry(key).or_default() += p]. *)
Definition push_vote {K} `{Countable K} (key : K) (v : Pubkey) (m : gmap K (list Pubkey))
  : gmap K (list Pubkey) := <[key := default [] (m !! key) ++ [v]]> m.
Definition add_power {K} `{Countable K} (key : K) (p : Z) (m : gmap K Z) : gmap K Z :=
  <[key := default 0 (m !! key) + p]> m.

Definition add_prevote_power (round : Z) (block_hash : option Hash) (voting_power : Z)
  (e : ConsensusEngine) : ConsensusEngine :=
  let e := set_ce_prevote_power (add_power (round, block_hash) voting_power (ce_prevote_power e)) e in
  set_ce_prevote_any_power (add_power round voting_power (ce_prevote_any_power e)) e.

Definition add_precommit_power (round : Z) (block_hash : option Hash) (voting_power : Z)
  (e : ConsensusEngine) : ConsensusEngine :=
  let e :=
    set_ce_precommit_power (add_power (round, block_hash) voting_power (ce_precommit_power e)) e in
  set_ce_precommit_any_power (add_power round voting_power (ce_precommit_any_power e)) e.

Definition rebuild_any_power (snapshot : ConsensusPowerSnapshot) (keys : list (Z * Pubkey))
  : gmap Z Z :=
  foldl (fun m '(round, pk) =>
           match ConsensusPowerSnapshot_eligible_stake snapshot pk with
           | Some power => add_power round power m
           | None => m
           end) ∅ keys.

Definition rebuild_vote_power_tallies (e : ConsensusEngine) : ConsensusEngine :=
  let e := set_ce_prevote_power ∅ e in
  let e := set_ce_precommit_power ∅ e in
  let e := set_ce_prevote_any_power ∅ e in
  let e := set_ce_precommit_any_power ∅ e in
  match ce_power_snapshot e with
  | None => e
  | Some snapshot =>
      let power voters :=
        sumZ id (omap (ConsensusPowerSnapshot_eligible_stake snapshot) voters) in
      let keys {A} (m : gmap (Z * Pubkey) A) := (map_to_list m).*1 in
      let e := set_ce_prevote_power (power <$> ce_prevotes e) e in
      let e := set_ce_prevote_any_power (rebuild_any_power snapshot (keys (ce_seen_prevotes e))) e in
      let e := set_ce_precommit_power (power <$> ce_precommits e) e in
      set_ce_precommit_any_power (rebuild_any_power snapshot (keys (ce_seen_precommits e))) e
  end.

Definition locked_state (e : ConsensusEngine) : option (Z * Hash) :=
  match ce_locked_round e, ce_locked_value e with
  | Some r, Some h => Some (r, h)
  | _, _ => None
  end.

Section engine.
Context `{Crypto} (validator_set : ValidatorSet) (stake_pool : StakePool) (now : Z).
Implicit Types e : ConsensusEngine.

Definition rebuild_power_snapshot e : ConsensusEngine :=
  let e := set_ce_leader_cache ∅ e in
  let e := set_ce_power_snapshot
             (Some (ConsensusPowerSnapshot_build validator_set stake_pool
                      (ce_min_validator_stake e))) e in
  rebuild_vote_power_tallies e.

Definition expected_leader_cached (leader_slot : Z) (parent_hash : Hash) e
  : option Pubkey * ConsensusEngine :=
  let key := (leader_slot, parent_hash) in
  match ce_leader_cache e !! key with
  | Some leader => (leader, e)
  | None =>
      let leader :=
        ValidatorSet_select_leader_weighted validator_set leader_slot stake_pool
          (be_bytes 32 parent_hash) (ce_min_validator_stake e) in
      let e := if (LEADER_CACHE_MAX_ENTRIES <=? size (ce_leader_cache e))%nat
               then set_ce_leader_cache ∅ e else e in
      (leader, set_ce_leader_cache (<[key := leader]> (ce_leader_cache e)) e)
  end.

Definition is_proposer (parent_hash : Hash) e : bool * ConsensusEngine :=
  let leader_slot := leader_selection_slot (ce_height e) (ce_round e) in
  let '(leader, e) := expected_leader_cached leader_slot parent_hash e in
  (bool_decide (leader = Some (ce_validator_pubkey e)), e).

Definition eligible_stake e (validator : Pubkey) : option Z :=
  match ce_power_snapshot e with
  | Some snapshot => ConsensusPowerSnapshot_eligible_stake snapshot validator
  | None =>
      match ValidatorSet_get_validator validator_set validator with
      | None => None
      | Some info =>
          if vi_pending_activation info then None
          else match StakePool_get_stake stake_pool validator with
               | None => None
               | Some s =>
                   let stake := StakeInfo_total_stake s in
                   if stake <? ce_min_validator_stake e then None else Some stake
               end
      end
  end.

Definition is_eligible_validator e (validator : Pubkey) : bool :=
  bool_decide (is_Some (eligible_stake e validator)).

Definition voter_stake e (voters : list Pubkey) : Z := sumZ id (omap (eligible_stake e) voters).

Definition total_eligible_stake e : Z :=
  match ce_power_snapshot e with
  | Some snapshot => ps_total_eligible_stake snapshot
  | None =>
      sumZ id (omap (fun v => eligible_stake e (vi_pubkey v))
                 (ValidatorSet_sorted_validators validator_set))
  end.

Definition has_supermajority_voters e (voters : list Pubkey) : bool :=
  let vote_stake := voter_stake e voters in
  let total := total_eligible_stake e in
  if total =? 0 then false else total * 2 <=? vote_stake * 3.

Definition has_supermajority_power e (vote_power : Z) : bool :=
  let total := total_eligible_stake e in
  (0 <? total) && (total * 2 <=? vote_power * 3).

(** The cached power of a bucket, or the stake of its voters. *)
Definition prevote_bucket_power e (key : Z * option Hash) : Z :=
  match ce_prevote_power e !! key with
  | Some p => p
  | None => match ce_prevotes e !! key with Some voters => voter_stake e voters | None => 0 end
  end.

Definition precommit_bucket_power e (key : Z * option Hash) : Z :=
  match ce_precommit_power e !! key with
  | Some p => p
  | None => match ce_precommits e !! key with Some voters => voter_stake e voters | None => 0 end
  end.

(** The [for key in self.prevotes.keys()] loop that looks for a polka. *)
Definition find_polka e (round : Z) : option Hash :=
  head (omap (fun key : Z * option Hash =>
                if negb (key.1 =? round) then None
                else match key.2 with
                     | None => None
                     | Some bh =>
                         if has_supermajority_power e (prevote_bucket_power e key)
                         then Some bh else None
                     end)
          (map_to_list (ce_prevotes e)).*1).

Definition find_commit e (round : Z) : option Hash :=
  head (omap (fun key : Z * option Hash =>
                if negb (key.1 =? round) then None
                else match key.2 with
                     | None => None
                     | Some bh =>
                         if has_supermajority_power e (precommit_bucket_power e key)
                         then Some bh else None
                     end)
          (map_to_list (ce_precommits e)).*1).

Definition collect_commit_signatures e (round : Z) (block_hash : Hash) : list CommitSignature :=
  match ce_precommits e !! (round, Some block_hash) with
  | None => []
  | Some voters =>
      omap (fun pk =>
              (fun '(sig, ts) => mkCommitSignature pk sig ts)
                <$> ce_precommit_sigs e !! (round, pk))
        (List.filter (is_eligible_validator e) voters)
  end.

Definition has_polka_for e (round : Z) (block_hash : option Hash) : bool :=
  match ce_prevotes e !! (round, block_hash) with
  | Some v => has_supermajority_voters e v
  | None => false
  end.

(** Stake of the voters of [round] among the keys of a dedup map. *)
Definition seen_stake {A} e (round : Z) (seen : gmap (Z * Pubkey) A) : Z :=
  sumZ id (omap (fun key : Z * Pubkey =>
                   if key.1 =? round then eligible_stake e key.2 else None)
             (map_to_list seen).*1).

Definition has_any_supermajority_prevotes e (round : Z) : bool :=
  let total := total_eligible_stake e in
  if total =? 0 then false
  else match ce_prevote_any_power e !! round with
       | Some vote_power => total * 2 <=? vote_power * 3
       | None => total * 2 <=? seen_stake e round (ce_seen_prevotes e) * 3
       end.

Definition has_any_supermajority_precommits e (round : Z) : bool :=
  let total := total_eligible_stake e in
  if total =? 0 then false
  else match ce_precommit_any_power e !! round with
       | Some vote_power => total * 2 <=? vote_power * 3
       | None => total * 2 <=? seen_stake e round (ce_seen_precommits e) * 3
       end.

(** ** Signing votes *)

(** [committed.commit_round = round; committed.commit_signatures = sigs] *)
Definition with_commit (round : Z) (sigs : list CommitSignature) (b : Block) : Block :=
  mkBlock (blk_header b) (blk_transactions b) (blk_tx_fees_paid b) (blk_oracle_prices b)
    round sigs.

Definition record_own_precommit (precommit : Precommit) e : ConsensusEngine :=
  let bh := pc_block_hash precommit in
  let me := ce_validator_pubkey e in
  let e := set_ce_signed_precommit_rounds
             (<[ce_round e := bh]> (ce_signed_precommit_rounds e)) e in
  let e := set_ce_seen_precommits (<[(ce_round e, me) := bh]> (ce_seen_precommits e)) e in
  let e := set_ce_seen_precommit_messages
             (<[(ce_round e, me) := precommit]> (ce_seen_precommit_messages e)) e in
  let e := set_ce_precommits (push_vote (ce_round e, bh) me (ce_precommits e)) e in
  let e := set_ce_precommit_sigs
             (<[(ce_round e, me) := (pc_signature precommit, pc_timestamp precommit)]>
                (ce_precommit_sigs e)) e in
  match eligible_stake e me with
  | Some voter_power => add_precommit_power (ce_round e) bh voter_power e
  | None => e
  end.

Definition do_precommit (block_hash : option Hash) e : ConsensusAction * ConsensusEngine :=
  if decide (is_Some (ce_signed_precommit_rounds e !! ce_round e)) then (NoAction, e)
  else
    let timestamp := now in
    let msg := Precommit_signing_bytes_for_chain_id (ce_signing_chain_id e) (ce_height e)
                 (ce_round e) block_hash timestamp in
    let signature := Keypair_sign (ce_keypair e) msg in
    let precommit := mkPrecommit (ce_height e) (ce_round e) block_hash
                       (ce_validator_pubkey e) signature timestamp in
    let e := record_own_precommit precommit e in
    let broadcast := BroadcastPrecommit precommit in
    let round := ce_round e in
    match block_hash with
    | Some bh =>
        let has_commit := has_supermajority_power e (precommit_bucket_power e (round, Some bh)) in
        let block_clone := if has_commit then ce_proposal_blocks e !! bh else None in
        match block_clone with
        | Some block =>
            let e := transition_to Commit_ e in
            let committed :=
              with_commit round (collect_commit_signatures e round bh) block in
            (Multiple [broadcast; CommitBlock (ce_height e) round committed bh], e)
        | None => (broadcast, e)
        end
    | None =>
        if has_supermajority_power e (precommit_bucket_power e (round, None)) then
          let '(advance, e) := start_round (wrap32 (round + 1)) e in
          (Multiple [broadcast; advance], e)
        else (broadcast, e)
    end.

(** A polka for [bh] at the current round: remember the value and lock on it. *)
Definition lock_on (round : Z) (bh : Hash) e : ConsensusEngine :=
  let e := set_ce_valid_round (Some round) e in
  let e := match ce_proposal_blocks e !! bh with
           | Some block => set_ce_valid_value (Some block) e
           | None => e
           end in
  let e := set_ce_locked_round (Some round) e in
  let e := set_ce_locked_value (Some bh) e in
  transition_to Precommit_ e.

Definition record_own_prevote (prevote : Prevote) e : ConsensusEngine :=
  let bh := pv_block_hash prevote in
  let me := ce_validator_pubkey e in
  let e := set_ce_signed_prevote_rounds (<[ce_round e := bh]> (ce_signed_prevote_rounds e)) e in
  let e := set_ce_seen_prevotes (<[(ce_round e, me) := bh]> (ce_seen_prevotes e)) e in
  let e := set_ce_seen_prevote_messages
             (<[(ce_round e, me) := prevote]> (ce_seen_prevote_messages e)) e in
  let e := set_ce_prevotes (push_vote (ce_round e, bh) me (ce_prevotes e)) e in
  match eligible_stake e me with
  | Some voter_power => add_prevote_power (ce_round e) bh voter_power e
  | None => e
  end.

Definition do_prevote (block_hash : option Hash) e : ConsensusAction * ConsensusEngine :=
  if decide (is_Some (ce_signed_prevote_rounds e !! ce_round e)) then (NoAction, e)
  else
    let e := transition_to Prevote_ e in
    let msg := Prevote_signing_bytes_for_chain_id (ce_signing_chain_id e) (ce_height e)
                 (ce_round e) block_hash in
    let signature := Keypair_sign (ce_keypair e) msg in
    let prevote := mkPrevote (ce_height e) (ce_round e) block_hash (ce_validator_pubkey e)
                     signature in
    let e := record_own_prevote prevote e in
    let broadcast := BroadcastPrevote prevote in
    let round := ce_round e in
    match block_hash with
    | Some bh =>
        if has_supermajority_power e (prevote_bucket_power e (round, Some bh)) then
          let e := lock_on round bh e in
          let '(precommit_action, e) := do_precommit (Some bh) e in
          (Multiple [broadcast; precommit_action], e)
        else (broadcast, e)
    | None =>
        if has_supermajority_power e (prevote_bucket_power e (round, None)) then
          let e := transition_to Precommit_ e in
          let '(precommit_action, e) := do_precommit None e in
          (Multiple [broadcast; precommit_action], e)
        else (broadcast, e)
    end.

(** ** Proposals *)

Definition should_prevote_proposal_block (proposal : Proposal) (block_hash : Hash) e : bool :=
  if bool_decide (ce_locked_round e = None) || bool_decide (ce_locked_value e = Some block_hash)
  then true
  else if 0 <=? pr_valid_round proposal then
    let vr := wrap32 (pr_valid_round proposal) in
    match ce_locked_round e with
    | Some lr => (lr <? vr) && has_polka_for e vr (Some block_hash)
    | None => has_polka_for e vr (Some block_hash)
    end
  else false.

Definition prevote_for_current_round_proposal (proposal : Proposal) e
  : ConsensusAction * ConsensusEngine :=
  if negb (pr_height proposal =? ce_height e) || negb (pr_round proposal =? ce_round e)
     || negb (bool_decide (ce_step e = Propose))
  then (NoAction, e)
  else
    let block_hash := Block_hash (pr_block proposal) in
    if should_prevote_proposal_block proposal block_hash e
    then do_prevote (Some block_hash) e
    else do_prevote None e.

Definition process_current_round_proposal_if_present e : ConsensusAction * ConsensusEngine :=
  if negb (bool_decide (ce_step e = Propose)) then (NoAction, e)
  else match ce_proposals e !! ce_round e with
       | None => (NoAction, e)
       | Some proposal => prevote_for_current_round_proposal proposal e
       end.

(** The block to propose and its valid round; [None] when the locked block is
    not available. *)
Definition proposal_value (fresh_block : Block) e : option (Block * Z) :=
  let round_or_minus_1 o := match o with Some r => as_i32 r | None => -1 end in
  match ce_locked_value e with
  | Some locked_hash =>
      let locked_block :=
        match ce_valid_value e with
        | Some block => if Block_hash block =? locked_hash then Some block
                        else ce_proposal_blocks e !! locked_hash
        | None => ce_proposal_blocks e !! locked_hash
        end in
      (fun block => (block, round_or_minus_1 (ce_locked_round e))) <$> locked_block
  | None =>
      match ce_valid_value e with
      | Some vb => Some (vb, round_or_minus_1 (ce_valid_round e))
      | None => Some (fresh_block, -1)
      end
  end.

Definition create_proposal (fresh_block : Block) e : ConsensusAction * ConsensusEngine :=
  if negb (bool_decide (ce_step e = Propose)) then (NoAction, e)
  else match proposal_value fresh_block e with
       | None => (ScheduleTimeout Propose (propose_timeout e), e)
       | Some (block, valid_round) =>
           let block_hash := Block_hash block in
           let sig_bytes :=
             Proposal_signing_bytes_static_for_chain_id (ce_signing_chain_id e) (ce_height e)
               (ce_round e) block_hash valid_round in
           let signature := Keypair_sign (ce_keypair e) sig_bytes in
           let proposal := mkProposal (ce_height e) (ce_round e) block valid_round
                             (ce_validator_pubkey e) signature in
           let e := set_ce_proposal_blocks
                      (<[block_hash := pr_block proposal]> (ce_proposal_blocks e)) e in
           let e := set_ce_proposals (<[ce_round e := proposal]> (ce_proposals e)) e in
           let '(prevote_action, e) := do_prevote (Some block_hash) e in
           (* [self.proposals[&self.round]] after the prevote: the round is unchanged
              ([create_proposal_round]), so the lookup finds [proposal]. *)
           (Multiple [BroadcastProposal (default proposal (ce_proposals e !! ce_round e));
                      prevote_action], e)
       end.

Definition on_proposal (proposal : Proposal) e : ConsensusAction * ConsensusEngine :=
  if ce_height e <? pr_height proposal then (NoAction, e)
  else if pr_height proposal <? ce_height e then (NoAction, e)
  else if pr_round proposal <? ce_round e then (NoAction, e)
  else if negb (Proposal_verify_signature_with_chain_id (ce_signing_chain_id e) proposal)
  then (NoAction, e)
  else
    let parent_hash := hdr_parent_hash (blk_header (pr_block proposal)) in
    let leader_slot := leader_selection_slot (ce_height e) (pr_round proposal) in
    let '(expected_leader, e) := expected_leader_cached leader_slot parent_hash e in
    if negb (bool_decide (expected_leader = Some (pr_proposer proposal))) then (NoAction, e)
    else if negb (Block_verify_signature_with_chain_id (ce_signing_chain_id e) (pr_block proposal))
    then (NoAction, e)
    else
      let proposed_ts := hdr_timestamp (blk_header (pr_block proposal)) in
      let too_old :=
        match ce_last_committed_block_timestamp e with
        | Some parent_ts => proposed_ts <? parent_ts
        | None => false
        end in
      if too_old then (NoAction, e)
      else if wrap64 (now + 30) <? proposed_ts then (NoAction, e)
      else
        let block_hash := Block_hash (pr_block proposal) in
        let e := set_ce_proposal_blocks
                   (<[block_hash := pr_block proposal]> (ce_proposal_blocks e)) e in
        let e := set_ce_proposals (<[pr_round proposal := proposal]> (ce_proposals e)) e in
        if ce_round e <? pr_round proposal then (NoAction, e)
        else if negb (bool_decide (ce_step e = Propose)) then (NoAction, e)
        else prevote_for_current_round_proposal proposal e.

(** ** Round skip *)

(** Distinct keys of [seen] at rounds above the current one. *)
Definition future_keys {A} e (seen : gmap (Z * Pubkey) A) : list (Z * Pubkey) :=
  filter (fun key : Z * Pubkey => ce_round e < key.1) (map_to_list seen).*1.

(** The loop over [0..100]: the actions it pushes and the state it ends in. *)
Fixpoint catch_up (fuel : nat) e : list ConsensusAction * ConsensusEngine :=
  match fuel with
  | O => ([], e)
  | S fuel =>
      let round := ce_round e in
      match ce_proposals e !! round with
      | Some proposal =>
          let '(prevote_action, e) := prevote_for_current_round_proposal proposal e in
          ([prevote_action], e)
      | None =>
          let '(prevote_action, e) := do_prevote None e in
          if round <? ce_round e then
            let '(actions, e) := catch_up fuel e in (prevote_action :: actions, e)
          else ([prevote_action], e)
      end
  end.

Definition check_round_skip e : ConsensusAction * ConsensusEngine :=
  let total := total_eligible_stake e in
  if total =? 0 then (NoAction, e)
  else
    let keys := future_keys e (ce_seen_prevotes e) ++ future_keys e (ce_seen_precommits e) in
    let future_voters : gset Pubkey := list_to_set keys.*2 in
    let max_round := foldr Z.max (ce_round e) keys.*1 in
    if max_round =? ce_round e then (NoAction, e)
    else
      let future_stake := voter_stake e (elements future_voters) in
      if total <? future_stake * 3 then
        let '(skip_action, e) := start_round max_round e in
        let '(actions, e) := catch_up 100 e in
        (collect_actions (skip_action :: actions), e)
      else (NoAction, e).

(** ** Incoming votes *)

Definition VOTE_TYPE_PREVOTE : bytes := str_bytes "prevote".
Definition VOTE_TYPE_PRECOMMIT : bytes := str_bytes "precommit".

(** [if !matches!(a, None) { actions.push(a) }] *)
Definition push_action (a : ConsensusAction) (actions : list ConsensusAction)
  : list ConsensusAction := if is_NoAction a then actions else actions ++ [a].

Definition record_prevote (prevote : Prevote) (voter_power : Z) e : ConsensusEngine :=
  let dedup_key := (pv_round prevote, pv_validator prevote) in
  let e := set_ce_seen_prevotes (<[dedup_key := pv_block_hash prevote]> (ce_seen_prevotes e)) e in
  let e := set_ce_seen_prevote_messages
             (<[dedup_key := prevote]> (ce_seen_prevote_messages e)) e in
  let e := set_ce_prevotes
             (push_vote (pv_round prevote, pv_block_hash prevote) (pv_validator prevote)
                (ce_prevotes e)) e in
  add_prevote_power (pv_round prevote) (pv_block_hash prevote) voter_power e.

(** Rules 1 to 3 and the round skip, after the prevote is recorded; [round] is
    the round of the prevote. *)
Definition prevote_rule_1 (round : Z) e : list ConsensusAction * ConsensusEngine :=
  if (round =? ce_round e) && bool_decide (ce_step e = Prevote_) then
    match find_polka e round with
    | Some bh =>
        let e := lock_on round bh e in
        let '(a, e) := do_precommit (Some bh) e in ([a], e)
    | None => ([], e)
    end
  else ([], e).

Definition prevote_rule_2 (round : Z) e : list ConsensusAction * ConsensusEngine :=
  if (round =? ce_round e) && bool_decide (ce_step e = Prevote_) then
    if has_supermajority_power e (prevote_bucket_power e (round, None)) then
      let e := transition_to Precommit_ e in
      let '(a, e) := do_precommit None e in ([a], e)
    else ([], e)
  else ([], e).

Definition prevote_rule_3 (round : Z) e : list ConsensusAction :=
  if (round =? ce_round e) && bool_decide (ce_step e = Prevote_)
     && has_any_supermajority_prevotes e round
  then [ScheduleTimeout Prevote_ (prevote_timeout e)] else [].

Definition round_skip_rule (round : Z) e : list ConsensusAction * ConsensusEngine :=
  if ce_round e <? round then
    let '(skip, e) := check_round_skip e in (push_action skip [], e)
  else ([], e).

Definition on_prevote (prevote : Prevote) e : ConsensusAction * ConsensusEngine :=
  if ce_height e <? pv_height prevote then
    if pv_height prevote <=? wrap64 (ce_height e + FUTURE_MSG_BUFFER_HEIGHTS) then
      (NoAction,
       set_ce_future_prevotes
         (<[pv_height prevote :=
              default [] (ce_future_prevotes e !! pv_height prevote) ++ [prevote]]>
            (ce_future_prevotes e)) e)
    else (NoAction, e)
  else if pv_height prevote <? ce_height e then (NoAction, e)
  else if negb (Prevote_verify_signature_with_chain_id (ce_signing_chain_id e) prevote)
  then (NoAction, e)
  else match eligible_stake e (pv_validator prevote) with
       | None => (NoAction, e)
       | Some voter_power =>
           let dedup_key := (pv_round prevote, pv_validator prevote) in
           match ce_seen_prevotes e !! dedup_key with
           | Some existing_hash =>
               if bool_decide (existing_hash <> pv_block_hash prevote) then
                 match ce_seen_prevote_messages e !! dedup_key with
                 | None => (NoAction, e)
                 | Some existing_vote =>
                     (EquivocationDetected (ce_height e) (pv_round prevote)
                        (pv_validator prevote) VOTE_TYPE_PREVOTE existing_hash
                        (pv_block_hash prevote) (DoublePrevoteV2 existing_vote prevote), e)
                 end
               else (NoAction, e)
           | None =>
               let e := record_prevote prevote voter_power e in
               let round := pv_round prevote in
               let '(a1, e) := prevote_rule_1 round e in
               let '(a2, e) := prevote_rule_2 round e in
               let a3 := prevote_rule_3 round e in
               let '(a4, e) := round_skip_rule round e in
               (collect_actions (a1 ++ a2 ++ a3 ++ a4), e)
           end
       end.

Definition record_precommit (precommit : Precommit) (voter_power : Z) e : ConsensusEngine :=
  let dedup_key := (pc_round precommit, pc_validator precommit) in
  let e := set_ce_seen_precommits
             (<[dedup_key := pc_block_hash precommit]> (ce_seen_precommits e)) e in
  let e := set_ce_seen_precommit_messages
             (<[dedup_key := precommit]> (ce_seen_precommit_messages e)) e in
  let e := set_ce_precommits
             (push_vote (pc_round precommit, pc_block_hash precommit) (pc_validator precommit)
                (ce_precommits e)) e in
  let e := add_precommit_power (pc_round precommit) (pc_block_hash precommit) voter_power e in
  set_ce_precommit_sigs
    (<[dedup_key := (pc_signature precommit, pc_timestamp precommit)]> (ce_precommit_sigs e)) e.

Definition precommit_rule_3 (round : Z) e : list ConsensusAction :=
  if (round =? ce_round e) && bool_decide (ce_step e = Precommit_)
     && has_any_supermajority_precommits e round
  then [ScheduleTimeout Precommit_ (precommit_timeout e)] else [].

(** The rules after the precommit is recorded; [round] is its round. *)
Definition precommit_rules (round : Z) e : ConsensusAction * ConsensusEngine :=
  let commit_hash := find_commit e round in
  let block_clone :=
    match commit_hash with Some bh => ce_proposal_blocks e !! bh | None => None end in
  match commit_hash, block_clone with
  | Some bh, Some block =>
      let e := transition_to Commit_ e in
      let e := set_ce_last_committed_block_timestamp
                 (Some (hdr_timestamp (blk_header block))) e in
      let committed := with_commit round (collect_commit_signatures e round bh) block in
      (CommitBlock (ce_height e) round committed bh, e)
  | _, _ =>
      let a1 :=
        match commit_hash with
        | Some bh => [RequestBlockRange (ce_height e) (ce_height e) bh]
        | None => []
        end in
      if (round =? ce_round e)
         && has_supermajority_power e (precommit_bucket_power e (round, None))
      then start_round (wrap32 (round + 1)) e
      else
        let a3 := precommit_rule_3 round e in
        let '(a4, e) := round_skip_rule round e in
        (collect_actions (a1 ++ a3 ++ a4), e)
  end.

Definition on_precommit (precommit : Precommit) e : ConsensusAction * ConsensusEngine :=
  if ce_height e <? pc_height precommit then
    if pc_height precommit <=? wrap64 (ce_height e + FUTURE_MSG_BUFFER_HEIGHTS) then
      (NoAction,
       set_ce_future_precommits
         (<[pc_height precommit :=
              default [] (ce_future_precommits e !! pc_height precommit) ++ [precommit]]>
            (ce_future_precommits e)) e)
    else (NoAction, e)
  else if pc_height precommit <? ce_height e then (NoAction, e)
  else if negb (Precommit_verify_signature_with_chain_id (ce_signing_chain_id e) precommit)
  then (NoAction, e)
  else match eligible_stake e (pc_validator precommit) with
       | None => (NoAction, e)
       | Some voter_power =>
           let dedup_key := (pc_round precommit, pc_validator precommit) in
           match ce_seen_precommits e !! dedup_key with
           | Some existing_hash =>
               if bool_decide (existing_hash <> pc_block_hash precommit) then
                 match ce_seen_precommit_messages e !! dedup_key with
                 | None => (NoAction, e)
                 | Some existing_vote =>
                     (EquivocationDetected (ce_height e) (pc_round precommit)
                        (pc_validator precommit) VOTE_TYPE_PRECOMMIT existing_hash
                        (pc_block_hash precommit) (DoublePrecommitV2 existing_vote precommit), e)
                 end
               else (NoAction, e)
           | None =>
               if bool_decide (ce_step e = Commit_) then (NoAction, e)
               else
                 let e := record_precommit precommit voter_power e in
                 precommit_rules (pc_round precommit) e
           end
       end.

(** ** Replay of buffered votes and timeouts *)

(** [for v in votes { let a = handle(v); if !matches!(a, None) { actions.push(a) } }] *)
Fixpoint replay {V} (handle : V -> ConsensusEngine -> ConsensusAction * ConsensusEngine)
  (votes : list V) e : list ConsensusAction * ConsensusEngine :=
  match votes with
  | [] => ([], e)
  | v :: votes =>
      let '(a, e) := handle v e in
      let '(actions, e) := replay handle votes e in
      (if is_NoAction a then actions else a :: actions, e)
  end.

Definition drain_future_messages e : ConsensusAction * ConsensusEngine :=
  let height := ce_height e in
  let '(a1, e) :=
    match ce_future_prevotes e !! height with
    | Some prevotes =>
        let e := set_ce_future_prevotes (delete height (ce_future_prevotes e)) e in
        replay on_prevote (sort_by_key (fun v => - pv_round v) prevotes) e
    | None => ([], e)
    end in
  let '(a2, e) :=
    match ce_future_precommits e !! height with
    | Some precommits =>
        let e := set_ce_future_precommits (delete height (ce_future_precommits e)) e in
        replay on_precommit (sort_by_key (fun v => - pc_round v) precommits) e
    | None => ([], e)
    end in
  (collect_actions (a1 ++ a2), e).

Definition on_timeout (step : RoundStep) (timeout_round : Z) e
  : ConsensusAction * ConsensusEngine :=
  if negb (timeout_round =? ce_round e) then (NoAction, e)
  else match step with
       | Propose =>
           if decide (ce_step e = Propose) then do_prevote None e else (NoAction, e)
       | Prevote_ =>
           if decide (ce_step e = Prevote_) then
             let e := transition_to Precommit_ e in do_precommit None e
           else (NoAction, e)
       | Precommit_ =>
           if decide (ce_step e = Precommit_) then start_round (wrap32 (ce_round e + 1)) e
           else (NoAction, e)
       | Commit_ => (NoAction, e)
       end.

(** ** Crash recovery *)

Inductive RestoreError :=
| ConflictingRecoveredVote (height round : Z)
| InvalidRecoveredSignature (height round : Z).

Definition restore_lock (height round : Z) (block_hash : Hash) e : ConsensusEngine :=
  if height =? ce_height e
  then set_ce_locked_value (Some block_hash) (set_ce_locked_round (Some round) e)
  else e.

Definition restore_proposal_block (height round : Z) (block : Block) e : ConsensusEngine :=
  if negb (height =? ce_height e) then e
  else
    let block_hash := Block_hash block in
    let e := set_ce_proposal_blocks (<[block_hash := block]> (ce_proposal_blocks e)) e in
    if bool_decide (ce_locked_value e = Some block_hash)
    then set_ce_valid_value (Some block) (set_ce_valid_round (Some round) e)
    else e.

Definition release_unrecoverable_lock_without_value (height : Z) (block_hash : Hash) e
  : bool * ConsensusEngine :=
  if negb (height =? ce_height e) || bool_decide (ce_locked_value e <> Some block_hash)
  then (false, e)
  else if decide (is_Some (ce_proposal_blocks e !! block_hash)) then (false, e)
  else
    let e := set_ce_locked_round None e in
    let e := set_ce_locked_value None e in
    let is_valid_value :=
      match ce_valid_value e with
      | Some block => Block_hash block =? block_hash
      | None => false
      end in
    (true,
     if is_valid_value then set_ce_valid_round None (set_ce_valid_value None e) else e).

(** Own power in the snapshot, if there is one. *)
Definition snapshot_power e : option Z :=
  match ce_power_snapshot e with
  | Some snapshot => ConsensusPowerSnapshot_eligible_stake snapshot (ce_validator_pubkey e)
  | None => None
  end.

Definition restore_signed_prevote (height round : Z) (block_hash : option Hash)
  (signature : PqSignature) e : result ConsensusEngine RestoreError :=
  if negb (height =? ce_height e) then Ok e
  else match ce_signed_prevote_rounds e !! round with
  | Some existing =>
      if bool_decide (existing <> block_hash) then Err (ConflictingRecoveredVote height round)
      else Ok e
  | None =>
      let signable :=
        Prevote_signing_bytes_for_chain_id (ce_signing_chain_id e) height round block_hash in
      if negb (Keypair_verify (ce_validator_pubkey e) signable signature)
      then Err (InvalidRecoveredSignature height round)
      else
        let me := ce_validator_pubkey e in
        let e := set_ce_signed_prevote_rounds
                   (<[round := block_hash]> (ce_signed_prevote_rounds e)) e in
        let e := set_ce_seen_prevotes (<[(round, me) := block_hash]> (ce_seen_prevotes e)) e in
        let e := set_ce_seen_prevote_messages
                   (<[(round, me) := mkPrevote height round block_hash me signature]>
                      (ce_seen_prevote_messages e)) e in
        let voters := default [] (ce_prevotes e !! (round, block_hash)) in
        if decide (me ∈ voters) then
          Ok (set_ce_prevotes (<[(round, block_hash) := voters]> (ce_prevotes e)) e)
        else
          let e := set_ce_prevotes (push_vote (round, block_hash) me (ce_prevotes e)) e in
          Ok (match snapshot_power e with
              | Some power => add_prevote_power round block_hash power e
              | None => e
              end)
  end.

Definition restore_signed_precommit (height round : Z) (block_hash : option Hash)
  (signature : PqSignature) (timestamp : Z) e : result ConsensusEngine RestoreError :=
  if negb (height =? ce_height e) then Ok e
  else match ce_signed_precommit_rounds e !! round with
  | Some existing =>
      if bool_decide (existing <> block_hash) then Err (ConflictingRecoveredVote height round)
      else Ok e
  | None =>
      let signable :=
        Precommit_signing_bytes_for_chain_id (ce_signing_chain_id e) height round block_hash
          timestamp in
      if negb (Keypair_verify (ce_validator_pubkey e) signable signature)
      then Err (InvalidRecoveredSignature height round)
      else
        let me := ce_validator_pubkey e in
        let e := set_ce_signed_precommit_rounds
                   (<[round := block_hash]> (ce_signed_precommit_rounds e)) e in
        let e := set_ce_seen_precommits
                   (<[(round, me) := block_hash]> (ce_seen_precommits e)) e in
        let e := set_ce_seen_precommit_messages
                   (<[(round, me) := mkPrecommit height round block_hash me signature timestamp]>
                      (ce_seen_precommit_messages e)) e in
        let voters := default [] (ce_precommits e !! (round, block_hash)) in
        let e :=
          if decide (me ∈ voters) then
            set_ce_precommits (<[(round, block_hash) := voters]> (ce_precommits e)) e
          else
            let e := set_ce_precommits (push_vote (round, block_hash) me (ce_precommits e)) e in
            match snapshot_power e with
            | Some power => add_precommit_power round block_hash power e
            | None => e
            end in
        let e := set_ce_precommit_sigs
                   (<[(round, me) := (signature, timestamp)]> (ce_precommit_sigs e)) e in
        Ok (match block_hash with
            | Some hash =>
                let newer := match ce_locked_round e with
                             | None => true
                             | Some locked_round => locked_round <=? round
                             end in
                if newer
                then set_ce_locked_value (Some hash) (set_ce_locked_round (Some round) e)
                else e
            | None => e
            end)
  end.
End engine.

#[global] Arguments do_precommit : simpl never.
#[global] Arguments do_prevote : simpl never.
#[global] Arguments record_own_precommit : simpl never.
#[global] Arguments record_own_prevote : simpl never.
#[global] Arguments record_prevote : simpl never.
#[global] Arguments record_precommit : simpl never.
#[global] Arguments lock_on : simpl never.
#[global] Arguments check_round_skip : simpl never.
#[global] Arguments catch_up : simpl never.
#[global] Arguments prevote_for_current_round_proposal : simpl never.
#[global] Arguments on_prevote : simpl never.
#[global] Arguments on_precommit : simpl never.
#[global] Arguments on_proposal : simpl never.
#[global] Arguments on_timeout : simpl never.

(** ** Phase timeouts *)

Lemma backoff_step_range t M : 0 <= t <= M -> M * 3 < 2 ^ 64 -> t <= Z.min (wrap64 (t * 3) / 2) M <= M.
Proof. intros Ht HM. rewrite wrap_small by lia. split; [|lia]. apply Z.min_glb; [divlia|lia]. Qed.

Lemma backoff_mono n t u M :
  0 <= t <= u -> u <= M -> M * 3 < 2 ^ 64 -> t <= backoff n t M <= backoff n u M /\ backoff n u M <= M.
Proof.
  revert t u. induction n as [|n IH]; intros t u Htu Hu HM; cbn [backoff]; [lia|].
  pose proof (backoff_step_range t M ltac:(lia) HM) as Ht.
  pose proof (backoff_step_range u M ltac:(lia) HM) as Hu'.
  assert (Z.min (wrap64 (t * 3) / 2) M <= Z.min (wrap64 (u * 3) / 2) M) as Hle.
  { rewrite !wrap_small by lia. apply Z.min_le_compat_r, Z.div_le_mono; lia. }
  destruct (IH (Z.min (wrap64 (t * 3) / 2) M) (Z.min (wrap64 (u * 3) / 2) M)); lia.
Qed.

Lemma backoff_rounds n k t M :
  0 <= t <= M -> M * 3 < 2 ^ 64 -> backoff n t M <= backoff (k + n) t M <= M.
Proof.
  intros Ht HM. revert t Ht. induction k as [|k IH]; intros t Ht; cbn [Nat.add backoff].
  - destruct (backoff_mono n t t M); lia.
  - pose proof (backoff_step_range t M Ht HM) as Hs.
    destruct (backoff_mono n t (Z.min (wrap64 (t * 3) / 2) M) M); [lia..|].
    destruct (IH (Z.min (wrap64 (t * 3) / 2) M)); lia.
Qed.

(** Phase timeouts back off: for a base within the configured maximum the
    timeout of a later round is no shorter, never shorter than the base and
    never longer than the maximum; the intermediate products do not wrap. *)
Theorem timeout_backs_off base r1 r2 max_ms :
  0 <= base <= max_ms -> max_ms * 3 < 2 ^ 64 -> 0 <= r1 <= r2 ->
  base <= exponential_timeout base r1 max_ms <= exponential_timeout base r2 max_ms
  /\ exponential_timeout base r2 max_ms <= max_ms.
Proof.
  intros Hb HM Hr. unfold exponential_timeout.
  set (n1 := Z.to_nat (Z.min r1 20)). set (n2 := Z.to_nat (Z.min r2 20)).
  replace n2 with ((n2 - n1) + n1)%nat by lia.
  destruct (backoff_rounds n1 (n2 - n1) base max_ms Hb HM).
  destruct (backoff_mono n1 base base max_ms); lia.
Qed.

Lemma timeout_backs_off_witness :
  800 <= exponential_timeout 800 3 5000 <= exponential_timeout 800 9 5000
  /\ exponential_timeout 800 9 5000 <= 5000 /\ exponential_timeout 800 3 5000 = 2700.
Proof.
  destruct (timeout_backs_off 800 3 9 5000) as [H1 H2]; [lia..|].
  split; [exact H1|]. split; [exact H2|]. vm_compute. reflexivity.
Defined.
