(* ===== verification/Protocol.v ===== *)
(** * The locking protocol

    An abstract specification of one height of the consensus engine: what a
    correct validator may do, as a labelled step relation on the part of its
    state that matters for agreement, and the system of all validators with an
    adversarial network.  The theorem is agreement: with less than a third of
    the stake faulty, no two correct validators commit different blocks.

    Votes carry [option Hash].  The wire format does not distinguish nil from
    the all-zero hash, so authenticity only fixes a vote up to
    [hash_or_nil]; agreement is about non-zero hashes. *)

From S2P Require Import Prelude Crypto Votes.
From stdpp Require Import base tactics numbers list gmap.
From Stdlib Require Import ZArith Lia.

Local Open Scope Z_scope.

(** ** Electorates

    What the engine's voting-power component promises: a finite electorate with
    non-negative weights. *)

Class Electorate := {
  members : list Pubkey;
  weight : Pubkey -> Z;
  members_NoDup : NoDup members;
  weight_nonneg : forall k, k ∈ members -> 0 <= weight k;
}.

Definition total_weight `{Electorate} : Z := sumZ weight members.

Record quorum `{Electorate} (Q : list Pubkey) : Prop := {
  quorum_NoDup : NoDup Q;
  quorum_members : forall k, k ∈ Q -> k ∈ members;
  quorum_weight : 2 * total_weight <= 3 * sumZ weight Q;
}.

(** Faulty validators hold less than a third of the stake. *)
Class FaultBound `{Electorate} (honest : Pubkey -> Prop) `{!forall k, Decision (honest k)} : Prop :=
  fault_bound : 3 * sumZ weight (filter (fun k => ~ honest k) members) < total_weight.

Section quorums.
Context `{Electorate} (honest : Pubkey -> Prop) `{!forall k, Decision (honest k)}
  `{!FaultBound honest}.

(** Two quorums share a correct validator. *)
Lemma quorum_intersection Q1 Q2 :
  quorum Q1 -> quorum Q2 -> exists k, honest k /\ k ∈ Q1 /\ k ∈ Q2.
Proof.
  intros [Hnd1 Hm1 Hw1] [Hnd2 Hm2 Hw2].
  pose proof (sumZ_overlap weight members Q1 Q2 weight_nonneg Hnd1 Hnd2 Hm1 Hm2) as Ho.
  pose proof fault_bound as Hf. unfold total_weight in *.
  set (I := filter (fun x => x ∈ Q2) Q1) in *.
  destruct (filter honest I) as [|k l] eqn:HI.
  - exfalso. assert (sumZ weight I <= sumZ weight (filter (fun k => ~ honest k) members)); [|lia].
    apply sumZ_subset.
    + intros x [_ Hx]%list_elem_of_filter. by apply weight_nonneg.
    + by apply NoDup_filter.
    + intros x Hx. apply list_elem_of_filter. split.
      * intros Hh. assert (x ∈ filter honest I) as HxI by by apply list_elem_of_filter.
        rewrite HI in HxI. by apply not_elem_of_nil in HxI.
      * apply list_elem_of_filter in Hx as [_ Hx]. by apply Hm1.
  - exists k. assert (k ∈ filter honest I) as Hk by (rewrite HI; left).
    apply list_elem_of_filter in Hk as [? Hk]. by apply list_elem_of_filter in Hk as [? ?].
Qed.

Lemma quorum_honest Q : quorum Q -> exists k, honest k /\ k ∈ Q.
Proof. intros HQ. destruct (quorum_intersection Q Q HQ HQ) as (k & ? & ? & _). by exists k. Qed.
End quorums.

(** ** One validator *)

Record View := mkView {
  v_round : Z;
  v_locked : option (Z * Hash);
  v_prevoted : gmap Z (option Hash);
  v_precommitted : gmap Z (option Hash);
  v_seen_prevotes : gmap (Z * Pubkey) (option Hash);
  v_seen_precommits : gmap (Z * Pubkey) (option Hash);
}.

Definition initial_view : View := mkView 0 None ∅ ∅ ∅ ∅.

Inductive Event :=
| SeePrevote (round : Z) (from : Pubkey) (x : option Hash)
| SeePrecommit (round : Z) (from : Pubkey) (x : option Hash)
| EnterRound (round : Z)
| CastPrevote (round : Z) (x : option Hash)
| CastPrecommit (round : Z) (x : option Hash)
| Decide (round : Z) (h : Hash).

(** The events other validators observe. *)
Definition visible (ev : Event) : bool :=
  match ev with CastPrevote _ _ | CastPrecommit _ _ | Decide _ _ => true | _ => false end.

Section validator.
Context `{Electorate} (me : Pubkey).

Definition prevote_quorum (v : View) (r : Z) (h : Hash) : Prop :=
  exists Q, quorum Q /\ forall k, k ∈ Q -> v_seen_prevotes v !! (r, k) = Some (Some h).

Definition precommit_quorum (v : View) (r : Z) (h : Hash) : Prop :=
  exists Q, quorum Q /\ forall k, k ∈ Q -> v_seen_precommits v !! (r, k) = Some (Some h).

(** The locking rule: a value may be prevoted when the validator is not
    locked, is locked on it, or has seen a newer proof of lock for it. *)
Definition may_prevote (v : View) (x : option Hash) : Prop :=
  match x with
  | None => True
  | Some h =>
      match v_locked v with
      | None => True
      | Some (lr, lh) => lh = h \/ exists vr, lr < vr /\ prevote_quorum v vr h
      end
  end.

Inductive vstep : View -> Event -> View -> Prop :=
| step_see_prevote v r k x :
    v_seen_prevotes v !! (r, k) = None -> k <> me ->
    vstep v (SeePrevote r k x)
      (mkView (v_round v) (v_locked v) (v_prevoted v) (v_precommitted v)
         (<[(r, k) := x]> (v_seen_prevotes v)) (v_seen_precommits v))
| step_see_precommit v r k x :
    v_seen_precommits v !! (r, k) = None -> k <> me ->
    vstep v (SeePrecommit r k x)
      (mkView (v_round v) (v_locked v) (v_prevoted v) (v_precommitted v)
         (v_seen_prevotes v) (<[(r, k) := x]> (v_seen_precommits v)))
| step_enter_round v r :
    v_round v < r ->
    vstep v (EnterRound r)
      (mkView r (v_locked v) (v_prevoted v) (v_precommitted v)
         (v_seen_prevotes v) (v_seen_precommits v))
| step_prevote v x :
    v_prevoted v !! v_round v = None -> may_prevote v x ->
    vstep v (CastPrevote (v_round v) x)
      (mkView (v_round v) (v_locked v) (<[v_round v := x]> (v_prevoted v)) (v_precommitted v)
         (<[(v_round v, me) := x]> (v_seen_prevotes v)) (v_seen_precommits v))
| step_precommit_nil v :
    v_precommitted v !! v_round v = None ->
    vstep v (CastPrecommit (v_round v) None)
      (mkView (v_round v) (v_locked v) (v_prevoted v)
         (<[v_round v := None]> (v_precommitted v)) (v_seen_prevotes v)
         (<[(v_round v, me) := None]> (v_seen_precommits v)))
| step_precommit v h :
    v_precommitted v !! v_round v = None -> prevote_quorum v (v_round v) h ->
    vstep v (CastPrecommit (v_round v) (Some h))
      (mkView (v_round v) (Some (v_round v, h)) (v_prevoted v)
         (<[v_round v := Some h]> (v_precommitted v)) (v_seen_prevotes v)
         (<[(v_round v, me) := Some h]> (v_seen_precommits v)))
| step_decide v r h :
    precommit_quorum v r h -> vstep v (Decide r h) v.

Inductive vsteps : View -> list Event -> View -> Prop :=
| vsteps_nil v : vsteps v [] v
| vsteps_cons v ev v' evs v'' : vstep v ev v' -> vsteps v' evs v'' -> vsteps v (ev :: evs) v''.

Lemma vsteps_app v1 evs1 v2 evs2 v3 :
  vsteps v1 evs1 v2 -> vsteps v2 evs2 v3 -> vsteps v1 (evs1 ++ evs2) v3.
Proof. induction 1; intros; simpl; [done|]. econstructor; eauto. Qed.

Lemma vsteps_one v ev v' : vstep v ev v' -> vsteps v [ev] v'.
Proof. intros. econstructor; [done|constructor]. Qed.

Lemma vsteps_round v evs v' : vsteps v evs v' -> v_round v <= v_round v'.
Proof.
  induction 1 as [|v ev v' evs v'' Hs _ IH]; [done|]. destruct Hs; simpl in *; lia.
Qed.
End validator.

(** ** The system *)

Record System := mkSystem {
  sys_views : Pubkey -> View;
  sys_decisions : list (Pubkey * Z * Hash);
}.

Definition update_view (k : Pubkey) (v : View) (f : Pubkey -> View) : Pubkey -> View :=
  fun j => if decide (j = k) then v else f j.

Definition new_decision (k : Pubkey) (ev : Event) : list (Pubkey * Z * Hash) :=
  match ev with Decide r h => [(k, r, h)] | _ => [] end.

Section system.
Context `{Electorate} (honest : Pubkey -> Prop) `{!forall k, Decision (honest k)}.

(** A vote that names a correct validator was cast by it, up to the encoding. *)
Definition authentic (f : Pubkey -> View) (ev : Event) : Prop :=
  match ev with
  | SeePrevote r k x =>
      honest k -> exists x', v_prevoted (f k) !! r = Some x' /\ hash_or_nil x' = hash_or_nil x
  | SeePrecommit r k x =>
      honest k ->
      exists x', v_precommitted (f k) !! r = Some x' /\ hash_or_nil x' = hash_or_nil x
  | _ => True
  end.

Inductive sys_step : System -> System -> Prop :=
| sys_step_intro s k ev v :
    honest k -> vstep k (sys_views s k) ev v -> authentic (sys_views s) ev ->
    sys_step s (mkSystem (update_view k v (sys_views s)) (new_decision k ev ++ sys_decisions s)).

Inductive sys_reachable : System -> Prop :=
| sys_init : sys_reachable (mkSystem (fun _ => initial_view) [])
| sys_next s s' : sys_reachable s -> sys_step s s' -> sys_reachable s'.

(** *** Monotonicity *)

Definition polka (f : Pubkey -> View) (r : Z) (h : Hash) : Prop :=
  exists Q, quorum Q /\ forall k, k ∈ Q -> honest k -> v_prevoted (f k) !! r = Some (Some h).

(** [k] has precommitted [h] at round [r], or may still do so. *)
Definition possible (v : View) (r : Z) (h : Hash) : Prop :=
  v_precommitted v !! r = Some (Some h)
  \/ (v_round v <= r /\ v_precommitted v !! r = None).

Lemma vstep_prevoted_mono k v ev v' r x :
  vstep k v ev v' -> v_prevoted v !! r = Some x -> v_prevoted v' !! r = Some x.
Proof.
  destruct 1; simpl; try done. intros Hr. rewrite lookup_insert_ne; [done|].
  intros <-. congruence.
Qed.

Lemma vstep_precommitted_mono k v ev v' r x :
  vstep k v ev v' -> v_precommitted v !! r = Some x -> v_precommitted v' !! r = Some x.
Proof.
  destruct 1; simpl; try done; intros Hr; (rewrite lookup_insert_ne; [done|]);
    intros <-; congruence.
Qed.

Lemma vstep_possible k v ev v' r h : vstep k v ev v' -> possible v' r h -> possible v r h.
Proof.
  unfold possible. destruct 1; simpl; try tauto; try lia.
  - intros [?|[? ?]]; [by left|right; split; [lia|done]].
  - intros [Hp|[? Hp]].
    + apply lookup_insert_Some in Hp as [[? ?]|[? ?]]; [done|by left].
    + apply lookup_insert_None in Hp as [? ?]. by right.
  - intros [Hp|[? Hp]].
    + apply lookup_insert_Some in Hp as [[<- [= <-]]|[? ?]]; [right; split; [lia|done]|by left].
    + apply lookup_insert_None in Hp as [? ?]. by right.
Qed.

Lemma update_view_same k v f : update_view k v f k = v.
Proof. unfold update_view. by rewrite decide_True. Qed.

Section one_step.
Context (s : System) (k : Pubkey) (ev : Event) (v : View).
Hypothesis Hstep : vstep k (sys_views s k) ev v.
Abbreviation f := (sys_views s).
Abbreviation f' := (update_view k v (sys_views s)).

Lemma prevoted_mono j r x : v_prevoted (f j) !! r = Some x -> v_prevoted (f' j) !! r = Some x.
Proof.
  unfold update_view. case_decide as Hj; [|done]. subst. by eapply vstep_prevoted_mono.
Qed.

Lemma precommitted_mono j r x :
  v_precommitted (f j) !! r = Some x -> v_precommitted (f' j) !! r = Some x.
Proof.
  unfold update_view. case_decide as Hj; [|done]. subst. by eapply vstep_precommitted_mono.
Qed.

Lemma polka_mono r h : polka f r h -> polka f' r h.
Proof.
  intros (Q & HQ & Hp). exists Q. split; [done|]. intros j Hj Hh. apply prevoted_mono. auto.
Qed.

Lemma possible_mono j r h : possible (f' j) r h -> possible (f j) r h.
Proof.
  unfold update_view. case_decide as Hj; [|done]. subst. by eapply vstep_possible.
Qed.
End one_step.

(** *** The invariant *)

Record SysInv (f : Pubkey -> View) : Prop := {
  si_seen_prevotes : forall k j r x, honest k -> honest j ->
    v_seen_prevotes (f k) !! (r, j) = Some x ->
    exists x', v_prevoted (f j) !! r = Some x' /\ hash_or_nil x' = hash_or_nil x;
  si_seen_precommits : forall k j r x, honest k -> honest j ->
    v_seen_precommits (f k) !! (r, j) = Some x ->
    exists x', v_precommitted (f j) !! r = Some x' /\ hash_or_nil x' = hash_or_nil x;
  si_rounds : forall k r x, honest k ->
    v_precommitted (f k) !! r = Some x -> r <= v_round (f k);
  si_lock : forall k r h, honest k -> v_locked (f k) = Some (r, h) -> h <> zero_hash ->
    polka f r h;
  si_precommit : forall k r h, honest k -> v_precommitted (f k) !! r = Some (Some h) ->
    h <> zero_hash -> polka f r h;
  si_precommit_lock : forall k r h, honest k -> v_precommitted (f k) !! r = Some (Some h) ->
    exists lr lh, v_locked (f k) = Some (lr, lh) /\ r <= lr /\ (lr = r -> lh = h);
  si_no_conflict : forall r h Q, h <> zero_hash -> quorum Q ->
    (forall k, k ∈ Q -> honest k -> possible (f k) r h) ->
    forall u r' h', u ∈ Q -> honest u -> r < r' -> h' <> zero_hash ->
    v_prevoted (f u) !! r' = Some (Some h') -> h' = h;
}.

Lemma hash_or_nil_nonzero x h : hash_or_nil x = h -> h <> zero_hash -> x = Some h.
Proof. destruct x; simpl; intros <-; done. Qed.

(** Seen prevotes of a quorum are a polka. *)
Lemma seen_polka f k r h :
  SysInv f -> honest k -> h <> zero_hash -> prevote_quorum (f k) r h -> polka f r h.
Proof.
  intros Hinv Hk Hz (Q & HQ & Hseen). exists Q. split; [done|]. intros j Hj Hh.
  destruct (si_seen_prevotes _ Hinv k j r (Some h)) as (x' & Hx & Hn); auto.
  by rewrite (hash_or_nil_nonzero x' h) in Hx.
Qed.

Lemma sys_inv_init : SysInv (fun _ => initial_view).
Proof. split; simpl; intros; try done; by rewrite lookup_empty in *. Qed.
End system.

(** *** Every step preserves the invariant *)

Section preservation.
Context `{Electorate} (honest : Pubkey -> Prop) `{!forall k, Decision (honest k)}
  `{!FaultBound honest}.
Context (s : System) (k : Pubkey) (ev : Event) (v : View).
Hypothesis Hinv : SysInv honest (sys_views s).
Hypothesis Hk : honest k.
Hypothesis Hstep : vstep k (sys_views s k) ev v.
Hypothesis Hauth : authentic honest (sys_views s) ev.
Abbreviation f := (sys_views s).
Abbreviation f' := (update_view k v (sys_views s)).

(** A seen vote is in the view before, or is authentic, or is the voter's own. *)
Lemma pres_seen_prevotes i j r x :
  honest i -> honest j -> v_seen_prevotes (f' i) !! (r, j) = Some x ->
  exists x', v_prevoted (f' j) !! r = Some x' /\ hash_or_nil x' = hash_or_nil x.
Proof.
  intros Hi Hj Hx.
  assert (v_seen_prevotes (f i) !! (r, j) = Some x \/
          (exists x', v_prevoted (f j) !! r = Some x' /\ hash_or_nil x' = hash_or_nil x) \/
          (j = k /\ v_prevoted v !! r = Some x)) as [Hold|[(x' & Hx' & Hn)|[-> Hown]]].
  { unfold update_view in Hx. case_decide as Hik; [subst i|by left].
    destruct Hstep; simpl in *; try by left.
    - apply lookup_insert_Some in Hx as [[[= <- <-] <-]|[_ Hx]]; [|by left]. right; left; auto.
    - apply lookup_insert_Some in Hx as [[[= <- <-] <-]|[_ Hx]]; [|by left].
      right; right. split; [done|]. by rewrite lookup_insert_eq. }
  - destruct (si_seen_prevotes _ _ Hinv i j r x Hi Hj Hold) as (x' & Hx' & Hn).
    exists x'. split; [|done]. by eapply prevoted_mono.
  - exists x'. split; [|done]. by eapply prevoted_mono.
  - exists x. by rewrite update_view_same.
Qed.

Lemma pres_seen_precommits i j r x :
  honest i -> honest j -> v_seen_precommits (f' i) !! (r, j) = Some x ->
  exists x', v_precommitted (f' j) !! r = Some x' /\ hash_or_nil x' = hash_or_nil x.
Proof.
  intros Hi Hj Hx.
  assert (v_seen_precommits (f i) !! (r, j) = Some x \/
          (exists x', v_precommitted (f j) !! r = Some x' /\ hash_or_nil x' = hash_or_nil x) \/
          (j = k /\ v_precommitted v !! r = Some x)) as [Hold|[(x' & Hx' & Hn)|[-> Hown]]].
  { unfold update_view in Hx. case_decide as Hik; [subst i|by left].
    destruct Hstep; simpl in *; try by left.
    - apply lookup_insert_Some in Hx as [[[= <- <-] <-]|[_ Hx]]; [|by left]. right; left; auto.
    - apply lookup_insert_Some in Hx as [[[= <- <-] <-]|[_ Hx]]; [|by left].
      right; right. split; [done|]. by rewrite lookup_insert_eq.
    - apply lookup_insert_Some in Hx as [[[= <- <-] <-]|[_ Hx]]; [|by left].
      right; right. split; [done|]. by rewrite lookup_insert_eq. }
  - destruct (si_seen_precommits _ _ Hinv i j r x Hi Hj Hold) as (x' & Hx' & Hn).
    exists x'. split; [|done]. by eapply precommitted_mono.
  - exists x'. split; [|done]. by eapply precommitted_mono.
  - exists x. by rewrite update_view_same.
Qed.

Lemma pres_rounds i r x :
  honest i -> v_precommitted (f' i) !! r = Some x -> r <= v_round (f' i).
Proof.
  intros Hi. unfold update_view. case_decide as Hik; [subst i|by eapply si_rounds].
  pose proof (si_rounds _ _ Hinv k r) as Hold.
  destruct Hstep; simpl in *; intros Hx; eauto.
  - specialize (Hold x Hk Hx). lia.
  - apply lookup_insert_Some in Hx as [[<- _]|[_ Hx]]; [lia|eauto].
  - apply lookup_insert_Some in Hx as [[<- _]|[_ Hx]]; [lia|eauto].
Qed.

Lemma pres_lock i r h :
  honest i -> v_locked (f' i) = Some (r, h) -> h <> zero_hash -> polka honest f' r h.
Proof.
  intros Hi Hl Hz. apply (polka_mono _ _ _ _ _ Hstep). revert Hl.
  unfold update_view. case_decide as Hik; [subst i|by intros; eapply si_lock].
  pose proof (si_lock _ _ Hinv k r h Hk) as Hold.
  inversion Hstep; subst; simpl in *; intros Hx; auto.
  injection Hx as <- <-. by eapply (seen_polka honest f k).
Qed.

Lemma pres_precommit i r h :
  honest i -> v_precommitted (f' i) !! r = Some (Some h) -> h <> zero_hash -> polka honest f' r h.
Proof.
  intros Hi Hl Hz. apply (polka_mono _ _ _ _ _ Hstep). revert Hl.
  unfold update_view. case_decide as Hik; [subst i|by intros; eapply si_precommit].
  pose proof (si_precommit _ _ Hinv k r h Hk) as Hold.
  inversion Hstep; subst; simpl in *; intros Hx; auto.
  - apply lookup_insert_Some in Hx as [[_ ?]|[_ Hx]]; [done|auto].
  - apply lookup_insert_Some in Hx as [[<- [= <-]]|[_ Hx]]; [|auto].
    by eapply (seen_polka honest f k).
Qed.

Lemma pres_precommit_lock i r h :
  honest i -> v_precommitted (f' i) !! r = Some (Some h) ->
  exists lr lh, v_locked (f' i) = Some (lr, lh) /\ r <= lr /\ (lr = r -> lh = h).
Proof.
  intros Hi. unfold update_view. case_decide as Hik; [subst i|by eapply si_precommit_lock].
  pose proof (si_precommit_lock _ _ Hinv k r h Hk) as Hold.
  pose proof (fun x => si_rounds _ _ Hinv k r x Hk) as Hround.
  destruct Hstep; simpl in *; intros Hx; auto.
  - apply lookup_insert_Some in Hx as [[_ ?]|[_ Hx]]; [done|auto].
  - eexists _, _. split; [done|].
    apply lookup_insert_Some in Hx as [[<- [= <-]]|[Hne Hx]]; [split; [lia|done]|].
    specialize (Hround _ Hx). split; [lia|]. intros. lia.
Qed.

(** A fresh prevote of [h'] conflicts with no value a quorum may have
    precommitted at an earlier round. *)
Lemma fresh_prevote_no_conflict r h Q h' :
  h <> zero_hash -> quorum Q ->
  (forall j, j ∈ Q -> honest j -> possible (f j) r h) ->
  k ∈ Q -> r < v_round (f k) -> h' <> zero_hash -> may_prevote (f k) (Some h') -> h' = h.
Proof.
  intros Hz HQ Hposs HkQ Hr Hz' Hmay.
  assert (forall r', r < r' -> polka honest f r' h' -> h' = h) as Hpolka.
  { intros r' Hr' (Q' & HQ' & Hp).
    destruct (quorum_intersection honest Q Q' HQ HQ') as (w & Hw & HwQ & HwQ').
    eapply (si_no_conflict _ _ Hinv r h Q); eauto. }
  assert (v_precommitted (f k) !! r = Some (Some h)) as Hpc.
  { destruct (Hposs k HkQ Hk) as [?|[? _]]; [done|lia]. }
  destruct (si_precommit_lock _ _ Hinv k r h Hk Hpc) as (lr & lh & Hl & Hle & Heq).
  unfold may_prevote in Hmay. rewrite Hl in Hmay. destruct Hmay as [->|(vr & Hvr & Hq)].
  - destruct (decide (lr = r)) as [|Hne]; [auto|]. apply (Hpolka lr); [lia|].
    by eapply si_lock.
  - apply (Hpolka vr); [lia|]. by eapply seen_polka.
Qed.

Lemma pres_no_conflict r h Q :
  h <> zero_hash -> quorum Q -> (forall j, j ∈ Q -> honest j -> possible (f' j) r h) ->
  forall u r' h', u ∈ Q -> honest u -> r < r' -> h' <> zero_hash ->
  v_prevoted (f' u) !! r' = Some (Some h') -> h' = h.
Proof.
  intros Hz HQ Hposs u r' h' HuQ Hu Hr Hz' Hp.
  assert (forall j, j ∈ Q -> honest j -> possible (f j) r h) as Hposs'
    by (intros; eapply possible_mono; eauto).
  assert (v_prevoted (f u) !! r' = Some (Some h')
          \/ (u = k /\ r' = v_round (f k) /\ may_prevote (f k) (Some h'))) as [Hold|(-> & -> & Hm)].
  { unfold update_view in Hp. case_decide as Huk; [subst u|by left].
    destruct Hstep; simpl in *; auto.
    apply lookup_insert_Some in Hp as [[<- ->]|[_ Hp]]; auto. }
  - eapply (si_no_conflict _ _ Hinv r h Q); eauto.
  - by eapply fresh_prevote_no_conflict.
Qed.

Lemma sys_inv_step : SysInv honest f'.
Proof.
  split; eauto using pres_seen_prevotes, pres_seen_precommits, pres_rounds, pres_lock,
    pres_precommit, pres_precommit_lock, pres_no_conflict.
Qed.
End preservation.

(** ** Agreement *)

Section agreement.
Context `{Electorate} (honest : Pubkey -> Prop) `{!forall k, Decision (honest k)}
  `{!FaultBound honest}.

(** A quorum of precommits for [h] at [r], as far as correct validators go. *)
Definition decided (g : Pubkey -> View) (r : Z) (h : Hash) : Prop :=
  exists Q, quorum Q /\ forall j, j ∈ Q -> honest j -> v_precommitted (g j) !! r = Some (Some h).

Lemma decided_agree g r1 h1 r2 h2 :
  SysInv honest g -> h1 <> zero_hash -> h2 <> zero_hash -> r1 <= r2 ->
  decided g r1 h1 -> decided g r2 h2 -> h1 = h2.
Proof.
  intros Hinv Hz1 Hz2 Hle (Q1 & HQ1 & H1) (Q2 & HQ2 & H2).
  destruct (decide (r1 = r2)) as [->|Hne].
  - destruct (quorum_intersection honest Q1 Q2 HQ1 HQ2) as (w & Hw & Hw1 & Hw2).
    specialize (H1 w Hw1 Hw). specialize (H2 w Hw2 Hw). congruence.
  - destruct (quorum_honest honest Q2 HQ2) as (w & Hw & Hw2).
    destruct (si_precommit _ _ Hinv w r2 h2 Hw (H2 w Hw2 Hw) Hz2) as (Q & HQ & Hp).
    destruct (quorum_intersection honest Q1 Q HQ1 HQ) as (u & Hu & Hu1 & HuQ).
    symmetry. eapply (si_no_conflict _ _ Hinv r1 h1 Q1 Hz1 HQ1); [|done|done| |done|by apply Hp].
    + intros j Hj Hh. left. auto.
    + lia.
Qed.

Record SysGood (s : System) : Prop := {
  sg_inv : SysInv honest (sys_views s);
  sg_decisions : forall k r h, (k, r, h) ∈ sys_decisions s -> h <> zero_hash ->
    decided (sys_views s) r h;
}.

Lemma decided_mono s k ev v r h :
  vstep k (sys_views s k) ev v -> decided (sys_views s) r h ->
  decided (update_view k v (sys_views s)) r h.
Proof.
  intros Hs (Q & HQ & Hp). exists Q. split; [done|]. intros j Hj Hh.
  eapply precommitted_mono; eauto.
Qed.

Lemma sys_good_step s s' : SysGood s -> sys_step honest s s' -> SysGood s'.
Proof.
  intros [Hinv Hdec] Hss. destruct Hss as [s k ev v Hk Hstep Hauth]. split; simpl.
  { by apply (sys_inv_step honest _ _ ev). }
  intros i r h [Hin|Hin]%elem_of_app Hz; [|eapply decided_mono; eauto].
  destruct ev; simpl in Hin; try by apply not_elem_of_nil in Hin.
  apply list_elem_of_singleton in Hin as [= -> -> ->]. eapply decided_mono; [done|].
  inversion Hstep as [| | | | | |? ? ? (Q & HQ & Hseen)]; subst.
  exists Q. split; [done|]. intros j Hj Hh.
  destruct (si_seen_precommits _ _ Hinv k j round (Some h0)) as (x' & Hx & Hn); auto.
  by rewrite (hash_or_nil_nonzero x' h0) in Hx.
Qed.

Lemma sys_reachable_good s : sys_reachable honest s -> SysGood s.
Proof.
  induction 1 as [|s s' _ IH Hstep]; [|by eapply sys_good_step].
  split; [apply sys_inv_init|]. intros k r h Hin. by apply not_elem_of_nil in Hin.
Qed.

Lemma sys_agreement s k1 r1 h1 k2 r2 h2 :
  sys_reachable honest s -> (k1, r1, h1) ∈ sys_decisions s -> (k2, r2, h2) ∈ sys_decisions s ->
  h1 <> zero_hash -> h2 <> zero_hash -> h1 = h2.
Proof.
  intros [Hinv Hdec]%sys_reachable_good H1 H2 Hz1 Hz2.
  pose proof (Hdec _ _ _ H1 Hz1) as D1. pose proof (Hdec _ _ _ H2 Hz2) as D2.
  destruct (Z.le_ge_cases r1 r2); [|symmetry]; by eapply decided_agree.
Qed.
End agreement.
