(* ===== verification/Power.v ===== *)
(** * Vote tallies and the power snapshot

    Facts about the voting-power bookkeeping of the engine
    ([validator/src/consensus.rs]): the frozen power snapshot is an electorate
    and agrees with the direct stake lookup, and the cached tallies count every
    voter once. *)

From S2P Require Import Prelude Crypto Votes Stake Validators Engine Protocol.
From stdpp Require Import base tactics numbers list gmap.
From Stdlib Require Import ZArith Lia.

Local Open Scope Z_scope.

(** ** The snapshot is an electorate *)

Definition snapshot_members (s : ConsensusPowerSnapshot) : list Pubkey :=
  (map_to_list (ps_eligible_power s)).*1.

Definition snapshot_weight (s : ConsensusPowerSnapshot) (k : Pubkey) : Z :=
  default 0 (ps_eligible_power s !! k).

Record snapshot_wf (s : ConsensusPowerSnapshot) : Prop := {
  swf_nonneg : forall k w, ps_eligible_power s !! k = Some w -> 0 <= w;
  swf_total : ps_total_eligible_stake s = sumZ (snapshot_weight s) (snapshot_members s);
}.

Lemma elem_of_snapshot_members s k :
  k ∈ snapshot_members s <-> is_Some (ps_eligible_power s !! k).
Proof. apply elem_of_keys. Qed.

Lemma snapshot_weight_nonneg s k : snapshot_wf s -> 0 <= snapshot_weight s k.
Proof.
  intros Hs. unfold snapshot_weight. destruct (ps_eligible_power s !! k) as [w|] eqn:Hw; simpl;
    [by eapply swf_nonneg|lia].
Qed.

Definition snapshot_electorate (s : ConsensusPowerSnapshot) (Hs : snapshot_wf s) : Electorate := {|
  members := snapshot_members s;
  weight := snapshot_weight s;
  members_NoDup := NoDup_fst_map_to_list (ps_eligible_power s);
  weight_nonneg := fun k _ => snapshot_weight_nonneg s k Hs;
|}.

(** ** Building the snapshot *)

Section build.
Context (sp : StakePool) (m : Z).

(** The stake one validator record contributes. *)
Definition record_stake (v : ValidatorInfo) : option Z :=
  if vi_pending_activation v then None
  else match StakePool_get_stake sp (vi_pubkey v) with
       | None => None
       | Some s => if StakeInfo_total_stake s <? m then None else Some (StakeInfo_total_stake s)
       end.

Definition build_step (acc : ConsensusPowerSnapshot) (v : ValidatorInfo)
  : ConsensusPowerSnapshot :=
  match record_stake v with
  | None => acc
  | Some w =>
      mkConsensusPowerSnapshot (<[vi_pubkey v := w]> (ps_eligible_power acc))
        (sat_add128 (ps_total_eligible_stake acc) w)
  end.

Lemma build_foldl vs :
  ConsensusPowerSnapshot_build vs sp m
  = foldl build_step (mkConsensusPowerSnapshot ∅ 0) (ValidatorSet_sorted_validators vs).
Proof.
  unfold ConsensusPowerSnapshot_build. generalize (mkConsensusPowerSnapshot ∅ 0).
  induction (ValidatorSet_sorted_validators vs) as [|v l IH]; intros acc; [done|].
  simpl. rewrite IH. f_equal. unfold build_step, record_stake. repeat case_match; congruence.
Qed.

(** Lookup in the result: the first matching record, then the accumulator. *)
Lemma build_lookup l acc k :
  NoDup (map vi_pubkey l) ->
  ps_eligible_power (foldl build_step acc l) !! k =
  match List.find (fun v => vi_pubkey v =? k) l with
  | Some v => match record_stake v with
              | Some w => Some w
              | None => ps_eligible_power acc !! k
              end
  | None => ps_eligible_power acc !! k
  end.
Proof.
  revert acc. induction l as [|v l IH]; intros acc Hnd; [done|]. simpl.
  inversion Hnd as [|? ? Hv Hnd']; subst. rewrite IH by done.
  assert (ps_eligible_power (build_step acc v) !! k =
          if vi_pubkey v =? k
          then match record_stake v with Some w => Some w | None => ps_eligible_power acc !! k end
          else ps_eligible_power acc !! k) as ->.
  { unfold build_step. destruct (Z.eqb_spec (vi_pubkey v) k) as [->|Hne];
      destruct (record_stake v); simpl; try done.
    - by rewrite lookup_insert_eq.
    - by rewrite lookup_insert_ne. }
  destruct (Z.eqb_spec (vi_pubkey v) k) as [<-|Hne]; [|done].
  destruct (List.find (fun u => vi_pubkey u =? vi_pubkey v) l) as [u|] eqn:Hu; [|done].
  apply find_some in Hu as [Hin Heq]. apply Z.eqb_eq in Heq. exfalso. apply Hv.
  rewrite <- Heq. apply (list_elem_of_fmap_2 vi_pubkey). by apply list_elem_of_In.
Qed.

Definition map_total (p : gmap Pubkey Z) : Z := sumZ snd (map_to_list p).

Lemma map_total_weight s :
  sumZ (snapshot_weight s) (snapshot_members s) = map_total (ps_eligible_power s).
Proof.
  unfold snapshot_members, map_total.
  change ((map_to_list (ps_eligible_power s)).*1) with (map fst (map_to_list (ps_eligible_power s))).
  rewrite sumZ_map. apply sumZ_ext. intros [k w] Hk. apply elem_of_map_to_list in Hk.
  unfold snapshot_weight. simpl. by rewrite Hk.
Qed.

Lemma map_total_nonneg p : (forall k w, p !! k = Some w -> 0 <= w) -> 0 <= map_total p.
Proof.
  intros Hp. apply sumZ_nonneg. intros [k w] Hk. apply elem_of_map_to_list in Hk. by apply (Hp k).
Qed.

Lemma map_total_insert p k w : p !! k = None -> map_total (<[k := w]> p) = w + map_total p.
Proof. intros Hk. unfold map_total. by rewrite map_to_list_insert, sumZ_cons. Qed.

(** The stakes of the pool are unsigned; their saturating sum is below 2^64. *)
Definition stakes_u64 : Prop := forall k s, sp_stakes sp !! k = Some s ->
  0 <= si_amount s /\ 0 <= si_delegated_amount s.

Lemma total_stake_range k s :
  stakes_u64 -> sp_stakes sp !! k = Some s -> 0 <= StakeInfo_total_stake s <= u64_max.
Proof.
  intros Hsp Hs. destruct (Hsp _ _ Hs). unfold StakeInfo_total_stake. unfold_ints. lia.
Qed.

Lemma record_stake_range v w : stakes_u64 -> record_stake v = Some w -> 0 <= w <= u64_max.
Proof.
  intros Hsp. unfold record_stake, StakePool_get_stake. case_match; [done|].
  destruct (sp_stakes sp !! vi_pubkey v) as [s|] eqn:Hs; [|done].
  case_match; [done|]. intros [= <-]. by apply (total_stake_range (vi_pubkey v)).
Qed.

(** The running total stays exact: [n] more validators fit below 2^128. *)
Lemma build_total l acc :
  stakes_u64 -> NoDup (map vi_pubkey l) ->
  (forall v, v ∈ l -> ps_eligible_power acc !! vi_pubkey v = None) ->
  (forall k w, ps_eligible_power acc !! k = Some w -> 0 <= w) ->
  ps_total_eligible_stake acc = map_total (ps_eligible_power acc) ->
  ps_total_eligible_stake acc + u64_max * Z.of_nat (length l) <= u128_max ->
  let s := foldl build_step acc l in
  ps_total_eligible_stake s = map_total (ps_eligible_power s)
  /\ forall k w, ps_eligible_power s !! k = Some w -> 0 <= w.
Proof.
  intros Hsp. revert acc. induction l as [|v l IH]; intros acc Hnd Hfresh Hnn Ht Hb; simpl; [done|].
  inversion Hnd as [|? ? Hv Hnd']; subst. cbn [length] in Hb.
  assert (forall u, u ∈ l -> vi_pubkey u <> vi_pubkey v) as Hne.
  { intros u Hu Heq. apply Hv. rewrite <- Heq. by apply (list_elem_of_fmap_2 vi_pubkey). }
  assert (ps_eligible_power acc !! vi_pubkey v = None) as Hvn by (apply Hfresh; left).
  assert (forall u, u ∈ l -> ps_eligible_power acc !! vi_pubkey u = None) as Hln
    by (intros; apply Hfresh; by right).
  unfold build_step at 2 4 6. destruct (record_stake v) as [w|] eqn:Hw;
    [|apply IH; auto; unfold u64_max in *; lia].
  pose proof (record_stake_range v w Hsp Hw) as Hwr.
  assert (0 <= map_total (ps_eligible_power acc)) by by apply map_total_nonneg.
  assert (sat_add128 (ps_total_eligible_stake acc) w = w + ps_total_eligible_stake acc) as Hsat
    by (unfold sat_add128; unfold u64_max, u128_max in *; lia).
  apply IH; simpl; rewrite ?Hsat; auto.
  - intros u Hu. rewrite lookup_insert_ne by (intros ?; by apply (Hne u)). auto.
  - intros k x [[<- <-]|[_ Hx]]%lookup_insert_Some; [lia|by apply (Hnn k)].
  - rewrite map_total_insert by done. lia.
  - unfold u64_max, u128_max in *. lia.
Qed.

Lemma build_wf vs :
  stakes_u64 -> ValidatorSet_wf vs -> Z.of_nat (length (vs_validators vs)) < 2 ^ 64 ->
  snapshot_wf (ConsensusPowerSnapshot_build vs sp m).
Proof.
  intros Hsp Hwf Hlen. rewrite build_foldl.
  destruct (build_total (ValidatorSet_sorted_validators vs) (mkConsensusPowerSnapshot ∅ 0))
    as [Ht Hnn]; try done.
  - unfold ValidatorSet_sorted_validators.
    change (NoDup (vi_pubkey <$> sort_by_key vi_pubkey (vs_validators vs))).
    by rewrite sort_by_key_perm.
  - simpl. unfold ValidatorSet_sorted_validators. rewrite sort_by_key_length.
    unfold u64_max, u128_max. lia.
  - split; [done|]. by rewrite map_total_weight.
Qed.

(** The snapshot is the direct lookup of [eligible_stake]. *)
Lemma find_sorted vs k :
  ValidatorSet_wf vs ->
  List.find (fun v => vi_pubkey v =? k) (ValidatorSet_sorted_validators vs)
  = ValidatorSet_get_validator vs k.
Proof.
  intros Hwf. unfold ValidatorSet_get_validator.
  assert (forall l v, NoDup (map vi_pubkey l) -> v ∈ l -> vi_pubkey v = k ->
    List.find (fun v => vi_pubkey v =? k) l = Some v) as Hfind.
  { induction l as [|u l IH]; intros v Hnd Hv Hk; [by apply not_elem_of_nil in Hv|]. simpl.
    inversion Hnd as [|? ? Hu Hnd']; subst. apply elem_of_cons in Hv as [->|Hv].
    - by rewrite Z.eqb_refl.
    - destruct (Z.eqb_spec (vi_pubkey u) (vi_pubkey v)) as [Heq|_]; [|auto].
      exfalso. apply Hu. rewrite Heq. by apply (list_elem_of_fmap_2 vi_pubkey). }
  destruct (List.find _ (vs_validators vs)) as [v|] eqn:Hv.
  - apply find_some in Hv as [Hin Hk]. apply Z.eqb_eq in Hk. apply Hfind; [| |done].
    + unfold ValidatorSet_sorted_validators.
      change (NoDup (vi_pubkey <$> sort_by_key vi_pubkey (vs_validators vs))).
      by rewrite sort_by_key_perm.
    + unfold ValidatorSet_sorted_validators. rewrite elem_of_sort_by_key.
      by apply list_elem_of_In.
  - destruct (List.find _ (ValidatorSet_sorted_validators vs)) as [v|] eqn:Hv'; [|done].
    apply find_some in Hv' as [Hin Hk]. apply list_elem_of_In in Hin.
    unfold ValidatorSet_sorted_validators in Hin. rewrite elem_of_sort_by_key in Hin.
    apply list_elem_of_In in Hin. by rewrite (find_none _ _ Hv v Hin) in Hk.
Qed.
End build.

(** Taking the snapshot changes neither the stake of a validator nor, for
    distinct validators, the total. *)
Lemma eligible_stake_snapshot vs sp e k :
  ce_power_snapshot e = None -> ValidatorSet_wf vs ->
  eligible_stake vs sp (rebuild_power_snapshot vs sp e) k = eligible_stake vs sp e k.
Proof.
  intros Hn Hwf. unfold eligible_stake. rewrite Hn. simpl.
  unfold ConsensusPowerSnapshot_eligible_stake. rewrite build_foldl, build_lookup.
  - rewrite find_sorted by done.
    destruct (ValidatorSet_get_validator vs k) as [v|] eqn:Hv; [|done].
    unfold ValidatorSet_get_validator in Hv. apply find_some in Hv as [_ Hk%Z.eqb_eq].
    unfold record_stake. rewrite Hk. simpl. rewrite lookup_empty. repeat case_match; congruence.
  - unfold ValidatorSet_sorted_validators.
    change (NoDup (vi_pubkey <$> sort_by_key vi_pubkey (vs_validators vs))).
    by rewrite sort_by_key_perm.
Qed.

Lemma total_eligible_stake_snapshot vs sp e :
  ce_power_snapshot e = None -> ValidatorSet_wf vs -> stakes_u64 sp ->
  Z.of_nat (length (vs_validators vs)) < 2 ^ 64 ->
  total_eligible_stake vs sp (rebuild_power_snapshot vs sp e) = total_eligible_stake vs sp e.
Proof.
  intros Hn Hwf Hsp Hlen.
  set (e' := rebuild_power_snapshot vs sp e).
  set (s := ConsensusPowerSnapshot_build vs sp (ce_min_validator_stake e)).
  assert (ce_power_snapshot e' = Some s) as Hs by done.
  pose proof (build_wf sp (ce_min_validator_stake e) vs Hsp Hwf Hlen) as Hswf.
  unfold total_eligible_stake. rewrite Hn, Hs, (swf_total s Hswf).
  rewrite sumZ_omap. unfold ValidatorSet_sorted_validators. rewrite sort_by_key_perm.
  assert (forall k, eligible_stake vs sp e k = ps_eligible_power s !! k) as Hel.
  { intros k. rewrite <- (eligible_stake_snapshot vs sp e k Hn Hwf). fold e'.
    unfold eligible_stake. by rewrite Hs. }
  transitivity (sumZ (snapshot_weight s) (pubkeys vs)).
  2: { unfold pubkeys. rewrite sumZ_map. apply sumZ_ext. intros v _. by rewrite Hel. }
  set (el := fun k => is_Some (ps_eligible_power s !! k)).
  rewrite (sumZ_filter_split (snapshot_weight s) el (pubkeys vs)).
  rewrite (sumZ_zero _ (filter (fun x => ~ el x) (pubkeys vs))).
  - rewrite Z.add_0_r.
    assert (snapshot_members s ≡ₚ filter el (pubkeys vs)) as ->; [|done].
    apply NoDup_Permutation; [apply NoDup_fst_map_to_list|by apply NoDup_filter|].
    intros k. rewrite elem_of_snapshot_members, list_elem_of_filter. split; [|tauto].
    intros Hk. split; [done|]. rewrite <- Hel in Hk. unfold eligible_stake in Hk.
    rewrite Hn in Hk. destruct (ValidatorSet_get_validator vs k) as [v|] eqn:Hv;
      [|by destruct Hk]. unfold ValidatorSet_get_validator in Hv.
    apply find_some in Hv as [Hin Hvk%Z.eqb_eq]. unfold pubkeys. rewrite <- Hvk.
    apply (list_elem_of_fmap_2 vi_pubkey). by apply list_elem_of_In.
  - intros k [Hk _]%list_elem_of_filter. unfold el in Hk.
    rewrite <- eq_None_not_Some in Hk. unfold snapshot_weight. by rewrite Hk.
Qed.

Lemma eligible_stake_range vs sp e k :
  ce_power_snapshot e = None -> stakes_u64 sp -> 0 <= default 0 (eligible_stake vs sp e k) <= u64_max.
Proof.
  intros Hn Hsp. unfold eligible_stake. rewrite Hn. assert (0 <= u64_max) by done.
  destruct (ValidatorSet_get_validator vs k) as [v|]; simpl; [|lia].
  destruct (vi_pending_activation v); simpl; [lia|].
  unfold StakePool_get_stake. destruct (sp_stakes sp !! k) as [s|] eqn:Hs; simpl; [|lia].
  pose proof (total_stake_range sp k s Hsp Hs). case_match; simpl; lia.
Qed.

(** The power snapshot is a faithful cache: after [rebuild_power_snapshot]
    the stake the engine counts for any key, and the total the thresholds are
    taken of, are the ones the engine computes from the validator set and the
    stake pool when it has no snapshot; the total does not wrap. *)
Theorem power_snapshot_exact vs sp e k :
  ce_power_snapshot e = None -> ValidatorSet_wf vs -> stakes_u64 sp ->
  Z.of_nat (length (vs_validators vs)) < 2 ^ 64 ->
  eligible_stake vs sp (rebuild_power_snapshot vs sp e) k = eligible_stake vs sp e k
  /\ total_eligible_stake vs sp (rebuild_power_snapshot vs sp e) = total_eligible_stake vs sp e
  /\ 0 <= total_eligible_stake vs sp e < 2 ^ 128.
Proof.
  intros Hn Hwf Hsp Hlen. split; [by apply eligible_stake_snapshot|].
  split; [by apply total_eligible_stake_snapshot|].
  unfold total_eligible_stake. rewrite Hn, sumZ_omap. unfold ValidatorSet_sorted_validators.
  rewrite sort_by_key_perm. split.
  - apply sumZ_nonneg. intros v _. by apply eligible_stake_range.
  - pose proof (sumZ_bound (fun v => default 0 (eligible_stake vs sp e (vi_pubkey v)))
      (vs_validators vs) u64_max (fun v _ => proj2 (eligible_stake_range vs sp e (vi_pubkey v) Hn Hsp))) as Hb.
    simpl in *. unfold u64_max in Hb. nia.
Qed.

Lemma power_snapshot_exact_witness :
  let vs := mkValidatorSet [ValidatorInfo_new 1 0; ValidatorInfo_new 2 0] 0 in
  let sp := set_sp_stakes {[ 1 := StakeInfo_new 1 BOOTSTRAP_GRANT_AMOUNT 0 ]} StakePool_new in
  let e := ConsensusEngine_new (mkKeypair 5) 1 in
  eligible_stake vs sp (rebuild_power_snapshot vs sp e) 1 = Some BOOTSTRAP_GRANT_AMOUNT
  /\ total_eligible_stake vs sp (rebuild_power_snapshot vs sp e) = total_eligible_stake vs sp e.
Proof.
  intros vs sp e.
  destruct (power_snapshot_exact vs sp e 1) as (-> & Ht & _);
    [reflexivity|by repeat constructor; set_solver| |done|split; [vm_compute; reflexivity|exact Ht]].
  intros k s Hs. unfold sp, set_sp_stakes in Hs. simpl in Hs.
  apply lookup_singleton_Some in Hs as [_ <-]. by vm_compute.
Defined.

(** ** Tallies *)

Section tally.
Context (el : Pubkey -> option Z).

(** Each bucket lists, once each, the voters recorded in the dedup map with
    the bucket's value; a cached power is the stake of the bucket. *)
Record Tally (votes : gmap (Z * option Hash) (list Pubkey)) (power : gmap (Z * option Hash) Z)
  (seen : gmap (Z * Pubkey) (option Hash)) : Prop := {
  tally_NoDup : forall key voters, votes !! key = Some voters -> NoDup voters;
  tally_seen : forall r x voters k,
    votes !! (r, x) = Some voters -> k ∈ voters -> seen !! (r, k) = Some x;
  tally_recorded : forall r x k,
    seen !! (r, k) = Some x -> k ∈ default [] (votes !! (r, x));
  tally_power : forall key,
    default 0 (power !! key) = sumZ id (omap el (default [] (votes !! key)));
}.

Lemma tally_empty : Tally ∅ ∅ ∅.
Proof. split; intros *; by rewrite !lookup_empty. Qed.

Lemma stake_snoc voters k :
  sumZ id (omap el (voters ++ [k])) = sumZ id (omap el voters) + default 0 (el k).
Proof. rewrite !sumZ_omap, sumZ_app. simpl. lia. Qed.

(** Recording one vote of a voter not seen at that round. *)
Lemma tally_push votes power seen r x k :
  Tally votes power seen -> seen !! (r, k) = None ->
  Tally (push_vote (r, x) k votes)
    (match el k with Some p => add_power (r, x) p power | None => power end)
    (<[(r, k) := x]> seen).
Proof.
  intros [Hnd Hs Hr Hp] Hk. unfold push_vote.
  assert (k ∉ default [] (votes !! (r, x))) as Hfresh.
  { destruct (votes !! (r, x)) as [voters|] eqn:Hv; simpl; [|apply not_elem_of_nil].
    intros Hin. specialize (Hs _ _ _ _ Hv Hin). congruence. }
  split.
  - intros key voters [[<- <-]|[_ Hv]]%lookup_insert_Some; [|eauto].
    apply NoDup_app. split_and!; [|by intros y Hy ->%list_elem_of_singleton|apply NoDup_singleton].
    destruct (votes !! (r, x)) eqn:Hv; simpl; [eauto|constructor].
  - intros r' x' voters j [[[= <- <-] <-]|[Hne Hv]]%lookup_insert_Some Hj.
    + apply elem_of_app in Hj as [Hj| ->%list_elem_of_singleton]; [|by rewrite lookup_insert_eq].
      rewrite lookup_insert_ne by (intros [= <-]; done).
      destruct (votes !! (r, x)) eqn:Hv; simpl in Hj; [eauto|by apply not_elem_of_nil in Hj].
    + rewrite lookup_insert_ne; [eauto|]. intros [= <- <-]. specialize (Hs _ _ _ _ Hv Hj). congruence.
  - intros r' x' j [[[= <- <-] <-]|[Hne Hj]]%lookup_insert_Some.
    + rewrite lookup_insert_eq. simpl. set_solver.
    + destruct (decide ((r', x') = (r, x))) as [[= -> ->]|].
      * rewrite lookup_insert_eq. simpl. apply elem_of_app. left. by apply Hr.
      * rewrite lookup_insert_ne by done. by apply Hr.
  - intros key. destruct (decide (key = (r, x))) as [->|Hne].
    + rewrite lookup_insert_eq. simpl. rewrite stake_snoc, <- Hp.
      destruct (el k) as [w|]; simpl; [|lia]. unfold add_power. by rewrite lookup_insert_eq.
    + rewrite lookup_insert_ne by done. rewrite <- Hp.
      destruct (el k); [|done]. unfold add_power. by rewrite lookup_insert_ne.
Qed.
End tally.

(** ** Supermajorities are quorums *)

Section supermajority.
Context (snap : ConsensusPowerSnapshot) (Hsnap : snapshot_wf snap).
#[local] Existing Instance snapshot_electorate.
Abbreviation el := (fun k => ps_eligible_power snap !! k).
Abbreviation E := (snapshot_electorate snap Hsnap).

Lemma snapshot_total : @total_weight E = ps_total_eligible_stake snap.
Proof. by rewrite (swf_total snap Hsnap). Qed.

(** The stake of a list of voters is the weight of its eligible members. *)
Lemma stake_weight voters :
  sumZ id (omap el voters)
  = sumZ (snapshot_weight snap) (filter (fun k => is_Some (el k)) voters).
Proof.
  rewrite sumZ_omap, (sumZ_filter_split _ (fun k => is_Some (el k)) voters).
  rewrite (sumZ_zero _ (filter (fun x => ~ is_Some (el x)) voters)); [|].
  - by rewrite Z.add_0_r.
  - intros k [Hk _]%list_elem_of_filter. rewrite <- eq_None_not_Some in Hk. simpl. by rewrite Hk.
Qed.

(** The stake of a bucket is the weight of the members recorded with its
    value. *)
Lemma tally_weight votes power seen r x :
  Tally el votes power seen ->
  sumZ id (omap el (default [] (votes !! (r, x))))
  = sumZ (snapshot_weight snap)
      (filter (fun k => seen !! (r, k) = Some x) (snapshot_members snap)).
Proof using.
  intros [Hnd Hs Hr _]. rewrite stake_weight. apply sumZ_perm, NoDup_Permutation.
  - apply NoDup_filter. destruct (votes !! (r, x)) eqn:Hv; simpl; [eauto|constructor].
  - apply NoDup_filter, NoDup_fst_map_to_list.
  - intros k. rewrite !list_elem_of_filter, elem_of_snapshot_members. split; [|naive_solver].
    intros [Hk Hin]. split; [|done].
    destruct (votes !! (r, x)) eqn:Hv; simpl in Hin; [eauto|by apply not_elem_of_nil in Hin].
Qed.

Lemma voters_quorum voters :
  NoDup voters -> ps_total_eligible_stake snap * 2 <= sumZ id (omap el voters) * 3 ->
  @quorum E (filter (fun k => is_Some (el k)) voters).
Proof.
  intros Hnd Hs. split.
  - by apply NoDup_filter.
  - intros k [Hk _]%list_elem_of_filter. by apply elem_of_snapshot_members.
  - rewrite snapshot_total. cbn [weight E]. rewrite <- stake_weight. lia.
Qed.

Lemma tally_quorum votes power seen r x :
  Tally el votes power seen ->
  ps_total_eligible_stake snap * 2
    <= sumZ id (omap el (default [] (votes !! (r, x)))) * 3 ->
  exists Q, @quorum E Q /\ forall k, k ∈ Q -> seen !! (r, k) = Some x.
Proof.
  intros [Hnd Hs _ _] Hq. eexists. split.
  - apply voters_quorum; [|exact Hq]. destruct (votes !! (r, x)) eqn:Hv; simpl; [eauto|constructor].
  - intros k [_ Hk]%list_elem_of_filter.
    destruct (votes !! (r, x)) eqn:Hv; simpl in Hk; [eauto|by apply not_elem_of_nil in Hk].
Qed.

(** Two values cannot both have a supermajority at one round. *)
Lemma tally_unique votes power seen r x y :
  0 < ps_total_eligible_stake snap -> Tally el votes power seen ->
  ps_total_eligible_stake snap * 2
    <= sumZ id (omap el (default [] (votes !! (r, x)))) * 3 ->
  ps_total_eligible_stake snap * 2
    <= sumZ id (omap el (default [] (votes !! (r, y)))) * 3 ->
  x = y.
Proof.
  intros Hpos Ht Hx Hy.
  destruct (tally_quorum _ _ _ r x Ht Hx) as (Q1 & [Hnd1 Hm1 Hw1] & Hs1).
  destruct (tally_quorum _ _ _ r y Ht Hy) as (Q2 & [Hnd2 Hm2 Hw2] & Hs2).
  pose proof (sumZ_overlap _ _ Q1 Q2 (@weight_nonneg E) Hnd1 Hnd2 Hm1 Hm2) as Ho.
  fold (@total_weight E) in Ho. rewrite snapshot_total in *.
  destruct (filter (fun k => k ∈ Q2) Q1) as [|k l] eqn:HI.
  - simpl in Ho, Hw1, Hw2. lia.
  - assert (k ∈ filter (fun k => k ∈ Q2) Q1) as [Hk2 Hk1]%list_elem_of_filter by (rewrite HI; left).
    specialize (Hs1 k Hk1). specialize (Hs2 k Hk2). congruence.
Qed.
End supermajority.

(** ** The bucket search *)

Lemma head_omap_Some {A B} (f : A -> option B) (l : list A) b :
  head (omap f l) = Some b -> exists a, a ∈ l /\ f a = Some b.
Proof.
  intros Hh. assert (b ∈ omap f l) as Hb.
  { destruct (omap f l) as [|c l']; [done|]. injection Hh as ->. left. }
  apply list_elem_of_omap in Hb as (a & ? & ?). by exists a.
Qed.

Lemma head_omap_None {A B} (f : A -> option B) (l : list A) :
  head (omap f l) = None -> forall a, a ∈ l -> f a = None.
Proof.
  intros Hh a Ha. destruct (f a) as [b|] eqn:Hb; [|done]. exfalso.
  assert (b ∈ omap f l) as Hin by (apply list_elem_of_omap; by exists a).
  destruct (omap f l); [by apply not_elem_of_nil in Hin|done].
Qed.

(** The loop over the keys of a vote map: the first value of [round] that wins. *)
Definition search (win : Z * option Hash -> bool) (keys : list (Z * option Hash)) (round : Z)
  : option Hash :=
  head (omap (fun key : Z * option Hash =>
                if negb (key.1 =? round) then None
                else match key.2 with
                     | None => None
                     | Some bh => if win key then Some bh else None
                     end) keys).

Lemma search_Some win keys r bh :
  search win keys r = Some bh -> (r, Some bh) ∈ keys /\ win (r, Some bh) = true.
Proof.
  intros ([r' x] & Hin & Hf)%head_omap_Some. simpl in Hf.
  destruct (Z.eqb_spec r' r) as [->|]; [|done]. destruct x as [b|]; [|done]. simpl in Hf.
  destruct (win _) eqn:Hm; [|done]. by injection Hf as <-.
Qed.

Lemma search_iff win keys r bh :
  (forall b, win (r, Some b) = true -> (r, Some b) ∈ keys) ->
  (forall b1 b2, win (r, Some b1) = true -> win (r, Some b2) = true -> b1 = b2) ->
  search win keys r = Some bh <-> win (r, Some bh) = true.
Proof.
  intros Hk Hu. split; [by intros [_ ?]%search_Some|]. intros Hw.
  destruct (search win keys r) as [b|] eqn:Hs.
  - apply search_Some in Hs as [_ Hb]. by rewrite (Hu _ _ Hb Hw).
  - pose proof (head_omap_None _ _ Hs _ (Hk _ Hw)) as Hn. simpl in Hn.
    by rewrite Z.eqb_refl, Hw in Hn.
Qed.

Section buckets.
Context `{Crypto} (vs : ValidatorSet) (sp : StakePool).
Context (snap : ConsensusPowerSnapshot) (Hsnap : snapshot_wf snap).
Abbreviation el := (fun k => ps_eligible_power snap !! k).

Lemma eligible_stake_snap e k :
  ce_power_snapshot e = Some snap -> eligible_stake vs sp e k = el k.
Proof. intros Hs. unfold eligible_stake. by rewrite Hs. Qed.

Lemma voter_stake_snap e voters :
  ce_power_snapshot e = Some snap -> voter_stake vs sp e voters = sumZ id (omap el voters).
Proof.
  intros Hs. unfold voter_stake. rewrite !sumZ_omap. apply sumZ_ext. intros k _.
  by rewrite eligible_stake_snap.
Qed.

Lemma total_eligible_snap e :
  ce_power_snapshot e = Some snap -> total_eligible_stake vs sp e = ps_total_eligible_stake snap.
Proof. intros Hs. unfold total_eligible_stake. by rewrite Hs. Qed.

Lemma supermajority_power_iff e p :
  ce_power_snapshot e = Some snap ->
  has_supermajority_power vs sp e p = true
  <-> 0 < ps_total_eligible_stake snap /\ ps_total_eligible_stake snap * 2 <= p * 3.
Proof.
  intros Hs. unfold has_supermajority_power. rewrite total_eligible_snap by done.
  by rewrite andb_true_iff, Z.ltb_lt, Z.leb_le.
Qed.

Lemma prevote_bucket_stake e key :
  ce_power_snapshot e = Some snap ->
  Tally el (ce_prevotes e) (ce_prevote_power e) (ce_seen_prevotes e) ->
  prevote_bucket_power vs sp e key = sumZ id (omap el (default [] (ce_prevotes e !! key))).
Proof.
  intros Hs [_ _ _ Hp]. unfold prevote_bucket_power.
  destruct (ce_prevote_power e !! key) as [p|] eqn:Hk; [by rewrite <- Hp, Hk|].
  destruct (ce_prevotes e !! key); [by apply voter_stake_snap|done].
Qed.

Lemma precommit_bucket_stake e key :
  ce_power_snapshot e = Some snap ->
  Tally el (ce_precommits e) (ce_precommit_power e) (ce_seen_precommits e) ->
  precommit_bucket_power vs sp e key = sumZ id (omap el (default [] (ce_precommits e !! key))).
Proof.
  intros Hs [_ _ _ Hp]. unfold precommit_bucket_power.
  destruct (ce_precommit_power e !! key) as [p|] eqn:Hk; [by rewrite <- Hp, Hk|].
  destruct (ce_precommits e !! key); [by apply voter_stake_snap|done].
Qed.

(** The searches for a polka and for a commit find a value exactly when its
    bucket has a supermajority, whatever the order of the keys. *)
Lemma find_polka_Some e r bh :
  find_polka vs sp e r = Some bh ->
  is_Some (ce_prevotes e !! (r, Some bh))
  /\ has_supermajority_power vs sp e (prevote_bucket_power vs sp e (r, Some bh)) = true.
Proof. rewrite <- elem_of_keys. apply (search_Some (fun key => _)). Qed.

Lemma find_commit_Some e r bh :
  find_commit vs sp e r = Some bh ->
  is_Some (ce_precommits e !! (r, Some bh))
  /\ has_supermajority_power vs sp e (precommit_bucket_power vs sp e (r, Some bh)) = true.
Proof. rewrite <- elem_of_keys. apply (search_Some (fun key => _)). Qed.

Lemma supermajority_unique e votes power seen (bucket : Z * option Hash -> Z) r x y :
  ce_power_snapshot e = Some snap -> Tally el votes power seen ->
  (forall key, bucket key = sumZ id (omap el (default [] (votes !! key)))) ->
  has_supermajority_power vs sp e (bucket (r, x)) = true ->
  has_supermajority_power vs sp e (bucket (r, y)) = true ->
  x = y.
Proof.
  intros Hs Ht Hb. rewrite !supermajority_power_iff, !Hb by done. intros [Hpos Hx] [_ Hy].
  exact (tally_unique snap Hsnap _ _ _ _ _ _ Hpos Ht Hx Hy).
Qed.

Lemma supermajority_key (e : ConsensusEngine) (votes : gmap (Z * option Hash) (list Pubkey)) (bucket : Z * option Hash -> Z) key :
  ce_power_snapshot e = Some snap ->
  (forall key, bucket key = sumZ id (omap el (default [] (votes !! key)))) ->
  has_supermajority_power vs sp e (bucket key) = true -> is_Some (votes !! key).
Proof.
  intros Hs Hb. rewrite supermajority_power_iff, Hb by done. intros [Hpos Hw].
  destruct (votes !! key); [done|]. simpl in Hw. lia.
Qed.

Lemma find_polka_iff e r bh :
  ce_power_snapshot e = Some snap ->
  Tally el (ce_prevotes e) (ce_prevote_power e) (ce_seen_prevotes e) ->
  find_polka vs sp e r = Some bh
  <-> has_supermajority_power vs sp e (prevote_bucket_power vs sp e (r, Some bh)) = true.
Proof.
  intros Hs Ht. pose proof (fun key => prevote_bucket_stake e key Hs Ht) as Hb.
  apply (search_iff (fun key => has_supermajority_power vs sp e (prevote_bucket_power vs sp e key))).
  - intros b. rewrite elem_of_keys. by apply supermajority_key.
  - intros b1 b2 H1 H2. by eapply (inj Some), (supermajority_unique e _ _ _ _ r).
Qed.

Lemma find_commit_iff e r bh :
  ce_power_snapshot e = Some snap ->
  Tally el (ce_precommits e) (ce_precommit_power e) (ce_seen_precommits e) ->
  find_commit vs sp e r = Some bh
  <-> has_supermajority_power vs sp e (precommit_bucket_power vs sp e (r, Some bh)) = true.
Proof.
  intros Hs Ht. pose proof (fun key => precommit_bucket_stake e key Hs Ht) as Hb.
  apply (search_iff (fun key => has_supermajority_power vs sp e (precommit_bucket_power vs sp e key))).
  - intros b. rewrite elem_of_keys. by apply supermajority_key.
  - intros b1 b2 H1 H2. by eapply (inj Some), (supermajority_unique e _ _ _ _ r).
Qed.
End buckets.
