(* ===== verification/Refinement.v ===== *)
(** * The engine implements the locking protocol

    Every handler of the consensus engine ([Engine]) is a sequence of steps of
    the abstract validator of [Protocol]: the view of the engine's state moves
    by [vsteps], and the votes and commits the handler hands to the caller are
    the visible events of those steps.  The invariant [EInv] of the engine's
    bookkeeping is what the simulation needs. *)

From S2P Require Import Prelude Crypto Block Votes Stake Validators Slashing Engine Protocol Power.
From stdpp Require Import base tactics numbers list gmap.
From Stdlib Require Import ZArith Lia.

Local Open Scope Z_scope.

(** ** Views and events of the engine *)

Definition engine_view (e : ConsensusEngine) : View :=
  mkView (ce_round e) (locked_state e) (ce_signed_prevote_rounds e)
    (ce_signed_precommit_rounds e) (ce_seen_prevotes e) (ce_seen_precommits e).

(** An action without [Multiple] and [NoAction]. *)
Fixpoint action_leaves (a : ConsensusAction) : list ConsensusAction :=
  match a with
  | NoAction => []
  | Multiple l => List.flat_map action_leaves l
  | _ => [a]
  end.

Definition leaf_event (a : ConsensusAction) : option Event :=
  match a with
  | BroadcastPrevote v => Some (CastPrevote (pv_round v) (pv_block_hash v))
  | BroadcastPrecommit v => Some (CastPrecommit (pc_round v) (pc_block_hash v))
  | CommitBlock _ round _ block_hash => Some (Decide round block_hash)
  | _ => None
  end.

Definition leaf_events (l : list ConsensusAction) : list Event := omap leaf_event l.

Lemma leaf_events_app l k : leaf_events (l ++ k) = leaf_events l ++ leaf_events k.
Proof. apply omap_app. Qed.

Lemma action_leaves_collect l : action_leaves (collect_actions l) = List.flat_map action_leaves l.
Proof. destruct l as [|a [|b l]]; simpl; [done|by rewrite app_nil_r|done]. Qed.

Lemma action_leaves_pair a b :
  action_leaves (Multiple [a; b]) = action_leaves a ++ action_leaves b.
Proof. simpl. by rewrite app_nil_r. Qed.

(** Rounds above this bound are not covered: a step advances at most 101 rounds,
    so below it [round + 1] does not wrap. *)
Definition ROUND_CAP : Z := 2 ^ 32 - 200.

(** ** The invariant *)

Section engine_inv.
Context `{Crypto} (snap : ConsensusPowerSnapshot) (me : Pubkey) (height : Z) (chain_id : bytes).
Abbreviation el := (fun k => ps_eligible_power snap !! k).

Record EInv (e : ConsensusEngine) : Prop := {
  inv_me : ce_validator_pubkey e = me;
  inv_height : ce_height e = height;
  inv_chain : ce_signing_chain_id e = chain_id;
  inv_snapshot : ce_power_snapshot e = Some snap;
  inv_key : Keypair_pubkey (ce_keypair e) = me;
  inv_round : is_u32 (ce_round e);
  inv_hashes : forall r x voters, ce_prevotes e !! (r, x) = Some voters -> opt_u256 x;
  inv_prevotes : Tally el (ce_prevotes e) (ce_prevote_power e) (ce_seen_prevotes e);
  inv_precommits : Tally el (ce_precommits e) (ce_precommit_power e) (ce_seen_precommits e);
  inv_own_prevotes : forall r,
    ce_signed_prevote_rounds e !! r = ce_seen_prevotes e !! (r, me);
  inv_own_precommits : forall r,
    ce_signed_precommit_rounds e !! r = ce_seen_precommits e !! (r, me);
  inv_signed_precommit_rounds : forall r x,
    ce_signed_precommit_rounds e !! r = Some x -> r <= ce_round e;
  inv_step : ce_step e = Propose \/ ce_step e = Prevote_ ->
    ce_signed_precommit_rounds e !! ce_round e = None;
  inv_lock : ce_locked_round e = None <-> ce_locked_value e = None;
  inv_blocks : forall h b, ce_proposal_blocks e !! h = Some b -> Block_hash b = h;
  inv_sigs : forall r k x, ce_seen_precommits e !! (r, k) = Some x ->
    exists sig ts, ce_precommit_sigs e !! (r, k) = Some (sig, ts)
      /\ Keypair_verify k (Precommit_signing_bytes_for_chain_id chain_id height r x ts) sig = true;
  inv_seen_prevote_rounds : forall r k x,
    ce_seen_prevotes e !! (r, k) = Some x -> r <= Z.max (ce_round e) ROUND_CAP;
  inv_seen_precommit_rounds : forall r k x,
    ce_seen_precommits e !! (r, k) = Some x -> r <= Z.max (ce_round e) ROUND_CAP;
}.
End engine_inv.

Ltac einv H :=
  destruct H as [Hme Hheight Hchain Hsnp Hky Hrd Hhs Htpv Htpc Hopv Hopc Hspc Hst Hlk Hbl Hsg Hrpv Hrpc].

Section refinement.
Context `{CL : CryptoLaws} (vs : ValidatorSet) (sp : StakePool).
Context (snap : ConsensusPowerSnapshot) (Hsnap : snapshot_wf snap).
Context (me : Pubkey) (height : Z) (chain_id : bytes).
Abbreviation el := (fun k => ps_eligible_power snap !! k).
Abbreviation E := (snapshot_electorate snap Hsnap).
Abbreviation Inv := (EInv snap me height chain_id).
Implicit Types e : ConsensusEngine.

(** A commit certificate: distinct eligible signers with valid signatures and
    two thirds of the stake. *)
Record certified (r : Z) (bh : Hash) (sigs : list CommitSignature) : Prop := {
  cert_NoDup : NoDup (map cs_validator sigs);
  cert_valid : forall cs, cs ∈ sigs ->
    is_Some (ps_eligible_power snap !! cs_validator cs)
    /\ Keypair_verify (cs_validator cs)
         (Precommit_signing_bytes_for_chain_id chain_id height r (Some bh) (cs_timestamp cs))
         (cs_signature cs) = true;
  cert_total : 0 < ps_total_eligible_stake snap;
  cert_power : ps_total_eligible_stake snap * 2
               <= sumZ id (omap el (map cs_validator sigs)) * 3;
}.

(** What the handlers hand to the caller: votes in the validator's own name
    and blocks with their certificate. *)
Definition own_leaf (a : ConsensusAction) : Prop :=
  match a with
  | BroadcastPrevote v =>
      pv_height v = height /\ pv_validator v = me /\ is_u32 (pv_round v)
      /\ opt_u256 (pv_block_hash v)
  | BroadcastPrecommit v =>
      pc_height v = height /\ pc_validator v = me /\ is_u32 (pc_round v)
      /\ opt_u256 (pc_block_hash v) /\ is_u64 (pc_timestamp v)
  | CommitBlock h r b bh =>
      h = height /\ Block_hash b = bh /\ blk_commit_round b = r
      /\ certified r bh (blk_commit_signatures b)
  | _ => True
  end.

(** From [e] the engine reaches [e'] emitting the leaves [l]. *)
Definition sim e (l : list ConsensusAction) e' : Prop :=
  Inv e' /\ Forall own_leaf l
  /\ exists evs, @vsteps E me (engine_view e) evs (engine_view e')
                 /\ List.filter visible evs = leaf_events l
                 /\ Forall (fun ev => match ev with SeePrevote _ _ _ | SeePrecommit _ _ _ => False
                                               | _ => True end) evs.

Lemma sim_refl e l :
  Inv e -> Forall own_leaf l -> leaf_events l = [] -> sim e l e.
Proof. intros Hi Ho Hl. split; [done|]. split; [done|]. exists []. split; [constructor|done]. Qed.

Lemma sim_trans e1 l1 e2 l2 e3 : sim e1 l1 e2 -> sim e2 l2 e3 -> sim e1 (l1 ++ l2) e3.
Proof.
  intros (_ & Ho1 & evs1 & Hs1 & Hv1 & Hp1) (Hi & Ho2 & evs2 & Hs2 & Hv2 & Hp2).
  split; [done|]. split; [by apply Forall_app|]. exists (evs1 ++ evs2).
  split; [by eapply vsteps_app|]. split; [|by apply Forall_app].
  by rewrite List.filter_app, Hv1, Hv2, leaf_events_app.
Qed.

Lemma sim_inv e l e' : sim e l e' -> Inv e'.
Proof. by intros [? _]. Qed.

(** A change outside the view. *)
Lemma sim_frame e l e' :
  engine_view e' = engine_view e -> Inv e' -> Forall own_leaf l -> leaf_events l = [] ->
  sim e l e'.
Proof.
  intros Hv Hi Ho Hl. split; [done|]. split; [done|]. exists []. rewrite Hv.
  split; [constructor|done].
Qed.

Lemma sim_round e l e' : sim e l e' -> ce_round e <= ce_round e'.
Proof. intros (_ & _ & evs & Hs & _). by apply vsteps_round in Hs. Qed.

(** One visible or silent step of the protocol. *)
Lemma sim_step e l e' ev :
  @vstep E me (engine_view e) ev (engine_view e') -> Inv e' -> Forall own_leaf l ->
  (if visible ev then [ev] else []) = leaf_events l ->
  match ev with SeePrevote _ _ _ | SeePrecommit _ _ _ => False | _ => True end ->
  sim e l e'.
Proof.
  intros Hs Hi Ho Hl Hev. split; [done|]. split; [done|]. exists [ev].
  split; [by apply vsteps_one|]. split; [|by constructor]. simpl. by destruct (visible ev).
Qed.

(** *** Steps and rounds *)

Lemma inv_set_step s e :
  Inv e ->
  (s = Propose \/ s = Prevote_ -> ce_signed_precommit_rounds e !! ce_round e = None) ->
  Inv (set_ce_step s e).
Proof. intros Hi Hs. einv Hi. by split. Qed.

Lemma sim_set_step s e l :
  Inv e ->
  (s = Propose \/ s = Prevote_ -> ce_signed_precommit_rounds e !! ce_round e = None) ->
  Forall own_leaf l -> leaf_events l = [] -> sim e l (set_ce_step s e).
Proof. intros. apply sim_frame; [done|by apply inv_set_step|done|done]. Qed.

Lemma sim_start_round r e :
  Inv e -> ce_round e < r <= u32_max ->
  sim e (action_leaves (start_round r e).1) (start_round r e).2.
Proof.
  intros Hi Hr. apply (sim_step _ _ _ (EnterRound r)); simpl; try done.
  - apply (step_enter_round me (engine_view e)). simpl. lia.
  - einv Hi. split; simpl; try done.
    + unfold is_u32, u32_max in *. lia.
    + intros r' x Hx. specialize (Hspc _ _ Hx). lia.
    + intros _. destruct (ce_signed_precommit_rounds e !! r) eqn:Hx; [|done].
      specialize (Hspc _ _ Hx). lia.
    + intros r' k x Hx. specialize (Hrpv _ _ _ Hx). lia.
    + intros r' k x Hx. specialize (Hrpc _ _ _ Hx). lia.
  - by repeat constructor.
Qed.

(** *** Recording own votes *)

Lemma record_own_precommit_eq pc e :
  Inv e ->
  engine_view (record_own_precommit vs sp pc e)
  = mkView (ce_round e) (locked_state e) (ce_signed_prevote_rounds e)
      (<[ce_round e := pc_block_hash pc]> (ce_signed_precommit_rounds e))
      (ce_seen_prevotes e)
      (<[(ce_round e, me) := pc_block_hash pc]> (ce_seen_precommits e))
  /\ ce_step (record_own_precommit vs sp pc e) = ce_step e
  /\ ce_proposal_blocks (record_own_precommit vs sp pc e) = ce_proposal_blocks e
  /\ ce_proposals (record_own_precommit vs sp pc e) = ce_proposals e.
Proof.
  intros Hi. einv Hi. unfold record_own_precommit, engine_view, locked_state. rewrite Hme.
  by destruct (eligible_stake _ _ _ _).
Qed.

(** Recording a precommit with its signature keeps the signature table. *)
Lemma sigs_push (seen : gmap (Z * Pubkey) (option Hash)) (sigs : gmap (Z * Pubkey) (PqSignature * Z))
  r k x sig ts :
  (forall r k x, seen !! (r, k) = Some x ->
    exists sig ts, sigs !! (r, k) = Some (sig, ts)
      /\ Keypair_verify k (Precommit_signing_bytes_for_chain_id chain_id height r x ts) sig = true) ->
  Keypair_verify k (Precommit_signing_bytes_for_chain_id chain_id height r x ts) sig = true ->
  forall r' k' x', <[(r, k) := x]> seen !! (r', k') = Some x' ->
    exists sig' ts', <[(r, k) := (sig, ts)]> sigs !! (r', k') = Some (sig', ts')
      /\ Keypair_verify k' (Precommit_signing_bytes_for_chain_id chain_id height r' x' ts') sig' = true.
Proof.
  intros Hs Hv r' k' x' [[[= <- <-] <-]|[Hne Hx]]%lookup_insert_Some.
  - exists sig, ts. by rewrite lookup_insert_eq.
  - destruct (Hs _ _ _ Hx) as (sig' & ts' & Hl & ?). exists sig', ts'. by rewrite lookup_insert_ne.
Qed.

Lemma inv_record_own_precommit pc e :
  Inv e -> ce_step e = Precommit_ -> ce_signed_precommit_rounds e !! ce_round e = None ->
  Keypair_verify me
    (Precommit_signing_bytes_for_chain_id chain_id height (ce_round e) (pc_block_hash pc)
       (pc_timestamp pc)) (pc_signature pc) = true ->
  Inv (record_own_precommit vs sp pc e).
Proof.
  intros Hi Hs Hn Hvf. pose proof Hi as Hi'. einv Hi'.
  assert (ce_seen_precommits e !! (ce_round e, me) = None) as Hn' by by rewrite <- Hopc.
  pose proof (tally_push el _ _ _ (ce_round e) (pc_block_hash pc) me Htpc Hn') as Ht.
  pose proof (sigs_push _ _ (ce_round e) me (pc_block_hash pc) (pc_signature pc)
                (pc_timestamp pc) Hsg Hvf) as Hsg'.
  unfold record_own_precommit. rewrite Hme. simpl. cbv beta in Ht.
  rewrite (eligible_stake_snap vs sp snap) by done.
  destruct (ps_eligible_power snap !! me) as [w|]; split; simpl; try done.
  all: try (rewrite Hs; by intros [|]).
  all: try (intros r; destruct (decide (r = ce_round e)) as [->|Hne];
            [by rewrite !lookup_insert_eq|by rewrite !lookup_insert_ne by congruence]).
  all: try (intros r x [[<- _]|[_ Hx]]%lookup_insert_Some; [lia|eauto]).
  all: intros r k x [[[= <- <-] _]|[_ Hx]]%lookup_insert_Some; [lia|eauto].
Qed.

Lemma record_own_prevote_eq pv e :
  Inv e ->
  engine_view (record_own_prevote vs sp pv e)
  = mkView (ce_round e) (locked_state e)
      (<[ce_round e := pv_block_hash pv]> (ce_signed_prevote_rounds e))
      (ce_signed_precommit_rounds e)
      (<[(ce_round e, me) := pv_block_hash pv]> (ce_seen_prevotes e)) (ce_seen_precommits e)
  /\ ce_step (record_own_prevote vs sp pv e) = ce_step e
  /\ ce_proposal_blocks (record_own_prevote vs sp pv e) = ce_proposal_blocks e
  /\ ce_proposals (record_own_prevote vs sp pv e) = ce_proposals e.
Proof.
  intros Hi. einv Hi. unfold record_own_prevote, engine_view, locked_state. rewrite Hme.
  by destruct (eligible_stake _ _ _ _).
Qed.

Lemma hashes_push (r : Z) (x : option Hash) (k : Pubkey) (votes : gmap (Z * option Hash) (list Pubkey)) :
  (forall r x voters, votes !! (r, x) = Some voters -> opt_u256 x) -> opt_u256 x ->
  forall r' x' voters, push_vote (r, x) k votes !! (r', x') = Some voters -> opt_u256 x'.
Proof.
  intros Hv Hx r' x' voters. unfold push_vote.
  intros [[[= <- <-] _]|[_ Hy]]%lookup_insert_Some; eauto.
Qed.

Lemma inv_record_own_prevote pv e :
  Inv e -> ce_signed_prevote_rounds e !! ce_round e = None -> opt_u256 (pv_block_hash pv) ->
  Inv (record_own_prevote vs sp pv e).
Proof.
  intros Hi Hn Hx. pose proof Hi as Hi'. einv Hi'.
  assert (ce_seen_prevotes e !! (ce_round e, me) = None) as Hn' by by rewrite <- Hopv.
  pose proof (tally_push el _ _ _ (ce_round e) (pv_block_hash pv) me Htpv Hn') as Ht.
  pose proof (hashes_push (ce_round e) (pv_block_hash pv) me _ Hhs Hx) as Hhs'.
  unfold record_own_prevote. rewrite Hme. simpl. cbv beta in Ht.
  rewrite (eligible_stake_snap vs sp snap) by done.
  destruct (ps_eligible_power snap !! me) as [w|]; split; simpl; try done.
  all: try (intros r; destruct (decide (r = ce_round e)) as [->|Hne];
            [by rewrite !lookup_insert_eq|by rewrite !lookup_insert_ne by congruence]).
  all: intros r k x [[[= <- <-] _]|[_ Hy]]%lookup_insert_Some; [lia|eauto].
Qed.

(** *** Precommits *)

(** The supermajority of a precommit bucket is a quorum in the view. *)
Lemma precommit_supermajority e r h :
  Inv e ->
  has_supermajority_power vs sp e (precommit_bucket_power vs sp e (r, Some h)) = true ->
  @precommit_quorum E (engine_view e) r h.
Proof.
  intros Hi. einv Hi. intros [_ Hw]%(supermajority_power_iff vs sp snap); [|done].
  rewrite (precommit_bucket_stake vs sp snap) in Hw by done.
  by eapply (tally_quorum snap Hsnap).
Qed.

(** The certificate collected for a supermajority. *)
Lemma collect_voters e r h voters :
  Inv e -> ce_precommits e !! (r, Some h) = Some voters ->
  map cs_validator (collect_commit_signatures vs sp e r h)
  = List.filter (is_eligible_validator vs sp e) voters
  /\ forall cs, cs ∈ collect_commit_signatures vs sp e r h ->
       Keypair_verify (cs_validator cs)
         (Precommit_signing_bytes_for_chain_id chain_id height r (Some h) (cs_timestamp cs))
         (cs_signature cs) = true.
Proof.
  intros Hi Hv. einv Hi. unfold collect_commit_signatures. rewrite Hv.
  pose proof (fun k => tally_seen _ _ _ _ Htpc r (Some h) voters k Hv) as Hseen.
  clear Hv. induction voters as [|k voters IH]; [split; [done|by intros cs ?%not_elem_of_nil]|].
  destruct IH as [IH1 IH2]; [intros j Hj; apply Hseen; by right|].
  cbn [List.filter]. destruct (is_eligible_validator vs sp e k); [|by split].
  destruct (Hsg r k (Some h)) as (sig & ts & Hl & Hvf); [apply Hseen; left|].
  change (omap ?f (k :: ?l)) with (match f k with Some y => y :: omap f l | None => omap f l end).
  cbv beta. rewrite Hl. cbn [fmap option_fmap option_map]. split; [cbn [map cs_validator]; by rewrite IH1|].
  intros cs [->|Hin]%elem_of_cons; [done|by apply IH2].
Qed.

Lemma certified_collect e r h :
  Inv e ->
  has_supermajority_power vs sp e (precommit_bucket_power vs sp e (r, Some h)) = true ->
  certified r h (collect_commit_signatures vs sp e r h).
Proof.
  intros Hi Hsm. pose proof Hi as Hi'. einv Hi'.
  apply (supermajority_power_iff vs sp snap) in Hsm as [Hpos Hw]; [|done].
  rewrite (precommit_bucket_stake vs sp snap) in Hw by done.
  destruct (ce_precommits e !! (r, Some h)) as [voters|] eqn:Hv; [|simpl in Hw; lia].
  destruct (collect_voters e r h voters Hi Hv) as [Hmap Hver].
  assert (forall k, is_eligible_validator vs sp e k = true <-> is_Some (el k)) as Hel.
  { intros k. unfold is_eligible_validator. rewrite (eligible_stake_snap vs sp snap) by done.
    apply bool_decide_eq_true. }
  split; rewrite ?Hmap; try done.
  - apply NoDup_ListNoDup, List.NoDup_filter, NoDup_ListNoDup. by eapply tally_NoDup.
  - intros cs Hcs. split; [|by apply Hver].
    assert (cs_validator cs ∈ map cs_validator (collect_commit_signatures vs sp e r h)) as Hin
      by by apply (list_elem_of_fmap_2 cs_validator).
    rewrite Hmap in Hin. apply list_elem_of_In, List.filter_In in Hin as [_ Hin]. by apply Hel.
  - simpl in Hw. etransitivity; [exact Hw|]. apply Z.eq_le_incl. f_equal. clear - Hel.
    induction voters as [|k l IH]; [done|]. rewrite !sumZ_omap in *. cbn [List.filter].
    rewrite sumZ_cons, IH. destruct (is_eligible_validator vs sp e k) eqn:Hk; [done|].
    destruct (ps_eligible_power snap !! k) eqn:Hp; [|done].
    assert (is_Some (el k)) as Hs by by exists z. apply Hel in Hs. congruence.
Qed.

Lemma prevote_supermajority e r h :
  Inv e ->
  has_supermajority_power vs sp e (prevote_bucket_power vs sp e (r, Some h)) = true ->
  @prevote_quorum E (engine_view e) r h.
Proof.
  intros Hi. einv Hi. intros [_ Hw]%(supermajority_power_iff vs sp snap); [|done].
  rewrite (prevote_bucket_stake vs sp snap) in Hw by done.
  by eapply (tally_quorum snap Hsnap).
Qed.

Lemma polka_for_quorum e r h :
  Inv e -> has_polka_for vs sp e r (Some h) = true -> @prevote_quorum E (engine_view e) r h.
Proof.
  intros Hi. pose proof Hi as Hi'. einv Hi'. unfold has_polka_for, has_supermajority_voters.
  destruct (ce_prevotes e !! (r, Some h)) as [voters|] eqn:Hv; [|done].
  rewrite (voter_stake_snap vs sp snap), (total_eligible_snap vs sp snap) by done.
  case_match; [done|]. intros Hw%Z.leb_le.
  eapply (tally_quorum snap Hsnap); [done|]. by rewrite Hv.
Qed.

(** Where a vote leaves the round: the same round, or the next one at its start. *)
Definition next_or_same e e' : Prop :=
  ce_round e' = ce_round e \/ (ce_round e' = ce_round e + 1 /\ ce_step e' = Propose).

Context (now : Z) (Hnow : is_u64 now).

Lemma Block_hash_u256 b : is_u256 (Block_hash b).
Proof. apply sha256_range. Qed.

Lemma opt_u256_None : opt_u256 None.
Proof. by intros h. Qed.

Lemma opt_u256_Some h : is_u256 h -> opt_u256 (Some h).
Proof. by intros Hh h' [= <-]. Qed.

#[local] Hint Resolve Block_hash_u256 opt_u256_None opt_u256_Some : lichen.

Lemma Block_hash_with_commit r sigs b : Block_hash (with_commit r sigs b) = Block_hash b.
Proof. done. Qed.

(** The precommit and prevote the engine signs in its current round. *)
Definition own_precommit (x : option Hash) e : Precommit :=
  mkPrecommit (ce_height e) (ce_round e) x (ce_validator_pubkey e)
    (Keypair_sign (ce_keypair e)
       (Precommit_signing_bytes_for_chain_id (ce_signing_chain_id e) (ce_height e) (ce_round e)
          x now))
    now.

Definition own_prevote (x : option Hash) e : Prevote :=
  mkPrevote (ce_height e) (ce_round e) x (ce_validator_pubkey e)
    (Keypair_sign (ce_keypair e)
       (Prevote_signing_bytes_for_chain_id (ce_signing_chain_id e) (ce_height e) (ce_round e) x)).

Lemma own_precommit_verify x e :
  Inv e ->
  Keypair_verify me
    (Precommit_signing_bytes_for_chain_id chain_id height (ce_round e)
       (pc_block_hash (own_precommit x e)) (pc_timestamp (own_precommit x e)))
    (pc_signature (own_precommit x e)) = true.
Proof.
  intros Hi. einv Hi. unfold own_precommit. simpl. rewrite Hheight, Hchain, <- Hky.
  apply Keypair_verify_sign.
Qed.

Lemma do_precommit_signed x e :
  is_Some (ce_signed_precommit_rounds e !! ce_round e) ->
  do_precommit vs sp now x e = (NoAction, e).
Proof. intros Hd. unfold do_precommit. by rewrite decide_True. Qed.

Lemma do_precommit_nil_eq e :
  ce_signed_precommit_rounds e !! ce_round e = None ->
  do_precommit vs sp now None e =
  let e1 := record_own_precommit vs sp (own_precommit None e) e in
  let next := start_round (wrap32 (ce_round e1 + 1)) e1 in
  if has_supermajority_power vs sp e1 (precommit_bucket_power vs sp e1 (ce_round e1, None))
  then (Multiple [BroadcastPrecommit (own_precommit None e); next.1], next.2)
  else (BroadcastPrecommit (own_precommit None e), e1).
Proof.
  intros Hd. unfold do_precommit. rewrite decide_False by (rewrite Hd; by intros [? ?]).
  reflexivity.
Qed.

Lemma do_precommit_block_eq h e :
  ce_signed_precommit_rounds e !! ce_round e = None ->
  do_precommit vs sp now (Some h) e =
  let e1 := record_own_precommit vs sp (own_precommit (Some h) e) e in
  let broadcast := BroadcastPrecommit (own_precommit (Some h) e) in
  match (if has_supermajority_power vs sp e1
              (precommit_bucket_power vs sp e1 (ce_round e1, Some h))
         then ce_proposal_blocks e1 !! h else None) with
  | Some block =>
      let e2 := transition_to Commit_ e1 in
      (Multiple [broadcast;
         CommitBlock (ce_height e2) (ce_round e1)
           (with_commit (ce_round e1) (collect_commit_signatures vs sp e2 (ce_round e1) h) block) h],
       e2)
  | None => (broadcast, e1)
  end.
Proof.
  intros Hd. unfold do_precommit. rewrite decide_False by (rewrite Hd; by intros [? ?]).
  reflexivity.
Qed.

(** Signing nil in the precommit step, possibly advancing the round. *)
Lemma sim_do_precommit_nil e :
  Inv e -> ce_step e = Precommit_ -> 0 <= ce_round e < u32_max ->
  let res := do_precommit vs sp now None e in
  sim e (action_leaves res.1) res.2 /\ next_or_same e res.2
  /\ ce_proposals res.2 = ce_proposals e.
Proof.
  intros Hi Hs Hr. destruct (ce_signed_precommit_rounds e !! ce_round e) eqn:Hd.
  { rewrite do_precommit_signed by by rewrite Hd. split; [by apply sim_refl|by split; [left|]]. }
  rewrite do_precommit_nil_eq by done.
  set (pc := own_precommit None e).
  pose proof (record_own_precommit_eq pc e Hi) as (Hv & Hstep1 & _ & Hpr).
  pose proof (inv_record_own_precommit pc e Hi Hs Hd (own_precommit_verify None e Hi)) as Hi1.
  assert (sim e [BroadcastPrecommit pc] (record_own_precommit vs sp pc e)) as Hsim.
  { apply (sim_step _ _ _ (CastPrecommit (ce_round e) None)); try done.
    - rewrite Hv. by apply (step_precommit_nil me (engine_view e)).
    - einv Hi. constructor; [|constructor]. by split_and!; try apply opt_u256_None. }
  revert Hv Hstep1 Hpr Hi1 Hsim. generalize (record_own_precommit vs sp pc e).
  intros e1 Hv Hstep1 Hpr Hi1 Hsim. cbv zeta.
  assert (ce_round e1 = ce_round e) as Hr1 by apply (f_equal v_round Hv).
  destruct (has_supermajority_power _ _ _ _); [|by split_and!; [|left|]].
  assert (wrap32 (ce_round e1 + 1) = ce_round e + 1) as Hw
    by (rewrite Hr1; apply wrap_small; unfold u32_max in *; lia).
  rewrite Hw. split_and!; [|by right|done].
  apply (sim_trans _ [_] e1); [done|]. apply sim_start_round; [done|lia].
Qed.

Lemma lock_on_eq r h e :
  ce_step e = Prevote_ ->
  engine_view (lock_on r h e)
  = mkView (ce_round e) (Some (r, h)) (ce_signed_prevote_rounds e)
      (ce_signed_precommit_rounds e) (ce_seen_prevotes e) (ce_seen_precommits e)
  /\ ce_step (lock_on r h e) = Precommit_
  /\ ce_proposal_blocks (lock_on r h e) = ce_proposal_blocks e
  /\ ce_proposals (lock_on r h e) = ce_proposals e.
Proof.
  intros Hs. unfold lock_on, transition_to. simpl.
  destruct (ce_proposal_blocks e !! h); simpl; by rewrite Hs.
Qed.

Lemma inv_lock_on r h e : Inv e -> ce_step e = Prevote_ -> Inv (lock_on r h e).
Proof.
  intros Hi Hs. einv Hi. unfold lock_on, transition_to. simpl.
  destruct (ce_proposal_blocks e !! h); simpl; rewrite Hs; simpl; split; simpl; try done;
    by intros [|].
Qed.

Lemma transition_commit_eq e :
  ce_step e = Precommit_ -> transition_to Commit_ e = set_ce_step Commit_ e.
Proof. intros Hs. unfold transition_to. by rewrite Hs. Qed.

(** Locking on the value of a polka of the current round and precommitting it,
    possibly committing. *)
Lemma sim_lock_precommit h e :
  Inv e -> ce_step e = Prevote_ -> is_u256 h ->
  @prevote_quorum E (engine_view e) (ce_round e) h ->
  let res := do_precommit vs sp now (Some h) (lock_on (ce_round e) h e) in
  sim e (action_leaves res.1) res.2 /\ ce_round res.2 = ce_round e
  /\ ce_proposals res.2 = ce_proposals e /\ ce_step res.2 <> Prevote_.
Proof.
  intros Hi Hs Hh Hq.
  pose proof (inv_step _ _ _ _ _ Hi (or_intror Hs)) as Hn.
  pose proof (lock_on_eq (ce_round e) h e Hs) as (Hvl & Hsl & _ & Hprl).
  pose proof (inv_lock_on (ce_round e) h e Hi Hs) as Hil.
  revert Hvl Hsl Hprl Hil. generalize (lock_on (ce_round e) h e).
  intros el Hvl Hsl Hprl Hil.
  assert (ce_round el = ce_round e) as Hr by apply (f_equal v_round Hvl).
  assert (ce_signed_precommit_rounds el !! ce_round el = None) as Hnl.
  { rewrite Hr. by rewrite <- Hn; f_equal; apply (f_equal v_precommitted Hvl). }
  rewrite do_precommit_block_eq by done.
  set (pc := own_precommit (Some h) el).
  pose proof (record_own_precommit_eq pc el Hil) as (Hv & Hstep1 & _ & Hpr).
  pose proof (inv_record_own_precommit pc el Hil Hsl Hnl (own_precommit_verify (Some h) el Hil)) as Hi1.
  revert Hv Hstep1 Hpr Hi1. generalize (record_own_precommit vs sp pc el).
  intros e1 Hv Hstep1 Hpr Hi1. cbv zeta.
  assert (ce_round e1 = ce_round e) as Hr1 by (rewrite <- Hr; apply (f_equal v_round Hv)).
  assert (sim e [BroadcastPrecommit pc] e1) as Hsim.
  { apply (sim_step _ _ _ (CastPrecommit (ce_round e) (Some h))); try done.
    - rewrite Hv. unfold engine_view in Hvl. injection Hvl as -> -> -> -> -> ->.
      by apply (step_precommit me (engine_view e)).
    - einv Hil. constructor; [|constructor]. split_and!; try done. by apply opt_u256_Some.
    - simpl. by rewrite Hr. }
  assert (ce_step e1 <> Prevote_) as Hns by (rewrite Hstep1, Hsl; done).
  destruct (has_supermajority_power _ _ _ _) eqn:Hsm; [|by simpl; rewrite Hpr].
  destruct (ce_proposal_blocks e1 !! h) as [b|] eqn:Hb; [|by simpl; rewrite Hpr].
  rewrite transition_commit_eq by congruence.
  split_and!; [|done|by simpl; rewrite Hpr|done].
  apply (sim_trans _ [_] e1); [done|].
  apply (sim_step _ _ _ (Decide (ce_round e1) h)); try done.
  - apply (step_decide me (engine_view e1)). by apply precommit_supermajority.
  - apply inv_set_step; [done|]. by intros [|].
  - constructor; [|constructor]. pose proof Hi1 as Hi1'. einv Hi1'.
    split_and!; [done|rewrite Block_hash_with_commit; by apply Hbl|done|].
    by apply (certified_collect e1).
Qed.

(** *** Prevotes *)

Lemma do_prevote_signed x e :
  is_Some (ce_signed_prevote_rounds e !! ce_round e) ->
  do_prevote vs sp now x e = (NoAction, e).
Proof. intros Hd. unfold do_prevote. by rewrite decide_True. Qed.

Lemma do_prevote_eq x e :
  ce_signed_prevote_rounds e !! ce_round e = None ->
  do_prevote vs sp now x e =
  let e0 := transition_to Prevote_ e in
  let e1 := record_own_prevote vs sp (own_prevote x e0) e0 in
  let broadcast := BroadcastPrevote (own_prevote x e0) in
  if has_supermajority_power vs sp e1 (prevote_bucket_power vs sp e1 (ce_round e1, x)) then
    let res :=
      match x with
      | Some h => do_precommit vs sp now (Some h) (lock_on (ce_round e1) h e1)
      | None => do_precommit vs sp now None (transition_to Precommit_ e1)
      end in
    (Multiple [broadcast; res.1], res.2)
  else (broadcast, e1).
Proof.
  intros Hd. unfold do_prevote. rewrite decide_False by (rewrite Hd; by intros [? ?]).
  cbv zeta. destruct x as [h|].
  - fold (own_prevote (Some h) (transition_to Prevote_ e)).
    destruct (has_supermajority_power _ _ _ _); [|done].
    by destruct (do_precommit vs sp now (Some h) _).
  - fold (own_prevote None (transition_to Prevote_ e)).
    destruct (has_supermajority_power _ _ _ _); [|done].
    by destruct (do_precommit vs sp now None _).
Qed.

Lemma transition_precommit_eq e :
  ce_step e = Prevote_ -> transition_to Precommit_ e = set_ce_step Precommit_ e.
Proof. intros Hs. unfold transition_to. by rewrite Hs. Qed.

(** Leaving the prevote step with a nil precommit. *)
Lemma sim_nil_polka e :
  Inv e -> ce_step e = Prevote_ -> 0 <= ce_round e < u32_max ->
  let res := do_precommit vs sp now None (transition_to Precommit_ e) in
  sim e (action_leaves res.1) res.2 /\ next_or_same e res.2
  /\ ce_proposals res.2 = ce_proposals e.
Proof.
  intros Hi Hs Hr. rewrite transition_precommit_eq by done.
  assert (Inv (set_ce_step Precommit_ e)) as Hi2 by (apply inv_set_step; [done|by intros [|]]).
  destruct (sim_do_precommit_nil (set_ce_step Precommit_ e) Hi2 eq_refl Hr) as (Hsim & Hn & Hp).
  split_and!; [|done|done].
  apply (sim_trans _ [] (set_ce_step Precommit_ e)); [|done].
  apply sim_set_step; try done. by intros [|].
Qed.

Lemma transition_prevote_eq e :
  Inv e -> ce_step e = Propose ->
  Inv (transition_to Prevote_ e) /\ engine_view (transition_to Prevote_ e) = engine_view e
  /\ ce_step (transition_to Prevote_ e) = Prevote_
  /\ ce_proposals (transition_to Prevote_ e) = ce_proposals e.
Proof.
  intros Hi Hs. unfold transition_to. rewrite Hs. simpl. split_and!; try done.
  apply inv_set_step; [done|]. intros _. by apply (inv_step _ _ _ _ _ Hi); left.
Qed.

(** Signing and counting the own prevote. *)
Lemma sim_record_own_prevote x e :
  Inv e -> ce_signed_prevote_rounds e !! ce_round e = None -> opt_u256 x ->
  @may_prevote E (engine_view e) x ->
  let e1 := record_own_prevote vs sp (own_prevote x e) e in
  sim e [BroadcastPrevote (own_prevote x e)] e1
  /\ ce_step e1 = ce_step e /\ ce_round e1 = ce_round e /\ ce_proposals e1 = ce_proposals e.
Proof.
  intros Hi Hd Hx Hmay. cbv zeta.
  pose proof (record_own_prevote_eq (own_prevote x e) e Hi) as (Hv & Hs1 & _ & Hpr).
  pose proof (inv_record_own_prevote (own_prevote x e) e Hi Hd Hx) as Hi1.
  revert Hv Hs1 Hpr Hi1. generalize (record_own_prevote vs sp (own_prevote x e) e).
  intros e1 Hv Hs1 Hpr Hi1.
  split_and!; [|done|by apply (f_equal v_round Hv)|done].
  apply (sim_step _ _ _ (CastPrevote (ce_round e) x)); try done.
  - rewrite Hv. by apply (step_prevote me (engine_view e)).
  - einv Hi. constructor; [|constructor]. by split_and!.
Qed.

Lemma sim_do_prevote x e :
  Inv e -> ce_step e = Propose -> 0 <= ce_round e < u32_max -> opt_u256 x ->
  @may_prevote E (engine_view e) x ->
  let res := do_prevote vs sp now x e in
  sim e (action_leaves res.1) res.2 /\ next_or_same e res.2
  /\ ce_proposals res.2 = ce_proposals e
  /\ (x <> None -> ce_round res.2 = ce_round e).
Proof.
  intros Hi Hs Hr Hx Hmay. destruct (ce_signed_prevote_rounds e !! ce_round e) eqn:Hd.
  { rewrite do_prevote_signed by by rewrite Hd.
    split_and!; [by apply sim_refl|by left|done|done]. }
  rewrite do_prevote_eq by done.
  destruct (transition_prevote_eq e Hi Hs) as (Hi0 & Hv0 & Hs0 & Hp0).
  revert Hi0 Hv0 Hs0 Hp0. cbv zeta. generalize (transition_to Prevote_ e).
  intros e0 Hi0 Hv0 Hs0 Hp0.
  destruct (sim_record_own_prevote x e0 Hi0) as (Hsim & Hs1 & Hr1 & Hp1).
  { change (v_prevoted (engine_view e0) !! v_round (engine_view e0) = None). by rewrite Hv0. }
  { done. }
  { by rewrite Hv0. }
  assert (Inv (record_own_prevote vs sp (own_prevote x e0) e0)) as Hi1 by apply Hsim.
  revert Hsim Hs1 Hr1 Hp1 Hi1. generalize (record_own_prevote vs sp (own_prevote x e0) e0).
  intros e1 Hsim Hs1 Hr1 Hp1 Hi1. rewrite Hs0 in Hs1. rewrite Hp0 in Hp1.
  assert (ce_round e0 = ce_round e) as Hr0 by apply (f_equal v_round Hv0).
  rewrite Hr0 in Hr1. unfold sim in Hsim. rewrite Hv0 in Hsim. fold (sim e [BroadcastPrevote (own_prevote x e0)] e1) in Hsim.
  destruct (has_supermajority_power _ _ _ _) eqn:Hsm.
  2: { split_and!; [exact Hsim|by left|done|by intros _]. }
  destruct x as [h|].
  - destruct (sim_lock_precommit h e1 Hi1 Hs1) as (Hsim2 & Hr2 & Hp2 & _).
    { by apply Hx. }
    { by apply prevote_supermajority. }
    revert Hsim2 Hr2 Hp2.
    generalize (do_precommit vs sp now (Some h) (lock_on (ce_round e1) h e1)).
    intros [a e2] Hsim2 Hr2 Hp2. cbn [fst snd] in *. rewrite action_leaves_pair.
    split_and!; [by apply (sim_trans _ [_] e1)|left|..]; congruence.
  - destruct (sim_nil_polka e1 Hi1 Hs1) as (Hsim2 & Hn2 & Hp2); [by rewrite Hr1|].
    revert Hsim2 Hn2 Hp2. generalize (do_precommit vs sp now None (transition_to Precommit_ e1)).
    intros [a e2] Hsim2 Hn2 Hp2. cbn [fst snd] in *. rewrite action_leaves_pair.
    unfold next_or_same in *. rewrite Hr1 in Hn2.
    split_and!; [by apply (sim_trans _ [_] e1)|done|congruence|done].
Qed.

(** *** Proposals *)

(** [Outcome e res]: the result of a handler called in [e]. *)
Definition Outcome e (res : ConsensusAction * ConsensusEngine) : Prop :=
  sim e (action_leaves res.1) res.2.

Lemma should_prevote_may_prevote p h e :
  Inv e -> should_prevote_proposal_block vs sp p h e = true ->
  @may_prevote E (engine_view e) (Some h).
Proof.
  intros Hi. unfold should_prevote_proposal_block, may_prevote. simpl. unfold locked_state.
  destruct (ce_locked_round e) as [lr|] eqn:Hlr; [|done].
  destruct (ce_locked_value e) as [lh|] eqn:Hlh; [|done].
  rewrite bool_decide_eq_false_2 by done. simpl.
  case_bool_decide as Heq; [injection Heq as ->; by left|].
  destruct (0 <=? pr_valid_round p); [|done].
  intros [Hlt%Z.ltb_lt Hp]%andb_true_iff. right. eexists. split; [done|].
  by apply polka_for_quorum.
Qed.

Lemma may_prevote_nil v : @may_prevote E v None.
Proof. done. Qed.

Lemma sim_prevote_proposal p e :
  Inv e -> 0 <= ce_round e < u32_max ->
  let res := prevote_for_current_round_proposal vs sp now p e in
  Outcome e res /\ next_or_same e res.2.
Proof.
  intros Hi Hr. unfold prevote_for_current_round_proposal, Outcome.
  case_match eqn:Hc; [split; [by apply sim_refl|by left]|].
  assert (ce_step e = Propose) as Hs.
  { apply orb_false_iff in Hc as [_ Hc]. apply negb_false_iff in Hc.
    by apply bool_decide_eq_true in Hc. }
  destruct (should_prevote_proposal_block _ _ _ _ _) eqn:Hsp.
  - destruct (sim_do_prevote (Some (Block_hash (pr_block p))) e Hi Hs Hr) as (? & ? & _);
      [auto with lichen|by apply (should_prevote_may_prevote p)|by split].
  - by destruct (sim_do_prevote None e Hi Hs Hr opt_u256_None) as (? & ? & _).
Qed.

Lemma sim_process_current_proposal e :
  Inv e -> 0 <= ce_round e < u32_max ->
  Outcome e (process_current_round_proposal_if_present vs sp now e).
Proof.
  intros Hi Hr. unfold process_current_round_proposal_if_present.
  case_match; [by apply sim_refl|].
  case_match; [|by apply sim_refl]. by apply sim_prevote_proposal.
Qed.

Lemma inv_set_proposal h b r p e :
  Inv e -> Block_hash b = h ->
  Inv (set_ce_proposals (<[r := p]> (ce_proposals e))
         (set_ce_proposal_blocks (<[h := b]> (ce_proposal_blocks e)) e)).
Proof.
  intros Hi Hb. einv Hi. split; simpl; try done.
  intros h' b' [[<- <-]|[_ Hx]]%lookup_insert_Some; auto.
Qed.

(** The value a proposer puts forward respects its own lock. *)
Lemma proposal_value_may_prevote fresh e b vr :
  Inv e -> proposal_value fresh e = Some (b, vr) ->
  @may_prevote E (engine_view e) (Some (Block_hash b)).
Proof.
  intros Hi. einv Hi. unfold proposal_value, may_prevote. simpl. unfold locked_state.
  destruct (ce_locked_value e) as [lh|] eqn:Hlh.
  - destruct (ce_locked_round e) as [lr|] eqn:Hlr; [|done].
    intros (b' & Hb & [= <- _])%fmap_Some. left.
    assert (forall b, ce_proposal_blocks e !! lh = Some b -> Block_hash b = lh) as Hpb by auto.
    destruct (ce_valid_value e) as [vb|]; [|by rewrite Hpb].
    destruct (Z.eqb_spec (Block_hash vb) lh) as [Heq|]; [|by rewrite Hpb].
    by injection Hb as <-.
  - destruct (ce_locked_round e); [|done]. destruct Hlk as [_ Hlk]. by specialize (Hlk eq_refl).
Qed.

Lemma create_proposal_eq fresh e b vr :
  ce_step e = Propose -> proposal_value fresh e = Some (b, vr) ->
  let h := Block_hash b in
  let p := mkProposal (ce_height e) (ce_round e) b vr (ce_validator_pubkey e)
             (Keypair_sign (ce_keypair e)
                (Proposal_signing_bytes_static_for_chain_id (ce_signing_chain_id e)
                   (ce_height e) (ce_round e) h vr)) in
  let e1 := set_ce_proposals (<[ce_round e := p]> (ce_proposals e))
              (set_ce_proposal_blocks (<[h := b]> (ce_proposal_blocks e)) e) in
  let res := do_prevote vs sp now (Some h) e1 in
  create_proposal vs sp now fresh e
  = (Multiple [BroadcastProposal (default p (ce_proposals res.2 !! ce_round res.2)); res.1],
     res.2).
Proof.
  intros Hs Hv. unfold create_proposal. rewrite bool_decide_eq_true_2 by done.
  cbn [negb]. rewrite Hv. cbv zeta. by destruct (do_prevote _ _ _ _ _).
Qed.

Lemma sim_create_proposal fresh e :
  Inv e -> 0 <= ce_round e < u32_max -> Outcome e (create_proposal vs sp now fresh e).
Proof.
  intros Hi Hr. unfold Outcome.
  destruct (decide (ce_step e = Propose)) as [Hs|Hs].
  2: { unfold create_proposal. rewrite bool_decide_eq_false_2 by done. by apply sim_refl. }
  destruct (proposal_value fresh e) as [[b vr]|] eqn:Hv.
  2: { unfold create_proposal. rewrite bool_decide_eq_true_2 by done. cbn [negb]. rewrite Hv.
       apply sim_refl; [done|by repeat constructor|done]. }
  rewrite (create_proposal_eq fresh e b vr) by done. cbv zeta.
  set (p := mkProposal _ _ _ _ _ _).
  pose proof (inv_set_proposal (Block_hash b) b (ce_round e) p e Hi eq_refl) as Hi1.
  pose proof (proposal_value_may_prevote fresh e b vr Hi Hv) as Hmay.
  set (e1 := set_ce_proposals _ _) in *.
  assert (engine_view e1 = engine_view e) as Hve by done.
  assert (ce_step e1 = Propose /\ ce_round e1 = ce_round e) as [Hs1 Hr1] by done.
  clearbody e1. rewrite <- Hve in Hmay.
  destruct (sim_do_prevote (Some (Block_hash b)) e1) as (Hsim & _);
    [done|done|by rewrite Hr1|auto with lichen|done|].
  cbn [fst snd]. rewrite action_leaves_pair. apply (sim_trans _ _ e1); [|done].
  apply sim_frame; [done|done|by repeat constructor|done].
Qed.

(** The panic on [self.proposals[&self.round]] is unreachable: the lookup
    finds the proposal just stored. *)
Lemma create_proposal_round fresh e b vr :
  Inv e -> 0 <= ce_round e < u32_max -> ce_step e = Propose ->
  proposal_value fresh e = Some (b, vr) ->
  exists p, ce_proposals (create_proposal vs sp now fresh e).2 !! ce_round e = Some p
    /\ ce_round (create_proposal vs sp now fresh e).2 = ce_round e /\ pr_block p = b.
Proof.
  intros Hi Hr Hs Hv. rewrite (create_proposal_eq fresh e b vr) by done. cbv zeta.
  set (p := mkProposal _ _ _ _ _ _). exists p.
  pose proof (inv_set_proposal (Block_hash b) b (ce_round e) p e Hi eq_refl) as Hi1.
  pose proof (proposal_value_may_prevote fresh e b vr Hi Hv) as Hmay.
  set (e1 := set_ce_proposals _ _) in *.
  assert (engine_view e1 = engine_view e) as Hve by done.
  assert (ce_proposals e1 !! ce_round e = Some p) as Hp by apply lookup_insert_eq.
  assert (ce_step e1 = Propose /\ ce_round e1 = ce_round e) as [Hs1 Hr1] by done.
  clearbody e1. rewrite <- Hve in Hmay.
  destruct (sim_do_prevote (Some (Block_hash b)) e1) as (_ & _ & Hp2 & Hr2);
    [done|done|by rewrite Hr1|auto with lichen|done|].
  cbn [fst snd]. split_and!; [by rewrite Hp2|rewrite Hr2; done|done].
Qed.

Lemma expected_leader_cached_frame ls ph e :
  exists c, (expected_leader_cached vs sp ls ph e).2 = set_ce_leader_cache c e.
Proof.
  unfold expected_leader_cached. case_match.
  - exists (ce_leader_cache e). by destruct e.
  - case_match; eexists; reflexivity.
Qed.

Lemma inv_set_leader_cache c e : Inv e -> Inv (set_ce_leader_cache c e).
Proof. intros Hi. einv Hi. by split. Qed.

(** What remains of [on_proposal] once the leader is known. *)
Lemma sim_on_proposal p e :
  Inv e -> 0 <= ce_round e < u32_max -> Outcome e (on_proposal vs sp now p e).
Proof.
  intros Hi Hr. unfold on_proposal, Outcome.
  do 4 (case_match; [by apply sim_refl|]). cbv zeta.
  destruct (expected_leader_cached_frame (leader_selection_slot (ce_height e) (pr_round p))
              (hdr_parent_hash (blk_header (pr_block p))) e) as [c Hc].
  destruct (expected_leader_cached _ _ _ _ _) as [leader e1]. cbn [snd] in Hc. subst e1.
  pose proof (inv_set_leader_cache c e Hi) as Hi1.
  assert (sim e [] (set_ce_leader_cache c e)) as Hs1 by by apply sim_frame.
  assert (ce_round (set_ce_leader_cache c e) = ce_round e) as Hr1 by done.
  revert Hi1 Hs1 Hr1. generalize (set_ce_leader_cache c e). intros e1 Hi1 Hs1 Hr1.
  do 4 (match goal with |- context [if ?b then _ else _] => destruct b end; [exact Hs1|]).
  change (ce_proposals (set_ce_proposal_blocks ?m e1)) with (ce_proposals e1).
  pose proof (inv_set_proposal (Block_hash (pr_block p)) (pr_block p) (pr_round p) p e1 Hi1 eq_refl)
    as Hi2.
  set (e2 := set_ce_proposals _ _) in *.
  assert (engine_view e2 = engine_view e1 /\ ce_round e2 = ce_round e1) as [Hv2 Hr2] by done.
  clearbody e2.
  assert (sim e [] e2) as Hs2.
  { apply (sim_trans _ [] e1 []); [done|]. by apply sim_frame. }
  do 2 (case_match; [exact Hs2|]).
  apply (sim_trans _ [] e2); [done|]. apply sim_prevote_proposal; [done|lia].
Qed.

(** *** Round skip *)

Lemma catch_up_S fuel e :
  catch_up vs sp now (S fuel) e =
  match ce_proposals e !! ce_round e with
  | Some p =>
      let res := prevote_for_current_round_proposal vs sp now p e in ([res.1], res.2)
  | None =>
      let res := do_prevote vs sp now None e in
      if ce_round e <? ce_round res.2 then
        (res.1 :: (catch_up vs sp now fuel res.2).1, (catch_up vs sp now fuel res.2).2)
      else ([res.1], res.2)
  end.
Proof.
  change (catch_up vs sp now (S fuel) e) with
    (match ce_proposals e !! ce_round e with
     | Some proposal =>
         let '(a, e) := prevote_for_current_round_proposal vs sp now proposal e in ([a], e)
     | None =>
         let '(a, e') := do_prevote vs sp now None e in
         if ce_round e <? ce_round e' then
           let '(actions, e'') := catch_up vs sp now fuel e' in (a :: actions, e'')
         else ([a], e')
     end).
  case_match.
  - by destruct (prevote_for_current_round_proposal _ _ _ _ _).
  - destruct (do_prevote _ _ _ _ _) as [a e']. cbn [fst snd]. case_match; [|done].
    by destruct (catch_up _ _ _ _ _).
Qed.

Lemma sim_catch_up fuel e :
  Inv e -> ce_step e = Propose -> 0 <= ce_round e -> ce_round e + Z.of_nat fuel <= u32_max ->
  let res := catch_up vs sp now fuel e in
  sim e (List.flat_map action_leaves res.1) res.2.
Proof.
  revert e. induction fuel as [|fuel IH]; intros e Hi Hs H0 Hf; cbv zeta.
  { by apply sim_refl. }
  rewrite catch_up_S. destruct (ce_proposals e !! ce_round e) as [p|].
  - destruct (sim_prevote_proposal p e Hi) as [Ho _]; [lia|].
    cbn [fst snd List.flat_map]. by rewrite app_nil_r.
  - destruct (sim_do_prevote None e Hi Hs) as (Ho & Hn & _); [lia|auto with lichen|done|]. cbv zeta.
    revert Ho Hn. generalize (do_prevote vs sp now None e). intros [a e'] Ho Hn. cbn [fst snd] in *.
    destruct (Z.ltb_spec (ce_round e) (ce_round e')).
    + cbn [fst snd List.flat_map]. apply (sim_trans _ _ e'); [done|].
      destruct Hn as [?|[Hr' Hs']]; [lia|]. apply IH; [by apply sim_inv in Ho|done|lia|lia].
    + cbn [fst snd List.flat_map]. by rewrite app_nil_r.
Qed.

Lemma foldr_max_bounds (r c : Z) (l : list Z) :
  r <= c -> (forall x, x ∈ l -> x <= c) -> r <= foldr Z.max r l <= c.
Proof.
  intros Hr. induction l as [|y l IH]; intros Hl; simpl; [lia|].
  assert (y <= c) by (apply Hl; left).
  assert (r <= foldr Z.max r l <= c); [|lia]. apply IH. intros x Hx. apply Hl. by right.
Qed.

Lemma future_keys_bound {A} e (seen : gmap (Z * Pubkey) A) c r :
  (forall r k x, seen !! (r, k) = Some x -> r <= c) -> r ∈ (future_keys e seen).*1 -> r <= c.
Proof.
  intros Hs ([r' k] & -> & Hk)%list_elem_of_fmap. unfold future_keys in Hk.
  apply list_elem_of_filter in Hk as [_ Hk]. apply elem_of_keys in Hk as [x Hx]. eauto.
Qed.

Lemma sim_check_round_skip e :
  Inv e -> 0 <= ce_round e <= ROUND_CAP -> Outcome e (check_round_skip vs sp now e).
Proof.
  intros Hi Hr. unfold check_round_skip, Outcome. cbv zeta.
  case_match; [by apply sim_refl|].
  set (mr := foldr Z.max _ _).
  assert (ce_round e <= mr <= ROUND_CAP) as Hmr.
  { einv Hi. rewrite Z.max_r in Hrpv, Hrpc by lia.
    apply foldr_max_bounds; [lia|]. intros r Hin. rewrite fmap_app in Hin.
    apply elem_of_app in Hin as [Hin|Hin];
      [by apply (future_keys_bound e (ce_seen_prevotes e))
      |by apply (future_keys_bound e (ce_seen_precommits e))]. }
  clearbody mr. destruct (Z.eqb_spec mr (ce_round e)) as [|Hne]; [by apply sim_refl|].
  case_match; [|by apply sim_refl].
  pose proof (sim_start_round mr e Hi) as Hs1.
  destruct (start_round mr e) as [a e1] eqn:Hst. cbn [fst snd] in Hs1.
  assert (ce_round e1 = mr /\ ce_step e1 = Propose) as [Hr1 Hstp]
    by (by unfold start_round in Hst; simplify_eq).
  assert (mr <= u32_max) by (unfold ROUND_CAP, u32_max in *; lia). specialize (Hs1 ltac:(lia)).
  pose proof (sim_catch_up 100 e1 (sim_inv _ _ _ Hs1) Hstp) as Hs2.
  destruct (catch_up _ _ _ _ _) as [l e2]. cbn [fst snd] in *.
  rewrite action_leaves_collect. apply (sim_trans _ _ e1); [done|]. apply Hs2; [lia|].
  unfold ROUND_CAP, u32_max in *. lia.
Qed.

Lemma action_leaves_push a :
  List.flat_map action_leaves (push_action a []) = action_leaves a.
Proof. unfold push_action. destruct a; simpl; rewrite ?app_nil_r; done. Qed.

Lemma sim_round_skip_rule r e :
  Inv e -> 0 <= ce_round e <= ROUND_CAP \/ r <= ce_round e ->
  let res := round_skip_rule vs sp now r e in
  sim e (List.flat_map action_leaves res.1) res.2.
Proof.
  intros Hi Hr. cbv zeta. unfold round_skip_rule.
  destruct (Z.ltb_spec (ce_round e) r) as [Hlt|Hge]; [|by apply sim_refl].
  pose proof (sim_check_round_skip e Hi) as Ho. unfold Outcome in Ho.
  destruct (check_round_skip _ _ _ _) as [a e']. cbn [fst snd] in *.
  rewrite action_leaves_push. apply Ho. lia.
Qed.

(** *** Incoming votes *)

Lemma record_prevote_eq pv w e :
  engine_view (record_prevote pv w e)
  = mkView (ce_round e) (locked_state e) (ce_signed_prevote_rounds e)
      (ce_signed_precommit_rounds e)
      (<[(pv_round pv, pv_validator pv) := pv_block_hash pv]> (ce_seen_prevotes e))
      (ce_seen_precommits e)
  /\ ce_round (record_prevote pv w e) = ce_round e
  /\ ce_step (record_prevote pv w e) = ce_step e.
Proof. done. Qed.

Lemma inv_record_prevote pv w e :
  Inv e -> ps_eligible_power snap !! pv_validator pv = Some w ->
  ce_seen_prevotes e !! (pv_round pv, pv_validator pv) = None -> pv_validator pv <> me ->
  pv_round pv <= ROUND_CAP -> opt_u256 (pv_block_hash pv) -> Inv (record_prevote pv w e).
Proof.
  intros Hi Hw Hn Hne Hr Hx. einv Hi.
  pose proof (hashes_push (pv_round pv) (pv_block_hash pv) (pv_validator pv) _ Hhs Hx) as Hhs'.
  pose proof (tally_push el _ _ _ (pv_round pv) (pv_block_hash pv) _ Htpv Hn) as Ht.
  cbv beta in Ht. rewrite Hw in Ht. unfold record_prevote. split; simpl; try done.
  - intros r. by rewrite lookup_insert_ne by congruence.
  - intros r k x [[[= <- <-] _]|[_ Hy]]%lookup_insert_Some; [lia|eauto].
Qed.

Lemma record_precommit_eq pc w e :
  engine_view (record_precommit pc w e)
  = mkView (ce_round e) (locked_state e) (ce_signed_prevote_rounds e)
      (ce_signed_precommit_rounds e) (ce_seen_prevotes e)
      (<[(pc_round pc, pc_validator pc) := pc_block_hash pc]> (ce_seen_precommits e))
  /\ ce_round (record_precommit pc w e) = ce_round e
  /\ ce_step (record_precommit pc w e) = ce_step e.
Proof. done. Qed.

Lemma inv_record_precommit pc w e :
  Inv e -> ps_eligible_power snap !! pc_validator pc = Some w ->
  ce_seen_precommits e !! (pc_round pc, pc_validator pc) = None -> pc_validator pc <> me ->
  pc_round pc <= ROUND_CAP ->
  Keypair_verify (pc_validator pc)
    (Precommit_signing_bytes_for_chain_id chain_id height (pc_round pc) (pc_block_hash pc)
       (pc_timestamp pc)) (pc_signature pc) = true ->
  Inv (record_precommit pc w e).
Proof.
  intros Hi Hw Hn Hne Hr Hvf. einv Hi.
  pose proof (sigs_push _ _ (pc_round pc) (pc_validator pc) (pc_block_hash pc)
                (pc_signature pc) (pc_timestamp pc) Hsg Hvf) as Hsg'.
  pose proof (tally_push el _ _ _ (pc_round pc) (pc_block_hash pc) _ Htpc Hn) as Ht.
  cbv beta in Ht. rewrite Hw in Ht. unfold record_precommit. split; simpl; try done.
  - intros r. by rewrite lookup_insert_ne by congruence.
  - intros r k x [[[= <- <-] _]|[_ Hx]]%lookup_insert_Some; [lia|eauto].
Qed.

Lemma sim_prevote_rule_1 r e :
  Inv e ->
  let res := prevote_rule_1 vs sp now r e in
  sim e (List.flat_map action_leaves res.1) res.2 /\ ce_round res.2 = ce_round e.
Proof.
  intros Hi. unfold prevote_rule_1.
  destruct (Z.eqb_spec r (ce_round e)) as [->|]; [|split; [by apply sim_refl|done]].
  case_bool_decide as Hs; [|split; [by apply sim_refl|done]]. simpl.
  destruct (find_polka vs sp e (ce_round e)) as [h|] eqn:Hf; [|split; [by apply sim_refl|done]].
  apply find_polka_Some in Hf as [Hk Hf].
  apply prevote_supermajority in Hf; [|done].
  assert (is_u256 h) as Hh.
  { destruct Hk as [voters Hk]. by apply (inv_hashes _ _ _ _ _ Hi _ _ _ Hk). }
  destruct (sim_lock_precommit h e Hi Hs Hh Hf) as (Hsim & Hr & _).
  destruct (do_precommit _ _ _ _ _) as [a e']. cbn [fst snd List.flat_map] in *.
  by rewrite app_nil_r.
Qed.

Lemma sim_prevote_rule_2 r e :
  Inv e -> 0 <= ce_round e <= ROUND_CAP ->
  let res := prevote_rule_2 vs sp now r e in
  sim e (List.flat_map action_leaves res.1) res.2
  /\ (ce_round res.2 = ce_round e \/ r <= ce_round res.2).
Proof.
  intros Hi Hr. unfold prevote_rule_2.
  destruct (Z.eqb_spec r (ce_round e)) as [->|]; [|split; [by apply sim_refl|by left]].
  case_bool_decide as Hs; [|split; [by apply sim_refl|by left]]. simpl.
  case_match; [|split; [by apply sim_refl|by left]].
  destruct (sim_nil_polka e Hi Hs) as (Hsim & Hn & _); [unfold ROUND_CAP, u32_max in *; lia|].
  destruct (do_precommit _ _ _ _ _) as [a e']. cbn [fst snd List.flat_map] in *.
  rewrite app_nil_r. split; [done|]. destruct Hn as [|[? _]]; [by left|right; lia].
Qed.

Lemma silent_rule_3 r e :
  let l := List.flat_map action_leaves (prevote_rule_3 vs sp r e) in
  Forall own_leaf l /\ leaf_events l = [].
Proof. unfold prevote_rule_3. case_match; simpl; split; by repeat constructor. Qed.

(** All four rules, on the state in which the prevote is recorded. *)
Definition prevote_rules r e : ConsensusAction * ConsensusEngine :=
  let '(a1, e) := prevote_rule_1 vs sp now r e in
  let '(a2, e) := prevote_rule_2 vs sp now r e in
  let a3 := prevote_rule_3 vs sp r e in
  let '(a4, e) := round_skip_rule vs sp now r e in
  (collect_actions (a1 ++ a2 ++ a3 ++ a4), e).

Lemma sim_prevote_rules r e :
  Inv e -> 0 <= ce_round e <= ROUND_CAP -> Outcome e (prevote_rules r e).
Proof.
  intros Hi Hr. unfold prevote_rules, Outcome.
  destruct (sim_prevote_rule_1 r e Hi) as [H1 R1].
  destruct (prevote_rule_1 _ _ _ _ _) as [a1 e1]. cbn [fst snd] in *. apply sim_inv in H1 as Hi1.
  destruct (sim_prevote_rule_2 r e1 Hi1) as [H2 R2]; [by rewrite R1|].
  destruct (prevote_rule_2 _ _ _ _ _) as [a2 e2]. cbn [fst snd] in *. apply sim_inv in H2 as Hi2.
  destruct (silent_rule_3 r e2) as [Ho3 Hl3].
  pose proof (sim_round_skip_rule r e2 Hi2) as H4.
  destruct (round_skip_rule _ _ _ _ _) as [a4 e4]. cbn [fst snd] in *.
  rewrite action_leaves_collect, !List.flat_map_app.
  apply (sim_trans _ _ e1); [done|]. apply (sim_trans _ _ e2); [done|].
  apply (sim_trans _ _ e2); [by apply sim_refl|]. apply H4. lia.
Qed.

(** The outcome of delivering a vote: nothing is recorded, or the vote is seen
    and the rules run. *)
Definition VoteOutcome e (ev : Event) (accepted : Prop)
  (res : ConsensusAction * ConsensusEngine) : Prop :=
  Outcome e res
  \/ (accepted /\ exists e1, @vstep E me (engine_view e) ev (engine_view e1) /\ Outcome e1 res).

(** Own votes on the network were signed, hence seen, here. *)
Definition own_prevote_seen (pv : Prevote) e : Prop :=
  pv_validator pv = me -> pv_height pv = height ->
  Prevote_verify_signature_with_chain_id chain_id pv = true ->
  is_Some (ce_seen_prevotes e !! (pv_round pv, me)).

Definition own_precommit_seen (pc : Precommit) e : Prop :=
  pc_validator pc = me -> pc_height pc = height ->
  Precommit_verify_signature_with_chain_id chain_id pc = true ->
  is_Some (ce_seen_precommits e !! (pc_round pc, me)).

Lemma sim_on_prevote pv e :
  Inv e -> 0 <= ce_round e <= ROUND_CAP -> pv_round pv <= ROUND_CAP ->
  opt_u256 (pv_block_hash pv) -> own_prevote_seen pv e ->
  VoteOutcome e (SeePrevote (pv_round pv) (pv_validator pv) (pv_block_hash pv))
    (pv_height pv = height /\ Prevote_verify_signature_with_chain_id chain_id pv = true)
    (on_prevote vs sp now pv e).
Proof.
  intros Hi Hr Hpr Hx Hown. pose proof Hi as Hi'. einv Hi'. unfold on_prevote. cbv zeta.
  case_match eqn:Hlt.
  { left. case_match; [|by apply sim_refl]. apply sim_frame; [done| |done|done]. by split. }
  case_match eqn:Hgt; [left; by apply sim_refl|].
  assert (pv_height pv = height) as Hh by (rewrite <- Hheight; lia).
  rewrite Hchain. destruct (Prevote_verify_signature_with_chain_id chain_id pv) eqn:Hver;
    [simpl|left; by apply sim_refl].
  rewrite (eligible_stake_snap vs sp snap) by done.
  destruct (ps_eligible_power snap !! pv_validator pv) as [w|] eqn:Hw; [|left; by apply sim_refl].
  destruct (ce_seen_prevotes e !! (pv_round pv, pv_validator pv)) as [x|] eqn:Hseen.
  { left. repeat case_match; apply sim_refl; try done; by repeat constructor. }
  assert (pv_validator pv <> me) as Hne.
  { intros Hm. destruct (Hown Hm Hh Hver) as [y Hy]. rewrite Hm in Hseen. congruence. }
  right. split; [done|]. exists (record_prevote pv w e). split.
  - destruct (record_prevote_eq pv w e) as (-> & _).
    by apply (step_see_prevote me (engine_view e)).
  - pose proof (inv_record_prevote pv w e Hi Hw Hseen Hne Hpr Hx) as Hi1.
    change (Outcome (record_prevote pv w e) (prevote_rules (pv_round pv) (record_prevote pv w e))).
    by apply sim_prevote_rules.
Qed.

Lemma transition_commit_any e :
  ce_step e <> Commit_ -> transition_to Commit_ e = set_ce_step Commit_ e.
Proof. intros Hs. unfold transition_to. by destruct (ce_step e). Qed.

Lemma silent_precommit_rule_3 r e :
  let l := List.flat_map action_leaves (precommit_rule_3 vs sp r e) in
  Forall own_leaf l /\ leaf_events l = [].
Proof. unfold precommit_rule_3. case_match; simpl; split; by repeat constructor. Qed.

(** The rules that do not commit. *)
Lemma sim_precommit_advance r a1 e :
  Inv e -> 0 <= ce_round e <= ROUND_CAP ->
  Forall own_leaf (List.flat_map action_leaves a1) ->
  leaf_events (List.flat_map action_leaves a1) = [] ->
  Outcome e
    (if (r =? ce_round e)
        && has_supermajority_power vs sp e (precommit_bucket_power vs sp e (r, None))
     then start_round (wrap32 (r + 1)) e
     else
       let '(a4, e') := round_skip_rule vs sp now r e in
       (collect_actions (a1 ++ precommit_rule_3 vs sp r e ++ a4), e')).
Proof.
  intros Hi Hr Ho1 Hl1. unfold Outcome. case_match eqn:Hc.
  - apply andb_true_iff in Hc as [->%Z.eqb_eq _]. apply sim_start_round; [done|].
    rewrite wrap_small; unfold ROUND_CAP, u32_max in *; lia.
  - destruct (silent_precommit_rule_3 r e) as [Ho3 Hl3].
    pose proof (sim_round_skip_rule r e Hi (or_introl Hr)) as H4.
    destruct (round_skip_rule _ _ _ _ _) as [a4 e4]. cbn [fst snd] in *.
    rewrite action_leaves_collect, !List.flat_map_app.
    apply (sim_trans _ _ e); [by apply sim_refl|].
    apply (sim_trans _ _ e); [by apply sim_refl|done].
Qed.

Lemma sim_precommit_rules r e :
  Inv e -> 0 <= ce_round e <= ROUND_CAP -> ce_step e <> Commit_ ->
  Outcome e (precommit_rules vs sp now r e).
Proof.
  intros Hi Hr Hs. unfold precommit_rules. cbv zeta.
  destruct (find_commit vs sp e r) as [h|] eqn:Hf.
  2: { by apply (sim_precommit_advance r []). }
  destruct (ce_proposal_blocks e !! h) as [b|] eqn:Hb.
  2: { apply (sim_precommit_advance r [_]); [done|done| |done]. by repeat constructor. }
  apply find_commit_Some in Hf as [_ Hsm]. apply precommit_supermajority in Hsm as Hq; [|done].
  rewrite transition_commit_any by done. unfold Outcome. cbn [fst snd].
  apply (sim_step _ _ _ (Decide r h)); try done.
  - by apply (step_decide me (engine_view e)).
  - einv Hi. split; simpl; try done. by intros [|].
  - constructor; [|constructor]. pose proof Hi as Hi'. einv Hi'.
    split_and!; [done|rewrite Block_hash_with_commit; by apply Hbl|done|].
    by apply (certified_collect e).
Qed.

Lemma sim_on_precommit pc e :
  Inv e -> 0 <= ce_round e <= ROUND_CAP -> pc_round pc <= ROUND_CAP -> own_precommit_seen pc e ->
  VoteOutcome e (SeePrecommit (pc_round pc) (pc_validator pc) (pc_block_hash pc))
    (pc_height pc = height /\ Precommit_verify_signature_with_chain_id chain_id pc = true)
    (on_precommit vs sp now pc e).
Proof.
  intros Hi Hr Hpr Hown. pose proof Hi as Hi'. einv Hi'. unfold on_precommit. cbv zeta.
  case_match eqn:Hlt.
  { left. case_match; [|by apply sim_refl]. apply sim_frame; [done| |done|done]. by split. }
  case_match eqn:Hgt; [left; by apply sim_refl|].
  assert (pc_height pc = height) as Hh by (rewrite <- Hheight; lia).
  rewrite Hchain. destruct (Precommit_verify_signature_with_chain_id chain_id pc) eqn:Hver;
    [simpl|left; by apply sim_refl].
  rewrite (eligible_stake_snap vs sp snap) by done.
  destruct (ps_eligible_power snap !! pc_validator pc) as [w|] eqn:Hw; [|left; by apply sim_refl].
  destruct (ce_seen_precommits e !! (pc_round pc, pc_validator pc)) as [x|] eqn:Hseen.
  { left. repeat case_match; apply sim_refl; try done; by repeat constructor. }
  case_bool_decide as Hc; [left; by apply sim_refl|].
  assert (pc_validator pc <> me) as Hne.
  { intros Hm. destruct (Hown Hm Hh Hver) as [x Hx]. rewrite Hm in Hseen. congruence. }
  right. split; [done|]. exists (record_precommit pc w e). split.
  - destruct (record_precommit_eq pc w e) as (-> & _).
    by apply (step_see_precommit me (engine_view e)).
  - assert (Inv (record_precommit pc w e)) as Hi1.
    { apply inv_record_precommit; try done. rewrite <- Hh. exact Hver. }
    by apply sim_precommit_rules.
Qed.

(** *** Timeouts *)

Lemma sim_on_timeout step r e :
  Inv e -> 0 <= ce_round e <= ROUND_CAP -> Outcome e (on_timeout vs sp now step r e).
Proof.
  intros Hi Hr. assert (0 <= ce_round e < u32_max) as Hr' by (unfold ROUND_CAP, u32_max in *; lia).
  unfold on_timeout, Outcome. case_match; [by apply sim_refl|].
  destruct step; try case_decide as Hs; try by apply sim_refl.
  - by destruct (sim_do_prevote None e Hi Hs Hr' opt_u256_None) as (? & _).
  - by destruct (sim_nil_polka e Hi Hs Hr') as (? & _).
  - apply sim_start_round; [done|]. rewrite wrap_small; unfold ROUND_CAP, u32_max in *; lia.
Qed.
End refinement.
