(* ===== verification/Network.v ===== *)
(** * A network of engines

    The consensus engines of all correct validators at one height, with a
    network that delivers, drops, delays, reorders and duplicates votes and
    proposals at will and with faulty validators that send anything they can
    sign.  Reachable states of this system are related to reachable states of
    the abstract protocol, which gives agreement for the engine itself. *)

From S2P Require Import Prelude Crypto Block Votes Stake Validators Slashing Engine Protocol Power Refinement.
From stdpp Require Import base tactics numbers list gmap.
From Stdlib Require Import ZArith Lia.

Local Open Scope Z_scope.

(** ** Sequences of abstract steps *)

Section vsteps_facts.
Context `{Electorate} (me : Pubkey).

Lemma vsteps_prevoted_mono v evs v' r x :
  vsteps me v evs v' -> v_prevoted v !! r = Some x -> v_prevoted v' !! r = Some x.
Proof. induction 1; eauto using vstep_prevoted_mono. Qed.

Lemma vsteps_precommitted_mono v evs v' r x :
  vsteps me v evs v' -> v_precommitted v !! r = Some x -> v_precommitted v' !! r = Some x.
Proof. induction 1; eauto using vstep_precommitted_mono. Qed.

Lemma vsteps_cast_prevote v evs v' r x :
  vsteps me v evs v' -> CastPrevote r x ∈ evs -> v_prevoted v' !! r = Some x.
Proof.
  induction 1 as [|v ev v1 evs v2 Hs Hss IH]; [by intros ?%not_elem_of_nil|].
  intros [<-|Hin]%elem_of_cons; [|auto]. eapply vsteps_prevoted_mono; [done|].
  inversion Hs; subst; simpl. by rewrite lookup_insert_eq.
Qed.

Lemma vsteps_cast_precommit v evs v' r x :
  vsteps me v evs v' -> CastPrecommit r x ∈ evs -> v_precommitted v' !! r = Some x.
Proof.
  induction 1 as [|v ev v1 evs v2 Hs Hss IH]; [by intros ?%not_elem_of_nil|].
  intros [<-|Hin]%elem_of_cons; [|auto]. eapply vsteps_precommitted_mono; [done|].
  inversion Hs; subst; simpl; by rewrite lookup_insert_eq.
Qed.

(** Seen votes stay seen. *)
Lemma vstep_seen_mono v ev v' key :
  vstep me v ev v' ->
  (is_Some (v_seen_prevotes v !! key) -> is_Some (v_seen_prevotes v' !! key))
  /\ (is_Some (v_seen_precommits v !! key) -> is_Some (v_seen_precommits v' !! key)).
Proof. destruct 1; simpl; split; try done; intros ?; by apply lookup_insert_is_Some'; right. Qed.

Lemma vsteps_seen_mono v evs v' key :
  vsteps me v evs v' ->
  (is_Some (v_seen_prevotes v !! key) -> is_Some (v_seen_prevotes v' !! key))
  /\ (is_Some (v_seen_precommits v !! key) -> is_Some (v_seen_precommits v' !! key)).
Proof.
  induction 1 as [|v ev v1 evs v2 Hs Hss [IH1 IH2]]; [done|].
  destruct (vstep_seen_mono _ _ _ key Hs). split; auto.
Qed.
End vsteps_facts.

(** The votes an event reports satisfy [A]. *)
Definition see_ok (A : Event -> Prop) (ev : Event) : Prop :=
  match ev with SeePrevote _ _ _ | SeePrecommit _ _ _ => A ev | _ => True end.

Section lift.
Context `{Electorate} (honest : Pubkey -> Prop) `{!forall k, Decision (honest k)}.

Lemma authentic_mono (f g : Pubkey -> View) ev :
  (forall j r x, v_prevoted (f j) !! r = Some x -> v_prevoted (g j) !! r = Some x) ->
  (forall j r x, v_precommitted (f j) !! r = Some x -> v_precommitted (g j) !! r = Some x) ->
  authentic honest f ev -> authentic honest g ev.
Proof.
  intros Hf1 Hf2. destruct ev; simpl; try done; intros Ha Hh;
    destruct (Ha Hh) as (x' & Hx & Hn); exists x'; auto.
Qed.

Lemma see_ok_authentic f ev : see_ok (authentic honest f) ev -> authentic honest f ev.
Proof. by destruct ev. Qed.

(** A run of one validator is a run of the system. *)
Lemma sys_run s k evs v :
  sys_reachable honest s -> honest k -> vsteps k (sys_views s k) evs v ->
  Forall (see_ok (authentic honest (sys_views s))) evs ->
  exists s', sys_reachable honest s' /\ sys_views s' k = v
    /\ (forall j, j <> k -> sys_views s' j = sys_views s j)
    /\ (forall d, d ∈ sys_decisions s -> d ∈ sys_decisions s')
    /\ (forall r h, Decide r h ∈ evs -> (k, r, h) ∈ sys_decisions s').
Proof.
  intros Hs Hk Hr. remember (sys_views s k) as v0 eqn:Hv0. revert s Hs Hv0.
  induction Hr as [v|v ev v1 evs v2 Hstep Hsteps IH]; intros s Hs Hv0 Hok.
  { exists s. split_and!; try done. by intros r h ?%not_elem_of_nil. }
  inversion Hok as [|? ? Hev Hok']; subst.
  set (s1 := mkSystem (update_view k v1 (sys_views s)) (new_decision k ev ++ sys_decisions s)).
  assert (sys_step honest s s1) as Hss.
  { by apply sys_step_intro; [| |apply see_ok_authentic]. }
  destruct (IH s1) as (s' & Hs' & Hvk & Hvj & Hd & Hdec).
  - by eapply sys_next.
  - symmetry. apply update_view_same.
  - eapply Forall_impl; [exact Hok'|]. intros ev'. destruct ev'; simpl; try done;
      apply (authentic_mono _ _ (SeePrevote round from x)) ||
      apply (authentic_mono _ _ (SeePrecommit round from x)); intros;
      by (eapply prevoted_mono || eapply precommitted_mono).
  - exists s'. split_and!; try done.
    + intros j Hj. rewrite Hvj by done. simpl. unfold update_view. by rewrite decide_False.
    + intros d Hin. apply Hd. simpl. apply elem_of_app. by right.
    + intros r h [<-|Hin]%elem_of_cons; [|auto]. apply Hd. simpl. left.
Qed.
End lift.

(** ** Inputs of one engine *)

Inductive Input :=
| InProposal (p : Proposal)
| InCreateProposal (fresh_block : Block)
| InCurrentProposal
| InPrevote (pv : Prevote)
| InPrecommit (pc : Precommit)
| InDrain
| InTimeout (step : RoundStep) (round : Z).

Section inputs.
Context `{Crypto} (vs : ValidatorSet) (sp : StakePool).

Definition handle (now : Z) (i : Input) (e : ConsensusEngine)
  : ConsensusAction * ConsensusEngine :=
  match i with
  | InProposal p => on_proposal vs sp now p e
  | InCreateProposal b => create_proposal vs sp now b e
  | InCurrentProposal => process_current_round_proposal_if_present vs sp now e
  | InPrevote pv => on_prevote vs sp now pv e
  | InPrecommit pc => on_precommit vs sp now pc e
  | InDrain => drain_future_messages vs sp now e
  | InTimeout step round => on_timeout vs sp now step round e
  end.

(** [drain_future_messages] without the bookkeeping of an absent buffer. *)
Definition drained_prevotes (e : ConsensusEngine) : ConsensusEngine :=
  match ce_future_prevotes e !! ce_height e with
  | Some _ => set_ce_future_prevotes (delete (ce_height e) (ce_future_prevotes e)) e
  | None => e
  end.
Definition drained_precommits (height : Z) (e : ConsensusEngine) : ConsensusEngine :=
  match ce_future_precommits e !! height with
  | Some _ => set_ce_future_precommits (delete height (ce_future_precommits e)) e
  | None => e
  end.

(** The buffered votes of the current height, in the order they are replayed;
    the precommits are read after the prevotes have been replayed. *)
Definition buffered_prevotes (e : ConsensusEngine) : list Prevote :=
  sort_by_key (fun v => - pv_round v) (default [] (ce_future_prevotes e !! ce_height e)).
Definition replayed_prevotes (now : Z) (e : ConsensusEngine)
  : list ConsensusAction * ConsensusEngine :=
  replay (on_prevote vs sp now) (buffered_prevotes e) (drained_prevotes e).
Definition buffered_precommits (now : Z) (e : ConsensusEngine) : list Precommit :=
  sort_by_key (fun v => - pc_round v)
    (default [] (ce_future_precommits (replayed_prevotes now e).2 !! ce_height e)).

(** The votes an input makes the engine look at. *)
Definition input_prevotes (i : Input) (e : ConsensusEngine) : list Prevote :=
  match i with InPrevote pv => [pv] | InDrain => buffered_prevotes e | _ => [] end.
Definition input_precommits (now : Z) (i : Input) (e : ConsensusEngine) : list Precommit :=
  match i with InPrecommit pc => [pc] | InDrain => buffered_precommits now e | _ => [] end.

(** The round stays below the cap before every message of a replay. *)
Fixpoint replay_below_cap {V}
  (h : V -> ConsensusEngine -> ConsensusAction * ConsensusEngine) (l : list V)
  (e : ConsensusEngine) : Prop :=
  match l with
  | [] => True
  | v :: l => ce_round e <= ROUND_CAP /\ replay_below_cap h l (h v e).2
  end.

Definition input_below_cap (now : Z) (i : Input) (e : ConsensusEngine) : Prop :=
  ce_round e <= ROUND_CAP
  /\ match i with
     | InDrain =>
         replay_below_cap (on_prevote vs sp now) (buffered_prevotes e) (drained_prevotes e)
         /\ replay_below_cap (on_precommit vs sp now) (buffered_precommits now e)
              (drained_precommits (ce_height e) (replayed_prevotes now e).2)
     | _ => True
     end.

Lemma drain_eq now e :
  drain_future_messages vs sp now e =
  let r1 := replayed_prevotes now e in
  let r2 := replay (on_precommit vs sp now) (buffered_precommits now e)
              (drained_precommits (ce_height e) r1.2) in
  (collect_actions (r1.1 ++ r2.1), r2.2).
Proof.
  unfold drain_future_messages, buffered_precommits, replayed_prevotes, buffered_prevotes,
    drained_prevotes, drained_precommits.
  cbv zeta. destruct (ce_future_prevotes e !! ce_height e) as [l|]; cbn [default].
  - destruct (replay _ _ _) as [a1 e1]. cbn [fst snd].
    destruct (ce_future_precommits e1 !! ce_height e); cbn [default]; [|done].
    by destruct (replay _ _ _).
  - change (replay (on_prevote vs sp now) (sort_by_key _ []) e) with (@nil ConsensusAction, e).
    cbn [fst snd]. destruct (ce_future_precommits e !! ce_height e); cbn [default]; [|done].
    by destruct (replay _ _ _).
Qed.
End inputs.

(** ** Runs of one engine *)

Section runs.
Context `{CL : CryptoLaws} (vs : ValidatorSet) (sp : StakePool).
Context (snap : ConsensusPowerSnapshot) (Hsnap : snapshot_wf snap).
Context (me : Pubkey) (height : Z) (chain_id : bytes) (A : Event -> Prop).
Abbreviation E := (snapshot_electorate snap Hsnap).
Abbreviation Inv := (EInv snap me height chain_id).
Implicit Types e : ConsensusEngine.

(** Like [sim], with incoming votes that satisfy [A]. *)
Definition run e (l : list ConsensusAction) e' : Prop :=
  Inv e' /\ Forall (own_leaf snap me height chain_id) l
  /\ exists evs, @vsteps E me (engine_view e) evs (engine_view e')
                 /\ List.filter visible evs = leaf_events l /\ Forall (see_ok A) evs.

Lemma run_trans e1 l1 e2 l2 e3 : run e1 l1 e2 -> run e2 l2 e3 -> run e1 (l1 ++ l2) e3.
Proof.
  intros (_ & Ho1 & evs1 & Hs1 & Hv1 & Hp1) (Hi & Ho2 & evs2 & Hs2 & Hv2 & Hp2).
  split; [done|]. split; [by apply Forall_app|]. exists (evs1 ++ evs2).
  split; [by eapply vsteps_app|]. split; [|by apply Forall_app].
  by rewrite List.filter_app, Hv1, Hv2, leaf_events_app.
Qed.

Lemma run_refl e : Inv e -> run e [] e.
Proof. intros Hi. split; [done|]. split; [done|]. exists []. split; [constructor|done]. Qed.

Lemma sim_run e l e' : sim snap Hsnap me height chain_id e l e' -> run e l e'.
Proof.
  intros (Hi & Ho & evs & Hs & Hv & Hp). split; [done|]. split; [done|]. exists evs.
  split_and!; [done|done|]. eapply Forall_impl; [exact Hp|]. by intros [].
Qed.

Lemma vote_outcome_run e ev acc res :
  VoteOutcome snap Hsnap me height chain_id e ev acc res -> visible ev = false ->
  (acc -> see_ok A ev) -> run e (action_leaves res.1) res.2.
Proof.
  intros [Ho|(Hacc & e1 & Hst & Ho)] Hvis HA; [by apply sim_run|].
  apply sim_run in Ho as (Hi & Hol & evs & Hs & Hv & Hp).
  split; [done|]. split; [done|]. exists (ev :: evs).
  split; [by econstructor|]. split; [|by constructor; auto].
  cbn [List.filter]. by rewrite Hvis.
Qed.

Lemma run_seen e l e' pv pc :
  run e l e' ->
  (own_prevote_seen me height chain_id pv e -> own_prevote_seen me height chain_id pv e')
  /\ (own_precommit_seen me height chain_id pc e -> own_precommit_seen me height chain_id pc e').
Proof.
  intros (_ & _ & evs & Hs & _). unfold own_prevote_seen, own_precommit_seen.
  split; intros Ho ? ? ?.
  - apply (vsteps_seen_mono me _ _ _ (pv_round pv, me) Hs). auto.
  - apply (vsteps_seen_mono me _ _ _ (pc_round pc, me) Hs). auto.
Qed.

(** What an engine may assume of a vote it looks at. *)
Record prevote_ok (pv : Prevote) e : Prop := {
  pvok_hash : opt_u256 (pv_block_hash pv);
  pvok_round : pv_round pv <= ROUND_CAP;
  pvok_own : own_prevote_seen me height chain_id pv e;
  pvok_see : pv_height pv = height -> Prevote_verify_signature_with_chain_id chain_id pv = true ->
    A (SeePrevote (pv_round pv) (pv_validator pv) (pv_block_hash pv));
}.
Record precommit_ok (pc : Precommit) e : Prop := {
  pcok_round : pc_round pc <= ROUND_CAP;
  pcok_own : own_precommit_seen me height chain_id pc e;
  pcok_see : pc_height pc = height ->
    Precommit_verify_signature_with_chain_id chain_id pc = true ->
    A (SeePrecommit (pc_round pc) (pc_validator pc) (pc_block_hash pc));
}.

Lemma run_prevote_ok e l e' pv : run e l e' -> prevote_ok pv e -> prevote_ok pv e'.
Proof.
  intros Hr []. split; try done.
  by apply (run_seen e l e' pv (mkPrecommit 0 0 None 0 (pv_signature pv) 0)).
Qed.

Lemma run_precommit_ok e l e' pc : run e l e' -> precommit_ok pc e -> precommit_ok pc e'.
Proof.
  intros Hr []. split; try done.
  by apply (run_seen e l e' (mkPrevote 0 0 None 0 (pc_signature pc)) pc).
Qed.

Context (now : Z) (Hnow : is_u64 now).

Lemma run_on_prevote pv e :
  Inv e -> ce_round e <= ROUND_CAP -> prevote_ok pv e ->
  let res := on_prevote vs sp now pv e in run e (action_leaves res.1) res.2.
Proof.
  intros Hi Hr []. pose proof (inv_round _ _ _ _ _ Hi) as [H0 _].
  eapply vote_outcome_run; [by apply sim_on_prevote|done|]. intros [? ?]. simpl. auto.
Qed.

Lemma run_on_precommit pc e :
  Inv e -> ce_round e <= ROUND_CAP -> precommit_ok pc e ->
  let res := on_precommit vs sp now pc e in run e (action_leaves res.1) res.2.
Proof.
  intros Hi Hr []. pose proof (inv_round _ _ _ _ _ Hi) as [H0 _].
  eapply vote_outcome_run; [by apply sim_on_precommit|done|]. intros [? ?]. simpl. auto.
Qed.

Lemma replay_cons {V} (h : V -> ConsensusEngine -> ConsensusAction * ConsensusEngine) v l e :
  List.flat_map action_leaves (replay h (v :: l) e).1
  = action_leaves (h v e).1 ++ List.flat_map action_leaves (replay h l (h v e).2).1
  /\ (replay h (v :: l) e).2 = (replay h l (h v e).2).2.
Proof.
  simpl. destruct (h v e) as [a e']. cbn [fst snd]. destruct (replay h l e') as [acts e''].
  cbn [fst snd]. by destruct a.
Qed.

(** Replaying a list of votes, for a handler that runs on good votes. *)
Lemma run_replay {V} (h : V -> ConsensusEngine -> ConsensusAction * ConsensusEngine)
  (ok : V -> ConsensusEngine -> Prop) (l : list V) e :
  (forall v e, Inv e -> ce_round e <= ROUND_CAP -> ok v e ->
     run e (action_leaves (h v e).1) (h v e).2) ->
  (forall v e k e', run e k e' -> ok v e -> ok v e') ->
  Inv e -> replay_below_cap h l e -> (forall v, v ∈ l -> ok v e) ->
  run e (List.flat_map action_leaves (replay h l e).1) (replay h l e).2.
Proof.
  intros Hrun Hmono. revert e. induction l as [|v l IH]; intros e Hi Hcap Hok.
  { by apply run_refl. }
  destruct (replay_cons h v l e) as [-> ->]. destruct Hcap as [Hr Hcap].
  assert (run e (action_leaves (h v e).1) (h v e).2) as H1 by (apply Hrun; auto; apply Hok; left).
  eapply run_trans; [exact H1|]. apply IH; [by destruct H1|done|].
  intros u Hu. eapply Hmono; [exact H1|]. apply Hok. by right.
Qed.

Lemma inv_drained_prevotes e :
  Inv e -> Inv (drained_prevotes e) /\ engine_view (drained_prevotes e) = engine_view e.
Proof. intros Hi. unfold drained_prevotes. case_match; [|done]. einv Hi. by split. Qed.

Lemma inv_drained_precommits h e :
  Inv e -> Inv (drained_precommits h e) /\ engine_view (drained_precommits h e) = engine_view e.
Proof. intros Hi. unfold drained_precommits. case_match; [|done]. einv Hi. by split. Qed.

Lemma run_frame e e' : Inv e' -> engine_view e' = engine_view e -> run e [] e'.
Proof.
  intros Hi Hv. split; [done|]. split; [done|]. exists []. rewrite Hv. split; [constructor|done].
Qed.

Lemma run_drain e :
  Inv e -> input_below_cap vs sp now InDrain e ->
  (forall pv, pv ∈ buffered_prevotes e -> prevote_ok pv e) ->
  (forall pc, pc ∈ buffered_precommits vs sp now e -> precommit_ok pc e) ->
  let res := drain_future_messages vs sp now e in run e (action_leaves res.1) res.2.
Proof.
  intros Hi (_ & Hc1 & Hc2) Hpv Hpc. cbv zeta. rewrite drain_eq. cbv zeta. cbn [fst snd].
  rewrite action_leaves_collect, List.flat_map_app.
  destruct (inv_drained_prevotes e Hi) as [Hi0 Hv0].
  assert (run e [] (drained_prevotes e)) as H0 by by apply run_frame.
  assert (run (drained_prevotes e) (List.flat_map action_leaves (replayed_prevotes vs sp now e).1)
            (replayed_prevotes vs sp now e).2) as H1.
  { unfold replayed_prevotes.
    apply (run_replay (on_prevote vs sp now) prevote_ok (buffered_prevotes e)
             (drained_prevotes e)); [| |exact Hi0|exact Hc1|].
    - intros v e0 ? ? ?. by apply run_on_prevote.
    - intros v e0 k e1 ? ?. by eapply run_prevote_ok.
    - intros v Hv. eapply run_prevote_ok; [exact H0|auto]. }
  revert Hc2 Hpc H1. generalize (buffered_precommits vs sp now e).
  generalize (replayed_prevotes vs sp now e). intros [a1 e1] l Hc2 Hpc H1. cbn [fst snd] in *.
  assert (run e (List.flat_map action_leaves a1) e1) as H01 by by apply (run_trans e [] (drained_prevotes e)).
  destruct (inv_drained_precommits (ce_height e) e1) as [Hi1 Hv1]; [by destruct H1|].
  assert (run e1 [] (drained_precommits (ce_height e) e1)) as H2 by by apply run_frame.
  eapply run_trans; [exact H01|]. apply (run_trans _ [] _ _ _ H2).
  apply (run_replay (on_precommit vs sp now) precommit_ok l (drained_precommits (ce_height e) e1));
    [| |exact Hi1|exact Hc2|].
  - intros v e0 ? ? ?. by apply run_on_precommit.
  - intros v e0 k e2 ? ?. by eapply run_precommit_ok.
  - intros v Hv. eapply run_precommit_ok; [exact H2|]. eapply run_precommit_ok; [exact H01|auto].
Qed.

(** Every input is a run. *)
Lemma handle_run i e :
  Inv e -> input_below_cap vs sp now i e ->
  (forall pv, pv ∈ input_prevotes i e -> prevote_ok pv e) ->
  (forall pc, pc ∈ input_precommits vs sp now i e -> precommit_ok pc e) ->
  let res := handle vs sp now i e in run e (action_leaves res.1) res.2.
Proof.
  intros Hi Hc Hpv Hpc. pose proof (inv_round _ _ _ _ _ Hi) as [H0 _].
  destruct Hc as [Hr Hc]. assert (0 <= ce_round e < u32_max) by (unfold ROUND_CAP, u32_max in *; lia).
  destruct i; simpl in *.
  - by apply sim_run, sim_on_proposal.
  - by apply sim_run, sim_create_proposal.
  - by apply sim_run, sim_process_current_proposal.
  - apply run_on_prevote; [done|done|]. apply Hpv. left.
  - apply run_on_precommit; [done|done|]. apply Hpc. left.
  - by apply run_drain.
  - by apply sim_run, sim_on_timeout.
Qed.
End runs.

(** ** The system of engines *)

Record Net := mkNet {
  net_engine : Pubkey -> ConsensusEngine;
  net_prevotes : list Prevote;
  net_precommits : list Precommit;
  net_commits : list (Pubkey * Z * Block * Hash);
}.

Definition leaf_prevotes (l : list ConsensusAction) : list Prevote :=
  omap (fun a => match a with BroadcastPrevote v => Some v | _ => None end) l.
Definition leaf_precommits (l : list ConsensusAction) : list Precommit :=
  omap (fun a => match a with BroadcastPrecommit v => Some v | _ => None end) l.
Definition leaf_commits (k : Pubkey) (l : list ConsensusAction)
  : list (Pubkey * Z * Block * Hash) :=
  omap (fun a => match a with CommitBlock _ r b h => Some (k, r, b, h) | _ => None end) l.

Definition set_engine (k : Pubkey) (e : ConsensusEngine) (f : Pubkey -> ConsensusEngine)
  : Pubkey -> ConsensusEngine := fun j => if decide (j = k) then e else f j.

Section network.
Context `{CL : CryptoLaws} (vs : ValidatorSet) (sp : StakePool).
Context (height : Z) (chain_id : bytes).
Context (honest : Pubkey -> Prop) `{!forall k, Decision (honest k)}.

(** The ranges a decoded vote has by its Rust types. *)
Definition prevote_typed (pv : Prevote) : Prop :=
  is_u64 (pv_height pv) /\ is_u32 (pv_round pv) /\ opt_u256 (pv_block_hash pv).
Definition precommit_typed (pc : Precommit) : Prop :=
  is_u64 (pc_height pc) /\ is_u32 (pc_round pc) /\ opt_u256 (pc_block_hash pc)
  /\ is_u64 (pc_timestamp pc).

Definition prevote_bytes (pv : Prevote) : bytes :=
  Prevote_signing_bytes_for_chain_id chain_id (pv_height pv) (pv_round pv) (pv_block_hash pv).
Definition precommit_bytes (pc : Precommit) : bytes :=
  Precommit_signing_bytes_for_chain_id chain_id (pc_height pc) (pc_round pc) (pc_block_hash pc)
    (pc_timestamp pc).

(** Unforgeability: a vote that verifies under the key of a correct validator
    has the signed bytes of a vote that validator broadcast. *)
Definition unforged_prevote (n : Net) (pv : Prevote) : Prop :=
  honest (pv_validator pv) -> pv_height pv = height ->
  Prevote_verify_signature_with_chain_id chain_id pv = true ->
  exists pv', pv' ∈ net_prevotes n /\ pv_validator pv' = pv_validator pv
    /\ prevote_bytes pv' = prevote_bytes pv.
Definition unforged_precommit (n : Net) (pc : Precommit) : Prop :=
  honest (pc_validator pc) -> pc_height pc = height ->
  Precommit_verify_signature_with_chain_id chain_id pc = true ->
  exists pc', pc' ∈ net_precommits n /\ pc_validator pc' = pc_validator pc
    /\ precommit_bytes pc' = precommit_bytes pc.

(** An input the network may give to the engine of [k] at time [now]. *)
Record admissible (n : Net) (k : Pubkey) (now : Z) (i : Input) : Prop := {
  adm_now : is_u64 now;
  adm_cap : input_below_cap vs sp now i (net_engine n k);
  adm_prevotes : forall pv, pv ∈ input_prevotes i (net_engine n k) ->
    prevote_typed pv /\ pv_round pv <= ROUND_CAP /\ unforged_prevote n pv;
  adm_precommits : forall pc, pc ∈ input_precommits vs sp now i (net_engine n k) ->
    precommit_typed pc /\ pc_round pc <= ROUND_CAP /\ unforged_precommit n pc;
}.

Definition net_deliver (n : Net) (k : Pubkey) (now : Z) (i : Input) : Net :=
  let '(a, e) := handle vs sp now i (net_engine n k) in
  let l := action_leaves a in
  mkNet (set_engine k e (net_engine n)) (leaf_prevotes l ++ net_prevotes n)
    (leaf_precommits l ++ net_precommits n) (leaf_commits k l ++ net_commits n).

Inductive net_reachable (start : Pubkey -> ConsensusEngine) : Net -> Prop :=
| net_init : net_reachable start (mkNet start [] [] [])
| net_next n k now i :
    net_reachable start n -> honest k -> admissible n k now i ->
    net_reachable start (net_deliver n k now i).
End network.

(** ** Starting a height *)

(** Each engine as it enters the height. *)
Definition started_engine (vs : ValidatorSet) (sp : StakePool) (height : Z)
  (engines : Pubkey -> ConsensusEngine) (k : Pubkey) : ConsensusEngine :=
  rebuild_power_snapshot vs sp (start_height height (engines k)).

Lemma start_inv `{Crypto} vs sp e h :
  Keypair_pubkey (ce_keypair e) = ce_validator_pubkey e ->
  let snap := ConsensusPowerSnapshot_build vs sp (ce_min_validator_stake e) in
  let e' := rebuild_power_snapshot vs sp (start_height h e) in
  EInv snap (ce_validator_pubkey e) h (ce_signing_chain_id e) e' /\ engine_view e' = initial_view.
Proof.
  intros Hkey. split; [|done]. split; simpl; try done.
  all: split; simpl; intros *; rewrite ?fmap_empty; by rewrite !lookup_empty.
Qed.

(** ** The network refines the protocol *)

Section net_inv.
Context `{CL : CryptoLaws} (vs : ValidatorSet) (sp : StakePool).
Context (height : Z) (chain_id : bytes) (Hh : is_u64 height) (Hc : signable_len chain_id).
Context (honest : Pubkey -> Prop) `{!forall k, Decision (honest k)}.
Context (snap : ConsensusPowerSnapshot) (Hsnap : snapshot_wf snap).
Abbreviation E := (snapshot_electorate snap Hsnap).

Record NetInv (n : Net) : Prop := {
  ni_engines : forall k, honest k -> EInv snap k height chain_id (net_engine n k);
  ni_prevotes : forall pv, pv ∈ net_prevotes n ->
    honest (pv_validator pv) /\ pv_height pv = height /\ is_u32 (pv_round pv)
    /\ opt_u256 (pv_block_hash pv)
    /\ ce_signed_prevote_rounds (net_engine n (pv_validator pv)) !! pv_round pv
       = Some (pv_block_hash pv);
  ni_precommits : forall pc, pc ∈ net_precommits n ->
    honest (pc_validator pc) /\ pc_height pc = height /\ is_u32 (pc_round pc)
    /\ opt_u256 (pc_block_hash pc) /\ is_u64 (pc_timestamp pc)
    /\ ce_signed_precommit_rounds (net_engine n (pc_validator pc)) !! pc_round pc
       = Some (pc_block_hash pc);
  ni_abstract : exists s, @sys_reachable E honest s
    /\ (forall k, honest k -> sys_views s k = engine_view (net_engine n k))
    /\ (forall k r b h, (k, r, b, h) ∈ net_commits n ->
          honest k /\ Block_hash b = h /\ (k, r, h) ∈ sys_decisions s);
  ni_commits : forall k r b h, (k, r, b, h) ∈ net_commits n ->
    Block_hash b = h /\ blk_commit_round b = r
    /\ certified snap height chain_id r h (blk_commit_signatures b);
}.

(** Unforged votes were cast. *)
Lemma unforged_prevote_cast n pv :
  NetInv n -> prevote_typed pv -> unforged_prevote height chain_id honest n pv ->
  honest (pv_validator pv) -> pv_height pv = height ->
  Prevote_verify_signature_with_chain_id chain_id pv = true ->
  exists x, ce_signed_prevote_rounds (net_engine n (pv_validator pv)) !! pv_round pv = Some x
    /\ hash_or_nil x = hash_or_nil (pv_block_hash pv).
Proof.
  intros Hn (Ht1 & Ht2 & Ht3) Hu Hk Hhh Hv. destruct (Hu Hk Hhh Hv) as (pv' & Hin & Hval & Hb).
  destruct (ni_prevotes _ Hn _ Hin) as (_ & Hh' & Hr' & Hx' & Hs). rewrite Hval in Hs.
  apply Prevote_signing_bytes_inj in Hb as (_ & Hr & Hx); try done; [|by rewrite Hh'].
  rewrite Hr in Hs. eauto.
Qed.

Lemma unforged_precommit_cast n pc :
  NetInv n -> precommit_typed pc -> unforged_precommit height chain_id honest n pc ->
  honest (pc_validator pc) -> pc_height pc = height ->
  Precommit_verify_signature_with_chain_id chain_id pc = true ->
  exists x, ce_signed_precommit_rounds (net_engine n (pc_validator pc)) !! pc_round pc = Some x
    /\ hash_or_nil x = hash_or_nil (pc_block_hash pc).
Proof.
  intros Hn (Ht1 & Ht2 & Ht3 & Ht4) Hu Hk Hhh Hv. destruct (Hu Hk Hhh Hv) as (pc' & Hin & Hval & Hb).
  destruct (ni_precommits _ Hn _ Hin) as (_ & Hh' & Hr' & Hx' & Hts & Hs). rewrite Hval in Hs.
  apply Precommit_signing_bytes_inj in Hb as (_ & Hr & Hx & _); try done; [|by rewrite Hh'].
  rewrite Hr in Hs. eauto.
Qed.

Lemma net_deliver_eq n k now i :
  let res := handle vs sp now i (net_engine n k) in
  let l := action_leaves res.1 in
  net_deliver vs sp n k now i
  = mkNet (set_engine k res.2 (net_engine n)) (leaf_prevotes l ++ net_prevotes n)
      (leaf_precommits l ++ net_precommits n) (leaf_commits k l ++ net_commits n).
Proof. unfold net_deliver. by destruct (handle _ _ _ _ _). Qed.

Lemma set_engine_same k e f : set_engine k e f k = e.
Proof. unfold set_engine. by rewrite decide_True. Qed.
Lemma set_engine_ne k e f j : j <> k -> set_engine k e f j = f j.
Proof. intros. unfold set_engine. by rewrite decide_False. Qed.

(** A leaf is an event of the run that emits it. *)
Lemma leaf_event_in l evs a ev :
  List.filter visible evs = leaf_events l -> a ∈ l -> leaf_event a = Some ev -> ev ∈ evs.
Proof.
  intros Hf Ha Hev. assert (ev ∈ leaf_events l) as Hin by (apply list_elem_of_omap; eauto).
  rewrite <- Hf in Hin. apply list_elem_of_In, List.filter_In in Hin as [Hin _].
  by apply list_elem_of_In.
Qed.

(** The inputs the network admits are good for the engine. *)
Lemma admissible_run n k now i s :
  NetInv n -> honest k -> admissible vs sp height chain_id honest n k now i ->
  (forall j, honest j -> sys_views s j = engine_view (net_engine n j)) ->
  let res := handle vs sp now i (net_engine n k) in
  run snap Hsnap k height chain_id (authentic honest (sys_views s))
    (net_engine n k) (action_leaves res.1) res.2.
Proof.
  intros Hn Hk [Hnow Hcap Hpv Hpc] Hviews.
  pose proof (ni_engines _ Hn k Hk) as Hi.
  apply handle_run; try done.
  - intros pv Hin. destruct (Hpv _ Hin) as (Ht & Hr & Hu).
    pose proof (unforged_prevote_cast n pv Hn Ht Hu) as Hcast. split; [apply Ht|done|..].
    + intros Hm Hhh Hv. rewrite Hm in Hcast. destruct (Hcast Hk Hhh Hv) as (x & Hx & _).
      rewrite <- (inv_own_prevotes _ _ _ _ _ Hi). by rewrite Hx.
    + intros Hhh Hv Hj. destruct (Hcast Hj Hhh Hv) as (x & Hx & Hn').
      exists x. by rewrite Hviews.
  - intros pc Hin. destruct (Hpc _ Hin) as (Ht & Hr & Hu).
    pose proof (unforged_precommit_cast n pc Hn Ht Hu) as Hcast. split; [done|..].
    + intros Hm Hhh Hv. rewrite Hm in Hcast. destruct (Hcast Hk Hhh Hv) as (x & Hx & _).
      rewrite <- (inv_own_precommits _ _ _ _ _ Hi). by rewrite Hx.
    + intros Hhh Hv Hj. destruct (Hcast Hj Hhh Hv) as (x & Hx & Hn').
      exists x. by rewrite Hviews.
Qed.

Section deliver.
Context (n : Net) (k : Pubkey) (now : Z) (i : Input).
Hypothesis Hn : NetInv n.
Hypothesis Hk : honest k.
Hypothesis Hadm : admissible vs sp height chain_id honest n k now i.
Abbreviation res := (handle vs sp now i (net_engine n k)).
Abbreviation n' := (net_deliver vs sp n k now i).

(** Everything the run of the handler gives. *)
Lemma deliver_run :
  exists evs, EInv snap k height chain_id res.2
    /\ Forall (own_leaf snap k height chain_id) (action_leaves res.1)
    /\ @vsteps E k (engine_view (net_engine n k)) evs (engine_view res.2)
    /\ List.filter visible evs = leaf_events (action_leaves res.1).
Proof.
  destruct (ni_abstract _ Hn) as (s & _ & Hviews & _).
  destruct (admissible_run n k now i s Hn Hk Hadm Hviews) as (Hi & Ho & evs & Hs & Hv & _).
  by exists evs.
Qed.

Lemma deliver_prevotes pv :
  pv ∈ net_prevotes n' ->
  honest (pv_validator pv) /\ pv_height pv = height /\ is_u32 (pv_round pv)
  /\ opt_u256 (pv_block_hash pv)
  /\ ce_signed_prevote_rounds (net_engine n' (pv_validator pv)) !! pv_round pv
     = Some (pv_block_hash pv).
Proof.
  destruct deliver_run as (evs & Hi & Ho & Hs & Hv). rewrite net_deliver_eq. cbv zeta. simpl.
  intros [Hin|Hin]%elem_of_app.
  - apply list_elem_of_omap in Hin as (a & Ha & Hpv).
    destruct a as [| | |v'| | | | |]; try done. injection Hpv as ->.
    pose proof (proj1 (Forall_forall _ _) Ho _ Ha) as (? & Hval & ? & ?).
    rewrite Hval, set_engine_same. split_and!; try done.
    apply (vsteps_cast_prevote k _ _ _ _ _ Hs). by eapply leaf_event_in.
  - destruct (ni_prevotes _ Hn _ Hin) as (? & ? & ? & ? & Hsg). split_and!; try done.
    unfold set_engine. case_decide as Hd; [|done]. rewrite Hd in Hsg.
    by apply (vsteps_prevoted_mono k _ _ _ _ _ Hs).
Qed.

Lemma deliver_precommits pc :
  pc ∈ net_precommits n' ->
  honest (pc_validator pc) /\ pc_height pc = height /\ is_u32 (pc_round pc)
  /\ opt_u256 (pc_block_hash pc) /\ is_u64 (pc_timestamp pc)
  /\ ce_signed_precommit_rounds (net_engine n' (pc_validator pc)) !! pc_round pc
     = Some (pc_block_hash pc).
Proof.
  destruct deliver_run as (evs & Hi & Ho & Hs & Hv). rewrite net_deliver_eq. cbv zeta. simpl.
  intros [Hin|Hin]%elem_of_app.
  - apply list_elem_of_omap in Hin as (a & Ha & Hpc).
    destruct a as [| | | |v'| | | |]; try done. injection Hpc as ->.
    pose proof (proj1 (Forall_forall _ _) Ho _ Ha) as (? & Hval & ? & ? & ?).
    rewrite Hval, set_engine_same. split_and!; try done.
    apply (vsteps_cast_precommit k _ _ _ _ _ Hs). by eapply leaf_event_in.
  - destruct (ni_precommits _ Hn _ Hin) as (? & ? & ? & ? & ? & Hsg). split_and!; try done.
    unfold set_engine. case_decide as Hd; [|done]. rewrite Hd in Hsg.
    by apply (vsteps_precommitted_mono k _ _ _ _ _ Hs).
Qed.

Lemma deliver_abstract :
  exists s, @sys_reachable E honest s
  /\ (forall k, honest k -> sys_views s k = engine_view (net_engine n' k))
  /\ (forall k r b h, (k, r, b, h) ∈ net_commits n' ->
        honest k /\ Block_hash b = h /\ (k, r, h) ∈ sys_decisions s).
Proof.
  destruct (ni_abstract _ Hn) as (s & Hs & Hviews & Hcom).
  destruct (admissible_run n k now i s Hn Hk Hadm Hviews) as (Hi & Ho & evs & Hst & Hv & Hok).
  rewrite <- Hviews in Hst by done.
  destruct (sys_run honest s k evs _ Hs Hk Hst Hok) as (s' & Hs' & Hvk & Hvj & Hd & Hdec).
  exists s'. rewrite net_deliver_eq. cbv zeta. simpl. split_and!; [done|..].
  - intros j Hj. unfold set_engine. case_decide as Hjk; [by subst|].
    rewrite Hvj by done. by apply Hviews.
  - intros j r b h [Hin|Hin]%elem_of_app.
    + apply list_elem_of_omap in Hin as (a & Ha & Hcm).
      destruct a; try done. injection Hcm as <- -> -> ->.
      pose proof (proj1 (Forall_forall _ _) Ho _ Ha) as (? & ? & _). split_and!; try done.
      apply Hdec. by eapply leaf_event_in.
    + destruct (Hcom _ _ _ _ Hin) as (? & ? & ?). auto.
Qed.

Lemma deliver_commits j r b h :
  (j, r, b, h) ∈ net_commits n' ->
  Block_hash b = h /\ blk_commit_round b = r
  /\ certified snap height chain_id r h (blk_commit_signatures b).
Proof.
  destruct deliver_run as (evs & _ & Ho & _). rewrite net_deliver_eq. cbv zeta. simpl.
  intros [Hin|Hin]%elem_of_app; [|by apply (ni_commits _ Hn) in Hin].
  apply list_elem_of_omap in Hin as (a & Ha & Hcm).
  destruct a; try done. injection Hcm as <- -> -> ->.
  by destruct (proj1 (Forall_forall _ _) Ho _ Ha) as (_ & ? & ? & ?).
Qed.

Lemma net_inv_deliver : NetInv n'.
Proof.
  split; eauto using deliver_prevotes, deliver_precommits, deliver_abstract, deliver_commits.
  intros j Hj. destruct deliver_run as (evs & Hi & _).
  rewrite net_deliver_eq. cbv zeta. simpl. unfold set_engine.
  case_decide as Hjk; [by subst|]. by apply (ni_engines _ Hn).
Qed.
End deliver.

Lemma net_inv_reachable start n :
  (forall k, honest k -> EInv snap k height chain_id (start k) /\ engine_view (start k) = initial_view) ->
  net_reachable vs sp height chain_id honest start n -> NetInv n.
Proof.
  intros Hstart. induction 1 as [|n k now i _ IH Hk Hadm]; [|by apply net_inv_deliver].
  split; simpl.
  - intros k Hk. by apply Hstart.
  - by intros pv ?%not_elem_of_nil.
  - by intros pc ?%not_elem_of_nil.
  - eexists. split; [apply sys_init|]. split; [intros k Hk; symmetry; by apply Hstart|].
    by intros k r b h ?%not_elem_of_nil.
  - by intros k r b h ?%not_elem_of_nil.
Qed.

Context `{!@FaultBound E honest _}.

Lemma net_agreement start n k1 r1 b1 h1 k2 r2 b2 h2 :
  (forall k, honest k -> EInv snap k height chain_id (start k) /\ engine_view (start k) = initial_view) ->
  net_reachable vs sp height chain_id honest start n ->
  (k1, r1, b1, h1) ∈ net_commits n -> (k2, r2, b2, h2) ∈ net_commits n ->
  h1 <> zero_hash -> h2 <> zero_hash ->
  h1 = h2 /\ Block_hash b1 = h1 /\ Block_hash b2 = h2.
Proof.
  intros Hstart Hr Hc1 Hc2 Hz1 Hz2.
  destruct (ni_abstract _ (net_inv_reachable start n Hstart Hr)) as (s & Hs & _ & Hcom).
  destruct (Hcom _ _ _ _ Hc1) as (_ & Hb1 & Hd1). destruct (Hcom _ _ _ _ Hc2) as (_ & Hb2 & Hd2).
  split_and!; [|done|done].
  exact (@sys_agreement E honest _ _ s k1 r1 h1 k2 r2 h2 Hs Hd1 Hd2 Hz1 Hz2).
Qed.
End net_inv.
