(* ===== verification/Commit.v ===== *)
(** * Commit certificates

    Models the certificate checks of [core/src/block.rs] ([Block::verify_commit]
    and its variants, [compute_bft_timestamp], [compute_validators_hash], the
    timestamp helpers) and the canonical parent certificate of
    [core/src/consensus.rs] ([CanonicalValidatorPower],
    [CanonicalCommitCertificate]).  The bincode encodings of block metadata and
    of a certificate are the operations of the class [CertificateCodec]. *)

From S2P Require Import Prelude Crypto Block Votes Stake Validators.
From stdpp Require Import base tactics numbers list gmap sorting strings.
From Stdlib Require Import ZArith Lia.

Local Open Scope Z_scope.
Local Open Scope rust_scope.

(** ** Block certificates *)

Inductive CommitError :=
| NoCommitSignatures
| NoStakedValidators
| InsufficientCommitStake (committed total : Z).

Section verify_commit.
Context `{Crypto}.

(** One commit signature counts when its domain-bound signature verifies, or,
    before the activation slot, its unbound one. *)
Definition commit_signature_valid (chain_id : bytes) (activation_slot : Z) (b : Block)
  (cs : CommitSignature) : bool :=
  let slot := hdr_slot (blk_header b) in
  let block_hash := Block_hash b in
  let domain_signable :=
    Precommit_signing_bytes_for_chain_id chain_id slot (blk_commit_round b) (Some block_hash)
      (cs_timestamp cs) in
  let domain_valid := Keypair_verify (cs_validator cs) domain_signable (cs_signature cs) in
  let historical_valid :=
    if negb domain_valid && (slot <? activation_slot) then
      let raw_signable :=
        Precommit_signable_bytes slot (blk_commit_round b) (Some block_hash) (cs_timestamp cs) in
      Keypair_verify (cs_validator cs) raw_signable (cs_signature cs)
    else false in
  domain_valid || historical_valid.

(** The loop over the signatures; [seen] holds the validators met so far.  The
    [u128] sum is exact. *)
Fixpoint committed_stake (chain_id : bytes) (activation_slot : Z) (vs : ValidatorSet)
  (sp : StakePool) (min_validator_stake : Z) (b : Block) (seen : gset Pubkey)
  (sigs : list CommitSignature) : Z :=
  match sigs with
  | [] => 0
  | cs :: sigs =>
      if decide (cs_validator cs ∈ seen) then
        committed_stake chain_id activation_slot vs sp min_validator_stake b seen sigs
      else
        let seen := {[cs_validator cs]} ∪ seen in
        let rest := committed_stake chain_id activation_slot vs sp min_validator_stake b seen sigs in
        match eligible_validator_stake vs sp min_validator_stake (cs_validator cs) with
        | None => rest
        | Some stake =>
            if commit_signature_valid chain_id activation_slot b cs then stake + rest else rest
        end
  end.

Definition Block_verify_commit_with_chain_id_and_min_stake_for_history
  (chain_id : bytes) (activation_slot : Z) (vs : ValidatorSet) (sp : StakePool)
  (min_validator_stake : Z) (b : Block) : result unit CommitError :=
  if hdr_slot (blk_header b) =? 0 then Ok tt
  else if decide (blk_commit_signatures b = []) then Err NoCommitSignatures
  else
    let total_stake := total_eligible_validator_stake vs sp min_validator_stake in
    if total_stake =? 0 then Err NoStakedValidators
    else
      let committed :=
        committed_stake chain_id activation_slot vs sp min_validator_stake b ∅
          (blk_commit_signatures b) in
      if total_stake * 2 <=? committed * 3 then Ok tt
      else Err (InsufficientCommitStake committed total_stake).

Definition Block_verify_commit_with_chain_id_and_min_stake (chain_id : bytes)
  (vs : ValidatorSet) (sp : StakePool) (min_validator_stake : Z) (b : Block)
  : result unit CommitError :=
  Block_verify_commit_with_chain_id_and_min_stake_for_history chain_id 0 vs sp
    min_validator_stake b.

Definition Block_verify_commit_with_chain_id (chain_id : bytes) (vs : ValidatorSet)
  (sp : StakePool) (b : Block) : result unit CommitError :=
  Block_verify_commit_with_chain_id_and_min_stake chain_id vs sp MIN_VALIDATOR_STAKE b.

Definition Block_verify_commit (vs : ValidatorSet) (sp : StakePool) (b : Block)
  : result unit CommitError :=
  Block_verify_commit_with_chain_id_and_min_stake [] vs sp MIN_VALIDATOR_STAKE b.
End verify_commit.

(** ** Block time *)

(** The loop that stops at the first timestamp past half of the stake. *)
Fixpoint weighted_median (half cumulative default_ts : Z) (weighted : list (Z * Z)) : Z :=
  match weighted with
  | [] => default_ts
  | (ts, stake) :: weighted =>
      let cumulative := cumulative + stake in
      if half <? cumulative then ts else weighted_median half cumulative default_ts weighted
  end.

Definition compute_bft_timestamp (commit_signatures : list CommitSignature) (vs : ValidatorSet)
  (sp : StakePool) (min_timestamp : option Z) : option Z :=
  if decide (commit_signatures = []) then None
  else
    let weighted :=
      omap (fun cs => (fun stake => (cs_timestamp cs, stake))
                        <$> eligible_validator_stake vs sp MIN_VALIDATOR_STAKE (cs_validator cs))
        commit_signatures in
    match sort_by_key fst weighted with
    | [] => None
    | first :: rest =>
        let weighted := first :: rest in
        let total_stake := sumZ snd weighted in
        let half := total_stake / 2 in
        let median_ts := weighted_median half 0 first.1 weighted in
        Some (match min_timestamp with
              | Some min_ts => if median_ts <? min_ts then min_ts else median_ts
              | None => median_ts
              end)
    end.

Definition derive_slot_timestamp (genesis_time_secs slot slot_duration_ms : Z) : Z :=
  wrap64 (genesis_time_secs + wrap64 (slot * slot_duration_ms) / 1000).

Definition validate_timestamp
  (block_timestamp genesis_time_secs slot slot_duration_ms max_drift_secs : Z) : result unit Z :=
  let expected := derive_slot_timestamp genesis_time_secs slot slot_duration_ms in
  let drift := Z.abs (block_timestamp - expected) in
  if max_drift_secs <? drift then Err drift else Ok tt.

(** ** Canonical parent certificates *)

Record CanonicalValidatorPower := mkCanonicalValidatorPower {
  cvp_validator : Pubkey;
  cvp_power : Z;
}.

#[global] Instance CanonicalValidatorPower_eq_dec : EqDecision CanonicalValidatorPower.
Proof. solve_decision. Defined.

Record CanonicalCommitCertificate := mkCanonicalCommitCertificate {
  ccc_version : Z;
  ccc_height : Z;
  ccc_round : Z;
  ccc_block_hash : Hash;
  ccc_validators_hash : Hash;
  ccc_validator_powers : list CanonicalValidatorPower;
  ccc_parent_post_state_root : Hash;
  ccc_child_metadata_hash : Hash;
  ccc_signatures : list CommitSignature;
}.

#[global] Instance CanonicalCommitCertificate_eq_dec : EqDecision CanonicalCommitCertificate.
Proof. solve_decision. Defined.

Definition CANONICAL_COMMIT_ENVELOPE_OPCODE : Z := 41.
Definition CANONICAL_COMMIT_ENVELOPE_VERSION : Z := 2.
Definition MAX_CANONICAL_COMMIT_ENVELOPE_BYTES : Z := 4 * 1024 * 1024.

(** [serialize_legacy_bincode] and [deserialize_legacy_bincode_strict], which
    reads a whole payload of bounded size. *)
Class CertificateCodec := {
  metadata_bytes : list Z -> list (bytes * Z) -> option bytes;
  certificate_bytes : CanonicalCommitCertificate -> option bytes;
  certificate_of_bytes : bytes -> Z -> option CanonicalCommitCertificate;
}.

Class CertificateCodecLaws (D : CertificateCodec) : Prop :=
  certificate_roundtrip : forall c payload limit,
    certificate_bytes c = Some payload -> Z.of_nat (length payload) <= limit ->
    certificate_of_bytes payload limit = Some c.

Inductive CertificateError :=
| GenesisHasNoCertificate
| NoLocalCertificate (slot : Z)
| UnsupportedCertificateVersion (version : Z)
| CertificateTargetsGenesis
| CertificateHasNoSignatures
| CertificateHasNoMetadata
| CertificateHasNoStateRoot
| CertificateHasNoPowers
| PowersNotOrdered
| PowersDoNotMatchHash
| SignaturesNotOrdered
| ChildMetadataMismatch (certificate block : Hash)
| CertificateSerializeError
| CertificateTooLarge (len : Z)
| InvalidTransactionShape
| InvalidInstructionShape
| CertificateDecodeError
| CertificateBlockhashMismatch
| CertificateParentMismatch
| NoEligibleValidatorPower
| InsufficientCanonicalPower (committed total : Z).

Definition canonical_validator_powers (vs : ValidatorSet) (sp : StakePool)
  : list CanonicalValidatorPower :=
  let validators := ValidatorSet_sorted_validators vs in
  match sp_staking_v2_state sp with
  | Some _ =>
      omap (fun v => mkCanonicalValidatorPower (vi_pubkey v)
                       <$> StakePool_staking_v2_consensus_power sp (vi_pubkey v))
        (filter (fun v => vi_pending_activation v = false) validators)
  | None =>
      map (fun v => mkCanonicalValidatorPower (vi_pubkey v)
                      (match StakePool_get_stake sp (vi_pubkey v) with
                       | Some s => StakeInfo_total_stake s
                       | None => 0
                       end))
        validators
  end.

(** [windows(2)] all strictly increasing. *)
Fixpoint strictly_ordered (l : list Z) : bool :=
  match l with
  | a :: (b :: _) as l => (a <? b) && strictly_ordered l
  | _ => true
  end.

Section certificates.
Context `{Crypto}.

Definition canonical_validator_powers_hash (powers : list CanonicalValidatorPower) : Hash :=
  let sorted := sort_by_key cvp_validator powers in
  Hash_hash (List.flat_map
               (fun p => be_bytes 32 (cvp_validator p) ++ le_bytes 8 (cvp_power p)) sorted).

Definition compute_validators_hash (vs : ValidatorSet) (sp : StakePool) : Hash :=
  canonical_validator_powers_hash (canonical_validator_powers vs sp).

Definition validate_canonical_shape (c : CanonicalCommitCertificate)
  : result unit CertificateError :=
  if negb (ccc_version c =? CANONICAL_COMMIT_ENVELOPE_VERSION)
  then Err (UnsupportedCertificateVersion (ccc_version c))
  else if ccc_height c =? 0 then Err CertificateTargetsGenesis
  else if decide (ccc_signatures c = []) then Err CertificateHasNoSignatures
  else if ccc_child_metadata_hash c =? zero_hash then Err CertificateHasNoMetadata
  else if ccc_parent_post_state_root c =? zero_hash then Err CertificateHasNoStateRoot
  else if decide (ccc_validator_powers c = []) then Err CertificateHasNoPowers
  else if negb (strictly_ordered (map cvp_validator (ccc_validator_powers c)))
  then Err PowersNotOrdered
  else if negb (canonical_validator_powers_hash (ccc_validator_powers c)
                =? ccc_validators_hash c)
  then Err PowersDoNotMatchHash
  else if negb (strictly_ordered (map cs_validator (ccc_signatures c)))
  then Err SignaturesNotOrdered
  else Ok tt.

Definition eligible_powers (min_validator_stake : Z) (c : CanonicalCommitCertificate)
  : gmap Pubkey Z :=
  list_to_map (reverse (map (fun p => (cvp_validator p, cvp_power p))
    (filter (fun p => min_validator_stake <= cvp_power p) (ccc_validator_powers c)))).

Definition certificate_signature_power (chain_id : bytes) (powers : gmap Pubkey Z)
  (c : CanonicalCommitCertificate) (committed_power : Z) (s : CommitSignature) : Z :=
  match powers !! cs_validator s with
  | None => committed_power
  | Some power =>
      let precommit :=
        mkPrecommit (ccc_height c) (ccc_round c) (Some (ccc_block_hash c)) (cs_validator s)
          (cs_signature s) (cs_timestamp s) in
      if Precommit_verify_signature_with_chain_id chain_id precommit
      then sat_add128 committed_power power else committed_power
  end.

Definition verify_parent (parent : Block) (chain_id : bytes) (min_validator_stake : Z)
  (c : CanonicalCommitCertificate) : result unit CertificateError :=
  and_then (validate_canonical_shape c) (fun _ =>
  if negb (ccc_height c =? hdr_slot (blk_header parent))
     || negb (ccc_block_hash c =? Block_hash parent)
     || negb (ccc_validators_hash c =? hdr_validators_hash (blk_header parent))
  then Err CertificateParentMismatch
  else
    let powers := eligible_powers min_validator_stake c in
    let total_power := sumZ snd (map_to_list powers) in
    if total_power =? 0 then Err NoEligibleValidatorPower
    else
      let committed_power :=
        foldl (certificate_signature_power chain_id powers c) 0 (ccc_signatures c) in
      if sat_mul128 total_power 2 <=? sat_mul128 committed_power 3 then Ok tt
      else Err (InsufficientCanonicalPower committed_power total_power)).

Context `{CertificateCodec}.

Definition canonical_block_metadata_hash (tx_fees_paid : list Z)
  (oracle_prices : list (bytes * Z)) : result Hash CertificateError :=
  or_err (metadata_bytes tx_fees_paid oracle_prices) CertificateSerializeError (fun encoded =>
  Ok (Hash_hash (str_bytes "LICHEN_BLOCK_METADATA_V1" ++ encoded))).

Definition from_committed_block (block : Block)
  (validator_powers : list CanonicalValidatorPower) (parent_post_state_root : Hash)
  : result CanonicalCommitCertificate CertificateError :=
  if hdr_slot (blk_header block) =? 0 then Err GenesisHasNoCertificate
  else if decide (blk_commit_signatures block = [])
  then Err (NoLocalCertificate (hdr_slot (blk_header block)))
  else
    let? metadata_hash := canonical_block_metadata_hash [] [] in
    let certificate := {|
      ccc_version := CANONICAL_COMMIT_ENVELOPE_VERSION;
      ccc_height := hdr_slot (blk_header block);
      ccc_round := blk_commit_round block;
      ccc_block_hash := Block_hash block;
      ccc_validators_hash := hdr_validators_hash (blk_header block);
      ccc_validator_powers := validator_powers;
      ccc_parent_post_state_root := parent_post_state_root;
      ccc_child_metadata_hash := metadata_hash;
      ccc_signatures := sort_by_key cs_validator (blk_commit_signatures block);
    |} in
    let? _ := validate_canonical_shape certificate in
    Ok certificate.

Definition with_child_metadata (h : Hash) (c : CanonicalCommitCertificate)
  : CanonicalCommitCertificate :=
  mkCanonicalCommitCertificate (ccc_version c) (ccc_height c) (ccc_round c) (ccc_block_hash c)
    (ccc_validators_hash c) (ccc_validator_powers c) (ccc_parent_post_state_root c) h
    (ccc_signatures c).

Definition bind_child_metadata (tx_fees_paid : list Z) (oracle_prices : list (bytes * Z))
  (c : CanonicalCommitCertificate) : result CanonicalCommitCertificate CertificateError :=
  let? metadata_hash := canonical_block_metadata_hash tx_fees_paid oracle_prices in
  let c := with_child_metadata metadata_hash c in
  let? _ := validate_canonical_shape c in
  Ok c.

Definition verify_child_metadata (tx_fees_paid : list Z) (oracle_prices : list (bytes * Z))
  (c : CanonicalCommitCertificate) : result unit CertificateError :=
  let? expected := canonical_block_metadata_hash tx_fees_paid oracle_prices in
  if negb (ccc_child_metadata_hash c =? expected)
  then Err (ChildMetadataMismatch (ccc_child_metadata_hash c) expected)
  else Ok tt.

Definition to_transaction (c : CanonicalCommitCertificate)
  : result Transaction CertificateError :=
  and_then (validate_canonical_shape c) (fun _ =>
  or_err (certificate_bytes c) CertificateSerializeError (fun payload =>
  if MAX_CANONICAL_COMMIT_ENVELOPE_BYTES <? Z.of_nat (length payload)
  then Err (CertificateTooLarge (Z.of_nat (length payload)))
  else
    let data := CANONICAL_COMMIT_ENVELOPE_OPCODE :: payload in
    Ok (mkTransaction []
          (Message_new [mkInstruction SYSTEM_PROGRAM_ID [SYSTEM_PROGRAM_ID] data]
             (ccc_block_hash c)) Consensus))).

Definition from_transaction (t : Transaction)
  : result (option CanonicalCommitCertificate) CertificateError :=
  if negb (bool_decide (tx_type t = Consensus)) then Ok None
  else
    match tx_signatures t, msg_instructions (tx_message t),
          msg_compute_budget (tx_message t), msg_compute_unit_price (tx_message t) with
    | [], [instruction], None, None =>
        if negb (ix_program_id instruction =? SYSTEM_PROGRAM_ID)
           || negb (bool_decide (ix_accounts instruction = [SYSTEM_PROGRAM_ID]))
           || negb (bool_decide
                      (head (ix_data instruction) = Some CANONICAL_COMMIT_ENVELOPE_OPCODE))
        then Err InvalidInstructionShape
        else
          let payload := tail (ix_data instruction) in
          or_err (certificate_of_bytes payload MAX_CANONICAL_COMMIT_ENVELOPE_BYTES)
            CertificateDecodeError (fun certificate =>
          and_then (validate_canonical_shape certificate) (fun _ =>
          if negb (msg_recent_blockhash (tx_message t) =? ccc_block_hash certificate)
          then Err CertificateBlockhashMismatch
          else Ok (Some certificate)))
    | _, _, _, _ => Err InvalidTransactionShape
    end.
End certificates.

(** ** Lemmas *)

Section commit_lemmas.
Context `{Crypto} (chain_id : bytes) (act : Z) (vs : ValidatorSet) (sp : StakePool) (m : Z)
  (b : Block).
Abbreviation stake := (eligible_validator_stake vs sp m).
Abbreviation committed := (committed_stake chain_id act vs sp m b).
Abbreviation valid := (commit_signature_valid chain_id act b).

(** The signers the loop counts: distinct, eligible, with a valid signature. *)
Lemma committed_stake_sound seen sigs :
  exists Q, NoDup Q /\ committed seen sigs = sumZ (fun k => default 0 (stake k)) Q
    /\ forall k, k ∈ Q -> k ∉ seen /\ is_Some (stake k)
         /\ exists cs, cs ∈ sigs /\ cs_validator cs = k /\ valid cs = true.
Proof.
  revert seen. induction sigs as [|cs sigs IH]; intros seen.
  { exists []. split_and!; [constructor|done|]. by intros k ?%not_elem_of_nil. }
  cbn [committed_stake]. case_decide as Hseen.
  - destruct (IH seen) as (Q & HQ & -> & HQk). exists Q. split_and!; [done..|].
    intros k Hk. destruct (HQk k Hk) as (? & ? & cs' & ? & ? & ?). split_and!; [done..|].
    exists cs'. split_and!; [by right|done|done].
  - destruct (IH ({[cs_validator cs]} ∪ seen)) as (Q & HQ & Hsum & HQk).
    assert (forall k, k ∈ Q -> k ∉ seen /\ k <> cs_validator cs) as Hnew.
    { intros k Hk. destruct (HQk k Hk) as [Hn _]. set_solver. }
    assert (forall k, k ∈ Q -> is_Some (stake k)
              /\ exists cs', cs' ∈ cs :: sigs /\ cs_validator cs' = k /\ valid cs' = true) as Hold.
    { intros k Hk. destruct (HQk k Hk) as (_ & ? & cs' & ? & ? & ?). split; [done|].
      exists cs'. split_and!; [by right|done|done]. }
    destruct (stake (cs_validator cs)) as [w|] eqn:Hw.
    2: { exists Q. split_and!; [done..|]. intros k Hk. destruct (Hnew k Hk), (Hold k Hk). auto. }
    destruct (valid cs) eqn:Hv.
    2: { exists Q. split_and!; [done..|]. intros k Hk. destruct (Hnew k Hk), (Hold k Hk). auto. }
    exists (cs_validator cs :: Q). split_and!.
    + constructor; [|done]. intros Hk. by destruct (Hnew _ Hk).
    + rewrite sumZ_cons, Hw, Hsum. done.
    + intros k [->|Hk]%elem_of_cons; [|destruct (Hnew k Hk), (Hold k Hk); auto].
      split_and!; [done|by rewrite Hw|]. exists cs. split_and!; [left|done|done].
Qed.

(** Distinct eligible signers with valid signatures all count. *)
Lemma committed_stake_complete seen sigs :
  NoDup (map cs_validator sigs) ->
  (forall cs, cs ∈ sigs -> cs_validator cs ∉ seen /\ valid cs = true) ->
  committed seen sigs = sumZ (fun k => default 0 (stake k)) (map cs_validator sigs).
Proof.
  revert seen. induction sigs as [|cs sigs IH]; intros seen Hnd Hok; [done|].
  inversion Hnd as [|? ? Hcs Hnd']; subst. cbn [committed_stake map].
  destruct (Hok cs) as [Hs Hv]; [left|]. rewrite decide_False by done.
  rewrite sumZ_cons, IH, Hv; [by destruct (stake (cs_validator cs))|done|].
  intros cs' Hin. destruct (Hok cs') as [Hs' Hv']; [by right|]. split; [|done].
  intros [Heq%elem_of_singleton|?]%elem_of_union; [|done]. apply Hcs. rewrite <- Heq.
  by apply (list_elem_of_fmap_2 cs_validator).
Qed.

Lemma verify_commit_Ok :
  Block_verify_commit_with_chain_id_and_min_stake_for_history chain_id act vs sp m b = Ok tt
  <-> hdr_slot (blk_header b) = 0
      \/ (blk_commit_signatures b <> [] /\ total_eligible_validator_stake vs sp m <> 0
          /\ total_eligible_validator_stake vs sp m * 2
             <= committed ∅ (blk_commit_signatures b) * 3).
Proof.
  unfold Block_verify_commit_with_chain_id_and_min_stake_for_history.
  destruct (Z.eqb_spec (hdr_slot (blk_header b)) 0) as [|Hs]; [by split; [left|]|].
  case_decide as He; [split; [done|by intros [?|[? _]]]|].
  destruct (Z.eqb_spec (total_eligible_validator_stake vs sp m) 0) as [|Ht];
    [split; [done|by intros [?|(? & ? & _)]]|].
  destruct (Z.leb_spec (total_eligible_validator_stake vs sp m * 2)
              (committed ∅ (blk_commit_signatures b) * 3)).
  - split; [|done]. intros _. right. by split_and!.
  - split; [done|]. intros [?|(_ & _ & ?)]; [done|lia].
Qed.
End commit_lemmas.

(** *** Block time *)

Lemma weighted_median_spec (half cumulative d : Z) (l : list (Z * Z)) :
  cumulative <= half -> half < cumulative + sumZ snd l -> sorted_by_key fst l ->
  (forall p, p ∈ l -> 0 <= p.2) ->
  let t := weighted_median half cumulative d l in
  (exists p, p ∈ l /\ p.1 = t)
  /\ cumulative + sumZ snd (filter (fun p => p.1 < t) l) <= half
  /\ half < cumulative + sumZ snd (filter (fun p => p.1 <= t) l).
Proof.
  revert cumulative. induction l as [|[ts w] l IH]; intros c Hc Hl Hs Hw; [unfold sumZ in Hl; simpl in Hl; lia|].
  inversion Hs as [|? ? Hs' Hts]; subst. cbn [weighted_median]. rewrite sumZ_cons in Hl. simpl in Hl.
  assert (0 <= w) by (apply (Hw (ts, w)); left).
  assert (forall P : Z * Z -> Prop, forall D : (forall x, Decision (P x)),
    0 <= sumZ snd (filter P l)) as Hnn.
  { intros P D. apply sumZ_nonneg. intros p [_ Hp]%list_elem_of_filter. apply Hw. by right. }
  destruct (Z.ltb_spec half (c + w)) as [Hlt|Hge].
  - split_and!.
    + exists (ts, w). split; [left|done].
    + rewrite (sumZ_zero snd); [lia|]. intros p [Hlt' Hp]%list_elem_of_filter. exfalso.
      apply elem_of_cons in Hp as [->|Hp]; [simpl in *; lia|].
      pose proof (proj1 (Forall_forall _ _) Hts p Hp). simpl in *. lia.
    + rewrite filter_cons, decide_True by (simpl; lia). rewrite sumZ_cons. simpl.
      specialize (Hnn (fun p => p.1 <= ts) _). lia.
  - destruct (IH (c + w)) as ((p & Hp & Ht) & H1 & H2); [lia|lia|done|intros; apply Hw; by right|].
    set (t := weighted_median half (c + w) d l) in *.
    assert (ts <= t) as Hle.
    { rewrite <- Ht. by apply (proj1 (Forall_forall _ _) Hts p). }
    split_and!.
    + exists p. split; [by right|done].
    + rewrite filter_cons. case_decide; rewrite ?sumZ_cons; simpl in *; lia.
    + rewrite filter_cons, decide_True by (simpl; lia). rewrite sumZ_cons. simpl. lia.
Qed.

(** Sum of the seconds of the pairs a partial function produces. *)
Lemma sumZ_filter_omap {A} (f : A -> option (Z * Z)) (P : Z * Z -> Prop)
  `{!forall x, Decision (P x)} (l : list A) :
  sumZ snd (filter P (omap f l))
  = sumZ (fun a => match f a with Some p => if decide (P p) then p.2 else 0 | None => 0 end) l.
Proof.
  induction l as [|a l IH]; [done|]. rewrite sumZ_cons, <- IH.
  change (omap f (a :: l)) with (match f a with Some y => y :: omap f l | None => omap f l end).
  destruct (f a) as [p|]; [|done]. rewrite filter_cons. case_decide; [|done]. by rewrite sumZ_cons.
Qed.

Lemma sumZ_snd_omap {A} (f : A -> option (Z * Z)) (l : list A) :
  sumZ snd (omap f l) = sumZ (fun a => match f a with Some p => p.2 | None => 0 end) l.
Proof.
  induction l as [|a l IH]; [done|]. rewrite sumZ_cons, <- IH.
  change (omap f (a :: l)) with (match f a with Some y => y :: omap f l | None => omap f l end).
  destruct (f a) as [p|]; [|done]. by rewrite sumZ_cons.
Qed.

Section bft_time.
Context (vs : ValidatorSet) (sp : StakePool) (sigs : list CommitSignature).
Abbreviation stake cs := (eligible_validator_stake vs sp MIN_VALIDATOR_STAKE (cs_validator cs)).
Abbreviation entry := (fun cs => (fun stake => (cs_timestamp cs, stake)) <$> stake cs).

(** The stake of the signers that satisfy [P]. *)
Definition signers_stake (P : CommitSignature -> bool) : Z :=
  sumZ (fun cs => if P cs then default 0 (stake cs) else 0) sigs.

Hypothesis stake_nonneg : forall cs w, cs ∈ sigs -> stake cs = Some w -> 0 <= w.

(** The median: at most half of the stake is strictly before it, more than
    half is at or before it. *)
Lemma bft_timestamp_median t :
  compute_bft_timestamp sigs vs sp None = Some t -> 0 < signers_stake (fun _ => true) ->
  signers_stake (fun cs => cs_timestamp cs <? t) <= signers_stake (fun _ => true) / 2
  /\ signers_stake (fun _ => true) / 2 < signers_stake (fun cs => cs_timestamp cs <=? t).
Proof.
  unfold compute_bft_timestamp. case_decide as He; [done|].
  set (w := omap entry sigs). intros Ht Hpos.
  assert (sumZ snd w = signers_stake (fun _ => true)) as Htot.
  { unfold w, signers_stake. rewrite sumZ_snd_omap. apply sumZ_ext. intros cs _.
    by destruct (stake cs). }
  assert (forall (P : Z * Z -> Prop) `{!forall x, Decision (P x)} (Q : CommitSignature -> bool),
    (forall cs s, P (cs_timestamp cs, s) <-> Q cs = true) ->
    sumZ snd (filter P (sort_by_key fst w)) = signers_stake Q) as Hsum.
  { intros P D Q HPQ. rewrite (sort_by_key_perm fst w). unfold w, signers_stake.
    rewrite sumZ_filter_omap. apply sumZ_ext. intros cs _.
    destruct (stake cs) as [s|]; simpl; [|by destruct (Q cs)].
    case_decide as Hd; rewrite (HPQ cs s) in Hd; destruct (Q cs); done. }
  destruct (sort_by_key fst w) as [|first rest] eqn:Hsort; [done|].
  cbv zeta in Ht. apply (inj Some) in Ht.
  assert (sumZ snd (first :: rest) = signers_stake (fun _ => true)) as Htot'
    by (rewrite <- Hsort, <- Htot; by rewrite (sort_by_key_perm fst w)).
  rewrite Htot' in Ht.
  destruct (weighted_median_spec (signers_stake (fun _ => true) / 2) 0 first.1 (first :: rest))
    as (_ & H1 & H2).
  - apply Z.div_pos; lia.
  - rewrite Htot'. apply Z.div_lt; lia.
  - rewrite <- Hsort. apply sort_by_key_sorted.
  - intros p Hp. rewrite <- Hsort, elem_of_sort_by_key in Hp. unfold w in Hp.
    apply list_elem_of_omap in Hp as (cs & Hcs & Hp). apply fmap_Some in Hp as (s & Hs & ->).
    simpl. by apply (stake_nonneg cs).
  - rewrite Ht in H1, H2.
    rewrite (Hsum (fun p => p.1 < t) _ (fun cs => cs_timestamp cs <? t)) in H1
      by (intros; simpl; symmetry; apply Z.ltb_lt).
    rewrite (Hsum (fun p => p.1 <= t) _ (fun cs => cs_timestamp cs <=? t)) in H2
      by (intros; simpl; symmetry; apply Z.leb_le).
    by split.
Qed.

(** Signers with more than half of the counted stake bound the block time by
    their own timestamps. *)
Lemma bft_timestamp_bounds (good : CommitSignature -> bool) lo hi t :
  compute_bft_timestamp sigs vs sp None = Some t ->
  signers_stake (fun _ => true) < 2 * signers_stake good ->
  (forall cs, cs ∈ sigs -> good cs = true -> lo <= cs_timestamp cs <= hi) ->
  lo <= t <= hi.
Proof.
  intros Ht Hgood Hts.
  assert (0 <= signers_stake good <= signers_stake (fun _ => true)) as [Hg0 Hg].
  { split; [apply sumZ_nonneg|apply sumZ_le]; intros cs Hcs; destruct (good cs); try lia;
      (destruct (stake cs) as [s|] eqn:Hs; simpl; [by apply (stake_nonneg cs)|lia]). }
  destruct (bft_timestamp_median t Ht) as [H1 H2]; [lia|].
  set (T := signers_stake (fun _ => true)) in *.
  assert (2 * (T / 2) <= T < 2 * (T / 2) + 2) by divlia.
  split.
  - destruct (Z.le_gt_cases lo t) as [|Hlt]; [done|]. exfalso.
    assert (signers_stake (fun cs => cs_timestamp cs <=? t) + signers_stake good <= T); [|lia].
    unfold T, signers_stake. rewrite <- sumZ_add. apply sumZ_le. intros cs Hcs.
    assert (0 <= default 0 (stake cs)).
    { destruct (stake cs) as [s|] eqn:Hs; simpl; [by apply (stake_nonneg cs)|lia]. }
    destruct (good cs) eqn:Hgc; destruct (Z.leb_spec (cs_timestamp cs) t); try lia.
    specialize (Hts cs Hcs Hgc). lia.
  - destruct (Z.le_gt_cases t hi) as [|Hgt]; [done|]. exfalso.
    assert (signers_stake good <= signers_stake (fun cs => cs_timestamp cs <? t)); [|lia].
    apply sumZ_le. intros cs Hcs.
    assert (0 <= default 0 (stake cs)).
    { destruct (stake cs) as [s|] eqn:Hs; simpl; [by apply (stake_nonneg cs)|lia]. }
    destruct (good cs) eqn:Hgc; destruct (Z.ltb_spec (cs_timestamp cs) t); try lia.
    specialize (Hts cs Hcs Hgc). lia.
Qed.
End bft_time.

(** *** Certificates *)

Lemma strictly_ordered_sorted (l : list Z) :
  NoDup l -> StronglySorted Z.le l -> strictly_ordered l = true.
Proof.
  induction l as [|a l IH]; intros Hnd Hs; [done|].
  inversion Hnd as [|? ? Ha Hnd']; subst. inversion Hs as [|? ? Hs' Hf]; subst.
  destruct l as [|c l]; [done|]. cbn [strictly_ordered]. apply andb_true_intro. split; [|by apply IH].
  apply Z.ltb_lt. inversion Hf; subst. destruct (decide (a = c)) as [->|]; [|lia].
  exfalso. apply Ha. left.
Qed.

Lemma sorted_keys {A} (key : A -> Z) (l : list A) :
  NoDup (map key l) -> strictly_ordered (map key (sort_by_key key l)) = true.
Proof.
  intros Hnd. apply strictly_ordered_sorted.
  - change (NoDup (key <$> sort_by_key key l)). by rewrite sort_by_key_perm.
  - pose proof (sort_by_key_sorted key l) as Hs. unfold sorted_by_key in Hs.
    induction Hs as [|x k Hk IH Hf]; [constructor|]. cbn [map]. constructor; [done|].
    apply Forall_forall. intros z Hz. apply (list_elem_of_fmap_1 key) in Hz as (y & -> & Hy).
    by apply (proj1 (Forall_forall _ _) Hf y).
Qed.

(** ** Theorems *)

(** A block that passes commit verification, other than genesis, carries
    valid precommit signatures of distinct eligible validators with at least two
    thirds of the eligible stake. *)
Theorem verify_commit_sound `{Crypto} chain_id vs sp m b :
  Block_verify_commit_with_chain_id_and_min_stake chain_id vs sp m b = Ok tt ->
  0 < hdr_slot (blk_header b) ->
  exists Q, NoDup Q /\ total_eligible_validator_stake vs sp m <> 0
    /\ total_eligible_validator_stake vs sp m * 2
       <= sumZ (fun k => default 0 (eligible_validator_stake vs sp m k)) Q * 3
    /\ forall k, k ∈ Q -> is_Some (eligible_validator_stake vs sp m k)
         /\ exists cs, cs ∈ blk_commit_signatures b /\ cs_validator cs = k
              /\ Keypair_verify k
                   (Precommit_signing_bytes_for_chain_id chain_id (hdr_slot (blk_header b))
                      (blk_commit_round b) (Some (Block_hash b)) (cs_timestamp cs)) (cs_signature cs) = true.
Proof.
  unfold Block_verify_commit_with_chain_id_and_min_stake. rewrite verify_commit_Ok.
  intros [?|(_ & Hz & Hq)] Hs; [lia|].
  destruct (committed_stake_sound chain_id 0 vs sp m b ∅ (blk_commit_signatures b)) as (Q & Hnd & Hsum & HQ).
  exists Q. rewrite <- Hsum. split_and!; try done. intros k Hk.
  destruct (HQ k Hk) as (_ & Hel & cs & Hcs & <- & Hv). split; [done|]. exists cs. split_and!; try done.
  unfold commit_signature_valid in Hv. destruct (Keypair_verify _ _ _); [done|].
  simpl in Hv. destruct (Z.ltb_spec (hdr_slot (blk_header b)) 0); [lia|done].
Qed.

(** The parent lower bound is applied last. *)
Lemma compute_bft_timestamp_min sigs vs sp min_ts t :
  compute_bft_timestamp sigs vs sp min_ts = Some t ->
  exists t0, compute_bft_timestamp sigs vs sp None = Some t0 /\ t = Z.max t0 (default t0 min_ts).
Proof.
  unfold compute_bft_timestamp. case_decide; [done|].
  destruct (sort_by_key fst _) as [|first rest]; [done|]. cbv zeta.
  intros Ht. apply (inj Some) in Ht. eexists. split; [done|]. rewrite <- Ht.
  generalize (weighted_median (sumZ snd (first :: rest) / 2) 0 first.1 (first :: rest)). intros t0.
  destruct min_ts as [p|]; simpl; [destruct (Z.ltb_spec t0 p)|]; lia.
Qed.


(** A canonical commit certificate survives the trip through its consensus
    transaction. *)
Theorem certificate_transaction_roundtrip
  `{Crypto, D : CertificateCodec, !CertificateCodecLaws D} c t :
  to_transaction c = Ok t -> from_transaction t = Ok (Some c).
Proof.
  unfold to_transaction. destruct (validate_canonical_shape c) as [[]|] eqn:Hv; [|done].
  cbn [and_then]. destruct (certificate_bytes c) as [payload|] eqn:Hp; [|done]. cbn [or_err].
  destruct (Z.ltb_spec MAX_CANONICAL_COMMIT_ENVELOPE_BYTES (Z.of_nat (length payload)))
    as [|Hle]; [done|].
  intros [= <-]. unfold from_transaction. simpl. rewrite (certificate_roundtrip c) by done.
  simpl. rewrite Hv. simpl. by rewrite Z.eqb_refl.
Qed.

(** ** Concrete certificates *)

Module ToyCommit.
#[export] Existing Instance Toy.crypto.
#[export] Existing Instance Toy.crypto_laws.

Definition key (seed : Z) : Pubkey := Keypair_pubkey (mkKeypair seed).
Definition validators : ValidatorSet :=
  mkValidatorSet [ValidatorInfo_new (key 1) 0; ValidatorInfo_new (key 2) 0; ValidatorInfo_new (key 3) 0] 0.
Definition pool : StakePool :=
  set_sp_stakes (list_to_map (map (fun k => (k, StakeInfo_new k MIN_VALIDATOR_STAKE 0))
                                [key 1; key 2; key 3])) StakePool_new.
Definition header : BlockHeader := mkBlockHeader 4 1 2 3 50 5 (key 1) None.
Definition sign (seed ts : Z) : CommitSignature :=
  mkCommitSignature (key seed)
    (Keypair_sign (mkKeypair seed)
       (Precommit_signing_bytes_for_chain_id [1] 4 0 (Some (BlockHeader_signable_hash header)) ts)) ts.
Definition block : Block := mkBlock header [] [] [] 0 [sign 1 100; sign 2 110; sign 2 110].

Lemma verify_commit_sound_witness :
  exists Q, NoDup Q /\ total_eligible_validator_stake validators pool MIN_VALIDATOR_STAKE * 2
    <= sumZ (fun k => default 0 (eligible_validator_stake validators pool MIN_VALIDATOR_STAKE k)) Q * 3.
Proof.
  assert (Block_verify_commit_with_chain_id_and_min_stake [1] validators pool MIN_VALIDATOR_STAKE block
          = Ok tt) as Hv by (vm_compute; reflexivity).
  destruct (verify_commit_sound [1] validators pool MIN_VALIDATOR_STAKE block Hv ltac:(simpl; lia))
    as (Q & Hnd & _ & Hq & _). exists Q. exact (conj Hnd Hq).
Defined.

Lemma stakes_u64 u s :
  sp_stakes pool !! u = Some s -> is_u64 (si_amount s) /\ is_u64 (si_delegated_amount s).
Proof.
  intros Hs.
  assert (map_Forall (fun _ s => is_u64 (si_amount s) /\ is_u64 (si_delegated_amount s))
            (sp_stakes pool)) as Hf; [|exact (Hf u s Hs)].
  apply map_Forall_to_list. let l := eval vm_compute in (map_to_list (sp_stakes pool)) in
    change (map_to_list (sp_stakes pool)) with l.
  unfold is_u64. repeat constructor; simpl; lia.
Qed.

(** The third signer reports a time far in the future. *)
Definition times : list CommitSignature := [sign 1 100; sign 2 110; sign 3 900000].
Definition punctual (cs : CommitSignature) : bool := cs_timestamp cs <? 200.

Lemma punctual_times cs : cs ∈ times -> punctual cs = true -> 100 <= cs_timestamp cs <= 110.
Proof.
  intros [->|[->|[->|[]%not_elem_of_nil]%elem_of_cons]%elem_of_cons]%elem_of_cons;
    unfold punctual, sign; cbn [cs_timestamp]; lia.
Qed.


Definition certificate : CanonicalCommitCertificate :=
  mkCanonicalCommitCertificate CANONICAL_COMMIT_ENVELOPE_VERSION 4 0 17
    (canonical_validator_powers_hash [mkCanonicalValidatorPower 9 1]) [mkCanonicalValidatorPower 9 1] 6 7
    [sign 1 100].

(** A codec for one certificate. *)
Definition codec : CertificateCodec := {|
  metadata_bytes fees prices := Some (fees ++ map snd prices);
  certificate_bytes c := if decide (c = certificate) then Some [1; 2] else None;
  certificate_of_bytes payload limit :=
    if decide (payload = [1; 2]) then Some certificate else None;
|}.
#[export] Existing Instance codec.

#[export] Instance codec_laws : CertificateCodecLaws codec.
Proof.
  intros c payload limit. cbn [certificate_bytes certificate_of_bytes codec].
  case_decide; [|done]. intros [= <-] _. subst. by rewrite decide_True.
Qed.

Lemma certificate_transaction_roundtrip_witness :
  exists t, to_transaction certificate = Ok t /\ from_transaction t = Ok (Some certificate).
Proof.
  destruct (to_transaction certificate) as [t|] eqn:Ht; [|vm_compute in Ht; discriminate].
  exists t. split; [reflexivity|]. exact (certificate_transaction_roundtrip certificate t Ht).
Defined.
End ToyCommit.
