(* ===== verification/Certificate.v ===== *)
(** * Certificates of committed blocks

    What the engine hands out as [CommitBlock] is accepted by the verifiers of
    [core]: the block passes [Block::verify_commit], and the canonical
    certificate built from it passes [CanonicalCommitCertificate::verify_parent]
    at the next height. *)

From S2P Require Import Prelude Crypto Block Votes Stake Validators Slashing Engine Protocol Power Refinement Commit.
From stdpp Require Import base tactics numbers list gmap sorting.
From Stdlib Require Import ZArith Lia.

Local Open Scope Z_scope.

Section power_agreement.
Context (vs : ValidatorSet) (sp : StakePool) (m : Z).
Context (Hwf : ValidatorSet_wf vs) (Hv2 : sp_staking_v2_state sp = None).
Abbreviation snap := (ConsensusPowerSnapshot_build vs sp m).

(** Before Staking V2 the engine's snapshot and the verifier's stake lookup
    are the same function. *)
Lemma snapshot_eligible_validator_stake k :
  ps_eligible_power snap !! k = eligible_validator_stake vs sp m k.
Proof.
  rewrite build_foldl, build_lookup.
  - rewrite find_sorted by done. unfold eligible_validator_stake. rewrite Hv2.
    destruct (ValidatorSet_get_validator vs k) as [v|] eqn:Hv; [|done].
    unfold ValidatorSet_get_validator in Hv. apply find_some in Hv as [_ Hk%Z.eqb_eq].
    unfold record_stake. rewrite Hk. simpl. rewrite lookup_empty. repeat case_match; congruence.
  - unfold ValidatorSet_sorted_validators.
    change (NoDup (vi_pubkey <$> sort_by_key vi_pubkey (vs_validators vs))).
    by rewrite sort_by_key_perm.
Qed.

Lemma snapshot_total_eligible :
  stakes_u64 sp -> Z.of_nat (length (vs_validators vs)) < 2 ^ 64 ->
  ps_total_eligible_stake snap = total_eligible_validator_stake vs sp m.
Proof.
  intros Hsp Hlen. pose proof (build_wf sp m vs Hsp Hwf Hlen) as Hs.
  rewrite (swf_total _ Hs), total_eligible_sum.
  set (el := fun k => is_Some (ps_eligible_power snap !! k)).
  rewrite (sumZ_filter_split _ el (pubkeys vs)).
  rewrite (sumZ_zero _ (filter (fun x => ~ el x) (pubkeys vs))).
  - rewrite Z.add_0_r.
    assert (snapshot_members snap ≡ₚ filter el (pubkeys vs)) as ->.
    + apply NoDup_Permutation; [apply NoDup_fst_map_to_list|by apply NoDup_filter|].
      intros k. rewrite elem_of_snapshot_members, list_elem_of_filter. split; [|tauto].
      intros Hk. split; [done|]. rewrite snapshot_eligible_validator_stake in Hk.
      unfold eligible_validator_stake in Hk.
      destruct (ValidatorSet_get_validator vs k) as [v|] eqn:Hv; [|by destruct Hk].
      unfold ValidatorSet_get_validator in Hv. apply find_some in Hv as [Hin Hvk%Z.eqb_eq].
      unfold pubkeys. rewrite <- Hvk. apply (list_elem_of_fmap_2 vi_pubkey).
      by apply list_elem_of_In.
    + apply sumZ_ext. intros k _. unfold snapshot_weight.
      by rewrite snapshot_eligible_validator_stake.
  - intros k [Hk _]%list_elem_of_filter. unfold el in Hk. rewrite <- eq_None_not_Some in Hk.
    rewrite snapshot_eligible_validator_stake in Hk. by rewrite Hk.
Qed.
End power_agreement.

Section certificate.
Context `{CL : CryptoLaws} (vs : ValidatorSet) (sp : StakePool) (m : Z).
Context (Hwf : ValidatorSet_wf vs) (Hv2 : sp_staking_v2_state sp = None).
Context (Hsp : stakes_u64 sp) (Hlen : Z.of_nat (length (vs_validators vs)) < 2 ^ 62).
Context (height : Z) (chain_id : bytes).
Abbreviation snap := (ConsensusPowerSnapshot_build vs sp m).

Lemma certified_nonempty r bh sigs : certified snap height chain_id r bh sigs -> sigs <> [].
Proof. intros [_ _ Ht Hp] ->. simpl in Hp. lia. Qed.

(** A certified block passes [Block::verify_commit]. *)
Lemma certified_verify_commit b :
  hdr_slot (blk_header b) = height ->
  certified snap height chain_id (blk_commit_round b) (Block_hash b) (blk_commit_signatures b) ->
  Block_verify_commit_with_chain_id_and_min_stake chain_id vs sp m b = Ok tt.
Proof.
  intros Hslot Hc. pose proof (certified_nonempty _ _ _ Hc) as Hne. destruct Hc as [Hnd Hval Hpos Hpow].
  unfold Block_verify_commit_with_chain_id_and_min_stake. apply verify_commit_Ok. right.
  rewrite (snapshot_total_eligible vs sp m Hwf Hv2 Hsp) in Hpos, Hpow by lia.
  split_and!; [done|lia|].
  rewrite committed_stake_complete; [|done|].
  - rewrite sumZ_omap in Hpow. etransitivity; [exact Hpow|]. apply Z.eq_le_incl. f_equal.
    apply sumZ_ext. intros k _. by rewrite snapshot_eligible_validator_stake.
  - intros cs Hcs. split; [set_solver|]. destruct (Hval cs Hcs) as [_ Hv].
    unfold commit_signature_valid. rewrite Hslot. by rewrite Hv.
Qed.

(** *** The canonical certificate of the next height *)

Context (Hpend : forall v, v ∈ vs_validators vs -> vi_pending_activation v = false) (Hm : 0 < m).

Abbreviation powers := (canonical_validator_powers vs sp).

Lemma canonical_powers_keys : map cvp_validator powers = map vi_pubkey (ValidatorSet_sorted_validators vs).
Proof.
  unfold canonical_validator_powers. rewrite Hv2, map_map. done.
Qed.

Lemma canonical_powers_NoDup : NoDup (map cvp_validator powers).
Proof.
  rewrite canonical_powers_keys. unfold ValidatorSet_sorted_validators.
  change (NoDup (vi_pubkey <$> sort_by_key vi_pubkey (vs_validators vs))).
  by rewrite sort_by_key_perm.
Qed.

Lemma elem_of_canonical_powers k w :
  mkCanonicalValidatorPower k w ∈ powers <->
  exists v, v ∈ vs_validators vs /\ vi_pubkey v = k
    /\ w = match StakePool_get_stake sp k with Some s => StakeInfo_total_stake s | None => 0 end.
Proof.
  unfold canonical_validator_powers. rewrite Hv2. split.
  - intros (v & [= -> ->] & Hv)%(list_elem_of_fmap_1
      (fun v => mkCanonicalValidatorPower (vi_pubkey v) _)).
    unfold ValidatorSet_sorted_validators in Hv. rewrite elem_of_sort_by_key in Hv. by exists v.
  - intros (v & Hv & <- & ->).
    apply (list_elem_of_fmap_2 (fun v => mkCanonicalValidatorPower (vi_pubkey v)
      (match StakePool_get_stake sp (vi_pubkey v) with Some s => StakeInfo_total_stake s | None => 0 end))).
    unfold ValidatorSet_sorted_validators. by rewrite elem_of_sort_by_key.
Qed.

(** The powers of a certificate over [powers] are those of the snapshot. *)
Lemma eligible_powers_snapshot c :
  ccc_validator_powers c = powers -> eligible_powers m c = ps_eligible_power snap.
Proof.
  intros Hc. apply map_eq. intros k. apply option_eq. intros w.
  rewrite snapshot_eligible_validator_stake by done. unfold eligible_powers.
  set (l := map (fun p => (cvp_validator p, cvp_power p))
              (filter (fun p => m <= cvp_power p) (ccc_validator_powers c))).
  assert (NoDup (reverse l).*1) as Hnd.
  { rewrite fmap_reverse, reverse_Permutation. unfold l.
    rewrite <- list_fmap_compose. cbn [compose fst].
    eapply (sublist_NoDup _ (cvp_validator <$> ccc_validator_powers c)).
    - rewrite Hc. apply canonical_powers_NoDup.
    - apply fmap_sublist, sublist_filter. }
  rewrite <- (elem_of_list_to_map _ _ _ Hnd), elem_of_reverse. unfold l. rewrite list_elem_of_fmap, Hc.
  unfold eligible_validator_stake. rewrite Hv2. split.
  - intros ([k' w'] & [= -> ->] & [Hle Hin]%list_elem_of_filter). simpl in *.
    apply elem_of_canonical_powers in Hin as (v & Hv & Hvk & Hw).
    destruct (ValidatorSet_get_validator vs k') as [u|] eqn:Hu.
    + unfold ValidatorSet_get_validator in Hu. apply find_some in Hu as [Hin' _].
      rewrite Hpend by by apply list_elem_of_In.
      destruct (StakePool_get_stake sp k') as [s|]; [|lia]. rewrite Hw.
      destruct (Z.ltb_spec (StakeInfo_total_stake s) m); [lia|done].
    + exfalso. unfold ValidatorSet_get_validator in Hu.
      apply list_elem_of_In in Hv. pose proof (find_none _ _ Hu v Hv) as Hf. simpl in Hf.
      rewrite Hvk, Z.eqb_refl in Hf. done.
  - destruct (ValidatorSet_get_validator vs k) as [u|] eqn:Hu; [|done].
    unfold ValidatorSet_get_validator in Hu. apply find_some in Hu as [Hin Hk%Z.eqb_eq].
    apply list_elem_of_In in Hin. rewrite Hpend by done.
    destruct (StakePool_get_stake sp k) as [s|] eqn:Hs; [|done].
    destruct (Z.ltb_spec (StakeInfo_total_stake s) m); [done|]. intros [= <-].
    exists (mkCanonicalValidatorPower k (StakeInfo_total_stake s)). split; [done|].
    apply list_elem_of_filter. split; [simpl; lia|]. apply elem_of_canonical_powers.
    exists u. by rewrite Hs.
Qed.

(** The counting loop of [verify_parent] on valid signatures of distinct
    validators, below saturation. *)
Lemma certificate_power_fold (P : gmap Pubkey Z) c sigs acc :
  (forall k w, P !! k = Some w -> 0 <= w) ->
  (forall cs, cs ∈ sigs -> Precommit_verify_signature_with_chain_id chain_id
     (mkPrecommit (ccc_height c) (ccc_round c) (Some (ccc_block_hash c)) (cs_validator cs)
        (cs_signature cs) (cs_timestamp cs)) = true) ->
  0 <= acc ->
  acc + sumZ (fun k => default 0 (P !! k)) (map cs_validator sigs) <= u128_max ->
  foldl (certificate_signature_power chain_id P c) acc sigs
  = acc + sumZ (fun k => default 0 (P !! k)) (map cs_validator sigs).
Proof.
  intros HP. revert acc. induction sigs as [|cs sigs IH]; intros acc Hv Ha Hb.
  { simpl. unfold sumZ. simpl. lia. }
  cbn [foldl map]. cbn [map] in Hb. rewrite sumZ_cons in *.
  assert (0 <= sumZ (fun k => default 0 (P !! k)) (map cs_validator sigs)) as Hrest.
  { apply sumZ_nonneg. intros k _. destruct (P !! k) as [w|] eqn:Hw; simpl; [by apply (HP k)|lia]. }
  assert (certificate_signature_power chain_id P c acc cs
          = acc + default 0 (P !! cs_validator cs)) as ->.
  { unfold certificate_signature_power. destruct (P !! cs_validator cs) as [w|] eqn:Hw; simpl; [|lia].
    rewrite Hv by left. simpl in Hb. unfold sat_add128. lia. }
  assert (0 <= default 0 (P !! cs_validator cs)).
  { destruct (P !! cs_validator cs) as [w|] eqn:Hw; simpl; [by apply (HP (cs_validator cs))|lia]. }
  rewrite IH; [lia| |lia|lia]. intros cs' Hin. apply Hv. by right.
Qed.

Lemma total_snapshot_bound : ps_total_eligible_stake snap * 3 <= u128_max.
Proof.
  rewrite (snapshot_total_eligible vs sp m Hwf Hv2 Hsp), total_eligible_sum by lia.
  assert (sumZ (fun k => default 0 (eligible_validator_stake vs sp m k)) (pubkeys vs)
          <= u64_max * Z.of_nat (length (pubkeys vs))).
  { apply sumZ_bound. intros k _. unfold eligible_validator_stake. rewrite Hv2.
    repeat case_match; simpl; unfold StakeInfo_total_stake; unfold_ints; lia. }
  unfold pubkeys in *. rewrite length_map in *. unfold u64_max, u128_max in *. lia.
Qed.

Context `{CertificateCodec}.

(** The certificate [from_committed_block] builds. *)
Definition certificate_of (b : Block) (root metadata_hash : Hash) : CanonicalCommitCertificate :=
  {| ccc_version := CANONICAL_COMMIT_ENVELOPE_VERSION;
     ccc_height := hdr_slot (blk_header b); ccc_round := blk_commit_round b;
     ccc_block_hash := Block_hash b; ccc_validators_hash := hdr_validators_hash (blk_header b);
     ccc_validator_powers := powers; ccc_parent_post_state_root := root;
     ccc_child_metadata_hash := metadata_hash;
     ccc_signatures := sort_by_key cs_validator (blk_commit_signatures b) |}.

Section certified_block.
Context (b : Block) (root mh : Hash).
Hypothesis Hslot : hdr_slot (blk_header b) = height.
Hypothesis Hc :
  certified snap height chain_id (blk_commit_round b) (Block_hash b) (blk_commit_signatures b).
Abbreviation c := (certificate_of b root mh).

Lemma sorted_signers : map cs_validator (ccc_signatures c) ≡ₚ map cs_validator (blk_commit_signatures b).
Proof. simpl. apply (fmap_Permutation cs_validator), sort_by_key_perm. Qed.

Lemma certificate_powers_nonempty : powers <> [].
Proof using Hc Hlen Hm Hpend Hsp Hv2 Hwf.
  intros He. pose proof (build_wf sp m vs Hsp Hwf ltac:(lia)) as Hswf.
  pose proof (cert_total _ _ _ _ _ _ Hc) as Hpos.
  rewrite (swf_total _ Hswf) in Hpos. unfold snapshot_members in Hpos.
  assert (ps_eligible_power snap = ∅) as Hemp.
  { rewrite <- (eligible_powers_snapshot (certificate_of b 0 0) eq_refl). unfold eligible_powers. simpl. by rewrite He. }
  rewrite Hemp, map_to_list_empty in Hpos. unfold sumZ in Hpos. simpl in Hpos. lia.
Qed.

Lemma certificate_shape :
  height <> 0 -> hdr_validators_hash (blk_header b) = compute_validators_hash vs sp ->
  root <> zero_hash -> mh <> zero_hash -> validate_canonical_shape c = Ok tt.
Proof using Hc Hlen Hm Hpend Hslot Hsp Hv2 Hwf.
  intros Hh Hvh Hroot Hmeta. pose proof (certified_nonempty _ _ _ Hc) as Hne.
  unfold validate_canonical_shape. simpl.
  rewrite (proj2 (Z.eqb_neq _ _)) by congruence.
  rewrite decide_False by (intros He; apply Hne, Permutation_nil_r; by rewrite <- He, sort_by_key_perm).
  rewrite !(proj2 (Z.eqb_neq _ _)) by done.
  rewrite decide_False by apply certificate_powers_nonempty.
  rewrite canonical_powers_keys. unfold ValidatorSet_sorted_validators.
  rewrite sorted_keys by done. simpl. rewrite Hvh. unfold compute_validators_hash.
  rewrite Z.eqb_refl. simpl. rewrite sorted_keys; [done|apply Hc].
Qed.

(** The stake behind the certificate, and its range. *)
Abbreviation W :=
  (sumZ (fun k => default 0 (ps_eligible_power snap !! k)) (map cs_validator (blk_commit_signatures b))).

Lemma certificate_stake_bound : W <= ps_total_eligible_stake snap.
Proof using Hc Hlen Hsp Hwf.
  pose proof (build_wf sp m vs Hsp Hwf ltac:(lia)) as Hswf.
  rewrite (swf_total _ Hswf). apply sumZ_subset; [|apply Hc|].
  - intros k _. by apply snapshot_weight_nonneg.
  - intros k (cs & -> & Hcs)%(list_elem_of_fmap_1 cs_validator).
    apply elem_of_snapshot_members. by apply Hc.
Qed.

Lemma certificate_power :
  foldl (certificate_signature_power chain_id (ps_eligible_power snap) c) 0 (ccc_signatures c) = W.
Proof using Hc Hlen Hslot Hsp Hv2 Hwf.
  pose proof (build_wf sp m vs Hsp Hwf ltac:(lia)) as Hswf.
  pose proof certificate_stake_bound. pose proof total_snapshot_bound.
  pose proof (cert_total _ _ _ _ _ _ Hc).
  rewrite certificate_power_fold; [|by apply (swf_nonneg _ Hswf)| |lia|];
    rewrite ?sorted_signers; [lia| |lia].
  intros cs Hcs. simpl in Hcs. rewrite elem_of_sort_by_key in Hcs.
  destruct (cert_valid _ _ _ _ _ _ Hc cs Hcs) as [_ Hv].
  unfold Precommit_verify_signature_with_chain_id. simpl. by rewrite Hslot.
Qed.

Lemma certificate_verifies :
  validate_canonical_shape c = Ok tt -> verify_parent b chain_id m c = Ok tt.
Proof using Hc Hlen Hm Hpend Hslot Hsp Hv2 Hwf.
  intros Hshape. pose proof (build_wf sp m vs Hsp Hwf ltac:(lia)) as Hswf.
  unfold verify_parent. rewrite Hshape. cbn [and_then ccc_height ccc_block_hash ccc_validators_hash certificate_of].
  rewrite !Z.eqb_refl. cbn [negb orb]. rewrite (eligible_powers_snapshot c eq_refl).
  assert (sumZ snd (map_to_list (ps_eligible_power snap)) = ps_total_eligible_stake snap) as ->.
  { rewrite (swf_total _ Hswf). symmetry. apply map_total_weight. }
  pose proof (cert_total _ _ _ _ _ _ Hc) as Hpos. pose proof (cert_power _ _ _ _ _ _ Hc) as Hpow.
  pose proof certificate_stake_bound. pose proof total_snapshot_bound.
  rewrite sumZ_omap in Hpow. rewrite (proj2 (Z.eqb_neq _ _)) by lia. rewrite certificate_power.
  unfold sat_mul128. rewrite !Z.min_l by lia. by rewrite (proj2 (Z.leb_le _ _)) by lia.
Qed.
End certified_block.

(** The certificate built from a certified block verifies against it. *)
Lemma certified_verify_parent b root mh :
  hdr_slot (blk_header b) = height -> height <> 0 ->
  hdr_validators_hash (blk_header b) = compute_validators_hash vs sp ->
  root <> zero_hash -> canonical_block_metadata_hash [] [] = Ok mh -> mh <> zero_hash ->
  certified snap height chain_id (blk_commit_round b) (Block_hash b) (blk_commit_signatures b) ->
  exists c, from_committed_block b powers root = Ok c /\ verify_parent b chain_id m c = Ok tt.
Proof.
  intros Hslot Hh Hvh Hroot Hmeta Hmh Hc. exists (certificate_of b root mh).
  pose proof (certificate_shape b root mh Hslot Hc Hh Hvh Hroot Hmh) as Hshape.
  split; [|by apply certificate_verifies].
  unfold from_committed_block. rewrite (proj2 (Z.eqb_neq _ _)) by congruence.
  rewrite decide_False by exact (certified_nonempty _ _ _ Hc).
  rewrite Hmeta. cbn [and_then]. fold (certificate_of b root mh). cbv zeta. by rewrite Hshape.
Qed.
End certificate.
