(* ===== verification/Wal.v ===== *)
(** * The consensus write-ahead log

    Models [validator/src/wal.rs]: the entries, the framing of the log file with
    lengths and checksums, the slashing-protection checks, checkpointing and
    recovery.  The bincode encoding of an entry is the class [WalCodec]; the
    file is its bytes, and an append takes what the file system did with it. *)

From S2P Require Import Prelude Crypto Block Votes.
From stdpp Require Import base tactics numbers list.
From Stdlib Require Import ZArith Lia.

Local Open Scope Z_scope.

Inductive SignedVoteType := SVPrevote | SVPrecommit.

#[global] Instance SignedVoteType_eq_dec : EqDecision SignedVoteType.
Proof. solve_decision. Defined.

Record SignedVoteRecord := mkSignedVoteRecord {
  sv_height : Z;
  sv_round : Z;
  sv_vote_type : SignedVoteType;
  sv_block_hash : option Hash;
  sv_validator : Pubkey;
  sv_signature : PqSignature;
  sv_timestamp : option Z;
}.

#[global] Instance SignedVoteRecord_eq_dec : EqDecision SignedVoteRecord.
Proof. solve_decision. Defined.

Inductive WalEntry :=
| HeightStarted (height : Z)
| Locked (height round : Z) (block_hash : Hash)
| CommitDecision (height round : Z) (block_hash : Hash)
| ProposalBlock (height round : Z) (block : Block)
| SignedVote (record : SignedVoteRecord)
| Checkpoint (height : Z).

#[global] Instance WalEntry_eq_dec : EqDecision WalEntry.
Proof. solve_decision. Defined.

(** [serialize_legacy_bincode_limited] and [deserialize_legacy_bincode_strict]
    with the limit [WAL_ENTRY_CODEC_LIMIT_BYTES]. *)
Definition WAL_ENTRY_CODEC_LIMIT_BYTES : Z := 32 * 1024 * 1024.

Class WalCodec := {
  wal_encode : WalEntry -> option bytes;
  wal_decode : bytes -> option WalEntry;
}.

(** A successful encoding is within the limit, consists of bytes and decodes. *)
Class WalCodecLaws (W : WalCodec) : Prop := {
  wal_roundtrip : forall e b, wal_encode e = Some b -> wal_decode b = Some e;
  wal_limit : forall e b, wal_encode e = Some b ->
    Z.of_nat (length b) <= WAL_ENTRY_CODEC_LIMIT_BYTES;
}.

Record ConsensusWal := mkConsensusWal {
  wal_file : bytes;
  wal_entries : list WalEntry;
}.

Inductive WalError :=
| WalSerialize
| WalOpenFailed
| WalWriteFailed
| WalConflictingProposal (height round : Z)
| WalConflictingVote (vote_type : SignedVoteType) (height round : Z)
    (existing new : option Hash).

(** What the file system does with an append: nothing fails, the open fails, or
    the write stops after some bytes. *)
Inductive AppendIo := AppendOk | AppendOpenFailed | AppendWriteFailed (written : nat).

Record WalRecovery := mkWalRecovery {
  wr_locked_state : option (Z * Z * Hash);
  wr_last_checkpoint : option Z;
  wr_last_height_started : option Z;
  wr_signed_votes : list SignedVoteRecord;
  wr_proposal_blocks : list (Z * Z * Block);
}.

Section wal.
Context `{Crypto, WalCodec}.

(** ** Framing *)

Definition wal_checksum (data : bytes) : bytes := take 4 (be_bytes 32 (sha256 data)).

Definition encode_entry_frame (entry : WalEntry) : result bytes WalError :=
  or_err (wal_encode entry) WalSerialize (fun encoded =>
  Ok (le_bytes 4 (Z.of_nat (length encoded)) ++ encoded ++ wal_checksum encoded)).

(** The [while cursor + 4 <= data.len()] loop on the rest of the data; every
    iteration consumes at least four bytes, so the length is enough fuel. *)
Fixpoint decode_entries_loop (fuel : nat) (data : bytes) : list WalEntry :=
  match fuel with
  | O => []
  | S fuel =>
      if (length data <? 4)%nat then []
      else
        let len := Z.to_nat (le_value (take 4 data)) in
        let rest := drop 4 data in
        if (length rest <? len + 4)%nat then []
        else
          let payload := take len rest in
          let stored_checksum := take 4 (drop len rest) in
          if negb (bool_decide (stored_checksum = wal_checksum payload)) then []
          else match wal_decode payload with
               | None => []
               | Some entry => entry :: decode_entries_loop fuel (drop (len + 4) rest)
               end
  end.

Definition decode_entries (data : bytes) : list WalEntry :=
  decode_entries_loop (length data) data.

Definition wal_open (file : bytes) : ConsensusWal := mkConsensusWal file (decode_entries file).

(** ** Appending *)

Definition append_result (io : AppendIo) (entry : WalEntry) (w : ConsensusWal)
  : result unit WalError * ConsensusWal :=
  match encode_entry_frame entry with
  | Err e => (Err e, w)
  | Ok frame =>
      match io with
      | AppendOpenFailed => (Err WalOpenFailed, w)
      | AppendWriteFailed written =>
          (Err WalWriteFailed, mkConsensusWal (wal_file w ++ take written frame) (wal_entries w))
      | AppendOk => (Ok tt, mkConsensusWal (wal_file w ++ frame) (wal_entries w ++ [entry]))
      end
  end.

Definition wal_append (io : AppendIo) (entry : WalEntry) (w : ConsensusWal) : ConsensusWal :=
  (append_result io entry w).2.

Definition log_height_start_result (io : AppendIo) (height : Z) (w : ConsensusWal)
  : result unit WalError * ConsensusWal := append_result io (HeightStarted height) w.

Definition log_lock_result (io : AppendIo) (height round : Z) (block_hash : Hash)
  (w : ConsensusWal) : result unit WalError * ConsensusWal :=
  append_result io (Locked height round block_hash) w.

Definition log_commit_decision (io : AppendIo) (height round : Z) (block_hash : Hash)
  (w : ConsensusWal) : ConsensusWal := wal_append io (CommitDecision height round block_hash) w.

(** The first proposal entry of the same height and round decides. *)
Fixpoint existing_proposal (height round : Z) (entries : list WalEntry) : option Block :=
  match entries with
  | [] => None
  | ProposalBlock h r b :: entries =>
      if (h =? height) && (r =? round) then Some b else existing_proposal height round entries
  | _ :: entries => existing_proposal height round entries
  end.

Definition log_proposal_block_result (io : AppendIo) (height round : Z) (block : Block)
  (w : ConsensusWal) : result unit WalError * ConsensusWal :=
  match existing_proposal height round (wal_entries w) with
  | Some existing_block =>
      if Block_hash existing_block =? Block_hash block then (Ok tt, w)
      else (Err (WalConflictingProposal height round), w)
  | None => append_result io (ProposalBlock height round block) w
  end.

Definition has_proposal_block (w : ConsensusWal) (height : Z) (block_hash : Hash) : bool :=
  existsb (fun entry => match entry with
                        | ProposalBlock h _ b => (h =? height) && (Block_hash b =? block_hash)
                        | _ => false
                        end) (wal_entries w).

(** ** Slashing protection *)

Definition same_vote_slot (a b : SignedVoteRecord) : bool :=
  (sv_height a =? sv_height b) && (sv_round a =? sv_round b)
  && bool_decide (sv_vote_type a = sv_vote_type b) && (sv_validator a =? sv_validator b).

Fixpoint existing_vote (record : SignedVoteRecord) (entries : list WalEntry)
  : option SignedVoteRecord :=
  match entries with
  | [] => None
  | SignedVote existing :: entries =>
      if same_vote_slot existing record then Some existing else existing_vote record entries
  | _ :: entries => existing_vote record entries
  end.

Definition ensure_no_conflicting_signed_vote (w : ConsensusWal) (record : SignedVoteRecord)
  : result unit WalError :=
  match existing_vote record (wal_entries w) with
  | None => Ok tt
  | Some existing =>
      if bool_decide (sv_block_hash existing = sv_block_hash record)
         && bool_decide (sv_timestamp existing = sv_timestamp record)
      then Ok tt
      else Err (WalConflictingVote (sv_vote_type record) (sv_height record) (sv_round record)
                  (sv_block_hash existing) (sv_block_hash record))
  end.

Definition log_signed_vote (io : AppendIo) (record : SignedVoteRecord) (w : ConsensusWal)
  : result unit WalError * ConsensusWal :=
  match ensure_no_conflicting_signed_vote w record with
  | Err e => (Err e, w)
  | Ok _ => append_result io (SignedVote record) w
  end.

Definition prevote_record (v : Prevote) : SignedVoteRecord :=
  mkSignedVoteRecord (pv_height v) (pv_round v) SVPrevote (pv_block_hash v) (pv_validator v)
    (pv_signature v) None.

Definition precommit_record (v : Precommit) : SignedVoteRecord :=
  mkSignedVoteRecord (pc_height v) (pc_round v) SVPrecommit (pc_block_hash v) (pc_validator v)
    (pc_signature v) (Some (pc_timestamp v)).

Definition log_signed_prevote (io : AppendIo) (prevote : Prevote) (w : ConsensusWal)
  : result unit WalError * ConsensusWal := log_signed_vote io (prevote_record prevote) w.

Definition log_signed_precommit (io : AppendIo) (precommit : Precommit) (w : ConsensusWal)
  : result unit WalError * ConsensusWal := log_signed_vote io (precommit_record precommit) w.

(** ** Checkpoints

    The new file is written beside the log and renamed over it, so a failure
    before the rename leaves the log as it was; [renamed] says whether the
    rename happened and [synced] whether the directory sync after it did. *)
Definition checkpoint_result (renamed synced : bool) (height : Z) (w : ConsensusWal)
  : result unit WalError * ConsensusWal :=
  let entry := Checkpoint height in
  match encode_entry_frame entry with
  | Err e => (Err e, w)
  | Ok frame =>
      if negb renamed then (Err WalWriteFailed, w)
      else if negb synced then (Err WalWriteFailed, mkConsensusWal frame (wal_entries w))
      else (Ok tt, mkConsensusWal frame [entry])
  end.
End wal.

(** ** Recovery *)

Definition above_checkpoint (last_checkpoint : option Z) (height : Z) : bool :=
  match last_checkpoint with None => true | Some cp => cp <? height end.

Definition recover_step (acc : WalRecovery) (entry : WalEntry) : WalRecovery :=
  match entry with
  | HeightStarted height =>
      mkWalRecovery (wr_locked_state acc) (wr_last_checkpoint acc) (Some height)
        (wr_signed_votes acc) (wr_proposal_blocks acc)
  | Locked height round block_hash =>
      if above_checkpoint (wr_last_checkpoint acc) height then
        mkWalRecovery (Some (height, round, block_hash)) (wr_last_checkpoint acc)
          (wr_last_height_started acc) (wr_signed_votes acc) (wr_proposal_blocks acc)
      else acc
  | CommitDecision _ _ _ => acc
  | ProposalBlock height round block =>
      if above_checkpoint (wr_last_checkpoint acc) height then
        mkWalRecovery (wr_locked_state acc) (wr_last_checkpoint acc) (wr_last_height_started acc)
          (wr_signed_votes acc) (wr_proposal_blocks acc ++ [(height, round, block)])
      else acc
  | SignedVote record =>
      if above_checkpoint (wr_last_checkpoint acc) (sv_height record) then
        let lock :=
          match sv_vote_type record, sv_block_hash record with
          | SVPrecommit, Some block_hash =>
              let replace_lock :=
                match wr_locked_state acc with
                | Some (h, r, _) =>
                    (h <? sv_height record) || ((sv_height record =? h) && (r <=? sv_round record))
                | None => true
                end in
              if replace_lock then Some (sv_height record, sv_round record, block_hash)
              else wr_locked_state acc
          | _, _ => wr_locked_state acc
          end in
        mkWalRecovery lock (wr_last_checkpoint acc) (wr_last_height_started acc)
          (wr_signed_votes acc ++ [record]) (wr_proposal_blocks acc)
      else acc
  | Checkpoint height =>
      let lock :=
        match wr_locked_state acc with
        | Some (lock_h, r, h) => if lock_h <=? height then None else Some (lock_h, r, h)
        | None => None
        end in
      mkWalRecovery lock (Some height) (wr_last_height_started acc)
        (filter (fun record => height < sv_height record) (wr_signed_votes acc))
        (filter (fun p => height < p.1.1) (wr_proposal_blocks acc))
  end.

Definition empty_recovery : WalRecovery := mkWalRecovery None None None [] [].

Definition recover (w : ConsensusWal) : WalRecovery :=
  foldl recover_step empty_recovery (wal_entries w).

Definition max_recovered_round_for_height (rec : WalRecovery) (height : Z) (validator : Pubkey)
  : option Z :=
  let start :=
    match wr_locked_state rec with
    | Some (lock_height, round, _) => if lock_height =? height then Some round else None
    | None => None
    end in
  foldl (fun max_round record =>
           if (sv_height record =? height) && (sv_validator record =? validator)
           then Some (match max_round with
                      | None => sv_round record
                      | Some current => Z.max current (sv_round record)
                      end)
           else max_round) start (wr_signed_votes rec).

(** ** Lemmas on the framing *)

Section framing.
Context `{CL : CryptoLaws, WL : WalCodecLaws}.

Lemma wal_checksum_length d : length (wal_checksum d) = 4%nat.
Proof. unfold wal_checksum. rewrite length_take. blen. Qed.

#[local] Hint Rewrite wal_checksum_length : blen.

Lemma encode_entry_frame_Ok e f :
  encode_entry_frame e = Ok f ->
  exists b, wal_encode e = Some b
    /\ f = le_bytes 4 (Z.of_nat (length b)) ++ b ++ wal_checksum b
    /\ Z.to_nat (le_value (le_bytes 4 (Z.of_nat (length b)))) = length b.
Proof.
  unfold encode_entry_frame, or_err. destruct (wal_encode e) as [b|] eqn:Hb; [|done].
  intros [= <-]. exists b. split_and!; [done..|].
  rewrite le_value_le_bytes. pose proof (wal_limit e b Hb) as Hl.
  unfold WAL_ENTRY_CODEC_LIMIT_BYTES in Hl. rewrite Z.mod_small; [by rewrite Nat2Z.id|].
  change (256 ^ Z.of_nat 4) with 4294967296. lia.
Qed.

Lemma frame_length e f : encode_entry_frame e = Ok f -> (8 <= length f)%nat.
Proof.
  intros (b & _ & -> & _)%encode_entry_frame_Ok.
  blen.
Qed.

(** One frame is read back and the loop goes on after it. *)
Lemma decode_frame fuel e f rest :
  encode_entry_frame e = Ok f ->
  decode_entries_loop (S fuel) (f ++ rest) = e :: decode_entries_loop fuel rest.
Proof.
  intros (b & Hb & -> & Hlen)%encode_entry_frame_Ok. cbn [decode_entries_loop].
  rewrite <- !app_assoc.
  rewrite take_app_length' by blen.
  rewrite drop_app_length' by blen.
  rewrite Hlen.
  rewrite (proj2 (Nat.ltb_ge _ _)) by blen.
  rewrite (proj2 (Nat.ltb_ge _ _)) by blen.
  rewrite take_app_length, drop_app_length.
  rewrite take_app_length' by by rewrite wal_checksum_length.
  rewrite bool_decide_eq_true_2 by done. cbn [negb]. rewrite (wal_roundtrip e b Hb).
  f_equal. f_equal. rewrite app_assoc, drop_app_length'; [done|].
  blen.
Qed.

Inductive frames : list WalEntry -> bytes -> Prop :=
| frames_nil : frames [] []
| frames_cons e es f d : encode_entry_frame e = Ok f -> frames es d -> frames (e :: es) (f ++ d).

Lemma frames_snoc es d e f : frames es d -> encode_entry_frame e = Ok f -> frames (es ++ [e]) (d ++ f).
Proof.
  intros Hd Hf. induction Hd as [|e' es f' d Hf' _ IH]; simpl.
  - rewrite <- (app_nil_r f). by repeat constructor.
  - rewrite <- app_assoc. by constructor.
Qed.

Lemma decode_frames es d rest fuel :
  frames es d -> (length d + length rest <= fuel)%nat ->
  exists fuel', (length rest <= fuel')%nat
    /\ decode_entries_loop fuel (d ++ rest) = es ++ decode_entries_loop fuel' rest.
Proof.
  intros Hd. revert fuel. induction Hd as [|e es f d Hf _ IH]; intros fuel Hfuel.
  { by exists fuel. }
  pose proof (frame_length e f Hf). rewrite length_app in Hfuel.
  destruct fuel as [|fuel]; [lia|]. destruct (IH fuel) as (fuel' & Hle & Heq); [lia|].
  exists fuel'. split; [done|]. rewrite <- app_assoc, (decode_frame fuel e f) by done.
  by rewrite Heq.
Qed.

Lemma decode_loop_nil fuel : decode_entries_loop fuel [] = [].
Proof. by destruct fuel. Qed.

(** A log of complete frames decodes to its entries. *)
Lemma decode_entries_frames es d : frames es d -> decode_entries d = es.
Proof.
  intros Hd. destruct (decode_frames es d [] (length d) Hd) as (fuel & _ & Heq); [simpl; lia|].
  unfold decode_entries. rewrite app_nil_r in Heq. by rewrite Heq, decode_loop_nil, app_nil_r.
Qed.

(** Data that starts like a frame but is shorter decodes to nothing. *)
Lemma decode_short fuel e f (n : nat) rest :
  encode_entry_frame e = Ok f -> (4 <= n)%nat -> (n + length rest < length f)%nat ->
  decode_entries_loop fuel (take n f ++ rest) = [].
Proof.
  intros (b & Hb & -> & Hlen)%encode_entry_frame_Ok Hn Hlt. destruct fuel as [|fuel]; [done|].
  rewrite !length_app, le_bytes_length, wal_checksum_length in Hlt.
  cbn [decode_entries_loop]. destruct (Nat.ltb_spec (length (take n (le_bytes 4 (Z.of_nat (length b)) ++ b ++ wal_checksum b) ++ rest)) 4) as [|Hge]; [done|].
  assert (forall l : bytes, (4 <= n)%nat -> take 4 (take n (le_bytes 4 (Z.of_nat (length b)) ++ l) ++ rest)
            = le_bytes 4 (Z.of_nat (length b))) as ->.
  { intros l Hn'. rewrite take_app_le.
    - rewrite take_take, Nat.min_l by lia. apply take_app_length'. blen.
    - rewrite length_take, length_app, le_bytes_length. lia. }
  2: done. rewrite Hlen.
  rewrite (proj2 (Nat.ltb_lt _ _)); [done|].
  rewrite length_drop, length_app, length_take, !length_app, le_bytes_length, wal_checksum_length.
  lia.
Qed.

Lemma decode_tiny fuel (d : bytes) : (length d < 4)%nat -> decode_entries_loop fuel d = [].
Proof.
  intros Hd. destruct fuel; [done|]. cbn [decode_entries_loop].
  by rewrite (proj2 (Nat.ltb_lt _ _)).
Qed.

(** A torn last frame is ignored. *)
Lemma decode_entries_torn es d e f n :
  frames es d -> encode_entry_frame e = Ok f -> (n < length f)%nat ->
  decode_entries (d ++ take n f) = es.
Proof.
  intros Hd Hf Hn. unfold decode_entries.
  destruct (decode_frames es d (take n f) (length (d ++ take n f)) Hd) as (fuel & _ & ->);
    [rewrite !length_app; lia|].
  destruct (Nat.lt_ge_cases n 4) as [Hlt|Hge].
  - rewrite decode_tiny; [by rewrite app_nil_r|]. rewrite length_take. lia.
  - rewrite <- (app_nil_r (take n f)).
    rewrite (decode_short fuel e f n []); [by rewrite app_nil_r|done|done|simpl; lia].
Qed.

(** What is appended behind a torn frame is lost while it fits in the frame. *)
Lemma decode_entries_behind_torn es d e f n rest :
  frames es d -> encode_entry_frame e = Ok f -> (4 <= n)%nat ->
  (n + length rest < length f)%nat ->
  decode_entries (d ++ take n f ++ rest) = es.
Proof.
  intros Hd Hf Hn Hlt. unfold decode_entries.
  destruct (decode_frames es d (take n f ++ rest) (length (d ++ take n f ++ rest)) Hd)
    as (fuel & _ & ->); [rewrite !length_app; lia|].
  rewrite (decode_short fuel e f n rest) by done. by rewrite app_nil_r.
Qed.
End framing.

(** ** Lemmas on slashing protection *)

(** No two votes for one slot differ in value or time. *)
Definition no_conflicting_votes (entries : list WalEntry) : Prop :=
  forall a b, SignedVote a ∈ entries -> SignedVote b ∈ entries -> same_vote_slot a b = true ->
    sv_block_hash a = sv_block_hash b /\ sv_timestamp a = sv_timestamp b.

Lemma same_vote_slot_iff a b :
  same_vote_slot a b = true <->
  sv_height a = sv_height b /\ sv_round a = sv_round b /\ sv_vote_type a = sv_vote_type b
  /\ sv_validator a = sv_validator b.
Proof.
  unfold same_vote_slot. rewrite !andb_true_iff, !Z.eqb_eq, bool_decide_eq_true. tauto.
Qed.

Lemma existing_vote_Some r entries x :
  existing_vote r entries = Some x -> SignedVote x ∈ entries /\ same_vote_slot x r = true.
Proof.
  induction entries as [|[] entries IH]; simpl; try done;
    try (intros [? ?]%IH; split; [by right|done]).
  destruct (same_vote_slot record r) eqn:Hs.
  - intros [= ->]. split; [left|done].
  - intros [? ?]%IH. split; [by right|done].
Qed.

Lemma existing_vote_None r entries :
  existing_vote r entries = None -> forall x, SignedVote x ∈ entries -> same_vote_slot x r = false.
Proof.
  induction entries as [|e entries IH]; intros Hn x Hx; [by apply not_elem_of_nil in Hx|].
  apply elem_of_cons in Hx as [<-|Hx].
  - simpl in Hn. by destruct (same_vote_slot x r).
  - apply IH; [|done]. destruct e as [| | | |record|]; simpl in Hn; try done.
    by destruct (same_vote_slot record r).
Qed.

Section protection.
Context `{Crypto, WalCodec}.

Lemma append_result_Ok io e w u w' :
  append_result io e w = (Ok u, w') ->
  exists f, encode_entry_frame e = Ok f
    /\ w' = mkConsensusWal (wal_file w ++ f) (wal_entries w ++ [e]).
Proof.
  unfold append_result. destruct (encode_entry_frame e) as [f|]; [|done].
  destruct io; try done. intros [= _ <-]. by exists f.
Qed.

Lemma append_result_entries io e w :
  wal_entries (append_result io e w).2 = wal_entries w
  \/ wal_entries (append_result io e w).2 = wal_entries w ++ [e].
Proof. unfold append_result. repeat case_match; simpl; auto. Qed.

Lemma no_conflict_snoc_other entries e :
  (forall r, e <> SignedVote r) -> no_conflicting_votes entries ->
  no_conflicting_votes (entries ++ [e]).
Proof.
  intros He Hn a b Ha Hb. apply elem_of_app in Ha, Hb.
  rewrite list_elem_of_singleton in Ha, Hb.
  destruct Ha as [Ha|Ha]; [|by destruct (He a)]. destruct Hb as [Hb|Hb]; [|by destruct (He b)].
  by apply Hn.
Qed.

Lemma log_signed_vote_no_conflict io r w :
  no_conflicting_votes (wal_entries w) ->
  no_conflicting_votes (wal_entries (log_signed_vote io r w).2).
Proof.
  intros Hn. unfold log_signed_vote.
  destruct (ensure_no_conflicting_signed_vote w r) as [u|e] eqn:He; [|done].
  destruct (append_result_entries io (SignedVote r) w) as [->| ->]; [done|].
  assert (forall x, SignedVote x ∈ wal_entries w -> same_vote_slot x r = true ->
            sv_block_hash x = sv_block_hash r /\ sv_timestamp x = sv_timestamp r) as Hr.
  { intros x Hx Hs. unfold ensure_no_conflicting_signed_vote in He.
    destruct (existing_vote r (wal_entries w)) as [y|] eqn:Hy.
    - apply existing_vote_Some in Hy as [Hyin Hys].
      destruct (bool_decide (sv_block_hash y = sv_block_hash r)) eqn:H1; [|done].
      destruct (bool_decide (sv_timestamp y = sv_timestamp r)) eqn:H2; [|done].
      apply bool_decide_eq_true in H1, H2. rewrite <- H1, <- H2. apply Hn; [done|done|].
      rewrite same_vote_slot_iff in *. destruct_and!. split_and!; congruence.
    - by rewrite (existing_vote_None r _ Hy x Hx) in Hs. }
  intros a b Ha Hb Hs. apply elem_of_app in Ha, Hb. rewrite list_elem_of_singleton in Ha, Hb.
  destruct Ha as [Ha|[= ->]], Hb as [Hb|[= ->]]; [by apply Hn|by apply Hr| |done].
  destruct (Hr b Hb) as [-> ->]; [|done]. rewrite same_vote_slot_iff in *. naive_solver.
Qed.
End protection.

(** ** Lemmas on recovery *)

Section recovery.
Implicit Types acc : WalRecovery.

Lemma recover_votes_sound es acc r :
  r ∈ wr_signed_votes (foldl recover_step acc es) ->
  r ∈ wr_signed_votes acc \/ SignedVote r ∈ es.
Proof.
  revert acc. induction es as [|e es IH]; intros acc Hr; [by left|].
  destruct (IH _ Hr) as [Hin|Hin]; [|right; by right].
  destruct e as [| | | |rec|]; simpl in Hin; try case_match; simpl in Hin; auto.
  - apply elem_of_app in Hin as [|Heq]; [by left|]. apply list_elem_of_singleton in Heq as ->. right; left.
  - left. by apply list_elem_of_filter in Hin as [_ ?].
Qed.

(** A vote above every checkpoint of the log is recovered. *)
Lemma recover_votes_complete es acc r :
  (forall c, Checkpoint c ∈ es -> c < sv_height r) ->
  above_checkpoint (wr_last_checkpoint acc) (sv_height r) = true ->
  r ∈ wr_signed_votes acc \/ SignedVote r ∈ es ->
  r ∈ wr_signed_votes (foldl recover_step acc es).
Proof.
  revert acc. induction es as [|e es IH]; intros acc Hc Ha Hr.
  { destruct Hr as [|Hr]; [done|]. by apply not_elem_of_nil in Hr. }
  simpl. assert (forall c, Checkpoint c ∈ es -> c < sv_height r) as Hc'
    by (intros c ?; apply Hc; by right).
  apply IH; [done|..].
  - destruct e; simpl; try done; try case_match; try done.
    simpl. apply Z.ltb_lt, Hc. left.
  - destruct Hr as [Hr|[He|Hr]%elem_of_cons]; [| |by right]; left.
    + destruct e as [| | | |rec|c]; simpl; try case_match; simpl; try done.
      * apply elem_of_app. by left.
      * apply list_elem_of_filter. split; [|done]. apply Hc. left.
    + subst e. simpl. rewrite Ha. simpl. apply elem_of_app. right. by apply list_elem_of_singleton.
Qed.

(** [(h, r)] in the order of heights, then rounds. *)
Definition lock_at_least (lock : option (Z * Z * Hash)) (h r : Z) : Prop :=
  exists h' r' x, lock = Some (h', r', x) /\ (h < h' \/ (h = h' /\ r <= r')).

Lemma recover_lock_keeps es acc h r :
  (forall c, Checkpoint c ∈ es -> c < h) ->
  (forall h' r' x, Locked h' r' x ∈ es -> h < h' \/ (h = h' /\ r <= r')) ->
  lock_at_least (wr_locked_state acc) h r ->
  lock_at_least (wr_locked_state (foldl recover_step acc es)) h r.
Proof.
  revert acc. induction es as [|e es IH]; intros acc Hc Hl Hlock; [done|]. simpl.
  apply IH; [intros; apply Hc; by right|intros; eapply Hl; by right|].
  destruct Hlock as (h1 & r1 & x1 & Heq & Hge). unfold lock_at_least.
  destruct e as [|h' r' x'| | |rec|c]; simpl; try (by exists h1, r1, x1).
  - case_match; simpl; [|by exists h1, r1, x1]. exists h', r', x'. split; [done|].
    apply (Hl h' r' x'). left.
  - case_match; by exists h1, r1, x1.
  - case_match; simpl; [|by exists h1, r1, x1]. rewrite Heq.
    destruct (sv_vote_type rec); [by exists h1, r1, x1|].
    destruct (sv_block_hash rec) as [x|]; [|by exists h1, r1, x1].
    destruct ((h1 <? sv_height rec) || ((sv_height rec =? h1) && (r1 <=? sv_round rec))) eqn:Hrep;
      [|by exists h1, r1, x1].
    exists (sv_height rec), (sv_round rec), x. split; [done|]. lia.
  - rewrite Heq. assert (c < h) by (apply Hc; left).
    rewrite (proj2 (Z.leb_gt _ _)) by lia. by exists h1, r1, x1.
Qed.

(** A non-nil precommit above the checkpoints comes back as a lock at least as
    recent. *)
Lemma recover_precommit_lock es acc rec x :
  sv_vote_type rec = SVPrecommit -> sv_block_hash rec = Some x ->
  (forall c, Checkpoint c ∈ es -> c < sv_height rec) ->
  (forall h' r' y, Locked h' r' y ∈ es ->
     sv_height rec < h' \/ (sv_height rec = h' /\ sv_round rec <= r')) ->
  above_checkpoint (wr_last_checkpoint acc) (sv_height rec) = true ->
  SignedVote rec ∈ es ->
  lock_at_least (wr_locked_state (foldl recover_step acc es)) (sv_height rec) (sv_round rec).
Proof.
  intros Ht Hx. revert acc. induction es as [|e es IH]; intros acc Hc Hl Ha Hin;
    [by apply not_elem_of_nil in Hin|]. simpl.
  assert (forall c, Checkpoint c ∈ es -> c < sv_height rec) as Hc'
    by (intros c ?; apply Hc; by right).
  assert (forall h' r' y, Locked h' r' y ∈ es ->
     sv_height rec < h' \/ (sv_height rec = h' /\ sv_round rec <= r')) as Hl'
    by (intros; eapply Hl; by right).
  apply elem_of_cons in Hin as [<-|Hin].
  - apply recover_lock_keeps; [done|done|]. simpl. rewrite Ha, Ht, Hx. simpl.
    destruct (wr_locked_state acc) as [[[h1 r1] x1]|].
    + destruct ((h1 <? sv_height rec) || ((sv_height rec =? h1) && (r1 <=? sv_round rec))) eqn:Hrep.
      * eexists _, _, _. split; [done|]. lia.
      * eexists _, _, _. split; [done|]. lia.
    + eexists _, _, _. split; [done|]. lia.
  - apply IH; [done|done| |done].
    destruct e; simpl; try done; try case_match; try done. simpl. apply Z.ltb_lt, Hc. left.
Qed.

(** The resumed round is above every recovered vote of the validator. *)
Lemma max_recovered_round_bound rec height validator r :
  r ∈ wr_signed_votes rec -> sv_height r = height -> sv_validator r = validator ->
  exists m, max_recovered_round_for_height rec height validator = Some m /\ sv_round r <= m.
Proof.
  intros Hr Hh Hv. unfold max_recovered_round_for_height.
  generalize (match wr_locked_state rec with
              | Some (lh, round, _) => if lh =? height then Some round else None
              | None => None end).
  set (step := fun max_round record => _).
  assert (forall l o m, o = Some m -> exists m', foldl step o l = Some m' /\ m <= m') as Hmono.
  { induction l as [|y l IH]; intros o m Ho; [exists m; split; [done|lia]|].
    simpl. destruct (IH (step o y) (match step o y with Some z => z | None => 0 end)) as (m' & Hm' & Hle).
    - subst o. unfold step. by case_match.
    - exists m'. split; [done|]. subst o. unfold step in Hle. destruct ((sv_height y =? height) && (sv_validator y =? validator)); lia. }
  induction (wr_signed_votes rec) as [|y l IH]; intros o; [by apply not_elem_of_nil in Hr|].
  simpl. apply elem_of_cons in Hr as [<-|Hr]; [|by apply IH].
  destruct (Hmono l (step o r) (match o with None => sv_round r | Some c => Z.max c (sv_round r) end))
    as (m & Hm & Hle).
  - unfold step. by rewrite Hh, Hv, !Z.eqb_refl.
  - exists m. split; [done|]. destruct o; lia.
Qed.
End recovery.

(** ** Runs of the log *)

Inductive WalOp :=
| OpHeightStart (height : Z)
| OpLock (height round : Z) (block_hash : Hash)
| OpCommitDecision (height round : Z) (block_hash : Hash)
| OpProposalBlock (height round : Z) (block : Block)
| OpSignedPrevote (v : Prevote)
| OpSignedPrecommit (v : Precommit)
| OpCheckpoint (renamed synced : bool) (height : Z).

Section wal_runs.
Context `{Crypto, WalCodec}.

Definition wal_step (io : AppendIo) (op : WalOp) (w : ConsensusWal) : ConsensusWal :=
  match op with
  | OpHeightStart h => (log_height_start_result io h w).2
  | OpLock h r x => (log_lock_result io h r x w).2
  | OpCommitDecision h r x => log_commit_decision io h r x w
  | OpProposalBlock h r b => (log_proposal_block_result io h r b w).2
  | OpSignedPrevote v => (log_signed_prevote io v w).2
  | OpSignedPrecommit v => (log_signed_precommit io v w).2
  | OpCheckpoint renamed synced h => (checkpoint_result renamed synced h w).2
  end.

Definition wal_steps (l : list (AppendIo * WalOp)) (w : ConsensusWal) : ConsensusWal :=
  foldl (fun w '(io, op) => wal_step io op w) w l.

(** No write was cut short and every checkpoint that reached the disk was
    synced. *)
Definition io_intact (s : AppendIo * WalOp) : Prop :=
  (forall n, s.1 <> AppendWriteFailed n)
  /\ match s.2 with OpCheckpoint renamed synced _ => renamed = synced | _ => True end.

Lemma wal_step_no_conflict io op w :
  no_conflicting_votes (wal_entries w) -> no_conflicting_votes (wal_entries (wal_step io op w)).
Proof.
  intros Hn.
  assert (forall e, (forall r, e <> SignedVote r) ->
    no_conflicting_votes (wal_entries (append_result io e w).2)) as Ha.
  { intros e He. destruct (append_result_entries io e w) as [->| ->]; [done|].
    by apply no_conflict_snoc_other. }
  destruct op; simpl; try (by apply Ha); try (by apply log_signed_vote_no_conflict).
  - unfold log_proposal_block_result. repeat case_match; simpl; try done. by apply Ha.
  - unfold checkpoint_result. repeat case_match; simpl; try done.
    intros x y Hx. by apply list_elem_of_singleton in Hx.
Qed.

(** Framed files stay framed under intact input and output. *)
Lemma wal_step_frames io op w :
  io_intact (io, op) -> frames (wal_entries w) (wal_file w) ->
  frames (wal_entries (wal_step io op w)) (wal_file (wal_step io op w)).
Proof.
  intros [Hio Hck] Hf. simpl in Hio.
  assert (forall e, frames (wal_entries (append_result io e w).2) (wal_file (append_result io e w).2)) as Ha.
  { intros e. unfold append_result. destruct (encode_entry_frame e) as [f|] eqn:He; [|done].
    destruct io; simpl; [by apply frames_snoc|done|by destruct (Hio written)]. }
  destruct op; simpl in *; try apply Ha.
  - unfold log_proposal_block_result. repeat case_match; simpl; try done; apply Ha.
  - unfold log_signed_prevote, log_signed_vote. case_match; simpl; [apply Ha|done].
  - unfold log_signed_precommit, log_signed_vote. case_match; simpl; [apply Ha|done].
  - subst. unfold checkpoint_result.
    destruct (encode_entry_frame _) as [f|] eqn:He; [|done]. destruct synced; simpl; [|done].
    rewrite <- (app_nil_r f). by repeat constructor.
Qed.

Lemma wal_steps_no_conflict l w :
  no_conflicting_votes (wal_entries w) -> no_conflicting_votes (wal_entries (wal_steps l w)).
Proof.
  revert w. induction l as [|[io op] l IH]; intros w Hn; simpl; [done|].
  by apply IH, wal_step_no_conflict.
Qed.

Lemma wal_steps_frames l w :
  Forall io_intact l -> frames (wal_entries w) (wal_file w) ->
  frames (wal_entries (wal_steps l w)) (wal_file (wal_steps l w)).
Proof.
  intros Hl. revert w. induction Hl as [|[io op] l Hio _ IH]; intros w Hf; simpl; [done|].
  by apply IH, wal_step_frames.
Qed.
End wal_runs.

Section wal_theorems.
Context `{CL : CryptoLaws, WL : WalCodecLaws}.
Abbreviation fresh := (wal_open []).

(** C28.  Crash recovery: after any sequence of operations on a new log whose
    writes complete, reopening the file yields exactly the entries held in
    memory; a crash that cuts the next append short at any byte loses that
    entry and nothing else. *)
Theorem wal_reopen l entry frame n :
  Forall io_intact l -> encode_entry_frame entry = Ok frame -> (n < length frame)%nat ->
  let w := wal_steps l fresh in
  wal_open (wal_file w) = w
  /\ wal_entries (wal_open (wal_file (wal_append (AppendWriteFailed n) entry w))) = wal_entries w
  /\ wal_entries (wal_open (wal_file (wal_append AppendOk entry w))) = wal_entries w ++ [entry].
Proof using CL WL.
  intros Hl He Hn w.
  assert (frames (wal_entries w) (wal_file w)) as Hf by (apply wal_steps_frames; [done|constructor]).
  clearbody w. destruct w as [file entries]. simpl in *.
  unfold wal_append, append_result, wal_open. rewrite He. simpl.
  rewrite (decode_entries_frames entries file Hf), (decode_entries_torn entries file entry frame n) by done.
  rewrite (decode_entries_frames (entries ++ [entry])); [done|]. by apply frames_snoc.
Qed.

(** Slashing protection: whatever operations are attempted and however
    their input and output fails, the log never holds two signed votes of one
    validator for the same height, round and kind with different block hashes
    or timestamps; a successful [log_signed_prevote] or [log_signed_precommit]
    therefore never authorises a conflicting signature while the first record
    is in the log. *)
Theorem wal_never_holds_conflict l a b :
  let w := wal_steps l fresh in
  SignedVote a ∈ wal_entries w -> SignedVote b ∈ wal_entries w ->
  sv_height a = sv_height b -> sv_round a = sv_round b -> sv_vote_type a = sv_vote_type b ->
  sv_validator a = sv_validator b ->
  sv_block_hash a = sv_block_hash b /\ sv_timestamp a = sv_timestamp b.
Proof using.
  intros w Ha Hb Hh Hr Ht Hv.
  assert (no_conflicting_votes (wal_entries w)) as Hn.
  { apply wal_steps_no_conflict. intros x y Hx. by apply not_elem_of_nil in Hx. }
  apply Hn; [done|done|]. by rewrite same_vote_slot_iff.
Qed.

(** Recovery keeps the slashing-protection state: a signed vote that is
    in the log of a completed run, above every checkpoint, is among the
    recovered votes; and a precommit for a block comes back as a lock of at
    least its height and round, when the explicit lock records are not older
    than it. *)
Theorem wal_recovers_votes l record :
  Forall io_intact l ->
  let w := wal_steps l fresh in
  SignedVote record ∈ wal_entries w ->
  (forall c, Checkpoint c ∈ wal_entries w -> c < sv_height record) ->
  record ∈ wr_signed_votes (recover (wal_open (wal_file w)))
  /\ (forall x, sv_vote_type record = SVPrecommit -> sv_block_hash record = Some x ->
       (forall h r y, Locked h r y ∈ wal_entries w ->
          sv_height record < h \/ (sv_height record = h /\ sv_round record <= r)) ->
       lock_at_least (wr_locked_state (recover (wal_open (wal_file w))))
         (sv_height record) (sv_round record)).
Proof using CL WL.
  intros Hl w Hin Hc.
  assert (frames (wal_entries w) (wal_file w)) as Hf by (apply wal_steps_frames; [done|constructor]).
  clearbody w. unfold recover, wal_open. cbn [wal_entries]. rewrite (decode_entries_frames _ _ Hf).
  split; [apply recover_votes_complete; auto|].
  intros x Ht Hx Hlk. by eapply recover_precommit_lock.
Qed.

(** C29.  An append that is cut short is not repaired by reopening the log:
    a vote recorded successfully afterwards is behind the torn frame, and the
    next reopening does not find it. *)
Theorem wal_torn_tail_hides_votes l entry frame n record vote_frame :
  Forall io_intact l -> encode_entry_frame entry = Ok frame -> (4 <= n)%nat ->
  encode_entry_frame (SignedVote record) = Ok vote_frame ->
  (n + length vote_frame < length frame)%nat ->
  let torn := wal_append (AppendWriteFailed n) entry (wal_steps l fresh) in
  let reopened := wal_open (wal_file torn) in
  ensure_no_conflicting_signed_vote reopened record = Ok tt ->
  (log_signed_vote AppendOk record reopened).1 = Ok tt
  /\ SignedVote record ∈ wal_entries (log_signed_vote AppendOk record reopened).2
  /\ wal_entries (wal_open (wal_file (log_signed_vote AppendOk record reopened).2))
     = wal_entries (wal_steps l fresh).
Proof using CL WL.
  intros Hl He Hn Hv Hlen torn reopened Hok.
  assert (frames (wal_entries (wal_steps l fresh)) (wal_file (wal_steps l fresh))) as Hf
    by (apply wal_steps_frames; [done|constructor]).
  unfold log_signed_vote. rewrite Hok. unfold append_result. rewrite Hv. cbn [fst snd wal_entries wal_file].
  split; [done|]. split; [apply elem_of_app; right; by apply list_elem_of_singleton|].
  assert (wal_file reopened = wal_file (wal_steps l fresh) ++ take n frame) as ->.
  { unfold reopened, torn, wal_append, append_result. by rewrite He. }
  unfold wal_open. cbn [wal_entries]. rewrite <- app_assoc.
  by apply (decode_entries_behind_torn _ _ entry frame n).
Qed.
End wal_theorems.

(** ** A concrete log *)

Module ToyWal.
#[export] Existing Instance Toy.crypto.
#[export] Existing Instance Toy.crypto_laws.

Definition vote : Precommit :=
  mkPrecommit 7 0 (Some 5) 3 (mkPqSignature 1 (mkPqPublicKey 1 []) []) 9.
Definition record : SignedVoteRecord := precommit_record vote.

(** A codec for three entries. *)
Definition table : list (WalEntry * bytes) :=
  [(HeightStarted 7, replicate 20 1); (SignedVote record, [3]); (Checkpoint 2, [2])].
Definition codec : WalCodec := {|
  wal_encode e := snd <$> List.find (fun p => bool_decide (p.1 = e)) table;
  wal_decode b := fst <$> List.find (fun p => bool_decide (p.2 = b)) table;
|}.
#[export] Existing Instance codec.

#[export] Instance codec_laws : WalCodecLaws codec.
Proof.
  split; intros e b ([e' b'] & [Hin He]%List.find_some & ->)%fmap_Some;
    apply bool_decide_eq_true in He; simpl in He; subst e';
    destruct Hin as [[= <- <-]|[[= <- <-]|[[= <- <-]|[]]]]; vm_compute; try reflexivity; discriminate.
Qed.

Definition ops : list (AppendIo * WalOp) :=
  [(AppendOk, OpCheckpoint true true 2); (AppendOk, OpHeightStart 7);
   (AppendOpenFailed, OpHeightStart 7); (AppendOk, OpSignedPrecommit vote)].

Lemma ops_intact : Forall io_intact ops.
Proof. repeat constructor; simpl; by intros. Qed.

Definition big_frame : bytes :=
  le_bytes 4 20 ++ replicate 20 1 ++ wal_checksum (replicate 20 1).
Definition vote_frame : bytes := le_bytes 4 1 ++ [3] ++ wal_checksum [3].

Lemma wal_reopen_witness :
  let w := wal_steps ops (wal_open []) in
  wal_entries w = [Checkpoint 2; HeightStarted 7; SignedVote record]
  /\ wal_open (wal_file w) = w
  /\ wal_entries (wal_open (wal_file (wal_append (AppendWriteFailed 9) (HeightStarted 7) w)))
     = wal_entries w.
Proof.
  assert (encode_entry_frame (HeightStarted 7) = Ok big_frame) as Hb by (vm_compute; reflexivity).
  assert (9 < length big_frame)%nat as Hn by (vm_compute; lia).
  destruct (wal_reopen ops (HeightStarted 7) big_frame 9 ops_intact Hb Hn) as (H1 & H2 & _).
  split; [vm_compute; reflexivity|]. split; [exact H1|exact H2].
Defined.

Lemma wal_never_holds_conflict_witness :
  sv_block_hash record = Some 5 /\ sv_timestamp record = sv_timestamp record.
Proof.
  assert (SignedVote record ∈ wal_entries (wal_steps ops (wal_open []))) as Hin
    by (vm_compute; right; right; left).
  split; [reflexivity|].
  exact (proj2 (wal_never_holds_conflict ops record record Hin Hin eq_refl eq_refl eq_refl eq_refl)).
Defined.

Lemma wal_recovers_votes_witness :
  let wr := recover (wal_open (wal_file (wal_steps ops (wal_open [])))) in
  record ∈ wr_signed_votes wr /\ lock_at_least (wr_locked_state wr) 7 0.
Proof.
  assert (SignedVote record ∈ wal_entries (wal_steps ops (wal_open []))) as Hin
    by (vm_compute; right; right; left).
  assert (wal_entries (wal_steps ops (wal_open []))
          = [Checkpoint 2; HeightStarted 7; SignedVote record]) as He by (vm_compute; reflexivity).
  destruct (wal_recovers_votes ops record ops_intact Hin) as [Hr Hl].
  - intros c. rewrite He. intros [[= ->]|[?|[?|?%not_elem_of_nil]%elem_of_cons]%elem_of_cons]%elem_of_cons;
      [simpl; lia|done..].
  - split; [exact Hr|]. apply (Hl 5); [reflexivity|reflexivity|].
    intros h r y. rewrite He.
    intros [?|[?|[?|?%not_elem_of_nil]%elem_of_cons]%elem_of_cons]%elem_of_cons; done.
Defined.

Lemma wal_torn_tail_hides_votes_witness :
  let reopened := wal_open (wal_file (wal_append (AppendWriteFailed 5) (HeightStarted 7) (wal_open []))) in
  (log_signed_vote AppendOk record reopened).1 = Ok tt
  /\ SignedVote record ∈ wal_entries (log_signed_vote AppendOk record reopened).2
  /\ wal_entries (wal_open (wal_file (log_signed_vote AppendOk record reopened).2)) = [].
Proof.
  assert (encode_entry_frame (HeightStarted 7) = Ok big_frame) as Hb by (vm_compute; reflexivity).
  assert (encode_entry_frame (SignedVote record) = Ok vote_frame) as Hv by (vm_compute; reflexivity).
  assert (5 + length vote_frame < length big_frame)%nat as Hn by (vm_compute; lia).
  exact (wal_torn_tail_hides_votes [] (HeightStarted 7) big_frame 5 record vote_frame
           (Forall_nil_2 _) Hb ltac:(lia) Hv Hn eq_refl).
Defined.
End ToyWal.
