(* ===== verification/Finality.v ===== *)
(** * Votes per slot, finality and fork choice

    Models [VoteAuthority], [VoteAggregator], [FinalityTracker] and
    [ForkChoice] of [core/src/consensus.rs].  The two atomics of the finality
    tracker are shared between threads: [mark_confirmed] is also given as the
    two atomic steps it consists of, for the interleaving theorem. *)

From S2P Require Import Prelude Crypto Block Votes Stake Validators Slashing.
From stdpp Require Import base tactics numbers list gmap strings.
From Stdlib Require Import ZArith Lia.

Local Open Scope Z_scope.

(** ** The vote authority *)

Record VoteAuthority := mkVoteAuthority {
  va_signing_seed : Z;
  va_validator_pubkey : Pubkey;
  va_voted : gmap Z Hash;
}.

Definition VoteAuthority_new (signing_seed : Z) (validator_pubkey : Pubkey) : VoteAuthority :=
  mkVoteAuthority signing_seed validator_pubkey ∅.

(** [Vote::new] stamps the vote with the wall clock, [now]. *)
Definition VoteAuthority_try_vote `{Crypto} (now slot : Z) (block_hash : Hash) (a : VoteAuthority)
  : option Vote * VoteAuthority :=
  match va_voted a !! slot with
  | Some _ => (None, a)
  | None =>
      let keypair := mkKeypair (va_signing_seed a) in
      let signature := Keypair_sign keypair (vote_message slot block_hash) in
      let vote := mkVote slot block_hash (va_validator_pubkey a) signature now in
      (Some vote,
       mkVoteAuthority (va_signing_seed a) (va_validator_pubkey a)
         (<[slot := block_hash]> (va_voted a)))
  end.

Definition VoteAuthority_has_voted (a : VoteAuthority) (slot : Z) : bool :=
  bool_decide (is_Some (va_voted a !! slot)).

Definition VoteAuthority_prune (min_slot : Z) (a : VoteAuthority) : VoteAuthority :=
  mkVoteAuthority (va_signing_seed a) (va_validator_pubkey a)
    (filter (fun sv => min_slot <= sv.1) (va_voted a)).

(** ** The vote aggregator *)

Record VoteAggregator := mkVoteAggregator {
  ag_votes : gmap (Z * Hash) (list Vote);
  ag_voted_in_slot : gmap (Z * Pubkey) bool;
}.

Definition VoteAggregator_new : VoteAggregator := mkVoteAggregator ∅ ∅.

Section aggregator.
Context `{Crypto}.

Definition VoteAggregator_add_vote (vote : Vote) (a : VoteAggregator) : bool * VoteAggregator :=
  if negb (Vote_verify vote) then (false, a)
  else
    let slot_key := (vote_slot vote, vote_validator vote) in
    match ag_voted_in_slot a !! slot_key with
    | Some _ => (false, a)
    | None =>
        let key := (vote_slot vote, vote_block_hash vote) in
        (true,
         mkVoteAggregator (<[key := default [] (ag_votes a !! key) ++ [vote]]> (ag_votes a))
           (<[slot_key := true]> (ag_voted_in_slot a)))
    end.

Definition VoteAggregator_add_vote_validated (vote : Vote) (vs : ValidatorSet)
  (a : VoteAggregator) : bool * VoteAggregator :=
  match ValidatorSet_get_validator vs (vote_validator vote) with
  | None => (false, a)
  | Some _ => VoteAggregator_add_vote vote a
  end.

Definition VoteAggregator_add_vote_validated_with_min_stake (vote : Vote) (vs : ValidatorSet)
  (sp : StakePool) (min_validator_stake : Z) (a : VoteAggregator) : bool * VoteAggregator :=
  match eligible_validator_stake vs sp min_validator_stake (vote_validator vote) with
  | None => (false, a)
  | Some _ => VoteAggregator_add_vote vote a
  end.
End aggregator.

Definition VoteAggregator_get_votes (a : VoteAggregator) (slot : Z) (block_hash : Hash)
  : option (list Vote) := ag_votes a !! (slot, block_hash).

Definition VoteAggregator_has_supermajority_with_min_stake (a : VoteAggregator) (slot : Z)
  (block_hash : Hash) (vs : ValidatorSet) (sp : StakePool) (min_validator_stake : Z) : bool :=
  match VoteAggregator_get_votes a slot block_hash with
  | None => false
  | Some votes =>
      let total_stake := total_eligible_validator_stake vs sp min_validator_stake in
      if total_stake =? 0 then false
      else
        let vote_stake :=
          sumZ id (omap (fun v => eligible_validator_stake vs sp min_validator_stake
                                    (vote_validator v)) votes) in
        total_stake * 2 <=? vote_stake * 3
  end.

Definition VoteAggregator_has_supermajority (a : VoteAggregator) (slot : Z) (block_hash : Hash)
  (vs : ValidatorSet) (sp : StakePool) : bool :=
  VoteAggregator_has_supermajority_with_min_stake a slot block_hash vs sp MIN_VALIDATOR_STAKE.

Definition VoteAggregator_vote_count (a : VoteAggregator) (slot : Z) (block_hash : Hash) : nat :=
  match VoteAggregator_get_votes a slot block_hash with Some v => length v | None => O end.

Definition VoteAggregator_prune_old_votes (current_slot keep_slots : Z) (a : VoteAggregator)
  : VoteAggregator :=
  let cutoff_slot := sat_sub current_slot keep_slots in
  mkVoteAggregator (filter (fun kv => cutoff_slot <= kv.1.1) (ag_votes a))
    (filter (fun kv => cutoff_slot <= kv.1.1) (ag_voted_in_slot a)).

(** ** The finality tracker *)

Definition FINALITY_DEPTH : Z := 0.

Record FinalityTracker := mkFinalityTracker {
  ft_confirmed_slot : Z;
  ft_finalized_slot : Z;
}.

Definition FinalityTracker_new (initial_confirmed initial_finalized : Z) : FinalityTracker :=
  let normalized_finalized :=
    Z.max initial_finalized (sat_sub initial_confirmed FINALITY_DEPTH) in
  mkFinalityTracker initial_confirmed normalized_finalized.

Definition FinalityTracker_mark_confirmed (slot : Z) (t : FinalityTracker)
  : bool * FinalityTracker :=
  let prev := ft_confirmed_slot t in
  let t := mkFinalityTracker (Z.max prev slot) (ft_finalized_slot t) in
  if prev <? slot then
    let new_finalized := sat_sub slot FINALITY_DEPTH in
    (true, mkFinalityTracker (ft_confirmed_slot t) (Z.max (ft_finalized_slot t) new_finalized))
  else (false, t).

Inductive Commitment := CFinalized | CConfirmed | CProcessed.

Definition commitment_of (finalized confirmed slot : Z) : Commitment :=
  if slot <=? finalized then CFinalized
  else if slot <=? confirmed then CConfirmed else CProcessed.

Definition FinalityTracker_commitment_for_slot (t : FinalityTracker) (slot : Z) : Commitment :=
  commitment_of (ft_finalized_slot t) (ft_confirmed_slot t) slot.

(** Interleaving: [pending] holds the slots whose [confirmed_slot.fetch_max] has
    run in some thread and whose [finalized_slot.fetch_max] has not. *)
Record SharedFinality := mkSharedFinality {
  sf_tracker : FinalityTracker;
  sf_pending : list Z;
}.

Inductive finality_step : SharedFinality -> SharedFinality -> Prop :=
| fs_confirm_new t pending slot :
    ft_confirmed_slot t < slot ->
    finality_step (mkSharedFinality t pending)
      (mkSharedFinality (mkFinalityTracker (Z.max (ft_confirmed_slot t) slot) (ft_finalized_slot t))
         (slot :: pending))
| fs_confirm_old t pending slot :
    slot <= ft_confirmed_slot t ->
    finality_step (mkSharedFinality t pending)
      (mkSharedFinality (mkFinalityTracker (Z.max (ft_confirmed_slot t) slot) (ft_finalized_slot t))
         pending)
| fs_finalize t pending1 pending2 slot :
    finality_step (mkSharedFinality t (pending1 ++ slot :: pending2))
      (mkSharedFinality
         (mkFinalityTracker (ft_confirmed_slot t)
            (Z.max (ft_finalized_slot t) (sat_sub slot FINALITY_DEPTH)))
         (pending1 ++ pending2)).

(** ** Fork choice *)

Abbreviation Head := (Z * Hash * Z)%type (only parsing).

Definition head_slot (h : Head) : Z := h.1.1.
Definition head_hash (h : Head) : Hash := h.1.2.
Definition head_weight (h : Head) : Z := h.2.

Record ForkChoice := mkForkChoice { fc_heads : list Head }.

Definition ForkChoice_new : ForkChoice := mkForkChoice [].

(** The first head with the hash gets the weight. *)
Fixpoint add_weight (block_hash : Hash) (stake_weight : Z) (heads : list Head)
  : option (list Head) :=
  match heads with
  | [] => None
  | h :: heads =>
      if head_hash h =? block_hash
      then Some ((head_slot h, head_hash h, sat_add64 (head_weight h) stake_weight) :: heads)
      else (fun l => h :: l) <$> add_weight block_hash stake_weight heads
  end.

Definition ForkChoice_add_head (slot : Z) (block_hash : Hash) (stake_weight : Z) (f : ForkChoice)
  : ForkChoice :=
  let heads :=
    match add_weight block_hash stake_weight (fc_heads f) with
    | Some heads => heads
    | None => fc_heads f ++ [(slot, block_hash, stake_weight)]
    end in
  let max_slot := foldr Z.max 0 (map head_slot heads) in
  mkForkChoice (filter (fun h => max_slot <= wrap64 (head_slot h + 100)) heads).

Definition ForkChoice_clear (f : ForkChoice) : ForkChoice := mkForkChoice [].

(** [a.0.cmp(&b.0).then(a.2.cmp(&b.2)).then(a.1.0.cmp(&b.1.0))] is [Greater]. *)
Definition head_gt (a b : Head) : bool :=
  (head_slot b <? head_slot a)
  || ((head_slot a =? head_slot b)
      && ((head_weight b <? head_weight a)
          || ((head_weight a =? head_weight b) && (head_hash b <? head_hash a)))).

(** [max_by] keeps the last of several maximal elements. *)
Definition max_head (heads : list Head) : option Head :=
  match heads with
  | [] => None
  | h :: heads => Some (foldl (fun best x => if head_gt best x then best else x) h heads)
  end.

Definition ForkChoice_select_head (f : ForkChoice) : option (Z * Hash) :=
  fst <$> max_head (fc_heads f).

Definition ForkChoice_select_head_respecting_finality (finalized_slot : Z) (f : ForkChoice)
  : option (Z * Hash) :=
  fst <$> max_head (filter (fun h => finalized_slot < head_slot h) (fc_heads f)).

Definition ForkChoice_get_weight (f : ForkChoice) (block_hash : Hash) : Z :=
  match List.find (fun h => head_hash h =? block_hash) (fc_heads f) with
  | Some h => head_weight h
  | None => 0
  end.

(** ** Lemmas *)

(** *** One vote per slot *)

Section authority.
Context `{CL : CryptoLaws}.

(** A run of the authority: votes and prunes; the votes that came out. *)
Inductive AuthorityOp := TryVote (now slot : Z) (block_hash : Hash) | Prune (min_slot : Z).

Fixpoint authority_run (ops : list AuthorityOp) (a : VoteAuthority) : list Vote :=
  match ops with
  | [] => []
  | TryVote now slot h :: ops =>
      let '(v, a) := VoteAuthority_try_vote now slot h a in
      match v with Some v => v :: authority_run ops a | None => authority_run ops a end
  | Prune m :: ops => authority_run ops (VoteAuthority_prune m a)
  end.

(** No vote for a slot that is recorded and never pruned. *)
Lemma authority_run_recorded ops a slot :
  is_Some (va_voted a !! slot) -> (forall m, Prune m ∈ ops -> m <= slot) ->
  forall v, v ∈ authority_run ops a -> vote_slot v <> slot.
Proof.
  revert a. induction ops as [|[now s h|m] ops IH]; intros a Ha Hp v Hv; simpl in Hv.
  - by apply not_elem_of_nil in Hv.
  - assert (forall m, Prune m ∈ ops -> m <= slot) as Hp' by (intros; apply Hp; by right).
    unfold VoteAuthority_try_vote in Hv. destruct (va_voted a !! s) eqn:Hs; [by eapply IH|].
    apply elem_of_cons in Hv as [->|Hv].
    + simpl. intros ->. rewrite Hs in Ha. by destruct Ha.
    + eapply IH; [|done|done]. simpl. apply lookup_insert_is_Some'. by right.
  - eapply IH; [| |done]; [|intros; apply Hp; by right]. simpl.
    destruct Ha as [x Hx]. exists x. apply map_lookup_filter_Some. split; [done|].
    simpl. apply Hp. left.
Qed.

Lemma authority_run_unique ops a :
  forall i j u v, authority_run ops a !! i = Some u -> authority_run ops a !! j = Some v ->
  (forall m, Prune m ∈ ops -> m <= vote_slot u) -> vote_slot u = vote_slot v -> i = j.
Proof.
  revert a. induction ops as [|[now s h|m] ops IH]; intros a i j u v Hu Hv Hp Hs; simpl in *.
  - by rewrite lookup_nil in Hu.
  - assert (forall m, Prune m ∈ ops -> m <= vote_slot u) as Hp' by (intros; apply Hp; by right).
    unfold VoteAuthority_try_vote in *. destruct (va_voted a !! s) eqn:Hvs; [by eapply IH|].
    destruct i as [|i], j as [|j]; simpl in *; [done| | |].
    + injection Hu as <-. simpl in *. exfalso. subst s.
      eapply (authority_run_recorded ops); [|exact Hp'|by eapply list_elem_of_lookup_2|done].
      simpl. by rewrite lookup_insert_eq.
    + injection Hv as <-. simpl in *. exfalso.
      eapply (authority_run_recorded ops); [|exact Hp'|by eapply list_elem_of_lookup_2|done].
      simpl. rewrite Hs. by rewrite lookup_insert_eq.
    + f_equal. by eapply IH.
  - eapply IH; [done|done| |done]. intros. apply Hp. by right.
Qed.

Lemma authority_run_verify ops a v :
  va_validator_pubkey a = Keypair_pubkey (mkKeypair (va_signing_seed a)) ->
  v ∈ authority_run ops a -> Vote_verify v = true /\ vote_validator v = va_validator_pubkey a.
Proof.
  revert a. induction ops as [|[now s h|m] ops IH]; intros a Ha Hv; simpl in Hv.
  - by apply not_elem_of_nil in Hv.
  - unfold VoteAuthority_try_vote in Hv. destruct (va_voted a !! s); [by apply IH|].
    apply elem_of_cons in Hv as [->|Hv].
    + split; [|done]. unfold Vote_verify. simpl. rewrite Ha. apply Keypair_verify_sign.
    + by apply IH in Hv.
  - by apply IH in Hv.
Qed.
End authority.

(** *** The aggregator *)

(** A voter appears in at most one bucket of a slot, and once. *)
Record VoteAggregator_wf (a : VoteAggregator) : Prop := {
  agw_NoDup : forall key votes, ag_votes a !! key = Some votes -> NoDup (map vote_validator votes);
  agw_index : forall s h votes v, ag_votes a !! (s, h) = Some votes -> v ∈ votes ->
    vote_slot v = s /\ vote_block_hash v = h /\ is_Some (ag_voted_in_slot a !! (s, vote_validator v));
  agw_once : forall s h1 h2 l1 l2 v1 v2,
    ag_votes a !! (s, h1) = Some l1 -> ag_votes a !! (s, h2) = Some l2 ->
    v1 ∈ l1 -> v2 ∈ l2 -> vote_validator v1 = vote_validator v2 -> h1 = h2;
}.

Lemma add_vote_wf `{Crypto} v a :
  VoteAggregator_wf a -> VoteAggregator_wf (VoteAggregator_add_vote v a).2.
Proof.
  intros [Hnd Hix Hon]. unfold VoteAggregator_add_vote. case_match; [done|].
  destruct (ag_voted_in_slot a !! (vote_slot v, vote_validator v)) eqn:Hv; [done|]. simpl.
  set (key := (vote_slot v, vote_block_hash v)).
  assert (forall s h l u, ag_votes a !! (s, h) = Some l -> u ∈ l -> s = vote_slot v ->
            vote_validator u <> vote_validator v) as Hfresh.
  { intros s h l u Hl Hu -> Heq. destruct (Hix _ _ _ _ Hl Hu) as (_ & _ & [x Hx]).
    rewrite Heq in Hx. congruence. }
  assert (forall u, u ∈ default [] (ag_votes a !! key) -> exists l, ag_votes a !! key = Some l /\ u ∈ l)
    as Hold.
  { intros u Hu. destruct (ag_votes a !! key) as [l|]; [by exists l|by apply not_elem_of_nil in Hu]. }
  split; simpl.
  - intros k votes [[<- <-]|[_ Hk]]%lookup_insert_Some; [|eauto]. rewrite map_app. apply NoDup_app.
    split_and!; [|..|apply NoDup_singleton].
    + destruct (ag_votes a !! key) eqn:Hk; simpl; [eauto|constructor].
    + intros x Hx Hx'. apply list_elem_of_singleton in Hx' as ->.
      apply (list_elem_of_fmap_1 vote_validator) in Hx as (u & Hu & Hin).
      destruct (Hold u Hin) as (l & Hl & Hul). by eapply (Hfresh _ _ l u Hl Hul).
  - intros s h votes u [[[= <- <-] <-]|[Hne Hk]]%lookup_insert_Some Hu.
    + apply elem_of_app in Hu as [Hu|Hu].
      * destruct (Hold u Hu) as (l & Hl & Hul). destruct (Hix _ _ _ _ Hl Hul) as (? & ? & ?).
        split_and!; [done|done|]. apply lookup_insert_is_Some'. by right.
      * apply list_elem_of_singleton in Hu as ->. split_and!; [done|done|].
        by rewrite lookup_insert_eq.
    + destruct (Hix _ _ _ _ Hk Hu) as (? & ? & ?). split_and!; [done|done|].
      apply lookup_insert_is_Some'. by right.
  - intros s h1 h2 l1 l2 v1 v2 H1 H2 Hv1 Hv2 Heq.
    apply lookup_insert_Some in H1 as [[Hk1 <-]|[Hn1 H1]];
      apply lookup_insert_Some in H2 as [[Hk2 <-]|[Hn2 H2]]; unfold key in *; simplify_eq; [done|..].
    + apply elem_of_app in Hv1 as [Hv1|Hv1].
      * destruct (Hold v1 Hv1) as (l & Hl & Hul). by eapply (Hon _ _ _ _ _ _ _ Hl H2).
      * apply list_elem_of_singleton in Hv1 as ->. symmetry in Heq.
        by destruct (Hfresh _ _ _ _ H2 Hv2 eq_refl).
    + apply elem_of_app in Hv2 as [Hv2|Hv2].
      * destruct (Hold v2 Hv2) as (l & Hl & Hul). by eapply (Hon _ _ _ _ _ _ _ H1 Hl).
      * apply list_elem_of_singleton in Hv2 as ->. by destruct (Hfresh _ _ _ _ H1 Hv1 eq_refl).
    + by eapply (Hon _ _ _ _ _ _ _ H1 H2).
Qed.

Lemma prune_old_votes_wf c k a :
  VoteAggregator_wf a -> VoteAggregator_wf (VoteAggregator_prune_old_votes c k a).
Proof.
  intros [Hnd Hix Hon]. split; simpl.
  - intros key votes [Hk _]%map_lookup_filter_Some. eauto.
  - intros s h votes v [Hk Hc]%map_lookup_filter_Some Hv. destruct (Hix _ _ _ _ Hk Hv) as (? & ? & [x Hx]).
    split_and!; [done|done|]. exists x. by apply map_lookup_filter_Some.
  - intros s h1 h2 l1 l2 v1 v2 [H1 _]%map_lookup_filter_Some [H2 _]%map_lookup_filter_Some. eauto.
Qed.

(** *** Finality under interleaving *)

Definition finality_inv (s : SharedFinality) : Prop :=
  let t := sf_tracker s in
  ft_finalized_slot t <= ft_confirmed_slot t
  /\ (forall p, p ∈ sf_pending s -> 0 <= p <= ft_confirmed_slot t)
  /\ (ft_finalized_slot t = ft_confirmed_slot t \/ ft_confirmed_slot t ∈ sf_pending s).

Definition tracker_le (t u : FinalityTracker) : Prop :=
  ft_confirmed_slot t <= ft_confirmed_slot u /\ ft_finalized_slot t <= ft_finalized_slot u.

#[export] Instance tracker_le_preorder : PreOrder tracker_le.
Proof. split; [by split; lia|intros ??? [??] [??]; split; lia]. Qed.

Lemma finality_step_mono s s' : finality_step s s' -> tracker_le (sf_tracker s) (sf_tracker s').
Proof. destruct 1; split; simpl; lia. Qed.

Lemma finality_step_inv s s' :
  0 <= ft_confirmed_slot (sf_tracker s) -> finality_inv s -> finality_step s s' -> finality_inv s'.
Proof.
  unfold finality_inv. intros H0 (Hle & Hp & Hq) Hstep.
  destruct Hstep as [t l slot|t l slot|t l1 l2 slot]; simpl in *.
  - split_and!; [lia| |right; rewrite Z.max_r by lia; left].
    intros p [->|Hin]%elem_of_cons; [lia|]. specialize (Hp p Hin). lia.
  - rewrite Z.max_l by lia. done.
  - assert (0 <= slot <= ft_confirmed_slot t) as Hs.
    { apply Hp. apply elem_of_app. right. left. }
    unfold sat_sub, FINALITY_DEPTH. split_and!; [lia| |].
    + intros p Hin. apply Hp. apply elem_of_app. apply elem_of_app in Hin as [|]; [by left|].
      right. by right.
    + destruct Hq as [Hq|[Hq|Hq]%elem_of_app]; [left; lia|right; set_solver|].
      apply elem_of_cons in Hq as [Hq|Hq]; [left; lia|right; set_solver].
Qed.

Lemma finality_steps_inv s s' :
  0 <= ft_confirmed_slot (sf_tracker s) -> finality_inv s -> rtc finality_step s s' ->
  finality_inv s' /\ tracker_le (sf_tracker s) (sf_tracker s').
Proof.
  intros H0 Hi Hr. revert H0 Hi.
  induction Hr as [|s s1 s' Hs _ IH]; intros H0 Hi; [split; [done|reflexivity]|].
  pose proof (finality_step_mono _ _ Hs) as Hm.
  destruct IH as [? ?]; [destruct Hm; lia|by eapply finality_step_inv|].
  split; [done|]. by etrans.
Qed.

Definition commitment_rank (c : Commitment) : Z :=
  match c with CProcessed => 0 | CConfirmed => 1 | CFinalized => 2 end.

(** A reader that loads [finalized] and, later, [confirmed] reports no more than
    the tracker holds at the end and no less than it held at the start. *)
Lemma commitment_between t1 t2 t3 slot :
  tracker_le t1 t2 -> tracker_le t2 t3 ->
  let c := commitment_of (ft_finalized_slot t1) (ft_confirmed_slot t2) slot in
  commitment_rank (FinalityTracker_commitment_for_slot t1 slot) <= commitment_rank c
  /\ commitment_rank c <= commitment_rank (FinalityTracker_commitment_for_slot t3 slot).
Proof.
  intros [??] [??]. simpl. unfold FinalityTracker_commitment_for_slot, commitment_of.
  repeat case_match; simpl; split; lia.
Qed.

(** *** Fork choice *)

Lemma head_gt_trans a b c : head_gt a b = false -> head_gt b c = false -> head_gt a c = false.
Proof. unfold head_gt. lia. Qed.

Lemma head_gt_asym a b : head_gt a b = true -> head_gt b a = false.
Proof. unfold head_gt. lia. Qed.

Lemma head_gt_irrefl a : head_gt a a = false.
Proof. unfold head_gt. lia. Qed.

Lemma max_head_spec heads :
  match max_head heads with
  | None => heads = []
  | Some h => h ∈ heads /\ forall x, x ∈ heads -> head_gt x h = false
  end.
Proof.
  destruct heads as [|h heads]; simpl; [done|].
  revert h. induction heads as [|x heads IH]; intros h; simpl.
  - split; [left|]. intros y ->%list_elem_of_singleton. apply head_gt_irrefl.
  - set (b := if head_gt h x then h else x). destruct (IH b) as [Hin Hmax].
    assert (head_gt h b = false /\ head_gt x b = false /\ (b = h \/ b = x)) as (Hh & Hx & Hb).
    { unfold b. case_match eqn:Hg; split_and!; auto using head_gt_irrefl, head_gt_asym. }
    split.
    + apply elem_of_cons in Hin as [->|Hin]; [|by do 2 right].
      destruct Hb as [->| ->]; [left|right; left].
    + intros y Hy. apply elem_of_cons in Hy as [->|[->|Hy]%elem_of_cons].
      * eapply head_gt_trans; [exact Hh|]. apply Hmax. left.
      * eapply head_gt_trans; [exact Hx|]. apply Hmax. left.
      * apply Hmax. by right.
Qed.

(** ** Theorems *)

(** The vote authority signs at most one vote per slot: along any sequence
    of requests and prunings that do not reach the slot, the votes handed out
    for it are one and the same, and every vote handed out verifies under the
    authority's key. *)
Theorem vote_authority_signs_once `{CL : CryptoLaws} ops a i j u v :
  va_validator_pubkey a = Keypair_pubkey (mkKeypair (va_signing_seed a)) ->
  authority_run ops a !! i = Some u -> authority_run ops a !! j = Some v ->
  (forall m, Prune m ∈ ops -> m <= vote_slot u) -> vote_slot u = vote_slot v ->
  i = j /\ u = v /\ Vote_verify u = true /\ vote_validator u = va_validator_pubkey a.
Proof.
  intros Hk Hu Hv Hp Hs. pose proof (authority_run_unique ops a i j u v Hu Hv Hp Hs) as ->.
  split; [done|]. split; [congruence|]. eapply authority_run_verify; [done|].
  by eapply list_elem_of_lookup_2.
Qed.

(** The prune of the vote authority forgets: after pruning past a voted
    slot the authority signs a second, different vote for it. *)
Theorem vote_authority_prune_forgets `{Crypto} now slot h1 h2 a :
  va_voted a !! slot = None ->
  map (fun v => (vote_slot v, vote_block_hash v))
    (authority_run [TryVote now slot h1; Prune (slot + 1); TryVote now slot h2] a)
  = [(slot, h1); (slot, h2)].
Proof.
  intros Ha. unfold authority_run, VoteAuthority_try_vote. rewrite Ha. simpl.
  assert (filter (fun sv : Z * Hash => slot + 1 <= sv.1) (<[slot := h1]> (va_voted a)) !! slot = None)
    as ->; [|done].
  apply map_lookup_filter_None. right. simpl. intros. lia.
Qed.

(** *** Supermajorities of the aggregator *)

Section supermajority.
Context (vs : ValidatorSet) (sp : StakePool) (m : Z).
Abbreviation stake := (fun k => default 0 (eligible_validator_stake vs sp m k)).

Lemma eligible_in_set k : is_Some (eligible_validator_stake vs sp m k) -> k ∈ pubkeys vs.
Proof.
  unfold eligible_validator_stake. intros [x Hx].
  destruct (ValidatorSet_get_validator vs k) as [v|] eqn:Hv; [|done].
  apply List.find_some in Hv as [Hin Hk]. apply Z.eqb_eq in Hk. rewrite <- Hk.
  apply (list_elem_of_fmap_2 vi_pubkey). by apply list_elem_of_In.
Qed.

(** Distinct voters weigh no more than the whole set. *)
Lemma voters_bounded (Q : list Pubkey) :
  (forall k, 0 <= stake k) -> NoDup Q -> sumZ stake Q <= total_eligible_validator_stake vs sp m.
Proof.
  intros Hpos Hnd. rewrite total_eligible_sum.
  rewrite (sumZ_filter_split stake (fun k => is_Some (eligible_validator_stake vs sp m k)) Q).
  rewrite (sumZ_zero stake (filter (fun k => ~ is_Some _) Q)).
  - rewrite Z.add_0_r. apply sumZ_subset; [auto|by apply NoDup_filter|].
    intros k [Hk _]%list_elem_of_filter. by apply eligible_in_set.
  - intros k [Hk _]%list_elem_of_filter.
    by destruct (eligible_validator_stake vs sp m k) as [x|]; [destruct Hk|].
Qed.
End supermajority.

(** At most one block of a slot has a supermajority of votes: in an
    aggregator built by adding and pruning votes, two hashes that both have two
    thirds of the eligible stake at one slot are equal. *)
Theorem aggregator_supermajority_unique a vs sp m slot h1 h2 :
  VoteAggregator_wf a ->
  (forall k, 0 <= default 0 (eligible_validator_stake vs sp m k)) ->
  VoteAggregator_has_supermajority_with_min_stake a slot h1 vs sp m = true ->
  VoteAggregator_has_supermajority_with_min_stake a slot h2 vs sp m = true -> h1 = h2.
Proof.
  intros [Hnd _ Honce] Hpos.
  unfold VoteAggregator_has_supermajority_with_min_stake, VoteAggregator_get_votes.
  destruct (ag_votes a !! (slot, h1)) as [l1|] eqn:H1; [|done].
  destruct (ag_votes a !! (slot, h2)) as [l2|] eqn:H2; [|done].
  destruct (Z.eqb_spec (total_eligible_validator_stake vs sp m) 0) as [|Hz]; [done|].
  rewrite !sumZ_omap. intros Hq1%Z.leb_le Hq2%Z.leb_le.
  destruct (decide (h1 = h2)) as [|Hne]; [done|]. exfalso.
  pose proof (voters_bounded vs sp m (map vote_validator l1 ++ map vote_validator l2) Hpos) as Hb.
  rewrite sumZ_app, !sumZ_map in Hb.
  assert (NoDup (map vote_validator l1 ++ map vote_validator l2)) as Hn.
  { apply NoDup_app. split_and!; [by eapply Hnd| |by eapply Hnd].
    intros k Hk1 Hk2. apply (list_elem_of_fmap_1 vote_validator) in Hk1 as (v1 & -> & Hv1).
    apply (list_elem_of_fmap_1 vote_validator) in Hk2 as (v2 & Heq & Hv2).
    apply Hne. by eapply (Honce slot h1 h2 l1 l2 v1 v2). }
  specialize (Hb Hn).
  assert (0 <= total_eligible_validator_stake vs sp m).
  { rewrite total_eligible_sum. apply sumZ_nonneg. auto. }
  lia.
Qed.


(** A commitment level read while other threads confirm slots is between
    the level at the start and the level at the end of the read, and a slot that
    was reported finalized is reported finalized ever after. *)
Theorem commitment_reads_are_linear s1 s2 s3 slot :
  rtc finality_step s1 s2 -> rtc finality_step s2 s3 ->
  let c := commitment_of (ft_finalized_slot (sf_tracker s1)) (ft_confirmed_slot (sf_tracker s2)) slot in
  commitment_rank (FinalityTracker_commitment_for_slot (sf_tracker s1) slot) <= commitment_rank c
  /\ commitment_rank c <= commitment_rank (FinalityTracker_commitment_for_slot (sf_tracker s3) slot)
  /\ (c = CFinalized -> FinalityTracker_commitment_for_slot (sf_tracker s3) slot = CFinalized).
Proof.
  intros H12 H23.
  assert (forall s s', rtc finality_step s s' -> tracker_le (sf_tracker s) (sf_tracker s')) as Hm.
  { induction 1 as [|x y z Hs _ IH]; [reflexivity|]. etrans; [by apply finality_step_mono|done]. }
  destruct (commitment_between _ _ _ slot (Hm _ _ H12) (Hm _ _ H23)) as [Hlo Hhi].
  split_and!; [done|done|]. simpl in *. intros Hc. rewrite Hc in Hhi. simpl in Hhi.
  destruct (FinalityTracker_commitment_for_slot (sf_tracker s3) slot); simpl in Hhi; [done|lia|lia].
Qed.

(** Fork choice: [select_head_respecting_finality] returns a known head
    above the finalized slot that no other such head beats in slot, then weight,
    then hash, and returns nothing only when no head is above that slot. *)
Theorem fork_choice_maximal fin f :
  match ForkChoice_select_head_respecting_finality fin f with
  | Some (slot, hash) =>
      fin < slot /\ exists w, (slot, hash, w) ∈ fc_heads f
        /\ forall h, h ∈ fc_heads f -> fin < head_slot h ->
           head_slot h < slot \/ (head_slot h = slot
             /\ (head_weight h < w \/ (head_weight h = w /\ head_hash h <= hash)))
  | None => forall h, h ∈ fc_heads f -> head_slot h <= fin
  end.
Proof.
  unfold ForkChoice_select_head_respecting_finality.
  pose proof (max_head_spec (filter (fun h => fin < head_slot h) (fc_heads f))) as Hm.
  destruct (max_head _) as [[[slot hash] w]|]; simpl.
  - destruct Hm as [[Hs Hin]%list_elem_of_filter Hmax]. split; [done|]. exists w. split; [done|].
    intros h Hh Hf. specialize (Hmax h). unfold head_gt in Hmax.
    assert (h ∈ filter (fun h => fin < head_slot h) (fc_heads f)) as Hin'
      by (by apply list_elem_of_filter).
    specialize (Hmax Hin'). unfold head_slot, head_weight, head_hash in *. simpl in *. lia.
  - intros h Hh. destruct (decide (fin < head_slot h)) as [Hlt|]; [|lia].
    assert (h ∈ filter (fun h => fin < head_slot h) (fc_heads f)) as Hin
      by (by apply list_elem_of_filter).
    rewrite Hm in Hin. by apply not_elem_of_nil in Hin.
Qed.

(** ** Concrete runs *)

Module ToyFinality.
#[export] Existing Instance Toy.crypto.
#[export] Existing Instance Toy.crypto_laws.

Definition authority : VoteAuthority := VoteAuthority_new 6 (Keypair_pubkey (mkKeypair 6)).
Definition requests : list AuthorityOp := [TryVote 100 3 7; TryVote 101 3 8; Prune 2; TryVote 102 4 8].
Definition first_vote : Vote :=
  mkVote 3 7 (Keypair_pubkey (mkKeypair 6)) (Keypair_sign (mkKeypair 6) (vote_message 3 7)) 100.

Lemma vote_authority_signs_once_witness :
  length (authority_run requests authority) = 2%nat
  /\ authority_run requests authority !! 0%nat = Some first_vote
  /\ Vote_verify first_vote = true.
Proof.
  split; [vm_compute; reflexivity|]. split; [reflexivity|].
  refine (proj1 (proj2 (proj2 (vote_authority_signs_once requests authority 0 0 first_vote first_vote
            eq_refl eq_refl eq_refl _ eq_refl)))).
  intros mm Hin. apply elem_of_cons in Hin as [?|Hin]; [done|].
  apply elem_of_cons in Hin as [?|Hin]; [done|].
  apply elem_of_cons in Hin as [Heq|Hin]; [injection Heq as ->; simpl; lia|].
  by apply list_elem_of_singleton in Hin.
Defined.

Lemma vote_authority_prune_forgets_witness :
  map (fun v => (vote_slot v, vote_block_hash v))
    (authority_run [TryVote 100 3 7; Prune 4; TryVote 100 3 8] authority) = [(3, 7); (3, 8)].
Proof. exact (vote_authority_prune_forgets 100 3 7 8 authority eq_refl). Defined.

(** Two validators vote for one block. *)
Definition voter (seed : Z) : Pubkey := Keypair_pubkey (mkKeypair seed).
Definition ballot (seed h : Z) : Vote :=
  mkVote 3 h (voter seed) (Keypair_sign (mkKeypair seed) (vote_message 3 h)) 0.
Definition set2 : ValidatorSet :=
  mkValidatorSet [ValidatorInfo_new (voter 1) 0; ValidatorInfo_new (voter 2) 0] 0.
Definition pool2 : StakePool :=
  set_sp_stakes {[ voter 1 := StakeInfo_new (voter 1) MIN_VALIDATOR_STAKE 0;
                   voter 2 := StakeInfo_new (voter 2) MIN_VALIDATOR_STAKE 0 ]} StakePool_new.
Definition box : VoteAggregator :=
  (VoteAggregator_add_vote (ballot 2 7)
     (VoteAggregator_add_vote (ballot 1 8) (VoteAggregator_add_vote (ballot 1 7) VoteAggregator_new).2).2).2.

Lemma box_wf : VoteAggregator_wf box.
Proof.
  do 3 apply add_vote_wf. split; cbn [VoteAggregator_new ag_votes]; intros *; by rewrite lookup_empty.
Qed.

Lemma stakes_nonneg k : 0 <= default 0 (eligible_validator_stake set2 pool2 MIN_VALIDATOR_STAKE k).
Proof.
  destruct (eligible_validator_stake set2 pool2 MIN_VALIDATOR_STAKE k) as [x|] eqn:Hx; simpl; [|lia].
  apply eligible_validator_stake_range in Hx; [unfold MIN_VALIDATOR_STAKE in Hx; lia| |done|done].
  intros u s Hs.
  assert (map_Forall (fun _ s => is_u64 (si_amount s) /\ is_u64 (si_delegated_amount s))
            (sp_stakes pool2)) as Hf; [|exact (Hf u s Hs)].
  apply map_Forall_to_list. let l := eval vm_compute in (map_to_list (sp_stakes pool2)) in
    change (map_to_list (sp_stakes pool2)) with l.
  unfold is_u64. repeat constructor; simpl; lia.
Qed.

Lemma aggregator_supermajority_unique_witness :
  VoteAggregator_has_supermajority_with_min_stake box 3 7 set2 pool2 MIN_VALIDATOR_STAKE = true
  /\ forall h, VoteAggregator_has_supermajority_with_min_stake box 3 h set2 pool2 MIN_VALIDATOR_STAKE = true ->
     7 = h.
Proof.
  assert (VoteAggregator_has_supermajority_with_min_stake box 3 7 set2 pool2 MIN_VALIDATOR_STAKE = true)
    as H7 by (vm_compute; reflexivity).
  split; [exact H7|]. intros h Hh.
  exact (aggregator_supermajority_unique box set2 pool2 MIN_VALIDATOR_STAKE 3 7 h box_wf stakes_nonneg H7 Hh).
Defined.

Definition confirming : SharedFinality := mkSharedFinality (mkFinalityTracker 9 5) [9].
Definition confirmed : SharedFinality := mkSharedFinality (mkFinalityTracker 9 9) [].

Lemma confirming_run :
  rtc finality_step (mkSharedFinality (FinalityTracker_new 5 5) []) confirming
  /\ rtc finality_step confirming confirmed.
Proof.
  split; apply rtc_once; [apply (fs_confirm_new (mkFinalityTracker 5 5) [] 9); simpl; lia|].
  apply (fs_finalize (mkFinalityTracker 9 5) [] [] 9).
Qed.


Lemma commitment_reads_are_linear_witness :
  commitment_rank (FinalityTracker_commitment_for_slot (mkFinalityTracker 5 5) 7)
    <= commitment_rank (commitment_of 5 9 7)
  /\ commitment_rank (commitment_of 5 9 7) <= commitment_rank CFinalized.
Proof.
  destruct confirming_run as [H1 H2].
  destruct (commitment_reads_are_linear _ _ _ 7 H1 H2) as (Hlo & Hhi & _). exact (conj Hlo Hhi).
Defined.
End ToyFinality.
