(* ===== verification/Scenario.v ===== *)
(** * Runs of a small network

    Executable runs of the network model, to evaluate the engine on concrete
    inputs: four validators of equal stake, of which the fourth is faulty, with
    the toy cryptography of [Crypto.Toy].  A [script] is a sequence of
    deliveries; [script_ok] checks it as it runs, and a checked script is a run
    of the network. *)

From S2P Require Import Prelude Crypto Block Votes Stake Validators Slashing Engine Protocol Power Refinement Network Commit Certificate.
From stdpp Require Import base tactics numbers list gmap strings.
From Stdlib Require Import ZArith Lia.

Local Open Scope Z_scope.

(** ** Scripts *)

Inductive Delivery :=
| DPropose (b : Block)
| DProposal (p : Proposal)
| DPrevote (i : nat)      (** the [i]-th prevote of the log *)
| DPrecommit (i : nat)
| DTimeout (step : RoundStep) (round : Z).

Section script.
Context `{CL : CryptoLaws} (vs : ValidatorSet) (sp : StakePool).
Context (height : Z) (chain_id : bytes) (Hh : is_u64 height) (Hc : signable_len chain_id).
Context (honest : Pubkey -> Prop) `{!forall k, Decision (honest k)}.
Context (snap : ConsensusPowerSnapshot) (Hsnap : snapshot_wf snap).
Context (start : Pubkey -> ConsensusEngine).

Definition delivery_input (n : Net) (d : Delivery) : option Input :=
  match d with
  | DPropose b => Some (InCreateProposal b)
  | DProposal p => Some (InProposal p)
  | DPrevote i => InPrevote <$> net_prevotes n !! i
  | DPrecommit i => InPrecommit <$> net_precommits n !! i
  | DTimeout step round => Some (InTimeout step round)
  end.

Definition input_round (i : Input) : Z :=
  match i with InPrevote pv => pv_round pv | InPrecommit pc => pc_round pc | _ => 0 end.

Fixpoint script_run (now : Z) (l : list (Pubkey * Delivery)) (n : Net) : Net :=
  match l with
  | [] => n
  | (k, d) :: l =>
      match delivery_input n d with
      | Some i => script_run now l (net_deliver vs sp n k now i)
      | None => n
      end
  end.

Fixpoint script_ok (now : Z) (l : list (Pubkey * Delivery)) (n : Net) : bool :=
  match l with
  | [] => true
  | (k, d) :: l =>
      match delivery_input n d with
      | Some i =>
          bool_decide (honest k) && (ce_round (net_engine n k) <=? ROUND_CAP)
          && (input_round i <=? ROUND_CAP) && script_ok now l (net_deliver vs sp n k now i)
      | None => false
      end
  end.

Hypothesis Hstart :
  forall k, honest k -> EInv snap k height chain_id (start k) /\ engine_view (start k) = initial_view.

(** A message of the log is unforged, and typed because a correct engine made it. *)
Lemma delivery_admissible n k now d i :
  net_reachable vs sp height chain_id honest start n -> is_u64 now ->
  delivery_input n d = Some i -> ce_round (net_engine n k) <= ROUND_CAP ->
  input_round i <= ROUND_CAP -> admissible vs sp height chain_id honest n k now i.
Proof using CL Hc Hh Hsnap Hstart.
  intros Hn Hnow Hd Hcap Hr.
  pose proof (net_inv_reachable vs sp height chain_id Hh Hc honest snap Hsnap start n Hstart Hn) as Hi.
  split; [done|destruct d; simplify_option_eq; by split|..].
  - intros pv Hpv. destruct d as [b|p|j|j|step r]; simplify_option_eq; try (by apply not_elem_of_nil in Hpv).
    apply list_elem_of_singleton in Hpv as ->. rename select (net_prevotes _ !! _ = _) into Hl.
    apply list_elem_of_lookup_2 in Hl.
    destruct (ni_prevotes _ _ _ _ _ _ Hi _ Hl) as (? & Hph & ? & ? & _).
    split_and!; [split_and!; [by rewrite Hph|done..]|done|]. intros _ _ _. eauto.
  - intros pc Hpc. destruct d as [b|p|j|j|step r]; simplify_option_eq; try (by apply not_elem_of_nil in Hpc).
    apply list_elem_of_singleton in Hpc as ->. rename select (net_precommits _ !! _ = _) into Hl.
    apply list_elem_of_lookup_2 in Hl.
    destruct (ni_precommits _ _ _ _ _ _ Hi _ Hl) as (? & Hph & ? & ? & ? & _).
    split_and!; [split_and!; [by rewrite Hph|done..]|done|]. intros _ _ _. eauto.
Qed.

Lemma script_reachable now l n :
  is_u64 now -> net_reachable vs sp height chain_id honest start n ->
  script_ok now l n = true ->
  net_reachable vs sp height chain_id honest start (script_run now l n).
Proof using CL Hc Hh Hsnap Hstart.
  intros Hnow. revert n. induction l as [|[k d] l IH]; intros n Hn Hok; simpl in *; [done|].
  destruct (delivery_input n d) as [i|] eqn:Hd; [|done].
  apply andb_prop in Hok as [[[Hk%bool_decide_eq_true_1 Hcap]%andb_prop Hr]%andb_prop Hok].
  apply IH; [|done]. apply net_next; [done|done|].
  eapply delivery_admissible; try done; lia.
Qed.
End script.

Lemma find_committer k (l : list (Pubkey * Z * Block * Hash)) c :
  List.find (fun c => c.1.1.1 =? k) l = Some c -> c ∈ l /\ c.1.1.1 = k.
Proof. intros [Hin Hk]%List.find_some. split; [by apply list_elem_of_In|by apply Z.eqb_eq]. Qed.

(** ** Four validators *)

Module Four.
#[export] Existing Instance Toy.crypto.
#[export] Existing Instance Toy.crypto_laws.

Definition seed_key (seed : Z) : Pubkey := Keypair_pubkey (mkKeypair seed).
Definition keys : list Pubkey := Eval vm_compute in map seed_key [1; 2; 3; 4].
Definition key (i : nat) : Pubkey := nth i keys 0.

Definition validators : ValidatorSet := mkValidatorSet (map (fun k => ValidatorInfo_new k 0) keys) 0.
Definition pool : StakePool :=
  set_sp_stakes (list_to_map (map (fun k => (k, StakeInfo_new k MIN_VALIDATOR_STAKE 0)) keys))
    StakePool_new.

Definition honest (k : Pubkey) : Prop := k ∈ take 3 keys.
#[export] Instance honest_dec k : Decision (honest k).
Proof. unfold honest. apply _. Defined.

Definition chain_id : bytes := str_bytes "lichen-test".
Definition engine (seed : Z) : ConsensusEngine :=
  ConsensusEngine_new_with_chain_id_min_stake_and_timeouts (mkKeypair seed) (seed_key seed)
    chain_id MIN_VALIDATOR_STAKE ConsensusTimeoutConfig_default.

(** The engine of each key, before and after the height is started. *)
Definition engine_of (k : Pubkey) : ConsensusEngine :=
  if k =? key 0 then engine 1 else if k =? key 1 then engine 2 else engine 3.
Abbreviation started := (started_engine validators pool 1 engine_of).

Definition now : Z := 1000.
Definition header (proposer : Pubkey) (tag : Z) : BlockHeader :=
  mkBlockHeader 1 0 tag 0 1000 (compute_validators_hash validators pool) proposer None.

(** The second validator proposes a signed block. *)
Definition block : Block :=
  Block_sign_with_chain_id (mkKeypair 2) chain_id (mkBlock (header (key 1) 7) [] [] [] 0 []).
Abbreviation snapshot := (ConsensusPowerSnapshot_build validators pool MIN_VALIDATOR_STAKE).
Definition start_net : Net := mkNet started [] [] [].

Definition sent_proposals (a : ConsensusAction) : list Proposal :=
  omap (fun a => match a with BroadcastProposal p => Some p | _ => None end) (action_leaves a).
Definition proposal : option Proposal :=
  head (sent_proposals (handle validators pool now (InCreateProposal block) (started (key 1))).1).

(** The proposal reaches the other two correct validators; prevotes, then
    precommits, are exchanged. *)
Definition script : list (Pubkey * Delivery) :=
  match proposal with
  | None => []
  | Some p =>
      [(key 1, DPropose block); (key 0, DProposal p); (key 2, DProposal p);
       (key 0, DPrevote 0); (key 0, DPrevote 2); (key 1, DPrevote 0); (key 1, DPrevote 1);
       (key 2, DPrevote 1); (key 2, DPrevote 2);
       (key 0, DPrecommit 0); (key 0, DPrecommit 1); (key 1, DPrecommit 0);
       (key 1, DPrecommit 2); (key 2, DPrecommit 1); (key 2, DPrecommit 2)]
  end.
Definition final_net : Net := script_run validators pool now script start_net.

(** *** Facts *)

Lemma validators_wf : ValidatorSet_wf validators.
Proof. apply (bool_decide_unpack _). vm_compute. exact I. Qed.

Lemma pool_stakes : stakes_u64 pool.
Proof.
  assert (map_Forall (fun _ s => 0 <= si_amount s /\ 0 <= si_delegated_amount s) (sp_stakes pool)) as Hm; [|intros k s Hs; exact (Hm k s Hs)].
  apply map_Forall_to_list. vm_compute map_to_list. repeat constructor; simpl; lia.
Qed.

Lemma snapshot_ok : snapshot_wf snapshot.
Proof. apply build_wf; [apply pool_stakes|apply validators_wf|done]. Qed.

Lemma honest_keys k : honest k -> k = key 0 \/ k = key 1 \/ k = key 2.
Proof. unfold honest. simpl. rewrite !elem_of_cons, elem_of_nil. tauto. Qed.

Lemma engine_of_ok k :
  honest k ->
  Keypair_pubkey (ce_keypair (engine_of k)) = k /\ ce_validator_pubkey (engine_of k) = k
  /\ ce_signing_chain_id (engine_of k) = chain_id
  /\ ce_min_validator_stake (engine_of k) = MIN_VALIDATOR_STAKE.
Proof. intros [->|[->| ->]]%honest_keys; by split_and!. Qed.

Lemma script_ok_true : script_ok validators pool honest now script start_net = true.
Proof. vm_compute. reflexivity. Qed.

Definition commit_of (k : Pubkey) : option (Pubkey * Z * Block * Hash) :=
  List.find (fun c => c.1.1.1 =? k) (net_commits final_net).

(** The first and the third validator commit. *)
Definition both_commit (vh : Hash) (c0 c2 : option (Pubkey * Z * Block * Hash)) : bool :=
  match c0, c2 with
  | Some (_, _, b0, h0), Some (_, _, b2, h2) =>
      negb (h0 =? zero_hash) && negb (h2 =? zero_hash)
      && (hdr_slot (blk_header b0) =? 1)
      && (hdr_validators_hash (blk_header b0) =? vh)
  | _, _ => false
  end.

Lemma both_commit_true :
  both_commit (compute_validators_hash validators pool) (commit_of (key 0)) (commit_of (key 2)) = true.
Proof. vm_compute. reflexivity. Qed.

Lemma commit_of_in k c : commit_of k = Some c -> c ∈ net_commits final_net /\ c.1.1.1 = k.
Proof. exact (find_committer k (net_commits final_net) c). Qed.

Lemma both_committed :
  exists r0 b0 h0 r2 b2 h2,
    (key 0, r0, b0, h0) ∈ net_commits final_net /\ (key 2, r2, b2, h2) ∈ net_commits final_net
    /\ h0 <> zero_hash /\ h2 <> zero_hash /\ hdr_slot (blk_header b0) = 1
    /\ hdr_validators_hash (blk_header b0) = compute_validators_hash validators pool.
Proof.
  generalize both_commit_true (commit_of_in (key 0)) (commit_of_in (key 2)).
  generalize (commit_of (key 0)) (commit_of (key 2)) (net_commits final_net).
  generalize (compute_validators_hash validators pool).
  intros vh [[[[k0 r0] b0] h0]|] [[[[k2 r2] b2] h2]|] l Hb H0 H2; try done.
  destruct (H0 _ eq_refl) as [Hin0 Hk0], (H2 _ eq_refl) as [Hin2 Hk2].
  cbn [fst snd] in Hk0, Hk2. subst k0 k2. exists r0, b0, h0, r2, b2, h2.
  unfold both_commit in Hb. rewrite !andb_true_iff, !negb_true_iff, !Z.eqb_neq, !Z.eqb_eq in Hb.
  by destruct Hb as [[[? ?] ?] ?].
Qed.

Lemma chain_id_len : signable_len chain_id.
Proof. done. Qed.

Lemma faulty_stake :
  3 * sumZ (snapshot_weight snapshot) (filter (fun k => ~ honest k) (snapshot_members snapshot))
  < ps_total_eligible_stake snapshot.
Proof. vm_compute. reflexivity. Qed.
End Four.
