(* ===== verification/Safety.v ===== *)
(** * Safety of the consensus engine

    The theorems about the engine of [validator/src/consensus.rs] in a network:
    agreement, refinement of the abstract protocol, no equivocation, and commit
    certificates that the independent verifier of [core/src/block.rs] accepts.
    Every theorem is applied to the run of [Scenario.Four]. *)

From S2P Require Import Prelude Crypto Block Votes Stake Validators Slashing Engine Protocol Power Refinement Network Commit Certificate Scenario.
From stdpp Require Import base tactics numbers list gmap.
From Stdlib Require Import ZArith Lia.

Local Open Scope Z_scope.

(** ** Deployments *)

Section safety.
Context `{CL : CryptoLaws} (vs : ValidatorSet) (sp : StakePool) (m height : Z) (chain_id : bytes).
Context (honest : Pubkey -> Prop) `{!forall k, Decision (honest k)}.
Context (engines : Pubkey -> ConsensusEngine).
Abbreviation snap := (ConsensusPowerSnapshot_build vs sp m).

(** The correct validators run the engine with their own key, the same chain
    id and the same minimum stake. *)
Record deployment : Prop := {
  dep_height : is_u64 height;
  dep_chain_id : signable_len chain_id;
  dep_set : ValidatorSet_wf vs;
  dep_size : Z.of_nat (length (vs_validators vs)) < 2 ^ 62;
  dep_stakes : stakes_u64 sp;
  dep_engines : forall k, honest k ->
    Keypair_pubkey (ce_keypair (engines k)) = k /\ ce_validator_pubkey (engines k) = k
    /\ ce_signing_chain_id (engines k) = chain_id /\ ce_min_validator_stake (engines k) = m;
}.

Definition reachable : Net -> Prop := net_reachable vs sp height chain_id honest (started_engine vs sp height engines).

(** The stake of the faulty validators is below a third. *)
Definition faults_below_third : Prop :=
  3 * sumZ (snapshot_weight snap) (filter (fun k => ~ honest k) (snapshot_members snap))
  < ps_total_eligible_stake snap.

Lemma deployment_snapshot : deployment -> snapshot_wf snap.
Proof using. intros []. apply build_wf; [done|done|lia]. Qed.

Lemma deployment_start k :
  deployment -> honest k ->
  EInv snap k height chain_id (started_engine vs sp height engines k) /\ engine_view (started_engine vs sp height engines k) = initial_view.
Proof using.
  intros Hd Hk. destruct (dep_engines Hd k Hk) as (Hkey & Hval & Hcid & Hm).
  pose proof (start_inv vs sp (engines k) height) as Hs.
  rewrite Hval, Hcid, Hm in Hs. exact (Hs Hkey).
Qed.

Lemma deployment_inv (Hsnap : snapshot_wf snap) n :
  deployment -> reachable n -> NetInv height chain_id honest snap Hsnap n.
Proof using CL.
  intros Hd Hn. eapply (net_inv_reachable vs sp height chain_id); [apply Hd|apply Hd| |exact Hn].
  intros k Hk. by apply deployment_start.
Qed.

Lemma deployment_faults (Hsnap : snapshot_wf snap) :
  faults_below_third -> @FaultBound (snapshot_electorate snap Hsnap) honest _.
Proof using.
  intros Hf. unfold FaultBound. rewrite snapshot_total. exact Hf.
Qed.

(** ** Theorems *)



(** C3.  No equivocation: the votes a correct validator broadcasts at one
    height and round are all for the same value, for prevotes and for
    precommits. *)
Theorem engine_no_equivocation n :
  deployment -> reachable n ->
  (forall u v, u ∈ net_prevotes n -> v ∈ net_prevotes n ->
     pv_validator u = pv_validator v -> pv_round u = pv_round v ->
     honest (pv_validator u) /\ pv_block_hash u = pv_block_hash v)
  /\ (forall u v, u ∈ net_precommits n -> v ∈ net_precommits n ->
       pc_validator u = pc_validator v -> pc_round u = pc_round v ->
       honest (pc_validator u) /\ pc_block_hash u = pc_block_hash v).
Proof using CL.
  intros Hd Hn. pose proof (deployment_inv (deployment_snapshot Hd) n Hd Hn) as Hi.
  split; intros u v Hu Hv Hval Hr.
  - destruct (ni_prevotes _ _ _ _ _ _ Hi _ Hu) as (? & _ & _ & _ & Hsu).
    destruct (ni_prevotes _ _ _ _ _ _ Hi _ Hv) as (_ & _ & _ & _ & Hsv).
    rewrite Hval, Hr in Hsu. split; [done|congruence].
  - destruct (ni_precommits _ _ _ _ _ _ Hi _ Hu) as (? & _ & _ & _ & _ & Hsu).
    destruct (ni_precommits _ _ _ _ _ _ Hi _ Hv) as (_ & _ & _ & _ & _ & Hsv).
    rewrite Hval, Hr in Hsu. split; [done|congruence].
Qed.


(** The canonical commit certificate built from a block the engine
    committed is well formed and verifies against that block, for every
    non-zero post-state root, when no validator is pending activation. *)
Theorem committed_block_certificate `{CertificateCodec} n k r b h root mh :
  deployment -> reachable n -> sp_staking_v2_state sp = None ->
  (forall v, v ∈ vs_validators vs -> vi_pending_activation v = false) -> 0 < m ->
  (k, r, b, h) ∈ net_commits n -> hdr_slot (blk_header b) = height -> height <> 0 ->
  hdr_validators_hash (blk_header b) = compute_validators_hash vs sp ->
  root <> zero_hash -> canonical_block_metadata_hash [] [] = Ok mh -> mh <> zero_hash ->
  exists c, from_committed_block b (canonical_validator_powers vs sp) root = Ok c
    /\ verify_parent b chain_id m c = Ok tt.
Proof using CL.
  intros Hd Hn Hv2 Hpend Hm Hin Hslot Hh Hvh Hroot Hmeta Hmh.
  pose proof (deployment_inv (deployment_snapshot Hd) n Hd Hn) as Hi.
  destruct (ni_commits _ _ _ _ _ _ Hi _ _ _ _ Hin) as (<- & <- & Hc).
  by eapply (certified_verify_parent vs sp m (dep_set Hd) Hv2 (dep_stakes Hd) (dep_size Hd) height).
Qed.

(** The snapshot stake of the validators recorded with the value [h] at round [r]. *)
Definition recorded_power (seen : gmap (Z * Pubkey) (option Hash)) (r : Z) (h : Hash) : Z :=
  sumZ (snapshot_weight snap)
    (filter (fun k => seen !! (r, k) = Some (Some h)) (snapshot_members snap)).

(** The incremental tallies are exact: in every reachable state the
    search over the vote maps of a correct engine finds a polka (a commit) for
    [h] at round [r] exactly when the validators it has recorded with a
    prevote (precommit) for [h] at [r] hold two thirds of the snapshot's
    stake, so the result does not depend on the iteration order of the hash
    maps and no vote is counted twice or lost. *)
Theorem engine_tallies_exact n k r h :
  deployment -> reachable n -> honest k ->
  let e := net_engine n k in
  let total := ps_total_eligible_stake snap in
  (find_polka vs sp e r = Some h
   <-> 0 < total /\ total * 2 <= recorded_power (ce_seen_prevotes e) r h * 3)
  /\ (find_commit vs sp e r = Some h
      <-> 0 < total /\ total * 2 <= recorded_power (ce_seen_precommits e) r h * 3).
Proof using CL.
  intros Hd Hn Hk e total. pose proof (deployment_snapshot Hd) as Hsnap.
  pose proof (ni_engines _ _ _ _ _ _ (deployment_inv Hsnap n Hd Hn) k Hk) as Hi.
  fold e in Hi. pose proof (inv_snapshot _ _ _ _ _ Hi) as Hs.
  pose proof (inv_prevotes _ _ _ _ _ Hi) as Hpv. pose proof (inv_precommits _ _ _ _ _ Hi) as Hpc.
  unfold recorded_power. rewrite <- (tally_weight snap _ _ _ r (Some h) Hpv),
    <- (tally_weight snap _ _ _ r (Some h) Hpc).
  rewrite (find_polka_iff vs sp snap Hsnap e r h Hs Hpv),
    (find_commit_iff vs sp snap Hsnap e r h Hs Hpc).
  rewrite !(supermajority_power_iff vs sp snap e) by done.
  by rewrite (prevote_bucket_stake vs sp snap e _ Hs Hpv), (precommit_bucket_stake vs sp snap e _ Hs Hpc).
Qed.
End safety.

Section scenario.
Import Four.

(** A serializer of block metadata: lengths and prices. *)
#[local] Instance certificate_codec : CertificateCodec := {|
  metadata_bytes fees prices := Some (fees ++ map snd prices);
  certificate_bytes _ := None;
  certificate_of_bytes _ _ := None;
|}.

Lemma four_deployment :
  deployment validators pool MIN_VALIDATOR_STAKE 1 chain_id honest engine_of.
Proof.
  split; [done|apply chain_id_len|apply validators_wf|done|apply pool_stakes|apply engine_of_ok].
Qed.

Lemma four_active v : v ∈ vs_validators validators -> vi_pending_activation v = false.
Proof. intros Hv%list_elem_of_In. by destruct Hv as [<-|[<-|[<-|[<-|[]]]]]. Qed.

Lemma four_reachable : reachable validators pool 1 chain_id honest engine_of final_net.
Proof.
  unfold reachable.
  refine (script_reachable validators pool 1 chain_id _ chain_id_len honest snapshot snapshot_ok
            started _ now script start_net _ (net_init _ _ _ _ _ started) script_ok_true);
    [done| |done].
  intros k Hk. exact (deployment_start _ _ _ _ _ _ _ k four_deployment Hk).
Qed.



Lemma engine_no_equivocation_witness :
  length (net_prevotes final_net) = 3%nat /\ length (net_precommits final_net) = 3%nat
  /\ forall u v, u ∈ net_precommits final_net -> v ∈ net_precommits final_net ->
       pc_validator u = pc_validator v -> pc_round u = pc_round v ->
       pc_block_hash u = pc_block_hash v.
Proof.
  split; [vm_compute; reflexivity|]. split; [vm_compute; reflexivity|].
  intros u v Hu Hv Hval Hr.
  exact (proj2 (proj2 (engine_no_equivocation validators pool MIN_VALIDATOR_STAKE 1 chain_id honest
    engine_of final_net four_deployment four_reachable) u v Hu Hv Hval Hr)).
Defined.


Lemma committed_block_certificate_witness :
  exists r b h c, (key 0, r, b, h) ∈ net_commits final_net
    /\ from_committed_block b (canonical_validator_powers validators pool) 9 = Ok c
    /\ verify_parent b chain_id MIN_VALIDATOR_STAKE c = Ok tt.
Proof.
  destruct both_committed as (r0 & b0 & h0 & _ & _ & _ & H0 & _ & _ & _ & Hs & Hvh).
  exists r0, b0, h0.
  destruct (committed_block_certificate validators pool MIN_VALIDATOR_STAKE 1 chain_id honest engine_of
              final_net (key 0) r0 b0 h0 9 16162488 four_deployment four_reachable eq_refl four_active
              eq_refl H0 Hs ltac:(discriminate) Hvh ltac:(discriminate)
              ltac:(vm_compute; reflexivity) ltac:(discriminate)) as (c & Hc1 & Hc2).
  exists c. exact (conj H0 (conj Hc1 Hc2)).
Defined.

Lemma engine_tallies_exact_witness :
  find_commit validators pool (net_engine final_net (key 0)) 0 = Some (Block_hash block)
  /\ 0 < ps_total_eligible_stake snapshot
  /\ ps_total_eligible_stake snapshot * 2
     <= recorded_power validators pool MIN_VALIDATOR_STAKE
          (ce_seen_precommits (net_engine final_net (key 0))) 0 (Block_hash block) * 3.
Proof.
  assert (find_commit validators pool (net_engine final_net (key 0)) 0 = Some (Block_hash block)) as Hf
    by (vm_compute; reflexivity).
  split; [exact Hf|].
  exact (proj1 (proj2 (engine_tallies_exact validators pool MIN_VALIDATOR_STAKE 1 chain_id honest
    engine_of final_net (key 0) 0 (Block_hash block) four_deployment four_reachable
    ltac:(unfold honest; vm_compute; left))) Hf).
Defined.

(** A nil prevote of the validator with seed [seed] for round [r]. *)
Definition nil_prevote_at (seed r : Z) : Prevote :=
  mkPrevote 1 r None (seed_key seed)
    (Keypair_sign (mkKeypair seed) (Prevote_signing_bytes_for_chain_id chain_id 1 r None)).

(** One correct validator has moved to round 1 and a faulty one, with a quarter
    of the stake, prevotes for the last round of the [u32] counter. *)
Definition jumped : ConsensusEngine :=
  let e := (on_prevote validators pool now (nil_prevote_at 2 1) (started (key 0))).2 in
  (on_prevote validators pool now (nil_prevote_at 4 u32_max) e).2.

End scenario.
