(* ===== verification/Liveness.v ===== *)
(** * Progress of the consensus engine

    Once a correct engine knows a block, precommits of two thirds of the stake
    for it, delivered in any order, make the engine commit it: the incremental
    tallies, the duplicate filter and the search over the vote maps cannot lose
    the quorum.  The precommits arrive through [on_precommit] of
    [validator/src/consensus.rs], one call per message, as in the replay of
    buffered votes. *)

From S2P Require Import Prelude Crypto Block Votes Stake Validators Slashing Engine Protocol Power Refinement Network Commit Certificate Scenario Safety.
From stdpp Require Import base tactics numbers list gmap.
From Stdlib Require Import ZArith Lia.

Local Open Scope Z_scope.

Section progress.
Context `{CL : CryptoLaws} (vs : ValidatorSet) (sp : StakePool).
Context (snap : ConsensusPowerSnapshot) (Hsnap : snapshot_wf snap).
Context (me : Pubkey) (height : Z) (chain_id : bytes) (now r : Z) (h : Hash).
Abbreviation el := (fun k => ps_eligible_power snap !! k).
Abbreviation Inv := (EInv snap me height chain_id).
Implicit Types e : ConsensusEngine.

(** A message for [h] at round [r] of the height, from another validator. *)
Definition votes_for (p : Precommit) : Prop :=
  pc_height p = height /\ pc_round p = r /\ pc_block_hash p = Some h /\ pc_validator p <> me.

(** [k] precommits [h]: its vote is recorded, or nothing is recorded for it and
    a vote of it with a valid signature is among the messages to come. *)
Definition backed (ps : list Precommit) e (k : Pubkey) : Prop :=
  ce_seen_precommits e !! (r, k) = Some (Some h)
  \/ ce_seen_precommits e !! (r, k) = None
     /\ exists p, p ∈ ps /\ pc_validator p = k
          /\ Precommit_verify_signature_with_chain_id chain_id p = true.

(** A set of validators with two thirds of the stake that precommit [h]. *)
Definition quorum_backed (ps : list Precommit) e (Q : list Pubkey) : Prop :=
  NoDup Q /\ (forall k, k ∈ Q -> k ∈ snapshot_members snap)
  /\ ps_total_eligible_stake snap * 2 <= sumZ (snapshot_weight snap) Q * 3
  /\ forall k, k ∈ Q -> backed ps e k.

(** The state before the commit: the block is known, the round is reached and
    the recorded precommits do not hold a quorum yet. *)
Record awaiting e (b : Block) : Prop := {
  aw_inv : Inv e;
  aw_step : ce_step e <> Commit_;
  aw_round : r <= ce_round e;
  aw_block : ce_proposal_blocks e !! h = Some b;
  aw_open : has_supermajority_power vs sp e (precommit_bucket_power vs sp e (r, Some h)) = false;
}.

Lemma bucket_power e x :
  Inv e ->
  has_supermajority_power vs sp e (precommit_bucket_power vs sp e (r, x)) = true
  <-> 0 < ps_total_eligible_stake snap
      /\ ps_total_eligible_stake snap * 2
         <= sumZ (snapshot_weight snap)
              (filter (fun k => ce_seen_precommits e !! (r, k) = Some x) (snapshot_members snap)) * 3.
Proof using Hsnap.
  intros Hi. rewrite (supermajority_power_iff vs sp snap) by apply Hi.
  rewrite (precommit_bucket_stake vs sp snap e _ (inv_snapshot _ _ _ _ _ Hi) (inv_precommits _ _ _ _ _ Hi)).
  by rewrite (tally_weight snap _ _ _ r x (inv_precommits _ _ _ _ _ Hi)).
Qed.

(** While a quorum backs [h], no other value has a supermajority. *)
Lemma backed_excludes ps e Q x :
  Inv e -> quorum_backed ps e Q ->
  has_supermajority_power vs sp e (precommit_bucket_power vs sp e (r, x)) = true -> x = Some h.
Proof using Hsnap.
  intros Hi (Hnd & Hm & Hw & Hb) [Hpos Hx]%bucket_power; [|done].
  set (V := filter _ _) in Hx.
  assert (forall k, 0 <= snapshot_weight snap k) as Hwt by (intros k; by apply snapshot_weight_nonneg).
  assert (forall k, k ∈ V -> k ∈ snapshot_members snap) as Hv
    by (intros k [_ ?]%list_elem_of_filter; done).
  pose proof (sumZ_overlap (snapshot_weight snap) (snapshot_members snap) Q V
    (fun k _ => Hwt k) Hnd (NoDup_filter _ _ (NoDup_fst_map_to_list _)) Hm Hv) as Ho.
  pose proof (map_total_weight snap) as Htot.
  pose proof (snapshot_total snap Hsnap) as Hst. unfold total_weight in Hst. simpl in Hst.
  destruct (filter (fun k => k ∈ V) Q) as [|k l] eqn:HI.
  - unfold sumZ at 4 in Ho. simpl in Ho. lia.
  - assert (k ∈ filter (fun k => k ∈ V) Q) as [HkV HkQ]%list_elem_of_filter by (rewrite HI; left).
    apply list_elem_of_filter in HkV as [HkV _]. destruct (Hb k HkQ) as [|[]]; congruence.
Qed.

(** A quorum whose votes are all recorded is a supermajority. *)
Lemma recorded_quorum e Q :
  Inv e -> quorum_backed [] e Q -> 0 < ps_total_eligible_stake snap ->
  has_supermajority_power vs sp e (precommit_bucket_power vs sp e (r, Some h)) = true.
Proof using Hsnap.
  intros Hi (Hnd & Hm & Hw & Hb) Hpos. apply bucket_power; [done|]. split; [done|].
  etransitivity; [exact Hw|]. apply Z.mul_le_mono_nonneg_r; [lia|]. apply sumZ_subset.
  - intros k _. by apply snapshot_weight_nonneg.
  - done.
  - intros k Hk. apply list_elem_of_filter. split; [|by apply Hm].
    destruct (Hb k Hk) as [|(_ & p & []%not_elem_of_nil & _)]; done.
Qed.

(** Handling one vote for [h]: either nothing relevant changes, or the vote is
    recorded and the rules run. *)
Lemma on_precommit_cases p e :
  Inv e -> ce_step e <> Commit_ -> votes_for p ->
  (exists a, on_precommit vs sp now p e = (a, e)
     /\ (Precommit_verify_signature_with_chain_id chain_id p = false
         \/ pc_validator p ∉ snapshot_members snap
         \/ is_Some (ce_seen_precommits e !! (r, pc_validator p))))
  \/ exists w, on_precommit vs sp now p e = precommit_rules vs sp now r (record_precommit p w e)
       /\ el (pc_validator p) = Some w /\ ce_seen_precommits e !! (r, pc_validator p) = None
       /\ Precommit_verify_signature_with_chain_id chain_id p = true.
Proof using.
  intros Hi Hs (Hh & Hr & Hx & Hne). pose proof Hi as Hi'. einv Hi'. unfold on_precommit. cbv zeta.
  rewrite Hheight, Hh, Z.ltb_irrefl, Hchain, Hr, Hx.
  destruct (Precommit_verify_signature_with_chain_id chain_id p) eqn:Hver; cbn [negb];
    [|left; eexists; split; [done|by left]].
  rewrite (eligible_stake_snap vs sp snap) by done.
  destruct (ps_eligible_power snap !! pc_validator p) as [w|] eqn:Hw.
  2: { left. eexists. split; [done|]. right. left. intros Hm%elem_of_snapshot_members.
       rewrite Hw in Hm. by destruct Hm. }
  destruct (ce_seen_precommits e !! (r, pc_validator p)) as [y|] eqn:Hseen.
  - left. repeat case_match; (eexists; split; [done|]; right; right; eauto).
  - right. rewrite bool_decide_eq_false_2 by done. by exists w.
Qed.

(** After a recorded vote, with the round reached, the rules commit [h] when
    its bucket is full and otherwise only schedule a timeout. *)
Lemma rules_commit ps e b Q :
  Inv e -> ce_step e <> Commit_ -> quorum_backed ps e Q ->
  ce_proposal_blocks e !! h = Some b -> r <= ce_round e ->
  let full := has_supermajority_power vs sp e (precommit_bucket_power vs sp e (r, Some h)) in
  if full
  then exists sigs e', precommit_rules vs sp now r e
         = (CommitBlock (ce_height e) r (with_commit r sigs b) h, e')
  else exists a, precommit_rules vs sp now r e = (a, e).
Proof using Hsnap.
  intros Hi Hs HQ Hb Hr. pose proof Hi as Hi'. einv Hi'. cbv zeta.
  pose proof (find_commit_iff vs sp snap Hsnap e r) as Hf.
  destruct (has_supermajority_power _ _ _ _) eqn:Hfull; unfold precommit_rules; cbv zeta.
  - rewrite (proj2 (Hf h Hsnp Htpc)), Hb by done. rewrite transition_commit_any by done. by eexists _, _.
  - destruct (find_commit vs sp e r) as [h'|] eqn:Hc.
    { pose proof (backed_excludes ps e Q (Some h') Hi HQ (proj1 (Hf h' Hsnp Htpc) eq_refl)) as [= ->].
      by rewrite (proj1 (Hf h Hsnp Htpc) eq_refl) in Hfull. }
    destruct (has_supermajority_power vs sp e (precommit_bucket_power vs sp e (r, None))) eqn:Hn.
    { by pose proof (backed_excludes ps e Q None Hi HQ Hn). }
    rewrite andb_false_r. unfold round_skip_rule. rewrite (proj2 (Z.ltb_ge _ _)) by done. by eexists.
Qed.

Lemma backed_skip p ps e k :
  (Precommit_verify_signature_with_chain_id chain_id p = false
   \/ pc_validator p ∉ snapshot_members snap
   \/ is_Some (ce_seen_precommits e !! (r, pc_validator p))) ->
  k ∈ snapshot_members snap -> backed (p :: ps) e k -> backed ps e k.
Proof using.
  intros Hp Hk [Hs|(Hn & q & [->|Hq]%elem_of_cons & Hv & Hver)]; [by left| |right; eauto].
  subst k. destruct Hp as [?|[?|[y ?]]]; [congruence|done|congruence].
Qed.

Lemma backed_record p w ps e k :
  votes_for p -> backed (p :: ps) e k -> backed ps (record_precommit p w e) k.
Proof using.
  intros (_ & Hr & Hx & _) Hb. unfold backed, record_precommit. simpl. rewrite Hr, Hx.
  destruct (decide (pc_validator p = k)) as [<-|Hne]; [left; by rewrite lookup_insert_eq|].
  rewrite !lookup_insert_ne by congruence.
  destruct Hb as [?|(Hn & q & [->|Hq]%elem_of_cons & Hv & Hver)]; [by left|done|right; eauto].
Qed.

Lemma inv_record p w e :
  Inv e -> votes_for p -> r <= ROUND_CAP -> el (pc_validator p) = Some w ->
  ce_seen_precommits e !! (r, pc_validator p) = None ->
  Precommit_verify_signature_with_chain_id chain_id p = true ->
  Inv (record_precommit p w e).
Proof using.
  intros Hi (Hh & Hr & Hx & Hme) Hcap Hw Hn Hver.
  apply inv_record_precommit; rewrite ?Hr; try done. rewrite <- Hh, <- Hr. exact Hver.
Qed.

(** Delivery of the votes, in the order of the list. *)
Lemma delivery_commits ps e b Q :
  awaiting e b -> r <= ROUND_CAP -> 0 < ps_total_eligible_stake snap ->
  (forall p, p ∈ ps -> votes_for p) -> quorum_backed ps e Q ->
  exists sigs, CommitBlock height r (with_commit r sigs b) h
               ∈ (replay (on_precommit vs sp now) ps e).1.
Proof using Hsnap.
  intros He Hcap Hpos. revert e He. induction ps as [|p ps IH]; intros e [Hi Hs Hr Hb Ho] Hps HQ.
  { by rewrite (recorded_quorum e Q Hi HQ Hpos) in Ho. }
  destruct HQ as (Hnd & Hm & Hw & Hback). cbn [replay].
  assert (forall q, q ∈ ps -> votes_for q) as Hps' by (intros q Hq; apply Hps; by right).
  destruct (on_precommit_cases p e Hi Hs) as [(a & -> & Hskip)|(w & -> & Hwt & Hn & Hver)];
    [apply Hps; left|..].
  - destruct (IH e) as [sigs Hin]; [by split|done| |].
    { split_and!; try done. intros k Hk. apply (backed_skip p); auto. }
    exists sigs. destruct (replay _ ps e) as [actions e']. cbn [fst] in *.
    destruct (is_NoAction a); [done|by right].
  - assert (quorum_backed ps (record_precommit p w e) Q) as HQ'.
    { split_and!; try done. intros k Hk. apply backed_record; [apply Hps; left|auto]. }
    assert (Inv (record_precommit p w e)) as Hi1
      by (apply inv_record; try done; apply Hps; left).
    pose proof (rules_commit ps (record_precommit p w e) b Q Hi1 Hs HQ' Hb Hr) as Hrules. cbv zeta in Hrules.
    destruct (has_supermajority_power vs sp (record_precommit p w e) _) eqn:Hfull.
    + destruct Hrules as (sigs & e' & ->). exists sigs.
      destruct (replay _ ps e') as [actions e2]. cbn [fst is_NoAction].
      rewrite (inv_height _ _ _ _ _ Hi1). left.
    + destruct Hrules as (a & ->). destruct (IH (record_precommit p w e)) as [sigs Hin]; [by split|done..|].
      exists sigs. destruct (replay _ ps _) as [actions e']. cbn [fst] in *.
      destruct (is_NoAction a); [done|by right].
Qed.
End progress.

Section network.
Context `{CL : CryptoLaws} (vs : ValidatorSet) (sp : StakePool) (m height : Z) (chain_id : bytes).
Context (honest : Pubkey -> Prop) `{!forall k, Decision (honest k)}.
Context (engines : Pubkey -> ConsensusEngine).
Abbreviation snap := (ConsensusPowerSnapshot_build vs sp m).

(** C5.  Progress: let a correct engine, in any reachable state of the network,
    know the block of hash [h], have reached round [r], and not have recorded
    a quorum of precommits for it.  When precommits for [h] at [r] arrive, in
    any order and mixed with forged, duplicate, conflicting and ineligible
    ones, and the validators that back [h] by recorded or arriving votes hold
    two thirds of the stake, the engine commits the block of hash [h] at that
    round while it handles them; no other vote, timeout or round change is
    needed. *)
Theorem quorum_delivery_commits n k now r h b ps Q :
  deployment vs sp m height chain_id honest engines ->
  reachable vs sp height chain_id honest engines n -> honest k ->
  let e := net_engine n k in
  ce_step e <> Commit_ -> r <= ce_round e <= ROUND_CAP ->
  ce_proposal_blocks e !! h = Some b ->
  find_commit vs sp e r <> Some h ->
  0 < ps_total_eligible_stake snap ->
  (forall p, p ∈ ps -> votes_for k height r h p) ->
  quorum_backed snap chain_id r h ps e Q ->
  exists sigs, CommitBlock height r (with_commit r sigs b) h
               ∈ (replay (on_precommit vs sp now) ps e).1
    /\ Block_hash (with_commit r sigs b) = h.
Proof using CL.
  intros Hd Hn Hk e Hs Hr Hb Hf Hpos Hps HQ. pose proof (deployment_snapshot _ _ _ _ _ _ _ Hd) as Hsnap.
  pose proof (ni_engines _ _ _ _ _ _ (deployment_inv _ _ _ _ _ _ _ Hsnap n Hd Hn) k Hk) as Hi.
  fold e in Hi. destruct (delivery_commits vs sp snap Hsnap k height chain_id now r h ps e b Q)
    as [sigs Hin]; try done; [|lia|].
  - split; try done; [lia|]. apply not_true_is_false.
    by rewrite <- (find_commit_iff vs sp snap Hsnap e r h (inv_snapshot _ _ _ _ _ Hi)
      (inv_precommits _ _ _ _ _ Hi)).
  - exists sigs. split; [done|]. rewrite Block_hash_with_commit. by apply (inv_blocks _ _ _ _ _ Hi).
Qed.
End network.

Section scenario.
Import Four.

(** The four validators after the exchange of prevotes: the correct ones have
    precommitted the block and none has received a precommit. *)
Definition mid_net : Net := script_run validators pool now (take 9 script) start_net.

Lemma mid_reachable : reachable validators pool 1 chain_id honest engine_of mid_net.
Proof.
  unfold reachable.
  refine (script_reachable validators pool 1 chain_id _ chain_id_len honest snapshot snapshot_ok
            started _ now (take 9 script) start_net _ (net_init _ _ _ _ _ started) _);
    [done| |done|vm_compute; reflexivity].
  intros k Hk. exact (deployment_start _ _ _ _ _ _ _ k four_deployment Hk).
Qed.

(** A vote with a forged signature, the votes of the second and the third
    validator, one of them twice. *)
Definition arriving : list Precommit :=
  let others := filter (fun p => pc_validator p <> key 0) (net_precommits mid_net) in
  map (fun p => mkPrecommit (pc_height p) (pc_round p) (pc_block_hash p) (key 3)
                  (pc_signature p) (pc_timestamp p)) (take 1 others)
  ++ take 1 others ++ others.

Lemma arriving_length : length arriving = 4%nat.
Proof. vm_compute. reflexivity. Qed.

Lemma arriving_votes p : p ∈ arriving -> votes_for (key 0) 1 0 (Block_hash block) p.
Proof.
  assert (Forall (fun p => bool_decide (pc_height p = 1 /\ pc_round p = 0
    /\ pc_block_hash p = Some (Block_hash block) /\ pc_validator p <> key 0) = true) arriving) as Hall
    by (vm_compute; repeat constructor).
  intros Hp. rewrite Forall_forall in Hall. by apply Hall, bool_decide_eq_true_1 in Hp.
Qed.

(** [backed], decided. *)
Definition backedb (ps : list Precommit) (e : ConsensusEngine) (k : Pubkey) : bool :=
  match ce_seen_precommits e !! (0, k) with
  | Some x => bool_decide (x = Some (Block_hash block))
  | None => existsb (fun p => (pc_validator p =? k)
              && Precommit_verify_signature_with_chain_id chain_id p) ps
  end.

Lemma backedb_true ps e k : backedb ps e k = true -> backed chain_id 0 (Block_hash block) ps e k.
Proof.
  unfold backedb, backed. destruct (_ !! _) as [x|]; [intros ->%bool_decide_eq_true_1; by left|].
  intros (p & Hin & [Hv%Z.eqb_eq Hs]%andb_true_iff)%List.existsb_exists.
  right. split; [done|]. exists p. by rewrite list_elem_of_In.
Qed.

Lemma arriving_quorum :
  quorum_backed snapshot chain_id 0 (Block_hash block) arriving (net_engine mid_net (key 0))
    [key 0; key 1; key 2].
Proof.
  split_and!.
  - apply (bool_decide_unpack _). vm_compute. exact I.
  - intros k Hk. assert (k ∈ filter (fun k => k ∈ snapshot_members snapshot) [key 0; key 1; key 2])
      as [? _]%list_elem_of_filter; [|done].
    replace (filter _ _) with [key 0; key 1; key 2]; [done|vm_compute; reflexivity].
  - vm_compute. discriminate.
  - intros k Hk. apply backedb_true.
    assert (forallb (backedb arriving (net_engine mid_net (key 0))) [key 0; key 1; key 2] = true) as Hall
      by (vm_compute; reflexivity).
    rewrite List.forallb_forall in Hall. apply Hall. by apply list_elem_of_In.
Qed.

Lemma quorum_delivery_commits_witness :
  length arriving = 4%nat
  /\ exists b sigs, CommitBlock 1 0 (with_commit 0 sigs b) (Block_hash block)
       ∈ (replay (on_precommit validators pool now) arriving (net_engine mid_net (key 0))).1.
Proof.
  split; [exact arriving_length|].
  destruct (ce_proposal_blocks (net_engine mid_net (key 0)) !! Block_hash block) as [b|] eqn:Hb;
    [|vm_compute in Hb; discriminate].
  destruct (quorum_delivery_commits validators pool MIN_VALIDATOR_STAKE 1 chain_id honest engine_of
    mid_net (key 0) now 0 (Block_hash block) b arriving [key 0; key 1; key 2]
    four_deployment mid_reachable ltac:(unfold honest; vm_compute; left)
    ltac:(vm_compute; discriminate) ltac:(vm_compute; split; discriminate) Hb
    ltac:(vm_compute; discriminate) ltac:(vm_compute; reflexivity) arriving_votes arriving_quorum)
    as (sigs & Hin & _).
  exists b, sigs. exact Hin.
Defined.
End scenario.
