(* ===== verification/Accountability.v ===== *)
(** * Accountability

    What the slashing evidence of [core/src/consensus.rs] proves about the
    validators of a network: evidence against a validator that runs the engine
    exists only through the encoding of nil as the zero hash. *)

From S2P Require Import Prelude Crypto Block Votes Stake Validators Slashing Engine Protocol Power Refinement Network Commit Certificate Scenario Safety.
From stdpp Require Import base tactics numbers list gmap.
From Stdlib Require Import ZArith Lia.

Local Open Scope Z_scope.

(** Two vote values with the same encoding. *)
Lemma hash_or_nil_eq x y :
  hash_or_nil x = hash_or_nil y ->
  x = y \/ (x = None /\ y = Some zero_hash) \/ (x = Some zero_hash /\ y = None).
Proof. destruct x, y; simpl; intros; subst; auto. Qed.

(** The pair of values that only differ before encoding. *)
Definition nil_and_zero (x y : option Hash) : Prop :=
  (x = None /\ y = Some zero_hash) \/ (x = Some zero_hash /\ y = None).

Section evidence.
Context `{CL : CryptoLaws} (vs : ValidatorSet) (sp : StakePool) (m height : Z) (chain_id : bytes).
Context (honest : Pubkey -> Prop) `{!forall k, Decision (honest k)}.
Context (engines : Pubkey -> ConsensusEngine).
Abbreviation unforged_pv := (unforged_prevote height chain_id honest).
Abbreviation unforged_pc := (unforged_precommit height chain_id honest).

Lemma prevotes_same_value n u v :
  deployment vs sp m height chain_id honest engines ->
  reachable vs sp height chain_id honest engines n ->
  prevote_typed u -> prevote_typed v -> unforged_pv n u -> unforged_pv n v ->
  honest (pv_validator u) -> pv_validator u = pv_validator v ->
  pv_height u = height -> pv_height v = height -> pv_round u = pv_round v ->
  Prevote_verify_signature_with_chain_id chain_id u = true ->
  Prevote_verify_signature_with_chain_id chain_id v = true ->
  hash_or_nil (pv_block_hash u) = hash_or_nil (pv_block_hash v).
Proof using CL.
  intros Hd Hn Htu Htv Huu Huv Hk Hval Hhu Hhv Hr Hsu Hsv.
  pose proof (deployment_inv _ _ _ _ _ _ _ (deployment_snapshot _ _ _ _ _ _ _ Hd) n Hd Hn) as Hi.
  destruct (unforged_prevote_cast _ _ (dep_height _ _ _ _ _ _ _ Hd) (dep_chain_id _ _ _ _ _ _ _ Hd)
              _ _ _ n u Hi Htu Huu Hk Hhu Hsu) as (x & Hx & Hxu). rewrite Hval in Hk.
  destruct (unforged_prevote_cast _ _ (dep_height _ _ _ _ _ _ _ Hd) (dep_chain_id _ _ _ _ _ _ _ Hd)
              _ _ _ n v Hi Htv Huv Hk Hhv Hsv) as (y & Hy & Hyv).
  rewrite Hval, Hr in Hx. congruence.
Qed.

Lemma precommits_same_value n u v :
  deployment vs sp m height chain_id honest engines ->
  reachable vs sp height chain_id honest engines n ->
  precommit_typed u -> precommit_typed v -> unforged_pc n u -> unforged_pc n v ->
  honest (pc_validator u) -> pc_validator u = pc_validator v ->
  pc_height u = height -> pc_height v = height -> pc_round u = pc_round v ->
  Precommit_verify_signature_with_chain_id chain_id u = true ->
  Precommit_verify_signature_with_chain_id chain_id v = true ->
  hash_or_nil (pc_block_hash u) = hash_or_nil (pc_block_hash v).
Proof using CL.
  intros Hd Hn Htu Htv Huu Huv Hk Hval Hhu Hhv Hr Hsu Hsv.
  pose proof (deployment_inv _ _ _ _ _ _ _ (deployment_snapshot _ _ _ _ _ _ _ Hd) n Hd Hn) as Hi.
  destruct (unforged_precommit_cast _ _ (dep_height _ _ _ _ _ _ _ Hd) (dep_chain_id _ _ _ _ _ _ _ Hd)
              _ _ _ n u Hi Htu Huu Hk Hhu Hsu) as (x & Hx & Hxu). rewrite Hval in Hk.
  destruct (unforged_precommit_cast _ _ (dep_height _ _ _ _ _ _ _ Hd) (dep_chain_id _ _ _ _ _ _ _ Hd)
              _ _ _ n v Hi Htv Huv Hk Hhv Hsv) as (y & Hy & Hyv).
  rewrite Hval, Hr in Hx. congruence.
Qed.

(** C6.  A validator that runs the engine cannot be convicted of a double vote
    by evidence built from signatures it made: [verify_with_chain_id] accepts
    two of its votes of this height only when one of them is nil and the other
    names the all-zero hash. *)
Theorem honest_not_convicted n ev :
  deployment vs sp m height chain_id honest engines ->
  reachable vs sp height chain_id honest engines n ->
  honest (ev_validator ev) -> SlashingEvidence_verify_with_chain_id chain_id ev = true ->
  (forall u v, ev_offense ev = DoublePrevoteV2 u v -> pv_height u = height ->
     prevote_typed u -> prevote_typed v -> unforged_pv n u -> unforged_pv n v ->
     nil_and_zero (pv_block_hash u) (pv_block_hash v))
  /\ (forall u v, ev_offense ev = DoublePrecommitV2 u v -> pc_height u = height ->
       precommit_typed u -> precommit_typed v -> unforged_pc n u -> unforged_pc n v ->
       nil_and_zero (pc_block_hash u) (pc_block_hash v)).
Proof using CL.
  intros Hd Hn Hk Hv. split; intros u v Ho Hh Htu Htv Huu Huv;
    unfold SlashingEvidence_verify_with_chain_id in Hv; rewrite Ho in Hv;
    rewrite !andb_true_iff, !Z.eqb_eq, bool_decide_eq_true in Hv;
    destruct Hv as [[[[[[Hheq Hreq] Hne] Hval] Hoff] Hsu] Hsv]; rewrite <- Hoff in Hk.
  - destruct (hash_or_nil_eq (pv_block_hash u) (pv_block_hash v)) as [?|?]; [|done|done].
    apply (prevotes_same_value n u v); try done. congruence.
  - destruct (hash_or_nil_eq (pc_block_hash u) (pc_block_hash v)) as [?|?]; [|done|done].
    apply (precommits_same_value n u v); try done. congruence.
Qed.

(** A vote for [x] that carries the signature the validator made for nil. *)
Definition relabelled_prevote (kp : Keypair) (h r : Z) (x : option Hash) : Prevote :=
  mkPrevote h r x (Keypair_pubkey kp)
    (Keypair_sign kp (Prevote_signing_bytes_for_chain_id chain_id h r None)).
Definition relabelled_precommit (kp : Keypair) (h r t : Z) (x : option Hash) : Precommit :=
  mkPrecommit h r x (Keypair_pubkey kp)
    (Keypair_sign kp (Precommit_signing_bytes_for_chain_id chain_id h r None t)) t.

(** C7.  The nil vote of a validator is evidence against it: the signature of a
    prevote (precommit) for nil is also a signature of a prevote (precommit)
    for the all-zero hash, and the strict verifier accepts the two as a double
    vote. *)
Theorem nil_vote_convicts kp h r t reporter slot :
  let pv := relabelled_prevote kp h r in
  let pc := relabelled_precommit kp h r t in
  SlashingEvidence_verify_with_chain_id chain_id
    (mkSlashingEvidence (DoublePrevoteV2 (pv None) (pv (Some zero_hash))) (Keypair_pubkey kp) slot
       reporter t) = true
  /\ SlashingEvidence_verify_with_chain_id chain_id
    (mkSlashingEvidence (DoublePrecommitV2 (pc None) (pc (Some zero_hash))) (Keypair_pubkey kp) slot
       reporter t) = true.
Proof using CL.
  cbv zeta. unfold SlashingEvidence_verify_with_chain_id, Prevote_verify_signature_with_chain_id,
    Precommit_verify_signature_with_chain_id. simpl. rewrite !Z.eqb_refl.
  rewrite <- Prevote_nil_zero_bytes, <- Precommit_nil_zero_bytes, !Keypair_verify_sign.
  done.
Qed.
(** ** Proposing again in a later round

    The proposer's task builds a block, sets its validator-set hash, signs it with the
    validator's key and hands it to the engine; it does so in every round in which the
    validator is the proposer. *)

Definition with_validators_hash (h : Hash) (b : Block) : Block :=
  mkBlock
    (mkBlockHeader (hdr_slot (blk_header b)) (hdr_parent_hash (blk_header b))
       (hdr_state_root (blk_header b)) (hdr_tx_root (blk_header b))
       (hdr_timestamp (blk_header b)) h (hdr_validator (blk_header b)) (hdr_signature (blk_header b)))
    (blk_transactions b) (blk_tx_fees_paid b) (blk_oracle_prices b)
    (blk_commit_round b) (blk_commit_signatures b).

Definition sign_proposal_block (kp : Keypair) (b : Block) : Block :=
  Block_sign_with_chain_id kp chain_id (with_validators_hash (compute_validators_hash vs sp) b).

Definition propose_block (now : Z) (b : Block) (e : ConsensusEngine) : ConsensusAction * ConsensusEngine :=
  create_proposal vs sp now (sign_proposal_block (ce_keypair e) b) e.

(** An engine that waits for a proposal and has neither a lock nor a valid value. *)
Definition unlocked_proposer (e : ConsensusEngine) : Prop :=
  ce_step e = Propose /\ ce_locked_value e = None /\ ce_valid_value e = None.

Definition broadcasts (a : ConsensusAction) (p : Proposal) : Prop :=
  BroadcastProposal p ∈ action_leaves a.

Lemma propose_block_broadcasts now b n k :
  deployment vs sp m height chain_id honest engines ->
  reachable vs sp height chain_id honest engines n -> honest k -> is_u64 now ->
  ce_round (net_engine n k) <= ROUND_CAP -> unlocked_proposer (net_engine n k) ->
  Keypair_pubkey (ce_keypair (net_engine n k)) = k
  /\ exists p, broadcasts (propose_block now b (net_engine n k)).1 p
       /\ pr_block p = sign_proposal_block (ce_keypair (net_engine n k)) b.
Proof using CL.
  intros Hd Hn Hk Hnow Hcap (Hs & Hl & Hv).
  pose proof (deployment_snapshot _ _ _ _ _ _ _ Hd) as Hsnap.
  pose proof (ni_engines _ _ _ _ _ _ (deployment_inv _ _ _ _ _ _ _ Hsnap n Hd Hn) k Hk) as Hi.
  split; [by apply (inv_key _ _ _ _ _ Hi)|].
  set (e := net_engine n k) in *. set (b' := sign_proposal_block (ce_keypair e) b).
  assert (proposal_value b' e = Some (b', -1)) as Hpv by (unfold proposal_value; by rewrite Hl, Hv).
  pose proof (inv_round _ _ _ _ _ Hi) as Hr.
  assert (0 <= ce_round e < u32_max) as Hr' by (unfold is_u32, ROUND_CAP, u32_max in *; lia).
  destruct (create_proposal_round vs sp _ Hsnap k height chain_id now Hnow b' e b' (-1) Hi Hr' Hs Hpv)
    as (p & Hp & Hround & Hb).
  exists p. split; [|done]. unfold propose_block. fold b'.
  rewrite (create_proposal_eq vs sp now b' e b' (-1) Hs Hpv) in Hp, Hround |- *. cbv zeta in *. cbn [fst snd] in *.
  rewrite Hround, Hp. cbn [default]. unfold broadcasts. rewrite action_leaves_pair. left.
Qed.

(** C8.  Proposing twice is punished as proposing two blocks: a correct validator that is
    the proposer of two rounds of one height, without a valid value in between, signs and
    broadcasts a fresh block each time, as the protocol asks of it; the header does not
    name the round, so any two such blocks that differ convict it before the strict
    verifier of the slashing instruction. *)
Theorem reproposal_convicts n1 n2 k now1 now2 b1 b2 slot reporter timestamp :
  deployment vs sp m height chain_id honest engines -> honest k -> is_u64 now1 -> is_u64 now2 ->
  (forall n, n = n1 \/ n = n2 ->
     reachable vs sp height chain_id honest engines n
     /\ unlocked_proposer (net_engine n k) /\ ce_round (net_engine n k) <= ROUND_CAP) ->
  (forall b, b = b1 \/ b = b2 -> hdr_slot (blk_header b) = height /\ hdr_validator (blk_header b) = k) ->
  let set_hash := with_validators_hash (compute_validators_hash vs sp) in
  Block_hash (set_hash b1) <> Block_hash (set_hash b2) ->
  exists p1 p2,
    broadcasts (propose_block now1 b1 (net_engine n1 k)).1 p1
    /\ broadcasts (propose_block now2 b2 (net_engine n2 k)).1 p2
    /\ SlashingEvidence_verify_with_chain_id chain_id
         (mkSlashingEvidence (DoubleBlockV2 (blk_header (pr_block p1)) (blk_header (pr_block p2)))
            k slot reporter timestamp) = true.
Proof using CL.
  intros Hd Hk Hnow1 Hnow2 Hn Hb set_hash Hne.
  destruct (Hn n1 (or_introl eq_refl)) as (Hr1 & Hu1 & Hc1), (Hn n2 (or_intror eq_refl)) as (Hr2 & Hu2 & Hc2).
  destruct (propose_block_broadcasts now1 b1 n1 k Hd Hr1 Hk Hnow1 Hc1 Hu1) as (Hk1 & p1 & Hp1 & Hpb1).
  destruct (propose_block_broadcasts now2 b2 n2 k Hd Hr2 Hk Hnow2 Hc2 Hu2) as (Hk2 & p2 & Hp2 & Hpb2).
  destruct (Hb b1 (or_introl eq_refl)) as [Hs1 Hv1], (Hb b2 (or_intror eq_refl)) as [Hs2 Hv2].
  exists p1, p2. split; [done|]. split; [done|].
  unfold SlashingEvidence_verify_with_chain_id. cbn [ev_offense ev_validator]. rewrite Hpb1, Hpb2.
  unfold sign_proposal_block. rewrite !BlockHeader_sign_verify by (by rewrite ?Hk1, ?Hk2).
  unfold Block_hash, Block_signable_hash in Hne. fold set_hash.
  assert (forall kp b, BlockHeader_signable_hash (blk_header (Block_sign_with_chain_id kp chain_id b))
    = BlockHeader_signable_hash (blk_header b)) as Hh by done.
  rewrite !Hh, (proj2 (Z.eqb_neq _ _) Hne). cbn. by rewrite Hs1, Hs2, Hv1, Hv2, !Z.eqb_refl.
Qed.
End evidence.

Section scenario.
Import Four.

(** The first validator times out waiting for a proposal and prevotes nil. *)
Definition nil_script : list (Pubkey * Delivery) := [(key 0, DTimeout Propose 0)].
Definition nil_net : Net := script_run validators pool now nil_script start_net.
Definition nil_prevote : Prevote :=
  mkPrevote 1 0 None (key 0)
    (Keypair_sign (mkKeypair 1) (Prevote_signing_bytes_for_chain_id chain_id 1 0 None)).
Definition zero_prevote : Prevote :=
  mkPrevote 1 0 (Some zero_hash) (key 0) (pv_signature nil_prevote).
Definition nil_evidence : SlashingEvidence :=
  mkSlashingEvidence (DoublePrevoteV2 nil_prevote zero_prevote) (key 0) 1 (key 1) 0.

Lemma nil_reachable : reachable validators pool 1 chain_id honest engine_of nil_net.
Proof.
  refine (script_reachable validators pool 1 chain_id _ chain_id_len honest snapshot snapshot_ok
            started _ now nil_script start_net _ (net_init _ _ _ _ _ started) _);
    [done| |done|vm_compute; reflexivity].
  intros k Hk. exact (deployment_start _ _ _ _ _ _ _ k four_deployment Hk).
Qed.

Lemma nil_prevote_sent : nil_prevote ∈ net_prevotes nil_net.
Proof. apply (bool_decide_unpack _). vm_compute. exact I. Qed.

Lemma nil_prevote_unforged v :
  prevote_bytes chain_id nil_prevote = prevote_bytes chain_id v -> pv_validator v = key 0 ->
  unforged_prevote 1 chain_id honest nil_net v.
Proof. intros Hb Hv _ _ _. exists nil_prevote. by split; [apply nil_prevote_sent|]. Qed.

Lemma honest_not_convicted_witness :
  nil_prevote ∈ net_prevotes nil_net
  /\ SlashingEvidence_verify_with_chain_id chain_id nil_evidence = true
  /\ nil_and_zero (pv_block_hash nil_prevote) (pv_block_hash zero_prevote).
Proof.
  split; [exact nil_prevote_sent|].
  assert (SlashingEvidence_verify_with_chain_id chain_id nil_evidence = true) as Hev
    by (vm_compute; reflexivity).
  split; [exact Hev|].
  assert (honest (key 0)) as Hk by (apply (bool_decide_unpack _); vm_compute; exact I).
  assert (prevote_typed nil_prevote /\ prevote_typed zero_prevote) as [Ht1 Ht2].
  { unfold prevote_typed, is_u64, is_u32, opt_u256, is_u256. simpl.
    split; split_and!; try lia; intros h [= <-]. unfold zero_hash. lia. }
  exact (proj1 (honest_not_convicted validators pool MIN_VALIDATOR_STAKE 1 chain_id honest engine_of
           nil_net nil_evidence four_deployment nil_reachable Hk Hev)
           nil_prevote zero_prevote eq_refl eq_refl Ht1 Ht2
           (nil_prevote_unforged nil_prevote eq_refl eq_refl)
           (nil_prevote_unforged zero_prevote (Prevote_nil_zero_bytes _ _ _) eq_refl)).
Defined.

Lemma nil_vote_convicts_witness :
  SlashingEvidence_verify_with_chain_id chain_id nil_evidence = true.
Proof. exact (proj1 (nil_vote_convicts chain_id (mkKeypair 1) 1 0 0 (key 1) 1)). Defined.

(** The second validator proposes in round 0; nobody else votes, the rounds time out, and
    in round 4 it is the proposer again. *)
Definition fresh_block (tag : Z) : Block := mkBlock (header (key 1) tag) [] [] [] 0 [].

Definition quiet_round (r : Z) : list (Pubkey * Delivery) :=
  [(key 1, DTimeout Propose r); (key 1, DTimeout Prevote_ r); (key 1, DTimeout Precommit_ r)].

Definition reproposal_script : list (Pubkey * Delivery) :=
  (key 1, DPropose (sign_proposal_block validators pool chain_id (mkKeypair 2) (fresh_block 7)))
  :: quiet_round 0 ++ quiet_round 1 ++ quiet_round 2 ++ quiet_round 3.

Definition reproposal_net : Net := script_run validators pool now reproposal_script start_net.

Lemma reproposal_reachable : reachable validators pool 1 chain_id honest engine_of reproposal_net.
Proof.
  refine (script_reachable validators pool 1 chain_id _ chain_id_len honest snapshot snapshot_ok
            started _ now reproposal_script start_net _ (net_init _ _ _ _ _ started) _);
    [done| |done|vm_compute; reflexivity].
  intros k Hk. exact (deployment_start _ _ _ _ _ _ _ k four_deployment Hk).
Qed.

Lemma reproposal_convicts_witness :
  (is_proposer validators pool 0 (net_engine start_net (key 1))).1 = true
  /\ (is_proposer validators pool 0 (net_engine reproposal_net (key 1))).1 = true
  /\ exists p1 p2,
       broadcasts (propose_block validators pool chain_id now (fresh_block 7) (net_engine start_net (key 1))).1 p1
       /\ broadcasts (propose_block validators pool chain_id now (fresh_block 8) (net_engine reproposal_net (key 1))).1 p2
       /\ SlashingEvidence_verify_with_chain_id chain_id
            (mkSlashingEvidence (DoubleBlockV2 (blk_header (pr_block p1)) (blk_header (pr_block p2)))
               (key 1) 1 (key 0) 0) = true.
Proof.
  split; [vm_compute; reflexivity|]. split; [vm_compute; reflexivity|].
  apply (reproposal_convicts validators pool MIN_VALIDATOR_STAKE 1 chain_id honest engine_of
           start_net reproposal_net (key 1) now now (fresh_block 7) (fresh_block 8)).
  - exact four_deployment.
  - apply (bool_decide_unpack _). vm_compute. exact I.
  - done.
  - done.
  - intros n [->| ->].
    + split; [exact (net_init _ _ _ _ _ started)|]. vm_compute. repeat split; discriminate.
    + split; [exact reproposal_reachable|]. vm_compute. repeat split; discriminate.
  - intros b [->| ->]; split; reflexivity.
  - vm_compute. discriminate.
Defined.
End scenario.
