(* ===== verification/Recovery.v ===== *)
(** * Restarting from the write-ahead log

    Models the startup sequence of [validator/src/main.rs] that rebuilds the
    consensus engine from the recovered log, and shows that the rebuilt engine
    satisfies the engine invariant and signs only in rounds above every vote the
    log recorded. *)

From S2P Require Import Prelude Crypto Block Votes Stake Validators Slashing Engine Protocol Power Refinement Network Wal Scenario.
From stdpp Require Import base tactics numbers list gmap.
From Stdlib Require Import ZArith Lia.

Local Open Scope Z_scope.

(** ** The startup sequence *)

Section startup.
Context `{Crypto} (vs : ValidatorSet) (sp : StakePool).
Implicit Types e : ConsensusEngine.

(** One iteration of the loop over [wal_recovery.signed_votes]: a record that
    cannot be restored is logged and skipped. *)
Definition restore_vote e (record : SignedVoteRecord) : ConsensusEngine :=
  if negb (sv_validator record =? ce_validator_pubkey e) then e
  else match sv_vote_type record with
       | SVPrevote =>
           match restore_signed_prevote (sv_height record) (sv_round record)
                   (sv_block_hash record) (sv_signature record) e with
           | Ok e' => e'
           | Err _ => e
           end
       | SVPrecommit =>
           match sv_timestamp record with
           | None => e
           | Some timestamp =>
               match restore_signed_precommit (sv_height record) (sv_round record)
                       (sv_block_hash record) (sv_signature record) timestamp e with
               | Ok e' => e'
               | Err _ => e
               end
           end
       end.

(** The lock whose block is not in the log. *)
Definition missing_recovered_lock_value (wr : WalRecovery) : option (Z * Hash) :=
  match wr_locked_state wr with
  | None => None
  | Some (lock_h, _, lock_hash) =>
      if existsb (fun '(height, _, block) => (height =? lock_h) && (Block_hash block =? lock_hash))
           (wr_proposal_blocks wr)
      then None else Some (lock_h, lock_hash)
  end.

Definition startup (wr : WalRecovery) (height : Z) e : ConsensusEngine :=
  let recovered_bft_round :=
    max_recovered_round_for_height wr height (ce_validator_pubkey e) in
  let e := start_height height e in
  let e := match wr_locked_state wr with
           | Some (lock_h, lock_r, lock_hash) => restore_lock lock_h lock_r lock_hash e
           | None => e
           end in
  let e := foldl (fun e '(h, round, block) => restore_proposal_block h round block e) e
             (wr_proposal_blocks wr) in
  let e := foldl restore_vote e (wr_signed_votes wr) in
  let e := match missing_recovered_lock_value wr with
           | Some (lock_height, lock_hash) =>
               (release_unrecoverable_lock_without_value lock_height lock_hash e).2
           | None => e
           end in
  let e := match recovered_bft_round with
           | Some recovered_round =>
               resume_at_round_if_higher (Z.min (recovered_round + 1) u32_max) e
           | None => e
           end in
  rebuild_power_snapshot vs sp e.
End startup.

(** ** What the restored votes look like *)

(** Own votes only, one per round, in rounds up to [R]. *)
Record own_votes (me : Pubkey) (R : Z) (signed : gmap Z (option Hash))
  (seen : gmap (Z * Pubkey) (option Hash)) (votes : gmap (Z * option Hash) (list Pubkey)) : Prop := {
  ov_signed : forall r, signed !! r = seen !! (r, me);
  ov_seen : forall r k x, seen !! (r, k) = Some x -> k = me /\ r <= R;
  ov_votes : forall r x voters, votes !! (r, x) = Some voters ->
    voters = [me] /\ seen !! (r, me) = Some x /\ opt_u256 x;
  ov_recorded : forall r x, seen !! (r, me) = Some x -> votes !! (r, x) = Some [me];
}.

Section own_votes.
Context (me : Pubkey) (R : Z).

Lemma own_votes_empty : own_votes me R ∅ ∅ ∅.
Proof. by split; intros *; rewrite !lookup_empty. Qed.

Lemma own_votes_push signed seen votes r x :
  own_votes me R signed seen votes -> signed !! r = None -> r <= R -> opt_u256 x ->
  default [] (votes !! (r, x)) = []
  /\ own_votes me R (<[r := x]> signed) (<[(r, me) := x]> seen) (push_vote (r, x) me votes).
Proof.
  intros [Hs Hk Hv Hrec] Hn Hr Hx.
  assert (forall y, votes !! (r, y) = None) as Hvn.
  { intros y. destruct (votes !! (r, y)) as [l|] eqn:Hl; [|done].
    destruct (Hv _ _ _ Hl) as (_ & Hsn & _). rewrite <- Hs in Hsn. congruence. }
  unfold push_vote. rewrite Hvn. split; [done|]. split.
  - intros r'. destruct (decide (r' = r)) as [->|]; [by rewrite !lookup_insert_eq|].
    rewrite !lookup_insert_ne by congruence. apply Hs.
  - intros r' k y [[[= <- <-] _]|[_ Hy]]%lookup_insert_Some; eauto.
  - intros r' y voters [[[= <- <-] <-]|[Hne Hy]]%lookup_insert_Some.
    + by rewrite lookup_insert_eq.
    + destruct (Hv _ _ _ Hy) as (? & Hsy & ?). split_and!; try done.
      rewrite lookup_insert_ne; [done|]. intros [= ->]. rewrite Hvn in Hy. done.
  - intros r' y [[[= <-] <-]|[Hne Hy]]%lookup_insert_Some; [by rewrite lookup_insert_eq|].
    rewrite lookup_insert_ne by congruence. by apply Hrec.
Qed.

Lemma own_votes_tally (el : Pubkey -> option Z) signed seen votes :
  own_votes me R signed seen votes ->
  Tally el votes ((fun voters => sumZ id (omap el voters)) <$> votes) seen.
Proof.
  intros [Hs Hk Hv Hrec]. split.
  - intros [r x] voters Hl. destruct (Hv _ _ _ Hl) as (-> & _). apply NoDup_singleton.
  - intros r x voters k Hl Hin. destruct (Hv _ _ _ Hl) as (-> & ? & _).
    by apply list_elem_of_singleton in Hin as ->.
  - intros r x k Hx. destruct (Hk _ _ _ Hx) as [-> _]. rewrite (Hrec _ _ Hx). by left.
  - intros key. rewrite lookup_fmap. by destruct (votes !! key).
Qed.
End own_votes.

(** ** The invariant of the startup sequence *)

Section recovery_inv.
Context `{Crypto} (me : Pubkey) (height : Z) (chain_id : bytes) (m R : Z).
Implicit Types e : ConsensusEngine.

Record RInv e : Prop := {
  ri_me : ce_validator_pubkey e = me;
  ri_height : ce_height e = height;
  ri_chain : ce_signing_chain_id e = chain_id;
  ri_min : ce_min_validator_stake e = m;
  ri_key : Keypair_pubkey (ce_keypair e) = me;
  ri_snapshot : ce_power_snapshot e = None;
  ri_round : ce_round e = 0;
  ri_step : ce_step e = Propose;
  ri_prevotes : own_votes me R (ce_signed_prevote_rounds e) (ce_seen_prevotes e) (ce_prevotes e);
  ri_precommits :
    own_votes me R (ce_signed_precommit_rounds e) (ce_seen_precommits e) (ce_precommits e);
  ri_sigs : forall r k x, ce_seen_precommits e !! (r, k) = Some x ->
    exists sig ts, ce_precommit_sigs e !! (r, k) = Some (sig, ts)
      /\ Keypair_verify k (Precommit_signing_bytes_for_chain_id chain_id height r x ts) sig = true;
  ri_lock : ce_locked_round e = None <-> ce_locked_value e = None;
  ri_blocks : forall h b, ce_proposal_blocks e !! h = Some b -> Block_hash b = h;
}.

Lemma start_rinv e :
  Keypair_pubkey (ce_keypair e) = me -> ce_validator_pubkey e = me ->
  ce_signing_chain_id e = chain_id -> ce_min_validator_stake e = m -> RInv (start_height height e).
Proof.
  intros. split; simpl; try done; try apply own_votes_empty; intros *; by rewrite lookup_empty.
Qed.

Lemma restore_lock_rinv h r x e : RInv e -> RInv (restore_lock h r x e).
Proof. intros []. unfold restore_lock. case_match; split; simpl; try done. Qed.

Lemma restore_proposal_block_rinv h r b e : RInv e -> RInv (restore_proposal_block h r b e).
Proof.
  intros Hi. unfold restore_proposal_block. destruct (negb _); [done|].
  assert (forall h' b', <[Block_hash b := b]> (ce_proposal_blocks e) !! h' = Some b' ->
            Block_hash b' = h') as Hb.
  { intros h' b' [[<- <-]|[_ ?]]%lookup_insert_Some; [done|by apply Hi]. }
  destruct Hi. case_bool_decide; by split.
Qed.

Lemma release_rinv h x e : RInv e -> RInv (release_unrecoverable_lock_without_value h x e).2.
Proof.
  intros Hi. unfold release_unrecoverable_lock_without_value.
  destruct (negb _ || _); [done|]. destruct (decide _); [done|]. simpl.
  destruct Hi. case_match; by split.
Qed.

Lemma restore_prevote_rinv r x sig e e' :
  RInv e -> r <= R -> opt_u256 x ->
  restore_signed_prevote height r x sig e = Ok e' -> RInv e'.
Proof.
  intros Hi Hr Hx. unfold restore_signed_prevote.
  destruct (negb _); [by intros [= <-]|].
  destruct (ce_signed_prevote_rounds e !! r) as [y|] eqn:Hn.
  { case_bool_decide; [done|]. by intros [= <-]. }
  destruct (negb _); [done|]. cbv zeta. simpl. rewrite (ri_me _ Hi).
  destruct (own_votes_push me R _ _ _ r x (ri_prevotes _ Hi) Hn Hr Hx) as [Hd Hp].
  rewrite Hd, decide_False by apply not_elem_of_nil.
  unfold snapshot_power. simpl. rewrite (ri_snapshot _ Hi). intros [= <-].
  destruct Hi. by split.
Qed.

Lemma restore_precommit_rinv r x sig ts e e' :
  RInv e -> r <= R -> opt_u256 x ->
  restore_signed_precommit height r x sig ts e = Ok e' -> RInv e'.
Proof.
  intros Hi Hr Hx. unfold restore_signed_precommit.
  destruct (negb _); [by intros [= <-]|].
  destruct (ce_signed_precommit_rounds e !! r) as [y|] eqn:Hn.
  { case_bool_decide; [done|]. by intros [= <-]. }
  destruct (Keypair_verify _ _ _) eqn:Hv; simpl; [|done]. rewrite (ri_me _ Hi), (ri_chain _ Hi) in *.
  destruct (own_votes_push me R _ _ _ r x (ri_precommits _ Hi) Hn Hr Hx) as [Hd Hp].
  pose proof (sigs_push height chain_id _ _ r me x sig ts (ri_sigs _ Hi) Hv) as Hsg.
  rewrite Hd, decide_False by apply not_elem_of_nil.
  unfold snapshot_power. simpl. rewrite (ri_snapshot _ Hi). intros [= <-].
  repeat case_match; destruct Hi; by split.
Qed.

(** The records of this validator and height are in range. *)
Definition record_ok (record : SignedVoteRecord) : Prop :=
  opt_u256 (sv_block_hash record)
  /\ (sv_height record = height -> sv_validator record = me -> sv_round record <= R).

Lemma restore_vote_rinv record e : RInv e -> record_ok record -> RInv (restore_vote e record).
Proof.
  intros Hi [Hx Hr]. unfold restore_vote.
  destruct (Z.eqb_spec (sv_validator record) (ce_validator_pubkey e)) as [Hv|]; simpl; [|done].
  rewrite (ri_me _ Hi) in Hv.
  destruct (Z.eqb_spec (sv_height record) height) as [Hh|Hh].
  - rewrite Hh. destruct (sv_vote_type record).
    + destruct (restore_signed_prevote _ _ _ _ _) eqn:He; [|done].
      eapply restore_prevote_rinv; eauto.
    + destruct (sv_timestamp record); [|done].
      destruct (restore_signed_precommit _ _ _ _ _ _) eqn:He; [|done].
      eapply restore_precommit_rinv; eauto.
  - unfold restore_signed_prevote, restore_signed_precommit. rewrite (ri_height _ Hi).
    rewrite (proj2 (Z.eqb_neq _ _) Hh). simpl. by repeat case_match.
Qed.

Lemma foldl_rinv {A} (f : ConsensusEngine -> A -> ConsensusEngine) (P : A -> Prop) l e :
  (forall a e, RInv e -> P a -> RInv (f e a)) -> (forall a, a ∈ l -> P a) -> RInv e ->
  RInv (foldl f e l).
Proof.
  intros Hf. revert e. induction l as [|a l IH]; intros e Hl Hi; simpl; [done|].
  apply IH; [intros; apply Hl; by right|]. apply Hf; [done|apply Hl; left].
Qed.
End recovery_inv.

(** ** The rebuilt engine *)

Section recovered.
Context `{CL : CryptoLaws} (vs : ValidatorSet) (sp : StakePool).
Context (wr : WalRecovery) (height : Z) (e : ConsensusEngine).
Abbreviation me := (ce_validator_pubkey e).
Abbreviation snap := (ConsensusPowerSnapshot_build vs sp (ce_min_validator_stake e)).

(** The log's records have the ranges of their Rust types, in rounds where
    [round + 1] does not wrap. *)
Record recovery_typed : Prop := {
  rt_votes : forall record, record ∈ wr_signed_votes wr ->
    opt_u256 (sv_block_hash record) /\ 0 <= sv_round record <= ROUND_CAP;
  rt_lock : forall h r x, wr_locked_state wr = Some (h, r, x) -> 0 <= r <= ROUND_CAP;
}.

(** The last round the log knows of, [-1] for none. *)
Definition last_signed_round : Z :=
  default (-1) (max_recovered_round_for_height wr height me).

Lemma last_signed_round_range : recovery_typed -> -1 <= last_signed_round <= ROUND_CAP.
Proof using.
  intros [Hv Hl]. unfold last_signed_round, max_recovered_round_for_height.
  set (start := match wr_locked_state wr with Some _ => _ | None => _ end).
  assert (forall r, start = Some r -> 0 <= r <= ROUND_CAP) as Hs.
  { unfold start. destruct (wr_locked_state wr) as [[[h r] x]|]; [|done].
    case_match; [|done]. intros ? [= <-]. by eapply Hl. }
  clearbody start. revert start Hs. induction (wr_signed_votes wr) as [|y l IH]; intros o Ho; simpl.
  - destruct o as [r|]; simpl; [specialize (Ho r eq_refl); lia|unfold ROUND_CAP; lia].
  - apply IH; [intros; apply Hv; by right|]. destruct (Hv y ltac:(left)) as [_ Hr].
    intros r. case_match; [|apply Ho]. intros [= <-].
    destruct o as [c|]; [specialize (Ho c eq_refl)|]; lia.
Qed.

Lemma record_below record :
  record ∈ wr_signed_votes wr -> sv_height record = height -> sv_validator record = me ->
  sv_round record <= last_signed_round.
Proof using.
  intros Hin Hh Hv. unfold last_signed_round.
  by destruct (max_recovered_round_bound wr height me record Hin Hh Hv) as (m & -> & ?).
Qed.

(** Resuming after the last round and building the snapshot establishes the
    engine invariant. *)
Lemma rebuild_inv R chain_id e0 :
  RInv me height chain_id (ce_min_validator_stake e) R e0 -> -1 <= R <= ROUND_CAP ->
  let e1 := rebuild_power_snapshot vs sp (resume_at_round_if_higher (Z.min (R + 1) u32_max) e0) in
  EInv snap me height chain_id e1 /\ ce_round e1 = R + 1.
Proof using.
  intros Hi HR. pose proof (ri_min _ _ _ _ _ _ Hi) as Hm. unfold ROUND_CAP in HR.
  assert (Z.min (R + 1) u32_max = R + 1) as -> by (unfold u32_max; lia).
  assert (exists e1, resume_at_round_if_higher (R + 1) e0 = e1
    /\ ce_round e1 = R + 1 /\ ce_step e1 = Propose
    /\ e1 = set_ce_step (ce_step e1) (set_ce_round (ce_round e1) e0)) as (e1 & -> & Hr & Hs & He).
  { eexists. split; [done|]. unfold resume_at_round_if_higher. destruct Hi. rewrite ri_round0.
    destruct (Z.leb_spec (R + 1) 0); simpl; split_and!; try done; [lia|].
    by destruct e0. }
  rewrite Hr, Hs in He. split; [|by rewrite He]. rewrite He. clear e1 Hr Hs He.
  unfold rebuild_power_snapshot, rebuild_vote_power_tallies. simpl. rewrite Hm.
  pose proof (own_votes_tally me R (ConsensusPowerSnapshot_eligible_stake snap) _ _ _
                (ri_prevotes _ _ _ _ _ _ Hi)) as Ht1.
  pose proof (own_votes_tally me R (ConsensusPowerSnapshot_eligible_stake snap) _ _ _
                (ri_precommits _ _ _ _ _ _ Hi)) as Ht2.
  destruct Hi as [? ? ? ? ? _ _ _ [Hs1 Hk1 Hv1] [Hs2 Hk2 Hv2] ? ? ?].
  split; simpl; try done; unfold is_u32, ROUND_CAP.
  - lia.
  - intros r x voters Hl. by apply (Hv1 _ _ _ Hl).
  - intros r x Hx. rewrite Hs2 in Hx. apply Hk2 in Hx as [_ ?]. lia.
  - intros _. rewrite Hs2. destruct (_ !! _) eqn:Hx; [|done]. apply Hk2 in Hx as [_ ?]. lia.
  - intros r k x Hx. apply Hk1 in Hx as [_ ?]. lia.
  - intros r k x Hx. apply Hk2 in Hx as [_ ?]. lia.
Qed.

Lemma startup_inv :
  Keypair_pubkey (ce_keypair e) = me -> recovery_typed ->
  let e' := startup vs sp wr height e in
  EInv snap me height (ce_signing_chain_id e) e' /\ ce_round e' = last_signed_round + 1.
Proof using.
  intros Hkey Ht. pose proof (last_signed_round_range Ht) as HR.
  unfold startup. cbv zeta.
  set (e1 := match missing_recovered_lock_value wr with Some _ => _ | None => _ end).
  assert (RInv me height (ce_signing_chain_id e) (ce_min_validator_stake e) last_signed_round e1) as Hi.
  { assert (forall o : option (Z * Hash), forall e0,
      RInv me height (ce_signing_chain_id e) (ce_min_validator_stake e) last_signed_round e0 ->
      RInv me height (ce_signing_chain_id e) (ce_min_validator_stake e) last_signed_round
        (match o with
         | Some (h, x) => (release_unrecoverable_lock_without_value h x e0).2
         | None => e0
         end)) as Hrel by (intros [[h x]|] e0 He0; [by apply release_rinv|done]).
    apply Hrel. eapply (foldl_rinv me height _ _ _ restore_vote (record_ok me height last_signed_round)).
    - intros record e0 He0 Hr. by apply restore_vote_rinv.
    - intros record Hin. split; [by apply Ht|]. intros. by apply record_below.
    - eapply (foldl_rinv me height _ _ _ _ (fun _ => True)); [|done|].
      + intros [[h r] b] e0 He0 _. by apply restore_proposal_block_rinv.
      + destruct (wr_locked_state wr) as [[[h r] x]|]; [apply restore_lock_rinv|]; by apply start_rinv. }
  clearbody e1. destruct (rebuild_inv last_signed_round _ e1 Hi HR) as [He Hr].
  unfold last_signed_round in *.
  destruct (max_recovered_round_for_height wr height me) as [r|]; simpl in *; [done|].
  unfold resume_at_round_if_higher in He, Hr. rewrite (ri_round _ _ _ _ _ _ Hi) in He, Hr. done.
Qed.
End recovered.

(** ** Running the rebuilt engine *)

Section vsteps_fresh.
Context `{Electorate} (me : Pubkey).

(** Votes are cast in the current round or later. *)
Lemma vsteps_cast_prevote_round v evs v' r x :
  vsteps me v evs v' -> CastPrevote r x ∈ evs -> v_round v <= r.
Proof.
  induction 1 as [|v ev v1 evs v2 Hs Hss IH]; [by intros ?%not_elem_of_nil|].
  assert (v_round v <= v_round v1) by (by apply (vsteps_round me v [ev]), vsteps_one).
  intros [<-|Hin]%elem_of_cons; [inversion Hs; subst; lia|]. specialize (IH Hin). lia.
Qed.

Lemma vsteps_cast_precommit_round v evs v' r x :
  vsteps me v evs v' -> CastPrecommit r x ∈ evs -> v_round v <= r.
Proof.
  induction 1 as [|v ev v1 evs v2 Hs Hss IH]; [by intros ?%not_elem_of_nil|].
  assert (v_round v <= v_round v1) by (by apply (vsteps_round me v [ev]), vsteps_one).
  intros [<-|Hin]%elem_of_cons; [inversion Hs; subst; lia|]. specialize (IH Hin). lia.
Qed.
End vsteps_fresh.

Section restart.
Context `{CL : CryptoLaws} (vs : ValidatorSet) (sp : StakePool) (height : Z).

(** The engine handles inputs one after the other; [l] are the actions it
    hands out.  Votes have the ranges of their types and rounds below the cap;
    a vote in the engine's own name is one it has on record. *)
Inductive engine_run (me : Pubkey) (chain_id : bytes)
  : ConsensusEngine -> list ConsensusAction -> ConsensusEngine -> Prop :=
| er_nil e : engine_run me chain_id e [] e
| er_step e now i l e' :
    is_u64 now -> input_below_cap vs sp now i e ->
    (forall pv, pv ∈ input_prevotes i e -> prevote_ok me height chain_id (fun _ => True) pv e) ->
    (forall pc, pc ∈ input_precommits vs sp now i e ->
       precommit_ok me height chain_id (fun _ => True) pc e) ->
    engine_run me chain_id (handle vs sp now i e).2 l e' ->
    engine_run me chain_id e (action_leaves (handle vs sp now i e).1 ++ l) e'.

Lemma engine_run_run snap (Hsnap : snapshot_wf snap) me chain_id e l e' :
  EInv snap me height chain_id e -> engine_run me chain_id e l e' ->
  run snap Hsnap me height chain_id (fun _ => True) e l e'.
Proof using CL.
  intros Hi Hr. revert Hi. induction Hr as [e|e now i l e' Hnow Hcap Hpv Hpc Hr IH]; intros Hi.
  { by apply run_refl. }
  pose proof (handle_run vs sp snap Hsnap me height chain_id (fun _ => True) now Hnow i e Hi Hcap Hpv Hpc)
    as Hrun. eapply run_trans; [exact Hrun|]. apply IH, Hrun.
Qed.

End restart.

Section scenario.
Import Four.

(** The log of a validator that prevoted in round 0 and crashed. *)
Definition crash_record : SignedVoteRecord :=
  mkSignedVoteRecord 1 0 SVPrevote (Some 5) (key 0)
    (Keypair_sign (mkKeypair 1) (Prevote_signing_bytes_for_chain_id chain_id 1 0 (Some 5))) None.
Definition crash_wal : ConsensusWal := mkConsensusWal [] [HeightStarted 1; SignedVote crash_record].
Abbreviation restarted := (startup validators pool (recover crash_wal) 1 (engine 1)).

(** It resumes in round 1; a timeout there makes it prevote nil. *)
Definition restarted_actions : list ConsensusAction :=
  action_leaves (handle validators pool now (InTimeout Propose 1) restarted).1 ++ [].

Lemma crash_typed : recovery_typed (recover crash_wal).
Proof.
  split; simpl; [|done]. intros record ->%list_elem_of_singleton. simpl.
  split; [|unfold ROUND_CAP; lia]. intros h [= <-]. unfold is_u256. lia.
Qed.

Lemma restarted_run :
  engine_run validators pool 1 (ce_validator_pubkey (engine 1)) (ce_signing_chain_id (engine 1))
    restarted restarted_actions (handle validators pool now (InTimeout Propose 1) restarted).2.
Proof.
  unfold restarted_actions.
  refine (er_step validators pool 1 _ _ restarted now (InTimeout Propose 1) [] _ _ _ _ _ (er_nil _ _ _ _ _ _)).
  - done.
  - split; [vm_compute; discriminate|exact I].
  - by intros pv ?%not_elem_of_nil.
  - by intros pc ?%not_elem_of_nil.
Qed.

Definition restart_prevote : Prevote :=
  mkPrevote 1 1 None (key 0)
    (Keypair_sign (mkKeypair 1) (Prevote_signing_bytes_for_chain_id chain_id 1 1 None)).

Lemma restart_prevote_sent : BroadcastPrevote restart_prevote ∈ restarted_actions.
Proof. vm_compute. left. Qed.

Lemma crash_record_recovered :
  crash_record ∈ wr_signed_votes (recover crash_wal)
  /\ sv_validator crash_record = ce_validator_pubkey (engine 1)
  /\ Keypair_pubkey (ce_keypair (engine 1)) = ce_validator_pubkey (engine 1).
Proof. split; [left|]. split; vm_compute; reflexivity. Qed.

End scenario.
