(* ===== verification/SlashInstruction.v ===== *)
(** * The slashing instruction of Staking V2

    Models [system_slash_validator_v2] of [core/src/processor/validator_lifecycle.rs]: the
    instruction that verifies an equivocation proof and settles the slash over the stake
    pool, the liquid staking pool, the owners' accounts and the treasury.

    - the chain state is that of [Staking] with the liquid pool, the markers of settled
      offenses, the chain identifier and the consensus parameters embedded in the genesis
      block; a handler that fails leaves it unchanged, because the processor drops its
      batch;
    - a marker is the text [slash-v2:<offender>:<slot>:<kind>]; the model keeps the triple;
    - [bincode] is a library: [decode_evidence] is a parameter. *)

From S2P Require Import Prelude Crypto Block Votes Account Stake Pool PoolInvariant PoolRun Delegation.
From S2P Require Import Validators StakingV2 Moss MossInvariant RewardPlan Allocation EquivocationSlash.
From S2P Require Import Slashing Staking StakingLedger Engine Network Scenario Accountability.
From stdpp Require Import base tactics numbers list gmap.
From Stdlib Require Import ZArith Lia.

Local Open Scope Z_scope.
Local Open Scope rust_scope.

(** ** State *)

(** The kind of a settled offense: a double block, or a double vote of a round. *)
Inductive SlashKind := KindDoubleBlock | KindDoublePrevote (round : Z) | KindDoublePrecommit (round : Z).
#[global] Instance SlashKind_eq_dec : EqDecision SlashKind.
Proof. solve_decision. Defined.

Record SlashChain := mkSlashChain {
  sc_chain : Chain;
  sc_moss : MossStakePool;
  sc_markers : list (Pubkey * Z * SlashKind);
  sc_chain_id : option bytes;
  sc_genesis_params : option ConsensusParams;
}.

Inductive SlashIxError :=
| SlashHandler (e : HandlerError)
| SlashPool (e : SlashV2Error)
| SlashMoss (e : MossError)
| SlashAlloc (e : AllocError)
| WrongAccounts
| ReporterMismatch
| OffenderMismatch
| EvidenceSlotMismatch
| SlashFuture
| SlashWindow
| ChainIdMissing
| ProofInvalid
| EpochStateMissing
| SnapshotNotRetained
| ReporterNotActive (reporter : Pubkey)
| GenesisParamsMissing
| LegacyEvidence
| InvalidPercent (percent : Z)
| OwnerMissing (owner : Pubkey)
| OwnerActiveUnderflow (owner : Pubkey)
| OwnerCoolingUnderflow (owner : Pubkey)
| OwnerBalanceUnderflow (owner : Pubkey)
| TotalLossOverflow
| TreasuryMissing
| CommissionRequiresV2.

Definition ix_handler {A} (r : result A HandlerError) : result A SlashIxError :=
  match r with Ok a => Ok a | Err e => Err (SlashHandler e) end.
Definition ix_pool {A} (r : result A SlashV2Error) : result A SlashIxError :=
  match r with Ok a => Ok a | Err e => Err (SlashPool e) end.
Definition ix_moss {A} (r : result A MossError) : result A SlashIxError :=
  match r with Ok a => Ok a | Err e => Err (SlashMoss e) end.
Definition ix_alloc {A} (r : result A AllocError) : result A SlashIxError :=
  match r with Ok a => Ok a | Err e => Err (SlashAlloc e) end.

(** ** The instruction *)

(** The marker kind and the slashed percentage of an offense. *)
Definition offense_kind (params : ConsensusParams) (o : SlashingOffense)
  : result (SlashKind * Z) SlashIxError :=
  match o with
  | DoubleBlockV2 _ _ => Ok (KindDoubleBlock, slashing_percentage_double_sign params)
  | DoublePrevoteV2 vote_1 _ =>
      Ok (KindDoublePrevote (pv_round vote_1), slashing_percentage_double_vote params)
  | DoublePrecommitV2 vote_1 _ =>
      Ok (KindDoublePrecommit (pc_round vote_1), slashing_percentage_double_vote params)
  | _ => Err LegacyEvidence
  end.

(** The MossStake part: the loss is recorded and the backing spread over the others. *)
Definition remaining_validators (offender : Pubkey) (p : StakePool) : option (list Pubkey) :=
  (fun st => omap (fun v =>
     if negb (v =? offender)
        && match sp_stakes p !! v with Some s => si_is_active s | None => false end
     then Some v else None) (btree (v2_validators st)).*1) <$> sp_staking_v2_state p.

Definition settle_moss (offender : Pubkey) (execution_slot moss_loss : Z) (moss : MossStakePool)
  (p : StakePool) : result StakePool SlashIxError :=
  if 0 <? moss_loss then
    let? p := ix_pool (StakePool_record_staking_v2_external_slash moss_loss p) in
    or_err (remaining_validators offender p) EpochStateMissing (fun validators =>
    let? r := ix_alloc (StakePool_rebalance_mossstake_allocations (backing moss) validators execution_slot p) in
    Ok r.2)
  else Ok p.

(** One owner's account is debited. *)
Definition debit_owner (c : Chain) (loss : StakingV2SlashOwnerLoss) : result Chain SlashIxError :=
  let owner := ol_owner loss in
  or_err (ch_accounts c !! owner) (OwnerMissing owner) (fun account =>
  or_err (checked_sub (ac_staked account) (ol_active_stake loss)) (OwnerActiveUnderflow owner) (fun staked =>
  or_err (checked_sub (ac_locked account) (ol_cooling_down_stake loss)) (OwnerCoolingUnderflow owner)
    (fun locked =>
  let? total := ix_pool (StakingV2SlashOwnerLoss_total loss) in
  or_err (checked_sub (ac_spores account) total) (OwnerBalanceUnderflow owner) (fun spores =>
  Ok (put_account owner (set_ac_spores spores (set_ac_locked locked (set_ac_staked staked account))) c))))).

Definition credit_treasury (total_loss : Z) (c : Chain) : result Chain SlashIxError :=
  if 0 <? total_loss then
    or_err (ch_treasury c) TreasuryMissing (fun treasury_key =>
    or_err (ch_accounts c !! treasury_key) TreasuryMissing (fun treasury =>
    let? treasury := ix_handler (of_account (Account_add_spendable total_loss treasury)) in
    Ok (put_account treasury_key treasury c)))
  else Ok c.

(** From the verified evidence on: the pools, the accounts and the treasury. *)
Definition settle_slash (offender : Pubkey) (offense_slot percent execution_slot epoch_start : Z)
  (c : SlashChain) : result SlashChain SlashIxError :=
  let? '(native, pool) :=
    ix_pool (StakePool_apply_staking_v2_equivocation_slash offender offense_slot percent execution_slot
               (ch_pool (sc_chain c))) in
  let? '(moss, moss_pool) :=
    ix_moss (MossStakePool_apply_staking_v2_slash (sl_mossstake_requested_loss native) epoch_start (sc_moss c)) in
  let? moss_loss := ix_moss (MossStakeSlashSettlement_actual_loss moss) in
  let? pool := settle_moss offender execution_slot moss_loss moss_pool pool in
  let? chain := try_fold debit_owner (sc_chain c) (sl_owner_losses native) in
  let? native_loss := ix_pool (StakingV2SlashSettlement_native_loss native) in
  or_err (checked_add64 native_loss moss_loss) TotalLossOverflow (fun total_loss =>
  let? chain := credit_treasury total_loss chain in
  Ok (mkSlashChain (set_ch_pool pool chain) moss_pool (sc_markers c) (sc_chain_id c)
        (sc_genesis_params c))).

Section instruction.
Context `{Crypto}.
Variable decode_evidence : bytes -> option SlashingEvidence.

Definition system_slash_validator_v2 (ix : Instruction) (c : SlashChain) : result SlashChain SlashIxError :=
  match ix_accounts ix with
  | [reporter; offending_validator] =>
      reject (length (ix_data ix) <? 2)%nat with SlashHandler InvalidData;
      or_err (decode_evidence (drop 1 (ix_data ix))) (SlashHandler InvalidEvidence) (fun evidence =>
      reject negb (ev_reporter evidence =? reporter) with ReporterMismatch;
      reject negb (ev_validator evidence =? offending_validator) with OffenderMismatch;
      let? execution_slot := ix_handler (staking_v2_execution_slot (sc_chain c)) in
      let offense_slot := SlashingEvidence_offense_slot evidence in
      reject negb (ev_evidence_slot evidence =? offense_slot) with EvidenceSlotMismatch;
      reject execution_slot <? offense_slot with SlashFuture;
      reject SLASHING_V2_EVIDENCE_WINDOW_SLOTS <? execution_slot - offense_slot with SlashWindow;
      or_err (sc_chain_id c) ChainIdMissing (fun chain_id =>
      reject negb (SlashingEvidence_verify_with_chain_id chain_id evidence) with ProofInvalid;
      let offense_epoch := slot_to_epoch offense_slot in
      or_err (sp_staking_v2_state (ch_pool (sc_chain c))) EpochStateMissing (fun epoch_state =>
      or_err (v2_slash_exposure_snapshots epoch_state !! offense_epoch) SnapshotNotRetained (fun snapshot =>
      reject negb (bool_decide (is_Some (ess_validators snapshot !! reporter)))
        with ReporterNotActive reporter;
      or_err (sc_genesis_params c) GenesisParamsMissing (fun params =>
      let? '(kind, slash_percent) := offense_kind params (ev_offense evidence) in
      reject (slash_percent =? 0) || (100 <? slash_percent) with InvalidPercent slash_percent;
      let marker := (offending_validator, offense_slot, kind) in
      if bool_decide (marker ∈ sc_markers c) then Ok c
      else
        let? c := settle_slash offending_validator offense_slot slash_percent execution_slot
                    (ess_start_slot snapshot) c in
        Ok (mkSlashChain (sc_chain c) (sc_moss c) (marker :: sc_markers c) (sc_chain_id c)
              (sc_genesis_params c)))))))
  | _ => Err WrongAccounts
  end.
End instruction.

(** ** The settlement conserves value *)

Lemma ix_pool_Ok {A} (r : result A SlashV2Error) a : ix_pool r = Ok a <-> r = Ok a.
Proof. destruct r; simpl; split; intros; simplify_eq; done. Qed.
Lemma ix_moss_Ok {A} (r : result A MossError) a : ix_moss r = Ok a <-> r = Ok a.
Proof. destruct r; simpl; split; intros; simplify_eq; done. Qed.
Lemma ix_alloc_Ok {A} (r : result A AllocError) a : ix_alloc r = Ok a <-> r = Ok a.
Proof. destruct r; simpl; split; intros; simplify_eq; done. Qed.
Lemma ix_handler_Ok {A} (r : result A HandlerError) a : ix_handler r = Ok a <-> r = Ok a.
Proof. destruct r; simpl; split; intros; simplify_eq; done. Qed.

(** The accounts after a change of one of them. *)
Lemma put_account_effect c k a a' :
  accounts_wf c -> ch_accounts c !! k = Some a -> account_wf a' ->
  accounts_wf (put_account k a' c)
  /\ (forall x, part_total x (put_account k a' c) = part_total x c - part x a + part x a')
  /\ supply (put_account k a' c) = supply c - ac_spores a + ac_spores a'.
Proof.
  intros Hwf Hk Ha'. pose proof (put_account_totals c k a a' (ch_pool c) Hwf Hk Ha') as Hput.
  by destruct c.
Qed.

(** Everything of the chain but the accounts. *)
Definition same_frame (c c' : Chain) : Prop :=
  ch_pool c' = ch_pool c /\ ch_last_slot c' = ch_last_slot c /\ ch_treasury c' = ch_treasury c
  /\ ch_staking_v2_activation_slot c' = ch_staking_v2_activation_slot c.

Lemma debit_owner_ok c l c' :
  accounts_wf c -> 0 <= ol_active_stake l -> 0 <= ol_cooling_down_stake l -> debit_owner c l = Ok c' ->
  accounts_wf c' /\ part_total Staked c' = part_total Staked c - ol_active_stake l
  /\ part_total Locked c' = part_total Locked c - ol_cooling_down_stake l
  /\ supply c' = supply c - loss_total l /\ same_frame c c'.
Proof.
  intros Hwf Hac Hcl. unfold debit_owner. intros (a & Ha & H)%or_err_Ok.
  apply or_err_Ok in H as (s & [-> Hs]%checked_sub_Some & H).
  apply or_err_Ok in H as (k & [-> Hk]%checked_sub_Some & H).
  apply and_then_Ok in H as (t & Ht%ix_pool_Ok & H). unfold StakingV2SlashOwnerLoss_total in Ht.
  apply or_err_Ok in Ht as (t' & [-> Htm]%checked_add64_Some & [= <-]).
  apply or_err_Ok in H as (sp & [-> Hsp]%checked_sub_Some & [= <-]).
  destruct (Hwf _ a Ha) as [H1 H2 H3 H4 H5].
  match goal with |- accounts_wf (put_account _ ?x _) /\ _ => set (a' := x) end.
  assert (account_wf a') as Hwf' by (split; simpl; lia).
  destruct (put_account_effect c _ a a' Hwf Ha Hwf') as (Hw & Hp & Hsup).
  split; [exact Hw|]. rewrite (Hp Staked), (Hp Locked), Hsup. unfold loss_total. simpl. split_and!; try lia. by split_and!.
Qed.

Lemma debit_owners_ok losses c c' :
  accounts_wf c -> Forall (fun l => 0 <= ol_active_stake l /\ 0 <= ol_cooling_down_stake l) losses ->
  try_fold debit_owner c losses = Ok c' ->
  accounts_wf c' /\ part_total Staked c' = part_total Staked c - sumZ ol_active_stake losses
  /\ part_total Locked c' = part_total Locked c - sumZ ol_cooling_down_stake losses
  /\ supply c' = supply c - sumZ loss_total losses /\ same_frame c c'.
Proof.
  revert c. induction losses as [|l losses IH]; intros c Hwf Hnn H; cbn [try_fold] in H.
  { injection H as <-. unfold sumZ. simpl. split_and!; done || lia. }
  apply Forall_cons in Hnn as [[Ha Hc] Hnn]. apply and_then_Ok in H as (c1 & H1 & H).
  destruct (debit_owner_ok c l c1 Hwf Ha Hc H1) as (W & S & L & T & F1 & F2 & F3 & F4).
  destruct (IH c1 W Hnn H) as (W' & S' & L' & T' & G1 & G2 & G3 & G4).
  rewrite !sumZ_cons. split; [exact W'|]. split_and!; try lia. split_and!; congruence.
Qed.

Lemma credit_treasury_ok t c c' :
  accounts_wf c -> 0 <= t -> credit_treasury t c = Ok c' ->
  accounts_wf c' /\ part_total Staked c' = part_total Staked c /\ part_total Locked c' = part_total Locked c
  /\ supply c' = supply c + t /\ same_frame c c'.
Proof.
  intros Hwf Ht. unfold credit_treasury. destruct (Z.ltb_spec 0 t) as [H0|H0].
  2: { intros [= <-]. split_and!; done || lia. }
  intros (k & Hk & H)%or_err_Ok. apply or_err_Ok in H as (a & Ha & H).
  apply and_then_Ok in H as (a' & Ha'%ix_handler_Ok & [= <-]).
  apply (of_account_Ok OpAdd t a a') in Ha' as (Hwf' & _ & Hx); [|exact (Hwf k a Ha)|done].
  destruct (put_account_effect c k a a' Hwf Ha Hwf') as (Hw & Hp & Hs).
  pose proof (awf_split _ (Hwf k a Ha)). pose proof (awf_split _ Hwf').
  pose proof (Hx Spendable). pose proof (Hx Staked). pose proof (Hx Locked). unfold flow in *. simpl in *.
  split; [exact Hw|]. rewrite (Hp Staked), (Hp Locked), Hs. simpl. split_and!; try lia. by split_and!.
Qed.

Lemma native_loss_total s t :
  Forall (fun l => 0 <= ol_active_stake l /\ 0 <= ol_cooling_down_stake l) (sl_owner_losses s) ->
  StakingV2SlashSettlement_native_loss s = Ok t -> t = sumZ loss_total (sl_owner_losses s) /\ 0 <= t.
Proof.
  unfold StakingV2SlashSettlement_native_loss. intros Hnn H. rewrite Forall_forall in Hnn.
  apply (try_fold_total _ (fun l => 0 <= ol_active_stake l /\ 0 <= ol_cooling_down_stake l /\ loss_total l <= u64_max)
    loss_total) in H as (_ & -> & _).
  - split; [lia|]. rewrite Z.add_0_l. apply sumZ_nonneg. intros l Hl%Hnn. unfold loss_total. lia.
  - intros a l b Hl Ha. rewrite and_then_Ok. unfold StakingV2SlashOwnerLoss_total, loss_total.
    destruct (Hnn l Hl) as [Hn1 Hn2]. split.
    + intros (x & (y & [-> ?]%checked_add64_Some & [= <-])%or_err_Ok & (z & [-> ?]%checked_add64_Some & [= <-])%or_err_Ok).
      split_and!; done || lia.
    + intros ((_ & _ & Hm) & -> & Hb). exists (ol_active_stake l + ol_cooling_down_stake l).
      rewrite (proj2 (checked_add64_Some _ _ (ol_active_stake l + ol_cooling_down_stake l))) by lia. split; [done|].
      by rewrite (proj2 (checked_add64_Some _ _ (a + (ol_active_stake l + ol_cooling_down_stake l)))) by lia.
  - intros l (? & ? & _). unfold loss_total. lia.
  - unfold u64_max. lia.
Qed.

Definition exposures_u64 (p : StakePool) : Prop :=
  forall st e snapshot v exposure,
    sp_staking_v2_state p = Some st -> v2_slash_exposure_snapshots st !! e = Some snapshot ->
    ess_validators snapshot !! v = Some exposure -> owners_u64 v exposure.

Record slash_state_ok (c : SlashChain) : Prop := {
  so_accounts : accounts_wf (sc_chain c);
  so_pool : pool_inv (ch_pool (sc_chain c));
  so_moss : moss_inv (sc_moss c);
  so_stake : sp_total_staked (ch_pool (sc_chain c)) + pending_total (ch_pool (sc_chain c)) <= u64_max;
  so_exposures : exposures_u64 (ch_pool (sc_chain c));
}.

(** All value: the accounts and what the liquid pool owes. *)
Definition wealth (c : SlashChain) : Z := supply (sc_chain c) + owed (sc_moss c).

(** [c'] is as valuable as [c], and the accounts moved with the pools. *)
Record slash_conserved (c c' : SlashChain) : Prop := {
  sv_wealth : wealth c' = wealth c;
  sv_staked : part_total Staked (sc_chain c') - direct_total (ch_pool (sc_chain c'))
              = part_total Staked (sc_chain c) - direct_total (ch_pool (sc_chain c));
  sv_locked : part_total Locked (sc_chain c') - pending_total (ch_pool (sc_chain c'))
              = part_total Locked (sc_chain c) - pending_total (ch_pool (sc_chain c));
  sv_accounts : accounts_wf (sc_chain c');
  sv_pool : pool_inv (ch_pool (sc_chain c'));
  sv_moss : moss_inv (sc_moss c');
}.

(** What the checks of the instruction read. *)
Definition same_checks (c c' : SlashChain) : Prop :=
  ch_last_slot (sc_chain c') = ch_last_slot (sc_chain c)
  /\ same_epoch (sp_staking_v2_state (ch_pool (sc_chain c))) (sp_staking_v2_state (ch_pool (sc_chain c')))
  /\ sc_markers c' = sc_markers c /\ sc_chain_id c' = sc_chain_id c
  /\ sc_genesis_params c' = sc_genesis_params c.

Lemma settle_moss_ok offender slot loss moss p q :
  pool_inv p -> settle_moss offender slot loss moss p = Ok q -> rebalanced p q /\ pool_inv q.
Proof.
  intros Hp. unfold settle_moss. destruct (0 <? loss); [|intros [= <-]; by split].
  intros (p1 & H1%ix_pool_Ok & H)%and_then_Ok. apply or_err_Ok in H1 as (n & _ & [= <-]).
  apply or_err_Ok in H as (vs & _ & H). apply and_then_Ok in H as ([m q'] & H%ix_alloc_Ok & [= <-]).
  assert (pool_inv (set_sp_total_slashed n p)) as Hp1 by exact (inv_frame p n _ _ Hp).
  apply rebalance_ok in H as [Hr Hq]; [|done]. split; [|done]. etrans; [|exact Hr].
  split; [done|done|reflexivity|]. intros [Hs Hd Hu]. by split.
Qed.

Lemma settle_slash_ok offender offense percent slot start c c' :
  slash_state_ok c -> 0 <= percent ->
  settle_slash offender offense percent slot start c = Ok c' -> slash_conserved c c' /\ same_checks c c'.
Proof.
  intros [Hwf Hp Hm Hst Hex] Hpc. unfold settle_slash. intros ([native p1] & H1%ix_pool_Ok & H)%and_then_Ok.
  apply and_then_Ok in H as ([ms m1] & Hms%ix_moss_Ok & H). apply and_then_Ok in H as (ml & Hml%ix_moss_Ok & H).
  apply and_then_Ok in H as (p2 & Hp2 & H). apply and_then_Ok in H as (c1 & Hc1 & H).
  apply and_then_Ok in H as (nl & Hnl%ix_pool_Ok & H). apply or_err_Ok in H as (tl & [-> _]%checked_add64_Some & H).
  apply and_then_Ok in H as (c2 & Hc2 & [= <-]).
  pose proof H1 as (st & sn & ex & pr & Hv2 & Hsn & Hexp & _)%slash_inversion.
  destruct (slash_spec _ offender offense percent slot Hp Hpc Hst native p1 st sn ex Hv2 Hsn Hexp
    (Hex st _ sn offender ex Hv2 Hsn Hexp) H1) as [Hs _].
  pose proof (sx_nonneg _ _ _ _ _ _ _ Hs) as Hnn.
  assert (0 <= sl_mossstake_requested_loss native) as Hreq.
  { rewrite (sx_moss _ _ _ _ _ _ _ Hs). destruct (_ !! MOSSSTAKE_PROTOCOL_DELEGATOR) as [e|] eqn:He; simpl; [|lia].
    destruct (Hex st _ sn offender ex Hv2 Hsn Hexp _ _ He). unfold requested_loss. cbn [snd]. apply Z.div_pos; [apply Z.mul_nonneg_nonneg; lia|lia]. }
  apply apply_slash_ok in Hms as (Hm1 & Ha0 & Hc0 & _ & Howed); [|done|done]. cbn [fst snd] in *.
  unfold MossStakeSlashSettlement_actual_loss in Hml. apply or_err_Ok in Hml as (x & [-> _]%checked_add64_Some & [= <-]).
  apply settle_moss_ok in Hp2 as [Hr Hp2]; [|exact (sx_inv _ _ _ _ _ _ _ Hs)].
  apply debit_owners_ok in Hc1 as (W1 & S1 & L1 & T1 & F1 & F2 & F3 & F4); [|done|done].
  apply native_loss_total in Hnl as [-> Hnl0]; [|done].
  apply credit_treasury_ok in Hc2 as (W2 & S2 & L2 & T2 & G1 & G2 & G3 & G4); [|done|lia].
  split; [split|]; cbn [sc_chain sc_moss ch_pool]; [| | |exact W2|exact Hp2|exact Hm1|].
  - unfold wealth. cbn [sc_chain sc_moss]. change (supply (set_ch_pool p2 c2)) with (supply c2). lia.
  - change (part_total Staked (set_ch_pool p2 c2)) with (part_total Staked c2). cbn [set_ch_pool ch_pool].
    change (ch_pool (set_ch_pool p2 c2)) with p2. rewrite (rb_direct _ _ Hr). unfold direct_total.
    rewrite (slash_keeps_allocations _ _ _ _ _ _ _ Hp Hs), (sx_total _ _ _ _ _ _ _ Hs). lia.
  - change (part_total Locked (set_ch_pool p2 c2)) with (part_total Locked c2).
    change (ch_pool (set_ch_pool p2 c2)) with p2. unfold pending_total. rewrite (rb_requests _ _ Hr).
    rewrite (sx_pending _ _ _ _ _ _ _ Hs). lia.
  - unfold same_checks. cbn [sc_chain sc_markers sc_chain_id sc_genesis_params].
    change (ch_pool (set_ch_pool p2 c2)) with p2. change (ch_last_slot (set_ch_pool p2 c2)) with (ch_last_slot c2).
    split_and!; [congruence| |done..]. etrans; [exact (sx_epoch _ _ _ _ _ _ _ Hs)|exact (rb_epoch _ _ Hr)].
Qed.

Section claims.
Context `{C : Crypto}.
Variable decode_evidence : bytes -> option SlashingEvidence.

(** C31.  The slashing instruction conserves value and settles an offense once: when it is
    accepted, the accounts and the liquid staking pool together are worth what they were
    (the owners' and the pool's losses are the treasury's gain), the staked balances move
    exactly with the stake pool outside the protocol's own allocation and the locked
    balances with its pending requests, every account's parts sum to its total, both pools
    keep their invariants, and submitting the same evidence again changes nothing. *)
Theorem slash_instruction_conserves ix c c' :
  slash_state_ok c -> (forall p, sc_genesis_params c = Some p ->
    0 <= slashing_percentage_double_sign p /\ 0 <= slashing_percentage_double_vote p) ->
  system_slash_validator_v2 decode_evidence ix c = Ok c' ->
  slash_conserved c c' /\ system_slash_validator_v2 decode_evidence ix c' = Ok c'.
Proof.
  intros Hok Hparams H. pose proof H as Hix. unfold system_slash_validator_v2 in H.
  destruct (ix_accounts ix) as [|reporter [|offender [|]]] eqn:Hacc; try discriminate H.
  apply guard_Ok in H as [Hg0 H]. apply or_err_Ok in H as (ev & Hev & H).
  apply guard_Ok in H as [Hg1 H]. apply guard_Ok in H as [Hg2 H].
  apply and_then_Ok in H as (slot & Hslot & H). apply guard_Ok in H as [Hg3 H].
  apply guard_Ok in H as [Hg4 H]. apply guard_Ok in H as [Hg5 H].
  apply or_err_Ok in H as (cid & Hcid & H). apply guard_Ok in H as [Hg6 H].
  apply or_err_Ok in H as (st & Hst & H). apply or_err_Ok in H as (sn & Hsn & H).
  apply guard_Ok in H as [Hg7 H]. apply or_err_Ok in H as (params & Hpar & H).
  apply and_then_Ok in H as ([kind pct] & Hkind & H). apply guard_Ok in H as [Hg8 H].
  case_bool_decide as Hmark.
  { injection H as <-. split; [|exact Hix]. destruct Hok. by split. }
  apply and_then_Ok in H as (c1 & Hc1 & [= <-]).
  assert (0 <= pct) as Hpct.
  { destruct (Hparams params Hpar). destruct (ev_offense ev); simplify_eq/=; done. }
  destruct (settle_slash_ok _ _ _ _ _ _ _ Hok Hpct Hc1) as [Hcons (E1 & E2 & E3 & E4 & E5)].
  split; [destruct Hcons; by split|].
  unfold system_slash_validator_v2. rewrite Hacc, Hg0, Hev. cbn [or_err]. rewrite Hg1, Hg2. cbn [sc_chain].
  assert (staking_v2_execution_slot (sc_chain c1) = staking_v2_execution_slot (sc_chain c)) as ->
    by (unfold staking_v2_execution_slot; by rewrite E1).
  rewrite Hslot. cbn [and_then]. rewrite Hg3, Hg4, Hg5. cbn [sc_chain_id]. rewrite E4, Hcid. cbn [or_err]. rewrite Hg6.
  rewrite Hst in E2. destruct (sp_staking_v2_state (ch_pool (sc_chain c1))) as [st1|]; [|done].
  destruct E2 as [_ E2]. cbn [or_err]. rewrite E2, Hsn. cbn [or_err]. rewrite Hg7. cbn [sc_genesis_params].
  rewrite E5, Hpar. cbn [or_err]. rewrite Hkind. cbn [and_then]. rewrite Hg8. cbn [sc_markers].
  rewrite bool_decide_true; [done|]. left.
Qed.
End claims.

(** ** A sample slash

    The four validators of [Four] in a Staking V2 epoch.  The proof is the pair of headers
    that the second validator signs when it proposes in two rounds of height 1. *)

Module SampleSlash.
Import Four.

Definition pool : StakePool := Eval vm_compute in equal_epoch keys.

Definition owner_account (k : Pubkey) : Pubkey * Account :=
  (k, bonded (from_option si_amount 0 (sp_stakes pool !! k))).
Definition delegator_account (k : Pubkey) : Pubkey * Account := (100 + k, bonded 1000).

Definition accounts : gmap Pubkey Account :=
  Eval vm_compute in
  <[7 := bonded 0]> (list_to_map (map owner_account keys ++ map delegator_account keys)).

Definition evidence : SlashingEvidence :=
  let signed tag := sign_proposal_block validators Four.pool chain_id (mkKeypair 2) (fresh_block tag) in
  mkSlashingEvidence (DoubleBlockV2 (blk_header (signed 7)) (blk_header (signed 8))) (key 1) 1 (key 0) 0.

Definition chain : SlashChain :=
  mkSlashChain (mkChain accounts pool 5 (Some 0) (Some 7) false []) MossStakePool_new []
    (Some chain_id) (Some ConsensusParams_default).

Definition decode (_ : bytes) : option SlashingEvidence := Some evidence.
Definition slash_ix : Instruction := mkInstruction 0 [key 0; key 1] [27; 0].

(** The typing of the exposures, as a decision procedure. *)
Definition u64b (e : Z) : bool := (0 <=? e) && (e <=? u64_max).
Definition exposures_u64b (p : StakePool) : bool :=
  match sp_staking_v2_state p with
  | Some st =>
      map_forallb (fun snapshot => map_forallb (fun ex =>
        u64b (vse_self_bond ex) && map_forallb u64b (vse_delegations ex)) (ess_validators snapshot))
        (v2_slash_exposure_snapshots st)
  | None => true
  end.

Lemma exposures_u64b_spec p : exposures_u64b p = true -> exposures_u64 p.
Proof.
  unfold exposures_u64b. intros Hb st e snapshot v ex Hst Hsn Hex. rewrite Hst in Hb.
  assert (map_Forall (fun _ sn => map_Forall (fun _ ex => 0 <= vse_self_bond ex <= u64_max
    /\ map_Forall (fun _ a => 0 <= a <= u64_max) (vse_delegations ex)) (ess_validators sn))
    (v2_slash_exposure_snapshots st)) as Hall.
  { eapply map_forallb_spec; [|exact Hb]. intros _ sn Hs. eapply map_forallb_spec; [|exact Hs].
    intros _ x [Hx Hd]%andb_prop. unfold u64b in Hx. split; [lia|].
    eapply map_forallb_spec; [|exact Hd]. unfold u64b. intros _ a Ha. lia. }
  destruct (Hall e snapshot Hsn v ex Hex) as [Hb0 Hd]. by apply map_Forall_insert_2.
Qed.

Lemma accounts_typed : accounts_wf (sc_chain chain).
Proof.
  apply map_Forall_to_list. vm_compute map_to_list. repeat constructor; simpl; vm_compute; discriminate.
Qed.

Lemma chain_ok : slash_state_ok chain.
Proof.
  split.
  - exact accounts_typed.
  - apply sample_inv; vm_compute; reflexivity.
  - exact moss_new_inv.
  - vm_compute. discriminate.
  - apply exposures_u64b_spec. vm_compute. reflexivity.
Qed.

Definition after : SlashChain :=
  match system_slash_validator_v2 decode slash_ix chain with Ok c => c | Err _ => chain end.

Lemma slash_instruction_conserves_witness :
  system_slash_validator_v2 decode slash_ix chain = Ok after
  /\ sp_total_slashed (ch_pool (sc_chain after)) = MIN_VALIDATOR_STAKE + 500
  /\ wealth after = wealth chain
  /\ system_slash_validator_v2 decode slash_ix after = Ok after.
Proof.
  assert (system_slash_validator_v2 decode slash_ix chain = Ok after) as H by (vm_compute; reflexivity).
  split; [exact H|]. split; [vm_compute; reflexivity|].
  destruct (slash_instruction_conserves decode slash_ix chain after) as [Hc Hr].
  - exact chain_ok.
  - intros p [= <-]. split; discriminate.
  - exact H.
  - split; [exact (sv_wealth _ _ Hc)|exact Hr].
Defined.
End SampleSlash.
