(* ===== verification/MossInstructions.v ===== *)
(** * The liquid staking instructions

    Models the MossStake handlers of [core/src/processor/system_extended.rs] (deposit,
    unstake, claim and transfer of stLICN), which move value between the accounts and the
    liquid pool and, under Staking V2, spread the pool's backing over the validators, and the
    exit and commission instructions of [core/src/processor/validator_lifecycle.rs].

    - the state is that of [SlashInstruction], with the queue of validator changes for the
      exit instruction; a handler that fails leaves it unchanged;
    - governance pauses and restrictions are parameters: the theorems hold for every choice;
    - [clock] is the wall clock of the historical replay mode, [None] in the slot mode in
      force. *)

From S2P Require Import Prelude Crypto Block Votes Account Stake Pool PoolInvariant PoolRun Delegation.
From S2P Require Import Validators StakingV2 Moss MossInvariant RewardPlan Allocation EquivocationSlash.
From S2P Require Import Slashing Staking StakingLedger Engine Network Scenario Accountability SlashInstruction.
From stdpp Require Import base tactics numbers list gmap.
From Stdlib Require Import ZArith Lia.

Local Open Scope Z_scope.
Local Open Scope rust_scope.

Inductive MossIxError :=
| MossHandler (e : HandlerError)
| MossPoolErr (e : MossError)
| MossAllocErr (e : AllocError)
| MossZeroDeposit
| InvalidTier (byte : Z)
| MissingEpochState
| NothingToClaim
| V2NotActive
| CommissionErr (e : V2Error).

Definition mx_handler {A} (r : result A HandlerError) : result A MossIxError :=
  match r with Ok a => Ok a | Err e => Err (MossHandler e) end.
Definition mx_moss {A} (r : result A MossError) : result A MossIxError :=
  match r with Ok a => Ok a | Err e => Err (MossPoolErr e) end.
Definition mx_alloc {A} (r : result A AllocError) : result A MossIxError :=
  match r with Ok a => Ok a | Err e => Err (MossAllocErr e) end.

(** The slot and time of the last block, and the time stamps of earlier blocks. *)
Record WallClock := mkWallClock {
  wc_slot : Z;
  wc_seconds : Z;
  wc_timestamp_for_slot : Z -> option Z;
}.

Section moss_handlers.
Variable paused : SlashChain -> bool.
Variable blocked blocked_native : SlashChain -> Pubkey -> Direction -> Z -> Z -> bool.
Variable clock : option WallClock.

Definition set_sc_moss (m : MossStakePool) (c : SlashChain) : SlashChain :=
  mkSlashChain (sc_chain c) m (sc_markers c) (sc_chain_id c) (sc_genesis_params c).
Definition set_sc_chain (x : Chain) (c : SlashChain) : SlashChain :=
  mkSlashChain x (sc_moss c) (sc_markers c) (sc_chain_id c) (sc_genesis_params c).

(** The stake pool after the backing has been spread, or [None] before Staking V2. *)
Definition rebalance_mossstake_backing_if_v2 (moss : MossStakePool) (execution_slot : Z)
  (c : SlashChain) : result (option StakePool) MossIxError :=
  match ch_staking_v2_activation_slot (sc_chain c) with
  | None => Ok None
  | Some activation_slot =>
      if execution_slot <? activation_slot then Ok None
      else
        let stake_pool := ch_pool (sc_chain c) in
        match sp_staking_v2_state stake_pool with
        | None =>
            if execution_slot =? activation_slot then Ok None else Err MissingEpochState
        | Some v2_state =>
            let active_validators := (btree (v2_validators v2_state)).*1 in
            let? '(_, stake_pool) :=
              mx_alloc (StakePool_rebalance_mossstake_allocations (backing moss) active_validators
                          execution_slot stake_pool) in
            Ok (Some stake_pool)
        end
  end.

Definition put_pools (pool : option StakePool) (moss : MossStakePool) (c : SlashChain) : SlashChain :=
  let c := match pool with Some p => set_sc_chain (set_ch_pool p (sc_chain c)) c | None => c end in
  set_sc_moss moss c.

(** The slot the pool operations see: the block's slot under Staking V2, the last slot
    before it. *)
Definition moss_slot (c : SlashChain) : result Z MossIxError :=
  let? active := mx_handler (staking_v2_active (sc_chain c)) in
  let? execution_slot := mx_handler (staking_v2_execution_slot (sc_chain c)) in
  Ok (if active : bool then execution_slot else ch_last_slot (sc_chain c)).

Definition system_mossstake_deposit (ix : Instruction) (c : SlashChain) : result SlashChain MossIxError :=
  or_err (head (ix_accounts ix)) (MossHandler MissingAccounts) (fun depositor =>
  reject (length (ix_data ix) <? 9)%nat with MossHandler InvalidData;
  let amount := read_u64 (ix_data ix) 1 in
  reject amount =? 0 with MossZeroDeposit;
  let tier_byte := default 0 (ix_data ix !! 9%nat) in
  or_err (LockTier_from_u8 tier_byte) (InvalidTier tier_byte) (fun tier =>
  reject paused c with MossHandler Paused;
  or_err (ch_accounts (sc_chain c) !! depositor) (MossHandler (AccountNotFound depositor)) (fun account =>
  reject blocked_native c depositor Outgoing amount (ac_spendable account)
    with MossHandler (Restricted depositor);
  let? account := mx_handler (of_account (Account_deduct_spendable amount account)) in
  let? slot := moss_slot c in
  let? execution_slot := mx_handler (staking_v2_execution_slot (sc_chain c)) in
  let? '(_, moss) :=
    match clock with
    | Some w =>
        mx_moss (MossStakePool_stake_with_tier_at_time depositor amount (wc_slot w) (wc_seconds w) tier
          (MossStakePool_backfill_wall_clock_times (wc_timestamp_for_slot w) (sc_moss c)))
    | None => mx_moss (MossStakePool_stake_with_tier depositor amount slot tier (sc_moss c))
    end in
  let? pool := rebalance_mossstake_backing_if_v2 moss execution_slot c in
  let c := put_pools pool moss c in
  Ok (set_sc_chain (put_account depositor account (sc_chain c)) c)))).

Definition system_mossstake_unstake (ix : Instruction) (c : SlashChain) : result SlashChain MossIxError :=
  or_err (head (ix_accounts ix)) (MossHandler MissingAccounts) (fun user =>
  reject (length (ix_data ix) <? 9)%nat with MossHandler InvalidData;
  let st_licn_amount := read_u64 (ix_data ix) 1 in
  reject paused c with MossHandler Paused;
  reject blocked c user Outgoing st_licn_amount 0 with MossHandler (Restricted user);
  let? slot := moss_slot c in
  let? execution_slot := mx_handler (staking_v2_execution_slot (sc_chain c)) in
  let? '(_, moss) :=
    match clock with
    | Some w =>
        mx_moss (MossStakePool_request_unstake_at_time user st_licn_amount (wc_slot w) (wc_seconds w)
          (MossStakePool_backfill_wall_clock_times (wc_timestamp_for_slot w) (sc_moss c)))
    | None => mx_moss (MossStakePool_request_unstake user st_licn_amount slot (sc_moss c))
    end in
  let? pool := rebalance_mossstake_backing_if_v2 moss execution_slot c in
  Ok (put_pools pool moss c)).

Definition system_mossstake_claim (ix : Instruction) (c : SlashChain) : result SlashChain MossIxError :=
  or_err (head (ix_accounts ix)) (MossHandler MissingAccounts) (fun user =>
  reject paused c with MossHandler Paused;
  or_err (ch_accounts (sc_chain c) !! user) (MossHandler (AccountNotFound user)) (fun account =>
  let '(claimed, moss) :=
    match clock with
    | Some w =>
        MossStakePool_claim_unstake_at_time user (wc_slot w) (wc_seconds w)
          (MossStakePool_backfill_wall_clock_times (wc_timestamp_for_slot w) (sc_moss c))
    | None => MossStakePool_claim_unstake user (ch_last_slot (sc_chain c)) (sc_moss c)
    end in
  let? licn_claimed := mx_moss claimed in
  reject licn_claimed =? 0 with NothingToClaim;
  reject blocked_native c user Incoming licn_claimed (ac_spendable account)
    with MossHandler (Restricted user);
  let? account := mx_handler (of_account (Account_add_spendable licn_claimed account)) in
  let c := set_sc_moss moss c in
  Ok (set_sc_chain (put_account user account (sc_chain c)) c))).

Definition system_mossstake_transfer (ix : Instruction) (c : SlashChain) : result SlashChain MossIxError :=
  match ix_accounts ix with
  | from :: to :: _ =>
      reject (length (ix_data ix) <? 9)%nat with MossHandler InvalidData;
      let st_licn_amount := read_u64 (ix_data ix) 1 in
      reject paused c with MossHandler Paused;
      reject blocked c from Outgoing st_licn_amount 0 with MossHandler (Restricted from);
      reject blocked c to Incoming st_licn_amount 0 with MossHandler (Restricted to);
      let c :=
        if bool_decide (is_Some (ch_accounts (sc_chain c) !! to)) then c
        else set_sc_chain (put_account to (Account_new 0 SYSTEM_PROGRAM_ID) (sc_chain c)) c in
      let? moss :=
        match clock with
        | Some w =>
            mx_moss (MossStakePool_transfer_at_time from to st_licn_amount (wc_slot w) (wc_seconds w)
              (MossStakePool_backfill_wall_clock_times (wc_timestamp_for_slot w) (sc_moss c)))
        | None =>
            mx_moss (MossStakePool_transfer from to st_licn_amount (ch_last_slot (sc_chain c)) (sc_moss c))
        end in
      Ok (set_sc_moss moss c)
  | _ => Err (MossHandler MissingAccounts)
  end.

(** ** Commission and exit *)

Definition system_set_validator_commission (ix : Instruction) (c : SlashChain)
  : result SlashChain MossIxError :=
  match ix_accounts ix with
  | [validator] =>
      reject negb (length (ix_data ix) =? 9)%nat with MossHandler InvalidData;
      let? active := mx_handler (staking_v2_active (sc_chain c)) in
      reject negb active with V2NotActive;
      let commission_bps := read_u64 (ix_data ix) 1 in
      let pool := ch_pool (sc_chain c) in
      reject negb (bool_decide (is_Some (sp_stakes pool !! validator)))
        with MossHandler (NotRegistered validator);
      match StakePool_request_staking_v2_commission_change validator commission_bps pool with
      | Err e => Err (CommissionErr e)
      | Ok (_, pool) => Ok (set_sc_chain (set_ch_pool pool (sc_chain c)) c)
      end
  | _ => Err (MossHandler MissingAccounts)
  end.

Inductive ValidatorChangeType := ChangeAdd | ChangeRemove | ChangeStakeUpdate (new_stake : Z).

Record PendingValidatorChange := mkPendingValidatorChange {
  pvc_pubkey : Pubkey;
  pvc_change_type : ValidatorChangeType;
  pvc_queued_at_slot : Z;
  pvc_effective_epoch : Z;
}.

(** The store's key: the epoch, the slot and the first eight bytes of the public key. *)
Definition change_key (change : PendingValidatorChange) : Z * Z * Z :=
  (pvc_effective_epoch change, pvc_queued_at_slot change, Z.shiftr (pvc_pubkey change) 192).

Abbreviation ChangeQueue := (gmap (Z * Z * Z) PendingValidatorChange).

Definition queue_pending_validator_change (change : PendingValidatorChange) (queue : ChangeQueue)
  : ChangeQueue := <[change_key change := change]> queue.

Definition system_deregister_validator (ix : Instruction) (s : SlashChain * ChangeQueue)
  : result (SlashChain * ChangeQueue) MossIxError :=
  let '(c, queue) := s in
  or_err (head (ix_accounts ix)) (MossHandler MissingAccounts) (fun validator =>
  let pool := ch_pool (sc_chain c) in
  or_err (sp_stakes pool !! validator) (MossHandler (NotRegistered validator)) (fun stake_info =>
  if negb (si_is_active stake_info) then Ok (c, queue)
  else
    reject paused c with MossHandler Paused;
    let pool := set_sp_stakes (<[validator := set_si_is_active false stake_info]> (sp_stakes pool)) pool in
    let current_slot := ch_last_slot (sc_chain c) in
    let change :=
      mkPendingValidatorChange validator ChangeRemove current_slot
        (wrap64 (slot_to_epoch current_slot + 1)) in
    Ok (set_sc_chain (set_ch_pool pool (sc_chain c)) c, queue_pending_validator_change change queue))).
End moss_handlers.

(** ** Conservation *)

Lemma mx_handler_Ok {A} (r : result A HandlerError) a : mx_handler r = Ok a <-> r = Ok a.
Proof. destruct r; simpl; naive_solver. Qed.
Lemma mx_moss_Ok {A} (r : result A MossError) a : mx_moss r = Ok a <-> r = Ok a.
Proof. destruct r; simpl; naive_solver. Qed.
Lemma mx_alloc_Ok {A} (r : result A AllocError) a : mx_alloc r = Ok a <-> r = Ok a.
Proof. destruct r; simpl; naive_solver. Qed.

Record moss_state_ok (c : SlashChain) : Prop := {
  ms_accounts : accounts_wf (sc_chain c);
  ms_pool : pool_inv (ch_pool (sc_chain c));
  ms_moss : moss_inv (sc_moss c);
  ms_wealth : wealth c <= u64_max;
}.

(** Staking V2 is in force and its epoch state committed. *)
Definition v2_running (c : SlashChain) : Prop :=
  staking_v2_active (sc_chain c) = Ok true /\ is_Some (sp_staking_v2_state (ch_pool (sc_chain c))).

(** The stake the protocol has delegated to the validators is the backing of the liquid
    token. *)
Definition backed (c : SlashChain) : Prop :=
  StakePool_mossstake_allocation_total (ch_pool (sc_chain c)) = Ok (backing (sc_moss c)).

(** What a liquid staking instruction keeps. *)
Record moss_conserved (c c' : SlashChain) : Prop := {
  mc_ok : moss_state_ok c';
  mc_wealth : wealth c' = wealth c;
  mc_staked : part_total Staked (sc_chain c') = part_total Staked (sc_chain c);
  mc_locked : part_total Locked (sc_chain c') = part_total Locked (sc_chain c);
  mc_direct : direct_total (ch_pool (sc_chain c')) = direct_total (ch_pool (sc_chain c));
  mc_requests : sp_unstake_requests (ch_pool (sc_chain c')) = sp_unstake_requests (ch_pool (sc_chain c));
  mc_running : v2_running c -> v2_running c';
}.

Inductive MossIx := MossDeposit | MossUnstake | MossClaim | MossTransfer.

Section conservation.
Variable paused : SlashChain -> bool.
Variable blocked blocked_native : SlashChain -> Pubkey -> Direction -> Z -> Z -> bool.

(** The instructions in the slot mode. *)
Definition moss_ix (op : MossIx) : Instruction -> SlashChain -> result SlashChain MossIxError :=
  match op with
  | MossDeposit => system_mossstake_deposit paused blocked_native None
  | MossUnstake => system_mossstake_unstake paused blocked None
  | MossClaim => system_mossstake_claim paused blocked_native None
  | MossTransfer => system_mossstake_transfer paused blocked None
  end.

(** The exit the instruction asks for is worth something; an exit worth nothing is accepted
    and breaks the pool ([zero_value_exit_poisons]). *)
Definition redeems_ix (ix : Instruction) (c : SlashChain) : Prop :=
  forall user slot r, head (ix_accounts ix) = Some user -> moss_slot c = Ok slot ->
    MossStakePool_request_unstake user (read_u64 (ix_data ix) 1) slot (sc_moss c) = Ok r ->
    0 < mur_licn_to_receive r.1.

(** The rebalancing keeps the pool sound and reconciles the backing. *)
Lemma rebalance_if_v2_ok moss slot c pool :
  pool_inv (ch_pool (sc_chain c)) ->
  rebalance_mossstake_backing_if_v2 moss slot c = Ok pool ->
  let p := default (ch_pool (sc_chain c)) pool in
  pool_inv p /\ rebalanced (ch_pool (sc_chain c)) p
  /\ (staking_v2_execution_slot (sc_chain c) = Ok slot -> v2_running c ->
      StakePool_mossstake_allocation_total p = Ok (backing moss)).
Proof using Type.
  intros Hp. unfold rebalance_mossstake_backing_if_v2, v2_running, staking_v2_active.
  destruct (ch_staking_v2_activation_slot (sc_chain c)) as [act|]; [|intros [= <-]; split_and!; [done|reflexivity|by intros _ [? _]]].
  destruct (Z.ltb_spec slot act) as [Hlt|Hge].
  { intros [= <-]. split_and!; [done|reflexivity|]. intros -> [Ha _]. cbn [and_then] in Ha.
    destruct (Z.leb_spec act slot); [lia|done]. }
  destruct (sp_staking_v2_state (ch_pool (sc_chain c))) as [st|] eqn:Hst.
  2:{ destruct (slot =? act); [|done]. intros [= <-]. split_and!; [done|reflexivity|].
      by intros _ [_ [? ?]]. }
  rewrite and_then_Ok. intros ([m q] & Hr%mx_alloc_Ok & [= <-]). simpl.
  destruct (rebalance_ok _ _ _ _ _ _ Hp Hr) as [Hreb Hq]. split_and!; [done|done|]. intros _ _.
  unfold StakePool_rebalance_mossstake_allocations in Hr. apply and_then_Ok in Hr as (m0 & _ & H).
  apply and_then_Ok in H as ([p1 l1] & _ & H). apply and_then_Ok in H as ([p2 l2] & _ & H).
  apply and_then_Ok in H as (p3 & _ & H). apply and_then_Ok in H as ([] & _ & H).
  apply and_then_Ok in H as (t & Ht & H). apply guard_Ok in H as [Heq [= <- <-]].
  apply negb_false_iff, Z.eqb_eq in Heq. by rewrite Ht, Heq.
Qed.

Lemma moss_conserved_intro c x moss :
  moss_state_ok c -> accounts_wf x -> pool_inv (ch_pool x) -> rebalanced (ch_pool (sc_chain c)) (ch_pool x) ->
  moss_inv moss -> StakingLedger.supply x + owed moss = wealth c ->
  part_total Staked x = part_total Staked (sc_chain c) ->
  part_total Locked x = part_total Locked (sc_chain c) ->
  ch_last_slot x = ch_last_slot (sc_chain c) ->
  ch_staking_v2_activation_slot x = ch_staking_v2_activation_slot (sc_chain c) ->
  moss_conserved c (mkSlashChain x moss (sc_markers c) (sc_chain_id c) (sc_genesis_params c)).
Proof using Type.
  intros [Hwf Hp Hm Hw] Hx Hpx [Hd Hr He _] Hmoss Hval Hs Hl Hslot Hact.
  split; try done; simpl.
  - split; simpl; try done. unfold wealth. simpl. lia.
  - intros [Ha Hst]. unfold v2_running, staking_v2_active, staking_v2_execution_slot in *. simpl.
    rewrite Hact, Hslot. split; [done|]. destruct Hst as [st Hst]. rewrite Hst in He.
    destruct (sp_staking_v2_state (ch_pool x)); [done|by destruct He].
Qed.

(** An account of the chain is replaced. *)
Lemma account_moved c k a a' p :
  accounts_wf c -> ch_accounts c !! k = Some a -> account_wf a' ->
  part Staked a' = part Staked a -> part Locked a' = part Locked a ->
  let x := put_account k a' (set_ch_pool p c) in
  accounts_wf x /\ part_total Staked x = part_total Staked c /\ part_total Locked x = part_total Locked c
  /\ StakingLedger.supply x = StakingLedger.supply c - ac_spores a + ac_spores a'.
Proof using Type.
  intros Hwf Hk Ha' Hs Hl x. destruct (put_account_totals c k a a' p Hwf Hk Ha') as (H1 & H2 & H3).
  split_and!; [done| | |done]; rewrite H2; lia.
Qed.

Lemma op_spores o amount a a' :
  account_wf a -> 0 <= amount -> of_account (balance_op o amount a) = Ok a' -> (o = OpAdd \/ o = OpDeduct) ->
  account_wf a' /\ part Staked a' = part Staked a /\ part Locked a' = part Locked a
  /\ ac_spores a' = ac_spores a + flow o amount Spendable.
Proof using Type.
  intros Ha H0 Hop Ho. destruct (of_account_Ok o amount a a' Ha H0 Hop) as (Ha' & _ & Hx).
  pose proof (Hx Spendable) as E1. pose proof (Hx Staked) as E2. pose proof (Hx Locked) as E3.
  pose proof (awf_split _ Ha) as Es. pose proof (awf_split _ Ha') as Es'.
  destruct Ho as [-> | ->]; unfold flow in *; simpl in *; split_and!; done || lia.
Qed.

Lemma claim_backing claimable user p : backing (claim_where claimable user p).2 = backing p.
Proof using Type.
  unfold claim_where. destruct (mp_unstake_requests p !! user); [|done].
  destruct (drain _ _) as [t l']. by destruct (t =? 0).
Qed.

Lemma moss_slot_Ok c slot :
  moss_slot c = Ok slot -> exists e, staking_v2_execution_slot (sc_chain c) = Ok e.
Proof using Type.
  unfold moss_slot. rewrite and_then_Ok. intros (b & _ & H). apply and_then_Ok in H as (e & He%mx_handler_Ok & _).
  eauto.
Qed.

Lemma deposit_ok ix c c' :
  moss_state_ok c -> Forall is_byte (ix_data ix) -> moss_ix MossDeposit ix c = Ok c' ->
  moss_conserved c c' /\ (v2_running c -> backed c').
Proof using Type.
  intros Hc Hd. pose proof Hc as [Hwf Hp Hm Hw]. cbn [moss_ix]. unfold system_mossstake_deposit.
  intros (k & _ & H)%or_err_Ok. apply guard_Ok in H as [_ H]. apply guard_Ok in H as [_ H].
  apply or_err_Ok in H as (tier & _ & H). apply guard_Ok in H as [_ H].
  apply or_err_Ok in H as (a & Ha & H). apply guard_Ok in H as [_ H].
  apply and_then_Ok in H as (a' & Ha'%mx_handler_Ok & H). apply and_then_Ok in H as (slot & _ & H).
  apply and_then_Ok in H as (e & He%mx_handler_Ok & H).
  apply and_then_Ok in H as ([n moss] & Hmoss%mx_moss_Ok & H).
  apply and_then_Ok in H as (pool & Hpool & H).
  pose proof (read_u64_nonneg (ix_data ix) 1 Hd) as H0. set (amount := read_u64 (ix_data ix) 1) in *.
  destruct (op_spores OpDeduct amount a a' (Hwf k a Ha) H0 Ha' ltac:(by right)) as (Hwa & Es & El & Esp).
  destruct (stake_with_tier_ok k amount slot tier (sc_moss c) _ Hm H0 Hmoss) as [Hmi Howed]. simpl in Hmi, Howed.
  destruct (rebalance_if_v2_ok moss e c pool Hp Hpool) as (Hpi & Hreb & Hback).
  set (p := default (ch_pool (sc_chain c)) pool) in *.
  destruct (account_moved (sc_chain c) k a a' p Hwf Ha Hwa Es El) as (Hwx & Hst & Hlk & Hsup).
  unfold flow in Esp. simpl in Esp.
  assert (c' = mkSlashChain (put_account k a' (set_ch_pool p (sc_chain c))) moss (sc_markers c) (sc_chain_id c)
                 (sc_genesis_params c)) as ->.
  { injection H as <-. unfold p. destruct pool; [done|]. by destruct (sc_chain c). }
  split.
  - apply moss_conserved_intro; try done. unfold wealth. lia.
  - intros Hrun. apply Hback; done.
Qed.

Lemma unstake_ok ix c c' :
  moss_state_ok c -> Forall is_byte (ix_data ix) -> redeems_ix ix c -> moss_ix MossUnstake ix c = Ok c' ->
  moss_conserved c c' /\ (v2_running c -> backed c').
Proof using Type.
  intros Hc Hd Hred. pose proof Hc as [Hwf Hp Hm Hw]. cbn [moss_ix]. unfold system_mossstake_unstake.
  intros (k & Hk & H)%or_err_Ok. apply guard_Ok in H as [_ H]. apply guard_Ok in H as [_ H].
  apply guard_Ok in H as [_ H]. apply and_then_Ok in H as (slot & Hslot & H).
  apply and_then_Ok in H as (e & He%mx_handler_Ok & H).
  apply and_then_Ok in H as ([n moss] & Hmoss%mx_moss_Ok & H).
  apply and_then_Ok in H as (pool & Hpool & H).
  pose proof (read_u64_nonneg (ix_data ix) 1 Hd) as H0.
  destruct (request_unstake_ok k _ slot (sc_moss c) _ Hm H0 Hmoss (Hred k slot _ Hk Hslot Hmoss)) as [Hmi Howed].
  simpl in Hmi, Howed.
  destruct (rebalance_if_v2_ok moss e c pool Hp Hpool) as (Hpi & Hreb & Hback).
  set (p := default (ch_pool (sc_chain c)) pool) in *.
  assert (c' = mkSlashChain (set_ch_pool p (sc_chain c)) moss (sc_markers c) (sc_chain_id c)
                 (sc_genesis_params c)) as ->.
  { injection H as <-. unfold p. destruct pool; [done|]. unfold put_pools, set_sc_moss. simpl.
    by destruct (sc_chain c). }
  split.
  - apply moss_conserved_intro; try done. unfold wealth.
    change (StakingLedger.supply (set_ch_pool p (sc_chain c))) with (StakingLedger.supply (sc_chain c)). lia.
  - intros Hrun. apply Hback; done.
Qed.

Lemma claim_ok ix c c' :
  moss_state_ok c -> moss_ix MossClaim ix c = Ok c' ->
  moss_conserved c c' /\ (backed c -> backed c').
Proof using Type.
  intros Hc. pose proof Hc as [Hwf Hp Hm Hw]. cbn [moss_ix]. unfold system_mossstake_claim.
  intros (k & _ & H)%or_err_Ok. apply guard_Ok in H as [_ H]. apply or_err_Ok in H as (a & Ha & H).
  assert (owed (sc_moss c) <= u64_max) as Hmax.
  { unfold wealth in Hw. rewrite (supply_parts _ Hwf) in Hw.
    pose proof (part_total_nonneg Spendable _ Hwf). pose proof (part_total_nonneg Staked _ Hwf).
    pose proof (part_total_nonneg Locked _ Hwf). lia. }
  unfold MossStakePool_claim_unstake in H.
  pose proof (claim_where_ok (fun request => mur_claimable_at request <=? ch_last_slot (sc_chain c)) k
    (sc_moss c) Hm Hmax) as Hcl.
  pose proof (claim_backing (fun request => mur_claimable_at request <=? ch_last_slot (sc_chain c)) k (sc_moss c)) as Hb.
  destruct (claim_where _ k (sc_moss c)) as [r moss]. cbn [snd] in Hb. destruct Hcl as (Hmi & Howed & Hpaid & _).
  apply and_then_Ok in H as (v & ->%mx_moss_Ok & H). cbn [paid] in *.
  apply guard_Ok in H as [_ H]. apply guard_Ok in H as [_ H].
  apply and_then_Ok in H as (a' & Ha'%mx_handler_Ok & H).
  assert (c' = mkSlashChain (put_account k a' (sc_chain c)) moss (sc_markers c) (sc_chain_id c)
                 (sc_genesis_params c)) as -> by by injection H as <-.
  destruct (op_spores OpAdd v a a' (Hwf k a Ha) Hpaid Ha' ltac:(by left)) as (Hwa & Es & El & Esp).
  destruct (account_moved (sc_chain c) k a a' (ch_pool (sc_chain c)) Hwf Ha Hwa Es El) as (Hwx & Hst & Hlk & Hsup).
  unfold flow in Esp. simpl in Esp.
  replace (set_ch_pool (ch_pool (sc_chain c)) (sc_chain c)) with (sc_chain c) in * by by destruct (sc_chain c).
  split.
  - apply moss_conserved_intro; try done. unfold wealth. lia.
  - unfold backed. cbn [sc_chain sc_moss put_account set_ch_accounts ch_pool]. rewrite Hb. done.
Qed.

Lemma transfer_ix_ok ix c c' :
  moss_state_ok c -> Forall is_byte (ix_data ix) -> moss_ix MossTransfer ix c = Ok c' ->
  moss_conserved c c' /\ (backed c -> backed c').
Proof using Type.
  intros Hc Hd. pose proof Hc as [Hwf Hp Hm Hw]. cbn [moss_ix]. unfold system_mossstake_transfer.
  destruct (ix_accounts ix) as [|from [|to rest]]; [done..|].
  intros [_ H]%guard_Ok. apply guard_Ok in H as [_ H]. apply guard_Ok in H as [_ H]. apply guard_Ok in H as [_ H].
  set (c1 := if bool_decide _ then c else _) in H.
  apply and_then_Ok in H as (moss & Hmoss%mx_moss_Ok & [= <-]).
  assert (moss_state_ok c1 /\ wealth c1 = wealth c /\ sc_moss c1 = sc_moss c
    /\ part_total Staked (sc_chain c1) = part_total Staked (sc_chain c)
    /\ part_total Locked (sc_chain c1) = part_total Locked (sc_chain c)
    /\ ch_pool (sc_chain c1) = ch_pool (sc_chain c) /\ ch_last_slot (sc_chain c1) = ch_last_slot (sc_chain c)
    /\ ch_staking_v2_activation_slot (sc_chain c1) = ch_staking_v2_activation_slot (sc_chain c)
    /\ c1 = mkSlashChain (sc_chain c1) (sc_moss c1) (sc_markers c) (sc_chain_id c) (sc_genesis_params c))
    as (Hok1 & Hw1 & Hm1 & Hs1 & Hl1 & Hp1 & Hslot1 & Hact1 & Heta).
  { unfold c1. case_bool_decide as Hto; [by destruct c|]. apply eq_None_not_Some in Hto.
    set (x := put_account to (Account_new 0 SYSTEM_PROGRAM_ID) (sc_chain c)).
    assert (forall y, part_total y x = part_total y (sc_chain c)) as Hparts.
    { intros y. unfold part_total, x. simpl. rewrite map_sum_insert_new by done. by destruct y. }
    assert (StakingLedger.supply x = StakingLedger.supply (sc_chain c)) as Hsup.
    { unfold StakingLedger.supply, x. simpl. by rewrite map_sum_insert_new. }
    assert (accounts_wf x) as Hwx.
    { apply map_Forall_insert_2; [|done]. split; vm_compute; congruence. }
    split_and!; try done; [|unfold wealth; cbn [set_sc_chain sc_chain sc_moss]; lia].
    split; try done. unfold wealth in *. cbn [set_sc_chain sc_chain sc_moss]. lia. }
  clearbody c1. rewrite Hm1 in Hmoss.
  destruct (transfer_where_ok _ from to _ _ _ _ _ Hm (read_u64_nonneg (ix_data ix) 1 Hd) Hmoss) as [Hmi Howed].
  assert (backing moss = backing (sc_moss c)) as Hb.
  { unfold MossStakePool_transfer, transfer_where in Hmoss. rewrite !guard_Ok, or_err_Ok in Hmoss.
    destruct Hmoss as (_ & _ & x & _ & H). apply and_then_Ok in H as (_ & _ & H). apply guard_Ok in H as [_ H].
    apply and_then_Ok in H as (_ & _ & H). by apply and_then_Ok in H as ([[? ?] ?] & _ & [= <-]). }
  rewrite Heta. unfold set_sc_moss. cbn [sc_chain sc_markers sc_chain_id sc_genesis_params]. split.
  - apply moss_conserved_intro; try done; [apply Hok1|by rewrite Hp1|by rewrite Hp1|].
    unfold wealth in *. rewrite Hm1 in Hw1. lia.
  - unfold backed. cbn [sc_chain sc_moss]. by rewrite Hp1, Hb.
Qed.

(** The liquid staking instructions conserve value: a deposit, exit, claim or transfer that
    is accepted leaves the accounts and the liquid pool together worth what they were, keeps
    both pools' invariants, the staked and locked balances and the stake of everybody but
    the protocol; and while Staking V2 runs the stake delegated by the protocol stays equal,
    to the spore, to the backing of the liquid token. *)
Theorem moss_instructions_conserve op ix c c' :
  moss_state_ok c -> Forall is_byte (ix_data ix) -> (op = MossUnstake -> redeems_ix ix c) ->
  moss_ix op ix c = Ok c' ->
  moss_conserved c c' /\ (v2_running c -> backed c -> backed c').
Proof using Type.
  intros Hc Hd Hred Hop. destruct op.
  - destruct (deposit_ok ix c c' Hc Hd Hop). auto.
  - destruct (unstake_ok ix c c' Hc Hd (Hred eq_refl) Hop). auto.
  - destruct (claim_ok ix c c' Hc Hop). auto.
  - destruct (transfer_ix_ok ix c c' Hc Hd Hop). auto.
Qed.
End conservation.

Module SampleMoss.
Import SampleSlash.

Definition open (_ : SlashChain) : bool := false.
Definition free (_ : SlashChain) (_ : Pubkey) (_ : Direction) (_ _ : Z) : bool := false.

(** The chain of [SampleSlash] with a funded account. *)
Definition funded_chain : SlashChain :=
  set_sc_chain (put_account 55 (Account_new 3 55) (sc_chain chain)) chain.
Definition deposit : Instruction := mkInstruction 0 [55] ([13] ++ le_bytes 8 1000 ++ [0]).
Definition deposited_chain : SlashChain :=
  match moss_ix open free free MossDeposit deposit funded_chain with Ok c => c | Err _ => funded_chain end.

Lemma funded_chain_ok : moss_state_ok funded_chain.
Proof.
  destruct chain_ok as [Hwf Hp Hm _ _]. split; [|exact Hp|exact Hm|vm_compute; congruence].
  apply map_Forall_insert_2; [split; vm_compute; congruence|exact Hwf].
Qed.

Lemma deposit_bytes : Forall is_byte (ix_data deposit).
Proof.
  apply Forall_app. split; [constructor; [unfold is_byte; lia|constructor]|].
  apply Forall_app. split; [apply le_bytes_are_bytes|constructor; [unfold is_byte; lia|constructor]].
Qed.

Lemma moss_instructions_conserve_witness :
  moss_ix open free free MossDeposit deposit funded_chain = Ok deposited_chain
  /\ wealth deposited_chain = wealth funded_chain
  /\ StakePool_mossstake_allocation_total (ch_pool (sc_chain deposited_chain)) = Ok 1000.
Proof.
  assert (moss_ix open free free MossDeposit deposit funded_chain = Ok deposited_chain) as H
    by (vm_compute; reflexivity).
  destruct (moss_instructions_conserve open free free MossDeposit deposit funded_chain deposited_chain
    funded_chain_ok deposit_bytes ltac:(discriminate) H) as [Hc Hb].
  split; [exact H|]. split; [exact (mc_wealth _ _ Hc)|].
  assert (backed deposited_chain) as Hback.
  { apply Hb; [split; [vm_compute; reflexivity|eexists; vm_compute; reflexivity]|vm_compute; reflexivity]. }
  unfold backed in Hback. rewrite Hback. vm_compute. reflexivity.
Defined.
End SampleMoss.
