(* ===== verification/Processor.v ===== *)
(** * The transaction processor

    Models [core/src/processor/execution.rs] in the speculative mode, in which validators
    execute and replay blocks, with the signature policy and the compute costs of
    [core/src/processor.rs]: the admission checks of a transaction, its fee, rent and compute
    budget, the run of its instructions in a batch, and the execution of a block.

    - a batch is the whole state [Node]: the chain state of the staking instructions, the
      burned amount, the queue of validator changes, the stored transactions with their
      receipts, and a component [X] for the parts that are not modelled;
    - [Store] is what the processor reads from the committed state while it executes a block,
      whatever the batch holds: fee configuration, rent rate, treasury, recent block hashes,
      signing metadata, and the accounts that the durable-nonce test reads;
    - what the instructions do is the class [TxPrograms]: this file's theorems hold for every
      instance, and [Dispatch] gives the instance of the system program. *)

From S2P Require Import Prelude Crypto Block Transactions Mempool Account Fees Stake Pool Moss.
From S2P Require Import Staking StakingV2 Rent Transfers SlashInstruction MossInstructions.
From stdpp Require Import base tactics numbers list gmap.
From Stdlib Require Import ZArith Lia.

Local Open Scope Z_scope.
Local Open Scope rust_scope.

(** ** Compute units *)

Definition CU_TRANSFER : Z := 100.
Definition CU_CREATE_ACCOUNT : Z := 200.
Definition CU_CREATE_COLLECTION : Z := 500.
Definition CU_MINT_NFT : Z := 1000.
Definition CU_TRANSFER_NFT : Z := 200.
Definition CU_STAKE : Z := 500.
Definition CU_UNSTAKE : Z := 500.
Definition CU_CLAIM_UNSTAKE : Z := 300.
Definition CU_REGISTER_EVM : Z := 200.
Definition CU_MOSSSTAKE : Z := 500.
Definition CU_DEPLOY_CONTRACT : Z := 5000.
Definition CU_SET_CONTRACT_ABI : Z := 1000.
Definition CU_FAUCET_AIRDROP : Z := 100.
Definition CU_REGISTER_SYMBOL : Z := 300.
Definition CU_GOVERNED_PROPOSAL : Z := 1000.
Definition CU_ZK_SHIELD : Z := 100000.
Definition CU_ZK_TRANSFER : Z := 200000.
Definition CU_REGISTER_VALIDATOR : Z := 500.
Definition CU_SLASH_VALIDATOR : Z := 500.
Definition CU_NONCE : Z := 200.
Definition CU_GOVERNANCE_PARAM : Z := 300.
Definition CU_GOVERNANCE_ACTION : Z := 1000.
Definition CU_ORACLE_ATTESTATION : Z := 500.
Definition CU_DEREGISTER_VALIDATOR : Z := 500.

Definition compute_units_for_system_ix (instruction_type : Z) : Z :=
  match instruction_type with
  | 0 | 2 | 3 | 4 | 5 => CU_TRANSFER
  | 1 => CU_CREATE_ACCOUNT
  | 6 => CU_CREATE_COLLECTION
  | 7 => CU_MINT_NFT
  | 8 => CU_TRANSFER_NFT
  | 9 => CU_STAKE
  | 10 => CU_UNSTAKE
  | 11 => CU_CLAIM_UNSTAKE
  | 12 => CU_REGISTER_EVM
  | 13 | 14 | 15 | 16 => CU_MOSSSTAKE
  | 17 => CU_DEPLOY_CONTRACT
  | 18 => CU_SET_CONTRACT_ABI
  | 19 => CU_FAUCET_AIRDROP
  | 20 => CU_REGISTER_SYMBOL
  | 21 | 22 => CU_GOVERNED_PROPOSAL
  | 23 => CU_ZK_SHIELD
  | 24 | 25 => CU_ZK_TRANSFER
  | 26 => CU_REGISTER_VALIDATOR
  | 27 => CU_SLASH_VALIDATOR
  | 28 => CU_NONCE
  | 29 => CU_GOVERNANCE_PARAM
  | 30 => CU_ORACLE_ATTESTATION
  | 31 => CU_DEREGISTER_VALIDATOR
  | 32 | 33 => CU_GOVERNED_PROPOSAL
  | 34 | 35 | 36 | 37 => CU_GOVERNANCE_ACTION
  | 38 => CU_REGISTER_VALIDATOR
  | 39 => CU_STAKE
  | 40 => CU_TRANSFER_NFT
  | _ => 100
  end.

Definition compute_units_for_tx (tx : Transaction) : Z :=
  foldl (fun total ix =>
    if ix_program_id ix =? SYSTEM_PROGRAM_ID then
      match ix_data ix with
      | instruction_type :: _ => wrap64 (total + compute_units_for_system_ix instruction_type)
      | [] => total
      end
    else total) 0 (msg_instructions (tx_message tx)).

(** ** Results *)

(** What a contract call leaves in the processor. *)
Record ContractMeta := mkContractMeta {
  cm_return_code : option Z;
  cm_logs : list bytes;
  cm_compute_units : Z;
  cm_return_data : bytes;
}.
Definition no_meta : ContractMeta := mkContractMeta None [] 0 [].

Inductive PolicyError :=
| BadChainIdMetadata
| BadActivationLength (n : nat)
| ZeroActivationSlot
| MissingChainId (slot : Z).

Inductive SignatureError :=
| PolicyFailure (e : PolicyError)
| DomainFailure (e : TxError)
| LegacyFailure (e : TxError)
| BothFailures (domain legacy : TxError).

(** The error text of a result, by its cause; [E] is the error of an instruction. *)
Inductive TxFailure (E : Type) :=
| InvalidStructure (e : TxError)
| ZeroBlockhash
| AlreadyProcessed
| EvmSentinelReserved
| StaleBlockhash
| SignatureFailure (e : SignatureError)
| FeeFailure (e : FeeError)
| RentFailure (e : RentError)
| NativeBudgetExceeded (used budget : Z)
| ExecutionFailure (e : E)
| BudgetExceeded (used budget : Z)
| DeferredFeeFailure (e : FeeError)
| GovernanceFailure (e : FeeConfigError)
| AchievementFailure (e : E)
| EvmFailure (e : E)
| ReceiptFailure (e : FeeError)
| ReceiptLostBatch.
Arguments InvalidStructure {E}.
Arguments ZeroBlockhash {E}.
Arguments AlreadyProcessed {E}.
Arguments EvmSentinelReserved {E}.
Arguments StaleBlockhash {E}.
Arguments SignatureFailure {E}.
Arguments FeeFailure {E}.
Arguments RentFailure {E}.
Arguments NativeBudgetExceeded {E}.
Arguments ExecutionFailure {E}.
Arguments BudgetExceeded {E}.
Arguments DeferredFeeFailure {E}.
Arguments GovernanceFailure {E}.
Arguments AchievementFailure {E}.
Arguments EvmFailure {E}.
Arguments ReceiptFailure {E}.
Arguments ReceiptLostBatch {E}.

Record TxResult (E : Type) := mkTxResult {
  tr_success : bool;
  tr_receipt_eligible : bool;
  tr_fee_paid : Z;
  tr_error : option (TxFailure E);
  tr_compute_units_used : Z;
  tr_return_code : option Z;
  tr_contract_logs : list bytes;
  tr_return_data : bytes;
}.
Arguments mkTxResult {E}.
Arguments tr_success {E}.
Arguments tr_receipt_eligible {E}.
Arguments tr_fee_paid {E}.
Arguments tr_error {E}.
Arguments tr_compute_units_used {E}.
Arguments tr_return_code {E}.
Arguments tr_contract_logs {E}.
Arguments tr_return_data {E}.

Definition make_result {E} (meta : ContractMeta) (success : bool) (fee_paid : Z)
  (error : option (TxFailure E)) (compute_units_used : Z) : TxResult E :=
  mkTxResult success true fee_paid error compute_units_used
    (cm_return_code meta) (cm_logs meta) (cm_return_data meta).

Definition make_invalid_result {E} (meta : ContractMeta) (error : TxFailure E)
  (compute_units_used : Z) : TxResult E :=
  mkTxResult false false 0 (Some error) compute_units_used
    (cm_return_code meta) (cm_logs meta) (cm_return_data meta).

(** The stored receipt; rows without a status were written before receipts were kept. *)
Record TxMeta (E : Type) := mkTxMeta {
  tm_compute_units_used : Z;
  tm_return_code : option Z;
  tm_return_data : bytes;
  tm_logs : list bytes;
  tm_success : option bool;
  tm_error : option (TxFailure E);
  tm_fee_paid : option Z;
}.
Arguments mkTxMeta {E}.
Arguments tm_success {E}.

Definition TxMeta_from_result {E} (r : TxResult E) : TxMeta E :=
  mkTxMeta (tr_compute_units_used r) (tr_return_code r) (tr_return_data r) (tr_contract_logs r)
    (Some (tr_success r)) (tr_error r) (Some (tr_fee_paid r)).

Definition TxMeta_succeeded {E} (m : TxMeta E) : bool := default true (tm_success m).

(** ** State *)

Record Node (X E : Type) := mkNode {
  nd_chain : SlashChain;
  nd_burned : Z;
  nd_changes : gmap (Z * Z * Z) PendingValidatorChange;
  nd_transactions : gset Hash;
  nd_tx_meta : gmap Hash (TxMeta E);
  nd_ext : X;
}.
Arguments mkNode {X E}.
Arguments nd_chain {X E}.
Arguments nd_burned {X E}.
Arguments nd_changes {X E}.
Arguments nd_transactions {X E}.
Arguments nd_tx_meta {X E}.
Arguments nd_ext {X E}.

Definition nd_accounts {X E : Type} (n : Node X E) : gmap Pubkey Account := ch_accounts (sc_chain (nd_chain n)).
Definition nd_last_slot {X E : Type} (n : Node X E) : Z := ch_last_slot (sc_chain (nd_chain n)).

Definition set_nd_chain {X E : Type} (c : SlashChain) (n : Node X E) : Node X E :=
  mkNode c (nd_burned n) (nd_changes n) (nd_transactions n) (nd_tx_meta n) (nd_ext n).
Definition set_nd_changes {X E : Type} (q : gmap (Z * Z * Z) PendingValidatorChange) (n : Node X E) : Node X E :=
  mkNode (nd_chain n) (nd_burned n) q (nd_transactions n) (nd_tx_meta n) (nd_ext n).

(** The accounts and the burned amount, which fees and rent move. *)
Definition nd_books {X E : Type} (n : Node X E) : Books := mkBooks (nd_accounts n) (nd_burned n).
Definition put_books {X E : Type} (b : Books) (n : Node X E) : Node X E :=
  mkNode (set_sc_chain (set_ch_accounts (bk_accounts b) (sc_chain (nd_chain n))) (nd_chain n))
    (bk_burned b) (nd_changes n) (nd_transactions n) (nd_tx_meta n) (nd_ext n).

Definition put_transaction {X E : Type} (hash : Hash) (n : Node X E) : Node X E :=
  mkNode (nd_chain n) (nd_burned n) (nd_changes n) ({[hash]} ∪ nd_transactions n) (nd_tx_meta n) (nd_ext n).
Definition put_tx_meta {X E : Type} (hash : Hash) (m : TxMeta E) (n : Node X E) : Node X E :=
  mkNode (nd_chain n) (nd_burned n) (nd_changes n) (nd_transactions n)
    (<[hash := m]> (nd_tx_meta n)) (nd_ext n).

(** The committed state. *)
Record Store := mkStore {
  st_accounts : gmap Pubkey Account;
  st_fee_config : FeeConfig;
  st_rent_rate : Z;
  st_treasury : option Pubkey;
  st_recent_blockhashes : gset Hash;
  st_chain_id : option bytes;
  st_v1_activation_slot : option bytes;
}.

(** What an instruction sees of its transaction. *)
Record TxEnv := mkTxEnv { te_signature : Hash; te_compute_budget : Z }.

Class TxPrograms (X E : Type) := {
  execute_instruction :
    TxEnv -> Instruction -> ContractMeta -> Node X E -> ContractMeta * result (Node X E) E;
  (** The result and the batch it leaves, if any. *)
  process_evm_transaction : Transaction -> Node X E -> TxResult E * option (Node X E);
  (** The parameter changes that governance has scheduled. *)
  pending_governance_changes : Node X E -> list (Z * Z);
  detect_and_award_achievements : Transaction -> Node X E -> result (Node X E) E;
}.

(** ** Admission *)

Inductive TransactionSignaturePolicy :=
| PolicyLegacy
| PolicyHistoricalChainOrLegacy (chain_id : bytes)
| PolicyChainDomain (chain_id : bytes).

Definition transaction_signing_chain_id (s : Store) : result (option bytes) PolicyError :=
  match st_chain_id s with
  | None => Ok None
  | Some chain_id =>
      reject negb (is_utf8 chain_id) with BadChainIdMetadata;
      Ok (if bool_decide (chain_id = []) then None else Some chain_id)
  end.

Definition historical_transaction_signature_policy (s : Store)
  : result TransactionSignaturePolicy PolicyError :=
  let? id := transaction_signing_chain_id s in
  Ok (match id with
      | Some chain_id => PolicyHistoricalChainOrLegacy chain_id
      | None => PolicyLegacy
      end).

Definition transaction_signature_policy_at_slot (s : Store) (execution_slot : Z)
  : result TransactionSignaturePolicy PolicyError :=
  match st_v1_activation_slot s with
  | None => historical_transaction_signature_policy s
  | Some encoded =>
      reject negb (length encoded =? 8)%nat with BadActivationLength (length encoded);
      let activation_slot := le_value encoded in
      reject activation_slot =? 0 with ZeroActivationSlot;
      if execution_slot <? activation_slot then historical_transaction_signature_policy s
      else
        let? id := transaction_signing_chain_id s in
        or_err id (MissingChainId execution_slot) (fun chain_id => Ok (PolicyChainDomain chain_id))
  end.

Definition map_err {A E F} (f : E -> F) (r : result A E) : result A F :=
  match r with Ok a => Ok a | Err e => Err (f e) end.

Definition verify_transaction_signatures `{Crypto, TxCodec} (s : Store) (tx : Transaction)
  (execution_slot : Z) : result unit SignatureError :=
  let? policy := map_err PolicyFailure (transaction_signature_policy_at_slot s execution_slot) in
  let? _ :=
    match policy with
    | PolicyLegacy => map_err LegacyFailure (Transaction_verify_required_signatures tx)
    | PolicyHistoricalChainOrLegacy chain_id =>
        match Transaction_verify_required_signatures_with_chain_id chain_id tx with
        | Ok signers => Ok signers
        | Err domain_error =>
            map_err (BothFailures domain_error) (Transaction_verify_required_signatures tx)
        end
    | PolicyChainDomain chain_id =>
        map_err DomainFailure (Transaction_verify_required_signatures_with_chain_id chain_id tx)
    end in
  Ok tt.

Definition is_evm_instruction (tx : Transaction) : bool :=
  match msg_instructions (tx_message tx) with
  | ix :: _ => ix_program_id ix =? EVM_PROGRAM_ID
  | [] => false
  end.

(** ** The fee of a claim paid from the claim *)

Definition is_single_mossstake_claim_tx (tx : Transaction) : option Pubkey :=
  match msg_instructions (tx_message tx) with
  | [ix] =>
      if (ix_program_id ix =? SYSTEM_PROGRAM_ID) && bool_decide (head (ix_data ix) = Some 15)
      then head (ix_accounts ix) else None
  | _ => None
  end.

Definition sum_claims (l : list MossUnstakeRequest) : Z :=
  foldl (fun sum r => sat_add64 sum (mur_licn_to_receive r)) 0 l.

Definition mossstake_claimable_amount_for_fee {X E : Type} (clock : option WallClock) (user : Pubkey)
  (n : Node X E) : Z :=
  let pool := sc_moss (nd_chain n) in
  let requests := default [] (mp_unstake_requests pool !! user) in
  if bool_decide (length requests = 0%nat) then 0
  else
    match clock with
    | Some w =>
        let pool := MossStakePool_backfill_wall_clock_times (wc_timestamp_for_slot w) pool in
        sum_claims (List.filter (fun r =>
          if 0 <? mur_claimable_at_unix_seconds r
          then mur_claimable_at_unix_seconds r <=? wc_seconds w
          else mur_claimable_at r <=? nd_last_slot n)
          (default [] (mp_unstake_requests pool !! user)))
    | None => sum_claims (List.filter (fun r => mur_claimable_at r <=? nd_last_slot n) requests)
    end.

Definition should_defer_mossstake_claim_fee {X E : Type} (clock : option WallClock) (tx : Transaction)
  (fee_payer : Pubkey) (total_fee : Z) (n : Node X E) : bool :=
  if total_fee =? 0 then false
  else
    match is_single_mossstake_claim_tx tx with
    | None => false
    | Some user =>
        if negb (user =? fee_payer) then false
        else
          let spendable := from_option ac_spendable 0 (nd_accounts n !! fee_payer) in
          if total_fee <=? spendable then false
          else total_fee <=? mossstake_claimable_amount_for_fee clock fee_payer n
    end.

(** ** Scheduled changes of the fee distribution *)

Definition GOV_PARAM_BASE_FEE : Z := 0.
Definition GOV_PARAM_FEE_BURN_PERCENT : Z := 1.
Definition GOV_PARAM_FEE_PRODUCER_PERCENT : Z := 2.
Definition GOV_PARAM_FEE_VOTERS_PERCENT : Z := 3.
Definition GOV_PARAM_FEE_TREASURY_PERCENT : Z := 4.
Definition GOV_PARAM_FEE_COMMUNITY_PERCENT : Z := 5.

Definition FeeConfig_apply_governance_param (param_id value : Z) (c : FeeConfig) : FeeConfig :=
  let set base burn producer voters treasury community :=
    mkFeeConfig base (fc_contract_deploy_fee c) (fc_contract_upgrade_fee c) (fc_nft_mint_fee c)
      (fc_nft_collection_fee c) burn producer voters treasury community
      (fc_fee_exempt_contracts c) in
  let base := fc_base_fee c in
  let burn := fc_fee_burn_percent c in
  let producer := fc_fee_producer_percent c in
  let voters := fc_fee_voters_percent c in
  let treasury := fc_fee_treasury_percent c in
  let community := fc_fee_community_percent c in
  if param_id =? GOV_PARAM_BASE_FEE then set value burn producer voters treasury community
  else if param_id =? GOV_PARAM_FEE_BURN_PERCENT then set base value producer voters treasury community
  else if param_id =? GOV_PARAM_FEE_PRODUCER_PERCENT then set base burn value voters treasury community
  else if param_id =? GOV_PARAM_FEE_VOTERS_PERCENT then set base burn producer value treasury community
  else if param_id =? GOV_PARAM_FEE_TREASURY_PERCENT then set base burn producer voters value community
  else if param_id =? GOV_PARAM_FEE_COMMUNITY_PERCENT then set base burn producer voters treasury value
  else c.

Definition is_fee_distribution_param (param_id : Z) : bool :=
  bool_decide (param_id ∈ [GOV_PARAM_FEE_BURN_PERCENT; GOV_PARAM_FEE_PRODUCER_PERCENT;
    GOV_PARAM_FEE_VOTERS_PERCENT; GOV_PARAM_FEE_TREASURY_PERCENT; GOV_PARAM_FEE_COMMUNITY_PERCENT]).

Definition tx_updates_governance_fee_distribution (tx : Transaction) : bool :=
  existsb (fun ix =>
    (ix_program_id ix =? SYSTEM_PROGRAM_ID)
    && match ix_data ix with
       | opcode :: param_id :: _ => (opcode =? 29) && is_fee_distribution_param param_id
       | _ => false
       end) (msg_instructions (tx_message tx)).

Definition validate_pending_governance_fee_distribution {X E : Type} `{TxPrograms X E} (s : Store)
  (n : Node X E) : result unit FeeConfigError :=
  FeeConfig_validate_distribution
    (foldl (fun c pv => FeeConfig_apply_governance_param pv.1 pv.2 c) (st_fee_config s)
       (pending_governance_changes n)).

(** ** One transaction *)

Section execution.
Context {X E : Type} {C : Crypto} {K : TxCodec} {B : Bincode} {NC : NonceCodec} {P : TxPrograms X E}.
Variable decode_contract : bytes -> option ContractKind.
Variable evm_estimate : bytes -> option Z.
Variable clock : option WallClock.
Variable s : Store.

(** The instructions in order: the last batch with the compute units, or the failure, whether
    its premium is refunded, and the compute units. *)
Fixpoint run_instructions (env : TxEnv) (native_cu total_cu : Z) (ixs : list Instruction)
  (meta : ContractMeta) (n : Node X E)
  : ContractMeta * result (Z * Node X E) (TxFailure E * bool * Z) :=
  match ixs with
  | [] => (meta, Ok (total_cu, n))
  | ix :: ixs =>
      match execute_instruction env ix meta n with
      | (meta, Err e) => (meta, Err (ExecutionFailure e, true, total_cu))
      | (meta, Ok n) =>
          if ix_program_id ix =? CONTRACT_PROGRAM_ID then
            let total_cu := sat_add64 native_cu (cm_compute_units meta) in
            if te_compute_budget env <? total_cu
            then (meta, Err (BudgetExceeded total_cu (te_compute_budget env), false, total_cu))
            else run_instructions env native_cu total_cu ixs meta n
          else run_instructions env native_cu total_cu ixs meta n
      end
  end.

Definition charge (payer : Pubkey) (total_fee priority_fee : Z) (n : Node X E)
  : result (Node X E) FeeError :=
  let? b := charge_fee_with_priority_in_batch (st_fee_config s) (st_treasury s)
              payer total_fee priority_fee (nd_books n) in
  Ok (put_books b n).

Definition rent (tx : Transaction) (n : Node X E) : result (Node X E) RentError :=
  let? b := apply_rent (nd_last_slot n) (st_rent_rate s) (st_treasury s)
              (elements (tx_keys tx)) (nd_books n) in
  Ok (put_books b n).

(** A native transaction that passed admission: its fee, rent, budget and instructions. *)
Definition execute_native (tx : Transaction) (n : Node X E) : TxResult E * option (Node X E) :=
  let fee_payer := sender_of tx in
  let fee_config := st_fee_config s in
  let base_fee := compute_base_fee decode_contract evm_estimate tx fee_config in
  let priority_fee := compute_priority_fee tx in
  let total_fee := sat_add64 base_fee priority_fee in
  let compute_budget := Message_effective_compute_budget (tx_message tx) in
  let deferred := should_defer_mossstake_claim_fee clock tx fee_payer total_fee n in
  let refunded := sat_sub total_fee (compute_premium_fee tx fee_config) in
  match (if (0 <? total_fee) && negb deferred then charge fee_payer total_fee priority_fee n else Ok n) with
  | Err e => (make_invalid_result no_meta (FeeFailure e) 0, Some n)
  | Ok n =>
      match rent tx n with
      | Err e => (make_result no_meta false total_fee (Some (RentFailure e)) 0, None)
      | Ok n =>
          let native_cu := compute_units_for_tx tx in
          if compute_budget <? native_cu then
            (make_result no_meta false total_fee
               (Some (NativeBudgetExceeded native_cu compute_budget)) native_cu, None)
          else
            match run_instructions (mkTxEnv (Transaction_hash tx) compute_budget) native_cu native_cu
                    (msg_instructions (tx_message tx)) no_meta n with
            | (meta, Err (e, premium, cu)) =>
                (make_result meta false (if premium : bool then refunded else total_fee) (Some e) cu, None)
            | (meta, Ok (total_cu, n)) =>
                match (if deferred then charge fee_payer total_fee priority_fee n else Ok n) with
                | Err e => (make_invalid_result meta (DeferredFeeFailure e) total_cu, None)
                | Ok n =>
                    match (if tx_updates_governance_fee_distribution tx
                           then validate_pending_governance_fee_distribution s n else Ok tt) with
                    | Err e => (make_result meta false refunded (Some (GovernanceFailure e)) total_cu, None)
                    | Ok _ =>
                        match detect_and_award_achievements tx n with
                        | Err e =>
                            (make_result meta false refunded (Some (AchievementFailure e)) total_cu, None)
                        | Ok n =>
                            let n := put_transaction (Transaction_hash tx) n in
                            let n := put_tx_meta (Transaction_hash tx)
                                       (mkTxMeta total_cu (cm_return_code meta) (cm_return_data meta)
                                          (cm_logs meta) None None None) n in
                            (make_result meta true total_fee None total_cu, Some n)
                        end
                    end
                end
            end
      end
  end.

Definition process_transaction_inner (execution_slot : Z) (tx : Transaction) (n : Node X E)
  : TxResult E * option (Node X E) :=
  let invalid e := (make_invalid_result no_meta e 0, Some n) in
  match Transaction_validate_structure tx with
  | Err e => invalid (InvalidStructure e)
  | Ok _ =>
      if msg_recent_blockhash (tx_message tx) =? 0 then invalid ZeroBlockhash
      else if bool_decide (Transaction_hash tx ∈ nd_transactions n) then invalid AlreadyProcessed
      else if Transaction_is_evm tx then
        if is_evm_instruction tx then process_evm_transaction tx n else invalid EvmSentinelReserved
      else if negb (bool_decide (msg_recent_blockhash (tx_message tx) ∈ st_recent_blockhashes s))
              && negb (check_durable_nonce tx (st_accounts s)) then invalid StaleBlockhash
      else if is_evm_instruction tx then process_evm_transaction tx n
      else
        match verify_transaction_signatures s tx execution_slot with
        | Err e => invalid (SignatureFailure e)
        | Ok _ => execute_native tx n
        end
  end.

(** ** A block *)

(** The receipt of an eligible result: a native failure keeps only its fee. *)
Definition store_receipt (tx : Transaction) (r : TxResult E) (batch : option (Node X E))
  (cumulative : Node X E) : result (Node X E) (TxFailure E) :=
  let n := default cumulative batch in
  reject tr_success r && negb (bool_decide (is_Some batch)) with ReceiptLostBatch;
  let? n :=
    if negb (tr_success r) && negb (bool_decide (is_Some batch)) && (0 <? tr_fee_paid r) then
      map_err ReceiptFailure
        (charge (sender_of tx) (tr_fee_paid r) (Z.min (compute_priority_fee tx) (tr_fee_paid r)) n)
    else Ok n in
  Ok (put_tx_meta (Transaction_hash tx) (TxMeta_from_result r)
        (put_transaction (Transaction_hash tx) n)).

Definition set_receipt_failure (e : TxFailure E) (r : TxResult E) : TxResult E :=
  mkTxResult (tr_success r) false (tr_fee_paid r) (Some e) (tr_compute_units_used r)
    (tr_return_code r) (tr_contract_logs r) (tr_return_data r).

Definition process_one (archive_slot : Z) (tx : Transaction) (cumulative : Node X E)
  : TxResult E * Node X E :=
  let '(r, batch) := process_transaction_inner archive_slot tx cumulative in
  if tr_receipt_eligible r then
    match store_receipt tx r batch cumulative with
    | Ok n => (r, n)
    | Err e => (set_receipt_failure e r, cumulative)
    end
  else (r, cumulative).

Fixpoint process_transactions_speculative_at_slot (archive_slot : Z) (txs : list Transaction)
  (cumulative : Node X E) : list (TxResult E) * Node X E :=
  match txs with
  | [] => ([], cumulative)
  | tx :: txs =>
      let '(r, n) := process_one archive_slot tx cumulative in
      let '(rs, n) := process_transactions_speculative_at_slot archive_slot txs n in
      (r :: rs, n)
  end.

Definition process_transactions_speculative (txs : list Transaction) (n : Node X E)
  : list (TxResult E) * Node X E :=
  process_transactions_speculative_at_slot (nd_last_slot n) txs n.
End execution.

(** ** What every instruction set gives *)

(** An instruction, an EVM transaction or an award leaves the receipts of other transactions
    alone. *)
Class ReceiptKeeping (X E : Type) {C : Crypto} {B : Bincode} {P : TxPrograms X E} : Prop := {
  instruction_keeps env ix meta n meta' n' :
    execute_instruction env ix meta n = (meta', Ok n') ->
    nd_transactions n' = nd_transactions n /\ nd_tx_meta n' = nd_tx_meta n;
  evm_keeps tx n r n' :
    process_evm_transaction tx n = (r, Some n') ->
    {[Transaction_hash tx]} ∪ nd_transactions n' = {[Transaction_hash tx]} ∪ nd_transactions n
    /\ forall h, h <> Transaction_hash tx -> nd_tx_meta n' !! h = nd_tx_meta n !! h;
  award_keeps tx n n' :
    detect_and_award_achievements tx n = Ok n' ->
    nd_transactions n' = nd_transactions n /\ nd_tx_meta n' = nd_tx_meta n;
}.

Section outcomes.
Context {X E : Type} {C : Crypto} {K : TxCodec} {B : Bincode} {NC : NonceCodec} {P : TxPrograms X E}.
Variable decode_contract : bytes -> option ContractKind.
Variable evm_estimate : bytes -> option Z.
Variable clock : option WallClock.

Abbreviation inner := (process_transaction_inner decode_contract evm_estimate clock).
Abbreviation native := (execute_native decode_contract evm_estimate clock).
Abbreviation one := (process_one decode_contract evm_estimate clock).

Lemma map_err_Ok {A F G} (f : F -> G) (r : result A F) a : map_err f r = Ok a <-> r = Ok a.
Proof. destruct r; simpl; naive_solver. Qed.

(** The transaction's checks before it may run. *)
Record admitted (s : Store) (slot : Z) (tx : Transaction) (n : Node X E) : Prop := {
  ad_structure : Transaction_validate_structure tx = Ok tt;
  ad_new : Transaction_hash tx ∉ nd_transactions n;
  ad_fresh : msg_recent_blockhash (tx_message tx) <> 0
             /\ (msg_recent_blockhash (tx_message tx) ∈ st_recent_blockhashes s
                 \/ check_durable_nonce tx (st_accounts s) = true);
  ad_signed : verify_transaction_signatures s tx slot = Ok tt;
}.

(** The two ways through admission. *)
Lemma inner_cases s slot tx n :
  (exists e, inner s slot tx n = (make_invalid_result no_meta e 0, Some n))
  \/ (is_evm_instruction tx = true /\ Transaction_hash tx ∉ nd_transactions n
      /\ inner s slot tx n = process_evm_transaction tx n)
  \/ (is_evm_instruction tx = false /\ admitted s slot tx n /\ inner s slot tx n = native s tx n).
Proof.
  unfold process_transaction_inner.
  destruct (Transaction_validate_structure tx) as [[]|] eqn:Hst; [|by eauto].
  destruct (Z.eqb_spec (msg_recent_blockhash (tx_message tx)) 0); [by eauto|].
  case_bool_decide as Hnew; [by eauto|].
  destruct (Transaction_is_evm tx) eqn:?; [destruct (is_evm_instruction tx) eqn:?; by eauto|].
  destruct (negb _ && negb _) eqn:Hfresh; [by eauto|].
  destruct (is_evm_instruction tx) eqn:?; [by eauto|].
  destruct (verify_transaction_signatures s tx slot) as [[]|] eqn:Hsig; [|by eauto].
  right; right. split_and!; [done| |done]. split; try done. split; [done|].
  apply andb_false_iff in Hfresh as [Hf|Hf]; apply negb_false_iff in Hf; [left|by right].
  by apply bool_decide_eq_true in Hf.
Qed.

(** A native execution succeeds with a batch, is invalid, or fails and drops its batch. *)
Lemma native_cases s tx n :
  let '(r, batch) := native s tx n in
  if tr_success r then tr_receipt_eligible r = true /\ is_Some batch
  else tr_receipt_eligible r = true -> batch = None.
Proof.
  unfold execute_native. cbv zeta.
  destruct (if _ && _ then _ else _) as [n1|]; [|done].
  destruct (rent s tx n1) as [n2|]; [|done].
  destruct (_ <? _); [done|].
  destruct (run_instructions _ _ _ _ _ _) as [meta [[cu n3]|[[e p] cu]]]; [|done].
  destruct (if should_defer_mossstake_claim_fee _ _ _ _ _ then _ else _) as [n4|]; [|done].
  destruct (if tx_updates_governance_fee_distribution tx then _ else _) as [?|]; [|done].
  destruct (detect_and_award_achievements tx n4) as [n5|]; [|done].
  split; [done|by eexists].
Qed.

(** The state that a failed transaction leaves. *)
Definition receipt_only (s : Store) (tx : Transaction) (r : TxResult E) (n n' : Node X E) : Prop :=
  exists b,
    n' = put_tx_meta (Transaction_hash tx) (TxMeta_from_result r)
           (put_transaction (Transaction_hash tx) (put_books b n))
    /\ (if 0 <? tr_fee_paid r
        then charge_fee_with_priority_in_batch (st_fee_config s) (st_treasury s) (sender_of tx)
               (tr_fee_paid r) (Z.min (compute_priority_fee tx) (tr_fee_paid r)) (nd_books n) = Ok b
        else b = nd_books n).

Lemma put_own_books (n : Node X E) : put_books (nd_books n) n = n.
Proof. by destruct n as [[[] ? ? ? ?]]. Qed.

Lemma store_receipt_failed s tx r n n' :
  tr_success r = false -> store_receipt s tx r None n = Ok n' -> receipt_only s tx r n n'.
Proof.
  intros Hs. unfold store_receipt, receipt_only. rewrite Hs. cbn [negb andb default].
  rewrite (bool_decide_eq_false_2 (is_Some None)) by (by intros []). cbn [negb].
  destruct (0 <? tr_fee_paid r); cbn [and_then].
  - rewrite and_then_Ok. intros (m & Hc%map_err_Ok & [= <-]).
    unfold charge in Hc. apply and_then_Ok in Hc as (b & Hb & [= <-]). eauto.
  - intros [= <-]. exists (nd_books n). by rewrite put_own_books.
Qed.
End outcomes.

(** ** Properties *)

(** C12.  What a block's transaction can do, whatever the instructions: if it is not an EVM
    transaction and leaves a trace, it was well formed, not stored before, fresh (by a recent
    block hash or its durable nonce) and signed under the policy of the slot; if it fails, it
    either leaves the state untouched or leaves exactly its receipt and its fee, charged to
    its sender, and nothing of what its instructions did. *)
Theorem transaction_outcomes {X E : Type} {C : Crypto} {K : TxCodec} {B : Bincode} {NC : NonceCodec}
  {P : TxPrograms X E}
  decode_contract evm_estimate clock s slot tx (n : Node X E) r n' :
  process_one decode_contract evm_estimate clock s slot tx n = (r, n') ->
  is_evm_instruction tx = false ->
  (tr_receipt_eligible r = false -> n' = n)
  /\ (tr_receipt_eligible r = true -> admitted s slot tx n)
  /\ (tr_receipt_eligible r = true -> tr_success r = false -> receipt_only s tx r n n')
  /\ (tr_receipt_eligible r = true -> nd_tx_meta n' !! Transaction_hash tx = Some (TxMeta_from_result r)
      /\ Transaction_hash tx ∈ nd_transactions n').
Proof.
  unfold process_one. intros Hone Hevm.
  destruct (process_transaction_inner decode_contract evm_estimate clock s slot tx n) as [r0 batch] eqn:Hin.
  destruct (tr_receipt_eligible r0) eqn:Hel; [|injection Hone as <- <-; rewrite Hel; done].
  destruct (inner_cases decode_contract evm_estimate clock s slot tx n) as [[e He]|[[Ht _]|(_ & Had & Hn)]];
    [rewrite Hin in He; by injection He as -> _|congruence|].
  rewrite Hin in Hn. pose proof (native_cases decode_contract evm_estimate clock s tx n) as Hcase.
  rewrite <- Hn in Hcase.
  destruct (store_receipt s tx r0 batch n) as [n1|e1] eqn:Hstore; injection Hone as <- <-; [|done].
  rewrite Hel. split_and!; [done|done| |]; intros _.
  - intros Hf. rewrite Hf in Hcase. rewrite (Hcase Hel) in Hstore. by apply store_receipt_failed.
  - unfold store_receipt in Hstore. apply guard_Ok in Hstore as [_ Hstore].
    apply and_then_Ok in Hstore as (m & _ & [= <-]). simpl. rewrite lookup_insert_eq. set_solver.
Qed.

Section receipts.
Context {X E : Type} {C : Crypto} {B : Bincode} {P : TxPrograms X E} {RK : ReceiptKeeping X E}.
Context {K : TxCodec} {NC : NonceCodec}.
Variable decode_contract : bytes -> option ContractKind.
Variable evm_estimate : bytes -> option Z.
Variable clock : option WallClock.

(** [n'] has the receipts of [n], but for the hash [h]. *)
Definition same_receipts (h : Hash) (n n' : Node X E) : Prop :=
  {[h]} ∪ nd_transactions n' = {[h]} ∪ nd_transactions n
  /\ forall k, k <> h -> nd_tx_meta n' !! k = nd_tx_meta n !! k.

#[local] Instance same_receipts_refl h : Reflexive (same_receipts h).
Proof. by intros n. Qed.
#[local] Instance same_receipts_trans h : Transitive (same_receipts h).
Proof. intros n m o [H1 H2] [H3 H4]. split; [congruence|]. intros k Hk. by rewrite H4, H2. Qed.

Lemma same_receipts_keeps h n n' :
  nd_transactions n' = nd_transactions n -> nd_tx_meta n' = nd_tx_meta n -> same_receipts h n n'.
Proof. intros H1 H2. split; [by rewrite H1|]. by rewrite H2. Qed.

Lemma charge_keeps s h payer total priority (n n' : Node X E) :
  charge s payer total priority n = Ok n' -> same_receipts h n n'.
Proof. unfold charge. rewrite and_then_Ok. intros (b & _ & [= <-]). by apply same_receipts_keeps. Qed.

Lemma rent_keeps s h tx (n n' : Node X E) : rent s tx n = Ok n' -> same_receipts h n n'.
Proof. unfold rent. rewrite and_then_Ok. intros (b & _ & [= <-]). by apply same_receipts_keeps. Qed.

Lemma run_keeps h env native_cu ixs total_cu meta n meta' cu n' :
  run_instructions env native_cu total_cu ixs meta n = (meta', Ok (cu, n')) -> same_receipts h n n'.
Proof using RK.
  revert total_cu meta n. induction ixs as [|ix ixs IH]; intros total_cu meta n; simpl.
  { intros [= _ _ <-]. done. }
  destruct (execute_instruction env ix meta n) as [meta1 [n1|]] eqn:Hex; [|done].
  apply instruction_keeps in Hex as [H1 H2]. pose proof (same_receipts_keeps h n n1 H1 H2) as H12.
  destruct (_ =? CONTRACT_PROGRAM_ID); [destruct (_ <? _); [done|]|]; intros Hr; etrans; eauto.
Qed.

Lemma native_keeps s tx n r n' :
  execute_native decode_contract evm_estimate clock s tx n = (r, Some n') ->
  same_receipts (Transaction_hash tx) n n'.
Proof using RK.
  unfold execute_native. cbv zeta.
  set (total := sat_add64 (compute_base_fee _ _ _ _) _).
  set (deferred := should_defer_mossstake_claim_fee _ _ _ total n).
  destruct (if _ && _ then _ else _) as [n1|] eqn:H1; [|intros [= _ <-]; done].
  destruct (rent s tx n1) as [n2|] eqn:H2; [|done].
  destruct (Message_effective_compute_budget (tx_message tx) <? _); [done|].
  destruct (run_instructions _ _ _ _ _ _) as [meta [[cu n3]|[[e p] cu]]] eqn:H3; [|done].
  destruct (if deferred then _ else _) as [n4|] eqn:H4; [|done].
  destruct (if tx_updates_governance_fee_distribution tx then _ else _) as [?|]; [|done].
  destruct (detect_and_award_achievements tx n4) as [n5|] eqn:H5; [|done].
  intros [= _ <-]. set (h := Transaction_hash tx).
  transitivity n1; [destruct (_ && _); [by eapply charge_keeps|by injection H1 as ->]|].
  transitivity n2; [by eapply rent_keeps|]. transitivity n3; [by eapply run_keeps|].
  transitivity n4; [destruct deferred; [by eapply charge_keeps|by injection H4 as ->]|].
  transitivity n5; [apply award_keeps in H5 as [? ?]; by apply same_receipts_keeps|].
  split; simpl; [set_solver|]. intros k Hk. by rewrite lookup_insert_ne.
Qed.

(** One transaction of the block, as its receipts see it. *)
Lemma one_receipts s slot tx (n : Node X E) r n' :
  process_one decode_contract evm_estimate clock s slot tx n = (r, n') ->
  if tr_receipt_eligible r then
    Transaction_hash tx ∉ nd_transactions n
    /\ nd_transactions n' = {[Transaction_hash tx]} ∪ nd_transactions n
    /\ (forall k, k <> Transaction_hash tx -> nd_tx_meta n' !! k = nd_tx_meta n !! k)
    /\ nd_tx_meta n' !! Transaction_hash tx = Some (TxMeta_from_result r)
  else n' = n.
Proof using RK.
  unfold process_one. set (h := Transaction_hash tx).
  destruct (process_transaction_inner _ _ _ s slot tx n) as [r0 batch] eqn:Hin.
  destruct (tr_receipt_eligible r0) eqn:Hel; [|intros [= <- <-]; by rewrite Hel].
  destruct (store_receipt s tx r0 batch n) as [n1|e1] eqn:Hstore; intros [= <- <-]; [|done]. rewrite Hel.
  assert (h ∉ nd_transactions n /\ same_receipts h n (default n batch)) as [Hnew [Hs1 Hs2]].
  { destruct (inner_cases decode_contract evm_estimate clock s slot tx n)
      as [[e He]|[(_ & Hnew & He)|(_ & [_ Hnew _ _] & He)]]; rewrite Hin in He;
      [by injection He as -> _| |]; (split; [done|]); destruct batch as [m|]; simpl; try done.
    - symmetry in He. apply evm_keeps in He as [? ?]. by split.
    - by apply (native_keeps s tx n r0). }
  unfold store_receipt in Hstore. apply guard_Ok in Hstore as [_ Hstore].
  apply and_then_Ok in Hstore as (m & Hm & [= <-]). simpl. fold h.
  assert (same_receipts h (default n batch) m) as [Hm1 Hm2].
  { destruct (_ && _ && _); [apply map_err_Ok in Hm; by eapply charge_keeps|by injection Hm as ->]. }
  split_and!; [done|congruence| |by rewrite lookup_insert_eq].
  intros k Hk. by rewrite lookup_insert_ne, Hm2, Hs2.
Qed.

Lemma refused_when_stored s slot tx (n : Node X E) :
  Transaction_hash tx ∈ nd_transactions n ->
  exists r, process_one decode_contract evm_estimate clock s slot tx n = (r, n)
            /\ tr_receipt_eligible r = false /\ tr_success r = false.
Proof using Type.
  intros Hin. unfold process_one.
  destruct (inner_cases decode_contract evm_estimate clock s slot tx n)
    as [[e ->]|[(_ & Hnew & _)|(_ & [_ Hnew _ _] & _)]]; [|done..].
  simpl. by eexists.
Qed.

(** The hashes of the transactions that a block includes. *)
Definition included (txs : list Transaction) (rs : list (TxResult E)) : list Hash :=
  omap (fun tr => if tr_receipt_eligible (snd tr) then Some (Transaction_hash (fst tr)) else None)
    (zip txs rs).
End receipts.

(** C11.  No transaction takes effect twice: in a block, and over every later block, the hashes
    of the transactions that leave a receipt are distinct and were not stored before; after
    the block the stored hashes are the old ones and exactly these, each with the receipt of
    its result; and a transaction stored in the state is refused without effect, whatever the
    committed state of a later block. *)
Theorem block_replay_free {X E : Type} {C : Crypto} {B : Bincode} {P : TxPrograms X E}
  {RK : ReceiptKeeping X E} {K : TxCodec} {NC : NonceCodec}
  decode_contract evm_estimate clock s slot txs (n : Node X E) :
  let block := process_transactions_speculative_at_slot decode_contract evm_estimate clock in
  let '(rs, n') := block s slot txs n in
  let hashes := included txs rs in
  length rs = length txs
  /\ NoDup hashes /\ Forall (fun h => h ∉ nd_transactions n) hashes
  /\ nd_transactions n' = list_to_set hashes ∪ nd_transactions n
  /\ (forall i tx r, txs !! i = Some tx -> rs !! i = Some r -> tr_receipt_eligible r = true ->
        nd_tx_meta n' !! Transaction_hash tx = Some (TxMeta_from_result r))
  /\ (forall s' slot' tx, Transaction_hash tx ∈ nd_transactions n' ->
        exists r, process_one decode_contract evm_estimate clock s' slot' tx n' = (r, n')
                  /\ tr_receipt_eligible r = false /\ tr_success r = false).
Proof.
  intros block. assert (let '(rs, n') := block s slot txs n in
    length rs = length txs /\ NoDup (included txs rs)
    /\ Forall (fun h => h ∉ nd_transactions n) (included txs rs)
    /\ nd_transactions n' = list_to_set (included txs rs) ∪ nd_transactions n
    /\ (forall h, h ∈ nd_transactions n -> nd_tx_meta n' !! h = nd_tx_meta n !! h)
    /\ (forall i tx r, txs !! i = Some tx -> rs !! i = Some r -> tr_receipt_eligible r = true ->
        nd_tx_meta n' !! Transaction_hash tx = Some (TxMeta_from_result r))) as Hind.
  { revert n. induction txs as [|tx txs IH]; intros n; simpl.
    { unfold included. simpl. split_and!; [done|constructor|constructor|set_solver|done|done]. }
    destruct (process_one decode_contract evm_estimate clock s slot tx n) as [r n1] eqn:Hone.
    apply one_receipts in Hone. specialize (IH n1). fold block. destruct (block s slot txs n1) as [rs n'].
    destruct IH as (Hl & Hnd & Hfresh & Hset & Hkeep & Hrec).
    unfold included in *. simpl. destruct (tr_receipt_eligible r) eqn:Hel; simpl.
    - destruct Hone as (Hnew & Htx & Hother & Hown). rewrite Htx in Hset, Hkeep, Hfresh.
      rewrite Forall_forall in Hfresh.
      split_and!; [lia| | |set_solver| |].
      + constructor; [|done]. intros Hin. apply Hfresh in Hin. set_solver.
      + constructor; [done|]. rewrite Forall_forall. intros h Hin%Hfresh. set_solver.
      + intros h Hh. rewrite Hkeep by set_solver. apply Hother. by intros ->.
      + intros [|i] tx' r'; simpl; [|by apply Hrec]. intros [= <-] [= <-] _. rewrite Hkeep by set_solver. done.
    - subst n1. split_and!; [lia|done|done|done|done|]. intros [|i] tx' r'; simpl; [|by apply Hrec].
      intros [= <-] [= <-]. congruence. }
  destruct (block s slot txs n) as [rs n'].
  destruct Hind as (? & ? & ? & ? & _ & ?). split_and!; try done.
  intros s' slot' tx Hin. by apply refused_when_stored.
Qed.
