(* ===== verification/Dispatch.v ===== *)
(** * The system program

    Models [execute_instruction] and [execute_system_program] of
    [core/src/processor/system_basics.rs]: the choice of the handler of an instruction, and
    with it the processor of [Processor] over the handlers of [Transfers], [Staking],
    [SlashInstruction] and [MossInstructions].

    - [Host] is what the other components decide: governance pauses, restrictions and
      governed wallets, the hash of the last block, the decoding of evidence, the contract
      programs, the EVM, and the instructions that are not modelled (tokens, symbols,
      deployments, governance, oracle, shielded pool). *)

From S2P Require Import Prelude Crypto Block Transactions Mempool Account Fees Stake Pool PoolInvariant.
From S2P Require Import PoolRun Moss MossInvariant Allocation Slashing Staking StakingLedger StakingV2.
From S2P Require Import Rent Transfers SlashInstruction MossInstructions Processor.
From stdpp Require Import base tactics numbers list gmap.
From Stdlib Require Import ZArith Lia.

Local Open Scope Z_scope.
Local Open Scope rust_scope.

Inductive IxError :=
| UnknownProgram (program : Pubkey)
| EmptyInstructionData
| UnknownSystemInstruction (opcode : Z)
| IxTransfer (e : TransferError)
| IxHandler (e : HandlerError)
| IxSlash (e : SlashIxError)
| IxMoss (e : MossIxError)
| IxContractDecode
| IxOther (message : bytes).

Class Host (X : Type) := {
  ho_paused_staking : Node X IxError -> bool;
  ho_paused_moss : Node X IxError -> bool;
  ho_blocked : Node X IxError -> Pubkey -> TransferDirection -> Z -> Z -> bool;
  ho_blocked_native : Node X IxError -> Pubkey -> TransferDirection -> Z -> Z -> bool;
  ho_governed : Node X IxError -> Pubkey -> bool;
  ho_last_blockhash : Hash;
  ho_clock : option WallClock;
  ho_decode_evidence : bytes -> option SlashingEvidence;
  ho_decode_contract : bytes -> option ContractKind;
  ho_contract : TxEnv -> ContractKind -> Instruction -> ContractMeta -> Node X IxError ->
    ContractMeta * result (Node X IxError) IxError;
  ho_system : TxEnv -> Z -> Instruction -> ContractMeta -> Node X IxError ->
    ContractMeta * result (Node X IxError) IxError;
  ho_evm : Transaction -> Node X IxError -> TxResult IxError * option (Node X IxError);
  ho_pending_changes : Node X IxError -> list (Z * Z);
  ho_achievements : Transaction -> Node X IxError -> result (Node X IxError) IxError;
}.

Section dispatch.
Context {X : Type} `{Crypto, NonceCodec, Host X}.

(** The two names of a direction of transfer. *)
Definition transfer_direction (d : Direction) : TransferDirection :=
  match d with Incoming => IncomingTransfer | Outgoing => OutgoingTransfer end.

(** A handler over the accounts, over the chain, or over the chain with the liquid pool. *)
Definition on_accounts (n : Node X IxError) (r : result Accounts TransferError)
  : result (Node X IxError) IxError :=
  let? m := map_err IxTransfer r in
  Ok (put_books (mkBooks m (nd_burned n)) n).

Definition on_chain (n : Node X IxError) (r : result Chain HandlerError)
  : result (Node X IxError) IxError :=
  let? c := map_err IxHandler r in
  Ok (set_nd_chain (set_sc_chain c (nd_chain n)) n).

Definition on_pools {F} (f : F -> IxError) (n : Node X IxError) (r : result SlashChain F)
  : result (Node X IxError) IxError :=
  let? c := map_err f r in
  Ok (set_nd_chain c n).

Definition system_slash_validator (ix : Instruction) (n : Node X IxError)
  : result (Node X IxError) IxError :=
  let? active := map_err IxHandler (staking_v2_active (sc_chain (nd_chain n))) in
  if active : bool
  then on_pools IxSlash n (system_slash_validator_v2 ho_decode_evidence ix (nd_chain n))
  else on_chain n (system_slash_validator_legacy ho_decode_evidence true ix (sc_chain (nd_chain n))).

(** The opcodes whose handlers are modelled. *)
Definition execute_modelled (treasury : option Pubkey) (opcode : Z) (ix : Instruction)
  (n : Node X IxError) : option (result (Node X IxError) IxError) :=
  let accounts := nd_accounts n in
  let chain := sc_chain (nd_chain n) in
  let paused_staking {C} (_ : C) := ho_paused_staking n in
  let paused_moss {C} (_ : C) := ho_paused_moss n in
  let blocked {C} (_ : C) k d := ho_blocked n k (transfer_direction d) in
  let blocked_native {C} (_ : C) k d := ho_blocked_native n k (transfer_direction d) in
  match opcode with
  | 0 => Some (on_accounts n (system_transfer (ho_blocked_native n) (ho_governed n) treasury ix accounts))
  | 1 => Some (on_accounts n (system_create_account ix accounts))
  | 2 | 3 | 4 | 5 =>
      Some (on_accounts n
        (treasury_transfer (ho_blocked_native n) (ho_governed n) treasury opcode ix accounts))
  | 9 => Some (on_chain n (system_stake paused_staking blocked_native ix chain))
  | 10 => Some (on_chain n (system_request_unstake paused_staking blocked ix chain))
  | 11 => Some (on_chain n (system_claim_unstake paused_staking blocked_native ix chain))
  | 13 => Some (on_pools IxMoss n (system_mossstake_deposit paused_moss blocked_native ho_clock ix (nd_chain n)))
  | 14 => Some (on_pools IxMoss n (system_mossstake_unstake paused_moss blocked ho_clock ix (nd_chain n)))
  | 15 => Some (on_pools IxMoss n (system_mossstake_claim paused_moss blocked_native ho_clock ix (nd_chain n)))
  | 16 => Some (on_pools IxMoss n (system_mossstake_transfer paused_moss blocked ho_clock ix (nd_chain n)))
  | 26 => Some (on_chain n (system_register_validator paused_staking blocked_native ix chain))
  | 27 => Some (system_slash_validator ix n)
  | 28 => Some (on_accounts n (system_nonce (ho_blocked_native n) ho_last_blockhash ix accounts))
  | 31 =>
      Some (let? '(c, queue) := map_err IxMoss
              (system_deregister_validator paused_staking ix (nd_chain n, nd_changes n)) in
            Ok (set_nd_changes queue (set_nd_chain c n)))
  | 38 => Some (on_chain n (system_reclassify_validator_bootstrap ix chain))
  | 39 => Some (on_pools IxMoss n (system_set_validator_commission ix (nd_chain n)))
  | _ => None
  end.

Definition execute_system_program (treasury : option Pubkey) (env : TxEnv) (ix : Instruction)
  (meta : ContractMeta) (n : Node X IxError) : ContractMeta * result (Node X IxError) IxError :=
  match ix_data ix with
  | [] => (meta, Err EmptyInstructionData)
  | instruction_type :: _ =>
      match execute_modelled treasury instruction_type ix n with
      | Some r => (meta, r)
      | None =>
          if 40 <? instruction_type then (meta, Err (UnknownSystemInstruction instruction_type))
          else ho_system env instruction_type ix meta n
      end
  end.

Definition execute_contract_program (env : TxEnv) (ix : Instruction) (meta : ContractMeta)
  (n : Node X IxError) : ContractMeta * result (Node X IxError) IxError :=
  match ho_decode_contract (ix_data ix) with
  | None => (meta, Err IxContractDecode)
  | Some kind => ho_contract env kind ix meta n
  end.

Definition dispatch (treasury : option Pubkey) (env : TxEnv) (ix : Instruction)
  (meta : ContractMeta) (n : Node X IxError) : ContractMeta * result (Node X IxError) IxError :=
  if ix_program_id ix =? SYSTEM_PROGRAM_ID then execute_system_program treasury env ix meta n
  else if ix_program_id ix =? CONTRACT_PROGRAM_ID then execute_contract_program env ix meta n
  else (meta, Err (UnknownProgram (ix_program_id ix))).

Definition programs (treasury : option Pubkey) : TxPrograms X IxError := {|
  execute_instruction := dispatch treasury;
  process_evm_transaction := ho_evm;
  pending_governance_changes := ho_pending_changes;
  detect_and_award_achievements := ho_achievements;
|}.
End dispatch.

(** ** The receipts under the system program *)

(** What the receipts need of the parts that are not modelled. *)
Class HostReceipts (X : Type) {C : Crypto} {B : Bincode} {Ho : Host X} : Prop := {
  host_system_keeps env opcode ix meta n meta' n' :
    ho_system env opcode ix meta n = (meta', Ok n') ->
    nd_transactions n' = nd_transactions n /\ nd_tx_meta n' = nd_tx_meta n;
  host_contract_keeps env kind ix meta n meta' n' :
    ho_contract env kind ix meta n = (meta', Ok n') ->
    nd_transactions n' = nd_transactions n /\ nd_tx_meta n' = nd_tx_meta n;
  host_evm_keeps tx n r n' :
    ho_evm tx n = (r, Some n') ->
    {[Transaction_hash tx]} ∪ nd_transactions n' = {[Transaction_hash tx]} ∪ nd_transactions n
    /\ forall h, h <> Transaction_hash tx -> nd_tx_meta n' !! h = nd_tx_meta n !! h;
  host_award_keeps tx n n' :
    ho_achievements tx n = Ok n' ->
    nd_transactions n' = nd_transactions n /\ nd_tx_meta n' = nd_tx_meta n;
}.

Section receipts.
Context {X : Type} {C : Crypto} {B : Bincode} {NC : NonceCodec} {Ho : Host X} {HR : HostReceipts X}.

(** No handler touches the receipts. *)
Lemma modelled_keeps treasury opcode ix (n n' : Node X IxError) :
  execute_modelled treasury opcode ix n = Some (Ok n') ->
  nd_transactions n' = nd_transactions n /\ nd_tx_meta n' = nd_tx_meta n.
Proof.
  assert (forall r, on_accounts n r = Ok n' ->
    nd_transactions n' = nd_transactions n /\ nd_tx_meta n' = nd_tx_meta n) as Ha.
  { intros r (m & _ & [= <-])%and_then_Ok. done. }
  assert (forall r, on_chain n r = Ok n' ->
    nd_transactions n' = nd_transactions n /\ nd_tx_meta n' = nd_tx_meta n) as Hc.
  { intros r (m & _ & [= <-])%and_then_Ok. done. }
  assert (forall F (f : F -> IxError) r, on_pools f n r = Ok n' ->
    nd_transactions n' = nd_transactions n /\ nd_tx_meta n' = nd_tx_meta n) as Hp.
  { intros F f r (m & _ & [= <-])%and_then_Ok. done. }
  unfold execute_modelled. intros H.
  repeat case_match; try discriminate H; injection H as H;
    first [exact (Ha _ H)|exact (Hc _ H)|exact (Hp _ _ _ H)|idtac].
  - apply and_then_Ok in H as ([c q] & _ & [= <-]). done.
  - unfold system_slash_validator in H. apply and_then_Ok in H as ([] & _ & H);
      [exact (Hp _ _ _ H)|exact (Hc _ H)].
Qed.

#[global] Instance system_receipts treasury : ReceiptKeeping (P := programs treasury) X IxError.
Proof.
  split; [|exact host_evm_keeps|exact host_award_keeps].
  intros env ix meta n meta' n'. cbn [execute_instruction programs]. unfold dispatch.
  destruct (_ =? SYSTEM_PROGRAM_ID).
  - unfold execute_system_program. destruct (ix_data ix) as [|o rest]; [done|].
    destruct (execute_modelled treasury o ix n) as [r|] eqn:Hex.
    + intros [= _ ->]. by apply modelled_keeps in Hex.
    + destruct (40 <? o); [done|]. apply host_system_keeps.
  - destruct (_ =? CONTRACT_PROGRAM_ID); [|done]. unfold execute_contract_program.
    destruct (ho_decode_contract (ix_data ix)); [|done]. apply host_contract_keeps.
Qed.
End receipts.
