(* ===== verification/BlockValue.v ===== *)
(** * Value through a block

    The instructions of [Dispatch] run by the processor of [Processor] keep the ledger sound:
    this file composes the theorems on fees, rent, transfers, nonces, stake and liquid staking
    into one about whole blocks.

    - the value of a state is what the accounts hold, what the liquid pool owes and what has
      been burned;
    - a block is [plain] when its instructions are transfers, account creations, nonce, stake,
      liquid stake, commission and exit instructions, none signed by the protocol's own
      delegator, which is a hash and not a key.  Exits from the liquid pool are left out: an
      exit worth nothing is accepted and breaks that pool ([MossRun]). *)

From S2P Require Import Prelude Crypto Block Transactions Mempool Account Fees Stake Pool PoolInvariant.
From S2P Require Import PoolRun Delegation Moss MossInvariant Allocation Slashing Staking StakingLedger StakingV2.
From S2P Require Import Rent Transfers SlashInstruction MossInstructions Processor Dispatch.
From stdpp Require Import base tactics numbers list gmap.
From Stdlib Require Import ZArith Lia.

Local Open Scope Z_scope.
Local Open Scope rust_scope.

(** ** The protocol's own delegations *)

Lemma allocations_eq p q :
  (forall v, sp_delegations q !! v ≫= (.!! MOSSSTAKE_PROTOCOL_DELEGATOR)
             = sp_delegations p !! v ≫= (.!! MOSSSTAKE_PROTOCOL_DELEGATOR)) ->
  StakePool_mossstake_allocations q = StakePool_mossstake_allocations p.
Proof. intros He. apply map_eq. intros v. by rewrite !allocations_lookup. Qed.

Lemma with_delegation_allocations d v a s p :
  d <> MOSSSTAKE_PROTOCOL_DELEGATOR ->
  StakePool_mossstake_allocations (with_delegation d v a s p) = StakePool_mossstake_allocations p.
Proof.
  intros Hd. apply allocations_eq. intros w. cbn [with_delegation sp_delegations set_sp_delegations].
  destruct (decide (w = v)) as [->|Hne]; [|by rewrite lookup_insert_ne].
  rewrite lookup_insert_eq. cbn [mbind option_bind]. rewrite lookup_insert_ne by done.
  destruct (sp_delegations p !! v); simpl; [done|]. by rewrite lookup_empty.
Qed.

Lemma reduce_delegation_allocations d v a p q :
  d <> MOSSSTAKE_PROTOCOL_DELEGATOR -> sp_delegations q = reduce_delegation v d a (sp_delegations p) ->
  StakePool_mossstake_allocations q = StakePool_mossstake_allocations p.
Proof.
  intros Hd Hq. apply allocations_eq. intros w. rewrite Hq. unfold reduce_delegation.
  destruct (sp_delegations p !! v) as [entries|] eqn:Hv; [|done].
  set (e := match entries !! d with Some _ => _ | None => _ end).
  assert (e !! MOSSSTAKE_PROTOCOL_DELEGATOR = entries !! MOSSSTAKE_PROTOCOL_DELEGATOR) as He.
  { unfold e. destruct (entries !! d); [|done].
    destruct (_ =? 0); [by rewrite lookup_delete_ne|by rewrite lookup_insert_ne]. }
  destruct (decide (w = v)) as [->|Hne].
  - rewrite Hv. cbn [mbind option_bind]. case_bool_decide as Hemp.
    + rewrite lookup_delete_eq. cbn [mbind option_bind]. by rewrite <- He, Hemp, lookup_empty.
    + by rewrite lookup_insert_eq.
  - case_bool_decide; [by rewrite lookup_delete_ne|by rewrite lookup_insert_ne].
Qed.

(** The operation leaves the protocol's delegations, and whether an epoch is recorded. *)
Definition keeps_protocol (p q : StakePool) : Prop :=
  StakePool_mossstake_allocations q = StakePool_mossstake_allocations p
  /\ (is_Some (sp_staking_v2_state q) <-> is_Some (sp_staking_v2_state p)).

#[global] Instance keeps_protocol_refl : Reflexive keeps_protocol.
Proof. by intros p. Qed.
#[global] Instance keeps_protocol_trans : Transitive keeps_protocol.
Proof. intros p q r [H1 H2] [H3 H4]. split; [congruence|by rewrite H4]. Qed.

Lemma keeps_protocol_same p q :
  sp_delegations q = sp_delegations p -> sp_staking_v2_state q = sp_staking_v2_state p -> keeps_protocol p q.
Proof. intros Hd Hs. split; [by apply allocations_eq; rewrite Hd|by rewrite Hs]. Qed.

Lemma checkpoint_keeps v slot p q :
  StakePool_checkpoint_staking_v2_validator v slot p = Ok q -> keeps_protocol p q.
Proof.
  intros (r & Hr & H)%and_then_Ok. apply and_then_Ok in H as (_ & _ & [= <-]).
  apply checkpoint_inner_frame in Hr as (st & -> & Hst). split; [done|]. simpl.
  destruct (sp_staking_v2_state p), st; try done; by split; intros [? ?].
Qed.

Lemma stake_keeps v a slot i p q : StakePool_stake_with_index v a slot i p = Ok q -> keeps_protocol p q.
Proof.
  unfold StakePool_stake_with_index. intros [_ H]%guard_Ok. destruct (stake_cap v a p); [done|].
  injection H as <-. apply keeps_protocol_same; by destruct (sp_stakes p !! v).
Qed.

Lemma add_validator_stake_keeps v a p q : StakePool_add_validator_stake v a p = Ok q -> keeps_protocol p q.
Proof. intros (s & _ & H)%or_err_Ok. apply and_then_Ok in H as (s' & _ & [= <-]). done. Qed.

Lemma delegate_keeps d v a p q :
  d <> MOSSSTAKE_PROTOCOL_DELEGATOR -> StakePool_delegate d v a p = Ok q -> keeps_protocol p q.
Proof. intros Hd (s & _ & _ & _ & ->)%delegate_Ok. split; [by apply with_delegation_allocations|done]. Qed.

Lemma request_delegation_keeps d v a slot p r :
  d <> MOSSSTAKE_PROTOCOL_DELEGATOR -> StakePool_request_delegation_unstake d v a slot p = Ok r ->
  keeps_protocol p r.2.
Proof.
  intros Hd. unfold StakePool_request_delegation_unstake. intros [_ H]%guard_Ok.
  apply guard_Ok in H as [_ H]. apply guard_Ok in H as [_ H].
  apply or_err_Ok in H as (u & _ & H). apply and_then_Ok in H as (q & Hq & [= <-]).
  unfold StakePool_undelegate in Hq. apply guard_Ok in Hq as [_ Hq]. apply guard_Ok in Hq as [_ Hq].
  apply or_err_Ok in Hq as (s & _ & Hq). apply guard_Ok in Hq as [_ [= <-]].
  split; [|done]. by apply (reduce_delegation_allocations d v a).
Qed.

Lemma request_unstake_keeps v a slot st p r : StakePool_request_unstake v a slot st p = Ok r -> keeps_protocol p r.2.
Proof.
  intros (s & _ & H)%or_err_Ok. apply guard_Ok in H as [_ H]. apply and_then_Ok in H as (q & _ & [= <-]). done.
Qed.

Lemma claim_unstake_keeps v slot st p r : StakePool_claim_unstake v slot st p = Ok r -> keeps_protocol p r.2.
Proof. intros (q & _ & H)%or_err_Ok. apply guard_Ok in H as [_ [= <-]]. done. Qed.

(** The chain's clock and switches are those of [c], and the protocol's stake is untouched. *)
Definition same_protocol (c c' : Chain) : Prop :=
  ch_last_slot c' = ch_last_slot c
  /\ ch_staking_v2_activation_slot c' = ch_staking_v2_activation_slot c
  /\ keeps_protocol (ch_pool c) (ch_pool c').

Section staking.
Variable paused : Chain -> bool.
Variable blocked blocked_native : Chain -> Pubkey -> Direction -> Z -> Z -> bool.

Lemma staking_op_protocol op ix c c' :
  head (ix_accounts ix) <> Some MOSSSTAKE_PROTOCOL_DELEGATOR ->
  staking_op paused blocked blocked_native op ix c = Ok c' -> same_protocol c c'.
Proof.
  intros Hne. destruct op; cbn [staking_op].
  - unfold system_stake. destruct (ix_accounts ix) as [|staker [|v ?]]; try done.
    intros [_ H]%guard_Ok. apply guard_Ok in H as [_ H]. apply or_err_Ok in H as (a & Ha & H).
    apply guard_Ok in H as [_ H]. apply guard_Ok in H as [_ H]. apply and_then_Ok in H as (active & _ & H).
    apply and_then_Ok in H as (p & Hp & H). apply and_then_Ok in H as (a' & _ & [= <-]).
    split_and!; [done|done|]. cbn [ch_pool put_account set_ch_accounts set_ch_pool].
    destruct active; [|apply of_pool_Ok in Hp; by eapply stake_keeps].
    apply and_then_Ok in Hp as (q & Hq%of_pool_Ok & Hp). apply and_then_Ok in Hp as (slot & _ & Hp%of_v2_Ok).
    etrans; [|by eapply checkpoint_keeps].
    destruct (staker =? v); [by eapply add_validator_stake_keeps|].
    eapply delegate_keeps; [|done]. by intros ->.
  - unfold system_request_unstake. destruct (ix_accounts ix) as [|staker [|v ?]]; try done.
    intros [_ H]%guard_Ok. apply guard_Ok in H as [_ H]. apply or_err_Ok in H as (a & Ha & H).
    apply guard_Ok in H as [_ H]. apply guard_Ok in H as [_ H]. apply and_then_Ok in H as (active & _ & H).
    apply and_then_Ok in H as (slot & _ & H). apply and_then_Ok in H as (r & Hr%of_pool_Ok & H).
    apply and_then_Ok in H as (p & Hp & H). apply and_then_Ok in H as (a1 & _ & H).
    apply and_then_Ok in H as (a' & _ & [= <-]). split_and!; [done|done|].
    cbn [ch_pool put_account set_ch_accounts set_ch_pool]. transitivity r.2.
    + destruct (active && negb (staker =? v)); [|by eapply request_unstake_keeps].
      eapply request_delegation_keeps; [|done]. by intros ->.
    + destruct active; [|by injection Hp as <-]. apply of_v2_Ok in Hp. by eapply checkpoint_keeps.
  - unfold system_claim_unstake. destruct (ix_accounts ix) as [|staker [|v ?]]; try done.
    intros [_ H]%guard_Ok. apply or_err_Ok in H as (a & Ha & H).
    apply and_then_Ok in H as ([amount p] & Hr%of_pool_Ok & H). apply guard_Ok in H as [_ H].
    apply guard_Ok in H as [_ H]. apply and_then_Ok in H as (a' & _ & [= <-]). split_and!; [done|done|].
    by apply claim_unstake_keeps in Hr.
Qed.
End staking.

(** ** The liquid pool's backing *)

Definition same_clock (c c' : Chain) : Prop :=
  ch_last_slot c' = ch_last_slot c
  /\ ch_staking_v2_activation_slot c' = ch_staking_v2_activation_slot c.

Lemma running_same c c' :
  same_clock (sc_chain c) (sc_chain c') ->
  (is_Some (sp_staking_v2_state (ch_pool (sc_chain c')))
   <-> is_Some (sp_staking_v2_state (ch_pool (sc_chain c)))) ->
  v2_running c' <-> v2_running c.
Proof.
  intros [Hs Ha] He. unfold v2_running, staking_v2_active, staking_v2_execution_slot. by rewrite Hs, Ha, He.
Qed.

#[global] Instance v2_running_dec c : Decision (v2_running c).
Proof.
  unfold v2_running. destruct (staking_v2_active (sc_chain c)) as [[]|];
    [destruct (sp_staking_v2_state (ch_pool (sc_chain c)))|..];
    first [by left; split; [|eexists]|right; by intros [? [? ?]]].
Defined.

Lemma backed_same c c' :
  StakePool_mossstake_allocations (ch_pool (sc_chain c')) = StakePool_mossstake_allocations (ch_pool (sc_chain c)) ->
  backing (sc_moss c') = backing (sc_moss c) -> backed c -> backed c'.
Proof. intros Ha Hb. unfold backed, StakePool_mossstake_allocation_total. by rewrite Ha, Hb. Qed.

(** Without an epoch in force nothing is rebalanced. *)
Lemma rebalance_idle moss slot c pool :
  staking_v2_execution_slot (sc_chain c) = Ok slot -> ~ v2_running c ->
  rebalance_mossstake_backing_if_v2 moss slot c = Ok pool -> pool = None.
Proof.
  intros Hslot Hrun. unfold rebalance_mossstake_backing_if_v2.
  destruct (ch_staking_v2_activation_slot (sc_chain c)) as [act|] eqn:Hact; [|by intros [= <-]].
  destruct (Z.ltb_spec slot act); [by intros [= <-]|].
  destruct (sp_staking_v2_state (ch_pool (sc_chain c))) as [st|] eqn:Hst.
  - exfalso. apply Hrun. split; [|by eexists]. unfold staking_v2_active. rewrite Hact, Hslot. cbn [and_then].
    f_equal. by apply Z.leb_le.
  - destruct (slot =? act); [by intros [= <-]|done].
Qed.

Section backing.
Variable paused : SlashChain -> bool.
Variable blocked blocked_native : SlashChain -> Pubkey -> Direction -> Z -> Z -> bool.

(** The stake pool is left alone and the backing does not fall. *)
Definition idle (c c' : SlashChain) : Prop :=
  ch_pool (sc_chain c') = ch_pool (sc_chain c) /\ backing (sc_moss c) <= backing (sc_moss c')
  /\ same_clock (sc_chain c) (sc_chain c').

Lemma deposit_idle ix c c' :
  moss_inv (sc_moss c) -> Forall is_byte (ix_data ix) -> ~ v2_running c ->
  system_mossstake_deposit paused blocked_native None ix c = Ok c' -> idle c c'.
Proof.
  intros Hm Hd Hrun. unfold system_mossstake_deposit.
  intros (k & _ & H)%or_err_Ok. apply guard_Ok in H as [_ H]. apply guard_Ok in H as [_ H].
  apply or_err_Ok in H as (tier & _ & H). apply guard_Ok in H as [_ H].
  apply or_err_Ok in H as (a & Ha & H). apply guard_Ok in H as [_ H].
  apply and_then_Ok in H as (a' & _ & H). apply and_then_Ok in H as (slot & _ & H).
  apply and_then_Ok in H as (e & He%mx_handler_Ok & H).
  apply and_then_Ok in H as ([minted moss] & Hmoss%mx_moss_Ok & H).
  apply and_then_Ok in H as (pool & Hpool%rebalance_idle & H); [|done|done]. subst pool.
  assert (c' = mkSlashChain (put_account k a' (sc_chain c)) moss (sc_markers c) (sc_chain_id c)
                 (sc_genesis_params c)) as -> by by injection H as <-.
  split_and!; [done| |done]. simpl. pose proof (read_u64_nonneg (ix_data ix) 1 Hd) as H0.
  unfold MossStakePool_stake_with_tier in Hmoss. apply and_then_Ok in Hmoss as ([[mi su] ba] & Hpre & Hmoss).
  apply deposit_preflight_Ok in Hpre as (_ & _ & _ & -> & _); [|done..].
  apply and_then_Ok in Hmoss as (lock & _ & Hmoss). apply and_then_Ok in Hmoss as (ex & _ & [= _ <-]).
  simpl. lia.
Qed.

Lemma claim_idle ix c c' :
  system_mossstake_claim paused blocked_native None ix c = Ok c' -> idle c c'.
Proof.
  unfold system_mossstake_claim.
  intros (k & _ & H)%or_err_Ok. apply guard_Ok in H as [_ H]. apply or_err_Ok in H as (a & Ha & H).
  unfold MossStakePool_claim_unstake in H.
  pose proof (claim_backing (fun request => mur_claimable_at request <=? ch_last_slot (sc_chain c)) k (sc_moss c)) as Hb.
  destruct (claim_where _ k (sc_moss c)) as [r moss]. cbn [snd] in Hb.
  apply and_then_Ok in H as (v & _ & H). apply guard_Ok in H as [_ H]. apply guard_Ok in H as [_ H].
  apply and_then_Ok in H as (a' & _ & H).
  assert (c' = mkSlashChain (put_account k a' (sc_chain c)) moss (sc_markers c) (sc_chain_id c)
                 (sc_genesis_params c)) as -> by by injection H as <-.
  split_and!; [done|simpl; lia|done].
Qed.

Lemma transfer_idle ix c c' :
  system_mossstake_transfer paused blocked None ix c = Ok c' -> idle c c'.
Proof.
  unfold system_mossstake_transfer. destruct (ix_accounts ix) as [|from [|to rest]]; [done..|].
  intros [_ H]%guard_Ok. apply guard_Ok in H as [_ H]. apply guard_Ok in H as [_ H]. apply guard_Ok in H as [_ H].
  set (c1 := if bool_decide _ then c else _) in H.
  apply and_then_Ok in H as (moss & Hmoss%mx_moss_Ok & [= <-]).
  assert (sc_moss c1 = sc_moss c /\ ch_pool (sc_chain c1) = ch_pool (sc_chain c)
    /\ same_clock (sc_chain c) (sc_chain c1)) as (Hm1 & Hp1 & Hc1) by (unfold c1; by case_bool_decide).
  split_and!; [done| |done]. rewrite Hm1 in Hmoss. simpl.
  unfold MossStakePool_transfer, transfer_where in Hmoss. rewrite !guard_Ok, or_err_Ok in Hmoss.
  destruct Hmoss as (_ & _ & x & _ & H). apply and_then_Ok in H as (_ & _ & H). apply guard_Ok in H as [_ H].
  apply and_then_Ok in H as (_ & _ & H). by apply and_then_Ok in H as ([[? ?] ?] & _ & [= <-]).
Qed.
End backing.

(** ** The state of a node *)

Section nodes.
Context {X : Type}.
Abbreviation node := (Node X IxError).

Definition node_value (n : node) : Z := wealth (nd_chain n) + nd_burned n.

Record node_ok (n : node) : Prop := {
  no_accounts : accounts_wf (sc_chain (nd_chain n));
  no_pool : pool_inv (ch_pool (sc_chain (nd_chain n)));
  no_moss : moss_inv (sc_moss (nd_chain n));
  no_burned : 0 <= nd_burned n;
  no_value : node_value n <= u64_max;
  no_staked : sp_total_staked (ch_pool (sc_chain (nd_chain n)))
              <= part_total Staked (sc_chain (nd_chain n)) + backing (sc_moss (nd_chain n));
  no_pending : pending_total (ch_pool (sc_chain (nd_chain n))) <= part_total Locked (sc_chain (nd_chain n));
  no_backed : v2_running (nd_chain n) -> backed (nd_chain n);
}.

Definition conserved (n n' : node) : Prop := node_ok n' /\ node_value n' = node_value n.

Lemma conserved_trans n1 n2 n3 : conserved n1 n2 -> conserved n2 n3 -> conserved n1 n3.
Proof. intros [_ E] [H3 E']. split; [done|congruence]. Qed.

Lemma owed_backing m : moss_inv m -> 0 <= backing m <= owed m.
Proof.
  intros [Hp _ _ Hb _ _ Hr]. unfold owed. rewrite <- Hb. split.
  - apply map_sum_nonneg. intros k x Hx. destruct (Hp k x Hx). unfold value in *. lia.
  - enough (0 <= map_sum bucket_value (mp_unstake_requests m)) by lia. apply map_sum_nonneg.
    intros k l Hl. destruct (Hr k l Hl) as [_ Hf]. apply sumZ_nonneg. intros r Hin.
    rewrite Forall_forall in Hf. destruct (Hf r Hin). lia.
Qed.

Lemma node_books_ok n : node_ok n -> books_ok (nd_books n).
Proof.
  intros [Hwf _ Hm Hb Hv _ _ _]. split; [done|done|]. pose proof (owed_backing _ Hm).
  unfold node_value, wealth in Hv. unfold books_total. change (spores_total _) with (supply (sc_chain (nd_chain n))).
  simpl. lia.
Qed.

(** Fees, rent and transfers move spendable balances only. *)
Lemma put_books_conserved n b :
  node_ok n -> books_ok b -> books_total b = books_total (nd_books n) ->
  same_bonds (nd_accounts n) (bk_accounts b) -> conserved n (put_books b n).
Proof.
  intros [Hwf Hp Hm Hbu Hv Hst Hpe Hba] [Hok Hb0 _] Ht Hbonds.
  assert (node_value (put_books b n) = node_value n) as Hval.
  { unfold node_value, wealth, supply. unfold books_total, nd_books in Ht. simpl in *. unfold spores_total in Ht.
    unfold nd_accounts in Ht. lia. }
  assert (forall x, x <> Spendable ->
    part_total x (sc_chain (nd_chain (put_books b n))) = part_total x (sc_chain (nd_chain n))) as Hparts.
  { intros x Hx. apply (same_bonds_total x _ _ Hbonds Hx). }
  split; [|done]. split; try done; [lia| |]; rewrite Hparts by done; done.
Qed.

Lemma charge_conserved s payer total priority (n n' : node) :
  fee_config_ok (st_fee_config s) -> node_ok n -> 0 <= priority <= total -> total <= u64_max ->
  charge s payer total priority n = Ok n' -> conserved n n'.
Proof.
  intros Hc Hn Hp Ht. unfold charge. rewrite and_then_Ok. intros (b & Hb & [= <-]).
  pose proof (charge_batch_spec (st_fee_config s) (st_treasury s) payer total priority (nd_books n)
    Hc (node_books_ok n Hn) Hp Ht) as Hspec. rewrite Hb in Hspec. destruct Hspec as (Hok & Htot & _ & _ & Hheld).
  apply put_books_conserved; [done|done|done|]. intros x k Hx. rewrite Hheld.
  destruct x; [done|simpl; lia..].
Qed.

Lemma rent_conserved s tx (n n' : node) : node_ok n -> rent s tx n = Ok n' -> conserved n n'.
Proof.
  intros Hn. unfold rent. rewrite and_then_Ok. intros (b & Hb & [= <-]).
  apply apply_rent_ok in Hb as (? & ? & ?); [|apply NoDup_elements|by apply node_books_ok].
  by apply put_books_conserved.
Qed.
End nodes.

(** ** One instruction *)

Lemma allocation_total_sum p t :
  pool_inv p -> StakePool_mossstake_allocation_total p = Ok t ->
  map_sum id (StakePool_mossstake_allocations p) = t.
Proof.
  intros _. unfold StakePool_mossstake_allocation_total, map_sum. set (m := StakePool_mossstake_allocations p).
  assert (sumZ (fun kv => id kv.2) (map_to_list m) = sumZ id (btree m).*2) as ->.
  { rewrite sumZ_fmap. apply sumZ_perm. symmetry. apply btree_perm. }
  generalize (btree m).*2. intros l. rewrite <- (Z.add_0_l (sumZ id l)). generalize 0 as acc.
  induction l as [|a l IH]; intros acc; cbn [try_fold]; [intros [= <-]; unfold sumZ; simpl; lia|].
  rewrite and_then_Ok. intros (acc' & H1 & H2). apply or_err_Ok in H1 as (x & Hx & [= <-]).
  apply checked_add64_Some in Hx as [-> _]. apply IH in H2. rewrite sumZ_cons. unfold id in *. lia.
Qed.

Section instructions.
Context {X : Type} `{C : Crypto, NC : NonceCodec, Ho : Host X}.
Abbreviation node := (Node X IxError).

Lemma node_chain_ok (n : node) : node_ok n -> chain_ok (backing (sc_moss (nd_chain n))) (sc_chain (nd_chain n)).
Proof.
  intros [Hwf Hp Hm Hb Hv Hst Hpe _]. split; try done. pose proof (owed_backing _ Hm).
  unfold node_value, wealth in Hv. lia.
Qed.

Lemma node_moss_ok (n : node) : node_ok n -> moss_state_ok (nd_chain n).
Proof. intros [Hwf Hp Hm Hb Hv _ _ _]. split; try done. unfold node_value in Hv. lia. Qed.

Lemma accounts_conserved (n n' : node) r :
  node_ok n -> (forall m, r = Ok m -> keeps_value (nd_accounts n) m) ->
  on_accounts n r = Ok n' -> conserved n n'.
Proof.
  intros Hn Hr. unfold on_accounts. rewrite and_then_Ok. intros (m & Hm%map_err_Ok & [= <-]).
  destruct (Hr m Hm) as (Hok & Hs & Hb). pose proof (node_books_ok n Hn) as [_ Hb0 Ht].
  assert (books_total (mkBooks m (nd_burned n)) = books_total (nd_books n)) as Heq.
  { unfold books_total. simpl. lia. }
  apply put_books_conserved; try done. split; [done|done|by rewrite Heq].
Qed.

Lemma chain_conserved (n n' : node) r :
  node_ok n ->
  (forall c, r = Ok c -> chain_ok (backing (sc_moss (nd_chain n))) c /\ in_step (sc_chain (nd_chain n)) c
                         /\ same_protocol (sc_chain (nd_chain n)) c) ->
  on_chain n r = Ok n' -> conserved n n'.
Proof.
  intros Hn Hr. pose proof Hn as [Hwf Hp Hm Hb Hv Hst Hpe Hba].
  unfold on_chain. rewrite and_then_Ok. intros (c & Hc%map_err_Ok & [= <-]).
  destruct (Hr c Hc) as ([Hwf' Hp' Hs' Hst' Hpe'] & [Es _ _] & Hs1 & Hs2 & Hkeep).
  assert (node_value (set_nd_chain (set_sc_chain c (nd_chain n)) n) = node_value n) as Hval.
  { unfold node_value, wealth. simpl. lia. }
  split; [|done]. split; try done; [by rewrite Hval|]. intros Hrun.
  apply (backed_same (nd_chain n)); [apply Hkeep|done|]. apply Hba.
  by apply (running_same (nd_chain n)) in Hrun; [|split|apply Hkeep].
Qed.

Lemma pools_conserved (n n' : node) r :
  node_ok n ->
  (forall c, r = Ok c -> moss_conserved (nd_chain n) c
     /\ (v2_running (nd_chain n) /\ backed c \/ ~ v2_running (nd_chain n) /\ idle (nd_chain n) c)) ->
  on_pools IxMoss n r = Ok n' -> conserved n n'.
Proof.
  intros Hn Hr. pose proof Hn as [Hwf Hp Hm Hb Hv Hst Hpe Hba].
  unfold on_pools. rewrite and_then_Ok. intros (c & Hc%map_err_Ok & [= <-]).
  destruct (Hr c Hc) as ([[Hwf' Hp' Hm' Hw'] Ew Es El Ed Er Hrun] & Hcase).
  assert (node_value (set_nd_chain c n) = node_value n) as Hval by (unfold node_value; simpl; lia).
  assert (pending_total (ch_pool (sc_chain c)) = pending_total (ch_pool (sc_chain (nd_chain n)))) as Hpend.
  { unfold pending_total. by rewrite Er. }
  split; [|done]. split; try done; simpl; [by rewrite Hval| |lia|].
  - destruct Hcase as [[Hr1 Hb1]|(_ & Hpool & Hle & _)]; [|rewrite Hpool; lia].
    pose proof (allocation_total_sum _ _ Hp (Hba Hr1)) as Ha. pose proof (allocation_total_sum _ _ Hp' Hb1) as Ha'.
    unfold direct_total in Ed. lia.
  - intros Hrun'. destruct Hcase as [[_ ?]|(Hnr & Hpool & _ & Hclock)]; [done|].
    exfalso. apply Hnr. by apply (running_same (nd_chain n)) in Hrun'; [|done|simpl; rewrite Hpool].
Qed.
End instructions.

(** ** The plain instructions *)

Definition plain_opcodes : list Z := [0; 1; 2; 3; 4; 5; 9; 10; 11; 13; 15; 16; 28; 31; 39].

Record plain_ix (ix : Instruction) : Prop := {
  px_program : ix_program_id ix = SYSTEM_PROGRAM_ID;
  px_bytes : Forall is_byte (ix_data ix);
  px_opcode : exists opcode, head (ix_data ix) = Some opcode /\ opcode ∈ plain_opcodes;
  px_signer : head (ix_accounts ix) <> Some MOSSSTAKE_PROTOCOL_DELEGATOR;
}.

Lemma commission_conserved ix c c' :
  moss_state_ok c -> system_set_validator_commission ix c = Ok c' ->
  moss_conserved c c' /\ v2_running c /\ (backed c -> backed c').
Proof.
  intros Hc. pose proof Hc as [Hwf Hp Hm Hw]. unfold system_set_validator_commission.
  destruct (ix_accounts ix) as [|v [|? ?]]; [done| |done]. intros [_ H]%guard_Ok.
  apply and_then_Ok in H as (active & Hact%mx_handler_Ok & H). apply guard_Ok in H as [Hn%negb_false_iff H].
  subst active. apply guard_Ok in H as [_ H].
  destruct (StakePool_request_staking_v2_commission_change v _ _) as [[pending p]|] eqn:Hreq; [|done].
  assert (c' = mkSlashChain (set_ch_pool p (sc_chain c)) (sc_moss c) (sc_markers c) (sc_chain_id c)
                 (sc_genesis_params c)) as -> by by injection H as <-.
  unfold StakePool_request_staking_v2_commission_change in Hreq. clear H.
  apply or_err_Ok in Hreq as (st & Hst & H). apply or_err_Ok in H as (schedule & _ & H).
  apply guard_Ok in H as [_ H]. apply guard_Ok in H as [_ H]. apply guard_Ok in H as [_ H].
  apply or_err_Ok in H as (epoch & _ & H). apply and_then_Ok in H as (_ & _ & [= _ <-]).
  assert (v2_running c) as Hrun by (split; [done|by eexists]).
  split_and!; [|done|by apply backed_same].
  apply moss_conserved_intro; try done.
  - exact (inv_frame _ (sp_total_slashed _) (sp_bootstrap_grants_issued _) _ Hp).
  - split; simpl; [done|done|by rewrite Hst|]. intros [? ? ?]. by split.
Qed.

Section plain.
Context {X : Type} `{C : Crypto, NC : NonceCodec, Ho : Host X}.
Abbreviation node := (Node X IxError).
Hypothesis slot_mode : ho_clock = None.

Lemma deregister_conserved paused ix (n : node) c q :
  node_ok n -> system_deregister_validator paused ix (nd_chain n, nd_changes n) = Ok (c, q) ->
  conserved n (set_nd_changes q (set_nd_chain c n)).
Proof.
  intros Hn. unfold system_deregister_validator. rewrite or_err_Ok. intros (v & _ & H).
  apply or_err_Ok in H as (s & Hs & H). destruct (negb (si_is_active s)) eqn:Hact.
  { injection H as <- <-. destruct Hn. by split. }
  apply guard_Ok in H as [_ [= <- <-]]. pose proof (node_chain_ok n Hn) as [Hwf Hp Hsu Hst Hpe].
  set (p := ch_pool (sc_chain (nd_chain n))) in *.
  set (p' := set_sp_stakes _ p).
  assert (pool_inv p') as Hp'.
  { destruct (pi_stakes p Hp v s Hs) as [_ Ham _ _ _].
    pose proof (inv_put p Hp v s (set_si_is_active false s) (sp_total_staked p) Hs) as Hi.
    apply Hi; [done|exact Ham|done|simpl; lia|apply (pi_total_max p Hp)]. }
  destruct (chain_conserved n
    (set_nd_chain (set_sc_chain (set_ch_pool p' (sc_chain (nd_chain n))) (nd_chain n)) n)
    (Ok (set_ch_pool p' (sc_chain (nd_chain n)))) Hn) as [[] Hv]; [intros c [= <-]; by split_and!|done|].
  by split.
Qed.

(** The three liquid staking instructions. *)
Lemma moss_conserved_node op ix (n n' : node) paused blocked blocked_native :
  node_ok n -> Forall is_byte (ix_data ix) -> op <> MossUnstake ->
  on_pools IxMoss n (moss_ix paused blocked blocked_native op ix (nd_chain n)) = Ok n' -> conserved n n'.
Proof.
  intros Hn Hd Hop. pose proof (node_moss_ok n Hn) as Hok. pose proof (ms_moss _ Hok) as Hm.
  apply pools_conserved; [done|]. intros c Hc.
  assert (moss_conserved (nd_chain n) c
    /\ (v2_running (nd_chain n) -> backed c) /\ (~ v2_running (nd_chain n) -> idle (nd_chain n) c))
    as (Hcons & Hb & Hi).
  { destruct op; [|done| |]; cbn [moss_ix] in Hc.
    - destruct (deposit_ok paused blocked blocked_native ix _ _ Hok Hd Hc) as [? ?].
      split_and!; [done|done|]. intros Hr. by eapply deposit_idle.
    - destruct (claim_ok paused blocked blocked_native ix _ _ Hok Hc) as [? Hback].
      split_and!; [done|by intros Hr; apply Hback, (no_backed n Hn)|]. intros _. by eapply claim_idle.
    - destruct (transfer_ix_ok paused blocked blocked_native ix _ _ Hok Hd Hc) as [? Hback].
      split_and!; [done|by intros Hr; apply Hback, (no_backed n Hn)|]. intros _. by eapply transfer_idle. }
  split; [done|]. destruct (decide (v2_running (nd_chain n))); auto.
Qed.

Lemma plain_conserved treasury ix opcode (n n' : node) :
  plain_ix ix -> node_ok n -> head (ix_data ix) = Some opcode ->
  execute_modelled treasury opcode ix n = Some (Ok n') -> conserved n n'.
Proof using slot_mode.
  intros [_ Hd (op & Ho1 & Hin) Hsig] Hn Ho2 Hex. rewrite Ho1 in Ho2. injection Ho2 as ->.
  pose proof (node_chain_ok n Hn) as Hc.
  assert (forall o r, Some (on_accounts n r) = Some (Ok n') ->
    r = native_op (ho_blocked_native n) (ho_governed n) treasury ho_last_blockhash o ix (nd_accounts n) ->
    conserved n n') as Hnative.
  { intros o r [= He] ->. eapply accounts_conserved; [done| |exact He].
    intros m Hm. by eapply native_op_value; [|apply (no_accounts n Hn)|exact Hm]. }
  set (blocked k d := ho_blocked n k (transfer_direction d)).
  set (native k d := ho_blocked_native n k (transfer_direction d)).
  assert (forall o r, Some (on_chain n r) = Some (Ok n') ->
    r = staking_op (fun _ => ho_paused_staking n) (fun _ => blocked) (fun _ => native) o ix (sc_chain (nd_chain n)) -> conserved n n') as Hstaking.
  { intros o r [= He] ->. eapply chain_conserved; [done| |exact He]. intros c Hr.
    pose proof (staking_op_protocol _ _ _ o ix _ c Hsig Hr) as Hprot.
    destruct o; cbn [staking_op] in Hr;
      [destruct (system_stake_ok _ _ _ ix _ c Hc Hd Hr)|destruct (system_request_unstake_ok _ _ _ ix _ c Hc Hd Hr)
      |destruct (system_claim_unstake_ok _ _ _ ix _ c Hc Hr)]; by split_and!. }
  assert (forall o r, Some (on_pools IxMoss n r) = Some (Ok n') ->
    r = moss_ix (fun _ => ho_paused_moss n) (fun _ => blocked) (fun _ => native) o ix (nd_chain n) -> o <> MossUnstake -> conserved n n') as Hmoss.
  { intros o r [= He] -> Ho'. by eapply moss_conserved_node. }
  unfold execute_modelled in Hex. rewrite slot_mode in Hex. unfold plain_opcodes in Hin.
  repeat (apply elem_of_cons in Hin as [->|Hin]); [..|by apply elem_of_nil in Hin]; cbv zeta iota beta in Hex.
  - by eapply (Hnative NTransfer).
  - by eapply (Hnative NCreate).
  - by eapply (Hnative (NTreasuryTransfer 2)).
  - by eapply (Hnative (NTreasuryTransfer 3)).
  - by eapply (Hnative (NTreasuryTransfer 4)).
  - by eapply (Hnative (NTreasuryTransfer 5)).
  - by eapply (Hstaking Stake).
  - by eapply (Hstaking RequestUnstake).
  - by eapply (Hstaking ClaimUnstake).
  - by eapply (Hmoss MossDeposit).
  - by eapply (Hmoss MossClaim).
  - by eapply (Hmoss MossTransfer).
  - by eapply (Hnative NNonce).
  - injection Hex as Hex. apply and_then_Ok in Hex as ([c q] & Hq%map_err_Ok & [= <-]).
    exact (deregister_conserved (fun _ => ho_paused_staking n) ix n c q Hn Hq).
  - injection Hex as Hex. eapply pools_conserved; [done| |exact Hex]. intros c Hr.
    destruct (commission_conserved ix _ c (node_moss_ok n Hn) Hr) as (? & ? & Hb).
    split; [done|]. left. split; [done|]. by apply Hb, (no_backed n Hn).
Qed.

(** ** Transactions and blocks *)

Record plain_tx (tx : Transaction) : Prop := {
  pt_instructions : Forall plain_ix (msg_instructions (tx_message tx));
  pt_some : msg_instructions (tx_message tx) <> [];
  pt_price : 0 <= Message_effective_compute_unit_price (tx_message tx);
}.

Lemma plain_opcode_cases opcode : opcode ∈ plain_opcodes ->
  opcode <> 6 /\ opcode <> 7 /\ opcode <> 17 /\ opcode <> 23 /\ opcode <> 24 /\ opcode <> 25.
Proof. unfold plain_opcodes. rewrite !elem_of_cons, elem_of_nil. lia. Qed.

Lemma plain_no_premium config ixs total :
  Forall plain_ix ixs ->
  foldl (add_premium ho_decode_contract config) total ixs = total /\ foldl (premium_of config) total ixs = total.
Proof.
  induction 1 as [|ix ixs [Hprog _ (op & Hop & Hin) _] _ IH]; [done|].
  apply plain_opcode_cases in Hin as (H6 & H7 & H17 & H23 & H24 & H25). simpl.
  replace (add_premium ho_decode_contract config total ix) with total;
    [replace (premium_of config total ix) with total; [done|]|];
    [unfold premium_of|unfold add_premium]; rewrite Hprog, Hop; simpl;
    rewrite (proj2 (Z.eqb_neq op 6) H6), (proj2 (Z.eqb_neq op 7) H7), (proj2 (Z.eqb_neq op 17) H17); [done|].
  by rewrite (proj2 (Z.eqb_neq op 23) H23), (proj2 (Z.eqb_neq op 24) H24), (proj2 (Z.eqb_neq op 25) H25).
Qed.

Lemma plain_fees evm_estimate config tx :
  plain_tx tx -> 0 <= fc_base_fee config ->
  let total := sat_add64 (compute_base_fee ho_decode_contract evm_estimate tx config) (compute_priority_fee tx) in
  0 <= compute_priority_fee tx <= total /\ total <= u64_max /\ compute_premium_fee tx config = 0.
Proof.
  intros [Hall Hne Hprice] Hbase total.
  assert (0 <= compute_priority_fee tx <= u64_max) as Hp.
  { unfold compute_priority_fee. destruct (_ =? 0); [done|].
    assert (0 <= Message_effective_compute_budget (tx_message tx)) as Hb.
    { unfold Message_effective_compute_budget. destruct (msg_compute_budget _); [|done].
      destruct (Z.ltb_spec 0 z); [|done]. unfold MAX_COMPUTE_BUDGET. lia. }
    pose proof (Z.div_pos (Message_effective_compute_budget (tx_message tx)
      * Message_effective_compute_unit_price (tx_message tx)) 1000000
      (Z.mul_nonneg_nonneg _ _ Hb Hprice) eq_refl).
    unfold u64_max. lia. }
  assert (0 <= compute_base_fee ho_decode_contract evm_estimate tx config) as Hb.
  { unfold compute_base_fee. destruct (msg_instructions (tx_message tx)) as [|ix ixs] eqn:Hix; [done|].
    pose proof (Forall_inv Hall) as [Hprog _ _ _]. rewrite Hprog. cbn [Z.eqb SYSTEM_PROGRAM_ID].
    destruct (_ && free_opcode _); [done|]. change (_ =? EVM_PROGRAM_ID) with false. cbv iota.
    destruct (_ && _); [done|]. destruct (plain_no_premium config (ix :: ixs) (fc_base_fee config) Hall) as [-> _].
    done. }
  unfold total, sat_add64. split_and!; [lia..|].
  by destruct (plain_no_premium config _ 0 Hall).
Qed.
End plain.

(** Awards write contract storage and no balance. *)
Class AwardsConserve (X : Type) {Ho : Host X} : Prop := {
  award_conserved tx (n n' : Node X IxError) : node_ok n -> ho_achievements tx n = Ok n' -> conserved n n';
}.

Section blocks.
Context {X : Type} {C : Crypto} {NC : NonceCodec} {K : TxCodec} {B : Bincode} {Ho : Host X} {AC : AwardsConserve X}.
Abbreviation node := (Node X IxError).
Hypothesis slot_mode : ho_clock = None.
Variable evm_estimate : bytes -> option Z.
Variable s : Store.
Hypothesis config_ok : fee_config_ok (st_fee_config s).
Hypothesis base_fee_ok : 0 <= fc_base_fee (st_fee_config s).

#[local] Instance system_program : TxPrograms X IxError := programs (st_treasury s).

Lemma run_conserved env native_cu ixs total_cu meta n meta' cu (n' : node) :
  Forall plain_ix ixs -> node_ok n ->
  run_instructions env native_cu total_cu ixs meta n = (meta', Ok (cu, n')) -> conserved n n'.
Proof using slot_mode.
  intros Hall. revert total_cu meta n. induction Hall as [|ix ixs Hix _ IH]; intros total_cu meta n Hn; simpl.
  { intros [= _ _ <-]. by split. }
  unfold dispatch, execute_system_program. rewrite (px_program ix Hix). simpl.
  destruct (px_opcode ix Hix) as (op & Hop & Hin).
  destruct (ix_data ix) as [|o rest] eqn:Hdata; [done|]. cbn [head] in Hop. injection Hop as ->.
  destruct (execute_modelled (st_treasury s) op ix n) as [[n1|]|] eqn:Hex; [| |].
  - assert (conserved n n1) as H1 by (eapply plain_conserved; [done|done|done|by rewrite Hdata|exact Hex]).
    intros Hr. eapply conserved_trans; [exact H1|]. eapply IH; [apply H1|exact Hr].
  - done.
  - exfalso. revert Hex. unfold plain_opcodes in Hin.
    repeat (apply elem_of_cons in Hin as [->|Hin]; [done|]). by apply elem_of_nil in Hin.
Qed.

Lemma optional_charge (b : bool) payer total priority (n n' : node) :
  node_ok n -> 0 <= priority <= total -> total <= u64_max ->
  (if b then charge s payer total priority n else Ok n) = Ok n' -> conserved n n'.
Proof using config_ok.
  intros Hn Hp Ht. destruct b; [by eapply charge_conserved|]. intros [= <-]. by split.
Qed.

(** A native transaction that passed admission. *)
Lemma native_conserved tx (n : node) :
  plain_tx tx -> node_ok n ->
  let '(r, batch) := execute_native ho_decode_contract evm_estimate ho_clock s tx n in
  (tr_success r = true -> forall n', batch = Some n' -> conserved n n')
  /\ 0 <= tr_fee_paid r <= u64_max.
Proof using slot_mode config_ok base_fee_ok AC.
  intros Htx Hn. destruct (plain_fees evm_estimate (st_fee_config s) tx Htx base_fee_ok) as (Hp & Ht & Hprem).
  unfold execute_native. rewrite Hprem.
  set (total := sat_add64 (compute_base_fee _ _ _ _) _) in *. cbv zeta.
  replace (sat_sub total 0) with total by (unfold sat_sub; lia).
  destruct (if _ && _ then _ else _) as [n1|] eqn:H1; [|done].
  apply optional_charge in H1; [|done|done|done].
  destruct (rent s tx n1) as [n2|] eqn:H2; [|split; [done|simpl; lia]].
  apply rent_conserved in H2; [|apply H1].
  destruct (_ <? compute_units_for_tx tx); [split; [done|simpl; lia]|].
  destruct (run_instructions _ _ _ _ _ _) as [meta [[cu n3]|[[e p] cu]]] eqn:H3;
    [|split; [done|destruct p; simpl; lia]].
  apply run_conserved in H3; [|apply Htx|apply H2].
  destruct (if should_defer_mossstake_claim_fee _ _ _ _ _ then _ else _) as [n4|] eqn:H4; [|done].
  apply optional_charge in H4; [|apply H3|done|done].
  destruct (if tx_updates_governance_fee_distribution tx then _ else _) as [?|]; [|split; [done|simpl; lia]].
  destruct (detect_and_award_achievements tx n4) as [n5|] eqn:H5; [|split; [done|simpl; lia]].
  apply award_conserved in H5; [|apply H4]. split; [|simpl; lia]. intros _ n' [= <-].
  destruct (conserved_trans _ _ _ (conserved_trans _ _ _ (conserved_trans _ _ _
    (conserved_trans _ _ _ H1 H2) H3) H4) H5) as [[] ?]. by split.
Qed.

Lemma one_conserved slot tx (n : node) r n' :
  plain_tx tx -> node_ok n ->
  process_one ho_decode_contract evm_estimate ho_clock s slot tx n = (r, n') -> conserved n n'.
Proof using slot_mode config_ok base_fee_ok AC.
  intros Htx Hn. assert (is_evm_instruction tx = false) as Hevm.
  { unfold is_evm_instruction. destruct Htx as [Hall Hne _]. destruct (msg_instructions _) as [|ix ?]; [done|].
    by rewrite (px_program ix (Forall_inv Hall)). }
  assert (conserved n n) as Hrefl by by split. unfold process_one.
  destruct (process_transaction_inner _ _ _ s slot tx n) as [r0 batch] eqn:Hin.
  destruct (tr_receipt_eligible r0) eqn:Hel; [|by intros [= _ <-]].
  destruct (inner_cases ho_decode_contract evm_estimate ho_clock s slot tx n) as [[e He]|[[Ht _]|(_ & _ & Hnat)]];
    [rewrite Hin in He; by injection He as -> _|congruence|]. rewrite Hin in Hnat.
  pose proof (native_cases ho_decode_contract evm_estimate ho_clock s tx n) as Hcase.
  pose proof (native_conserved tx n Htx Hn) as Hcons. rewrite <- Hnat in Hcase, Hcons.
  destruct Hcons as [Hcons Hfee].
  destruct (store_receipt s tx r0 batch n) as [n1|e1] eqn:Hstore; intros [= _ <-]; [|done].
  destruct (tr_success r0) eqn:Hsuc.
  - destruct Hcase as [_ [n2 ->]]. unfold store_receipt in Hstore. rewrite Hsuc in Hstore. simpl in Hstore.
    injection Hstore as <-. destruct (Hcons eq_refl n2 eq_refl) as [[] ?]. by split.
  - rewrite (Hcase Hel) in Hstore. apply store_receipt_failed in Hstore as (b & -> & Hb); [|done].
    enough (conserved n (put_books b n)) as [[] ?] by by split.
    destruct (0 <? tr_fee_paid r0); [|subst b; by rewrite put_own_books].
    eapply (charge_conserved s (sender_of tx) (tr_fee_paid r0)); [done|done| |apply Hfee|].
    2:{ unfold charge. by rewrite Hb. }
    destruct (plain_fees evm_estimate (st_fee_config s) tx Htx base_fee_ok) as (Hp & _). lia.
Qed.
End blocks.

(** ** Properties *)


(** ** A free failure *)

(** The premium that a failed transaction gets back is recognised by the first bytes of its
    data, the premium it pays by decoding them: a transaction whose contract instruction
    starts like a deployment but does not decode pays no premium, is refunded one, and is
    included in the block without any fee, although its base fee is due; its only trace is
    its receipt. *)
Theorem malformed_deploy_is_free {X} {C : Crypto} {NC : NonceCodec} {K : TxCodec} {B : Bincode} {Ho : Host X}
  evm_estimate s slot tx ix (n : Node X IxError) r n' :
  msg_instructions (tx_message tx) = [ix] -> ix_program_id ix = CONTRACT_PROGRAM_ID ->
  starts_with DEPLOY_PREFIX (ix_data ix) = true -> is_utf8 (ix_data ix) = true ->
  ho_decode_contract (ix_data ix) = None ->
  let config := st_fee_config s in
  0 <= fc_base_fee config <= fc_contract_deploy_fee config -> fc_contract_deploy_fee config <= u64_max ->
  msg_compute_unit_price (tx_message tx) = None ->
  process_one (P := programs (st_treasury s)) ho_decode_contract evm_estimate ho_clock s slot tx n = (r, n') ->
  tr_receipt_eligible r = true -> tr_error r = Some (ExecutionFailure IxContractDecode) ->
  compute_base_fee ho_decode_contract evm_estimate tx config = fc_base_fee config
  /\ tr_success r = false /\ tr_fee_paid r = 0
  /\ n' = put_tx_meta (Transaction_hash tx) (TxMeta_from_result r) (put_transaction (Transaction_hash tx) n).
Proof.
  intros Hix Hprog Hpre Hutf Hdec config Hfee Hmax Hprice Hone Hel Herr.
  assert (compute_base_fee ho_decode_contract evm_estimate tx config = fc_base_fee config) as Hbase.
  { unfold compute_base_fee. rewrite Hix, Hprog. cbv iota beta. cbn [forallb foldl].
    unfold exempt_call, add_premium, is_contract. rewrite Hprog, Hdec. by destruct (negb _ && negb _). }
  assert (compute_premium_fee tx config = fc_contract_deploy_fee config) as Hprem.
  { unfold compute_premium_fee. rewrite Hix. cbn [foldl]. unfold premium_of. rewrite Hprog, Hutf. cbv iota beta.
    rewrite Hpre. change (CONTRACT_PROGRAM_ID =? CONTRACT_PROGRAM_ID) with true. change (CONTRACT_PROGRAM_ID =? SYSTEM_PROGRAM_ID) with false.
    cbv iota. apply sat_add64_small. lia. }
  assert (compute_priority_fee tx = 0) as Hprio.
  { unfold compute_priority_fee, Message_effective_compute_unit_price. by rewrite Hprice. }
  assert (is_evm_instruction tx = false) as Hevm by (unfold is_evm_instruction; by rewrite Hix, Hprog).
  unfold process_one in Hone.
  destruct (process_transaction_inner _ _ _ s slot tx n) as [r0 batch] eqn:Hin.
  destruct (tr_receipt_eligible r0) eqn:Hel0; [|injection Hone as <- <-; congruence].
  destruct (inner_cases (P := programs (st_treasury s)) ho_decode_contract evm_estimate ho_clock s slot tx n)
    as [[e He]|[[Ht _]|(_ & _ & Hnat)]]; [rewrite Hin in He; by injection He as -> _|congruence|].
  rewrite Hin in Hnat. destruct (store_receipt s tx r0 batch n) as [n1|e1] eqn:Hstore; injection Hone as <- <-; [|done].
  assert (tr_success r0 = false /\ tr_fee_paid r0 = 0 /\ batch = None) as (Hs & Hf & ->).
  { unfold execute_native in Hnat. fold config in Hnat. rewrite Hbase, Hprem, Hprio, Hix in Hnat.
    replace (sat_add64 (fc_base_fee config) 0) with (fc_base_fee config) in Hnat
      by (unfold sat_add64; lia).
    replace (sat_sub (fc_base_fee config) (fc_contract_deploy_fee config)) with 0 in Hnat
      by (unfold sat_sub; lia).
    cbv zeta in Hnat. destruct (if _ && _ then _ else _) as [m1|]; [|injection Hnat as -> _; done].
    destruct (rent s tx m1) as [m2|]; [|injection Hnat as -> _; done].
    destruct (_ <? compute_units_for_tx tx); [injection Hnat as -> _; done|].
    cbn [run_instructions execute_instruction programs] in Hnat. unfold dispatch in Hnat. rewrite Hprog in Hnat.
    cbn in Hnat. unfold execute_contract_program in Hnat. rewrite Hdec in Hnat. by injection Hnat as -> ->. }
  split_and!; [done|done|done|]. apply store_receipt_failed in Hstore as (b & -> & Hb); [|done].
  rewrite Hf in Hb. simpl in Hb. subst b. by rewrite put_own_books.
Qed.

(** ** A block *)

(** A host without contracts, EVM or governance, and a block of three transactions: a transfer,
    the same transfer again, and one that its sender cannot pay for. *)
Module SampleBlock.
#[export] Existing Instance Toy.crypto.
#[export] Existing Instance ToyNonce.codec.

#[export] Instance host : Host unit := {|
  ho_paused_staking _ := false;
  ho_paused_moss _ := false;
  ho_blocked _ _ _ _ _ := false;
  ho_blocked_native _ _ _ _ _ := false;
  ho_governed _ _ := false;
  ho_last_blockhash := 8;
  ho_clock := None;
  ho_decode_evidence _ := None;
  ho_decode_contract _ := None;
  ho_contract _ _ _ meta _ := (meta, Err (IxOther []));
  ho_system _ opcode _ meta _ := (meta, Err (UnknownSystemInstruction opcode));
  ho_evm _ _ := (make_invalid_result no_meta (EvmFailure (IxOther [])) 0, None);
  ho_pending_changes _ := [];
  ho_achievements _ n := Ok n;
|}.

#[export] Instance bincode : Bincode := {|
  transaction_bytes tx := concat (map ix_data (msg_instructions (tx_message tx)));
|}.
#[export] Instance codec : TxCodec := {|
  message_bytes m := msg_recent_blockhash m :: concat (map ix_data (msg_instructions m));
  decode_transaction _ := None;
|}.

#[export] Instance host_receipts : HostReceipts unit.
Proof. split; simpl; try done. by intros _ n n' [= <-]. Qed.
#[export] Instance awards : AwardsConserve unit.
Proof. split. intros _ n n' Hn [= <-]. by split. Qed.

Definition sender : Keypair := mkKeypair 1.
Definition payer : Pubkey := Keypair_pubkey sender.

Definition transfer_tx (amount : Z) : Transaction :=
  let m := Message_new [mkInstruction SYSTEM_PROGRAM_ID [payer; 77] (0 :: le_bytes 8 amount)] 7 in
  mkTransaction [Keypair_sign sender (message_bytes m)] m Native.

Definition node : Node unit IxError :=
  mkNode
    (mkSlashChain
       (mkChain {[payer := Account_new 5 payer; 3 := Account_new 1 3]} StakePool_new 10 None (Some 3) false [])
       MossStakePool_new [] None None)
    0 ∅ ∅ ∅ tt.
Definition store : Store := mkStore ∅ FeeConfig_default_from_constants 0 (Some 3) {[7]} None None.

Definition txs : list Transaction := [transfer_tx 1000; transfer_tx 1000; transfer_tx (10 ^ 18)].

Definition block : list (TxResult IxError) * Node unit IxError :=
  process_transactions_speculative_at_slot (P := programs (Some 3)) (fun _ => None) (fun _ => None) None store 11
    txs node.

Lemma node_sound : node_ok node.
Proof.
  split; try (vm_compute; congruence).
  - apply map_Forall_insert_2; [split; vm_compute; congruence|].
    apply map_Forall_insert_2; [split; vm_compute; congruence|]. apply map_Forall_empty.
  - apply pool_new_inv.
  - apply moss_new_inv.
Qed.

Lemma config_sound : fee_config_ok (st_fee_config store).
Proof. by split; vm_compute. Qed.

Lemma plain_transfer amount : plain_tx (transfer_tx amount).
Proof.
  split; [|done|by vm_compute]. constructor; [|done]. split; [done| | |].
  - constructor; [by vm_compute|]. apply le_bytes_are_bytes.
  - exists 0. split; [done|]. left.
  - by vm_compute.
Qed.


Lemma block_replay_free_witness :
  Transaction_hash (transfer_tx 1000) ∈ nd_transactions block.2
  /\ exists r, process_one (P := programs (Some 3)) (fun _ => None) (fun _ => None) None store 12 (transfer_tx 1000)
                 block.2 = (r, block.2)
               /\ tr_receipt_eligible r = false /\ tr_success r = false.
Proof.
  assert (Transaction_hash (transfer_tx 1000) ∈ nd_transactions block.2) as Hin
    by (apply (bool_decide_eq_true_1 _); vm_compute; reflexivity).
  split; [exact Hin|].
  pose proof (block_replay_free (P := programs (Some 3)) (fun _ => None) (fun _ => None) None store 11 txs node) as H.
  assert (process_transactions_speculative_at_slot (P := programs (Some 3)) (fun _ => None) (fun _ => None) None
            store 11 txs node = (block.1, block.2)) as Hb by exact (surjective_pairing block).
  cbv zeta in H. rewrite Hb in H. exact (proj2 (proj2 (proj2 (proj2 (proj2 H)))) store 12 _ Hin).
Defined.

Lemma transaction_outcomes_witness :
  let tx := transfer_tx (10 ^ 18) in
  let one := process_one (P := programs (Some 3)) (fun _ => None) (fun _ => None) None store 11 tx node in
  tr_success one.1 = false /\ receipt_only store tx one.1 node one.2.
Proof.
  intros tx one. assert (tr_success one.1 = false) as Hs by (vm_compute; reflexivity).
  assert (tr_receipt_eligible one.1 = true) as He by (vm_compute; reflexivity).
  split; [exact Hs|].
  exact (proj1 (proj2 (proj2 (transaction_outcomes (P := programs (Some 3)) (fun _ => None) (fun _ => None) None
    store 11 tx node one.1 one.2 (surjective_pairing one) eq_refl))) He Hs).
Defined.
(** A contract instruction with the text of a deployment and nothing more. *)
Definition malformed_ix : Instruction := mkInstruction CONTRACT_PROGRAM_ID [payer] DEPLOY_PREFIX.
Definition malformed_tx : Transaction :=
  let m := Message_new [malformed_ix] 7 in
  mkTransaction [Keypair_sign sender (message_bytes m)] m Native.

Lemma malformed_deploy_is_free_witness :
  let one := process_one (P := programs (Some 3)) (fun _ => None) (fun _ => None) None store 11 malformed_tx node in
  tr_success one.1 = false /\ tr_fee_paid one.1 = 0 /\ nd_books one.2 = nd_books node.
Proof.
  intros one.
  destruct (malformed_deploy_is_free (fun _ => None) store 11 malformed_tx malformed_ix node one.1 one.2)
    as (_ & Hs & Hf & Hn); [reflexivity..|vm_compute; split; discriminate|vm_compute; discriminate|reflexivity
    |exact (surjective_pairing one)|vm_compute; reflexivity|vm_compute; reflexivity|].
  split; [exact Hs|]. split; [exact Hf|]. rewrite Hn. reflexivity.
Defined.
End SampleBlock.
