(* ===== verification/GovernanceActions.v ===== *)
(** * Governance actions

    Models [core/src/governance.rs] (actions and proposals), the parser of action payloads in
    [core/src/processor/governance_parsing.rs] with the validation of parameter changes, and
    the builder of restriction payloads in [rpc/src/lib.rs].

    - a reader over a slice and an offset is the list of the bytes that are left;
    - JSON documents are read by a library: the class [Json] has the two decoders the parser
      uses;
    - strings are their bytes, and [metadata] and [action_label], which only repeat the action
      as text, are left out of the proposal. *)

From S2P Require Import Prelude Crypto Block Account Transactions Fees Transfers Processor.
From S2P Require Import Restrictions Governed.
From stdpp Require Import base tactics numbers list gmap strings.
From Stdlib Require Import ZArith Lia.

Local Open Scope Z_scope.
Local Open Scope rust_scope.

(** ** Data *)

(** How the result of a function maps to success. *)
Inductive AbiResultKind := RuntimeSuccessOnly | ReturnCode | ReturnValue | NonzeroReturnValue.

Record AbiResultSemantics := mkAbiResultSemantics {
  ars_kind : AbiResultKind;
  ars_success_codes : list Z;
  ars_failure_codes : list Z;
}.

Record AbiFunction := mkAbiFunction {
  af_name : bytes;
  af_opcode : option Z;
  af_readonly : bool;
  af_result_semantics : option AbiResultSemantics;
}.
Record ContractAbi := mkContractAbi { abi_functions : list AbiFunction; abi_other : bytes }.

Record SymbolRegistrationSpec := mkSymbolRegistrationSpec {
  sr_symbol : bytes;
  sr_name : option bytes;
  sr_template : option bytes;
  sr_metadata : option bytes;
  sr_decimals : option Z;
}.

Inductive GovernanceAction :=
| TreasuryTransfer (recipient : Pubkey) (amount : Z)
| ParamChange (param_id value : Z)
| ContractUpgrade (contract : Pubkey) (code : bytes)
| SetContractUpgradeTimelock (contract : Pubkey) (epochs : Z)
| ExecuteContractUpgrade (contract : Pubkey)
| VetoContractUpgrade (contract : Pubkey)
| ContractClose (contract destination : Pubkey)
| ContractCall (contract : Pubkey) (function args : bytes) (value : Z)
| RegisterContractSymbol (contract : Pubkey) (registration : SymbolRegistrationSpec)
| SetContractAbi (contract : Pubkey) (abi : ContractAbi)
| Restrict (target : RestrictionTarget) (mode : RestrictionMode) (reason : RestrictionReason)
    (evidence_hash evidence_uri_hash : option Hash) (expires_at_slot : option Z)
| LiftRestriction (restriction_id : Z) (reason : RestrictionLiftReason)
| ExtendRestriction (restriction_id : Z) (new_expires_at_slot : option Z) (evidence_hash : option Hash).

Record GovernanceProposal := mkGovernanceProposal {
  pr_id : Z;
  pr_authority : Pubkey;
  pr_approval_authority : option Pubkey;
  pr_proposer : Pubkey;
  pr_action : GovernanceAction;
  pr_approvals : list Pubkey;
  pr_threshold : Z;
  pr_execute_after_epoch : Z;
  pr_velocity_tier : GovernedTransferVelocityTier;
  pr_daily_cap_spores : Z;
  pr_executed : bool;
  pr_cancelled : bool;
}.

Definition eta_GovernanceProposal (p : GovernanceProposal) : GovernanceProposal :=
  mkGovernanceProposal (pr_id p) (pr_authority p) (pr_approval_authority p) (pr_proposer p) (pr_action p)
    (pr_approvals p) (pr_threshold p) (pr_execute_after_epoch p) (pr_velocity_tier p)
    (pr_daily_cap_spores p) (pr_executed p) (pr_cancelled p).
Definition set_pr_approvals : list Pubkey -> GovernanceProposal -> GovernanceProposal :=
  ltac:(setter eta_GovernanceProposal pr_approvals).
Definition set_pr_executed : bool -> GovernanceProposal -> GovernanceProposal :=
  ltac:(setter eta_GovernanceProposal pr_executed).
Definition set_pr_cancelled : bool -> GovernanceProposal -> GovernanceProposal :=
  ltac:(setter eta_GovernanceProposal pr_cancelled).

Definition proposal_approval_authority (p : GovernanceProposal) : Pubkey :=
  default (pr_authority p) (pr_approval_authority p).

Definition is_ready (current_epoch : Z) (p : GovernanceProposal) : bool :=
  negb (pr_executed p) && negb (pr_cancelled p)
  && (pr_threshold p <=? Z.of_nat (length (pr_approvals p))) && (pr_execute_after_epoch p <=? current_epoch).

(** ** Errors *)

Inductive ActionError :=
| ActionAccounts
| ActionData
| ZeroTransfer
| CodeTruncated
| FunctionEmpty
| FunctionNotUtf8
| PayloadTruncated
| TrailingBytes (count : Z)
| ComponentEmpty
| ComponentTooLong (len : Z)
| ComponentNotUtf8
| UnknownModule (id : Z)
| UnknownTargetType (id : Z)
| UnknownMode (id : Z)
| UnknownReason (id : Z)
| UnknownLiftReason (id : Z)
| UnexpectedFlags (flags : Z)
| ActionRestriction (e : RestrictionError)
| ZeroRestrictionId
| SymbolPayload
| SymbolField
| AbiFormat
| BaseFeeRange
| PercentRange
| MinStakeRange
| EpochSlotsRange
| UnknownParam (param_id : Z)
| Distribution (e : FeeConfigError)
| UnknownAction (action_type : Z).

(** ** Readers *)

Definition read_exact (len : nat) (data : bytes) : result (bytes * bytes) ActionError :=
  if (length data <? len)%nat then Err PayloadTruncated else Ok (take len data, drop len data).

Definition read_u8 (data : bytes) : result (Z * bytes) ActionError :=
  let? '(l, data) := read_exact 1 data in Ok (le_value l, data).
Definition read_u16_le (data : bytes) : result (Z * bytes) ActionError :=
  let? '(l, data) := read_exact 2 data in Ok (le_value l, data).
Definition read_u64_le (data : bytes) : result (Z * bytes) ActionError :=
  let? '(l, data) := read_exact 8 data in Ok (le_value l, data).
Definition read_pubkey (data : bytes) : result (Pubkey * bytes) ActionError :=
  let? '(l, data) := read_exact 32 data in Ok (le_value (reverse l), data).
Definition read_hash (data : bytes) : result (Hash * bytes) ActionError :=
  let? '(l, data) := read_exact 32 data in Ok (le_value (reverse l), data).

Definition read_limited_utf8 (data : bytes) : result (bytes * bytes) ActionError :=
  let? '(len, data) := read_u16_le data in
  if len =? 0 then Err ComponentEmpty
  else if MAX_BRIDGE_ROUTE_COMPONENT_LEN <? len then Err (ComponentTooLong len)
  else
    let? '(l, data) := read_exact (Z.to_nat len) data in
    if is_utf8 l then Ok (l, data) else Err ComponentNotUtf8.

Definition finish (data : bytes) : result unit ActionError :=
  match data with [] => Ok tt | _ => Err (TrailingBytes (Z.of_nat (length data))) end.

(** [if flags & flag != 0 { Some(read()?) } else { None }] *)
Definition read_flagged {A} (flags flag : Z) (read : bytes -> result (A * bytes) ActionError) (data : bytes)
  : result (option A * bytes) ActionError :=
  if Z.land flags flag =? 0 then Ok (None, data) else let? '(a, data) := read data in Ok (Some a, data).

Definition map_restriction {A} (r : result A RestrictionError) : result A ActionError :=
  match r with Ok a => Ok a | Err e => Err (ActionRestriction e) end.

Definition parse_restriction_target (data : bytes) : result (RestrictionTarget * bytes) ActionError :=
  let? '(target_type, data) := read_u8 data in
  let? '(target, data) :=
    match target_type with
    | 0 => let? '(k, data) := read_pubkey data in Ok (TAccount k, data)
    | 1 => let? '(k, data) := read_pubkey data in
           let? '(a, data) := read_pubkey data in Ok (TAccountAsset k a, data)
    | 2 => let? '(k, data) := read_pubkey data in Ok (TAsset k, data)
    | 3 => let? '(k, data) := read_pubkey data in Ok (TContract k, data)
    | 4 => let? '(h, data) := read_hash data in Ok (TCodeHash h, data)
    | 5 => let? '(chain_id, data) := read_limited_utf8 data in
           let? '(asset, data) := read_limited_utf8 data in Ok (TBridgeRoute chain_id asset, data)
    | 6 => let? '(module_id, data) := read_u8 data in
           or_err (ProtocolModuleId_from_u8 module_id) (UnknownModule module_id) (fun m =>
           Ok (TProtocolModule m, data))
    | _ => Err (UnknownTargetType target_type)
    end in
  let? _ := map_restriction (target_validate target) in
  Ok (target, data).

Definition parse_restriction_mode (data : bytes) : result (RestrictionMode * bytes) ActionError :=
  let? '(mode_id, data) := read_u8 data in
  let? '(frozen_amount, data) :=
    if mode_id =? 3 then let? '(a, data) := read_u64_le data in Ok (Some a, data) else Ok (None, data) in
  or_err (RestrictionMode_from_u8 mode_id frozen_amount) (UnknownMode mode_id) (fun mode =>
  let? _ := map_restriction (mode_validate mode) in
  Ok (mode, data)).

Definition parse_restriction_reason (data : bytes) : result (RestrictionReason * bytes) ActionError :=
  let? '(reason_id, data) := read_u8 data in
  or_err (RestrictionReason_from_u8 reason_id) (UnknownReason reason_id) (fun r => Ok (r, data)).

Definition RESTRICT_FLAG_EVIDENCE_HASH : Z := 1.
Definition RESTRICT_FLAG_EVIDENCE_URI_HASH : Z := 2.
Definition RESTRICT_FLAG_EXPIRES_AT_SLOT : Z := 4.
Definition RESTRICT_FLAGS_ALLOWED : Z :=
  Z.lor (Z.lor RESTRICT_FLAG_EVIDENCE_HASH RESTRICT_FLAG_EVIDENCE_URI_HASH) RESTRICT_FLAG_EXPIRES_AT_SLOT.
Definition EXTEND_FLAG_EXPIRES_AT_SLOT : Z := 1.
Definition EXTEND_FLAG_EVIDENCE_HASH : Z := 2.
Definition EXTEND_FLAGS_ALLOWED : Z := Z.lor EXTEND_FLAG_EXPIRES_AT_SLOT EXTEND_FLAG_EVIDENCE_HASH.

(** [flags & !allowed != 0] on [u8]. *)
Definition other_flags (flags allowed : Z) : bool := negb (Z.land flags (Z.lxor 255 allowed) =? 0).

Definition parse_restrict_governance_action (data : bytes) : result GovernanceAction ActionError :=
  let? '(target, data) := parse_restriction_target data in
  let? '(mode, data) := parse_restriction_mode data in
  let? '(reason, data) := parse_restriction_reason data in
  let? '(flags, data) := read_u8 data in
  if other_flags flags RESTRICT_FLAGS_ALLOWED then Err (UnexpectedFlags flags)
  else
    let? '(evidence_hash, data) := read_flagged flags RESTRICT_FLAG_EVIDENCE_HASH read_hash data in
    let? '(evidence_uri_hash, data) := read_flagged flags RESTRICT_FLAG_EVIDENCE_URI_HASH read_hash data in
    let? '(expires_at_slot, data) := read_flagged flags RESTRICT_FLAG_EXPIRES_AT_SLOT read_u64_le data in
    let? _ := finish data in
    if requires_evidence reason && negb (is_some evidence_hash) && negb (is_some evidence_uri_hash)
    then Err (ActionRestriction (EvidenceRequired reason))
    else Ok (Restrict target mode reason evidence_hash evidence_uri_hash expires_at_slot).

Definition parse_lift_restriction_governance_action (data : bytes) : result GovernanceAction ActionError :=
  let? '(id, data) := read_u64_le data in
  if id =? 0 then Err ZeroRestrictionId
  else
    let? '(reason_id, data) := read_u8 data in
    or_err (RestrictionLiftReason_from_u8 reason_id) (UnknownLiftReason reason_id) (fun reason =>
    let? _ := finish data in
    Ok (LiftRestriction id reason)).

Definition parse_extend_restriction_governance_action (data : bytes) : result GovernanceAction ActionError :=
  let? '(id, data) := read_u64_le data in
  if id =? 0 then Err ZeroRestrictionId
  else
    let? '(flags, data) := read_u8 data in
    if other_flags flags EXTEND_FLAGS_ALLOWED then Err (UnexpectedFlags flags)
    else
      let? '(new_expires_at_slot, data) := read_flagged flags EXTEND_FLAG_EXPIRES_AT_SLOT read_u64_le data in
      let? '(evidence_hash, data) := read_flagged flags EXTEND_FLAG_EVIDENCE_HASH read_hash data in
      let? _ := finish data in
      Ok (ExtendRestriction id new_expires_at_slot evidence_hash).

(** ** Parameter changes *)

Definition GOV_PARAM_MIN_VALIDATOR_STAKE : Z := 6.
Definition GOV_PARAM_EPOCH_SLOTS : Z := 7.

Definition validate_governance_param_change_value (param_id value : Z) : result unit ActionError :=
  if param_id =? GOV_PARAM_BASE_FEE then
    if (value =? 0) || (1000000000 <? value) then Err BaseFeeRange else Ok tt
  else if is_fee_distribution_param param_id then
    if 100 <? value then Err PercentRange else Ok tt
  else if param_id =? GOV_PARAM_MIN_VALIDATOR_STAKE then
    if negb ((1000000000 <=? value) && (value <=? 1000000000000000000)) then Err MinStakeRange else Ok tt
  else if param_id =? GOV_PARAM_EPOCH_SLOTS then
    if negb ((1000 <=? value) && (value <=? 10000000)) then Err EpochSlotsRange else Ok tt
  else Err (UnknownParam param_id).

(** [get_pending_governance_changes]: the queued changes in the order of the parameters. *)
Definition pending_changes (pending : gmap Z Z) : list (Z * Z) :=
  omap (fun param_id => pair param_id <$> pending !! param_id) [0; 1; 2; 3; 4; 5; 6; 7].

Definition apply_changes (changes : list (Z * Z)) (c : FeeConfig) : FeeConfig :=
  foldl (fun c pv => FeeConfig_apply_governance_param pv.1 pv.2 c) c changes.

Definition projected_fee_config_for_governance_change (config : FeeConfig) (pending : gmap Z Z)
  (param_id value : Z) : FeeConfig :=
  FeeConfig_apply_governance_param param_id value (apply_changes (pending_changes pending) config).

Definition map_distribution {A} (r : result A FeeConfigError) : result A ActionError :=
  match r with Ok a => Ok a | Err e => Err (Distribution e) end.

Definition validate_governance_param_change (config : FeeConfig) (pending : gmap Z Z) (param_id value : Z)
  : result unit ActionError :=
  let? _ := validate_governance_param_change_value param_id value in
  if is_fee_distribution_param param_id
  then map_distribution (FeeConfig_validate_distribution
         (projected_fee_config_for_governance_change config pending param_id value))
  else Ok tt.

(** ** The payload of a proposal *)

Record SymbolPayloadJson := mkSymbolPayloadJson {
  sj_symbol : option bytes;
  sj_name : option bytes;
  sj_template : option bytes;
  sj_metadata : option bytes;
  sj_decimals : option Z;
}.

Class Json := {
  json_symbol_payload : bytes -> option SymbolPayloadJson;
  json_abi : bytes -> option ContractAbi;
}.

Definition MAX_SYMBOL_REGISTRY_SYMBOL_LEN : Z := 32.
Definition MAX_SYMBOL_REGISTRY_NAME_LEN : Z := 128.
Definition MAX_SYMBOL_REGISTRY_TEMPLATE_LEN : Z := 32.

Definition validate_symbol_registry_field_length (value : bytes) (max_len : Z) : result unit ActionError :=
  if zlen value =? 0 then Err SymbolField else if max_len <? zlen value then Err SymbolField else Ok tt.

(** [if let Some(ref value) = field { validate(value)? }] *)
Definition validate_optional_field (value : option bytes) (max_len : Z) : result unit ActionError :=
  match value with Some v => validate_symbol_registry_field_length v max_len | None => Ok tt end.

Definition parse_symbol_registration_fields `{Json} (json_bytes : bytes)
  : result SymbolRegistrationSpec ActionError :=
  if negb (is_utf8 json_bytes) then Err SymbolPayload
  else
    or_err (json_symbol_payload json_bytes) SymbolPayload (fun payload =>
    or_err (sj_symbol payload) SymbolPayload (fun symbol =>
    let? _ := validate_symbol_registry_field_length symbol MAX_SYMBOL_REGISTRY_SYMBOL_LEN in
    let? _ := validate_optional_field (sj_name payload) MAX_SYMBOL_REGISTRY_NAME_LEN in
    let? _ := validate_optional_field (sj_template payload) MAX_SYMBOL_REGISTRY_TEMPLATE_LEN in
    Ok (mkSymbolRegistrationSpec symbol (sj_name payload) (sj_template payload) (sj_metadata payload)
          (wrap 8 <$> sj_decimals payload)))).

Definition u16_at (data : bytes) (at_ : nat) : Z := le_value (take 2 (drop at_ data)).
Definition u32_at (data : bytes) (at_ : nat) : Z := le_value (take 4 (drop at_ data)).

(** A payload of [u32] length at byte 2 and its bytes from byte 6 on. *)
Definition sized_payload (data : bytes) : result bytes ActionError :=
  if (length data <? 6)%nat then Err ActionData
  else
    let len := Z.to_nat (u32_at data 2) in
    if (length data <? 6 + len)%nat then Err PayloadTruncated else Ok (take len (drop 6 data)).

Definition parse_contract_call (contract : Pubkey) (data : bytes) : result GovernanceAction ActionError :=
  if (length data <? 16)%nat then Err ActionData
  else
    let value := u64_at data 2 in
    let function_len := Z.to_nat (u16_at data 10) in
    if (function_len =? 0)%nat then Err FunctionEmpty
    else
      let args_len_offset := (12 + function_len)%nat in
      if (length data <? args_len_offset + 4)%nat then Err PayloadTruncated
      else
        let function := take function_len (drop 12 data) in
        if negb (is_utf8 function) then Err FunctionNotUtf8
        else
          let args_len := Z.to_nat (u32_at data args_len_offset) in
          let args_offset := (args_len_offset + 4)%nat in
          if (length data <? args_offset + args_len)%nat then Err PayloadTruncated
          else Ok (ContractCall contract function (take args_len (drop args_offset data)) value).

Definition parse_governance_action `{Json} (config : FeeConfig) (pending : gmap Z Z) (ix : Instruction)
  : result (Pubkey * Pubkey * GovernanceAction) ActionError :=
  let data := ix_data ix in
  match ix_accounts ix, data with
  | proposer :: authority_account :: others, _ :: action_type :: payload =>
      let third (k : Pubkey -> result GovernanceAction ActionError) : result GovernanceAction ActionError :=
        or_err (head others) ActionAccounts k in
      let? action :=
        match action_type with
        | 0 => third (fun recipient =>
               if (length data <? 10)%nat then Err ActionData
               else
                 let amount := u64_at data 2 in
                 if amount =? 0 then Err ZeroTransfer else Ok (TreasuryTransfer recipient amount))
        | 1 => if (length data <? 11)%nat then Err ActionData
               else
                 let param_id := default 0 (data !! 2%nat) in
                 let value := u64_at data 3 in
                 let? _ := validate_governance_param_change config pending param_id value in
                 Ok (ParamChange param_id value)
        | 2 => third (fun contract => let? code := sized_payload data in Ok (ContractUpgrade contract code))
        | 3 => third (fun contract =>
               if (length data <? 6)%nat then Err ActionData
               else Ok (SetContractUpgradeTimelock contract (u32_at data 2)))
        | 4 => third (fun contract => Ok (ExecuteContractUpgrade contract))
        | 5 => third (fun contract => Ok (VetoContractUpgrade contract))
        | 6 => match others with
               | contract :: destination :: _ => Ok (ContractClose contract destination)
               | _ => Err ActionAccounts
               end
        | 7 => third (fun contract =>
               let? json := sized_payload data in
               let? registration := parse_symbol_registration_fields json in
               Ok (RegisterContractSymbol contract registration))
        | 8 => third (fun contract =>
               let? json := sized_payload data in
               or_err (json_abi json) AbiFormat (fun abi => Ok (SetContractAbi contract abi)))
        | 9 => third (fun contract => parse_contract_call contract data)
        | 10 => parse_restrict_governance_action payload
        | 11 => parse_lift_restriction_governance_action payload
        | 12 => parse_extend_restriction_governance_action payload
        | _ => Err (UnknownAction action_type)
        end in
      Ok (proposer, authority_account, action)
  | _ :: _ :: _, _ => Err ActionData
  | _, _ => Err ActionAccounts
  end.

(** ** The builder of restriction payloads *)

Definition SYSTEM_PROPOSE_GOVERNANCE_ACTION_IX : Z := 34.

Inductive BuilderError := BuilderInvalid.

Definition map_builder {A E} (r : result A E) : result A BuilderError :=
  match r with Ok a => Ok a | Err _ => Err BuilderInvalid end.

Definition validate_builder_target_mode (t : RestrictionTarget) (m : RestrictionMode) : result unit BuilderError :=
  match t, m with
  | TAccount _, (OutgoingOnly | IncomingOnly | Bidirectional)
  | TAccountAsset _ _, (OutgoingOnly | IncomingOnly | Bidirectional | FrozenAmount _)
  | TAsset _, AssetPaused
  | TContract _, (ExecuteBlocked | StateChangingBlocked | Quarantined | Terminated)
  | TCodeHash _, DeployBlocked
  | TBridgeRoute _ _, RoutePaused
  | TProtocolModule _, ProtocolPaused => Ok tt
  | _, _ => Err BuilderInvalid
  end.

Definition validate_builder_restrict_action (t : RestrictionTarget) (m : RestrictionMode)
  (reason : RestrictionReason) (evidence_hash evidence_uri_hash : option Hash) (expires_at_slot : option Z)
  : result unit BuilderError :=
  let? _ := map_builder (target_validate t) in
  let? _ := map_builder (mode_validate m) in
  let? _ := validate_builder_target_mode t m in
  if requires_evidence reason && negb (is_some evidence_hash) && negb (is_some evidence_uri_hash)
  then Err BuilderInvalid
  else match t, m, expires_at_slot with
       | TContract _, Terminated, Some _ => Err BuilderInvalid
       | _, _, _ => Ok tt
       end.

Definition encode_builder_target_component (value : bytes) : result bytes BuilderError :=
  if zlen value =? 0 then Err BuilderInvalid
  else if MAX_BRIDGE_ROUTE_COMPONENT_LEN <? zlen value then Err BuilderInvalid
  else Ok (le_bytes 2 (zlen value) ++ value).

Definition encode_restriction_target_for_builder (t : RestrictionTarget) : result bytes BuilderError :=
  let? rest :=
    match t with
    | TAccount k | TAsset k | TContract k | TCodeHash k => Ok (be_bytes 32 k)
    | TAccountAsset account asset => Ok (be_bytes 32 account ++ be_bytes 32 asset)
    | TBridgeRoute chain_id asset =>
        let? c := encode_builder_target_component chain_id in
        let? a := encode_builder_target_component asset in Ok (c ++ a)
    | TProtocolModule module => Ok [ProtocolModuleId_as_u8 module]
    end in
  Ok (target_type_id t :: rest).

Definition mode_id (m : RestrictionMode) : Z :=
  match m with
  | OutgoingOnly => 0 | IncomingOnly => 1 | Bidirectional => 2 | FrozenAmount _ => 3 | AssetPaused => 4
  | ExecuteBlocked => 5 | StateChangingBlocked => 6 | Quarantined => 7 | DeployBlocked => 8
  | RoutePaused => 9 | ProtocolPaused => 10 | Terminated => 11
  end.

Definition RestrictionReason_as_u8 (r : RestrictionReason) : Z :=
  match r with
  | ExploitActive => 0 | StolenFunds => 1 | BridgeCompromise => 2 | OracleCompromise => 3
  | ScamContract => 4 | MaliciousCodeHash => 5 | SanctionsOrLegalOrder => 6
  | PhishingOrImpersonation => 7 | CustodyIncident => 8 | ProtocolBug => 9
  | GovernanceErrorCorrection => 10 | FalsePositiveLift => 11 | TestnetDrill => 12
  end.

Definition RestrictionLiftReason_as_u8 (r : RestrictionLiftReason) : Z :=
  match r with
  | IncidentResolved => 0 | FalsePositive => 1 | EvidenceRejected => 2 | GovernanceOverride => 3
  | ExpiredCleanup => 4 | TestnetDrillComplete => 5
  end.

(** [if opt.is_some() { flags |= flag }] and the bytes of an optional field. *)
Definition flag_if {A} (o : option A) (flag flags : Z) : Z := if is_some o then Z.lor flags flag else flags.
Definition opt_bytes {A} (encode : A -> bytes) (o : option A) : bytes :=
  match o with Some a => encode a | None => [] end.

Definition build_restrict_governance_action_data (t : RestrictionTarget) (m : RestrictionMode)
  (reason : RestrictionReason) (evidence_hash evidence_uri_hash : option Hash) (expires_at_slot : option Z)
  : result bytes BuilderError :=
  let? _ := validate_builder_restrict_action t m reason evidence_hash evidence_uri_hash expires_at_slot in
  let? target := encode_restriction_target_for_builder t in
  let amount := match m with FrozenAmount amount => le_bytes 8 amount | _ => [] end in
  let flags := flag_if expires_at_slot RESTRICT_FLAG_EXPIRES_AT_SLOT
    (flag_if evidence_uri_hash RESTRICT_FLAG_EVIDENCE_URI_HASH
      (flag_if evidence_hash RESTRICT_FLAG_EVIDENCE_HASH 0)) in
  Ok ([SYSTEM_PROPOSE_GOVERNANCE_ACTION_IX; 10] ++ target ++ [mode_id m] ++ amount
      ++ [RestrictionReason_as_u8 reason] ++ [flags] ++ opt_bytes (be_bytes 32) evidence_hash
      ++ opt_bytes (be_bytes 32) evidence_uri_hash ++ opt_bytes (le_bytes 8) expires_at_slot).

Definition build_lift_governance_action_data (restriction_id : Z) (reason : RestrictionLiftReason)
  : result bytes BuilderError :=
  if restriction_id =? 0 then Err BuilderInvalid
  else Ok ([SYSTEM_PROPOSE_GOVERNANCE_ACTION_IX; 11] ++ le_bytes 8 restriction_id
           ++ [RestrictionLiftReason_as_u8 reason]).

Definition build_extend_governance_action_data (restriction_id : Z) (new_expires_at_slot : option Z)
  (evidence_hash : option Hash) : result bytes BuilderError :=
  if restriction_id =? 0 then Err BuilderInvalid
  else
    let flags := flag_if evidence_hash EXTEND_FLAG_EVIDENCE_HASH
      (flag_if new_expires_at_slot EXTEND_FLAG_EXPIRES_AT_SLOT 0) in
    Ok ([SYSTEM_PROPOSE_GOVERNANCE_ACTION_IX; 12] ++ le_bytes 8 restriction_id ++ [flags]
        ++ opt_bytes (le_bytes 8) new_expires_at_slot ++ opt_bytes (be_bytes 32) evidence_hash).

(** ** Reading what was written *)

Lemma read_exact_app l d : read_exact (length l) (l ++ d) = Ok (l, d).
Proof.
  unfold read_exact. rewrite length_app, (proj2 (Nat.ltb_ge _ _)) by lia.
  by rewrite take_app_length, drop_app_length.
Qed.

Lemma read_u8_cons b d : read_u8 (b :: d) = Ok (b, d).
Proof.
  unfold read_u8. pose proof (read_exact_app [b] d) as H. cbn [length app] in H. rewrite H. cbn [and_then le_value].
  by rewrite Z.mul_0_r, Z.add_0_r.
Qed.

Lemma read_le_app n z d :
  0 <= z < 256 ^ Z.of_nat n -> (let? '(l, d) := read_exact n (le_bytes n z ++ d) in Ok (le_value l, d)) = @Ok _ ActionError (z, d).
Proof.
  intros Hz. rewrite <- (le_bytes_length n z) at 1. rewrite read_exact_app. cbn [and_then].
  by rewrite le_value_le_bytes, Z.mod_small.
Qed.

Lemma read_u64_app z d : is_u64 z -> read_u64_le (le_bytes 8 z ++ d) = Ok (z, d).
Proof. intros Hz. apply (read_le_app 8). exact Hz. Qed.

Lemma read_u16_app z d : 0 <= z < 2 ^ 16 -> read_u16_le (le_bytes 2 z ++ d) = Ok (z, d).
Proof. intros Hz. apply (read_le_app 2). exact Hz. Qed.

Lemma read_hash_app h d : is_u256 h -> read_hash (be_bytes 32 h ++ d) = Ok (h, d).
Proof.
  intros Hh. unfold read_hash. rewrite <- (be_bytes_length 32 h) at 1. rewrite read_exact_app. cbn [and_then].
  unfold be_bytes. by rewrite reverse_involutive, le_value_le_bytes, Z.mod_small.
Qed.

Lemma read_pubkey_app k d : is_u256 k -> read_pubkey (be_bytes 32 k ++ d) = Ok (k, d).
Proof. exact (read_hash_app k d). Qed.

Lemma read_flagged_app {A} (o : option A) encode flags flag read d :
  (forall a, o = Some a -> read (encode a ++ d) = Ok (a, d)) ->
  (Z.land flags flag =? 0) = negb (is_some o) ->
  read_flagged flags flag read (opt_bytes encode o ++ d) = Ok (o, d).
Proof. intros Hr Hf. unfold read_flagged. rewrite Hf. destruct o as [a|]; simpl; [|done]. by rewrite Hr. Qed.

Definition utf8_target (t : RestrictionTarget) : Prop :=
  match t with TBridgeRoute c a => is_utf8 c = true /\ is_utf8 a = true | _ => True end.

Lemma read_component c l d :
  is_utf8 c = true -> encode_builder_target_component c = Ok l -> read_limited_utf8 (l ++ d) = Ok (c, d).
Proof.
  intros Hu. unfold encode_builder_target_component. intros [H0%Z.eqb_neq H]%guard_Ok.
  apply guard_Ok in H as [Hm%Z.ltb_ge <-%Ok_inj]. unfold read_limited_utf8. rewrite <- (assoc_L (++)).
  unfold MAX_BRIDGE_ROUTE_COMPONENT_LEN in *. rewrite read_u16_app by (unfold zlen in *; lia). cbn [and_then].
  rewrite (proj2 (Z.eqb_neq _ _)) by done. rewrite (proj2 (Z.ltb_ge 256 _)) by done. unfold zlen.
  rewrite Nat2Z.id, read_exact_app. cbn [and_then]. by rewrite Hu.
Qed.

Lemma parse_target_app t l d :
  target_typed t -> utf8_target t -> target_validate t = Ok tt ->
  encode_restriction_target_for_builder t = Ok l -> parse_restriction_target (l ++ d) = Ok (t, d).
Proof.
  intros Hty Hu Hval. unfold encode_restriction_target_for_builder. rewrite and_then_Ok. intros (rest & Hr & <-%Ok_inj).
  unfold parse_restriction_target. rewrite <- app_comm_cons, read_u8_cons. cbn [and_then].
  assert (forall data : bytes, (let? _ := map_restriction (target_validate t) in Ok (t, data)) = @Ok _ ActionError (t, data)) as Hend
    by (by rewrite Hval).
  destruct t; cbn [target_type_id target_typed utf8_target] in *;
    try (apply Ok_inj in Hr as <-; first [rewrite read_pubkey_app by done|rewrite read_hash_app by done]; apply Hend).
  - apply Ok_inj in Hr as <-. rewrite <- (assoc_L (++)). destruct Hty. rewrite !read_pubkey_app by done. cbn [and_then].
    rewrite read_pubkey_app by done. apply Hend.
  - apply and_then_Ok in Hr as (lc & Hc & Hr). apply and_then_Ok in Hr as (la & Ha & <-%Ok_inj). destruct Hu.
    rewrite <- (assoc_L (++)), (read_component chain_id lc) by done. cbn [and_then].
    rewrite (read_component asset la) by done. cbn [and_then]. apply Hend.
  - apply Ok_inj in Hr as <-. cbn [app]. rewrite read_u8_cons. cbn [and_then].
    replace (ProtocolModuleId_from_u8 (ProtocolModuleId_as_u8 module)) with (Some module) by by destruct module.
    apply Hend.
Qed.

Definition mode_typed (m : RestrictionMode) : Prop :=
  match m with FrozenAmount amount => is_u64 amount | _ => True end.

Lemma parse_mode_app m d :
  mode_typed m -> mode_validate m = Ok tt ->
  parse_restriction_mode (mode_id m :: match m with FrozenAmount amount => le_bytes 8 amount | _ => [] end ++ d)
  = Ok (m, d).
Proof.
  intros Hty Hv. unfold parse_restriction_mode. rewrite read_u8_cons. cbn [and_then].
  destruct m; try reflexivity. cbn [mode_id]. change (3 =? 3) with true. cbv iota. rewrite read_u64_app by done.
  cbn [and_then RestrictionMode_from_u8 fmap option_fmap option_map or_err]. by rewrite Hv.
Qed.

Lemma parse_reason_cons r d : parse_restriction_reason (RestrictionReason_as_u8 r :: d) = Ok (r, d).
Proof. unfold parse_restriction_reason. rewrite read_u8_cons. by destruct r. Qed.

Definition opt_typed (P : Z -> Prop) (o : option Z) : Prop := match o with Some z => P z | None => True end.

Definition action_typed (a : GovernanceAction) : Prop :=
  match a with
  | Restrict t m _ h u e =>
      target_typed t /\ utf8_target t /\ mode_typed m /\ opt_typed is_u256 h /\ opt_typed is_u256 u /\ opt_typed is_u64 e
  | LiftRestriction id _ => is_u64 id
  | ExtendRestriction id e h => is_u64 id /\ opt_typed is_u64 e /\ opt_typed is_u256 h
  | _ => False
  end.

(** The data that the builder makes for a restriction action. *)
Definition build_action (a : GovernanceAction) : result bytes BuilderError :=
  match a with
  | Restrict t m r h u e => build_restrict_governance_action_data t m r h u e
  | LiftRestriction id r => build_lift_governance_action_data id r
  | ExtendRestriction id e h => build_extend_governance_action_data id e h
  | _ => Err BuilderInvalid
  end.

Lemma parse_restrict_app t m r h u e data :
  action_typed (Restrict t m r h u e) ->
  build_restrict_governance_action_data t m r h u e = Ok data ->
  exists payload, data = SYSTEM_PROPOSE_GOVERNANCE_ACTION_IX :: 10 :: payload
    /\ parse_restrict_governance_action payload = Ok (Restrict t m r h u e).
Proof.
  intros (Ht & Hut & Hm & Hh & Hu & He). unfold build_restrict_governance_action_data. rewrite and_then_Ok.
  intros ([] & Hval & H). apply and_then_Ok in H as (target & Htar & <-%Ok_inj). eexists. split; [reflexivity|].
  unfold validate_builder_restrict_action in Hval.
  apply and_then_Ok in Hval as (? & Hv1 & Hval). apply and_then_Ok in Hval as (? & Hv2 & Hval).
  apply and_then_Ok in Hval as (? & _ & Hval). apply guard_Ok in Hval as [Hev _].
  destruct (target_validate t) as [[]|] eqn:Htv; [|done]. destruct (mode_validate m) as [[]|] eqn:Hmv; [|done].
  unfold parse_restrict_governance_action. rewrite (parse_target_app t target) by done. cbn [and_then].
  cbn [app]. rewrite parse_mode_app by done. cbn [and_then app].
  rewrite parse_reason_cons. cbn [and_then]. rewrite read_u8_cons. cbn [and_then].
  destruct (other_flags _ _) eqn:Hof; [by destruct h, u, e|].
  rewrite read_flagged_app; [|intros a ->; by apply read_hash_app|by destruct h, u, e]. cbn [and_then].
  rewrite read_flagged_app; [|intros a ->; by apply read_hash_app|by destruct h, u, e]. cbn [and_then].
  rewrite <- (app_nil_r (opt_bytes (le_bytes 8) e)).
  rewrite read_flagged_app; [|intros a ->; by apply read_u64_app|by destruct h, u, e]. cbn [and_then finish].
  by rewrite Hev.
Qed.

Lemma parse_lift_app id r data :
  is_u64 id -> build_lift_governance_action_data id r = Ok data ->
  exists payload, data = SYSTEM_PROPOSE_GOVERNANCE_ACTION_IX :: 11 :: payload
    /\ parse_lift_restriction_governance_action payload = Ok (LiftRestriction id r).
Proof.
  intros Hid [H0 <-%Ok_inj]%guard_Ok. eexists. split; [reflexivity|].
  unfold parse_lift_restriction_governance_action. rewrite read_u64_app by done. cbn [and_then]. rewrite H0, read_u8_cons.
  cbn [and_then]. by destruct r.
Qed.

Lemma parse_extend_app id e h data :
  action_typed (ExtendRestriction id e h) -> build_extend_governance_action_data id e h = Ok data ->
  exists payload, data = SYSTEM_PROPOSE_GOVERNANCE_ACTION_IX :: 12 :: payload
    /\ parse_extend_restriction_governance_action payload = Ok (ExtendRestriction id e h).
Proof.
  intros (Hid & He & Hh) [H0 <-%Ok_inj]%guard_Ok. eexists. split; [reflexivity|].
  unfold parse_extend_restriction_governance_action. rewrite read_u64_app by done. cbn [and_then app]. rewrite H0, read_u8_cons.
  cbn [and_then]. destruct (other_flags _ _) eqn:Hof; [by destruct h, e|].
  rewrite read_flagged_app; [|intros a ->; by apply read_u64_app|by destruct h, e]. cbn [and_then].
  rewrite <- (app_nil_r (opt_bytes (be_bytes 32) h)).
  rewrite read_flagged_app; [|intros a ->; by apply read_hash_app|by destruct h, e]. done.
Qed.

(** ** Properties *)

(** The processor reads what the RPC server builds: whatever restriction action the
    builder accepts, the instruction data it returns, with a proposer and an authority
    account in front, is parsed into exactly that action; so no unsigned governance
    transaction that the server hands to a signer is rejected as malformed or means another
    action. *)
Theorem restriction_payload_roundtrip {J : Json} config pending a data proposer authority others :
  action_typed a -> build_action a = Ok data ->
  parse_governance_action config pending
    (mkInstruction SYSTEM_PROGRAM_ID (proposer :: authority :: others) data) = Ok (proposer, authority, a).
Proof.
  intros Hty Hb. unfold parse_governance_action. cbn [ix_accounts ix_data].
  destruct a; try done; cbn [build_action] in Hb.
  - by apply parse_restrict_app in Hb as (payload & -> & ->).
  - by apply parse_lift_app in Hb as (payload & -> & ->).
  - by apply parse_extend_app in Hb as (payload & -> & ->).
Qed.

Module SampleAction.
#[local] Instance no_json : Json := {| json_symbol_payload := fun _ => None; json_abi := fun _ => None |}.

Definition freeze : GovernanceAction :=
  Restrict (TAccountAsset 5 NATIVE_LICN_ASSET_ID) (FrozenAmount 60) StolenFunds (Some 77) None (Some 100).

Definition freeze_data : bytes := match build_action freeze with Ok data => data | Err _ => [] end.

Lemma restriction_payload_roundtrip_witness :
  length freeze_data = 118%nat
  /\ parse_governance_action FeeConfig_default_from_constants ∅ (mkInstruction SYSTEM_PROGRAM_ID [1; 2] freeze_data)
     = Ok (1, 2, freeze).
Proof.
  split; [vm_compute; reflexivity|].
  apply (restriction_payload_roundtrip FeeConfig_default_from_constants ∅ freeze freeze_data 1 2 []).
  - split_and!; try done; split; vm_compute; congruence.
  - vm_compute. reflexivity.
Defined.
End SampleAction.
