(* ===== verification/Governance.v ===== *)
(** * Protocol governance

    Models the governance of the protocol: who may propose an action and with whose approval
    ([core/src/processor/governance_authorities.rs] and
    [core/src/processor/governance_policies.rs]), the life of a proposal with the execution of
    its action ([core/src/processor/governance_lifecycle.rs]), parameter changes
    ([core/src/processor/governance_oracle.rs], [StateBatch::apply_pending_governance_changes])
    and the lifecycle status of contracts that follows from their restrictions
    ([core/src/contract.rs], [core/src/processor/contract_lifecycle.rs]).

    - what a handler reads of the committed store is the record [GovernanceEnv];
    - [serde_json] is a library: a contract account is read and written by the class
      [ContractCodec];
    - the actions on contracts (upgrade, close, call, symbol, ABI) belong to the contract
      runtime and are the parameter [contract_action];
    - an event is a record of what its strings are made of;
    - a handler that fails leaves the state unchanged: its batch is dropped. *)

From S2P Require Import Prelude Crypto Block Account Transactions Fees Transfers StakingV2 Processor.
From S2P Require Import Restrictions Governed GovernanceActions.
From stdpp Require Import base tactics numbers list gmap strings.
From Stdlib Require Import ZArith Lia.

Local Open Scope Z_scope.
Local Open Scope rust_scope.

(** ** Contracts *)

Inductive ContractLifecycleStatus := LActive | LSuspended | LQuarantined | LTerminated.

#[global] Instance ContractLifecycleStatus_eq_dec : EqDecision ContractLifecycleStatus.
Proof. solve_decision. Defined.

(** An upgrade that waits for its timelock. *)
Record PendingUpgrade := mkPendingUpgrade {
  pu_code : bytes;
  pu_code_hash : Hash;
  pu_submitted_epoch : Z;
  pu_execute_after_epoch : Z;
}.

(** [ca_snapshot] is the embedded copy of the storage, which nothing reads. *)
Record ContractAccount := mkContractAccount {
  ca_code : bytes;
  ca_snapshot : bytes;
  ca_owner : Pubkey;
  ca_code_hash : Hash;
  ca_abi : option ContractAbi;
  ca_version : Z;
  ca_previous_code_hash : option Hash;
  ca_upgrade_timelock_epochs : option Z;
  ca_pending_upgrade : option PendingUpgrade;
  ca_lifecycle_status : ContractLifecycleStatus;
  ca_lifecycle_updated_slot : Z;
  ca_lifecycle_restriction_id : option Z;
}.

Definition eta_ContractAccount (c : ContractAccount) : ContractAccount :=
  mkContractAccount (ca_code c) (ca_snapshot c) (ca_owner c) (ca_code_hash c) (ca_abi c) (ca_version c)
    (ca_previous_code_hash c) (ca_upgrade_timelock_epochs c) (ca_pending_upgrade c) (ca_lifecycle_status c)
    (ca_lifecycle_updated_slot c) (ca_lifecycle_restriction_id c).
Definition set_ca_lifecycle_status : ContractLifecycleStatus -> ContractAccount -> ContractAccount :=
  ltac:(setter eta_ContractAccount ca_lifecycle_status).
Definition set_ca_lifecycle_updated_slot : Z -> ContractAccount -> ContractAccount :=
  ltac:(setter eta_ContractAccount ca_lifecycle_updated_slot).
Definition set_ca_lifecycle_restriction_id : option Z -> ContractAccount -> ContractAccount :=
  ltac:(setter eta_ContractAccount ca_lifecycle_restriction_id).

(** [ContractAccount::new], with the ABI that the exports of the code give. *)
Definition ContractAccount_new `{Crypto} (abi : option ContractAbi) (code : bytes) (owner : Pubkey) : ContractAccount :=
  mkContractAccount code [] owner (Hash_hash code) abi 1 None None None LActive 0 None.

Class ContractCodec := {
  contract_bytes : ContractAccount -> option bytes;
  contract_of_bytes : bytes -> option ContractAccount;
}.

Class ContractCodecLaws `{ContractCodec} : Prop := {
  contract_of_contract_bytes c l : contract_bytes c = Some l -> contract_of_bytes l = Some c;
}.

Definition lifecycle_status_severity (s : ContractLifecycleStatus) : Z :=
  match s with LActive => 0 | LSuspended => 1 | LQuarantined => 2 | LTerminated => 3 end.

Definition contract_lifecycle_status_for_restriction_mode (m : RestrictionMode)
  : option ContractLifecycleStatus :=
  match m with
  | StateChangingBlocked => Some LSuspended
  | ExecuteBlocked | Quarantined => Some LQuarantined
  | Terminated => Some LTerminated
  | _ => None
  end.

(** [max_by_key] returns the last of several greatest elements; the identifiers differ, so
    there is only one. *)
Definition stronger (a b : ContractLifecycleStatus * Z) : ContractLifecycleStatus * Z :=
  let ka := lifecycle_status_severity a.1 in
  let kb := lifecycle_status_severity b.1 in
  if (kb <? ka) || ((ka =? kb) && (b.2 <? a.2)) then a else b.

Definition strongest_contract_lifecycle_restriction (records : list RestrictionRecord)
  : option (ContractLifecycleStatus * Z) :=
  foldl (fun best r =>
      match contract_lifecycle_status_for_restriction_mode (rr_mode r) with
      | None => best
      | Some status =>
          Some (match best with Some b => stronger b (status, rr_id r) | None => (status, rr_id r) end)
      end) None records.

(** The contract after the call, when it changes. *)
Definition sync_lifecycle_from_restrictions (active_records : list RestrictionRecord)
  (linked_restriction_active : option bool) (current_slot : Z) (c : ContractAccount) : option ContractAccount :=
  let next :=
    match strongest_contract_lifecycle_restriction active_records with
    | Some (status, id) => Some (status, Some id)
    | None =>
        if is_some (ca_lifecycle_restriction_id c) && bool_decide (linked_restriction_active = Some false)
        then Some (LActive, None) else None
    end in
  match next with
  | None => None
  | Some (status, id) =>
      if bool_decide (ca_lifecycle_status c = status) && bool_decide (ca_lifecycle_restriction_id c = id)
      then None
      else Some (set_ca_lifecycle_status status (set_ca_lifecycle_updated_slot current_slot
             (set_ca_lifecycle_restriction_id id c)))
  end.

(** ** State *)

Inductive EventName :=
| GovernanceProposalCreated | GovernanceProposalApproved | GovernanceProposalExecuted
| GovernanceProposalCancelled | RestrictionCreated | RestrictionLifted | RestrictionExtended.

Record GovernanceEvent := mkGovernanceEvent {
  ev_name : EventName;
  ev_proposal : GovernanceProposal;
  ev_actor : Pubkey;
  ev_record : option RestrictionRecord;
  ev_slot : Z;
}.

Record GovernanceState := mkGovernanceState {
  gv_wallets : GovernedState;
  gv_proposals : gmap Z GovernanceProposal;
  gv_counter : Z;
  gv_restrictions : RestrictionBatch;
  gv_config : FeeConfig;
  gv_pending : gmap Z Z;
  gv_min_validator_stake : option Z;
  gv_epoch_slots : option Z;
  gv_events : list GovernanceEvent;
}.

Definition eta_GovernanceState (s : GovernanceState) : GovernanceState :=
  mkGovernanceState (gv_wallets s) (gv_proposals s) (gv_counter s) (gv_restrictions s) (gv_config s)
    (gv_pending s) (gv_min_validator_stake s) (gv_epoch_slots s) (gv_events s).
Definition set_gv_wallets : GovernedState -> GovernanceState -> GovernanceState :=
  ltac:(setter eta_GovernanceState gv_wallets).
Definition set_gv_proposals : gmap Z GovernanceProposal -> GovernanceState -> GovernanceState :=
  ltac:(setter eta_GovernanceState gv_proposals).
Definition set_gv_counter : Z -> GovernanceState -> GovernanceState :=
  ltac:(setter eta_GovernanceState gv_counter).
Definition set_gv_restrictions : RestrictionBatch -> GovernanceState -> GovernanceState :=
  ltac:(setter eta_GovernanceState gv_restrictions).
Definition set_gv_config : FeeConfig -> GovernanceState -> GovernanceState :=
  ltac:(setter eta_GovernanceState gv_config).
Definition set_gv_pending : gmap Z Z -> GovernanceState -> GovernanceState :=
  ltac:(setter eta_GovernanceState gv_pending).
Definition set_gv_min_validator_stake : option Z -> GovernanceState -> GovernanceState :=
  ltac:(setter eta_GovernanceState gv_min_validator_stake).
Definition set_gv_epoch_slots : option Z -> GovernanceState -> GovernanceState :=
  ltac:(setter eta_GovernanceState gv_epoch_slots).
Definition set_gv_events : list GovernanceEvent -> GovernanceState -> GovernanceState :=
  ltac:(setter eta_GovernanceState gv_events).

Definition gv_accounts (s : GovernanceState) : Accounts := gs_accounts (gv_wallets s).
Definition set_gv_accounts (m : Accounts) (s : GovernanceState) : GovernanceState :=
  set_gv_wallets (set_gs_accounts m (gv_wallets s)) s.

Record GovernanceEnv := mkGovernanceEnv {
  gn_env : GovEnv;
  gn_governance_authority : option Pubkey;
  gn_treasury_executor : option Pubkey;
  gn_incident_guardian : option Pubkey;
  gn_bridge_committee_admin : option Pubkey;
  gn_oracle_committee_admin : option Pubkey;
  gn_upgrade_proposer : option Pubkey;
  gn_upgrade_veto_guardian : option Pubkey;
  gn_symbol : Pubkey -> option bytes;
  gn_account : Pubkey -> option Account;
}.

Definition gn_slot (env : GovernanceEnv) : Z := ge_last_slot (gn_env env).
Definition gn_epoch (env : GovernanceEnv) : Z := ge_epoch (gn_env env).
Definition gn_config (env : GovernanceEnv) (k : Pubkey) : option GovernedWalletConfig := ge_configs (gn_env env) !! k.

Inductive GovernanceError :=
| GovernanceAction_ (e : ActionError)
| GovernanceWallet (e : GovernedError)
| GovernanceRestriction (e : RestrictionError)
| GovernanceIxAccounts
| GovernanceIxData
| GovernanceNotFound (id : Z)
| GovernanceExecuted (id : Z)
| GovernanceCancelled (id : Z)
| GovernanceUnauthorized (signer : Pubkey)
| GovernanceApproved (signer : Pubkey) (id : Z)
| GovernanceApprovals (id : Z)
| GovernanceTimelocked (id : Z)
| GovernanceNotReady (id : Z)
| AuthorityNotGoverned
| AuthorityMismatch
| GuardianOnlyPauses
| GuardianTarget
| GuardianExpiry
| GuardianOwner (id : Z)
| GuardianInactive (id : Z)
| GuardianIndefinite (id : Z)
| GuardianOnce (id : Z)
| GuardianCumulative (id : Z)
| ChainTooDeep (id : Z)
| ChainBroken (id : Z)
| RestrictionZero
| RestrictionMissing (id : Z)
| RestrictionInactive (id : Z)
| RestrictionTerminated (id : Z)
| RestrictionNoExpiry (id : Z)
| RestrictionExpiryNotLater (id : Z)
| TerminatedExpires
| ContractInvalid (contract : Pubkey)
| TreasuryAccountNotFound
| TreasuryInsufficient
| TreasuryNotConfigured
| NoGovernanceAuthority
| UseProposalFlow
| NotGovernanceAuthority
| ContractActionError (message : bytes).

(** ** Policies *)

Definition incident_guardian_pause_targets : list (bytes * bytes) :=
  map (fun sf => (str_bytes sf.1, str_bytes sf.2))
    [("BRIDGE", "mb_pause"); ("AUCTION", "ma_pause"); ("MARKET", "mm_pause"); ("SPOREVAULT", "cv_pause");
     ("LICHENSWAP", "ms_pause"); ("SHIELDED", "pause"); ("LEND", "pause"); ("SPOREPAY", "pause");
     ("BOUNTY", "bb_pause"); ("COMPUTE", "cm_pause"); ("DEX", "emergency_pause"); ("DEX", "pause_pair");
     ("DEXAMM", "emergency_pause"); ("DEXMARGIN", "emergency_pause"); ("DEXREWARDS", "emergency_pause");
     ("DEXROUTER", "emergency_pause"); ("PREDICT", "emergency_pause"); ("SPOREPUMP", "pause");
     ("DEXGOV", "emergency_pause")]%string.

Definition is_str (b : bytes) (s : string) : bool := bool_decide (b = str_bytes s).
Definition is_one_of (b : bytes) (l : list string) : bool := existsb (is_str b) l.

Definition to_lower (b : Z) : Z := if (65 <=? b) && (b <=? 90) then b + 32 else b.
Definition eq_ignore_ascii_case (a b : bytes) : bool := bool_decide (map to_lower a = map to_lower b).
Definition is_symbol (b : bytes) (l : list string) : bool :=
  existsb (fun s => eq_ignore_ascii_case b (str_bytes s)) l.

Definition is_allowlisted_incident_guardian_pause (symbol function args : bytes) (abi : option ContractAbi) : bool :=
  existsb (fun target =>
      if negb (bool_decide (target.1 = symbol)) then false
      else if bool_decide (target.2 = function) then true
      else if negb (is_str function "call") then false
      else match head args, abi with
           | Some opcode, Some abi =>
               existsb (fun f => bool_decide (af_name f = target.2) && bool_decide (af_opcode f = Some opcode))
                 (abi_functions abi)
           | _, _ => false
           end) incident_guardian_pause_targets.

Definition is_bridge_committee_admin_contract_call (symbol function : bytes) : bool :=
  is_symbol symbol ["BRIDGE"; "LICHENBRIDGE"]%string
  && is_one_of function ["add_bridge_validator"; "remove_bridge_validator"; "set_required_confirmations";
                         "set_request_timeout"]%string.

Definition first_is (args : bytes) (l : list Z) : bool :=
  match head args with Some b => bool_decide (b ∈ l) | None => false end.

Definition wrapped_tokens : list string := ["LUSD"; "WSOL"; "WETH"; "WBNB"; "WGAS"; "WNEO"]%string.

Definition is_oracle_committee_admin_contract_call (symbol function args : bytes) : bool :=
  if (is_symbol symbol ["ORACLE"; "LICHENORACLE"]%string
      && is_one_of function ["add_price_feeder"; "set_authorized_attester"]%string)
     || (is_one_of symbol wrapped_tokens && is_str function "set_attester")
  then true
  else if is_symbol symbol ["DEXMARGIN"; "MARGIN"]%string
  then is_one_of function ["set_mark_price"; "set_index_price"]%string
       || (is_str function "call" && first_is args [1; 31])
  else false.

Definition is_immediate_oracle_committee_contract_call (symbol function args : bytes) : bool :=
  is_symbol symbol ["DEXMARGIN"; "MARGIN"]%string
  && (is_one_of function ["set_mark_price"; "set_index_price"]%string
      || (is_str function "call" && first_is args [1; 31])).

Definition is_treasury_executor_contract_call (symbol function args : bytes) : bool :=
  if is_symbol symbol ["DEXMARGIN"]%string then is_str function "call" && first_is args [9]
  else if is_symbol symbol ["DEXAMM"; "AMM"]%string then is_str function "call" && first_is args [21]
  else (is_symbol symbol ["LEND"; "THALLLEND"]%string && is_str function "withdraw_reserves")
       || (is_symbol symbol ["SPOREVAULT"; "VAULT"]%string && is_str function "withdraw_protocol_fees")
       || (is_symbol symbol ["SPOREPUMP"]%string && is_str function "withdraw_fees")
       || (is_one_of symbol wrapped_tokens && is_str function "set_minter").

Definition guardian_protocol_module_allowed (module : ProtocolModuleId) : bool :=
  bool_decide (module ∈ [ModBridge; ModContracts; ModCustody; ModDex; ModLending; ModMarketplace;
                         ModOracle; ModShielded; ModTokens]).

Definition guardian_restrict_target_mode_allowed (t : RestrictionTarget) (m : RestrictionMode) : bool :=
  match t, m with
  | TAccount _, OutgoingOnly
  | TContract _, (StateChangingBlocked | Quarantined)
  | TCodeHash _, DeployBlocked
  | TBridgeRoute _ _, RoutePaused => true
  | TProtocolModule module, ProtocolPaused => guardian_protocol_module_allowed module
  | _, _ => false
  end.

Definition validate_guardian_expiry (current_slot : Z) (expires_at_slot : option Z) : result Z GovernanceError :=
  or_err expires_at_slot GuardianExpiry (fun expires =>
  if expires <=? current_slot then Err GuardianExpiry
  else
    or_err (checked_add64 current_slot GUARDIAN_RESTRICTION_MAX_SLOTS) GuardianExpiry (fun max_expires =>
    if max_expires <? expires then Err GuardianExpiry else Ok expires)).

Section policies.
Context `{ContractCodec}.
Variable env : GovernanceEnv.

Definition governance_action_uses_immediate_risk_reduction_policy (a : GovernanceAction)
  : result bool GovernanceError :=
  match a with
  | ContractCall contract function args _ =>
      match gn_symbol env contract with
      | None => Ok false
      | Some symbol =>
          if is_immediate_oracle_committee_contract_call symbol function args then Ok true
          else
            let? abi :=
              if is_str function "call"
                 && existsb (fun target => bool_decide (target.1 = symbol)) incident_guardian_pause_targets
              then or_err (gn_account env contract) (ContractInvalid contract) (fun account =>
                   or_err (contract_of_bytes (ac_data account)) (ContractInvalid contract) (fun c =>
                   Ok (ca_abi c)))
              else Ok None in
            Ok (is_allowlisted_incident_guardian_pause symbol function args abi)
      end
  | _ => Ok false
  end.

(** The policies on contract calls that look at the symbol of the contract. *)
Definition call_matches (matches : bytes -> bytes -> bytes -> bool) (a : GovernanceAction) : bool :=
  match a with
  | ContractCall contract function args _ =>
      match gn_symbol env contract with Some symbol => matches symbol function args | None => false end
  | _ => false
  end.

Definition governance_action_requires_treasury_executor_policy (a : GovernanceAction) : bool :=
  match a with TreasuryTransfer _ _ => true | _ => call_matches is_treasury_executor_contract_call a end.

Definition governance_action_requires_upgrade_proposer_policy (a : GovernanceAction) : bool :=
  match a with
  | ContractUpgrade _ _ | SetContractUpgradeTimelock _ _ | ExecuteContractUpgrade _ => true
  | _ => false
  end.

Definition governance_action_requires_upgrade_veto_guardian_policy (a : GovernanceAction) : bool :=
  match a with VetoContractUpgrade _ => true | _ => false end.

Definition governance_action_requires_bridge_committee_admin_policy (a : GovernanceAction) : bool :=
  call_matches (fun symbol function _ => is_bridge_committee_admin_contract_call symbol function) a.

Definition governance_action_requires_oracle_committee_admin_policy (a : GovernanceAction) : bool :=
  call_matches is_oracle_committee_admin_contract_call a.
End policies.

(** ** The incident guardian *)

(** The loop of [guardian_extension_chain_info]; it gives up at the 65th predecessor. *)
Fixpoint extension_chain (b : RestrictionBatch) (record_id : Z) (fuel : nat) (count root : Z) (cursor : option Z)
  : result (Z * Z) GovernanceError :=
  match cursor, fuel with
  | None, _ => Ok (count, root)
  | Some _, O => Err (ChainTooDeep record_id)
  | Some previous_id, S fuel =>
      let count := count + 1 in
      if 64 <? count then Err (ChainTooDeep record_id)
      else
        or_err (get_restriction b previous_id) (ChainBroken record_id) (fun previous =>
        extension_chain b record_id fuel count (rr_created_slot previous) (rr_supersedes previous))
  end.

Definition guardian_extension_chain_info (r : RestrictionRecord) (b : RestrictionBatch)
  : result (Z * Z) GovernanceError :=
  extension_chain b (rr_id r) 65 0 (rr_created_slot r) (rr_supersedes r).

Definition validate_guardian_owned_temporary_record (r : RestrictionRecord) (guardian : Pubkey)
  (current_slot : Z) : result unit GovernanceError :=
  if negb (bool_decide (rr_approval_authority r = Some guardian)) then Err (GuardianOwner (rr_id r))
  else if negb (bool_decide (effective_status current_slot r = SActive)) then Err (GuardianInactive (rr_id r))
  else if negb (is_some (rr_expires_at_slot r)) then Err (GuardianIndefinite (rr_id r))
  else Ok tt.

Definition validate_incident_guardian_restriction_action (current_slot : Z) (a : GovernanceAction)
  (guardian : Pubkey) (b : RestrictionBatch) : result unit GovernanceError :=
  match a with
  | Restrict target mode _ _ _ expires =>
      if negb (guardian_restrict_target_mode_allowed target mode) then Err GuardianTarget
      else let? _ := validate_guardian_expiry current_slot expires in Ok tt
  | LiftRestriction id _ =>
      if id =? 0 then Err RestrictionZero
      else or_err (get_restriction b id) (RestrictionMissing id) (fun r =>
           validate_guardian_owned_temporary_record r guardian current_slot)
  | ExtendRestriction id new_expires _ =>
      if id =? 0 then Err RestrictionZero
      else
        or_err (get_restriction b id) (RestrictionMissing id) (fun r =>
        let? _ := validate_guardian_owned_temporary_record r guardian current_slot in
        let? '(extension_count, root_created_slot) := guardian_extension_chain_info r b in
        if 1 <=? extension_count then Err (GuardianOnce id)
        else
          let? new_expires := validate_guardian_expiry current_slot new_expires in
          or_err (rr_expires_at_slot r) (RestrictionNoExpiry id) (fun current_expires =>
          if new_expires <=? current_expires then Err (RestrictionExpiryNotLater id)
          else
            or_err (checked_add64 root_created_slot (2 * GUARDIAN_RESTRICTION_MAX_SLOTS))
              (GuardianCumulative id) (fun cap =>
            if cap <? new_expires then Err (GuardianCumulative id) else Ok tt)))
  | _ => Ok tt
  end.

(** ** Authorities *)

Section authorities.
Context `{Crypto} `{ContractCodec}.
Variable env : GovernanceEnv.

Definition derive_governed_committee_authority (label : string) (governance_authority : Pubkey) : Pubkey :=
  Hash_hash_two_parts (str_bytes "lichen:" ++ str_bytes label ++ str_bytes ":v1") (be_bytes 32 governance_authority).

Definition with_config (k : option Pubkey) : option (Pubkey * GovernedWalletConfig) :=
  match k with
  | Some k => match gn_config env k with Some c => Some (k, c) | None => None end
  | None => None
  end.

Definition get_governed_governance_authority : option (Pubkey * GovernedWalletConfig) :=
  with_config (gn_governance_authority env).

(** A committee: the configured authority when it is a governed wallet, or else the one
    derived from the governance authority. *)
Definition committee (configured : option Pubkey) (label : string) : option (Pubkey * GovernedWalletConfig) :=
  match with_config configured with
  | Some kc => Some kc
  | None =>
      match gn_governance_authority env with
      | Some g => with_config (Some (derive_governed_committee_authority label g))
      | None => None
      end
  end.

Definition get_governed_treasury_executor_authority := committee (gn_treasury_executor env) "treasury_executor".
Definition get_governed_incident_guardian_authority : option (Pubkey * GovernedWalletConfig) :=
  with_config (gn_incident_guardian env).
Definition get_governed_bridge_committee_admin_authority :=
  committee (gn_bridge_committee_admin env) "bridge_committee_admin".
Definition get_governed_oracle_committee_admin_authority :=
  committee (gn_oracle_committee_admin env) "oracle_committee_admin".
Definition get_governed_upgrade_proposer_authority := committee (gn_upgrade_proposer env) "upgrade_proposer".
Definition get_governed_upgrade_veto_guardian_authority :=
  committee (gn_upgrade_veto_guardian env) "upgrade_veto_guardian".

Definition get_governance_proposal_approval_authority (p : GovernanceProposal)
  : result (Pubkey * GovernedWalletConfig) GovernanceError :=
  let approval_authority := proposal_approval_authority p in
  or_err (gn_config env approval_authority) AuthorityNotGoverned (fun c => Ok (approval_authority, c)).

Definition restriction_create_split_authority (t : RestrictionTarget) : option (Pubkey * GovernedWalletConfig) :=
  match t with
  | TBridgeRoute _ _ | TProtocolModule ModBridge => get_governed_bridge_committee_admin_authority
  | TProtocolModule ModOracle => get_governed_oracle_committee_admin_authority
  | _ => None
  end.

Definition resolve_stored_restriction_approval_authority (requested : Pubkey) (id : Z) (b : RestrictionBatch)
  : result (option (Pubkey * GovernedWalletConfig)) GovernanceError :=
  match get_restriction b id with
  | None => Ok None
  | Some r =>
      match rr_approval_authority r with
      | None => Ok None
      | Some approval_authority =>
          if negb (requested =? approval_authority) then Ok None
          else or_err (gn_config env approval_authority) AuthorityNotGoverned (fun c =>
               Ok (Some (approval_authority, c)))
      end
  end.

(** The authority of a proposal, the one that approves it and its configuration. *)
Abbreviation Resolved := (Pubkey * option Pubkey * GovernedWalletConfig)%type.

Definition resolve_restriction_governance_proposal_authority (requested : Pubkey) (a : GovernanceAction)
  (governance_authority : Pubkey) (governance_config : GovernedWalletConfig) (b : RestrictionBatch)
  : result Resolved GovernanceError :=
  let otherwise :=
    match a with
    | Restrict target _ _ _ _ _ =>
        match restriction_create_split_authority target with
        | Some (approval_authority, config) =>
            if requested =? approval_authority
            then Ok (governance_authority, Some approval_authority, config) else Err AuthorityMismatch
        | None => Err AuthorityMismatch
        end
    | LiftRestriction id _ | ExtendRestriction id _ _ =>
        let? found := resolve_stored_restriction_approval_authority requested id b in
        match found with
        | Some (approval_authority, config) => Ok (governance_authority, Some approval_authority, config)
        | None => Err AuthorityMismatch
        end
    | _ => Err AuthorityMismatch
    end in
  if requested =? governance_authority then Ok (governance_authority, None, governance_config)
  else
    match get_governed_incident_guardian_authority with
    | Some (guardian, config) =>
        if requested =? guardian
        then
          let? _ := validate_incident_guardian_restriction_action (gn_slot env) a guardian b in
          Ok (governance_authority, Some guardian, config)
        else otherwise
    | None => otherwise
    end.

(** [requested] must be the committee that the action requires. *)
Definition require_committee (requested governance_authority : Pubkey)
  (committee : option (Pubkey * GovernedWalletConfig)) : result Resolved GovernanceError :=
  or_err committee AuthorityNotGoverned (fun '(authority, config) =>
  if negb (requested =? authority) then Err AuthorityMismatch
  else Ok (governance_authority, Some authority, config)).

Definition resolve_governance_proposal_authority (requested : Pubkey) (a : GovernanceAction)
  (b : RestrictionBatch) : result Resolved GovernanceError :=
  or_err get_governed_governance_authority AuthorityNotGoverned (fun '(governance_authority, governance_config) =>
  if governance_action_requires_treasury_executor_policy env a
  then require_committee requested governance_authority get_governed_treasury_executor_authority
  else if governance_action_requires_upgrade_proposer_policy a
  then require_committee requested governance_authority get_governed_upgrade_proposer_authority
  else if governance_action_requires_upgrade_veto_guardian_policy a
  then require_committee requested governance_authority get_governed_upgrade_veto_guardian_authority
  else
    match a with
    | Restrict _ _ _ _ _ _ | LiftRestriction _ _ | ExtendRestriction _ _ _ =>
        resolve_restriction_governance_proposal_authority requested a governance_authority governance_config b
    | _ =>
        if governance_action_requires_bridge_committee_admin_policy env a
        then require_committee requested governance_authority get_governed_bridge_committee_admin_authority
        else if governance_action_requires_oracle_committee_admin_policy env a
        then require_committee requested governance_authority get_governed_oracle_committee_admin_authority
        else if requested =? governance_authority then Ok (governance_authority, None, governance_config)
        else
          let? immediate := governance_action_uses_immediate_risk_reduction_policy env a in
          match get_governed_incident_guardian_authority with
          | Some (guardian, config) =>
              if requested =? guardian
              then if immediate : bool then Ok (governance_authority, Some guardian, config)
                   else Err GuardianOnlyPauses
              else Err AuthorityMismatch
          | None => Err AuthorityMismatch
          end
    end).
End authorities.

(** ** Restriction actions *)

Section lifecycle.
Context `{Crypto} `{ContractCodec} `{Json}.
(** Restrictions in the path of native transfers, and the actions on contracts. *)
Variable blocked : GovernanceState -> GovEnv -> Pubkey -> TransferDirection -> Z -> Z -> bool.
Variable contract_action :
  GovernanceEnv -> Pubkey -> GovernanceAction -> GovernanceState -> result GovernanceState GovernanceError.
Variable env : GovernanceEnv.

Definition b_load_executable_contract (contract : Pubkey) (s : GovernanceState)
  : option (Account * ContractAccount) :=
  match gv_accounts s !! contract with
  | Some account =>
      if negb (ac_executable account) then None
      else match contract_of_bytes (ac_data account) with Some c => Some (account, c) | None => None end
  | None => None
  end.

Definition validate_contract_lifecycle_restriction_action (t : RestrictionTarget) (m : RestrictionMode)
  (expires_at_slot : option Z) (s : GovernanceState) : result unit GovernanceError :=
  match t with
  | TContract contract =>
      match contract_lifecycle_status_for_restriction_mode m with
      | None => Ok tt
      | Some _ =>
          if bool_decide (m = Terminated) && is_some expires_at_slot then Err TerminatedExpires
          else or_err (b_load_executable_contract contract s) (ContractInvalid contract) (fun _ => Ok tt)
      end
  | _ => Ok tt
  end.

Definition refresh_contract_lifecycle_from_restrictions (contract : Pubkey) (current_slot : Z)
  (s : GovernanceState) : result GovernanceState GovernanceError :=
  or_err (b_load_executable_contract contract s) (ContractInvalid contract) (fun '(account, c) =>
  let active_records :=
    get_active_restrictions_for_target (batch_view (gv_restrictions s)) (TContract contract) current_slot 0 in
  let linked_restriction_active :=
    match ca_lifecycle_restriction_id c with
    | Some id => is_effectively_active current_slot <$> get_restriction (gv_restrictions s) id
    | None => None
    end in
  match sync_lifecycle_from_restrictions active_records linked_restriction_active current_slot c with
  | Some c => or_err (contract_bytes c) (ContractInvalid contract) (fun data =>
              Ok (set_gv_accounts (<[contract := set_ac_data data account]> (gv_accounts s)) s))
  | None => Ok s
  end).

Definition refresh_contract_lifecycle_for_restriction_record (r : RestrictionRecord) (current_slot : Z)
  (s : GovernanceState) : result GovernanceState GovernanceError :=
  match rr_target r with
  | TContract contract =>
      if is_some (contract_lifecycle_status_for_restriction_mode (rr_mode r))
      then refresh_contract_lifecycle_from_restrictions contract current_slot s else Ok s
  | _ => Ok s
  end.

Definition b_next_restriction_id (s : GovernanceState) : result (Z * GovernanceState) GovernanceError :=
  let? '(id, b) := map_err GovernanceRestriction (next_restriction_id (gv_restrictions s)) in
  Ok (id, set_gv_restrictions b s).

Definition b_put_restriction (r : RestrictionRecord) (s : GovernanceState) : result GovernanceState GovernanceError :=
  let? b := map_err GovernanceRestriction (put_restriction r (gv_restrictions s)) in
  Ok (set_gv_restrictions b s).

Definition execute_restrict_governance_action (p : GovernanceProposal) (target : RestrictionTarget)
  (mode : RestrictionMode) (reason : RestrictionReason) (evidence_hash evidence_uri_hash : option Hash)
  (expires_at_slot : option Z) (s : GovernanceState) : result (RestrictionRecord * GovernanceState) GovernanceError :=
  let current_slot := gn_slot env in
  let? _ := validate_contract_lifecycle_restriction_action target mode expires_at_slot s in
  let? '(id, s) := b_next_restriction_id s in
  let r := mkRestrictionRecord id target mode SActive reason evidence_hash evidence_uri_hash (pr_proposer p)
             (pr_authority p) (pr_approval_authority p) current_slot (slot_to_epoch current_slot)
             expires_at_slot None None None None in
  let? s := b_put_restriction r s in
  let? s := refresh_contract_lifecycle_for_restriction_record r current_slot s in
  Ok (r, s).

(** The record that lifting or extending names, active and not a termination. *)
Definition load_active_restriction (id : Z) (s : GovernanceState) : result RestrictionRecord GovernanceError :=
  if id =? 0 then Err RestrictionZero
  else
    or_err (get_restriction (gv_restrictions s) id) (RestrictionMissing id) (fun r =>
    if negb (is_effectively_active (gn_slot env) r) then Err (RestrictionInactive id)
    else if bool_decide (rr_mode r = Terminated) then Err (RestrictionTerminated id)
    else Ok r).

Definition execute_lift_restriction_governance_action (p : GovernanceProposal) (id : Z)
  (reason : RestrictionLiftReason) (s : GovernanceState)
  : result (RestrictionRecord * GovernanceState) GovernanceError :=
  let current_slot := gn_slot env in
  let? r := load_active_restriction id s in
  let r := set_rr_lift_reason (Some reason) (set_rr_lifted_slot (Some current_slot)
             (set_rr_lifted_by (Some (pr_authority p)) (set_rr_status SLifted r))) in
  let? s := b_put_restriction r s in
  let? s := refresh_contract_lifecycle_for_restriction_record r current_slot s in
  Ok (r, s).

Definition execute_extend_restriction_governance_action (p : GovernanceProposal) (id : Z)
  (new_expires_at_slot : option Z) (evidence_hash : option Hash) (s : GovernanceState)
  : result (RestrictionRecord * GovernanceState) GovernanceError :=
  let current_slot := gn_slot env in
  let? old := load_active_restriction id s in
  or_err (rr_expires_at_slot old) (RestrictionNoExpiry id) (fun old_expires =>
  or_err new_expires_at_slot (RestrictionNoExpiry id) (fun new_expires =>
  if new_expires <=? old_expires then Err (RestrictionExpiryNotLater id)
  else if new_expires <=? current_slot then Err (RestrictionExpiryNotLater id)
  else
    let? _ := validate_contract_lifecycle_restriction_action (rr_target old) (rr_mode old) (Some new_expires) s in
    let superseded := set_rr_status SSuperseded old in
    let? '(new_id, s) := b_next_restriction_id s in
    let successor :=
      mkRestrictionRecord new_id (rr_target old) (rr_mode old) SActive (rr_reason old)
        (match evidence_hash with Some h => Some h | None => rr_evidence_hash old end)
        (rr_evidence_uri_hash old) (pr_proposer p) (pr_authority p) (pr_approval_authority p) current_slot
        (slot_to_epoch current_slot) (Some new_expires) (Some (rr_id old)) None None None in
    let? _ := map_err GovernanceRestriction (RestrictionRecord_validate superseded) in
    let? _ := map_err GovernanceRestriction (RestrictionRecord_validate successor) in
    let? s := b_put_restriction superseded s in
    let? s := b_put_restriction successor s in
    let? s := refresh_contract_lifecycle_for_restriction_record successor current_slot s in
    Ok (successor, s))).

(** ** Proposals *)

Definition emit (name : EventName) (p : GovernanceProposal) (actor : Pubkey) (r : option RestrictionRecord)
  (s : GovernanceState) : GovernanceState :=
  set_gv_events (gv_events s ++ [mkGovernanceEvent name p actor r (gn_slot env)]) s.

Definition validate_governance_proposal_restriction_policy (p : GovernanceProposal) (s : GovernanceState)
  : result unit GovernanceError :=
  match get_governed_incident_guardian_authority env with
  | Some (guardian, _) =>
      if bool_decide (pr_approval_authority p = Some guardian)
      then validate_incident_guardian_restriction_action (gn_slot env) (pr_action p) guardian (gv_restrictions s)
      else Ok tt
  | None => Ok tt
  end.

(** The effect of an action; [None] when the daily cap does not leave room for it. *)
Definition perform_action (p : GovernanceProposal) (s : GovernanceState)
  : result (option (option (EventName * RestrictionRecord) * GovernanceState)) GovernanceError :=
  match pr_action p with
  | TreasuryTransfer recipient amount =>
      let? '(capacity, wallets) := map_err GovernanceWallet
        (consume_governed_transfer_daily_capacity (gn_env env) (pr_authority p) amount (pr_daily_cap_spores p)
           (gv_wallets s)) in
      if negb capacity then Ok None
      else
        let? accounts := map_err (fun e => GovernanceWallet (GovTransfer e))
          (transfer (blocked s (gn_env env)) (pr_authority p) recipient amount (gs_accounts wallets)) in
        Ok (Some (None, set_gv_wallets (set_gs_accounts accounts wallets) s))
  | ParamChange param_id value => Ok (Some (None, set_gv_pending (<[param_id := value]> (gv_pending s)) s))
  | Restrict target mode reason evidence_hash evidence_uri_hash expires =>
      let? '(r, s) := execute_restrict_governance_action p target mode reason evidence_hash
                        evidence_uri_hash expires s in
      Ok (Some (Some (RestrictionCreated, r), s))
  | LiftRestriction id reason =>
      let? '(r, s) := execute_lift_restriction_governance_action p id reason s in
      Ok (Some (Some (RestrictionLifted, r), s))
  | ExtendRestriction id new_expires evidence_hash =>
      let? '(r, s) := execute_extend_restriction_governance_action p id new_expires evidence_hash s in
      Ok (Some (Some (RestrictionExtended, r), s))
  | action =>
      let? s := contract_action env (pr_authority p) action s in Ok (Some (None, s))
  end.

Definition try_execute_governance_proposal (p : GovernanceProposal) (actor : Pubkey) (s : GovernanceState)
  : result (bool * GovernanceProposal * GovernanceState) GovernanceError :=
  if negb (is_ready (gn_epoch env) p) then Ok (false, p, s)
  else
    let? _ := validate_governance_proposal_restriction_policy p s in
    let? done := perform_action p s in
    match done with
    | None => Ok (false, p, s)
    | Some (event, s) =>
        let p := set_pr_executed true p in
        Ok (true, p, match event with Some (name, r) => emit name p actor (Some r) s | None => s end)
    end.

Definition set_governance_proposal (p : GovernanceProposal) (s : GovernanceState) : GovernanceState :=
  set_gv_proposals (<[pr_id p := p]> (gv_proposals s)) s.

Definition emit_if (b : bool) (name : EventName) (p : GovernanceProposal) (actor : Pubkey)
  (s : GovernanceState) : GovernanceState :=
  if b then emit name p actor None s else s.

Definition governance_execution_policy (a : GovernanceAction) (authority : Pubkey)
  (approval_authority : option Pubkey) (approval_config : GovernedWalletConfig)
  : result ExecutionPolicy GovernanceError :=
  let current_epoch := gn_epoch env in
  let standard := mkExecutionPolicy (gw_threshold approval_config)
    (wrap64 (current_epoch + gw_timelock_epochs approval_config)) TierStandard 0 in
  let? immediate :=
    if is_some approval_authority then governance_action_uses_immediate_risk_reduction_policy env a else Ok false in
  if immediate : bool then Ok (mkExecutionPolicy (gw_threshold approval_config) current_epoch TierStandard 0)
  else
    match a with
    | TreasuryTransfer _ amount =>
        or_err (gn_config env authority) TreasuryNotConfigured (fun source_config =>
        map_err GovernanceWallet
          (governance_treasury_transfer_policy_snapshot approval_config source_config amount current_epoch))
    | _ => Ok standard
    end.

(** Opcode 34. *)
Definition system_propose_governance_action (ix : Instruction) (s : GovernanceState)
  : result GovernanceState GovernanceError :=
  let? '(proposer, requested, action) :=
    map_err GovernanceAction_ (parse_governance_action (gv_config s) (gv_pending s) ix) in
  let? '(authority, approval_authority, approval_config) :=
    resolve_governance_proposal_authority env requested action (gv_restrictions s) in
  if negb (is_authorized proposer approval_config) then Err (GovernanceUnauthorized proposer)
  else
    let? _ :=
      match action with
      | TreasuryTransfer _ amount =>
          or_err (gv_accounts s !! authority) TreasuryAccountNotFound (fun source_acct =>
          if ac_spendable source_acct <? amount then Err TreasuryInsufficient else Ok tt)
      | _ => Ok tt
      end in
    let? policy := governance_execution_policy action authority approval_authority approval_config in
    let id := wrap64 (gv_counter s + 1) in
    let s := set_gv_counter id s in
    let p := mkGovernanceProposal id authority approval_authority proposer action [proposer]
               (ep_threshold policy) (ep_execute_after_epoch policy) (ep_velocity_tier policy)
               (ep_daily_cap_spores policy) false false in
    let? '(_, p, s) := try_execute_governance_proposal p proposer s in
    let s := set_governance_proposal p s in
    let s := emit GovernanceProposalCreated p proposer None s in
    Ok (emit_if (pr_executed p) GovernanceProposalExecuted p proposer s).

(** The open proposal an instruction names, with its signer authorized. *)
Definition load_governance_proposal (ix : Instruction) (s : GovernanceState)
  : result (Pubkey * GovernanceProposal) GovernanceError :=
  match ix_accounts ix with
  | signer :: _ =>
      if (length (ix_data ix) <? 9)%nat then Err GovernanceIxData
      else
        let id := u64_at (ix_data ix) 1 in
        or_err (gv_proposals s !! id) (GovernanceNotFound id) (fun p =>
        if pr_executed p then Err (GovernanceExecuted id)
        else if pr_cancelled p then Err (GovernanceCancelled id)
        else
          let? '(_, config) := get_governance_proposal_approval_authority env p in
          if negb (is_authorized signer config) then Err (GovernanceUnauthorized signer) else Ok (signer, p))
  | [] => Err GovernanceIxAccounts
  end.

(** Opcode 35. *)
Definition system_approve_governance_action (ix : Instruction) (s : GovernanceState)
  : result GovernanceState GovernanceError :=
  let? '(approver, p) := load_governance_proposal ix s in
  if bool_decide (approver ∈ pr_approvals p) then Err (GovernanceApproved approver (u64_at (ix_data ix) 1))
  else
    let p := set_pr_approvals (pr_approvals p ++ [approver]) p in
    let? '(_, p, s) := try_execute_governance_proposal p approver s in
    let s := set_governance_proposal p s in
    let s := emit GovernanceProposalApproved p approver None s in
    Ok (emit_if (pr_executed p) GovernanceProposalExecuted p approver s).

(** Opcode 36. *)
Definition system_execute_governance_action (ix : Instruction) (s : GovernanceState)
  : result GovernanceState GovernanceError :=
  let? '(executor, p) := load_governance_proposal ix s in
  let id := u64_at (ix_data ix) 1 in
  if Z.of_nat (length (pr_approvals p)) <? pr_threshold p then Err (GovernanceApprovals id)
  else if gn_epoch env <? pr_execute_after_epoch p then Err (GovernanceTimelocked id)
  else
    let? '(executed, p, s) := try_execute_governance_proposal p executor s in
    if negb executed
    then Err (match pr_action p with
              | TreasuryTransfer _ amount =>
                  GovernanceWallet (governed_transfer_daily_cap_error (gn_env env) (pr_authority p) amount
                    (pr_daily_cap_spores p) (gv_wallets s))
              | _ => GovernanceNotReady id
              end)
    else
      let s := set_governance_proposal p s in
      Ok (emit_if (pr_executed p) GovernanceProposalExecuted p executor s).

(** Opcode 37. *)
Definition system_cancel_governance_action (ix : Instruction) (s : GovernanceState)
  : result GovernanceState GovernanceError :=
  let? '(canceller, p) := load_governance_proposal ix s in
  let p := set_pr_cancelled true p in
  Ok (emit GovernanceProposalCancelled p canceller None (set_governance_proposal p s)).

(** ** Parameters *)

(** Opcode 29. *)
Definition system_governance_param_change (ix : Instruction) (s : GovernanceState)
  : result GovernanceState GovernanceError :=
  if (length (ix_data ix) <? 10)%nat then Err GovernanceIxData
  else
    let param_id := default 0 (ix_data ix !! 1%nat) in
    let value := u64_at (ix_data ix) 2 in
    or_err (head (ix_accounts ix)) GovernanceIxAccounts (fun signer =>
    or_err (gn_governance_authority env) NoGovernanceAuthority (fun authority =>
    if is_some (gn_config env authority) then Err UseProposalFlow
    else if negb (signer =? authority) then Err NotGovernanceAuthority
    else
      let? _ := map_err GovernanceAction_ (validate_governance_param_change_value param_id value) in
      Ok (set_gv_pending (<[param_id := value]> (gv_pending s)) s))).
End lifecycle.

(** [StateBatch::apply_pending_governance_changes], at the boundary of an epoch: the fee
    parameters go to the configuration, which must stay a distribution. *)
Definition is_fee_param (param_id : Z) : bool := (param_id =? GOV_PARAM_BASE_FEE) || is_fee_distribution_param param_id.

Definition apply_other_param (s : GovernanceState) (pv : Z * Z) : GovernanceState :=
  if pv.1 =? GOV_PARAM_MIN_VALIDATOR_STAKE then set_gv_min_validator_stake (Some pv.2) s
  else if pv.1 =? GOV_PARAM_EPOCH_SLOTS then set_gv_epoch_slots (Some pv.2) s
  else s.

Definition apply_pending_governance_changes (s : GovernanceState) : result GovernanceState GovernanceError :=
  let changes := pending_changes (gv_pending s) in
  match changes with
  | [] => Ok s
  | _ =>
      let fee_config := apply_changes changes (gv_config s) in
      let fee_changed := existsb (fun pv => is_fee_param pv.1) changes in
      let s := foldl apply_other_param s changes in
      let? s :=
        if fee_changed
        then let? _ := map_err (fun e => GovernanceAction_ (Distribution e))
                         (FeeConfig_validate_distribution fee_config) in
             Ok (set_gv_config fee_config s)
        else Ok s in
      Ok (set_gv_pending ∅ s)
  end.
