(* ===== verification/GovernanceEffects.v ===== *)
(** * The effects of governance actions

    What an executed proposal does to the state: the records a batch shows and the counter
    they are numbered with, well-typed targets out of the parser, and for each action the one
    change of the records it makes ([records_step]). *)

From S2P Require Import Prelude Crypto Block Account Transactions Fees Transfers StakingV2 Processor.
From S2P Require Import Restrictions Governed GovernanceActions Governance.
From stdpp Require Import base tactics numbers list gmap strings.
From Stdlib Require Import ZArith Lia.

Local Open Scope Z_scope.
Local Open Scope rust_scope.

(** ** The records of a batch *)

Definition restriction_records (b : RestrictionBatch) : gmap Z RestrictionRecord :=
  rb_overlay b ∪ db_records (rb_db b).

Definition restriction_counter (b : RestrictionBatch) : Z := default (db_counter (rb_db b)) (rb_counter b).

Lemma get_restriction_records b id : get_restriction b id = restriction_records b !! id.
Proof.
  unfold get_restriction, restriction_records. rewrite lookup_union.
  by destruct (rb_overlay b !! id), (db_records (rb_db b) !! id).
Qed.

Lemma batch_ok_records b c m : batch_ok b c m -> m = restriction_records b.
Proof. intros H. apply map_eq. intros id. by rewrite <- get_restriction_records, (bo_get b c m H). Qed.

Record restrictions_inv (b : RestrictionBatch) : Prop := {
  ri_batch : exists c, batch_ok b c (restriction_records b);
  ri_commit : db_counter (commit_batch b) = restriction_counter b;
  ri_nonneg : 0 <= restriction_counter b;
  ri_ids id r : restriction_records b !! id = Some r -> 1 <= id <= restriction_counter b;
}.

Lemma restrictions_inv_empty : restrictions_inv (begin_batch empty_db).
Proof.
  split; [|done..|]; [|intros id r H; unfold restriction_records in H; simpl in H; by rewrite (left_id_L ∅ _), lookup_empty in H].
  exists ∅. pose proof (begin_batch_ok empty_db _ table_empty) as H. by rewrite <- (batch_ok_records _ _ _ H).
Qed.

Lemma ri_records_ok b : restrictions_inv b -> records_ok (restriction_records b).
Proof. intros [[c [_ Hcm _ _ _ _ _ _]] _ _ _]. apply (to_ok _ _ Hcm). Qed.

Lemma restrictions_inv_next b id b' :
  restrictions_inv b -> next_restriction_id b = Ok (id, b') ->
  restrictions_inv b' /\ restriction_records b' = restriction_records b /\ id = restriction_counter b + 1
  /\ restriction_counter b' = id /\ id <= u64_max /\ restriction_records b !! id = None.
Proof.
  intros [[c Hb] Hcm H0 Hids] Hn. pose proof (next_id_ok b c _ id b' Hb Hn) as Hb'.
  pose proof (batch_ok_records _ _ _ Hb') as Hrec. unfold next_restriction_id in Hn.
  apply or_err_Ok in Hn as (next & [-> Hmax]%checked_add64_Some & [= <- <-]).
  fold (restriction_counter b) in *. split_and!; try done.
  - split; [exists c; by rewrite <- Hrec| | |].
    + unfold commit_batch. simpl. rewrite foldl_app. done.
    + unfold restriction_counter at 1. simpl. lia.
    + intros i r. rewrite <- Hrec. intros Hi%Hids. unfold restriction_counter at 1. simpl. lia.
  - destruct (restriction_records b !! _) as [r|] eqn:Hr; [|done]. apply Hids in Hr. lia.
Qed.

Lemma restrictions_inv_put b r b' :
  restrictions_inv b -> record_typed r -> 1 <= rr_id r <= restriction_counter b -> put_restriction r b = Ok b' ->
  restrictions_inv b' /\ restriction_records b' = <[rr_id r := r]> (restriction_records b)
  /\ restriction_counter b' = restriction_counter b /\ RestrictionRecord_validate r = Ok tt
  /\ forall r', restriction_records b !! rr_id r = Some r' -> rr_target r' = rr_target r.
Proof.
  intros [[c Hb] Hcm H0 Hids] Hty Hid Hp. pose proof (put_restriction_spec b c _ r Hb Hty) as Hs. rewrite Hp in Hs.
  destruct Hs as (Hval & Hsame & Hb'). pose proof (batch_ok_records _ _ _ Hb') as Hrec.
  assert (restriction_counter b' = restriction_counter b /\ db_counter (commit_batch b') = db_counter (commit_batch b)) as [Hc1 Hc2].
  { unfold put_restriction in Hp. apply and_then_Ok in Hp as (_ & _ & Hp). apply and_then_Ok in Hp as (_ & _ & <-%Ok_inj).
    split; [done|]. unfold commit_batch. cbn [rb_writes rb_db]. rewrite foldl_app.
    by destruct (target_code_hash (rr_target r)). }
  split_and!; try done; [split|].
  - exists c. by rewrite <- Hrec.
  - by rewrite Hc1, Hc2.
  - by rewrite Hc1.
  - intros i q. rewrite <- Hrec, Hc1. destruct (decide (i = rr_id r)) as [->|Hne]; [by rewrite lookup_insert_eq|].
    rewrite lookup_insert_ne by done. apply Hids.
  - by apply validate_same_target_Ok.
Qed.

Lemma restrictions_inv_commit b :
  restrictions_inv b -> restrictions_inv (begin_batch (commit_batch b))
  /\ restriction_records (begin_batch (commit_batch b)) = restriction_records b.
Proof.
  intros [[c [Hdb Hcm' Hget Hk Ht Htn Hc Hcn]] Hcm H0 Hids].
  pose proof (begin_batch_ok _ _ Hcm') as Hb. pose proof (batch_ok_records _ _ _ Hb) as Hrec.
  split; [|done]. split; [exists (restriction_records b); by rewrite <- Hrec| | |].
  - done.
  - change (0 <= db_counter (commit_batch b)). by rewrite Hcm.
  - intros id r. rewrite <- Hrec. change (restriction_counter (begin_batch (commit_batch b))) with (db_counter (commit_batch b)).
    rewrite Hcm. apply Hids.
Qed.

(** ** Parsed targets are well typed *)

Lemma le_value_range l : Forall is_byte l -> 0 <= le_value l < 256 ^ Z.of_nat (length l).
Proof.
  induction 1 as [|b l Hb _ IH]; [done|]. cbn [le_value length]. rewrite Nat2Z.inj_succ, Z.pow_succ_r by lia.
  unfold is_byte in Hb. lia.
Qed.

Lemma read_exact_typed n d l d' :
  Forall is_byte d -> read_exact n d = Ok (l, d') -> Forall is_byte l /\ length l = n /\ Forall is_byte d'.
Proof.
  intros Hd. unfold read_exact. intros [Hlt%Nat.ltb_ge [= <- <-]]%guard_Ok.
  split_and!; [by apply Forall_take|rewrite length_take; lia|by apply Forall_drop].
Qed.

Lemma read_hash_typed d h d' :
  Forall is_byte d -> read_hash d = Ok (h, d') -> is_u256 h /\ Forall is_byte d'.
Proof.
  intros Hd. unfold read_hash. rewrite and_then_Ok. intros ([l d1] & Hr & [= <- <-]).
  apply read_exact_typed in Hr as (Hl & Hlen & Hd1); [|done]. split; [|done].
  assert (Forall is_byte (reverse l)) as Hrl by by apply Forall_reverse.
  apply le_value_range in Hrl. rewrite length_reverse, Hlen in Hrl. exact Hrl.
Qed.

Lemma read_pubkey_typed d k d' :
  Forall is_byte d -> read_pubkey d = Ok (k, d') -> is_u256 k /\ Forall is_byte d'.
Proof. exact (read_hash_typed d k d'). Qed.

Lemma parse_target_typed d t d' : Forall is_byte d -> parse_restriction_target d = Ok (t, d') -> target_typed t.
Proof.
  intros Hd. unfold parse_restriction_target. rewrite and_then_Ok. intros ([ty d1] & Hty & H).
  assert (Forall is_byte d1) as Hd1.
  { unfold read_u8 in Hty. apply and_then_Ok in Hty as ([l d2] & Hr & [= _ <-]). by apply read_exact_typed in Hr as (_ & _ & ?). }
  apply and_then_Ok in H as ([t' d2] & Ht & H). apply and_then_Ok in H as (? & _ & [= <- <-]).
  repeat case_match; try discriminate Ht;
    repeat match goal with
    | H : and_then _ _ = Ok _ |- _ => apply and_then_Ok in H as ([? ?] & ? & H)
    | H : or_err _ _ _ = Ok _ |- _ => apply or_err_Ok in H as (? & ? & H)
    | H : Ok _ = Ok _ |- _ => injection H as H; subst
    | H : read_pubkey _ = Ok _ |- _ => apply read_pubkey_typed in H as [? ?]; [|assumption]
    | H : read_hash _ = Ok _ |- _ => apply read_hash_typed in H as [? ?]; [|assumption]
    end; done.
Qed.

Definition action_target_typed (a : GovernanceAction) : Prop :=
  match a with Restrict t _ _ _ _ _ => target_typed t | _ => True end.

Lemma parse_call_typed contract data a : parse_contract_call contract data = Ok a -> action_target_typed a.
Proof. unfold parse_contract_call. intros H. repeat case_match; try discriminate H. by injection H as <-. Qed.

Lemma parse_lift_typed data a : parse_lift_restriction_governance_action data = Ok a -> action_target_typed a.
Proof.
  unfold parse_lift_restriction_governance_action. rewrite and_then_Ok. intros ([? ?] & _ & H).
  apply guard_Ok in H as [_ H]. apply and_then_Ok in H as ([? ?] & _ & H). apply or_err_Ok in H as (? & _ & H).
  apply and_then_Ok in H as (? & _ & [= <-]). done.
Qed.

Lemma parse_extend_typed data a : parse_extend_restriction_governance_action data = Ok a -> action_target_typed a.
Proof.
  unfold parse_extend_restriction_governance_action. rewrite and_then_Ok. intros ([? ?] & _ & H).
  apply guard_Ok in H as [_ H]. apply and_then_Ok in H as ([? ?] & _ & H). apply guard_Ok in H as [_ H].
  apply and_then_Ok in H as ([? ?] & _ & H). apply and_then_Ok in H as ([? ?] & _ & H).
  apply and_then_Ok in H as (? & _ & [= <-]). done.
Qed.

Lemma parse_restrict_typed data a :
  Forall is_byte data -> parse_restrict_governance_action data = Ok a -> action_target_typed a.
Proof.
  intros Hd. unfold parse_restrict_governance_action. rewrite and_then_Ok. intros ([t d1] & Ht & H).
  apply parse_target_typed in Ht; [|done].
  repeat match goal with
  | H : and_then _ (fun '(_, _) => _) = Ok _ |- _ => apply and_then_Ok in H as ([? ?] & _ & H)
  | H : (if _ then Err _ else _) = Ok _ |- _ => apply guard_Ok in H as [_ H]
  end.
  apply and_then_Ok in H as (? & _ & H). apply guard_Ok in H as [_ [= <-]]. done.
Qed.

Lemma parse_action_typed `{Json} config pending ix p k a :
  Forall is_byte (ix_data ix) -> parse_governance_action config pending ix = Ok (p, k, a) -> action_target_typed a.
Proof.
  intros Hd. unfold parse_governance_action. destruct (ix_accounts ix) as [|p0 [|k0 others]]; [done..|].
  destruct (ix_data ix) as [|o [|ty payload]]; [done..|]. rewrite and_then_Ok.
  intros (a' & Ha & [= <- <- <-]). apply Forall_cons in Hd as [_ [_ Hd]%Forall_cons].
  assert (forall k, (forall c, k c = Ok a' -> action_target_typed a') ->
    or_err (head others) ActionAccounts k = Ok a' -> action_target_typed a') as Hthird.
  { intros f Hf (c & _ & Hc)%or_err_Ok. by apply (Hf c). }
  repeat case_match; try discriminate Ha;
    try (revert Ha; apply Hthird; clear; intros c Ha); repeat case_match; try discriminate Ha;
    first [by eapply parse_restrict_typed|by eapply parse_lift_typed|by eapply parse_extend_typed
          |by eapply parse_call_typed|by injection Ha as <-
          |apply and_then_Ok in Ha as (? & _ & Ha);
           first [by injection Ha as <-|apply and_then_Ok in Ha as (? & _ & Ha); by injection Ha as <-
                 |apply or_err_Ok in Ha as (? & _ & Ha); by injection Ha as <-]].
Qed.

(** ** What an executed action does to the records *)

(** The record [r] lifted by [authority] at [slot]. *)
Definition lifted (authority : Pubkey) (slot : Z) (reason : RestrictionLiftReason) (r : RestrictionRecord) :=
  set_rr_lift_reason (Some reason) (set_rr_lifted_slot (Some slot)
    (set_rr_lifted_by (Some authority) (set_rr_status SLifted r))).

Inductive records_step (slot : Z) (p : GovernanceProposal) (m : gmap Z RestrictionRecord)
  : gmap Z RestrictionRecord -> Prop :=
| records_same : records_step slot p m m
| records_create r reason h u :
    pr_action p = Restrict (rr_target r) (rr_mode r) reason h u (rr_expires_at_slot r) ->
    m !! rr_id r = None -> rr_status r = SActive -> rr_supersedes r = None -> rr_created_slot r = slot ->
    rr_approval_authority r = pr_approval_authority p ->
    (rr_mode r = Terminated -> rr_expires_at_slot r = None) ->
    records_step slot p m (<[rr_id r := r]> m)
| records_lift r reason :
    pr_action p = LiftRestriction (rr_id r) reason -> m !! rr_id r = Some r ->
    effective_status slot r = SActive -> rr_mode r <> Terminated ->
    records_step slot p m (<[rr_id r := lifted (pr_authority p) slot reason r]> m)
| records_extend old r expires h :
    pr_action p = ExtendRestriction (rr_id old) (Some expires) h ->
    m !! rr_id old = Some old -> effective_status slot old = SActive -> rr_mode old <> Terminated ->
    m !! rr_id r = None -> rr_status r = SActive -> rr_supersedes r = Some (rr_id old) ->
    rr_created_slot r = slot -> rr_target r = rr_target old -> rr_mode r = rr_mode old ->
    rr_approval_authority r = pr_approval_authority p -> rr_expires_at_slot r = Some expires ->
    records_step slot p m (<[rr_id r := r]> (<[rr_id old := set_rr_status SSuperseded old]> m)).

Lemma validate_mode r : RestrictionRecord_validate r = Ok tt -> target_mode_valid (rr_target r) (rr_mode r) = true.
Proof.
  unfold RestrictionRecord_validate. intros [_ H]%guard_Ok. apply and_then_Ok in H as (? & _ & H).
  apply and_then_Ok in H as (? & _ & H). apply and_then_Ok in H as (? & H & _). unfold validate_target_mode in H.
  by destruct (target_mode_valid _ _).
Qed.

Section effects.
Context `{Crypto} `{ContractCodec} `{Json}.
Variable blocked : GovernanceState -> GovEnv -> Pubkey -> TransferDirection -> Z -> Z -> bool.
Variable contract_action :
  GovernanceEnv -> Pubkey -> GovernanceAction -> GovernanceState -> result GovernanceState GovernanceError.

(** The contract runtime changes accounts and contract storage, nothing of governance. *)
Definition same_governance (s s' : GovernanceState) : Prop :=
  gv_restrictions s' = gv_restrictions s /\ gv_proposals s' = gv_proposals s /\ gv_counter s' = gv_counter s
  /\ gv_config s' = gv_config s /\ gv_pending s' = gv_pending s /\ gv_events s' = gv_events s.
Definition contract_action_keeps : Prop :=
  forall env k a s s', contract_action env k a s = Ok s' -> same_governance s s'.

Lemma refresh_keeps r slot s s' :
  refresh_contract_lifecycle_for_restriction_record r slot s = Ok s' -> same_governance s s'.
Proof using Type.
  unfold refresh_contract_lifecycle_for_restriction_record. destruct (rr_target r); try by intros [= <-].
  destruct (is_some _); [|by intros [= <-]]. unfold refresh_contract_lifecycle_from_restrictions.
  rewrite or_err_Ok. intros ([account c] & _ & H').
  destruct (sync_lifecycle_from_restrictions _ _ _ _); [|by injection H' as <-].
  apply or_err_Ok in H' as (data & _ & [= <-]). done.
Qed.

Lemma put_keeps r s s' :
  b_put_restriction r s = Ok s' ->
  exists b, put_restriction r (gv_restrictions s) = Ok b /\ s' = set_gv_restrictions b s.
Proof using Type.
  unfold b_put_restriction. rewrite and_then_Ok. intros (b & Hb & [= <-]).
  destruct (put_restriction _ _) as [b'|]; [|done]. injection Hb as ->. eauto.
Qed.

Lemma next_keeps s id s' :
  b_next_restriction_id s = Ok (id, s') ->
  exists b, next_restriction_id (gv_restrictions s) = Ok (id, b) /\ s' = set_gv_restrictions b s.
Proof using Type.
  unfold b_next_restriction_id. rewrite and_then_Ok. intros ([i b] & Hb & [= <- <-]).
  destruct (next_restriction_id _) as [[i' b']|]; [|done]. injection Hb as -> ->. eauto.
Qed.

Lemma same_governance_set b s s' :
  same_governance (set_gv_restrictions b s) s' ->
  gv_restrictions s' = b /\ same_governance s (set_gv_restrictions (gv_restrictions s) s').
Proof using Type. by intros (-> & ? & ? & ? & ? & ?). Qed.

Lemma load_active_Ok env id s r :
  load_active_restriction env id s = Ok r ->
  get_restriction (gv_restrictions s) id = Some r /\ effective_status (gn_slot env) r = SActive
  /\ rr_mode r <> Terminated.
Proof using Type.
  unfold load_active_restriction. intros [_ Hl]%guard_Ok. apply or_err_Ok in Hl as (q & Hq & Hl).
  apply guard_Ok in Hl as [Ha%negb_false_iff%bool_decide_eq_true Hl].
  apply guard_Ok in Hl as [Ht%bool_decide_eq_false [= ->]]. done.
Qed.

(** The rest of the state after a restriction action: everything but accounts and records. *)
Definition beside_records (s s' : GovernanceState) : Prop :=
  gv_proposals s' = gv_proposals s /\ gv_counter s' = gv_counter s /\ gv_config s' = gv_config s
  /\ gv_pending s' = gv_pending s /\ gv_events s' = gv_events s.

Lemma restrict_step env p t md rs h u e s r s' :
  restrictions_inv (gv_restrictions s) -> target_typed t ->
  pr_action p = Restrict t md rs h u e ->
  execute_restrict_governance_action env p t md rs h u e s = Ok (r, s') ->
  restrictions_inv (gv_restrictions s') /\ beside_records s s'
  /\ records_step (gn_slot env) p (restriction_records (gv_restrictions s)) (restriction_records (gv_restrictions s')).
Proof using Type.
  intros Hinv Hty Hact. unfold execute_restrict_governance_action. rewrite and_then_Ok. intros ([] & Hval & H').
  apply and_then_Ok in H' as ([id s1] & (b1 & Hn & ->)%next_keeps & H').
  apply and_then_Ok in H' as (s2 & (b2 & Hp & ->)%put_keeps & H').
  apply and_then_Ok in H' as (s3 & Hr%refresh_keeps & [= <- <-]). cbn [gv_restrictions set_gv_restrictions] in *.
  destruct (restrictions_inv_next _ _ _ Hinv Hn) as (Hinv1 & Hrec1 & Hid & Hc1 & Hmax & Hfresh).
  pose proof (ri_nonneg _ Hinv).
  apply restrictions_inv_put in Hp as (Hinv2 & Hrec2 & _ & Hv & _); [|done|split; [split; simpl; unfold u64_max in *; lia|done]|simpl; lia].
  destruct Hr as (-> & Hr). cbn [gv_restrictions set_gv_restrictions]. split; [done|]. split; [done|].
  rewrite Hrec2, Hrec1.
  eapply (records_create _ _ _ (mkRestrictionRecord id t md SActive rs h u (pr_proposer p) (pr_authority p)
    (pr_approval_authority p) (gn_slot env) (slot_to_epoch (gn_slot env)) e None None None None)); try done.
  cbn [rr_mode rr_expires_at_slot]. intros ->. apply validate_mode in Hv. destruct t; try discriminate Hv.
  simpl in Hval. by destruct e.
Qed.

Lemma lift_step env p id rs s r s' :
  restrictions_inv (gv_restrictions s) -> pr_action p = LiftRestriction id rs ->
  execute_lift_restriction_governance_action env p id rs s = Ok (r, s') ->
  restrictions_inv (gv_restrictions s') /\ beside_records s s'
  /\ records_step (gn_slot env) p (restriction_records (gv_restrictions s)) (restriction_records (gv_restrictions s')).
Proof using Type.
  intros Hinv Hact. unfold execute_lift_restriction_governance_action. rewrite and_then_Ok.
  intros (q & (Hq & Ha & Ht)%load_active_Ok & H').
  apply and_then_Ok in H' as (s2 & (b2 & Hp & ->)%put_keeps & H').
  apply and_then_Ok in H' as (s3 & Hr%refresh_keeps & [= <- <-]). rewrite get_restriction_records in Hq.
  destruct (ri_records_ok _ Hinv _ _ Hq) as (Hid & Htyp & _). pose proof (ri_ids _ Hinv _ _ Hq).
  apply restrictions_inv_put in Hp as (Hinv2 & Hrec2 & _ & _ & _); [|done|done|simpl; lia].
  destruct Hr as (-> & Hr). cbn [gv_restrictions set_gv_restrictions]. split; [done|]. split; [done|].
  rewrite Hrec2. subst id. by apply (records_lift _ _ _ q rs).
Qed.

Lemma extend_step env p id e h s r s' :
  restrictions_inv (gv_restrictions s) -> pr_action p = ExtendRestriction id e h ->
  execute_extend_restriction_governance_action env p id e h s = Ok (r, s') ->
  restrictions_inv (gv_restrictions s') /\ beside_records s s'
  /\ records_step (gn_slot env) p (restriction_records (gv_restrictions s)) (restriction_records (gv_restrictions s')).
Proof using Type.
  intros Hinv Hact. unfold execute_extend_restriction_governance_action. rewrite and_then_Ok.
  intros (old & (Hq & Ha & Ht)%load_active_Ok & H').
  apply or_err_Ok in H' as (old_e & Hold & H'). apply or_err_Ok in H' as (new_e & -> & H').
  apply guard_Ok in H' as [_ H']. apply guard_Ok in H' as [_ H']. apply and_then_Ok in H' as ([] & _ & H').
  apply and_then_Ok in H' as ([nid s1] & (b1 & Hn & ->)%next_keeps & H').
  apply and_then_Ok in H' as (? & _ & H'). apply and_then_Ok in H' as (? & _ & H').
  apply and_then_Ok in H' as (s2 & (b2 & Hp & ->)%put_keeps & H').
  apply and_then_Ok in H' as (s3 & (b3 & Hp3 & ->)%put_keeps & H').
  apply and_then_Ok in H' as (s4 & Hr%refresh_keeps & [= <- <-]). cbn [gv_restrictions set_gv_restrictions] in *.
  rewrite get_restriction_records in Hq.
  destruct (ri_records_ok _ Hinv _ _ Hq) as (Hid & Htyp & _). pose proof (ri_ids _ Hinv _ _ Hq) as Hrange.
  destruct (restrictions_inv_next _ _ _ Hinv Hn) as (Hinv1 & Hrec1 & Hnid & Hc1 & Hmax & Hfresh).
  pose proof (ri_nonneg _ Hinv).
  apply restrictions_inv_put in Hp as (Hinv2 & Hrec2 & Hc2 & _ & _); [|done|done|simpl; lia].
  apply restrictions_inv_put in Hp3 as (Hinv3 & Hrec3 & _ & _ & _);
    [|done|split; [split; simpl; unfold u64_max in *; lia|exact (proj2 Htyp)]|simpl; lia].
  destruct Hr as (-> & Hr). cbn [gv_restrictions set_gv_restrictions]. split; [done|]. split; [done|].
  rewrite Hrec3, Hrec2, Hrec1. subst id. change (rr_id (set_rr_status SSuperseded old)) with (rr_id old).
  by eapply (records_extend _ _ _ old (mkRestrictionRecord nid _ _ _ _ _ _ _ _ _ _ _ _ _ _ _ _) new_e h).
Qed.

(** Everything an action can do. *)
Lemma perform_effect env p s ev s' :
  contract_action_keeps -> restrictions_inv (gv_restrictions s) -> action_target_typed (pr_action p) ->
  perform_action blocked contract_action env p s = Ok (Some (ev, s')) ->
  restrictions_inv (gv_restrictions s')
  /\ records_step (gn_slot env) p (restriction_records (gv_restrictions s)) (restriction_records (gv_restrictions s'))
  /\ gv_proposals s' = gv_proposals s /\ gv_counter s' = gv_counter s /\ gv_config s' = gv_config s
  /\ gv_events s' = gv_events s
  /\ gv_pending s' = match pr_action p with
                     | ParamChange param_id value => <[param_id := value]> (gv_pending s)
                     | _ => gv_pending s
                     end
  /\ forall n r, ev = Some (n, r) -> n <> GovernanceProposalExecuted.
Proof using Type.
  intros Hkeep Hinv Hty. unfold perform_action. destruct (pr_action p) eqn:Hact; intros H'.
  all: try (apply and_then_Ok in H' as (s1 & Hc%Hkeep & [= <- <-]); destruct Hc as (-> & Hc); split; [done|];
            split; [constructor|]; destruct Hc as (? & ? & ? & ? & ?); done).
  - apply and_then_Ok in H' as ([cap w] & _ & H'). apply (guard_Ok (negb cap)) in H' as [_ H'] || destruct cap; [|done].
    apply and_then_Ok in H' as (m & _ & [= <- <-]). split; [done|]. split; [constructor|done].
  - injection H' as <- <-. split; [done|]. split; [constructor|done].
  - apply and_then_Ok in H' as ([r s1] & Hr & [= <- <-]).
    apply restrict_step in Hr as (Hi & (? & ? & ? & ? & ?) & Hs); [|done..];
    split_and!; try done; by intros ? ? [= <- _].
  - apply and_then_Ok in H' as ([r s1] & Hr & [= <- <-]). apply lift_step in Hr as (Hi & (? & ? & ? & ? & ?) & Hs); [|done..];
    split_and!; try done; by intros ? ? [= <- _].
  - apply and_then_Ok in H' as ([r s1] & Hr & [= <- <-]). apply extend_step in Hr as (Hi & (? & ? & ? & ? & ?) & Hs); [|done..];
    split_and!; try done; by intros ? ? [= <- _].
Qed.
End effects.
