(* ===== verification/GovernanceRun.v ===== *)
(** * Runs of protocol governance

    Sequences of governance instructions, epoch boundaries and commits, and what one step of
    them does: where the proposal it works on comes from ([proposal_origin]), what executing
    it, or not, changes ([governance_attempt]), and the induction over a run. *)

From S2P Require Import Prelude Crypto Block Account Transactions Fees Transfers StakingV2 Processor.
From S2P Require Import Restrictions Governed GovernanceActions Governance GovernanceEffects.
From stdpp Require Import base tactics numbers list gmap strings.
From Stdlib Require Import ZArith Lia.

Local Open Scope Z_scope.
Local Open Scope rust_scope.

(** ** Steps *)

Inductive GovernanceOp :=
| NPropose (ix : Instruction)
| NApprove (ix : Instruction)
| NExecute (ix : Instruction)
| NCancel (ix : Instruction)
| NParam (ix : Instruction)
| NEpoch
| NCommit.

#[global] Instance EventName_eq_dec : EqDecision EventName.
Proof. solve_decision. Defined.

(** The executions a list of events reports. *)
Definition executions_of (evs : list GovernanceEvent) : list GovernanceEvent :=
  filter (fun e => ev_name e = GovernanceProposalExecuted) evs.

Lemma executions_of_app l l' : executions_of (l ++ l') = executions_of l ++ executions_of l'.
Proof. apply filter_app. Qed.

Section run.
Context `{Crypto} `{ContractCodec} `{Json}.
Variable blocked : GovernanceState -> GovEnv -> Pubkey -> TransferDirection -> Z -> Z -> bool.
Variable contract_action :
  GovernanceEnv -> Pubkey -> GovernanceAction -> GovernanceState -> result GovernanceState GovernanceError.

Definition governance_handle (env : GovernanceEnv) (op : GovernanceOp) (s : GovernanceState)
  : result GovernanceState GovernanceError :=
  match op with
  | NPropose ix => system_propose_governance_action blocked contract_action env ix s
  | NApprove ix => system_approve_governance_action blocked contract_action env ix s
  | NExecute ix => system_execute_governance_action blocked contract_action env ix s
  | NCancel ix => system_cancel_governance_action env ix s
  | NParam ix => system_governance_param_change env ix s
  | NEpoch => apply_pending_governance_changes s
  | NCommit => Ok (set_gv_restrictions (begin_batch (commit_batch (gv_restrictions s))) s)
  end.

(** A failed operation leaves the state as it is. *)
Definition governance_step (s : GovernanceState) (o : GovernanceEnv * GovernanceOp) : GovernanceState :=
  match governance_handle o.1 o.2 s with Ok s' => s' | Err _ => s end.

Definition governance_run (ops : list (GovernanceEnv * GovernanceOp)) (s : GovernanceState) : GovernanceState :=
  foldl governance_step s ops.

(** The instructions of a transaction are bytes. *)
Definition governance_op_typed (o : GovernanceEnv * GovernanceOp) : Prop :=
  match o.2 with NPropose ix => Forall is_byte (ix_data ix) | _ => True end.

(** ** Where the proposal of a step comes from *)

Inductive proposal_origin (env : GovernanceEnv) (s : GovernanceState)
  : GovernanceOp -> GovernanceProposal -> Z -> Prop :=
| from_propose ix proposer requested a authority approval config policy :
    parse_governance_action (gv_config s) (gv_pending s) ix = Ok (proposer, requested, a) ->
    resolve_governance_proposal_authority env requested a (gv_restrictions s) = Ok (authority, approval, config) ->
    is_authorized proposer config = true ->
    governance_execution_policy env a authority approval config = Ok policy ->
    let id := wrap64 (gv_counter s + 1) in
    proposal_origin env s (NPropose ix)
      (mkGovernanceProposal id authority approval proposer a [proposer] (ep_threshold policy)
         (ep_execute_after_epoch policy) (ep_velocity_tier policy) (ep_daily_cap_spores policy) false false) id
| from_approve ix p approver config :
    head (ix_accounts ix) = Some approver -> gv_proposals s !! u64_at (ix_data ix) 1 = Some p ->
    pr_executed p = false -> pr_cancelled p = false ->
    gn_config env (proposal_approval_authority p) = Some config -> is_authorized approver config = true ->
    approver ∉ pr_approvals p ->
    proposal_origin env s (NApprove ix) (set_pr_approvals (pr_approvals p ++ [approver]) p) (gv_counter s)
| from_execute ix p :
    gv_proposals s !! u64_at (ix_data ix) 1 = Some p -> pr_executed p = false -> pr_cancelled p = false ->
    proposal_origin env s (NExecute ix) p (gv_counter s)
| from_cancel ix p :
    gv_proposals s !! u64_at (ix_data ix) 1 = Some p -> pr_executed p = false -> pr_cancelled p = false ->
    proposal_origin env s (NCancel ix) (set_pr_cancelled true p) (gv_counter s).

(** What executing [p], or not, does to what governance keeps. *)
Inductive governance_attempt (env : GovernanceEnv) (p : GovernanceProposal) (s s' : GovernanceState)
  : GovernanceProposal -> Prop :=
| attempt_nothing :
    gv_restrictions s' = gv_restrictions s -> gv_pending s' = gv_pending s ->
    executions_of (gv_events s') = executions_of (gv_events s) ->
    governance_attempt env p s s' p
| attempt_performs actor :
    is_ready (gn_epoch env) p = true ->
    validate_governance_proposal_restriction_policy env p s = Ok tt ->
    restrictions_inv (gv_restrictions s') ->
    records_step (gn_slot env) p (restriction_records (gv_restrictions s)) (restriction_records (gv_restrictions s')) ->
    gv_pending s' = match pr_action p with
                    | ParamChange param_id value => <[param_id := value]> (gv_pending s)
                    | _ => gv_pending s
                    end ->
    executions_of (gv_events s') = executions_of (gv_events s)
      ++ [mkGovernanceEvent GovernanceProposalExecuted (set_pr_executed true p) actor None (gn_slot env)] ->
    governance_attempt env p s s' (set_pr_executed true p).

Lemma load_governance_Ok env ix s signer p :
  load_governance_proposal env ix s = Ok (signer, p) ->
  exists config, head (ix_accounts ix) = Some signer /\ gv_proposals s !! u64_at (ix_data ix) 1 = Some p
    /\ pr_executed p = false /\ pr_cancelled p = false
    /\ gn_config env (proposal_approval_authority p) = Some config /\ is_authorized signer config = true.
Proof using Type.
  unfold load_governance_proposal. destruct (ix_accounts ix) as [|sg rest]; [done|]. intros [_ H']%guard_Ok.
  apply or_err_Ok in H' as (q & Hq & H'). apply guard_Ok in H' as [He H']. apply guard_Ok in H' as [Hc H'].
  apply and_then_Ok in H' as ([k config] & Hk & H'). apply or_err_Ok in Hk as (c & Hcfg & [= <- <-]).
  apply guard_Ok in H' as [Ha%negb_false_iff [= <- <-]]. by exists c.
Qed.

Lemma emit_executions env name p actor r s :
  name <> GovernanceProposalExecuted ->
  executions_of (gv_events (emit env name p actor r s)) = executions_of (gv_events s).
Proof using Type.
  intros Hn. unfold emit. cbn [gv_events set_gv_events]. rewrite executions_of_app.
  unfold executions_of at 2. rewrite filter_cons, filter_nil, decide_False by done. apply app_nil_r.
Qed.

(** Two states that differ in accounts and in events other than executions. *)
Record reported (s s' : GovernanceState) : Prop := {
  re_restrictions : gv_restrictions s' = gv_restrictions s;
  re_pending : gv_pending s' = gv_pending s;
  re_proposals : gv_proposals s' = gv_proposals s;
  re_counter : gv_counter s' = gv_counter s;
  re_config : gv_config s' = gv_config s;
  re_executions : executions_of (gv_events s') = executions_of (gv_events s);
}.

Lemma reported_emit env name p actor r s : name <> GovernanceProposalExecuted -> reported s (emit env name p actor r s).
Proof using Type. intros Hn. split; try done. by apply emit_executions. Qed.

(** The outcome of an attempt. *)
Lemma try_execute_outcome env p actor s b p' s' :
  contract_action_keeps contract_action -> restrictions_inv (gv_restrictions s) ->
  action_target_typed (pr_action p) ->
  try_execute_governance_proposal blocked contract_action env p actor s = Ok (b, p', s') ->
  (p' = p /\ s' = s)
  \/ (p' = set_pr_executed true p /\ is_ready (gn_epoch env) p = true
      /\ validate_governance_proposal_restriction_policy env p s = Ok tt
      /\ restrictions_inv (gv_restrictions s')
      /\ records_step (gn_slot env) p (restriction_records (gv_restrictions s)) (restriction_records (gv_restrictions s'))
      /\ gv_proposals s' = gv_proposals s /\ gv_counter s' = gv_counter s /\ gv_config s' = gv_config s
      /\ executions_of (gv_events s') = executions_of (gv_events s)
      /\ gv_pending s' = match pr_action p with
                         | ParamChange param_id value => <[param_id := value]> (gv_pending s)
                         | _ => gv_pending s
                         end).
Proof using Type.
  intros Hkeep Hinv Hty. unfold try_execute_governance_proposal.
  destruct (is_ready (gn_epoch env) p) eqn:Hready; [|intros [= _ <- <-]; by left]. cbn [negb].
  rewrite and_then_Ok. intros ([] & Hpol & Htry).
  apply and_then_Ok in Htry as ([[ev s3]|] & Hperf & Htry); [|injection Htry as _ <- <-; by left].
  apply perform_effect in Hperf as (Hi & Hs & P1 & P2 & P3 & P4 & P5 & P6); [|done..].
  injection Htry as _ <- <-. right.
  assert (reported s3 (match ev with
     | Some (name, r) => emit env name (set_pr_executed true p) actor (Some r) s3
     | None => s3 end)) as [-> -> -> -> -> ->].
  { destruct ev as [[n r]|]; [|done]. by eapply reported_emit, P6. }
  by rewrite P1, P2, P3, P4.
Qed.

(** An attempt followed by storing the proposal, a report and the report of the execution. *)
Lemma try_execute_stored env p actor s b p' s1 s2 :
  contract_action_keeps contract_action -> restrictions_inv (gv_restrictions s) ->
  action_target_typed (pr_action p) -> pr_executed p = false ->
  try_execute_governance_proposal blocked contract_action env p actor s = Ok (b, p', s1) ->
  reported (set_governance_proposal p' s1) s2 ->
  let s' := emit_if env (pr_executed p') GovernanceProposalExecuted p' actor s2 in
  governance_attempt env p s s' p' /\ gv_proposals s' = <[pr_id p := p']> (gv_proposals s)
  /\ gv_counter s' = gv_counter s /\ gv_config s' = gv_config s.
Proof using Type.
  intros Hkeep Hinv Hty He Htry [R1 R2 R3 R4 R5 R6].
  cbn [set_governance_proposal set_gv_proposals gv_restrictions gv_pending gv_proposals gv_counter gv_config gv_events] in *.
  apply try_execute_outcome in Htry as [[-> ->]|(-> & Hr & Hpol & Hi & Hs & P1 & P2 & P3 & P4 & P5)]; [| |done..].
  - rewrite He. cbn [emit_if]. split_and!; try done. by constructor.
  - cbn [emit_if pr_executed set_pr_executed]. unfold emit. cbn [gv_proposals gv_counter gv_config set_gv_events].
    rewrite R3, R4, R5, P1, P2, P3. split_and!; try done.
    eapply attempt_performs; cbn [gv_restrictions gv_pending set_gv_events gv_events]; rewrite ?R1; try done.
    + by rewrite R2.
    + by rewrite executions_of_app, R6, P4.
Qed.

Lemma governance_attempt_counter env p c s s' p' :
  governance_attempt env p (set_gv_counter c s) s' p' -> governance_attempt env p s s' p'.
Proof using Type. destruct 1; [by apply attempt_nothing|by eapply attempt_performs]. Qed.

Definition is_proposal_op (op : GovernanceOp) : bool :=
  match op with NPropose _ | NApprove _ | NExecute _ | NCancel _ => true | _ => false end.

Lemma governance_handle_step env op s s' :
  contract_action_keeps contract_action -> restrictions_inv (gv_restrictions s) ->
  map_Forall (fun _ p => action_target_typed (pr_action p)) (gv_proposals s) ->
  governance_op_typed (env, op) -> is_proposal_op op = true ->
  governance_handle env op s = Ok s' ->
  exists p p', proposal_origin env s op p (gv_counter s') /\ action_target_typed (pr_action p)
    /\ governance_attempt env p s s' p'
    /\ gv_proposals s' = <[pr_id p := p']> (gv_proposals s) /\ gv_config s' = gv_config s.
Proof using Type.
  intros Hkeep Hinv Hty Hop Hpo. destruct op as [ix|ix|ix|ix|ix| |]; try done; cbn [governance_handle].
  - unfold system_propose_governance_action. rewrite and_then_Ok. intros ([[proposer requested] a] & Hparse & H').
    destruct (parse_governance_action _ _ ix) as [x|] eqn:Hpa; [|done]. injection Hparse as ->.
    pose proof (parse_action_typed _ _ _ _ _ _ Hop Hpa) as Hta.
    apply and_then_Ok in H' as ([[authority approval] config] & Hres & H').
    apply guard_Ok in H' as [Hau%negb_false_iff H']. apply and_then_Ok in H' as ([] & _ & H').
    apply and_then_Ok in H' as (policy & Hpol & H').
    apply and_then_Ok in H' as ([[b p'] s1] & Htry & <-%Ok_inj).
    eapply try_execute_stored in Htry as (A1 & A2 & A3 & A4);
      [|done|exact Hinv|exact Hta|done|apply (reported_emit env GovernanceProposalCreated p' proposer None); done].
    eexists _, p'. split; [rewrite A3; by eapply from_propose|]. split; [done|].
    split; [by eapply governance_attempt_counter|done].
  - unfold system_approve_governance_action. rewrite and_then_Ok. intros ([approver p] & Hl & H').
    apply load_governance_Ok in Hl as (config & Hacc & Hp & He & Hc & Hcfg & Hau).
    apply guard_Ok in H' as [Hn%bool_decide_eq_false H'].
    apply and_then_Ok in H' as ([[b p'] s1] & Htry & <-%Ok_inj).
    eapply try_execute_stored in Htry as (A1 & A2 & A3 & A4);
      [|done|exact Hinv|exact (Hty _ _ Hp)|done|apply (reported_emit env GovernanceProposalApproved p' approver None); done].
    eexists _, p'. split; [rewrite A3; by eapply from_approve|]. split; [exact (Hty _ _ Hp)|]. by split_and!.
  - unfold system_execute_governance_action. rewrite and_then_Ok. intros ([ex p] & Hl & H').
    apply load_governance_Ok in Hl as (config & Hacc & Hp & He & Hc & Hcfg & Hau).
    apply guard_Ok in H' as [_ H']. apply guard_Ok in H' as [_ H'].
    apply and_then_Ok in H' as ([[b p'] s1] & Htry & H'). apply guard_Ok in H' as [_ <-%Ok_inj].
    eapply try_execute_stored in Htry as (A1 & A2 & A3 & A4); [|done|exact Hinv|exact (Hty _ _ Hp)|done|by split].
    eexists p, p'. split; [rewrite A3; by eapply from_execute|]. split; [exact (Hty _ _ Hp)|]. by split_and!.
  - unfold system_cancel_governance_action. rewrite and_then_Ok. intros ([ca p] & Hl & <-%Ok_inj).
    apply load_governance_Ok in Hl as (config & Hacc & Hp & He & Hc & Hcfg & Hau).
    exists (set_pr_cancelled true p), (set_pr_cancelled true p). split; [exact (from_cancel env s ix p Hp He Hc)|].
    split; [exact (Hty _ _ Hp)|]. split; [|done]. apply attempt_nothing; [done..|]. by rewrite emit_executions.
Qed.

(** ** The kinds of steps *)

Record governance_base (s : GovernanceState) : Prop := {
  gb_restrictions : restrictions_inv (gv_restrictions s);
  gb_typed : map_Forall (fun _ p => action_target_typed (pr_action p)) (gv_proposals s);
}.

(** Nothing of proposals, records and executions changes. *)
Record quiet (s s' : GovernanceState) : Prop := {
  qu_records : restriction_records (gv_restrictions s') = restriction_records (gv_restrictions s);
  qu_proposals : gv_proposals s' = gv_proposals s;
  qu_counter : gv_counter s' = gv_counter s;
  qu_executions : executions_of (gv_events s') = executions_of (gv_events s);
}.

Inductive step_kind (env : GovernanceEnv) (op : GovernanceOp) (s s' : GovernanceState) : Prop :=
| kind_same : gv_config s' = gv_config s -> gv_pending s' = gv_pending s -> quiet s s' -> step_kind env op s s'
| kind_param k param_id value :
    gn_governance_authority env = Some k -> gn_config env k = None ->
    gv_config s' = gv_config s -> gv_pending s' = <[param_id := value]> (gv_pending s) -> quiet s s' ->
    step_kind env op s s'
| kind_epoch : apply_pending_governance_changes s = Ok s' -> quiet s s' -> step_kind env op s s'
| kind_proposal p p' :
    proposal_origin env s op p (gv_counter s') -> action_target_typed (pr_action p) ->
    governance_attempt env p s s' p' -> gv_proposals s' = <[pr_id p := p']> (gv_proposals s) ->
    gv_config s' = gv_config s -> step_kind env op s s'.

Lemma apply_other_keeps changes s :
  let s' := foldl apply_other_param s changes in
  gv_restrictions s' = gv_restrictions s /\ gv_proposals s' = gv_proposals s /\ gv_counter s' = gv_counter s
  /\ gv_events s' = gv_events s /\ gv_config s' = gv_config s.
Proof using Type.
  revert s. induction changes as [|c changes IH]; intros s; [done|]. cbn [foldl].
  destruct (IH (apply_other_param s c)) as (-> & -> & -> & -> & ->). unfold apply_other_param. by repeat case_match.
Qed.

Lemma apply_pending_Ok s s' :
  apply_pending_governance_changes s = Ok s' ->
  gv_restrictions s' = gv_restrictions s /\ gv_proposals s' = gv_proposals s /\ gv_counter s' = gv_counter s
  /\ gv_events s' = gv_events s
  /\ (gv_config s' = gv_config s \/ gv_config s' = apply_changes (pending_changes (gv_pending s)) (gv_config s))
  /\ (gv_pending s' = ∅ \/ gv_pending s' = gv_pending s).
Proof using Type.
  unfold apply_pending_governance_changes. destruct (pending_changes (gv_pending s)) as [|c changes] eqn:Hc.
  { intros [= <-]. split_and!; auto. }
  destruct (apply_other_keeps (c :: changes) s) as (E1 & E2 & E3 & E4 & E5).
  rewrite and_then_Ok. intros (s1 & Hs1 & <-%Ok_inj).
  destruct (existsb _ _); [apply and_then_Ok in Hs1 as (_ & _ & <-%Ok_inj)|apply Ok_inj in Hs1 as <-];
    cbn [gv_restrictions gv_proposals gv_counter gv_events gv_config gv_pending set_gv_pending set_gv_config];
    split_and!; auto.
Qed.

Lemma attempt_base env p s s' p' :
  restrictions_inv (gv_restrictions s) -> governance_attempt env p s s' p' -> restrictions_inv (gv_restrictions s').
Proof using Type. intros Hinv [Hr _ _|actor _ _ Hi _ _ _]; [by rewrite Hr|done]. Qed.

Lemma attempt_action env p s s' p' :
  governance_attempt env p s s' p' ->
  pr_id p' = pr_id p /\ pr_action p' = pr_action p /\ pr_approvals p' = pr_approvals p
  /\ pr_cancelled p' = pr_cancelled p.
Proof using Type. by destruct 1. Qed.

Lemma governance_step_kind o s :
  contract_action_keeps contract_action -> governance_op_typed o -> governance_base s ->
  governance_base (governance_step s o) /\ step_kind o.1 o.2 s (governance_step s o).
Proof using Type.
  intros Hkeep Hop [Hinv Hty]. unfold governance_step. destruct o as [env op]. cbn [fst snd].
  destruct (governance_handle env op s) as [s'|] eqn:Hh; [|split; [done|by apply kind_same]].
  destruct (is_proposal_op op) eqn:Hpo.
  { destruct (governance_handle_step env op s s' Hkeep Hinv Hty Hop Hpo Hh) as (p & p' & Hor & Hta & Hat & Hps & Hcf).
    split; [|by eapply kind_proposal]. split; [by eapply attempt_base|]. rewrite Hps.
    apply attempt_action in Hat as (_ & Ha & _). apply map_Forall_insert_2; [by rewrite Ha|done]. }
  destruct op as [ix|ix|ix|ix|ix| |]; try done; cbn [governance_handle] in Hh.
  - unfold system_governance_param_change in Hh. apply guard_Ok in Hh as [_ Hh].
    apply or_err_Ok in Hh as (sg & _ & Hh). apply or_err_Ok in Hh as (k & Hk & Hh).
    apply guard_Ok in Hh as [Hg Hh]. apply guard_Ok in Hh as [_ Hh]. apply and_then_Ok in Hh as (_ & _ & <-%Ok_inj).
    split; [done|]. eapply (kind_param env _ s _ k); try done. by destruct (gn_config env k).
  - pose proof (apply_pending_Ok _ _ Hh) as (E1 & E2 & E3 & E4 & _). split; [split; by rewrite ?E1, ?E2|].
    apply kind_epoch; [done|]. split; by rewrite ?E1, ?E2, ?E3, ?E4.
  - apply Ok_inj in Hh as <-. destruct (restrictions_inv_commit _ Hinv) as [Hc Hr].
    split; [done|]. by apply kind_same.
Qed.

(** Induction over a run. *)
Lemma governance_run_ind (P : list (GovernanceEnv * GovernanceOp) -> GovernanceState -> Prop) s0 :
  contract_action_keeps contract_action -> governance_base s0 -> P [] s0 ->
  (forall ops o s, Forall governance_op_typed (ops ++ [o]) -> governance_base s -> P ops s ->
     step_kind o.1 o.2 s (governance_step s o) -> P (ops ++ [o]) (governance_step s o)) ->
  forall ops, Forall governance_op_typed ops ->
  governance_base (governance_run ops s0) /\ P ops (governance_run ops s0).
Proof using Type.
  intros Hkeep Hb0 HP0 Hstep ops. unfold governance_run. induction ops as [|o ops IH] using rev_ind; intros Hty; [done|].
  rewrite foldl_app. cbn [foldl]. pose proof Hty as [Hty' Ho]%Forall_app. destruct (IH Hty') as [Hb HP].
  rewrite Forall_singleton in Ho. destruct (governance_step_kind o _ Hkeep Ho Hb) as [Hb' Hk]. split; [done|].
  by apply Hstep.
Qed.
End run.
