(* ===== verification/GovernanceSafety.v ===== *)
(** * Properties of protocol governance

    What every sequence of governance instructions, epoch boundaries and commits keeps:
    restriction records are only added, lifted or superseded, a termination is for ever, the
    incident guardian cannot hold a restriction longer than its limits, proposals execute once
    and with their approvals, and the fee distribution cannot be changed through proposals. *)

From S2P Require Import Prelude Crypto Block Account Transactions Fees Transfers StakingV2 Processor.
From S2P Require Import Restrictions Governed GovernanceActions Governance GovernanceEffects GovernanceRun.
From stdpp Require Import base tactics numbers list gmap strings.
From Stdlib Require Import ZArith Lia.

Local Open Scope Z_scope.
Local Open Scope rust_scope.

(** ** The history of restrictions *)

(** What a record may become: its terms stay, an active record may be lifted or superseded,
    a closed one and a termination stay as they are. *)
Definition record_follows (r r' : RestrictionRecord) : Prop :=
  rr_id r' = rr_id r /\ rr_target r' = rr_target r /\ rr_mode r' = rr_mode r
  /\ rr_expires_at_slot r' = rr_expires_at_slot r /\ rr_created_slot r' = rr_created_slot r
  /\ rr_approval_authority r' = rr_approval_authority r /\ rr_supersedes r' = rr_supersedes r
  /\ (r' = r \/ rr_status r = SActive /\ rr_mode r <> Terminated /\ (rr_status r' = SLifted \/ rr_status r' = SSuperseded)).

Definition history (m m' : gmap Z RestrictionRecord) : Prop :=
  forall id r, m !! id = Some r -> exists r', m' !! id = Some r' /\ record_follows r r'.

Lemma record_follows_refl r : record_follows r r.
Proof. split_and!; auto. Qed.

Lemma record_follows_trans r1 r2 r3 : record_follows r1 r2 -> record_follows r2 r3 -> record_follows r1 r3.
Proof.
  intros (? & ? & Hm & ? & ? & ? & ? & Hc) (? & ? & ? & ? & ? & ? & ? & Hc'). split_and!; try congruence.
  destruct Hc as [->|(Ha & Ht & Hs)]; [done|]. destruct Hc' as [->|(Ha' & _)]; [auto|].
  destruct Hs as [Hs|Hs]; congruence.
Qed.

#[global] Instance history_preorder : PreOrder history.
Proof.
  split.
  - intros m id r Hr. exists r. split; [done|apply record_follows_refl].
  - intros m1 m2 m3 H12 H23 id r (r2 & Hr2 & Hf)%H12. apply H23 in Hr2 as (r3 & Hr3 & Hf').
    exists r3. split; [done|by eapply record_follows_trans].
Qed.

Lemma effective_active slot r : effective_status slot r = SActive -> rr_status r = SActive.
Proof. unfold effective_status. intros E. by repeat case_match. Qed.

(** A write of a new record, or of what follows from the old one. *)
Lemma history_insert m r :
  (forall r0, m !! rr_id r = Some r0 -> record_follows r0 r) -> history m (<[rr_id r := r]> m).
Proof.
  intros Hold id r0 Hr0. destruct (decide (id = rr_id r)) as [->|Hne]; [rewrite lookup_insert_eq; eauto|].
  rewrite lookup_insert_ne by done. exists r0. split; [done|apply record_follows_refl].
Qed.

Lemma records_step_history slot p m m' : records_step slot p m m' -> history m m'.
Proof.
  destruct 1 as [|r reason h u _ Hn _ _ _ _ _|r reason _ Hr Ha Ht|old r expires h _ Hold Ha Ht Hn _ _ _ _ _ _ _]; [done|..].
  - apply history_insert. congruence.
  - change (rr_id r) with (rr_id (lifted (pr_authority p) slot reason r)). apply history_insert.
    cbn [lifted rr_id set_rr_lift_reason set_rr_lifted_slot set_rr_lifted_by set_rr_status]. rewrite Hr. intros r0 [= <-].
    split_and!; try done. right. split_and!; [by eapply effective_active|done|by left].
  - assert (history m (<[rr_id (set_rr_status SSuperseded old) := set_rr_status SSuperseded old]> m)) as H1.
    { apply history_insert. cbn [rr_id set_rr_status]. rewrite Hold. intros r0 [= <-].
      split_and!; try done. right. split_and!; [by eapply effective_active|done|by right]. }
    etrans; [exact H1|]. apply history_insert. cbn [rr_id set_rr_status].
    rewrite lookup_insert_ne by congruence. congruence.
Qed.

Definition gv_records (s : GovernanceState) : gmap Z RestrictionRecord := restriction_records (gv_restrictions s).

(** A termination has no end. *)
Definition terminations_open (m : gmap Z RestrictionRecord) : Prop :=
  map_Forall (fun _ r => rr_mode r = Terminated -> rr_expires_at_slot r = None) m.

Lemma records_step_terminations slot p m m' :
  terminations_open m -> records_step slot p m m' -> terminations_open m'.
Proof.
  intros Hm. destruct 1 as [|r reason h u _ _ _ _ _ _ He|r reason _ Hr _ Ht
    |old r expires h _ Hold _ Ht _ _ _ _ _ Hmode _ _]; [done|..]; repeat apply map_Forall_insert_2; try done.
  congruence.
Qed.

(** ** The incident guardian *)

(** A record approved by the guardian [g]: the target and mode are among those it may
    restrict, it expires, and its lifetime is bounded from its creation and, for an extension,
    from the creation of the only record it extends. *)
Definition guardian_bounded (g : Pubkey) (m : gmap Z RestrictionRecord) (r : RestrictionRecord) : Prop :=
  rr_approval_authority r = Some g ->
  guardian_restrict_target_mode_allowed (rr_target r) (rr_mode r) = true
  /\ exists e, rr_expires_at_slot r = Some e /\ rr_created_slot r < e <= rr_created_slot r + GUARDIAN_RESTRICTION_MAX_SLOTS
  /\ forall id, rr_supersedes r = Some id ->
       exists root, m !! id = Some root /\ rr_approval_authority root = Some g /\ rr_supersedes root = None
         /\ rr_target root = rr_target r /\ rr_mode root = rr_mode r
         /\ e <= rr_created_slot root + 2 * GUARDIAN_RESTRICTION_MAX_SLOTS.

Definition guardian_limits (g : Pubkey) (m : gmap Z RestrictionRecord) : Prop :=
  map_Forall (fun _ r => guardian_bounded g m r) m.

Lemma guardian_bounded_follows g m m' r r' :
  history m m' -> record_follows r r' -> guardian_bounded g m r -> guardian_bounded g m' r'.
Proof.
  intros Hh (_ & Ht & Hm & He & Hc & Ha & Hs & _) Hb Hg. rewrite Ha in Hg. rewrite Ht, Hm, He, Hc.
  destruct (Hb Hg) as (Hal & e & Hex & Hr & Hroot). split; [done|]. exists e. split_and!; try done; try lia.
  rewrite Hs. intros id (root & Hroot' & Hra & Hrs & Hrt & Hrm & Hle)%Hroot.
  destruct (Hh _ _ Hroot') as (root' & Hr' & (_ & Ht' & Hm' & _ & Hc' & Ha' & Hs' & _)).
  exists root'. rewrite Ht', Hm', Hc', Ha', Hs'. by split_and!.
Qed.

Lemma guardian_expiry_Ok slot expires e :
  validate_guardian_expiry slot expires = Ok e ->
  expires = Some e /\ slot < e <= slot + GUARDIAN_RESTRICTION_MAX_SLOTS.
Proof.
  unfold validate_guardian_expiry. intros (x & -> & Hx)%or_err_Ok. apply guard_Ok in Hx as [Hlt%Z.leb_gt Hx].
  apply or_err_Ok in Hx as (mx & [-> _]%checked_add64_Some & Hx). apply guard_Ok in Hx as [Hle%Z.ltb_ge [= ->]].
  split; [done|lia].
Qed.

(** An extension count of zero means that nothing was extended. *)
Lemma chain_first r b count root :
  guardian_extension_chain_info r b = Ok (count, root) -> count < 1 -> rr_supersedes r = None /\ root = rr_created_slot r.
Proof.
  unfold guardian_extension_chain_info. destruct (rr_supersedes r) as [id|]; [|by intros [= <- <-]].
  assert (forall fuel n root0 cursor, extension_chain b (rr_id r) fuel n root0 cursor = Ok (count, root) ->
    n + (if is_some cursor then 1 else 0) <= count) as Hmono.
  { induction fuel as [|fuel IH]; intros n root0 [c|]; simpl; try done; try (intros [= <- <-]; lia).
    intros [_ Hc]%guard_Ok. apply or_err_Ok in Hc as (q & _ & Hc%IH). destruct (is_some (rr_supersedes q)); lia. }
  intros Hc%Hmono. simpl in Hc. lia.
Qed.

(** The guardian's part of one change of the records. *)
Lemma records_step_guardian g slot p b m' :
  (pr_approval_authority p = Some g -> validate_incident_guardian_restriction_action slot (pr_action p) g b = Ok tt) ->
  guardian_limits g (restriction_records b) ->
  records_step slot p (restriction_records b) m' -> guardian_limits g m'.
Proof.
  intros Hval Hlim Hs. pose proof (records_step_history _ _ _ _ Hs) as Hh.
  assert (forall r, guardian_bounded g m' r -> history (restriction_records b) m' ->
    m' = <[rr_id r := r]> (restriction_records b) -> guardian_limits g m') as Hins.
  { intros r Hr Hh' Hm'. intros id q Hq. destruct (decide (id = rr_id r)) as [->|Hne].
    - rewrite Hm', lookup_insert_eq in Hq. by injection Hq as <-.
    - rewrite Hm', lookup_insert_ne in Hq by done.
      eapply guardian_bounded_follows; [exact Hh'|apply record_follows_refl|exact (Hlim _ _ Hq)]. }
  destruct Hs as [|r reason h u Hact Hn Hst Hsup Hcr Hap He|r reason Hact Hr Ha Ht
    |old r expires h Hact Hold Ha Ht Hn Hst Hsup Hcr Htg Hmo Hap He]; [done|..].
  - eapply Hins; [|done|done]. intros Hg. rewrite Hap in Hg. specialize (Hval Hg). rewrite Hact in Hval.
    apply guard_Ok in Hval as [Hal%negb_false_iff Hval]. apply and_then_Ok in Hval as (e & (He' & Hr)%guardian_expiry_Ok & _).
    split; [done|]. exists e. rewrite Hcr, Hsup. split_and!; done || lia.
  - change (rr_id r) with (rr_id (lifted (pr_authority p) slot reason r)) in *. eapply Hins; [|done|done].
    eapply guardian_bounded_follows; [done| |exact (Hlim _ _ Hr)].
    split_and!; try done. right. split_and!; [by eapply effective_active|done|by left].
  - intros id q Hq. destruct (decide (id = rr_id r)) as [->|Hne].
    2: { rewrite lookup_insert_ne in Hq by done. destruct (decide (id = rr_id old)) as [->|Hne'].
         - rewrite lookup_insert_eq in Hq. injection Hq as <-. eapply guardian_bounded_follows; [done| |exact (Hlim _ _ Hold)].
           split_and!; try done. right. split_and!; [by eapply effective_active|done|by right].
         - rewrite lookup_insert_ne in Hq by done.
           eapply guardian_bounded_follows; [done|apply record_follows_refl|exact (Hlim _ _ Hq)]. }
    rewrite lookup_insert_eq in Hq. injection Hq as <-. intros Hg. rewrite Hap in Hg. specialize (Hval Hg).
    rewrite Hact in Hval. apply guard_Ok in Hval as [_ Hval]. rewrite get_restriction_records, Hold in Hval. cbn [or_err] in Hval.
    apply and_then_Ok in Hval as ([] & Hown & Hval). apply and_then_Ok in Hval as ([count root] & Hch & Hval).
    apply guard_Ok in Hval as [Hcount%Z.leb_gt Hval]. destruct (chain_first _ _ _ _ Hch Hcount) as [Hnone ->].
    apply and_then_Ok in Hval as (e & ([= ->] & Hr)%guardian_expiry_Ok & Hval).
    apply or_err_Ok in Hval as (cur & _ & Hval). apply guard_Ok in Hval as [_ Hval].
    apply or_err_Ok in Hval as (cap & [-> _]%checked_add64_Some & Hval). apply guard_Ok in Hval as [Hcap%Z.ltb_ge _].
    apply guard_Ok in Hown as [Hog%negb_false_iff%bool_decide_eq_true _].
    destruct (Hlim _ _ Hold Hog) as (Hal & _). rewrite Htg, Hmo. split; [done|]. exists e. rewrite Hcr, Hsup.
    split_and!; try done; try lia. intros i [= <-]. exists (set_rr_status SSuperseded old).
    rewrite lookup_insert_ne, lookup_insert_eq by congruence. by split_and!.
Qed.

(** ** The distribution of fees *)

Definition fee_percents (c : FeeConfig) : list Z :=
  [fc_fee_burn_percent c; fc_fee_producer_percent c; fc_fee_voters_percent c; fc_fee_treasury_percent c;
   fc_fee_community_percent c].

(** [param_id] with [value] leaves the percentages [l] as they are. *)
Definition keeps_percents (l : list Z) (param_id value : Z) : Prop :=
  is_fee_distribution_param param_id = true -> l !! Z.to_nat (param_id - 1) = Some value.

Lemma distribution_sum c :
  FeeConfig_validate_distribution c = Ok tt -> Forall (fun v => v <= 100) (fee_percents c) /\ sumZ id (fee_percents c) = 100.
Proof.
  unfold FeeConfig_validate_distribution, fee_percents. rewrite and_then_Ok. intros ([] & Hf & Hs).
  apply guard_Ok in Hs as [Hs%negb_false_iff%Z.eqb_eq _].
  assert (Forall (fun v => v <= 100) (fee_percents c)) as Hall.
  { unfold fee_percents. cbn [try_fold and_then] in Hf. repeat match goal with
    | H : (match (if ?b then Err _ else Ok tt) with _ => _ end) = Ok tt |- _ => destruct b eqn:?; [done|]; cbn [and_then] in H
    | H : and_then (if ?b then _ else _) _ = Ok tt |- _ => destruct b eqn:?; [done|]; cbn [and_then] in H
    end. repeat constructor; by apply Z.ltb_ge. }
  split; [exact Hall|]. unfold fee_percents in Hall.
  repeat match goal with H : Forall _ (_ :: _) |- _ => apply Forall_cons in H as [? H] end.
  unfold sumZ, id in *. simpl. unfold sat_add64, u64_max in Hs. lia.
Qed.

Lemma is_fee_param_cases param_id :
  is_fee_distribution_param param_id = true ->
  param_id = 1 \/ param_id = 2 \/ param_id = 3 \/ param_id = 4 \/ param_id = 5.
Proof.
  unfold is_fee_distribution_param. rewrite bool_decide_eq_true, !elem_of_cons, elem_of_nil.
  unfold GOV_PARAM_FEE_BURN_PERCENT, GOV_PARAM_FEE_PRODUCER_PERCENT, GOV_PARAM_FEE_VOTERS_PERCENT,
    GOV_PARAM_FEE_TREASURY_PERCENT, GOV_PARAM_FEE_COMMUNITY_PERCENT. tauto.
Qed.

Lemma apply_param_percents param_id value c :
  fee_percents (FeeConfig_apply_governance_param param_id value c)
  = if is_fee_distribution_param param_id then <[Z.to_nat (param_id - 1) := value]> (fee_percents c) else fee_percents c.
Proof.
  destruct (is_fee_distribution_param param_id) eqn:Hp.
  - by apply is_fee_param_cases in Hp as [->|[->|[->|[->| ->]]]].
  - unfold is_fee_distribution_param in Hp. apply bool_decide_eq_false in Hp.
    repeat rewrite not_elem_of_cons in Hp. unfold FeeConfig_apply_governance_param.
    destruct Hp as (? & ? & ? & ? & ? & _).
    destruct (param_id =? GOV_PARAM_BASE_FEE); [done|]. by rewrite !(proj2 (Z.eqb_neq _ _)) by assumption.
Qed.

Lemma keeps_apply l param_id value c :
  keeps_percents l param_id value -> fee_percents c = l ->
  fee_percents (FeeConfig_apply_governance_param param_id value c) = l.
Proof.
  intros Hk Hc. rewrite apply_param_percents, Hc. destruct (is_fee_distribution_param param_id) eqn:Hp; [|done].
  apply list_insert_id, Hk. exact Hp.
Qed.

Definition pending_keeps (l : list Z) (pending : gmap Z Z) : Prop := map_Forall (keeps_percents l) pending.

Lemma apply_changes_percents l pending c :
  pending_keeps l pending -> fee_percents c = l -> fee_percents (apply_changes (pending_changes pending) c) = l.
Proof.
  intros Hp. assert (Forall (fun pv => keeps_percents l pv.1 pv.2) (pending_changes pending)) as Hall.
  { apply Forall_forall. intros [i v] (j & _ & Hv)%list_elem_of_omap.
    destruct (pending !! j) as [w|] eqn:Hw; [|done]. injection Hv as -> ->. exact (Hp _ _ Hw). }
  revert c. unfold apply_changes. induction Hall as [|pv changes Hpv _ IH]; intros c Hc; [done|]. cbn [foldl].
  apply IH. by apply keeps_apply.
Qed.

(** An accepted change of one percentage is no change. *)
Lemma param_change_keeps config pending param_id value :
  sumZ id (fee_percents config) = 100 -> pending_keeps (fee_percents config) pending ->
  validate_governance_param_change config pending param_id value = Ok tt ->
  keeps_percents (fee_percents config) param_id value.
Proof.
  intros Hsum Hpend. unfold validate_governance_param_change. rewrite and_then_Ok. intros (_ & _ & Hv) Hp.
  rewrite Hp in Hv. destruct (FeeConfig_validate_distribution _) as [[]|] eqn:Hd in Hv; [|done].
  apply distribution_sum in Hd as [_ Hd]. unfold projected_fee_config_for_governance_change in Hd.
  rewrite apply_param_percents, Hp, (apply_changes_percents _ _ _ Hpend eq_refl) in Hd.
  apply is_fee_param_cases in Hp as [->|[->|[->|[->| ->]]]]; cbv [fee_percents sumZ id foldr map fmap list_fmap Z.to_nat] in *; simpl in *; f_equal; lia.
Qed.

Definition action_keeps (l : list Z) (a : GovernanceAction) : Prop :=
  match a with ParamChange param_id value => keeps_percents l param_id value | _ => True end.

Lemma parse_param_validated `{Json} config pending ix p k i v :
  parse_governance_action config pending ix = Ok (p, k, ParamChange i v) ->
  validate_governance_param_change config pending i v = Ok tt.
Proof.
  unfold parse_governance_action. destruct (ix_accounts ix) as [|p0 [|k0 others]]; [done..|].
  destruct (ix_data ix) as [|o [|ty payload]]; [done..|]. rewrite and_then_Ok. intros (a' & Ha & [= <- <- ->]).
  assert (forall f, (forall c, f c <> Ok (ParamChange i v)) ->
    or_err (head others) ActionAccounts f <> Ok (ParamChange i v)) as Hthird.
  { intros f Hf (c & _ & Hc)%or_err_Ok. by apply (Hf c). }
  repeat case_match; try discriminate Ha; try (by apply Hthird in Ha; [done|]; clear; intros c Ha; repeat case_match;
    unfold parse_contract_call in *; repeat case_match;
    try discriminate Ha; repeat first [apply and_then_Ok in Ha as (? & _ & Ha)|apply or_err_Ok in Ha as (? & _ & Ha)]).
  all: try (unfold parse_lift_restriction_governance_action, parse_restrict_governance_action,
      parse_extend_restriction_governance_action in Ha;
    repeat first [apply and_then_Ok in Ha as ([? ?] & _ & Ha)|apply and_then_Ok in Ha as (? & _ & Ha)
                 |apply or_err_Ok in Ha as (? & _ & Ha)|apply guard_Ok in Ha as [_ Ha]]; discriminate Ha).
  apply and_then_Ok in Ha as ([] & Hv & [= <- <-]). exact Hv.
Qed.

(** ** Runs from a fresh state *)

Definition fresh_governance (s : GovernanceState) : Prop :=
  gv_restrictions s = begin_batch empty_db /\ gv_proposals s = ∅ /\ gv_counter s = 0 /\ gv_events s = []
  /\ gv_pending s = ∅.

Lemma fresh_base s : fresh_governance s -> governance_base s.
Proof.
  intros (Hr & Hp & _). split; [rewrite Hr; apply restrictions_inv_empty|rewrite Hp; apply map_Forall_empty].
Qed.

Lemma fresh_records s : fresh_governance s -> gv_records s = ∅.
Proof. intros (Hr & _). unfold gv_records. by rewrite Hr. Qed.

Section safety.
Context `{Crypto} `{ContractCodec} `{Json}.
Variable blocked : GovernanceState -> GovEnv -> Pubkey -> TransferDirection -> Z -> Z -> bool.
Variable contract_action :
  GovernanceEnv -> Pubkey -> GovernanceAction -> GovernanceState -> result GovernanceState GovernanceError.
Hypothesis runtime_keeps : contract_action_keeps contract_action.

Abbreviation run := (governance_run blocked contract_action).

Lemma step_kind_history env op s s' : step_kind env op s s' -> history (gv_records s) (gv_records s').
Proof using Type.
  unfold gv_records. destruct 1 as [_ _ [-> _ _ _]|k i v _ _ _ _ [-> _ _ _]|_ [-> _ _ _]|p p' _ _ Ha _ _]; [done..|].
  destruct Ha as [-> _ _|actor _ _ _ Hs _ _]; [done|by eapply records_step_history].
Qed.

(** What a step does to the records, when the records are all that matters. *)
Lemma step_kind_records env op s s' :
  step_kind env op s s' ->
  gv_records s' = gv_records s
  \/ exists p, validate_governance_proposal_restriction_policy env p s = Ok tt
      /\ records_step (gn_slot env) p (gv_records s) (gv_records s').
Proof using Type.
  unfold gv_records. destruct 1 as [_ _ [-> _ _ _]|k i v _ _ _ _ [-> _ _ _]|_ [-> _ _ _]|p p' _ _ Ha _ _]; [by left..|].
  destruct Ha as [-> _ _|actor _ Hp _ Hs _ _]; [by left|right; by exists p].
Qed.

Lemma run_base ops s0 : governance_base s0 -> Forall governance_op_typed ops -> governance_base (run ops s0).
Proof using runtime_keeps.
  intros Hb Hty. by apply (governance_run_ind blocked contract_action (fun _ _ => True) s0).
Qed.

Lemma run_history ops s0 :
  governance_base s0 -> Forall governance_op_typed ops -> history (gv_records s0) (gv_records (run ops s0)).
Proof using runtime_keeps.
  intros Hb Hty. apply (governance_run_ind blocked contract_action (fun _ s => history (gv_records s0) (gv_records s)) s0); try done.
  intros ops' o s _ _ Hh Hk. etrans; [exact Hh|by eapply step_kind_history].
Qed.

Lemma run_terminations ops s0 :
  fresh_governance s0 -> Forall governance_op_typed ops -> terminations_open (gv_records (run ops s0)).
Proof using runtime_keeps.
  intros Hf Hty.
  apply (governance_run_ind blocked contract_action (fun _ s => terminations_open (gv_records s)) s0); try done.
  - by apply fresh_base.
  - rewrite fresh_records by done. apply map_Forall_empty.
  - intros ops' o s _ _ Ht [->|(p & _ & Hs)]%step_kind_records; [done|by eapply records_step_terminations].
Qed.

(** C14.  The history of restrictions is append-only, and a termination is for ever.  Over any
    sequence of proposals, approvals, executions, cancellations, parameter changes, epochs and
    commits, no record disappears or changes its target, mode, expiry or approval authority:
    an active record can be lifted or superseded once, everything else stays as it is.  And
    once a termination of a contract is in force, the contract is restricted at every later
    point of the run, for every kind of access and at every slot: no governance action lifts,
    extends or outlives it. *)
Theorem terminations_permanent ops later s0 contract slot r :
  fresh_governance s0 -> Forall governance_op_typed (ops ++ later) ->
  let s := run ops s0 in
  let s' := run later s in
  history (gv_records s) (gv_records s')
  /\ (in_force (gv_records s) slot (TContract contract) r -> rr_mode r = Terminated ->
      forall slot' access, is_contract_restricted (batch_view (gv_restrictions s')) contract access slot' = true).
Proof using runtime_keeps.
  intros Hf [Hty Htl]%Forall_app s s'. pose proof (run_base ops s0 (fresh_base _ Hf) Hty) as Hb.
  pose proof (run_history later s Hb Htl) as Hh. split; [exact Hh|]. intros (id & Hr & Ht & Ha) Hm slot' access.
  destruct (ri_records_ok _ (gb_restrictions _ Hb) _ _ Hr) as (_ & [_ Htt] & _). rewrite Ht in Htt.
  pose proof (run_terminations ops s0 Hf Hty id r Hr Hm) as He. apply effective_active in Ha.
  destruct (Hh id r Hr) as (r' & Hr' & Hfol). destruct Hfol as (_ & _ & _ & _ & _ & _ & _ & [->|(_ & ? & _)]); [|done].
  destruct (ri_batch _ (gb_restrictions _ (run_base later s Hb Htl))) as [c Hc].
  apply (blocked_spec _ _ (batch_view_ok _ _ _ Hc)); [done|]. exists r. split.
  - exists id. split_and!; [done..|]. unfold effective_status. by rewrite Ha, He.
  - unfold contract_record_blocks. by rewrite Hm.
Qed.
(** The guardian is [g], a governed wallet. *)
Definition guardian_is (g : Pubkey) (o : GovernanceEnv * GovernanceOp) : Prop :=
  gn_incident_guardian o.1 = Some g /\ is_some (gn_config o.1 g) = true.

(** C15.  The incident guardian is bounded: while [g] is the guardian, every restriction that
    came into being with its approval, in any sequence of governance operations and whoever
    proposed it, is of a kind the guardian may impose, expires at most 648000 slots after it
    was created, extends at most one earlier restriction of the guardian with the same target
    and mode that itself extends none, and then expires at most 1296000 slots after that one
    was created.  The check runs when a proposal executes, not only when it is made, so a
    proposal that waits does not gain time. *)
Theorem guardian_cannot_exceed g ops s0 :
  fresh_governance s0 -> Forall governance_op_typed ops -> Forall (guardian_is g) ops ->
  guardian_limits g (gv_records (run ops s0)).
Proof using runtime_keeps.
  intros Hf Hty Hg. cut (Forall (guardian_is g) ops -> guardian_limits g (gv_records (run ops s0))); [by intros Hx; apply Hx|].
  apply (governance_run_ind blocked contract_action
    (fun ops s => Forall (guardian_is g) ops -> guardian_limits g (gv_records s)) s0); try done.
  - by apply fresh_base.
  - rewrite fresh_records by done. intros _. apply map_Forall_empty.
  - intros ops' o s _ _ Hlim Hk [Hg' [Hgu Hco]%Forall_singleton]%Forall_app. specialize (Hlim Hg').
    apply step_kind_records in Hk as [->|(p & Hpol & Hs)]; [done|]. eapply records_step_guardian; [|exact Hlim|exact Hs].
    intros Hap. unfold validate_governance_proposal_restriction_policy, get_governed_incident_guardian_authority, with_config in Hpol.
    rewrite Hgu in Hpol. destruct (gn_config o.1 g); [|done]. by rewrite bool_decide_eq_true_2 in Hpol.
Qed.
(** The governance authority is a governed wallet. *)
Definition governance_is_governed (o : GovernanceEnv * GovernanceOp) : Prop :=
  exists k config, gn_governance_authority o.1 = Some k /\ gn_config o.1 k = Some config.

Record fees_frozen (l : list Z) (s : GovernanceState) : Prop := {
  ff_config : fee_percents (gv_config s) = l;
  ff_pending : pending_keeps l (gv_pending s);
  ff_proposals : map_Forall (fun _ p => action_keeps l (pr_action p)) (gv_proposals s);
}.

Lemma origin_keeps l env op s p c :
  sumZ id l = 100 -> fees_frozen l s -> proposal_origin env s op p c -> action_keeps l (pr_action p).
Proof using Type.
  intros Hsum [Hc Hpe Hpr]. destruct 1 as [ix proposer requested a authority approval config policy Hpa _ _ _ id
    |ix p approver config _ Hp _ _ _ _ _|ix p Hp _ _|ix p Hp _ _]; [|exact (Hpr _ _ Hp)..].
  destruct a; try done. cbn [pr_action action_keeps]. apply parse_param_validated in Hpa.
  subst l. by eapply param_change_keeps.
Qed.

Lemma step_kind_fees l o s s' :
  sumZ id l = 100 -> governance_is_governed o -> step_kind o.1 o.2 s s' -> fees_frozen l s -> fees_frozen l s'.
Proof using Type.
  intros Hsum (k & config & Hk & Hcfg) Hkind Hff. pose proof Hff as [Hc Hpe Hpr].
  destruct Hkind as [Ec Ep [_ Eq _ _]|k' i v Hk' Hn _ _ _|Happ [_ Eq _ _]|p p' Hor _ Hat Hps Ec].
  - split; by rewrite ?Ec, ?Ep, ?Eq.
  - congruence.
  - apply apply_pending_Ok in Happ as (_ & _ & _ & _ & Hcf & Hpd). split.
    + destruct Hcf as [->| ->]; [done|by apply apply_changes_percents].
    + destruct Hpd as [->| ->]; [apply map_Forall_empty|done].
    + by rewrite Eq.
  - pose proof (origin_keeps l _ _ _ _ _ Hsum Hff Hor) as Hka. split.
    + by rewrite Ec.
    + destruct Hat as [_ Hp _|actor _ _ _ _ Hp _]; rewrite Hp; [done|].
      destruct (pr_action p); try done. by apply map_Forall_insert_2.
    + rewrite Hps. apply attempt_action in Hat as (_ & Ha & _). apply map_Forall_insert_2; [by rewrite Ha|done].
Qed.

(** Once the governance authority is a governed wallet, as the genesis builder makes it,
    the division of fees between burning, producer, voters, treasury and community can not be
    changed: parameter changes must then go through proposals, each proposal changes one
    percentage, and a proposal is only accepted when the five percentages sum to one hundred
    after it, so over any sequence of proposals, approvals, executions and epochs every
    percentage stays what it was.  (Without a governed wallet the direct instruction accepts
    several changes in one transaction and checks their sum at its end.) *)
Theorem governed_fee_split_frozen ops s0 :
  fresh_governance s0 -> FeeConfig_validate_distribution (gv_config s0) = Ok tt ->
  Forall governance_op_typed ops -> Forall governance_is_governed ops ->
  fee_percents (gv_config (run ops s0)) = fee_percents (gv_config s0).
Proof using runtime_keeps.
  intros Hf [_ Hsum]%distribution_sum Hty Hg. set (l := fee_percents (gv_config s0)) in *.
  cut (Forall governance_is_governed ops -> fees_frozen l (run ops s0)); [by intros [] |].
  apply (governance_run_ind blocked contract_action
    (fun ops s => Forall governance_is_governed ops -> fees_frozen l s) s0); try done.
  - by apply fresh_base.
  - intros _. destruct Hf as (_ & Hp & _ & _ & Hpe). split; [done|rewrite Hpe; apply map_Forall_empty|rewrite Hp; apply map_Forall_empty].
  - intros ops' o s _ _ Hff Hk [Hg' Ho]%Forall_app. rewrite Forall_singleton in Ho. by eapply step_kind_fees, Hff.
Qed.
(** ** Proposals *)

(** The operation [o] records the approval of [p] by [a], a signer of its approval authority. *)
Definition approves_action (o : GovernanceEnv * GovernanceOp) (p : GovernanceProposal) (a : Pubkey) : Prop :=
  (exists config, gn_config o.1 (proposal_approval_authority p) = Some config /\ is_authorized a config = true)
  /\ match o.2 with
     | NPropose ix => head (ix_accounts ix) = Some a
     | NApprove ix => head (ix_accounts ix) = Some a /\ u64_at (ix_data ix) 1 = pr_id p
     | _ => False
     end.

(** The operation [o] proposed [p]: its action is what the instruction says, and its threshold
    and timelock are those of the wallet that approves it. *)
Definition proposes (o : GovernanceEnv * GovernanceOp) (p : GovernanceProposal) : Prop :=
  exists ix config fees pending requested,
    o.2 = NPropose ix /\ parse_governance_action fees pending ix = Ok (pr_proposer p, requested, pr_action p)
    /\ gn_config o.1 (proposal_approval_authority p) = Some config
    /\ governance_execution_policy o.1 (pr_action p) (pr_authority p) (pr_approval_authority p) config
       = Ok (mkExecutionPolicy (pr_threshold p) (pr_execute_after_epoch p) (pr_velocity_tier p) (pr_daily_cap_spores p)).

Definition action_backed (ops : list (GovernanceEnv * GovernanceOp)) (p : GovernanceProposal) : Prop :=
  NoDup (pr_approvals p)
  /\ (forall a, a ∈ pr_approvals p -> exists o, o ∈ ops /\ approves_action o p a)
  /\ exists o, o ∈ ops /\ proposes o p.

Definition performed_rightly (s : GovernanceState) (e : GovernanceEvent) : Prop :=
  let p := ev_proposal e in
  gv_proposals s !! pr_id p = Some p /\ pr_executed p = true /\ pr_cancelled p = false
  /\ pr_threshold p <= Z.of_nat (length (pr_approvals p)) /\ pr_execute_after_epoch p <= slot_to_epoch (ev_slot e).

Definition executed_ids (s : GovernanceState) : list Z := (fun e => pr_id (ev_proposal e)) <$> executions_of (gv_events s).

Record proposals_inv (ops : list (GovernanceEnv * GovernanceOp)) (s : GovernanceState) : Prop := {
  pi_counter : 0 <= gv_counter s <= Z.of_nat (length ops);
  pi_ids id p : gv_proposals s !! id = Some p -> pr_id p = id /\ 1 <= id <= gv_counter s;
  pi_backed id p : gv_proposals s !! id = Some p -> action_backed ops p;
  pi_executed : Forall (performed_rightly s) (executions_of (gv_events s));
  pi_once : NoDup (executed_ids s);
}.

Lemma action_backed_mono ops o p : action_backed ops p -> action_backed (ops ++ [o]) p.
Proof using Type.
  intros (? & Ha & (o' & ? & ?)). split_and!; [done| |exists o'; split; [by apply elem_of_app; left|done]].
  intros a (o1 & ? & ?)%Ha. exists o1. split; [by apply elem_of_app; left|done].
Qed.

Lemma with_config_Some env k k' c : with_config env k = Some (k', c) -> gn_config env k' = Some c.
Proof using Type. unfold with_config. destruct k as [x|]; [|done]. destruct (gn_config env x) eqn:Hx; [|done]. by intros [= <- <-]. Qed.

Lemma committee_Some env configured label k c : committee env configured label = Some (k, c) -> gn_config env k = Some c.
Proof using Type.
  unfold committee. destruct (with_config env configured) as [[k' c']|] eqn:Hw.
  - intros [= <- <-]. by eapply with_config_Some.
  - destruct (gn_governance_authority env) as [g|]; [|done]. apply with_config_Some.
Qed.

Lemma require_committee_Ok env requested governance_authority configured label authority approval config :
  require_committee requested governance_authority (committee env configured label) = Ok (authority, approval, config) ->
  gn_config env (default authority approval) = Some config.
Proof using Type.
  unfold require_committee. intros ([k c] & Hc & Hr)%or_err_Ok. apply guard_Ok in Hr as [_ [= <- <- <-]].
  by eapply committee_Some.
Qed.

Lemma resolve_restriction_config env requested a ga gc b authority approval config :
  gn_config env ga = Some gc ->
  resolve_restriction_governance_proposal_authority env requested a ga gc b = Ok (authority, approval, config) ->
  gn_config env (default authority approval) = Some config.
Proof using Type.
  intros Hga. unfold resolve_restriction_governance_proposal_authority.
  assert (forall id, and_then (resolve_stored_restriction_approval_authority env requested id b) (fun found =>
      match found with
      | Some (approval_authority, config) => Ok (ga, Some approval_authority, config)
      | None => Err AuthorityMismatch
      end) = Ok (authority, approval, config) -> gn_config env (default authority approval) = Some config) as Hstored.
  { intros id ([[k c]|] & Hr & Hk)%and_then_Ok; [|done]. injection Hk as <- <- <-.
    unfold resolve_stored_restriction_approval_authority in Hr. repeat case_match; try done.
    by apply or_err_Ok in Hr as (c' & ? & [= <- <-]). }
  set (otherwise := match a with Restrict _ _ _ _ _ _ => _ | _ => _ end).
  assert (otherwise = Ok (authority, approval, config) -> gn_config env (default authority approval) = Some config) as Hother.
  { unfold otherwise. destruct a; try done; [|exact (Hstored _)..]. unfold restriction_create_split_authority.
    destruct target as [| | | | | |[]]; try done;
      match goal with |- context [match ?c with Some _ => _ | None => _ end] => destruct c as [[k c']|] eqn:Hc; [|done] end;
      (destruct (requested =? k); [|done]); intros [= <- <- <-]; by eapply committee_Some. }
  destruct (requested =? ga); [by intros [= <- <- <-]|].
  destruct (get_governed_incident_guardian_authority env) as [[g c]|] eqn:Hg; [|exact Hother].
  destruct (requested =? g); [|exact Hother]. intros (_ & _ & [= <- <- <-])%and_then_Ok. by eapply with_config_Some.
Qed.

(** The configuration a proposal is held to is that of the wallet that approves it. *)
Lemma resolve_config env requested a b authority approval config :
  resolve_governance_proposal_authority env requested a b = Ok (authority, approval, config) ->
  gn_config env (default authority approval) = Some config.
Proof using Type.
  unfold resolve_governance_proposal_authority. intros ([ga gc] & Hg%with_config_Some & Hr)%or_err_Ok.
  repeat (match type of Hr with (if ?c then _ else _) = _ =>
    destruct c; [by eapply require_committee_Ok|] end).
  destruct a; try (by eapply resolve_restriction_config);
    repeat (match type of Hr with (if ?c then require_committee _ _ _ else _) = _ =>
      destruct c; [by eapply require_committee_Ok|] end);
    (match type of Hr with (if ?c then _ else _) = _ => destruct c; [by injection Hr as <- <- <-|] end);
    apply and_then_Ok in Hr as (imm & _ & Hr);
    destruct (get_governed_incident_guardian_authority env) as [[g c]|] eqn:Hgu; try done;
    destruct (requested =? g), imm; try done; injection Hr as <- <- <-; by eapply with_config_Some.
Qed.
(** The proposal a step works on: not executed, known to the state as such or new, with a
    known number and backed by the operations so far. *)
Lemma proposal_origin_facts ops env op s p c :
  proposals_inv ops s -> Z.of_nat (length ops) < u64_max -> proposal_origin env s op p c ->
  pr_executed p = false /\ from_option pr_executed false (gv_proposals s !! pr_id p) = false
  /\ gv_counter s <= c <= Z.of_nat (length ops) + 1 /\ 1 <= pr_id p <= c
  /\ action_backed (ops ++ [(env, op)]) p.
Proof using Type.
  clear runtime_keeps contract_action blocked. intros [Hcnt Hids Hb _ _] Hlen.
  destruct 1 as [ix proposer requested a authority approval config policy Hpa Hres Hau Hpol id
    |ix p approver config Hacc Hp He Hc Hcfg Hau Hn|ix p Hp He Hc|ix p Hp He Hc].
  - unfold id. rewrite (wrap_small 64) by (unfold u64_max in *; lia). cbn [pr_id pr_executed].
    assert (gv_proposals s !! (gv_counter s + 1) = None) as ->.
    { destruct (gv_proposals s !! _) as [q|] eqn:Hq; [|done]. apply Hids in Hq. lia. }
    split_and!; try done; try lia. apply resolve_config in Hres. split_and!; cbn [pr_approvals].
    + apply NoDup_singleton.
    + intros x ->%list_elem_of_singleton. exists (env, NPropose ix).
      split; [apply elem_of_app; right; constructor|]. split; [by exists config|]. simpl.
      unfold parse_governance_action in Hpa. destruct (ix_accounts ix) as [|p0 [|k0 others]]; try done.
      destruct (ix_data ix) as [|o [|ty payload]]; [done..|]. by apply and_then_Ok in Hpa as (? & _ & [= <- _ _]).
    + exists (env, NPropose ix). split; [apply elem_of_app; right; constructor|].
      exists ix, config, (gv_config s), (gv_pending s), requested.
      cbn [pr_action pr_proposer pr_authority pr_approval_authority proposal_approval_authority pr_threshold
        pr_execute_after_epoch pr_velocity_tier pr_daily_cap_spores fst snd]. split_and!; try done.
      rewrite Hpol. by destruct policy.
  - destruct (Hids _ _ Hp) as [Hid Hr]. destruct (action_backed_mono _ (env, NApprove ix) p (Hb _ _ Hp)) as (Hnd & Ha & Hpo).
    cbn [pr_id pr_executed set_pr_approvals]. rewrite Hid, Hp. simpl. split_and!; try done; try lia.
    split_and!; cbn [pr_approvals set_pr_approvals].
    + apply NoDup_app. split_and!; [done|intros x Hx ->%list_elem_of_singleton; done|apply NoDup_singleton].
    + intros a [Hin| ->%list_elem_of_singleton]%elem_of_app; [by apply Ha|].
      exists (env, NApprove ix). split; [apply elem_of_app; right; constructor|].
      split; [by exists config|]. simpl. by rewrite Hid.
    + exact Hpo.
  - destruct (Hids _ _ Hp) as [Hid Hr]. rewrite Hid, Hp. simpl. split_and!; try done; try lia.
    by eapply action_backed_mono, Hb.
  - destruct (Hids _ _ Hp) as [Hid Hr]. cbn [pr_id pr_executed set_pr_cancelled]. rewrite Hid, Hp. simpl.
    split_and!; try done; try lia. exact (action_backed_mono _ (env, NCancel ix) p (Hb _ _ Hp)).
Qed.

Lemma proposals_inv_quiet ops o s s' : quiet s s' -> proposals_inv ops s -> proposals_inv (ops ++ [o]) s'.
Proof using Type.
  clear runtime_keeps contract_action blocked. intros [_ Ep Ec Ee] [Hcnt Hids Hb Hex Honce]. split; unfold executed_ids in *; rewrite ?Ep, ?Ec, ?Ee; try done.
  - rewrite length_app. simpl. lia.
  - intros id q Hq. eapply action_backed_mono, Hb. exact Hq.
  - eapply Forall_impl; [exact Hex|]. unfold performed_rightly. by rewrite Ep.
Qed.

Lemma proposals_inv_step ops o s s' p p' :
  proposals_inv ops s -> Z.of_nat (length ops) < u64_max ->
  proposal_origin o.1 s o.2 p (gv_counter s') -> governance_attempt o.1 p s s' p' ->
  gv_proposals s' = <[pr_id p := p']> (gv_proposals s) -> proposals_inv (ops ++ [o]) s'.
Proof using Type.
  clear runtime_keeps contract_action blocked. intros Hinv Hlen Hor Hat Hps. destruct o as [env op]. cbn [fst snd] in *.
  destruct (proposal_origin_facts _ _ _ _ _ _ Hinv Hlen Hor) as (He & Hold & Hc & Hid & Hbk).
  destruct Hinv as [Hcnt Hids Hb Hex Honce]. pose proof (attempt_action _ _ _ _ _ Hat) as (Eid & Eact & Eap & Eca).
  assert (Forall (performed_rightly s') (executions_of (gv_events s))) as Hex'.
  { eapply Forall_impl; [exact Hex|]. intros e (Hl & Hxe & Hrest). split; [|done]. rewrite Hps.
    rewrite lookup_insert_ne; [done|]. intros Heq. by rewrite Heq, Hl in Hold; simpl in Hold; rewrite Hxe in Hold. }
  split.
  - rewrite length_app. simpl. lia.
  - intros id q. rewrite Hps. destruct (decide (id = pr_id p)) as [->|Hne].
    + rewrite lookup_insert_eq. intros [= <-]. split; [done|lia].
    + rewrite lookup_insert_ne by done. intros Hq%Hids. split; [tauto|lia].
  - intros id q. rewrite Hps. destruct (decide (id = pr_id p)) as [->|Hne].
    + rewrite lookup_insert_eq. intros [= <-]. destruct Hat; exact Hbk.
    + rewrite lookup_insert_ne by done. intros Hq%Hb. by apply action_backed_mono.
  - destruct Hat as [_ _ ->|actor Hr _ _ _ _ ->]; [done|]. apply Forall_app. split; [done|]. apply Forall_singleton.
    unfold is_ready in Hr. apply andb_true_iff in Hr as [[[_ Hca]%andb_true_iff Ht%Z.leb_le]%andb_true_iff Hep%Z.leb_le].
    cbn [performed_rightly ev_proposal]. split_and!; try done; [by rewrite Hps, lookup_insert_eq|by apply negb_true_iff].
  - unfold executed_ids in *. destruct Hat as [_ _ ->|actor Hr _ _ _ _ ->]; [done|]. rewrite fmap_app. apply NoDup_app.
    split_and!; [done| |apply NoDup_singleton]. intros id (e & -> & He')%list_elem_of_fmap Hin.
    cbn [fmap list_fmap ev_proposal] in Hin. apply list_elem_of_singleton in Hin.
    rewrite Forall_forall in Hex. destruct (Hex _ He') as (Hl & Hxe & _).
    change (pr_id (set_pr_executed true p)) with (pr_id p) in Hin. rewrite Hin in Hl. rewrite Hl in Hold. simpl in Hold. congruence.
Qed.

(** C16.  A governance action is performed at most once and never without its approvals.  After
    any sequence of operations, with authorities, wallet configurations and slots that may
    change between any two of them, the reported executions are of different proposals, and
    each is of a proposal that was not cancelled, that waited for its timelock, and that at
    least its threshold of different accounts approved, each a signer of the approving wallet
    when it proposed or approved; its action is the one the proposing instruction encodes,
    and threshold and timelock are those the policy of the approving wallet asked for then. *)
Theorem proposals_execute_once ops s0 :
  fresh_governance s0 -> Forall governance_op_typed ops -> Z.of_nat (length ops) <= u64_max ->
  let s := run ops s0 in
  NoDup (executed_ids s)
  /\ Forall (fun e => performed_rightly s e /\ action_backed ops (ev_proposal e)) (executions_of (gv_events s)).
Proof using runtime_keeps.
  intros Hf Hty Hlen s. assert (proposals_inv ops s) as [_ _ Hb Hex Honce].
  { cut (Z.of_nat (length ops) <= u64_max -> proposals_inv ops (run ops s0)); [by intros Hx; apply Hx|].
    apply (governance_run_ind blocked contract_action
      (fun ops s => Z.of_nat (length ops) <= u64_max -> proposals_inv ops s) s0); try done.
    - by apply fresh_base.
    - intros _. destruct Hf as (_ & Hp & Hc & He & _). split; unfold executed_ids; rewrite ?Hp, ?Hc, ?He; try done; constructor.
    - intros ops' o s1 _ _ Hinv Hk Hl. rewrite length_app in Hl. simpl in Hl. specialize (Hinv ltac:(lia)).
      destruct Hk as [_ _ Hq|k i v _ _ _ _ Hq|_ Hq|p p' Hor _ Hat Hps _]; [by eapply proposals_inv_quiet..|].
      eapply proposals_inv_step; try done. lia. }
  split; [done|]. eapply Forall_impl; [exact Hex|]. intros e He. split; [done|]. destruct He as [Hl _]. by eapply Hb.
Qed.
End safety.

(** ** A sample chain

    The governance wallet 7 with three signers, two of which must approve, and the incident
    guardian 8 with one; contract 9 is deployed. *)

Module SampleGovernance.
#[local] Instance sample_crypto : Crypto := Toy.crypto.
#[local] Instance no_json : Json := {| json_symbol_payload := fun _ => None; json_abi := fun _ => None |}.
#[local] Instance one_contract : ContractCodec :=
  {| contract_bytes := fun _ => Some []; contract_of_bytes := fun _ => Some (ContractAccount_new None [] 0) |}.

Definition wallets : gmap Pubkey GovernedWalletConfig :=
  {[7 := mkGovernedWalletConfig 2 [11; 12; 13] [] 0 None; 8 := mkGovernedWalletConfig 1 [14] [] 0 None]}.
Definition env (slot : Z) : GovernanceEnv :=
  mkGovernanceEnv (mkGovEnv wallets slot None None None) (Some 7) None (Some 8) None None None None
    (fun _ => None) (fun _ => None).
Definition s0 : GovernanceState :=
  mkGovernanceState (mkGovernedState {[9 := mkAccount 0 0 0 0 [] None 1 true 0 false 0]} ∅ 0 ∅ ∅) ∅ 0
    (begin_batch empty_db) FeeConfig_default_from_constants ∅ None None [].

Definition free (_ : GovernanceState) (_ : GovEnv) (_ : Pubkey) (_ : TransferDirection) (_ _ : Z) : bool := false.
(** A runtime in which contract actions do nothing. *)
Definition idle (_ : GovernanceEnv) (_ : Pubkey) (_ : GovernanceAction) (s : GovernanceState)
  : result GovernanceState GovernanceError := Ok s.
Lemma idle_keeps : contract_action_keeps idle.
Proof. intros e k a s s' [= <-]. done. Qed.

Definition data_of (a : GovernanceAction) : bytes := match build_action a with Ok data => data | Err _ => [] end.
Definition propose (slot signer authority : Z) (a : GovernanceAction) : GovernanceEnv * GovernanceOp :=
  (env slot, NPropose (mkInstruction SYSTEM_PROGRAM_ID [signer; authority] (data_of a))).
Definition approve (slot signer id : Z) : GovernanceEnv * GovernanceOp :=
  (env slot, NApprove (mkInstruction SYSTEM_PROGRAM_ID [signer] (35 :: le_bytes 8 id))).
Definition set_param (slot signer param_id value : Z) : GovernanceEnv * GovernanceOp :=
  (env slot, NPropose (mkInstruction SYSTEM_PROGRAM_ID [signer; 7] ([34; 1; param_id] ++ le_bytes 8 value))).

Definition terminate : GovernanceAction := Restrict (TContract 9) Terminated TestnetDrill None None None.
Definition freeze : GovernanceAction := Restrict (TAccount 5) OutgoingOnly TestnetDrill None None (Some 600000).
Definition ops : list (GovernanceEnv * GovernanceOp) :=
  [propose 10 11 7 terminate; approve 11 11 1; approve 12 12 1; (env 12, NCommit);
   propose 20 14 8 freeze; propose 300000 14 8 (ExtendRestriction 2 (Some 900000) None);
   propose 400000 14 8 (ExtendRestriction 3 (Some 1000000) None)].
Definition later : list (GovernanceEnv * GovernanceOp) :=
  [propose 500000 12 7 (LiftRestriction 1 GovernanceOverride); approve 500000 13 4;
   set_param 500001 11 GOV_PARAM_FEE_BURN_PERCENT 50; set_param 500001 11 GOV_PARAM_BASE_FEE 2000000;
   approve 500002 12 5; (env 864000, NEpoch)].

Lemma fresh_s0 : fresh_governance s0.
Proof. by split_and!. Qed.
Lemma all_typed : Forall governance_op_typed (ops ++ later).
Proof.
  assert (Forall (fun o => match o.2 with NPropose ix => Forall (fun b => 0 <= b < 256) (ix_data ix) | _ => True end)
    (ops ++ later)) as Hall; [|exact Hall].
  apply Forall_forall. intros o Ho. assert (forallb (fun o => match o.2 with
    | NPropose ix => bool_decide (Forall (fun b => 0 <= b < 256) (ix_data ix)) | _ => true end) (ops ++ later) = true) as Hf
    by (vm_compute; reflexivity).
  rewrite List.forallb_forall in Hf. specialize (Hf o (proj1 (list_elem_of_In _ _) Ho)).
  destruct o.2; try done. by apply bool_decide_eq_true in Hf.
Qed.

Definition s1 : GovernanceState := governance_run free idle ops s0.
Definition s2 : GovernanceState := governance_run free idle later s1.
Lemma s2_run : s2 = governance_run free idle (ops ++ later) s0.
Proof. unfold s2, s1, governance_run. by rewrite foldl_app. Qed.
Lemma constant_envs (P : GovernanceEnv * GovernanceOp -> Prop) :
  (forall slot op, P (env slot, op)) -> Forall P (ops ++ later).
Proof. intros HP. repeat (apply List.Forall_cons; [apply HP|]). apply List.Forall_nil. Qed.

Lemma terminations_permanent_witness :
  (exists r, in_force (gv_records s1) 12 (TContract 9) r /\ rr_mode r = Terminated)
  /\ is_contract_restricted (batch_view (gv_restrictions s2)) 9 ReadOnly 99999999 = true.
Proof.
  destruct (gv_records s1 !! 1) as [r|] eqn:Hr; [|vm_compute in Hr; discriminate Hr].
  assert (in_force (gv_records s1) 12 (TContract 9) r /\ rr_mode r = Terminated) as [Hin Hm].
  { vm_compute in Hr. injection Hr as <-. split; [exists 1; split_and!; vm_compute; reflexivity|reflexivity]. }
  split; [exists r; exact (conj Hin Hm)|].
  exact (proj2 (terminations_permanent free idle idle_keeps ops later s0 9 12 r fresh_s0 all_typed) Hin Hm 99999999 ReadOnly).
Defined.

Lemma guardian_cannot_exceed_witness :
  (exists r, gv_records s2 !! 3 = Some r /\ rr_approval_authority r = Some 8 /\ rr_expires_at_slot r = Some 900000)
  /\ gv_records s2 !! 4 = None /\ guardian_limits 8 (gv_records s2).
Proof.
  split; [eexists; split_and!; vm_compute; reflexivity|]. split; [vm_compute; reflexivity|].
  rewrite s2_run. apply (guardian_cannot_exceed free idle idle_keeps 8 (ops ++ later) s0 fresh_s0 all_typed).
  apply constant_envs. intros slot op. split; reflexivity.
Defined.

Lemma governed_fee_split_frozen_witness :
  fc_base_fee (gv_config s2) = 2000000 /\ fee_percents (gv_config s2) = [40; 30; 10; 10; 10].
Proof.
  split; [vm_compute; reflexivity|]. rewrite s2_run.
  apply (governed_fee_split_frozen free idle idle_keeps (ops ++ later) s0 fresh_s0 ltac:(vm_compute; reflexivity) all_typed).
  apply constant_envs. intros slot op. exists 7. eexists. split; reflexivity.
Defined.

Lemma proposals_execute_once_witness :
  executed_ids s2 = [1; 2; 3; 5] /\ NoDup (executed_ids s2).
Proof.
  split; [vm_compute; reflexivity|]. rewrite s2_run.
  exact (proj1 (proposals_execute_once free idle idle_keeps (ops ++ later) s0 fresh_s0 all_typed ltac:(vm_compute; congruence))).
Defined.
End SampleGovernance.
