(* ===== verification/Oracle.v ===== *)
(** * The consensus price oracle

    Models the price attestations of validators: the instruction
    ([core/src/processor/governance_oracle.rs], opcode 30), the records and the prefix scan
    over them ([core/src/state/stats_metadata.rs], [core/src/state/batch_state.rs]), the quorum
    and the stake-weighted median ([core/src/processor.rs]), and the effects a committed block
    stages ([stage_committed_oracle_attestation_effects] of [validator/src/main.rs]).

    - the records of [CF_STATS] under [oracle_att_] and [oracle_price_] are the two maps of
      [OracleStore]; [serde_json] gives back the record it was given;
    - a key is its bytes, so that the scan of one asset sees what the code's scan sees. *)

From S2P Require Import Prelude Crypto Block Stake Pool Fees Transactions Transfers Processor Commit Restrictions.
From stdpp Require Import base tactics numbers list gmap strings sorting.
From Stdlib Require Import ZArith Lia.

Local Open Scope Z_scope.
Local Open Scope rust_scope.

Definition ORACLE_ASSET_MIN_LEN : Z := 1.
Definition ORACLE_ASSET_MAX_LEN : Z := 16.
Definition ORACLE_PRICE_DECIMALS : Z := 8.
Definition ORACLE_STALENESS_SLOTS : Z := 750.

Record OracleAttestation := mkOracleAttestation {
  oa_validator : Pubkey;
  oa_price : Z;
  oa_decimals : Z;
  oa_stake : Z;
  oa_slot : Z;
}.

Record OracleConsensusPrice := mkOracleConsensusPrice {
  op_asset : bytes;
  op_price : Z;
  op_decimals : Z;
  op_slot : Z;
  op_attestation_count : Z;
}.

Record OracleStore := mkOracleStore {
  os_attestations : gmap bytes OracleAttestation;
  os_prices : gmap bytes OracleConsensusPrice;
}.

Inductive OracleError :=
| OracleData
| OracleAssetLength
| OracleAssetUtf8
| OracleZeroPrice
| OracleDecimals
| OracleAccounts
| OracleNoStake
| OracleInactive.

(** ** Quorum and median *)

Definition checked_mul128 (a b : Z) : option Z := if a * b <=? u128_max then Some (a * b) else None.

Definition oracle_stake_quorum_reached (attested_stake total_active_stake : Z) : bool :=
  (0 <? total_active_stake)
  && match checked_mul128 attested_stake 3 with
     | Some weighted => sat_mul128 total_active_stake 2 <? weighted
     | None => false
     end.

Definition current_active_oracle_attestations (pool : StakePool) (l : list OracleAttestation)
  : list OracleAttestation :=
  omap (fun a =>
    if negb (oa_decimals a =? ORACLE_PRICE_DECIMALS) then None
    else match StakePool_get_stake pool (oa_validator a) with
         | None => None
         | Some current =>
             if negb (si_is_active current) || negb (StakeInfo_meets_minimum current) then None
             else Some (mkOracleAttestation (oa_validator a) (oa_price a) (oa_decimals a)
                          (StakeInfo_total_stake current) (oa_slot a))
         end) l.

Definition compute_stake_weighted_median (l : list OracleAttestation) : Z :=
  match l with
  | [] => 0
  | [a] => oa_price a
  | _ =>
      let sorted := sort_by_key fst (map (fun a => (oa_price a, oa_stake a)) l) in
      let total_stake := sumZ snd sorted in
      let half := total_stake / 2 in
      weighted_median half 0 (default (0, 0) (last sorted)).1 sorted
  end.

(** ** Records *)

Definition hex_digit (n : Z) : Z := if n <? 10 then 48 + n else 87 + n.
Definition hex_encode (l : bytes) : bytes := l ≫= (fun b => [hex_digit (b / 16); hex_digit (b mod 16)]).

Definition attestation_prefix (asset : bytes) : bytes := str_bytes "oracle_att_" ++ asset ++ [95].
Definition attestation_key (asset : bytes) (validator : Pubkey) : bytes :=
  attestation_prefix asset ++ hex_encode (be_bytes 32 validator).

Definition put_oracle_attestation (asset : bytes) (a : OracleAttestation) (s : OracleStore) : OracleStore :=
  mkOracleStore (<[attestation_key asset (oa_validator a) := a]> (os_attestations s)) (os_prices s).

Definition put_oracle_consensus_price (p : OracleConsensusPrice) (s : OracleStore) : OracleStore :=
  mkOracleStore (os_attestations s) (<[op_asset p := p]> (os_prices s)).

Fixpoint attestations_loop (prefix : bytes) (current_slot window : Z) (records : gmap bytes OracleAttestation)
  (keys : list bytes) : list OracleAttestation :=
  match keys with
  | [] => []
  | key :: keys =>
      if negb (starts_with prefix key) then []
      else
        let rest := attestations_loop prefix current_slot window records keys in
        match records !! key with
        | Some a => if (oa_slot a <=? current_slot) && (current_slot - oa_slot a <=? window) then a :: rest else rest
        | None => rest
        end
  end.

Definition get_oracle_attestations (asset : bytes) (current_slot staleness_window : Z) (s : OracleStore)
  : list OracleAttestation :=
  let prefix := attestation_prefix asset in
  attestations_loop prefix current_slot staleness_window (os_attestations s)
    (iterator_from (dom (os_attestations s)) prefix).

(** ** The instruction *)

Record CommittedOracleAttestation := mkCommittedOracleAttestation {
  co_signer : Pubkey;
  co_asset : bytes;
  co_price : Z;
  co_decimals : Z;
}.

(** The checks on the data and accounts of the instruction, the same in
    [system_oracle_attestation] and in [parse_committed_oracle_attestation]. *)
Definition read_attestation (ix : Instruction) : result CommittedOracleAttestation OracleError :=
  let data := ix_data ix in
  if (length data <? 4)%nat then Err OracleData
  else
    let asset_len := default 0 (data !! 1%nat) in
    if negb ((ORACLE_ASSET_MIN_LEN <=? asset_len) && (asset_len <=? ORACLE_ASSET_MAX_LEN)) then Err OracleAssetLength
    else
      let n := Z.to_nat asset_len in
      if (length data <? 2 + n + 9)%nat then Err OracleData
      else
        let asset := take n (drop 2 data) in
        if negb (is_utf8 asset) then Err OracleAssetUtf8
        else
          let price := u64_at data (2 + n) in
          let decimals := default 0 (data !! (2 + n + 8)%nat) in
          if price =? 0 then Err OracleZeroPrice
          else if negb (decimals =? ORACLE_PRICE_DECIMALS) then Err OracleDecimals
          else or_err (head (ix_accounts ix)) OracleAccounts (fun signer =>
               Ok (mkCommittedOracleAttestation signer asset price decimals)).

Definition parse_committed_oracle_attestation (ix : Instruction)
  : result (option CommittedOracleAttestation) OracleError :=
  if negb ((ix_program_id ix =? SYSTEM_PROGRAM_ID) && bool_decide (head (ix_data ix) = Some 30)) then Ok None
  else let? a := read_attestation ix in Ok (Some a).

Definition min_attestors (pool : StakePool) : Z :=
  if (length (StakePool_active_validators pool) <=? 1)%nat then 1 else 2.

(** The price of [asset] from [attestations], when they are a quorum. *)
Definition settle_price (asset : bytes) (slot : Z) (pool : StakePool) (attestations : list OracleAttestation)
  (s : OracleStore) : OracleStore :=
  let attested_stake := sumZ oa_stake attestations in
  if oracle_stake_quorum_reached attested_stake (StakePool_active_stake pool)
     && (min_attestors pool <=? Z.of_nat (length attestations))
  then put_oracle_consensus_price
         (mkOracleConsensusPrice asset (compute_stake_weighted_median attestations) ORACLE_PRICE_DECIMALS slot
            (wrap 32 (Z.of_nat (length attestations)))) s
  else s.

(** The stake of an attesting validator. *)
Definition attestor_stake (pool : StakePool) (signer : Pubkey) : result Z OracleError :=
  or_err (StakePool_get_stake pool signer) OracleNoStake (fun info =>
  if negb (si_is_active info) || negb (StakeInfo_meets_minimum info) then Err OracleInactive
  else Ok (StakeInfo_total_stake info)).

(** Opcode 30, in the processor. *)
Definition system_oracle_attestation (speculative : bool) (pool : StakePool) (current_slot : Z)
  (ix : Instruction) (s : OracleStore) : result OracleStore OracleError :=
  let? a := read_attestation ix in
  let? signer_stake := attestor_stake pool (co_signer a) in
  if speculative then Ok s
  else
    let s := put_oracle_attestation (co_asset a)
               (mkOracleAttestation (co_signer a) (co_price a) (co_decimals a) signer_stake current_slot) s in
    let attestations := current_active_oracle_attestations pool
      (get_oracle_attestations (co_asset a) current_slot ORACLE_STALENESS_SLOTS s) in
    if StakePool_active_stake pool =? 0 then Ok s
    else Ok (settle_price (co_asset a) current_slot pool attestations s).

(** ** Committed blocks *)

Abbreviation Staged := (gmap bytes (gmap Pubkey OracleAttestation)).

(** What the validator loop of [stage_committed_oracle_attestation_effects] reads of a block:
    its slot, its transactions that are not consensus records with the success of each, and
    the stake pool at the start of the height. *)
Record OracleBlock := mkOracleBlock {
  ob_slot : Z;
  ob_transactions : list Transaction;
  ob_success : list bool;
  ob_pool : StakePool;
}.

Definition stage_instruction (b : OracleBlock) (staged : Staged) (ix : Instruction) : result Staged OracleError :=
  let? parsed := parse_committed_oracle_attestation ix in
  match parsed with
  | None => Ok staged
  | Some a =>
      let? stake := attestor_stake (ob_pool b) (co_signer a) in
      let pending := default ∅ (staged !! co_asset a) in
      Ok (<[co_asset a := <[co_signer a := mkOracleAttestation (co_signer a) (co_price a) (co_decimals a)
                                            stake (ob_slot b)]> pending]> staged)
  end.

Definition is_consensus (tx : Transaction) : bool := bool_decide (tx_type tx = Consensus).

Definition stage_block (b : OracleBlock) : result Staged OracleError :=
  let executable := List.filter (fun tx => negb (is_consensus tx)) (ob_transactions b) in
  try_fold (fun staged (tr : Transaction * bool) =>
      if negb tr.2 then Ok staged
      else try_fold (stage_instruction b) staged (msg_instructions (tx_message tr.1)))
    ∅ (zip executable (ob_success b)).

(** The attestations of [asset] by validator: the stored ones, of several for one
    validator the one with the last key, and those of the block over them. *)
Definition attestations_by_validator (b : OracleBlock) (asset : bytes) (pending : gmap Pubkey OracleAttestation)
  (s : OracleStore) : gmap Pubkey OracleAttestation :=
  pending ∪ foldl (fun m a => <[oa_validator a := a]> m) ∅
              (get_oracle_attestations asset (ob_slot b) ORACLE_STALENESS_SLOTS s).

(** The values of a [BTreeMap], in the order of its keys. *)
Definition btree_values (m : gmap Pubkey OracleAttestation) : list OracleAttestation :=
  (sort_by_key fst (map_to_list m)).*2.

(** The staged writes of one asset; reads see [s], the store before the block. *)
Definition stage_asset (b : OracleBlock) (s out : OracleStore) (ap : bytes * gmap Pubkey OracleAttestation) : OracleStore :=
  let '(asset, pending) := ap in
  let out := foldl (fun out a => put_oracle_attestation asset a out) out (btree_values pending) in
  let attestations := current_active_oracle_attestations (ob_pool b)
    (btree_values (attestations_by_validator b asset pending s)) in
  settle_price asset (ob_slot b) (ob_pool b) attestations out.

Definition ascending_assets (staged : Staged) : list (bytes * gmap Pubkey OracleAttestation) :=
  merge_sort (fun x y => lex_le x.1 y.1) (map_to_list staged).

Definition stage_committed_oracle_attestation_effects (b : OracleBlock) (s : OracleStore)
  : result OracleStore OracleError :=
  if (ob_slot b =? 0) || (length (ob_transactions b) =? 0)%nat then Ok s
  else if StakePool_active_stake (ob_pool b) =? 0 then Ok s
  else let? staged := stage_block b in
       Ok (foldl (stage_asset b s) s (ascending_assets staged)).

(** ** The median *)

Definition stake_of (P : OracleAttestation -> bool) (l : list OracleAttestation) : Z :=
  sumZ (fun a => if P a then oa_stake a else 0) l.

Lemma stake_of_pairs (P : Z -> Prop) `{forall x, Decision (P x)} l :
  sumZ snd (filter (fun p : Z * Z => P p.1) (map (fun a => (oa_price a, oa_stake a)) l))
  = stake_of (fun a => bool_decide (P (oa_price a))) l.
Proof.
  unfold stake_of. induction l as [|a l IH]; [done|]. cbn [map]. rewrite filter_cons. cbn [fst].
  rewrite sumZ_cons. case_decide as Hp.
  - rewrite bool_decide_eq_true_2 by done. by rewrite sumZ_cons, IH.
  - rewrite bool_decide_eq_false_2 by done. by rewrite IH.
Qed.

(** Attestations with more than half of the stake bound the median. *)
Lemma median_bounds (good : OracleAttestation -> bool) l lo hi :
  (forall a, a ∈ l -> 0 < oa_stake a) -> sumZ oa_stake l < 2 * stake_of good l ->
  (forall a, a ∈ l -> good a = true -> lo <= oa_price a <= hi) ->
  lo <= compute_stake_weighted_median l <= hi.
Proof.
  intros Hpos Hmaj Hgood. destruct l as [|a [|a' l']].
  { unfold stake_of, sumZ in Hmaj. simpl in Hmaj. lia. }
  { apply Hgood; [by left|]. destruct (good a) eqn:Hg; [done|]. unfold stake_of in Hmaj.
    rewrite !sumZ_cons, Hg in Hmaj. cbn in Hmaj. specialize (Hpos a ltac:(by left)). lia. }
  set (l := a :: a' :: l') in *. change (compute_stake_weighted_median l) with
    (let sorted := sort_by_key fst (map (fun a => (oa_price a, oa_stake a)) l) in
     weighted_median (sumZ snd sorted / 2) 0 (default (0, 0) (last sorted)).1 sorted).
  cbv zeta. set (sorted := sort_by_key fst _).
  assert (sumZ snd sorted = sumZ oa_stake l) as Hsum.
  { unfold sorted. rewrite (sort_by_key_perm fst), sumZ_map. done. }
  assert (forall P `{forall x, Decision (P x)}, sumZ snd (filter (fun p : Z * Z => P p.1) sorted)
    = stake_of (fun a => bool_decide (P (oa_price a))) l) as Hfil.
  { intros P D. unfold sorted. rewrite (sort_by_key_perm fst). apply stake_of_pairs. }
  assert (0 < sumZ oa_stake l) as Htot.
  { unfold l. rewrite sumZ_cons. pose proof (Hpos a ltac:(by left)).
    pose proof (sumZ_nonneg oa_stake (a' :: l') ltac:(intros x Hx; specialize (Hpos x ltac:(by right)); lia)). lia. }
  rewrite Hsum. set (T := sumZ oa_stake l) in *. assert (2 * (T / 2) <= T < 2 * (T / 2) + 2) by divlia.
  destruct (weighted_median_spec (T / 2) 0 (default (0, 0) (last sorted)).1 sorted) as (_ & H1 & H2).
  - lia.
  - rewrite Hsum. lia.
  - apply sort_by_key_sorted.
  - intros p Hp. unfold sorted in Hp. rewrite elem_of_sort_by_key in Hp.
    apply list_elem_of_fmap in Hp as (x & -> & Hx). simpl. specialize (Hpos x Hx). lia.
  - set (t := weighted_median _ _ _ _) in *. 
    pose proof (Hfil (fun x => x < t) _) as E1. pose proof (Hfil (fun x => x <= t) _) as E2.
    cbv beta in E1, E2. rewrite E1 in H1. rewrite E2 in H2.
    split.
    + destruct (Z.le_gt_cases lo t) as [|Hlt]; [done|]. exfalso.
      assert (stake_of (fun a => bool_decide (oa_price a <= t)) l + stake_of good l <= T); [|lia].
      unfold T, stake_of. rewrite <- sumZ_add. apply sumZ_le. intros x Hx. pose proof (Hpos x Hx).
      destruct (good x) eqn:Hg; case_bool_decide; try lia. specialize (Hgood x Hx Hg). lia.
    + destruct (Z.le_gt_cases t hi) as [|Hgt]; [done|]. exfalso.
      assert (stake_of good l <= stake_of (fun a => bool_decide (oa_price a < t)) l); [|lia].
      apply sumZ_le. intros x Hx. pose proof (Hpos x Hx).
      destruct (good x) eqn:Hg; case_bool_decide; try lia. specialize (Hgood x Hx Hg). lia.
Qed.

(** ** The scan of an asset *)

Definition fresh_record (slot window : Z) (a : OracleAttestation) : bool :=
  (oa_slot a <=? slot) && (slot - oa_slot a <=? window).

Definition scanned (records : gmap bytes OracleAttestation) (slot window : Z) (key : bytes) : option OracleAttestation :=
  match records !! key with
  | Some a => if fresh_record slot window a then Some a else None
  | None => None
  end.

(** The loop stops at the first key without the prefix, and there is none with it behind. *)
Lemma attestations_loop_spec p slot window records keys :
  StronglySorted lex_le keys -> Forall (lex_le p) keys ->
  attestations_loop p slot window records keys = omap (scanned records slot window) (filter (prefix p) keys).
Proof.
  intros Hs. induction Hs as [|x l Hl IH Hx]; intros Hp; [done|]. cbn [attestations_loop].
  apply Forall_cons in Hp as [Hpx Hpl]. rewrite filter_cons. destruct (starts_with p x) eqn:Hsw; simpl.
  - apply starts_with_prefix in Hsw. rewrite decide_True by done. cbn [omap list_omap]. rewrite IH by done.
    replace (scanned records slot window x) with (match records !! x with
      | Some a => if (oa_slot a <=? slot) && (slot - oa_slot a <=? window) then Some a else None
      | None => None end) by done.
    destruct (records !! x) as [a|]; [destruct (_ && _)|]; done.
  - assert (~ p `prefix_of` x) as Hn by (intros Hx'%starts_with_prefix; congruence).
    rewrite decide_False by done. replace (filter (prefix p) l) with ([] : list bytes); [done|].
    symmetry. apply elem_of_nil_inv. intros k [Hpk Hk]%list_elem_of_filter. apply Hn, (lex_between p x k); [done| |done].
    rewrite Forall_forall in Hx. by apply Hx.
Qed.

Lemma get_attestations_spec asset slot window s :
  let keys := filter (prefix (attestation_prefix asset)) (iterator_from (dom (os_attestations s)) (attestation_prefix asset)) in
  get_oracle_attestations asset slot window s = omap (scanned (os_attestations s) slot window) keys
  /\ NoDup keys
  /\ forall k, k ∈ keys <-> k ∈ dom (os_attestations s) /\ attestation_prefix asset `prefix_of` k.
Proof.
  intros keys. unfold get_oracle_attestations. set (p := attestation_prefix asset) in *.
  destruct (iterator_from_spec (dom (os_attestations s)) p) as [Hs Hk]. split_and!.
  - apply attestations_loop_spec; [done|]. apply Forall_forall. intros k. rewrite Hk. tauto.
  - apply NoDup_filter. unfold iterator_from. apply NoDup_filter. rewrite merge_sort_Permutation. apply NoDup_elements.
  - intros k. unfold keys. rewrite list_elem_of_filter, Hk. split; [tauto|]. intros [? ?]. auto using prefix_lex_le.
Qed.

Lemma elem_of_get_attestations asset slot window s a :
  a ∈ get_oracle_attestations asset slot window s <->
  exists k, os_attestations s !! k = Some a /\ attestation_prefix asset `prefix_of` k /\ fresh_record slot window a = true.
Proof.
  destruct (get_attestations_spec asset slot window s) as (-> & _ & Hk). rewrite list_elem_of_omap.
  setoid_rewrite Hk. unfold scanned. split.
  - intros (k & [_ Hp] & Ha). exists k. destruct (os_attestations s !! k) as [a'|]; [|done].
    destruct (fresh_record slot window a') eqn:Hf; [|done]. by injection Ha as <-.
  - intros (k & Hl & Hp & Hf). exists k. rewrite Hl, Hf. split; [|done]. split; [|done]. by eapply elem_of_dom_2.
Qed.

(** ** Keys *)

Lemma hex_digit_not_separator n : 0 <= n < 16 -> hex_digit n <> 95.
Proof. intros Hn. unfold hex_digit. destruct (Z.ltb_spec n 10); lia. Qed.

Lemma hex_encode_no_separator l : Forall is_byte l -> 95 ∉ hex_encode l.
Proof.
  intros Hl (b & Hb & Hin)%list_elem_of_bind. rewrite Forall_forall in Hl.
  assert (is_byte b) as Hy by (by apply Hl). unfold is_byte in Hy.
  assert (0 <= b / 16 < 16 /\ 0 <= b mod 16 < 16) as [? ?] by divlia.
  repeat apply elem_of_cons in Hb as [Hb|Hb]; try (by apply not_elem_of_nil in Hb);
    by apply hex_digit_not_separator in Hb || (symmetry in Hb; by apply hex_digit_not_separator in Hb).
Qed.

(** What the scan of [asset] sees: its own records, and those of assets whose name continues
    it with the separator. *)
Definition shadows (asset asset' : bytes) : Prop := asset' = asset \/ asset ++ [95] `prefix_of` asset'.

Lemma scanned_key asset asset' validator :
  attestation_prefix asset `prefix_of` attestation_key asset' validator -> shadows asset asset'.
Proof.
  unfold attestation_key, attestation_prefix. rewrite <- !(assoc_L (++)). intros Hp%prefix_app_inv.
  assert (95 ∉ hex_encode (be_bytes 32 validator)) as Hsep 
    by (apply hex_encode_no_separator, Forall_reverse, le_bytes_are_bytes).
  set (h := hex_encode _) in *. destruct (Nat.lt_trichotomy (length asset) (length asset')) as [Hlt|[Heq|Hgt]].
  - right. destruct Hp as [k Hk]. exists (take (length asset' - length asset - 1) k).
    assert (take (length asset') (asset' ++ [95] ++ h) = take (length asset') ((asset ++ [95]) ++ k)) as Ht by by rewrite Hk.
    rewrite take_app_length in Ht. etransitivity; [exact Ht|]. rewrite take_app, (take_ge (asset ++ [95])) by (rewrite length_app; simpl; lia).
    f_equal. f_equal. rewrite length_app. cbn [length]. lia.
  - left. destruct Hp as [k Hk]. rewrite <- (assoc_L (++)) in Hk. by apply app_inj_1 in Hk as [-> _].
  - exfalso. destruct Hp as [k Hk]. apply Hsep.
    assert ((asset' ++ [95] ++ h) !! length asset = Some 95) as Hl.
    { rewrite Hk, lookup_app_l by (rewrite length_app; simpl; lia). rewrite lookup_app_r by lia.
      by rewrite Nat.sub_diag. }
    rewrite lookup_app_r in Hl by lia. rewrite lookup_app_r in Hl by (simpl; lia). by eapply list_elem_of_lookup_2.
Qed.

(** ** Where attestations come from *)

(** A successful transaction of [b] attests [a] for [asset]. *)
Definition attested (b : OracleBlock) (asset : bytes) (a : OracleAttestation) : Prop :=
  exists tx ix,
    tx ∈ ob_transactions b /\ ix ∈ msg_instructions (tx_message tx) /\ ix_program_id ix = SYSTEM_PROGRAM_ID
    /\ read_attestation ix = Ok (mkCommittedOracleAttestation (oa_validator a) asset (oa_price a) (oa_decimals a))
    /\ oa_slot a = ob_slot b.

Definition staged_ok (b : OracleBlock) (staged : Staged) : Prop :=
  forall asset pending v a, staged !! asset = Some pending -> pending !! v = Some a ->
    oa_validator a = v /\ attested b asset a.

Lemma stage_instruction_ok b tx staged ix staged' :
  tx ∈ ob_transactions b -> ix ∈ msg_instructions (tx_message tx) ->
  staged_ok b staged -> stage_instruction b staged ix = Ok staged' -> staged_ok b staged'.
Proof.
  intros Htx Hix Hst. unfold stage_instruction. rewrite and_then_Ok. intros (parsed & Hp & H).
  destruct parsed as [c|]; [|by injection H as <-]. apply and_then_Ok in H as (stake & _ & <-%Ok_inj).
  unfold parse_committed_oracle_attestation in Hp.
  destruct (_ && _) eqn:Hsys; simpl in Hp; [|done]. apply andb_true_iff in Hsys as [Hsys%Z.eqb_eq _].
  apply and_then_Ok in Hp as (c' & Hr & [= ->]). intros asset pending v a.
  destruct (decide (asset = co_asset c)) as [->|Hne]; [|rewrite lookup_insert_ne by done; apply Hst].
  rewrite lookup_insert_eq. intros [= <-]. destruct (decide (v = co_signer c)) as [->|Hv].
  - rewrite lookup_insert_eq. intros [= <-]. split; [done|]. exists tx, ix. split_and!; try done.
    rewrite Hr. by destruct c.
  - rewrite lookup_insert_ne by done. destruct (staged !! co_asset c) as [pending|] eqn:Hpe; [by apply Hst|].
    simpl. by rewrite lookup_empty.
Qed.

Lemma stage_block_ok b staged : stage_block b = Ok staged -> staged_ok b staged.
Proof.
  unfold stage_block. assert (forall l st, (forall tr, tr ∈ l -> tr.1 ∈ ob_transactions b) -> staged_ok b st ->
    try_fold (fun staged (tr : Transaction * bool) => if negb tr.2 then Ok staged
      else try_fold (stage_instruction b) staged (msg_instructions (tx_message tr.1))) st l = Ok staged ->
    staged_ok b staged) as Hfold.
  { induction l as [|tr l IH]; intros st Hin Hst; [by intros [= <-]|]. cbn [try_fold].
    rewrite and_then_Ok. intros (st' & Hs & Hrest). eapply IH; [| |exact Hrest]; [intros; apply Hin; by right|].
    destruct tr.2; [|by injection Hs as <-]. simpl in Hs.
    assert (forall ixs st, (forall ix, ix ∈ ixs -> ix ∈ msg_instructions (tx_message tr.1)) -> staged_ok b st ->
      try_fold (stage_instruction b) st ixs = Ok st' -> staged_ok b st') as Hix.
    { induction ixs as [|ix ixs IHi]; intros st0 Hi Hst0; [by intros [= <-]|]. cbn [try_fold].
      rewrite and_then_Ok. intros (st1 & H1 & Hr). eapply IHi; [| |exact Hr]; [intros; apply Hi; by right|].
      eapply stage_instruction_ok; [| |exact Hst0|exact H1]; [apply Hin; left|apply Hi; left]. }
    by eapply Hix. }
  apply Hfold.
  - intros [tx r] Hz%elem_of_zip_l. simpl in *. apply list_elem_of_In, List.filter_In in Hz as [Hz _]. by apply list_elem_of_In.
  - intros asset pending v a Hl. by rewrite lookup_empty in Hl.
Qed.

(** Every stored attestation is under its key and was attested in a block of the run. *)
Definition stored_ok (blocks : list OracleBlock) (s : OracleStore) : Prop :=
  forall key a, os_attestations s !! key = Some a ->
    exists b asset, b ∈ blocks /\ key = attestation_key asset (oa_validator a) /\ attested b asset a.

Definition oracle_step (s : OracleStore) (b : OracleBlock) : OracleStore :=
  match stage_committed_oracle_attestation_effects b s with Ok s' => s' | Err _ => s end.
Definition oracle_run (blocks : list OracleBlock) : OracleStore := foldl oracle_step (mkOracleStore ∅ ∅) blocks.

Lemma settle_attestations asset slot pool l s : os_attestations (settle_price asset slot pool l s) = os_attestations s.
Proof. unfold settle_price. by destruct (_ && _). Qed.

Lemma elem_of_btree_values m a : a ∈ btree_values m <-> exists v, m !! v = Some a.
Proof.
  unfold btree_values. rewrite list_elem_of_fmap. split.
  - intros ([v x] & -> & Hx). rewrite elem_of_sort_by_key in Hx. apply elem_of_map_to_list in Hx. eauto.
  - intros (v & Hv). exists (v, a). split; [done|]. by rewrite elem_of_sort_by_key, elem_of_map_to_list.
Qed.

Lemma stage_asset_stored b blocks s out ap :
  (forall v a, ap.2 !! v = Some a -> oa_validator a = v /\ attested b ap.1 a) ->
  stored_ok (blocks ++ [b]) out -> stored_ok (blocks ++ [b]) (stage_asset b s out ap).
Proof.
  destruct ap as [asset pending]. intros Hp Hout key a. unfold stage_asset. rewrite settle_attestations. revert key a.
  assert (forall l out, (forall x, x ∈ l -> attested b asset x) -> stored_ok (blocks ++ [b]) out ->
    stored_ok (blocks ++ [b]) (foldl (fun out a => put_oracle_attestation asset a out) out l)) as Hf.
  { induction l as [|x l IH]; intros o Hx Ho; [done|]. cbn [foldl]. apply IH; [intros; apply Hx; by right|].
    intros key a. cbn [put_oracle_attestation os_attestations].
    destruct (decide (key = attestation_key asset (oa_validator x))) as [->|Hne]; [|rewrite lookup_insert_ne by done; apply Ho].
    rewrite lookup_insert_eq. intros [= <-]. exists b, asset. split_and!; [apply elem_of_app; right; left|done|apply Hx; left]. }
  apply Hf; [|done]. intros x (v & Hv)%elem_of_btree_values. by apply (Hp v).
Qed.

Lemma stage_block_assets b staged ap :
  stage_block b = Ok staged -> ap ∈ ascending_assets staged ->
  forall v a, ap.2 !! v = Some a -> oa_validator a = v /\ attested b ap.1 a.
Proof.
  intros Hst Hin. unfold ascending_assets in Hin. rewrite merge_sort_Permutation in Hin. destruct ap as [asset pending].
  apply elem_of_map_to_list in Hin. intros v a. by apply (stage_block_ok b staged Hst asset pending).
Qed.

Lemma staged_stored b blocks s staged :
  stage_block b = Ok staged -> stored_ok blocks s ->
  stored_ok (blocks ++ [b]) (foldl (stage_asset b s) s (ascending_assets staged)).
Proof.
  intros Hst Hs. assert (stored_ok (blocks ++ [b]) s) as Hs'.
  { intros key a (b' & asset & Hb & Hk)%Hs. exists b', asset. split; [apply elem_of_app; by left|done]. }
  pose proof (stage_block_assets b staged) as Hap. generalize dependent (ascending_assets staged). intros l Hap.
  assert (forall out, stored_ok (blocks ++ [b]) out -> stored_ok (blocks ++ [b]) (foldl (stage_asset b s) out l)) as Hf; [|by apply Hf].
  induction l as [|ap l IH]; intros out Ho; [done|]. cbn [foldl]. apply IH; [intros ap' ? Hin; apply Hap; [done|by right]|].
  apply stage_asset_stored; [|done]. apply Hap; [done|left].
Qed.

Lemma oracle_run_stored blocks : stored_ok blocks (oracle_run blocks).
Proof.
  unfold oracle_run. induction blocks as [|b blocks IH] using rev_ind; [intros key a H; cbn in H; by rewrite lookup_empty in H|].
  rewrite foldl_app. cbn [foldl]. set (s := foldl _ _ blocks) in *. unfold oracle_step.
  assert (stored_ok (blocks ++ [b]) s) as Hs'.
  { intros key a (b' & asset & Hb & Hk)%IH. exists b', asset. split; [apply elem_of_app; by left|done]. }
  unfold stage_committed_oracle_attestation_effects. destruct (_ || _); [done|]. destruct (_ =? 0); [done|].
  destruct (stage_block b) as [staged|] eqn:Hst; [|done]. cbn [and_then]. by apply staged_stored.
Qed.

(** ** Properties *)

(** The attestation [a] counts for [asset] at block [b]: its validator is active with the
    stake it is weighted with, and attested the price for the asset, or for one whose name
    continues it with the separator, within the last 750 slots. *)
Definition counts (blocks : list OracleBlock) (b : OracleBlock) (asset : bytes) (a : OracleAttestation) : Prop :=
  (exists info, StakePool_get_stake (ob_pool b) (oa_validator a) = Some info /\ si_is_active info = true
     /\ StakeInfo_meets_minimum info = true /\ oa_stake a = StakeInfo_total_stake info)
  /\ exists b' asset' stake, b' ∈ blocks /\ shadows asset asset'
       /\ attested b' asset' (mkOracleAttestation (oa_validator a) (oa_price a) (oa_decimals a) stake (oa_slot a))
       /\ 0 <= ob_slot b - ob_slot b' <= ORACLE_STALENESS_SLOTS.

(** The price record of a quorum. *)
Definition quorum_price (blocks : list OracleBlock) (b : OracleBlock) (asset : bytes) (p : OracleConsensusPrice) : Prop :=
  exists votes, NoDup (oa_validator <$> votes) /\ Forall (counts blocks b asset) votes
    /\ 2 * StakePool_active_stake (ob_pool b) < 3 * sumZ oa_stake votes
    /\ min_attestors (ob_pool b) <= Z.of_nat (length votes)
    /\ op_price p = compute_stake_weighted_median votes /\ op_slot p = ob_slot b
    /\ forall good lo hi, sumZ oa_stake votes < 2 * stake_of good votes ->
         (forall a, a ∈ votes -> good a = true -> lo <= oa_price a <= hi) -> lo <= op_price p <= hi.

Lemma current_active_spec pool l a :
  a ∈ current_active_oracle_attestations pool l <->
  exists a0 info, a0 ∈ l /\ oa_decimals a0 = ORACLE_PRICE_DECIMALS
    /\ StakePool_get_stake pool (oa_validator a0) = Some info
    /\ si_is_active info = true /\ StakeInfo_meets_minimum info = true
    /\ a = mkOracleAttestation (oa_validator a0) (oa_price a0) (oa_decimals a0) (StakeInfo_total_stake info) (oa_slot a0).
Proof.
  unfold current_active_oracle_attestations. rewrite list_elem_of_omap. split.
  - intros (a0 & Hin & Ha). destruct (Z.eqb_spec (oa_decimals a0) ORACLE_PRICE_DECIMALS) as [Hd|]; [|done]. simpl in Ha.
    destruct (StakePool_get_stake pool (oa_validator a0)) as [info|] eqn:Hi; [|done].
    destruct (si_is_active info) eqn:Hac, (StakeInfo_meets_minimum info) eqn:Hm; try done. injection Ha as <-.
    exists a0, info. by split_and!.
  - intros (a0 & info & Hin & Hd & Hi & Hac & Hm & ->). exists a0. split; [done|].
    by rewrite Hi, Hac, Hm, (proj2 (Z.eqb_eq _ _) Hd).
Qed.

Lemma current_active_validators pool l :
  NoDup (oa_validator <$> l) -> NoDup (oa_validator <$> current_active_oracle_attestations pool l).
Proof.
  intros Hn. unfold current_active_oracle_attestations. set (f := fun a => _).
  assert (forall a a', f a = Some a' -> oa_validator a' = oa_validator a) as Hf.
  { intros a a'. unfold f. repeat case_match; try done. by intros [= <-]. }
  clearbody f. induction l as [|a l IH]; [done|]. cbn [omap list_omap]. apply NoDup_cons in Hn as [Hni Hn].
  destruct (f a) as [a'|] eqn:Ha; [|by apply IH]. rewrite fmap_cons. apply NoDup_cons. split; [|by apply IH].
  rewrite (Hf _ _ Ha). intros (x & Hx & (y & Hy & Hfy)%list_elem_of_omap)%list_elem_of_fmap.
  apply Hni, list_elem_of_fmap. exists y. split; [|done]. by rewrite Hx, (Hf _ _ Hfy).
Qed.

(** One attestation per validator. *)
Lemma by_validator_keyed b asset pending s :
  (forall v a, pending !! v = Some a -> oa_validator a = v) ->
  forall v a, attestations_by_validator b asset pending s !! v = Some a ->
    oa_validator a = v /\ (pending !! v = Some a \/ a ∈ get_oracle_attestations asset (ob_slot b) ORACLE_STALENESS_SLOTS s).
Proof.
  intros Hp v a. unfold attestations_by_validator. rewrite lookup_union_Some_raw. intros [Hl|[_ Hl]]; [auto|].
  revert Hl. generalize (get_oracle_attestations asset (ob_slot b) ORACLE_STALENESS_SLOTS s). intros l.
  induction l as [|x l IH] using rev_ind; [cbn; by rewrite lookup_empty|].
  rewrite foldl_app. cbn [foldl]. destruct (decide (v = oa_validator x)) as [->|Hne].
  - rewrite lookup_insert_eq. intros [= <-]. split; [done|]. right. apply elem_of_app. right. left.
  - rewrite lookup_insert_ne by done. intros [? [?|?]]%IH; split; auto. right. apply elem_of_app. by left.
Qed.

Lemma btree_values_validators m :
  (forall v a, m !! v = Some a -> oa_validator a = v) -> NoDup (oa_validator <$> btree_values m).
Proof.
  intros Hm. unfold btree_values. rewrite <- list_fmap_compose.
  replace ((oa_validator ∘ snd) <$> sort_by_key fst (map_to_list m)) with ((sort_by_key fst (map_to_list m)).*1).
  - rewrite (sort_by_key_perm fst). apply NoDup_fst_map_to_list.
  - apply list_fmap_ext. intros i [v a] Hl%list_elem_of_lookup_2. rewrite elem_of_sort_by_key in Hl.
    apply elem_of_map_to_list in Hl. symmetry. by apply Hm.
Qed.

Lemma stage_asset_price blocks b s out asset pending asset' :
  stored_ok blocks s -> (forall v a, pending !! v = Some a -> oa_validator a = v /\ attested b asset a) ->
  let out' := stage_asset b s out (asset, pending) in
  os_prices out' !! asset' = os_prices out !! asset'
  \/ exists p, os_prices out' !! asset' = Some p /\ quorum_price (blocks ++ [b]) b asset' p.
Proof.
  intros Hst Hp. cbv zeta. unfold stage_asset. set (out1 := foldl _ out _).
  assert (os_prices out1 = os_prices out) as Ho.
  { unfold out1. clear. generalize (btree_values pending). intros l. revert out.
    induction l as [|x l IH]; intros out; [done|]. cbn [foldl]. by rewrite IH. }
  set (votes := current_active_oracle_attestations _ _). unfold settle_price.
  destruct (_ && _) eqn:Hq; [|rewrite Ho; by left]. cbn [os_prices put_oracle_consensus_price op_asset].
  destruct (decide (asset' = asset)) as [->|Hne]; [|left; by rewrite lookup_insert_ne, Ho]. right.
  rewrite lookup_insert_eq. eexists. split; [done|]. apply andb_true_iff in Hq as [Hq Hmin%Z.leb_le].
  apply andb_true_iff in Hq as [Htot%Z.ltb_lt Hq]. unfold checked_mul128 in Hq.
  assert (forall v a, attestations_by_validator b asset pending s !! v = Some a -> oa_validator a = v) as Hkey.
  { intros v a Hl. eapply by_validator_keyed; [|exact Hl]. intros. by apply Hp. }
  assert (forall a, a ∈ votes -> counts (blocks ++ [b]) b asset a) as Hcounts.
  { intros a (a0 & info & (v & Hv)%elem_of_btree_values & _ & Hi & Hac & Hm & ->)%current_active_spec. split; [by exists info|].
    apply by_validator_keyed in Hv as [<- Hsrc]; [|intros; by apply Hp]. cbn [oa_validator oa_price oa_decimals oa_slot].
    destruct Hsrc as [Hpe|(k & Hk & Hpre & Hf)%elem_of_get_attestations].
    - destruct (Hp _ _ Hpe) as [_ Hat]. exists b, asset, (oa_stake a0). split_and!; [apply elem_of_app; right; left|by left| |unfold ORACLE_STALENESS_SLOTS; lia..].
      by destruct a0.
    - destruct (Hst _ _ Hk) as (b' & asset' & Hb' & -> & Hat). exists b', asset', (oa_stake a0).
      apply andb_true_iff in Hf as [Hf1%Z.leb_le Hf2%Z.leb_le]. assert (oa_slot a0 = ob_slot b') as Hs by (by destruct Hat as (? & ? & ? & ? & ? & ? & ?)).
      split_and!; [apply elem_of_app; by left|by eapply scanned_key|by destruct a0|lia|lia]. }
  exists votes. split_and!.
  - apply current_active_validators, btree_values_validators, Hkey.
  - by apply Forall_forall.
  - destruct (Z.leb_spec (sumZ oa_stake votes * 3) u128_max); [|done]. apply Z.ltb_lt in Hq.
    unfold sat_mul128 in Hq. lia.
  - done.
  - done.
  - done.
  - intros good lo hi Hmaj Hgood. cbn [op_price]. eapply median_bounds; [|exact Hmaj|exact Hgood].
    intros a Ha. destruct (Hcounts a Ha) as [(info & _ & _ & Hm & ->) _]. unfold StakeInfo_meets_minimum in Hm.
    apply Z.leb_le in Hm. unfold MIN_VALIDATOR_STAKE in Hm. lia.
Qed.


(** ** Names that continue another *)

Definition attest_ix (validator : Pubkey) (price : Z) (asset : bytes) : Instruction :=
  mkInstruction SYSTEM_PROGRAM_ID [validator]
    ([30; Z.of_nat (length asset)] ++ asset ++ le_bytes 8 price ++ [ORACLE_PRICE_DECIMALS]).

Definition valid_asset (asset : bytes) : Prop := (1 <= length asset <= 16)%nat /\ is_utf8 asset = true.

Lemma read_attest_ix validator price asset :
  valid_asset asset -> 0 < price <= u64_max ->
  read_attestation (attest_ix validator price asset)
  = Ok (mkCommittedOracleAttestation validator asset price ORACLE_PRICE_DECIMALS).
Proof.
  intros [Hlen Hutf] Hprice. unfold read_attestation, attest_ix. cbn [ix_data ix_accounts].
  set (data := [30; Z.of_nat (length asset)] ++ asset ++ le_bytes 8 price ++ [ORACLE_PRICE_DECIMALS]).
  assert (length data = (11 + length asset)%nat) as Hd.
  { unfold data. rewrite !length_app, le_bytes_length. cbn [length]. lia. }
  rewrite (proj2 (Nat.ltb_ge _ _)) by lia. change (data !! 1%nat) with (Some (Z.of_nat (length asset))). cbn [default].
  unfold ORACLE_ASSET_MIN_LEN, ORACLE_ASSET_MAX_LEN. cbn [from_option id].
  rewrite (proj2 (Z.leb_le 1 (Z.of_nat (length asset)))) by lia.
  rewrite (proj2 (Z.leb_le (Z.of_nat (length asset)) 16)) by lia. cbn [andb negb].
  rewrite Nat2Z.id, (proj2 (Nat.ltb_ge _ _)) by lia.
  change (drop 2 data) with (asset ++ le_bytes 8 price ++ [ORACLE_PRICE_DECIMALS]). rewrite take_app_length, Hutf. cbn [negb].
  assert (u64_at data (2 + length asset) = price) as ->.
  { unfold u64_at. change (drop (2 + length asset) data) with (drop (length asset) (asset ++ le_bytes 8 price ++ [ORACLE_PRICE_DECIMALS])).
    rewrite drop_app_length. rewrite <- (le_bytes_length 8 price) at 1. rewrite take_app_length, le_value_le_bytes.
    apply Z.mod_small. unfold u64_max in Hprice. lia. }
  assert (data !! (2 + length asset + 8)%nat = Some ORACLE_PRICE_DECIMALS) as ->.
  { change (data !! (2 + length asset + 8)%nat) with ((asset ++ le_bytes 8 price ++ [ORACLE_PRICE_DECIMALS]) !! (length asset + 8)%nat).
    rewrite lookup_app_r by lia. rewrite lookup_app_r by (rewrite le_bytes_length; lia). rewrite le_bytes_length.
    by replace (length asset + 8 - length asset - 8)%nat with 0%nat by lia. }
  rewrite (proj2 (Z.eqb_neq _ _)) by lia. done.
Qed.

Lemma attestation_key_inj asset asset' validator :
  attestation_key asset validator = attestation_key asset' validator -> asset = asset'.
Proof.
  unfold attestation_key, attestation_prefix. rewrite <- !(assoc_L (++)). intros E%(inj (str_bytes "oracle_att_" ++.)).
  rewrite !(assoc_L (++)) in E. by apply (inj (.++ _)), (inj (.++ [95])) in E.
Qed.

(** The records of a validator that attested [names] at [slot]. *)
Definition attested_names (validator price stake slot : Z) (names : list bytes) (s : OracleStore) : Prop :=
  forall k, os_attestations s !! k =
    if decide (k ∈ (fun n => attestation_key n validator) <$> names)
    then Some (mkOracleAttestation validator price ORACLE_PRICE_DECIMALS stake slot) else None.

Lemma put_attested validator price stake slot names asset s :
  attested_names validator price stake slot names s ->
  attested_names validator price stake slot (names ++ [asset])
    (put_oracle_attestation asset (mkOracleAttestation validator price ORACLE_PRICE_DECIMALS stake slot) s).
Proof.
  intros Hs k. cbn [put_oracle_attestation os_attestations oa_validator]. rewrite fmap_app.
  destruct (decide (k = attestation_key asset validator)) as [->|Hne].
  - rewrite lookup_insert_eq, decide_True; [done|]. apply elem_of_app. right. left.
  - rewrite lookup_insert_ne, Hs by done. apply decide_ext. rewrite elem_of_app. cbn.
    rewrite list_elem_of_singleton. tauto.
Qed.

(** The scan of [asset] finds the records of all the names that continue it. *)
Lemma scan_names validator price stake slot asset names s :
  attested_names validator price stake slot (names ++ [asset]) s -> NoDup names -> Forall (prefix (asset ++ [95])) names ->
  get_oracle_attestations asset slot ORACLE_STALENESS_SLOTS s
  = replicate (S (length names)) (mkOracleAttestation validator price ORACLE_PRICE_DECIMALS stake slot).
Proof.
  intros Hs Hnd Hpre. set (a := mkOracleAttestation _ _ _ _ _).
  destruct (get_attestations_spec asset slot ORACLE_STALENESS_SLOTS s) as (-> & Hndk & Hk). set (keys := filter _ _) in *.
  assert (forall k, k ∈ keys <-> k ∈ (fun n => attestation_key n validator) <$> names ++ [asset]) as Hkeys.
  { intros k. rewrite Hk, elem_of_dom. unfold is_Some. rewrite Hs. split.
    - intros [[x Hx] _]. by case_decide.
    - intros Hin. rewrite decide_True by done. split; [eauto|].
      apply list_elem_of_fmap in Hin as (n & -> & [Hn| ->%list_elem_of_singleton]%elem_of_app).
      + rewrite Forall_forall in Hpre. destruct (Hpre n Hn) as [rest ->]. unfold attestation_key, attestation_prefix.
        rewrite <- !(assoc_L (++)). do 2 apply prefix_app. by apply prefix_app_r.
      + apply prefix_app_r. done. }
  assert (NoDup ((fun n => attestation_key n validator) <$> names ++ [asset])) as Hndn.
  { apply NoDup_fmap_2_strong; [intros n n' _ _; apply attestation_key_inj|]. apply NoDup_app. split_and!; [done| |apply NoDup_singleton].
    intros n Hn ->%list_elem_of_singleton. rewrite Forall_forall in Hpre. specialize (Hpre _ Hn). apply prefix_length in Hpre.
    rewrite length_app in Hpre. simpl in Hpre. lia. }
  assert (keys ≡ₚ (fun n => attestation_key n validator) <$> names ++ [asset]) as Hperm by by apply NoDup_Permutation.
  apply Permutation_length in Hperm. rewrite length_fmap, length_app in Hperm. simpl in Hperm.
  replace (S (length names)) with (length keys) by lia. clear -Hkeys Hs.
  assert (forall k, k ∈ keys -> scanned (os_attestations s) slot ORACLE_STALENESS_SLOTS k = Some a) as Hsc.
  { intros k Hin%Hkeys. unfold scanned. rewrite Hs, decide_True by done. unfold fresh_record. cbn [oa_slot a].
    rewrite Z.leb_refl, Z.sub_diag. done. }
  clear Hkeys. induction keys as [|k keys IH]; [done|]. cbn [omap list_omap length replicate].
  rewrite Hsc by left. f_equal. apply IH. intros; apply Hsc. by right.
Qed.

Lemma median_replicate n a : 0 < oa_stake a -> compute_stake_weighted_median (replicate (S n) a) = oa_price a.
Proof.
  intros Hw. assert (oa_price a <= compute_stake_weighted_median (replicate (S n) a) <= oa_price a); [|lia].
  assert (forall x, x ∈ replicate (S n) a -> x = a) as Hall by (intros x Hx; by apply elem_of_replicate in Hx as [-> _]).
  assert (forall m, stake_of (fun _ => true) (replicate m a) = sumZ oa_stake (replicate m a)) as Hst by done.
  assert (0 < sumZ oa_stake (replicate (S n) a)).
  { cbn [replicate]. rewrite sumZ_cons. pose proof (sumZ_nonneg oa_stake (replicate n a)
      ltac:(intros x Hx; apply elem_of_replicate in Hx as [-> _]; lia)). lia. }
  apply (median_bounds (fun _ => true)); rewrite ?Hst; [|lia|]; intros x Hx; rewrite (Hall x Hx); lia.
Qed.

Lemma sumZ_replicate {A} (f : A -> Z) n (x : A) : sumZ f (replicate n x) = Z.of_nat n * f x.
Proof. induction n as [|n IH]; [done|]. cbn [replicate]. rewrite sumZ_cons, IH. lia. Qed.

Definition attest_all (pool : StakePool) (slot : Z) (validator price : Z) (names : list bytes) (s : OracleStore)
  : result OracleStore OracleError :=
  try_fold (fun s asset => system_oracle_attestation false pool slot (attest_ix validator price asset) s) s names.

Section aliases.
Variables (pool : StakePool) (validator price slot : Z) (info : StakeInfo).
Hypothesis is_validator : StakePool_get_stake pool validator = Some info.
Hypothesis is_active : si_is_active info = true.
Hypothesis has_minimum : StakeInfo_meets_minimum info = true.
Hypothesis price_range : 0 < price <= u64_max.
Abbreviation stake := (StakeInfo_total_stake info).

(** One attestation: the record, and the price the scan gives. *)
Lemma attest_step asset s :
  valid_asset asset ->
  let a := mkOracleAttestation validator price ORACLE_PRICE_DECIMALS stake slot in
  let s1 := put_oracle_attestation asset a s in
  exists s', system_oracle_attestation false pool slot (attest_ix validator price asset) s = Ok s'
    /\ os_attestations s' = os_attestations s1
    /\ (StakePool_active_stake pool <> 0 ->
        s' = settle_price asset slot pool (current_active_oracle_attestations pool
               (get_oracle_attestations asset slot ORACLE_STALENESS_SLOTS s1)) s1).
Proof using is_validator is_active has_minimum price_range.
  intros Hv a s1. unfold system_oracle_attestation. rewrite read_attest_ix by done. cbn [and_then co_signer co_asset co_price co_decimals].
  unfold attestor_stake. rewrite is_validator. cbn [or_err]. rewrite is_active, has_minimum. cbn [negb orb and_then].
  fold a. fold s1. destruct (Z.eqb_spec (StakePool_active_stake pool) 0) as [Hz|Hz].
  - exists s1. by split_and!.
  - eexists. split; [done|]. split; [apply settle_attestations|done].
Qed.

Lemma attest_all_names names s seen :
  attested_names validator price stake slot seen s -> Forall valid_asset names ->
  exists s', attest_all pool slot validator price names s = Ok s'
    /\ attested_names validator price stake slot (seen ++ names) s'.
Proof using is_validator is_active has_minimum price_range.
  revert s seen. induction names as [|n names IH]; intros s seen Hs Hv.
  { exists s. by rewrite app_nil_r. }
  apply Forall_cons in Hv as [Hn Hv]. destruct (attest_step n s Hn) as (s1 & Hs1 & Hat & _).
  destruct (IH s1 (seen ++ [n])) as (s' & Hrun & Hs'); [|done|].
  { intros k. rewrite Hat. by apply put_attested. }
  exists s'. unfold attest_all. cbn [try_fold]. rewrite Hs1. cbn [and_then]. split; [exact Hrun|].
  by rewrite <- (assoc_L (++)) in Hs'.
Qed.
End aliases.

(** The processor's own attestation handler counts a validator once per name.  Its scan
    for an asset takes every record whose key starts with the name and an underscore, and
    names may contain underscores; so a validator that first attests for enough names that
    continue an asset's, and then for the asset, reaches the quorum of two thirds of the
    active stake alone, whatever its own stake, and its price becomes the consensus price of
    the asset.  (The effects a committed block stages count one record per validator.) *)
Theorem alias_attestations_count pool validator price slot info asset names :
  StakePool_get_stake pool validator = Some info -> si_is_active info = true -> StakeInfo_meets_minimum info = true ->
  0 < price <= u64_max -> valid_asset asset -> Forall valid_asset names -> NoDup names ->
  Forall (prefix (asset ++ [95])) names -> (1 <= length names)%nat -> 0 < StakePool_active_stake pool ->
  2 * StakePool_active_stake pool < 3 * (Z.of_nat (length names) + 1) * StakeInfo_total_stake info <= u128_max ->
  exists s, attest_all pool slot validator price (names ++ [asset]) (mkOracleStore ∅ ∅) = Ok s
    /\ exists p, os_prices s !! asset = Some p /\ op_price p = price.
Proof.
  intros Hi Ha Hm Hp Hva Hvn Hnd Hpre Hlen Hpos Hq.
  destruct (attest_all_names pool validator price slot info Hi Ha Hm Hp names (mkOracleStore ∅ ∅) []) as (s1 & Hr1 & Hn1);
    [intros k; cbn [os_attestations]; by rewrite lookup_empty|done|].
  destruct (attest_step pool validator price slot info Hi Ha Hm Hp asset s1 Hva) as (s2 & Hr2 & _ & Hs2).
  exists s2. split.
  { unfold attest_all in *. rewrite try_fold_app, Hr1. cbn [and_then try_fold]. by rewrite Hr2. }
  rewrite Hs2 by lia. apply put_attested with (asset := asset) in Hn1. cbn [app] in Hn1.
  rewrite (scan_names _ _ _ _ _ _ _ Hn1 Hnd Hpre).
  set (a := mkOracleAttestation _ _ _ _ _). assert (0 < oa_stake a) as Hw.
  { cbn [oa_stake a]. unfold StakeInfo_meets_minimum in Hm. apply Z.leb_le in Hm. unfold MIN_VALIDATOR_STAKE in Hm. lia. }
  assert (current_active_oracle_attestations pool (replicate (S (length names)) a) = replicate (S (length names)) a) as ->.
  { generalize (S (length names)). intros n. induction n as [|n IH]; [done|]. cbn [replicate].
    unfold current_active_oracle_attestations in *. cbn [omap list_omap]. rewrite IH. cbn [oa_decimals oa_validator a].
    rewrite Hi, Ha, Hm. done. }
  unfold settle_price. rewrite sumZ_replicate, length_replicate, median_replicate by done.
  assert (oracle_stake_quorum_reached (Z.of_nat (S (length names)) * oa_stake a) (StakePool_active_stake pool) = true) as ->.
  { unfold oracle_stake_quorum_reached, checked_mul128. cbn [oa_stake a].
    rewrite (proj2 (Z.ltb_lt _ _)) by done. rewrite (proj2 (Z.leb_le _ _)) by lia. apply Z.ltb_lt. unfold sat_mul128. lia. }
  rewrite (proj2 (Z.leb_le _ _)); [|unfold min_attestors; destruct (_ <=? _)%nat; lia].
  cbn [andb os_prices put_oracle_consensus_price op_asset]. rewrite lookup_insert_eq. eexists. split; [done|done].
Qed.

(** ** Sample prices *)

Module SampleOracle.
Definition pool_of (n : nat) : StakePool :=
  let vs := Z.of_nat <$> seq 1 n in
  mkStakePool (list_to_map ((fun v => (v, StakeInfo_new v MIN_VALIDATOR_STAKE 0)) <$> vs))
    (MIN_VALIDATOR_STAKE * Z.of_nat n) 0 ∅ ∅ ∅ 0 None.

Definition LICN : bytes := str_bytes "LICN".
Definition tx_of (ix : Instruction) : Transaction := mkTransaction [] (mkMessage [ix] 1 None None) Native.
Definition block (slot : Z) (votes : list (Z * Z)) : OracleBlock :=
  mkOracleBlock slot ((fun vp => tx_of (attest_ix vp.1 vp.2 LICN)) <$> votes) ((fun _ => true) <$> votes) (pool_of 4).

(** Two validators attest in a first block, a third, who lies, in a second. *)
Definition first : OracleBlock := block 10 [(1, 100); (2, 101)].
Definition second : OracleBlock := block 20 [(3, 9999)].


(** One of twenty equal validators. *)
Definition aliases : list bytes := (fun c => LICN ++ [95; Z.of_nat c]) <$> seq 65 13.

Lemma alias_attestations_count_witness :
  StakePool_active_stake (pool_of 20) = 20 * MIN_VALIDATOR_STAKE
  /\ exists s, attest_all (pool_of 20) 5 7 1 (aliases ++ [LICN]) (mkOracleStore ∅ ∅) = Ok s
       /\ exists p, os_prices s !! LICN = Some p /\ op_price p = 1.
Proof.
  split; [vm_compute; reflexivity|].
  assert (forall n, (1 <=? length n)%nat && (length n <=? 16)%nat && is_utf8 n = true -> valid_asset n) as Hvalid.
  { intros n [[?%Nat.leb_le ?%Nat.leb_le]%andb_true_iff ?]%andb_true_iff. by split. }
  apply (alias_attestations_count (pool_of 20) 7 1 5 (StakeInfo_new 7 MIN_VALIDATOR_STAKE 0) LICN aliases).
  - vm_compute. reflexivity.
  - vm_compute. reflexivity.
  - vm_compute. reflexivity.
  - unfold u64_max. lia.
  - apply Hvalid. vm_compute. reflexivity.
  - assert (forallb (fun n => (1 <=? length n)%nat && (length n <=? 16)%nat && is_utf8 n) aliases = true) as Hall
      by (vm_compute; reflexivity).
    rewrite List.forallb_forall in Hall. apply Forall_forall. intros n Hn. apply Hvalid, Hall. by apply list_elem_of_In.
  - apply NoDup_fmap_2; [|apply NoDup_seq]. intros x y E. injection E. lia.
  - apply Forall_fmap, Forall_true. intros c. exists [Z.of_nat c]. reflexivity.
  - cbn. lia.
  - vm_compute. reflexivity.
  - vm_compute. split; congruence.
Defined.
End SampleOracle.
