(* ===== verification/ContractLife.v ===== *)
(** * The life of a contract

    Models [core/src/processor/contract_lifecycle.rs], the deployment of
    [core/src/processor/contract_execution.rs], the validation of code in
    [ContractRuntime::deploy] of [core/src/contract.rs], [core/src/processor/contract_metadata.rs]
    and the symbol registry: how a contract comes to an address, who may replace its code and
    after which delay, and how it is closed.

    The functions that end in [_as_owner] are shared by the instructions, which refuse a governed
    owner, and by governance, which calls them for the authority of a proposal.  JSON and base58
    are decoded by libraries; what they yield is the class [DeployJson], and what the engine tells
    about a module is the class [WasmModule]. *)

From S2P Require Import Prelude Crypto Block Account Transactions Fees Rent Transfers Restrictions StakingV2.
From S2P Require Import Governed GovernanceActions Governance GovernanceEffects Processor.
From stdpp Require Import base tactics numbers list gmap strings.
From Stdlib Require Import ZArith Lia.

Local Open Scope Z_scope.
Local Open Scope rust_scope.

Class WasmModule := {
  module_compiles : bytes -> bool;
  (** The module names of the imports. *)
  module_imports : bytes -> list bytes;
  (** Initial and maximal pages of the exported memories. *)
  module_memories : bytes -> list (Z * option Z);
  (** The names of the exported functions, and the part of an ABI that describes their types. *)
  module_functions : bytes -> list bytes;
  module_types : bytes -> bytes;
}.

Record DeployRegistryData := mkDeployRegistryData {
  dr_symbol : option bytes;
  dr_name : option bytes;
  dr_template : option bytes;
  dr_metadata : option bytes;
  dr_upgrade_authority : option bytes;
  dr_make_public : option bool;
  dr_abi : option ContractAbi;
  dr_decimals : option Z;
}.

(** A value inside a JSON object: its texts are UTF-8. *)
Inductive JsonScalar := JsonText (b : bytes) | JsonNumber (b : bytes) | JsonBool (b : bool) | JsonNested.

Class DeployJson := {
  json_deploy_registry : bytes -> option DeployRegistryData;
  (** [as_object], the entries in the order of the map, and [to_vec] of a map. *)
  json_object : bytes -> option (list (bytes * JsonScalar));
  json_object_bytes : list (bytes * JsonScalar) -> bytes;
  pubkey_from_base58 : bytes -> option Pubkey;
}.

Inductive LifeError :=
| LifeAccounts
| LifeCode
| LifeExists (contract : Pubkey)
| LifeNotFound (contract : Pubkey)
| LifeDecode (contract : Pubkey)
| LifeEncode
| LifeNotExecutable (contract : Pubkey)
| LifeNotOwner (signer : Pubkey)
| LifeGoverned
| LifeDeployBlocked (code_hash : Hash)
| LifePending
| LifeNoPending
| LifeTimelocked (execute_after_epoch : Z)
| LifeNoAuthority
| LifeNotAuthority (signer : Pubkey)
| LifeBonded
| LifeTransfer (e : TransferError)
| LifeSymbol
| LifeSymbolTaken (symbol : bytes)
| LifeField (e : ActionError)
| LifeMetadata
| LifeAbi.

Definition MAX_CONTRACT_CODE : Z := 524288.
Definition MAX_WASM_MEMORY_PAGES : Z := 1024.

(** ** Code *)

Definition ContractRuntime_deploy `{Crypto} `{WasmModule} (bytecode : bytes) : result Hash LifeError :=
  if negb (module_compiles bytecode) then Err LifeCode
  else if existsb (fun name => negb (bool_decide (name = str_bytes "env"))) (module_imports bytecode) then Err LifeCode
  else if existsb (fun m => (MAX_WASM_MEMORY_PAGES <? m.1)
                            || match m.2 with Some max => MAX_WASM_MEMORY_PAGES <? max | None => false end)
            (module_memories bytecode) then Err LifeCode
  else Ok (Hash_hash bytecode).

(** [ContractAbi::from_wasm]: the exports that are not internal. *)
Definition abi_from_wasm `{WasmModule} (code : bytes) : option ContractAbi :=
  if negb (module_compiles code) then None
  else
    let functions :=
      map (fun name => mkAbiFunction name None false None)
        (base.filter (fun name => negb (bool_decide (take 2 name = str_bytes "__") || bool_decide (name = str_bytes "memory")))
           (module_functions code)) in
    match functions with [] => None | _ => Some (mkContractAbi functions (module_types code)) end.

Definition WASM_MAGIC : bytes := [0; 97; 115; 109].

(** ** Contract records *)

Definition set_ca_code : bytes -> ContractAccount -> ContractAccount := ltac:(setter eta_ContractAccount ca_code).
Definition set_ca_code_hash : Hash -> ContractAccount -> ContractAccount := ltac:(setter eta_ContractAccount ca_code_hash).
Definition set_ca_abi : option ContractAbi -> ContractAccount -> ContractAccount := ltac:(setter eta_ContractAccount ca_abi).
Definition set_ca_version : Z -> ContractAccount -> ContractAccount := ltac:(setter eta_ContractAccount ca_version).
Definition set_ca_previous_code_hash : option Hash -> ContractAccount -> ContractAccount :=
  ltac:(setter eta_ContractAccount ca_previous_code_hash).
Definition set_ca_upgrade_timelock_epochs : option Z -> ContractAccount -> ContractAccount :=
  ltac:(setter eta_ContractAccount ca_upgrade_timelock_epochs).
Definition set_ca_pending_upgrade : option PendingUpgrade -> ContractAccount -> ContractAccount :=
  ltac:(setter eta_ContractAccount ca_pending_upgrade).

(** The code of a contract replaced, with its history. *)
Definition replace_code (code : bytes) (code_hash : Hash) (c : ContractAccount) : ContractAccount :=
  set_ca_pending_upgrade None (set_ca_code_hash code_hash (set_ca_code code
    (set_ca_version (Z.min (ca_version c + 1) u32_max) (set_ca_previous_code_hash (Some (ca_code_hash c)) c)))).

Section life.
Context `{Crypto} `{ContractCodec} `{WasmModule} `{DeployJson}.
Variable env : GovernanceEnv.

Definition set_ac_executable : bool -> Account -> Account := ltac:(setter eta_Account ac_executable).

(** The record at an address, executable or not. *)
Definition load_contract_record (contract : Pubkey) (s : GovernanceState)
  : result (Account * ContractAccount) LifeError :=
  or_err (gv_accounts s !! contract) (LifeNotFound contract) (fun account =>
  or_err (contract_of_bytes (ac_data account)) (LifeDecode contract) (fun c => Ok (account, c))).

Definition put_contract (contract : Pubkey) (account : Account) (c : ContractAccount) (s : GovernanceState)
  : result GovernanceState LifeError :=
  or_err (contract_bytes c) LifeEncode (fun data =>
  Ok (set_gv_accounts (<[contract := set_ac_data data account]> (gv_accounts s)) s)).

(** A change of the record that its owner makes. *)
Definition as_owner (owner contract : Pubkey) (change : ContractAccount -> result ContractAccount LifeError)
  (s : GovernanceState) : result GovernanceState LifeError :=
  let? '(account, c) := load_contract_record contract s in
  if negb (ca_owner c =? owner) then Err (LifeNotOwner owner)
  else let? c := change c in put_contract contract account c s.

Definition contract_owner_requires_governance_flow (owner : Pubkey) : bool :=
  match get_governed_governance_authority env with Some (authority, _) => authority =? owner | None => false end.

Definition ensure_code_hash_not_deploy_blocked (code_hash : Hash) (s : GovernanceState) : result unit LifeError :=
  let active_records :=
    get_active_restrictions_for_target (batch_view (gv_restrictions s)) (TCodeHash code_hash) (gn_slot env) 0 in
  if existsb (fun r => bool_decide (rr_mode r = DeployBlocked)) active_records
  then Err (LifeDeployBlocked code_hash) else Ok tt.

(** ** Upgrades *)

Definition contract_upgrade_as_owner (owner contract : Pubkey) (new_code : bytes) (s : GovernanceState)
  : result GovernanceState LifeError :=
  as_owner owner contract (fun c =>
    let? new_hash := ContractRuntime_deploy new_code in
    let? _ := ensure_code_hash_not_deploy_blocked new_hash s in
    match ca_upgrade_timelock_epochs c with
    | Some timelock_epochs =>
        if 0 <? timelock_epochs then
          if is_some (ca_pending_upgrade c) then Err LifePending
          else
            let current_epoch := gn_epoch env in
            Ok (set_ca_pending_upgrade
                  (Some (mkPendingUpgrade new_code new_hash current_epoch (wrap64 (current_epoch + timelock_epochs)))) c)
        else Ok (replace_code new_code new_hash c)
    | None => Ok (replace_code new_code new_hash c)
    end) s.

Definition contract_set_upgrade_timelock_as_owner (owner contract : Pubkey) (epochs : Z) (s : GovernanceState)
  : result GovernanceState LifeError :=
  as_owner owner contract (fun c =>
    if (epochs =? 0) && is_some (ca_pending_upgrade c) then Err LifePending
    else Ok (set_ca_upgrade_timelock_epochs (if epochs =? 0 then None else Some epochs) c)) s.

Definition contract_execute_upgrade_as_owner (owner contract : Pubkey) (s : GovernanceState)
  : result GovernanceState LifeError :=
  as_owner owner contract (fun c =>
    or_err (ca_pending_upgrade c) LifeNoPending (fun pending =>
    if gn_epoch env <=? pu_execute_after_epoch pending then Err (LifeTimelocked (pu_execute_after_epoch pending))
    else
      let? _ := ensure_code_hash_not_deploy_blocked (pu_code_hash pending) s in
      Ok (replace_code (pu_code pending) (pu_code_hash pending) c))) s.

Definition contract_veto_upgrade_as_authority (authority contract : Pubkey) (s : GovernanceState)
  : result GovernanceState LifeError :=
  let? '(account, c) := load_contract_record contract s in
  if negb (is_some (ca_pending_upgrade c)) then Err LifeNoPending
  else
    or_err (gn_governance_authority env) LifeNoAuthority (fun governance_authority =>
    if negb (authority =? governance_authority) then Err (LifeNotAuthority authority)
    else put_contract contract account (set_ca_pending_upgrade None c) s).

Definition set_contract_abi_as_owner (owner contract : Pubkey) (abi : ContractAbi) (s : GovernanceState)
  : result GovernanceState LifeError :=
  or_err (gv_accounts s !! contract) (LifeNotFound contract) (fun account =>
  if negb (ac_executable account) then Err (LifeNotExecutable contract)
  else as_owner owner contract (fun c => Ok (set_ca_abi (Some abi) c)) s).

(** ** Closing *)

Definition contract_close_as_owner (owner contract destination : Pubkey) (s : GovernanceState)
  : result GovernanceState LifeError :=
  let? '(account, c) := load_contract_record contract s in
  if negb (ca_owner c =? owner) then Err (LifeNotOwner owner)
  else if 0 <? ac_staked account then Err LifeBonded
  else if 0 <? ac_locked account then Err LifeBonded
  else
    let spendable := ac_spendable account in
    let? accounts :=
      if 0 <? spendable
      then map_err LifeTransfer
             (transfer (native_transfer_blocked (batch_view (gv_restrictions s)) (gn_slot env)) contract destination
                spendable (gv_accounts s))
      else Ok (gv_accounts s) in
    let closed_account := default account (accounts !! contract) in
    Ok (set_gv_accounts (<[contract := set_ac_data [] (set_ac_executable false closed_account)]> accounts) s).

(** ** Instructions *)

(** An instruction of the owner, which a governed owner may not use. *)
Definition owner_instruction (ix : Instruction) (f : Pubkey -> Pubkey -> result GovernanceState LifeError)
  : result GovernanceState LifeError :=
  match ix_accounts ix with
  | owner :: contract :: _ => if contract_owner_requires_governance_flow owner then Err LifeGoverned else f owner contract
  | _ => Err LifeAccounts
  end.

Definition contract_upgrade (ix : Instruction) (new_code : bytes) (s : GovernanceState) : result GovernanceState LifeError :=
  owner_instruction ix (fun owner contract => contract_upgrade_as_owner owner contract new_code s).
Definition contract_set_upgrade_timelock (ix : Instruction) (epochs : Z) (s : GovernanceState)
  : result GovernanceState LifeError :=
  owner_instruction ix (fun owner contract => contract_set_upgrade_timelock_as_owner owner contract epochs s).
Definition contract_execute_upgrade (ix : Instruction) (s : GovernanceState) : result GovernanceState LifeError :=
  owner_instruction ix (fun owner contract => contract_execute_upgrade_as_owner owner contract s).

Definition contract_veto_upgrade (ix : Instruction) (s : GovernanceState) : result GovernanceState LifeError :=
  match ix_accounts ix with
  | signer :: contract :: _ =>
      or_err (gn_governance_authority env) LifeNoAuthority (fun governance_authority =>
      if is_some (gn_config env governance_authority) then Err LifeGoverned
      else if negb (signer =? governance_authority) then Err (LifeNotAuthority signer)
      else contract_veto_upgrade_as_authority signer contract s)
  | _ => Err LifeAccounts
  end.

Definition contract_close (ix : Instruction) (s : GovernanceState) : result GovernanceState LifeError :=
  match ix_accounts ix with
  | owner :: contract :: destination :: _ =>
      if contract_owner_requires_governance_flow owner then Err LifeGoverned
      else contract_close_as_owner owner contract destination s
  | _ => Err LifeAccounts
  end.

Definition system_set_contract_abi `{Json} (ix : Instruction) (s : GovernanceState) : result GovernanceState LifeError :=
  match ix_accounts ix with
  | owner :: contract :: _ =>
      if zlen (ix_data ix) <? 2 then Err LifeAbi
      else
        or_err (json_abi (drop 1 (ix_data ix))) LifeAbi (fun abi =>
        if contract_owner_requires_governance_flow owner then Err LifeGoverned
        else set_contract_abi_as_owner owner contract abi s)
  | _ => Err LifeAccounts
  end.

(** ** Symbols *)

Record SymbolRegistryEntry := mkSymbolRegistryEntry {
  se_symbol : bytes;
  se_program : Pubkey;
  se_owner : Pubkey;
  se_name : option bytes;
  se_template : option bytes;
  se_metadata : option bytes;
  se_decimals : option Z;
}.

(** The registry as committed, what the batch of the transaction adds to it, the reverse index
    and the list of public programs. *)
Record LifeState := mkLifeState {
  lf_gov : GovernanceState;
  lf_symbols : gmap bytes SymbolRegistryEntry;
  lf_overlay : gmap bytes SymbolRegistryEntry;
  lf_by_program : gmap Pubkey bytes;
  lf_programs : gset Pubkey;
}.

Definition set_lf_gov (g : GovernanceState) (s : LifeState) : LifeState :=
  mkLifeState g (lf_symbols s) (lf_overlay s) (lf_by_program s) (lf_programs s).
Definition put_symbol (k : bytes) (e : SymbolRegistryEntry) (s : LifeState) : LifeState :=
  mkLifeState (lf_gov s) (lf_symbols s) (<[k := e]> (lf_overlay s)) (<[se_program e := k]> (lf_by_program s))
    (lf_programs s).
Definition index_program (k : Pubkey) (s : LifeState) : LifeState :=
  mkLifeState (lf_gov s) (lf_symbols s) (lf_overlay s) (lf_by_program s) ({[k]} ∪ lf_programs s).

(** The encodings of the characters [char::is_whitespace] accepts. *)
Definition white : list bytes :=
  map (fun b => [b]) [9; 10; 11; 12; 13; 32] ++ [[194; 133]; [194; 160]; [225; 154; 128]]
  ++ map (fun b => [226; 128; b]) [128; 129; 130; 131; 132; 133; 134; 135; 136; 137; 138; 168; 169; 175]
  ++ [[226; 129; 159]; [227; 128; 128]].

Fixpoint strip (table : list bytes) (fuel : nat) (l : bytes) : bytes :=
  match fuel with
  | O => l
  | S fuel =>
      match find (fun w => bool_decide (take (length w) l = w)) table with
      | Some w => strip table fuel (drop (length w) l)
      | None => l
      end
  end.

Definition trim (raw : bytes) : bytes :=
  let l := strip white (length raw) raw in
  reverse (strip (map (fun w => reverse w) white) (length l) (reverse l)).

Definition ascii_alphanumeric (b : Z) : bool :=
  ((48 <=? b) && (b <=? 57)) || ((65 <=? b) && (b <=? 90)) || ((97 <=? b) && (b <=? 122)).
Definition ascii_uppercase (b : Z) : Z := if (97 <=? b) && (b <=? 122) then b - 32 else b.

Definition normalize_symbol (raw : bytes) : result bytes LifeError :=
  let trimmed := trim raw in
  if zlen trimmed =? 0 then Err LifeSymbol
  else if negb (forallb ascii_alphanumeric trimmed) then Err LifeSymbol
  else
    let normalized := map ascii_uppercase trimmed in
    if 10 <? zlen normalized then Err LifeSymbol else Ok normalized.

(** [char::is_control] on UTF-8: U+0000 to U+001F, U+007F, and U+0080 to U+009F, which are the
    pairs of 194 and a byte up to 159. *)
Fixpoint strip_control (l : bytes) : bytes :=
  match l with
  | [] => []
  | 194 :: ((b :: l') as l1) => if b <=? 159 then strip_control l' else 194 :: strip_control l1
  | a :: l' => if (a <=? 31) || (a =? 127) then strip_control l' else a :: strip_control l'
  end.
Definition has_control (l : bytes) : bool := negb (bool_decide (strip_control l = l)).

Definition MAX_SYMBOL_REGISTRY_METADATA_KEY_LEN : Z := 64.

Fixpoint sanitize_entries (l : list (bytes * JsonScalar)) : result (list (bytes * JsonScalar)) LifeError :=
  match l with
  | [] => Ok []
  | (key, value) :: l =>
      let? _ := map_err LifeField (validate_symbol_registry_field_length key MAX_SYMBOL_REGISTRY_METADATA_KEY_LEN) in
      if has_control key then Err LifeMetadata
      else
        let? sanitized :=
          match value with
          | JsonText t => Ok (JsonText (strip_control t))
          | JsonNumber _ | JsonBool _ => Ok value
          | JsonNested => Err LifeMetadata
          end in
        let? clean := sanitize_entries l in Ok ((key, sanitized) :: clean)
  end.

Definition validate_and_sanitize_metadata (metadata : option bytes) : result (option bytes) LifeError :=
  match metadata with
  | None => Ok None
  | Some meta =>
      or_err (json_object meta) LifeMetadata (fun obj =>
      let? clean := sanitize_entries obj in
      let serialized := json_object_bytes clean in
      if 1024 <? zlen serialized then Err LifeMetadata else Ok (Some serialized))
  end.

(** [StateBatch::register_symbol] *)
Definition register_symbol (symbol : bytes) (entry : SymbolRegistryEntry) (s : LifeState)
  : result LifeState LifeError :=
  let? normalized := normalize_symbol symbol in
  if is_some (lf_symbols s !! normalized) then Err (LifeSymbolTaken normalized)
  else if is_some (lf_overlay s !! normalized) then Err (LifeSymbolTaken normalized)
  else
    Ok (put_symbol normalized
          (mkSymbolRegistryEntry normalized (se_program entry) (se_owner entry) (se_name entry) (se_template entry)
             (se_metadata entry) (se_decimals entry)) s).

Definition b_register_symbol (symbol : bytes) (entry : SymbolRegistryEntry) (s : LifeState)
  : result LifeState LifeError :=
  let? metadata := validate_and_sanitize_metadata (se_metadata entry) in
  register_symbol symbol
    (mkSymbolRegistryEntry (se_symbol entry) (se_program entry) (se_owner entry) (se_name entry) (se_template entry)
       metadata (se_decimals entry)) s.

Definition symbol_exists (symbol : bytes) (s : LifeState) : result bool LifeError :=
  let? normalized := normalize_symbol symbol in
  Ok (is_some (lf_overlay s !! normalized) || is_some (lf_symbols s !! normalized)).

Definition get_symbol_registry (symbol : bytes) (s : LifeState) : result (option SymbolRegistryEntry) LifeError :=
  let? normalized := normalize_symbol symbol in Ok (lf_symbols s !! normalized).

Definition register_symbol_as_owner (owner contract : Pubkey) (registration : SymbolRegistrationSpec) (s : LifeState)
  : result LifeState LifeError :=
  or_err (gv_accounts (lf_gov s) !! contract) (LifeNotFound contract) (fun account =>
  if negb (ac_executable account) then Err (LifeNotExecutable contract)
  else
    or_err (contract_of_bytes (ac_data account)) (LifeDecode contract) (fun c =>
    if negb (ca_owner c =? owner) then Err (LifeNotOwner owner)
    else
      let? _ :=
        match symbol_exists (sr_symbol registration) s with
        | Ok true =>
            match get_symbol_registry (sr_symbol registration) s with
            | Ok (Some existing) =>
                if negb (se_program existing =? contract) then Err (LifeSymbolTaken (sr_symbol registration)) else Ok tt
            | _ => Err (LifeSymbolTaken (sr_symbol registration))
            end
        | _ => Ok tt
        end in
      b_register_symbol (sr_symbol registration)
        (mkSymbolRegistryEntry (sr_symbol registration) contract owner (sr_name registration) (sr_template registration)
           (sr_metadata registration) (sr_decimals registration)) s)).

Definition system_register_symbol `{Json} (ix : Instruction) (s : LifeState) : result LifeState LifeError :=
  match ix_accounts ix with
  | owner :: contract :: _ =>
      if zlen (ix_data ix) <? 2 then Err LifeSymbol
      else
        or_err (gv_accounts (lf_gov s) !! contract) (LifeNotFound contract) (fun account =>
        if negb (ac_executable account) then Err (LifeNotExecutable contract)
        else
          or_err (contract_of_bytes (ac_data account)) (LifeDecode contract) (fun c =>
          if negb (ca_owner c =? owner) then Err (LifeNotOwner owner)
          else if contract_owner_requires_governance_flow owner then Err LifeGoverned
          else
            let? registration := map_err LifeField (parse_symbol_registration_fields (drop 1 (ix_data ix))) in
            register_symbol_as_owner owner contract registration s))
  | _ => Err LifeAccounts
  end.

(** ** Deployment *)

Definition from_init_data (init_data : bytes) : option DeployRegistryData :=
  if zlen init_data =? 0 then None
  else if negb (is_utf8 init_data) then None
  else json_deploy_registry init_data.

(** The owner the registry data give the contract. *)
Definition deploy_owner (deployer : Pubkey) (registry : DeployRegistryData) : Pubkey :=
  match dr_upgrade_authority registry with
  | Some raw_owner =>
      if bool_decide (raw_owner = str_bytes "none") then SYSTEM_PROGRAM_ID
      else match pubkey_from_base58 raw_owner with Some custom_owner => custom_owner | None => deployer end
  | None => deployer
  end.

Definition deploy_symbol (contract owner : Pubkey) (registry : DeployRegistryData) (s : LifeState)
  : result LifeState LifeError :=
  match dr_symbol registry with
  | Some symbol =>
      b_register_symbol symbol
        (mkSymbolRegistryEntry symbol contract owner (dr_name registry) (dr_template registry) (dr_metadata registry)
           (dr_decimals registry)) s
  | None => Ok s
  end.

Definition contract_deploy (ix : Instruction) (code init_data : bytes) (s : LifeState) : result LifeState LifeError :=
  match ix_accounts ix with
  | deployer :: contract_address :: _ =>
      if zlen code =? 0 then Err LifeCode
      else if MAX_CONTRACT_CODE <? zlen code then Err LifeCode
      else if (zlen code <? 8) || negb (bool_decide (take 4 code = WASM_MAGIC)) then Err LifeCode
      else if is_some (gv_accounts (lf_gov s) !! contract_address) then Err (LifeExists contract_address)
      else
        let? code_hash := ContractRuntime_deploy code in
        let? _ := ensure_code_hash_not_deploy_blocked code_hash (lf_gov s) in
        let? '(owner, make_public, deployer_abi, s) :=
          match from_init_data init_data with
          | Some registry =>
              let owner := deploy_owner deployer registry in
              let? s := deploy_symbol contract_address owner registry s in
              Ok (owner, default true (dr_make_public registry), dr_abi registry, s)
          | None => Ok (deployer, true, None, s)
          end in
        let contract := ContractAccount_new (abi_from_wasm code) code owner in
        let contract := match deployer_abi with Some abi => set_ca_abi (Some abi) contract | None => contract end in
        or_err (contract_bytes contract) LifeEncode (fun data =>
        let account := set_ac_executable true (set_ac_data data (Account_new 0 contract_address)) in
        let gov := lf_gov s in
        let s := set_lf_gov (set_gv_accounts (<[contract_address := account]> (gv_accounts gov)) gov) s in
        Ok (if make_public then index_program contract_address s else s))
  | _ => Err LifeAccounts
  end.
End life.

(** ** Actions of proposals *)

Section actions.
Context `{Crypto} `{ContractCodec} `{WasmModule} `{DeployJson}.
(** Calls and symbols, which do not only touch accounts. *)
Variable other_action :
  GovernanceEnv -> Pubkey -> GovernanceAction -> GovernanceState -> result GovernanceState GovernanceError.

(** The contract actions of [try_execute_governance_proposal]. *)
Definition contract_life_action (env : GovernanceEnv) (authority : Pubkey) (action : GovernanceAction)
  (s : GovernanceState) : result GovernanceState GovernanceError :=
  let failed := map_err (fun _ : LifeError => ContractActionError []) in
  match action with
  | ContractUpgrade contract code => failed (contract_upgrade_as_owner env authority contract code s)
  | SetContractUpgradeTimelock contract epochs =>
      failed (contract_set_upgrade_timelock_as_owner authority contract epochs s)
  | ExecuteContractUpgrade contract => failed (contract_execute_upgrade_as_owner env authority contract s)
  | VetoContractUpgrade contract => failed (contract_veto_upgrade_as_authority env authority contract s)
  | ContractClose contract destination => failed (contract_close_as_owner env authority contract destination s)
  | SetContractAbi contract abi => failed (set_contract_abi_as_owner authority contract abi s)
  | action => other_action env authority action s
  end.

Lemma put_contract_keeps contract account c s s' : put_contract contract account c s = Ok s' -> same_governance s s'.
Proof using Type. unfold put_contract. rewrite or_err_Ok. by intros (data & _ & [= <-]). Qed.

Lemma as_owner_keeps owner contract change s s' : as_owner owner contract change s = Ok s' -> same_governance s s'.
Proof using Type.
  unfold as_owner. intros ([account c] & _ & Hr)%and_then_Ok. apply guard_Ok in Hr as [_ Hr].
  apply and_then_Ok in Hr as (c' & _ & Hr). by eapply put_contract_keeps.
Qed.

(** The actions on contracts leave governance alone, so that what is proved of runs of
    governance with any such actions holds with these. *)
Lemma contract_life_keeps : contract_action_keeps other_action -> contract_action_keeps contract_life_action.
Proof using Type.
  intros Hother env k a s s'. destruct a; cbn [contract_life_action]; try apply Hother; intros Hr%map_err_Ok;
    try (by eapply as_owner_keeps).
  - unfold contract_veto_upgrade_as_authority in Hr. apply and_then_Ok in Hr as ([account c] & _ & Hr).
    apply guard_Ok in Hr as [_ Hr]. apply or_err_Ok in Hr as (ga & _ & Hr). apply guard_Ok in Hr as [_ Hr]. by eapply put_contract_keeps.
  - unfold contract_close_as_owner in Hr. apply and_then_Ok in Hr as ([account c] & _ & Hr).
    do 3 apply guard_Ok in Hr as [_ Hr]. by apply and_then_Ok in Hr as (m & _ & [= <-]).
  - unfold set_contract_abi_as_owner in Hr. apply or_err_Ok in Hr as (account & _ & Hr).
    apply guard_Ok in Hr as [_ Hr]. by eapply as_owner_keeps.
Qed.
End actions.
