(* ===== verification/UpgradeSafety.v ===== *)
(** * Which code a contract runs, and who decided it

    The life of a contract told by the history of its instructions ([Life], [life_after]) and the
    proof that the stored records follow it; the delay of staged upgrades is read off that history.

    A second part follows the value of an address nobody has used yet: a deployment takes any such
    address, and closing the contract takes what was paid to it. *)

From S2P Require Import Prelude Crypto Block Account Transactions Fees Rent Transfers Restrictions StakingV2.
From S2P Require Import Governed GovernanceActions Governance GovernanceEffects Processor ContractLife.
From stdpp Require Import base tactics numbers list gmap strings.
From Stdlib Require Import ZArith Lia.

Local Open Scope Z_scope.
Local Open Scope rust_scope.

(** ** The abstract life *)

Record Staged := mkStaged { sg_by : Pubkey; sg_code : bytes; sg_epoch : Z; sg_delay : Z }.

(** A contract as its owner and its users see it. *)
Record Life := mkLife {
  lv_owner : Pubkey;
  lv_code : bytes;
  lv_version : Z;
  lv_previous : option bytes;
  lv_timelock : option Z;
  lv_staged : option Staged;
}.

Inductive LifeEvent :=
| EDeploy (contract owner : Pubkey) (code : bytes)
| EUpgrade (owner contract : Pubkey) (code : bytes)
| ETimelock (owner contract : Pubkey) (epochs : Z)
| EExecute (owner contract : Pubkey)
| EVeto (authority contract : Pubkey)
| EClose (owner contract destination : Pubkey)
| EOther.

Definition event_contract (e : LifeEvent) : option Pubkey :=
  match e with
  | EDeploy c _ _ | EUpgrade _ c _ | ETimelock _ c _ | EExecute _ c | EVeto _ c | EClose _ c _ => Some c
  | EOther => None
  end.

Definition new_code (code : bytes) (l : Life) : Life :=
  mkLife (lv_owner l) code (Z.min (lv_version l + 1) u32_max) (Some (lv_code l)) (lv_timelock l) None.
Definition with_timelock (t : option Z) (l : Life) : Life :=
  mkLife (lv_owner l) (lv_code l) (lv_version l) (lv_previous l) t (lv_staged l).
Definition with_staged (g : option Staged) (l : Life) : Life :=
  mkLife (lv_owner l) (lv_code l) (lv_version l) (lv_previous l) (lv_timelock l) g.

(** What an event of a contract does to its life. *)
Definition life_event (epoch : Z) (e : LifeEvent) (l : option Life) : option Life :=
  match e with
  | EDeploy _ owner code => Some (mkLife owner code 1 None None None)
  | EClose _ _ _ => None
  | EUpgrade owner _ code =>
      (fun l => match lv_timelock l with
                | Some t => with_staged (Some (mkStaged owner code epoch t)) l
                | None => new_code code l
                end) <$> l
  | ETimelock _ _ epochs => with_timelock (if epochs =? 0 then None else Some epochs) <$> l
  | EExecute _ _ =>
      (fun l => match lv_staged l with Some g => new_code (sg_code g) l | None => l end) <$> l
  | EVeto _ _ => with_staged None <$> l
  | EOther => l
  end.

(** A history, with the environment in which each event happened. *)
Definition History := list (GovernanceEnv * LifeEvent).

Definition about (c : Pubkey) (x : GovernanceEnv * LifeEvent) : bool := bool_decide (event_contract x.2 = Some c).

Definition life_next (c : Pubkey) (l : option Life) (x : GovernanceEnv * LifeEvent) : option Life :=
  if about c x then life_event (gn_epoch x.1) x.2 l else l.

Section histories.
(** The contracts that stand when the history begins. *)
Variable start : Pubkey -> option Life.

Definition life_after (c : Pubkey) (h : History) : option Life := foldl (life_next c) (start c) h.

(** Nothing is staged at the start, and a delay is a positive number of 32 bits. *)
Definition fresh_start : Prop :=
  forall c l, start c = Some l -> lv_staged l = None
    /\ match lv_timelock l with Some t => 1 <= t <= u32_max | None => True end.

Lemma life_after_snoc c h x : life_after c (h ++ [x]) = life_next c (life_after c h) x.
Proof. unfold life_after. by rewrite foldl_app. Qed.

(** The events after which what was staged is staged no more. *)
Definition settles (c : Pubkey) (x : GovernanceEnv * LifeEvent) : bool :=
  about c x && match x.2 with ETimelock _ _ _ => false | _ => true end.

(** A staged upgrade comes from the last event of the contract that is not a change of its
    delay, by the one who staged it and under the delay of that moment. *)
Lemma staged_from c h l g :
  fresh_start -> life_after c h = Some l -> lv_staged l = Some g ->
  exists h1 env h2 l1, h = h1 ++ (env, EUpgrade (sg_by g) c (sg_code g)) :: h2
    /\ gn_epoch env = sg_epoch g /\ life_after c h1 = Some l1 /\ lv_timelock l1 = Some (sg_delay g)
    /\ Forall (fun x => settles c x = false) h2.
Proof.
  intros Hf. revert l. induction h as [|x h IH] using rev_ind; intros l.
  { intros Hl Hg. destruct (Hf c l Hl) as [Hn _]. congruence. }
  rewrite life_after_snoc.
  intros Hl Hg. destruct (settles c x) eqn:Hs.
  - unfold settles in Hs. apply andb_true_iff in Hs as [Ha Hs]. unfold life_next in Hl. rewrite Ha in Hl.
    apply bool_decide_eq_true in Ha. destruct x as [env e]. cbn [fst snd] in *.
    destruct e; cbn [life_event event_contract] in Hl, Ha; try done; simplify_eq.
    + destruct (life_after c h) as [l0|] eqn:Hl0; [|done]. cbn in Hl.
      destruct (lv_timelock l0) as [t|] eqn:Ht; injection Hl as <-; cbn in Hg; [|done]. injection Hg as <-.
      exists h, env, [], l0. by split_and!.
    + destruct (life_after c h) as [l0|]; [|done]. cbn in Hl. destruct (lv_staged l0) eqn:?; injection Hl as <-; cbn in Hg; congruence.
    + destruct (life_after c h) as [l0|]; [|done]. cbn in Hl. by injection Hl as <-.
  - assert (exists l0, life_after c h = Some l0 /\ lv_staged l0 = Some g) as (l0 & Hl0 & Hg0).
    { unfold life_next in Hl. unfold settles in Hs. destruct (about c x); [|by exists l].
      destruct x as [env []]; try done. cbn in Hl. destruct (life_after c h) as [l0|]; [|done]. cbn in Hl.
      exists l0. split; [done|]. by simplify_eq. }
    destruct (IH l0 Hl0 Hg0) as (h1 & env & h2 & l1 & -> & ? & ? & ? & ?).
    exists h1, env, (h2 ++ [x]), l1. split_and!; try done; [by rewrite <-app_assoc|].
    apply Forall_app. split; [done|]. by apply Forall_singleton.
Qed.

(** A delay is always positive, and what is staged carries the delay of its time. *)
Definition life_ok (l : Life) : Prop :=
  match lv_timelock l with Some t => 1 <= t <= u32_max | None => True end
  /\ match lv_staged l with Some g => 1 <= sg_delay g <= u32_max | None => True end.

Definition event_ok (e : LifeEvent) : Prop :=
  match e with ETimelock _ _ epochs => 0 <= epochs <= u32_max | _ => True end.

Lemma life_after_ok c h l :
  fresh_start -> Forall (fun x => event_ok x.2) h -> life_after c h = Some l -> life_ok l.
Proof.
  intros Hf. revert l. induction h as [|x h IH] using rev_ind; intros l Hh.
  { intros Hl. destruct (Hf c l Hl) as [Hn Ht]. split; [done|]. by rewrite Hn. }
  apply Forall_app in Hh as [Hh Hx]. rewrite Forall_singleton in Hx. rewrite life_after_snoc. unfold life_next.
  destruct (about c x); [|by apply IH]. destruct (life_after c h) as [l0|] eqn:Hl0.
  2:{ destruct x as [env []]; cbn; try done. intros [= <-]. by split. }
  destruct (IH l0 Hh eq_refl) as [Ht Hg]. destruct x as [env []]; cbn in Hx |- *; try done; intros [= <-]; try by split.
  - destruct (lv_timelock l0) eqn:E; split; cbn; rewrite ?E; done.
  - split; cbn; [|done]. destruct (Z.eqb_spec epochs 0); [done|lia].
  - destruct (lv_staged l0) eqn:E; split; cbn; rewrite ?E; done.
Qed.
End histories.

(** ** The stored records *)

Definition pending_of `{Crypto} (g : Staged) : PendingUpgrade :=
  mkPendingUpgrade (sg_code g) (Hash_hash (sg_code g)) (sg_epoch g) (sg_epoch g + sg_delay g).

(** The part of a record that decides which code runs. *)
Definition view (r : ContractAccount)
  : Pubkey * bytes * Hash * Z * option Hash * option Z * option PendingUpgrade :=
  (ca_owner r, ca_code r, ca_code_hash r, ca_version r, ca_previous_code_hash r, ca_upgrade_timelock_epochs r,
   ca_pending_upgrade r).
Definition view_of `{Crypto} (l : Life)
  : Pubkey * bytes * Hash * Z * option Hash * option Z * option PendingUpgrade :=
  (lv_owner l, lv_code l, Hash_hash (lv_code l), lv_version l, Hash_hash <$> lv_previous l, lv_timelock l,
   pending_of <$> lv_staged l).

Section safety.
Context `{Crypto} `{ContractCodec} `{WasmModule} `{DeployJson} `{laws : !ContractCodecLaws}.
(** No text is no record. *)
Hypothesis empty_no_contract : contract_of_bytes [] = None.

Definition record (c : Pubkey) (s : GovernanceState) : option ContractAccount :=
  match gv_accounts s !! c with Some account => contract_of_bytes (ac_data account) | None => None end.
Definition views_kept (s s' : GovernanceState) : Prop := forall c, view <$> record c s' = view <$> record c s.

Definition env_ok (env : GovernanceEnv) : Prop := 0 <= gn_slot env <= u64_max.

(** The owner a deployment gives. *)
Definition owner_of_deploy (deployer : Pubkey) (init_data : bytes) : Pubkey :=
  match from_init_data init_data with Some registry => deploy_owner deployer registry | None => deployer end.

(** A step of the chain as contracts see it: their own instructions, from a transaction or from
    an executed proposal, and whatever leaves the views of all records alone. *)
Inductive life_step (env : GovernanceEnv) : GovernanceState -> LifeEvent -> GovernanceState -> Prop :=
| step_deploy ix code init_data ls ls' deployer c rest :
    ix_accounts ix = deployer :: c :: rest -> contract_deploy env ix code init_data ls = Ok ls' ->
    life_step env (lf_gov ls) (EDeploy c (owner_of_deploy deployer init_data) code) (lf_gov ls')
| step_upgrade owner c code s s' :
    contract_upgrade_as_owner env owner c code s = Ok s' -> life_step env s (EUpgrade owner c code) s'
| step_timelock owner c epochs s s' :
    contract_set_upgrade_timelock_as_owner owner c epochs s = Ok s' -> life_step env s (ETimelock owner c epochs) s'
| step_execute owner c s s' :
    contract_execute_upgrade_as_owner env owner c s = Ok s' -> life_step env s (EExecute owner c) s'
| step_veto authority c s s' :
    contract_veto_upgrade_as_authority env authority c s = Ok s' -> life_step env s (EVeto authority c) s'
| step_close owner c destination s s' :
    contract_close_as_owner env owner c destination s = Ok s' -> life_step env s (EClose owner c destination) s'
| step_other s s' : views_kept s s' -> life_step env s EOther s'.

(** *** Steps that leave the views alone *)

Lemma record_put c c' data account s :
  record c' (set_gv_accounts (<[c := set_ac_data data account]> (gv_accounts s)) s)
  = if decide (c = c') then contract_of_bytes data else record c' s.
Proof.
  unfold record. cbn. destruct (decide (c = c')) as [->|]; [by rewrite lookup_insert_eq|by rewrite lookup_insert_ne].
Qed.

Lemma put_contract_ok c account r s s' :
  put_contract c account r s = Ok s' ->
  forall c', record c' s' = if decide (c = c') then Some r else record c' s.
Proof using laws.
  unfold put_contract. rewrite or_err_Ok. intros (data & Hd & [= <-]) c'. rewrite record_put.
  by rewrite (contract_of_contract_bytes _ _ Hd).
Qed.

Lemma load_ok c s account r :
  load_contract_record c s = Ok (account, r) -> gv_accounts s !! c = Some account /\ record c s = Some r.
Proof using Type.
  unfold load_contract_record, record. rewrite or_err_Ok. intros (a & -> & H').
  apply or_err_Ok in H' as (r' & ? & [= <- <-]). done.
Qed.

(** What an owner's change does to the records. *)
Lemma as_owner_ok owner c change s s' :
  as_owner owner c change s = Ok s' ->
  exists r r', record c s = Some r /\ ca_owner r = owner /\ change r = Ok r'
    /\ forall c', record c' s' = if decide (c = c') then Some r' else record c' s.
Proof using laws.
  unfold as_owner. intros ([account r] & Hl & Hr)%and_then_Ok. apply guard_Ok in Hr as [Ho Hr].
  apply and_then_Ok in Hr as (r' & Hc & Hp). exists r, r'. apply load_ok in Hl as [_ Hl].
  apply negb_false_iff, Z.eqb_eq in Ho. split_and!; try done. by eapply put_contract_ok.
Qed.

(** A transfer keeps the data of accounts, and an account it creates has none. *)
Lemma transfer_views blocked from to amount s m' :
  transfer blocked from to amount (gv_accounts s) = Ok m' -> forall c, record c (set_gv_accounts m' s) = record c s.
Proof using empty_no_contract.
  unfold transfer. destruct (from =? to) eqn:Hft; [intros [= <-] c; by destruct s as [[]]|].
  rewrite or_err_Ok. intros (a & Ha & H'). apply guard_Ok in H' as [_ H']. apply guard_Ok in H' as [_ H'].
  destruct (Account_deduct_spendable amount a) as [[[]|e] a1] eqn:Hd; [|done].
  destruct (Account_add_spendable amount (account_or_new to (gv_accounts s))) as [[[]|e] b] eqn:Hadd; [|done].
  injection H' as <-. intros c. apply deduct_data in Hd. apply add_data in Hadd. unfold record. cbn.
  destruct (decide (to = c)) as [<-|Hc].
  - rewrite lookup_insert_eq.
    replace (ac_data (if ac_dormant b then _ else b)) with (ac_data b) by (by destruct (ac_dormant b)).
    rewrite Hadd. unfold account_or_new. by destruct (gv_accounts s !! to).
  - rewrite lookup_insert_ne by done. destruct (decide (from = c)) as [<-|Hf].
    + by rewrite lookup_insert_eq, Hd, Ha.
    + by rewrite lookup_insert_ne.
Qed.

(** Restrictions move the life cycle of a contract, not its code. *)
Lemma refresh_views c slot s s' : refresh_contract_lifecycle_from_restrictions c slot s = Ok s' -> views_kept s s'.
Proof using laws.
  unfold refresh_contract_lifecycle_from_restrictions. rewrite or_err_Ok. intros ([account r] & Hl & Hr) c'.
  destruct (sync_lifecycle_from_restrictions _ _ _ _) as [r'|] eqn:Hs; [|by injection Hr as <-].
  apply or_err_Ok in Hr as (data & Hd & [= <-]). rewrite record_put, (contract_of_contract_bytes _ _ Hd).
  assert (record c s = Some r) as Hrec.
  { unfold b_load_executable_contract in Hl. unfold record. destruct (gv_accounts s !! c) as [a|]; [|done].
    destruct (negb (ac_executable a)); [done|]. destruct (contract_of_bytes (ac_data a)) as [r0|]; [|done].
    by injection Hl as _ <-. }
  destruct (decide (c = c')) as [<-|]; [|done]. rewrite Hrec. unfold sync_lifecycle_from_restrictions in Hs.
  destruct (match strongest_contract_lifecycle_restriction _ with Some _ => _ | None => _ end) as [[]|]; [|done].
  destruct (_ && _); [done|]. by injection Hs as <-.
Qed.

Lemma abi_views owner c abi s s' : set_contract_abi_as_owner owner c abi s = Ok s' -> views_kept s s'.
Proof using laws.
  unfold set_contract_abi_as_owner. rewrite or_err_Ok. intros (a & _ & Hr). apply guard_Ok in Hr as [_ Hr].
  apply as_owner_ok in Hr as (r & r' & Hrec & _ & [= <-] & Hall). intros c'. rewrite Hall.
  destruct (decide (c = c')) as [<-|]; [by rewrite Hrec|done].
Qed.

(** Closing leaves no record. *)
Lemma close_ok env owner c destination s s' :
  contract_close_as_owner env owner c destination s = Ok s' ->
  forall c', record c' s' = if decide (c = c') then None else record c' s.
Proof using empty_no_contract.
  unfold contract_close_as_owner. intros ([account r] & Hl & Hr)%and_then_Ok. apply load_ok in Hl as [Ha _].
  do 3 apply guard_Ok in Hr as [_ Hr]. apply and_then_Ok in Hr as (m & Hm & [= <-]). intros c'.
  assert (forall c', record c' (set_gv_accounts m s) = record c' s) as Hkeep.
  { destruct (0 <? ac_spendable account); [apply map_err_Ok in Hm; by eapply transfer_views|].
    injection Hm as <-. intros. by destruct s as [[]]. }
  destruct (decide (c = c')) as [<-|Hne]; [unfold record; cbn; by rewrite lookup_insert_eq|].
  rewrite <-Hkeep. unfold record. cbn. by rewrite lookup_insert_ne.
Qed.

(** *** The records follow the history *)

Definition follows (l : Pubkey -> option Life) (s : GovernanceState) : Prop :=
  forall c, view <$> record c s = view_of <$> l c.

Lemma follows_some l s c r :
  follows l s -> record c s = Some r -> exists v, l c = Some v /\ view r = view_of v.
Proof using Type.
  intros Hf Hr. specialize (Hf c). rewrite Hr in Hf. destruct (l c) as [v|]; [|done].
  exists v. split; [done|]. exact (inj Some _ _ Hf).
Qed.

(** Only the contract of an event changes. *)
Lemma follows_step l s s' env e c x :
  follows l s -> event_contract e = Some c ->
  (forall c', record c' s' = if decide (c = c') then x else record c' s) ->
  view <$> x = view_of <$> life_event (gn_epoch env) e (l c) ->
  follows (fun c' => life_next c' (l c') (env, e)) s'.
Proof using Type.
  intros Hf He Hall Hx c'. rewrite Hall. unfold life_next, about. cbn [fst snd]. rewrite He.
  destruct (decide (c = c')) as [<-|Hne]; [by rewrite bool_decide_true|].
  rewrite bool_decide_false by congruence. apply Hf.
Qed.

Lemma replace_view code r v :
  view r = view_of v -> view (replace_code code (Hash_hash code) r) = view_of (new_code code v).
Proof using Type. intros Hv. unfold view, view_of in *. injection Hv as ? ? ? ? ? ? ?. cbn. congruence. Qed.

Lemma deploy_hash code h : ContractRuntime_deploy code = Ok h -> module_compiles code = true /\ h = Hash_hash code.
Proof using Type.
  unfold ContractRuntime_deploy. intros [Hc Hr]%guard_Ok. apply guard_Ok in Hr as [_ Hr]. apply guard_Ok in Hr as [_ Hr].
  injection Hr as <-. by apply negb_false_iff in Hc.
Qed.

Lemma epoch_after env t : env_ok env -> 1 <= t <= u32_max -> wrap64 (gn_epoch env + t) = gn_epoch env + t.
Proof using Type.
  unfold env_ok, gn_epoch, ge_epoch, slot_to_epoch, gn_slot, u64_max, u32_max. intros He Ht.
  apply wrap_small. unfold SLOTS_PER_EPOCH. divlia.
Qed.

Lemma follows_upgrade l s s' env owner c code :
  env_ok env -> follows l s -> (forall v, l c = Some v -> life_ok v) ->
  contract_upgrade_as_owner env owner c code s = Ok s' ->
  follows (fun c' => life_next c' (l c') (env, EUpgrade owner c code)) s'.
Proof using Type*.
  intros He Hf Hok. unfold contract_upgrade_as_owner. intros (r & r' & Hr & Ho & Hc & Hall)%as_owner_ok.
  destruct (follows_some _ _ _ _ Hf Hr) as (v & Hv & Hview). destruct (Hok v Hv) as [Ht _].
  apply and_then_Ok in Hc as (h & [_ ->]%deploy_hash & Hc). apply and_then_Ok in Hc as (_ & _ & Hc).
  apply (follows_step _ _ _ _ _ c (Some r') Hf); [done|exact Hall|]. cbn [life_event]. rewrite Hv.
  cbn [fmap option_fmap option_map]. f_equal.
  assert (ca_upgrade_timelock_epochs r = lv_timelock v) as Etl by (unfold view, view_of in Hview; congruence).
  rewrite Etl in Hc. destruct (lv_timelock v) as [t|] eqn:Hlt; [|injection Hc as <-; by apply replace_view].
  destruct (Z.ltb_spec 0 t); [|lia]. apply guard_Ok in Hc as [_ Hc]. injection Hc as <-.
  unfold view, view_of in *. cbn. rewrite epoch_after by done. unfold pending_of. cbn. congruence.
Qed.

Lemma follows_execute l s s' env owner c :
  follows l s -> contract_execute_upgrade_as_owner env owner c s = Ok s' ->
  follows (fun c' => life_next c' (l c') (env, EExecute owner c)) s'.
Proof using Type*.
  intros Hf. unfold contract_execute_upgrade_as_owner. intros (r & r' & Hr & Ho & Hc & Hall)%as_owner_ok.
  destruct (follows_some _ _ _ _ Hf Hr) as (v & Hv & Hview). apply or_err_Ok in Hc as (p & Hp & Hc).
  apply guard_Ok in Hc as [_ Hc]. apply and_then_Ok in Hc as (_ & _ & [= <-]).
  apply (follows_step _ _ _ _ _ c (Some (replace_code (pu_code p) (pu_code_hash p) r)) Hf); [done|exact Hall|].
  cbn [life_event]. rewrite Hv. cbn [fmap option_fmap option_map]. f_equal.
  assert (ca_pending_upgrade r = pending_of <$> lv_staged v) as Ep by (unfold view, view_of in Hview; congruence).
  rewrite Hp in Ep. destruct (lv_staged v) as [g|]; [|done]. injection Ep as ->. by apply replace_view.
Qed.

(** The registry data choose the owner and touch no account. *)
Lemma deploy_registry_ok deployer c init_data ls owner public abi ls1 :
  match from_init_data init_data with
  | Some registry =>
      let? s := deploy_symbol c (deploy_owner deployer registry) registry ls in
      Ok (deploy_owner deployer registry, default true (dr_make_public registry), dr_abi registry, s)
  | None => Ok (deployer, true, None, ls)
  end = Ok (owner, public, abi, ls1) ->
  owner = owner_of_deploy deployer init_data /\ lf_gov ls1 = lf_gov ls.
Proof using Type.
  unfold owner_of_deploy. destruct (from_init_data init_data) as [registry|]; [|by intros [= <- _ _ <-]].
  intros (ls2 & Hs & [= <- _ _ <-])%and_then_Ok. split; [done|]. unfold deploy_symbol in Hs.
  destruct (dr_symbol registry) as [symbol|]; [|by injection Hs as <-].
  unfold b_register_symbol, register_symbol in Hs. apply and_then_Ok in Hs as (m & _ & Hs).
  apply and_then_Ok in Hs as (n & _ & Hs). do 2 apply guard_Ok in Hs as [_ Hs]. by injection Hs as <-.
Qed.

Lemma deploy_records env ix code init_data ls ls' deployer c rest :
  ix_accounts ix = deployer :: c :: rest -> contract_deploy env ix code init_data ls = Ok ls' ->
  exists r, record c (lf_gov ls) = None
    /\ (forall c', record c' (lf_gov ls') = if decide (c = c') then Some r else record c' (lf_gov ls))
    /\ view r = view_of (mkLife (owner_of_deploy deployer init_data) code 1 None None None)
    /\ exists data, lf_gov ls' = set_gv_accounts (<[c := set_ac_data data (set_ac_executable true (Account_new 0 c))]>
         (gv_accounts (lf_gov ls))) (lf_gov ls).
Proof using laws.
  intros Hix. unfold contract_deploy. rewrite Hix. intros Hd. do 3 apply guard_Ok in Hd as [_ Hd].
  apply guard_Ok in Hd as [Hfree Hd].
  apply and_then_Ok in Hd as (h & _ & Hd). apply and_then_Ok in Hd as (_ & _ & Hd).
  apply and_then_Ok in Hd as ([[[owner public] abi] ls1] & Hreg & Hd). apply or_err_Ok in Hd as (data & Hdata & Hd).
  assert (owner = owner_of_deploy deployer init_data /\ lf_gov ls1 = lf_gov ls) as [-> Hgov] by by eapply deploy_registry_ok.
  set (r := match abi with Some _ => _ | None => _ end) in *.
  assert (lf_gov ls' = set_gv_accounts (<[c := set_ac_data data (set_ac_executable true (Account_new 0 c))]>
    (gv_accounts (lf_gov ls))) (lf_gov ls)) as Eg by (injection Hd as <-; rewrite <-Hgov; by destruct public).
  exists r. split_and!; [|rewrite Eg; intros c'; rewrite record_put; by rewrite (contract_of_contract_bytes _ _ Hdata)
    |by destruct abi|by exists data].
  unfold record. by destruct (gv_accounts (lf_gov ls) !! c).
Qed.

Variable start : Pubkey -> option Life.

Inductive life_run : History -> GovernanceState -> Prop :=
| run_start s : (forall c, view <$> record c s = view_of <$> start c) -> life_run [] s
| run_step h env s e s' :
    life_run h s -> env_ok env -> event_ok e -> life_step env s e s' -> life_run (h ++ [(env, e)]) s'.

Lemma follows_put l s s' env e c r' v' :
  follows l s -> event_contract e = Some c ->
  (forall c', record c' s' = if decide (c = c') then Some r' else record c' s) ->
  life_event (gn_epoch env) e (l c) = Some v' -> view r' = view_of v' ->
  follows (fun c' => life_next c' (l c') (env, e)) s'.
Proof using Type.
  intros Hf He Hall Hv Hview. apply (follows_step _ _ _ _ _ c (Some r') Hf He Hall). rewrite Hv.
  cbn [fmap option_fmap option_map]. by f_equal.
Qed.

Lemma life_step_follows l s s' env e :
  env_ok env -> follows l s -> (forall c v, l c = Some v -> life_ok v) -> life_step env s e s' ->
  follows (fun c' => life_next c' (l c') (env, e)) s'.
Proof using Type*.
  intros He Hf Hok Hs.
  destruct Hs as [ix code init_data ls ls' deployer c rest Hix Hd|owner c code s s' Hu|owner c epochs s s' Ht|owner c s s' Hx
    |authority c s s' Hv'|owner c destination s s' Hcl|s s' Hk].
  - destruct (deploy_records _ _ _ _ _ _ _ _ _ Hix Hd) as (r & _ & Hall & Hview & _).
    by eapply (follows_put _ _ _ _ _ c).
  - eapply follows_upgrade; eauto.
  - unfold contract_set_upgrade_timelock_as_owner in Ht.
    apply as_owner_ok in Ht as (r & r' & Hr & _ & Hc & Hall). apply guard_Ok in Hc as [_ Hc]. injection Hc as <-.
    destruct (follows_some _ _ _ _ Hf Hr) as (v & Hv & Hview). eapply (follows_put _ _ _ _ _ c); [done|done|exact Hall| |].
    + cbn [life_event]. by rewrite Hv.
    + unfold view, view_of in *. cbn. congruence.
  - by eapply follows_execute.
  - unfold contract_veto_upgrade_as_authority in Hv'. apply and_then_Ok in Hv' as ([account r] & Hl & Hc).
    apply load_ok in Hl as [_ Hr]. apply guard_Ok in Hc as [_ Hc]. apply or_err_Ok in Hc as (ga & _ & Hc).
    apply guard_Ok in Hc as [_ Hc]. destruct (follows_some _ _ _ _ Hf Hr) as (v & Hv & Hview).
    eapply (follows_put _ _ _ _ _ c); [done|done|by eapply put_contract_ok| |].
    + cbn [life_event]. by rewrite Hv.
    + unfold view, view_of in *. cbn. congruence.
  - eapply (follows_step _ _ _ _ _ c None); [done|done|by eapply close_ok|done].
  - intros c. rewrite Hk. apply Hf.
Qed.

Lemma life_run_follows h s :
  fresh_start start -> life_run h s ->
  follows (fun c => life_after start c h) s /\ Forall (fun x => event_ok x.2) h.
Proof using Type*.
  intros Hfr. induction 1 as [s Hs|h env s e s' Hrun [IH Hok] He Hev Hst]; [done|]. split.
  - intros c. rewrite life_after_snoc. revert c. eapply life_step_follows; try done.
    intros c v. by apply life_after_ok.
  - apply Forall_app. split; [done|]. by apply Forall_singleton.
Qed.

(** What is staged was staged by the owner. *)
Definition staged_own (l : option Life) : Prop :=
  match l with
  | Some v => match lv_staged v with Some g => sg_by g = lv_owner v | None => True end
  | None => True
  end.

Lemma staged_own_next l s s' env e c :
  follows l s -> life_step env s e s' -> staged_own (l c) -> staged_own (life_next c (l c) (env, e)).
Proof using Type*.
  intros Hf Hs Ho. unfold life_next, about. cbn [fst snd]. case_bool_decide as Hc; [|done].
  destruct e as [c' owner code|owner c' code|owner c' epochs|owner c'|authority c'|owner c' destination|];
    cbn [event_contract] in Hc; simplify_eq; cbn [life_event]; try done.
  - inversion Hs; subst. match goal with Hu : contract_upgrade_as_owner _ _ _ _ _ = _ |- _ =>
      apply as_owner_ok in Hu as (r & r' & Hr & <- & _ & _) end.
    destruct (follows_some _ _ _ _ Hf Hr) as (v & Hv & Hview). rewrite Hv in *. cbn.
    destruct (lv_timelock v); cbn; [|done]. unfold view, view_of in Hview. congruence.
  - by destruct (l c).
  - destruct (l c) as [v|]; [|done]. cbn. by destruct (lv_staged v) eqn:E; cbn; rewrite ?E.
  - by destruct (l c).
Qed.

Lemma life_run_staged_own h s c : fresh_start start -> life_run h s -> staged_own (life_after start c h).
Proof using Type*.
  intros Hfr. induction 1 as [s Hs|h env s e s' Hrun IH He Hev Hst].
  - unfold life_after, staged_own. cbn. destruct (start c) as [v|] eqn:Hv; [|done].
    destruct (Hfr c v Hv) as [-> _]. done.
  - rewrite life_after_snoc. destruct (life_run_follows h s Hfr Hrun) as [Hf _].
    exact (staged_own_next (fun c => life_after start c h) s s' env e c Hf Hst IH).
Qed.

(** The step that replaces the code of a contract is an upgrade of one without a delay or the
    execution of a staged one. *)
Inductive replaces (h : History) (env : GovernanceEnv) (r : ContractAccount) (c : Pubkey) (code : bytes) : LifeEvent -> Prop :=
| replaces_at_once :
    ca_upgrade_timelock_epochs r = None -> module_compiles code = true ->
    replaces h env r c code (EUpgrade (ca_owner r) c code)
| replaces_staged h1 env0 h2 l1 delay :
    h = h1 ++ (env0, EUpgrade (ca_owner r) c code) :: h2 ->
    life_after start c h1 = Some l1 -> lv_timelock l1 = Some delay -> 1 <= delay ->
    gn_epoch env0 + delay < gn_epoch env -> Forall (fun x => settles c x = false) h2 ->
    replaces h env r c code (EExecute (ca_owner r) c).

Lemma execute_replaces h s env owner c s' r :
  fresh_start start -> life_run h s -> record c s = Some r ->
  contract_execute_upgrade_as_owner env owner c s = Ok s' ->
  exists p, record c s' = Some (replace_code (pu_code p) (Hash_hash (pu_code p)) r)
    /\ ensure_code_hash_not_deploy_blocked env (Hash_hash (pu_code p)) s = Ok tt
    /\ replaces h env r c (pu_code p) (EExecute owner c).
Proof using Type*.
  intros Hfr Hrun Hr. unfold contract_execute_upgrade_as_owner. intros (r0 & r' & Hr0 & <- & Hc & Hall)%as_owner_ok.
  rewrite Hr in Hr0. injection Hr0 as <-. apply or_err_Ok in Hc as (p & Hp & Hc).
  apply guard_Ok in Hc as [Hlate%Z.leb_gt Hc]. apply and_then_Ok in Hc as ([] & Hb & Hc). injection Hc as <-.
  destruct (life_run_follows h s Hfr Hrun) as [Hf Hok]. destruct (follows_some _ _ _ _ Hf Hr) as (v & Hv & Hview).
  assert (ca_pending_upgrade r = pending_of <$> lv_staged v) as Ep by (unfold view, view_of in Hview; congruence).
  rewrite Hp in Ep. destruct (lv_staged v) as [g|] eqn:Hg; [|done]. injection Ep as ->.
  exists (pending_of g). split_and!; [rewrite Hall; by rewrite decide_True|done|].
  pose proof (life_run_staged_own h s c Hfr Hrun) as Hown. unfold staged_own in Hown. rewrite Hv, Hg in Hown.
  destruct (life_after_ok start c h v Hfr Hok Hv) as [_ Hd]. rewrite Hg in Hd.
  destruct (staged_from start c h v g Hfr Hv Hg) as (h1 & env0 & h2 & l1 & Eh & Ee & Hl1 & Ht & Hn).
  assert (ca_owner r = lv_owner v) as Eo by (unfold view, view_of in Hview; congruence).
  apply (replaces_staged _ _ _ _ _ h1 env0 h2 l1 (sg_delay g)); try done; cbn in *; [by rewrite Eo, <-Hown|lia|lia].
Qed.

Lemma upgrade_replaces h s env owner c code s' r r' :
  record c s = Some r -> record c s' = Some r' -> ca_code r' <> ca_code r ->
  contract_upgrade_as_owner env owner c code s = Ok s' ->
  (forall t, ca_upgrade_timelock_epochs r = Some t -> 1 <= t) ->
  r' = replace_code code (Hash_hash code) r
  /\ ensure_code_hash_not_deploy_blocked env (Hash_hash code) s = Ok tt
  /\ replaces h env r c code (EUpgrade owner c code).
Proof using Type*.
  intros Hr Hr' Hne. unfold contract_upgrade_as_owner. intros (r0 & r1 & Hr0 & <- & Hc & Hall)%as_owner_ok Ht.
  rewrite Hr in Hr0. injection Hr0 as <-. rewrite Hall, decide_True in Hr' by done. injection Hr' as ->.
  apply and_then_Ok in Hc as (hash & [Hm ->]%deploy_hash & Hc). apply and_then_Ok in Hc as ([] & Hb & Hc).
  destruct (ca_upgrade_timelock_epochs r) as [t|] eqn:E.
  - specialize (Ht t eq_refl). destruct (Z.ltb_spec 0 t); [|lia]. apply guard_Ok in Hc as [_ Hc]. by injection Hc as <-.
  - injection Hc as <-. split_and!; try done. by apply replaces_at_once.
Qed.

Lemma step_that_replaces env s e s' c r r' :
  life_step env s e s' -> record c s = Some r -> record c s' = Some r' -> ca_code r' <> ca_code r ->
  (exists owner code, e = EUpgrade owner c code /\ contract_upgrade_as_owner env owner c code s = Ok s')
  \/ (exists owner, e = EExecute owner c /\ contract_execute_upgrade_as_owner env owner c s = Ok s').
Proof using Type*.
  intros Hs Hr Hr' Hne.
  assert (forall c' x, (forall k, record k s' = if decide (c' = k) then x else record k s) -> c' = c) as Hsame.
  { intros c' x Hall. destruct (decide (c' = c)) as [|Hc]; [done|]. specialize (Hall c).
    rewrite decide_False in Hall by done. congruence. }
  destruct Hs as [ix code init_data ls ls' deployer c' rest Hix Hd|owner c' code s s' Hu|owner c' epochs s s' Ht|owner c' s s' Hx
    |authority c' s s' Hv|owner c' destination s s' Hcl|s s' Hk].
  - exfalso. destruct (deploy_records _ _ _ _ _ _ _ _ _ Hix Hd) as (r1 & Hnone & Hall & _).
    assert (c' = c) as -> by (eapply Hsame; exact Hall). congruence.
  - pose proof Hu as (? & r1 & _ & _ & _ & Hall)%as_owner_ok.
    assert (c' = c) as -> by (eapply Hsame; exact Hall). left. eauto.
  - exfalso. apply as_owner_ok in Ht as (r0 & r1 & Hr0 & _ & Hc & Hall). apply guard_Ok in Hc as [_ Hc].
    assert (c' = c) as -> by (eapply Hsame; exact Hall). rewrite Hall, decide_True in Hr' by done.
    injection Hc as <-. injection Hr' as <-. rewrite Hr in Hr0. by injection Hr0 as <-.
  - pose proof Hx as (? & r1 & _ & _ & _ & Hall)%as_owner_ok.
    assert (c' = c) as -> by (eapply Hsame; exact Hall). right. eauto.
  - exfalso. apply and_then_Ok in Hv as ([account r0] & [_ Hr0]%load_ok & Hc). apply guard_Ok in Hc as [_ Hc].
    apply or_err_Ok in Hc as (ga & _ & Hc). apply guard_Ok in Hc as [_ Hc]. pose proof (put_contract_ok _ _ _ _ _ Hc) as Hall.
    assert (c' = c) as -> by (eapply Hsame; exact Hall). rewrite Hall, decide_True in Hr' by done.
    injection Hr' as <-. rewrite Hr in Hr0. by injection Hr0 as <-.
  - exfalso. pose proof (close_ok _ _ _ _ _ _ Hcl) as Hall. assert (c' = c) as -> by (eapply Hsame; exact Hall).
    rewrite Hall, decide_True in Hr' by done. done.
  - exfalso. specialize (Hk c). rewrite Hr, Hr' in Hk. apply (inj Some) in Hk. unfold view in Hk. congruence.
Qed.

End safety.

(** ** Unused addresses *)

Section addresses.
Context `{Crypto} `{ContractCodec} `{WasmModule} `{DeployJson} `{laws : !ContractCodecLaws}.

(** Code that [contract_deploy] takes. *)
Record deployable (env : GovernanceEnv) (s : GovernanceState) (deployer : Pubkey) (code : bytes) : Prop := {
  dp_length : 8 <= zlen code <= MAX_CONTRACT_CODE;
  dp_magic : take 4 code = WASM_MAGIC;
  dp_valid : ContractRuntime_deploy code = Ok (Hash_hash code);
  dp_free : ensure_code_hash_not_deploy_blocked env (Hash_hash code) s = Ok tt;
  dp_bytes : is_Some (contract_bytes (ContractAccount_new (abi_from_wasm code) code deployer));
}.

Lemma deploy_accepts env s deployer c code program data rest :
  deployable env (lf_gov s) deployer code -> gv_accounts (lf_gov s) !! c = None ->
  exists s', contract_deploy env (mkInstruction program (deployer :: c :: rest) data) code [] s = Ok s'.
Proof using Type.
  intros [Hlen Hmagic Hvalid Hfree [bytes_ Hbytes]] Hnone. unfold contract_deploy, MAX_CONTRACT_CODE in *. cbn [ix_accounts].
  destruct (Z.eqb_spec (zlen code) 0); [lia|]. destruct (Z.ltb_spec 524288 (zlen code)); [lia|].
  destruct (Z.ltb_spec (zlen code) 8); [lia|]. rewrite bool_decide_true by done. cbn [negb orb].
  rewrite Hnone, Hvalid. cbn [is_some and_then]. rewrite Hfree. cbn [and_then].
  replace (from_init_data []) with (@None DeployRegistryData) by reflexivity. cbn [and_then]. rewrite Hbytes. by eexists.
Qed.

(** Nothing in force stops a native transfer. *)
Definition unrestricted (env : GovernanceEnv) (s : GovernanceState) : Prop :=
  forall k d amount spendable,
    native_transfer_blocked (batch_view (gv_restrictions s)) (gn_slot env) k d amount spendable = false.

(** The close pays out the whole balance. *)
Lemma close_takes_all env s owner c r account :
  record c s = Some r -> ca_owner r = owner -> gv_accounts s !! c = Some account -> owner <> c ->
  account_wf account -> ac_staked account = 0 -> ac_locked account = 0 -> 0 < ac_spendable account ->
  unrestricted env s ->
  ac_spores (account_or_new owner (gv_accounts s)) + ac_spendable account <= u64_max ->
  ac_spendable (account_or_new owner (gv_accounts s)) + ac_spendable account <= u64_max ->
  exists s', contract_close_as_owner env owner c owner s = Ok s'
    /\ ac_spores <$> gv_accounts s' !! c = Some 0
    /\ ac_spendable (account_or_new owner (gv_accounts s'))
       = ac_spendable (account_or_new owner (gv_accounts s)) + ac_spendable account.
Proof using Type.
  intros Hr Ho Ha Hne [_ _ _ Hsplit _] Hst Hlk Hpos Hu Hmax Hmax'.
  unfold contract_close_as_owner, load_contract_record. unfold record in Hr. rewrite Ha in Hr |- *. cbn [or_err].
  rewrite Hr. cbn [or_err and_then]. rewrite Ho, Z.eqb_refl, Hst, Hlk. cbn [negb Z.ltb Z.compare].
  destruct (Z.ltb_spec 0 (ac_spendable account)); [|lia]. unfold transfer.
  destruct (Z.eqb_spec c owner); [congruence|]. rewrite Ha. cbn [or_err]. rewrite !Hu.
  unfold Account_deduct_spendable, Account_add_spendable.
  rewrite (proj2 (checked_sub_Some _ _ 0)) by lia. rewrite (proj2 (checked_sub_Some _ _ 0)) by lia.
  rewrite (proj2 (checked_add64_Some _ _ _)) by (split; [reflexivity|done]).
  rewrite (proj2 (checked_add64_Some _ _ _)) by (split; [reflexivity|done]).
  cbn [map_err and_then]. eexists. split; [reflexivity|]. cbn. rewrite lookup_insert_eq. split.
  - rewrite lookup_insert_ne, lookup_insert_eq by done. done.
  - unfold account_or_new at 1. rewrite lookup_insert_ne, lookup_insert_eq by done. by case_match.
Qed.

(** C25.  A deployment takes any address that has no account yet, whoever holds its key: only the
    first account of an instruction signs, and nothing ties the second one to the deployer or to
    the code.  The deployer then owns the contract at that address, and whatever happens that
    leaves the records of contracts alone, such as transfers to the address, the deployer can
    close the contract and receives all that the address can spend.  Clients derive the address
    from the deployer and the code, but the processor does not check it. *)
Theorem deploy_takes_any_address env s attacker victim code program data rest close_data :
  deployable env (lf_gov s) attacker code -> gv_accounts (lf_gov s) !! victim = None -> attacker <> victim ->
  let deploy := mkInstruction program (attacker :: victim :: rest) data in
  let close := mkInstruction program [attacker; victim; attacker] close_data in
  collect_signers [] [deploy; close] = Ok [attacker]
  /\ exists s1, contract_deploy env deploy code [] s = Ok s1
    /\ forall env' s2 account,
       views_kept (lf_gov s1) s2 -> gv_accounts s2 !! victim = Some account -> account_wf account ->
       ac_staked account = 0 -> ac_locked account = 0 -> 0 < ac_spendable account ->
       unrestricted env' s2 -> contract_owner_requires_governance_flow env' attacker = false ->
       ac_spores (account_or_new attacker (gv_accounts s2)) + ac_spendable account <= u64_max ->
       ac_spendable (account_or_new attacker (gv_accounts s2)) + ac_spendable account <= u64_max ->
       exists s3, contract_close env' close s2 = Ok s3
         /\ ac_spores <$> gv_accounts s3 !! victim = Some 0
         /\ ac_spendable (account_or_new attacker (gv_accounts s3))
            = ac_spendable (account_or_new attacker (gv_accounts s2)) + ac_spendable account.
Proof using Type*.
  intros Hdep Hnone Hne deploy close. split.
  { unfold deploy, close, collect_signers, or_err. cbn [ix_accounts head].
    destruct (decide (attacker ∈ [])) as [Hn|_]; [by apply not_elem_of_nil in Hn|]. cbn [app].
    by rewrite decide_True by apply list_elem_of_here. }
  destruct (deploy_accepts env s attacker victim code program data rest Hdep Hnone) as [s1 Hs1].
  exists s1. split; [done|]. intros env' s2 account Hk Ha Hwf Hst Hlk Hpos Hu Hg Hmax Hmax'.
  destruct (deploy_records env deploy code [] s s1 attacker victim rest eq_refl Hs1) as (r & _ & Hall & Hview & _).
  specialize (Hk victim). rewrite (Hall victim), decide_True in Hk by done.
  destruct (record victim s2) as [r2|] eqn:Hr2; [|done]. apply (inj Some) in Hk.
  unfold contract_close, close. cbn [ix_accounts]. rewrite Hg.
  apply (close_takes_all env' s2 attacker victim r2 account); try done.
  change attacker with (owner_of_deploy attacker []). unfold view, view_of in *. cbn [lv_owner] in Hview. congruence.
Qed.
End addresses.

(** ** A contract that is staged, and an address that is taken *)

Module SampleLife.
#[local] Instance sample_crypto : Crypto := Toy.crypto.
#[local] Instance sample_wasm : WasmModule := {|
  module_compiles := fun _ => true; module_imports := fun _ => []; module_memories := fun _ => [(16, Some 32)];
  module_functions := fun _ => []; module_types := fun _ => [] |}.
#[local] Instance sample_json : DeployJson := {|
  json_deploy_registry := fun _ => None; json_object := fun _ => None; json_object_bytes := fun _ => [];
  pubkey_from_base58 := fun _ => None |}.

(** Records without an ABI that no restriction has touched. *)
Definition cells (o : option Z) : bytes := match o with Some x => [1; x] | None => [0; 0] end.
Definition of_cells (flag x : Z) : option Z := if flag =? 0 then None else Some x.
Definition encode (c : ContractAccount) : option bytes :=
  match c with
  | mkContractAccount code [] owner hash None version previous timelock pending LActive 0 None =>
      Some ([owner; hash; version] ++ cells previous ++ cells timelock
            ++ match pending with
               | Some p => [1; pu_code_hash p; pu_submitted_epoch p; pu_execute_after_epoch p; zlen (pu_code p)] ++ pu_code p
               | None => [0; 0; 0; 0; 0]
               end ++ code)
  | _ => None
  end.
Definition decode (l : bytes) : option ContractAccount :=
  match l with
  | owner :: hash :: version :: a :: b :: c :: d :: flag :: ph :: pe :: px :: n :: rest =>
      let n := Z.to_nat n in
      Some (mkContractAccount (drop n rest) [] owner hash None version (of_cells a b) (of_cells c d)
              (if flag =? 0 then None else Some (mkPendingUpgrade (take n rest) ph pe px)) LActive 0 None)
  | _ => None
  end.
#[local] Instance sample_codec : ContractCodec := {| contract_bytes := encode; contract_of_bytes := decode |}.
#[local] Instance sample_laws : ContractCodecLaws.
Proof.
  split. intros [code [|] owner hash [] version previous timelock pending [] [| |] []] bs; try done.
  intros [= <-]. destruct previous, timelock, pending as [[pc ph pe px]|]; cbn -[zlen]; try done;
    unfold zlen; rewrite Nat2Z.id, drop_app_length, take_app_length; done.
Qed.

Lemma no_record : contract_of_bytes [] = None.
Proof. reflexivity. Qed.

Definition env (epoch : Z) : GovernanceEnv :=
  mkGovernanceEnv (mkGovEnv ∅ (epoch * 432000) None None None) None None None None None None None
    (fun _ => None) (fun _ => None).
Definition empty_state : GovernanceState :=
  mkGovernanceState (mkGovernedState ∅ ∅ 0 ∅ ∅) ∅ 0 (begin_batch empty_db) FeeConfig_default_from_constants ∅ None None [].
Definition ls0 : LifeState := mkLifeState empty_state ∅ ∅ ∅ ∅.
Definition code1 : bytes := WASM_MAGIC ++ [1; 0; 0; 0].
Definition code2 : bytes := WASM_MAGIC ++ [1; 0; 0; 0; 7].

Definition unwrap {A E} (d : A) (r : result A E) : A := match r with Ok a => a | Err _ => d end.
Definition ls1 : LifeState := unwrap ls0 (contract_deploy (env 0) (mkInstruction 1 [5; 9] []) code1 [] ls0).
Definition s2 : GovernanceState := unwrap empty_state (contract_set_upgrade_timelock_as_owner 5 9 2 (lf_gov ls1)).
Definition s3 : GovernanceState := unwrap empty_state (contract_upgrade_as_owner (env 1) 5 9 code2 s2).
Definition s4 : GovernanceState := unwrap empty_state (contract_execute_upgrade_as_owner (env 4) 5 9 s3).
Definition past : History := [(env 0, EDeploy 9 5 code1); (env 0, ETimelock 5 9 2); (env 1, EUpgrade 5 9 code2)].
Definition nobody (_ : Pubkey) : option Life := None.

Lemma unwrap_ok {A E} (d : A) (r : result A E) : is_ok r = true -> r = Ok (unwrap d r).
Proof. by destruct r. Qed.

Lemma past_run : life_run nobody past s3.
Proof.
  apply (run_step nobody [(env 0, EDeploy 9 5 code1); (env 0, ETimelock 5 9 2)] (env 1) s2 (EUpgrade 5 9 code2) s3).
  - apply (run_step nobody [(env 0, EDeploy 9 5 code1)] (env 0) (lf_gov ls1) (ETimelock 5 9 2) s2).
    + apply (run_step nobody [] (env 0) (lf_gov ls0) (EDeploy 9 5 code1) (lf_gov ls1)).
      * apply run_start. reflexivity.
      * split; reflexivity || discriminate.
      * exact I.
      * apply (step_deploy (env 0) (mkInstruction 1 [5; 9] []) code1 [] ls0 ls1 5 9 [] eq_refl).
        apply unwrap_ok. vm_compute. reflexivity.
    + split; reflexivity || discriminate.
    + split; reflexivity || discriminate.
    + apply step_timelock, unwrap_ok. vm_compute. reflexivity.
  - split; reflexivity || discriminate.
  - exact I.
  - apply step_upgrade, unwrap_ok. vm_compute. reflexivity.
Qed.


(** Account 3 pays 700 to address 9 after 5 deployed there. *)
Definition rich : GovernanceState :=
  set_gv_accounts {[3 := mkAccount 1000 1000 0 0 [] None 0 false 0 false 0]} empty_state.
Definition lr0 : LifeState := mkLifeState rich ∅ ∅ ∅ ∅.
Definition lr1 : LifeState := unwrap lr0 (contract_deploy (env 0) (mkInstruction 1 [5; 9] []) code1 [] lr0).
Definition paid : GovernanceState :=
  set_gv_accounts (unwrap ∅ (transfer (fun _ _ _ _ => false) 3 9 700 (gv_accounts (lf_gov lr1)))) (lf_gov lr1).

Lemma unrestricted_paid : unrestricted (env 2) paid.
Proof. intros k d amount spendable. vm_compute. reflexivity. Qed.

Lemma deploy_takes_any_address_witness :
  gv_accounts rich !! 9 = None /\ ac_spendable <$> gv_accounts paid !! 9 = Some 700
  /\ exists s', contract_close (env 2) (mkInstruction 1 [5; 9; 5] []) paid = Ok s'
     /\ ac_spores <$> gv_accounts s' !! 9 = Some 0 /\ ac_spendable (account_or_new 5 (gv_accounts s')) = 700.
Proof.
  assert (gv_accounts rich !! 9 = None) as Hn by reflexivity.
  assert (deployable (env 0) (lf_gov lr0) 5 code1) as Hd.
  { split; [split; vm_compute; discriminate|reflexivity|reflexivity|vm_compute; reflexivity|].
    eexists. reflexivity. }
  destruct (deploy_takes_any_address (env 0) lr0 5 9 code1 1 [] [] [] Hd Hn ltac:(discriminate)) as [_ (s1 & Hs1 & Hclose)].
  assert (s1 = lr1) as -> by (unfold lr1; rewrite Hs1; reflexivity).
  destruct (gv_accounts paid !! 9) as [account|] eqn:Ha; [|vm_compute in Ha; discriminate Ha].
  assert (account_wf account /\ ac_staked account = 0 /\ ac_locked account = 0 /\ ac_spendable account = 700)
    as (Hwf & Hst & Hlk & Hsp).
  { vm_compute in Ha. injection Ha as <-. split_and!; try reflexivity. split; cbn; unfold u64_max; lia. }
  assert (ac_spores (account_or_new 5 (gv_accounts paid)) = 0 /\ ac_spendable (account_or_new 5 (gv_accounts paid)) = 0)
    as [E1 E2] by (split; vm_compute; reflexivity).
  destruct (Hclose (env 2) paid account) as (s' & Hs' & Hz & Hgot);
    [|done|done|done|done|lia|exact unrestricted_paid|reflexivity|rewrite E1; unfold u64_max; lia|rewrite E2; unfold u64_max; lia|].
  { intros c. f_equal. apply (transfer_views no_record (fun _ _ _ _ => false) 3 9 700).
    apply unwrap_ok. vm_compute. reflexivity. }
  split; [done|]. split; [by rewrite <-Hsp|]. exists s'. split_and!; try done. rewrite Hgot, E2. lia.
Defined.
End SampleLife.
