(* ===== verification/Runtime.v ===== *)
(** * The contract runtime

    Models [core/src/contract.rs]: the host functions a contract can call, calls from contract
    to contract with their frames and roll-backs, value attached to calls, operations on native
    accounts, compute metering, and the judgement of a result by the ABI.

    - A contract is WebAssembly code, which the library [wasmer] compiles and runs.  What the
      runtime sees of it is a tree of host calls, [Guest]: between two host calls the code does
      what it likes, and the next call depends on the answers so far.  Every step carries the
      number of instructions it takes, so that metering is exact.  [Wasm] is the compiler: it
      maps code and the name of an exported function to the guest it starts.
    - Pointers of a guest are taken to be valid; the bytes a host function writes are part of
      its answer.  Log lines are diagnostics and are left out, their compute cost is not.
    - Where storage lives is the interface [Backing]: what a frame sees of the storage of its
      contract, and what happens when it is opened, written and closed.  [Overlay] is the
      runtime's own: a copy of the committed storage per frame, and a table of pending changes
      that all frames of a call share.  The file [CallStore] has the reference. *)

From S2P Require Import Prelude Crypto Block Account Transactions Fees Rent Transfers Restrictions GovernanceActions.
From S2P Require Import Governance.
From stdpp Require Import base tactics numbers list gmap strings.
From Stdlib Require Import ZArith Lia.

Local Open Scope Z_scope.
Local Open Scope rust_scope.

(** ** Guests *)

Inductive HostCall :=
| StorageRead (key : bytes) (val_len : Z)
| StorageWrite (key val : bytes)
| StorageDelete (key : bytes)
| LogMsg (msg : bytes)
| EmitEvent (data : bytes)
| GetTimestamp
| GetCaller
| GetContractAddress
| GetContractCodeHash (address : Pubkey)
| GetValue
| GetSlot
| GetBlockEntropy (slot : Z)
| CanSend (asset from : Pubkey) (amount balance : Z)
| CanReceive (asset to : Pubkey) (amount balance : Z)
| CanTransfer (asset from to : Pubkey) (amount from_balance to_balance : Z)
| GetArgsLen
| GetArgs (out_len : Z)
| SetReturnData (data : bytes)
| CrossContractCall (target : Pubkey) (function args : bytes) (value result_len : Z)
| PoseidonHash (l r : bytes).

(** The returned number and the bytes written to the guest's memory. *)
Abbreviation Answer := (Z * bytes)%type.

(** [instructions] are executed before the step. *)
Inductive Guest :=
| Done (instructions : Z) (return_code : option Z)
| Trap (instructions : Z)
| Host (instructions : Z) (call : HostCall) (k : Answer -> Guest).

Class Wasm := {
  (** Whether the code compiles and instantiates. *)
  wasm_valid : bytes -> bool;
  wasm_export : bytes -> bytes -> option (bytes -> Guest);
}.

(** ** Native accounts *)

Inductive NativeAccountOp :=
| OpLockNative (account : Pubkey) (amount : Z)
| OpUnlockNative (account : Pubkey) (amount : Z)
| OpDeductLockedNative (account : Pubkey) (amount : Z)
| OpTransferNative (from to : Pubkey) (amount : Z)
| OpNftTransfer (token collection from to : Pubkey) (encoded_state : bytes).

Definition op_account (op : NativeAccountOp) : Pubkey :=
  match op with
  | OpLockNative account _ | OpUnlockNative account _ | OpDeductLockedNative account _ => account
  | OpTransferNative from _ _ => from
  | OpNftTransfer token _ _ _ _ => token
  end.

Definition op_transfer_to (op : NativeAccountOp) : option Pubkey :=
  match op with OpTransferNative _ to _ => Some to | _ => None end.

Definition op_apply (op : NativeAccountOp) : AccountOp :=
  match op with
  | OpLockNative _ amount => Account_lock amount
  | OpUnlockNative _ amount => Account_unlock amount
  | OpDeductLockedNative _ amount => Account_deduct_locked amount
  | OpTransferNative _ _ amount => Account_deduct_spendable amount
  | OpNftTransfer _ _ _ _ encoded_state => fun a => (Ok tt, set_ac_data encoded_state a)
  end.

Record TokenState := mkTokenState {
  ts_collection : Pubkey;
  ts_token_id : Z;
  ts_owner : Pubkey;
  ts_metadata_uri : bytes;
  ts_approved : option Pubkey;
}.

(** The serializer of native NFT records ([bincode]), with the fields of a collection that
    the runtime reads: its creator and royalty. *)
Class NftCodec := {
  decode_collection_state : bytes -> option (Pubkey * Z);
  decode_token_state : bytes -> option TokenState;
  encode_token_state : TokenState -> option bytes;
}.

Definition derive_nft_token_address `{Crypto} (collection : Pubkey) (token_id : Z) : Pubkey :=
  Hash_hash (be_bytes 32 collection ++ le_bytes 8 token_id).

(** ** The committed state *)

Abbreviation Storage := (gmap bytes bytes).
Abbreviation Changes := (gmap bytes (option bytes)).

Record StateStore := mkStateStore {
  ss_accounts : gmap Pubkey Account;
  ss_storage : gmap Pubkey Storage;
  ss_restrictions : RestrictionDb;
  ss_total_supply : Z;
  (** [derive_block_entropy] of the block stored for a slot. *)
  ss_block_entropy : Z -> option bytes;
}.

Definition load_contract_storage_map (store : StateStore) (contract : Pubkey) : Storage :=
  default ∅ (ss_storage store !! contract).

(** Writing the values and removing the keys of [changes]. *)
Definition apply_changes (changes : Changes) (s : Storage) : Storage :=
  merge (fun c v => match c with Some o => o | None => v end) changes s.

(** [|key| + |value|] over all entries. *)
Definition storage_bytes (s : Storage) : Z :=
  sumZ (fun kv => zlen kv.1 + zlen kv.2) (map_to_list s).

Class Backing := {
  bk_shared : Type;
  bk_frame : Type;
  bk_open : StateStore -> bk_shared -> Pubkey -> bk_frame;
  bk_storage : bk_shared -> Pubkey -> bk_frame -> Storage;
  bk_put : bytes -> option bytes -> Pubkey -> bk_shared * bk_frame -> bk_shared * bk_frame;
  bk_close : Pubkey -> bk_frame -> bk_shared -> bk_shared;
}.

(** ** Contexts and results *)

Record ContractEvent := mkContractEvent {
  ce_program : Pubkey;
  ce_data : bytes;
  ce_slot : Z;
}.

Section contexts.
Context {B : Backing}.

Record ContractContext := mkContractContext {
  cx_caller : Pubkey;
  cx_contract : Pubkey;
  cx_value : Z;
  cx_slot : Z;
  cx_frame : bk_frame;
  cx_events : list ContractEvent;
  cx_args : bytes;
  cx_return_data : bytes;
  cx_compute_remaining : Z;
  cx_compute_limit : Z;
  cx_pending_ccc_changes : bk_shared;
  cx_pending_ccc_events : list ContractEvent;
  cx_pending_ccc_value_deltas : gmap Pubkey Z;
  cx_pending_native_account_ops : list NativeAccountOp;
  cx_pending_native_account_state : gmap Pubkey Account;
  cx_read_only : bool;
  cx_storage_bytes_used : Z;
}.

Definition eta_ContractContext (c : ContractContext) : ContractContext :=
  mkContractContext (cx_caller c) (cx_contract c) (cx_value c) (cx_slot c) (cx_frame c) (cx_events c)
    (cx_args c) (cx_return_data c) (cx_compute_remaining c) (cx_compute_limit c)
    (cx_pending_ccc_changes c) (cx_pending_ccc_events c) (cx_pending_ccc_value_deltas c)
    (cx_pending_native_account_ops c) (cx_pending_native_account_state c) (cx_read_only c)
    (cx_storage_bytes_used c).

Definition set_cx_frame : bk_frame -> ContractContext -> ContractContext :=
  ltac:(setter eta_ContractContext cx_frame).
Definition set_cx_events : list ContractEvent -> ContractContext -> ContractContext :=
  ltac:(setter eta_ContractContext cx_events).
Definition set_cx_args : bytes -> ContractContext -> ContractContext :=
  ltac:(setter eta_ContractContext cx_args).
Definition set_cx_return_data : bytes -> ContractContext -> ContractContext :=
  ltac:(setter eta_ContractContext cx_return_data).
Definition set_cx_compute_remaining : Z -> ContractContext -> ContractContext :=
  ltac:(setter eta_ContractContext cx_compute_remaining).
Definition set_cx_pending_ccc_changes : bk_shared -> ContractContext -> ContractContext :=
  ltac:(setter eta_ContractContext cx_pending_ccc_changes).
Definition set_cx_pending_ccc_events : list ContractEvent -> ContractContext -> ContractContext :=
  ltac:(setter eta_ContractContext cx_pending_ccc_events).
Definition set_cx_pending_ccc_value_deltas : gmap Pubkey Z -> ContractContext -> ContractContext :=
  ltac:(setter eta_ContractContext cx_pending_ccc_value_deltas).
Definition set_cx_pending_native_account_ops : list NativeAccountOp -> ContractContext -> ContractContext :=
  ltac:(setter eta_ContractContext cx_pending_native_account_ops).
Definition set_cx_pending_native_account_state : gmap Pubkey Account -> ContractContext -> ContractContext :=
  ltac:(setter eta_ContractContext cx_pending_native_account_state).
Definition set_cx_storage_bytes_used : Z -> ContractContext -> ContractContext :=
  ltac:(setter eta_ContractContext cx_storage_bytes_used).

(** The live storage of the frame. *)
Definition cx_storage (c : ContractContext) : Storage :=
  bk_storage (cx_pending_ccc_changes c) (cx_contract c) (cx_frame c).

(** [storage.insert] or [storage.remove] with the entry in [storage_changes]. *)
Definition put_storage (key : bytes) (value : option bytes) (c : ContractContext) : ContractContext :=
  let '(shared, frame) := bk_put key value (cx_contract c) (cx_pending_ccc_changes c, cx_frame c) in
  set_cx_frame frame (set_cx_pending_ccc_changes shared c).

(** The result of an execution.  [cr_context] is the context at its end, from which the
    source copies the changes, events, deltas and operations when the execution succeeds. *)
Record ContractResult := mkContractResult {
  cr_success : bool;
  cr_return_code : option Z;
  cr_compute_used : Z;
  cr_context : ContractContext;
}.
End contexts.

Inductive RuntimeError :=
| LifecycleBlocked (status : ContractLifecycleStatus)
| InvalidModule
| FunctionNotFound (function : bytes).

(** ** Limits *)

Definition MAX_LOG_LEN : Z := 16384.
Definition MAX_KEY_LEN : Z := 256.
Definition MAX_VALUE_LEN : Z := 65536.
Definition MAX_RETURN_DATA : Z := 65536.
Definition MAX_EVENT_DATA : Z := 8192.
Definition MAX_STORAGE_ENTRIES : Z := 100000.
Definition MAX_TOTAL_STORAGE_BYTES : Z := 10485760.
Definition DEFAULT_COMPUTE_LIMIT : Z := 10000000.
Definition WASM_CU_DIVISOR : Z := 50.
Definition COMPUTE_STORAGE_READ : Z := 100.
Definition COMPUTE_STORAGE_WRITE : Z := 200.
Definition COMPUTE_STORAGE_WRITE_PER_BYTE : Z := 1.
Definition COMPUTE_STORAGE_DELETE : Z := 100.
Definition COMPUTE_LOG : Z := 10.
Definition COMPUTE_EVENT : Z := 50.
Definition COMPUTE_GET_CALLER : Z := 100.
Definition COMPUTE_GET_ARGS : Z := 50.
Definition COMPUTE_SET_RETURN_DATA : Z := 50.
Definition COMPUTE_BYTE_COST : Z := 1.
Definition COMPUTE_CROSS_CALL : Z := 5000.
Definition COMPUTE_COMPLIANCE_CHECK : Z := 500.
Definition COMPUTE_POSEIDON_HASH : Z := 2000.
Definition COMPUTE_BLOCK_ENTROPY : Z := 1000.
Definition MAX_CROSS_CALL_DEPTH : nat := 8.
Definition MAX_CCC_FUNCTION_LEN : Z := 256.
Definition MAX_CCC_ARGS_LEN : Z := 65536.

Definition wasm_fuel_limit_for_compute_limit (compute_limit : Z) : Z :=
  sat_mul64 (Z.min compute_limit DEFAULT_COMPUTE_LIMIT) WASM_CU_DIVISOR.

(** ** ABI *)

Definition find_abi_function (c : ContractAccount) (function_name : bytes) : option AbiFunction :=
  match ca_abi c with
  | Some abi => List.find (fun f => bool_decide (af_name f = function_name)) (abi_functions abi)
  | None => None
  end.

Definition resolve_abi_call_function_name (c : ContractAccount) (function_name args : bytes) : bytes :=
  if negb (bool_decide (function_name = str_bytes "call")) then function_name
  else
    match args with
    | [] => function_name
    | opcode :: _ =>
        match ca_abi c with
        | Some abi =>
            match List.find (fun f => bool_decide (af_opcode f = Some opcode)) (abi_functions abi) with
            | Some f => af_name f
            | None => function_name
            end
        | None => function_name
        end
    end.

Definition build_opcode_dispatch_args (opcode : Z) (args : bytes) : bytes := opcode :: args.

Definition abi_function_is_readonly (c : ContractAccount) (function : bytes) : bool :=
  match ca_abi c with
  | Some abi => existsb (fun f => bool_decide (af_name f = function) && af_readonly f) (abi_functions abi)
  | None => false
  end.

Definition validate_lifecycle_for_execution (c : ContractAccount) (function : bytes)
  (read_only_context : bool) (value : Z) : result unit RuntimeError :=
  match ca_lifecycle_status c with
  | LActive => Ok tt
  | LSuspended =>
      if read_only_context && (value =? 0) && abi_function_is_readonly c function then Ok tt
      else Err (LifecycleBlocked LSuspended)
  | s => Err (LifecycleBlocked s)
  end.

Definition code_is_declared_success (code : Z) (success_codes : list Z) : bool :=
  match success_codes with [] => code =? 0 | _ => bool_decide (code ∈ success_codes) end.

Definition code_is_declared_failure (code : Z) (failure_codes : list Z) : bool :=
  bool_decide (code ∈ failure_codes).

Definition return_data_has_nonzero_value (return_data : bytes) : bool :=
  existsb (fun byte => negb (byte =? 0)) return_data.

Inductive ContractOutcomeFallback := LegacyNonzeroNoChangeFailure | FallbackRuntimeSuccessOnly.

(** The declared semantics of a function, applied to what it returned. *)
Definition declared_outcome (s : AbiResultSemantics) (return_code : option Z) (return_data : bytes) : bool :=
  match ars_kind s, return_code with
  | RuntimeSuccessOnly, _ => true
  | ReturnValue, Some code => negb (code_is_declared_failure code (ars_failure_codes s))
  | ReturnValue, None => true
  | NonzeroReturnValue, Some code =>
      if code_is_declared_failure code (ars_failure_codes s) then false
      else negb (code =? 0) || return_data_has_nonzero_value return_data
  | NonzeroReturnValue, None => false
  | ReturnCode, Some code => code_is_declared_success code (ars_success_codes s)
  | ReturnCode, None => false
  end.

(** Whether a result commits.  [quiet] is the test of [legacy_nonzero_no_change_failure] that
    nothing but a re-entrancy flag was written, which the processor supplies. *)
Definition evaluate_contract_outcome `{Backing} (c : ContractAccount) (function_name : bytes)
  (r : ContractResult) (quiet : bool) (fallback : ContractOutcomeFallback) : bool :=
  if negb (cr_success r) then false
  else
    match option_bind _ _ af_result_semantics (find_abi_function c function_name) with
    | Some s => declared_outcome s (cr_return_code r) (cx_return_data (cr_context r))
    | None =>
        match fallback, cr_return_code r with
        | LegacyNonzeroNoChangeFailure, Some rc => negb (negb (rc =? 0) && quiet)
        | _, _ => true
        end
    end.

(** Poseidon hashing of pairs and the JSON parser: whether a text is an object of strings. *)
Class HostPrimitives := {
  poseidon_hash_pair : bytes -> bytes -> bytes;
  json_string_map : bytes -> bool;
}.

Section host.
Context {B : Backing} `{Crypto} `{Wasm} `{ContractCodec} `{NftCodec} `{HostPrimitives}.
Variable store : StateStore.

Definition restrictions : RestrictionView := store_view (ss_restrictions store).

(** ** Host functions *)

Definition deduct_compute (cost : Z) (c : ContractContext) : bool * ContractContext :=
  if cx_compute_remaining c <? cost then (false, set_cx_compute_remaining 0 c)
  else (true, set_cx_compute_remaining (cx_compute_remaining c - cost) c).

Definition host_storage_read (key : bytes) (val_len : Z) (c : ContractContext) : Answer * ContractContext :=
  if MAX_KEY_LEN <? zlen key then ((0, []), c)
  else if cx_compute_remaining c <? COMPUTE_STORAGE_READ then ((0, []), c)
  else
    let c := (deduct_compute COMPUTE_STORAGE_READ c).2 in
    match cx_storage c !! key with
    | Some value => let written := take (Z.to_nat val_len) value in ((zlen written, written), c)
    | None => ((0, []), c)
    end.

Definition host_storage_write (key val : bytes) (c : ContractContext) : Answer * ContractContext :=
  if (MAX_KEY_LEN <? zlen key) || (MAX_VALUE_LEN <? zlen val) then ((0, []), c)
  else if cx_compute_remaining c <? COMPUTE_STORAGE_WRITE then ((0, []), c)
  else
    let c := (deduct_compute (COMPUTE_STORAGE_WRITE + zlen val * COMPUTE_STORAGE_WRITE_PER_BYTE) c).2 in
    let old := cx_storage c !! key in
    if negb (is_some old) && (MAX_STORAGE_ENTRIES <=? Z.of_nat (size (cx_storage c))) then ((0, []), c)
    else
      let new_bytes := zlen key + zlen val in
      let old_bytes := match old with Some old_val => zlen key + zlen old_val | None => 0 end in
      let projected := cx_storage_bytes_used c + new_bytes - old_bytes in
      if MAX_TOTAL_STORAGE_BYTES <? projected then ((0, []), c)
      else ((1, []), put_storage key (Some val) (set_cx_storage_bytes_used projected c)).

Definition host_storage_delete (key : bytes) (c : ContractContext) : Answer * ContractContext :=
  if MAX_KEY_LEN <? zlen key then ((0, []), c)
  else if cx_compute_remaining c <? COMPUTE_STORAGE_DELETE then ((0, []), c)
  else
    let c := (deduct_compute COMPUTE_STORAGE_DELETE c).2 in
    match cx_storage c !! key with
    | Some old_val =>
        let used := sat_sub (cx_storage_bytes_used c) (zlen key + zlen old_val) in
        ((1, []), put_storage key None (set_cx_storage_bytes_used used c))
    | None => ((0, []), c)
    end.

Definition host_log_msg (msg : bytes) (c : ContractContext) : Answer * ContractContext :=
  if MAX_LOG_LEN <? zlen msg then ((0, []), c)
  else if cx_compute_remaining c <? COMPUTE_LOG then ((0, []), c)
  else ((0, []), (deduct_compute COMPUTE_LOG c).2).

Definition host_emit_event (data : bytes) (c : ContractContext) : Answer * ContractContext :=
  if MAX_EVENT_DATA <? zlen data then ((1, []), c)
  else if cx_compute_remaining c <? COMPUTE_EVENT then ((1, []), c)
  else if negb (is_utf8 data) || negb (json_string_map data) then ((1, []), c)
  else
    let c := (deduct_compute COMPUTE_EVENT c).2 in
    ((0, []), set_cx_events (cx_events c ++ [mkContractEvent (cx_contract c) data (cx_slot c)]) c).

(** [get_caller] and [get_contract_address]: a key, for the price of a look-up. *)
Definition host_get_key (key : ContractContext -> Pubkey) (c : ContractContext) : Answer * ContractContext :=
  match deduct_compute COMPUTE_GET_CALLER c with
  | (false, c) => ((1, []), c)
  | (true, c) => ((0, be_bytes 32 (key c)), c)
  end.

(** The contract account stored at an address. *)
Definition load_contract (address : Pubkey) : option ContractAccount :=
  match ss_accounts store !! address with
  | Some account => if ac_executable account then contract_of_bytes (ac_data account) else None
  | None => None
  end.

Definition host_get_contract_code_hash (address : Pubkey) (c : ContractContext) : Answer * ContractContext :=
  match deduct_compute COMPUTE_GET_CALLER c with
  | (false, c) => ((1, []), c)
  | (true, c) =>
      match load_contract address with
      | Some contract => ((0, be_bytes 32 (Hash_hash (ca_code contract))), c)
      | None => ((1, []), c)
      end
  end.

Definition host_get_block_entropy (slot : Z) (c : ContractContext) : Answer * ContractContext :=
  match deduct_compute COMPUTE_BLOCK_ENTROPY c with
  | (false, c) => ((1, []), c)
  | (true, c) => match ss_block_entropy store slot with Some e => ((0, e), c) | None => ((1, []), c) end
  end.

Definition token_account_allowed (asset account : Pubkey) (amount balance : Z) (direction : TransferDirection)
  (c : ContractContext) : Answer * ContractContext :=
  match deduct_compute COMPUTE_COMPLIANCE_CHECK c with
  | (false, c) => ((0, []), c)
  | (true, c) =>
      if negb (asset =? cx_contract c) then ((0, []), c)
      else if is_account_restricted restrictions account direction (Some asset) amount balance (cx_slot c)
           then ((0, []), c) else ((1, []), c)
  end.

Definition host_can_transfer (asset from to : Pubkey) (amount from_balance to_balance : Z)
  (c : ContractContext) : Answer * ContractContext :=
  match token_account_allowed asset from amount from_balance OutgoingTransfer c with
  | (a, c) => if a.1 =? 0 then ((0, []), c)
              else token_account_allowed asset to amount to_balance IncomingTransfer c
  end.

Definition host_get_args (out_len : Z) (c : ContractContext) : Answer * ContractContext :=
  match deduct_compute (COMPUTE_GET_ARGS + out_len * COMPUTE_BYTE_COST) c with
  | (false, c) => ((0, []), c)
  | (true, c) => let written := take (Z.to_nat out_len) (cx_args c) in ((zlen written, written), c)
  end.

Definition host_set_return_data (data : bytes) (c : ContractContext) : Answer * ContractContext :=
  if MAX_RETURN_DATA <? zlen data then ((1, []), c)
  else
    match deduct_compute (COMPUTE_SET_RETURN_DATA + zlen data * COMPUTE_BYTE_COST) c with
    | (false, c) => ((1, []), c)
    | (true, c) => ((0, []), set_cx_return_data data c)
    end.

Definition host_poseidon_hash (l r : bytes) (c : ContractContext) : Answer * ContractContext :=
  match deduct_compute COMPUTE_POSEIDON_HASH c with
  | (false, c) => ((1, []), c)
  | (true, c) => ((0, poseidon_hash_pair l r), c)
  end.

(** ** Operations on native accounts *)

Definition apply_value_delta_to_account (delta : Z) : AccountOp :=
  if 0 <? delta then Account_add_spendable delta
  else if delta <? 0 then Account_deduct_spendable (- delta)
  else fun a => (Ok tt, a).

(** [op(&mut account)?], as an option. *)
Definition after (r : result unit AccountError * Account) : option Account :=
  match r with (Ok _, a) => Some a | (Err _, _) => None end.

Definition projected_native_account (c : ContractContext) (account : Pubkey) (allow_missing : bool) : option Account :=
  match cx_pending_native_account_state c !! account with
  | Some projected => Some projected
  | None =>
      match ss_accounts store !! account with
      | Some a => Some a
      | None => if allow_missing then Some (Account_new 0 account) else None
      end
      ≫= fun projected =>
      after (apply_value_delta_to_account (default 0 (cx_pending_ccc_value_deltas c !! account)) projected)
  end.

(** Whether a restriction in force stops the native movement of an account. *)
Definition native_restricted (account : Pubkey) (direction : TransferDirection) (amount spendable : Z)
  (c : ContractContext) : bool :=
  is_account_restricted restrictions account direction (Some NATIVE_LICN_ASSET_ID) amount spendable (cx_slot c).

(** The checks of [queue_native_account_op] that depend on the kind of the operation. *)
Definition op_allowed (op : NativeAccountOp) (c : ContractContext) : bool :=
  match op with
  | OpLockNative account amount =>
      match projected_native_account c account false with
      | Some a => negb (native_restricted account OutgoingTransfer amount (ac_spendable a) c)
      | None => false
      end
  | OpTransferNative from to amount =>
      match projected_native_account c from false with
      | Some a =>
          if native_restricted from OutgoingTransfer amount (ac_spendable a) c then false
          else match projected_native_account c to true with
               | Some t => negb (native_restricted to IncomingTransfer amount (ac_spendable t) c)
               | None => false
               end
      | None => false
      end
  | OpNftTransfer _ collection from to _ =>
      negb (is_account_restricted restrictions from OutgoingTransfer (Some collection) 1 1 (cx_slot c))
      && negb (is_account_restricted restrictions to IncomingTransfer (Some collection) 1 0 (cx_slot c))
  | OpUnlockNative _ _ | OpDeductLockedNative _ _ => true
  end.

Definition queue_native_account_op (op : NativeAccountOp) (c : ContractContext) : option ContractContext :=
  if negb (op_allowed op c) then None
  else
    projected_native_account c (op_account op) false ≫= fun account =>
    after (op_apply op account) ≫= fun account =>
    match op with
    | OpTransferNative from to amount =>
        (if to =? from then Some account else projected_native_account c to true) ≫= fun to_account =>
        after (Account_add_spendable amount to_account) ≫= fun to_account =>
        Some (<[to := to_account]> (<[from := account]> (cx_pending_native_account_state c)))
    | _ => Some (<[op_account op := account]> (cx_pending_native_account_state c))
    end ≫= fun state =>
    Some (set_cx_pending_native_account_ops (cx_pending_native_account_ops c ++ [op])
            (set_cx_pending_native_account_state state c)).

Definition load_projected_native_nft (collection : Pubkey) (token_id : Z) (token : Pubkey)
  (c : ContractContext) : option TokenState :=
  projected_native_account c collection false ≫= fun collection_account =>
  if negb (ac_owner collection_account =? SYSTEM_PROGRAM_ID) then None
  else
    decode_collection_state (ac_data collection_account) ≫= fun _ =>
    projected_native_account c token false ≫= fun token_account =>
    if negb (ac_owner token_account =? SYSTEM_PROGRAM_ID) then None
    else
      decode_token_state (ac_data token_account) ≫= fun token_state =>
      if negb (ts_collection token_state =? collection) || negb (ts_token_id token_state =? token_id) then None
      else if negb (derive_nft_token_address (ts_collection token_state) (ts_token_id token_state) =? token) then None
      else Some token_state.

(** [write_native_call_result]: all of [value], or failure. *)
Definition whole_result (value : bytes) (result_len : Z) : Answer :=
  if result_len <? zlen value then (0, []) else (zlen value, value).

Definition native_nft_query (function_name args : bytes) (result_len : Z) (c : ContractContext) : Answer :=
  if negb (zlen args =? 40) then (0, [])
  else
    let collection := key_at args 0 in
    if collection =? 0 then (0, [])
    else
      let token_id := u64_at args 32 in
      match load_projected_native_nft collection token_id (derive_nft_token_address collection token_id) c with
      | Some token_state =>
          let key := if bool_decide (function_name = str_bytes "nft_owner_of") then ts_owner token_state
                     else default 0 (ts_approved token_state) in
          whole_result (be_bytes 32 key) result_len
      | None => (0, [])
      end.

Definition native_nft_royalty_info (args : bytes) (result_len : Z) (c : ContractContext) : Answer :=
  if negb (zlen args =? 32) then (0, [])
  else
    let collection := key_at args 0 in
    if collection =? 0 then (0, [])
    else
      match projected_native_account c collection false with
      | Some account =>
          if negb (ac_owner account =? SYSTEM_PROGRAM_ID) then (0, [])
          else match decode_collection_state (ac_data account) with
               | Some (creator, royalty_bps) =>
                   whole_result (be_bytes 32 creator ++ le_bytes 2 royalty_bps) result_len
               | None => (0, [])
               end
      | None => (0, [])
      end.

Definition native_nft_transfer_from (args : bytes) (result_len : Z) (c : ContractContext)
  : Answer * ContractContext :=
  if cx_read_only c || negb (zlen args =? 104) then ((0, []), c)
  else
    let collection := key_at args 0 in
    let from := key_at args 32 in
    let to := key_at args 64 in
    let token_id := u64_at args 96 in
    if (collection =? 0) || (from =? 0) || (to =? 0) then ((0, []), c)
    else
      let token := derive_nft_token_address collection token_id in
      match load_projected_native_nft collection token_id token c with
      | None => ((0, []), c)
      | Some token_state =>
          let spender := cx_contract c in
          if negb (ts_owner token_state =? from)
             || (negb (spender =? from) && negb (bool_decide (ts_approved token_state = Some spender)))
          then ((0, []), c)
          else
            match encode_token_state
                    (mkTokenState (ts_collection token_state) (ts_token_id token_state) to
                       (ts_metadata_uri token_state) None)
                    ≫= fun encoded_state =>
                  queue_native_account_op (OpNftTransfer token collection from to encoded_state) c with
            | Some c => (whole_result [1] result_len, c)
            | None => ((0, []), c)
            end
      end.

(** At most [result_len] bytes of a number; the answer is its length all the same. *)
Definition number_result (n result_len : Z) : Answer := (8, take (Z.to_nat result_len) (le_bytes 8 n)).

Definition parse_native_op (function_name args : bytes) (c : ContractContext) : option NativeAccountOp :=
  let account := key_at args 0 in
  let amount := u64_at args 32 in
  if bool_decide (function_name = str_bytes "lock") then Some (OpLockNative account amount)
  else if bool_decide (function_name = str_bytes "unlock") then Some (OpUnlockNative account amount)
  else if bool_decide (function_name = str_bytes "deduct") then Some (OpDeductLockedNative account amount)
  else if bool_decide (function_name = str_bytes "transfer")
       then Some (OpTransferNative (cx_contract c) account amount)
  else None.

Definition handle_native_account_call (function_name args : bytes) (result_len : Z) (c : ContractContext)
  : Answer * ContractContext :=
  if bool_decide (function_name = str_bytes "nft_owner_of")
     || bool_decide (function_name = str_bytes "nft_get_approved")
  then (native_nft_query function_name args result_len c, c)
  else if bool_decide (function_name = str_bytes "nft_royalty_info")
  then (native_nft_royalty_info args result_len c, c)
  else if bool_decide (function_name = str_bytes "nft_transfer_from")
  then native_nft_transfer_from args result_len c
  else if bool_decide (function_name = str_bytes "total_supply")
  then (number_result (ss_total_supply store) result_len, c)
  else if bool_decide (function_name = str_bytes "balance_of")
  then
    if zlen args <? 32 then ((0, []), c)
    else match projected_native_account c (key_at args 0) true with
         | Some account => (number_result (ac_spores account) result_len, c)
         | None => ((0, []), c)
         end
  else if zlen args <? 40 then ((0, []), c)
  else
    match parse_native_op function_name args c ≫= fun op => queue_native_account_op op c with
    | Some c => ((1, take (Z.to_nat result_len) [1]), c)
    | None => ((0, []), c)
    end.

(** ** Calls from contract to contract *)

Definition in_i64 (z : Z) : bool := (- 2 ^ 63 <=? z) && (z <? 2 ^ 63).

(** [*entry(account) = entry.checked_add(delta)?] *)
Definition add_delta (account : Pubkey) (delta : Z) (deltas : gmap Pubkey Z) : option (gmap Pubkey Z) :=
  let next := default 0 (deltas !! account) + delta in
  if in_i64 next then Some (<[account := next]> deltas) else None.

(** The contract stored at the target, with the lifecycle status its restrictions give it. *)
Definition load_callee (target : Pubkey) (slot : Z) : option ContractAccount :=
  load_contract target ≫= fun contract =>
  let active_records := get_active_restrictions_for_target restrictions (TContract target) slot 0 in
  let linked_restriction_active :=
    match ca_lifecycle_restriction_id contract with
    | Some id => is_effectively_active slot <$> view_get restrictions id
    | None => None
    end in
  Some (default contract (sync_lifecycle_from_restrictions active_records linked_restriction_active slot contract)).

(** The context of a callee, before any value is attached. *)
Definition callee_context (target : Pubkey) (args : bytes) (value : Z) (c : ContractContext) : ContractContext :=
  let frame := bk_open store (cx_pending_ccc_changes c) target in
  mkContractContext (cx_contract c) target value (cx_slot c) frame [] args []
    (cx_compute_remaining c) (cx_compute_remaining c) (cx_pending_ccc_changes c) (cx_pending_ccc_events c) ∅
    (cx_pending_native_account_ops c) (cx_pending_native_account_state c) (cx_read_only c)
    (storage_bytes (bk_storage (cx_pending_ccc_changes c) target frame)).

(** What attaching a value does: the caller's deltas, the projected accounts to store when the
    call succeeds, and the projected account of the target.  [None] refuses the call. *)
Definition attach_value (target : Pubkey) (value : Z) (c : ContractContext)
  : option (gmap Pubkey Z * list (Pubkey * Account) * option Account) :=
  if value =? 0 then Some (cx_pending_ccc_value_deltas c, [], None)
  else if 2 ^ 63 - 1 <? value then None
  else
    projected_native_account c (cx_contract c) false ≫= fun projected_caller =>
    if ac_spendable projected_caller <? value then None
    else
      (if target =? cx_contract c then Some ([], projected_caller)
       else
         projected_native_account c target false ≫= fun projected_target =>
         if native_restricted (cx_contract c) OutgoingTransfer value (ac_spendable projected_caller) c
            || native_restricted target IncomingTransfer value (ac_spendable projected_target) c
         then None
         else
           after (Account_deduct_spendable value projected_caller) ≫= fun projected_caller =>
           after (Account_add_spendable value projected_target) ≫= fun projected_target =>
           Some ([(cx_contract c, projected_caller)], projected_target))
      ≫= fun '(updates, projected_target) =>
      add_delta (cx_contract c) (- value) (cx_pending_ccc_value_deltas c) ≫= fun deltas =>
      Some (deltas, updates ++ [(target, projected_target)], Some projected_target).

(** The caller's deltas after a successful call: the value arrives, and the callee's own
    deltas are added. *)
Definition commit_deltas (target : Pubkey) (value : Z) (deltas callee : gmap Pubkey Z) : option (gmap Pubkey Z) :=
  (if 0 <? value then add_delta target value deltas else Some deltas) ≫= fun deltas =>
  foldl (fun acc kv => acc ≫= add_delta kv.1 kv.2) (Some deltas) (map_to_list callee).

Definition queue_all (ops : list NativeAccountOp) (c : ContractContext) : option ContractContext :=
  foldl (fun acc op => acc ≫= queue_native_account_op op) (Some c) ops.

(** What the caller reads back: return data, or the return code, or a success byte. *)
Definition effective_result (contract : ContractAccount) (logical_function_name : bytes) (r : ContractResult) : bytes :=
  match cx_return_data (cr_context r) with
  | _ :: _ => cx_return_data (cr_context r)
  | [] =>
      match cr_return_code r with
      | Some rc =>
          let returns_value :=
            match option_bind _ _ af_result_semantics (find_abi_function contract logical_function_name) with
            | Some s => match ars_kind s with ReturnValue | NonzeroReturnValue => true | _ => false end
            | None => false
            end in
          if returns_value then le_bytes 8 (wrap64 rc) else le_bytes 4 (wrap32 rc)
      | None => [1]
      end
  end.

(** The caller's context after a callee that succeeded. *)
Definition merge_callee (target : Pubkey) (value : Z) (deltas : gmap Pubkey Z) (updates : list (Pubkey * Account))
  (r : ContractResult) (c : ContractContext) : option ContractContext :=
  let callee := cr_context r in
  let inherited := length (cx_pending_native_account_ops c) in
  commit_deltas target value deltas (cx_pending_ccc_value_deltas callee) ≫= fun deltas =>
  let state := foldl (fun m ka => <[ka.1 := ka.2]> m) (cx_pending_native_account_state c) updates in
  let c := set_cx_pending_ccc_value_deltas deltas (set_cx_pending_native_account_state state c) in
  if (length (cx_pending_native_account_ops callee) <? inherited)%nat then None
  else
    queue_all (drop inherited (cx_pending_native_account_ops callee)) c ≫= fun c =>
    let c := set_cx_pending_ccc_changes (bk_close target (cx_frame callee) (cx_pending_ccc_changes callee)) c in
    Some (set_cx_pending_ccc_events (cx_pending_ccc_events callee ++ cx_events callee) c).

(** [execute] is the runtime one level deeper, [None] at the depth limit.  A refusal or a
    failure restores the snapshot taken before the call, which is the context here, with the
    compute that was used. *)
Definition host_cross_contract_call
  (execute : option (ContractAccount -> bytes -> bytes -> ContractContext -> result ContractResult RuntimeError))
  (target : Pubkey) (function args : bytes) (value result_len : Z) (c : ContractContext) : Answer * ContractContext :=
  if (MAX_CCC_FUNCTION_LEN <? zlen function) || (MAX_CCC_ARGS_LEN <? zlen args) then ((0, []), c)
  else if negb (is_utf8 function) then ((0, []), c)
  else
    match execute with
    | None => ((0, []), c)
    | Some execute =>
        match deduct_compute COMPUTE_CROSS_CALL c with
        | (false, c) => ((0, []), c)
        | (true, c) =>
            if target =? 0 then handle_native_account_call function args result_len c
            else
              match load_callee target (cx_slot c) with
              | None => ((0, []), c)
              | Some contract =>
                  let logical_function_name := resolve_abi_call_function_name contract function args in
                  if negb (is_ok (validate_lifecycle_for_execution contract logical_function_name
                                    (cx_read_only c) value)) then ((0, []), c)
                  else
                    match attach_value target value c with
                    | None => ((0, []), c)
                    | Some (deltas, updates, projected_target) =>
                        let callee := callee_context target args value c in
                        let callee :=
                          match projected_target with
                          | Some a => set_cx_pending_native_account_state
                                        (<[target := a]> (cx_pending_native_account_state callee)) callee
                          | None => callee
                          end in
                        match execute contract function args callee with
                        | Err _ => ((0, []), c)
                        | Ok r =>
                            let c := set_cx_compute_remaining
                                       (sat_sub (cx_compute_remaining c) (cr_compute_used r)) c in
                            if negb (evaluate_contract_outcome contract logical_function_name r false
                                       FallbackRuntimeSuccessOnly) then ((0, []), c)
                            else
                              match merge_callee target value deltas updates r c with
                              | None => ((0, []), c)
                              | Some c =>
                                  let written := take (Z.to_nat result_len)
                                                   (effective_result contract logical_function_name r) in
                                  ((Z.max 1 (zlen written), written), c)
                              end
                        end
                    end
              end
        end
    end.

Definition host_call
  (execute : option (ContractAccount -> bytes -> bytes -> ContractContext -> result ContractResult RuntimeError))
  (call : HostCall) (c : ContractContext) : Answer * ContractContext :=
  match call with
  | StorageRead key val_len => host_storage_read key val_len c
  | StorageWrite key val => host_storage_write key val c
  | StorageDelete key => host_storage_delete key c
  | LogMsg msg => host_log_msg msg c
  | EmitEvent data => host_emit_event data c
  | GetTimestamp => ((cx_slot c, []), c)
  | GetCaller => host_get_key cx_caller c
  | GetContractAddress => host_get_key cx_contract c
  | GetContractCodeHash address => host_get_contract_code_hash address c
  | GetValue => ((cx_value c, []), c)
  | GetSlot => ((cx_slot c, []), c)
  | GetBlockEntropy slot => host_get_block_entropy slot c
  | CanSend asset from amount balance => token_account_allowed asset from amount balance OutgoingTransfer c
  | CanReceive asset to amount balance => token_account_allowed asset to amount balance IncomingTransfer c
  | CanTransfer asset from to amount from_balance to_balance =>
      host_can_transfer asset from to amount from_balance to_balance c
  | GetArgsLen => ((zlen (cx_args c), []), c)
  | GetArgs out_len => host_get_args out_len c
  | SetReturnData data => host_set_return_data data c
  | CrossContractCall target function args value result_len =>
      host_cross_contract_call execute target function args value result_len c
  | PoseidonHash l r => host_poseidon_hash l r c
  end.

(** ** Execution *)

Inductive GuestEnd := Finished (return_code : option Z) | Trapped.

(** Run a guest with [points] instructions left; running out of them traps. *)
Fixpoint run_guest (host : HostCall -> ContractContext -> Answer * ContractContext) (g : Guest) (points : Z)
  (c : ContractContext) : GuestEnd * Z * ContractContext :=
  match g with
  | Done n code => if points <? n then (Trapped, 0, c) else (Finished code, points - n, c)
  | Trap n => if points <? n then (Trapped, 0, c) else (Trapped, points - n, c)
  | Host n call k =>
      if points <? n then (Trapped, 0, c)
      else let '(answer, c) := host call c in run_guest host (k answer) (points - n) c
  end.

(** The export a call reaches and the arguments it gets: the named function, or the
    dispatcher [call] with the opcode of the ABI in front. *)
Definition entry_point (contract : ContractAccount) (function_name args : bytes)
  : result ((bytes -> Guest) * bytes) RuntimeError :=
  if negb (wasm_valid (ca_code contract)) then Err InvalidModule
  else
    match wasm_export (ca_code contract) function_name with
    | Some f => Ok (f, args)
    | None =>
        or_err (option_bind _ _ af_opcode (find_abi_function contract function_name))
          (FunctionNotFound function_name) (fun opcode =>
        or_err (wasm_export (ca_code contract) (str_bytes "call")) (FunctionNotFound function_name) (fun f =>
        Ok (f, build_opcode_dispatch_args opcode args)))
    end.

(** [levels] is the number of call levels that are left. *)
Fixpoint execute (levels : nat) (contract : ContractAccount) (function_name args : bytes) (c : ContractContext)
  : result ContractResult RuntimeError :=
  let? _ := validate_lifecycle_for_execution contract function_name (cx_read_only c) (cx_value c) in
  let initial_compute := cx_compute_remaining c in
  let compute_limit := cx_compute_limit c in
  let? '(f, effective_args) := entry_point contract function_name args in
  let wasm_fuel_limit := wasm_fuel_limit_for_compute_limit compute_limit in
  let deeper := match levels with O => None | S levels => Some (execute levels) end in
  let '(end_, metering_remaining, final) :=
    run_guest (host_call deeper) (f effective_args) wasm_fuel_limit (set_cx_args effective_args c) in
  let wasm_compute_used := sat_sub wasm_fuel_limit metering_remaining / WASM_CU_DIVISOR in
  let compute_used := sat_add64 (sat_sub initial_compute (cx_compute_remaining final)) wasm_compute_used in
  if compute_limit <? compute_used then Ok (mkContractResult false None compute_used final)
  else match end_ with
       | Finished code => Ok (mkContractResult true code compute_used final)
       | Trapped => Ok (mkContractResult false None compute_used final)
       end.
End host.

(** ** The runtime's storage *)

Record Frame := mkFrame { fr_storage : Storage; fr_changes : Changes }.

#[export] Instance Overlay : Backing := {|
  bk_shared := gmap Pubkey Changes;
  bk_frame := Frame;
  bk_open store pending target :=
    mkFrame (apply_changes (default ∅ (pending !! target)) (load_contract_storage_map store target)) ∅;
  bk_storage _ _ f := fr_storage f;
  bk_put key value _ sf :=
    (sf.1, mkFrame (match value with
                    | Some v => <[key := v]> (fr_storage sf.2)
                    | None => delete key (fr_storage sf.2)
                    end) (<[key := value]> (fr_changes sf.2)));
  bk_close target f pending :=
    if bool_decide (fr_changes f = ∅) then pending
    else <[target := fr_changes f ∪ default ∅ (pending !! target)]> pending;
|}.
