(* ===== verification/ContractCalls.v ===== *)
(** * Contract calls of a transaction

    Models [contract_call] and [contract_call_as_caller] of
    [core/src/processor/contract_execution.rs], [build_top_level_call_context] of
    [core/src/contract.rs] and the contract storage of a batch
    ([core/src/state/batch_state.rs]): how a call instruction reaches the runtime, and how its
    effects reach the batch of the block.  Secondary indexes (token balances, order books, event
    keys) are derived from what is written and are left out. *)

From S2P Require Import Prelude Crypto Block Account Transactions Fees Rent Transfers Restrictions Governed.
From S2P Require Import GovernanceActions Governance Processor Runtime.
From stdpp Require Import base tactics numbers list gmap strings.
From Stdlib Require Import ZArith Lia.

Local Open Scope Z_scope.
Local Open Scope rust_scope.

Record CallState := mkCallState {
  cl_gov : GovernanceState;
  (** [contract_storage_overlay]: what the batch has written, per contract. *)
  cl_overlay : gmap Pubkey Changes;
  cl_events : list (Pubkey * ContractEvent);
  (** Transfers of native NFTs: token, collection, sender, recipient. *)
  cl_nft_transfers : list (Pubkey * Pubkey * Pubkey * Pubkey);
}.

Definition eta_CallState (s : CallState) : CallState :=
  mkCallState (cl_gov s) (cl_overlay s) (cl_events s) (cl_nft_transfers s).
Definition set_cl_gov : GovernanceState -> CallState -> CallState := ltac:(setter eta_CallState cl_gov).
Definition set_cl_overlay : gmap Pubkey Changes -> CallState -> CallState :=
  ltac:(setter eta_CallState cl_overlay).
Definition set_cl_events : list (Pubkey * ContractEvent) -> CallState -> CallState :=
  ltac:(setter eta_CallState cl_events).
Definition set_cl_nft_transfers : list (Pubkey * Pubkey * Pubkey * Pubkey) -> CallState -> CallState :=
  ltac:(setter eta_CallState cl_nft_transfers).

Definition cl_accounts (s : CallState) : Accounts := gv_accounts (cl_gov s).
Definition set_cl_accounts (m : Accounts) (s : CallState) : CallState := set_cl_gov (set_gv_accounts m (cl_gov s)) s.

Inductive CallError :=
| CallAccounts
| CallGovernedCaller
| CallGovernance (e : GovernanceError)
| CallRuntime (e : RuntimeError)
| CallTransfer (e : TransferError)
| CallPayable (account : Pubkey)
| CallFailed (function : bytes)
| CallDeltaTarget (account : Pubkey)
| CallNativeTarget (account : Pubkey)
| CallAccount (e : AccountError)
| CallTarget (contract : Pubkey).

(** ** Storage of the batch *)

Definition batch_contract_storage (store : StateStore) (s : CallState) (contract : Pubkey) : Storage :=
  apply_changes (default ∅ (cl_overlay s !! contract)) (load_contract_storage_map store contract).

(** [put_contract_storage] and [delete_contract_storage] of all of [changes]. *)
Definition put_contract_changes (contract : Pubkey) (changes : Changes) (s : CallState) : CallState :=
  set_cl_overlay (<[contract := changes ∪ default ∅ (cl_overlay s !! contract)]> (cl_overlay s)) s.

(** ** The context of a top-level call *)

Definition configured_lichenid_program (s : Storage) : option Pubkey :=
  match s !! str_bytes "pm_lichenid_addr" with
  | Some v => Some v
  | None => s !! str_bytes "gov_lichenid_addr"
  end ≫= fun value =>
  if (zlen value =? 32) && existsb (fun byte => negb (byte =? 0)) value
  then Some (le_value (reverse value)) else None.

Definition hex_digit (n : Z) : Z := if n <? 10 then 48 + n else 87 + n.

Definition lichenid_reputation_storage_key (caller : Pubkey) : bytes :=
  str_bytes "rep:" ++ mjoin ((fun byte => [hex_digit (byte / 16); hex_digit (byte mod 16)]) <$> be_bytes 32 caller).

(** The storage of the callee with the caller's reputation, when the contract is configured
    for it and has no entry of its own under that key. *)
Definition with_reputation (store : StateStore) (caller : Pubkey) (s : Storage) : Storage :=
  match configured_lichenid_program s with
  | Some program =>
      let rep_key := lichenid_reputation_storage_key caller in
      match load_contract_storage_map store program !! rep_key with
      | Some rep_data => match s !! rep_key with Some _ => s | None => <[rep_key := rep_data]> s end
      | None => s
      end
  | None => s
  end.

Definition build_top_level_call_context (store : StateStore) (caller contract : Pubkey) (value slot : Z)
  (storage : Storage) (args : bytes) (compute_limit : Z) : ContractContext :=
  mkContractContext caller contract value slot (mkFrame (with_reputation store caller storage) ∅) [] args []
    (Z.min compute_limit DEFAULT_COMPUTE_LIMIT) compute_limit ∅ [] ∅ [] ∅ false (storage_bytes storage).

(** ** Effects on the batch *)

(** A fallible operation on the account stored at [key]. *)
Definition update_account (op : AccountOp) (missing : CallError) (key : Pubkey) (s : CallState) : result CallState CallError :=
  or_err (cl_accounts s !! key) missing (fun account =>
  match op account with
  | (Ok _, account) => Ok (set_cl_accounts (<[key := account]> (cl_accounts s)) s)
  | (Err e, _) => Err (CallAccount e)
  end).

Definition apply_delta (s : CallState) (kd : Pubkey * Z) : result CallState CallError :=
  let '(addr, delta) := kd in
  if delta =? 0 then Ok s
  else update_account (if 0 <? delta then Account_add_spendable delta else Account_deduct_spendable (- delta))
         (CallDeltaTarget addr) addr s.

Definition apply_native_op (s : CallState) (op : NativeAccountOp) : result CallState CallError :=
  let? s := update_account (op_apply op) (CallNativeTarget (op_account op)) (op_account op) s in
  match op with
  | OpTransferNative _ to amount =>
      match Account_add_spendable amount (account_or_new to (cl_accounts s)) with
      | (Ok _, to_account) => Ok (set_cl_accounts (<[to := to_account]> (cl_accounts s)) s)
      | (Err e, _) => Err (CallAccount e)
      end
  | OpNftTransfer token collection from to _ =>
      Ok (set_cl_nft_transfers (cl_nft_transfers s ++ [(token, collection, from, to)]) s)
  | _ => Ok s
  end.

Section calls.
Context `{Crypto} `{Wasm} `{ContractCodec} `{NftCodec} `{HostPrimitives}.
Variable env : GovernanceEnv.
Variable store : StateStore.

Definition apply_cross_call (s : CallState) (tc : Pubkey * Changes) : result CallState CallError :=
  let '(target, changes) := tc in
  if bool_decide (changes = ∅) then Ok s
  else
    or_err (cl_accounts s !! target) (CallTarget target) (fun target_account =>
    or_err (contract_of_bytes (ac_data target_account)) (CallTarget target) (fun _ =>
    Ok (put_contract_changes target changes s))).

(** Everything an execution leaves, in the order of the source. *)
Definition apply_result (contract : Pubkey) (r : ContractResult) (s : CallState) : result CallState CallError :=
  let c := cr_context r in
  let? s := try_fold apply_delta s (map_to_list (cx_pending_ccc_value_deltas c)) in
  let? s := try_fold apply_native_op s (cx_pending_native_account_ops c) in
  let s := set_cl_events (cl_events s ++ ((fun e => (contract, e)) <$> cx_events c)
                            ++ ((fun e => (ce_program e, e)) <$> cx_pending_ccc_events c)) s in
  let s := if bool_decide (fr_changes (cx_frame c) = ∅) then s
           else put_contract_changes contract (fr_changes (cx_frame c)) s in
  try_fold apply_cross_call s (map_to_list (cx_pending_ccc_changes c)).

Definition ends_with (suffix data : bytes) : bool := starts_with (reverse suffix) (reverse data).

(** [!meaningful_changes && cross_call_changes.is_empty()] *)
Definition quiet_result (r : ContractResult) : bool :=
  bool_decide (map_Forall (fun k _ => ends_with (str_bytes "_reentrancy") k = true) (fr_changes (cx_frame (cr_context r))))
  && bool_decide (cx_pending_ccc_changes (cr_context r) = ∅).

(** A call with everything that happens before the runtime starts: the batch with the value
    moved, the contract, the function the ABI resolves, and the accounts that the payment
    touched, which seed the projection of native accounts. *)
Record PreparedCall := mkPreparedCall {
  pc_state : CallState;
  pc_contract : ContractAccount;
  pc_function : bytes;
  pc_projected : gmap Pubkey Account;
}.

Definition prepare_contract_call (caller contract : Pubkey) (function args : bytes) (value : Z) (s : CallState)
  : result PreparedCall CallError :=
  let slot := gn_slot env in
  let? gov := map_err CallGovernance (refresh_contract_lifecycle_from_restrictions contract slot (cl_gov s)) in
  let s := set_cl_gov gov s in
  or_err (b_load_executable_contract contract gov) (CallTarget contract) (fun '(_, account) =>
  let logical_function_name := resolve_abi_call_function_name account function args in
  let? _ := map_err CallRuntime (validate_lifecycle_for_execution account logical_function_name false value) in
  if 0 <? value then
    let? accounts := map_err CallTransfer
      (transfer (native_transfer_blocked (batch_view (gv_restrictions gov)) slot) caller contract value
         (cl_accounts s)) in
    or_err (accounts !! caller) (CallPayable caller) (fun a =>
    or_err (accounts !! contract) (CallPayable contract) (fun b =>
    Ok (mkPreparedCall (set_cl_accounts accounts s) account logical_function_name
          (<[contract := b]> (<[caller := a]> ∅)))))
  else Ok (mkPreparedCall s account logical_function_name ∅)).

Definition call_context (budget : Z) (caller contract : Pubkey) (args : bytes) (value : Z) (meta : ContractMeta)
  (p : PreparedCall) : ContractContext :=
  set_cx_pending_native_account_state (pc_projected p)
    (build_top_level_call_context store caller contract value (gn_slot env)
       (batch_contract_storage store (pc_state p) contract) args (sat_sub budget (cm_compute_units meta))).

Definition contract_call_as_caller (budget : Z) (caller contract : Pubkey) (function args : bytes) (value : Z)
  (meta : ContractMeta) (s : CallState) : ContractMeta * result CallState CallError :=
  match prepare_contract_call caller contract function args value s with
  | Err e => (meta, Err e)
  | Ok p =>
      match execute store MAX_CROSS_CALL_DEPTH (pc_contract p) function args
              (call_context budget caller contract args value meta p) with
      | Err e => (meta, Err (CallRuntime e))
      | Ok r =>
          let meta := mkContractMeta (cr_return_code r) (cm_logs meta)
                        (sat_add64 (cm_compute_units meta) (cr_compute_used r))
                        (if cr_success r then cx_return_data (cr_context r) else []) in
          if negb (evaluate_contract_outcome (pc_contract p) (pc_function p) r (quiet_result r)
                     LegacyNonzeroNoChangeFailure)
          then (meta, Err (CallFailed function))
          else (meta, apply_result contract r (pc_state p))
      end
  end.

Definition contract_call (budget : Z) (ix : Instruction) (function args : bytes) (value : Z)
  (meta : ContractMeta) (s : CallState) : ContractMeta * result CallState CallError :=
  match ix_accounts ix with
  | caller :: contract :: _ =>
      if match get_governed_governance_authority env with Some (authority, _) => authority =? caller | None => false end
      then (meta, Err CallGovernedCaller)
      else contract_call_as_caller budget caller contract function args value meta s
  | _ => (meta, Err CallAccounts)
  end.
End calls.
