(* ===== verification/CallStore.v ===== *)
(** * Contract storage: overlays against one shared store

    The runtime copies the storage of a contract into every frame and collects changes in a
    table of pending writes ([Overlay] of [Runtime]).  The reference semantics, [Direct], is what
    a contract author expects: one store, which every frame reads and writes in place, with
    failed calls undone.  The theorem of this file says when the two agree; the file [CallFlaws]
    shows that the conditions are needed. *)

From S2P Require Import Prelude Crypto Block Account Transactions Fees Rent Transfers Restrictions Governed.
From S2P Require Import GovernanceActions Governance Processor Runtime ContractCalls.
From stdpp Require Import base tactics numbers list gmap strings.
From Stdlib Require Import ZArith Lia.

Local Open Scope Z_scope.
Local Open Scope rust_scope.

(** ** The reference *)

Abbreviation Stores := (gmap Pubkey Storage).
Definition stored (sh : Stores) (k : Pubkey) : Storage := default ∅ (sh !! k).

Definition write (key : bytes) (value : option bytes) (s : Storage) : Storage :=
  match value with Some v => <[key := v]> s | None => delete key s end.

Definition Direct : Backing := {|
  bk_shared := Stores;
  bk_frame := unit;
  bk_open _ _ _ := tt;
  bk_storage sh c _ := stored sh c;
  bk_put key value c sf := (<[c := write key value (stored sf.1 c)]> sf.1, tt);
  bk_close _ _ sh := sh;
|}.

(** ** Changes *)

Lemma lookup_apply_changes ch s k :
  apply_changes ch s !! k = match ch !! k with Some o => o | None => s !! k end.
Proof. unfold apply_changes. rewrite lookup_merge. by destruct (ch !! k), (s !! k). Qed.

Lemma apply_changes_empty s : apply_changes ∅ s = s.
Proof. apply map_eq. intros k. by rewrite lookup_apply_changes, lookup_empty. Qed.

Lemma apply_changes_union c1 c2 s : apply_changes (c1 ∪ c2) s = apply_changes c1 (apply_changes c2 s).
Proof.
  apply map_eq. intros k. rewrite !lookup_apply_changes, lookup_union.
  by destruct (c1 !! k), (c2 !! k).
Qed.

Lemma apply_changes_insert key value ch s :
  apply_changes (<[key := value]> ch) s = write key value (apply_changes ch s).
Proof.
  apply map_eq. intros k. rewrite lookup_apply_changes. unfold write.
  destruct (decide (k = key)) as [->|Hne].
  - rewrite lookup_insert_eq. destruct value; by rewrite ?lookup_insert_eq, ?lookup_delete_eq.
  - rewrite lookup_insert_ne by done.
    destruct value; by rewrite ?lookup_insert_ne, ?lookup_delete_ne, lookup_apply_changes.
Qed.

(** ** Guests that call only what is allowed *)

Inductive calls_in (ok : Pubkey -> Prop) : Guest -> Prop :=
| calls_done n code : calls_in ok (Done n code)
| calls_trap n : calls_in ok (Trap n)
| calls_host n call k :
    match call with CrossContractCall target _ _ _ _ => ok target | _ => True end ->
    (forall a, calls_in ok (k a)) -> calls_in ok (Host n call k).

Section simulation.
Context `{Crypto} `{Wasm} `{ContractCodec} `{NftCodec} `{HostPrimitives}.
Variable store : StateStore.

Abbreviation OCtx := (@ContractContext Overlay).
Abbreviation DCtx := (@ContractContext Direct).

(** The context of the reference with the store [sh], otherwise as the runtime's. *)
Definition lift (sh : Stores) (o : OCtx) : DCtx :=
  @mkContractContext Direct (cx_caller o) (cx_contract o) (cx_value o) (cx_slot o) tt (cx_events o) (cx_args o)
    (cx_return_data o) (cx_compute_remaining o) (cx_compute_limit o) sh (cx_pending_ccc_events o)
    (cx_pending_ccc_value_deltas o) (cx_pending_native_account_ops o) (cx_pending_native_account_state o)
    (cx_read_only o) (cx_storage_bytes_used o).

(** What a host function that does not touch storage keeps. *)
Definition same_place (o o' : OCtx) : Prop :=
  cx_contract o' = cx_contract o /\ cx_frame o' = cx_frame o
  /\ cx_pending_ccc_changes o' = cx_pending_ccc_changes o.

Lemma same_place_refl o : same_place o o.
Proof. done. Qed.

(** A host function acts on the reference as on the runtime, and leaves storage alone. *)
Definition blind (f : forall B : Backing, @ContractContext B -> Answer * @ContractContext B) : Prop :=
  forall sh o, f Direct (lift sh o) = ((f Overlay o).1, lift sh (f Overlay o).2) /\ same_place o (f Overlay o).2.

Lemma deduct_lift cost sh o :
  deduct_compute (B:=Direct) cost (lift sh o)
  = ((deduct_compute cost o).1, lift sh (deduct_compute cost o).2).
Proof. unfold deduct_compute. cbn. by case_match. Qed.

Ltac blind_cases :=
  intros sh o; unfold deduct_compute; cbn [cx_compute_remaining lift];
  repeat (match goal with
          | |- context [if ?b then _ else _] => destruct b
          | |- context [match ?x with Some _ => _ | None => _ end] => destruct x
          end; cbn [fst snd lift set_cx_compute_remaining cx_contract cx_slot cx_args]); split; done.

Lemma blind_log msg : blind (fun B => host_log_msg msg).
Proof. unfold blind, host_log_msg. blind_cases. Qed.

Lemma blind_event data : blind (fun B => host_emit_event data).
Proof. unfold blind, host_emit_event. blind_cases. Qed.

Lemma blind_caller : blind (fun B => host_get_key cx_caller).
Proof. unfold blind, host_get_key. blind_cases. Qed.

Lemma blind_address : blind (fun B => host_get_key cx_contract).
Proof. unfold blind, host_get_key. blind_cases. Qed.

Lemma blind_code_hash address : blind (fun B => host_get_contract_code_hash store address).
Proof. unfold blind, host_get_contract_code_hash. blind_cases. Qed.

Lemma blind_entropy slot : blind (fun B => host_get_block_entropy store slot).
Proof. unfold blind, host_get_block_entropy. blind_cases. Qed.

Lemma blind_allowed asset account amount balance direction :
  blind (fun B => token_account_allowed store asset account amount balance direction).
Proof. unfold blind, token_account_allowed. blind_cases. Qed.

Lemma blind_can_transfer asset from to amount x y :
  blind (fun B => host_can_transfer store asset from to amount x y).
Proof.
  intros sh o. unfold host_can_transfer.
  destruct (blind_allowed asset from amount x OutgoingTransfer sh o) as [-> (Hc & Hf & Hp)].
  destruct (token_account_allowed store asset from amount x OutgoingTransfer o) as [a o1]. cbn in *.
  case_match; [by split|].
  destruct (blind_allowed asset to amount y IncomingTransfer sh o1) as [-> (Hc1 & Hf1 & Hp1)].
  split; [done|]. split_and!; congruence.
Qed.

Lemma blind_args n : blind (fun B => host_get_args n).
Proof. unfold blind, host_get_args. blind_cases. Qed.

Lemma blind_return data : blind (fun B => host_set_return_data data).
Proof. unfold blind, host_set_return_data. blind_cases. Qed.

Lemma blind_poseidon l r : blind (fun B => host_poseidon_hash l r).
Proof. unfold blind, host_poseidon_hash. blind_cases. Qed.

(** ** Native accounts *)

Lemma projected_lift sh o k m :
  projected_native_account (B:=Direct) store (lift sh o) k m = projected_native_account store o k m.
Proof. done. Qed.

Lemma queue_lift op sh o :
  queue_native_account_op (B:=Direct) store op (lift sh o) = lift sh <$> queue_native_account_op store op o.
Proof.
  unfold queue_native_account_op. change (op_allowed store op (lift sh o)) with (op_allowed store op o).
  case_match; [done|]. rewrite !projected_lift. destruct (projected_native_account _ _ _ _) as [a|]; [cbn|done].
  destruct (after _) as [a'|]; [cbn|done].
  destruct op; cbn; try done. rewrite projected_lift.
  destruct (if _ =? _ then _ else _) as [b|]; [cbn|done]. by destruct (after _).
Qed.

Lemma queue_place op (o o' : OCtx) : queue_native_account_op store op o = Some o' -> same_place o o'.
Proof.
  unfold queue_native_account_op. case_match; [done|].
  intros (a & _ & (a' & _ & (st & _ & [= <-])%bind_Some)%bind_Some)%bind_Some. done.
Qed.

Lemma queue_all_lift ops sh o :
  queue_all (B:=Direct) store ops (lift sh o) = lift sh <$> queue_all store ops o.
Proof.
  unfold queue_all. change (Some (lift sh o)) with (lift sh <$> Some o). generalize (Some o) as x. clear o.
  induction ops as [|op ops IH]; intros x; [done|]. cbn [foldl]. rewrite <- IH. f_equal.
  destruct x as [o|]; [|done]. cbn. apply queue_lift.
Qed.

Lemma queue_all_place ops (o o' : OCtx) : queue_all store ops o = Some o' -> same_place o o'.
Proof.
  induction ops as [|op ops IH] using rev_ind in o' |- *; unfold queue_all; [by intros [= <-]|].
  rewrite foldl_app. cbn [foldl]. intros (o1 & Ho1 & Ho2)%bind_Some.
  destruct (IH _ Ho1) as (? & ? & ?). destruct (queue_place _ _ _ Ho2) as (? & ? & ?).
  split_and!; congruence.
Qed.

Lemma blind_native function args n : blind (fun B => handle_native_account_call store function args n).
Proof.
  intros sh o. unfold handle_native_account_call.
  case_match; [by split|]. case_match; [by split|]. case_match.
  { unfold native_nft_transfer_from. cbn [lift cx_read_only cx_contract].
    case_match; [by split|]. case_match; [by split|].
    change (load_projected_native_nft store ?a ?b ?d (lift sh o)) with (load_projected_native_nft store a b d o).
    case_match; [|by split]. case_match; [by split|].
    destruct (encode_token_state _) as [e|]; [cbn [mbind option_bind]|by split].
    rewrite queue_lift. destruct (queue_native_account_op _ _ _) as [o'|] eqn:Hq; [|by split].
    split; [done|]. by eapply queue_place. }
  case_match; [by split|]. case_match.
  { case_match; [by split|]. rewrite projected_lift. case_match; by split. }
  case_match; [by split|].
  change (parse_native_op function args (lift sh o)) with (parse_native_op function args o).
  destruct (parse_native_op function args o) as [op|]; [cbn [mbind option_bind]|by split].
  rewrite queue_lift. destruct (queue_native_account_op _ _ _) as [o'|] eqn:Hq; [|by split].
  split; [done|]. by eapply queue_place.
Qed.
(** ** The simulation

    [rank] orders the contracts so that calls go down; then no contract is entered while a
    frame of it is open. *)

Variable rank : Pubkey -> nat.

Definition reach (t u : Pubkey) : Prop := u = 0 \/ (rank u < rank t)%nat.

Definition below (t : Pubkey) (code : bytes) : Prop :=
  forall name f args, wasm_export code name = Some f -> calls_in (reach t) (f args).

(** What the frames to come see of a contract. *)
Definition view (o : OCtx) (t : Pubkey) : Storage :=
  apply_changes (default ∅ (cx_pending_ccc_changes o !! t)) (load_contract_storage_map store t).

Record sim (base : Storage) (o : OCtx) (sh : Stores) : Prop := {
  sim_here : stored sh (cx_contract o) = fr_storage (cx_frame o);
  sim_base : fr_storage (cx_frame o) = apply_changes (fr_changes (cx_frame o)) base;
  sim_view t : t <> cx_contract o -> (rank t <= rank (cx_contract o))%nat -> stored sh t = view o t;
}.

(** What a frame leaves to the contracts above it. *)
Record kept (o : OCtx) (sh : Stores) (o' : OCtx) (sh' : Stores) : Prop := {
  kept_contract : cx_contract o' = cx_contract o;
  kept_pending a : (rank (cx_contract o) < rank a)%nat \/ a = cx_contract o ->
    cx_pending_ccc_changes o' !! a = cx_pending_ccc_changes o !! a;
  kept_stored a : (rank (cx_contract o) < rank a)%nat -> stored sh' a = stored sh a;
}.

Lemma kept_refl o sh : kept o sh o sh.
Proof. by split. Qed.

Lemma kept_trans o sh o1 sh1 o2 sh2 : kept o sh o1 sh1 -> kept o1 sh1 o2 sh2 -> kept o sh o2 sh2.
Proof.
  intros [Hc Hp Hs] [Hc1 Hp1 Hs1]. rewrite Hc in *. split; [congruence|..].
  - intros a Ha. by rewrite Hp1, Hp.
  - intros a Ha. by rewrite Hs1, Hs.
Qed.

Lemma same_place_sim base o o' sh : same_place o o' -> sim base o sh -> sim base o' sh /\ kept o sh o' sh.
Proof.
  intros (Hc & Hf & Hp) [Ha Hb Hv]. split; split; unfold view in *; rewrite ?Hc, ?Hf, ?Hp; try done; by eauto.
Qed.

(** One step of a guest in both semantics. *)
Definition step_sim (base : Storage) (o : OCtx) (sh : Stores)
  (r : Answer * OCtx) (r' : Answer * DCtx) : Prop :=
  exists sh', r' = (r.1, lift sh' r.2) /\ sim base r.2 sh' /\ kept o sh r.2 sh'.

Lemma blind_step f base o sh :
  blind f -> sim base o sh -> step_sim base o sh (f Overlay o) (f Direct (lift sh o)).
Proof.
  intros Hb Hs. destruct (Hb sh o) as [-> Hp]. destruct (same_place_sim _ _ _ _ Hp Hs). by exists sh.
Qed.

Lemma idle_step a base o sh : sim base o sh -> step_sim base o sh (a, o) (a, lift sh o).
Proof. intros Hs. exists sh. split_and!; [done..|apply kept_refl]. Qed.

(** ** Storage calls *)

Lemma deduct_sim cost base o sh :
  sim base o sh -> sim base (deduct_compute cost o).2 sh /\ kept o sh (deduct_compute cost o).2 sh.
Proof. apply same_place_sim. unfold deduct_compute. by case_match. Qed.

Lemma put_step key value used base o sh :
  sim base o sh ->
  exists sh', put_storage (B:=Direct) key value (set_cx_storage_bytes_used used (lift sh o))
              = lift sh' (put_storage key value (set_cx_storage_bytes_used used o))
    /\ sim base (put_storage key value (set_cx_storage_bytes_used used o)) sh'
    /\ kept o sh (put_storage key value (set_cx_storage_bytes_used used o)) sh'.
Proof.
  intros [Ha Hb Hv]. exists (<[cx_contract o := write key value (stored sh (cx_contract o))]> sh).
  assert (forall a, a <> cx_contract o ->
    stored (<[cx_contract o := write key value (stored sh (cx_contract o))]> sh) a = stored sh a) as Hne.
  { intros a Hne. unfold stored. by rewrite lookup_insert_ne. }
  split; [done|]. split; split; cbn; try done.
  - unfold stored at 1. rewrite lookup_insert_eq. cbn. by rewrite Ha.
  - by rewrite apply_changes_insert, Hb.
  - intros t Ht Hr. rewrite Hne by done. by apply Hv.
  - intros a Hr. apply Hne. intros ->. lia.
Qed.

Lemma storage_lift base o sh : sim base o sh -> cx_storage (B:=Direct) (lift sh o) = cx_storage o.
Proof. intros Hs. exact (sim_here _ _ _ Hs). Qed.

Lemma read_step key n base o sh :
  sim base o sh -> step_sim base o sh (host_storage_read key n o) (host_storage_read (B:=Direct) key n (lift sh o)).
Proof.
  intros Hs. unfold host_storage_read. cbn [cx_compute_remaining lift].
  case_match; [by apply idle_step|]. case_match; [by apply idle_step|].
  fold (lift sh o). rewrite deduct_lift. cbn [snd].
  destruct (deduct_sim COMPUTE_STORAGE_READ _ _ _ Hs) as [Hs1 Hk]. rewrite (storage_lift _ _ _ Hs1).
  case_match; by exists sh.
Qed.

Lemma write_step key val base o sh :
  sim base o sh -> step_sim base o sh (host_storage_write key val o) (host_storage_write (B:=Direct) key val (lift sh o)).
Proof.
  intros Hs. unfold host_storage_write. cbn [cx_compute_remaining lift].
  case_match; [by apply idle_step|]. case_match; [by apply idle_step|].
  fold (lift sh o). rewrite deduct_lift. cbn [snd].
  destruct (deduct_sim (COMPUTE_STORAGE_WRITE + zlen val * COMPUTE_STORAGE_WRITE_PER_BYTE) _ _ _ Hs) as [Hs1 Hk].
  set (o1 := (deduct_compute _ o).2) in *. rewrite (storage_lift _ _ _ Hs1).
  case_match; [by exists sh|]. cbn [cx_storage_bytes_used lift]. case_match; [by exists sh|]. fold (lift sh o1).
  edestruct put_step as (sh' & Heq & Hs2 & Hk2); [exact Hs1|]. exists sh'. split; [by rewrite Heq|].
  split; [exact Hs2|]. by eapply kept_trans.
Qed.

Lemma delete_step key base o sh :
  sim base o sh -> step_sim base o sh (host_storage_delete key o) (host_storage_delete (B:=Direct) key (lift sh o)).
Proof.
  intros Hs. unfold host_storage_delete. cbn [cx_compute_remaining lift].
  case_match; [by apply idle_step|]. case_match; [by apply idle_step|].
  fold (lift sh o). rewrite deduct_lift. cbn [snd].
  destruct (deduct_sim COMPUTE_STORAGE_DELETE _ _ _ Hs) as [Hs1 Hk].
  set (o1 := (deduct_compute _ o).2) in *. rewrite (storage_lift _ _ _ Hs1).
  case_match; [|by exists sh]. cbn [cx_storage_bytes_used lift]. fold (lift sh o1).
  edestruct put_step as (sh' & Heq & Hs2 & Hk2); [exact Hs1|]. exists sh'. split; [by rewrite Heq|].
  split; [exact Hs2|]. by eapply kept_trans.
Qed.

(** ** Calls *)

Abbreviation Exec B := (ContractAccount -> bytes -> bytes -> @ContractContext B -> result (@ContractResult B) RuntimeError).

Definition result_sim (base : Storage) (o : OCtx) (sh : Stores)
  (r : result (@ContractResult Overlay) RuntimeError) (r' : result (@ContractResult Direct) RuntimeError) : Prop :=
  match r, r' with
  | Ok r, Ok r' =>
      exists sh', r' = @mkContractResult Direct (cr_success r) (cr_return_code r) (cr_compute_used r)
                         (lift sh' (cr_context r))
        /\ sim base (cr_context r) sh' /\ kept o sh (cr_context r) sh'
  | Err e, Err e' => e = e'
  | _, _ => False
  end.

Definition exec_sim (f : Exec Overlay) (f' : Exec Direct) : Prop :=
  forall contract function args base o sh,
    sim base o sh -> below (cx_contract o) (ca_code contract) ->
    result_sim base o sh (f contract function args o) (f' contract function args (lift sh o)).

Definition deeper_sim (f : option (Exec Overlay)) (f' : option (Exec Direct)) : Prop :=
  match f, f' with Some f, Some f' => exec_sim f f' | None, None => True | _, _ => False end.

(** The context in which a callee starts, with the value attached. *)
Definition callee_start {B : Backing} (target : Pubkey) (args : bytes) (value : Z) (projected : option Account)
  (c : @ContractContext B) : @ContractContext B :=
  let callee := callee_context store target args value c in
  match projected with
  | Some a => set_cx_pending_native_account_state (<[target := a]> (cx_pending_native_account_state callee)) callee
  | None => callee
  end.

Lemma callee_start_sim target args value projected base o sh :
  sim base o sh -> (rank target < rank (cx_contract o))%nat ->
  callee_start target args value projected (lift sh o) = lift sh (callee_start target args value projected o)
  /\ sim (view o target) (callee_start target args value projected o) sh.
Proof.
  intros [Ha Hb Hv] Hr.
  assert (stored sh target = view o target) as Ht by (apply Hv; [intros ->|]; lia). split.
  - unfold callee_start, callee_context. cbn -[storage_bytes]. fold (view o target). rewrite Ht. by destruct projected.
  - unfold callee_start. destruct projected; split; cbn; try exact Ht; try (by rewrite apply_changes_empty);
      intros t Hne Hle; apply Hv; [intros ->; lia|lia|intros ->; lia|lia].
Qed.

Lemma callee_start_place target args value projected (o : OCtx) :
  cx_contract (callee_start target args value projected o) = target
  /\ cx_pending_ccc_changes (callee_start target args value projected o) = cx_pending_ccc_changes o.
Proof. by destruct projected. Qed.

(** Closing the frame of a callee publishes what it stored. *)
Lemma close_sim target base o sh o1 (callee final : OCtx) sh' :
  sim base o sh -> (rank target < rank (cx_contract o))%nat ->
  cx_contract callee = target -> cx_pending_ccc_changes callee = cx_pending_ccc_changes o ->
  sim (view o target) final sh' -> kept callee sh final sh' ->
  cx_contract o1 = cx_contract o -> cx_frame o1 = cx_frame o ->
  cx_pending_ccc_changes o1 = bk_close target (cx_frame final) (cx_pending_ccc_changes final) ->
  sim base o1 sh' /\ kept o sh o1 sh'.
Proof.
  intros [Ha Hb Hv] Hr Hct Hpt [Ha1 Hb1 Hv1] [Hc1 Hp1 Hs1] Hco Hfo Hpo. rewrite Hct in *. rewrite Hc1, Hpt in *.
  assert (forall t, t <> target -> cx_pending_ccc_changes o1 !! t = cx_pending_ccc_changes final !! t) as Hother.
  { intros t Ht. rewrite Hpo. cbn. case_bool_decide; [done|]. by rewrite lookup_insert_ne. }
  assert (view o1 target = stored sh' target) as Htarget.
  { rewrite Ha1, Hb1. unfold view at 1. rewrite Hpo. cbn. case_bool_decide as Hem.
    - rewrite Hem, apply_changes_empty. unfold view. by rewrite Hp1 by auto.
    - rewrite lookup_insert_eq. cbn. rewrite apply_changes_union. unfold view. by rewrite Hp1 by auto. }
  split; split.
  - rewrite Hco, Hfo, Hs1 by lia. done.
  - by rewrite Hfo.
  - intros t Hne Hle. rewrite Hco in *. destruct (decide (t = target)) as [->|Ht]; [done|].
    unfold view. rewrite Hother by done. destruct (decide (rank t <= rank target)%nat) as [Hle1|Hgt].
    + by apply Hv1.
    + rewrite Hs1, Hp1 by (lia || (left; lia)). by apply Hv.
  - done.
  - intros a Har. rewrite Hother by (intros ->; destruct Har as [?| ->]; lia).
    apply Hp1. left. destruct Har as [?| ->]; lia.
  - intros a Har. apply Hs1. lia.
Qed.

Lemma load_callee_code target slot contract :
  load_callee store target slot = Some contract ->
  exists c0, load_contract store target = Some c0 /\ ca_code contract = ca_code c0.
Proof.
  unfold load_callee. intros (c0 & Hc & [= <-])%bind_Some. exists c0. split; [done|].
  destruct (sync_lifecycle_from_restrictions _ _ _ _) as [c1|] eqn:Hs; [cbn|done].
  unfold sync_lifecycle_from_restrictions in Hs. repeat case_match; simplify_eq; done.
Qed.

Hypothesis stored_below : forall t contract, load_contract store t = Some contract -> below t (ca_code contract).

Lemma merge_sim target value deltas updates base o sh callee r sh' :
  sim base o sh -> (rank target < rank (cx_contract o))%nat ->
  cx_contract callee = target -> cx_pending_ccc_changes callee = cx_pending_ccc_changes o ->
  sim (view o target) (cr_context r) sh' -> kept callee sh (cr_context r) sh' ->
  let r' := @mkContractResult Direct (cr_success r) (cr_return_code r) (cr_compute_used r) (lift sh' (cr_context r)) in
  match merge_callee store target value deltas updates r o,
        merge_callee (B:=Direct) store target value deltas updates r' (lift sh o) with
  | Some o1, Some d1 => d1 = lift sh' o1 /\ sim base o1 sh' /\ kept o sh o1 sh'
  | None, None => True
  | _, _ => False
  end.
Proof.
  intros Hs Hr Hc Hp Hs' Hk r'. unfold merge_callee. cbv zeta.
  change (cx_pending_ccc_value_deltas (cr_context r')) with (cx_pending_ccc_value_deltas (cr_context r)).
  change (cx_pending_native_account_ops (cr_context r')) with (cx_pending_native_account_ops (cr_context r)).
  change (cx_pending_native_account_ops (lift sh o)) with (cx_pending_native_account_ops o).
  change (cx_pending_native_account_state (lift sh o)) with (cx_pending_native_account_state o).
  destruct (commit_deltas _ _ _ _) as [ds|]; [cbn [mbind option_bind]|done]. destruct (_ <? _)%nat; [done|].
  set (o0 := set_cx_pending_ccc_value_deltas ds (set_cx_pending_native_account_state _ o)).
  change (set_cx_pending_ccc_value_deltas ds (set_cx_pending_native_account_state _ (lift sh o))) with (lift sh o0).
  rewrite queue_all_lift. destruct (queue_all store _ o0) as [o1|] eqn:Hq; cbn; [|done].
  destruct (queue_all_place _ _ _ Hq) as (Hpl1 & Hpl2 & Hpl3).
  split; [done|]. eapply (close_sim target base o sh _ callee (cr_context r)); try done.
Qed.

Lemma outcome_lift contract name r sh' quiet fallback :
  evaluate_contract_outcome (H:=Direct) contract name
    (mkContractResult (cr_success r) (cr_return_code r) (cr_compute_used r) (lift sh' (cr_context r))) quiet fallback
  = evaluate_contract_outcome contract name r quiet fallback.
Proof. done. Qed.

Lemma attach_lift target value sh o :
  attach_value (B:=Direct) store target value (lift sh o) = attach_value store target value o.
Proof. done. Qed.

Lemma call_step f f' target function args value n base o sh :
  deeper_sim f f' -> sim base o sh -> reach (cx_contract o) target ->
  step_sim base o sh (host_cross_contract_call store f target function args value n o)
    (host_cross_contract_call (B:=Direct) store f' target function args value n (lift sh o)).
Proof.
  intros Hd Hs Hreach. unfold host_cross_contract_call.
  case_match; [by apply idle_step|]. case_match; [by apply idle_step|].
  destruct f as [f|], f' as [f'|]; try done; [|by apply idle_step].
  rewrite deduct_lift. destruct (deduct_sim COMPUTE_CROSS_CALL _ _ _ Hs) as [Hs1 Hk1].
  destruct (deduct_compute COMPUTE_CROSS_CALL o) as [ok o1] eqn:Hded. cbn [fst snd] in *.
  assert (forall r r', step_sim base o1 sh r r' -> step_sim base o sh r r') as Hmono.
  { intros r r' (sh' & -> & Hs' & Hk'). exists sh'. split_and!; [done..|]. by eapply kept_trans. }
  rewrite <- (kept_contract _ _ _ _ Hk1) in Hreach. apply Hmono. clear Hmono Hk1 Hs Hded o.
  destruct ok; [|by apply idle_step].
  destruct (Z.eqb_spec target 0) as [->|Hnz]; [exact (blind_step _ _ _ _ (blind_native function args n) Hs1)|].
  destruct Hreach as [?|Hr]; [done|]. change (cx_slot (lift sh o1)) with (cx_slot o1).
  destruct (load_callee store target (cx_slot o1)) as [contract|] eqn:Hload; [|by apply idle_step]. cbv zeta.
  change (cx_read_only (lift sh o1)) with (cx_read_only o1). case_match; [by apply idle_step|].
  rewrite attach_lift. destruct (attach_value store target value o1) as [[[deltas updates] projected]|];
    [|by apply idle_step].
  fold (callee_start target args value projected o1). fold (callee_start target args value projected (lift sh o1)).
  destruct (callee_start_sim target args value projected _ _ _ Hs1 Hr) as [-> Hs2].
  destruct (callee_start_place target args value projected o1) as [Hcc Hcp].
  set (callee := callee_start target args value projected o1) in *.
  assert (below (cx_contract callee) (ca_code contract)) as Hbelow.
  { destruct (load_callee_code _ _ _ Hload) as (c0 & Hl & ->). rewrite Hcc. by apply stored_below. }
  pose proof (Hd contract function args _ _ _ Hs2 Hbelow) as Hres. unfold result_sim in Hres.
  destruct (f contract function args callee) as [r|e], (f' contract function args (lift sh callee)) as [r'|e'];
    try done; [|by apply idle_step].
  destruct Hres as (sh' & -> & Hs3 & Hk3). rewrite outcome_lift. cbn [cr_compute_used].
  set (o2 := set_cx_compute_remaining (sat_sub (cx_compute_remaining o1) (cr_compute_used r)) o1).
  change (set_cx_compute_remaining _ (lift sh o1)) with (lift sh o2).
  assert (sim base o2 sh) as Hs4 by (by destruct (same_place_sim base o1 o2 sh)).
  assert (kept o1 sh o2 sh) as Hk4 by (by destruct (same_place_sim base o1 o2 sh)).
  case_match; [by exists sh|].
  pose proof (merge_sim target value deltas updates base o2 sh callee r sh' Hs4 Hr Hcc Hcp Hs3 Hk3) as Hm. cbv zeta in Hm.
  destruct (merge_callee store target value deltas updates r o2) as [o3|],
    (merge_callee (B:=Direct) store target value deltas updates _ (lift sh o2)) as [d3|]; try done; [|by exists sh].
  destruct Hm as (-> & Hs5 & Hk5). exists sh'. split_and!; [done..|]. by eapply kept_trans.
Qed.

Lemma host_step f f' call base o sh :
  deeper_sim f f' -> sim base o sh ->
  match call with CrossContractCall target _ _ _ _ => reach (cx_contract o) target | _ => True end ->
  step_sim base o sh (host_call store f call o) (host_call (B:=Direct) store f' call (lift sh o)).
Proof.
  intros Hd Hs Hc. destruct call; cbn [host_call]; try (by apply idle_step).
  - by apply read_step.
  - by apply write_step.
  - by apply delete_step.
  - exact (blind_step _ _ _ _ (blind_log _) Hs).
  - exact (blind_step _ _ _ _ (blind_event _) Hs).
  - exact (blind_step _ _ _ _ blind_caller Hs).
  - exact (blind_step _ _ _ _ blind_address Hs).
  - exact (blind_step _ _ _ _ (blind_code_hash _) Hs).
  - exact (blind_step _ _ _ _ (blind_entropy _) Hs).
  - exact (blind_step _ _ _ _ (blind_allowed _ _ _ _ _) Hs).
  - exact (blind_step _ _ _ _ (blind_allowed _ _ _ _ _) Hs).
  - exact (blind_step _ _ _ _ (blind_can_transfer _ _ _ _ _ _) Hs).
  - exact (blind_step _ _ _ _ (blind_args _) Hs).
  - exact (blind_step _ _ _ _ (blind_return _) Hs).
  - by apply call_step.
  - exact (blind_step _ _ _ _ (blind_poseidon _ _) Hs).
Qed.

Lemma guest_sim f f' g points base o sh :
  deeper_sim f f' -> sim base o sh -> calls_in (reach (cx_contract o)) g ->
  let '(e, m, o') := run_guest (host_call store f) g points o in
  exists sh', run_guest (host_call (B:=Direct) store f') g points (lift sh o) = (e, m, lift sh' o')
    /\ sim base o' sh' /\ kept o sh o' sh'.
Proof.
  intros Hd Hs Hg. remember (cx_contract o) as c eqn:Hc.
  induction Hg as [n code|n|n call k Hcall _ IH] in points, o, sh, Hs, Hc |- *; cbn [run_guest].
  - destruct (points <? n); exists sh; split_and!; try done; apply kept_refl.
  - destruct (points <? n); exists sh; split_and!; try done; apply kept_refl.
  - destruct (points <? n); [exists sh; split_and!; try done; apply kept_refl|].
    destruct (host_step f f' call base o sh Hd Hs) as (sh1 & Heq & Hs1 & Hk1); [by rewrite <- Hc; destruct call|].
    destruct (host_call store f call o) as [a o1]. cbn [fst snd] in *. rewrite Heq.
    specialize (IH a (points - n) o1 sh1 Hs1). rewrite (kept_contract _ _ _ _ Hk1) in IH. specialize (IH Hc).
    destruct (run_guest _ _ _ o1) as [[e m] o']. destruct IH as (sh' & -> & Hs' & Hk'). exists sh'.
    split_and!; [done..|]. by eapply kept_trans.
Qed.

Lemma entry_below t contract function args f effective :
  below t (ca_code contract) -> entry_point contract function args = Ok (f, effective) ->
  calls_in (reach t) (f effective).
Proof.
  intros Hb. unfold entry_point, or_err. intros He. repeat case_match; simplify_eq; by eapply Hb.
Qed.

(** With calls that go down, the runtime and the reference agree on everything: the answers of
    all host calls, the result, the compute used, and the storage each contract ends with. *)
Lemma execute_sim levels : exec_sim (execute store levels) (execute (B:=Direct) store levels).
Proof.
  induction levels as [|levels IH]; intros contract function args base o sh Hs Hb; cbn [execute];
    change (cx_read_only (lift sh o)) with (cx_read_only o); change (cx_value (lift sh o)) with (cx_value o);
    (destruct (validate_lifecycle_for_execution _ _ _ _) as [[]|e]; cbn [and_then]; [|done]);
    (destruct (entry_point contract function args) as [[f effective]|e] eqn:He; cbn [and_then]; [|done]);
    change (cx_compute_limit (lift sh o)) with (cx_compute_limit o);
    change (cx_compute_remaining (lift sh o)) with (cx_compute_remaining o);
    change (set_cx_args effective (lift sh o)) with (lift sh (set_cx_args effective o));
    (destruct (same_place_sim base o (set_cx_args effective o) sh) as [Hs1 Hk1]; [done..|]);
    pose proof (entry_below _ _ _ _ _ _ Hb He) as Hg.
  - pose proof (guest_sim None None (f effective) (wasm_fuel_limit_for_compute_limit (cx_compute_limit o)) base _ _ I Hs1 Hg)
      as Hrun. destruct (run_guest _ _ _ (set_cx_args effective o)) as [[e m] o'].
    destruct Hrun as (sh' & -> & Hs' & Hk'). cbn [cx_compute_remaining lift].
    apply (kept_trans _ _ _ _ _ _ Hk1) in Hk'. repeat case_match; exists sh'; by split_and!.
  - pose proof (guest_sim (Some (execute store levels)) (Some (execute (B:=Direct) store levels)) (f effective)
      (wasm_fuel_limit_for_compute_limit (cx_compute_limit o)) base _ _ IH Hs1 Hg) as Hrun.
    destruct (run_guest _ _ _ (set_cx_args effective o)) as [[e m] o'].
    destruct Hrun as (sh' & -> & Hs' & Hk'). cbn [cx_compute_remaining lift].
    apply (kept_trans _ _ _ _ _ _ Hk1) in Hk'. repeat case_match; exists sh'; by split_and!.
Qed.
End simulation.

(** ** Whole calls *)

Section calls.
Context `{Crypto} `{Wasm} `{ContractCodec} `{NftCodec} `{HostPrimitives}.
Variable env : GovernanceEnv.
Variable store : StateStore.

(** The context of a top-level call in the reference. *)
Definition reference_context (sh : Stores) (budget : Z) (caller contract : Pubkey) (args : bytes) (value : Z)
  (meta : ContractMeta) (p : PreparedCall) : @ContractContext Direct :=
  let limit := sat_sub budget (cm_compute_units meta) in
  @mkContractContext Direct caller contract value (gn_slot env) tt [] args []
    (Z.min limit DEFAULT_COMPUTE_LIMIT) limit sh [] ∅ [] (pc_projected p) false (storage_bytes (stored sh contract)).

(** ** What applying a result does to storage *)

Lemma try_fold_keeps {A} (f : CallState -> A -> result CallState CallError) s l s' :
  (forall s x s1, f s x = Ok s1 -> cl_overlay s1 = cl_overlay s) -> try_fold f s l = Ok s' ->
  cl_overlay s' = cl_overlay s.
Proof.
  intros Hf. revert s. induction l as [|x l IH]; intros s; cbn [try_fold]; [by intros [= ->]|].
  rewrite and_then_Ok. intros (s1 & Hs1 & Hs2). rewrite (IH _ Hs2). by eapply Hf.
Qed.

Lemma update_account_overlay op e k s s' : update_account op e k s = Ok s' -> cl_overlay s' = cl_overlay s.
Proof. unfold update_account, or_err. intros Hu. repeat case_match; simplify_eq. done. Qed.

Lemma apply_delta_overlay s kd s' : apply_delta s kd = Ok s' -> cl_overlay s' = cl_overlay s.
Proof.
  destruct kd as [k d]. unfold apply_delta. case_match; [by intros [= ->]|]. apply update_account_overlay.
Qed.

Lemma apply_native_op_overlay s op s' : apply_native_op s op = Ok s' -> cl_overlay s' = cl_overlay s.
Proof.
  unfold apply_native_op. rewrite and_then_Ok. intros (s1 & Hs1%update_account_overlay & Hs2). rewrite <- Hs1.
  repeat case_match; simplify_eq; done.
Qed.

Lemma put_changes_storage t contract changes s :
  batch_contract_storage store (put_contract_changes contract changes s) t
  = if decide (t = contract) then apply_changes changes (batch_contract_storage store s t)
    else batch_contract_storage store s t.
Proof.
  unfold batch_contract_storage. cbn. case_decide as Ht; [subst|by rewrite lookup_insert_ne].
  rewrite lookup_insert_eq. cbn. by rewrite apply_changes_union.
Qed.

Lemma cross_calls_storage t l s s' :
  NoDup l.*1 -> try_fold apply_cross_call s l = Ok s' ->
  batch_contract_storage store s' t
  = apply_changes (default ∅ ((list_to_map l : gmap Pubkey Changes) !! t)) (batch_contract_storage store s t).
Proof.
  revert s. induction l as [|[k ch] l IH]; intros s Hnd; cbn [try_fold].
  { intros [= ->]. cbn. by rewrite lookup_empty, apply_changes_empty. }
  cbn [fmap list_fmap fst] in Hnd. apply NoDup_cons in Hnd as [Hnin Hnd].
  rewrite and_then_Ok. intros (s1 & Hs1 & Hs2). rewrite (IH _ Hnd Hs2). cbn [list_to_map foldr fst snd uncurry].
  assert (batch_contract_storage store s1 t
          = if decide (t = k) then apply_changes ch (batch_contract_storage store s t) else batch_contract_storage store s t) as ->.
  { unfold apply_cross_call in Hs1. case_bool_decide as Hem.
    - simplify_eq. case_decide; [by rewrite apply_changes_empty|done].
    - unfold or_err in Hs1. repeat case_match; simplify_eq. all: rewrite put_changes_storage; by case_decide. }
  change (foldr _ _ _) with (<[k := ch]> (list_to_map l : gmap Pubkey Changes)).
  case_decide as Ht; [subst|by rewrite lookup_insert_ne].
  rewrite lookup_insert_eq, not_elem_of_list_to_map_1 by done. cbn. by rewrite apply_changes_empty.
Qed.

Lemma apply_result_storage t contract r s s' :
  apply_result contract r s = Ok s' ->
  batch_contract_storage store s' t
  = apply_changes (default ∅ (cx_pending_ccc_changes (cr_context r) !! t))
      (if decide (t = contract) then apply_changes (fr_changes (cx_frame (cr_context r))) (batch_contract_storage store s t)
       else batch_contract_storage store s t).
Proof.
  unfold apply_result. rewrite and_then_Ok. intros (s1 & Hs1 & Hr). rewrite and_then_Ok in Hr.
  destruct Hr as (s2 & Hs2 & Hr). rewrite (cross_calls_storage t _ _ _ (NoDup_fst_map_to_list _) Hr), list_to_map_to_list.
  apply (try_fold_keeps _ _ _ _ apply_delta_overlay) in Hs1.
  apply (try_fold_keeps _ _ _ _ apply_native_op_overlay) in Hs2.
  assert (batch_contract_storage store s2 t = batch_contract_storage store s t) as Heq.
  { unfold batch_contract_storage. by rewrite Hs2, Hs1. }
  f_equal. case_bool_decide as Hem.
  - rewrite Hem. change (batch_contract_storage _ _ t) with (batch_contract_storage store s2 t) at 1. rewrite Heq.
    by rewrite apply_changes_empty; case_decide.
  - rewrite put_changes_storage. by change (batch_contract_storage store (set_cl_events _ _) t) with (batch_contract_storage store s2 t); rewrite Heq.
Qed.

Lemma prepare_overlay caller contract function args value s p :
  prepare_contract_call env caller contract function args value s = Ok p -> cl_overlay (pc_state p) = cl_overlay s.
Proof.
  unfold prepare_contract_call. rewrite and_then_Ok. intros (gov & _ & Hp). unfold or_err in Hp.
  destruct (b_load_executable_contract contract gov) as [[? account]|]; [|done]. rewrite and_then_Ok in Hp.
  destruct Hp as (_ & _ & Hp). case_match; [|by simplify_eq]. rewrite and_then_Ok in Hp.
  destruct Hp as (accounts & _ & Hp). repeat case_match; simplify_eq; done.
Qed.

End calls.
