(* ===== verification/CallValue.v ===== *)
(** * Native value in contract calls

    Whatever contracts run in a call, however they nest, fail and pay each other: the balances
    of the batch afterwards add up to the balances before, less the locked balances that
    contracts deducted.  The sources are those of [Runtime] and [ContractCalls]. *)

From S2P Require Import Prelude Crypto Block Account Transactions Fees Rent Transfers Restrictions Governed.
From S2P Require Import GovernanceActions Governance Processor Runtime ContractCalls.
From stdpp Require Import base tactics numbers list gmap strings.
From Stdlib Require Import ZArith Lia.

Local Open Scope Z_scope.
Local Open Scope rust_scope.

(** Guests pass bytes and unsigned values to the host. *)
Inductive typed_guest : Guest -> Prop :=
| typed_done n code : typed_guest (Done n code)
| typed_trap n : typed_guest (Trap n)
| typed_host n call k :
    match call with CrossContractCall _ _ args value _ => Forall is_byte args /\ 0 <= value | _ => True end ->
    (forall a, typed_guest (k a)) -> typed_guest (Host n call k).

Class WasmTyped `{Wasm} : Prop := {
  wasm_typed code name f args : wasm_export code name = Some f -> typed_guest (f args);
}.

(** What an operation credits to and destroys of an account. *)
Definition credited (k : Pubkey) (op : NativeAccountOp) : Z :=
  match op with OpTransferNative _ to amount => if to =? k then amount else 0 | _ => 0 end.
Definition deducted (k : Pubkey) (op : NativeAccountOp) : Z :=
  match op with OpDeductLockedNative account amount => if account =? k then amount else 0 | _ => 0 end.
Definition destroyed (op : NativeAccountOp) : Z :=
  match op with OpDeductLockedNative _ amount => amount | _ => 0 end.

Section value.
Context `{Crypto} `{Wasm} `{ContractCodec} `{NftCodec} `{HostPrimitives} {T : WasmTyped}.
Variable env : GovernanceEnv.
Variable store : StateStore.
Variable top : Pubkey.

(** The accounts whose value the runtime moves of its own: contracts. *)
Definition runs (k : Pubkey) : Prop := k = top \/ is_Some (load_contract store k).

Definition op_typed (op : NativeAccountOp) : Prop :=
  match op with
  | OpLockNative _ amount | OpUnlockNative _ amount | OpDeductLockedNative _ amount => 0 <= amount
  | OpTransferNative from _ amount => runs from /\ 0 <= amount
  | OpNftTransfer _ _ _ _ _ => True
  end.

Record value_inv (c : ContractContext) : Prop := {
  vi_contract : runs (cx_contract c);
  vi_sum : map_sum id (cx_pending_ccc_value_deltas c) = 0;
  vi_keys k : is_Some (cx_pending_ccc_value_deltas c !! k) -> runs k;
  vi_ops : Forall op_typed (cx_pending_native_account_ops c);
}.

Definition same_native (c c' : ContractContext) : Prop :=
  cx_contract c' = cx_contract c
  /\ cx_pending_ccc_value_deltas c' = cx_pending_ccc_value_deltas c
  /\ cx_pending_native_account_ops c' = cx_pending_native_account_ops c.

Lemma same_native_inv c c' : same_native c c' -> value_inv c -> value_inv c'.
Proof. intros (Hc & Hd & Ho) [H1' H2' H3' H4']. split; rewrite ?Hc, ?Hd, ?Ho; done || by eauto. Qed.

Lemma deduct_inv cost c : value_inv c -> value_inv (deduct_compute cost c).2.
Proof. apply same_native_inv. unfold deduct_compute. by case_match. Qed.

(** ** Host functions *)

Lemma queue_inv op c c' : op_typed op -> value_inv c -> queue_native_account_op store op c = Some c' -> value_inv c'.
Proof.
  intros Hop [H1' H2' H3' H4']. unfold queue_native_account_op. case_match; [done|].
  intros (a & _ & (a' & _ & (st & _ & [= <-])%bind_Some)%bind_Some)%bind_Some.
  split; try done. cbn. apply Forall_app. by split; [|apply Forall_singleton].
Qed.

Lemma queue_all_inv ops c c' :
  Forall op_typed ops -> value_inv c -> queue_all store ops c = Some c' -> value_inv c'.
Proof.
  intros Hops Hc. induction ops as [|op ops IH] using rev_ind in c', Hops |- *; unfold queue_all; [by intros [= <-]|].
  apply Forall_app in Hops as [Hops Hop]. rewrite Forall_singleton in Hop. rewrite foldl_app. cbn [foldl].
  intros (c1 & Hc1 & Hc2)%bind_Some. eapply queue_inv; [exact Hop| |exact Hc2]. by apply IH.
Qed.

Lemma native_call_inv function args n c :
  Forall is_byte args -> value_inv c -> value_inv (handle_native_account_call store function args n c).2.
Proof.
  intros Hargs Hc. unfold handle_native_account_call. do 2 (case_match; [done|]). case_match.
  { unfold native_nft_transfer_from. do 4 (case_match; try done).
    destruct (_ ≫= _) as [c'|] eqn:Hq; [|done]. apply bind_Some in Hq as (e & _ & Hq). by eapply queue_inv in Hq. }
  case_match; [done|]. case_match; [repeat case_match; done|]. case_match; [done|].
  destruct (_ ≫= _) as [c'|] eqn:Hq; [|done]. apply bind_Some in Hq as (op & Hop & Hq). cbn.
  eapply queue_inv; [|exact Hc|exact Hq]. pose proof (u64_at_nonneg args 32 Hargs).
  unfold parse_native_op in Hop. repeat case_match; simplify_eq; cbn; try lia. split; [apply Hc|lia].
Qed.

Lemma map_sum_delta account delta m m' :
  add_delta account delta m = Some m' ->
  map_sum id m' = map_sum id m + delta /\ forall k, is_Some (m' !! k) -> is_Some (m !! k) \/ k = account.
Proof.
  unfold add_delta. case_match; [|done]. intros [= <-]. split.
  - rewrite map_sum_put. destruct (m !! account); cbn; unfold id; lia.
  - intros k. destruct (decide (k = account)) as [->|Hne]; [by right|]. rewrite lookup_insert_ne by done. by left.
Qed.

Lemma commit_deltas_sum target value m callee m' :
  0 <= value -> commit_deltas target value m callee = Some m' ->
  map_sum id m' = map_sum id m + value + map_sum id callee
  /\ forall k, is_Some (m' !! k) -> is_Some (m !! k) \/ k = target \/ is_Some (callee !! k).
Proof.
  intros H0'. unfold commit_deltas. intros (m1 & Hm1 & Hf)%bind_Some.
  assert (map_sum id m1 = map_sum id m + value /\ forall k, is_Some (m1 !! k) -> is_Some (m !! k) \/ k = target) as [Hs1 Hk1].
  { case_match; [by apply map_sum_delta|]. injection Hm1 as <-. assert (value = 0) as -> by lia. split; [lia|auto]. }
  assert (forall l m1 m', foldl (fun acc kv => acc ≫= add_delta kv.1 kv.2) (Some m1) l = Some m' ->
    map_sum id m' = map_sum id m1 + sumZ snd l /\ forall k, is_Some (m' !! k) -> is_Some (m1 !! k) \/ k ∈ l.*1) as Hfold.
  { clear. induction l as [|[k d] l IH] using rev_ind; intros m1 m'.
    - cbn. intros [= <-]. split; [unfold sumZ; cbn; lia|auto].
    - rewrite foldl_app. cbn [foldl fst snd]. intros (m2 & Hm2 & [Hs Hk]%map_sum_delta)%bind_Some.
      destruct (IH _ _ Hm2) as [Hs2 Hk2]. rewrite sumZ_app, fmap_app. split; [rewrite Hs, Hs2; unfold sumZ at 3; cbn; lia|].
      intros j [[Hj|Hj]%Hk2| ->]%Hk; rewrite elem_of_app; [auto..|]. right. right. by left. }
  apply Hfold in Hf as [Hs2 Hk2]. split; [rewrite Hs2, Hs1; done|].
  intros k [Hk|Hk]%Hk2; [by destruct (Hk1 k Hk); auto|]. right. right.
  apply list_elem_of_fmap in Hk as ([k' d] & -> & Hk%elem_of_map_to_list). by exists d.
Qed.

(** ** Calls *)

Abbreviation Exec := (ContractAccount -> bytes -> bytes -> ContractContext -> result ContractResult RuntimeError).

(** A frame that starts in order ends in order, and passes on the operations it inherited. *)
Definition exec_inv (f : Exec) : Prop :=
  forall contract function args c r,
    value_inv c -> f contract function args c = Ok r -> value_inv (cr_context r).

Lemma attach_value_delta target value c deltas updates projected :
  0 <= value -> attach_value store target value c = Some (deltas, updates, projected) ->
  map_sum id deltas = map_sum id (cx_pending_ccc_value_deltas c) - value
  /\ forall k, is_Some (deltas !! k) -> is_Some (cx_pending_ccc_value_deltas c !! k) \/ k = cx_contract c.
Proof.
  intros H0'. unfold attach_value. destruct (Z.eqb_spec value 0) as [->|Hnz]; [intros [= <- <- <-]; split; [lia|auto]|].
  case_match; [done|]. intros (pc & _ & Hp)%bind_Some. case_match; [done|].
  apply bind_Some in Hp as ([us pt] & _ & Hp). apply bind_Some in Hp as (ds & Hd & [= <- <- <-]).
  apply map_sum_delta in Hd as [Hs Hk]. split; [lia|done].
Qed.

Lemma merge_inv target value deltas updates projected r c c0 c' :
  0 <= value -> runs target -> value_inv c -> value_inv (cr_context r) ->
  attach_value store target value c0 = Some (deltas, updates, projected) ->
  cx_pending_ccc_value_deltas c = cx_pending_ccc_value_deltas c0 -> cx_contract c = cx_contract c0 ->
  merge_callee store target value deltas updates r c = Some c' -> value_inv c'.
Proof.
  intros H0' Ht [Hc Hsum Hkeys Hops] [Hrc Hrsum Hrkeys Hrops] Ha Hd0 Hc0. unfold merge_callee.
  apply attach_value_delta in Ha as [Has Hak]; [|done]. rewrite <- Hd0 in Has, Hak. rewrite <- Hc0 in Hak.
  intros (ds & Hds & Hm)%bind_Some. apply commit_deltas_sum in Hds as [Hs Hk]; [|done].
  case_match; [done|]. apply bind_Some in Hm as (c1 & Hq & [= <-]).
  eapply queue_all_inv in Hq; [|by apply Forall_drop|].
  - destruct Hq. by split.
  - split; cbn; try done; [lia|]. intros k [[Hk'|Hk']%Hak|[->|Hk']]%Hk; subst; eauto.
Qed.

Lemma call_inv f target function args value n c :
  Forall is_byte args -> 0 <= value -> match f with Some f => exec_inv f | None => True end -> value_inv c ->
  value_inv (host_cross_contract_call store f target function args value n c).2.
Proof.
  intros Hargs H0' Hf Hc. unfold host_cross_contract_call.
  destruct (_ || _); [done|]. destruct (negb _); [done|]. destruct f as [f|]; [|done]. pose proof (deduct_inv COMPUTE_CROSS_CALL c Hc) as Hc1.
  destruct (deduct_compute COMPUTE_CROSS_CALL c) as [[] c1]; [|done]. cbn [snd] in Hc1. clear Hc c.
  destruct (Z.eqb_spec target 0) as [->|Hnz]; [by apply native_call_inv|].
  destruct (load_callee store target (cx_slot c1)) as [contract|] eqn:Hl; [|done]. cbv zeta.
  destruct (negb _); [done|]. destruct (attach_value store target value c1) as [[[deltas updates] projected]|] eqn:Ha; [|done].
  set (callee := match projected with Some _ => _ | None => _ end).
  assert (runs target) as Hrun.
  { right. unfold load_callee in Hl. apply bind_Some in Hl as (c0 & Hl & _). by exists c0. }
  assert (value_inv callee) as Hcallee.
  { destruct Hc1. unfold callee. destruct projected; split; cbn; try done.
    all: intros k; rewrite lookup_empty; by intros []. }
  destruct (f contract function args callee) as [r|e] eqn:Hr; [|done].
  pose proof (Hf _ _ _ _ _ Hcallee Hr) as Hri.
  assert (value_inv (set_cx_compute_remaining (sat_sub (cx_compute_remaining c1) (cr_compute_used r)) c1)) as Hc2
    by (by apply (same_native_inv c1)).
  destruct (negb _); [done|]. destruct (merge_callee _ _ _ _ _ _ _) as [c3|] eqn:Hm; [|done]. cbn.
  by eapply (merge_inv target value deltas updates projected r _ c1 c3).
Qed.

Lemma host_inv f call c :
  match call with CrossContractCall _ _ args value _ => Forall is_byte args /\ 0 <= value | _ => True end ->
  match f with Some f => exec_inv f | None => True end -> value_inv c ->
  value_inv (host_call store f call c).2.
Proof.
  intros Hty Hf Hc. destruct call; cbn [host_call]; try exact Hc; try (by destruct Hty; apply call_inv).
  all: refine (same_native_inv c _ _ Hc).
  all: unfold host_storage_read, host_storage_write, host_storage_delete, host_log_msg, host_emit_event, host_get_key,
    host_get_contract_code_hash, host_get_block_entropy, host_can_transfer, token_account_allowed, host_get_args,
    host_set_return_data, host_poseidon_hash, deduct_compute, put_storage;
    repeat (match goal with
            | |- context [if ?b then _ else _] => destruct b
            | |- context [match ?x with Some _ => _ | None => _ end] => destruct x
            end; cbn [fst snd]); done.
Qed.

Lemma guest_inv f g points c e m c' :
  typed_guest g -> match f with Some f => exec_inv f | None => True end -> value_inv c ->
  run_guest (host_call store f) g points c = (e, m, c') -> value_inv c'.
Proof.
  intros Hg Hf. induction Hg as [n code|n|n call k Hcall _ IH] in points, c |- *; intros Hc; cbn [run_guest].
  - destruct (points <? n); by intros [= <- <- <-].
  - destruct (points <? n); by intros [= <- <- <-].
  - destruct (points <? n); [by intros [= <- <- <-]|]. pose proof (host_inv f call c Hcall Hf Hc) as Hc1.
    destruct (host_call store f call c) as [a c1]. by apply IH.
Qed.

Lemma entry_typed contract function args f effective :
  entry_point contract function args = Ok (f, effective) -> typed_guest (f effective).
Proof. unfold entry_point, or_err. intros He. repeat case_match; simplify_eq; by eapply wasm_typed. Qed.

Lemma execute_inv levels : exec_inv (execute store levels).
Proof.
  induction levels as [|levels IH]; intros contract function args c r Hc; cbn [execute];
    rewrite and_then_Ok; intros (_ & _ & Hx); rewrite and_then_Ok in Hx; destruct Hx as ([f effective] & He & Hx);
    apply entry_typed in He; (assert (value_inv (set_cx_args effective c)) as Hc1 by (by apply (same_native_inv c)));
    destruct (run_guest _ _ _ _) as [[e m] c'] eqn:Hrun;
    apply (guest_inv _ _ _ _ _ _ _ He) in Hrun; try done; repeat case_match; simplify_eq; done.
Qed.

(** ** Effects on the batch *)

Definition spores_of (k : Pubkey) (m : Accounts) : Z := from_option ac_spores 0 (m !! k).

(** Accounts in order, with a change of the total and of every account. *)
Record moved (m m' : Accounts) (total : Z) (change : Pubkey -> Z) : Prop := {
  mv_ok : accounts_ok m';
  mv_total : spores_total m' = spores_total m + total;
  mv_change k : spores_of k m' = spores_of k m + change k;
}.

Lemma moved_refl m : accounts_ok m -> moved m m 0 (fun _ => 0).
Proof. split; [done|lia|intros; lia]. Qed.

Lemma moved_trans m m1 m2 t1 t2 f1 f2 :
  moved m m1 t1 f1 -> moved m1 m2 t2 f2 -> moved m m2 (t1 + t2) (fun k => f1 k + f2 k).
Proof.
  intros [_ Ht1 Hc1] [Hok Ht2 Hc2]. split; [done|lia|]. intros k. rewrite Hc2, Hc1. lia.
Qed.

Lemma moved_eq m m' t t' f f' : moved m m' t f -> t = t' -> (forall k, f k = f' k) -> moved m m' t' f'.
Proof. intros [Hok Ht Hc] <- Hf. split; [done..|]. intros k. by rewrite <- Hf. Qed.

Lemma spores_held k m :
  accounts_ok m -> spores_of k m = held Spendable k m + held Staked k m + held Locked k m.
Proof.
  intros Hm. unfold spores_of, held. destruct (m !! k) as [a|] eqn:Ha; [|done]. cbn. apply (awf_split _ (Hm k a Ha)).
Qed.

Lemma inflow_of o amount :
  inflow o amount = match o with OpAdd => amount | OpDeduct | OpDeductLocked => - amount | _ => 0 end.
Proof. destruct o; unfold inflow, flow; simpl; repeat case_decide; done || lia. Qed.

Lemma put_moved o amount m k a' :
  accounts_ok m -> 0 <= amount -> balance_op o amount (account_or_new k m) = (Ok tt, a') ->
  moved m (<[k := a']> m) (inflow o amount) (fun j => if k =? j then inflow o amount else 0).
Proof.
  intros Hm H0' Hop. destruct (put_op o amount m k a' Hm H0' Hop) as (Hok & _ & Hh & Ht). split; [done..|].
  intros j. rewrite !spores_held, !Hh by done. unfold inflow. case_decide as Hj.
  - subst. rewrite Z.eqb_refl. lia.
  - destruct (Z.eqb_spec k j); [done|lia].
Qed.

Lemma update_moved o amount e k s s' :
  accounts_ok (cl_accounts s) -> 0 <= amount -> update_account (balance_op o amount) e k s = Ok s' ->
  moved (cl_accounts s) (cl_accounts s') (inflow o amount) (fun j => if k =? j then inflow o amount else 0).
Proof.
  intros Hm H0'. unfold update_account. rewrite or_err_Ok. intros (a & Ha & Hu).
  destruct (balance_op o amount a) as [[[]|?] a'] eqn:Hop; [|done]. injection Hu as <-.
  apply put_moved; [done..|]. unfold account_or_new. by rewrite Ha.
Qed.

Lemma apply_delta_moved s kd s' :
  accounts_ok (cl_accounts s) -> apply_delta s kd = Ok s' ->
  moved (cl_accounts s) (cl_accounts s') kd.2 (fun j => if kd.1 =? j then kd.2 else 0).
Proof.
  destruct kd as [k d]. intros Hm. unfold apply_delta. cbn. destruct (Z.eqb_spec d 0) as [->|Hnz].
  { intros [= ->]. eapply moved_eq; [by apply moved_refl|done|]. intros j. by case_match. }
  intros Hu. destruct (Z.ltb_spec 0 d) as [Hpos|Hneg].
  - apply (update_moved OpAdd) in Hu; [|done|lia]. eapply moved_eq; [exact Hu|apply inflow_add|]. intros j.
    by rewrite inflow_add.
  - apply (update_moved OpDeduct) in Hu; [|done|lia].
    eapply moved_eq; [exact Hu|rewrite inflow_deduct; lia|]. intros j. rewrite inflow_deduct. case_match; lia.
Qed.

Lemma apply_native_moved s op s' :
  accounts_ok (cl_accounts s) -> op_typed op -> apply_native_op s op = Ok s' ->
  moved (cl_accounts s) (cl_accounts s') (- destroyed op)
    (fun j => credited j op - deducted j op
              - match op with OpTransferNative from _ amount => if from =? j then amount else 0 | _ => 0 end).
Proof.
  intros Hm Hop. unfold apply_native_op. rewrite and_then_Ok. intros (s1 & Hu & Hrest).
  destruct op as [k amount|k amount|k amount|from to amount|token collection from to data]; cbn [op_apply op_account] in Hu.
  - injection Hrest as <-. apply (update_moved OpLock) in Hu; [|done..]. rewrite inflow_of in Hu. eapply moved_eq; [exact Hu|cbn; lia|].
    intros j. cbn. case_match; lia.
  - injection Hrest as <-. apply (update_moved OpUnlock) in Hu; [|done..]. rewrite inflow_of in Hu. eapply moved_eq; [exact Hu|cbn; lia|].
    intros j. cbn. case_match; lia.
  - injection Hrest as <-. apply (update_moved OpDeductLocked) in Hu; [|done..].
    rewrite inflow_of in Hu. eapply moved_eq; [exact Hu|cbn; lia|]. intros j. cbn. case_match; lia.
  - destruct Hop as [_ H0']. apply (update_moved OpDeduct) in Hu; [|done..]. rewrite inflow_of in Hu.
    destruct (Account_add_spendable amount _) as [[[]|e] b] eqn:Hadd; [|done]. injection Hrest as <-.
    apply (put_moved OpAdd) in Hadd; [|apply Hu|done]. rewrite inflow_of in Hadd.
    eapply moved_eq; [exact (moved_trans _ _ _ _ _ _ _ Hu Hadd)|cbn; lia|].
    intros j. cbn. repeat case_match; lia.
  - unfold update_account in Hu. rewrite or_err_Ok in Hu. destruct Hu as (a & Ha & [= <-]). injection Hrest as <-. cbn.
    destruct (put_same_balances (cl_accounts s) token a (set_ac_data data a) Hm) as (Hok & Ht & _);
      [unfold account_or_new; by rewrite Ha|done|].
    split; [done|cbn; lia|]. intros k. unfold spores_of. destruct (decide (k = token)) as [->|Hne].
    + rewrite lookup_insert_eq, Ha. cbn. lia.
    + rewrite lookup_insert_ne by done. cbn. lia.
Qed.

Lemma fold_moved {A} (f : CallState -> A -> result CallState CallError) (ok : A -> Prop) (total : A -> Z)
    (change : Pubkey -> A -> Z) l s s' :
  (forall s x s1, accounts_ok (cl_accounts s) -> ok x -> f s x = Ok s1 ->
     moved (cl_accounts s) (cl_accounts s1) (total x) (fun j => change j x)) ->
  Forall ok l -> accounts_ok (cl_accounts s) -> try_fold f s l = Ok s' ->
  moved (cl_accounts s) (cl_accounts s') (sumZ total l) (fun j => sumZ (change j) l).
Proof using Type.
  intros Hf Hl. revert s. induction Hl as [|x l Hx _ IH]; intros s Hm; cbn [try_fold].
  { intros [= ->]. by apply moved_refl. }
  rewrite and_then_Ok. intros (s1 & Hs1 & Hs2). apply Hf in Hs1; [|done..]. apply IH in Hs2; [|apply Hs1].
  eapply moved_eq; [exact (moved_trans _ _ _ _ _ _ _ Hs1 Hs2)|by rewrite sumZ_cons|]. intros j. by rewrite sumZ_cons.
Qed.

Lemma cross_calls_accounts l s s' : try_fold apply_cross_call s l = Ok s' -> cl_accounts s' = cl_accounts s.
Proof using Type.
  revert s. induction l as [|[k ch] l IH]; intros s; cbn [try_fold]; [by intros [= ->]|].
  rewrite and_then_Ok. intros (s1 & Hs1 & Hs2). rewrite (IH _ Hs2). unfold apply_cross_call, or_err in Hs1.
  repeat case_match; simplify_eq; done.
Qed.

Lemma apply_result_moved contract r s s' :
  value_inv (cr_context r) -> accounts_ok (cl_accounts s) -> apply_result contract r s = Ok s' ->
  let ops := cx_pending_native_account_ops (cr_context r) in
  exists change, moved (cl_accounts s) (cl_accounts s') (- sumZ destroyed ops) change
    /\ forall k, ~ runs k -> change k = sumZ (credited k) ops - sumZ (deducted k) ops.
Proof using Type.
  intros [Hc Hsum Hkeys Hops] Hm Hap ops. unfold apply_result in Hap. rewrite and_then_Ok in Hap.
  destruct Hap as (s1 & Hs1 & Hap). rewrite and_then_Ok in Hap. destruct Hap as (s2 & Hs2 & Hap).
  apply cross_calls_accounts in Hap.
  apply (fold_moved _ (fun _ => True) snd (fun j kd => if kd.1 =? j then kd.2 else 0)) in Hs1;
    [|intros; by apply apply_delta_moved|by apply Forall_true|done].
  eapply (fold_moved _ op_typed) in Hs2; [|intros; by apply apply_native_moved|done|apply Hs1].
  replace (cl_accounts s') with (cl_accounts s2) by (rewrite Hap; by case_match).
  eexists. split.
  - eapply moved_eq; [exact (moved_trans _ _ _ _ _ _ _ Hs1 Hs2)| |done].
    change (sumZ snd _) with (map_sum id (cx_pending_ccc_value_deltas (cr_context r))).
    rewrite Hsum. fold ops. generalize ops. clear. intros l. induction l as [|op l IH]; [done|]. rewrite !sumZ_cons. lia.
  - intros k Hk. cbn. fold ops. rewrite sumZ_zero.
    + clear Hs1 Hs2 Hap. rewrite Z.add_0_l. unfold ops. induction Hops as [|op l Hop _ IH]; [done|]. rewrite !sumZ_cons, IH.
      destruct op; cbn; try lia. destruct Hop as [Hr _]. destruct (Z.eqb_spec from k); [by subst|lia].
    + intros [j d] Hj%elem_of_map_to_list. cbn. destruct (Z.eqb_spec j k) as [->|]; [|done].
      by destruct Hk; apply Hkeys; exists d.
Qed.

Lemma refresh_moved contract slot gov gov' :
  accounts_ok (gv_accounts gov) -> refresh_contract_lifecycle_from_restrictions contract slot gov = Ok gov' ->
  moved (gv_accounts gov) (gv_accounts gov') 0 (fun _ => 0).
Proof using Type.
  intros Hm. unfold refresh_contract_lifecycle_from_restrictions. rewrite or_err_Ok.
  intros ([a c] & Hl & Hr). destruct (sync_lifecycle_from_restrictions _ _ _ _) as [c'|]; [|simplify_eq; by apply moved_refl].
  rewrite or_err_Ok in Hr. destruct Hr as (data & _ & [= <-]).
  assert (gv_accounts gov !! contract = Some a) as Ha.
  { unfold b_load_executable_contract in Hl. repeat case_match; by simplify_eq. }
  destruct (put_same_balances (gv_accounts gov) contract a (set_ac_data data a) Hm) as (Hok & Ht & _);
    [unfold account_or_new; by rewrite Ha|done|].
  split; [done|cbn in *; lia|]. intros k. unfold spores_of. cbn. destruct (decide (k = contract)) as [->|Hne].
  - rewrite lookup_insert_eq, Ha. cbn. lia.
  - rewrite lookup_insert_ne by done. lia.
Qed.
End value.

Section calls.
Context `{Crypto} `{Wasm} `{ContractCodec} `{NftCodec} `{HostPrimitives} {T : WasmTyped}.
Variable env : GovernanceEnv.
Variable store : StateStore.

Lemma transfer_moved blocked from to amount m m' :
  accounts_ok m -> 0 <= amount -> transfer blocked from to amount m = Ok m' ->
  exists change, moved m m' 0 change /\ forall k, k <> from -> k <> to -> change k = 0.
Proof.
  intros Hm H0' Ht. destruct (transfer_ok blocked from to amount m m' Hm H0' Ht) as [(Hok & Hsum & Hb) _].
  exists (fun k => spores_of k m' - spores_of k m). split; [split; [done|lia|intros; lia]|].
  intros k Hf Hto. rewrite !spores_held by done. rewrite (Hb Staked k), (Hb Locked k) by done.
  destruct (transfer_moves blocked from to amount m m' Hm H0' Ht) as [[_ ->]|(_ & _ & _ & Hh)]; [lia|].
  rewrite Hh. do 2 (case_decide; [done|]). lia.
Qed.

Lemma prepare_moved caller contract function args value s p :
  accounts_ok (cl_accounts s) -> prepare_contract_call env caller contract function args value s = Ok p ->
  exists change, moved (cl_accounts s) (cl_accounts (pc_state p)) 0 change
    /\ forall k, k <> caller -> k <> contract -> change k = 0.
Proof.
  intros Hm. unfold prepare_contract_call. rewrite and_then_Ok. intros (gov & Hgov & Hp).
  apply map_err_Ok, refresh_moved in Hgov; [|done]. rewrite or_err_Ok in Hp. destruct Hp as ([a account] & _ & Hp).
  rewrite and_then_Ok in Hp. destruct Hp as (_ & _ & Hp).
  destruct (Z.ltb_spec 0 value) as [Hpos|]; [|injection Hp as <-; by exists (fun _ => 0)].
  rewrite and_then_Ok in Hp. destruct Hp as (accounts & Ht%map_err_Ok & Hp). rewrite or_err_Ok in Hp.
  destruct Hp as (x & _ & Hp). rewrite or_err_Ok in Hp. destruct Hp as (y & _ & [= <-]).
  apply transfer_moved in Ht as (change & Hmv & Hch); [|apply Hgov|lia].
  exists (fun k => 0 + change k). split; [exact (moved_trans _ _ _ _ _ _ _ Hgov Hmv)|].
  intros k Hk1 Hk2. by rewrite Hch.
Qed.

Lemma call_context_inv budget caller contract args value meta p :
  value_inv store contract (call_context env store budget caller contract args value meta p).
Proof. split; cbn; [by left|apply map_sum_empty|intros k; rewrite lookup_empty; by intros []|done]. Qed.

(** C20.  Contract calls conserve the native coin.  A call that succeeds, with contracts that run
    any code, call each other to any depth, pay each other, fail and are rolled back, leaves the
    accounts well formed, and their balances add up to what they were less the locked balances
    that contracts deducted.  An account that is neither the payer nor a contract has exactly its
    old balance, plus what contracts transferred to it, less what they deducted of its lock. *)
Theorem contract_call_conserves budget caller contract function args value meta meta' s s' :
  accounts_ok (cl_accounts s) ->
  contract_call_as_caller env store budget caller contract function args value meta s = (meta', Ok s') ->
  exists p r, prepare_contract_call env caller contract function args value s = Ok p
    /\ execute store MAX_CROSS_CALL_DEPTH (pc_contract p) function args
         (call_context env store budget caller contract args value meta p) = Ok r
    /\ let ops := cx_pending_native_account_ops (cr_context r) in
       accounts_ok (cl_accounts s')
       /\ spores_total (cl_accounts s') = spores_total (cl_accounts s) - sumZ destroyed ops
       /\ forall k, k <> caller -> k <> contract -> load_contract store k = None ->
            spores_of k (cl_accounts s')
            = spores_of k (cl_accounts s) + sumZ (credited k) ops - sumZ (deducted k) ops.
Proof.
  intros Hm. unfold contract_call_as_caller.
  destruct (prepare_contract_call _ _ _ _ _ _ s) as [p|e] eqn:Hp; [|done].
  destruct (execute store MAX_CROSS_CALL_DEPTH _ _ _ _) as [r|e] eqn:Hr; [|done].
  case_match; [done|]. intros [= _ Hap]. exists p, r. split; [done|]. split; [done|].
  pose proof (execute_inv store contract _ _ _ _ _ _ (call_context_inv _ _ _ _ _ _ _) Hr) as Hv.
  destruct (prepare_moved _ _ _ _ _ _ _ Hm Hp) as (ch1 & [Hok1 Ht1 Hc1] & Hz1).
  destruct (apply_result_moved store contract contract r _ s' Hv Hok1 Hap) as (ch2 & [Hok2 Ht2 Hc2] & Hz2).
  cbv zeta in *. split_and!; [done|lia|]. intros k Hk1 Hk2 Hl. rewrite Hc2, Hc1, Hz1 by done.
  rewrite Hz2; [lia|]. intros [->|[c Hc]]; congruence.
Qed.
End calls.
