(* ===== verification/Token.v ===== *)
(** * The MT-20 token contract

    Models the token of the contract SDK ([sdk/src/token.rs], with the host bindings of
    [sdk/src/lib.rs]), the contract built on it ([contracts/mt20_token/src/lib.rs]), token transfers
    from other contracts ([sdk/src/crosscall.rs]) and the layout
    of the arguments an export gets ([canonical_layout_descriptor] and [execute] of
    [core/src/contract.rs]).

    The functions are guests of the runtime in continuation-passing style: a host call, and what
    follows for each answer.  [w] is the number of WebAssembly instructions of a step; the
    compiler decides it, and the theorems bound it where it matters. *)

From S2P Require Import Prelude Crypto Block Account Transactions Fees Rent Transfers Restrictions Governed.
From S2P Require Import GovernanceActions Governance Processor Runtime ContractCalls.
From stdpp Require Import base tactics numbers list gmap strings.
From Stdlib Require Import ZArith Lia.

Local Open Scope Z_scope.
Local Open Scope rust_scope.

(** ** Arguments of an export *)

Inductive WasmParam := PtrI32 | ValueI64.

Definition ABI_LAYOUT_MARKER : Z := 171.
Definition ABI_WIDE_LAYOUT_MARKER : Z := 172.

Definition stride_valid (p : WasmParam) (stride : Z) : bool :=
  match p with
  | PtrI32 => bool_decide (stride ∈ [1; 2; 4]) || (32 <=? stride)
  | ValueI64 => stride =? 8
  end.

Fixpoint wide_strides (n : nat) (l : bytes) : list Z :=
  match n with O => [] | S n => le_value (take 4 l) :: wide_strides n (drop 4 l) end.

(** The strides of a layout descriptor and where the data starts, when the buffer is one: every
    stride fits its parameter and together they cover the data exactly. *)
Definition canonical_layout_descriptor (args : bytes) (params : list WasmParam) : option (list Z * nat) :=
  match params, args with
  | [], _ | _, [] => None
  | _, marker :: rest =>
      let n := length params in
      (if marker =? ABI_LAYOUT_MARKER
       then if (length args <? 1 + n)%nat then None else Some (take n rest, (1 + n)%nat)
       else if marker =? ABI_WIDE_LAYOUT_MARKER
       then if (length args <? 1 + n * 4)%nat then None else Some (wide_strides n rest, (1 + n * 4)%nat)
       else None)
      ≫= fun '(layout, data_start) =>
      if negb (forallb (fun ps => stride_valid ps.1 ps.2) (zip params layout)) then None
      else if negb (Z.of_nat data_start + sumZ id layout =? zlen args) then None
      else Some (layout, data_start)
  end.

(** What an export with pointer and integer parameters reads, one slot after the other: 32 bytes
    behind a pointer, eight bytes of an integer.  A pointer described as a small integer points
    into the module's own memory, [memory]. *)
Fixpoint slots (memory : Z -> Z -> bytes) (params : list WasmParam) (layout : list Z) (data : bytes) : bytes :=
  match params, layout with
  | PtrI32 :: params, stride :: layout =>
      (if 32 <=? stride then take 32 data
       else take 32 (memory stride (le_value (take (Z.to_nat stride) data)) ++ replicate 32 0))
      ++ slots memory params layout (drop (Z.to_nat stride) data)
  | ValueI64 :: params, _ :: layout => take 8 data ++ slots memory params layout (drop 8 data)
  | _, _ => []
  end.

(** The slots of a layout, or else the arguments as they are; short data is followed by zeros.
    (A buffer that is a JSON array is first encoded with the types of the ABI; that encoder, for
    the command-line client, is left out.) *)
Definition data_of (memory : Z -> Z -> bytes) (args : bytes) (params : list WasmParam) : bytes :=
  match canonical_layout_descriptor args params with
  | Some (layout, data_start) => slots memory params layout (drop data_start args)
  | None => args
  end.

(** Calling an export that has parameters.  An empty buffer passes no parameters at all, and the
    engine refuses the call. *)
Definition with_params (memory : Z -> Z -> bytes) (params : list WasmParam) (f : bytes -> Guest) (args : bytes) : Guest :=
  match args with [] => Trap 0 | _ => f (data_of memory args params) end.

Definition padded_key (data : bytes) (offset : nat) : Pubkey :=
  le_value (reverse (take 32 (drop offset data ++ replicate 32 0))).

(** ** Host bindings of the SDK *)

Inductive ContractError :=
| Unauthorized | InsufficientFunds | Overflow | InvalidInput | StorageError | Custom (message : string).

Definition bytes_to_u64 (l : bytes) : Z := le_value (take 8 l).
Definition u64_to_bytes (n : Z) : bytes := le_bytes 8 n.

Section sdk.
Variable w : Z.

Definition storage_get (key : bytes) (k : option bytes -> Guest) : Guest :=
  Host w (StorageRead key 65536) (fun a => k (if a.1 =? 0 then None else Some a.2)).

(** The answer of the host is dropped, as every caller in the SDK drops it. *)
Definition storage_set (key value : bytes) (k : Guest) : Guest :=
  Host w (StorageWrite key value) (fun _ => k).

Definition get_caller (k : Pubkey -> Guest) : Guest :=
  Host w GetCaller (fun a => k (if a.1 =? 0 then le_value (reverse a.2) else 0)).

Definition get_contract_address (k : Pubkey -> Guest) : Guest :=
  Host w GetContractAddress (fun a => k (if a.1 =? 0 then le_value (reverse a.2) else 0)).

Definition host_can_send (asset from : Pubkey) (amount balance : Z) (k : bool -> Guest) : Guest :=
  Host w (CanSend asset from amount balance) (fun a => k (a.1 =? 1)).
Definition host_can_receive (asset to : Pubkey) (amount balance : Z) (k : bool -> Guest) : Guest :=
  Host w (CanReceive asset to amount balance) (fun a => k (a.1 =? 1)).
Definition host_may_transfer (asset from to : Pubkey) (amount from_balance to_balance : Z) (k : bool -> Guest) : Guest :=
  Host w (CanTransfer asset from to amount from_balance to_balance) (fun a => k (a.1 =? 1)).

Definition log_info (message : string) (k : Guest) : Guest := Host w (LogMsg (str_bytes message)) (fun _ => k).

(** ** Calls through the SDK *)

(** A layout descriptor for values of at most 255 bytes, and the values. *)
Definition encode_layout_args (parts : list bytes) : option bytes :=
  if existsb (fun part => 255 <? zlen part) parts then None
  else Some (ABI_LAYOUT_MARKER :: (zlen <$> parts) ++ mjoin parts).

(** [None] is the error of a call that failed. *)
Definition call_contract (target : Pubkey) (function : string) (args : bytes) (value : Z)
  (k : option bytes -> Guest) : Guest :=
  Host w (CrossContractCall target (str_bytes function) args value 65536)
    (fun a => k (if a.1 =? 0 then None else Some a.2)).

Definition decode_zero_success_return_code (r : bytes) : option bool :=
  match r with
  | [] => None
  | _ => if 4 <=? zlen r then Some (le_value (take 4 r) =? 0) else Some false
  end.

Definition call_token_transfer (token from to : Pubkey) (amount : Z) (k : option bool -> Guest) : Guest :=
  match encode_layout_args [be_bytes 32 from; be_bytes 32 to; le_bytes 8 amount] with
  | None => k None
  | Some args => call_contract token "transfer" args 0 (fun r => k (option_bind _ _ decode_zero_success_return_code r))
  end.

(** ** The token of the SDK *)

Variable prefix : bytes.

Definition hex_encode_32 (a : Pubkey) : bytes :=
  mjoin ((fun byte => [hex_digit (byte / 16); hex_digit (byte mod 16)]) <$> be_bytes 32 a).

Definition supply_key : bytes := prefix ++ str_bytes "_supply".
Definition balance_key (account : Pubkey) : bytes := prefix ++ str_bytes "_bal_" ++ hex_encode_32 account.
Definition allowance_key (owner spender : Pubkey) : bytes :=
  prefix ++ str_bytes "_alw_" ++ hex_encode_32 owner ++ [95] ++ hex_encode_32 spender.

(** A stored number, zero when there is none. *)
Definition load_u64 (key : bytes) (k : Z -> Guest) : Guest :=
  storage_get key (fun o => k (match o with Some b => bytes_to_u64 b | None => 0 end)).

Definition Token_balance_of (account : Pubkey) (k : Z -> Guest) : Guest := load_u64 (balance_key account) k.
Definition Token_allowance (owner spender : Pubkey) (k : Z -> Guest) : Guest := load_u64 (allowance_key owner spender) k.
Definition Token_get_total_supply (k : Z -> Guest) : Guest := load_u64 supply_key k.
Definition Token_set_balance (account : Pubkey) (balance : Z) (k : Guest) : Guest :=
  storage_set (balance_key account) (u64_to_bytes balance) k.

Definition Token_initialize (initial_supply : Z) (owner : Pubkey) (k : result unit ContractError -> Guest) : Guest :=
  if owner =? 0 then k (Err InvalidInput)
  else
    storage_set supply_key (u64_to_bytes initial_supply)
      (Token_set_balance owner initial_supply (k (Ok tt))).

Definition Token_transfer (from to : Pubkey) (amount : Z) (k : result unit ContractError -> Guest) : Guest :=
  if (amount =? 0) || (from =? 0) || (to =? 0) || (from =? to) then k (Err InvalidInput)
  else
    Token_balance_of from (fun from_balance =>
    match checked_sub from_balance amount with
    | None => k (Err InsufficientFunds)
    | Some new_from =>
        Token_balance_of to (fun to_balance =>
        match checked_add64 to_balance amount with
        | None => k (Err Overflow)
        | Some new_to =>
            get_contract_address (fun self =>
            host_may_transfer self from to amount from_balance to_balance (fun allowed =>
            if negb allowed then k (Err (Custom "Transfer restricted"))
            else
              Token_set_balance from new_from (Token_set_balance to new_to (k (Ok tt)))))
        end)
    end).

Definition Token_mint (to : Pubkey) (amount : Z) (caller owner : Pubkey) (k : result unit ContractError -> Guest) : Guest :=
  if (amount =? 0) || (to =? 0) || (owner =? 0) then k (Err InvalidInput)
  else if negb (caller =? owner) then k (Err Unauthorized)
  else
    Token_balance_of to (fun balance =>
    get_contract_address (fun self =>
    host_can_receive self to amount balance (fun allowed =>
    if negb allowed then k (Err (Custom "Receive restricted"))
    else
      match checked_add64 balance amount with
      | None => k (Err Overflow)
      | Some new_balance =>
          Token_get_total_supply (fun current_supply =>
          match checked_add64 current_supply amount with
          | None => k (Err Overflow)
          | Some new_supply =>
              Token_set_balance to new_balance
                (storage_set supply_key (u64_to_bytes new_supply) (k (Ok tt)))
          end)
      end))).

Definition Token_burn (from : Pubkey) (amount : Z) (k : result unit ContractError -> Guest) : Guest :=
  if (amount =? 0) || (from =? 0) then k (Err InvalidInput)
  else
    Token_balance_of from (fun balance =>
    match checked_sub balance amount with
    | None => k (Err InsufficientFunds)
    | Some new_balance =>
        get_contract_address (fun self =>
        host_can_send self from amount balance (fun allowed =>
        if negb allowed then k (Err (Custom "Send restricted"))
        else
          Token_get_total_supply (fun current_supply =>
          match checked_sub current_supply amount with
          | None => k (Err Overflow)
          | Some new_supply =>
              Token_set_balance from new_balance
                (storage_set supply_key (u64_to_bytes new_supply) (k (Ok tt)))
          end)))
    end).

Definition Token_approve (owner spender : Pubkey) (amount : Z) (k : result unit ContractError -> Guest) : Guest :=
  if (owner =? 0) || (spender =? 0) || (owner =? spender) then k (Err InvalidInput)
  else storage_set (allowance_key owner spender) (u64_to_bytes amount) (k (Ok tt)).

Definition Token_transfer_from (caller from to : Pubkey) (amount : Z) (k : result unit ContractError -> Guest) : Guest :=
  if (amount =? 0) || (caller =? 0) || (from =? to) then k (Err InvalidInput)
  else
    Token_allowance from caller (fun allowance =>
    match checked_sub allowance amount with
    | None => k (Err Unauthorized)
    | Some new_allowance =>
        Token_transfer from to amount (fun r =>
        match r with
        | Err e => k (Err e)
        | Ok _ => storage_set (allowance_key from caller) (u64_to_bytes new_allowance) (k (Ok tt))
        end)
    end).
End sdk.

(** ** The contract *)

Section mt20.
Variable w : Z.
Variable memory : Z -> Z -> bytes.
Definition OWNER_KEY : bytes := str_bytes "mt20_owner".
Definition TOKEN_PREFIX : bytes := str_bytes "mt20".

(** An export ends with its return code. *)
Definition return_ (code : Z) : Guest := Done w (Some code).

Definition load_owner (k : option Pubkey -> Guest) : Guest :=
  storage_get w OWNER_KEY (fun o =>
    k (match o with
       | Some l => if zlen l <? 32 then None else Some (le_value (reverse (take 32 l)))
       | None => None
       end)).

Definition map_contract_error (e : ContractError) : Z :=
  match e with
  | Unauthorized => 1 | InsufficientFunds => 2 | Overflow => 4 | InvalidInput => 5 | StorageError => 6 | Custom _ => 7
  end.

Definition finish (message : string) (r : result unit ContractError) : Guest :=
  match r with Ok _ => log_info w message (return_ 0) | Err e => return_ (map_contract_error e) end.

Definition mt20_initialize : bytes -> Guest := with_params memory [PtrI32] (fun data =>
  let owner := padded_key data 0 in
  if owner =? 0 then return_ 2
  else
    get_caller w (fun caller =>
    if negb (caller =? owner) then return_ 200
    else
      load_owner (fun o =>
      if is_some o then return_ 1
      else
        storage_set w OWNER_KEY (be_bytes 32 owner)
          (Token_initialize w TOKEN_PREFIX 0 owner (finish "MT-20 initialized"))))).

Definition mt20_mint : bytes -> Guest := with_params memory [PtrI32; PtrI32; ValueI64] (fun data =>
  let caller := padded_key data 0 in
  get_caller w (fun real_caller =>
  if negb (real_caller =? caller) then return_ 200
  else
    load_owner (fun o =>
    match o with
    | None => return_ 3
    | Some owner =>
        Token_mint w TOKEN_PREFIX (padded_key data 32) (u64_at data 64) caller owner (finish "MT-20 mint successful")
    end))).

Definition mt20_burn : bytes -> Guest := with_params memory [PtrI32; ValueI64] (fun data =>
  let from := padded_key data 0 in
  get_caller w (fun caller =>
  if negb (caller =? from) then return_ 200
  else Token_burn w TOKEN_PREFIX from (u64_at data 32) (finish "MT-20 burn successful"))).

Definition mt20_balance_of : bytes -> Guest := with_params memory [PtrI32] (fun data =>
  Token_balance_of w TOKEN_PREFIX (padded_key data 0) (fun balance => return_ (as_i64 balance))).

Definition mt20_transfer : bytes -> Guest := with_params memory [PtrI32; PtrI32; ValueI64] (fun data =>
  let from := padded_key data 0 in
  get_caller w (fun caller =>
  if negb (caller =? from) then return_ 200
  else Token_transfer w TOKEN_PREFIX from (padded_key data 32) (u64_at data 64) (finish "MT-20 transfer successful"))).

Definition mt20_approve : bytes -> Guest := with_params memory [PtrI32; PtrI32; ValueI64] (fun data =>
  let owner := padded_key data 0 in
  get_caller w (fun caller =>
  if negb (caller =? owner) then return_ 200
  else Token_approve w TOKEN_PREFIX owner (padded_key data 32) (u64_at data 64) (finish "MT-20 approve successful"))).

Definition mt20_allowance : bytes -> Guest := with_params memory [PtrI32; PtrI32] (fun data =>
  Token_allowance w TOKEN_PREFIX (padded_key data 0) (padded_key data 32) (fun n => return_ (as_i64 n))).

Definition mt20_transfer_from : bytes -> Guest := with_params memory [PtrI32; PtrI32; PtrI32; ValueI64] (fun data =>
  let caller := padded_key data 0 in
  get_caller w (fun real_caller =>
  if negb (real_caller =? caller) then return_ 200
  else
    Token_transfer_from w TOKEN_PREFIX caller (padded_key data 32) (padded_key data 64) (u64_at data 96)
      (finish "MT-20 transfer_from successful"))).

Definition mt20_total_supply (_ : bytes) : Guest :=
  Token_get_total_supply w TOKEN_PREFIX (fun n => return_ (as_i64 n)).

Definition mt20_exports (name : bytes) : option (bytes -> Guest) :=
  snd <$> List.find (fun nf => bool_decide (str_bytes nf.1 = name))
    [("initialize"%string, mt20_initialize); ("mint"%string, mt20_mint); ("burn"%string, mt20_burn);
     ("balance_of"%string, mt20_balance_of); ("transfer"%string, mt20_transfer); ("approve"%string, mt20_approve);
     ("allowance"%string, mt20_allowance); ("transfer_from"%string, mt20_transfer_from);
     ("total_supply"%string, mt20_total_supply)].
End mt20.
