(* ===== verification/TokenLedger.v ===== *)
(** * The MT-20 token implements a ledger

    The abstract token is a [Ledger]: an owner, a supply, balances and allowances, with an error
    code per refusal.  The contract of [Token] keeps it in the storage of a contract, under
    keys in hexadecimal, and runs on the metered runtime of [Runtime].  The proof goes in two
    steps: a guest with few and simple host calls behaves, when it has the compute and the
    storage it needs, as an evaluation on storage alone ([eval]); and the evaluation of each
    export is the operation of the ledger. *)

From S2P Require Import Prelude Crypto Block Account Transactions Fees Rent Transfers Restrictions Governed.
From S2P Require Import GovernanceActions Governance Processor Runtime ContractCalls CallStore Token.
From stdpp Require Import base tactics numbers list gmap strings.
From Stdlib Require Import ZArith Lia.

Local Open Scope Z_scope.
Local Open Scope rust_scope.

(** ** Guests on storage alone *)

Section evaluation.
Variables caller self : Pubkey.
(** Whether an account may move an amount of the token, with the balance it has. *)
Variable may : Pubkey -> TransferDirection -> Z -> Z -> bool.

Definition verdict (b : bool) : Answer := (if b then 1 else 0, []).

(** The answer of the host when nothing runs out, and the storage after it. *)
Definition ideal (call : HostCall) (s : Storage) : option (Answer * Storage) :=
  match call with
  | StorageRead key n =>
      Some (match s !! key with Some v => (zlen (take (Z.to_nat n) v), take (Z.to_nat n) v) | None => (0, []) end, s)
  | StorageWrite key v => Some ((1, []), <[key := v]> s)
  | LogMsg _ => Some ((0, []), s)
  | GetCaller => Some ((0, be_bytes 32 caller), s)
  | GetContractAddress => Some ((0, be_bytes 32 self), s)
  | CanSend asset from amount balance => Some (verdict ((asset =? self) && may from OutgoingTransfer amount balance), s)
  | CanReceive asset to amount balance => Some (verdict ((asset =? self) && may to IncomingTransfer amount balance), s)
  | CanTransfer asset from to amount x y =>
      Some (verdict ((asset =? self) && may from OutgoingTransfer amount x && may to IncomingTransfer amount y), s)
  | _ => None
  end.

(** The return code and the storage at the end; [None] for a trap. *)
Fixpoint eval (g : Guest) (s : Storage) : option (option Z * Storage) :=
  match g with
  | Done _ code => Some (code, s)
  | Trap _ => None
  | Host _ call k => ideal call s ≫= fun '(a, s) => eval (k a) s
  end.
End evaluation.

(** Calls that cost at most 1,000 units and write at most 288 bytes. *)
Definition simple (call : HostCall) : Prop :=
  match call with
  | StorageRead key _ => zlen key <= MAX_KEY_LEN
  | StorageWrite key v => zlen key <= MAX_KEY_LEN /\ zlen v <= 32
  | LogMsg msg => zlen msg <= MAX_LOG_LEN
  | GetCaller | GetContractAddress | CanSend _ _ _ _ | CanReceive _ _ _ _ | CanTransfer _ _ _ _ _ _ => True
  | _ => False
  end.

(** At most [n] host calls, all simple, and at most [w] instructions per step. *)
Inductive fits (w : Z) : nat -> Guest -> Prop :=
| fits_done n m code : 0 <= m <= w -> fits w n (Done m code)
| fits_trap n m : 0 <= m <= w -> fits w n (Trap m)
| fits_host n m call k : 0 <= m <= w -> simple call -> (forall a, fits w n (k a)) -> fits w (S n) (Host m call k).

Section metering.
Context `{Crypto} `{Wasm} `{ContractCodec} `{NftCodec} `{HostPrimitives}.
Variable store : StateStore.

Abbreviation Ctx := (@ContractContext Overlay).

Definition may_move (c : Ctx) (account : Pubkey) (direction : TransferDirection) (amount balance : Z) : bool :=
  negb (is_account_restricted (restrictions store) account direction (Some (cx_contract c)) amount balance (cx_slot c)).

(** Compute, entries and bytes for [n] more simple calls. *)
Record ample (n : Z) (c : Ctx) : Prop := {
  am_compute : 1000 * n <= cx_compute_remaining c;
  am_entries : Z.of_nat (size (cx_storage c)) + n <= MAX_STORAGE_ENTRIES;
  am_bytes : cx_storage_bytes_used c + 288 * n <= MAX_TOTAL_STORAGE_BYTES;
}.

(** The same frame, at most [n] simple calls later. *)
Record later (n : Z) (c c' : Ctx) : Prop := {
  lt_caller : cx_caller c' = cx_caller c;
  lt_contract : cx_contract c' = cx_contract c;
  lt_slot : cx_slot c' = cx_slot c;
  lt_compute : cx_compute_remaining c - 1000 * n <= cx_compute_remaining c' <= cx_compute_remaining c;
}.

Lemma deduct_ok cost (c : Ctx) :
  cost <= cx_compute_remaining c ->
  deduct_compute cost c = (true, set_cx_compute_remaining (cx_compute_remaining c - cost) c).
Proof. intros Hc. unfold deduct_compute. by rewrite (proj2 (Z.ltb_ge _ _) Hc). Qed.

Lemma ample_spend n cost c :
  ample (n + 1) c -> cost <= 1000 -> ample n (set_cx_compute_remaining (cx_compute_remaining c - cost) c).
Proof.
  intros [Hc He Hb] Hcost. split; [cbn; lia|change (Z.of_nat (size (cx_storage c)) + n <= MAX_STORAGE_ENTRIES); lia|cbn; lia].
Qed.

(** A call that only spends compute. *)
Lemma spending n cost (c : Ctx) (a : Answer) (r : Answer * Ctx) :
  ample (n + 1) c -> 0 <= cost <= 1000 -> r = (a, set_cx_compute_remaining (cx_compute_remaining c - cost) c) ->
  exists c', r = (a, c') /\ cx_storage c' = cx_storage c /\ ample n c' /\ later 1 c c'.
Proof.
  intros Ham [Hpos Hcost] ->. eexists. split; [done|]. split; [done|]. split; [by apply ample_spend|]. split; cbn; done || lia.
Qed.

Lemma allowed_ok asset account amount balance direction (c : Ctx) :
  COMPUTE_COMPLIANCE_CHECK <= cx_compute_remaining c ->
  token_account_allowed store asset account amount balance direction c
  = (verdict ((asset =? cx_contract c) && may_move c account direction amount balance),
     set_cx_compute_remaining (cx_compute_remaining c - COMPUTE_COMPLIANCE_CHECK) c).
Proof.
  intros Hc. unfold token_account_allowed. rewrite deduct_ok by done. cbn [cx_contract set_cx_compute_remaining].
  unfold may_move, verdict. destruct (Z.eqb_spec asset (cx_contract c)) as [->|]; [cbn [negb andb]|done].
  change (cx_slot (set_cx_compute_remaining _ c)) with (cx_slot c). by destruct (is_account_restricted _ _ _ _ _ _ _).
Qed.

Lemma write_ok n key v (c : Ctx) :
  zlen key <= MAX_KEY_LEN -> zlen v <= 32 -> 0 <= n -> ample (n + 1) c ->
  exists c', host_storage_write key v c = ((1, []), c') /\ cx_storage c' = <[key := v]> (cx_storage c)
    /\ ample n c' /\ later 1 c c'.
Proof.
  intros Hk Hv Hn [Hc He Hb]. unfold host_storage_write.
  rewrite (proj2 (Z.ltb_ge _ _) Hk), (proj2 (Z.ltb_ge MAX_VALUE_LEN (zlen v))) by (unfold MAX_VALUE_LEN; lia). cbn [orb].
  rewrite (proj2 (Z.ltb_ge _ COMPUTE_STORAGE_WRITE)) by (unfold COMPUTE_STORAGE_WRITE; lia).
  rewrite deduct_ok by (unfold COMPUTE_STORAGE_WRITE, COMPUTE_STORAGE_WRITE_PER_BYTE; lia). cbn [snd].
  set (c1 := set_cx_compute_remaining _ c).
  change (cx_storage c1) with (cx_storage c). change (cx_storage_bytes_used c1) with (cx_storage_bytes_used c).
  rewrite (proj2 (Z.leb_gt MAX_STORAGE_ENTRIES _)), andb_false_r by lia.
  match goal with |- context [MAX_TOTAL_STORAGE_BYTES <? ?p] => assert (p <= cx_storage_bytes_used c + 288) as Hp end.
  { unfold zlen, MAX_KEY_LEN in *. case_match; lia. }
  rewrite (proj2 (Z.ltb_ge MAX_TOTAL_STORAGE_BYTES _)) by lia.
  pose proof (Zle_0_nat (length v)) as Hv0. eexists. split; [done|]. split; [done|].
  split; [|split; cbn -[zlen]; try done; unfold zlen, COMPUTE_STORAGE_WRITE, COMPUTE_STORAGE_WRITE_PER_BYTE in *; lia]. split.
  - cbn -[zlen]. unfold COMPUTE_STORAGE_WRITE, COMPUTE_STORAGE_WRITE_PER_BYTE. lia.
  - change (cx_storage _) with (<[key := v]> (cx_storage c)). rewrite map_size_insert. case_match; unfold id; lia.
  - cbn -[zlen] in *. lia.
Qed.

Lemma simple_call deeper n call c :
  simple call -> 0 <= n -> ample (n + 1) c ->
  exists a c', host_call store deeper call c = (a, c')
    /\ ideal (cx_caller c) (cx_contract c) (may_move c) call (cx_storage c) = Some (a, cx_storage c')
    /\ ample n c' /\ later 1 c c'.
Proof.
  intros Hs Hn Ham. pose proof Ham as [Hc _ _].
  assert (forall (a : Answer) cost, 0 <= cost <= 1000 -> forall r : Answer * Ctx, r = (a, set_cx_compute_remaining (cx_compute_remaining c - cost) c) ->
    exists a' c', r = (a', c') /\ Some (a, cx_storage c) = Some (a', cx_storage c') /\ ample n c' /\ later 1 c c') as Hspend.
  { intros a cost Hcost r Hr. destruct (spending _ _ _ _ _ Ham Hcost Hr) as (c' & -> & Hst & Hrest). exists a, c'.
    by rewrite Hst. }
  destruct call; try done; cbn [host_call ideal simple] in *.
  - unfold host_storage_read. rewrite (proj2 (Z.ltb_ge _ _) Hs), (proj2 (Z.ltb_ge _ _)) by (unfold COMPUTE_STORAGE_READ; lia).
    rewrite deduct_ok by (unfold COMPUTE_STORAGE_READ; lia). cbn [snd].
    apply (Hspend _ COMPUTE_STORAGE_READ); [done|]. change (cx_storage (set_cx_compute_remaining _ c)) with (cx_storage c).
    by case_match.
  - destruct Hs as [Hk Hv]. destruct (write_ok n key val c Hk Hv Hn Ham) as (c' & Hw & Hst & Hrest).
    exists (1, []), c'. by rewrite Hw, Hst.
  - unfold host_log_msg. rewrite (proj2 (Z.ltb_ge _ _) Hs), (proj2 (Z.ltb_ge _ _)) by (unfold COMPUTE_LOG; lia).
    rewrite deduct_ok by (unfold COMPUTE_LOG; lia). by apply (Hspend _ COMPUTE_LOG).
  - unfold host_get_key. rewrite deduct_ok by (unfold COMPUTE_GET_CALLER; lia). by apply (Hspend _ COMPUTE_GET_CALLER).
  - unfold host_get_key. rewrite deduct_ok by (unfold COMPUTE_GET_CALLER; lia). by apply (Hspend _ COMPUTE_GET_CALLER).
  - rewrite allowed_ok by (unfold COMPUTE_COMPLIANCE_CHECK; lia). by apply (Hspend _ COMPUTE_COMPLIANCE_CHECK).
  - rewrite allowed_ok by (unfold COMPUTE_COMPLIANCE_CHECK; lia). by apply (Hspend _ COMPUTE_COMPLIANCE_CHECK).
  - unfold host_can_transfer. rewrite allowed_ok by (unfold COMPUTE_COMPLIANCE_CHECK; lia).
    destruct ((asset =? cx_contract c) && may_move c from OutgoingTransfer amount from_balance) eqn:Hout; cbn [verdict fst Z.eqb andb].
    + rewrite allowed_ok by (cbn; unfold COMPUTE_COMPLIANCE_CHECK; lia).
      apply andb_true_iff in Hout as [Ha _].
      change (cx_contract (set_cx_compute_remaining _ c)) with (cx_contract c). rewrite Ha.
      apply (Hspend _ (2 * COMPUTE_COMPLIANCE_CHECK)); [done|]. cbn [andb]. f_equal. unfold set_cx_compute_remaining. cbn.
      f_equal. unfold COMPUTE_COMPLIANCE_CHECK. lia.
    + by apply (Hspend _ COMPUTE_COMPLIANCE_CHECK).
Qed.

Lemma eval_run deeper w n g points c :
  0 <= w -> fits w n g -> ample (Z.of_nat n) c -> w * (Z.of_nat n + 1) <= points ->
  exists e c' left, run_guest (host_call store deeper) g points c = (e, left, c')
    /\ points - w * (Z.of_nat n + 1) <= left <= points /\ ample 0 c' /\ later (Z.of_nat n) c c'
    /\ match eval (cx_caller c) (cx_contract c) (may_move c) g (cx_storage c) with
       | Some (code, s) => e = Finished code /\ cx_storage c' = s
       | None => e = Trapped
       end.
Proof.
  intros Hw Hf. revert points c. induction Hf as [n m code Hm|n m Hm|n m call k Hm Hs _ IH]; intros points c Ham Hp; cbn [run_guest eval].
  - rewrite (proj2 (Z.ltb_ge points m)) by nia. eexists _, _, _. split; [done|]. split; [nia|].
    split; [destruct Ham; split; lia|]. split; [split; done || lia|done].
  - rewrite (proj2 (Z.ltb_ge points m)) by nia. eexists _, _, _. split; [done|]. split; [nia|].
    split; [destruct Ham; split; lia|]. split; [split; done || lia|done].
  - rewrite (proj2 (Z.ltb_ge points m)) by nia.
    destruct (simple_call deeper (Z.of_nat n) call c Hs) as (a & c1 & -> & Hid & Ham1 & Hl1); [lia| |].
    { replace (Z.of_nat n + 1) with (Z.of_nat (S n)) by lia. exact Ham. }
    destruct (IH a (points - m) c1 Ham1) as (e & c' & rest & Hr & Hleft & Ham' & Hl' & He); [nia|].
    exists e, c', rest. split; [done|]. split; [nia|]. split; [done|]. rewrite Hid. cbn [mbind option_bind].
    destruct Hl1 as [Hc1 Hk1 Hs1 Hr1], Hl' as [Hc2 Hk2 Hs2 Hr2]. split; [split; congruence || lia|].
    assert (may_move c1 = may_move c) as Hmay by (unfold may_move; by rewrite Hk1, Hs1).
    rewrite Hc1, Hk1, Hmay in He. exact He.
Qed.
End metering.

(** ** Keys *)

Lemma hex_digit_inj a b : 0 <= a < 16 -> 0 <= b < 16 -> hex_digit a = hex_digit b -> a = b.
Proof. unfold hex_digit. repeat case_match; lia. Qed.

Definition hex_byte (byte : Z) : bytes := [hex_digit (byte / 16); hex_digit (byte mod 16)].

Lemma hex_cons x l : mjoin (hex_byte <$> x :: l) = hex_byte x ++ mjoin (hex_byte <$> l).
Proof. done. Qed.

Lemma hex_inj l l' :
  Forall is_byte l -> Forall is_byte l' -> mjoin (hex_byte <$> l) = mjoin (hex_byte <$> l') -> l = l'.
Proof.
  intros Hl. revert l'. induction Hl as [|x l Hx Hl IH]; intros [|y l'] Hl' Heq; try done.
  apply Forall_cons in Hl' as [Hy Hl']. rewrite !hex_cons in Heq. injection Heq as H1 H2 Heq.
  unfold is_byte in *.
  apply hex_digit_inj in H1; [|split; [apply Z.div_pos|apply Z.div_lt_upper_bound]; lia..].
  apply hex_digit_inj in H2; [|apply Z.mod_pos_bound; lia..].
  rewrite (Z.div_mod x 16), (Z.div_mod y 16), H1, H2 by lia. f_equal. by apply IH.
Qed.

Lemma hex_length l : length (mjoin (hex_byte <$> l)) = (2 * length l)%nat.
Proof. induction l as [|x l IH]; [done|]. rewrite hex_cons, length_app, IH. cbn. lia. Qed.

Lemma hex32_length a : length (hex_encode_32 a) = 64%nat.
Proof. change (hex_encode_32 a) with (mjoin (hex_byte <$> be_bytes 32 a)). by rewrite hex_length, be_bytes_length. Qed.

Lemma hex32_inj a b : is_u256 a -> is_u256 b -> hex_encode_32 a = hex_encode_32 b -> a = b.
Proof.
  intros Ha Hb Heq. apply be_bytes32_inj; [done..|]. apply hex_inj; [apply Forall_reverse, le_bytes_are_bytes..|exact Heq].
Qed.

Abbreviation bkey := (balance_key TOKEN_PREFIX).
Abbreviation akey := (allowance_key TOKEN_PREFIX).
Abbreviation skey := (supply_key TOKEN_PREFIX).

(** The four kinds of keys have four different lengths. *)
Lemma key_lengths k o p :
  length (bkey k) = 73%nat /\ length (akey o p) = 138%nat /\ length skey = 11%nat /\ length OWNER_KEY = 10%nat.
Proof.
  unfold balance_key, allowance_key, supply_key. rewrite !length_app, !hex32_length. by vm_compute.
Qed.

Lemma balance_key_inj a b : is_u256 a -> is_u256 b -> bkey a = bkey b -> a = b.
Proof. intros Ha Hb Heq. unfold balance_key in Heq. apply app_inv_head, app_inv_head in Heq. by apply hex32_inj. Qed.

Lemma allowance_key_inj o p o' p' :
  is_u256 o -> is_u256 p -> is_u256 o' -> is_u256 p' -> akey o p = akey o' p' -> (o, p) = (o', p').
Proof.
  intros Ho Hp Ho' Hp' Heq. unfold allowance_key in Heq. apply app_inv_head, app_inv_head in Heq.
  apply app_inj_1 in Heq as [H1 H2]; [|by rewrite !hex32_length]. apply (app_inv_head [95]) in H2.
  apply hex32_inj in H1; [|done..]. apply hex32_inj in H2; [|done..]. by rewrite H1, H2.
Qed.

(** ** The ledger *)

Record Ledger := mkLedger {
  lg_owner : option Pubkey;
  lg_supply : Z;
  lg_balances : gmap Pubkey Z;
  lg_allowances : gmap (Pubkey * Pubkey) Z;
}.

Definition balance (l : Ledger) (k : Pubkey) : Z := default 0 (lg_balances l !! k).
Definition allowance (l : Ledger) (o p : Pubkey) : Z := default 0 (lg_allowances l !! (o, p)).

Definition set_balance (k : Pubkey) (n : Z) (l : Ledger) : Ledger :=
  mkLedger (lg_owner l) (lg_supply l) (<[k := n]> (lg_balances l)) (lg_allowances l).
Definition set_allowance (o p : Pubkey) (n : Z) (l : Ledger) : Ledger :=
  mkLedger (lg_owner l) (lg_supply l) (lg_balances l) (<[(o, p) := n]> (lg_allowances l)).
Definition set_supply (n : Z) (l : Ledger) : Ledger :=
  mkLedger (lg_owner l) n (lg_balances l) (lg_allowances l).
Definition set_owner (o : Pubkey) (l : Ledger) : Ledger :=
  mkLedger (Some o) (lg_supply l) (lg_balances l) (lg_allowances l).

Inductive TokenOp :=
| TInitialize (owner : Pubkey)
| TMint (minter to : Pubkey) (amount : Z)
| TBurn (from : Pubkey) (amount : Z)
| TTransfer (from to : Pubkey) (amount : Z)
| TApprove (owner spender : Pubkey) (amount : Z)
| TTransferFrom (spender from to : Pubkey) (amount : Z).

Section ledger.
Variable caller : Pubkey.
Variable may : Pubkey -> TransferDirection -> Z -> Z -> bool.

(** Moving tokens between two accounts; the code is zero when they moved. *)
Definition move (from to : Pubkey) (amount : Z) (l : Ledger) : Z * Ledger :=
  if (amount =? 0) || (from =? 0) || (to =? 0) || (from =? to) then (5, l)
  else if balance l from <? amount then (2, l)
  else if u64_max <? balance l to + amount then (4, l)
  else if negb (may from OutgoingTransfer amount (balance l from) && may to IncomingTransfer amount (balance l to)) then (7, l)
  else (0, set_balance to (balance l to + amount) (set_balance from (balance l from - amount) l)).

(** A call acts for its caller only: 200 is the code of a forged sender. *)
Definition ledger_step (op : TokenOp) (l : Ledger) : Z * Ledger :=
  match op with
  | TInitialize owner =>
      if owner =? 0 then (2, l)
      else if negb (caller =? owner) then (200, l)
      else match lg_owner l with
           | Some _ => (1, l)
           | None => (0, set_balance owner 0 (set_supply 0 (set_owner owner l)))
           end
  | TMint minter to amount =>
      if negb (caller =? minter) then (200, l)
      else match lg_owner l with
           | None => (3, l)
           | Some owner =>
               if (amount =? 0) || (to =? 0) || (owner =? 0) then (5, l)
               else if negb (minter =? owner) then (1, l)
               else if negb (may to IncomingTransfer amount (balance l to)) then (7, l)
               else if u64_max <? balance l to + amount then (4, l)
               else if u64_max <? lg_supply l + amount then (4, l)
               else (0, set_supply (lg_supply l + amount) (set_balance to (balance l to + amount) l))
           end
  | TBurn from amount =>
      if negb (caller =? from) then (200, l)
      else if (amount =? 0) || (from =? 0) then (5, l)
      else if balance l from <? amount then (2, l)
      else if negb (may from OutgoingTransfer amount (balance l from)) then (7, l)
      else (0, set_supply (lg_supply l - amount) (set_balance from (balance l from - amount) l))
  | TTransfer from to amount => if negb (caller =? from) then (200, l) else move from to amount l
  | TApprove owner spender amount =>
      if negb (caller =? owner) then (200, l)
      else if (owner =? 0) || (spender =? 0) || (owner =? spender) then (5, l)
      else (0, set_allowance owner spender amount l)
  | TTransferFrom spender from to amount =>
      if negb (caller =? spender) then (200, l)
      else if (amount =? 0) || (spender =? 0) || (from =? to) then (5, l)
      else if allowance l from spender <? amount then (1, l)
      else match move from to amount l with
           | (0, l') => (0, set_allowance from spender (allowance l from spender - amount) l')
           | (code, _) => (code, l)
           end
  end.
End ledger.

(** Balances sum to the supply, which a token without an owner does not have. *)
Record ledger_ok (l : Ledger) : Prop := {
  lo_owner o : lg_owner l = Some o -> is_u256 o;
  lo_balances k n : lg_balances l !! k = Some n -> 0 <= n;
  lo_allowances kp n : lg_allowances l !! kp = Some n -> is_u64 n;
  lo_supply : lg_supply l = map_sum id (lg_balances l);
  lo_u64 : lg_supply l <= u64_max;
  lo_fresh : lg_owner l = None -> lg_supply l = 0;
}.

Lemma balance_bounds l k : ledger_ok l -> 0 <= balance l k <= lg_supply l.
Proof.
  intros [_ Hb _ Hs _ _]. unfold balance. rewrite Hs. destruct (lg_balances l !! k) as [n|] eqn:Hk; cbn.
  - split; [by eapply Hb|]. exact (map_sum_lookup id _ k n Hb Hk).
  - split; [done|]. by apply map_sum_nonneg.
Qed.

Definition op_fits (op : TokenOp) : Prop :=
  match op with
  | TInitialize owner => is_u256 owner
  | TMint a b n | TTransfer a b n | TApprove a b n => is_u256 a /\ is_u256 b /\ is_u64 n
  | TBurn a n => is_u256 a /\ is_u64 n
  | TTransferFrom a b d n => is_u256 a /\ is_u256 b /\ is_u256 d /\ is_u64 n
  end.

Lemma set_balance_sum k n l :
  map_sum id (lg_balances (set_balance k n l)) = map_sum id (lg_balances l) - balance l k + n.
Proof. cbn. rewrite map_sum_put. unfold balance, id. by destruct (lg_balances l !! k). Qed.

Lemma set_balance_ne k j n l : j <> k -> balance (set_balance k n l) j = balance l j.
Proof. intros Hne. unfold balance. cbn. by rewrite lookup_insert_ne. Qed.

(** Writing balances and the supply together, with the sum kept. *)
Lemma ledger_ok_update l l' :
  ledger_ok l -> lg_owner l' = lg_owner l -> lg_allowances l' = lg_allowances l ->
  (forall k n, lg_balances l' !! k = Some n -> 0 <= n) -> lg_supply l' = map_sum id (lg_balances l') ->
  lg_supply l' <= u64_max -> (lg_owner l = None -> lg_supply l' = 0) -> ledger_ok l'.
Proof. intros [Ho Hb Ha Hs Hm Hf] Eo Ea Hb' Hs' Hm' Hf'. split; rewrite ?Eo, ?Ea; done. Qed.

Lemma nonneg_insert (m : gmap Pubkey Z) k n :
  (forall j x, m !! j = Some x -> 0 <= x) -> 0 <= n -> forall j x, <[k := n]> m !! j = Some x -> 0 <= x.
Proof.
  intros Hm Hn j x. destruct (decide (j = k)) as [->|Hj]; [rewrite lookup_insert_eq; by intros [= <-]|].
  rewrite lookup_insert_ne by done. apply Hm.
Qed.

Lemma ledger_allow o p n l : ledger_ok l -> is_u64 n -> ledger_ok (set_allowance o p n l).
Proof.
  intros [Ho Hb Ha Hs Hm Hf] Hn. split; cbn; try done. intros kp m. destruct (decide (kp = (o, p))) as [->|Hj].
  - rewrite lookup_insert_eq. by intros [= <-].
  - rewrite lookup_insert_ne by done. apply Ha.
Qed.

Lemma token_move_ok may from to amount l :
  ledger_ok l -> 0 <= amount -> ledger_ok (move may from to amount l).2.
Proof.
  intros Hl Hn. unfold move.
  destruct (_ || _ || _ || _) eqn:Hz; [done|]. rewrite !orb_false_iff in Hz. destruct Hz as [_ Hft%Z.eqb_neq].
  destruct (Z.ltb_spec (balance l from) amount); [done|]. destruct (Z.ltb_spec u64_max (balance l to + amount)); [done|].
  destruct (negb _); [done|]. cbn [snd]. pose proof (balance_bounds l to Hl). pose proof (balance_bounds l from Hl).
  pose proof Hl as [Ho Hb Ha Hs Hm Hf]. apply (ledger_ok_update l); try done.
  - apply nonneg_insert; [apply nonneg_insert; [done|lia]|lia].
  - rewrite !set_balance_sum, set_balance_ne by done. change (lg_supply _) with (lg_supply l). lia.
Qed.

Lemma move_refused may from to amount l code l' : move may from to amount l = (code, l') -> code <> 0 -> l' = l.
Proof. unfold move. intros Hm Hc. repeat case_match; by simplify_eq. Qed.

Lemma ledger_step_ok caller may op l :
  ledger_ok l -> op_fits op -> ledger_ok (ledger_step caller may op l).2.
Proof.
  intros Hl Hop. pose proof Hl as [Ho Hb Ha Hs Hm Hf].
  destruct op as [owner|minter to amount|from amount|from to amount|owner spender amount|spender from to amount];
    cbn [ledger_step op_fits] in *; unfold is_u64 in *.
  - case_match; [done|]. case_match; [done|]. destruct (lg_owner l) as [o|] eqn:Hown; [done|]. cbn [snd].
    specialize (Hf eq_refl). split; cbn; try done.
    + by intros o [= <-].
    + apply nonneg_insert; [done|lia].
    + rewrite map_sum_put. rewrite Hf in Hs.
      pose proof (balance_bounds l owner Hl) as Hbo. unfold balance in Hbo. rewrite Hf in Hbo.
      destruct (lg_balances l !! owner) as [n|]; cbn in *; change (@id Z n) with n || idtac; rewrite <- Hs; lia.
  - case_match; [done|]. destruct (lg_owner l) as [o|] eqn:Hown; [|done]. case_match; [done|]. case_match; [done|]. case_match; [done|].
    destruct (Z.ltb_spec u64_max (balance l to + amount)); [done|].
    destruct (Z.ltb_spec u64_max (lg_supply l + amount)); [done|]. cbn [snd]. pose proof (balance_bounds l to Hl).
    apply (ledger_ok_update l); try done.
    + apply nonneg_insert; [done|lia].
    + change (lg_balances _) with (lg_balances (set_balance to (balance l to + amount) l)). rewrite set_balance_sum. cbn. lia.
    + intros Hn. congruence.
  - case_match; [done|]. case_match; [done|]. destruct (Z.ltb_spec (balance l from) amount); [done|]. case_match; [done|].
    cbn [snd]. pose proof (balance_bounds l from Hl). apply (ledger_ok_update l); try done.
    + apply nonneg_insert; [done|lia].
    + change (lg_balances _) with (lg_balances (set_balance from (balance l from - amount) l)). rewrite set_balance_sum. cbn. lia.
    + cbn. lia.
    + intros Hn. specialize (Hf Hn). cbn. lia.
  - case_match; [done|]. apply token_move_ok; [done|lia].
  - case_match; [done|]. case_match; [done|]. apply ledger_allow; [done|]. unfold is_u64. lia.
  - case_match; [done|]. case_match; [done|]. destruct (Z.ltb_spec (allowance l from spender) amount); [done|].
    pose proof (token_move_ok may from to amount l Hl ltac:(lia)) as Hmv.
    destruct (move may from to amount l) as [code l']. destruct code; try done. cbn [snd].
    apply ledger_allow; [done|]. unfold allowance in *. unfold is_u64.
    destruct (lg_allowances l !! (from, spender)) as [n|] eqn:Hn; cbn in *; [destruct (Ha _ _ Hn); lia|lia].
Qed.

(** ** Storage that holds a ledger *)

Definition number_at (s : Storage) (key : bytes) : Z := from_option bytes_to_u64 0 (s !! key).

Record holds (s : Storage) (l : Ledger) : Prop := {
  hd_owner : s !! OWNER_KEY = be_bytes 32 <$> lg_owner l;
  hd_supply : number_at s skey = lg_supply l;
  hd_balance k : is_u256 k -> number_at s (bkey k) = balance l k;
  hd_allowance o p : is_u256 o -> is_u256 p -> number_at s (akey o p) = allowance l o p;
}.

Lemma number_insert s key n : is_u64 n -> number_at (<[key := u64_to_bytes n]> s) key = n.
Proof.
  intros Hn. unfold number_at. rewrite lookup_insert_eq. unfold from_option, bytes_to_u64, u64_to_bytes.
  rewrite take_ge by (by rewrite le_bytes_length). rewrite le_value_le_bytes. apply Z.mod_small. exact Hn.
Qed.

Lemma number_insert_ne s key key' v : key <> key' -> number_at (<[key' := v]> s) key = number_at s key.
Proof. intros Hne. unfold number_at. by rewrite lookup_insert_ne. Qed.

Lemma length_neq (l l' : bytes) : length l <> length l' -> l <> l'.
Proof. intros Hl ->. done. Qed.

(** Two keys of different kinds. *)
Ltac key_neq :=
  apply length_neq; destruct (key_lengths 0 0 0) as (_ & _ & ? & ?);
  repeat match goal with
  | |- context [length (balance_key _ ?k)] => rewrite (proj1 (key_lengths k 0 0))
  | |- context [length (allowance_key _ ?o ?p)] => rewrite (proj1 (proj2 (key_lengths 0 o p)))
  end; lia.

Ltac ledger_fields :=
  cbn [lg_owner lg_supply lg_balances lg_allowances set_balance set_supply set_allowance set_owner].

Lemma holds_balance s l k n :
  holds s l -> is_u256 k -> is_u64 n -> holds (<[bkey k := u64_to_bytes n]> s) (set_balance k n l).
Proof.
  intros [Ho Hs Hb Ha] Hk Hn. split; ledger_fields.
  - rewrite lookup_insert_ne by key_neq. done.
  - rewrite number_insert_ne by key_neq. done.
  - intros j Hj. unfold balance. ledger_fields. destruct (decide (j = k)) as [->|Hne].
    + by rewrite number_insert, lookup_insert_eq.
    + rewrite number_insert_ne by (intros Heq; apply Hne; by apply balance_key_inj). rewrite lookup_insert_ne by done. by apply Hb.
  - intros o p Hop Hp. rewrite number_insert_ne by key_neq. by apply Ha.
Qed.

Lemma holds_supply s l n : holds s l -> is_u64 n -> holds (<[skey := u64_to_bytes n]> s) (set_supply n l).
Proof.
  intros [Ho Hs Hb Ha] Hn. split; ledger_fields.
  - rewrite lookup_insert_ne by key_neq. done.
  - by rewrite number_insert.
  - intros k Hk. rewrite number_insert_ne by key_neq. by apply Hb.
  - intros o p Hop Hp. rewrite number_insert_ne by key_neq. by apply Ha.
Qed.

Lemma holds_allowance s l o p n :
  holds s l -> is_u256 o -> is_u256 p -> is_u64 n -> holds (<[akey o p := u64_to_bytes n]> s) (set_allowance o p n l).
Proof.
  intros [Ho Hs Hb Ha] Hu Hv Hn. split; ledger_fields.
  - rewrite lookup_insert_ne by key_neq. done.
  - rewrite number_insert_ne by key_neq. done.
  - intros k Hk. rewrite number_insert_ne by key_neq. by apply Hb.
  - intros o' p' Hu' Hv'. unfold allowance. ledger_fields. destruct (decide ((o', p') = (o, p))) as [[= -> ->]|Hne].
    + by rewrite number_insert, lookup_insert_eq.
    + rewrite number_insert_ne by (intros Heq; apply Hne; by apply allowance_key_inj).
      rewrite lookup_insert_ne by congruence. by apply Ha.
Qed.

Lemma holds_owner s l o : holds s l -> holds (<[OWNER_KEY := be_bytes 32 o]> s) (set_owner o l).
Proof.
  intros [Ho Hs Hb Ha]. split; ledger_fields.
  - by rewrite lookup_insert_eq.
  - rewrite number_insert_ne by key_neq. done.
  - intros k Hk. rewrite number_insert_ne by key_neq. by apply Hb.
  - intros o' p Hop Hp. rewrite number_insert_ne by key_neq. by apply Ha.
Qed.

(** ** Arguments *)

Lemma mjoin_cons {A} (x : list A) l : mjoin (x :: l) = x ++ mjoin l.
Proof. done. Qed.

Definition param_fits (p : WasmParam) (part : bytes) : Prop :=
  length part = match p with PtrI32 => 32%nat | ValueI64 => 8%nat end.

Lemma slots_parts memory params parts rest :
  Forall2 param_fits params parts -> slots memory params (zlen <$> parts) (mjoin parts ++ rest) = mjoin parts.
Proof.
  intros Hp. revert rest. induction Hp as [|p part params parts Hf Hp IH]; intros rest; [done|].
  cbn [fmap list_fmap slots]. rewrite mjoin_cons, <- app_assoc.
  unfold param_fits in Hf. destruct p.
  - assert (zlen part = 32) as Hz by (unfold zlen; by rewrite Hf). rewrite Hz. change (32 <=? 32) with true. cbv iota.
    rewrite take_app_length', drop_app_length' by (by rewrite Hf). f_equal. apply IH.
  - rewrite take_app_length', drop_app_length' by (by rewrite Hf). f_equal. apply IH.
Qed.

Lemma layout_valid params parts :
  Forall2 param_fits params parts -> forallb (fun ps => stride_valid ps.1 ps.2) (zip params (zlen <$> parts)) = true.
Proof.
  induction 1 as [|p part params parts Hf Hp IH]; [done|]. cbn. rewrite IH, andb_true_r.
  unfold param_fits in Hf. unfold zlen. rewrite Hf. by destruct p.
Qed.

Lemma join_zlen parts : sumZ id (zlen <$> parts) = zlen (mjoin parts).
Proof.
  induction parts as [|x l IH]; [done|]. rewrite fmap_cons, sumZ_cons, IH. unfold zlen. 
  rewrite mjoin_cons, length_app. unfold id. lia.
Qed.

(** What an export reads of arguments in a layout are the parts. *)
Lemma layout_parts memory params parts args :
  params <> [] -> Forall2 param_fits params parts -> encode_layout_args parts = Some args ->
  args <> [] /\ data_of memory args params = mjoin parts.
Proof.
  intros Hne Hp. pose proof (Forall2_length _ _ _ Hp) as Hlen. unfold encode_layout_args.
  destruct (existsb _ _); [done|]. intros [= <-]. split; [done|]. unfold data_of, canonical_layout_descriptor.
  destruct params as [|p params]; [done|]. set (ps := p :: params) in *. cbn [Z.eqb].
  rewrite Z.eqb_refl. rewrite (proj2 (Nat.ltb_ge _ _)) by (cbn [length]; rewrite length_app, length_fmap; lia).
  rewrite Hlen, take_app_length' by (by rewrite length_fmap). cbn [mbind option_bind].
  rewrite layout_valid by done. cbn [negb].
  rewrite join_zlen. rewrite (proj2 (Z.eqb_eq _ _)).
  2: { unfold zlen at 2. cbn [length]. rewrite length_app, length_fmap. unfold zlen. lia. }
  cbn [negb]. cbn [drop Nat.add]. rewrite drop_app_length' by (by rewrite length_fmap).
  rewrite <- (app_nil_r (mjoin parts)) at 1. by apply slots_parts.
Qed.

Lemma key_of_be_bytes a : is_u256 a -> le_value (reverse (be_bytes 32 a)) = a.
Proof.
  intros Ha. unfold be_bytes. rewrite reverse_involutive, le_value_le_bytes. apply Z.mod_small. exact Ha.
Qed.

Lemma padded_key_at data n a rest : drop n data = be_bytes 32 a ++ rest -> is_u256 a -> padded_key data n = a.
Proof.
  intros Hd Ha. unfold padded_key. rewrite Hd, <- app_assoc, take_app_length' by (by rewrite be_bytes_length).
  by apply key_of_be_bytes.
Qed.

Lemma number_at_arg data n x rest : drop n data = le_bytes 8 x ++ rest -> is_u64 x -> u64_at data n = x.
Proof.
  intros Hd Hx. unfold u64_at. rewrite Hd, take_app_length', le_value_le_bytes by (by rewrite le_bytes_length).
  apply Z.mod_small. exact Hx.
Qed.

(** An operation as a call: the export, its parameters and their values. *)
Definition op_name (op : TokenOp) : string :=
  match op with
  | TInitialize _ => "initialize" | TMint _ _ _ => "mint" | TBurn _ _ => "burn" | TTransfer _ _ _ => "transfer"
  | TApprove _ _ _ => "approve" | TTransferFrom _ _ _ _ => "transfer_from"
  end.
Definition op_params (op : TokenOp) : list WasmParam :=
  match op with
  | TInitialize _ => [PtrI32]
  | TMint _ _ _ | TTransfer _ _ _ | TApprove _ _ _ => [PtrI32; PtrI32; ValueI64]
  | TBurn _ _ => [PtrI32; ValueI64]
  | TTransferFrom _ _ _ _ => [PtrI32; PtrI32; PtrI32; ValueI64]
  end.
Definition op_parts (op : TokenOp) : list bytes :=
  match op with
  | TInitialize owner => [be_bytes 32 owner]
  | TMint a b n | TTransfer a b n | TApprove a b n => [be_bytes 32 a; be_bytes 32 b; le_bytes 8 n]
  | TBurn a n => [be_bytes 32 a; le_bytes 8 n]
  | TTransferFrom a b d n => [be_bytes 32 a; be_bytes 32 b; be_bytes 32 d; le_bytes 8 n]
  end.

Lemma op_parts_fit op : Forall2 param_fits (op_params op) (op_parts op).
Proof. destruct op; repeat constructor; unfold param_fits; by rewrite ?be_bytes_length, ?le_bytes_length. Qed.

(** ** The contract on storage *)

Section contract.
Variables (w : Z) (memory : Z -> Z -> bytes) (caller self : Pubkey).
Variable may : Pubkey -> TransferDirection -> Z -> Z -> bool.
Hypothesis caller_u256 : is_u256 caller.
Hypothesis self_u256 : is_u256 self.

Abbreviation run := (eval caller self may).

(** The buffer of a read, without its unary size. *)
Lemma read_size : (32 <= Z.to_nat 65536)%nat.
Proof. apply Nat2Z.inj_le. rewrite Z2Nat.id by done. done. Qed.

Lemma eval_get key k s :
  exists n, (32 <= n)%nat /\ run (storage_get w key k) s
    = run (k (match s !! key with
              | Some v => if zlen (take n v) =? 0 then None else Some (take n v)
              | None => None
              end)) s.
Proof.
  exists (Z.to_nat 65536). split; [exact read_size|]. unfold storage_get. cbn [eval ideal mbind option_bind].
  by destruct (s !! key).
Qed.

Lemma eval_load key k s : run (load_u64 w key k) s = run (k (number_at s key)) s.
Proof.
  unfold load_u64, number_at.
  destruct (eval_get key (fun o => k (match o with Some b => bytes_to_u64 b | None => 0 end)) s) as (n & Hn & ->).
  destruct (s !! key) as [v|]; [|done]. cbn [from_option].
  assert (bytes_to_u64 (take n v) = bytes_to_u64 v) as Ht.
  { unfold bytes_to_u64. by rewrite take_take, Nat.min_l by lia. }
  destruct (Z.eqb_spec (zlen (take n v)) 0) as [Hz|]; [|by rewrite Ht].
  rewrite <- Ht. unfold zlen in Hz. assert (length (take n v) = 0%nat) as Hl by lia.
  apply nil_length_inv in Hl. by rewrite Hl.
Qed.

Lemma eval_set key v k s : run (storage_set w key v k) s = run k (<[key := v]> s).
Proof. done. Qed.

Lemma eval_caller k s : run (get_caller w k) s = run (k caller) s.
Proof. unfold get_caller. cbn [eval ideal mbind option_bind fst snd Z.eqb]. by rewrite key_of_be_bytes. Qed.

Lemma eval_self k s : run (get_contract_address w k) s = run (k self) s.
Proof. unfold get_contract_address. cbn [eval ideal mbind option_bind fst snd Z.eqb]. by rewrite key_of_be_bytes. Qed.

Lemma eval_can_send account amount n k s :
  run (host_can_send w self account amount n k) s = run (k (may account OutgoingTransfer amount n)) s.
Proof.
  unfold host_can_send, verdict. cbn [eval ideal mbind option_bind]. rewrite Z.eqb_refl. by destruct (may _ _ _ _).
Qed.

Lemma eval_can_receive account amount n k s :
  run (host_can_receive w self account amount n k) s = run (k (may account IncomingTransfer amount n)) s.
Proof.
  unfold host_can_receive, verdict. cbn [eval ideal mbind option_bind]. rewrite Z.eqb_refl. by destruct (may _ _ _ _).
Qed.

Lemma eval_may_transfer from to amount x y k s :
  run (host_may_transfer w self from to amount x y k) s
  = run (k (may from OutgoingTransfer amount x && may to IncomingTransfer amount y)) s.
Proof.
  unfold host_may_transfer, verdict. cbn [eval ideal mbind option_bind]. rewrite Z.eqb_refl.
  by destruct (may from _ _ _), (may to _ _ _).
Qed.

Lemma eval_finish msg r s :
  run (finish w msg r) s = Some (Some (match r with Ok _ => 0 | Err e => map_contract_error e end), s).
Proof. by destruct r. Qed.

Lemma eval_owner k s l : holds s l -> ledger_ok l -> run (load_owner w k) s = run (k (lg_owner l)) s.
Proof.
  intros Hh Hl. unfold load_owner. edestruct (eval_get OWNER_KEY) as (n & Hn & ->). rewrite (hd_owner _ _ Hh).
  destruct (lg_owner l) as [o|] eqn:Ho; [|done]. cbn [fmap option_fmap option_map].
  assert (zlen (be_bytes 32 o) = 32) as Hz by (unfold zlen; by rewrite be_bytes_length).
  rewrite take_ge, Hz by (by rewrite be_bytes_length). change (32 =? 0) with false. cbv beta iota.
  rewrite Hz. change (32 <? 32) with false. cbv beta iota.
  rewrite take_ge, key_of_be_bytes; [done| |by rewrite be_bytes_length]. by apply (lo_owner _ Hl).
Qed.

Lemma checked_sub_if a b : checked_sub a b = if a <? b then None else Some (a - b).
Proof. unfold checked_sub. destruct (Z.leb_spec b a), (Z.ltb_spec a b); done || lia. Qed.

Lemma checked_add_if a b : checked_add64 a b = if u64_max <? a + b then None else Some (a + b).
Proof. unfold checked_add64. destruct (Z.leb_spec (a + b) u64_max), (Z.ltb_spec u64_max (a + b)); done || lia. Qed.

Lemma eval_move from to amount k s l :
  holds s l -> ledger_ok l -> is_u256 from -> is_u256 to -> 0 <= amount ->
  (forall e s, run (k (Err e)) s = Some (Some (map_contract_error e), s)) ->
  exists s', holds s' (move may from to amount l).2
    /\ run (Token_transfer w TOKEN_PREFIX from to amount k) s
       = if (move may from to amount l).1 =? 0 then run (k (Ok tt)) s'
         else Some (Some (move may from to amount l).1, s').
Proof.
  intros Hh Hl Hf Ht Hn Hk. unfold Token_transfer, move.
  destruct (_ || _ || _ || _) eqn:Hz; [exists s; split; [done|apply Hk]|].
  rewrite !orb_false_iff in Hz. destruct Hz as [_ Hft%Z.eqb_neq].
  unfold Token_balance_of. rewrite eval_load, (hd_balance _ _ Hh) by done. rewrite checked_sub_if.
  destruct (Z.ltb_spec (balance l from) amount); [exists s; split; [done|apply Hk]|].
  rewrite eval_load, (hd_balance _ _ Hh) by done. rewrite checked_add_if.
  destruct (Z.ltb_spec u64_max (balance l to + amount)); [exists s; split; [done|apply Hk]|].
  rewrite eval_self, eval_may_transfer.
  destruct (may from _ _ _ && may to _ _ _); cbn [negb]; [|exists s; split; [done|apply Hk]].
  eexists. split; [|unfold Token_set_balance; by rewrite !eval_set].
  pose proof (balance_bounds l from Hl). pose proof (balance_bounds l to Hl). pose proof (lo_u64 _ Hl).
  apply holds_balance; [apply holds_balance|..]; try done; unfold is_u64, u64_max in *; lia.
Qed.

(** The export of an operation. *)
Definition op_export (op : TokenOp) : bytes -> Guest :=
  match op with
  | TInitialize _ => mt20_initialize w memory | TMint _ _ _ => mt20_mint w memory | TBurn _ _ => mt20_burn w memory
  | TTransfer _ _ _ => mt20_transfer w memory | TApprove _ _ _ => mt20_approve w memory
  | TTransferFrom _ _ _ _ => mt20_transfer_from w memory
  end.

Lemma op_export_name op : mt20_exports w memory (str_bytes (op_name op)) = Some (op_export op).
Proof. by destruct op. Qed.

Lemma with_parts op f args :
  encode_layout_args (op_parts op) = Some args ->
  with_params memory (op_params op) f args = f (mjoin (op_parts op)).
Proof.
  intros Ha. assert (op_params op <> []) as Hne by (by destruct op).
  destruct (layout_parts memory _ _ _ Hne (op_parts_fit op) Ha) as [Hargs <-]. by destruct args.
Qed.

(** ** Reading the parameters back *)

Lemma param0 a rest : is_u256 a -> padded_key (mjoin (be_bytes 32 a :: rest)) 0 = a.
Proof. apply (padded_key_at _ 0 a (mjoin rest)). by rewrite drop_0. Qed.

Lemma param1 a b rest : is_u256 b -> padded_key (mjoin (be_bytes 32 a :: be_bytes 32 b :: rest)) 32 = b.
Proof.
  apply (padded_key_at _ 32 b (mjoin rest)). rewrite !mjoin_cons.
  by rewrite drop_app_length' by (by rewrite be_bytes_length).
Qed.

Lemma param2 a b d rest : is_u256 d -> padded_key (mjoin (be_bytes 32 a :: be_bytes 32 b :: be_bytes 32 d :: rest)) 64 = d.
Proof.
  apply (padded_key_at _ 64 d (mjoin rest)). rewrite !mjoin_cons. rewrite app_assoc.
  by rewrite drop_app_length' by (by rewrite length_app, !be_bytes_length).
Qed.

(** The number at the end. *)
Lemma param_number parts n :
  is_u64 n -> u64_at (mjoin (parts ++ [le_bytes 8 n])) (length (mjoin parts)) = n.
Proof.
  intros Hn. apply (number_at_arg _ _ n []); [|done].
  assert (mjoin (parts ++ [le_bytes 8 n]) = mjoin parts ++ (le_bytes 8 n ++ [])) as ->.
  { induction parts as [|x l IH]; [done|]. rewrite <- app_comm_cons, !mjoin_cons, IH. by rewrite app_assoc. }
  by rewrite drop_app_length.
Qed.

Lemma keys_length (l : list Pubkey) : length (mjoin (be_bytes 32 <$> l)) = (32 * length l)%nat.
Proof. induction l as [|x l IH]; [done|]. rewrite fmap_cons, mjoin_cons, length_app, IH, be_bytes_length. cbn [length]. lia. Qed.

Lemma param_after (l : list Pubkey) n :
  is_u64 n -> u64_at (mjoin ((be_bytes 32 <$> l) ++ [le_bytes 8 n])) (32 * length l) = n.
Proof. rewrite <- keys_length. apply param_number. Qed.

Lemma param_n1 a n : is_u64 n -> u64_at (mjoin [be_bytes 32 a; le_bytes 8 n]) 32 = n.
Proof. exact (param_after [a] n). Qed.
Lemma param_n2 a b n : is_u64 n -> u64_at (mjoin [be_bytes 32 a; be_bytes 32 b; le_bytes 8 n]) 64 = n.
Proof. exact (param_after [a; b] n). Qed.
Lemma param_n3 a b d n :
  is_u64 n -> u64_at (mjoin [be_bytes 32 a; be_bytes 32 b; be_bytes 32 d; le_bytes 8 n]) 96 = n.
Proof. exact (param_after [a; b; d] n). Qed.

(** Each export is the operation of the ledger. *)
Definition refines (op : TokenOp) (g : Guest) : Prop :=
  forall s l, holds s l -> ledger_ok l ->
  exists s', run g s = Some (Some (ledger_step caller may op l).1, s') /\ holds s' (ledger_step caller may op l).2.

Ltac open_export Hargs :=
  rewrite (with_parts _ _ _ Hargs); cbv beta zeta; cbn [op_parts];
  rewrite ?param0, ?param1, ?param2, ?param_n1, ?param_n2, ?param_n3 by done; intros s l Hh Hl; cbn [ledger_step].

Lemma initialize_refines owner args :
  is_u256 owner -> encode_layout_args (op_parts (TInitialize owner)) = Some args ->
  refines (TInitialize owner) (mt20_initialize w memory args).
Proof.
  intros Ho Hargs. unfold mt20_initialize. open_export Hargs.
  destruct (owner =? 0) eqn:Hz; [by exists s|]. rewrite eval_caller. destruct (negb (caller =? owner)); [by exists s|].
  rewrite (eval_owner _ _ _ Hh Hl). destruct (lg_owner l); [by exists s|]. cbn [is_some].
  unfold Token_initialize, Token_set_balance. rewrite eval_set, Hz, !eval_set, eval_finish.
  eexists. split; [reflexivity|]. apply holds_balance; [apply holds_supply; [by apply holds_owner|]|..]; done.
Qed.

Lemma mint_refines minter to amount args :
  op_fits (TMint minter to amount) -> encode_layout_args (op_parts (TMint minter to amount)) = Some args ->
  refines (TMint minter to amount) (mt20_mint w memory args).
Proof.
  intros (Hm & Ht & Hn) Hargs. unfold mt20_mint. open_export Hargs.
  rewrite eval_caller. destruct (negb (caller =? minter)); [by exists s|].
  rewrite (eval_owner _ _ _ Hh Hl). destruct (lg_owner l) as [owner|]; [|by exists s]. unfold Token_mint.
  destruct (_ || _ || _); [by exists s|]. destruct (negb (minter =? owner)); [by exists s|].
  unfold Token_balance_of, Token_get_total_supply. rewrite eval_load, (hd_balance _ _ Hh) by done.
  rewrite eval_self, eval_can_receive. destruct (negb (may _ _ _ _)); [by exists s|]. rewrite checked_add_if.
  destruct (Z.ltb_spec u64_max (balance l to + amount)); [by exists s|].
  rewrite eval_load, (hd_supply _ _ Hh), checked_add_if.
  destruct (Z.ltb_spec u64_max (lg_supply l + amount)); [by exists s|].
  unfold Token_set_balance. rewrite !eval_set, eval_finish. eexists. split; [reflexivity|].
  pose proof (balance_bounds l to Hl). unfold is_u64, u64_max in *.
  apply holds_supply; [apply holds_balance|]; try done; unfold is_u64; lia.
Qed.

Lemma burn_refines from amount args :
  op_fits (TBurn from amount) -> encode_layout_args (op_parts (TBurn from amount)) = Some args ->
  refines (TBurn from amount) (mt20_burn w memory args).
Proof.
  intros (Hf & Hn) Hargs. unfold mt20_burn. open_export Hargs.
  rewrite eval_caller. destruct (negb (caller =? from)); [by exists s|]. unfold Token_burn.
  destruct (_ || _); [by exists s|]. unfold Token_balance_of, Token_get_total_supply.
  rewrite eval_load, (hd_balance _ _ Hh) by done. rewrite checked_sub_if.
  destruct (Z.ltb_spec (balance l from) amount); [by exists s|].
  rewrite eval_self, eval_can_send. destruct (negb (may _ _ _ _)); [by exists s|].
  rewrite eval_load, (hd_supply _ _ Hh), checked_sub_if. pose proof (balance_bounds l from Hl). pose proof (lo_u64 _ Hl).
  destruct (Z.ltb_spec (lg_supply l) amount); [lia|].
  unfold Token_set_balance. rewrite !eval_set, eval_finish. eexists. split; [reflexivity|]. unfold is_u64, u64_max in *.
  apply holds_supply; [apply holds_balance|]; try done; unfold is_u64; lia.
Qed.

Lemma transfer_refines from to amount args :
  op_fits (TTransfer from to amount) -> encode_layout_args (op_parts (TTransfer from to amount)) = Some args ->
  refines (TTransfer from to amount) (mt20_transfer w memory args).
Proof.
  intros (Hf & Ht & Hn) Hargs. unfold mt20_transfer. open_export Hargs.
  rewrite eval_caller. destruct (negb (caller =? from)); [by exists s|].
  destruct (eval_move from to amount (finish w "MT-20 transfer successful") s l Hh Hl Hf Ht (proj1 Hn)) as (s' & Hs' & ->).
  { intros. apply eval_finish. }
  exists s'. split; [|done]. rewrite eval_finish. by destruct (Z.eqb_spec (move may from to amount l).1 0) as [->|].
Qed.

Lemma approve_refines owner spender amount args :
  op_fits (TApprove owner spender amount) -> encode_layout_args (op_parts (TApprove owner spender amount)) = Some args ->
  refines (TApprove owner spender amount) (mt20_approve w memory args).
Proof.
  intros (Hf & Ht & Hn) Hargs. unfold mt20_approve. open_export Hargs.
  rewrite eval_caller. destruct (negb (caller =? owner)); [by exists s|]. unfold Token_approve.
  destruct (_ || _ || _); [by exists s|]. rewrite eval_set, eval_finish. eexists. split; [reflexivity|].
  by apply holds_allowance.
Qed.

Lemma transfer_from_refines spender from to amount args :
  op_fits (TTransferFrom spender from to amount) ->
  encode_layout_args (op_parts (TTransferFrom spender from to amount)) = Some args ->
  refines (TTransferFrom spender from to amount) (mt20_transfer_from w memory args).
Proof.
  intros (Hp & Hf & Ht & Hn) Hargs. unfold mt20_transfer_from. open_export Hargs.
  rewrite eval_caller. destruct (negb (caller =? spender)); [by exists s|]. unfold Token_transfer_from.
  destruct (_ || _ || _); [by exists s|]. unfold Token_allowance.
  rewrite eval_load, (hd_allowance _ _ Hh), checked_sub_if by done.
  destruct (Z.ltb_spec (allowance l from spender) amount) as [|Hle]; [by exists s|].
  match goal with |- context [Token_transfer w TOKEN_PREFIX from to amount ?k] =>
    destruct (eval_move from to amount k s l Hh Hl Hf Ht (proj1 Hn)) as (s' & Hs' & ->) end.
  { intros. apply eval_finish. }
  destruct (move may from to amount l) as [code l'] eqn:Hmv. cbn [fst snd] in *.
  destruct (Z.eqb_spec code 0) as [->|Hnz].
  - rewrite eval_set, eval_finish. eexists. split; [reflexivity|]. apply holds_allowance; [done..|].
    unfold allowance, is_u64 in *. destruct (lg_allowances l !! (from, spender)) as [n|] eqn:Ha; cbn in *; [|lia].
    destruct (lo_allowances _ Hl _ _ Ha). lia.
  - apply move_refused in Hmv; [subst l'|done]. exists s'. by destruct code.
Qed.

Lemma op_refines op args :
  op_fits op -> encode_layout_args (op_parts op) = Some args -> refines op (op_export op args).
Proof.
  destruct op; eauto using initialize_refines, mint_refines, burn_refines, transfer_refines, approve_refines,
    transfer_from_refines.
Qed.

(** The exports make at most ten host calls. *)
Lemma op_export_fits op args : 0 <= w -> fits w 10 (op_export op args).
Proof.
  intros Hw. assert (forall k o p, zlen (bkey k) <= MAX_KEY_LEN /\ zlen (akey o p) <= MAX_KEY_LEN /\ zlen skey <= MAX_KEY_LEN
    /\ zlen OWNER_KEY <= MAX_KEY_LEN) as Hkeys.
  { intros k o p. destruct (key_lengths k o p) as (H1 & H2 & H3 & H4). unfold zlen. rewrite H1, H2, H3, H4. by vm_compute. }
  assert (forall n, zlen (u64_to_bytes n) <= 32 /\ zlen (be_bytes 32 n) <= 32) as Hvals.
  { intros n. unfold zlen, u64_to_bytes. by rewrite le_bytes_length, be_bytes_length. }
  destruct op; unfold op_export, mt20_initialize, mt20_mint, mt20_burn, mt20_transfer, mt20_approve, mt20_transfer_from,
    with_params; (destruct args; [constructor; lia|]).
  all: unfold Token_initialize, Token_mint, Token_burn, Token_transfer_from, Token_transfer,
    Token_approve, Token_balance_of, Token_allowance, Token_get_total_supply, Token_set_balance, load_u64, load_owner,
    storage_get, storage_set, get_caller, get_contract_address, host_can_send, host_can_receive, host_may_transfer,
    finish, log_info, return_.
  all: repeat (cbv zeta; match goal with
    | |- fits _ _ (Host _ _ _) => constructor; [lia|cbn [simple]|intros ?]
    | |- fits _ _ (Done _ _) => constructor; lia
    | |- fits _ _ (if ?b then _ else _) => destruct b
    | |- fits _ _ (match ?x with _ => _ end) => destruct x
    | |- _ /\ _ => split
    | |- True => exact I
    | |- zlen (balance_key _ ?k) <= _ => apply (Hkeys k 0 0)
    | |- zlen (allowance_key _ ?o ?p) <= _ => apply (Hkeys 0 o p)
    | |- zlen (supply_key _) <= _ => apply (Hkeys 0 0 0)
    | |- zlen OWNER_KEY <= _ => apply (Hkeys 0 0 0)
    | |- zlen (u64_to_bytes ?n) <= _ => apply (Hvals n)
    | |- zlen (be_bytes _ ?n) <= _ => apply (Hvals n)
    | |- zlen (str_bytes _) <= _ => vm_compute; discriminate
    end).
Qed.
End contract.

(** ** The contract on the runtime *)

Section refinement.
Context `{Crypto} `{Wasm} `{ContractCodec} `{NftCodec} `{HostPrimitives}.
Variable store : StateStore.

(** A deployed token: active, with the exports of the contract. *)
Record deployed_token (w : Z) (memory : Z -> Z -> bytes) (contract : ContractAccount) : Prop := {
  dt_active : ca_lifecycle_status contract = LActive;
  dt_valid : wasm_valid (ca_code contract) = true;
  dt_exports name : wasm_export (ca_code contract) name = mt20_exports w memory name;
}.

(** What a run of ten calls uses is within a limit of 20,000. *)
Lemma within_limit w limit remaining remaining' rest :
  0 <= w <= 1000 -> 20000 <= remaining <= limit -> remaining - 10000 <= remaining' <= remaining ->
  wasm_fuel_limit_for_compute_limit limit - 11 * w <= rest ->
  sat_add64 (sat_sub remaining remaining') (sat_sub (wasm_fuel_limit_for_compute_limit limit) rest / WASM_CU_DIVISOR) <= limit.
Proof.
  intros Hw Hr Hr' Hrest.
  assert (sat_sub (wasm_fuel_limit_for_compute_limit limit) rest / WASM_CU_DIVISOR <= 220) as Hd.
  { apply Z.div_le_upper_bound; unfold sat_sub, WASM_CU_DIVISOR; lia. }
  unfold sat_add64, sat_sub in *. lia.
Qed.

Lemma token_runs w memory op args (c : @ContractContext Overlay) l deeper :
  0 <= w <= 1000 -> is_u256 (cx_caller c) -> is_u256 (cx_contract c) -> 20000 <= cx_compute_limit c -> ample 10 c ->
  holds (cx_storage c) l -> ledger_ok l -> op_fits op -> encode_layout_args (op_parts op) = Some args ->
  let step := ledger_step (cx_caller c) (may_move store c) op l in
  let fuel := wasm_fuel_limit_for_compute_limit (cx_compute_limit c) in
  exists c' rest, run_guest (host_call store deeper) (op_export w memory op args) fuel (set_cx_args args c)
      = (Finished (Some step.1), rest, c')
    /\ fuel - 11 * w <= rest /\ cx_compute_remaining c - 10000 <= cx_compute_remaining c' <= cx_compute_remaining c
    /\ holds (cx_storage c') step.2.
Proof.
  intros Hw Hcu Hsu Hc Ham Hh Hl Hop Hargs step fuel.
  destruct (eval_run store deeper w 10 (op_export w memory op args) fuel (set_cx_args args c))
    as (e & c' & rest & Hr & Hleft & _ & [_ _ _ Hcr] & He'); [lia|apply op_export_fits; lia|destruct Ham; by split| |].
  { unfold fuel, wasm_fuel_limit_for_compute_limit, DEFAULT_COMPUTE_LIMIT, WASM_CU_DIVISOR, sat_mul64, u64_max. lia. }
  destruct (op_refines w memory (cx_caller c) (cx_contract c) (may_move store c) Hcu Hsu op args Hop Hargs _ _ Hh Hl)
    as (s' & Hev & Hs').
  change (eval _ _ _ _ (cx_storage (set_cx_args args c)))
    with (eval (cx_caller c) (cx_contract c) (may_move store c) (op_export w memory op args) (cx_storage c)) in He'.
  rewrite Hev in He'. destruct He' as [-> Hst]. exists c', rest. split; [done|]. split; [lia|].
  split; [cbn in Hcr; lia|]. by rewrite Hst.
Qed.

(** C21.  The MT-20 token implements a ledger.  Let the storage of a contract hold a ledger, in which the
    balances sum to the supply.  Then every operation of the token that is called with 20,000 units of
    compute and room for ten entries in storage, with its arguments in the layout of the SDK, runs to the
    end, returns exactly the code of the ledger's operation (for a forged sender, a missing owner, funds,
    an overflow, a restriction or success), and leaves storage that holds the ledger after the operation:
    what the operation does not name is unchanged, and the balances still sum to the supply. *)
Theorem token_refines_ledger w memory levels contract op args (c : @ContractContext Overlay) l :
  0 <= w <= 1000 -> deployed_token w memory contract ->
  is_u256 (cx_caller c) -> is_u256 (cx_contract c) ->
  20000 <= cx_compute_remaining c <= cx_compute_limit c -> ample 10 c ->
  holds (cx_storage c) l -> ledger_ok l -> op_fits op -> encode_layout_args (op_parts op) = Some args ->
  exists r, execute store levels contract (str_bytes (op_name op)) args c = Ok r
    /\ cr_success r = true
    /\ let step := ledger_step (cx_caller c) (may_move store c) op l in
       cr_return_code r = Some step.1 /\ holds (cx_storage (cr_context r)) step.2 /\ ledger_ok step.2.
Proof.
  intros Hw [Ha Hv He] Hcu Hsu Hc Ham Hh Hl Hop Hargs.
  assert (validate_lifecycle_for_execution contract (str_bytes (op_name op)) (cx_read_only c) (cx_value c) = Ok tt) as Hval.
  { unfold validate_lifecycle_for_execution. by rewrite Ha. }
  assert (entry_point contract (str_bytes (op_name op)) args = Ok (op_export w memory op, args)) as Hentry.
  { unfold entry_point. by rewrite Hv, He, op_export_name. }
  destruct levels; cbn [execute]; rewrite Hval, Hentry; cbn [and_then];
    (match goal with |- context [run_guest (host_call store ?d)] =>
       destruct (token_runs w memory op args c l d) as (c' & rest & -> & Hrest & Hcr & Hst); [done || lia..|] end);
    rewrite (proj2 (Z.ltb_ge _ _) (within_limit w _ _ _ _ Hw Hc Hcr Hrest));
    (eexists; split; [reflexivity|]; split; [done|]; split; [done|]; split; [exact Hst|by apply ledger_step_ok]).
Qed.
End refinement.

(** ** A sample token *)

Module SampleToken.
#[local] Instance sample_crypto : Crypto := Toy.crypto.
Definition no_memory (_ _ : Z) : bytes := [].
#[local] Instance token_wasm : Wasm :=
  {| wasm_valid := fun _ => true; wasm_export := fun _ name => mt20_exports 10 no_memory name |}.
#[local] Instance no_contracts : ContractCodec := {| contract_bytes := fun _ => None; contract_of_bytes := fun _ => None |}.
#[local] Instance no_nfts : NftCodec := {|
  decode_collection_state := fun _ => None; decode_token_state := fun _ => None; encode_token_state := fun _ => None |}.
#[local] Instance no_primitives : HostPrimitives := {| poseidon_hash_pair := fun l r => l; json_string_map := fun _ => false |}.

(** Account 6 owns the token, account 3 has all of it. *)
Definition ledger : Ledger :=
  set_balance 3 100 (set_supply 100 (set_owner 6 (mkLedger None 0 ∅ ∅))).
Definition storage : Storage :=
  <[bkey 3 := u64_to_bytes 100]> (<[skey := u64_to_bytes 100]> (<[OWNER_KEY := be_bytes 32 6]> ∅)).
Definition store : StateStore := mkStateStore ∅ {[2 := storage]} empty_db 0 (fun _ => None).
Definition token : ContractAccount := ContractAccount_new None [20] 6.
Definition args_of (op : TokenOp) : bytes := default [] (encode_layout_args (op_parts op)).
Definition context (caller : Pubkey) (op : TokenOp) : @ContractContext Overlay :=
  build_top_level_call_context store caller 2 0 10 storage (args_of op) 200000.

Lemma ledger_fine : ledger_ok ledger.
Proof.
  split; cbn [ledger lg_owner lg_balances lg_allowances lg_supply set_balance set_supply set_owner].
  - intros o [= <-]. done.
  - apply nonneg_insert; [intros j x; by rewrite lookup_empty|lia].
  - intros kp n. by rewrite lookup_empty.
  - vm_compute. reflexivity.
  - done.
  - done.
Qed.

Lemma storage_holds : holds storage ledger.
Proof.
  apply holds_balance; [apply holds_supply; [apply holds_owner|done]|done|done].
  split; unfold number_at, balance, allowance; intros; by rewrite !lookup_empty.
Qed.

Lemma small_keys : is_u256 3 /\ is_u256 7.
Proof. done. Qed.

Lemma token_refines_ledger_witness :
  exists r, execute store 8 token (str_bytes "transfer") (args_of (TTransfer 3 7 40)) (context 3 (TTransfer 3 7 40)) = Ok r
    /\ cr_return_code r = Some 0
    /\ number_at (cx_storage (cr_context r)) (bkey 3) = 60 /\ number_at (cx_storage (cr_context r)) (bkey 7) = 40.
Proof.
  destruct (token_refines_ledger store 10 no_memory 8 token (TTransfer 3 7 40) (args_of (TTransfer 3 7 40))
    (context 3 (TTransfer 3 7 40)) ledger) as (r & Hr & _ & Hrc & Hst & _).
  - lia.
  - split; done.
  - done.
  - done.
  - split; vm_compute; discriminate.
  - split; vm_compute; discriminate.
  - exact storage_holds.
  - exact ledger_fine.
  - split_and!; done.
  - vm_compute. reflexivity.
  - exists r. split; [exact Hr|]. split; [rewrite Hrc; vm_compute; reflexivity|].
    split; [exact (eq_trans (hd_balance _ _ Hst 3 (proj1 small_keys)) ltac:(vm_compute; reflexivity))
           |exact (eq_trans (hd_balance _ _ Hst 7 (proj2 small_keys)) ltac:(vm_compute; reflexivity))].
Defined.
End SampleToken.
