(* ===== verification/CallFlaws.v ===== *)
(** * Where contract calls differ from one shared store

    Two consequences of the way [core/src/contract.rs] reads state and authorizes native
    operations, and a sample chain with the MT-20 token, a vault that pays tokens out, and a
    contract that burns a bystander's coins. *)

From S2P Require Import Prelude Crypto Block Account Transactions Fees Rent Transfers Restrictions Governed.
From S2P Require Import GovernanceActions Governance Processor Runtime ContractCalls CallStore CallValue.
From S2P Require Import Token.
From stdpp Require Import base tactics numbers list gmap strings.
From Stdlib Require Import ZArith Lia.

Local Open Scope Z_scope.
Local Open Scope rust_scope.

(** What preparing a call without value leaves. *)
Lemma prepare_idle `{Crypto} `{Wasm} `{ContractCodec} env caller contract function args s p :
  prepare_contract_call env caller contract function args 0 s = Ok p ->
  pc_projected p = ∅ /\ pc_function p = resolve_abi_call_function_name (pc_contract p) function args
  /\ ca_lifecycle_status (pc_contract p) = LActive.
Proof.
  unfold prepare_contract_call. rewrite and_then_Ok. intros (g & _ & Hp). rewrite or_err_Ok in Hp.
  destruct Hp as ([x c] & _ & Hp). rewrite and_then_Ok in Hp. destruct Hp as (u & Hv%map_err_Ok & [= <-]).
  split_and!; [done..|]. cbn in *. unfold validate_lifecycle_for_execution in Hv. cbn in Hv.
  by destruct (ca_lifecycle_status c).
Qed.

Section stale.
Context `{Crypto} `{Wasm} `{ContractCodec} `{NftCodec} `{HostPrimitives}.
Variable env : GovernanceEnv.
Variable store : StateStore.

(** What a result writes, over all contracts. *)
Definition result_changes (contract : Pubkey) (r : ContractResult) (t : Pubkey) : Changes :=
  default ∅ (cx_pending_ccc_changes (cr_context r) !! t)
  ∪ (if decide (t = contract) then fr_changes (cx_frame (cr_context r)) else ∅).

Lemma apply_result_changes t contract r s s' :
  apply_result contract r s = Ok s' ->
  batch_contract_storage store s' t = apply_changes (result_changes contract r t) (batch_contract_storage store s t).
Proof.
  intros Hr. rewrite (apply_result_storage store t _ _ _ _ Hr). unfold result_changes.
  rewrite apply_changes_union. case_decide; [done|]. by rewrite apply_changes_empty.
Qed.

(** C24.  Calls ignore what the block has written so far.  Take any two states of the batch that
    agree on the storage of the called contract (and on its code).  A call without value then writes
    the same values to every contract in both, with the same return code and compute, however the
    storage of the contracts that it calls differs between them: callees are loaded from the committed
    state, not from the batch.  So after a transfer of tokens through a contract, a second one in the
    same block starts from the committed balances again, and overwrites the first. *)
Theorem calls_ignore_batch budget caller contract function args meta p1 p2 m1 m2 s1 s2 s1' s2' :
  batch_contract_storage store s1 contract = batch_contract_storage store s2 contract ->
  prepare_contract_call env caller contract function args 0 s1 = Ok p1 ->
  prepare_contract_call env caller contract function args 0 s2 = Ok p2 ->
  pc_contract p1 = pc_contract p2 ->
  contract_call_as_caller env store budget caller contract function args 0 meta s1 = (m1, Ok s1') ->
  contract_call_as_caller env store budget caller contract function args 0 meta s2 = (m2, Ok s2') ->
  m1 = m2
  /\ exists changes : Pubkey -> Changes, forall t,
       batch_contract_storage store s1' t = apply_changes (changes t) (batch_contract_storage store s1 t)
       /\ batch_contract_storage store s2' t = apply_changes (changes t) (batch_contract_storage store s2 t).
Proof.
  intros Hst Hp1 Hp2 Hc. unfold contract_call_as_caller. rewrite Hp1, Hp2, <- Hc.
  pose proof (prepare_overlay _ _ _ _ _ _ _ _ Hp1) as Ho1. pose proof (prepare_overlay _ _ _ _ _ _ _ _ Hp2) as Ho2.
  destruct (prepare_idle _ _ _ _ _ _ _ Hp1) as (Hj1 & Hf1 & _). destruct (prepare_idle _ _ _ _ _ _ _ Hp2) as (Hj2 & Hf2 & _).
  assert (forall t p s, cl_overlay (pc_state p) = cl_overlay s ->
    batch_contract_storage store (pc_state p) t = batch_contract_storage store s t) as Hsame.
  { intros t p s Ho. unfold batch_contract_storage. by rewrite Ho. }
  assert (call_context env store budget caller contract args 0 meta p1
          = call_context env store budget caller contract args 0 meta p2) as Hctx.
  { unfold call_context. rewrite Hj1, Hj2, (Hsame _ _ _ Ho1), (Hsame _ _ _ Ho2). by rewrite Hst. }
  rewrite Hctx. destruct (execute store MAX_CROSS_CALL_DEPTH _ _ _ _) as [r|e]; [|done].
  rewrite Hf2, <- Hc, <- Hf1. case_match; [done|]. intros [= <- Hr1] [= <- Hr2]. split; [done|].
  exists (result_changes contract r). intros t. split.
  - by rewrite (apply_result_changes t _ _ _ _ Hr1), (Hsame _ _ _ Ho1).
  - by rewrite (apply_result_changes t _ _ _ _ Hr2), (Hsame _ _ _ Ho2).
Qed.
End stale.

(** ** Native balances of bystanders *)

Section burn.
Context `{Crypto} `{Wasm} `{ContractCodec} `{NftCodec} `{HostPrimitives}.
Variable env : GovernanceEnv.
Variable store : StateStore.
Variable w : Z.
Hypothesis w_small : 0 <= w <= 1000.

Definition burn_args (victim : Pubkey) (amount : Z) : bytes := be_bytes 32 victim ++ le_bytes 8 amount.

(** A contract that locks part of the balance of an account and deducts the lock. *)
Definition burner (args : bytes) : Guest :=
  let native := burn_args (key_at args 0) (u64_at args 32) in
  Host w (CrossContractCall 0 (str_bytes "lock") native 0 1) (fun _ =>
  Host w (CrossContractCall 0 (str_bytes "deduct") native 0 1) (fun _ => Done w (Some 0))).

Lemma burn_args_fields victim amount :
  is_u256 victim -> is_u64 amount ->
  key_at (burn_args victim amount) 0 = victim /\ u64_at (burn_args victim amount) 32 = amount
  /\ zlen (burn_args victim amount) = 40.
Proof.
  intros Hv Ha. unfold burn_args, key_at, u64_at, zlen, is_u256, is_u64 in *.
  rewrite drop_0, take_app_length', drop_app_length', (take_ge (le_bytes 8 amount)) by (by rewrite ?be_bytes_length, ?le_bytes_length).
  unfold be_bytes at 1. rewrite reverse_involutive, !le_value_le_bytes, length_app, be_bytes_length, le_bytes_length.
  rewrite !Z.mod_small; [done|..]; cbn; lia.
Qed.

(** A call of the native program that parses and is queued. *)
Lemma native_call_step ex function args op (c c' : ContractContext) :
  function = str_bytes "lock" \/ function = str_bytes "deduct" ->
  zlen args = 40 -> COMPUTE_CROSS_CALL <= cx_compute_remaining c ->
  parse_native_op function args c = Some op ->
  queue_native_account_op store op (set_cx_compute_remaining (cx_compute_remaining c - COMPUTE_CROSS_CALL) c) = Some c' ->
  host_call store (Some ex) (CrossContractCall 0 function args 0 1) c = ((1, [1]), c').
Proof.
  intros Hf Hl Hc Hp Hq. unfold host_call, host_cross_contract_call.
  rewrite Hl. cbn [negb]. unfold deduct_compute. rewrite (proj2 (Z.ltb_ge _ _) Hc).
  replace (parse_native_op function args c) with
    (parse_native_op function args (set_cx_compute_remaining (cx_compute_remaining c - COMPUTE_CROSS_CALL) c)) in Hp by done.
  destruct Hf as [-> | ->]; cbn [Z.eqb]; unfold handle_native_account_call; rewrite Hl, Hp; cbn [mbind option_bind];
    rewrite Hq; reflexivity.
Qed.

Definition queued (op : NativeAccountOp) (a : Account) (c : ContractContext) : ContractContext :=
  set_cx_pending_native_account_ops (cx_pending_native_account_ops c ++ [op])
    (set_cx_pending_native_account_state (<[op_account op := a]> (cx_pending_native_account_state c)) c).

Lemma lock_queued victim amount a a1 (c : ContractContext) :
  projected_native_account store c victim false = Some a ->
  native_restricted store victim OutgoingTransfer amount (ac_spendable a) c = false ->
  Account_lock amount a = (Ok tt, a1) ->
  queue_native_account_op store (OpLockNative victim amount) c = Some (queued (OpLockNative victim amount) a1 c).
Proof.
  intros Hp Hr Hl. unfold queue_native_account_op. cbn [op_allowed op_account op_apply]. rewrite Hp, Hr. cbn [negb mbind option_bind].
  by rewrite Hl.
Qed.

Lemma deduct_queued victim amount a a1 (c : ContractContext) :
  projected_native_account store c victim false = Some a -> Account_deduct_locked amount a = (Ok tt, a1) ->
  queue_native_account_op store (OpDeductLockedNative victim amount) c = Some (queued (OpDeductLockedNative victim amount) a1 c).
Proof.
  intros Hp Hl. unfold queue_native_account_op. cbn [op_allowed op_account op_apply]. rewrite Hp. cbn [negb mbind option_bind].
  by rewrite Hl.
Qed.

(** The context after the two operations. *)
Definition burnt (victim : Pubkey) (amount : Z) (a1 a2 : Account) (c : ContractContext) : ContractContext :=
  let spent c := set_cx_compute_remaining (cx_compute_remaining c - COMPUTE_CROSS_CALL) c in
  queued (OpDeductLockedNative victim amount) a2 (spent (queued (OpLockNative victim amount) a1 (spent c))).

Lemma burner_runs ex victim amount a a1 a2 points (c : ContractContext) :
  is_u256 victim -> is_u64 amount ->
  projected_native_account store c victim false = Some a ->
  native_restricted store victim OutgoingTransfer amount (ac_spendable a) c = false ->
  Account_lock amount a = (Ok tt, a1) -> Account_deduct_locked amount a1 = (Ok tt, a2) ->
  10000 <= cx_compute_remaining c -> 3 * w <= points ->
  run_guest (host_call store (Some ex)) (burner (burn_args victim amount)) points c
  = (Finished (Some 0), points - w - w - w, burnt victim amount a1 a2 c).
Proof.
  intros Hv Ha Hp Hr Hl Hd Hc Hpts. destruct (burn_args_fields victim amount Hv Ha) as (Hk & Hu & Hz).
  unfold burner. rewrite Hk, Hu. cbn zeta. cbn [run_guest]. rewrite (proj2 (Z.ltb_ge points w)) by lia.
  erewrite native_call_step; [|by left|done|unfold COMPUTE_CROSS_CALL; lia|reflexivity|].
  2: { rewrite Hk, Hu. apply (lock_queued _ _ a a1); done. }
  rewrite (proj2 (Z.ltb_ge (points - w) w)) by lia.
  erewrite native_call_step; [|by right|done|cbn; unfold COMPUTE_CROSS_CALL; lia|reflexivity|].
  2: { rewrite Hk, Hu. apply (deduct_queued _ _ a1 a2); [|done]. unfold projected_native_account. cbn.
       by rewrite lookup_insert_eq. }
  rewrite (proj2 (Z.ltb_ge (points - w - w) w)) by lia. done.
Qed.

Lemma burner_executes levels contract function victim amount a a1 a2 (c : ContractContext) :
  is_u256 victim -> is_u64 amount ->
  ca_lifecycle_status contract = LActive -> wasm_valid (ca_code contract) = true ->
  wasm_export (ca_code contract) function = Some burner ->
  projected_native_account store c victim false = Some a ->
  native_restricted store victim OutgoingTransfer amount (ac_spendable a) c = false ->
  Account_lock amount a = (Ok tt, a1) -> Account_deduct_locked amount a1 = (Ok tt, a2) ->
  20000 <= cx_compute_limit c -> cx_compute_remaining c = Z.min (cx_compute_limit c) DEFAULT_COMPUTE_LIMIT ->
  exists used, execute store (S levels) contract function (burn_args victim amount) c
    = Ok (mkContractResult true (Some 0) used (burnt victim amount a1 a2 (set_cx_args (burn_args victim amount) c))).
Proof.
  intros Hv Ha Hs Hw Hx Hp Hr Hl Hd Hlim Hrem. cbn [execute]. unfold validate_lifecycle_for_execution. rewrite Hs.
  unfold entry_point. rewrite Hw, Hx. cbn [negb and_then].
  assert (1000000 <= wasm_fuel_limit_for_compute_limit (cx_compute_limit c) <= 500000000) as Hfuel.
  { unfold wasm_fuel_limit_for_compute_limit, DEFAULT_COMPUTE_LIMIT, WASM_CU_DIVISOR, sat_mul64, u64_max. lia. }
  unfold DEFAULT_COMPUTE_LIMIT in Hrem.
  rewrite (burner_runs _ victim amount a a1 a2); [|done..|cbn; lia|lia]. cbn -[Z.div Z.sub].
  set (fuel := wasm_fuel_limit_for_compute_limit (cx_compute_limit c)) in *.
  match goal with |- context [cx_compute_limit c <? ?u] => rewrite (proj2 (Z.ltb_ge (cx_compute_limit c) u)) end; [by eexists|].
  assert (sat_sub fuel (fuel - w - w - w) / WASM_CU_DIVISOR <= 60) as Hdiv.
  { apply Z.div_le_upper_bound; unfold sat_sub, WASM_CU_DIVISOR; lia. }
  assert (0 <= sat_sub fuel (fuel - w - w - w) / WASM_CU_DIVISOR) as Hdiv0.
  { apply Z.div_pos; unfold sat_sub, WASM_CU_DIVISOR; lia. }
  unfold sat_add64, sat_sub, COMPUTE_CROSS_CALL in *. lia.
Qed.

(** The two operations on the accounts of a batch. *)
Lemma burn_applies victim amount a s :
  accounts_ok (cl_accounts s) -> cl_accounts s !! victim = Some a -> 0 < amount <= ac_spendable a ->
  exists a1 a2 s', Account_lock amount a = (Ok tt, a1) /\ Account_deduct_locked amount a1 = (Ok tt, a2)
    /\ try_fold apply_native_op s [OpLockNative victim amount; OpDeductLockedNative victim amount] = Ok s'
    /\ moved (cl_accounts s) (cl_accounts s') (- amount) (fun j => if victim =? j then - amount else 0).
Proof.
  intros Hok Hac Hamt. pose proof (Hok victim a Hac) as Ha.
  destruct (op_succeeds OpLock amount a Ha) as [a1 Hlock]; [lia|cbn; lia|].
  pose proof (balance_op_spec OpLock amount a Ha ltac:(lia)) as Hspec. rewrite Hlock in Hspec.
  destruct Hspec as (Ha1 & _ & _ & Hx1). specialize (Hx1 eq_refl).
  destruct (op_succeeds OpDeductLocked amount a1 Ha1) as [a2 Hded]; [lia| |].
  { unfold funded. cbn. pose proof (Hx1 Locked) as Hl. unfold flow in Hl. cbn in Hl. pose proof (awf_locked _ Ha).
    repeat case_decide; done || lia. }
  change (balance_op OpLock amount a) with (Account_lock amount a) in Hlock.
  change (balance_op OpDeductLocked amount a1) with (Account_deduct_locked amount a1) in Hded.
  exists a1, a2. eexists. split; [done|]. split; [done|]. cbn [try_fold]. unfold apply_native_op, update_account.
  cbn [op_account op_apply]. rewrite Hac. cbn [or_err and_then]. rewrite Hlock. cbn [and_then].
  change (cl_accounts (set_cl_accounts ?m s)) with m. rewrite lookup_insert_eq. cbn [or_err]. rewrite Hded.
  cbn [and_then]. split; [reflexivity|]. change (cl_accounts (set_cl_accounts ?m _)) with m.
  pose proof (put_moved OpLock amount (cl_accounts s) victim a1 Hok ltac:(lia)) as Hm1.
  unfold account_or_new in Hm1. rewrite Hac in Hm1. specialize (Hm1 Hlock).
  pose proof (put_moved OpDeductLocked amount _ victim a2 (mv_ok _ _ _ _ Hm1) ltac:(lia)) as Hm2.
  unfold account_or_new in Hm2. rewrite lookup_insert_eq in Hm2. specialize (Hm2 Hded).
  eapply moved_eq; [exact (moved_trans _ _ _ _ _ _ _ Hm1 Hm2)|by rewrite !inflow_of|].
  intros k. rewrite !inflow_of. case_match; lia.
Qed.

Lemma burnt_applies victim amount a1 a2 contract code used (c : ContractContext) s s' :
  cx_pending_ccc_value_deltas c = ∅ -> cx_pending_native_account_ops c = [] -> cx_pending_ccc_changes c = ∅ ->
  fr_changes (cx_frame c) = ∅ ->
  try_fold apply_native_op s [OpLockNative victim amount; OpDeductLockedNative victim amount] = Ok s' ->
  exists s1, apply_result contract (mkContractResult true code used (burnt victim amount a1 a2 c)) s = Ok s1
    /\ cl_accounts s1 = cl_accounts s'.
Proof.
  intros Hd Ho Hp Hf Hops.
  assert (cx_pending_native_account_ops (burnt victim amount a1 a2 c)
          = [OpLockNative victim amount; OpDeductLockedNative victim amount]) as Ho2.
  { unfold burnt, queued. cbn. by rewrite Ho. }
  unfold apply_result. cbn [cr_context]. rewrite Ho2.
  assert (cx_pending_ccc_value_deltas (burnt victim amount a1 a2 c) = ∅) as -> by exact Hd.
  assert (cx_pending_ccc_changes (burnt victim amount a1 a2 c) = ∅) as -> by exact Hp.
  assert (fr_changes (cx_frame (burnt victim amount a1 a2 c)) = ∅) as -> by exact Hf.
  rewrite !map_to_list_empty. change (try_fold apply_delta s []) with (@Ok CallState CallError s). cbn [and_then].
  rewrite Hops. cbn [and_then]. rewrite bool_decide_true by done. eexists. split; reflexivity.
Qed.

(** C26.  Any contract can destroy the coins of any account.  A contract that locks an amount at an
    account and then deducts the lock needs no permission of that account, nor of anyone: called with
    20,000 units of compute by whoever pays the fee, without value, it succeeds, and the victim's
    balance and the coins in existence are less by the amount.  The victim neither signs nor appears in
    the instruction; all it has to be is unrestricted and to have the amount spendable. *)
Theorem any_contract_burns budget caller contract function meta s p victim a amount :
  accounts_ok (cl_accounts s) ->
  prepare_contract_call env caller contract function (burn_args victim amount) 0 s = Ok p ->
  ca_abi (pc_contract p) = None -> wasm_valid (ca_code (pc_contract p)) = true ->
  wasm_export (ca_code (pc_contract p)) function = Some burner ->
  20000 <= sat_sub budget (cm_compute_units meta) ->
  is_u256 victim -> 0 < amount <= ac_spendable a ->
  ss_accounts store !! victim = Some a -> cl_accounts (pc_state p) !! victim = Some a ->
  is_account_restricted (restrictions store) victim OutgoingTransfer (Some NATIVE_LICN_ASSET_ID) amount
    (ac_spendable a) (gn_slot env) = false ->
  exists meta' s',
    contract_call_as_caller env store budget caller contract function (burn_args victim amount) 0 meta s = (meta', Ok s')
    /\ spores_of victim (cl_accounts s') = ac_spores a - amount
    /\ spores_total (cl_accounts s') = spores_total (cl_accounts s) - amount.
Proof.
  intros Hok Hprep Habi Hw Hx Hb Hv Hamt Hst Hac Hr.
  destruct (prepare_moved env caller contract function (burn_args victim amount) 0 s p Hok Hprep) as (ch & [Hok1 Ht1 _] & _).
  destruct (burn_applies victim amount a (pc_state p) Hok1 Hac Hamt) as (a1 & a2 & s' & Hlock & Hded & Hops & [_ Ht Hc]).
  destruct (prepare_idle _ _ _ _ _ _ _ Hprep) as (Hproj & _ & Hlive).
  pose proof (Hok1 victim a Hac) as [? ? ? Hsp Hmx]. unfold contract_call_as_caller. rewrite Hprep.
  set (ctx := call_context env store budget caller contract (burn_args victim amount) 0 meta p).
  assert (projected_native_account store ctx victim false = Some a) as Hpn.
  { unfold projected_native_account. cbn. by rewrite Hproj, lookup_empty, Hst. }
  destruct (burner_executes 7 (pc_contract p) function victim amount a a1 a2 ctx Hv ltac:(split; unfold u64_max in Hmx; lia)
    Hlive Hw Hx Hpn Hr Hlock Hded Hb eq_refl) as [used Hex].
  unfold MAX_CROSS_CALL_DEPTH. rewrite Hex. unfold evaluate_contract_outcome, find_abi_function. rewrite Habi.
  cbn [cr_success negb option_bind cr_return_code Z.eqb andb].
  destruct (burnt_applies victim amount a1 a2 contract (Some 0) used (set_cx_args (burn_args victim amount) ctx) _ _
    eq_refl eq_refl eq_refl eq_refl Hops) as (s1 & Hs1 & Hacc). rewrite Hs1. eexists _, _. split; [reflexivity|]. rewrite Hacc, Hc, Z.eqb_refl. unfold spores_of. rewrite Hac. cbn. lia.
Qed.
End burn.

(** The token makes no calls. *)
Lemma mt20_calls_nothing w memory name f args :
  mt20_exports w memory name = Some f -> calls_in (fun _ => False) (f args).
Proof.
  unfold mt20_exports. intros ((nm & g) & Hin%List.find_some & [= <-])%fmap_Some. destruct Hin as [Hin _].
  repeat (destruct Hin as [[= <- <-]|Hin]; [|]); [..|done].
  all: unfold mt20_initialize, mt20_mint, mt20_burn, mt20_balance_of, mt20_transfer, mt20_approve, mt20_allowance,
    mt20_transfer_from, mt20_total_supply, with_params, Token_initialize, Token_mint, Token_burn, Token_transfer_from, Token_transfer,
    Token_approve, Token_balance_of, Token_allowance, Token_get_total_supply, Token_set_balance, load_u64, load_owner,
    storage_get, storage_set, get_caller, get_contract_address, host_can_send, host_can_receive, host_may_transfer,
    finish, log_info, return_.
  all: repeat (cbv zeta; match goal with
    | |- calls_in _ (Host _ _ _) => constructor; [exact I|intros ?]
    | |- calls_in _ (Done _ _) => constructor
    | |- calls_in _ (Trap _) => constructor
    | |- calls_in _ (if ?b then _ else _) => destruct b
    | |- calls_in _ (match ?x with _ => _ end) => destruct x
    end).
Qed.

Lemma calls_nothing_typed g : calls_in (fun _ => False) g -> typed_guest g.
Proof. induction 1 as [| |n call k Hc _ IH]; constructor; [|done]. by destruct call. Qed.

Lemma calls_in_weaken (P Q : Pubkey -> Prop) g : (forall t, P t -> Q t) -> calls_in P g -> calls_in Q g.
Proof. intros HPQ. induction 1 as [| |n call k Hc _ IH]; constructor; [|done]. destruct call; auto. Qed.

Lemma layout_bytes parts l : encode_layout_args parts = Some l -> Forall (Forall is_byte) parts -> Forall is_byte l.
Proof.
  unfold encode_layout_args. destruct (existsb _ parts) eqn:Hlen; [done|]. intros [= <-] Hp.
  constructor; [done|]. apply Forall_app_2; [|by apply Forall_join]. apply Forall_fmap, Forall_forall. intros x Hx. cbn.
  destruct (Z.ltb_spec 255 (zlen x)) as [Hl|Hl]; [|unfold zlen, is_byte in *; lia].
  exfalso. assert (existsb (fun part : bytes => 255 <? zlen part) parts = true) as Hc; [|congruence].
  apply List.existsb_exists. exists x. split; [by apply list_elem_of_In|]. by apply Z.ltb_lt.
Qed.

(** ** A chain with a token, a vault and a burner *)

Module SampleCalls.
#[local] Instance sample_crypto : Crypto := Toy.crypto.

(** Pays tokens of contract 2 out of its own balance. *)
Definition vault (args : bytes) : Guest :=
  get_contract_address 10 (fun self =>
  call_token_transfer 10 2 self (key_at args 0) (u64_at args 32) (fun r =>
  match r with Some true => Done 10 (Some 0) | _ => Trap 10 end)).

Definition no_memory (_ _ : Z) : bytes := [].
#[local] Instance sample_wasm : Wasm := {|
  wasm_valid := fun _ => true;
  wasm_export := fun code name =>
    if decide (code = [20]) then mt20_exports 10 no_memory name
    else if decide (code = [30]) then Some vault
    else if decide (code = [40]) then Some (burner 10) else None;
|}.
#[local] Instance sample_codec : ContractCodec := {|
  contract_bytes := fun c => Some (ca_code c);
  contract_of_bytes := fun code => Some (ContractAccount_new None code 1);
|}.
#[local] Instance no_nfts : NftCodec := {|
  decode_collection_state := fun _ => None; decode_token_state := fun _ => None; encode_token_state := fun _ => None;
|}.
#[local] Instance sample_primitives : HostPrimitives := {| poseidon_hash_pair := fun l r => l; json_string_map := fun _ => true |}.

Lemma burn_args_bytes victim amount : Forall is_byte (burn_args victim amount).
Proof. apply Forall_app_2; [apply Forall_reverse|]; apply le_bytes_are_bytes. Qed.

#[local] Instance sample_typed : WasmTyped.
Proof.
  split. intros code name f args. unfold wasm_export, sample_wasm.
  destruct (decide (code = [20])); [|destruct (decide (code = [30])); [|destruct (decide (code = [40]))]].
  - intros Hf. exact (calls_nothing_typed _ (mt20_calls_nothing _ _ _ _ _ Hf)).
  - intros [= <-]. unfold vault, get_contract_address, call_token_transfer, call_contract.
    apply typed_host; [exact I|]. intros a.
    match goal with |- typed_guest (match ?x with _ => _ end) => destruct x as [l|] eqn:Hl end; [|constructor].
    apply typed_host; [|intros b; repeat case_match; constructor]. split; [|done].
    apply (layout_bytes _ _ Hl). rewrite !Forall_cons. unfold be_bytes. rewrite !Forall_reverse. auto using le_bytes_are_bytes.
  - intros [= <-]. apply typed_host; [split; [apply burn_args_bytes|done]|]. intros a.
    apply typed_host; [split; [apply burn_args_bytes|done]|]. constructor.
  - done.
Qed.

Definition plain (spores : Z) (data : bytes) : Account :=
  mkAccount spores spores 0 0 data None 1 (negb (bool_decide (data = []))) 0 false 0.
Definition accounts : gmap Pubkey Account :=
  {[2 := plain 0 [20]; 3 := plain 50 [30]; 4 := plain 0 [40]; 5 := plain 900 []; 6 := plain 1000 []]}.
Definition token_storage : Storage :=
  {[balance_key TOKEN_PREFIX 3 := u64_to_bytes 100; supply_key TOKEN_PREFIX := u64_to_bytes 100]}.
Definition store : StateStore :=
  mkStateStore accounts {[2 := token_storage]} empty_db 1950 (fun _ => None).
Definition env : GovernanceEnv :=
  mkGovernanceEnv (mkGovEnv ∅ 10 None None None) None None None None None None None (fun _ => None) (fun _ => None).
Definition s0 : CallState :=
  mkCallState (mkGovernanceState (mkGovernedState accounts ∅ 0 ∅ ∅) ∅ 0
    (begin_batch empty_db) FeeConfig_default_from_constants ∅ None None []) ∅ [] [].

Definition pay : bytes := str_bytes "pay".
Definition call (contract : Pubkey) (args : bytes) (value : Z) (s : CallState) : ContractMeta * result CallState CallError :=
  contract_call_as_caller env store 200000 6 contract pay args value no_meta s.
Definition state_of (r : ContractMeta * result CallState CallError) : CallState := default s0 (match r.2 with Ok s => Some s | Err _ => None end).
Definition paid : CallState := state_of (call 3 (burn_args 7 100) 0 s0).
Definition paid_twice : CallState := state_of (call 3 (burn_args 8 100) 0 paid).
Definition tokens (k : Pubkey) (s : CallState) : Z :=
  from_option bytes_to_u64 0 (batch_contract_storage store s 2 !! balance_key TOKEN_PREFIX k).
Definition burned : CallState := state_of (call 4 (burn_args 5 300) 0 s0).

Definition account_with (code : bytes) : ContractAccount := ContractAccount_new None code 1.

Lemma accounts_fine : accounts_ok accounts.
Proof. apply map_Forall_to_list. vm_compute. repeat constructor; cbn; try done; lia. Qed.

Lemma state_of_ok r : is_ok r.2 = true -> r = (r.1, Ok (state_of r)).
Proof. destruct r as [m [s|e]]; done. Qed.

(** The contract of a prepared call. *)
Definition prepared_contract (contract : Pubkey) (args : bytes) (s : CallState) : option ContractAccount :=
  match prepare_contract_call env 6 contract pay args 0 s with Ok p => Some (pc_contract p) | Err _ => None end.
Lemma prepared_ok contract args s c : prepared_contract contract args s = Some c ->
  exists p, prepare_contract_call env 6 contract pay args 0 s = Ok p /\ pc_contract p = c.
Proof.
  unfold prepared_contract. destruct (prepare_contract_call _ _ _ _ _ _ _) as [p|e]; [|done].
  intros [= <-]. by exists p.
Qed.

Lemma vault_prepared s : s = s0 \/ s = paid -> exists p, prepare_contract_call env 6 3 pay (burn_args 8 100) 0 s = Ok p
  /\ pc_contract p = account_with [30].
Proof. intros [-> | ->]; apply prepared_ok; vm_compute; reflexivity. Qed.

Lemma vault_pays s : s = s0 \/ s = paid ->
  call 3 (burn_args 8 100) 0 s = ((call 3 (burn_args 8 100) 0 s).1, Ok (state_of (call 3 (burn_args 8 100) 0 s))).
Proof. intros [-> | ->]; apply state_of_ok; vm_compute; reflexivity. Qed.

Lemma same_vault : batch_contract_storage store s0 3 = batch_contract_storage store paid 3.
Proof. vm_compute. reflexivity. Qed.

Lemma balances : tokens 3 s0 = 100 /\ tokens 7 paid_twice = 100 /\ tokens 8 paid_twice = 100.
Proof. split_and!; vm_compute; reflexivity. Qed.

Lemma first_payment :
  call 3 (burn_args 7 100) 0 s0 = ((call 3 (burn_args 7 100) 0 s0).1, Ok paid)
  /\ cm_return_code (call 3 (burn_args 7 100) 0 s0).1 = Some 0 /\ tokens 7 paid = 100.
Proof. split; [apply state_of_ok|split]; vm_compute; reflexivity. Qed.

Lemma calls_ignore_batch_witness :
  tokens 3 s0 = 100 /\ tokens 7 paid_twice = 100 /\ tokens 8 paid_twice = 100
  /\ exists changes : Pubkey -> Changes, forall t,
       batch_contract_storage store (state_of (call 3 (burn_args 8 100) 0 s0)) t
       = apply_changes (changes t) (batch_contract_storage store s0 t)
       /\ batch_contract_storage store paid_twice t = apply_changes (changes t) (batch_contract_storage store paid t).
Proof.
  split; [exact (proj1 balances)|]. split; [exact (proj1 (proj2 balances))|]. split; [exact (proj2 (proj2 balances))|].
  destruct (vault_prepared s0) as (p1 & Hp1 & Hc1); [by left|]. destruct (vault_prepared paid) as (p2 & Hp2 & Hc2); [by right|].
  exact (proj2 (calls_ignore_batch env store 200000 6 3 pay (burn_args 8 100) no_meta p1 p2 _ _ s0 paid _ _
    same_vault Hp1 Hp2 (eq_trans Hc1 (eq_sym Hc2)) (vault_pays s0 (or_introl eq_refl)) (vault_pays paid (or_intror eq_refl)))).
Defined.

Lemma any_contract_burns_witness :
  spores_of 5 accounts = 900 /\ exists meta' s', call 4 (burn_args 5 300) 0 s0 = (meta', Ok s')
    /\ spores_of 5 (cl_accounts s') = 900 - 300 /\ spores_total (cl_accounts s') = spores_total accounts - 300.
Proof.
  split; [reflexivity|].
  assert (exists p, prepare_contract_call env 6 4 pay (burn_args 5 300) 0 s0 = Ok p
    /\ pc_contract p = account_with [40] /\ cl_accounts (pc_state p) !! 5 = Some (plain 900 [])) as (p & Hp & Hc & Ha)
    by (eexists; split_and!; vm_compute; reflexivity).
  apply (any_contract_burns env store 10 ltac:(lia) 200000 6 4 pay no_meta s0 p 5 (plain 900 []) 300);
    [exact accounts_fine|exact Hp|rewrite ?Hc..|done| |done|exact Ha|]; try done; cbn; lia.
Defined.

Lemma contract_call_conserves_witness :
  exists s', (call 4 (burn_args 5 300) 70 s0).2 = Ok s' /\ spores_total accounts = 1950
    /\ spores_total (cl_accounts s') = 1650 /\ spores_of 6 (cl_accounts s') = 930 /\ accounts_ok (cl_accounts s').
Proof.
  exists (state_of (call 4 (burn_args 5 300) 70 s0)). do 4 (split; [vm_compute; reflexivity|]).
  assert (call 4 (burn_args 5 300) 70 s0
    = ((call 4 (burn_args 5 300) 70 s0).1, Ok (state_of (call 4 (burn_args 5 300) 70 s0)))) as Hc by (vm_compute; reflexivity).
  destruct (contract_call_conserves env store 200000 6 4 pay (burn_args 5 300) 70 no_meta _ s0 _ accounts_fine Hc)
    as (p & r & _ & _ & Hok & _). exact Hok.
Defined.

(** The vault is above the token. *)
Definition rank (t : Pubkey) : nat := if t =? 3 then 1 else 0.

Lemma sample_below t code : (code = [30] -> t = 3) -> below rank t code.
Proof.
  intros Ht name f args. unfold wasm_export, sample_wasm.
  destruct (decide (code = [20])); [|destruct (decide (code = [30])); [|destruct (decide (code = [40]))]].
  - intros Hf. apply (calls_in_weaken (fun _ => False)); [done|]. exact (mt20_calls_nothing _ _ _ _ _ Hf).
  - intros [= <-]. unfold vault, get_contract_address, call_token_transfer, call_contract.
    apply calls_host; [exact I|]. intros a.
    match goal with |- calls_in _ (match ?x with _ => _ end) => destruct x end; [|constructor].
    apply calls_host; [|intros b; repeat case_match; constructor]. rewrite Ht by done. right. vm_compute. lia.
  - intros [= <-]. apply calls_host; [by left|]. intros a. apply calls_host; [by left|]. constructor.
  - done.
Qed.

End SampleCalls.
