(* ===== verification/Swap.v ===== *)
(** * The LichenSwap exchange contract

    Models the liquidity pool of the contract SDK ([sdk/src/dex.rs]), token transfers of contracts
    ([sdk/src/crosscall.rs]) and the exchange built on them ([contracts/lichenswap/src/lib.rs]).

    As in [Token], the functions are guests of the runtime in continuation-passing style.  Exports
    are functions of their parameters; the output pointers of [remove_liquidity] and [get_reserves]
    only write the guest's own memory. *)

From S2P Require Import Prelude Crypto Block Account Transactions Fees Rent Transfers Restrictions Governed.
From S2P Require Import GovernanceActions Governance Processor Runtime ContractCalls Token.
From stdpp Require Import base tactics numbers list gmap strings.
From Stdlib Require Import ZArith Lia.

Local Open Scope Z_scope.
Local Open Scope rust_scope.

(** ** The pool *)

Record Pool := mkPool {
  pl_token_a : Pubkey;
  pl_token_b : Pubkey;
  pl_reserve_a : Z;
  pl_reserve_b : Z;
  pl_total_liquidity : Z;
  pl_fee_numerator : Z;
  pl_fee_denominator : Z;
}.

Definition eta_Pool (p : Pool) : Pool :=
  mkPool (pl_token_a p) (pl_token_b p) (pl_reserve_a p) (pl_reserve_b p) (pl_total_liquidity p)
    (pl_fee_numerator p) (pl_fee_denominator p).
Definition set_pl_reserve_a : Z -> Pool -> Pool := ltac:(setter eta_Pool pl_reserve_a).
Definition set_pl_reserve_b : Z -> Pool -> Pool := ltac:(setter eta_Pool pl_reserve_b).
Definition set_pl_total_liquidity : Z -> Pool -> Pool := ltac:(setter eta_Pool pl_total_liquidity).

Definition Pool_new (token_a token_b : Pubkey) : Pool := mkPool token_a token_b 0 0 0 3 1000.

(** [while y < z { z = y; y = (x / y + y) / 2 }]: [z] decreases, from at most [x]. *)
Definition sqrt_done (zy : Z * Z) : bool := negb (zy.2 <? zy.1).
Definition sqrt_step (x : Z) (zy : Z * Z) : Z * Z := (zy.2, wrap128 (x / zy.2 + zy.2) / 2).
Definition Pool_sqrt (x : Z) : Z :=
  if x =? 0 then 0
  else wrap64 (iter_until sqrt_done (sqrt_step x) (2 ^ 128) (x, x / 2 + x mod 2)).1.

(** [a * b / c], of 64-bit numbers in 128 bits, narrowed to 64. *)
Definition mul_div64 (a b c : Z) : Z := wrap64 (a * b / c).

(** The liquidity that a deposit mints. *)
Definition minted_liquidity (p : Pool) (amount_a amount_b min_liquidity : Z) : result Z ContractError :=
  if (amount_a =? 0) || (amount_b =? 0) then Err InvalidInput
  else if pl_total_liquidity p =? 0 then
    let liquidity := Pool_sqrt (amount_a * amount_b) in
    if liquidity <? min_liquidity then Err (Custom "Insufficient liquidity minted") else Ok liquidity
  else if (pl_reserve_a p =? 0) || (pl_reserve_b p =? 0) then Err StorageError
  else
    let liquidity_a := mul_div64 amount_a (pl_total_liquidity p) (pl_reserve_a p) in
    let liquidity_b := mul_div64 amount_b (pl_total_liquidity p) (pl_reserve_b p) in
    let liquidity := if liquidity_a <? liquidity_b then liquidity_a else liquidity_b in
    if liquidity <? min_liquidity then Err (Custom "Insufficient liquidity minted") else Ok liquidity.

(** The constant-product output of [amount_in].  [numerator] wraps when both reserves are near
    the end of their range. *)
Definition swap_output (p : Pool) (amount_in reserve_in reserve_out : Z) : option Z :=
  let amount_in_with_fee := amount_in * (pl_fee_denominator p - pl_fee_numerator p) in
  let numerator := wrap128 (amount_in_with_fee * reserve_out) in
  let denominator := wrap128 (reserve_in * pl_fee_denominator p + amount_in_with_fee) in
  if denominator =? 0 then None else Some (wrap64 (numerator / denominator)).

(** The two directions of a swap, on the reserves. *)
Definition swap_reserves (p : Pool) (amount_in min_out reserve_in reserve_out : Z)
  : result (Z * Z * Z) ContractError :=
  if amount_in =? 0 then Err InvalidInput
  else if (pl_fee_denominator p =? 0) || (pl_fee_denominator p <=? pl_fee_numerator p) then Err StorageError
  else
    or_err (swap_output p amount_in reserve_in reserve_out) StorageError (fun amount_out =>
    if amount_out <? min_out then Err (Custom "Insufficient output amount")
    else if reserve_out <=? amount_out then Err (Custom "Insufficient liquidity")
    else
      or_err (checked_add64 reserve_in amount_in) Overflow (fun reserve_in =>
      Ok (amount_out, reserve_in, reserve_out - amount_out))).

Definition Pool_get_amount_out (p : Pool) (amount_in reserve_in reserve_out : Z) : Z :=
  if (amount_in =? 0) || (reserve_in =? 0) || (reserve_out =? 0) || (pl_fee_denominator p =? 0)
     || (pl_fee_denominator p <=? pl_fee_numerator p) then 0
  else default 0 (swap_output p amount_in reserve_in reserve_out).

Definition liquidity_key (provider : Pubkey) : bytes := str_bytes "liquidity:" ++ be_bytes 32 provider.

Section sdk.
Variable w : Z.

Definition get_timestamp (k : Z -> Guest) : Guest := Host w GetTimestamp (fun a => k a.1).
Definition get_value (k : Z -> Guest) : Guest := Host w GetValue (fun a => k a.1).
Definition set_return_data (data : bytes) (k : Guest) : Guest := Host w (SetReturnData data) (fun _ => k).

(** A stored number, with what stands for none. *)
Definition stored_u64 (o : option bytes) : Z := match o with Some b => bytes_to_u64 b | None => 0 end.

Definition Pool_save (p : Pool) (k : Guest) : Guest :=
  storage_set w (str_bytes "token_a") (be_bytes 32 (pl_token_a p))
  (storage_set w (str_bytes "token_b") (be_bytes 32 (pl_token_b p))
  (storage_set w (str_bytes "reserve_a") (u64_to_bytes (pl_reserve_a p))
  (storage_set w (str_bytes "reserve_b") (u64_to_bytes (pl_reserve_b p))
  (storage_set w (str_bytes "total_liquidity") (u64_to_bytes (pl_total_liquidity p)) k)))).

Definition address_or (old : Pubkey) (o : option bytes) : Pubkey :=
  match o with Some l => if zlen l =? 32 then le_value (reverse l) else old | None => old end.

Definition Pool_load (p : Pool) (k : Pool -> Guest) : Guest :=
  storage_get w (str_bytes "token_a") (fun ta =>
  storage_get w (str_bytes "token_b") (fun tb =>
  storage_get w (str_bytes "reserve_a") (fun ra =>
  storage_get w (str_bytes "reserve_b") (fun rb =>
  storage_get w (str_bytes "total_liquidity") (fun tl =>
  k (mkPool (address_or (pl_token_a p) ta) (address_or (pl_token_b p) tb) (stored_u64 ra) (stored_u64 rb)
       (stored_u64 tl) (pl_fee_numerator p) (pl_fee_denominator p))))))).

Definition Pool_get_liquidity_balance (provider : Pubkey) (k : Z -> Guest) : Guest :=
  storage_get w (liquidity_key provider) (fun o => k (stored_u64 o)).
Definition Pool_set_liquidity_balance (provider : Pubkey) (balance : Z) (k : Guest) : Guest :=
  storage_set w (liquidity_key provider) (u64_to_bytes balance) k.

Definition Pool_initialize (token_a token_b : Pubkey) (p : Pool) (k : Guest) : Guest :=
  Pool_save (mkPool token_a token_b 0 0 0 (pl_fee_numerator p) (pl_fee_denominator p)) k.

Definition Pool_add_liquidity (p : Pool) (provider : Pubkey) (amount_a amount_b min_liquidity : Z)
  (k : result Z ContractError -> Guest) : Guest :=
  match minted_liquidity p amount_a amount_b min_liquidity with
  | Err e => k (Err e)
  | Ok liquidity =>
      match checked_add64 (pl_reserve_a p) amount_a, checked_add64 (pl_reserve_b p) amount_b,
            checked_add64 (pl_total_liquidity p) liquidity with
      | Some reserve_a, Some reserve_b, Some total_liquidity =>
          Pool_get_liquidity_balance provider (fun current_balance =>
          match checked_add64 current_balance liquidity with
          | None => k (Err Overflow)
          | Some provider_balance =>
              Pool_set_liquidity_balance provider provider_balance
                (Pool_save (set_pl_total_liquidity total_liquidity
                              (set_pl_reserve_b reserve_b (set_pl_reserve_a reserve_a p)))
                   (k (Ok liquidity)))
          end)
      | _, _, _ => k (Err Overflow)
      end
  end.

Definition Pool_remove_liquidity (p : Pool) (provider : Pubkey) (liquidity min_amount_a min_amount_b : Z)
  (k : result (Z * Z) ContractError -> Guest) : Guest :=
  if liquidity =? 0 then k (Err InvalidInput)
  else if pl_total_liquidity p =? 0 then k (Err (Custom "Pool has no liquidity"))
  else
    Pool_get_liquidity_balance provider (fun provider_balance =>
    if provider_balance <? liquidity then k (Err InsufficientFunds)
    else
      let amount_a := mul_div64 liquidity (pl_reserve_a p) (pl_total_liquidity p) in
      let amount_b := mul_div64 liquidity (pl_reserve_b p) (pl_total_liquidity p) in
      if (amount_a <? min_amount_a) || (amount_b <? min_amount_b) then k (Err (Custom "Insufficient output amount"))
      else
        let p := set_pl_total_liquidity (wrap64 (pl_total_liquidity p - liquidity))
                   (set_pl_reserve_b (wrap64 (pl_reserve_b p - amount_b))
                      (set_pl_reserve_a (wrap64 (pl_reserve_a p - amount_a)) p)) in
        Pool_set_liquidity_balance provider (provider_balance - liquidity)
          (Pool_save p (k (Ok (amount_a, amount_b))))).

Definition Pool_swap_a_for_b (p : Pool) (amount_a_in min_amount_b_out : Z) (k : result Z ContractError -> Guest) : Guest :=
  match swap_reserves p amount_a_in min_amount_b_out (pl_reserve_a p) (pl_reserve_b p) with
  | Err e => k (Err e)
  | Ok (amount_b_out, reserve_a, reserve_b) =>
      Pool_save (set_pl_reserve_b reserve_b (set_pl_reserve_a reserve_a p)) (k (Ok amount_b_out))
  end.

Definition Pool_swap_b_for_a (p : Pool) (amount_b_in min_amount_a_out : Z) (k : result Z ContractError -> Guest) : Guest :=
  match swap_reserves p amount_b_in min_amount_a_out (pl_reserve_b p) (pl_reserve_a p) with
  | Err e => k (Err e)
  | Ok (amount_a_out, reserve_b, reserve_a) =>
      Pool_save (set_pl_reserve_a reserve_a (set_pl_reserve_b reserve_b p)) (k (Ok amount_a_out))
  end.

(** ** Tokens and native coins *)

Definition is_native_token (token : Pubkey) : bool := token =? 0.

Definition decode_native_success_status (r : bytes) : option bool :=
  match r with
  | [] => None
  | b :: _ => if 4 <=? zlen r then Some ((le_value (take 4 r) =? 0) || (le_value (take 4 r) =? 1)) else Some (b =? 1)
  end.

Definition transfer_native (to : Pubkey) (amount : Z) (k : option bool -> Guest) : Guest :=
  call_contract w 0 "transfer" (be_bytes 32 to ++ le_bytes 8 amount) 0
    (fun r => k (option_bind _ _ decode_native_success_status r)).

Definition call_token_transfer_from (token caller from to : Pubkey) (amount : Z) (k : option bool -> Guest) : Guest :=
  match encode_layout_args [be_bytes 32 caller; be_bytes 32 from; be_bytes 32 to; le_bytes 8 amount] with
  | None => k None
  | Some args =>
      call_contract w token "transfer_from" args 0 (fun r => k (option_bind _ _ decode_zero_success_return_code r))
  end.

Definition native_balance_of (account : Pubkey) (k : option Z -> Guest) : Guest :=
  call_contract w 0 "balance_of" (be_bytes 32 account) 0 (fun r =>
    k (match r with Some l => if 8 <=? zlen l then Some (le_value (take 8 l)) else Some 0 | None => None end)).

Definition call_token_balance (token account : Pubkey) (k : option Z -> Guest) : Guest :=
  match encode_layout_args [be_bytes 32 account] with
  | None => k None
  | Some args =>
      call_contract w token "balance_of" args 0 (fun r =>
        k (match r with Some l => if 8 <=? zlen l then Some (le_value (take 8 l)) else None | None => None end))
  end.

Definition transfer_token_or_native (token from to : Pubkey) (amount : Z) (k : option bool -> Guest) : Guest :=
  if is_native_token token then transfer_native to amount k else call_token_transfer w token from to amount k.
Definition balance_of_token_or_native (token account : Pubkey) (k : option Z -> Guest) : Guest :=
  if is_native_token token then native_balance_of account k else call_token_balance token account k.
Definition receive_token_or_native (token from to : Pubkey) (amount : Z) (k : option bool -> Guest) : Guest :=
  if is_native_token token then get_value (fun received => k (if amount <=? received then Some true else None))
  else call_token_transfer_from token to from to amount k.
End sdk.

(** ** The contract *)

Module LichenSwap.
Definition MAX_PRICE_IMPACT_BPS : Z := 500.
Definition DEFAULT_PROTOCOL_FEE_SHARE : Z := 1667.
Definition MAX_FLASH_LOAN_PERCENT : Z := 90.
Definition MAX_FLASH_CALLBACK_DATA_LEN : Z := 128.
Definition FLASH_LOAN_FEE_BPS : Z := 9.

Definition TWAP_CUMULATIVE_A_KEY : bytes := str_bytes "twap_cum_a".
Definition TWAP_CUMULATIVE_B_KEY : bytes := str_bytes "twap_cum_b".
Definition TWAP_LAST_UPDATE_KEY : bytes := str_bytes "twap_last_update".
Definition TWAP_LAST_RESERVE_A_KEY : bytes := str_bytes "twap_last_ra".
Definition TWAP_LAST_RESERVE_B_KEY : bytes := str_bytes "twap_last_rb".
Definition TWAP_SNAPSHOT_COUNT_KEY : bytes := str_bytes "twap_snap_count".
Definition PROTOCOL_TREASURY_KEY : bytes := str_bytes "protocol_treasury".
Definition PROTOCOL_FEE_SHARE_KEY : bytes := str_bytes "protocol_fee_share".
Definition PROTOCOL_FEES_A_KEY : bytes := str_bytes "protocol_fees_a".
Definition PROTOCOL_FEES_B_KEY : bytes := str_bytes "protocol_fees_b".
Definition REENTRANCY_KEY : bytes := str_bytes "_reentrancy".
Definition MS_PAUSE_KEY : bytes := str_bytes "ms_paused".
Definition MS_ADMIN_KEY : bytes := str_bytes "ms_admin".
Definition MS_SWAP_COUNT_KEY : bytes := str_bytes "ms_swap_count".
Definition MS_VOLUME_A_KEY : bytes := str_bytes "ms_volume_a".
Definition MS_VOLUME_B_KEY : bytes := str_bytes "ms_volume_b".
Definition FL_ACTIVE_KEY : bytes := str_bytes "_fl_active".
Definition FL_TOKEN_IS_A_KEY : bytes := str_bytes "_fl_is_a".
Definition FL_AMOUNT_KEY : bytes := str_bytes "_fl_amount".
Definition FL_FEE_KEY : bytes := str_bytes "_fl_fee".
Definition IDENTITY_ADMIN_KEY : bytes := str_bytes "identity_admin".
Definition LICHENID_ADDR_KEY : bytes := str_bytes "lichenid_address".
Definition LICHENID_DISCOUNT_THRESHOLD_KEY : bytes := str_bytes "lichenid_disc_threshold".
Definition LICHENID_DISCOUNT_BPS_KEY : bytes := str_bytes "lichenid_disc_bps".

(** [v.first().copied() == Some(1)] *)
Definition flag_set (o : option bytes) : bool := match o with Some (b :: _) => b =? 1 | _ => false end.
(** [if d.len() >= 8 { bytes_to_u64(&d) } else { 0 }] *)
Definition long_u64 (o : option bytes) : Z := match o with Some b => if 8 <=? zlen b then bytes_to_u64 b else 0 | None => 0 end.

Definition check_price_impact (reserve_in reserve_out amount_in : Z) : bool :=
  if (reserve_in =? 0) || (reserve_out =? 0) || (amount_in =? 0) then false
  else amount_in * 10000 / (reserve_in + amount_in) <=? MAX_PRICE_IMPACT_BPS.

Definition get_flash_loan_fee (amount : Z) : Z :=
  let fee := wrap64 ((amount * FLASH_LOAN_FEE_BPS + 9999) / 10000) in if fee =? 0 then 1 else fee.

Definition required_native_input (token_a : Pubkey) (amount_a : Z) (token_b : Pubkey) (amount_b : Z) : option Z :=
  (if is_native_token token_a then checked_add64 0 amount_a else Some 0) ≫= fun required =>
  if is_native_token token_b then checked_add64 required amount_b else Some required.

Section contract.
Variable w : Z.

Definition return_code (code : Z) : Guest := Done w (Some (as_i64 code)).
Definition return_nothing : Guest := Done w None.

Definition is_ms_paused (k : bool -> Guest) : Guest := storage_get w MS_PAUSE_KEY (fun o => k (flag_set o)).
Definition is_ms_admin (caller : Pubkey) (k : bool -> Guest) : Guest :=
  storage_get w MS_ADMIN_KEY (fun o => k (bool_decide (o = Some (be_bytes 32 caller)))).

Definition reentrancy_enter (k : bool -> Guest) : Guest :=
  storage_get w REENTRANCY_KEY (fun o => if flag_set o then k false else storage_set w REENTRANCY_KEY [1] (k true)).
Definition reentrancy_exit (k : Guest) : Guest := storage_set w REENTRANCY_KEY [0] k.

Definition transfer_out (token to : Pubkey) (amount : Z) (k : Z -> Guest) : Guest :=
  get_contract_address w (fun self =>
  transfer_token_or_native w token self to amount (fun r => k (match r with Some true => 0 | _ => 31 end))).

Definition pull_non_native_input (token payer : Pubkey) (amount : Z) (k : bool -> Guest) : Guest :=
  get_contract_address w (fun self => receive_token_or_native w token payer self amount (fun r => k (default false r))).

Definition load_pool (k : option Pool -> Guest) : Guest :=
  storage_get w (str_bytes "token_a") (fun a =>
  match a with
  | Some token_a =>
      if negb (zlen token_a =? 32) then k None
      else
        storage_get w (str_bytes "token_b") (fun b =>
        match b with
        | Some token_b =>
            if negb (zlen token_b =? 32) then k None
            else if bool_decide (token_a = token_b)
                    || (forallb (fun byte => byte =? 0) token_a && forallb (fun byte => byte =? 0) token_b)
            then log_info w "LichenSwap pool token configuration is invalid" (k None)
            else Pool_load w (Pool_new 0 0) (fun p => k (Some p))
        | None => k None
        end)
  | None => k None
  end).

(** *** Prices over time *)

Definition twap_snapshot (now : Z) (k : Guest) : Guest :=
  load_pool (fun o =>
  match o with
  | None => k
  | Some pool =>
      storage_set w TWAP_LAST_UPDATE_KEY (u64_to_bytes now)
      (storage_set w TWAP_LAST_RESERVE_A_KEY (u64_to_bytes (pl_reserve_a pool))
      (storage_set w TWAP_LAST_RESERVE_B_KEY (u64_to_bytes (pl_reserve_b pool))
      (storage_get w TWAP_SNAPSHOT_COUNT_KEY (fun count =>
       storage_set w TWAP_SNAPSHOT_COUNT_KEY (u64_to_bytes (sat_add64 (stored_u64 count) 1)) k))))
  end).

(** [cum + price * elapsed] in 128 bits, narrowed to 64. *)
Definition cumulate (cum price elapsed : Z) : Z := wrap64 (wrap128 (cum + wrap128 (price * elapsed))).

Definition twap_update (k : Guest) : Guest :=
  get_timestamp w (fun now =>
  storage_get w TWAP_LAST_UPDATE_KEY (fun last =>
  let last_update := stored_u64 last in
  if last_update =? 0 then
    load_pool (fun o =>
    match o with
    | None => k
    | Some pool =>
        storage_set w TWAP_LAST_UPDATE_KEY (u64_to_bytes now)
        (storage_set w TWAP_LAST_RESERVE_A_KEY (u64_to_bytes (pl_reserve_a pool))
        (storage_set w TWAP_LAST_RESERVE_B_KEY (u64_to_bytes (pl_reserve_b pool))
        (storage_set w TWAP_CUMULATIVE_A_KEY (u64_to_bytes 0)
        (storage_set w TWAP_CUMULATIVE_B_KEY (u64_to_bytes 0) k))))
    end)
  else
    let elapsed := sat_sub now last_update in
    if elapsed =? 0 then k
    else
      storage_get w TWAP_LAST_RESERVE_A_KEY (fun ra =>
      storage_get w TWAP_LAST_RESERVE_B_KEY (fun rb =>
      let last_ra := stored_u64 ra in
      let last_rb := stored_u64 rb in
      if (0 <? last_ra) && (0 <? last_rb) then
        storage_get w TWAP_CUMULATIVE_A_KEY (fun cum_a =>
        storage_get w TWAP_CUMULATIVE_B_KEY (fun cum_b =>
        storage_set w TWAP_CUMULATIVE_A_KEY
          (u64_to_bytes (cumulate (stored_u64 cum_a) (Z.shiftl last_rb 32 / last_ra) elapsed))
        (storage_set w TWAP_CUMULATIVE_B_KEY
          (u64_to_bytes (cumulate (stored_u64 cum_b) (Z.shiftl last_ra 32 / last_rb) elapsed))
        (twap_snapshot now k))))
      else twap_snapshot now k)))).

(** *** Fees *)

Definition accrue_protocol_fee (amount_out : Z) (is_token_a : bool) (k : Z -> Guest) : Guest :=
  storage_get w PROTOCOL_FEE_SHARE_KEY (fun o =>
  let fee_share := match o with Some b => bytes_to_u64 b | None => DEFAULT_PROTOCOL_FEE_SHARE end in
  if fee_share =? 0 then k amount_out
  else
    let protocol_cut := mul_div64 amount_out fee_share 10000000 in
    if protocol_cut =? 0 then k amount_out
    else
      let fee_key := if is_token_a then PROTOCOL_FEES_A_KEY else PROTOCOL_FEES_B_KEY in
      storage_get w fee_key (fun accrued =>
      storage_set w fee_key (u64_to_bytes (sat_add64 (stored_u64 accrued) protocol_cut))
        (k (sat_sub amount_out protocol_cut)))).

Definition get_reputation_bonus (amount_out : Z) (k : Z -> Guest) : Guest :=
  storage_get w LICHENID_DISCOUNT_THRESHOLD_KEY (fun t =>
  let threshold := long_u64 t in
  if threshold =? 0 then k 0
  else
    storage_get w LICHENID_DISCOUNT_BPS_KEY (fun d =>
    let discount_bps := long_u64 d in
    if discount_bps =? 0 then k 0
    else
      storage_get w LICHENID_ADDR_KEY (fun o =>
      match o with
      | Some addr =>
          if zlen addr <? 32 then k 0
          else
            get_caller w (fun caller =>
            call_contract w (le_value (reverse (take 32 addr))) "get_reputation" (be_bytes 32 caller) 0 (fun r =>
            match r with
            | Some result =>
                if zlen result <? 8 then k 0
                else if threshold <=? bytes_to_u64 result then k (mul_div64 amount_out discount_bps 10000)
                else k 0
            | None => k 0
            end))
      | None => k 0
      end))).

(** The output with the discount, which accrued protocol fees pay. *)
Definition with_bonus (fee_key : bytes) (amount_out : Z) (k : Z -> Guest) : Guest :=
  get_reputation_bonus amount_out (fun bonus =>
  if 0 <? bonus then
    storage_get w fee_key (fun o =>
    let accrued := stored_u64 o in
    if bonus <=? accrued then
      storage_set w fee_key (u64_to_bytes (accrued - bonus))
        (log_info w "Reputation fee discount applied from protocol fees"
           (k (default amount_out (checked_add64 amount_out bonus))))
    else k amount_out)
  else k amount_out).

(** *** Liquidity *)

Definition initialize (token_a token_b : Pubkey) : Guest :=
  storage_get w (str_bytes "token_a") (fun o =>
  if is_some o then log_info w "LichenSwap pool already initialized — ignoring" return_nothing
  else if token_a =? token_b then log_info w "LichenSwap pool requires two distinct token addresses" return_nothing
  else
    Pool_initialize w token_a token_b (Pool_new token_a token_b)
      (get_caller w (fun caller =>
       storage_set w MS_ADMIN_KEY (be_bytes 32 caller)
         (log_info w "LichenSwap liquidity pool initialized" return_nothing)))).

(** [reentrancy_exit(); return code] *)
Definition exit_with (code : Z) : Guest := reentrancy_exit (return_code code).

(** [if !token_is_native(token) && !pull_non_native_input(token, payer, amount) { fail }] *)
Definition pull_unless_native (token payer : Pubkey) (amount : Z) (message : string) (k : Guest) : Guest :=
  if is_native_token token then k
  else pull_non_native_input token payer amount (fun ok => if ok : bool then k else log_info w message (exit_with 0)).

Definition add_liquidity (provider : Pubkey) (amount_a amount_b min_liquidity : Z) : Guest :=
  is_ms_paused (fun paused =>
  if paused : bool then log_info w "LichenSwap is paused" (return_code 0)
  else
    reentrancy_enter (fun entered =>
    if negb entered then return_code 0
    else
      get_caller w (fun real_caller =>
      if negb (real_caller =? provider) then exit_with 0
      else
        load_pool (fun o =>
        match o with
        | None => exit_with 0
        | Some pool =>
            match required_native_input (pl_token_a pool) amount_a (pl_token_b pool) amount_b with
            | None => log_info w "Liquidity input value overflow" (exit_with 0)
            | Some native_required =>
                get_value w (fun value =>
                if value <? native_required then log_info w "Insufficient value for liquidity deposit" (exit_with 0)
                else
                  pull_unless_native (pl_token_a pool) provider amount_a "Token A liquidity deposit failed"
                  (pull_unless_native (pl_token_b pool) provider amount_b "Token B liquidity deposit failed"
                  (Pool_add_liquidity w pool provider amount_a amount_b min_liquidity (fun r =>
                   match r with
                   | Ok liquidity => log_info w "Liquidity added successfully" (exit_with liquidity)
                   | Err _ => log_info w "Add liquidity failed" (exit_with 0)
                   end))))
            end
        end)))).

Definition remove_liquidity (provider : Pubkey) (liquidity min_amount_a min_amount_b : Z) : Guest :=
  reentrancy_enter (fun entered =>
  if negb entered then log_info w "Reentrancy detected" (return_code 0)
  else
    get_caller w (fun real_caller =>
    if negb (real_caller =? provider) then exit_with 0
    else
      load_pool (fun o =>
      match o with
      | None => exit_with 0
      | Some pool =>
          Pool_remove_liquidity w pool provider liquidity min_amount_a min_amount_b (fun r =>
          match r with
          | Ok (amount_a, amount_b) =>
              log_info w "Liquidity removed successfully"
              (transfer_out (pl_token_a pool) provider amount_a (fun code_a =>
               if negb (code_a =? 0) then log_info w "Transfer of token A to provider failed" (exit_with 0)
               else
                 transfer_out (pl_token_b pool) provider amount_b (fun code_b =>
                 if negb (code_b =? 0) then log_info w "Transfer of token B to provider failed" (exit_with 0)
                 else exit_with 1)))
          | Err _ => log_info w "Remove liquidity failed" (exit_with 0)
          end)
      end))).

(** *** Swaps *)

Definition track_swap (amount_a amount_b : Z) (is_a_to_b : bool) (k : Guest) : Guest :=
  storage_get w MS_SWAP_COUNT_KEY (fun count =>
  storage_set w MS_SWAP_COUNT_KEY (u64_to_bytes (sat_add64 (long_u64 count) 1))
  (let key := if is_a_to_b then MS_VOLUME_A_KEY else MS_VOLUME_B_KEY in
   storage_get w key (fun vol =>
   storage_set w key (u64_to_bytes (sat_add64 (long_u64 vol) (if is_a_to_b then amount_a else amount_b))) k))).

(** The two directions, which are written twice in the source. *)
Definition swap_direction (a_to_b : bool) (amount_in min_out : Z) : Guest :=
  is_ms_paused (fun paused =>
  if paused : bool then log_info w "LichenSwap is paused" (return_code 0)
  else
    reentrancy_enter (fun entered =>
    if negb entered then log_info w "Reentrancy detected" (return_code 0)
    else
      load_pool (fun o =>
      match o with
      | None => exit_with 0
      | Some pool =>
          let '(token_in, token_out, reserve_in, reserve_out) :=
            if a_to_b then (pl_token_a pool, pl_token_b pool, pl_reserve_a pool, pl_reserve_b pool)
            else (pl_token_b pool, pl_token_a pool, pl_reserve_b pool, pl_reserve_a pool) in
          if negb (check_price_impact reserve_in reserve_out amount_in)
          then log_info w "Price impact exceeds maximum (5%)" (exit_with 0)
          else
            let paid :=
              twap_update
              ((if a_to_b then Pool_swap_a_for_b w pool amount_in min_out else Pool_swap_b_for_a w pool amount_in min_out)
                 (fun r =>
                  match r with
                  | Ok amount_out =>
                      log_info w (if a_to_b then "Swap A->B successful" else "Swap B->A successful")
                      (accrue_protocol_fee amount_out (negb a_to_b) (fun amount_out =>
                       with_bonus (if a_to_b then PROTOCOL_FEES_B_KEY else PROTOCOL_FEES_A_KEY) amount_out (fun final_out =>
                       get_caller w (fun swapper =>
                       transfer_out token_out swapper final_out (fun code =>
                       if negb (code =? 0)
                       then log_info w (if a_to_b then "Token B transfer to swapper failed" else "Token A transfer to swapper failed")
                              (exit_with 0)
                       else
                         track_swap (if a_to_b then amount_in else final_out) (if a_to_b then final_out else amount_in)
                           a_to_b (exit_with final_out))))))
                  | Err _ => log_info w (if a_to_b then "Swap A->B failed" else "Swap B->A failed") (exit_with 0)
                  end)) in
            if is_native_token token_in then
              get_value w (fun value =>
              if value <? amount_in then log_info w "Insufficient value for swap input" (exit_with 0) else paid)
            else
              get_caller w (fun caller =>
              pull_non_native_input token_in caller amount_in (fun ok =>
              if negb ok
              then log_info w (if a_to_b then "Token A swap input transfer failed" else "Token B swap input transfer failed")
                     (exit_with 0)
              else paid))
      end))).

Definition swap_a_for_b : Z -> Z -> Guest := swap_direction true.
Definition swap_b_for_a : Z -> Z -> Guest := swap_direction false.

Definition before_deadline (deadline : Z) (k : Guest) : Guest :=
  get_timestamp w (fun now =>
  if deadline <? now then log_info w "Transaction expired (deadline passed)" (return_code 0) else k).
Definition swap_a_for_b_with_deadline (amount_a_in min_amount_b_out deadline : Z) : Guest :=
  before_deadline deadline (swap_a_for_b amount_a_in min_amount_b_out).
Definition swap_b_for_a_with_deadline (amount_b_in min_amount_a_out deadline : Z) : Guest :=
  before_deadline deadline (swap_b_for_a amount_b_in min_amount_a_out).
Definition swap (amount_in min_out a_to_b : Z) : Guest :=
  if negb (a_to_b =? 0) then swap_a_for_b amount_in min_out else swap_b_for_a amount_in min_out.

(** *** Flash loans *)

Definition fl_is_active (k : bool -> Guest) : Guest := storage_get w FL_ACTIVE_KEY (fun o => k (flag_set o)).
Definition fl_get_token_is_a (k : bool -> Guest) : Guest :=
  storage_get w FL_TOKEN_IS_A_KEY (fun o => k (if is_some o then flag_set o else true)).
Definition fl_get_amount (k : Z -> Guest) : Guest := storage_get w FL_AMOUNT_KEY (fun o => k (stored_u64 o)).
Definition fl_get_fee (k : Z -> Guest) : Guest := storage_get w FL_FEE_KEY (fun o => k (stored_u64 o)).
Definition fl_clear (k : Guest) : Guest :=
  storage_set w FL_ACTIVE_KEY [0]
    (storage_set w FL_AMOUNT_KEY (u64_to_bytes 0) (storage_set w FL_FEE_KEY (u64_to_bytes 0) k)).

Definition flash_loan_borrow (_amount _token_is_a : Z) : Guest :=
  log_info w "Legacy flash_loan_borrow is disabled; use flash_loan_execute" (return_code 0).

(** The guard of [flash_loan_execute] clears the flag on every way out. *)
Definition flash_loan_execute (receiver : Pubkey) (amount token_is_a : Z) (data : bytes) : Guest :=
  if (amount =? 0) || (negb (token_is_a =? 0) && negb (token_is_a =? 1)) then return_code 1
  else if MAX_FLASH_CALLBACK_DATA_LEN <? zlen data then log_info w "Flash callback data is too large" (return_code 5)
  else
    is_ms_paused (fun paused =>
    if paused : bool then log_info w "LichenSwap is paused" (return_code 20)
    else
      fl_is_active (fun active =>
      if active : bool then log_info w "A legacy flash loan must be settled before flash execution" (return_code 2)
      else
        reentrancy_enter (fun entered =>
        if negb entered then log_info w "Reentrancy detected" (return_code 21)
        else
          get_contract_address w (fun self_addr =>
          if (receiver =? 0) || (receiver =? self_addr)
          then log_info w "Flash receiver must be a separate executable contract" (exit_with 6)
          else
            load_pool (fun o =>
            match o with
            | None => exit_with 35
            | Some pool =>
                let '(token, reserve) :=
                  if token_is_a =? 1 then (pl_token_a pool, pl_reserve_a pool) else (pl_token_b pool, pl_reserve_b pool) in
                let max_loan := mul_div64 reserve MAX_FLASH_LOAN_PERCENT 100 in
                if max_loan <? amount then log_info w "Flash loan exceeds pool liquidity cap" (exit_with 3)
                else
                  let fee := get_flash_loan_fee amount in
                  match checked_add64 reserve fee with
                  | None => log_info w "Flash loan fee would overflow reserves" (exit_with 4)
                  | Some new_reserve =>
                      balance_of_token_or_native w token self_addr (fun b =>
                      let starting := match b with
                                      | Some balance => if amount <=? balance then Some balance else None
                                      | None => None
                                      end in
                      match starting with
                      | None => log_info w "Pool custody balance is unavailable or insufficient" (exit_with 31)
                      | Some starting_balance =>
                          transfer_out token receiver amount (fun code =>
                          if negb (code =? 0) then log_info w "Flash loan transfer failed" (exit_with 32)
                          else
                            get_caller w (fun initiator =>
                            match encode_layout_args [be_bytes 32 initiator; be_bytes 32 token; le_bytes 8 amount;
                                                      le_bytes 8 fee; data; le_bytes 4 (zlen data)] with
                            | None => exit_with 33
                            | Some callback_args =>
                                call_contract w receiver "on_lichen_flash_loan" callback_args 0 (fun r =>
                                if negb (is_some r) then log_info w "Flash loan callback failed" (exit_with 33)
                                else
                                  match checked_add64 starting_balance fee with
                                  | None => exit_with 4
                                  | Some required_balance =>
                                      balance_of_token_or_native w token self_addr (fun e =>
                                      let restored := match e with Some ending => required_balance <=? ending | None => false end in
                                      if negb restored
                                      then log_info w "Flash loan callback did not restore principal and fee" (exit_with 34)
                                      else
                                        twap_update
                                        (Pool_save w (if token_is_a =? 1 then set_pl_reserve_a new_reserve pool
                                                      else set_pl_reserve_b new_reserve pool)
                                           (log_info w "Atomic flash loan completed" (exit_with 0))))
                                  end)
                            end))
                      end)
                  end
            end))))).

Definition flash_loan_repay (repay_amount : Z) : Guest :=
  fl_is_active (fun active =>
  if negb active then log_info w "No active flash loan to repay" (return_code 1)
  else
    fl_get_amount (fun loan_amount =>
    fl_get_fee (fun loan_fee =>
    fl_get_token_is_a (fun token_is_a =>
    match checked_add64 loan_amount loan_fee with
    | None => log_info w "Flash loan repayment requirement overflow" (fl_clear (exit_with 2))
    | Some required =>
        if repay_amount <? required
        then log_info w "Flash loan repayment insufficient — loan reverted" (fl_clear (exit_with 2))
        else
          load_pool (fun o =>
          match o with
          | None => return_code 3
          | Some pool =>
              let token := if token_is_a : bool then pl_token_a pool else pl_token_b pool in
              get_caller w (fun payer =>
              get_contract_address w (fun self =>
              receive_token_or_native w token payer self required (fun r =>
              if negb (default false r) then log_info w "Flash loan repayment custody transfer failed" (return_code 3)
              else
                let reserve := if token_is_a then pl_reserve_a pool else pl_reserve_b pool in
                match checked_add64 reserve loan_fee with
                | None =>
                    log_info w (if token_is_a then "Flash loan repayment would overflow reserve A"
                                else "Flash loan repayment would overflow reserve B") (fl_clear (exit_with 4))
                | Some value =>
                    Pool_save w (if token_is_a then set_pl_reserve_a value pool else set_pl_reserve_b value pool)
                      (log_info w "Flash loan repaid successfully" (fl_clear (exit_with 0)))
                end)))
          end)
    end)))).

Definition flash_loan_abort : Guest :=
  fl_is_active (fun active =>
  if negb active then return_code 0
  else
    storage_get w (str_bytes "fl_borrow_time") (fun t =>
    get_timestamp w (fun now =>
    if sat_sub now (stored_u64 t) <? 60 then log_info w "Flash loan not yet stale (< 60s)" (return_code 1)
    else
      fl_get_amount (fun loan_amount =>
      fl_get_token_is_a (fun token_is_a =>
      load_pool (fun o =>
      match o with
      | None => return_code 2
      | Some pool =>
          Pool_save w (if token_is_a : bool then set_pl_reserve_a (sat_sub (pl_reserve_a pool) loan_amount) pool
                       else set_pl_reserve_b (sat_sub (pl_reserve_b pool) loan_amount) pool)
            (log_info w "Stale flash loan aborted — reserves adjusted for unreturned tokens" (fl_clear (exit_with 0)))
      end)))))).

(** *** Administration *)

(** [if get_caller() != caller { return code }] *)
Definition caller_is (caller : Pubkey) (code : Z) (k : Guest) : Guest :=
  get_caller w (fun real_caller => if negb (real_caller =? caller) then return_code code else k).

Definition set_protocol_fee (caller treasury : Pubkey) (fee_share : Z) : Guest :=
  caller_is caller 200
  (storage_get w MS_ADMIN_KEY (fun o =>
   match o with
   | None => return_code 1
   | Some admin =>
       if negb (bool_decide (be_bytes 32 caller = admin)) then log_info w "Unauthorized" (return_code 2)
       else if 5000000 <? fee_share then log_info w "Fee share too high (max 50%)" (return_code 3)
       else
         storage_set w PROTOCOL_TREASURY_KEY (be_bytes 32 treasury)
         (storage_set w PROTOCOL_FEE_SHARE_KEY (u64_to_bytes fee_share)
         (log_info w "Protocol fee configured" (return_code 0)))
   end)).
Definition set_platform_fee (caller : Pubkey) (fee_bps : Z) : Guest := set_protocol_fee caller caller fee_bps.

Definition set_identity_admin (admin : Pubkey) : Guest :=
  get_caller w (fun real_caller =>
  if negb (real_caller =? admin) then log_info w "set_identity_admin rejected: caller mismatch" (return_code 2)
  else
    storage_get w IDENTITY_ADMIN_KEY (fun o =>
    if is_some o then log_info w "Identity admin already set" (return_code 1)
    else storage_set w IDENTITY_ADMIN_KEY (be_bytes 32 admin) (log_info w "Identity admin set" (return_code 0)))).

(** [load_configured_address(key).is_some()] *)
Definition configured (o : option bytes) : bool := match o with Some l => zlen l =? 32 | None => false end.

Definition set_lichenid_address (caller lichenid_addr : Pubkey) : Guest :=
  get_caller w (fun real_caller =>
  if negb (real_caller =? caller) then log_info w "set_lichenid_address rejected: caller mismatch" (return_code 1)
  else
    storage_get w IDENTITY_ADMIN_KEY (fun o =>
    match o with
    | None => return_code 1
    | Some admin =>
        if negb (bool_decide (be_bytes 32 caller = admin)) then return_code 2
        else if lichenid_addr =? 0 then log_info w "set_lichenid_address rejected: zero address" (return_code 3)
        else
          storage_get w LICHENID_ADDR_KEY (fun a =>
          if configured a then log_info w "set_lichenid_address rejected: already configured" (return_code 4)
          else
            storage_set w LICHENID_ADDR_KEY (be_bytes 32 lichenid_addr)
              (log_info w "LichenID address configured" (return_code 0)))
    end)).

Definition set_reputation_discount (caller : Pubkey) (threshold discount_bps : Z) : Guest :=
  get_caller w (fun real_caller =>
  if negb (real_caller =? caller) then log_info w "set_reputation_discount rejected: caller mismatch" (return_code 1)
  else
    storage_get w IDENTITY_ADMIN_KEY (fun o =>
    match o with
    | None => return_code 1
    | Some admin =>
        if negb (bool_decide (be_bytes 32 caller = admin)) then return_code 2
        else if 10000 <? discount_bps then return_code 3
        else
          storage_set w LICHENID_DISCOUNT_THRESHOLD_KEY (u64_to_bytes threshold)
          (storage_set w LICHENID_DISCOUNT_BPS_KEY (u64_to_bytes discount_bps)
          (log_info w "Reputation fee discount configured" (return_code 0)))
    end)).

Definition set_pause (flag : Z) (message : string) (caller : Pubkey) : Guest :=
  caller_is caller 2
  (is_ms_admin caller (fun admin =>
   if negb admin then return_code 1
   else storage_set w MS_PAUSE_KEY [flag] (log_info w message (return_code 0)))).
Definition ms_pause : Pubkey -> Guest := set_pause 1 "LichenSwap paused".
Definition ms_unpause : Pubkey -> Guest := set_pause 0 "LichenSwap unpaused".

(** *** Queries *)

Definition get_quote (amount_in is_a_to_b : Z) : Guest :=
  load_pool (fun o =>
  match o with
  | None => return_code 0
  | Some pool =>
      if is_a_to_b =? 1
      then return_code (Pool_get_amount_out pool amount_in (pl_reserve_a pool) (pl_reserve_b pool))
      else return_code (Pool_get_amount_out pool amount_in (pl_reserve_b pool) (pl_reserve_a pool))
  end).

Definition get_liquidity_balance (provider : Pubkey) : Guest :=
  load_pool (fun o =>
  match o with None => return_code 0 | Some _ => Pool_get_liquidity_balance w provider return_code end).

Definition get_total_liquidity : Guest :=
  storage_get w (str_bytes "total_liquidity") (fun o => return_code (stored_u64 o)).

(** The numbers stored at [keys] as return data. *)
Fixpoint return_stored (read : option bytes -> Z) (keys : list bytes) (acc : bytes) (k : bytes -> Guest) : Guest :=
  match keys with
  | [] => k acc
  | key :: keys => storage_get w key (fun o => return_stored read keys (acc ++ u64_to_bytes (read o)) k)
  end.

Definition get_twap_cumulatives : Guest :=
  return_stored stored_u64 [TWAP_CUMULATIVE_A_KEY; TWAP_CUMULATIVE_B_KEY; TWAP_LAST_UPDATE_KEY] []
    (fun data => set_return_data w data (return_code 0)).
Definition get_twap_snapshot_count : Guest :=
  storage_get w TWAP_SNAPSHOT_COUNT_KEY (fun o => return_code (stored_u64 o)).
Definition get_protocol_fees : Guest :=
  return_stored stored_u64 [PROTOCOL_FEES_A_KEY; PROTOCOL_FEES_B_KEY] []
    (fun data => set_return_data w data (return_code 0)).
Definition get_pool_info : Guest :=
  return_stored stored_u64 [str_bytes "reserve_a"; str_bytes "reserve_b"; str_bytes "total_liquidity"] []
    (fun data => set_return_data w data (return_code 1)).
Definition get_swap_count : Guest := storage_get w MS_SWAP_COUNT_KEY (fun o => return_code (long_u64 o)).
Definition get_total_volume : Guest :=
  return_stored long_u64 [MS_VOLUME_A_KEY; MS_VOLUME_B_KEY] [] (fun data => set_return_data w data (return_code 0)).
Definition get_pool_count : Guest :=
  storage_get w (str_bytes "token_a") (fun o => return_code (if is_some o then 1 else 0)).
Definition get_swap_stats : Guest :=
  return_stored long_u64 [MS_SWAP_COUNT_KEY; MS_VOLUME_A_KEY; MS_VOLUME_B_KEY] [] (fun data =>
  storage_get w (str_bytes "token_a") (fun o =>
  return_stored stored_u64 [str_bytes "total_liquidity"] (data ++ u64_to_bytes (if is_some o then 1 else 0)) (fun data =>
  set_return_data w data (return_code 0)))).
Definition get_reserves : Guest := load_pool (fun _ => return_nothing).

(** The exports, each with its arguments. *)
Inductive export : Guest -> Prop :=
| ex_initialize a b : export (initialize a b)
| ex_add provider a b m : is_u64 a -> is_u64 b -> export (add_liquidity provider a b m)
| ex_remove provider l ma mb : is_u64 l -> export (remove_liquidity provider l ma mb)
| ex_swap d a m : is_u64 a -> export (swap_direction d a m)
| ex_swap_deadline d a m t : is_u64 a -> export (before_deadline t (swap_direction d a m))
| ex_quote a d : export (get_quote a d)
| ex_reserves : export get_reserves
| ex_balance p : export (get_liquidity_balance p)
| ex_total : export get_total_liquidity
| ex_borrow a t : export (flash_loan_borrow a t)
| ex_flash r a t d : is_u64 a -> export (flash_loan_execute r a t d)
| ex_repay a : export (flash_loan_repay a)
| ex_abort : export flash_loan_abort
| ex_fee a : export (return_code (get_flash_loan_fee a))
| ex_cumulatives : export get_twap_cumulatives
| ex_snapshots : export get_twap_snapshot_count
| ex_set_fee c t f : export (set_protocol_fee c t f)
| ex_fees : export get_protocol_fees
| ex_identity a : export (set_identity_admin a)
| ex_lichenid c a : export (set_lichenid_address c a)
| ex_discount c t d : export (set_reputation_discount c t d)
| ex_pause c : export (ms_pause c)
| ex_unpause c : export (ms_unpause c)
| ex_info : export get_pool_info
| ex_count : export get_pool_count
| ex_swaps : export get_swap_count
| ex_volume : export get_total_volume
| ex_stats : export get_swap_stats.
End contract.
End LichenSwap.
