(* ===== verification/SwapPool.v ===== *)
(** * The exchange keeps its pool

    The arithmetic of the pool: the square root is exact, a deposit mints at most its share, a
    swap never lowers the product of the reserves.  Then the storage of the contract: whatever
    other contracts answer, a run of an export keeps the liquidity balances equal to the total and
    never lowers what a share is worth. *)

From S2P Require Import Prelude Crypto Block Account Transactions Fees Rent Transfers Restrictions Governed.
From S2P Require Import GovernanceActions Governance Processor Runtime ContractCalls CallStore Token Swap.
From stdpp Require Import base tactics numbers list gmap strings.
From Stdlib Require Import ZArith Lia.

Local Open Scope Z_scope.
Local Open Scope rust_scope.

(** ** The square root *)

Lemma newton_above x z : 0 < x -> 0 < z -> Z.sqrt x <= (x / z + z) / 2.
Proof.
  intros Hx Hz. destruct (Z.sqrt_spec x) as [Hs _]; [lia|]. apply Z.div_le_lower_bound; [lia|].
  assert (2 * Z.sqrt x - z <= x / z); [|lia]. apply Z.div_le_lower_bound; [lia|].
  pose proof (Z.square_nonneg (z - Z.sqrt x)). nia.
Qed.

Lemma quotient_sum x z : 1 <= z <= x -> x / z + z <= x + 1.
Proof.
  intros Hz. pose proof (Z.mul_div_le x z ltac:(lia)). assert (1 <= x / z) by (apply Z.div_le_lower_bound; lia). nia.
Qed.

(** The loop's invariant, with its state. *)
Definition sqrt_inv (x : Z) (zy : Z * Z) : Prop := Z.sqrt x <= zy.1 <= x /\ 0 < zy.1 /\ zy.2 = (x / zy.1 + zy.1) / 2.

Lemma sqrt_inv_step x zy :
  0 < x < 2 ^ 128 - 1 -> sqrt_inv x zy -> sqrt_done zy = false -> sqrt_inv x (sqrt_step x zy) /\ 0 <= (sqrt_step x zy).1 < zy.1.
Proof.
  intros Hx ([Hs Hzx] & Hz & Hy) Hd. apply negb_false_iff, Z.ltb_lt in Hd. destruct zy as [z y]. cbn [fst snd] in *.
  pose proof (newton_above x z ltac:(lia) Hz) as Hge. rewrite <-Hy in Hge.
  assert (0 < Z.sqrt x) by (apply Z.sqrt_pos; lia). assert (x / y + y <= x + 1) by (apply quotient_sum; lia).
  assert (0 <= x / y) by (apply Z.div_pos; lia). unfold sqrt_step. cbn [fst snd]. rewrite wrap_small by lia.
  unfold sqrt_inv. cbn [fst snd]. lia.
Qed.

(** The pool's square root is the integer square root. *)
Lemma Pool_sqrt_exact x : 0 <= x < 2 ^ 128 - 1 -> Pool_sqrt x = Z.sqrt x.
Proof.
  intros Hx. unfold Pool_sqrt. destruct (Z.eqb_spec x 0) as [->|Hne]; [done|].
  assert (sqrt_inv x (x, x / 2 + x mod 2)) as Hinv.
  { unfold sqrt_inv. cbn [fst snd]. rewrite Z.div_same by done. pose proof (Z.sqrt_le_lin x). split_and!; [lia|lia|lia|].
    divlia. }
  destruct (iter_until_done sqrt_done (sqrt_step x) (sqrt_inv x) fst) with (p := (2 ^ 128)%positive)
    (s := (x, x / 2 + x mod 2)) as [([Hs _] & Hz & Hy) Hd].
  - intros s Hi Hn. apply (sqrt_inv_step x s); [lia|done|done].
  - intros s (_ & ? & _). lia.
  - intros s Hi Hn. apply (sqrt_inv_step x s); [lia|done|done].
  - done.
  - cbn [fst]. change (Z.pos (2 ^ 128)) with (2 ^ 128). lia.
  - set (r := iter_until _ _ _ _) in *. destruct r as [z y]. cbn [fst snd] in *.
    apply negb_true_iff, Z.ltb_ge in Hd. cbn [fst snd] in Hd.
    assert (z <= x / z). { rewrite Hy in Hd. divlia. }
    assert (z * z <= x) by (pose proof (Z.mul_div_le x z Hz); nia).
    assert (z = Z.sqrt x) as -> by (pose proof (Z.sqrt_le_square x z); lia).
    apply wrap_small. split; [lia|]. apply Z.sqrt_lt_square; lia.
Qed.

(** ** The pool's arithmetic *)

(** Reserves and liquidity of a pool. *)
Record View := mkView { vw_a : Z; vw_b : Z; vw_liquidity : Z }.

(** All three are 64-bit numbers, and they are zero together. *)
Record view_ok (v : View) : Prop := {
  vo_a : is_u64 (vw_a v);
  vo_b : is_u64 (vw_b v);
  vo_liquidity : is_u64 (vw_liquidity v);
  vo_balanced : (vw_liquidity v = 0 /\ vw_a v = 0 /\ vw_b v = 0) \/ (0 < vw_liquidity v /\ 0 < vw_a v /\ 0 < vw_b v);
}.

(** What a share is worth, squared: the product of the reserves over the square of the liquidity.
    It may not drop, except that a pool may be emptied. *)
Definition worth_le (v v' : View) : Prop :=
  0 < vw_liquidity v -> 0 < vw_liquidity v' ->
  vw_a v * vw_b v * (vw_liquidity v' * vw_liquidity v') <= vw_a v' * vw_b v' * (vw_liquidity v * vw_liquidity v).

Lemma worth_le_refl v : worth_le v v.
Proof. intros _ _. lia. Qed.

(** Reserves that grow at least as fast as the liquidity, each on its own. *)
Lemma worth_each a b l a' b' l' :
  0 <= a -> 0 <= b -> 0 < l -> 0 < l' -> 0 <= a' -> 0 <= b' -> a * l' <= a' * l -> b * l' <= b' * l ->
  a * b * (l' * l') <= a' * b' * (l * l).
Proof.
  intros. replace (a * b * (l' * l')) with ((a * l') * (b * l')) by ring.
  replace (a' * b' * (l * l)) with ((a' * l) * (b' * l)) by ring. apply Z.mul_le_mono_nonneg; nia.
Qed.

Lemma mul_div64_le a b c : 0 <= a -> 0 <= b -> 0 < c -> 0 <= mul_div64 a b c < 2 ^ 64 /\ mul_div64 a b c * c <= a * b.
Proof.
  intros Ha Hb Hc. assert (0 <= a * b / c) by (apply Z.div_pos; nia). pose proof (Z.mul_div_le (a * b) c Hc).
  unfold mul_div64. pose proof (Z.mod_pos_bound (a * b / c) (2 ^ 64) ltac:(lia)).
  pose proof (Z.mod_le (a * b / c) (2 ^ 64) ltac:(lia) ltac:(lia)). unfold wrap. split; [lia|]. nia.
Qed.

Lemma minted_ok p v a b m l :
  view_ok v -> pl_reserve_a p = vw_a v -> pl_reserve_b p = vw_b v -> pl_total_liquidity p = vw_liquidity v ->
  is_u64 a -> is_u64 b -> minted_liquidity p a b m = Ok l -> vw_liquidity v + l < 2 ^ 64 ->
  0 <= l /\ forall a' b', a' = vw_a v + a -> b' = vw_b v + b -> is_u64 a' -> is_u64 b' ->
    view_ok (mkView a' b' (vw_liquidity v + l)) /\ worth_le v (mkView a' b' (vw_liquidity v + l)).
Proof.
  intros [Hva Hvb Hvl Hbal] Ea Eb El Ha Hb Hm Hmax. unfold minted_liquidity in Hm. rewrite Ea, Eb, El in Hm.
  apply guard_Ok in Hm as [Hz Hm]. apply orb_false_iff in Hz as [Hza%Z.eqb_neq Hzb%Z.eqb_neq].
  unfold is_u64 in *. destruct (Z.eqb_spec (vw_liquidity v) 0) as [E0|E0].
  - destruct (_ <? _); [done|]. injection Hm as <-. rewrite Pool_sqrt_exact in * by nia.
    assert (0 < Z.sqrt (a * b)) by (apply Z.sqrt_pos; nia). split; [lia|]. intros a' b' -> -> ? ?.
    destruct Hbal as [(_ & E1 & E2)|?]; [|lia]. split; [split; cbn; unfold is_u64; lia|]. intros ?. lia.
  - destruct Hbal as [?|(Hl & Hpa & Hpb)]; [lia|]. apply guard_Ok in Hm as [_ Hm].
    destruct (mul_div64_le a (vw_liquidity v) (vw_a v)) as [Hra Hla]; [lia..|].
    destruct (mul_div64_le b (vw_liquidity v) (vw_b v)) as [Hrb Hlb]; [lia..|].
    destruct (_ <? m); [done|]. injection Hm as <-.
    set (l := if _ <? _ then _ else _) in *.
    assert (0 <= l /\ l * vw_a v <= a * vw_liquidity v /\ l * vw_b v <= b * vw_liquidity v) as (H0 & H1 & H2).
    { subst l. destruct (Z.ltb_spec (mul_div64 a (vw_liquidity v) (vw_a v)) (mul_div64 b (vw_liquidity v) (vw_b v))); nia. }
    split; [done|]. intros a' b' -> -> ? ?. split; [split; cbn; unfold is_u64; lia|]. intros _ _. cbn.
    apply worth_each; nia.
Qed.

Lemma removed_ok v l :
  view_ok v -> 0 < l <= vw_liquidity v ->
  let a := mul_div64 l (vw_a v) (vw_liquidity v) in
  let b := mul_div64 l (vw_b v) (vw_liquidity v) in
  let v' := mkView (wrap64 (vw_a v - a)) (wrap64 (vw_b v - b)) (wrap64 (vw_liquidity v - l)) in
  a <= vw_a v /\ b <= vw_b v /\ view_ok v' /\ vw_liquidity v' = vw_liquidity v - l /\ worth_le v v'.
Proof.
  intros [Hva Hvb Hvl Hbal] Hl a b v'. unfold is_u64 in *. destruct Hbal as [?|(H0 & Hpa & Hpb)]; [lia|].
  destruct (mul_div64_le l (vw_a v) (vw_liquidity v)) as [Hra Hla]; [lia..|].
  destruct (mul_div64_le l (vw_b v) (vw_liquidity v)) as [Hrb Hlb]; [lia..|]. fold a in Hra, Hla. fold b in Hrb, Hlb.
  assert (a <= vw_a v) as Ha by nia. assert (b <= vw_b v) as Hb by nia.
  assert (l = vw_liquidity v -> a = vw_a v /\ b = vw_b v) as Hall.
  { intros ->. subst a b. unfold mul_div64. rewrite !(Z.mul_comm (vw_liquidity v)), !Z.div_mul by lia. rewrite !wrap_small by lia. done. }
  unfold v'. rewrite !wrap_small by lia. cbn. split_and!; [done|done| |done|].
  - split; cbn; unfold is_u64; [lia..|]. destruct (decide (l = vw_liquidity v)) as [E|E].
    + left. destruct (Hall E). lia.
    + right. nia.
  - intros _ Hl'. cbn in *. apply worth_each; nia.
Qed.

(** The output is at most what the constant product allows, also when the numerator wraps. *)
Lemma swap_output_le p x r_in r_out out :
  pl_fee_numerator p = 3 -> pl_fee_denominator p = 1000 -> is_u64 x -> is_u64 r_in -> is_u64 r_out -> 0 < x ->
  swap_output p x r_in r_out = Some out -> 0 <= out /\ out * (r_in + x) <= x * r_out.
Proof.
  unfold swap_output, is_u64. intros -> -> Hx Hi Ho Hpos. change (1000 - 3) with 997.
  rewrite (wrap_small 128 (r_in * 1000 + x * 997)) by lia. destruct (Z.eqb_spec (r_in * 1000 + x * 997) 0) as [|Hne]; [done|].
  intros [= <-]. set (d := r_in * 1000 + x * 997) in *. assert (0 < d) by lia.
  pose proof (Z.mod_pos_bound (x * 997 * r_out) (2 ^ 128) ltac:(lia)) as Hw.
  pose proof (Z.mod_le (x * 997 * r_out) (2 ^ 128) ltac:(nia) ltac:(lia)) as Hle. fold (wrap128 (x * 997 * r_out)) in *.
  set (n := wrap128 (x * 997 * r_out)) in *. assert (0 <= n / d) by (apply Z.div_pos; lia).
  pose proof (Z.mul_div_le n d ltac:(lia)) as Hd. pose proof (Z.mod_le (n / d) (2 ^ 64) ltac:(lia) ltac:(lia)).
  pose proof (Z.mod_pos_bound (n / d) (2 ^ 64) ltac:(lia)). fold (wrap64 (n / d)) in *. set (out := wrap64 (n / d)) in *.
  assert (d * out <= x * 997 * r_out) by nia. split; [lia|]. unfold d in *. nia.
Qed.

Lemma swap_reserves_ok p x m r_in r_out out r_in' r_out' :
  pl_fee_numerator p = 3 -> pl_fee_denominator p = 1000 -> is_u64 x -> is_u64 r_in -> is_u64 r_out ->
  swap_reserves p x m r_in r_out = Ok (out, r_in', r_out') ->
  r_in' = r_in + x /\ is_u64 r_in' /\ 0 < r_out' <= r_out /\ r_in * r_out <= r_in' * r_out'.
Proof.
  intros En Ed Hx Hi Ho. unfold swap_reserves. rewrite En, Ed. intros [Hz%Z.eqb_neq H]%guard_Ok.
  apply guard_Ok in H as [_ H]. apply or_err_Ok in H as (o & Hout & H). apply guard_Ok in H as [_ H].
  apply guard_Ok in H as [Hlt%Z.leb_gt H]. apply or_err_Ok in H as (r & Hr & [= <- <- <-]).
  apply checked_add64_Some in Hr as [-> Hmax]. unfold is_u64, u64_max in *.
  destruct (swap_output_le p x r_in r_out o En Ed Hx Hi Ho ltac:(lia) Hout) as [H0 Hk]. split_and!; nia.
Qed.

(** ** Runs of a guest on its own storage *)

Definition read_answer (st : Storage) (key : bytes) (n : Z) : Answer :=
  match st !! key with Some value => let written := take (Z.to_nat n) value in (zlen written, written) | None => (0, []) end.

Definition is_storage (call : HostCall) : bool :=
  match call with StorageRead _ _ | StorageWrite _ _ | StorageDelete _ => true | _ => false end.

(** A guest that finishes, with storage calls that are served and any answers to the others:
    they do not reach the storage of its frame. *)
Inductive frame_run : Guest -> Storage -> option Z -> Storage -> Prop :=
| frame_done n code st : frame_run (Done n code) st code st
| frame_read n key len k st code st' :
    frame_run (k (read_answer st key len)) st code st' -> frame_run (Host n (StorageRead key len) k) st code st'
| frame_write n key val k st code st' :
    frame_run (k (1, [])) (<[key := val]> st) code st' -> frame_run (Host n (StorageWrite key val) k) st code st'
| frame_other n call k a st code st' :
    is_storage call = false -> frame_run (k a) st code st' -> frame_run (Host n call k) st code st'.

(** Every way the guest can finish leaves storage in [Q]. *)
Definition ok (Q : Storage -> Prop) (g : Guest) (st : Storage) : Prop := forall code st', frame_run g st code st' -> Q st'.

(** What [storage_get] finds. *)
Definition found (st : Storage) (key : bytes) : option bytes :=
  let a := read_answer st key 65536 in if a.1 =? 0 then None else Some a.2.

Section rules.
Variable Q : Storage -> Prop.
Variable w : Z.

Lemma ok_done n code st : Q st -> ok Q (Done n code) st.
Proof. intros HQ code' st' Hr. by inversion Hr; subst. Qed.

Lemma ok_get key k st : ok Q (k (found st key)) st -> ok Q (storage_get w key k) st.
Proof. intros Hk code st' Hr. inversion Hr; subst; [|done]. by apply (Hk code). Qed.

Lemma ok_set key val k st : ok Q k (<[key := val]> st) -> ok Q (storage_set w key val k) st.
Proof. intros Hk code st' Hr. inversion Hr; subst; [|done]. by apply (Hk code). Qed.

Lemma ok_host n call k st : is_storage call = false -> (forall a, ok Q (k a) st) -> ok Q (Host n call k) st.
Proof. intros Hc Hk code st' Hr. inversion Hr; subst; [done|done|]. by apply (Hk a code). Qed.
End rules.

(** ** The invariant of the contract *)

Definition LIQUIDITY_PREFIX : bytes := str_bytes "liquidity:".
Definition is_share (key : bytes) : bool := bool_decide (take 10 key = LIQUIDITY_PREFIX).
Definition shares (st : Storage) : Storage := filter (fun kv => is_share kv.1 = true) st.
Definition share_sum (st : Storage) : Z := map_sum bytes_to_u64 (shares st).

(** A stored number of 64 bits, zero when there is none. *)
Definition holds (st : Storage) (key : bytes) (n : Z) : Prop :=
  is_u64 n /\ match st !! key with Some v => v = u64_to_bytes n | None => n = 0 end.

(** Balances are numbers that sum to [total], and no loan of the old kind is open. *)
Record base (st : Storage) (total : Z) : Prop := {
  bs_shares : forall key v, shares st !! key = Some v -> exists n, is_u64 n /\ v = u64_to_bytes n;
  bs_sum : share_sum st = total;
  bs_no_loan : LichenSwap.flag_set (found st LichenSwap.FL_ACTIVE_KEY) = false;
}.

Record reserves (st : Storage) (v : View) : Prop := {
  rs_a : holds st (str_bytes "reserve_a") (vw_a v);
  rs_b : holds st (str_bytes "reserve_b") (vw_b v);
  rs_liquidity : holds st (str_bytes "total_liquidity") (vw_liquidity v);
  rs_tokens : 0 < vw_liquidity v -> is_Some (found st (str_bytes "token_a"));
}.

Record pool_inv (st : Storage) (v : View) : Prop := {
  pi_base : base st (vw_liquidity v);
  pi_reserves : reserves st v;
  pi_ok : view_ok v;
}.

(** Keys that the invariant does not mention. *)
Definition free_key (key : bytes) : bool :=
  negb (is_share key)
  && negb (bool_decide (key ∈ [str_bytes "reserve_a"; str_bytes "reserve_b"; str_bytes "total_liquidity"; str_bytes "token_a";
                             LichenSwap.FL_ACTIVE_KEY])).

Lemma shares_insert_free st key val : is_share key = false -> shares (<[key := val]> st) = shares st.
Proof.
  intros Hk. unfold shares. apply map_filter_insert_not. intros v. cbn. by rewrite Hk.
Qed.

Lemma shares_insert st key val : is_share key = true -> shares (<[key := val]> st) = <[key := val]> (shares st).
Proof. intros Hk. unfold shares. by apply map_filter_insert_True. Qed.

Lemma found_insert st key key' val : key <> key' -> found (<[key := val]> st) key' = found st key'.
Proof. intros Hne. unfold found, read_answer. by rewrite lookup_insert_ne. Qed.

Lemma holds_insert st key key' val n : key <> key' -> holds st key' n -> holds (<[key := val]> st) key' n.
Proof. intros Hne [Hn Hv]. split; [done|]. by rewrite lookup_insert_ne. Qed.

Lemma holds_put st key n : is_u64 n -> holds (<[key := u64_to_bytes n]> st) key n.
Proof. intros Hn. split; [done|]. by rewrite lookup_insert_eq. Qed.

Lemma base_insert st total key val :
  is_share key = false -> key <> LichenSwap.FL_ACTIVE_KEY -> base st total -> base (<[key := val]> st) total.
Proof.
  intros Hs Hf [H1 H2 H3]. split; unfold share_sum in *; rewrite ?shares_insert_free by done; [done|done|].
  by rewrite found_insert.
Qed.

Lemma free_not_share key : free_key key = true -> is_share key = false.
Proof. unfold free_key. by destruct (is_share key). Qed.

Lemma pool_inv_free st v key val : free_key key = true -> pool_inv st v -> pool_inv (<[key := val]> st) v.
Proof.
  intros Hk [Hb [Ha Hb' Hl Ht] Ho]. pose proof (free_not_share key Hk) as Hs. unfold free_key in Hk. rewrite Hs in Hk.
  cbn [negb andb] in Hk. apply negb_true_iff, bool_decide_eq_false in Hk. split; [|split|done].
  - apply base_insert; [done| |done]. intros ->. apply Hk. set_solver.
  - apply holds_insert; [|done]. intros ->. apply Hk. set_solver.
  - apply holds_insert; [|done]. intros ->. apply Hk. set_solver.
  - apply holds_insert; [|done]. intros ->. apply Hk. set_solver.
  - rewrite found_insert; [done|]. intros ->. apply Hk. set_solver.
Qed.

Lemma bytes_to_u64_of n : is_u64 n -> bytes_to_u64 (u64_to_bytes n) = n.
Proof.
  intros Hn. unfold bytes_to_u64, u64_to_bytes. rewrite take_ge by (by rewrite le_bytes_length).
  rewrite le_value_le_bytes. by apply Z.mod_small.
Qed.

Lemma found_number st key n : st !! key = Some (u64_to_bytes n) -> found st key = Some (u64_to_bytes n).
Proof.
  intros Hk. unfold found, read_answer. rewrite Hk. cbn [fst snd]. unfold u64_to_bytes.
  rewrite take_ge by (rewrite le_bytes_length; lia). unfold zlen. by rewrite le_bytes_length.
Qed.

Lemma stored_holds st key n : holds st key n -> stored_u64 (found st key) = n.
Proof.
  intros [Hn Hv]. destruct (st !! key) as [v|] eqn:Hk.
  - subst v. rewrite (found_number _ _ _ Hk). by apply bytes_to_u64_of.
  - unfold found, read_answer. by rewrite Hk.
Qed.

Lemma found_address st key k : is_Some (found (<[key := be_bytes 32 k]> st) key).
Proof.
  unfold found, read_answer. rewrite lookup_insert_eq. cbn [fst snd]. rewrite take_ge by (rewrite be_bytes_length; lia).
  unfold zlen. rewrite be_bytes_length. by eexists.
Qed.

(** The balance of a provider. *)
Lemma share_of st total provider :
  base st total -> exists n, stored_u64 (found st (liquidity_key provider)) = n /\ is_u64 n /\ n <= total
    /\ from_option bytes_to_u64 0 (shares st !! liquidity_key provider) = n.
Proof.
  intros [Hs Hsum _]. assert (is_share (liquidity_key provider) = true) as Hk.
  { unfold is_share, liquidity_key. by rewrite take_app_length'. }
  assert (shares st !! liquidity_key provider = st !! liquidity_key provider) as E.
  { unfold shares. rewrite map_lookup_filter. destruct (st !! liquidity_key provider); [|done]. cbn.
    rewrite option_guard_True by done. done. }
  assert (forall k v, shares st !! k = Some v -> 0 <= bytes_to_u64 v) as Hpos.
  { intros k v (n & Hn & ->)%Hs. rewrite bytes_to_u64_of by done. unfold is_u64 in *. lia. }
  rewrite E. destruct (st !! liquidity_key provider) as [v|] eqn:Hv.
  - pose proof (map_sum_lookup bytes_to_u64 (shares st) _ v Hpos E) as Hle. rewrite <-Hsum. unfold share_sum.
    destruct (Hs _ _ E) as (n & Hn & ->). rewrite bytes_to_u64_of in Hle by done. exists n.
    rewrite (found_number _ _ _ Hv). cbn [stored_u64 from_option]. rewrite bytes_to_u64_of by done. done.
  - exists 0. unfold found, read_answer. rewrite Hv. split_and!; try done. rewrite <-Hsum. by apply map_sum_nonneg.
Qed.

(** Writing a balance moves the sum. *)
Lemma base_share st total provider n :
  is_u64 n -> base st total ->
  base (<[liquidity_key provider := u64_to_bytes n]> st)
    (total - stored_u64 (found st (liquidity_key provider)) + n).
Proof.
  intros Hn Hb. destruct (share_of st total provider Hb) as (old & -> & _ & _ & Hold). destruct Hb as [Hs Hsum Hl].
  assert (is_share (liquidity_key provider) = true) as Hk by (unfold is_share, liquidity_key; by rewrite take_app_length').
  split.
  - intros key v. rewrite shares_insert by done. destruct (decide (liquidity_key provider = key)) as [<-|Hne].
    + rewrite lookup_insert_eq. intros [= <-]. by exists n.
    + rewrite lookup_insert_ne by done. apply Hs.
  - unfold share_sum. rewrite shares_insert, map_sum_put, Hold, bytes_to_u64_of by done. fold (share_sum st). lia.
  - rewrite found_insert; [done|]. intros E. rewrite E in Hk. by vm_compute in Hk.
Qed.

(** ** Reading and writing the pool *)

Record at_view (p : Pool) (v : View) : Prop := {
  av_a : pl_reserve_a p = vw_a v;
  av_b : pl_reserve_b p = vw_b v;
  av_liquidity : pl_total_liquidity p = vw_liquidity v;
  av_fee : pl_fee_numerator p = 3 /\ pl_fee_denominator p = 1000;
}.

Section pool.
Variable Q : Storage -> Prop.
Variable w : Z.

Lemma ok_load_pool k st v :
  reserves st v -> ok Q (k None) st -> (forall p, at_view p v -> ok Q (k (Some p)) st) -> ok Q (LichenSwap.load_pool w k) st.
Proof using Type.
  intros [Ha Hb Hl _] Hn Hp. unfold LichenSwap.load_pool. apply ok_get. destruct (found st _) as [ta|]; [|done].
  destruct (negb _); [done|]. apply ok_get. destruct (found st _) as [tb|]; [|done]. destruct (negb _); [done|].
  destruct (_ || _); [by apply ok_host|]. unfold Pool_load. do 5 apply ok_get. apply Hp.
  split; cbn; [by apply stored_holds..|done].
Qed.

Lemma ok_save p k st total v :
  at_view p v -> view_ok v -> base st total ->
  (forall st', base st' total -> reserves st' v -> ok Q k st') -> ok Q (Pool_save w p k) st.
Proof using Type.
  intros [Ea Eb El _] [Hva Hvb Hvl _] Hbase Hk. unfold Pool_save. do 5 apply ok_set. apply Hk.
  - do 5 (apply base_insert; [vm_compute; reflexivity|vm_compute; discriminate|]). done.
  - split; rewrite ?Ea, ?Eb, ?El.
    + do 2 (apply holds_insert; [vm_compute; discriminate|]). by apply holds_put.
    + apply holds_insert; [vm_compute; discriminate|]. by apply holds_put.
    + by apply holds_put.
    + intros _. do 4 (rewrite found_insert by (vm_compute; discriminate)). apply found_address.
Qed.
End pool.

(** ** Runs that leave the pool alone *)

(** Ends in a pool whose shares are worth at least as much. *)
Definition kept (v0 : View) (st : Storage) : Prop := exists v, pool_inv st v /\ worth_le v0 v.

Ltac head t := lazymatch t with ?f _ => head f | _ => t end.

(** Steps over everything that is not a write to the pool: [rules] are the lemmas for the
    parts of the contract. *)
Ltac walk_set :=
  apply ok_set;
  lazymatch goal with
  | Hi : pool_inv ?st ?v |- ok _ _ (<[?key := ?val]> ?st) =>
      let H := fresh in
      assert (H : pool_inv (<[key := val]> st) v) by (apply pool_inv_free; [vm_compute; reflexivity|exact Hi]);
      clear Hi; revert H; let st' := fresh "st" in generalize (<[key := val]> st); intros st' Hi
  end.

Ltac walk_step :=
  lazymatch goal with
  | |- ok _ (storage_get _ _ _) _ => apply ok_get
  | |- ok _ (storage_set _ _ _ _) _ => walk_set
  | |- ok _ (Host _ _ _) _ => apply ok_host; [reflexivity|intros ?]
  | |- ok _ (Done _ _) _ => apply ok_done; eexists; split; eassumption
  | |- ok _ (let _ := _ in _) _ => cbv zeta
  | |- ok _ (if ?b then _ else _) _ => destruct b
  | |- ok _ (match ?x with _ => _ end) _ => destruct x
  | |- ok _ ?g _ => let h := head g in unfold h
  end.

Section neutral.
Variable v0 v : View.
Variable w : Z.
Hypothesis Hworth : worth_le v0 v.

(** A part of the contract that leaves the pool alone, whatever it answers. *)
Definition neutral {A} (f : (A -> Guest) -> Guest) : Prop :=
  forall k st, pool_inv st v -> (forall x st', pool_inv st' v -> ok (kept v0) (k x) st') -> ok (kept v0) (f k) st.

Ltac walk_to_end Hk := repeat first [eapply Hk; eassumption | walk_step].

Lemma neutral_load_pool : neutral (LichenSwap.load_pool w).
Proof using Type. intros k st Hi Hk. eapply ok_load_pool; [apply Hi|by apply Hk|]. intros p _. by apply Hk. Qed.

Lemma neutral_snapshot now : neutral (fun k => LichenSwap.twap_snapshot w now (k tt)).
Proof using Type.
  intros k st Hi Hk. unfold LichenSwap.twap_snapshot. apply neutral_load_pool; [done|]. clear Hi. intros o st' Hi. walk_to_end Hk.
Qed.

Lemma neutral_twap : neutral (fun k => LichenSwap.twap_update w (k tt)).
Proof using Type.
  intros k st Hi Hk. unfold LichenSwap.twap_update.
  repeat first [lazymatch goal with
                | |- ok _ (LichenSwap.load_pool _ _) _ => apply neutral_load_pool; [done|]; clear Hi; let st' := fresh "st" in intros o st' Hi
                | |- ok _ (LichenSwap.twap_snapshot _ _ _) _ => apply (neutral_snapshot _ k); [done|done]
                end | eapply Hk; eassumption | walk_step].
Qed.

Lemma neutral_transfer_out token to amount : neutral (LichenSwap.transfer_out w token to amount).
Proof using Type. intros k st Hi Hk. walk_to_end Hk. Qed.

Lemma neutral_pull token payer amount : neutral (LichenSwap.pull_non_native_input w token payer amount).
Proof using Type. intros k st Hi Hk. walk_to_end Hk. Qed.

Lemma neutral_receive token from to amount : neutral (receive_token_or_native w token from to amount).
Proof using Type. intros k st Hi Hk. walk_to_end Hk. Qed.

Lemma neutral_balance token account : neutral (balance_of_token_or_native w token account).
Proof using Type. intros k st Hi Hk. walk_to_end Hk. Qed.

Lemma neutral_fee amount a : neutral (LichenSwap.accrue_protocol_fee w amount a).
Proof using Type. intros k st Hi Hk. destruct a; walk_to_end Hk. Qed.

Lemma neutral_bonus amount : neutral (LichenSwap.get_reputation_bonus w amount).
Proof using Type. intros k st Hi Hk. walk_to_end Hk. Qed.

Lemma neutral_with_bonus (a : bool) amount :
  neutral (LichenSwap.with_bonus w (if a then LichenSwap.PROTOCOL_FEES_B_KEY else LichenSwap.PROTOCOL_FEES_A_KEY) amount).
Proof using Type.
  intros k st Hi Hk. unfold LichenSwap.with_bonus. apply neutral_bonus; [done|]. clear Hi. intros bonus st' Hi.
  destruct a; walk_to_end Hk.
Qed.

Lemma neutral_track x y a : neutral (fun k => LichenSwap.track_swap w x y a (k tt)).
Proof using Type. intros k st Hi Hk. destruct a; walk_to_end Hk. Qed.

Lemma neutral_enter : neutral (LichenSwap.reentrancy_enter w).
Proof using Type. intros k st Hi Hk. walk_to_end Hk. Qed.

Lemma neutral_stored read keys acc : neutral (LichenSwap.return_stored w read keys acc).
Proof using Type.
  intros k st Hi Hk. revert acc. induction keys as [|key keys IH]; intros acc; cbn [LichenSwap.return_stored]; [by apply Hk|].
  apply ok_get, IH.
Qed.

Lemma kept_exit code st : pool_inv st v -> ok (kept v0) (LichenSwap.exit_with w code) st.
Proof using Hworth. intros Hi. repeat walk_step. Qed.
End neutral.

(** ** Operations of the pool *)

Section operations.
Variable v : View.
Variable w : Z.

(** Continues with a pool whose shares are worth at least as much. *)
Definition continues {A} (k : A -> Guest) : Prop :=
  forall x st v', pool_inv st v' -> worth_le v v' -> ok (kept v) (k x) st.

Lemma ok_add p st provider a b m k :
  pool_inv st v -> at_view p v -> is_u64 a -> is_u64 b -> continues k ->
  ok (kept v) (Pool_add_liquidity w p provider a b m k) st.
Proof using Type.
  intros Hi Hp Ha Hb Hk. assert (forall x, ok (kept v) (k x) st) as Hkeep by (intros x; apply (Hk x st v Hi), worth_le_refl).
  destruct Hi as [Hbase Hres Hv]. destruct Hp as [Ea Eb El Ef]. unfold Pool_add_liquidity.
  destruct (minted_liquidity p a b m) as [l|e] eqn:Hm; [|done]. rewrite Ea, Eb, El.
  destruct (checked_add64 (vw_a v) a) as [a'|] eqn:Ha'; [|done]. destruct (checked_add64 (vw_b v) b) as [b'|] eqn:Hb'; [|done].
  destruct (checked_add64 (vw_liquidity v) l) as [l'|] eqn:Hl'; [|done].
  apply checked_add64_Some in Ha' as [-> Hma], Hb' as [-> Hmb], Hl' as [-> Hml]. unfold u64_max in *.
  pose proof (vo_a v Hv). pose proof (vo_b v Hv). pose proof (vo_liquidity v Hv). unfold is_u64 in *.
  destruct (minted_ok p v a b m l Hv Ea Eb El Ha Hb Hm ltac:(lia)) as [Hl Hnew].
  destruct (Hnew _ _ eq_refl eq_refl) as [Hv' Hw']; [unfold is_u64; lia..|].
  unfold Pool_get_liquidity_balance. apply ok_get. destruct (share_of st _ provider Hbase) as (n & En & Hn & Hle & _). rewrite En.
  destruct (checked_add64 n l) as [n'|] eqn:Hn'; [|done]. apply checked_add64_Some in Hn' as [-> Hmn].
  unfold Pool_set_liquidity_balance. apply ok_set. unfold is_u64 in *.
  pose proof (base_share st (vw_liquidity v) provider (n + l) ltac:(unfold is_u64, u64_max in *; lia) Hbase) as Hb2. rewrite En in Hb2.
  replace (vw_liquidity v - n + (n + l)) with (vw_liquidity v + l) in Hb2 by lia.
  eapply (fun Hat => ok_save _ _ _ _ _ _ _ Hat Hv' Hb2); [split; cbn; rewrite ?Ea, ?Eb, ?El; done|].
  intros st' Hbase' Hres'. apply (Hk _ st' (mkView (vw_a v + a) (vw_b v + b) (vw_liquidity v + l))); [by split|done].
Qed.

Lemma ok_remove p st provider l ma mb k :
  pool_inv st v -> at_view p v -> is_u64 l -> continues k ->
  ok (kept v) (Pool_remove_liquidity w p provider l ma mb k) st.
Proof using Type.
  intros Hi Hp Hl Hk. assert (forall x, ok (kept v) (k x) st) as Hkeep by (intros x; apply (Hk x st v Hi), worth_le_refl).
  destruct Hi as [Hbase Hres Hv]. destruct Hp as [Ea Eb El Ef]. unfold Pool_remove_liquidity. rewrite Ea, Eb, El.
  destruct (Z.eqb_spec l 0) as [|Hl0]; [done|]. destruct (Z.eqb_spec (vw_liquidity v) 0) as [|Hv0]; [done|].
  unfold Pool_get_liquidity_balance. apply ok_get. destruct (share_of st _ provider Hbase) as (n & En & Hn & Hle & _). rewrite En.
  destruct (Z.ltb_spec n l) as [|Hnl]; [done|]. cbv zeta. destruct (_ || _); [done|]. unfold is_u64 in *.
  destruct (removed_ok v l Hv ltac:(lia)) as (_ & _ & Hv' & El' & Hw').
  unfold Pool_set_liquidity_balance. apply ok_set.
  pose proof (base_share st (vw_liquidity v) provider (n - l) ltac:(unfold is_u64; lia) Hbase) as Hb2. rewrite En in Hb2.
  replace (vw_liquidity v - n + (n - l)) with (vw_liquidity v - l) in Hb2 by lia.
  eapply (fun Hat => ok_save _ _ _ _ _ _ _ Hat Hv' Hb2); [split; cbn; rewrite ?Ea, ?Eb, ?El; done|].
  intros st' Hbase' Hres'. eapply (Hk _ st'); [split; [rewrite El'; exact Hbase'|exact Hres'|done]|done].
Qed.

(** A swap leaves the liquidity as it is and the product of the reserves not lower. *)
Lemma swapped_ok a' b' :
  view_ok v -> is_u64 a' -> is_u64 b' -> (0 < vw_liquidity v -> 0 < a' /\ 0 < b') -> (vw_liquidity v = 0 -> a' = 0 /\ b' = 0) ->
  vw_a v * vw_b v <= a' * b' ->
  view_ok (mkView a' b' (vw_liquidity v)) /\ worth_le v (mkView a' b' (vw_liquidity v)).
Proof using Type.
  intros [Hva Hvb Hvl Hbal] Ha Hb Hpos Hz Hk. split; [split; cbn; try done; intuition lia|].
  intros Hl _. cbn in *. apply Z.mul_le_mono_nonneg_r; [nia|done].
Qed.

Lemma ok_swap_pool (d : bool) p st x m k :
  pool_inv st v -> at_view p v -> is_u64 x -> continues k ->
  ok (kept v) ((if d then Pool_swap_a_for_b w p x m else Pool_swap_b_for_a w p x m) k) st.
Proof using Type.
  intros Hi Hp Hx Hk. assert (forall y, ok (kept v) (k y) st) as Hkeep by (intros y; apply (Hk y st v Hi), worth_le_refl).
  destruct Hi as [Hbase Hres Hv]. destruct Hp as [Ea Eb El [Efn Efd]]. pose proof (vo_a v Hv) as Hva. pose proof (vo_b v Hv) as Hvb.
  pose proof (vo_balanced v Hv) as Hbal. destruct d; [unfold Pool_swap_a_for_b|unfold Pool_swap_b_for_a]; rewrite Ea, Eb.
  - destruct (swap_reserves p x m (vw_a v) (vw_b v)) as [[[out a'] b']|e] eqn:Hs; [|done].
    destruct (swap_reserves_ok _ _ _ _ _ _ _ _ Efn Efd Hx Hva Hvb Hs) as (-> & Ha' & Hb' & Hle). unfold is_u64 in *.
    destruct (swapped_ok (vw_a v + x) b') as [Hv' Hw]; [done|unfold is_u64; lia..|done|].
    eapply (fun Hat => ok_save _ _ _ _ _ _ _ Hat Hv' Hbase); [split; cbn; rewrite ?Ea, ?Eb, ?El; done|].
    intros st' Hb2 Hr2. eapply (Hk _ st'); [|exact Hw]. by split.
  - destruct (swap_reserves p x m (vw_b v) (vw_a v)) as [[[out b'] a']|e] eqn:Hs; [|done].
    destruct (swap_reserves_ok _ _ _ _ _ _ _ _ Efn Efd Hx Hvb Hva Hs) as (-> & Hb' & Ha' & Hle). unfold is_u64 in *.
    destruct (swapped_ok a' (vw_b v + x)) as [Hv' Hw]; [done|unfold is_u64; lia..|nia|].
    eapply (fun Hat => ok_save _ _ _ _ _ _ _ Hat Hv' Hbase); [split; cbn; rewrite ?Ea, ?Eb, ?El; done|].
    intros st' Hb2 Hr2. eapply (Hk _ st'); [|exact Hw]. by split.
Qed.

(** The fee of a flash loan goes to the reserve. *)
Lemma ok_flash_save (is_a : bool) p st fee k :
  pool_inv st v -> at_view p v -> 0 < vw_liquidity v -> 0 <= fee ->
  (if is_a then vw_a v else vw_b v) + fee <= u64_max ->
  (forall st' v', pool_inv st' v' -> worth_le v v' -> ok (kept v) k st') ->
  ok (kept v) (Pool_save w (if is_a then set_pl_reserve_a (vw_a v + fee) p else set_pl_reserve_b (vw_b v + fee) p) k) st.
Proof using Type.
  intros [Hbase Hres Hv] [Ea Eb El Ef] Hl Hfee Hmax Hk. pose proof (vo_a v Hv). pose proof (vo_b v Hv).
  pose proof (vo_balanced v Hv). unfold is_u64, u64_max in *. destruct is_a.
  - destruct (swapped_ok (vw_a v + fee) (vw_b v)) as [Hv' Hw]; [done|unfold is_u64; lia..|nia|].
    eapply (fun Hat => ok_save _ _ _ _ _ _ _ Hat Hv' Hbase); [split; cbn; rewrite ?Ea, ?Eb, ?El; done|].
    intros st' Hb2 Hr2. eapply (Hk st'); [|exact Hw]. by split.
  - destruct (swapped_ok (vw_a v) (vw_b v + fee)) as [Hv' Hw]; [done|unfold is_u64; lia..|nia|].
    eapply (fun Hat => ok_save _ _ _ _ _ _ _ Hat Hv' Hbase); [split; cbn; rewrite ?Ea, ?Eb, ?El; done|].
    intros st' Hb2 Hr2. eapply (Hk st'); [|exact Hw]. by split.
Qed.
End operations.

(** ** The exports *)

Ltac after_part := [> eassumption | match goal with Hi : pool_inv _ _ |- _ => clear Hi end; let x := fresh "x" in let st := fresh "st" in intros x st Hi ].

(** Steps through a part that leaves the pool alone. *)
Ltac part_step :=
  lazymatch goal with
  | |- ok _ (LichenSwap.twap_update ?w ?k) _ => eapply (neutral_twap _ _ w (fun _ => k)); after_part
  | |- ok _ (LichenSwap.track_swap ?w ?x ?y ?a ?k) _ => eapply (neutral_track _ _ w x y a (fun _ => k)); after_part
  | |- ok _ (LichenSwap.transfer_out _ _ _ _ _) _ => eapply neutral_transfer_out; after_part
  | |- ok _ (LichenSwap.pull_non_native_input _ _ _ _ _) _ => eapply neutral_pull; after_part
  | |- ok _ (receive_token_or_native _ _ _ _ _ _) _ => eapply neutral_receive; after_part
  | |- ok _ (balance_of_token_or_native _ _ _ _) _ => eapply neutral_balance; after_part
  | |- ok _ (LichenSwap.accrue_protocol_fee _ _ _ _) _ => eapply neutral_fee; after_part
  | |- ok _ (LichenSwap.with_bonus _ (if ?d then _ else _) _ _) _ => eapply (neutral_with_bonus _ _ _ d); after_part
  | |- ok _ (LichenSwap.reentrancy_enter _ _) _ => eapply neutral_enter; after_part
  | |- ok _ (LichenSwap.return_stored _ _ _ _ _) _ => eapply neutral_stored; after_part
  | |- ok _ (LichenSwap.exit_with _ _) _ => eapply kept_exit; eassumption
  end.
Ltac walk := repeat first [part_step | walk_step].

Section exports.
Variable v : View.
Variable w : Z.
Hypothesis Hw : worth_le v v.

Lemma add_liquidity_ok st provider a b m :
  is_u64 a -> is_u64 b -> pool_inv st v -> ok (kept v) (LichenSwap.add_liquidity w provider a b m) st.
Proof using Hw.
  intros Ha Hb Hi. unfold LichenSwap.add_liquidity.
  repeat first [lazymatch goal with
    | |- ok _ (LichenSwap.load_pool _ _) _ => eapply ok_load_pool; [apply Hi| |intros p Hp]
    | |- ok _ (Pool_add_liquidity _ _ _ _ _ _ _) _ => apply ok_add; [done|done|done|done|]
    | |- continues _ _ => clear Hi; intros r st' v' Hi Hw'; clear Hw
    end | part_step | walk_step].
Qed.

Lemma remove_liquidity_ok st provider l ma mb :
  is_u64 l -> pool_inv st v -> ok (kept v) (LichenSwap.remove_liquidity w provider l ma mb) st.
Proof using Hw.
  intros Hl Hi. unfold LichenSwap.remove_liquidity.
  repeat first [lazymatch goal with
    | |- ok _ (LichenSwap.load_pool _ _) _ => eapply ok_load_pool; [apply Hi| |intros p Hp]
    | |- ok _ (Pool_remove_liquidity _ _ _ _ _ _ _) _ => apply ok_remove; [done|done|done|]
    | |- continues _ _ => clear Hi; intros r st' v' Hi Hw'; clear Hw
    end | part_step | walk_step].
Qed.

Lemma swap_ok st d x m : is_u64 x -> pool_inv st v -> ok (kept v) (LichenSwap.swap_direction w d x m) st.
Proof using Hw.
  intros Hx Hi. unfold LichenSwap.swap_direction.
  repeat first [lazymatch goal with
    | |- ok _ (LichenSwap.load_pool _ _) _ => eapply ok_load_pool; [apply Hi| |intros p Hp]
    | |- ok _ ((if ?d then Pool_swap_a_for_b _ _ _ _ else Pool_swap_b_for_a _ _ _ _) _) _ => apply ok_swap_pool; [done|done|done|]
    | |- continues _ _ => clear Hi; intros r st' v' Hi Hw'; clear Hw
    end | part_step | walk_step].
Qed.

Lemma flash_fee_pos x : is_u64 x -> 0 < LichenSwap.get_flash_loan_fee x.
Proof using Type.
  clear Hw. intros Hx. unfold LichenSwap.get_flash_loan_fee.
  pose proof (wrap_range 64 ((x * LichenSwap.FLASH_LOAN_FEE_BPS + 9999) / 10000) ltac:(lia)).
  destruct (Z.eqb_spec (wrap64 ((x * LichenSwap.FLASH_LOAN_FEE_BPS + 9999) / 10000)) 0); lia.
Qed.

(** A loan is possible only from a pool with liquidity. *)
Lemma loan_needs_liquidity x (is_a : bool) :
  view_ok v -> is_u64 x -> x <> 0 ->
  (mul_div64 (if is_a then vw_a v else vw_b v) LichenSwap.MAX_FLASH_LOAN_PERCENT 100 <? x) = false -> 0 < vw_liquidity v.
Proof using Type.
  clear Hw. intros [Hva Hvb Hvl Hbal] Hx H0 Hlt%Z.ltb_ge. unfold is_u64 in *. destruct Hbal as [(_ & Ea & Eb)|?]; [|lia].
  rewrite Ea, Eb in Hlt. destruct is_a; unfold mul_div64 in Hlt; rewrite Z.mul_0_l in Hlt;
    change (wrap64 (0 / 100)) with 0 in Hlt; lia.
Qed.

Lemma flash_ok st receiver x t data :
  is_u64 x -> pool_inv st v -> ok (kept v) (LichenSwap.flash_loan_execute w receiver x t data) st.
Proof using Hw.
  intros Hx Hi. unfold LichenSwap.flash_loan_execute. destruct (_ || _) eqn:Hx0; [walk|].
  apply orb_false_iff in Hx0 as [Hx0%Z.eqb_neq _]. destruct (_ <? _); [walk|]. unfold LichenSwap.is_ms_paused, LichenSwap.fl_is_active.
  walk_step. walk_step; [walk|]. walk_step. walk_step; [walk|]. part_step. walk_step; [walk|]. walk_step. walk_step.
  walk_step; [walk|]. eapply ok_load_pool; [apply Hi|walk|]. intros p Hp. set (is_a := t =? 1).
  destruct Hp as [Ea Eb El Ef].
  replace (if is_a then (pl_token_a p, pl_reserve_a p) else (pl_token_b p, pl_reserve_b p))
    with (if is_a then pl_token_a p else pl_token_b p, if is_a then vw_a v else vw_b v)
    by (destruct is_a; by rewrite ?Ea, ?Eb).
  destruct (mul_div64 _ _ _ <? x) eqn:Hcap; [walk|]. apply loan_needs_liquidity in Hcap; [|apply Hi|done|done].
  cbv zeta. pose proof (flash_fee_pos x Hx) as Hfee. set (fee := LichenSwap.get_flash_loan_fee x) in *.
  destruct (checked_add64 _ fee) as [new|] eqn:Hnew; [|walk]. apply checked_add64_Some in Hnew as [-> Hmax].
  replace (if is_a then set_pl_reserve_a ((if is_a then vw_a v else vw_b v) + fee) p
           else set_pl_reserve_b ((if is_a then vw_a v else vw_b v) + fee) p)
    with (if is_a then set_pl_reserve_a (vw_a v + fee) p else set_pl_reserve_b (vw_b v + fee) p) by (by destruct is_a).
  set (pool := if is_a then set_pl_reserve_a _ p else _).
  assert (forall st k, pool_inv st v -> (forall st' v', pool_inv st' v' -> worth_le v v' -> ok (kept v) k st') ->
    ok (kept v) (Pool_save w pool k) st) as Hsave.
  { intros st' k Hi' Hk. apply ok_flash_save; [done|by split|done|lia|done|done]. }
  clearbody pool is_a fee. clear Ea Eb El Ef.
  repeat first [lazymatch goal with
    | |- ok _ (Pool_save _ pool _) _ => apply Hsave; [done|clear Hi Hsave; intros st' v' Hi Hw'; clear Hw]
    end | part_step | walk_step].
Qed.

Lemma initialize_ok st a b : pool_inv st v -> ok (kept v) (LichenSwap.initialize w a b) st.
Proof using Hw.
  intros Hi. unfold LichenSwap.initialize. apply ok_get. destruct (found st (str_bytes "token_a")) eqn:Hf; cbn [is_some]; [walk|].
  destruct (a =? b); [walk|]. unfold Pool_initialize. destruct Hi as [Hbase Hres Hv].
  assert (v = mkView 0 0 0) as ->.
  { pose proof (rs_tokens st v Hres) as Ht. rewrite Hf in Ht. destruct v as [va vb vl]. cbn in *.
    destruct (vo_balanced _ Hv) as [(? & ? & ?)|(Hl & _)]; cbn in *; [congruence|]. by destruct (Ht Hl). }
  eapply (fun Hat => ok_save _ _ _ _ _ _ _ Hat Hv Hbase); [by split|]. intros st' Hb2 Hr2.
  assert (pool_inv st' (mkView 0 0 0)) as Hi by (by split). clear Hbase Hres Hb2 Hr2. walk.
Qed.

Lemma legacy_ok st g f :
  pool_inv st v -> g = LichenSwap.fl_is_active w f -> ok (kept v) (f false) st -> ok (kept v) g st.
Proof using Type.
  intros Hi -> Hf. unfold LichenSwap.fl_is_active. apply ok_get. by rewrite (bs_no_loan _ _ (pi_base _ _ Hi)).
Qed.

(** Every export keeps the invariant and the worth of shares. *)
Lemma export_ok g st : LichenSwap.export w g -> pool_inv st v -> ok (kept v) g st.
Proof using Hw.
  intros Hg Hi. destruct Hg;
    first [by apply initialize_ok | by apply add_liquidity_ok | by apply remove_liquidity_ok | by apply swap_ok
          | by apply flash_ok
          | eapply legacy_ok; [done|reflexivity|]; cbn [negb]; solve [walk]
          | unfold LichenSwap.before_deadline; do 2 walk_step; walk_step; [solve [walk]|by apply swap_ok]
          | solve [repeat first [lazymatch goal with
              | |- ok _ (LichenSwap.load_pool _ _) _ => eapply neutral_load_pool; after_part
              end | part_step | walk_step]]].
Qed.
End exports.
