(* ===== verification/SwapSafety.v ===== *)
(** * The exchange on the runtime

    The invariant of [SwapPool] for executions of the runtime, and where it stops: a call that
    enters the exchange again does not see the flag against it. *)

From S2P Require Import Prelude Crypto Block Account Transactions Fees Rent Transfers Restrictions Governed.
From S2P Require Import GovernanceActions Governance Processor Runtime ContractCalls CallStore Token Swap SwapPool.
From stdpp Require Import base tactics numbers list gmap strings.
From Stdlib Require Import ZArith Lia.

Local Open Scope Z_scope.
Local Open Scope rust_scope.

Section runtime.
Context `{Crypto} `{Wasm} `{ContractCodec} `{NftCodec} `{HostPrimitives}.
Variable store : StateStore.

Abbreviation Ctx := (@ContractContext Overlay).
Abbreviation Deeper := (option (ContractAccount -> bytes -> bytes -> Ctx -> result (@ContractResult Overlay) RuntimeError)).

(** ** Calls other than storage calls keep the frame *)

Lemma deduct_frame cost (c : Ctx) : cx_frame (deduct_compute cost c).2 = cx_frame c.
Proof using Type. unfold deduct_compute. by case_match. Qed.

Lemma blind_frame f (c : Ctx) : blind f -> cx_frame (f Overlay c).2 = cx_frame c.
Proof using Type. intros Hb. destruct (Hb ∅ c) as [_ (_ & Hf & _)]. done. Qed.

Lemma merge_frame target value deltas updates r (c c' : Ctx) :
  merge_callee store target value deltas updates r c = Some c' -> cx_frame c' = cx_frame c.
Proof using Type.
  unfold merge_callee. destruct (commit_deltas _ _ _ _) as [d|]; [|done]. cbn [mbind option_bind].
  case_match; [done|]. destruct (queue_all _ _ _) as [c1|] eqn:Hq; [|done]. intros [= <-].
  destruct (queue_all_place store _ _ _ Hq) as (_ & Hf & _). done.
Qed.

Lemma cross_call_frame (deeper : Deeper) target function args value n (c : Ctx) :
  cx_frame (host_cross_contract_call store deeper target function args value n c).2 = cx_frame c.
Proof using Type.
  unfold host_cross_contract_call. case_match; [done|]. case_match; [done|]. destruct deeper as [run|]; [|done].
  destruct (deduct_compute COMPUTE_CROSS_CALL c) as [[] c1] eqn:Hd;
    (assert (cx_frame c1 = cx_frame c) as <- by (rewrite <-(deduct_frame COMPUTE_CROSS_CALL c); by rewrite Hd)); [|done].
  case_match; [exact (blind_frame _ c1 (blind_native store function args n))|].
  destruct (load_callee _ _ _) as [contract|]; [|done]. case_match; [done|].
  destruct (attach_value _ _ _ _) as [[[deltas updates] projected]|]; [|done].
  destruct (run _ _ _ _) as [r|]; [|done]. case_match; [done|].
  destruct (merge_callee _ _ _ _ _ _ _) as [c2|] eqn:Hm; [|done]. by apply merge_frame in Hm.
Qed.

Lemma other_frame (deeper : Deeper) call (c : Ctx) :
  is_storage call = false -> cx_frame (host_call store deeper call c).2 = cx_frame c.
Proof using Type.
  intros Hc. destruct call; try done; cbn [host_call].
  - exact (blind_frame _ c (blind_log msg)).
  - exact (blind_frame _ c (blind_event data)).
  - exact (blind_frame _ c blind_caller).
  - exact (blind_frame _ c blind_address).
  - exact (blind_frame _ c (blind_code_hash store address)).
  - exact (blind_frame _ c (blind_entropy store slot)).
  - exact (blind_frame _ c (blind_allowed store asset from amount balance OutgoingTransfer)).
  - exact (blind_frame _ c (blind_allowed store asset to amount balance IncomingTransfer)).
  - exact (blind_frame _ c (blind_can_transfer store asset from to amount from_balance to_balance)).
  - exact (blind_frame _ c (blind_args out_len)).
  - exact (blind_frame _ c (blind_return data)).
  - apply cross_call_frame.
  - exact (blind_frame _ c (blind_poseidon l r)).
Qed.

(** ** Executions in which storage calls are served *)

(** Every read is answered from storage and every write is made: keys and values are short, and
    there is compute and room for them. *)
Fixpoint served (deeper : Deeper) (g : Guest) (c : Ctx) : Prop :=
  match g with
  | Host _ call k =>
      let '(a, c') := host_call store deeper call c in
      match call with
      | StorageRead key len => a = read_answer (cx_storage c) key len
      | StorageWrite _ _ => a = (1, [])
      | StorageDelete _ => False
      | _ => True
      end /\ served deeper (k a) c'
  | _ => True
  end.

Lemma read_keeps key len (c : Ctx) : cx_storage (host_storage_read key len c).2 = cx_storage c.
Proof using Type.
  unfold host_storage_read. case_match; [done|]. case_match; [done|].
  assert (cx_storage (deduct_compute COMPUTE_STORAGE_READ c).2 = cx_storage c) as <- by (unfold deduct_compute; by case_match).
  by case_match.
Qed.

Lemma write_makes key val (c : Ctx) :
  (host_storage_write key val c).1 = (1, []) -> cx_storage (host_storage_write key val c).2 = <[key := val]> (cx_storage c).
Proof using Type.
  unfold host_storage_write. destruct (_ || _); [done|]. destruct (_ <? _); [done|]. cbv zeta.
  destruct (_ && _); [done|]. destruct (MAX_TOTAL_STORAGE_BYTES <? _); [done|]. intros _.
  unfold cx_storage, put_storage, deduct_compute. cbn. by case_match.
Qed.

(** Such an execution is a run on the frame. *)
Lemma served_frame_run deeper g points (c c' : Ctx) code rest :
  run_guest (host_call store deeper) g points c = (Finished code, rest, c') -> served deeper g c ->
  frame_run g (cx_storage c) code (cx_storage c').
Proof using Type.
  revert points c. induction g as [n code'|n|n call k IH]; intros points c Hrun Hs; cbn [run_guest] in Hrun.
  - destruct (_ <? _); [done|]. injection Hrun as <- _ <-. constructor.
  - by destruct (_ <? _).
  - destruct (_ <? _); [done|]. cbn [served] in Hs. destruct (host_call store deeper call c) as [a c1] eqn:Hh.
    destruct Hs as [Ha Hs]. specialize (IH a _ _ Hrun Hs).
    destruct (is_storage call) eqn:Hst.
    + destruct call; try done; cbn [host_call] in Hh.
      * subst a. apply frame_read. pose proof (read_keeps key val_len c) as E. rewrite Hh in E. cbn [fst snd] in E. by rewrite E in IH.
      * subst a. apply frame_write. pose proof (write_makes key val c) as E. rewrite Hh in E. cbn [fst snd] in E. by rewrite <-(E eq_refl).
    + apply (frame_other _ _ _ a); [done|]. pose proof (other_frame deeper call c Hst) as E. rewrite Hh in E. cbn in E.
      unfold cx_storage in *. cbn in *. by rewrite <-E.
Qed.

End runtime.

(** ** A chain with two tokens, the exchange and a thief *)

Module SampleSwap.
#[local] Instance sample_crypto : Crypto := Toy.crypto.

(** Tokens 2 and 3, the exchange 4, the thief's contract 5. *)
Definition layout (parts : list bytes) : bytes := default [] (encode_layout_args parts).
Definition key (k : Pubkey) : bytes := be_bytes 32 k.
Definition number (n : Z) : bytes := le_bytes 8 n.

(** The values of a layout. *)
Fixpoint split_parts (strides : list Z) (data : bytes) : list bytes :=
  match strides with [] => [] | n :: strides => take (Z.to_nat n) data :: split_parts strides (drop (Z.to_nat n) data) end.
Definition parts (params : list WasmParam) (args : bytes) : list bytes :=
  match canonical_layout_descriptor args params with
  | Some (strides, start) => split_parts strides (drop start args)
  | None => []
  end.

Definition exchange (name args : bytes) : Guest :=
  let is_ f := bool_decide (name = str_bytes f) in
  if is_ "add_liquidity"%string then
    match parts [PtrI32; ValueI64; ValueI64; ValueI64] args with
    | [p; a; b; m] => LichenSwap.add_liquidity 10 (key_at p 0) (le_value a) (le_value b) (le_value m)
    | _ => Trap 0
    end
  else if is_ "remove_liquidity"%string then
    match parts [PtrI32; ValueI64; ValueI64; ValueI64; PtrI32; PtrI32] args with
    | p :: l :: ma :: mb :: _ => LichenSwap.remove_liquidity 10 (key_at p 0) (le_value l) (le_value ma) (le_value mb)
    | _ => Trap 0
    end
  else if is_ "flash_loan_execute"%string then
    match parts [PtrI32; ValueI64; PtrI32; PtrI32; PtrI32] args with
    | [r; a; t; data; len] => LichenSwap.flash_loan_execute 10 (key_at r 0) (le_value a) (le_value t) (take (Z.to_nat (le_value len)) data)
    | _ => Trap 0
    end
  else if is_ "swap_a_for_b"%string then
    match parts [ValueI64; ValueI64] args with
    | [a; m] => LichenSwap.swap_a_for_b 10 (le_value a) (le_value m)
    | _ => Trap 0
    end
  else Trap 0.

Definition call_swap (function : string) (args : list bytes) (k : option bytes -> Guest) : Guest :=
  call_contract 10 4 function (layout args) 0 k.
Definition approve (token : Pubkey) (amount : Z) (k : Guest) : Guest :=
  call_contract 10 token "approve" (layout [key 5; key 4; number amount]) 0 (fun _ => k).

(** Borrows 900 of token 2, and in the callback deposits them as liquidity with as many of
    token 3; then it withdraws. *)
Definition thief (name args : bytes) : Guest :=
  if bool_decide (name = str_bytes "attack") then
    call_swap "flash_loan_execute" [key 5; number 900; le_bytes 4 1; key 0; le_bytes 4 32] (fun _ =>
    call_swap "remove_liquidity" [key 5; number 901; number 0; number 0; key 0; key 0] (fun _ => Done 10 (Some 0)))
  else
    approve 2 901 (approve 3 901
      (call_swap "add_liquidity" [key 5; number 901; number 901; number 0] (fun _ => Done 10 (Some 0)))).

Definition no_memory (_ _ : Z) : bytes := [].
#[local] Instance sample_wasm : Wasm := {|
  wasm_valid := fun _ => true;
  wasm_export := fun code name =>
    if decide (code = [20]) then mt20_exports 10 no_memory name
    else if decide (code = [50]) then Some (exchange name)
    else if decide (code = [60]) then Some (thief name) else None;
|}.

(** The results that the ABIs of the contracts declare. *)
Definition declared (name : string) (kind : AbiResultKind) (success : list Z) : AbiFunction :=
  mkAbiFunction (str_bytes name) None false (Some (mkAbiResultSemantics kind success [])).
Definition abi_of (code : bytes) : option ContractAbi :=
  if decide (code = [20]) then
    Some (mkContractAbi [declared "balance_of" ReturnValue []; declared "transfer" ReturnCode [0];
                         declared "transfer_from" ReturnCode [0]; declared "approve" ReturnCode [0]] [])
  else if decide (code = [50]) then
    Some (mkContractAbi [declared "add_liquidity" NonzeroReturnValue []; declared "remove_liquidity" ReturnCode [1];
                         declared "swap_a_for_b" NonzeroReturnValue []; declared "flash_loan_execute" ReturnCode [0]] [])
  else None.
#[local] Instance sample_codec : ContractCodec := {|
  contract_bytes := fun c => Some (ca_code c);
  contract_of_bytes := fun code => Some (ContractAccount_new (abi_of code) code 1);
|}.
#[local] Instance no_nfts : NftCodec := {|
  decode_collection_state := fun _ => None; decode_token_state := fun _ => None; encode_token_state := fun _ => None;
|}.
#[local] Instance sample_primitives : HostPrimitives := {| poseidon_hash_pair := fun l r => l; json_string_map := fun _ => true |}.

Definition contract (code : Z) : Account := mkAccount 0 0 0 0 [code] None 1 true 0 false 0.
Definition accounts : gmap Pubkey Account :=
  {[2 := contract 20; 3 := contract 20; 4 := contract 50; 5 := contract 60; 6 := mkAccount 50 50 0 0 [] None 1 false 0 false 0]}.
Definition token_storage (swap thief : Z) : Storage :=
  {[balance_key TOKEN_PREFIX 4 := number swap; balance_key TOKEN_PREFIX 5 := number thief]}.
(** All liquidity belongs to account 7. *)
Definition swap_storage : Storage :=
  {[str_bytes "token_a" := key 2; str_bytes "token_b" := key 3; str_bytes "reserve_a" := number 1000;
    str_bytes "reserve_b" := number 1000; str_bytes "total_liquidity" := number 1000; liquidity_key 7 := number 1000]}.
Definition store : StateStore :=
  mkStateStore accounts {[2 := token_storage 1000 1; 3 := token_storage 1000 901; 4 := swap_storage]} empty_db 50 (fun _ => None).
Definition env : GovernanceEnv :=
  mkGovernanceEnv (mkGovEnv ∅ 10 None None None) None None None None None None None (fun _ => None) (fun _ => None).
Definition s0 : CallState :=
  mkCallState (mkGovernanceState (mkGovernedState accounts ∅ 0 ∅ ∅) ∅ 0
    (begin_batch empty_db) FeeConfig_default_from_constants ∅ None None []) ∅ [] [].
Definition attacked : ContractMeta * result CallState CallError :=
  contract_call_as_caller env store 1000000 6 5 (str_bytes "attack") [0] 0 no_meta s0.
Definition s1 : CallState := match attacked.2 with Ok s => s | Err _ => s0 end.
Definition stored_in (s : CallState) (t : Pubkey) (k : bytes) : Z := from_option bytes_to_u64 0 (batch_contract_storage store s t !! k).
Definition tokens (token owner : Pubkey) (s : CallState) : Z := stored_in s token (balance_key TOKEN_PREFIX owner).
Definition share (owner : Pubkey) (s : CallState) : Z := stored_in s 4 (liquidity_key owner).

Lemma swap_storage_inv : pool_inv swap_storage (mkView 1000 1000 1000).
Proof.
  assert (shares swap_storage = {[liquidity_key 7 := number 1000]}) as Hs by (vm_compute; reflexivity).
  split.
  - split; [|unfold share_sum; rewrite Hs; vm_compute; reflexivity|vm_compute; reflexivity].
    intros k v. rewrite Hs, lookup_singleton_Some. intros [_ <-]. exists 1000. split; [unfold is_u64; lia|reflexivity].
  - split; cbn [vw_a vw_b vw_liquidity]; [split; [unfold is_u64; lia|vm_compute; reflexivity]..|].
    intros _. exists (key 2). vm_compute. reflexivity.
  - split; cbn; [split; lia..|]. right. lia.
Qed.

Lemma storage_before : batch_contract_storage store s0 4 = swap_storage.
Proof.
  unfold batch_contract_storage. cbn [cl_overlay s0]. rewrite lookup_empty. cbn [default]. rewrite apply_changes_empty.
  reflexivity.
Qed.

Lemma attacked_ok : attacked = (attacked.1, Ok s1).
Proof. unfold s1. assert (is_ok attacked.2 = true) as Hok by (vm_compute; reflexivity). by destruct attacked as [m []]. Qed.

Lemma attack_balances :
  (tokens 2 5 s0, tokens 3 5 s0, tokens 2 4 s0) = (1, 901, 1000)
  /\ (tokens 2 5 s1, tokens 3 5 s1, tokens 2 4 s1) = (901, 901, 100)
  /\ (share 7 s1, stored_in s1 4 (str_bytes "total_liquidity")) = (1000, 99).
Proof. vm_compute. split_and!; reflexivity. Qed.

Lemma attack_sum :
  (share_sum (batch_contract_storage store s1 4), stored_u64 (found (batch_contract_storage store s1 4) (str_bytes "total_liquidity")))
  = (1000, 99).
Proof. vm_compute. reflexivity. Qed.

(** C23.  The flag against re-entrance does not protect the exchange.  The thief's contract, with one
    coin of token 2 and 901 of token 3, borrows 900 of token 2 from a pool of 1000 and 1000 that
    belongs to account 7, and deposits the borrowed coins as liquidity from inside the callback:
    that call does not see the flag, which the outer call has written to its own copy of the
    storage, and the deposit counts as the repayment.  When the outer call ends, it stores its
    old reserves and total over the new ones and leaves the thief's balance of liquidity.  The
    transaction succeeds and withdraws it: the thief ends with 901 of each token, the exchange
    keeps 100 of token 2 for account 7, whose 1000 shares stand against a total of 99, and no
    reserves make the invariant of the pool true again. *)
Theorem reentrant_loan_drains :
  pool_inv (batch_contract_storage store s0 4) (mkView 1000 1000 1000)
  /\ (tokens 2 5 s0, tokens 3 5 s0, tokens 2 4 s0) = (1, 901, 1000)
  /\ exists meta s',
       contract_call_as_caller env store 1000000 6 5 (str_bytes "attack") [0] 0 no_meta s0 = (meta, Ok s')
       /\ (tokens 2 5 s', tokens 3 5 s', tokens 2 4 s') = (901, 901, 100)
       /\ (share 7 s', stored_in s' 4 (str_bytes "total_liquidity")) = (1000, 99)
       /\ forall v, ~ pool_inv (batch_contract_storage store s' 4) v.
Proof.
  destruct attack_balances as (Hb & Ha & Ht). split; [rewrite storage_before; exact swap_storage_inv|].
  split; [exact Hb|]. exists attacked.1, s1. split_and!; [exact attacked_ok|exact Ha|exact Ht|].
  intros v [[_ Hsum _] [_ _ Hl _] _]. apply stored_holds in Hl. pose proof attack_sum as E. congruence.
Qed.

(** Account 7 withdraws a tenth. *)
Definition withdrawal : Guest := LichenSwap.remove_liquidity 10 7 100 0 0.
Definition deeper := Some (execute (B:=Overlay) store 3).
Definition start : @ContractContext Overlay := build_top_level_call_context store 7 4 0 10 swap_storage [] 1000000.
Definition run := run_guest (host_call store deeper) withdrawal 1000000 start.

Lemma withdrawal_served : served store deeper withdrawal start.
Proof. vm_compute. repeat split. Qed.

Lemma withdrawal_export : LichenSwap.export 10 withdrawal.
Proof. apply LichenSwap.ex_remove. unfold is_u64. lia. Qed.

Lemma withdrawal_start_inv : pool_inv (cx_storage start) (mkView 1000 1000 1000).
Proof. change (cx_storage start) with swap_storage. exact swap_storage_inv. Qed.

End SampleSwap.
